(* ===== verification/_CoqProject ===== *)
-Q . S2P
Prelude.v
Errno.v
State.v
Pmm.v
Oom.v
Slab.v
Swap.v
Vmm.v
PageEntry.v
PageForest.v
PageMoves.v
PageSteps.v
VmmDestroy.v
Cpu.v
ThreadMem.v
Sched.v
SchedSpec.v
SchedSteps.v
SchedTypes.v
Ring.v
NetBytes.v
Tcp.v
TcpSpec.v
TcpRecv.v
TcpSend.v
TcpSteps.v
TcpStream.v
TcpWrite.v
TcpWire.v
NetState.v
Ethernet.v
Arp.v
Inet.v
Dns.v
Dhcp.v
NetStack.v
NetSpec.v
ArpSpec.v
DnsSpec.v
InetSpec.v
Pipe.v
Ofd.v
Fdtable.v
FdRefs.v
Ipc.v
Signal.v
Cstr.v
Path.v
Alias.v
Mount.v
Perm.v
Civil.v
Tty.v
Sync.v
Klog.v
Initramfs.v
Tmpfs.v
TmpfsSpec.v
Vfs.v
Live.v
VfsSpec.v
VfsAccess.v
