(* ===== verification/Prelude.v ===== *)
(** * PureC OS: the kernel's core, modelled and verified

    PureC OS is a 64-bit hobby operating system written in C.  This library
    models the parts of its kernel that keep state of their own and states what
    makes each of them correct.  Source names are those under src/src/.

    ** The parts and how they interact

    - Memory.  [Pmm] is the physical page allocator (mm/pmm.c): the frame bitmap,
      the share counts and the cursor.  [Slab] (mm/oom/oom_slab.c) carves its
      pages into objects, [Oom] (mm/oom/*.c) accounts for the pages of processes,
      admits or refuses them and chooses what to reclaim or kill.  [Swap] (io/swap.c)
      keeps pages on a disk (the interface [Disk]), [Vmm] (mm/vmm.c) is the page
      tables of the processes over [Pmm] and [Swap]; [PageEntry] has the bits of the
      entries, [PageForest] the invariant of a forest of tables, [PageMoves] and
      [PageSteps] the small steps of the operations on it, [VmmDestroy] the end of a
      space.
    - Threads.  [Cpu] is the table of processors (kernel/smp/cpu.c), [ThreadMem]
      the record and the stack a thread is made of, over [Slab] and [Pmm], [Sched]
      the scheduler (kernel/process/scheduler.c).  [SchedSpec] has what each of its
      operations does to the shape of its tables, [SchedSteps] makes them the
      steps of several processors, [SchedTypes] bounds the numbers.
    - Communication.  [Pipe] (kernel/ipc/pipe.c, over the rings of [Ring]) and
      [Ipc] (kernel/ipc/ipc.c) move bytes and messages between threads; pipes
      take frames from [Pmm], mailboxes and messages are objects of [Slab].
    - Descriptors.  [Fdtable] (kernel/process/fdtable.c) maps the small numbers
      of a process to the descriptions of [Ofd] (kernel/process/ofd.c), which are
      consoles, pipe ends or handles of the file system, the interface [VfsOps];
      [FdRefs] proves the counts of all three levels exact together.
    - Files.  [Path] normalises paths, [Alias] rewrites old ones, [Mount] finds
      the file system of a path, [Perm] keeps the modes and owners and parses
      accounts (fs/vfs_path.c, vfs_alias.c, vfs_mount.c, vfs_perm.c, with the byte
      strings of [Cstr]).  [Tmpfs] is the in-memory file system (fs/tmpfs.c),
      [TmpfsSpec] its specification; [Initramfs] reads the boot image
      (fs/initramfs.c) that mk/gen_assets.py writes.  [Vfs] is the core (fs/vfs.c)
      that ties them together over the interface [World], in the state monad of
      [State]; [VfsSpec] shows that it implements [VfsOps], [VfsAccess] that it
      checks permissions.  [Live] is a [World] made of the modelled components
      (fs/vfs_backends.c), a system started from its boot image.
    - Network.  [NetBytes] has the byte order and the checksum of the internet
      (net/util/byteorder.h, net/network/ipv4.c), [Tcp] the sockets of
      net/transport/tcp.c over the interface [Ipv4].  [TcpSpec], [TcpRecv] and
      [TcpSend] have what its operations do to one socket, [TcpSteps] makes them
      the steps of a table of sockets, [TcpStream] and [TcpWrite] follow the bytes
      of a connection on its two ends, [TcpWire] reads segments back.  [NetState]
      is the state of everything below: devices and their queues ([Ethernet],
      net/core/net_device.c, link/ethernet.c), the address cache ([Arp],
      link/arp.c), [Inet] (network/ipv4.c, transport/udp.c, diagnostics/icmp.c),
      [Dns] (name/dns.c) and [Dhcp] (config/dhcp.c).  The device itself is the
      interface [Nic].  [NetStack] ties them together: it is the [Ipv4] that [Tcp]
      asks for, and has the rounds of the network service (core/net_service.c).
      [NetSpec], [ArpSpec], [DnsSpec] and [InetSpec] prove what they promise.
    - Processes and devices.  [Signal] (kernel/process/signal.c and the place of
      the interrupt handler that stores a system call's result), [Tty]
      (kernel/tty/tty.c), [Civil] (kernel/time/civil.c), [Klog]
      (kernel/diagnostics/klog.c), [Sync] (kernel/sync/mutex.c, spinlock.h).
    - [Prelude] holds what all share: machine integers as [Z] with their wraps
      written out, record update, bounded loops, C arrays; [Errno] the error
      numbers.

    ** How the code is rendered

    A C function becomes a Rocq function from the state it reads to its result
    and the new state.  Static tables are lists of records read with [aget] and
    written with [aset]; a struct is a record with the fields of the struct.
    Every operation of an unsigned type that can wrap is followed by [u8], [u16],
    [u32] or [u64]; where a proof removes the wrap it proves the bound.  Error
    returns are the negative numbers of the code.  The functions of one file hold
    that file's lock from entry to return, so each is one atomic step; where a
    call releases the lock in the middle (the loops of [pipe_read],
    [pipe_write], [ipc_recv] and [tty_read]) one round is a step and the call runs
    over a schedule of what others do between its rounds.  The scheduler's lock
    makes its operations atomic too: a step is an operation of one processor, and
    the processors take turns in any order.  [Sync] is about the
    locks themselves, at the level of their atomic accesses.  Above each
    definition a bracket gives the file, the lines and the function it renders.

    ** What the theorems show

    - Refinement.  The in-memory file system is a map from paths to directories
      and files ([TmpfsSpec.tmpfs_refines]), the mount table a map whose look-up
      finds the deepest mount ([Mount.mount_find_deepest]), the permission table
      a map but for renames onto recorded paths ([Perm.perm_table_is_map]), the page accounts a ledger
      ([Oom.oom_accounts_refine_ledger]); the rewriting of paths is a rewriting of
      lists of names ([Alias.alias_resolve_correct]).
    - Exact accounting.  Reference counts of descriptors, descriptions, pipe ends
      and handles ([FdRefs], and over the real file system core
      [VfsSpec.core_handles_exact]), slab objects of mailboxes ([Ipc.ipc_objects_exact]),
      frames of pipes and files ([Pipe.pipe_frames_exclusive],
      [TmpfsSpec.tmpfs_frames_exact]), the allocator's own invariant and shared
      pages ([Pmm.pmm_reachable_wf], [Pmm.pmm_shared_page_release]).
    - Threads.  In every reachable state each processor runs one thread and no
      two the same, the table of numbers is exact and so is the memory
      ([SchedSteps.scheduler_one_processor_each], [SchedSteps.scheduler_table_exact],
      [SchedSteps.scheduler_memory_exact]); the choice of the next thread is the fair
      one ([SchedSteps.pick_next_fair]), no wake-up of a
      number below 2^31 is lost ([SchedSteps.wakeup_not_lost], and
      [SchedSteps.wakeup_large_lost] for the others), numbers stay in their types,
      the clock does not go back and the average does not wrap
      ([SchedTypes.scheduler_typed]).
    - Data.  Pipes, mailboxes and the terminal deliver what was put in, in order;
      files read back what was written; normalised paths, dates, account lines,
      boot images and signal frames survive their round trips; a reader of the
      kernel log sees each byte once or is told what it lost.
    - Connections.  What a socket gives to its reader is what the other end put
      into the connection, from the first byte and without a gap, whatever the
      network loses, repeats and reorders ([TcpStream.tcp_receives_stream]); what
      it sends is what its owner wrote, each byte under its own number
      ([TcpWrite.tcp_sends_stream]).  A datagram or a segment that leaves one
      machine comes out of another as it went in ([NetSpec.datagram_arrives],
      [NetSpec.segment_arrives]); addresses of the link are the latest claims
      ([ArpSpec.arp_answers_latest]); answers of name servers are read inside their
      packets, names are asked for as they were given, and the cache of names gives
      out what it was told, for as long as it was told ([DnsSpec]); an address is
      read from exactly the texts that denote one ([InetSpec]).
    - Safety.  Nobody changes the tree of files without the permission for it
      ([VfsAccess.vfs_changes_permitted]); mutual exclusion and progress of the locks, SIGKILL and SIGSTOP
      stay deliverable, a return from a handler cannot raise its privileges, a
      waiter always has a reason to wait.
    - Ends and edges.  Non-blocking calls return, walks to the root of a tree
      end, and the error cases the code gets wrong are theorems about it.

    ** Bounds and fuel

    A loop over a table has the table's size.  The normalisation and the
    look-ups consume a byte in each round, so the length of the path plus one is
    enough ([Path.normalize_loop_spec], [Tmpfs.lookup_loop_spec]); the walk to the
    root of the in-memory tree visits each of its 256 nodes at most once
    ([Tmpfs.at_path_depth]); signal delivery has 33 rounds for 32 signals, the
    drain of a terminal 513 for 512 bytes, a decimal number 12 digits for 32
    bits and 64 in the log; the walk over a boot image has 513 rounds for the 512
    entries the mount admits ([Initramfs.initramfs_any_image_safe]); a read nests
    in itself once ([VfsSpec.vfs_read_nests_once]).  A call that may block for ever is a function of its schedule and
    answers [None] when the schedule ends first; that non-blocking calls return
    is proved.  A new thread tries one number more than there are threads
    ([SchedSteps.create_thread_total]); a segment has no more options than bytes,
    and TCP sends no more segments than it has unsent bytes ([TcpSpec.output_loop_ends]).
    A name in a DNS packet has at most 128 labels, as the code counts them; the
    options of a DHCP message are at most as many as its bytes.

    ** Not modelled

    Hardware and its registers (drivers, interrupt tables, start-up, the copies of
    page table entries that processors hold), the table of processes and the loader
    (signals ask a predicate whether a range of a process can be read or written),
    the registers a context switch saves, the block layer and ext2 (an interface
    of [Vfs]), network devices (the
    interface [Nic]) and wireless networks, graphics and the desktop, the output of the log
    to the serial line and the screen, and the user programs, several of which
    are third-party (Lua, MicroPython, make).  Memory order weaker than sequential
    consistency is not modelled in [Sync].

    Next: the program loader's checks, ext2 as a component of [Live]. *)

From stdpp Require Export base tactics numbers list list_numbers gmap fin_maps strings.
From Stdlib Require Export ZArith Lia.

#[export] Set Default Proof Using "Type".
#[export] Unset Program Cases.

(** ** Record update

    [s <| f := v |>] is the C assignment [s.f = v] on a record value.  A record
    opts in by declaring its eta-expansion as an [Eta] instance. *)

Class Eta (R : Type) := eta : R → R.
Class Setter {R T : Type} (proj : R → T) := set_field : (T → T) → R → R.
Arguments set_field {R T} proj {_} _ _.

Ltac build_setter proj :=
  lazymatch type of proj with
  | ?R → ?T =>
      let e := constr:(_ : Eta R) in
      let body := eval red in e in
      exact (λ (upd : T → T) (r : R),
        ltac:(let b := eval cbv beta in (body r) in
              lazymatch eval pattern (proj r) in b with
              | ?g _ => let t := eval cbv beta in (g (upd (proj r))) in exact t
              end))
  end.

#[export] Hint Extern 1 (Setter ?proj) => build_setter proj : typeclass_instances.

Declare Scope purec_scope.
Delimit Scope purec_scope with purec.
#[export] Set Warnings "-notation-overridden".
Notation "s <| f := v |>" := (set_field f (λ _, v) s)
  (at level 1, f at level 0, left associativity) : purec_scope.
Open Scope Z_scope.
Open Scope purec_scope.

(** ** Machine integers

    A C unsigned value of width [w] is a [Z] in [[0, 2^w)]; every C operation
    that may leave the range is followed by the wrap of its width. *)

Definition u8 (z : Z) : Z := z mod 2 ^ 8.
Definition u16 (z : Z) : Z := z mod 2 ^ 16.
Definition u32 (z : Z) : Z := z mod 2 ^ 32.
Definition u64 (z : Z) : Z := z mod 2 ^ 64.
(** Conversion to [int32_t] (two's complement, what gcc does). *)
Definition i32 (z : Z) : Z := (z + 2 ^ 31) mod 2 ^ 32 - 2 ^ 31.
Definition i64 (z : Z) : Z := (z + 2 ^ 63) mod 2 ^ 64 - 2 ^ 63.

Definition UINT16_MAX : Z := 65535.
Definition UINT32_MAX : Z := 4294967295.
Definition UINT64_MAX : Z := 18446744073709551615.

(** Value ranges, as predicates on [Z]. *)
Definition is_u8 (z : Z) : Prop := 0 ≤ z < 2 ^ 8.
Definition is_u16 (z : Z) : Prop := 0 ≤ z < 2 ^ 16.
Definition is_u32 (z : Z) : Prop := 0 ≤ z < 2 ^ 32.
Definition is_u64 (z : Z) : Prop := 0 ≤ z < 2 ^ 64.

Lemma u8_small z : 0 ≤ z < 2 ^ 8 → u8 z = z.
Proof. apply Z.mod_small. Qed.
Lemma u16_small z : 0 ≤ z < 2 ^ 16 → u16 z = z.
Proof. apply Z.mod_small. Qed.
Lemma u32_small z : 0 ≤ z < 2 ^ 32 → u32 z = z.
Proof. apply Z.mod_small. Qed.
Lemma u64_small z : 0 ≤ z < 2 ^ 64 → u64 z = z.
Proof. apply Z.mod_small. Qed.
Lemma i32_small z : - 2 ^ 31 ≤ z < 2 ^ 31 → i32 z = z.
Proof. intros. unfold i32. rewrite Z.mod_small; lia. Qed.
Lemma i64_small z : - 2 ^ 63 ≤ z < 2 ^ 63 → i64 z = z.
Proof. intros. unfold i64. rewrite Z.mod_small; lia. Qed.

Lemma u8_range z : is_u8 (u8 z).
Proof. apply Z.mod_pos_bound. lia. Qed.
Lemma u16_range z : is_u16 (u16 z).
Proof. apply Z.mod_pos_bound. lia. Qed.
Lemma u32_range z : is_u32 (u32 z).
Proof. apply Z.mod_pos_bound. lia. Qed.
Lemma u64_range z : is_u64 (u64 z).
Proof. apply Z.mod_pos_bound. lia. Qed.

(** [widths] removes the wraps whose argument [lia] shows to be in range. *)
Ltac widths :=
  repeat match goal with
  | |- context [u64 ?z] => rewrite (u64_small z) by lia
  | |- context [u32 ?z] => rewrite (u32_small z) by lia
  | |- context [u16 ?z] => rewrite (u16_small z) by lia
  | |- context [u8 ?z] => rewrite (u8_small z) by lia
  | |- context [i32 ?z] => rewrite (i32_small z) by lia
  end.

(** [zify_bool] turns the boolean tests of the context into propositions. *)
Ltac zify_bool :=
  repeat match goal with
  | H : (_ && _)%bool = true |- _ => apply andb_true_iff in H; destruct H
  | H : (_ || _)%bool = false |- _ => apply orb_false_iff in H; destruct H
  | H : negb _ = true |- _ => apply negb_true_iff in H
  | H : negb _ = false |- _ => apply negb_false_iff in H
  | H : (_ =? _) = true |- _ => apply Z.eqb_eq in H
  | H : (_ =? _) = false |- _ => apply Z.eqb_neq in H
  | H : (_ <? _) = true |- _ => apply Z.ltb_lt in H
  | H : (_ <? _) = false |- _ => apply Z.ltb_ge in H
  | H : (_ <=? _) = true |- _ => apply Z.leb_le in H
  | H : (_ <=? _) = false |- _ => apply Z.leb_gt in H
  end.

(** [branch] splits the first [if] or [match] of the goal and simplifies. *)
Ltac branch :=
  match goal with
  | |- context [if ?b then _ else _] => destruct b eqn:?
  | |- context [match ?x with _ => _ end] => destruct x eqn:?
  end; zify_bool; simplify_eq/=.

(** The same on a hypothesis, for inverting a successful run. *)
Ltac branch_in H :=
  match type of H with
  | context [if ?b then _ else _] => destruct b eqn:?
  | context [match ?x with _ => _ end] => destruct x eqn:?
  end; zify_bool; simplify_eq/=.

(** ** Counting loops

    [for_first p n i] is [for (k = i; k < i + n; k++) if (p(k)) return k;]:
    the first index of the range that satisfies the test. *)
Fixpoint for_first (p : Z → bool) (n : nat) (i : Z) : option Z :=
  match n with
  | O => None
  | S n' => if p i then Some i else for_first p n' (i + 1)
  end.

Lemma for_first_Some p n i k :
  for_first p n i = Some k →
  i ≤ k < i + Z.of_nat n ∧ p k = true ∧ ∀ j, i ≤ j < k → p j = false.
Proof.
  revert i; induction n as [|n IH]; intros i; simpl; [done|].
  destruct (p i) eqn:E; [intros [= <-]; split; [lia|split; [done|lia]]|].
  intros (?&?&Hj)%IH. split; [lia|]. split; [done|]. intros j ?.
  destruct (decide (j = i)) as [->|]; [done|apply Hj; lia].
Qed.

Lemma for_first_None p n i :
  for_first p n i = None ↔ ∀ j, i ≤ j < i + Z.of_nat n → p j = false.
Proof.
  revert i; induction n as [|n IH]; intros i; simpl.
  - split; [lia|done].
  - destruct (p i) eqn:E.
    + split; [done|]. intros H. rewrite H in E; [done|lia].
    + rewrite IH. split; intros H j ?.
      * destruct (decide (j = i)) as [->|]; [done|apply H; lia].
      * apply H; lia.
Qed.

Lemma for_first_intro p n i k :
  i ≤ k < i + Z.of_nat n → p k = true → (∀ j, i ≤ j < k → p j = false) → for_first p n i = Some k.
Proof.
  revert i. induction n as [|n IH]; intros i Hk Hp Lo; [lia|]. cbn [for_first].
  destruct (decide (i = k)) as [->|Ne]; [by rewrite Hp|]. rewrite Lo by lia.
  apply IH; [lia|done|intros; apply Lo; lia].
Qed.

Lemma for_first_ext p q n i : (∀ j, i ≤ j < i + Z.of_nat n → p j = q j) → for_first p n i = for_first q n i.
Proof.
  revert i. induction n as [|n IH]; intros i E; [done|]. cbn [for_first]. rewrite (E i) by lia. destruct (q i); [done|].
  apply IH. intros j ?. apply E. lia.
Qed.

Lemma for_first_is_Some p n i k :
  i ≤ k < i + Z.of_nat n → p k = true → is_Some (for_first p n i).
Proof.
  intros Hk Hp. destruct (for_first p n i) eqn:E; [eauto|].
  rewrite for_first_None in E. rewrite E in Hp; done.
Qed.

(** [count_if p n i] is the number of indices of [[i, i+n)] satisfying [p]. *)
Fixpoint count_if (p : Z → bool) (n : nat) (i : Z) : Z :=
  match n with
  | O => 0
  | S n' => (if p i then 1 else 0) + count_if p n' (i + 1)
  end.

Lemma count_if_range p n i : 0 ≤ count_if p n i ≤ Z.of_nat n.
Proof.
  revert i; induction n as [|n IH]; intros i; simpl; [lia|].
  specialize (IH (i + 1)). destruct (p i); lia.
Qed.

Lemma count_if_ext p q n i :
  (∀ j, i ≤ j < i + Z.of_nat n → p j = q j) → count_if p n i = count_if q n i.
Proof.
  revert i; induction n as [|n IH]; intros i H; simpl; [done|].
  rewrite (IH (i + 1)) by (intros; apply H; lia). rewrite H by lia. done.
Qed.

Lemma count_if_zero p n i :
  (∀ j, i ≤ j < i + Z.of_nat n → p j = false) → count_if p n i = 0.
Proof.
  revert i; induction n as [|n IH]; intros i H; simpl; [done|].
  rewrite H, IH by (intros; try apply H; lia). done.
Qed.

Lemma count_if_pos p n i :
  0 < count_if p n i → ∃ j, i ≤ j < i + Z.of_nat n ∧ p j = true.
Proof.
  revert i; induction n as [|n IH]; intros i; simpl; [lia|].
  destruct (p i) eqn:E; intros H; [exists i; split; [lia|done]|].
  destruct (IH (i + 1)) as (j&?&?); [lia|]. exists j; split; [lia|done].
Qed.

Lemma count_if_witness p n i j :
  i ≤ j < i + Z.of_nat n → p j = true → 0 < count_if p n i.
Proof.
  revert i; induction n as [|n IH]; intros i ??; simpl; [lia|].
  pose proof (count_if_range p n (i + 1)).
  destruct (p i) eqn:E; [lia|].
  destruct (decide (j = i)) as [->|]; [congruence|].
  apply Z.lt_le_trans with (count_if p n (i + 1)); [apply IH; [lia|done]|lia].
Qed.

Lemma count_if_split p n m i :
  count_if p (n + m) i = count_if p n i + count_if p m (i + Z.of_nat n).
Proof.
  revert i; induction n as [|n IH]; intros i; cbn [count_if Nat.add].
  { replace (i + Z.of_nat 0) with i by lia. lia. }
  rewrite IH. replace (i + 1 + Z.of_nat n) with (i + Z.of_nat (S n)) by lia. lia.
Qed.

(** Changing the predicate at one index changes the count by one. *)
Lemma count_if_flip p q n i k :
  i ≤ k < i + Z.of_nat n →
  p k = true → q k = false → (∀ j, j ≠ k → i ≤ j < i + Z.of_nat n → p j = q j) →
  count_if p n i = count_if q n i + 1.
Proof.
  revert i; induction n as [|n IH]; intros i ? Hp Hq H; simpl; [lia|].
  destruct (decide (i = k)) as [->|].
  - rewrite Hp, Hq, (count_if_ext p q) by (intros; apply H; lia). lia.
  - rewrite (IH (i + 1)) by (try done; try lia; intros; apply H; lia).
    rewrite (H i) by lia. lia.
Qed.

(** ** C arrays

    An array is the list of its cells; an index is a [Z].  Reads outside the
    array give the default of the cell type; the theorems show that the code
    does not make them where that matters. *)
Definition aget {A} (d : A) (l : list A) (i : Z) : A := nth (Z.to_nat i) l d.
Definition aset {A} (l : list A) (i : Z) (x : A) : list A := <[Z.to_nat i := x]> l.

Lemma length_aset {A} (l : list A) i x : length (aset l i x) = length l.
Proof. apply length_insert. Qed.

Lemma aget_lookup {A} (d : A) l i x :
  0 ≤ i → l !! Z.to_nat i = Some x → aget d l i = x.
Proof. intros _ H. unfold aget. rewrite nth_lookup, H. done. Qed.

Lemma aget_aset_eq {A} (d : A) l i x :
  0 ≤ i < Z.of_nat (length l) → aget d (aset l i x) i = x.
Proof.
  intros. unfold aget, aset. rewrite nth_lookup, list_lookup_insert_eq by lia. done.
Qed.

Lemma aget_aset_ne {A} (d : A) l i j x :
  0 ≤ i → 0 ≤ j → i ≠ j → aget d (aset l i x) j = aget d l j.
Proof.
  intros. unfold aget, aset. rewrite !nth_lookup, list_lookup_insert_ne by lia. done.
Qed.

Lemma aset_aset {A} (l : list A) i x y : aset (aset l i x) i y = aset l i y.
Proof. apply list_insert_insert_eq. Qed.

Lemma aget_aset {A} (d : A) l i j x :
  0 ≤ i < Z.of_nat (length l) → 0 ≤ j →
  aget d (aset l i x) j = if i =? j then x else aget d l j.
Proof.
  intros. destruct (Z.eqb_spec i j) as [->|].
  - apply aget_aset_eq; lia.
  - apply aget_aset_ne; lia.
Qed.


(** [z_find p n] is the scan [for (i = 0; i < n; i++) if (p(i)) return i;
    return -1;] of the C code's lookup helpers. *)
Definition z_find (p : Z → bool) (n : nat) : Z := default (-1) (for_first p n 0).

Lemma z_find_spec p n :
  (z_find p n = -1 ∧ ∀ j, 0 ≤ j < Z.of_nat n → p j = false) ∨
  (0 ≤ z_find p n < Z.of_nat n ∧ p (z_find p n) = true ∧
   ∀ j, 0 ≤ j < z_find p n → p j = false).
Proof.
  unfold z_find. destruct (for_first p n 0) as [k|] eqn:E; simpl; [right|left].
  - apply for_first_Some in E as (?&?&Hj). split; [lia|]. split; [done|]. intros; apply Hj; lia.
  - split; [done|]. rewrite for_first_None in E. intros; apply E; lia.
Qed.

(** The sum of a field over an array. *)
Fixpoint sum_of {A} (f : A → Z) (l : list A) : Z :=
  match l with [] => 0 | x :: l' => f x + sum_of f l' end.

Lemma sum_of_app {A} (f : A → Z) l k : sum_of f (l ++ k) = sum_of f l + sum_of f k.
Proof. induction l; simpl; lia. Qed.

Lemma sum_of_insert {A} (f : A → Z) l i x y :
  l !! i = Some y → sum_of f (<[i := x]> l) = sum_of f l - f y + f x.
Proof.
  revert i; induction l as [|a l IH]; intros [|i] H; simplify_eq/=; [lia|].
  rewrite (IH i) by done. lia.
Qed.

Lemma aget_lookup_Some {A} (d : A) l i :
  0 ≤ i < Z.of_nat (length l) → l !! Z.to_nat i = Some (aget d l i).
Proof.
  intros. unfold aget. destruct (lookup_lt_is_Some_2 l (Z.to_nat i)) as [x Hx]; [lia|].
  by rewrite nth_lookup, Hx.
Qed.

Lemma sum_of_aset {A} (d : A) (f : A → Z) l i x :
  0 ≤ i < Z.of_nat (length l) → sum_of f (aset l i x) = sum_of f l - f (aget d l i) + f x.
Proof. intros. apply sum_of_insert. by apply aget_lookup_Some. Qed.

Lemma sum_of_bound {A} (f : A → Z) l b :
  (∀ x, x ∈ l → 0 ≤ f x ≤ b) → 0 ≤ sum_of f l ≤ b * Z.of_nat (length l).
Proof.
  induction l as [|a l IH]; intros H; simpl; [lia|].
  destruct (H a) as [? ?]; [apply list_elem_of_here|].
  destruct IH as [? ?]; [intros; apply H; by apply list_elem_of_further|]. lia.
Qed.

Lemma elem_le_sum {A} (f : A → Z) l x :
  (∀ y, y ∈ l → 0 ≤ f y) → x ∈ l → f x ≤ sum_of f l.
Proof.
  intros P. induction l as [|a l IH]; simpl; [by intros ?%not_elem_of_nil|].
  assert (0 ≤ f a) as Pa by (apply P; apply list_elem_of_here).
  assert (∀ y, y ∈ l → 0 ≤ f y) as Pl by (intros; apply P; by apply list_elem_of_further).
  assert (0 ≤ sum_of f l) as Ps.
  { clear -Pl. induction l as [|b l IH]; simpl; [lia|].
    assert (0 ≤ f b) by (apply Pl; apply list_elem_of_here).
    assert (0 ≤ sum_of f l) by (apply IH; intros; apply Pl; by apply list_elem_of_further). lia. }
  intros [->|E]%elem_of_cons; [lia|]. specialize (IH Pl E). lia.
Qed.

Lemma aget_elem {A} (d : A) l x :
  x ∈ l ↔ ∃ i, 0 ≤ i < Z.of_nat (length l) ∧ aget d l i = x.
Proof.
  rewrite list_elem_of_lookup. split.
  - intros [i Hi]. exists (Z.of_nat i). pose proof (lookup_lt_Some _ _ _ Hi).
    split; [lia|]. unfold aget. by rewrite Nat2Z.id, nth_lookup, Hi.
  - intros (i&?&<-). exists (Z.to_nat i). by apply aget_lookup_Some.
Qed.

Lemma aset_aget {A} (d : A) l i : aset l i (aget d l i) = l.
Proof.
  unfold aset, aget. rewrite nth_lookup. destruct (l !! Z.to_nat i) as [x|] eqn:E; simpl.
  - by apply list_insert_id.
  - apply list_insert_ge. by apply lookup_ge_None.
Qed.

Lemma take_length_take {A} n (l : list A) : take (length (take n l)) l = take n l.
Proof.
  rewrite length_take. destruct (Nat.le_ge_cases n (length l)).
  - by rewrite Nat.min_l.
  - rewrite Nat.min_r by done. by rewrite !take_ge.
Qed.

Lemma NoDup_tail {A} (x : A) l : NoDup (x :: l) → NoDup l.
Proof. intros H. apply NoDup_cons in H. apply H. Qed.

Lemma aget_replicate {A} (d : A) n i : aget d (replicate n d) i = d.
Proof.
  unfold aget. rewrite nth_lookup. destruct (replicate n d !! Z.to_nat i) as [x|] eqn:E; [|done].
  by apply lookup_replicate in E as [-> _].
Qed.

(** ** Bytes of memory *)

(** [memcpy(memory + offset, bytes, length(bytes))]. *)
Definition splice (memory : list Z) (offset : Z) (bytes : list Z) : list Z :=
  take (Z.to_nat offset) memory ++ bytes ++ drop (Z.to_nat offset + length bytes) memory.

Definition zeros (n : Z) : list Z := replicate (Z.to_nat n) 0.

Lemma length_zeros n : length (zeros n) = Z.to_nat n.
Proof. apply length_replicate. Qed.

Lemma length_splice m o b : 0 ≤ o → o + Z.of_nat (length b) ≤ Z.of_nat (length m) →
  length (splice m o b) = length m.
Proof. intros Ho Hl. unfold splice. rewrite !length_app, length_take, length_drop. lia. Qed.

Lemma take_splice_0 m b : take (length b) (splice m 0 b) = b.
Proof. unfold splice. change (Z.to_nat 0) with O. rewrite take_0, app_nil_l. apply take_app_length. Qed.

(** [mem] closes membership goals about the head or tail of a list. *)
Ltac mem :=
  first [ apply list_elem_of_here | apply list_elem_of_further; assumption | assumption ].
