(* ===== verification/Errno.v ===== *)
(** * Error numbers and poll bits of the system-call interface
    (src/src/kernel/syscall/syscall.h) and of the file systems
    (src/src/fs/types/fs_types.h) *)

From S2P Require Import Prelude.

(** [src/kernel/syscall/syscall.h:192-192] KPOLLIN *)
Definition KPOLLIN : Z := 1.
(** [src/kernel/syscall/syscall.h:193-193] KPOLLOUT *)
Definition KPOLLOUT : Z := 4.
(** [src/kernel/syscall/syscall.h:194-194] KPOLLERR *)
Definition KPOLLERR : Z := 8.
(** [src/kernel/syscall/syscall.h:195-195] KPOLLHUP *)
Definition KPOLLHUP : Z := 16.
(** [src/kernel/syscall/syscall.h:196-196] KPOLLNVAL *)
Definition KPOLLNVAL : Z := 32.
(** [src/kernel/syscall/syscall.h:217-217] KERR_PERM *)
Definition KERR_PERM : Z := 1.
(** [src/kernel/syscall/syscall.h:218-218] KERR_NOENT *)
Definition KERR_NOENT : Z := 2.
(** [src/kernel/syscall/syscall.h:220-220] KERR_INTR *)
Definition KERR_INTR : Z := 4.
(** [src/kernel/syscall/syscall.h:221-221] KERR_IO *)
Definition KERR_IO : Z := 5.
(** [src/kernel/syscall/syscall.h:224-224] KERR_BADF *)
Definition KERR_BADF : Z := 9.
(** [src/kernel/syscall/syscall.h:226-226] KERR_AGAIN *)
Definition KERR_AGAIN : Z := 11.
(** [src/kernel/syscall/syscall.h:227-227] KERR_NOMEM *)
Definition KERR_NOMEM : Z := 12.
(** [src/kernel/syscall/syscall.h:228-228] KERR_ACCES *)
Definition KERR_ACCES : Z := 13.
(** [src/kernel/syscall/syscall.h:230-230] KERR_EXIST *)
Definition KERR_EXIST : Z := 17.
(** [src/kernel/syscall/syscall.h:231-231] KERR_NOTDIR *)
Definition KERR_NOTDIR : Z := 20.
(** [src/kernel/syscall/syscall.h:232-232] KERR_INVAL *)
Definition KERR_INVAL : Z := 22.
(** [src/kernel/syscall/syscall.h:233-233] KERR_NFILE *)
Definition KERR_NFILE : Z := 23.
(** [src/kernel/syscall/syscall.h:235-235] KERR_MFILE *)
Definition KERR_MFILE : Z := 24.
(** [src/kernel/syscall/syscall.h:236-236] KERR_SPIPE *)
Definition KERR_SPIPE : Z := 29.
(** [src/kernel/syscall/syscall.h:237-237] KERR_PIPE *)
Definition KERR_PIPE : Z := 32.
(** [src/kernel/syscall/syscall.h:240-240] KERR_CONSOLE *)
Definition KERR_CONSOLE : Z := 1000.

(** ** Results of the file systems *)

(** [src/fs/types/fs_types.h:5-5] FS_ERROR_IO *)
Definition FS_ERROR_IO : Z := -1.
(** [src/fs/types/fs_types.h:6-6] FS_ERROR_NOT_FOUND *)
Definition FS_ERROR_NOT_FOUND : Z := -2.
(** [src/fs/types/fs_types.h:7-7] FS_ERROR_INVALID *)
Definition FS_ERROR_INVALID : Z := -3.
(** [src/fs/types/fs_types.h:8-8] FS_ERROR_NO_SPACE *)
Definition FS_ERROR_NO_SPACE : Z := -4.
(** [src/fs/types/fs_types.h:9-9] FS_ERROR_EXISTS *)
Definition FS_ERROR_EXISTS : Z := -5.
(** [src/fs/types/fs_types.h:10-10] FS_ERROR_NOT_FILE *)
Definition FS_ERROR_NOT_FILE : Z := -6.
(** [src/fs/types/fs_types.h:11-11] FS_ERROR_NOT_DIR *)
Definition FS_ERROR_NOT_DIR : Z := -7.
(** [src/fs/types/fs_types.h:12-12] FS_ERROR_UNSUPPORTED *)
Definition FS_ERROR_UNSUPPORTED : Z := -8.
(** [src/fs/types/fs_types.h:13-13] FS_ERROR_BUSY *)
Definition FS_ERROR_BUSY : Z := -9.
(** [src/fs/types/fs_types.h:14-14] FS_ERROR_READ_ONLY *)
Definition FS_ERROR_READ_ONLY : Z := -10.
(** [src/fs/types/fs_types.h:15-15] FS_ERROR_CONFIRMATION *)
Definition FS_ERROR_CONFIRMATION : Z := -11.
(** [src/fs/types/fs_types.h:16-16] FS_ERROR_NOT_BLANK *)
Definition FS_ERROR_NOT_BLANK : Z := -12.
(** [src/fs/types/fs_types.h:17-17] FS_ERROR_TOO_SMALL *)
Definition FS_ERROR_TOO_SMALL : Z := -13.
(** [src/fs/types/fs_types.h:18-18] FS_ERROR_DENIED *)
Definition FS_ERROR_DENIED : Z := -14.

(** [src/kernel/syscall/syscall.h:632-636] file_stat_info *)
Record file_stat_info := FileStatInfo { size : Z; is_directory : Z; reserved : Z }.
Definition stat_zero : file_stat_info := FileStatInfo 0 0 0.

(** [src/fs/types/fs_types.h:30-30] SEEK_SET *)
Definition SEEK_SET : Z := 0.
(** [src/fs/types/fs_types.h:31-31] SEEK_CUR *)
Definition SEEK_CUR : Z := 1.
(** [src/fs/types/fs_types.h:32-32] SEEK_END *)
Definition SEEK_END : Z := 2.
(** [src/fs/types/fs_types.h:20-20] FS_DIRECTORY_NAME_CAPACITY *)
Definition FS_DIRECTORY_NAME_CAPACITY : Z := 13.
(** [src/fs/types/fs_types.h:21-21] FS_ATTRIBUTE_DIRECTORY *)
Definition FS_ATTRIBUTE_DIRECTORY : Z := 16.
(** [src/fs/types/fs_types.h:25-25] FS_NODE_FILE *)
Definition FS_NODE_FILE : Z := 0.
(** [src/fs/types/fs_types.h:28-28] FS_LONG_NAME_CAPACITY *)
Definition FS_LONG_NAME_CAPACITY : Z := 256.

(** The reserved last field is left out.
    [src/kernel/syscall/syscall.h:659-669] file_stat_ex *)
Record file_stat_ex := FileStatEx {
  x_size : Z; x_mode : Z; x_uid : Z; x_gid : Z; x_is_directory : Z; x_atime : Z; x_mtime : Z; x_ctime : Z;
}.
#[export] Instance eta_stat_ex : Eta file_stat_ex := λ x,
  FileStatEx (x_size x) (x_mode x) (x_uid x) (x_gid x) (x_is_directory x) (x_atime x) (x_mtime x) (x_ctime x).
Definition stat_ex_zero : file_stat_ex := FileStatEx 0 0 0 0 0 0 0 0.

(** An entry of either kind of listing: the kinds differ in the room for the
    name.
    [src/fs/types/fs_types.h:34-38] fs_directory_entry *)
Record directory_entry := DirEntry { e_name : list Z; e_size : Z; e_attributes : Z }.
