(* ===== verification/State.v ===== *)
(** * Calls over a state

    A call of a component with much state is a function from the state to its
    result and the new state; [x ← m; k] runs one after the other.  Two further
    notations render the early returns of the code:
    - [m ;;? k] is [status = m; if (status < 0) return status;] and then [k];
    - [x ←? m; k] is the same for a call that answers an error or a value.
    Reasoning is by what a call does to the state, [always], whatever its result
    is, and [post], which speaks of both. *)

From S2P Require Import Prelude.

Definition st (S A : Type) : Type := S → A * S.

Section Calls.
Context {S : Type}.

#[export] Instance st_ret : MRet (st S) := λ A x s, (x, s).
#[export] Instance st_bind : MBind (st S) := λ A B k m s, let '(x, s') := m s in k x s'.

Definition gets {A} (f : S → A) : st S A := λ s, (f s, s).
Definition modify (f : S → S) : st S unit := λ s, (tt, f s).
End Calls.

(** How a result type answers an error number. *)
Class Err (B : Type) := err : Z → B.
#[export] Instance err_Z : Err Z := λ e, e.
#[export] Instance err_pair {A} : Err (Z * list A) := λ e, (e, []).
#[export] Instance err_sum {A} : Err (Z + A) := inl.

Definition check {S B} `{Err B} (m : st S Z) (k : st S B) : st S B :=
  s ← m; if s <? 0 then mret (err s) else k.
Definition bind_ok {S A B} `{Err B} (m : st S (Z + A)) (k : A → st S B) : st S B :=
  r ← m; match r with inl e => mret (err e) | inr x => k x end.

Notation "m ;;? k" := (check m k) (at level 100, k at level 200, right associativity) : purec_scope.
Notation "x ←? m ; k" := (bind_ok m (λ x, k))
  (at level 20, m at level 100, k at level 200, only parsing) : purec_scope.

(** ** What a call does to the state *)

Section Rules.
Context {S : Type}.
Implicit Types R : S → S → Prop.

(** Every run relates the state before to the state after. *)
Definition always R {A} (m : st S A) : Prop := ∀ s, R s (m s).2.

(** Every run from a state of [P] ends in [Q]. *)
Definition post {A} (P : S → Prop) (m : st S A) (Q : A → S → Prop) : Prop :=
  ∀ s, P s → Q (m s).1 (m s).2.

Lemma always_ret R {A} (x : A) : Reflexive R → always R (mret x).
Proof. intros HR s. apply HR. Qed.

Lemma always_gets R {A} (f : S → A) : Reflexive R → always R (gets f).
Proof. intros HR s. apply HR. Qed.

Lemma always_modify R f : (∀ s, R s (f s)) → always R (modify f).
Proof. intros H s. apply H. Qed.

Lemma always_bind R {A B} (m : st S A) (k : A → st S B) :
  Transitive R → always R m → (∀ x, always R (k x)) → always R (m ≫= k).
Proof.
  intros HR Hm Hk s. unfold mbind, st_bind. specialize (Hm s). destruct (m s) as [x t]. by etrans; [|apply Hk].
Qed.

Lemma always_check R {B} `{Err B} (m : st S Z) (k : st S B) :
  PreOrder R → always R m → always R k → always R (m ;;? k).
Proof.
  intros HR Hm Hk. apply always_bind; [apply _|done|]. intros x. destruct (x <? 0); [|done].
  apply always_ret, _.
Qed.

Lemma always_bind_ok R {A B} `{Err B} (m : st S (Z + A)) (k : A → st S B) :
  PreOrder R → always R m → (∀ x, always R (k x)) → always R (bind_ok m k).
Proof.
  intros HR Hm Hk. apply always_bind; [apply _|done|]. intros [e|x]; [|done]. apply always_ret, _.
Qed.

Lemma post_ret {A} (P : S → Prop) (x : A) (Q : A → S → Prop) : (∀ s, P s → Q x s) → post P (mret x) Q.
Proof. intros H s. apply H. Qed.

Lemma post_bind {A B} (P : S → Prop) (m : st S A) (k : A → st S B) (I : A → S → Prop) (Q : B → S → Prop) :
  post P m I → (∀ x, post (I x) (k x) Q) → post P (m ≫= k) Q.
Proof.
  intros Hm Hk s Hs. unfold mbind, st_bind. specialize (Hm s Hs). destruct (m s) as [x t]. by apply Hk.
Qed.

Lemma post_weaken {A} (P P' : S → Prop) (m : st S A) (Q Q' : A → S → Prop) :
  post P m Q → (∀ s, P' s → P s) → (∀ x s, Q x s → Q' x s) → post P' m Q'.
Proof. intros H HP HQ s Hs. auto. Qed.
End Rules.

(** [walk_call] splits a goal [always R m] along the program text of [m]; the
    calls it meets are looked up in the hint database [calls]. *)
Create HintDb calls.
Ltac walk_call :=
  repeat first
    [ progress intros
    | solve [eauto 2 with calls]
    | apply always_bind; [apply _| |]
    | apply always_check; [apply _| |]
    | apply always_bind_ok; [apply _| |]
    | apply always_ret; apply _
    | apply always_gets; apply _
    | match goal with
      | |- always _ (if ?b then _ else _) => destruct b
      | |- always _ (match ?x with _ => _ end) => destruct x eqn:?
      end ].
