(* ===== verification/Pmm.v ===== *)
(** * Physical page allocator (src/src/mm/pmm.c)

    The frame bitmap, the per-frame share counts and the allocation cursor of
    [pmm.c], with every operation of the file.  The public entry points take
    [pmm_lock] around the [_locked] function, so each of them is one atomic
    step on the state; [Sync.v] is about the locks. *)

From S2P Require Import Prelude.

(** [src/mm/pmm.h:7-7] PMM_PAGE_SIZE *)
Definition PMM_PAGE_SIZE : Z := 4096.
(** [src/mm/pmm.c:13-13] PMM_MAX_PHYSICAL_BYTES *)
Definition PMM_MAX_PHYSICAL_BYTES : Z := 32 * 1024 * 1024 * 1024.
(** [src/mm/pmm.c:14-14] PMM_MAX_PAGES *)
Definition PMM_MAX_PAGES : Z := PMM_MAX_PHYSICAL_BYTES / PMM_PAGE_SIZE.
(** [src/mm/pmm.c:15-15] PMM_BITMAP_BYTES *)
Definition PMM_BITMAP_BYTES : Z := PMM_MAX_PAGES / 8.
Definition LIMINE_MEMMAP_USABLE : Z := 0.

(** The statics of the file.  [frame_bitmap] holds the bytes of the array that
    differ from the [0xFF] of the [memset] in [pmm_init]; [frame_refs] is the
    table behind the pointer (absent when null), whose cells are zero until
    written because the pages it lives in were zeroed; [ram] is the contents of
    the frames the allocator has cleared.
    [src/mm/pmm.c:17-23] frame_bitmap *)
Record pmm := Pmm {
  frame_bitmap : gmap Z Z;
  frame_refs : option (gmap Z Z);
  direct_map_offset : Z;
  frame_limit : Z;
  free_frames : Z;
  allocation_cursor : Z;
  ready : bool;
  ram : gmap Z (list Z);
}.

#[export] Instance eta_pmm : Eta pmm := λ s,
  Pmm (frame_bitmap s) (frame_refs s) (direct_map_offset s) (frame_limit s)
      (free_frames s) (allocation_cursor s) (ready s) (ram s).

Definition bitmap_byte (s : pmm) (i : Z) : Z := default 255 (frame_bitmap s !! i).

(** [src/mm/pmm.c:25-27] set_frame *)
Definition set_frame (frame : Z) (s : pmm) : pmm :=
  s <| frame_bitmap :=
    <[frame ≫ 3 := Z.lor (bitmap_byte s (frame ≫ 3))
                         (u8 (1 ≪ (Z.land frame 7)))]> (frame_bitmap s) |>.

(** [src/mm/pmm.c:29-31] clear_frame *)
Definition clear_frame (frame : Z) (s : pmm) : pmm :=
  s <| frame_bitmap :=
    <[frame ≫ 3 := Z.land (bitmap_byte s (frame ≫ 3))
                          (u8 (Z.lnot (1 ≪ (Z.land frame 7))))]> (frame_bitmap s) |>.

(** [src/mm/pmm.c:33-35] frame_is_used *)
Definition frame_is_used (s : pmm) (frame : Z) : bool :=
  negb (Z.land (bitmap_byte s (frame ≫ 3)) (u8 (1 ≪ (Z.land frame 7))) =? 0).

(** [src/mm/pmm.c:182-184] pmm_physical_to_virtual *)
Definition pmm_physical_to_virtual (s : pmm) (physical_address : Z) : Z :=
  u64 (physical_address + direct_map_offset s).

(** [memset(pmm_physical_to_virtual(frame * PMM_PAGE_SIZE), 0, PMM_PAGE_SIZE)]:
    the direct map makes the virtual page an alias of the frame. *)
Definition zero_page : list Z := replicate (Z.to_nat PMM_PAGE_SIZE) 0.
Definition clear_page (frame : Z) (s : pmm) : pmm :=
  s <| ram := <[frame := zero_page]> (ram s) |>.

(** The bounds of the two scans: pass 0 runs from the cursor to the limit,
    pass 1 from frame 1 to the cursor.
    [src/mm/pmm.c:93-95] pmm_allocate_page_locked *)
Definition pass_begin (s : pmm) (pass : Z) : Z :=
  if pass =? 0 then allocation_cursor s else 1.
(** [src/mm/pmm.c:93-94] pmm_allocate_page_locked *)
Definition pass_end (s : pmm) (pass : Z) : Z :=
  if pass =? 0 then frame_limit s else allocation_cursor s.

(** The scan of one pass for an unused frame.
    [src/mm/pmm.c:96-98] pmm_allocate_page_locked *)
Definition scan_page (s : pmm) (pass : Z) : option Z :=
  for_first (λ frame, negb (frame_is_used s frame))
            (Z.to_nat (pass_end s pass - pass_begin s pass)) (pass_begin s pass).

(** What happens to the frame found.
    [src/mm/pmm.c:99-104] pmm_allocate_page_locked *)
Definition take_page (frame : Z) (s : pmm) : Z * pmm :=
  let s := set_frame frame s in
  let s := s <| free_frames := u64 (free_frames s - 1) |> in
  let s := s <| allocation_cursor := u64 (frame + 1) |> in
  let s := clear_page frame s in
  (u64 (frame * PMM_PAGE_SIZE), s).

(** [src/mm/pmm.c:90-108] pmm_allocate_page_locked *)
Definition pmm_allocate_page_locked (s : pmm) : Z * pmm :=
  if negb (ready s) || (free_frames s =? 0) then (0, s) else
  match scan_page s 0 with
  | Some frame => take_page frame s
  | None =>
      match scan_page s 1 with
      | Some frame => take_page frame s
      | None => (0, s)
      end
  end.

(** The scan of one pass for [page_count] adjacent unused frames; a used frame
    at [frame + off] moves the scan past it.
    [src/mm/pmm.c:121-132] pmm_allocate_contiguous_locked *)
Fixpoint scan_run (fuel : nat) (s : pmm) (page_count frame end_ : Z) : option Z :=
  match fuel with
  | O => None
  | S fuel' =>
      if u64 (frame + page_count) <=? end_ then
        match for_first (λ off, frame_is_used s (u64 (frame + off)))
                        (Z.to_nat page_count) 0 with
        | Some off => scan_run fuel' s page_count (u64 (u64 (frame + off) + 1)) end_
        | None => Some frame
        end
      else None
  end.

(** [for (off = 0; off < page_count; off++) set_frame(frame + off);]
    [src/mm/pmm.c:133-134] pmm_allocate_contiguous_locked *)
Fixpoint set_frames (n : nat) (frame : Z) (s : pmm) : pmm :=
  match n with
  | O => s
  | S n' => set_frames n' (u64 (frame + 1)) (set_frame frame s)
  end.

(** [src/mm/pmm.c:137-140] pmm_allocate_contiguous_locked *)
Fixpoint clear_pages (n : nat) (frame : Z) (s : pmm) : pmm :=
  match n with
  | O => s
  | S n' => clear_pages n' (u64 (frame + 1)) (clear_page frame s)
  end.

(** [src/mm/pmm.c:133-141] pmm_allocate_contiguous_locked *)
Definition take_run (page_count frame : Z) (s : pmm) : Z * pmm :=
  let s := set_frames (Z.to_nat page_count) frame s in
  let s := s <| free_frames := u64 (free_frames s - page_count) |> in
  let s := s <| allocation_cursor := u64 (frame + page_count) |> in
  let s := clear_pages (Z.to_nat page_count) frame s in
  (u64 (frame * PMM_PAGE_SIZE), s).

(** One pass: nothing when the range is shorter than the run.
    [src/mm/pmm.c:117-143] pmm_allocate_contiguous_locked *)
Definition pass_run (s : pmm) (page_count pass : Z) : option Z :=
  if pass_end s pass <? u64 (pass_begin s pass + page_count) then None
  else scan_run (S (Z.to_nat (pass_end s pass))) s page_count (pass_begin s pass)
                (pass_end s pass).

(** [src/mm/pmm.c:110-145] pmm_allocate_contiguous_locked *)
Definition pmm_allocate_contiguous_locked (page_count : Z) (s : pmm) : Z * pmm :=
  if negb (ready s) || (free_frames s =? 0) || (page_count =? 0) then (0, s) else
  if page_count =? 1 then pmm_allocate_page_locked s else
  if free_frames s <? page_count then (0, s) else
  match pass_run s page_count 0 with
  | Some frame => take_run page_count frame s
  | None =>
      match pass_run s page_count 1 with
      | Some frame => take_run page_count frame s
      | None => (0, s)
      end
  end.

(** [src/mm/pmm.c:159-162] pmm_free_contiguous_locked *)
Definition release_frame (frame : Z) (s : pmm) : pmm :=
  let s := clear_frame frame s in
  let s := s <| free_frames := u64 (free_frames s + 1) |> in
  if frame <? allocation_cursor s then s <| allocation_cursor := frame |> else s.

(** [src/mm/pmm.c:155-163] pmm_free_contiguous_locked *)
Fixpoint free_run (n : nat) (frame : Z) (s : pmm) : pmm :=
  match n with
  | O => s
  | S n' =>
      free_run n' (u64 (frame + 1))
        (if negb (frame_is_used s frame) then s else release_frame frame s)
  end.

(** [src/mm/pmm.c:147-164] pmm_free_contiguous_locked *)
Definition pmm_free_contiguous_locked (physical_address page_count : Z) (s : pmm) : pmm :=
  if negb (Z.land physical_address (PMM_PAGE_SIZE - 1) =? 0) || (page_count =? 0)
  then s else
  let start_frame := physical_address / PMM_PAGE_SIZE in
  if (start_frame =? 0) || (frame_limit s <=? start_frame)
     || (u64 (frame_limit s - start_frame) <? page_count)
  then s else free_run (Z.to_nat page_count) start_frame s.

Definition ref_count (refs : gmap Z Z) (frame : Z) : Z := default 0 (refs !! frame).

(** [src/mm/pmm.c:166-180] pmm_free_page_locked *)
Definition pmm_free_page_locked (physical_address : Z) (s : pmm) : pmm :=
  if negb (Z.land physical_address (PMM_PAGE_SIZE - 1) =? 0) then s else
  let frame := physical_address / PMM_PAGE_SIZE in
  if (frame =? 0) || (frame_limit s <=? frame) || negb (frame_is_used s frame)
  then s else
  match frame_refs s with
  | Some refs =>
      if negb (ref_count refs frame =? 0)
      then s <| frame_refs := Some (<[frame := u16 (ref_count refs frame - 1)]> refs) |>
      else release_frame frame s
  | None => release_frame frame s
  end.

(** [src/mm/pmm.c:186-186] pmm_total_bytes *)
Definition pmm_total_bytes (s : pmm) : Z := u64 (frame_limit s * PMM_PAGE_SIZE).
(** [src/mm/pmm.c:187-189] pmm_free_bytes_locked *)
Definition pmm_free_bytes_locked (s : pmm) : Z := u64 (free_frames s * PMM_PAGE_SIZE).
(** [src/mm/pmm.c:190-190] pmm_is_ready *)
Definition pmm_is_ready (s : pmm) : bool := ready s.

(** The public entry points: the locked function under [pmm_lock].
    [src/mm/pmm.c:192-197] pmm_allocate_page *)
Definition pmm_allocate_page (s : pmm) : Z * pmm := pmm_allocate_page_locked s.
(** [src/mm/pmm.c:199-204] pmm_allocate_contiguous *)
Definition pmm_allocate_contiguous (page_count : Z) (s : pmm) : Z * pmm :=
  pmm_allocate_contiguous_locked page_count s.
(** [src/mm/pmm.c:206-210] pmm_free_contiguous *)
Definition pmm_free_contiguous (physical_address page_count : Z) (s : pmm) : pmm :=
  pmm_free_contiguous_locked physical_address page_count s.
(** [src/mm/pmm.c:212-216] pmm_free_page *)
Definition pmm_free_page (physical_address : Z) (s : pmm) : pmm :=
  pmm_free_page_locked physical_address s.
(** [src/mm/pmm.c:218-223] pmm_free_bytes *)
Definition pmm_free_bytes (s : pmm) : Z := pmm_free_bytes_locked s.

(** [src/mm/pmm.c:225-236] pmm_frame_ref *)
Definition pmm_frame_ref (physical_address : Z) (s : pmm) : bool * pmm :=
  let frame := physical_address / PMM_PAGE_SIZE in
  match frame_refs s with
  | Some refs =>
      if negb (frame =? 0) && (frame <? frame_limit s) && frame_is_used s frame
         && (ref_count refs frame <? UINT16_MAX)
      then (true, s <| frame_refs := Some (<[frame := u16 (ref_count refs frame + 1)]> refs) |>)
      else (false, s)
  | None => (false, s)
  end.

(** [src/mm/pmm.c:238-244] pmm_frame_shared *)
Definition pmm_frame_shared (physical_address : Z) (s : pmm) : Z :=
  let frame := physical_address / PMM_PAGE_SIZE in
  match frame_refs s with
  | Some refs => if frame <? frame_limit s then ref_count refs frame else 0
  | None => 0
  end.

(** The boot loader's memory map, as [limine.h] declares it.
    [src/boot/limine.h:428-432] limine_memmap_entry *)
Record limine_memmap_entry := Memmap { base : Z; length_ : Z; type_ : Z }.

(** [for (address = begin; address < end; address += PMM_PAGE_SIZE)] over the
    [n] pages of the region: usable frames are cleared and counted once.
    [src/mm/pmm.c:65-71] pmm_init *)
Fixpoint init_frames (n : nat) (address : Z) (s : pmm) : pmm :=
  match n with
  | O => s
  | S n' =>
      let frame := address / PMM_PAGE_SIZE in
      init_frames n' (u64 (address + PMM_PAGE_SIZE))
        (if (frame =? 0) || negb (frame_is_used s frame) then s
         else let s := clear_frame frame s in
              s <| free_frames := u64 (free_frames s + 1) |>)
  end.

(** The page-aligned part of an entry below the managed limit.
    [src/mm/pmm.c:56-59] pmm_init *)
Definition region_begin (e : limine_memmap_entry) : Z :=
  Z.land (u64 (base e + PMM_PAGE_SIZE - 1)) (u64 (Z.lnot (PMM_PAGE_SIZE - 1))).
(** [src/mm/pmm.c:57-59] pmm_init *)
Definition region_end (e : limine_memmap_entry) : Z :=
  let end_ := Z.land (u64 (base e + length_ e)) (u64 (Z.lnot (PMM_PAGE_SIZE - 1))) in
  if PMM_MAX_PHYSICAL_BYTES <? end_ then PMM_MAX_PHYSICAL_BYTES else end_.

(** One entry of the map: null and non-usable entries are skipped, and so are
    entries whose end overflows.
    [src/mm/pmm.c:48-72] pmm_init *)
Definition init_entry (s : pmm) (entry : option limine_memmap_entry) : pmm :=
  match entry with
  | None => s
  | Some e =>
      if negb (type_ e =? LIMINE_MEMMAP_USABLE) then s else
      if UINT64_MAX - length_ e <? base e then s else
      if UINT64_MAX - (PMM_PAGE_SIZE - 1) <? base e then s else
      let begin := region_begin e in
      let end_ := region_end e in
      if end_ <=? begin then s else
      let last_frame := end_ / PMM_PAGE_SIZE in
      let s := if frame_limit s <? last_frame then s <| frame_limit := last_frame |> else s in
      init_frames (Z.to_nat ((end_ - begin) / PMM_PAGE_SIZE)) begin s
  end.

(** The reference table is carved out of the memory just made available.
    [src/mm/pmm.c:73-83] pmm_init *)
Definition init_refs (s : pmm) : pmm :=
  let s := s <| ready := negb (free_frames s =? 0) |> in
  let s := s <| frame_refs := None |> in
  if ready s then
    let ref_pages := u64 (frame_limit s * 2 + PMM_PAGE_SIZE - 1) / PMM_PAGE_SIZE in
    let '(ref_phys, s) := pmm_allocate_contiguous_locked ref_pages s in
    if negb (ref_phys =? 0) then s <| frame_refs := Some ∅ |> else s
  else s.

(** State after the resets and the [memset] that open [pmm_init].
    [src/mm/pmm.c:39-44] pmm_init *)
Definition pmm_reset (hhdm_offset : Z) (s : pmm) : pmm :=
  s <| ready := false |> <| direct_map_offset := hhdm_offset |>
    <| frame_limit := 0 |> <| free_frames := 0 |> <| allocation_cursor := 1 |>
    <| frame_bitmap := ∅ |>.

(** [src/mm/pmm.c:37-88] pmm_init *)
Definition pmm_init (memory_map : option (list (option limine_memmap_entry)))
    (hhdm_offset : Z) (s : pmm) : pmm :=
  let s := pmm_reset hhdm_offset s in
  match memory_map with
  | None => s
  | Some entries =>
      if hhdm_offset =? 0 then s else init_refs (foldl init_entry s entries)
  end.

(** ** The bitmap as a set of used frames *)

Lemma land_pow2 a k : 0 ≤ k → Z.land a (2 ^ k) = if Z.testbit a k then 2 ^ k else 0.
Proof.
  intros Hk. apply Z.bits_inj'. intros n Hn.
  rewrite Z.land_spec, Z.pow2_bits_eqb by done.
  destruct (Z.eqb_spec k n) as [->|].
  - destruct (Z.testbit a n) eqn:E; [rewrite Z.pow2_bits_true by done|rewrite Z.bits_0]; done.
  - rewrite andb_false_r. destruct (Z.testbit a k);
      [rewrite Z.pow2_bits_false by done|rewrite Z.bits_0]; done.
Qed.

Lemma frame_bit frame : 0 ≤ frame →
  frame ≫ 3 = frame / 8 ∧ Z.land frame 7 = frame mod 8 ∧
  u8 (1 ≪ (frame mod 8)) = 2 ^ (frame mod 8).
Proof.
  intros. split; [apply Z.shiftr_div_pow2; lia|].
  split; [change 7 with (Z.ones 3); apply Z.land_ones; lia|].
  pose proof (Z.mod_pos_bound frame 8 ltac:(lia)).
  rewrite Z.shiftl_mul_pow2, Z.mul_1_l by lia. apply u8_small.
  split; [apply Z.pow_nonneg; lia|apply Z.pow_lt_mono_r; lia].
Qed.

Lemma frame_is_used_testbit s frame : 0 ≤ frame →
  frame_is_used s frame = Z.testbit (bitmap_byte s (frame / 8)) (frame mod 8).
Proof.
  intros Hf. destruct (frame_bit frame Hf) as (E1&E2&E3).
  unfold frame_is_used. rewrite E2, E1, E3.
  pose proof (Z.mod_pos_bound frame 8 ltac:(lia)).
  rewrite land_pow2 by lia. destruct (Z.testbit _ _); [|done].
  destruct (Z.eqb_spec (2 ^ (frame mod 8)) 0) as [E|]; [|done].
  pose proof (Z.pow_pos_nonneg 2 (frame mod 8)). lia.
Qed.

Lemma frame_split f g : f / 8 = g / 8 → f mod 8 = g mod 8 → f = g.
Proof. intros. rewrite (Z.div_mod f 8), (Z.div_mod g 8) by lia. lia. Qed.

Lemma used_set_frame s f g : 0 ≤ f → 0 ≤ g →
  frame_is_used (set_frame f s) g = (f =? g) || frame_is_used s g.
Proof.
  intros Hf Hg. destruct (frame_bit f Hf) as (E1&E2&E3).
  rewrite !frame_is_used_testbit by done. unfold set_frame. rewrite E2, E1, E3.
  pose proof (Z.mod_pos_bound f 8 ltac:(lia)).
  unfold bitmap_byte; simpl. destruct (decide (f / 8 = g / 8)) as [E|E].
  - rewrite E, lookup_insert_eq. simpl. rewrite Z.lor_spec, Z.pow2_bits_eqb by lia.
    destruct (Z.eqb_spec f g) as [->|]; [rewrite Z.eqb_refl; apply orb_true_r|].
    destruct (Z.eqb_spec (f mod 8) (g mod 8)); [by destruct n; apply frame_split|].
    apply orb_false_r.
  - rewrite lookup_insert_ne by done.
    destruct (Z.eqb_spec f g) as [->|]; done.
Qed.

Lemma used_clear_frame s f g : 0 ≤ f → 0 ≤ g →
  frame_is_used (clear_frame f s) g = negb (f =? g) && frame_is_used s g.
Proof.
  intros Hf Hg. destruct (frame_bit f Hf) as (E1&E2&_).
  rewrite !frame_is_used_testbit by done. unfold clear_frame. rewrite E2, E1.
  pose proof (Z.mod_pos_bound f 8 ltac:(lia)).
  pose proof (Z.mod_pos_bound g 8 ltac:(lia)).
  unfold bitmap_byte; simpl. destruct (decide (f / 8 = g / 8)) as [E|E].
  - rewrite E, lookup_insert_eq. simpl. unfold u8.
    rewrite Z.land_spec, Z.mod_pow2_bits_low, Z.lnot_spec, Z.shiftl_mul_pow2, Z.mul_1_l,
      Z.pow2_bits_eqb by lia.
    destruct (Z.eqb_spec f g) as [->|]; [rewrite Z.eqb_refl; apply andb_false_r|].
    destruct (Z.eqb_spec (f mod 8) (g mod 8)); [by destruct n; apply frame_split|].
    apply andb_true_r.
  - rewrite lookup_insert_ne by done.
    destruct (Z.eqb_spec f g) as [->|]; done.
Qed.

(** The number of frames the allocator may hand out. *)
Definition frame_is_free (s : pmm) (f : Z) : bool := negb (frame_is_used s f).
Definition count_free (s : pmm) : Z :=
  count_if (frame_is_free s) (Z.to_nat (frame_limit s - 1)) 1.

(** ** The invariant of the allocator

    The free counter agrees with the bitmap, frame 0 and the frames past the
    limit are never free, the cursor stays in the managed range, and every
    share count fits its 16-bit cell. *)
Record pmm_wf (s : pmm) : Prop := {
  wf_limit : 0 ≤ frame_limit s ≤ PMM_MAX_PAGES;
  wf_reserved : ∀ f, 0 ≤ f → f = 0 ∨ frame_limit s ≤ f → frame_is_used s f = true;
  wf_count : free_frames s = count_free s;
  wf_cursor : 1 ≤ allocation_cursor s ≤ Z.max 1 (frame_limit s);
  wf_refs : ∀ refs f c, frame_refs s = Some refs → refs !! f = Some c → is_u16 c;
}.

Lemma wf_free_bound s : pmm_wf s → 0 ≤ free_frames s ≤ PMM_MAX_PAGES.
Proof.
  intros []. rewrite wf_count0. unfold count_free.
  pose proof (count_if_range (frame_is_free s) (Z.to_nat (frame_limit s - 1)) 1). lia.
Qed.

Lemma free_in_range s f : pmm_wf s → 0 ≤ f → frame_is_used s f = false →
  1 ≤ f < frame_limit s.
Proof.
  intros W Hf E. destruct (decide (f = 0 ∨ frame_limit s ≤ f)); [|lia].
  rewrite (wf_reserved s W) in E by done. done.
Qed.

(** [Pmm] bounds as literals, for [lia]. *)
Lemma pmm_max_pages : PMM_MAX_PAGES = 8388608.
Proof. reflexivity. Qed.

(** Taking a free frame out, and putting a used one back. *)
Lemma count_free_set s f : 1 ≤ f < frame_limit s → frame_is_used s f = false →
  count_free (set_frame f s) = count_free s - 1.
Proof.
  intros R E. unfold count_free.
  change (frame_limit (set_frame f s)) with (frame_limit s).
  rewrite (count_if_flip (frame_is_free s) (frame_is_free (set_frame f s)) _ 1 f); [lia|lia| | |].
  - unfold frame_is_free. by rewrite E.
  - unfold frame_is_free. rewrite used_set_frame, Z.eqb_refl by lia. done.
  - intros j ??. unfold frame_is_free. rewrite used_set_frame by lia.
    destruct (Z.eqb_spec f j); [lia|done].
Qed.

Lemma count_free_clear s f : 1 ≤ f < frame_limit s → frame_is_used s f = true →
  count_free (clear_frame f s) = count_free s + 1.
Proof.
  intros R E. unfold count_free.
  change (frame_limit (clear_frame f s)) with (frame_limit s).
  rewrite (count_if_flip (frame_is_free (clear_frame f s)) (frame_is_free s) _ 1 f); [lia|lia| | |].
  - unfold frame_is_free. rewrite used_clear_frame, Z.eqb_refl by lia. done.
  - unfold frame_is_free. by rewrite E.
  - intros j ??. unfold frame_is_free. rewrite used_clear_frame by lia.
    destruct (Z.eqb_spec f j); [lia|done].
Qed.

(** Two states whose bitmaps and limits agree have the same free count. *)
Lemma count_free_ext s t :
  frame_limit s = frame_limit t → frame_bitmap s = frame_bitmap t → count_free s = count_free t.
Proof.
  intros El Eb. unfold count_free. rewrite El. apply count_if_ext.
  intros. unfold frame_is_free, frame_is_used, bitmap_byte. by rewrite Eb.
Qed.

Lemma used_ext s t f :
  frame_bitmap s = frame_bitmap t → frame_is_used s f = frame_is_used t f.
Proof. intros E. unfold frame_is_used, bitmap_byte. by rewrite E. Qed.

(** Every update of the other fields leaves the invariant alone. *)
Lemma pmm_wf_same_bitmap s t :
  pmm_wf s → frame_bitmap t = frame_bitmap s → frame_limit t = frame_limit s →
  free_frames t = free_frames s → allocation_cursor t = allocation_cursor s →
  (∀ refs f c, frame_refs t = Some refs → refs !! f = Some c → is_u16 c) → pmm_wf t.
Proof.
  intros W Eb El Ef Ec Hr. split; rewrite ?El, ?Ef, ?Ec; try apply W; [| |done].
  - intros f ??. rewrite (used_ext t s) by done. by apply W.
  - rewrite (wf_count s W). by apply count_free_ext.
Qed.

Lemma pmm_wf_set_frame s f cursor :
  pmm_wf s → 0 ≤ f → frame_is_used s f = false → 1 ≤ cursor ≤ Z.max 1 (frame_limit s) →
  pmm_wf (set_frame f s <| free_frames := u64 (free_frames s - 1) |>
                        <| allocation_cursor := cursor |>).
Proof.
  intros W Hf E Hc. pose proof (wf_free_bound s W). rewrite pmm_max_pages in *.
  assert (0 < free_frames s).
  { rewrite (wf_count s W). apply (count_if_witness _ _ _ f).
    - pose proof (free_in_range s f W Hf E). lia.
    - unfold frame_is_free. by rewrite E. }
  widths. split; simpl; try apply W; [| |done].
  - intros g ? Hg. rewrite (used_ext _ (set_frame f s)) by done.
    rewrite used_set_frame by lia. rewrite (wf_reserved s W g) by done. apply orb_true_r.
  - pose proof (free_in_range s f W Hf E).
    rewrite (wf_count s W), <- (count_free_set s f) by done. by apply count_free_ext.
Qed.

Lemma pmm_wf_release s f :
  pmm_wf s → 1 ≤ f < frame_limit s → frame_is_used s f = true → pmm_wf (release_frame f s).
Proof.
  intros W R E. pose proof (wf_free_bound s W). pose proof (wf_cursor s W).
  assert (0 ≤ f) by lia. rewrite pmm_max_pages in *.
  assert (pmm_wf (clear_frame f s <| free_frames := u64 (free_frames s + 1) |>)) as W'.
  { widths. split; simpl; try apply W.
    - intros g ? Hg. rewrite (used_ext _ (clear_frame f s)) by done.
      rewrite used_clear_frame by lia. rewrite (wf_reserved s W g) by done.
      destruct (Z.eqb_spec f g); [lia|done].
    - rewrite (wf_count s W), <- (count_free_clear s f) by done. by apply count_free_ext. }
  unfold release_frame; simpl. case_match; [|done].
  destruct W'. split; simpl in *; try done. lia.
Qed.

(** ** The scans *)

Lemma scan_page_Some s pass f : pmm_wf s → scan_page s pass = Some f →
  1 ≤ f < frame_limit s ∧ frame_is_used s f = false.
Proof.
  intros W (?&E&_)%for_first_Some. apply negb_true_iff in E. split; [|done].
  pose proof (wf_cursor s W). apply free_in_range; [done| |done].
  unfold pass_begin in *. destruct (pass =? 0); lia.
Qed.

Lemma scan_page_None s : pmm_wf s → scan_page s 0 = None → scan_page s 1 = None →
  count_free s = 0.
Proof.
  intros W H0 H1. unfold scan_page in *. rewrite for_first_None in H0, H1.
  unfold pass_begin, pass_end in *; simpl in *.
  apply count_if_zero. intros j ?. pose proof (wf_cursor s W).
  destruct (decide (j < allocation_cursor s)); [apply H1|apply H0]; lia.
Qed.

(** A run of [n] frames starting at [k], all free. *)
Definition free_run_at (s : pmm) (k n : Z) : Prop :=
  ∀ off, 0 ≤ off < n → frame_is_used s (k + off) = false.

Lemma scan_run_Some fuel s n frame end_ k :
  0 ≤ frame → 1 ≤ n < 2 ^ 32 → end_ < 2 ^ 32 → frame < 2 ^ 32 →
  scan_run fuel s n frame end_ = Some k →
  frame ≤ k ∧ k + n ≤ end_ ∧ free_run_at s k n.
Proof.
  revert frame; induction fuel as [|fuel IH]; intros frame ???? H; simpl in H; [done|].
  rewrite u64_small in H by lia. destruct (Z.leb_spec (frame + n) end_); [|done].
  destruct (for_first _ _ _) as [off|] eqn:E.
  - apply for_first_Some in E as (?&_&_).
    rewrite (u64_small (frame + off)), u64_small in H by lia.
    apply IH in H; [|lia..]. destruct H as (?&?&?). split; [lia|done].
  - injection H as <-. split; [lia|]. split; [done|]. intros off ?.
    rewrite for_first_None in E. specialize (E off). rewrite u64_small in E by lia.
    apply E. lia.
Qed.

Lemma scan_run_None fuel s n frame end_ :
  0 ≤ frame → 1 ≤ n < 2 ^ 32 → end_ < 2 ^ 32 → frame < 2 ^ 32 →
  end_ - frame < Z.of_nat fuel →
  scan_run fuel s n frame end_ = None →
  ∀ k, frame ≤ k → k + n ≤ end_ → ¬ free_run_at s k n.
Proof.
  revert frame; induction fuel as [|fuel IH]; intros frame ????? H k ??; simpl in H; [lia|].
  rewrite u64_small in H by lia. destruct (Z.leb_spec (frame + n) end_); [|lia].
  destruct (for_first _ _ _) as [off|] eqn:E; [|done].
  apply for_first_Some in E as (?&U&_). rewrite (u64_small (frame + off)) in U, H by lia.
  rewrite u64_small in H by lia.
  destruct (decide (k ≤ frame + off)); [|apply (IH (frame + off + 1)); try done; lia].
  intros R. specialize (R (frame + off - k)).
  replace (k + (frame + off - k)) with (frame + off) in R by lia.
  rewrite R in U; [done|lia].
Qed.

(** ** Taking a whole run *)

Lemma set_frames_fields n f s :
  frame_refs (set_frames n f s) = frame_refs s ∧
  frame_limit (set_frames n f s) = frame_limit s ∧
  free_frames (set_frames n f s) = free_frames s ∧
  allocation_cursor (set_frames n f s) = allocation_cursor s ∧
  ready (set_frames n f s) = ready s ∧ ram (set_frames n f s) = ram s ∧
  direct_map_offset (set_frames n f s) = direct_map_offset s.
Proof.
  revert f s; induction n as [|n IH]; intros f s; simpl; [done|].
  destruct (IH (u64 (f + 1)) (set_frame f s)) as (->&->&->&->&->&->&->). done.
Qed.

Lemma used_set_frames n f s g :
  0 ≤ f → f + Z.of_nat n < 2 ^ 64 → 0 ≤ g →
  frame_is_used (set_frames n f s) g =
    ((f <=? g) && (g <? f + Z.of_nat n)) || frame_is_used s g.
Proof.
  revert f s; induction n as [|n IH]; intros f s ???; cbn [set_frames].
  - destruct (Z.leb_spec f g), (Z.ltb_spec g (f + Z.of_nat 0)); simpl; try lia; done.
  - rewrite u64_small, IH, used_set_frame by lia.
    destruct (Z.leb_spec (f + 1) g), (Z.leb_spec f g), (Z.eqb_spec f g),
      (Z.ltb_spec g (f + 1 + Z.of_nat n)), (Z.ltb_spec g (f + Z.of_nat (S n)));
      simpl; try lia; done.
Qed.

Lemma count_free_set_frames n f s :
  1 ≤ f → f + Z.of_nat n ≤ frame_limit s → frame_limit s < 2 ^ 32 →
  free_run_at s f (Z.of_nat n) →
  count_free (set_frames n f s) = count_free s - Z.of_nat n.
Proof.
  revert f s; induction n as [|n IH]; intros f s ??? R; cbn [set_frames]; [lia|].
  pose proof (R 0 ltac:(lia)) as R0. rewrite Z.add_0_r in R0.
  rewrite u64_small by lia. rewrite IH; simpl; try lia.
  - rewrite count_free_set by (lia || done). lia.
  - intros off ?. rewrite used_set_frame by lia.
    replace (f + 1 + off) with (f + (off + 1)) by lia. rewrite R by lia.
    destruct (Z.eqb_spec f (f + (off + 1))); [lia|done].
Qed.

Lemma clear_pages_fields n f s :
  frame_bitmap (clear_pages n f s) = frame_bitmap s ∧
  frame_refs (clear_pages n f s) = frame_refs s ∧
  frame_limit (clear_pages n f s) = frame_limit s ∧
  free_frames (clear_pages n f s) = free_frames s ∧
  allocation_cursor (clear_pages n f s) = allocation_cursor s ∧
  ready (clear_pages n f s) = ready s ∧
  direct_map_offset (clear_pages n f s) = direct_map_offset s.
Proof.
  revert f s; induction n as [|n IH]; intros f s; simpl; [done|].
  destruct (IH (u64 (f + 1)) (clear_page f s)) as (->&->&->&->&->&->&->). done.
Qed.

Lemma clear_pages_ram n f s g :
  0 ≤ f → f + Z.of_nat n < 2 ^ 64 →
  ram (clear_pages n f s) !! g =
    if (f <=? g) && (g <? f + Z.of_nat n) then Some zero_page else ram s !! g.
Proof.
  revert f s; induction n as [|n IH]; intros f s ??; cbn [clear_pages].
  - destruct (Z.leb_spec f g), (Z.ltb_spec g (f + Z.of_nat 0)); simpl; try lia; done.
  - rewrite u64_small, IH by lia.
    destruct (Z.leb_spec (f + 1) g), (Z.leb_spec f g),
      (Z.ltb_spec g (f + 1 + Z.of_nat n)), (Z.ltb_spec g (f + Z.of_nat (S n)));
      cbn [andb]; try lia; try done; unfold clear_page; simpl.
    + rewrite lookup_insert_ne by lia. done.
    + replace f with g by lia. by rewrite lookup_insert_eq.
    + rewrite lookup_insert_ne by lia. done.
Qed.

(** ** Allocation *)

(** What a successful allocation of [n] frames at [frame] does to the state. *)
Record allocated (s t : pmm) (frame n : Z) : Prop := {
  al_range : 1 ≤ frame ∧ frame + n ≤ frame_limit s;
  al_free : free_run_at s frame n;
  al_used : ∀ g, 0 ≤ g → frame_is_used t g =
              ((frame <=? g) && (g <? frame + n)) || frame_is_used s g;
  al_count : free_frames t = free_frames s - n;
  al_zero : ∀ g, frame ≤ g < frame + n → ram t !! g = Some zero_page;
  al_others : ∀ g, ¬ frame ≤ g < frame + n → ram t !! g = ram s !! g;
  al_same : frame_limit t = frame_limit s ∧ frame_refs t = frame_refs s ∧ ready t = ready s ∧
            direct_map_offset t = direct_map_offset s;
  al_wf : pmm_wf t;
}.

Lemma page_address f : 1 ≤ f < PMM_MAX_PAGES → u64 (f * PMM_PAGE_SIZE) = f * 4096.
Proof. rewrite pmm_max_pages. intros. apply u64_small. unfold PMM_PAGE_SIZE. lia. Qed.

Lemma free_run_count n f s :
  1 ≤ f → f + Z.of_nat n ≤ frame_limit s → frame_limit s < 2 ^ 32 →
  free_run_at s f (Z.of_nat n) → Z.of_nat n ≤ count_free s.
Proof.
  intros H1 H2 H3 H4. pose proof (count_free_set_frames n f s H1 H2 H3 H4) as C.
  pose proof (count_if_range (frame_is_free (set_frames n f s))
    (Z.to_nat (frame_limit (set_frames n f s) - 1)) 1).
  unfold count_free at 1 in C. lia.
Qed.

Lemma take_run_allocated s frame n :
  pmm_wf s → 1 ≤ n < 2 ^ 32 → 1 ≤ frame → frame + n ≤ frame_limit s → free_run_at s frame n →
  take_run n frame s = (frame * 4096, (take_run n frame s).2) ∧
  allocated s (take_run n frame s).2 frame n.
Proof.
  intros W ??? R. pose proof (wf_limit s W). pose proof (wf_free_bound s W).
  rewrite <- (Z2Nat.id n) in R by lia.
  assert (n ≤ free_frames s) as Hn.
  { rewrite (wf_count s W). rewrite pmm_max_pages in *.
    rewrite <- (Z2Nat.id n) by lia. apply (free_run_count _ frame); try done; lia. }
  rewrite pmm_max_pages in *.
  unfold take_run. set (s1 := set_frames _ _ _). simpl.
  match goal with |- context [clear_pages ?n ?f ?s] => set (s2 := s) end.
  destruct (set_frames_fields (Z.to_nat n) frame s) as (E1&E2&E3&E4&E5&E6&E7).
  fold s1 in E1, E2, E3, E4, E5, E6, E7.
  destruct (clear_pages_fields (Z.to_nat n) frame s2) as (F1&F2&F3&F4&F5&F6&F7).
  assert (∀ g, 0 ≤ g → frame_is_used (clear_pages (Z.to_nat n) frame s2) g =
              ((frame <=? g) && (g <? frame + n)) || frame_is_used s g) as HU.
  { intros. rewrite (used_ext _ s2) by done. change (frame_is_used s2 g) with (frame_is_used s1 g).
    unfold s1. rewrite used_set_frames by lia. rewrite Z2Nat.id by lia. done. }
  assert (free_frames (clear_pages (Z.to_nat n) frame s2) = free_frames s - n) as HF.
  { rewrite F4. subst s2; simpl. rewrite E3. widths. done. }
  split; [by rewrite page_address by (rewrite pmm_max_pages; lia)|].
  split; [done| |done|done| | | |].
  - rewrite Z2Nat.id in R by lia. done.
  - intros g ?. rewrite clear_pages_ram by lia.
    destruct (Z.leb_spec frame g), (Z.ltb_spec g (frame + Z.of_nat (Z.to_nat n))); done || lia.
  - intros g ?. rewrite clear_pages_ram by lia. subst s2; simpl. rewrite E6.
    destruct (Z.leb_spec frame g), (Z.ltb_spec g (frame + Z.of_nat (Z.to_nat n))); done || lia.
  - rewrite F3, F2, F6, F7. subst s2; simpl. done.
  - split.
    + rewrite F3. subst s2; simpl. rewrite E2. done.
    + rewrite F3. subst s2; simpl. rewrite E2. intros g ??.
      rewrite HU, (wf_reserved s W g) by done. apply orb_true_r.
    + rewrite HF, (wf_count s W).
      rewrite (count_free_ext (clear_pages (Z.to_nat n) frame s2) s1) by (rewrite ?F3, ?F1; done).
      unfold s1. rewrite count_free_set_frames by (try done; lia). lia.
    + rewrite F5, F3. subst s2; simpl. rewrite E2. widths. lia.
    + rewrite F2. subst s2; simpl. rewrite E1. apply W.
Qed.

(** A single page is a run of one. *)
Lemma take_page_run s frame : take_page frame s = take_run 1 frame s.
Proof. reflexivity. Qed.

Lemma take_page_allocated s frame :
  pmm_wf s → 1 ≤ frame < frame_limit s → frame_is_used s frame = false →
  take_page frame s = (frame * 4096, (take_page frame s).2) ∧
  allocated s (take_page frame s).2 frame 1.
Proof.
  intros W ? E. rewrite take_page_run. apply take_run_allocated; try done; try lia.
  intros off ?. replace (frame + off) with frame by lia. done.
Qed.

(** The outcome of a request for [n] adjacent frames. *)
Inductive alloc_outcome (s : pmm) (n : Z) : Z * pmm → Prop :=
| alloc_ok t frame : ready s = true → allocated s t frame n →
    alloc_outcome s n (frame * 4096, t)
| alloc_fail :
    ready s = false ∨ n = 0 ∨ free_frames s < n ∨
    (∀ k, (allocation_cursor s ≤ k ∧ k + n ≤ frame_limit s) ∨
          (1 ≤ k ∧ k + n ≤ allocation_cursor s) → ¬ free_run_at s k n) →
    alloc_outcome s n (0, s).

Lemma allocate_page_outcome s : pmm_wf s → alloc_outcome s 1 (pmm_allocate_page_locked s).
Proof.
  intros W. unfold pmm_allocate_page_locked. pose proof (wf_free_bound s W).
  destruct (ready s) eqn:Er; simpl; [|apply alloc_fail; by left].
  destruct (Z.eqb_spec (free_frames s) 0) as [E|E]; [apply alloc_fail; right; right; left; lia|].
  destruct (scan_page s 0) as [f|] eqn:S0.
  - apply scan_page_Some in S0 as [??]; [|done].
    destruct (take_page_allocated s f) as [-> ?]; [done..|]. by apply alloc_ok.
  - destruct (scan_page s 1) as [f|] eqn:S1.
    + apply scan_page_Some in S1 as [??]; [|done].
      destruct (take_page_allocated s f) as [-> ?]; [done..|]. by apply alloc_ok.
    + destruct E. rewrite (wf_count s W). by apply scan_page_None.
Qed.

Lemma pass_run_Some s n pass k :
  pmm_wf s → 1 ≤ n ≤ free_frames s → pass_run s n pass = Some k →
  1 ≤ k ∧ k + n ≤ frame_limit s ∧ free_run_at s k n.
Proof.
  intros W Hn. pose proof (wf_cursor s W). pose proof (wf_limit s W).
  pose proof (wf_free_bound s W). rewrite pmm_max_pages in *. unfold pass_run.
  assert (1 ≤ pass_begin s pass < 2 ^ 32 ∧ pass_end s pass ≤ Z.max 1 (frame_limit s)) as [??]
    by (unfold pass_begin, pass_end; destruct (pass =? 0); lia).
  destruct (_ <? _); [done|]. intros H'%scan_run_Some; try lia.
  destruct H' as (?&?&?). split; [lia|]. split; [lia|done].
Qed.

Lemma pass_run_None s n pass k :
  pmm_wf s → 1 ≤ n ≤ free_frames s → pass_run s n pass = None →
  pass_begin s pass ≤ k → k + n ≤ pass_end s pass → ¬ free_run_at s k n.
Proof.
  intros W Hn. pose proof (wf_cursor s W). pose proof (wf_limit s W).
  pose proof (wf_free_bound s W). rewrite pmm_max_pages in *. unfold pass_run.
  assert (1 ≤ pass_begin s pass < 2 ^ 32 ∧ pass_end s pass < 2 ^ 32) as [??]
    by (unfold pass_begin, pass_end; destruct (pass =? 0); lia).
  rewrite u64_small by lia.
  destruct (Z.ltb_spec (pass_end s pass) (pass_begin s pass + n)); [lia|].
  intros H' ??. apply (scan_run_None _ _ _ _ _) with (6 := H'); lia.
Qed.

Lemma allocate_contiguous_outcome s n :
  pmm_wf s → 0 ≤ n → alloc_outcome s n (pmm_allocate_contiguous_locked n s).
Proof.
  intros W Hn. unfold pmm_allocate_contiguous_locked. pose proof (wf_free_bound s W).
  pose proof (wf_limit s W). rewrite pmm_max_pages in *.
  destruct (ready s) eqn:Er; simpl; [|apply alloc_fail; by left].
  destruct (Z.eqb_spec n 0) as [->|]; [rewrite orb_true_r; apply alloc_fail; auto|].
  destruct (Z.eqb_spec (free_frames s) 0) as [E|E];
    simpl; [apply alloc_fail; right; right; left; lia|].
  destruct (Z.eqb_spec n 1) as [->|]; [by apply allocate_page_outcome|].
  destruct (Z.ltb_spec (free_frames s) n); [apply alloc_fail; right; right; left; lia|].
  destruct (pass_run s n 0) as [f|] eqn:S0.
  - apply pass_run_Some in S0 as (?&?&?); [|done|lia].
    destruct (take_run_allocated s f n) as [-> ?]; try done; try lia. by apply alloc_ok.
  - destruct (pass_run s n 1) as [f|] eqn:S1.
    + apply pass_run_Some in S1 as (?&?&?); [|done|lia].
      destruct (take_run_allocated s f n) as [-> ?]; try done; try lia. by apply alloc_ok.
    + apply alloc_fail. right. right. right. intros k [[??]|[??]].
      * apply (pass_run_None s n 0); try done; lia.
      * apply (pass_run_None s n 1); try done; lia.
Qed.

Lemma alloc_outcome_wf s n r : pmm_wf s → alloc_outcome s n r → pmm_wf r.2.
Proof. intros W [t f ? A|]; simpl; [apply A|done]. Qed.

(** ** Freeing and sharing *)

Lemma used_release s f g : 0 ≤ f → 0 ≤ g →
  frame_is_used (release_frame f s) g = negb (f =? g) && frame_is_used s g.
Proof.
  intros. rewrite <- used_clear_frame by done. unfold release_frame; simpl.
  case_match; by apply used_ext.
Qed.

Lemma release_fields s f :
  frame_limit (release_frame f s) = frame_limit s ∧
  frame_refs (release_frame f s) = frame_refs s ∧ ready (release_frame f s) = ready s.
Proof. unfold release_frame; simpl. case_match; done. Qed.

Lemma free_run_wf n f s :
  pmm_wf s → 1 ≤ f → f + Z.of_nat n ≤ frame_limit s → pmm_wf (free_run n f s).
Proof.
  revert f s; induction n as [|n IH]; intros f s W ??; cbn [free_run]; [done|].
  pose proof (wf_limit s W). rewrite pmm_max_pages in *. rewrite u64_small by lia.
  apply IH; [|lia|].
  - destruct (frame_is_used s f) eqn:E; simpl; [|done]. apply pmm_wf_release; [done|lia|done].
  - destruct (frame_is_used s f); simpl; [|lia].
    destruct (release_fields s f) as (->&_). lia.
Qed.

Lemma free_contiguous_wf a n s :
  pmm_wf s → 0 ≤ a → 0 ≤ n → pmm_wf (pmm_free_contiguous_locked a n s).
Proof.
  intros W ??. pose proof (wf_limit s W). rewrite pmm_max_pages in *.
  unfold pmm_free_contiguous_locked. destruct (_ || _); [done|].
  assert (0 ≤ a / PMM_PAGE_SIZE) by (apply Z.div_pos; done).
  destruct (_ || _) eqn:E; [done|]. zify_bool. rewrite u64_small in * by lia.
  apply free_run_wf; [done|lia|lia].
Qed.

(** Freeing a run clears exactly its frames. *)
Lemma free_run_used n f s :
  pmm_wf s → 1 ≤ f → f + Z.of_nat n ≤ frame_limit s →
  direct_map_offset (free_run n f s) = direct_map_offset s ∧
  frame_limit (free_run n f s) = frame_limit s ∧
  ∀ g, 0 ≤ g → frame_is_used (free_run n f s) g =
    negb ((f <=? g) && (g <? f + Z.of_nat n)) && frame_is_used s g.
Proof.
  revert f s; induction n as [|n IH]; intros f s W Hf Hn; cbn [free_run].
  { split; [done|]. split; [done|]. intros g Hg.
    destruct (Z.leb_spec f g), (Z.ltb_spec g (f + Z.of_nat 0)); done || lia. }
  pose proof (wf_limit s W) as Hl. rewrite pmm_max_pages in Hl. rewrite u64_small by lia.
  set (t := if negb (frame_is_used s f) then s else release_frame f s).
  assert (pmm_wf t ∧ direct_map_offset t = direct_map_offset s ∧ frame_limit t = frame_limit s ∧
    ∀ g, 0 ≤ g → frame_is_used t g = negb (f =? g) && frame_is_used s g) as (Wt&Ot&Lt&Ut).
  { unfold t. destruct (frame_is_used s f) eqn:E; simpl.
    - split; [apply pmm_wf_release; [done|lia|done]|]. destruct (release_fields s f) as (->&_).
      split; [unfold release_frame; simpl; by case_match|]. split; [done|].
      intros. apply used_release; lia.
    - do 3 (split; [done|]). intros g Hg. destruct (Z.eqb_spec f g) as [<-|]; [by rewrite E|done]. }
  destruct (IH (f + 1) t Wt ltac:(lia) ltac:(lia)) as (->&->&U).
  split; [done|]. split; [done|]. intros g Hg. rewrite U, Ut by done.
  destruct (Z.leb_spec (f + 1) g), (Z.leb_spec f g), (Z.ltb_spec g (f + 1 + Z.of_nat n)),
    (Z.ltb_spec g (f + Z.of_nat (S n))), (Z.eqb_spec f g); simpl; done || lia.
Qed.

Lemma free_contiguous_frames f n s :
  pmm_wf s → 1 ≤ f → 0 < n → f + n ≤ frame_limit s →
  let t := pmm_free_contiguous (f * 4096) n s in
  pmm_wf t ∧ frame_limit t = frame_limit s ∧ direct_map_offset t = direct_map_offset s ∧
  ∀ g, 0 ≤ g → frame_is_used t g = negb ((f <=? g) && (g <? f + n)) && frame_is_used s g.
Proof.
  intros W Hf Hn Hl t. pose proof (wf_limit s W) as Hb. rewrite pmm_max_pages in Hb.
  assert (t = free_run (Z.to_nat n) f s) as ->.
  { unfold t, pmm_free_contiguous, pmm_free_contiguous_locked. unfold PMM_PAGE_SIZE.
    change (4096 - 1) with (Z.ones 12). rewrite Z.land_ones by lia.
    change (2 ^ 12) with 4096. rewrite Z.mod_mul, Z.div_mul by lia.
    destruct (Z.eqb_spec n 0); [lia|]. cbn [negb orb Z.eqb].
    destruct (Z.eqb_spec f 0), (Z.leb_spec (frame_limit s) f); try lia.
    rewrite u64_small by lia. destruct (Z.ltb_spec (frame_limit s - f) n); [lia|done]. }
  destruct (free_run_used (Z.to_nat n) f s W Hf ltac:(lia)) as (Ho&L&U).
  split; [apply free_run_wf; [done|lia..]|]. split; [done|]. split; [done|].
  rewrite Z2Nat.id in U by lia. done.
Qed.

Lemma free_page_wf a s : pmm_wf s → 0 ≤ a → pmm_wf (pmm_free_page_locked a s).
Proof.
  intros W ?. unfold pmm_free_page_locked. destruct (negb _); [done|].
  assert (0 ≤ a / PMM_PAGE_SIZE) by (apply Z.div_pos; done).
  destruct (_ || _) eqn:E; [done|]. zify_bool.
  assert (pmm_wf (release_frame (a / PMM_PAGE_SIZE) s)) by (apply pmm_wf_release; [done|lia|done]).
  destruct (frame_refs s) as [refs|] eqn:Er; [|done].
  destruct (negb _); [|done]. apply (pmm_wf_same_bitmap s); try done; simpl.
  intros r g c [= <-]. rewrite lookup_insert. case_decide; [intros [= <-]; apply u16_range|].
  by apply (wf_refs s W).
Qed.

(** What [pmm_free_page] leaves alone. *)
Lemma free_page_frame f s :
  pmm_wf s → 1 ≤ f < frame_limit s →
  let t := pmm_free_page (f * 4096) s in
  pmm_wf t ∧ frame_limit t = frame_limit s ∧ direct_map_offset t = direct_map_offset s ∧
  ∀ g, 0 ≤ g → g ≠ f → frame_is_used t g = frame_is_used s g.
Proof.
  intros W R t. assert (pmm_wf t) as Wt by (apply free_page_wf; [done|lia]).
  split; [done|]. unfold t, pmm_free_page, pmm_free_page_locked. clear Wt t.
  unfold PMM_PAGE_SIZE. rewrite Z.div_mul by lia.
  destruct (negb _); [done|]. destruct (_ || _); [done|].
  assert (frame_limit (release_frame f s) = frame_limit s ∧
    direct_map_offset (release_frame f s) = direct_map_offset s ∧
    ∀ g, 0 ≤ g → g ≠ f → frame_is_used (release_frame f s) g = frame_is_used s g) as H.
  { split; [by apply release_fields|]. split.
    - unfold release_frame; simpl. by case_match.
    - intros g ??. rewrite used_release by lia. by destruct (Z.eqb_spec f g). }
  destruct (frame_refs s); [|done]. destruct (negb _); done.
Qed.

Lemma frame_ref_wf a s : pmm_wf s → pmm_wf (pmm_frame_ref a s).2.
Proof.
  intros W. unfold pmm_frame_ref. destruct (frame_refs s) as [refs|] eqn:Er; [|done].
  destruct (_ && _); [|done]. apply (pmm_wf_same_bitmap s); try done; simpl.
  intros r g c [= <-]. rewrite lookup_insert. case_decide; [intros [= <-]; apply u16_range|].
  by apply (wf_refs s W).
Qed.

(** ** Initialisation *)

Lemma page_mask x : is_u64 x → Z.land x (u64 (Z.lnot (PMM_PAGE_SIZE - 1))) = x / 4096 * 4096.
Proof.
  intros Hx. change 4096 with (2 ^ 12).
  rewrite <- Z.shiftr_div_pow2, <- Z.shiftl_mul_pow2 by lia.
  apply Z.bits_inj'. intros n Hn. rewrite Z.land_spec, Z.shiftl_spec by lia.
  change (PMM_PAGE_SIZE - 1) with (Z.ones 12). unfold u64.
  destruct (decide (n < 64)).
  - rewrite Z.mod_pow2_bits_low, Z.lnot_spec, Z.testbit_ones_nonneg by lia.
    destruct (Z.ltb_spec n 12).
    + rewrite andb_false_r, Z.testbit_neg_r by lia. done.
    + rewrite andb_true_r, Z.shiftr_spec by lia. f_equal. lia.
  - rewrite Z.mod_pow2_bits_high, andb_false_r, Z.shiftr_spec by lia.
    replace (n - 12 + 12) with n by lia.
    rewrite <- (Z.mod_small x (2 ^ 64)), Z.mod_pow2_bits_high by (unfold is_u64 in Hx; lia). done.
Qed.

Lemma region_bounds e :
  ∃ b d, region_begin e = b * 4096 ∧ region_end e = d * 4096 ∧ 0 ≤ b ∧ 0 ≤ d ≤ PMM_MAX_PAGES.
Proof.
  exists (u64 (base e + PMM_PAGE_SIZE - 1) / 4096). unfold region_begin, region_end.
  rewrite !page_mask by apply u64_range.
  pose proof (u64_range (base e + PMM_PAGE_SIZE - 1)) as R1.
  pose proof (u64_range (base e + length_ e)) as R2. unfold is_u64 in *.
  destruct (Z.ltb_spec PMM_MAX_PHYSICAL_BYTES (u64 (base e + length_ e) / 4096 * 4096)) as [L|L].
  - exists PMM_MAX_PAGES. rewrite pmm_max_pages. split; [done|]. split; [done|].
    split; [apply Z.div_pos; lia|lia].
  - exists (u64 (base e + length_ e) / 4096). rewrite pmm_max_pages.
    split; [done|]. split; [done|]. split; [apply Z.div_pos; lia|].
    unfold PMM_MAX_PHYSICAL_BYTES in L. split; [apply Z.div_pos; lia|lia].
Qed.

(** [wf_init] is the invariant of the initialisation loop. *)
Definition wf_init (s : pmm) : Prop := pmm_wf s ∧ allocation_cursor s = 1.

Lemma init_frames_fields n a s :
  frame_limit (init_frames n a s) = frame_limit s ∧
  allocation_cursor (init_frames n a s) = allocation_cursor s ∧
  frame_refs (init_frames n a s) = frame_refs s.
Proof.
  revert a s; induction n as [|n IH]; intros a s; cbn [init_frames]; [done|].
  destruct (IH (u64 (a + PMM_PAGE_SIZE))
    (if (a / PMM_PAGE_SIZE =? 0) || negb (frame_is_used s (a / PMM_PAGE_SIZE)) then s
     else clear_frame (a / PMM_PAGE_SIZE) s <| free_frames := u64 (free_frames s + 1) |>))
    as (E1&E2&E3). destruct (_ || _); simpl in *; done.
Qed.

(** One page of the region: afterwards it is free, unless it is frame 0. *)
Lemma init_frame_step s b :
  pmm_wf s → 0 ≤ b < frame_limit s →
  let t := if (b =? 0) || negb (frame_is_used s b) then s
           else clear_frame b s <| free_frames := u64 (free_frames s + 1) |> in
  pmm_wf t ∧ ∀ g, 0 ≤ g →
    frame_is_used t g = negb ((b =? g) && negb (g =? 0)) && frame_is_used s g.
Proof.
  intros W ?. pose proof (wf_free_bound s W). pose proof (wf_limit s W).
  rewrite pmm_max_pages in *.
  destruct (Z.eqb_spec b 0) as [->|]; cbn [orb].
  { split; [done|]. intros g ?. destruct (Z.eqb_spec 0 g) as [<-|]; done. }
  destruct (frame_is_used s b) eqn:E; simpl.
  - split.
    + widths. split; simpl; try apply W.
      * intros g ??. rewrite (used_ext _ (clear_frame b s)) by done.
        rewrite used_clear_frame, (wf_reserved s W g) by (done || lia).
        destruct (Z.eqb_spec b g); [lia|done].
      * rewrite (wf_count s W), <- (count_free_clear s b) by (done || lia).
        by apply count_free_ext.
    + intros g ?. rewrite (used_ext _ (clear_frame b s)) by done.
      rewrite used_clear_frame by lia.
      destruct (Z.eqb_spec b g), (Z.eqb_spec g 0); simpl; try done; lia.
  - split; [done|]. intros g ?. destruct (Z.eqb_spec b g) as [<-|]; [|done].
    rewrite E, andb_false_r. done.
Qed.

Lemma init_frames_spec n b s :
  pmm_wf s → 0 ≤ b → b + Z.of_nat n ≤ frame_limit s →
  pmm_wf (init_frames n (b * 4096) s) ∧ ∀ g, 0 ≤ g →
    frame_is_used (init_frames n (b * 4096) s) g =
      negb ((b <=? g) && (g <? b + Z.of_nat n) && negb (g =? 0)) && frame_is_used s g.
Proof.
  revert b s; induction n as [|n IH]; intros b s W ??.
  { split; [done|]. intros g ?. cbn [init_frames].
    destruct (Z.leb_spec b g), (Z.ltb_spec g (b + Z.of_nat 0)); simpl; done || lia. }
  pose proof (wf_limit s W). rewrite pmm_max_pages in *. cbn [init_frames].
  change PMM_PAGE_SIZE with 4096. rewrite Z.div_mul, u64_small by lia.
  destruct (init_frame_step s b W ltac:(lia)) as [W1 U1]. cbv zeta in *.
  match goal with |- context [init_frames n _ ?s] => set (t := s) in * end.
  assert (frame_limit t = frame_limit s) as El by (unfold t; destruct (_ || _); done).
  replace (b * 4096 + 4096) with ((b + 1) * 4096) by lia.
  destruct (IH (b + 1) t W1 ltac:(lia) ltac:(lia)) as [W2 U2]. split; [done|].
  intros g ?. rewrite U2, U1 by done.
  destruct (Z.eqb_spec g 0); [rewrite !andb_false_r; done|]. rewrite !andb_true_r.
  destruct (Z.eqb_spec b g), (Z.leb_spec b g), (Z.leb_spec (b + 1) g),
    (Z.ltb_spec g (b + 1 + Z.of_nat n)), (Z.ltb_spec g (b + Z.of_nat (S n)));
    simpl; done || lia.
Qed.

(** Raising the limit keeps the invariant: the new frames are all in use. *)
Lemma pmm_wf_raise s l :
  pmm_wf s → frame_limit s ≤ l ≤ PMM_MAX_PAGES → pmm_wf (s <| frame_limit := l |>).
Proof.
  intros W ?. pose proof (wf_limit s W). split; simpl; try apply W.
  - lia.
  - intros g ??. apply W; [done|lia].
  - rewrite (wf_count s W). unfold count_free; simpl.
    replace (Z.to_nat (l - 1)) with
      (Z.to_nat (frame_limit s - 1) + (Z.to_nat (l - 1) - Z.to_nat (frame_limit s - 1)))%nat by lia.
    rewrite count_if_split.
    rewrite (count_if_zero _ (Z.to_nat (l - 1) - Z.to_nat (frame_limit s - 1))).
    + rewrite Z.add_0_r. by apply count_if_ext.
    + intros j ?. unfold frame_is_free. rewrite (used_ext _ s) by done.
      rewrite (wf_reserved s W) by lia. done.
  - pose proof (wf_cursor s W). lia.
Qed.

(** The frames an entry makes available. *)
Definition entry_frame (entry : option limine_memmap_entry) (f : Z) : bool :=
  match entry with
  | None => false
  | Some e =>
      (type_ e =? LIMINE_MEMMAP_USABLE) && (base e <=? UINT64_MAX - length_ e)
      && (base e <=? UINT64_MAX - (PMM_PAGE_SIZE - 1))
      && (region_begin e <=? f * 4096) && (f * 4096 <? region_end e) && negb (f =? 0)
  end.

Lemma init_entry_spec s entry :
  pmm_wf s →
  pmm_wf (init_entry s entry) ∧
  allocation_cursor (init_entry s entry) = allocation_cursor s ∧
  ∀ g, 0 ≤ g → frame_is_used (init_entry s entry) g =
                 negb (entry_frame entry g) && frame_is_used s g.
Proof.
  intros W. destruct entry as [e|]; [|done]. unfold init_entry, entry_frame.
  destruct (type_ e =? _); simpl; [|done].
  rewrite !(Z.leb_antisym _ (base e)).
  destruct (_ <? base e); simpl; [done|]. destruct (_ <? base e); simpl; [done|].
  destruct (region_bounds e) as (b&d&->&->&?&?).
  destruct (Z.leb_spec (d * 4096) (b * 4096)).
  { split; [done|]. split; [done|]. intros g ?.
    destruct (Z.leb_spec (b * 4096) (g * 4096)), (Z.ltb_spec (g * 4096) (d * 4096));
      simpl; done || lia. }
  change PMM_PAGE_SIZE with 4096. rewrite Z.div_mul by lia.
  rewrite <- Z.mul_sub_distr_r, Z.div_mul by lia.
  set (s1 := if frame_limit s <? d then _ else _).
  assert (pmm_wf s1 ∧ d ≤ frame_limit s1 ∧ allocation_cursor s1 = allocation_cursor s ∧
          frame_bitmap s1 = frame_bitmap s) as (W1&?&Ec&Eb).
  { unfold s1. destruct (Z.ltb_spec (frame_limit s) d); simpl; [|done].
    split; [apply pmm_wf_raise; [done|lia]|]. split; [lia|done]. }
  destruct (init_frames_spec (Z.to_nat (d - b)) b s1 W1) as [W2 U2]; [lia|lia|].
  destruct (init_frames_fields (Z.to_nat (d - b)) (b * 4096) s1) as (_&E2&_).
  split; [done|]. split; [congruence|]. intros g ?. rewrite U2, (used_ext s1 s) by done.
  destruct (Z.leb_spec b g), (Z.ltb_spec g (b + Z.of_nat (Z.to_nat (d - b)))),
    (Z.leb_spec (b * 4096) (g * 4096)), (Z.ltb_spec (g * 4096) (d * 4096));
    simpl; done || lia.
Qed.

Lemma init_entries_spec entries s :
  pmm_wf s →
  pmm_wf (foldl init_entry s entries) ∧
  allocation_cursor (foldl init_entry s entries) = allocation_cursor s ∧
  ∀ g, 0 ≤ g → frame_is_used (foldl init_entry s entries) g =
                 negb (existsb (λ e, entry_frame e g) entries) && frame_is_used s g.
Proof.
  revert s; induction entries as [|e entries IH]; intros s W; simpl; [done|].
  destruct (init_entry_spec s e W) as (W1&C1&U1).
  destruct (IH _ W1) as (W2&C2&U2). split; [done|]. split; [congruence|].
  intros g ?. rewrite U2, U1, negb_orb by done.
  destruct (entry_frame e g), (existsb _ entries); simpl; done.
Qed.

Lemma reset_used h s g : 0 ≤ g → frame_is_used (pmm_reset h s) g = true.
Proof.
  intros. rewrite frame_is_used_testbit by done. unfold bitmap_byte, pmm_reset; simpl.
  pose proof (Z.mod_pos_bound g 8 ltac:(lia)). change 255 with (Z.ones 8).
  apply Z.ones_spec_low. lia.
Qed.

Lemma reset_wf h s : frame_refs s = None → pmm_wf (pmm_reset h s).
Proof.
  intros E. split; simpl; try done.
  - intros; by apply reset_used.
  - rewrite E. done.
Qed.

Lemma init_refs_wf s : pmm_wf s → pmm_wf (init_refs s).
Proof.
  intros W. unfold init_refs. simpl.
  set (s0 := (s <| ready := negb (free_frames s =? 0) |>) <| frame_refs := None |>).
  assert (pmm_wf s0) as W0 by (apply (pmm_wf_same_bitmap s); done).
  destruct (negb (free_frames s =? 0)); [|done].
  pose proof (wf_limit s W). 
  set (n := u64 _ / _).
  assert (0 ≤ n) as Hn by (apply Z.div_pos; [apply u64_range|done]).
  pose proof (alloc_outcome_wf _ _ _ W0 (allocate_contiguous_outcome s0 n W0 Hn)) as W1.
  destruct (pmm_allocate_contiguous_locked n s0) as [a t]. simpl in W1.
  destruct (negb (a =? 0)); [|done]. apply (pmm_wf_same_bitmap t); try done; simpl.
  intros ??? [= <-]. rewrite lookup_empty. done.
Qed.

Lemma pmm_init_wf mm h s : frame_refs s = None → pmm_wf (pmm_init mm h s).
Proof.
  intros E. pose proof (reset_wf h s E) as W. unfold pmm_init.
  destruct mm as [entries|]; [|done]. destruct (h =? 0); [done|].
  apply init_refs_wf. by apply init_entries_spec.
Qed.

(** ** Sequences of operations *)

Inductive pmm_op :=
| OpAllocate
| OpAllocateContiguous (page_count : Z)
| OpFree (physical_address : Z)
| OpFreeContiguous (physical_address page_count : Z)
| OpRef (physical_address : Z).

(** Arguments of C type [uint64_t]. *)
Definition op_ok (op : pmm_op) : Prop :=
  match op with
  | OpAllocate => True
  | OpAllocateContiguous n => is_u64 n
  | OpFree a | OpRef a => is_u64 a
  | OpFreeContiguous a n => is_u64 a ∧ is_u64 n
  end.

Definition pmm_exec (op : pmm_op) (s : pmm) : pmm :=
  match op with
  | OpAllocate => (pmm_allocate_page s).2
  | OpAllocateContiguous n => (pmm_allocate_contiguous n s).2
  | OpFree a => pmm_free_page a s
  | OpFreeContiguous a n => pmm_free_contiguous a n s
  | OpRef a => (pmm_frame_ref a s).2
  end.

(** The states the allocator goes through: [pmm_init] on any memory map, from
    statics whose [frame_refs] is still null, then any sequence of calls. *)
Inductive pmm_reachable : pmm → Prop :=
| reach_init mm h s0 : frame_refs s0 = None → pmm_reachable (pmm_init mm h s0)
| reach_step s op : pmm_reachable s → op_ok op → pmm_reachable (pmm_exec op s).

Lemma pmm_exec_wf op s : pmm_wf s → op_ok op → pmm_wf (pmm_exec op s).
Proof.
  intros W Hop. destruct op; simpl in *.
  - eapply alloc_outcome_wf; [done|]. by apply allocate_page_outcome.
  - eapply alloc_outcome_wf; [done|]. apply allocate_contiguous_outcome; [done|apply Hop].
  - apply free_page_wf; [done|apply Hop].
  - destruct Hop as [[? _] [? _]]. by apply free_contiguous_wf.
  - by apply frame_ref_wf.
Qed.

(** A small machine: frames 1 to 8 usable, frame 1 taken by the share table. *)
Definition demo_boot : pmm := Pmm ∅ None 0 0 0 0 false ∅.
Definition demo_pmm : pmm :=
  pmm_init (Some [Some (Memmap 4096 32768 0)]) 4096 demo_boot.

Lemma reach_ops ops s :
  pmm_reachable s → Forall op_ok ops → pmm_reachable (foldl (λ s op, pmm_exec op s) s ops).
Proof.
  intros Hs Hops. revert s Hs. induction Hops; intros s Hs; simpl; [done|].
  apply IHHops. by apply reach_step.
Qed.

Lemma demo_reachable : pmm_reachable demo_pmm.
Proof. by apply reach_init. Qed.

Lemma demo_wf : pmm_wf demo_pmm.
Proof. by apply pmm_init_wf. Qed.

(** C26: Whatever memory map the boot loader hands over and whatever sequence of
    allocations, frees and share requests follows, the free-frame counter is the
    number of clear bits of the bitmap, frame 0 and the frames past the managed
    limit are never free, the cursor stays in range and no share count leaves
    its 16 bits. *)
Theorem pmm_reachable_wf s : pmm_reachable s → pmm_wf s.
Proof. induction 1; [by apply pmm_init_wf|by apply pmm_exec_wf]. Qed.

Lemma pmm_reachable_wf_witness : pmm_reachable demo_pmm ∧ pmm_wf demo_pmm.
Proof. split; [by apply reach_init|]. apply pmm_reachable_wf. by apply reach_init. Defined.

(** A request for [n] adjacent frames either takes [n] frames that were all
    free and inside the managed range, marks exactly those used, zeroes exactly
    their pages and subtracts [n] from the counter, or leaves the state alone
    and returns 0; it returns 0 only if the allocator is not ready, [n] is 0,
    fewer than [n] frames are free, or no free run of [n] lies within either
    scan range. *)
Theorem pmm_allocate_contiguous_correct s n :
  pmm_wf s → is_u64 n → alloc_outcome s n (pmm_allocate_contiguous n s).
Proof. intros W [? _]. by apply allocate_contiguous_outcome. Qed.

Lemma pmm_allocate_contiguous_correct_witness :
  alloc_outcome demo_pmm 3 (pmm_allocate_contiguous 3 demo_pmm) ∧
  (pmm_allocate_contiguous 3 demo_pmm).1 = 8192.
Proof.
  split; [|vm_compute; reflexivity].
  apply (pmm_allocate_contiguous_correct demo_pmm 3); [apply demo_wf|].
  split; [discriminate|reflexivity].
Defined.

(** [pmm_allocate_page] fails exactly when the allocator is not ready or has
    no free frame, and what it returns is the page-aligned address of a frame
    that was free, is not frame 0 and lies below the limit. *)
Theorem pmm_allocate_page_complete s :
  pmm_wf s →
  ((pmm_allocate_page s).1 = 0 ↔ ready s = false ∨ free_frames s = 0) ∧
  ((pmm_allocate_page s).1 ≠ 0 → ∃ frame,
    (pmm_allocate_page s).1 = frame * PMM_PAGE_SIZE ∧ 1 ≤ frame < frame_limit s ∧
    frame_is_used s frame = false ∧ frame_is_used (pmm_allocate_page s).2 frame = true).
Proof.
  intros W. unfold pmm_allocate_page, pmm_allocate_page_locked.
  destruct (ready s) eqn:Er; simpl; [|split; [by split; [left|]|done]].
  destruct (Z.eqb_spec (free_frames s) 0) as [E|E]; simpl; [split; [by split; [right|]|done]|].
  assert (∀ f, 1 ≤ f < frame_limit s → frame_is_used s f = false →
    ((take_page f s).1 = 0 ↔ true = false ∨ free_frames s = 0) ∧
    ((take_page f s).1 ≠ 0 → ∃ frame,
      (take_page f s).1 = frame * PMM_PAGE_SIZE ∧ 1 ≤ frame < frame_limit s ∧
      frame_is_used s frame = false ∧ frame_is_used (take_page f s).2 frame = true)) as T.
  { intros f R U. destruct (take_page_allocated s f W R U) as [-> A]. simpl. split.
    - split; [lia|intros [|]; done].
    - intros _. exists f. split; [done|]. split; [done|]. split; [done|].
      rewrite (al_used _ _ _ _ A) by lia.
      destruct (Z.leb_spec f f), (Z.ltb_spec f (f + 1)); done || lia. }
  destruct (scan_page s 0) eqn:S0; [apply T; by apply (scan_page_Some s 0)|].
  destruct (scan_page s 1) eqn:S1; [apply T; by apply (scan_page_Some s 1)|].
  destruct E. rewrite (wf_count s W). by apply scan_page_None.
Qed.

Lemma pmm_allocate_page_complete_witness :
  (pmm_allocate_page demo_pmm).1 = 8192 ∧
  ((pmm_allocate_page demo_pmm).1 = 0 ↔ ready demo_pmm = false ∨ free_frames demo_pmm = 0).
Proof.
  split; [vm_compute; reflexivity|]. apply (pmm_allocate_page_complete demo_pmm). apply demo_wf.
Defined.

(** *** Shared frames *)

(** How many extra owners [pmm_frame_ref] has recorded for a frame. *)
Definition shares (s : pmm) (f : Z) : Z :=
  match frame_refs s with Some refs => ref_count refs f | None => 0 end.

Fixpoint share_times (k : nat) (a : Z) (s : pmm) : pmm :=
  match k with O => s | S k' => share_times k' a (pmm_frame_ref a s).2 end.
Fixpoint free_times (k : nat) (a : Z) (s : pmm) : pmm :=
  match k with O => s | S k' => free_times k' a (pmm_free_page a s) end.

Lemma share_once s f :
  is_Some (frame_refs s) → 1 ≤ f < frame_limit s → frame_is_used s f = true →
  0 ≤ shares s f < 65535 →
  let t := (pmm_frame_ref (f * PMM_PAGE_SIZE) s).2 in
  is_Some (frame_refs t) ∧ frame_limit t = frame_limit s ∧ frame_bitmap t = frame_bitmap s ∧
  shares t f = shares s f + 1.
Proof.
  intros [refs E] R U. unfold shares, pmm_frame_ref, UINT16_MAX. rewrite E.
  unfold PMM_PAGE_SIZE. rewrite Z.div_mul by lia. intros Hs. rewrite U.
  destruct (Z.eqb_spec f 0), (Z.ltb_spec f (frame_limit s)),
    (Z.ltb_spec (ref_count refs f) 65535); try lia; simpl.
  split; [eauto|]. split; [done|]. split; [done|].
  unfold ref_count at 1. rewrite lookup_insert_eq. simpl. widths. done.
Qed.

Lemma free_once s f :
  1 ≤ f < frame_limit s → frame_is_used s f = true → 0 ≤ shares s f < 65536 →
  let t := pmm_free_page (f * PMM_PAGE_SIZE) s in
  frame_limit t = frame_limit s ∧
  (shares s f = 0 → frame_is_used t f = false) ∧
  (shares s f ≠ 0 → frame_bitmap t = frame_bitmap s ∧ shares t f = shares s f - 1).
Proof.
  intros R U. unfold pmm_free_page, pmm_free_page_locked.
  replace (PMM_PAGE_SIZE - 1) with (Z.ones 12) by done.
  rewrite Z.land_ones by lia. replace (2 ^ 12) with PMM_PAGE_SIZE by done.
  rewrite Z.mod_mul, Z.div_mul by done. simpl. rewrite U.
  destruct (Z.eqb_spec f 0), (Z.leb_spec (frame_limit s) f); try lia; simpl.
  destruct (release_fields s f) as (El&_).
  assert (frame_is_used (release_frame f s) f = false) as Ur
    by (rewrite used_release, Z.eqb_refl by lia; done).
  unfold shares. destruct (frame_refs s) as [refs|] eqn:E; [|done].
  intros Hs. destruct (Z.eqb_spec (ref_count refs f) 0); simpl; [done|].
  split; [done|]. split; [done|]. intros _. split; [done|].
  unfold ref_count at 1. rewrite lookup_insert_eq. simpl. widths. done.
Qed.

Lemma free_times_shared k f s :
  1 ≤ f < frame_limit s → frame_is_used s f = true → shares s f = Z.of_nat k →
  Z.of_nat k < 65536 →
  (∀ j, (j ≤ k)%nat → frame_is_used (free_times j (f * PMM_PAGE_SIZE) s) f = true) ∧
  frame_is_used (free_times (S k) (f * PMM_PAGE_SIZE) s) f = false.
Proof.
  revert s; induction k as [|k IH]; intros s R U E B;
    destruct (free_once s f R U ltac:(lia)) as (El&H0&H1).
  - split; [|by apply H0]. intros j ?. by replace j with 0%nat by lia.
  - destruct H1 as [Eb Es]; [lia|]. rewrite <- El in R.
    destruct (IH (pmm_free_page (f * PMM_PAGE_SIZE) s) R) as [I1 I2]; try lia.
    { by rewrite (used_ext _ s). }
    split; [|exact I2]. intros [|j] ?; [done|]. apply I1. lia.
Qed.

Lemma share_times_spec k f s :
  is_Some (frame_refs s) → 1 ≤ f < frame_limit s → frame_is_used s f = true →
  0 ≤ shares s f → shares s f + Z.of_nat k ≤ 65535 →
  let t := share_times k (f * PMM_PAGE_SIZE) s in
  frame_limit t = frame_limit s ∧ frame_is_used t f = true ∧
  shares t f = shares s f + Z.of_nat k.
Proof.
  revert s; induction k as [|k IH]; intros s HS R U ??; cbn [share_times]; cbv zeta.
  { split; [done|]. split; [done|lia]. }
  destruct (share_once s f HS R U ltac:(lia)) as (HS'&El&Eb&Es).
  rewrite <- El in R.
  destruct (IH (pmm_frame_ref (f * PMM_PAGE_SIZE) s).2 HS' R) as (I1&I2&I3); try lia.
  { by rewrite (used_ext _ s). }
  split; [congruence|]. split; [done|lia].
Qed.

(** C25: A used, unshared frame that is shared [k] times (up to the 65535 its
    cell can count) stays allocated through the first [k] frees of its address
    and is released by the next one: copy-on-write owners never lose a page
    early and never leak it. *)
Theorem pmm_shared_page_release k f s :
  pmm_wf s → is_Some (frame_refs s) → 1 ≤ f < frame_limit s → frame_is_used s f = true →
  pmm_frame_shared (f * PMM_PAGE_SIZE) s = 0 → Z.of_nat k ≤ 65535 →
  let t := share_times k (f * PMM_PAGE_SIZE) s in
  pmm_frame_shared (f * PMM_PAGE_SIZE) t = Z.of_nat k ∧
  (∀ j, (j ≤ k)%nat → frame_is_used (free_times j (f * PMM_PAGE_SIZE) t) f = true) ∧
  frame_is_used (free_times (S k) (f * PMM_PAGE_SIZE) t) f = false.
Proof.
  intros W HS R U H0 Hk.
  assert (∀ s', f < frame_limit s' → pmm_frame_shared (f * PMM_PAGE_SIZE) s' = shares s' f) as Eq.
  { intros s' ?. unfold pmm_frame_shared, shares, PMM_PAGE_SIZE. rewrite Z.div_mul by done.
    destruct (Z.ltb_spec f (frame_limit s')); [done|lia]. }
  rewrite Eq in H0 by lia. cbv zeta.
  destruct (share_times_spec k f s HS R U) as (I1&I2&I3); try lia.
  rewrite Eq by lia. split; [lia|]. apply free_times_shared; try done; lia.
Qed.

(** The demo machine with frame 2 handed out. *)
Definition demo_page : pmm := pmm_exec OpAllocate demo_pmm.

Lemma demo_page_wf : pmm_wf demo_page.
Proof. exact (pmm_exec_wf OpAllocate demo_pmm demo_wf I). Qed.

Lemma pmm_shared_page_release_witness :
  frame_is_used (free_times 2 (2 * PMM_PAGE_SIZE) (share_times 2 (2 * PMM_PAGE_SIZE) demo_page)) 2
    = true ∧
  frame_is_used (free_times 3 (2 * PMM_PAGE_SIZE) (share_times 2 (2 * PMM_PAGE_SIZE) demo_page)) 2
    = false.
Proof.
  destruct (pmm_shared_page_release 2 2 demo_page demo_page_wf) as (_&H1&H2);
    [vm_compute; by eexists|vm_compute; done..|].
  split; [exact (H1 2%nat (le_n 2))|exact H2].
Defined.

(** After the memory-map loop of [pmm_init] a frame is free exactly when it
    is not frame 0 and lies in the page-aligned part, below 32 GiB, of some
    usable entry whose end does not overflow. *)
Theorem pmm_init_frees_usable entries h s g :
  frame_refs s = None → 0 ≤ g →
  frame_is_used (foldl init_entry (pmm_reset h s) entries) g =
    negb (existsb (λ e, entry_frame e g) entries).
Proof.
  intros E ?. destruct (init_entries_spec entries (pmm_reset h s)) as (_&_&U); [by apply reset_wf|].
  rewrite U, reset_used by done. apply andb_true_r.
Qed.

Lemma pmm_init_frees_usable_witness :
  frame_is_used (foldl init_entry (pmm_reset 4096 demo_boot) [Some (Memmap 100 20000 0)]) 4 = true ∧
  frame_is_used (foldl init_entry (pmm_reset 4096 demo_boot) [Some (Memmap 100 20000 0)]) 3 = false.
Proof.
  split.
  - rewrite (pmm_init_frees_usable [Some (Memmap 100 20000 0)] 4096 demo_boot 4); done.
  - rewrite (pmm_init_frees_usable [Some (Memmap 100 20000 0)] 4096 demo_boot 3); done.
Defined.

(** A reachable state with frames 4 and 5 free on either side of the cursor. *)
Definition split_ops : list pmm_op :=
  [OpAllocateContiguous 2; OpAllocate; OpAllocate; OpAllocate; OpAllocate; OpAllocate;
   OpFree (4 * 4096); OpFree (7 * 4096); OpFree (8 * 4096);
   OpAllocateContiguous 2; OpFree (5 * 4096)].
Definition split_pmm : pmm := foldl (λ s op, pmm_exec op s) demo_pmm split_ops.

(** The two scan ranges of [pmm_allocate_contiguous] meet at the cursor and a
    run that spans it is never tried: there is a reachable state in which
    frames 4 and 5 are both free and a request for two adjacent frames still
    returns 0. *)
Theorem pmm_contiguous_misses_spanning_run :
  ∃ s, pmm_reachable s ∧ ready s = true ∧ free_run_at s 4 2 ∧
       (pmm_allocate_contiguous 2 s).1 = 0.
Proof.
  exists split_pmm. split.
  - apply reach_ops; [apply demo_reachable|]. repeat constructor; discriminate.
  - split; [vm_compute; reflexivity|]. split; [|vm_compute; reflexivity].
    intros off ?. assert (off = 0 ∨ off = 1) as [->| ->] by lia; vm_compute; reflexivity.
Qed.
