(* ===== verification/Oom.v ===== *)
(** * Memory policy (src/src/mm/oom)

    The kernel reserve and per-process limits ([oom.c]), the page accounts of
    the processes ([oom_account.c]), the pressure levels ([oom_pressure.c]), the
    admission gate ([oom_gate.c]), victim selection ([oom_victim.c]), the
    shrinker registry ([oom_reclaim.c]) and the report ([oom_info.c]).  They read
    the page allocator of [Pmm.v]; the slab allocator of [oom_slab.c] is
    [Slab.v]. *)

From S2P Require Import Prelude Pmm.

(** ** Reserve and limits: oom.c *)

(** [src/mm/oom/oom.c:3-3] OOM_PAGE_SIZE *)
Definition OOM_PAGE_SIZE : Z := 4096.
(** [src/mm/oom/oom.c:4-4] OOM_RESERVE_MIN_PAGES *)
Definition OOM_RESERVE_MIN_PAGES : Z := 8 * 1024 * 1024 / OOM_PAGE_SIZE.
(** [src/mm/oom/oom.c:5-5] OOM_RESERVE_MAX_PAGES *)
Definition OOM_RESERVE_MAX_PAGES : Z := 64 * 1024 * 1024 / OOM_PAGE_SIZE.
(** [src/mm/oom/oom.c:6-6] OOM_PROC_CAP_PAGES *)
Definition OOM_PROC_CAP_PAGES : Z := 512 * 1024 * 1024 / OOM_PAGE_SIZE.

(** [src/mm/oom/oom.c:7-9] oom_ready *)
Record oom := Oom {
  oom_ready : bool;
  oom_reserve_pages : Z;
  oom_proc_limit_pages : Z;
}.

(** [src/mm/oom/oom.c:10-31] oom_init *)
Definition oom_init (p : pmm) : oom :=
  let total_pages := pmm_total_bytes p / OOM_PAGE_SIZE in
  let reserve := total_pages / 32 in
  let reserve := if reserve <? OOM_RESERVE_MIN_PAGES then OOM_RESERVE_MIN_PAGES else reserve in
  let reserve := if OOM_RESERVE_MAX_PAGES <? reserve then OOM_RESERVE_MAX_PAGES else reserve in
  let usable := if reserve <? total_pages then u64 (total_pages - reserve) else 0 in
  let per_proc := usable / 2 in
  let per_proc := if OOM_PROC_CAP_PAGES <? per_proc then OOM_PROC_CAP_PAGES else per_proc in
  let per_proc := if per_proc <? OOM_RESERVE_MIN_PAGES then OOM_RESERVE_MIN_PAGES else per_proc in
  Oom true reserve per_proc.

(** [src/mm/oom/oom.c:32-35] oom_is_ready *)
Definition oom_is_ready (o : oom) : bool := oom_ready o.
(** [src/mm/oom/oom.c:36-39] oom_kernel_reserve_pages *)
Definition oom_kernel_reserve_pages (o : oom) : Z := oom_reserve_pages o.
(** [src/mm/oom/oom.c:40-43] oom_kernel_reserve_bytes *)
Definition oom_kernel_reserve_bytes (o : oom) : Z := u64 (oom_reserve_pages o * OOM_PAGE_SIZE).
(** [src/mm/oom/oom.c:44-47] oom_user_process_limit_pages *)
Definition oom_user_process_limit_pages (o : oom) : Z := oom_proc_limit_pages o.
(** [src/mm/oom/oom.c:48-51] oom_user_process_limit_bytes *)
Definition oom_user_process_limit_bytes (o : oom) : Z :=
  u64 (oom_proc_limit_pages o * OOM_PAGE_SIZE).

(** [src/mm/oom/oom.c:52-62] oom_user_budget_pages *)
Definition oom_user_budget_pages (o : oom) (p : pmm) : Z :=
  let free_pages := pmm_free_bytes p / OOM_PAGE_SIZE in
  if negb (oom_ready o) then free_pages else
  if free_pages <=? oom_reserve_pages o then 0 else u64 (free_pages - oom_reserve_pages o).

(** [src/mm/oom/oom.c:63-69] oom_kernel_allowed *)
Definition oom_kernel_allowed (p : pmm) (page_count : Z) : bool :=
  if page_count =? 0 then true else page_count <=? pmm_free_bytes p / OOM_PAGE_SIZE.

(** [src/mm/oom/oom.c:70-83] oom_user_allowed *)
Definition oom_user_allowed (o : oom) (p : pmm) (page_count : Z) : bool :=
  if page_count =? 0 then true else
  if negb (oom_ready o) then page_count <=? pmm_free_bytes p / OOM_PAGE_SIZE else
  let free_pages := pmm_free_bytes p / OOM_PAGE_SIZE in
  if free_pages <? page_count then false else
  oom_reserve_pages o <=? u64 (free_pages - page_count).

(** [src/mm/oom/oom.c:84-96] oom_user_process_allowed *)
Definition oom_user_process_allowed (o : oom) (current_user_pages request_pages : Z) : bool :=
  if request_pages =? 0 then true else
  if oom_proc_limit_pages o <? request_pages then false else
  if oom_proc_limit_pages o <? current_user_pages then false else
  u64 (current_user_pages + request_pages) <=? oom_proc_limit_pages o.

(** [src/mm/oom/oom.c:97-103] oom_alloc_user_page *)
Definition oom_alloc_user_page (o : oom) (p : pmm) : Z * pmm :=
  if negb (oom_user_allowed o p 1) then (0, p) else pmm_allocate_page p.

(** [src/mm/oom/oom.c:104-113] oom_alloc_user_pages *)
Definition oom_alloc_user_pages (o : oom) (page_count : Z) (p : pmm) : Z * pmm :=
  if page_count =? 0 then (0, p) else
  if negb (oom_user_allowed o p page_count) then (0, p) else
  pmm_allocate_contiguous page_count p.

(** ** Pressure: oom_pressure.c *)

(** [src/mm/oom/oom_pressure.h:4-8] oom_pressure *)
Inductive oom_pressure := OOM_PRESSURE_OK | OOM_PRESSURE_LOW | OOM_PRESSURE_CRITICAL.

(** [src/mm/oom/oom_pressure.c:4-15] oom_pressure_get *)
Definition oom_pressure_get (o : oom) (p : pmm) : oom_pressure :=
  let reserve := oom_kernel_reserve_pages o in
  let free_pages := pmm_free_bytes p / 4096 in
  if free_pages <=? reserve then OOM_PRESSURE_CRITICAL else
  if free_pages <=? u64 (reserve * 2) then OOM_PRESSURE_LOW else OOM_PRESSURE_OK.

(** [src/mm/oom/oom_pressure.c:16-19] oom_pressure_kernel_can_alloc *)
Definition oom_pressure_kernel_can_alloc (p : pmm) (page_count : Z) : bool :=
  oom_kernel_allowed p page_count.

(** [src/mm/oom/oom_pressure.c:20-33] oom_pressure_user_can_alloc *)
Definition oom_pressure_user_can_alloc (o : oom) (p : pmm) (page_count : Z) : bool :=
  if page_count =? 0 then true else
  match oom_pressure_get o p with
  | OOM_PRESSURE_CRITICAL => false
  | OOM_PRESSURE_LOW => if 4 <? page_count then false else oom_user_allowed o p page_count
  | OOM_PRESSURE_OK => oom_user_allowed o p page_count
  end.

(** ** Page accounts: oom_account.c *)

(** [src/mm/oom/oom_account.c:3-3] OOM_ACCOUNT_MAX *)
Definition OOM_ACCOUNT_MAX : nat := 256.

(** [src/mm/oom/oom_account.c:4-8] oom_account_entry *)
Record oom_account_entry := Entry { used : bool; pid : Z; pages : Z }.
Definition no_entry : oom_account_entry := Entry false 0 0.

(** [src/mm/oom/oom_account.c:9-10] oom_entries *)
Record accounts := Accounts {
  oom_entries : list oom_account_entry;
  oom_total_user_pages : Z;
}.
#[export] Instance eta_accounts : Eta accounts := λ a,
  Accounts (oom_entries a) (oom_total_user_pages a).

Definition entry (a : accounts) (i : Z) : oom_account_entry := aget no_entry (oom_entries a) i.
Definition set_entry (a : accounts) (i : Z) (e : oom_account_entry) : accounts :=
  a <| oom_entries := aset (oom_entries a) i e |>.

(** [src/mm/oom/oom_account.c:11-18] oom_account_find *)
Definition oom_account_find (a : accounts) (p : Z) : Z :=
  z_find (λ i, used (entry a i) && (pid (entry a i) =? p)) OOM_ACCOUNT_MAX.
(** [src/mm/oom/oom_account.c:19-26] oom_account_find_free *)
Definition oom_account_find_free (a : accounts) : Z :=
  z_find (λ i, negb (used (entry a i))) OOM_ACCOUNT_MAX.
(** [src/mm/oom/oom_account.c:27-34] oom_account_init *)
Definition oom_account_init : accounts := Accounts (replicate OOM_ACCOUNT_MAX no_entry) 0.

(** [src/mm/oom/oom_account.c:35-61] oom_account_charge *)
Definition oom_account_charge (o : oom) (m : pmm) (p n : Z) (a : accounts) : bool * accounts :=
  if (p =? 0) || (n =? 0) then (false, a) else
  let idx := oom_account_find a p in
  let cur := if 0 <=? idx then pages (entry a idx) else 0 in
  if negb (oom_user_process_allowed o cur n) then (false, a) else
  if negb (oom_user_allowed o m n) then (false, a) else
  if 0 <=? idx then
    let a := set_entry a idx (Entry (used (entry a idx)) (pid (entry a idx)) (u64 (cur + n))) in
    (true, a <| oom_total_user_pages := u64 (oom_total_user_pages a + n) |>)
  else
    let free_idx := oom_account_find_free a in
    if free_idx <? 0 then (false, a) else
    let a := set_entry a free_idx (Entry true p n) in
    (true, a <| oom_total_user_pages := u64 (oom_total_user_pages a + n) |>).

(** [src/mm/oom/oom_account.c:62-78] oom_account_uncharge *)
Definition oom_account_uncharge (p n : Z) (a : accounts) : accounts :=
  if (p =? 0) || (n =? 0) then a else
  let idx := oom_account_find a p in
  if idx <? 0 then a else
  let cur := pages (entry a idx) in
  let drop := if cur <? n then cur else n in
  let a := set_entry a idx (Entry (used (entry a idx)) (pid (entry a idx)) (u64 (cur - drop))) in
  let a := a <| oom_total_user_pages := u64 (oom_total_user_pages a - drop) |> in
  if pages (entry a idx) =? 0 then set_entry a idx (Entry false 0 (pages (entry a idx))) else a.

(** [src/mm/oom/oom_account.c:79-91] oom_account_remove *)
Definition oom_account_remove (p : Z) (a : accounts) : accounts :=
  if p =? 0 then a else
  let idx := oom_account_find a p in
  if idx <? 0 then a else
  let a := a <| oom_total_user_pages := u64 (oom_total_user_pages a - pages (entry a idx)) |> in
  set_entry a idx (Entry false 0 0).

(** [src/mm/oom/oom_account.c:92-95] oom_account_used *)
Definition oom_account_used (a : accounts) (p : Z) : Z :=
  let idx := oom_account_find a p in if 0 <=? idx then pages (entry a idx) else 0.
(** [src/mm/oom/oom_account.c:96-96] oom_account_total_user_pages *)
Definition oom_account_total_user_pages (a : accounts) : Z := oom_total_user_pages a.
(** [src/mm/oom/oom_account.c:97-105] oom_account_tracked_count *)
Definition oom_account_tracked_count (a : accounts) : Z :=
  count_if (λ i, used (entry a i)) OOM_ACCOUNT_MAX 0.

(** ** The admission gate: oom_gate.c *)

(** [src/mm/oom/oom_gate.c:21-29] oom_gate_try_charge_user *)
Definition oom_gate_try_charge_user (o : oom) (m : pmm) (p n : Z) (a : accounts) : bool * accounts :=
  if (p =? 0) || (n =? 0) then (false, a) else
  if negb (oom_pressure_user_can_alloc o m n) then (false, a) else
  oom_account_charge o m p n a.
(** [src/mm/oom/oom_gate.c:30-32] oom_gate_release_user *)
Definition oom_gate_release_user (p n : Z) (a : accounts) : accounts := oom_account_uncharge p n a.
(** [src/mm/oom/oom_gate.c:33-33] oom_gate_remove_process *)
Definition oom_gate_remove_process (p : Z) (a : accounts) : accounts := oom_account_remove p a.
(** [src/mm/oom/oom_gate.c:34-34] oom_gate_can_spawn *)
Definition oom_gate_can_spawn (m : pmm) : bool := oom_kernel_allowed m 8.

(** ** Victim selection: oom_victim.c *)

(** [src/mm/oom/oom_victim.h:4-9] oom_candidate *)
Record oom_candidate := Candidate {
  c_pid : Z; c_user_pages : Z; c_runtime_ms : Z; c_is_system : bool;
}.

(** [best_pid], [best_pages] and [best_runtime] of the loop. *)
Record best := Best { best_pid : Z; best_pages : Z; best_runtime : Z }.

(** One iteration of the loop.
    [src/mm/oom/oom_victim.c:20-38] oom_victim_select *)
Definition victim_step (b : best) (c : oom_candidate) : best :=
  if (c_pid c =? 0) || (c_pid c =? 1) then b else
  if c_is_system c then b else
  if c_user_pages c =? 0 then b else
  if (best_pages b <? c_user_pages c)
     || ((c_user_pages c =? best_pages b) && (c_runtime_ms c <? best_runtime b))
     || (best_pid b =? 0)
  then Best (c_pid c) (c_user_pages c) (c_runtime_ms c) else b.

(** A null array is the absent list.
    [src/mm/oom/oom_victim.c:12-40] oom_victim_select *)
Definition oom_victim_select (cands : option (list oom_candidate)) : Z :=
  match cands with
  | None => 0
  | Some cs => best_pid (foldl victim_step (Best 0 0 0) cs)
  end.

(** The pointer [oom_killer], null after initialisation.
    [src/mm/oom/oom_victim.c:4-7] oom_victim_init *)
Definition oom_victim_init {F} : option F := None.
(** [src/mm/oom/oom_victim.c:8-11] oom_victim_set_killer *)
Definition oom_victim_set_killer {F} (f : option F) : option F := f.

(** The registered killer is code of another component: a function on the state
    [W] of the rest of the kernel.
    [src/mm/oom/oom_victim.c:41-51] oom_victim_kill_one *)
Definition oom_victim_kill_one {W} (oom_killer : option (Z → W → Z * W))
    (cands : option (list oom_candidate)) (w : W) : Z * W :=
  match oom_killer with
  | None => (0, w)
  | Some kill =>
      let p := oom_victim_select cands in
      if p =? 0 then (0, w) else kill p w
  end.

(** ** The shrinker registry: oom_reclaim.c *)

Section Reclaim.
(** [fn] names a shrinker, [run] is what calling it does. *)
Context {fn W : Type} (run : fn → Z → Z → W → bool * W).

(** [src/mm/oom/oom_reclaim.c:3-3] OOM_RECLAIM_MAX *)
Definition OOM_RECLAIM_MAX : nat := 16.

(** [used], [fn] and [ctx]; a null [fn] is [None].
    [src/mm/oom/oom_reclaim.c:4-8] oom_shrinker *)
Record oom_shrinker := Shrinker { s_used : bool; s_fn : option fn; s_ctx : Z }.
Definition no_shrinker : oom_shrinker := Shrinker false None 0.
Definition shrinker (t : list oom_shrinker) (i : Z) : oom_shrinker := aget no_shrinker t i.

(** [src/mm/oom/oom_reclaim.c:10-24] oom_reclaim_register *)
Definition oom_reclaim_register (f : option fn) (ctx : Z) (t : list oom_shrinker)
    : Z * list oom_shrinker :=
  match f with
  | None => (-1, t)
  | Some _ =>
      match for_first (λ i, negb (s_used (shrinker t i))) OOM_RECLAIM_MAX 0 with
      | Some i => (i, aset t i (Shrinker true f ctx))
      | None => (-1, t)
      end
  end.

(** [src/mm/oom/oom_reclaim.c:25-33] oom_reclaim_unregister *)
Definition oom_reclaim_unregister (id : Z) (t : list oom_shrinker) : list oom_shrinker :=
  if (id <? 0) || (Z.of_nat OOM_RECLAIM_MAX <=? id) then t else aset t id no_shrinker.

(** The loop of [oom_reclaim_try] over the slots [i], [i+1], ...
    [src/mm/oom/oom_reclaim.c:37-48] oom_reclaim_try *)
Fixpoint reclaim_loop (n : nat) (i want_pages done_ : Z) (t : list oom_shrinker) (w : W)
    : Z * W :=
  match n with
  | O => (done_, w)
  | S n' =>
      match s_used (shrinker t i), s_fn (shrinker t i) with
      | true, Some f =>
          let need := if done_ <? want_pages then want_pages - done_ else 0 in
          let '(ok, w) := run f need (s_ctx (shrinker t i)) w in
          let done_ := if ok then u64 (done_ + 1) else done_ in
          if want_pages <=? done_ then (done_, w)
          else reclaim_loop n' (i + 1) want_pages done_ t w
      | _, _ => reclaim_loop n' (i + 1) want_pages done_ t w
      end
  end.

(** [src/mm/oom/oom_reclaim.c:34-50] oom_reclaim_try *)
Definition oom_reclaim_try (want_pages : Z) (t : list oom_shrinker) (w : W) : Z * W :=
  reclaim_loop OOM_RECLAIM_MAX 0 want_pages 0 t w.

(** [src/mm/oom/oom_reclaim.c:51-60] oom_reclaim_count *)
Definition oom_reclaim_count (t : list oom_shrinker) : Z :=
  count_if (λ i, s_used (shrinker t i)) OOM_RECLAIM_MAX 0.
End Reclaim.

(** ** The report: oom_info.c *)

(** [src/mm/oom/oom_info.h:3-14] oom_info *)
Record oom_info := Info {
  total_pages : Z; free_pages : Z; reserve_pages : Z; budget_pages : Z;
  proc_limit_pages : Z; total_user_pages : Z; tracked_processes : Z;
  pressure : oom_pressure; slab_pages : Z; shrinkers : Z;
}.

(** [slab_pages_used] and [count] are the results of [oom_slab_pages_used] and
    [oom_reclaim_count].
    [src/mm/oom/oom_info.c:9-24] oom_info_get *)
Definition oom_info_get (o : oom) (m : pmm) (a : accounts) (slab_pages_used count : Z)
    : oom_info :=
  Info (pmm_total_bytes m / 4096) (pmm_free_bytes m / 4096) (oom_kernel_reserve_pages o)
       (oom_user_budget_pages o m) (oom_user_process_limit_pages o)
       (oom_account_total_user_pages a) (oom_account_tracked_count a)
       (oom_pressure_get o m) slab_pages_used count.

(** ** Invariant of the accounts *)

Record acc_wf (limit : Z) (a : accounts) : Prop := {
  aw_length : length (oom_entries a) = OOM_ACCOUNT_MAX;
  aw_total : oom_total_user_pages a = sum_of pages (oom_entries a);
  aw_used : ∀ i, 0 ≤ i < 256 → used (entry a i) = true →
              pid (entry a i) ≠ 0 ∧ 0 < pages (entry a i) ≤ limit;
  aw_unused : ∀ i, 0 ≤ i < 256 → used (entry a i) = false → pages (entry a i) = 0;
  aw_unique : ∀ i j, 0 ≤ i < 256 → 0 ≤ j < 256 → used (entry a i) = true →
                used (entry a j) = true → pid (entry a i) = pid (entry a j) → i = j;
}.

Section Accounts.
Context (limit : Z).

Lemma cap_pages : OOM_PROC_CAP_PAGES = 131072.
Proof. reflexivity. Qed.

Lemma acc_max : Z.of_nat OOM_ACCOUNT_MAX = 256.
Proof. reflexivity. Qed.

Lemma entry_set a i j e : acc_wf limit a → 0 ≤ i < 256 → 0 ≤ j →
  entry (set_entry a i e) j = if i =? j then e else entry a j.
Proof.
  intros W ??. unfold entry, set_entry; simpl. apply aget_aset; [|done].
  rewrite (aw_length _ _ W). done.
Qed.

Lemma find_cases a p : acc_wf limit a →
  (oom_account_find a p = -1 ∧ ∀ i, 0 ≤ i < 256 → used (entry a i) = true → pid (entry a i) ≠ p) ∨
  (0 ≤ oom_account_find a p < 256 ∧ used (entry a (oom_account_find a p)) = true ∧
   pid (entry a (oom_account_find a p)) = p).
Proof.
  intros W. unfold oom_account_find.
  match goal with |- context [z_find ?f ?n] => destruct (z_find_spec f n) as [[E Hf]|(Hr&Hf&_)] end.
  - left. split; [done|]. intros i Hi U. specialize (Hf i ltac:(rewrite acc_max; lia)).
    simpl in Hf. rewrite U in Hf. simpl in Hf. by apply Z.eqb_neq.
  - right. rewrite acc_max in *. apply andb_true_iff in Hf as [? ?%Z.eqb_eq]. done.
Qed.

(** The pages charged to a process, read off any entry that names it. *)
Lemma used_at a i : acc_wf limit a → 0 ≤ i < 256 → used (entry a i) = true →
  oom_account_used a (pid (entry a i)) = pages (entry a i).
Proof.
  intros W ? U. unfold oom_account_used.
  destruct (find_cases a (pid (entry a i)) W) as [[E Hn]|(Hr&U'&P')].
  - by destruct (Hn i).
  - rewrite (proj2 (Z.leb_le _ _)) by lia. f_equal. f_equal. by apply (aw_unique _ _ W).
Qed.

Lemma used_none a p : acc_wf limit a →
  (∀ i, 0 ≤ i < 256 → used (entry a i) = true → pid (entry a i) ≠ p) →
  oom_account_used a p = 0.
Proof.
  intros W Hn. unfold oom_account_used.
  destruct (find_cases a p W) as [[-> _]|(Hr&U&P)]; [done|]. by destruct (Hn (oom_account_find a p)).
Qed.

Lemma used_cases a p : acc_wf limit a →
  (oom_account_find a p = -1 ∧ oom_account_used a p = 0 ∧
    ∀ i, 0 ≤ i < 256 → used (entry a i) = true → pid (entry a i) ≠ p) ∨
  (∃ i, oom_account_find a p = i ∧ 0 ≤ i < 256 ∧ used (entry a i) = true ∧
    pid (entry a i) = p ∧ oom_account_used a p = pages (entry a i)).
Proof.
  intros W. destruct (find_cases a p W) as [[E Hn]|(Hr&U&P)].
  - left. split; [done|]. split; [by apply used_none|done].
  - right. eexists. split; [done|]. split; [done|]. split; [done|]. split; [done|].
    rewrite <- P at 1. by apply used_at.
Qed.

Lemma total_bound a : 0 ≤ limit → acc_wf limit a → 0 ≤ oom_total_user_pages a ≤ limit * 256.
Proof.
  intros Hl W. rewrite (aw_total _ _ W), <- acc_max, <- (aw_length _ _ W).
  apply sum_of_bound. intros x (i&Hi&<-)%(aget_elem no_entry).
  rewrite (aw_length _ _ W), acc_max in Hi. fold (entry a i).
  destruct (used (entry a i)) eqn:U.
  - apply (aw_used _ _ W) in U; [lia|done].
  - rewrite (aw_unused _ _ W) by done. lia.
Qed.

Lemma pages_le_total a i : acc_wf limit a → 0 ≤ i < 256 →
  0 ≤ pages (entry a i) ≤ oom_total_user_pages a.
Proof.
  intros W Hi. rewrite (aw_total _ _ W).
  assert (∀ x, x ∈ oom_entries a → 0 ≤ pages x) as P.
  { intros x (j&Hj&<-)%(aget_elem no_entry).
    rewrite (aw_length _ _ W), acc_max in Hj. fold (entry a j).
    destruct (used (entry a j)) eqn:U.
    - apply (aw_used _ _ W) in U; [lia|done].
    - rewrite (aw_unused _ _ W) by done. lia. }
  assert (entry a i ∈ oom_entries a) as E.
  { apply (aget_elem no_entry). exists i. rewrite (aw_length _ _ W), acc_max. done. }
  split; [by apply P|]. by apply elem_le_sum.
Qed.

(** Rewriting one slot: the effect on the invariant and on every process. *)
Definition put (a : accounts) (i : Z) (e : oom_account_entry) (total : Z) : accounts :=
  (set_entry a i e) <| oom_total_user_pages := total |>.

Lemma set_entry_wf a i e total :
  acc_wf limit a → 0 ≤ i < 256 →
  total = oom_total_user_pages a - pages (entry a i) + pages e →
  (if used e then pid e ≠ 0 ∧ 0 < pages e ≤ limit ∧
     (∀ j, 0 ≤ j < 256 → j ≠ i → used (entry a j) = true → pid (entry a j) ≠ pid e)
   else pages e = 0) →
  acc_wf limit (put a i e total).
Proof.
  intros W Hi Ht He. set (b := put a i e total).
  assert (∀ j, 0 ≤ j → entry b j = if i =? j then e else entry a j) as EQ.
  { intros. by apply entry_set. }
  split.
  - subst b; simpl. rewrite length_aset. apply W.
  - subst b; simpl. rewrite (sum_of_aset no_entry) by (rewrite (aw_length _ _ W), acc_max; lia).
    rewrite <- (aw_total _ _ W). done.
  - intros j Hj. rewrite EQ by lia. destruct (i =? j); [|by apply W].
    intros U. rewrite U in He. destruct He as (?&?&_). done.
  - intros j Hj. rewrite EQ by lia. destruct (i =? j); [|by apply W].
    intros U. by rewrite U in He.
  - intros j k Hj Hk. rewrite !EQ by lia.
    destruct (Z.eqb_spec i j) as [<-|], (Z.eqb_spec i k) as [<-|]; try done.
    + intros U Uk Ep. rewrite U in He. destruct He as (_&_&H). symmetry in Ep. by apply H in Ep; [|lia..|].
    + intros Uj U Ep. rewrite U in He. destruct He as (_&_&H). by apply H in Ep; [|lia..|].
    + by apply W.
Qed.

Lemma put_ledger a i e total q :
  acc_wf limit a → 0 ≤ i < 256 → acc_wf limit (put a i e total) →
  oom_account_used (put a i e total) q =
    if used e && (q =? pid e) then pages e else
    if used (entry a i) && (q =? pid (entry a i)) then 0 else oom_account_used a q.
Proof.
  intros A Hi B. set (b := put a i e total) in *.
  assert (∀ k, 0 ≤ k → entry b k = if i =? k then e else entry a k) as EQ
    by (intros; by apply entry_set).
  destruct (used e && (q =? pid e)) eqn:C1.
  { apply andb_true_iff in C1 as [U ->%Z.eqb_eq].
    pose proof (used_at b i B Hi) as X. rewrite EQ, Z.eqb_refl in X by lia. by apply X. }
  destruct (used (entry a i) && (q =? pid (entry a i))) eqn:C2.
  { apply andb_true_iff in C2 as [U ->%Z.eqb_eq].
    apply used_none; [done|]. intros k Hk. rewrite EQ by lia.
    destruct (Z.eqb_spec i k) as [<-|].
    - intros U' E. rewrite U', <- E, Z.eqb_refl in C1. done.
    - intros U' E. apply (aw_unique _ _ A) in E; done. }
  destruct (used_cases a q A) as [(_&->&Nq)|(k&_&Hk&Uk&Pk&->)].
  - apply used_none; [done|]. intros k Hk. rewrite EQ by lia.
    destruct (Z.eqb_spec i k); [|by apply Nq].
    intros U' E. rewrite U', E, Z.eqb_refl in C1. done.
  - assert (i ≠ k) as Hik.
    { intros ->. rewrite Uk, Pk, Z.eqb_refl in C2. done. }
    pose proof (used_at b k B Hk) as X. rewrite EQ in X by lia.
    destruct (Z.eqb_spec i k); [done|]. rewrite Pk in X. by apply X.
Qed.
End Accounts.

(** ** The limits [oom_init] establishes *)

Record oom_wf (o : oom) : Prop := {
  ow_reserve : OOM_RESERVE_MIN_PAGES ≤ oom_reserve_pages o ≤ OOM_RESERVE_MAX_PAGES;
  ow_limit : OOM_RESERVE_MIN_PAGES ≤ oom_proc_limit_pages o ≤ OOM_PROC_CAP_PAGES;
}.

Lemma reserve_pages_values :
  OOM_RESERVE_MIN_PAGES = 2048 ∧ OOM_RESERVE_MAX_PAGES = 16384 ∧ OOM_PROC_CAP_PAGES = 131072.
Proof. done. Qed.

Lemma free_pages_frames m : pmm_wf m → pmm_free_bytes m / 4096 = free_frames m.
Proof.
  intros W. pose proof (wf_free_bound m W). rewrite pmm_max_pages in *.
  unfold pmm_free_bytes, pmm_free_bytes_locked, PMM_PAGE_SIZE.
  rewrite u64_small, Z.div_mul by lia. done.
Qed.

Lemma user_allowed_spec o m n : pmm_wf m → oom_wf o → oom_ready o = true → 0 < n →
  oom_user_allowed o m n = true ↔ oom_reserve_pages o + n ≤ free_frames m.
Proof.
  intros W Ow Er ?. pose proof (wf_free_bound m W). pose proof (ow_reserve o Ow).
  destruct reserve_pages_values as (E1&E2&_). rewrite E1, E2, pmm_max_pages in *.
  unfold oom_user_allowed. change OOM_PAGE_SIZE with 4096. rewrite Er, (free_pages_frames m W). simpl.
  destruct (Z.eqb_spec n 0); [lia|]. destruct (Z.ltb_spec (free_frames m) n); [split; [done|lia]|].
  rewrite u64_small by lia. rewrite Z.leb_le. lia.
Qed.

Lemma process_allowed_spec o cur n : oom_wf o → 0 ≤ cur → 0 < n →
  oom_user_process_allowed o cur n = true ↔ cur + n ≤ oom_proc_limit_pages o.
Proof.
  intros Ow ??. pose proof (ow_limit o Ow).
  destruct reserve_pages_values as (_&_&E3). rewrite E3 in *.
  unfold oom_user_process_allowed.
  destruct (Z.eqb_spec n 0); [lia|].
  destruct (Z.ltb_spec (oom_proc_limit_pages o) n); [split; [done|lia]|].
  destruct (Z.ltb_spec (oom_proc_limit_pages o) cur); [split; [done|lia]|].
  rewrite u64_small by lia. apply Z.leb_le.
Qed.

(** ** The accounts as a ledger

    The abstract state is the number of pages charged to each process. *)
Definition ledger := Z → Z.
Definition ledger_of (a : accounts) : ledger := oom_account_used a.
Definition ledger_add (l : ledger) (p n : Z) : ledger := λ q, if q =? p then l q + n else l q.

Section Ledger.
Context (o : oom) (m : pmm).
Context (Ow : oom_wf o) (W : pmm_wf m) (Er : oom_ready o = true).
#[local] Abbreviation limit := (oom_proc_limit_pages o).

Lemma total_small a : acc_wf limit a → 0 ≤ oom_total_user_pages a ≤ 131072 * 256.
Proof using Ow.
  intros A. pose proof (ow_limit o Ow). destruct reserve_pages_values as (E1&_&E3).
  rewrite E1, E3 in *. pose proof (total_bound limit a ltac:(lia) A). lia.
Qed.

Lemma charge_spec p n a : acc_wf limit a → is_u64 n →
  let '(ok, b) := oom_account_charge o m p n a in
  if ok then
    acc_wf limit b ∧ (∀ q, ledger_of b q = ledger_add (ledger_of a) p n q) ∧
    oom_total_user_pages b = oom_total_user_pages a + n ∧
    ledger_of a p + n ≤ limit ∧ oom_reserve_pages o + n ≤ free_frames m
  else b = a.
Proof using Ow W Er.
  intros A [Hn _]. pose proof (total_small a A) as T. pose proof (ow_limit o Ow) as L.
  destruct reserve_pages_values as (E1&_&E3). rewrite E1, E3 in L.
  unfold oom_account_charge, ledger_add, ledger_of.
  destruct (Z.eqb_spec p 0) as [|Hp]; [done|]. destruct (Z.eqb_spec n 0) as [|Hn0]; [done|].
  simpl. fold (oom_account_used a p).
  destruct (used_cases limit a p A) as [(F&U0&N)|(i&F&Hi&U&P&Up)]; rewrite F.
  - rewrite U0. destruct (oom_user_process_allowed o 0 n) eqn:PA; simpl; [|done].
    apply process_allowed_spec in PA; [|done|lia|lia].
    destruct (oom_user_allowed o m n) eqn:UA; simpl; [|done].
    apply user_allowed_spec in UA; [|done..|lia].
    unfold oom_account_find_free.
    match goal with |- context [z_find ?f ?k] => destruct (z_find_spec f k) as [[E Hf]|(Hr&Hf&_)] end;
      [rewrite E; done|].
    rewrite acc_max in Hr. apply negb_true_iff in Hf. set (j := z_find _ _) in *.
    destruct (Z.ltb_spec j 0); [lia|].
    pose proof (aw_unused _ _ A j Hr Hf) as Z0. simpl.
    rewrite (u64_small (oom_total_user_pages a + n)) by lia.
    fold (put a j (Entry true p n) (oom_total_user_pages a + n)).
    assert (acc_wf limit (put a j (Entry true p n) (oom_total_user_pages a + n))) as B.
    { apply set_entry_wf; [done|done|simpl; lia|simpl]. split; [done|]. split; [lia|].
      intros k Hk _ Uk. by apply N. }
    split; [done|]. split; [|simpl; lia]. intros q. rewrite (put_ledger limit) by done.
    rewrite Hf. simpl. destruct (Z.eqb_spec q p) as [->|]; [lia|done].
  - rewrite Up. rewrite (proj2 (Z.leb_le 0 i)) by lia.
    pose proof (aw_used _ _ A i Hi U) as [Pi Bi].
    pose proof (pages_le_total limit a i A Hi).
    destruct (oom_user_process_allowed o (pages (entry a i)) n) eqn:PA; simpl; [|done].
    apply process_allowed_spec in PA; [|done|lia|lia].
    destruct (oom_user_allowed o m n) eqn:UA; simpl; [|done].
    apply user_allowed_spec in UA; [|done..|lia].
    rewrite (u64_small (oom_total_user_pages a + n)), (u64_small (pages (entry a i) + n)) by lia.
    rewrite U, P.
    fold (put a i (Entry true p (pages (entry a i) + n)) (oom_total_user_pages a + n)).
    assert (acc_wf limit (put a i (Entry true p (pages (entry a i) + n))
              (oom_total_user_pages a + n))) as B.
    { apply set_entry_wf; [done|done|simpl; lia|simpl]. split; [done|]. split; [lia|].
      intros k Hk Hki Uk Ep. rewrite <- P in Ep. by apply (aw_unique _ _ A) in Ep. }
    split; [done|]. split; [|simpl; lia]. intros q. rewrite (put_ledger limit) by done.
    rewrite U, P. simpl. destruct (Z.eqb_spec q p) as [->|]; [lia|done].
Qed.

Lemma uncharge_spec p n a : acc_wf limit a → is_u64 n →
  let b := oom_account_uncharge p n a in
  acc_wf limit b ∧
  (∀ q, ledger_of b q = ledger_add (ledger_of a) p (- Z.min n (ledger_of a p)) q) ∧
  oom_total_user_pages b = oom_total_user_pages a - Z.min n (ledger_of a p).
Proof using Ow.
  intros A [Hn _]. pose proof (total_small a A) as T. unfold oom_account_uncharge, ledger_add, ledger_of.
  destruct (used_cases limit a p A) as [(F&U0&N)|(i&F&Hi&U&P&Up)]; rewrite F.
  { rewrite U0. replace (Z.min n 0) with 0 by lia. rewrite Z.sub_0_r.
    destruct (_ || _); (split; [done|]; split; [|done]; intros q; destruct (q =? p); simpl; lia). }
  pose proof (aw_used _ _ A i Hi U) as [Pi Bi]. pose proof (pages_le_total limit a i A Hi) as Pt.
  rewrite P in Pi. destruct (Z.eqb_spec p 0) as [|_]; [done|]. rewrite Up.
  destruct (Z.eqb_spec n 0) as [->|Hn0]; cbn [orb].
  { replace (Z.min 0 (pages (entry a i))) with 0 by lia. rewrite Z.sub_0_r.
    split; [done|]; split; [|done]. intros q. destruct (q =? p); lia. }
  destruct (Z.ltb_spec i 0); [lia|]. rewrite U, P.
  replace (if pages (entry a i) <? n then pages (entry a i) else n)
    with (Z.min n (pages (entry a i))) by (destruct (Z.ltb_spec (pages (entry a i)) n); lia).
  set (d := Z.min n (pages (entry a i))) in *.
  rewrite (u64_small (pages (entry a i) - d)) by lia. cbv zeta.
  set (e1 := Entry true p (pages (entry a i) - d)).
  replace (u64 (oom_total_user_pages (set_entry a i e1) - d)) with (oom_total_user_pages a - d)
    by (rewrite u64_small; simpl; lia).
  fold (put a i e1 (oom_total_user_pages a - d)).
  assert (entry (put a i e1 (oom_total_user_pages a - d)) i = e1) as EQ.
  { change (entry (set_entry a i e1) i = e1).
    rewrite (entry_set limit), Z.eqb_refl by (done || lia). done. }
  rewrite EQ.
  set (e2 := if pages e1 =? 0 then Entry false 0 0 else e1).
  assert ((if pages e1 =? 0 then set_entry (put a i e1 (oom_total_user_pages a - d)) i
             (Entry false 0 (pages e1)) else put a i e1 (oom_total_user_pages a - d))
          = put a i e2 (oom_total_user_pages a - d)) as ->.
  { subst e2. destruct (Z.eqb_spec (pages e1) 0) as [->|]; [|done].
    unfold put, set_entry, set_field; cbn. by rewrite aset_aset. }
  assert (pages e2 = pages (entry a i) - d ∧ (used e2 = true → pid e2 = p ∧ pages e2 ≠ 0) ∧
          (used e2 = false → pages e2 = 0)) as (E1&E2&E3).
  { subst e2; simpl. destruct (Z.eqb_spec (pages (entry a i) - d) 0) as [->|]; simpl; done. }
  assert (acc_wf limit (put a i e2 (oom_total_user_pages a - d))) as B.
  { apply set_entry_wf; [done|done|lia|]. destruct (used e2); [|by apply E3].
    destruct E2 as [-> ?]; [done|]. split; [done|]. split; [lia|].
    intros k Hk Hki Uk Ep. rewrite <- P in Ep. by apply (aw_unique _ _ A) in Ep. }
  split; [done|]. split; [|done]. intros q. rewrite (put_ledger limit) by done.
  rewrite U, P. cbn [andb]. destruct (used e2) eqn:U2; cbn [andb].
  - destruct E2 as [-> ?]; [done|]. destruct (Z.eqb_spec q p) as [->|]; [lia|done].
  - specialize (E3 eq_refl). destruct (Z.eqb_spec q p) as [->|]; [lia|done].
Qed.

Lemma remove_spec p a : acc_wf limit a →
  let b := oom_account_remove p a in
  acc_wf limit b ∧
  (∀ q, ledger_of b q = ledger_add (ledger_of a) p (- ledger_of a p) q) ∧
  oom_total_user_pages b = oom_total_user_pages a - ledger_of a p.
Proof using Ow.
  intros A. pose proof (total_small a A) as T. unfold oom_account_remove, ledger_add, ledger_of.
  destruct (used_cases limit a p A) as [(F&U0&N)|(i&F&Hi&U&P&Up)]; rewrite F.
  { rewrite U0, Z.sub_0_r.
    destruct (p =? 0); (split; [done|]; split; [|done]; intros q; destruct (q =? p); simpl; lia). }
  pose proof (aw_used _ _ A i Hi U) as [Pi Bi]. pose proof (pages_le_total limit a i A Hi) as Pt.
  rewrite P in Pi. destruct (Z.eqb_spec p 0) as [|_]; [done|]. rewrite Up.
  destruct (Z.ltb_spec i 0); [lia|]. cbv zeta.
  rewrite u64_small by lia.
  change (set_entry _ i _) with (put a i (Entry false 0 0) (oom_total_user_pages a - pages (entry a i))).
  assert (acc_wf limit (put a i (Entry false 0 0) (oom_total_user_pages a - pages (entry a i)))) as B.
  { apply set_entry_wf; [done|done|simpl; lia|done]. }
  split; [done|]. split; [|done]. intros q. rewrite (put_ledger limit) by done.
  rewrite U, P. cbn [used andb]. destruct (Z.eqb_spec q p) as [->|]; [lia|done].
Qed.
End Ledger.

(** ** Properties *)

(** The 256-slot scans are not for [done] to unfold. *)
#[local] Opaque oom_account_find.

Lemma acc_init_wf limit : 0 ≤ limit → acc_wf limit oom_account_init.
Proof.
  intros. assert (∀ i, 0 ≤ i < 256 → entry oom_account_init i = no_entry) as E.
  { intros i Hi. unfold entry, aget, oom_account_init. cbn [oom_entries].
    rewrite nth_lookup, lookup_replicate_2; [done|]. unfold OOM_ACCOUNT_MAX. lia. }
  split; [apply length_replicate|done| | |].
  - intros i Hi. by rewrite E.
  - intros i Hi. by rewrite E.
  - intros i j Hi Hj. by rewrite (E i).
Qed.

Lemma oom_init_ok m : oom_wf (oom_init m).
Proof.
  unfold oom_init. destruct reserve_pages_values as (E1&E2&E3).
  set (t := pmm_total_bytes m / OOM_PAGE_SIZE). rewrite E1, E2, E3.
  match goal with |- context [u64 (t - ?r)] => set (rv := r) end.
  set (us := if rv <? t then _ else _).
  assert (0 ≤ us / 2).
  { apply Z.div_pos; [|lia]. unfold us. destruct (rv <? t); [apply u64_range|lia]. }
  assert (2048 ≤ rv ≤ 16384).
  { unfold rv. destruct (Z.ltb_spec (t / 32) 2048); [done|].
    destruct (Z.ltb_spec 16384 (t / 32)); lia. }
  split; simpl; rewrite ?E1, ?E2, ?E3; [done|].
  destruct (Z.ltb_spec 131072 (us / 2)); [done|].
  destruct (Z.ltb_spec (us / 2) 2048); lia.
Qed.

Definition demo_oom : oom := Oom true 2048 4096.
Lemma demo_oom_wf : oom_wf demo_oom.
Proof. by split. Qed.

(** A machine with 12288 usable frames (48 MiB) after frame 1. *)
Definition demo_big : pmm := pmm_init (Some [Some (Memmap 4096 (12288 * 4096) 0)]) 4096 demo_boot.
Lemma demo_big_wf : pmm_wf demo_big.
Proof. by apply pmm_init_wf. Qed.

(** A charge the admission gate grants leaves at least the kernel reserve
    free, keeps the process within its page limit, adds exactly the requested
    pages to that process and to the total and changes no other account; a
    charge it refuses changes nothing.  The account invariant is kept either
    way. *)
Theorem oom_gate_charge_safe o m p n a :
  oom_wf o → oom_ready o = true → pmm_wf m →
  acc_wf (oom_user_process_limit_pages o) a → is_u64 n →
  let '(ok, b) := oom_gate_try_charge_user o m p n a in
  acc_wf (oom_user_process_limit_pages o) b ∧
  if ok then
    oom_kernel_reserve_pages o + n ≤ free_frames m ∧
    oom_account_used b p = oom_account_used a p + n ∧
    oom_account_used b p ≤ oom_user_process_limit_pages o ∧
    oom_account_total_user_pages b = oom_account_total_user_pages a + n ∧
    (∀ q, q ≠ p → oom_account_used b q = oom_account_used a q)
  else b = a.
Proof.
  intros Ow Er W A Hn. unfold oom_gate_try_charge_user.
  destruct (_ || _); [done|]. destruct (negb _); [done|].
  pose proof (charge_spec o m Ow W Er p n a A Hn) as S.
  destruct (oom_account_charge o m p n a) as [[] b]; [|by subst].
  destruct S as (B&L&T&Hlim&Hres). split; [done|]. split; [done|].
  pose proof (L p) as Lp. unfold ledger_add, ledger_of in Lp. rewrite Z.eqb_refl in Lp.
  unfold ledger_of in *. split; [done|]. split; [rewrite Lp; exact Hlim|].
  split; [done|]. intros q Hq. rewrite L. unfold ledger_add.
  destruct (Z.eqb_spec q p); [contradiction|reflexivity].
Qed.

Lemma oom_gate_charge_safe_witness :
  (oom_gate_try_charge_user demo_oom demo_big 7 100 oom_account_init).1 = true ∧
  oom_account_used (oom_gate_try_charge_user demo_oom demo_big 7 100 oom_account_init).2 7 = 100.
Proof.
  assert ((oom_gate_try_charge_user demo_oom demo_big 7 100 oom_account_init).1 = true) as E
    by (vm_compute; reflexivity).
  split; [exact E|].
  pose proof (oom_gate_charge_safe demo_oom demo_big 7 100 oom_account_init demo_oom_wf eq_refl
    demo_big_wf (acc_init_wf 4096 ltac:(lia)) ltac:(split; [discriminate|reflexivity])) as S.
  destruct (oom_gate_try_charge_user demo_oom demo_big 7 100 oom_account_init) as [ok b].
  cbn [fst snd] in *. subst ok. destruct S as (_&_&S&_). exact S.
Defined.

(** The operations on the accounts and what they do to the abstract ledger. *)
Inductive account_op := Charge (p n : Z) | Uncharge (p n : Z) | Remove (p : Z).

Definition account_exec (o : oom) (m : pmm) (op : account_op) (a : accounts) : bool * accounts :=
  match op with
  | Charge p n => oom_account_charge o m p n a
  | Uncharge p n => (true, oom_account_uncharge p n a)
  | Remove p => (true, oom_account_remove p a)
  end.

(** How many pages the operation adds to the account of its process. *)
Definition account_delta (op : account_op) (ok : bool) (l : ledger) : Z :=
  match op with
  | Charge p n => if ok then n else 0
  | Uncharge p n => - Z.min n (l p)
  | Remove p => - l p
  end.
Definition account_pid (op : account_op) : Z :=
  match op with Charge p _ | Uncharge p _ | Remove p => p end.
Definition account_args (op : account_op) : Prop :=
  match op with Charge _ n | Uncharge _ n => is_u64 n | Remove _ => True end.

(** C38: The 256-slot table of [oom_account.c] implements a ledger of pages per
    process: every charge, uncharge and removal keeps the table well formed,
    changes the account of its own process by exactly the documented amount
    (an uncharge never below zero), leaves every other account alone, and moves
    the total by the same amount. *)
Theorem oom_accounts_refine_ledger o m op a :
  oom_wf o → oom_ready o = true → pmm_wf m → acc_wf (oom_proc_limit_pages o) a → account_args op →
  let '(ok, b) := account_exec o m op a in
  acc_wf (oom_proc_limit_pages o) b ∧
  (∀ q, ledger_of b q =
        ledger_add (ledger_of a) (account_pid op) (account_delta op ok (ledger_of a)) q) ∧
  oom_total_user_pages b = oom_total_user_pages a + account_delta op ok (ledger_of a).
Proof.
  intros Ow Er W A Hargs. destruct op as [p n|p n|p]; simpl in *.
  - pose proof (charge_spec o m Ow W Er p n a A Hargs) as S.
    destruct (oom_account_charge o m p n a) as [[] b].
    + destruct S as (?&?&?&_). done.
    + subst b. split; [done|]. split; [|lia]. intros q. unfold ledger_add. destruct (q =? p); lia.
  - destruct (uncharge_spec o Ow p n a A Hargs) as (?&?&?). split; [done|]. split; [done|lia].
  - destruct (remove_spec o Ow p a A) as (?&?&?). split; [done|]. split; [done|lia].
Qed.

Definition demo_accounts : accounts := (oom_account_charge demo_oom demo_big 7 100 oom_account_init).2.

Lemma demo_accounts_wf : acc_wf 4096 demo_accounts.
Proof.
  pose proof (charge_spec demo_oom demo_big demo_oom_wf demo_big_wf eq_refl 7 100 oom_account_init
    (acc_init_wf 4096 ltac:(lia)) ltac:(split; [discriminate|reflexivity])) as S.
  unfold demo_accounts. destruct (oom_account_charge _ _ _ _ _) as [[] b]; [apply S|].
  subst b. by apply acc_init_wf.
Qed.

Lemma oom_accounts_refine_ledger_witness :
  oom_account_used (oom_account_uncharge 7 30 demo_accounts) 7 = 70.
Proof.
  destruct (oom_accounts_refine_ledger demo_oom demo_big (Uncharge 7 30) demo_accounts demo_oom_wf
    eq_refl demo_big_wf demo_accounts_wf ltac:(split; [discriminate|reflexivity])) as (_&S&_).
  etransitivity; [exact (S 7)|vm_compute; reflexivity].
Defined.

(** *** Victim selection *)

Definition eligible (c : oom_candidate) : Prop :=
  c_pid c ≠ 0 ∧ c_pid c ≠ 1 ∧ c_is_system c = false ∧ c_user_pages c ≠ 0.
(** [d] is no better a victim than [c]. *)
Definition no_better (c d : oom_candidate) : Prop :=
  c_user_pages d < c_user_pages c ∨
  c_user_pages d = c_user_pages c ∧ c_runtime_ms c ≤ c_runtime_ms d.

(** The loop invariant over the candidates already seen. *)
Definition best_of (b : best) (cs : list oom_candidate) : Prop :=
  (best_pid b = 0 ∧ ∀ d, d ∈ cs → ¬ eligible d) ∨
  (∃ c, c ∈ cs ∧ eligible c ∧ b = Best (c_pid c) (c_user_pages c) (c_runtime_ms c) ∧
        ∀ d, d ∈ cs → eligible d → no_better c d).

Lemma victim_step_best b c cs : best_of b cs → best_of (victim_step b c) (cs ++ [c]).
Proof.
  intros B. assert (¬ eligible c → best_of b (cs ++ [c])) as Skip.
  { intros N. destruct B as [[E H]|(x&Hx&Ex&->&H)]; [left|right].
    - split; [done|]. intros d [?| ->%list_elem_of_singleton]%elem_of_app; auto.
    - exists x. split; [set_solver|]. split; [done|]. split; [done|].
      intros d [?| ->%list_elem_of_singleton]%elem_of_app; [auto|done]. }
  unfold victim_step.
  destruct (Z.eqb_spec (c_pid c) 0); [apply Skip; by intros (?&_)|].
  destruct (Z.eqb_spec (c_pid c) 1); [apply Skip; by intros (_&?&_)|]. simpl.
  destruct (c_is_system c) eqn:Es; [apply Skip; intros (_&_&?&_); congruence|].
  destruct (Z.eqb_spec (c_user_pages c) 0); [apply Skip; by intros (_&_&_&?)|].
  assert (eligible c) as Ec by done.
  destruct (_ || _) eqn:C.
  - right. exists c. split; [set_solver|]. split; [done|]. split; [done|].
    intros d [Hd| ->%list_elem_of_singleton]%elem_of_app Ed; [|right; lia].
    destruct B as [[E H]|(x&Hx&Ex&->&H)]; [by destruct (H d)|].
    specialize (H d Hd Ed). simpl in C. destruct Ex as (?&_).
    apply orb_true_iff in C as [C|C%Z.eqb_eq]; [|done].
    apply orb_true_iff in C as [C%Z.ltb_lt|C]; unfold no_better in *; [lia|].
    apply andb_true_iff in C as [C1%Z.eqb_eq C2%Z.ltb_lt]. lia.
  - apply orb_false_iff in C as [C C3%Z.eqb_neq]. apply orb_false_iff in C as [C1%Z.ltb_ge C2].
    destruct B as [[E H]|(x&Hx&Ex&->&H)]; [done|]. simpl in *.
    right. exists x. split; [set_solver|]. split; [done|]. split; [done|].
    intros d [Hd| ->%list_elem_of_singleton]%elem_of_app Ed; [auto|].
    unfold no_better. destruct (Z.eqb_spec (c_user_pages c) (c_user_pages x)); simpl in C2;
      [apply Z.ltb_ge in C2|]; lia.
Qed.

Lemma victim_loop_best cs seen b : best_of b seen → best_of (foldl victim_step b cs) (seen ++ cs).
Proof.
  revert seen b; induction cs as [|c cs IH]; intros seen b B; simpl; [by rewrite app_nil_r|].
  replace (seen ++ c :: cs) with ((seen ++ [c]) ++ cs) by (by rewrite <- app_assoc).
  apply IH. by apply victim_step_best.
Qed.

(** [oom_victim_select] returns 0 exactly when no candidate may be killed
    (pid 0 and 1, system processes and processes without user pages are
    exempt); otherwise it returns the pid of a killable candidate with the most
    user pages and, among those, the least running time. *)
Theorem oom_victim_select_best cs :
  (oom_victim_select (Some cs) = 0 ↔ ∀ d, d ∈ cs → ¬ eligible d) ∧
  (oom_victim_select (Some cs) ≠ 0 → ∃ c, c ∈ cs ∧ eligible c ∧
     oom_victim_select (Some cs) = c_pid c ∧ ∀ d, d ∈ cs → eligible d → no_better c d).
Proof.
  assert (best_of (Best 0 0 0) []) as B0 by (left; split; [done|by intros d ?%not_elem_of_nil]).
  pose proof (victim_loop_best cs [] _ B0) as B. unfold oom_victim_select.
  destruct B as [[E H]|(c&Hc&Ec&->&H)]; simpl in *.
  - split; [done|]. by rewrite E.
  - split; [|eauto]. split; [|by intros N; destruct (N c)]. by destruct Ec.
Qed.
