(* ===== verification/Slab.v ===== *)
(** * Slab allocator (src/src/mm/oom/oom_slab.c)

    Eight size classes; a class keeps a free list threaded through its free
    objects and a list of the pages carved for it.  The intrusive lists are
    modelled as lists of object addresses and of page headers; a page header
    lives at the start of its page.  [oom_slab_lock] makes each entry point one
    atomic step.  The zeroing of the object handed out is not modelled: object
    contents belong to the callers. *)

From S2P Require Import Prelude Pmm Oom.

(** [src/mm/oom/oom_slab.c:4-4] OOM_SLAB_PAGE *)
Definition OOM_SLAB_PAGE : Z := 4096.
(** [src/mm/oom/oom_slab.c:5-5] OOM_SLAB_CLASSES *)
Definition OOM_SLAB_CLASSES : nat := 8.
(** [src/mm/oom/oom_slab.c:6-6] oom_slab_sizes *)
Definition oom_slab_sizes : list Z := [32; 64; 128; 256; 512; 1024; 2048; 4096].
Definition slab_size (cls : Z) : Z := aget 0 oom_slab_sizes cls.

(** [sp_addr] is the address of the header, the C [struct oom_slab_page *].
    [src/mm/oom/oom_slab.c:10-15] oom_slab_page *)
Record slab_page := SlabPage { sp_addr : Z; sp_phys : Z; sp_free : Z; sp_total : Z }.
#[export] Instance eta_slab_page : Eta slab_page := λ g,
  SlabPage (sp_addr g) (sp_phys g) (sp_free g) (sp_total g).

(** [src/mm/oom/oom_slab.c:16-18] oom_free_heads *)
Record slab := Slab {
  oom_free_heads : list (list Z);
  oom_page_heads : list (list slab_page);
  oom_slab_page_count : Z;
}.
#[export] Instance eta_slab : Eta slab := λ s,
  Slab (oom_free_heads s) (oom_page_heads s) (oom_slab_page_count s).

Definition free_of (s : slab) (cls : Z) : list Z := aget [] (oom_free_heads s) cls.
Definition pages_of (s : slab) (cls : Z) : list slab_page := aget [] (oom_page_heads s) cls.
Definition put_free (cls : Z) (l : list Z) (s : slab) : slab :=
  s <| oom_free_heads := aset (oom_free_heads s) cls l |>.
Definition put_pages (cls : Z) (l : list slab_page) (s : slab) : slab :=
  s <| oom_page_heads := aset (oom_page_heads s) cls l |>.

(** [src/mm/oom/oom_slab.c:20-28] oom_slab_class *)
Definition oom_slab_class (size : Z) : Z := z_find (λ i, size <=? slab_size i) OOM_SLAB_CLASSES.

(** [src/mm/oom/oom_slab.c:29-38] oom_slab_init *)
Definition oom_slab_init : slab :=
  Slab (replicate OOM_SLAB_CLASSES []) (replicate OOM_SLAB_CLASSES []) 0.

(** The carving loop of a fresh page: objects are pushed in address order, so
    the last one carved is handed out first.  A page holds at most 127 objects.
    [src/mm/oom/oom_slab.c:51-57] oom_slab_grow_locked *)
Fixpoint carve (fuel : nat) (base size off : Z) (head : list Z) (n : Z) : list Z * Z :=
  match fuel with
  | O => (head, n)
  | S fuel' =>
      if off + size <=? OOM_SLAB_PAGE
      then carve fuel' base size (off + size) (u64 (base + off) :: head) (n + 1)
      else (head, n)
  end.

(** [sizeof(struct oom_slab_page)], rounded up to 8. *)
Definition slab_header : Z := 32.

(** [src/mm/oom/oom_slab.c:39-69] oom_slab_grow_locked *)
Definition oom_slab_grow_locked (cls : Z) (s : slab) (p : pmm) : bool * slab * pmm :=
  let '(phys, p) := pmm_allocate_page p in
  if phys =? 0 then (false, s, p) else
  let base := pmm_physical_to_virtual p phys in
  let size := slab_size cls in
  let '(head, n) := carve 128 base size slab_header (free_of s cls) 0 in
  let s := put_free cls head s in
  if n =? 0 then (false, s, pmm_free_page phys p) else
  let s := put_pages cls (SlabPage base phys n n :: pages_of s cls) s in
  (true, s <| oom_slab_page_count := u64 (oom_slab_page_count s + 1) |>, p).

(** [p >= b && p < b + OOM_SLAB_PAGE] *)
Definition in_page (b a : Z) : bool := (b <=? a) && (a <? b + OOM_SLAB_PAGE).

(** The walk to the header of the page an object was taken from.
    [src/mm/oom/oom_slab.c:86-96] oom_slab_alloc *)
Fixpoint page_take (pgs : list slab_page) (a : Z) : list slab_page :=
  match pgs with
  | [] => []
  | pg :: r =>
      if in_page (sp_addr pg) a && negb (sp_free pg =? 0)
      then pg <| sp_free := u64 (sp_free pg - 1) |> :: r
      else pg :: page_take r a
  end.

(** [src/mm/oom/oom_slab.c:117-126] oom_slab_free *)
Fixpoint page_give (pgs : list slab_page) (a : Z) : list slab_page :=
  match pgs with
  | [] => []
  | pg :: r =>
      if in_page (sp_addr pg) a
      then pg <| sp_free := u64 (sp_free pg + 1) |> :: r
      else pg :: page_give r a
  end.

(** The pop of the free list and the page walk.
    [src/mm/oom/oom_slab.c:84-96] oom_slab_alloc *)
Definition slab_pop (cls : Z) (s : slab) : Z * slab :=
  match free_of s cls with
  | [] => (0, s)
  | link :: rest =>
      let s := put_free cls rest s in
      (link, put_pages cls (page_take (pages_of s cls) link) s)
  end.

(** The null pointer is 0.
    [src/mm/oom/oom_slab.c:70-103] oom_slab_alloc *)
Definition oom_slab_alloc (size : Z) (s : slab) (p : pmm) : Z * slab * pmm :=
  if size =? 0 then (0, s, p) else
  let cls := oom_slab_class size in
  if cls <? 0 then (0, s, p) else
  match free_of s cls with
  | [] =>
      let '(ok, s, p) := oom_slab_grow_locked cls s p in
      if negb ok then (0, s, p) else
      let '(a, s) := slab_pop cls s in (a, s, p)
  | _ :: _ => let '(a, s) := slab_pop cls s in (a, s, p)
  end.

(** [src/mm/oom/oom_slab.c:104-128] oom_slab_free *)
Definition oom_slab_free (ptr size : Z) (s : slab) : slab :=
  if (ptr =? 0) || (size =? 0) then s else
  let cls := oom_slab_class size in
  if cls <? 0 then s else
  let s := put_free cls (ptr :: free_of s cls) s in
  put_pages cls (page_give (pages_of s cls) ptr) s.

(** [src/mm/oom/oom_slab.c:129-135] oom_slab_pages_used *)
Definition oom_slab_pages_used (s : slab) : Z := oom_slab_page_count s.

(** The inner loop over the pages of one class: the first empty page is kept,
    each further one is unlinked with its objects and returned to [pmm].
    [src/mm/oom/oom_slab.c:142-170] oom_slab_reclaim_empty *)
Fixpoint reclaim_pages (pgs : list slab_page) (kept_empty : bool) (free : list Z)
    (count freed : Z) (p : pmm) : list slab_page * list Z * Z * Z * pmm :=
  match pgs with
  | [] => ([], free, count, freed, p)
  | pg :: r =>
      if negb (sp_free pg =? sp_total pg) then
        let '(r, free, count, freed, p) := reclaim_pages r kept_empty free count freed p in
        (pg :: r, free, count, freed, p)
      else if negb kept_empty then
        let '(r, free, count, freed, p) := reclaim_pages r true free count freed p in
        (pg :: r, free, count, freed, p)
      else
        reclaim_pages r kept_empty (filter (λ a, in_page (sp_addr pg) a = false) free)
          (u64 (count - 1)) (u64 (freed + 1)) (pmm_free_page (sp_phys pg) p)
  end.

(** One class.
    [src/mm/oom/oom_slab.c:141-170] oom_slab_reclaim_empty *)
Definition reclaim_class (cls freed : Z) (s : slab) (p : pmm) : Z * slab * pmm :=
  let '(pgs, free, count, freed, p) :=
    reclaim_pages (pages_of s cls) false (free_of s cls) (oom_slab_page_count s) freed p in
  (freed, (put_free cls free (put_pages cls pgs s)) <| oom_slab_page_count := count |>, p).

(** [src/mm/oom/oom_slab.c:140-171] oom_slab_reclaim_empty *)
Fixpoint reclaim_classes (n : nat) (cls freed : Z) (s : slab) (p : pmm) : Z * slab * pmm :=
  match n with
  | O => (freed, s, p)
  | S n' => let '(freed, s, p) := reclaim_class cls freed s p in
            reclaim_classes n' (cls + 1) freed s p
  end.

(** [src/mm/oom/oom_slab.c:136-174] oom_slab_reclaim_empty *)
Definition oom_slab_reclaim_empty (s : slab) (p : pmm) : Z * slab * pmm :=
  reclaim_classes OOM_SLAB_CLASSES 0 0 s p.

(** The state the subsystem owns, and the two functions of [oom_gate.c] that
    need the slabs.  The registry holds one kind of shrinker. *)
Inductive shrinker_name := SlabShrinker.
Record mm := Mm {
  mm_oom : oom; mm_accounts : accounts; mm_slab : slab; mm_pmm : pmm;
  mm_shrinkers : list (oom_shrinker (fn:=shrinker_name));
  mm_killer : option Z; (* address of the function [oom_killer] points to *)
}.
#[export] Instance eta_mm : Eta mm := λ s,
  Mm (mm_oom s) (mm_accounts s) (mm_slab s) (mm_pmm s) (mm_shrinkers s)
     (mm_killer s).

(** [src/mm/oom/oom_gate.c:9-13] oom_gate_slab_shrinker *)
Definition oom_gate_slab_shrinker (want_pages ctx : Z) (w : mm) : bool * mm :=
  let '(freed, s, p) := oom_slab_reclaim_empty (mm_slab w) (mm_pmm w) in
  (0 <? freed, w <| mm_slab := s |> <| mm_pmm := p |>).
Definition run_shrinker (f : shrinker_name) : Z → Z → mm → bool * mm :=
  match f with SlabShrinker => oom_gate_slab_shrinker end.

(** [src/mm/oom/oom_gate.c:14-20] oom_gate_init *)
Definition oom_gate_init (w : mm) : mm :=
  let w := w <| mm_oom := oom_init (mm_pmm w) |> in
  let w := w <| mm_accounts := oom_account_init |> in
  let w := w <| mm_killer := oom_victim_init |> in
  let w := w <| mm_slab := oom_slab_init |> in
  w <| mm_shrinkers := (oom_reclaim_register (Some SlabShrinker) 0 (mm_shrinkers w)).2 |>.

(** ** Objects of a page *)

(** How many objects a page of the class holds. *)
Definition per_page (size : Z) : Z := (OOM_SLAB_PAGE - slab_header) / size.

(** [a] is the address of one of the objects of the page. *)
Definition slot (size : Z) (pg : slab_page) (a : Z) : Prop :=
  ∃ i, 0 ≤ i < sp_total pg ∧ a = sp_addr pg + slab_header + i * size.

(** The addresses carved out of a page, last object first. *)
Fixpoint page_objects (n : nat) (base size : Z) : list Z :=
  match n with
  | O => []
  | S n' => base + slab_header + Z.of_nat n' * size :: page_objects n' base size
  end.

Lemma elem_page_objects n base size a :
  a ∈ page_objects n base size ↔ ∃ i, 0 ≤ i < Z.of_nat n ∧ a = base + slab_header + i * size.
Proof.
  induction n as [|n IH]; cbn [page_objects].
  - split; [by intros ?%not_elem_of_nil|]. intros (i&?&_). lia.
  - rewrite elem_of_cons, IH. split.
    + intros [->|(i&?&->)]; [exists (Z.of_nat n)|exists i]; (split; [lia|done]).
    + intros (i&?&->). destruct (decide (i = Z.of_nat n)) as [->|]; [by left|].
      right. exists i. split; [lia|done].
Qed.

Lemma NoDup_page_objects n base size : 0 < size → NoDup (page_objects n base size).
Proof.
  intros Hs. induction n as [|n IH]; cbn [page_objects]; [constructor|].
  constructor; [|done]. rewrite elem_page_objects. intros (i&?&E). nia.
Qed.

Lemma carve_spec fuel base size k head :
  0 < size → 0 ≤ base → base + OOM_SLAB_PAGE < 2 ^ 64 → 0 ≤ k →
  per_page size < k + Z.of_nat fuel →
  k ≤ per_page size →
  carve fuel base size (slab_header + k * size) (page_objects (Z.to_nat k) base size ++ head) k =
    (page_objects (Z.to_nat (per_page size)) base size ++ head, per_page size).
Proof.
  intros Hs Hb Hw. revert k. unfold OOM_SLAB_PAGE, slab_header in *.
  assert (∀ k, 32 + k * size + size <= 4096 ↔ k + 1 ≤ per_page size) as Hp.
  { intros k. unfold per_page, OOM_SLAB_PAGE, slab_header. split; intros.
    - apply Z.div_le_lower_bound; lia.
    - pose proof (Z.mul_div_le (4096 - 32) size Hs). nia. }
  induction fuel as [|fuel IH]; intros k Hk Hf Hle; [lia|].
  cbn [carve]. unfold OOM_SLAB_PAGE. destruct (Z.leb_spec (32 + k * size + size) 4096) as [L|L].
  - rewrite u64_small by lia. replace (32 + k * size + size) with (32 + (k + 1) * size) by lia.
    specialize (IH (k + 1)). replace (Z.to_nat (k + 1)) with (S (Z.to_nat k)) in IH by lia.
    cbn [page_objects app] in IH. rewrite Z2Nat.id in IH by lia. unfold slab_header in IH.
    replace (base + (32 + k * size)) with (base + 32 + k * size) by lia.
    apply IH; [lia|lia|]. by apply Hp.
  - assert (k = per_page size) as -> by (rewrite <- Z.nlt_ge in *; specialize (Hp k); lia). done.
Qed.

Lemma slab_size_cases cls : 0 ≤ cls < 8 → slab_size cls ∈ oom_slab_sizes.
Proof. intros. apply (aget_elem 0). by exists cls. Qed.

Lemma slab_size_bounds cls : 0 ≤ cls < 8 →
  32 ≤ slab_size cls ≤ 4096 ∧ 0 ≤ per_page (slab_size cls) ≤ 127.
Proof.
  intros H. apply slab_size_cases in H. unfold oom_slab_sizes in H.
  repeat (apply elem_of_cons in H as [->|H]; [split; [done|by vm_compute]|]).
  by apply not_elem_of_nil in H.
Qed.

Lemma slot_in_page cls pg a : 0 ≤ cls < 8 → sp_total pg = per_page (slab_size cls) →
  slot (slab_size cls) pg a → sp_addr pg ≤ a ∧ a + slab_size cls ≤ sp_addr pg + 4096.
Proof.
  intros Hc Ht (i&Hi&->). rewrite Ht in Hi. destruct (slab_size_bounds cls Hc) as [? ?].
  unfold per_page, OOM_SLAB_PAGE, slab_header in *.
  pose proof (Z.mul_div_le (4096 - 32) (slab_size cls) ltac:(lia)). nia.
Qed.

(** ** Invariant

    [class_wf] is about one class; pages sit at distinct 4096-aligned addresses
    of the direct map, so an object lies in exactly one page. *)
Record class_wf (cls : Z) (free : list Z) (pgs : list slab_page) : Prop := {
  cw_nodup : NoDup free;
  cw_slot : ∀ a, a ∈ free → ∃ pg, pg ∈ pgs ∧ slot (slab_size cls) pg a;
  cw_total : ∀ pg, pg ∈ pgs → sp_total pg = per_page (slab_size cls);
  cw_count : ∀ pg, pg ∈ pgs →
    sp_free pg = Z.of_nat (length (filter (λ a, in_page (sp_addr pg) a = true) free));
}.

(** A page the allocator owns: its frame is in use and maps to its address. *)
Record page_ok (h : Z) (p : pmm) (pg : slab_page) : Prop := {
  pk_frame : ∃ f, sp_phys pg = f * 4096 ∧ 1 ≤ f < frame_limit p ∧ frame_is_used p f = true;
  pk_addr : sp_addr pg = sp_phys pg + h;
}.

Record slab_wf (s : slab) (p : pmm) : Prop := {
  sw_pmm : pmm_wf p;
  sw_offset : 0 ≤ direct_map_offset p ∧ direct_map_offset p mod 4096 = 0 ∧
              direct_map_offset p + 2 ^ 36 ≤ 2 ^ 64;
  sw_length : length (oom_free_heads s) = OOM_SLAB_CLASSES ∧
              length (oom_page_heads s) = OOM_SLAB_CLASSES;
  sw_class : ∀ cls, 0 ≤ cls < 8 → class_wf cls (free_of s cls) (pages_of s cls);
  sw_nodup : ∀ cls, 0 ≤ cls < 8 → NoDup (sp_addr <$> pages_of s cls);
  sw_owned : ∀ cls pg, 0 ≤ cls < 8 → pg ∈ pages_of s cls → page_ok (direct_map_offset p) p pg;
  sw_disjoint : ∀ c1 c2 g1 g2, 0 ≤ c1 < 8 → 0 ≤ c2 < 8 → c1 ≠ c2 →
    g1 ∈ pages_of s c1 → g2 ∈ pages_of s c2 → sp_addr g1 ≠ sp_addr g2;
}.

(** An object handed out and not yet given back. *)
Definition slab_live (s : slab) (cls a : Z) : Prop :=
  ∃ pg, pg ∈ pages_of s cls ∧ slot (slab_size cls) pg a ∧ a ∉ free_of s cls.

(** ** One class *)

Definition aligned (pgs : list slab_page) : Prop := ∀ g, g ∈ pgs → sp_addr g mod 4096 = 0.

Lemma in_page_spec b a : in_page b a = true ↔ b ≤ a < b + 4096.
Proof. unfold in_page, OOM_SLAB_PAGE. rewrite andb_true_iff, Z.leb_le, Z.ltb_lt. done. Qed.

Lemma in_page_unique b c a :
  b mod 4096 = 0 → c mod 4096 = 0 → in_page b a = true → in_page c a = true → b = c.
Proof.
  intros Hb Hc Ha%in_page_spec Ha'%in_page_spec.
  pose proof (Z.div_mod b 4096 ltac:(lia)). pose proof (Z.div_mod c 4096 ltac:(lia)). lia.
Qed.

(** The page walks change the one page the object lies in. *)
Definition adjust (d a : Z) (pgs : list slab_page) : list slab_page :=
  map (λ g, if in_page (sp_addr g) a then g <| sp_free := sp_free g + d |> else g) pgs.

Lemma adjust_out d a pgs : (∀ g, g ∈ pgs → in_page (sp_addr g) a = false) → adjust d a pgs = pgs.
Proof.
  induction pgs as [|g r IH]; intros H; simpl; [done|].
  rewrite H by mem. rewrite IH by (intros; apply H; mem). done.
Qed.

Lemma rest_out g r a :
  aligned (g :: r) → NoDup (sp_addr <$> g :: r) → in_page (sp_addr g) a = true →
  ∀ g', g' ∈ r → in_page (sp_addr g') a = false.
Proof.
  intros Al Nd Hg g' Hg'. destruct (in_page (sp_addr g') a) eqn:E; [|done]. exfalso.
  rewrite fmap_cons in Nd. apply NoDup_cons in Nd as [Nin _]. apply Nin.
  rewrite (in_page_unique _ (sp_addr g') a) by (try done; apply Al; mem).
  by apply list_elem_of_fmap_2.
Qed.

Lemma page_take_adjust pgs a :
  aligned pgs → NoDup (sp_addr <$> pgs) →
  (∀ g, g ∈ pgs → in_page (sp_addr g) a = true → 0 < sp_free g < 2 ^ 64) →
  page_take pgs a = adjust (-1) a pgs.
Proof.
  induction pgs as [|g r IH]; intros Al Nd Hc; simpl; [done|].
  destruct (in_page (sp_addr g) a) eqn:E; simpl.
  - specialize (Hc g ltac:(mem) E). destruct (Z.eqb_spec (sp_free g) 0); [lia|]. simpl.
    rewrite adjust_out by (by eapply rest_out). rewrite u64_small by lia. done.
  - rewrite IH; [done| | |]; [intros ??; apply Al; mem| |intros; apply Hc; [mem|done]].
    by eapply NoDup_tail.
Qed.

Lemma page_give_adjust pgs a :
  aligned pgs → NoDup (sp_addr <$> pgs) →
  (∀ g, g ∈ pgs → 0 ≤ sp_free g < 2 ^ 63) → page_give pgs a = adjust 1 a pgs.
Proof.
  induction pgs as [|g r IH]; intros Al Nd Hc; simpl; [done|].
  destruct (in_page (sp_addr g) a) eqn:E; simpl.
  - specialize (Hc g ltac:(mem)).
    rewrite adjust_out by (by eapply rest_out). rewrite u64_small by lia. done.
  - rewrite IH; [done| | |]; [intros ??; apply Al; mem| |intros; apply Hc; mem].
    by eapply NoDup_tail.
Qed.

Lemma elem_adjust d a pgs g' :
  g' ∈ adjust d a pgs ↔ ∃ g, g ∈ pgs ∧
    g' = if in_page (sp_addr g) a then g <| sp_free := sp_free g + d |> else g.
Proof. unfold adjust. rewrite list_elem_of_fmap. split; intros (g&?&?); by exists g. Qed.

Lemma adjust_page d a g :
  let g' := if in_page (sp_addr g) a then g <| sp_free := sp_free g + d |> else g in
  sp_addr g' = sp_addr g ∧ sp_phys g' = sp_phys g ∧ sp_total g' = sp_total g ∧
  sp_free g' = sp_free g + if in_page (sp_addr g) a then d else 0.
Proof. simpl. destruct (in_page (sp_addr g) a); simpl; (split_and!; try done; lia). Qed.

Lemma slot_same size g g' a :
  sp_addr g' = sp_addr g → sp_total g' = sp_total g → slot size g' a ↔ slot size g a.
Proof. unfold slot. by intros -> ->. Qed.

Lemma adjust_slots d a pgs size b :
  (∃ g, g ∈ adjust d a pgs ∧ slot size g b) ↔ (∃ g, g ∈ pgs ∧ slot size g b).
Proof.
  setoid_rewrite elem_adjust. split.
  - intros (g'&(g&Hg&->)&Hs). exists g. split; [done|].
    destruct (adjust_page d a g) as (?&_&?&_). by eapply slot_same.
  - intros (g&Hg&Hs). eexists. split; [eauto|].
    destruct (adjust_page d a g) as (?&_&?&_). by eapply slot_same.
Qed.

Lemma adjust_addr d a pgs : sp_addr <$> adjust d a pgs = sp_addr <$> pgs.
Proof.
  unfold adjust. induction pgs as [|g r IH]; [done|]. cbn.
  f_equal; [|exact IH]. by destruct (in_page (sp_addr g) a).
Qed.

Lemma count_cons b a free :
  Z.of_nat (length (filter (λ x, in_page b x = true) (a :: free))) =
  Z.of_nat (length (filter (λ x, in_page b x = true) free)) + if in_page b a then 1 else 0.
Proof. rewrite filter_cons. destruct (in_page b a); case_decide; simpl; (done || lia). Qed.

Lemma class_pop cls a rest pgs :
  0 ≤ cls < 8 → class_wf cls (a :: rest) pgs →
  class_wf cls rest (adjust (-1) a pgs).
Proof.
  intros Hc W. split.
  - by eapply NoDup_tail, (cw_nodup _ _ _ W).
  - intros b Hb. apply adjust_slots. apply (cw_slot _ _ _ W). mem.
  - intros g' (g&Hg&->)%elem_adjust. destruct (adjust_page (-1) a g) as (_&_&->&_). by apply W.
  - intros g' (g&Hg&->)%elem_adjust. destruct (adjust_page (-1) a g) as (->&_&_&->).
    rewrite (cw_count _ _ _ W) by done. rewrite count_cons. destruct (in_page _ a); lia.
Qed.

Lemma class_push cls a free pgs :
  0 ≤ cls < 8 → class_wf cls free pgs → a ∉ free → (∃ pg, pg ∈ pgs ∧ slot (slab_size cls) pg a) →
  class_wf cls (a :: free) (adjust 1 a pgs).
Proof.
  intros Hc W Na Hs. split.
  - constructor; [done|apply W].
  - intros b [->|Hb]%elem_of_cons; apply adjust_slots; [done|by apply W].
  - intros g' (g&Hg&->)%elem_adjust. destruct (adjust_page 1 a g) as (_&_&->&_). by apply W.
  - intros g' (g&Hg&->)%elem_adjust. destruct (adjust_page 1 a g) as (->&_&_&->).
    rewrite (cw_count _ _ _ W) by done. rewrite count_cons. destruct (in_page _ a); lia.
Qed.

Lemma filter_all (f : Z → bool) (l : list Z) : (∀ x, x ∈ l → f x = true) → filter (λ x, f x = true) l = l.
Proof.
  induction l as [|x l IH]; intros H; [done|]. rewrite filter_cons.
  rewrite decide_True by (apply H; mem). rewrite IH; [done|]. intros; apply H; mem.
Qed.

Lemma filter_none (f : Z → bool) (l : list Z) : (∀ x, x ∈ l → f x = false) → filter (λ x, f x = true) l = [].
Proof.
  induction l as [|x l IH]; intros H; [done|]. rewrite filter_cons.
  rewrite decide_False by (rewrite H; [done|mem]). apply IH. intros; apply H; mem.
Qed.

Lemma length_page_objects n base size : length (page_objects n base size) = n.
Proof. induction n; simpl; auto. Qed.

Lemma page_object_in_page cls base a : 0 ≤ cls < 8 →
  a ∈ page_objects (Z.to_nat (per_page (slab_size cls))) base (slab_size cls) →
  in_page base a = true.
Proof.
  intros Hc (i&Hi&->)%elem_page_objects. destruct (slab_size_bounds cls Hc) as [? ?].
  rewrite Z2Nat.id in Hi by lia. apply in_page_spec.
  set (pg := SlabPage base 0 0 (per_page (slab_size cls))).
  destruct (slot_in_page cls pg (base + slab_header + i * slab_size cls)) as [? ?];
    [done|done|by exists i|]. simpl in *. lia.
Qed.

(** A free object lies in the page that holds it and in no other. *)
Lemma free_in_its_page cls free pgs a :
  0 ≤ cls < 8 → class_wf cls free pgs → a ∈ free →
  ∃ pg, pg ∈ pgs ∧ slot (slab_size cls) pg a ∧ in_page (sp_addr pg) a = true.
Proof.
  intros Hc W Ha. destruct (cw_slot _ _ _ W a Ha) as (pg&Hpg&Hs).
  exists pg. split; [done|]. split; [done|]. apply in_page_spec.
  destruct (slab_size_bounds cls Hc) as [? ?].
  destruct (slot_in_page cls pg a Hc (cw_total _ _ _ W pg Hpg) Hs). lia.
Qed.

Lemma class_grow cls free pgs base phys :
  0 ≤ cls < 8 → class_wf cls free pgs → aligned pgs → base mod 4096 = 0 →
  base ∉ sp_addr <$> pgs →
  let n := per_page (slab_size cls) in
  class_wf cls (page_objects (Z.to_nat n) base (slab_size cls) ++ free)
    (SlabPage base phys n n :: pgs).
Proof.
  intros Hc W Al Hb Nb n. destruct (slab_size_bounds cls Hc) as [Hsz Hn].
  assert (∀ a, a ∈ free → in_page base a = false) as Hout.
  { intros a Ha. destruct (in_page base a) eqn:E; [|done]. exfalso. apply Nb.
    destruct (free_in_its_page _ _ _ _ Hc W Ha) as (pg&Hpg&_&Hin).
    rewrite (in_page_unique base (sp_addr pg) a) by (try done; by apply Al).
    by apply list_elem_of_fmap_2. }
  split.
  - apply NoDup_app. split; [apply NoDup_page_objects; lia|]. split; [|apply W].
    intros a Ha Ha'. apply (page_object_in_page cls) in Ha; [|done]. by rewrite Hout in Ha.
  - intros a [Ha|Ha]%elem_of_app.
    + eexists. split; [apply list_elem_of_here|]. apply elem_page_objects in Ha as (i&Hi&->).
      exists i. simpl. split; [|done]. rewrite Z2Nat.id in Hi by (unfold n; lia). done.
    + destruct (cw_slot _ _ _ W a Ha) as (pg&?&?). exists pg. split; [by right|done].
  - intros g [->|Hg]%elem_of_cons; [done|by apply W].
  - intros g [->|Hg]%elem_of_cons; rewrite filter_app, length_app.
    + simpl. rewrite filter_all, length_page_objects.
      * rewrite filter_none by done. simpl. unfold n. lia.
      * intros a Ha. by apply (page_object_in_page cls).
    + rewrite filter_none; [simpl; by apply W|]. intros a Ha.
      apply (page_object_in_page cls) in Ha; [|done].
      destruct (in_page (sp_addr g) a) eqn:E; [|done]. exfalso. apply Nb.
      rewrite (in_page_unique base (sp_addr g) a) by (try done; by apply Al).
      by apply list_elem_of_fmap_2.
Qed.

(** ** Returning the empty pages of a class *)

(** No object of [a]'s page is being unlinked. *)
Definition outside (R : list slab_page) (a : Z) : Prop :=
  Forall (λ g, in_page (sp_addr g) a = false) R.

#[export] Instance outside_dec R a : Decision (outside R a).
Proof. unfold outside. apply _. Defined.

(** [R] is the list of the pages released; the others stay in order. *)
Lemma reclaim_pages_spec pgs kept free count freed p :
  let '(pgs', free', count', freed', p') := reclaim_pages pgs kept free count freed p in
  ∃ R, pgs ≡ₚ pgs' ++ R ∧ pgs' `sublist_of` pgs ∧
    (∀ g, g ∈ R → sp_free g = sp_total g) ∧
    free' = filter (outside R) free ∧
    p' = foldl (λ p g, pmm_free_page (sp_phys g) p) p R.
Proof.
  revert kept free count freed p.
  induction pgs as [|pg r IH]; intros kept free count freed p; cbn [reclaim_pages].
  { exists []. split; [done|]. split; [done|]. split; [by intros g ?%not_elem_of_nil|].
    split; [|done]. induction free as [|a l IHl]; [done|]. rewrite filter_cons.
    rewrite decide_True by (by constructor). by f_equal. }
  destruct (Z.eqb_spec (sp_free pg) (sp_total pg)) as [E|E]; cbn [negb].
  2:{ specialize (IH kept free count freed p).
      destruct (reclaim_pages r kept free count freed p) as [[[[pgs' f'] c'] d'] p'].
      destruct IH as (R&P&Sb&HR&->&->). exists R. simpl.
      split; [by rewrite P|]. split; [by apply sublist_skip|]. done. }
  destruct kept; cbn [negb].
  2:{ specialize (IH true free count freed p).
      destruct (reclaim_pages r true free count freed p) as [[[[pgs' f'] c'] d'] p'].
      destruct IH as (R&P&Sb&HR&->&->). exists R. simpl.
      split; [by rewrite P|]. split; [by apply sublist_skip|]. done. }
  match goal with |- context [reclaim_pages r true ?f ?c ?d ?q] => specialize (IH true f c d q);
    destruct (reclaim_pages r true f c d q) as [[[[pgs' f'] c'] d'] p'] end.
  destruct IH as (R&P&Sb&HR&->&->). exists (pg :: R).
  split; [by rewrite <- Permutation_middle, P|]. split; [by apply sublist_cons|].
  split; [intros g [->|?]%elem_of_cons; auto|]. split; [|done].
  rewrite list_filter_filter. apply list_filter_iff. intros a. unfold outside. split.
  - intros [H0 H1]. by constructor.
  - intros H. apply Forall_cons in H. tauto.
Qed.

Section ReclaimClass.
Context (cls : Z) (free : list Z) (pgs pgs' R : list slab_page).
Context (Hc : 0 ≤ cls < 8) (W : class_wf cls free pgs) (Al : aligned pgs)
  (Nd : NoDup (sp_addr <$> pgs)) (P : pgs ≡ₚ pgs' ++ R)
  (Empty : ∀ g, g ∈ R → sp_free g = sp_total g).

Lemma kept_elem g : g ∈ pgs' → g ∈ pgs.
Proof using P. intros. rewrite P. apply elem_of_app. by left. Qed.
Lemma gone_elem g : g ∈ R → g ∈ pgs.
Proof using P. intros. rewrite P. apply elem_of_app. by right. Qed.

Lemma kept_gone_apart g r a : g ∈ pgs' → r ∈ R →
  in_page (sp_addr g) a = true → in_page (sp_addr r) a = true → False.
Proof using Al Nd P.
  intros Hg Hr Ha Hb.
  assert (sp_addr g = sp_addr r) as E.
  { eapply in_page_unique; [apply Al, kept_elem|apply Al, gone_elem|..]; done. }
  rewrite P, fmap_app in Nd. apply NoDup_app in Nd as (_&D&_).
  apply (D (sp_addr g)); [by apply list_elem_of_fmap_2|].
  rewrite E. by apply list_elem_of_fmap_2.
Qed.

(** Every object of a released page was on the free list. *)
Lemma gone_page_free g a : g ∈ R → slot (slab_size cls) g a → a ∈ free.
Proof using All.
  intros Hg Hs. pose proof (gone_elem g Hg) as Hg'.
  pose proof (cw_count _ _ _ W g Hg') as C. rewrite (Empty g Hg), (cw_total _ _ _ W g Hg') in C.
  destruct (slab_size_bounds cls Hc) as [Hsz Hn].
  set (L := filter (λ a, in_page (sp_addr g) a = true) free) in *.
  set (O := page_objects (Z.to_nat (per_page (slab_size cls))) (sp_addr g) (slab_size cls)).
  assert (∀ b, b ∈ O ↔ slot (slab_size cls) g b) as HO.
  { intros b. unfold O, slot. rewrite elem_page_objects, (cw_total _ _ _ W g Hg'), Z2Nat.id by lia.
    done. }
  assert (L ⊆+ O) as Sub.
  { apply NoDup_submseteq; [apply NoDup_filter, W|]. intros b Hb.
    apply list_elem_of_filter in Hb as [Hin Hb]. apply HO.
    destruct (free_in_its_page _ _ _ _ Hc W Hb) as (pg&Hpg&Hsl&Hin').
    apply (slot_same _ pg g); [|by rewrite !(cw_total _ _ _ W) by done|done].
    apply (in_page_unique _ _ b); try done; by apply Al. }
  apply submseteq_length_Permutation in Sub; [|unfold O; rewrite length_page_objects; lia].
  assert (a ∈ L) as Ha by (rewrite Sub; by apply HO).
  apply list_elem_of_filter in Ha. apply Ha.
Qed.

Lemma class_reclaim : class_wf cls (filter (outside R) free) pgs'.
Proof using All.
  split.
  - apply NoDup_filter, W.
  - intros a Ha. apply list_elem_of_filter in Ha as [Ho Ha].
    destruct (free_in_its_page _ _ _ _ Hc W Ha) as (pg&Hpg&Hs&Hin).
    rewrite P in Hpg. apply elem_of_app in Hpg as [Hpg|Hpg]; [eauto|].
    unfold outside in Ho. rewrite Forall_forall in Ho. by rewrite Ho in Hin.
  - intros g Hg. by apply W, kept_elem.
  - intros g Hg. rewrite (cw_count _ _ _ W) by (by apply kept_elem). f_equal. f_equal.
    rewrite list_filter_filter. apply list_filter_iff. intros a. split; [|by intros [? _]].
    intros Hin. split; [done|]. apply Forall_forall. intros r Hr.
    destruct (in_page (sp_addr r) a) eqn:E; [|done]. destruct (kept_gone_apart g r a); done.
Qed.

(** Reclaiming changes neither the live objects nor the dead ones. *)
Lemma class_reclaim_live a :
  (∃ g, g ∈ pgs' ∧ slot (slab_size cls) g a ∧ a ∉ filter (outside R) free) ↔
  (∃ g, g ∈ pgs ∧ slot (slab_size cls) g a ∧ a ∉ free).
Proof using All.
  split; intros (g&Hg&Hs&Na).
  - exists g. split; [by apply kept_elem|]. split; [done|]. intros Ha. apply Na.
    apply list_elem_of_filter. split; [|done]. apply Forall_forall. intros r Hr.
    destruct (in_page (sp_addr r) a) eqn:E; [|done].
    exfalso. eapply (kept_gone_apart g r a); [done..| |done].
    destruct (slab_size_bounds cls Hc). apply in_page_spec.
    destruct (slot_in_page cls g a Hc (cw_total _ _ _ W g (kept_elem g Hg)) Hs). lia.
  - exists g. assert (g ∉ R) as Ng by (intros Hr; apply Na; by eapply gone_page_free).
    rewrite P in Hg. apply elem_of_app in Hg as [Hg|]; [|done].
    split; [done|]. split; [done|]. intros Ha. apply Na. by apply list_elem_of_filter in Ha as [_ ?].
Qed.
End ReclaimClass.

(** ** The whole allocator *)

Lemma free_of_put s c l k : length (oom_free_heads s) = OOM_SLAB_CLASSES → 0 ≤ c < 8 → 0 ≤ k →
  free_of (put_free c l s) k = if c =? k then l else free_of s k.
Proof.
  intros E ??. unfold free_of, put_free; simpl. apply aget_aset; [|done].
  rewrite E. unfold OOM_SLAB_CLASSES. lia.
Qed.

Lemma pages_of_put s c l k : length (oom_page_heads s) = OOM_SLAB_CLASSES → 0 ≤ c < 8 → 0 ≤ k →
  pages_of (put_pages c l s) k = if c =? k then l else pages_of s k.
Proof.
  intros E ??. unfold pages_of, put_pages; simpl. apply aget_aset; [|done].
  rewrite E. unfold OOM_SLAB_CLASSES. lia.
Qed.

(** [s'] is [s] with the lists of one class replaced. *)
Record updated (s s' : slab) (cls : Z) (free : list Z) (pgs : list slab_page) : Prop := {
  up_free : ∀ k, 0 ≤ k → free_of s' k = if cls =? k then free else free_of s k;
  up_pages : ∀ k, 0 ≤ k → pages_of s' k = if cls =? k then pgs else pages_of s k;
  up_length : length (oom_free_heads s') = OOM_SLAB_CLASSES ∧
              length (oom_page_heads s') = OOM_SLAB_CLASSES;
}.

Lemma updated_put s p cls free pgs count :
  slab_wf s p → 0 ≤ cls < 8 →
  updated s (Slab (aset (oom_free_heads s) cls free) (aset (oom_page_heads s) cls pgs) count)
          cls free pgs.
Proof.
  intros W Hc. destruct (sw_length _ _ W) as [L1 L2]. split.
  - intros k Hk. by apply (free_of_put s).
  - intros k Hk. by apply (pages_of_put s).
  - simpl. rewrite !length_aset. done.
Qed.

Lemma slab_wf_aligned s p cls : slab_wf s p → 0 ≤ cls < 8 → aligned (pages_of s cls).
Proof.
  intros W Hc g Hg. destruct (sw_owned _ _ W cls g Hc Hg) as [(f&Hf&_&_) ->].
  rewrite Hf, Z.add_comm, Z.mod_add by lia. apply W.
Qed.

Lemma slab_wf_update s p s' p' cls free pgs :
  slab_wf s p → 0 ≤ cls < 8 → updated s s' cls free pgs → pmm_wf p' →
  direct_map_offset p' = direct_map_offset p → class_wf cls free pgs →
  NoDup (sp_addr <$> pgs) →
  (∀ g, g ∈ pgs → page_ok (direct_map_offset p) p' g) →
  (∀ k g, 0 ≤ k < 8 → k ≠ cls → g ∈ pages_of s k → page_ok (direct_map_offset p) p' g) →
  (∀ g k g', g ∈ pgs → 0 ≤ k < 8 → k ≠ cls → g' ∈ pages_of s k → sp_addr g ≠ sp_addr g') →
  slab_wf s' p'.
Proof.
  intros W Hc U Wp Ho Wc Nd Ok1 Ok2 D. split; rewrite ?Ho; [done|apply W|apply U|..].
  - intros k Hk. rewrite (up_free _ _ _ _ _ U), (up_pages _ _ _ _ _ U) by lia.
    destruct (Z.eqb_spec cls k) as [<-|]; [done|by apply W].
  - intros k Hk. rewrite (up_pages _ _ _ _ _ U) by lia.
    destruct (cls =? k); [done|by apply W].
  - intros k g Hk. rewrite (up_pages _ _ _ _ _ U) by lia.
    destruct (Z.eqb_spec cls k); [apply Ok1|]. apply Ok2; [done|congruence].
  - intros c1 c2 g1 g2 H1 H2 Hne. rewrite !(up_pages _ _ _ _ _ U) by lia.
    destruct (Z.eqb_spec cls c1) as [<-|], (Z.eqb_spec cls c2) as [<-|]; [done| | |].
    + intros. eapply D; [done|exact H2|congruence|done].
    + intros. apply not_eq_sym. eapply D; [done|exact H1|congruence|done].
    + intros. by eapply (sw_disjoint _ _ W c1 c2).
Qed.

Lemma page_ok_same g g' h p : sp_addr g' = sp_addr g → sp_phys g' = sp_phys g →
  page_ok h p g → page_ok h p g'.
Proof. intros E1 E2 [F A]. split; rewrite ?E1, ?E2; done. Qed.

(** Each page of a class counts at most the objects it holds. *)
Lemma page_count_bound cls free pgs g :
  0 ≤ cls < 8 → class_wf cls free pgs → aligned pgs → g ∈ pgs →
  0 ≤ sp_free g ≤ per_page (slab_size cls).
Proof.
  intros Hc W Al Hg. rewrite (cw_count _ _ _ W) by done.
  set (L := filter (λ a, in_page (sp_addr g) a = true) free).
  destruct (slab_size_bounds cls Hc) as [Hsz Hn].
  assert (L ⊆+ page_objects (Z.to_nat (per_page (slab_size cls))) (sp_addr g) (slab_size cls)) as Sub.
  { apply NoDup_submseteq; [apply NoDup_filter, W|]. intros b Hb.
    apply list_elem_of_filter in Hb as [Hin Hb].
    destruct (free_in_its_page _ _ _ _ Hc W Hb) as (pg&Hpg&(i&Hi&->)&Hin').
    rewrite (cw_total _ _ _ W) in Hi by done. apply elem_page_objects. exists i.
    split; [lia|]. f_equal. f_equal.
    eapply (in_page_unique _ _ (sp_addr pg + slab_header + i * slab_size cls)); try done; by apply Al. }
  apply submseteq_length in Sub. rewrite length_page_objects in Sub. lia.
Qed.

(** Popping an object off a non-empty free list. *)
Lemma slab_pop_spec s p cls a rest :
  slab_wf s p → 0 ≤ cls < 8 → free_of s cls = a :: rest →
  let '(b, s') := slab_pop cls s in
  b = a ∧ slab_wf s' p ∧ (∃ g, g ∈ pages_of s cls ∧ slot (slab_size cls) g a) ∧
  (∀ k c, 0 ≤ k < 8 → slab_live s' k c ↔ slab_live s k c ∨ (k = cls ∧ c = a)).
Proof.
  intros W Hc E. pose proof (sw_class _ _ W cls Hc) as C. rewrite E in C.
  pose proof (slab_wf_aligned _ _ cls W Hc) as Al. pose proof (sw_nodup _ _ W cls Hc) as Nd.
  destruct (free_in_its_page cls _ _ a Hc C ltac:(mem)) as (pg&Hpg&Hs&Hin).
  destruct (slab_size_bounds cls Hc) as [Hsz Hn].
  unfold slab_pop. rewrite E. split; [done|].
  change (pages_of (put_free cls rest s) cls) with (pages_of s cls).
  rewrite page_take_adjust; [|done|done|].
  2:{ intros g Hg Hg'. pose proof (page_count_bound _ _ _ g Hc C Al Hg).
      rewrite (cw_count _ _ _ C g Hg), count_cons, Hg' in *. lia. }
  pose proof (updated_put s p cls rest (adjust (-1) a (pages_of s cls)) (oom_slab_page_count s) W Hc) as U.
  change (put_pages _ _ _) with (Slab (aset (oom_free_heads s) cls rest)
    (aset (oom_page_heads s) cls (adjust (-1) a (pages_of s cls))) (oom_slab_page_count s)).
  split; [|split; [by exists pg|]].
  - eapply slab_wf_update; try done; [apply W|by apply class_pop|by rewrite adjust_addr| | |].
    + intros g (g0&Hg&->)%elem_adjust. destruct (adjust_page (-1) a g0) as (?&?&_).
      eapply page_ok_same; [done|done|]. by apply (sw_owned _ _ W cls).
    + intros k g ???. by apply (sw_owned _ _ W k).
    + intros g k g' (g0&Hg&->)%elem_adjust ???. destruct (adjust_page (-1) a g0) as (->&_).
      eapply (sw_disjoint _ _ W cls k); done.
  - intros k c Hk. unfold slab_live. rewrite (up_free _ _ _ _ _ U), (up_pages _ _ _ _ _ U) by lia.
    destruct (Z.eqb_spec cls k) as [<-|Hne]; [|intuition congruence].
    rewrite E. pose proof (adjust_slots (-1) a (pages_of s cls) (slab_size cls) c) as Sl.
    pose proof (cw_nodup _ _ _ C) as N. apply NoDup_cons in N as [N _]. split.
    + intros (g&Hg&Hsl&Nin). destruct (decide (c = a)); [by right|left].
      destruct Sl as [(g0&Hg0&Hs0) _]; [eauto|]. exists g0. rewrite elem_of_cons. tauto.
    + intros [(g&Hg&Hsl&Nin)|[_ ->]].
      * destruct Sl as [_ (g0&Hg0&Hs0)]; [eauto|]. exists g0. rewrite elem_of_cons in Nin. tauto.
      * destruct Sl as [_ (g0&Hg0&Hs0)]; [eauto|]. by exists g0.
Qed.

Lemma page_ok_allocated h p t f g : allocated p t f 1 → page_ok h p g → page_ok h t g.
Proof.
  intros A [(e&E1&E2&E3) Ea]. split; [|done]. exists e. destruct (al_same _ _ _ _ A) as (->&_).
  split; [done|]. split; [done|]. rewrite (al_used _ _ _ _ A), E3 by lia. apply orb_true_r.
Qed.

Lemma allocated_frame_fresh h p t f g : allocated p t f 1 → page_ok h p g → sp_phys g ≠ f * 4096.
Proof.
  intros A [(e&E1&E2&E3) _] E. rewrite E1 in E. assert (e = f) as -> by lia.
  pose proof (al_free _ _ _ _ A 0 ltac:(lia)) as F. rewrite Z.add_0_r in F. congruence.
Qed.

Lemma page_ok_freed h p f g : pmm_wf p → 1 ≤ f < frame_limit p → sp_phys g ≠ f * 4096 →
  page_ok h p g → page_ok h (pmm_free_page (f * 4096) p) g.
Proof.
  intros W R Ne [(e&E1&E2&E3) Ea]. destruct (free_page_frame f p W R) as (_&L&_&U).
  split; [|done]. exists e. rewrite L. split; [done|]. split; [done|].
  rewrite U; [done|lia|]. intros ->. done.
Qed.

(** The lists are untouched: only the page allocator moved. *)
Lemma slab_wf_pmm s p p' : slab_wf s p → pmm_wf p' → direct_map_offset p' = direct_map_offset p →
  (∀ k g, 0 ≤ k < 8 → g ∈ pages_of s k → page_ok (direct_map_offset p) p' g) → slab_wf s p'.
Proof.
  intros W Wp Ho Ok. split; rewrite ?Ho; try apply W; done.
Qed.

Lemma updated_same s p cls : slab_wf s p → 0 ≤ cls < 8 →
  updated s (put_free cls (free_of s cls) s) cls (free_of s cls) (pages_of s cls).
Proof.
  intros W Hc. destruct (sw_length _ _ W) as [L1 L2]. split.
  - intros k Hk. by apply free_of_put.
  - intros k Hk. change (pages_of (put_free cls _ s) k) with (pages_of s k).
    by destruct (Z.eqb_spec cls k) as [<-|].
  - simpl. by rewrite length_aset.
Qed.

Lemma updated_live s s' cls k c : updated s s' cls (free_of s cls) (pages_of s cls) → 0 ≤ k →
  slab_live s' k c ↔ slab_live s k c.
Proof.
  intros U Hk. unfold slab_live. rewrite (up_free _ _ _ _ _ U), (up_pages _ _ _ _ _ U) by done.
  by destruct (Z.eqb_spec cls k) as [<-|].
Qed.

Lemma grow_spec s p cls : slab_wf s p → 0 ≤ cls < 8 →
  let '(ok, s', p') := oom_slab_grow_locked cls s p in
  slab_wf s' p' ∧ (∀ k c, 0 ≤ k < 8 → slab_live s' k c ↔ slab_live s k c) ∧
  (ok = true → free_of s' cls ≠ []).
Proof.
  intros W Hc. unfold oom_slab_grow_locked, pmm_allocate_page.
  pose proof (sw_pmm _ _ W) as Wp. destruct (sw_offset _ _ W) as (Ho1&Ho2&Ho3).
  destruct (slab_size_bounds cls Hc) as [Hsz Hn].
  destruct (allocate_page_outcome p Wp) as [t f Er A|F]; [|done].
  destruct (al_range _ _ _ _ A) as [Hf1 Hf2]. pose proof (wf_limit _ Wp) as Hl.
  rewrite pmm_max_pages in Hl.
  destruct (Z.eqb_spec (f * 4096) 0) as [|_]; [lia|].
  destruct (al_same _ _ _ _ A) as (El&_&_&Eo).
  set (base := pmm_physical_to_virtual t (f * 4096)).
  assert (base = f * 4096 + direct_map_offset p) as Eb.
  { unfold base, pmm_physical_to_virtual. rewrite Eo, u64_small by lia. done. }
  pose proof (carve_spec 128 base (slab_size cls) 0 (free_of s cls)) as Cv.
  change (slab_header + 0 * slab_size cls) with slab_header in Cv.
  change (page_objects (Z.to_nat 0) base (slab_size cls) ++ free_of s cls) with (free_of s cls) in Cv.
  rewrite Cv by (unfold OOM_SLAB_PAGE; lia). clear Cv.
  assert (∀ k g, 0 ≤ k < 8 → g ∈ pages_of s k → page_ok (direct_map_offset p) t g ∧
            sp_phys g ≠ f * 4096) as Owned.
  { intros k g Hk Hg. pose proof (sw_owned _ _ W k g Hk Hg).
    split; [by eapply page_ok_allocated|by eapply allocated_frame_fresh]. }
  destruct (Z.eqb_spec (per_page (slab_size cls)) 0) as [E0|E0].
  - rewrite E0. cbn [Z.to_nat page_objects app].
    pose proof (updated_same s p cls W Hc) as U.
    destruct (free_page_frame f t (al_wf _ _ _ _ A) ltac:(lia)) as (Wt&_&Eo'&_).
    split; [|split; [|done]].
    + eapply slab_wf_update; try done; [congruence|by apply W|by apply W| | |].
      * intros g Hg. destruct (Owned cls g Hc Hg). apply page_ok_freed; [apply A|lia|done..].
      * intros k g Hk _ Hg. destruct (Owned k g Hk Hg). apply page_ok_freed; [apply A|lia|done..].
      * intros g k g' ????. by eapply (sw_disjoint _ _ W cls k).
    + intros k c Hk. eapply updated_live; [done|lia].
  - assert (base ∉ sp_addr <$> pages_of s cls) as Nb.
    { intros (g&Ea&Hg)%list_elem_of_fmap. destruct (Owned cls g Hc Hg) as [[_ Ep] Ne]. lia. }
    pose proof (class_grow cls _ _ base (f * 4096) Hc (sw_class _ _ W cls Hc)
      (slab_wf_aligned _ _ _ W Hc)) as G. cbv zeta in G.
    match goal with |- slab_wf ?s' _ ∧ _ => set (s2 := s') end.
    match type of G with _ → _ → class_wf _ ?fr ?pg =>
      assert (updated s s2 cls fr pg) as U by (by apply (updated_put s p)) end.
    split; [|split].
    + eapply slab_wf_update; try done; [apply A| | | | |].
      * apply G; [|done]. rewrite Eb, Z.add_comm, Z.mod_add by lia. done.
      * rewrite fmap_cons. constructor; [done|by apply W].
      * intros g [->|Hg]%elem_of_cons; [|by apply (Owned cls)].
        split; [|done]. exists f. simpl. rewrite El. split; [done|]. split; [lia|].
        rewrite (al_used _ _ _ _ A) by lia.
        destruct (Z.leb_spec f f), (Z.ltb_spec f (f + 1)); done || lia.
      * intros k g ? _ ?. by apply (Owned k).
      * intros g k g' [->|Hg]%elem_of_cons Hk Hne Hg'.
        -- simpl. destruct (Owned k g' Hk Hg') as [[_ Ep] Ne]. lia.
        -- by eapply (sw_disjoint _ _ W cls k).
    + intros k c Hk. unfold slab_live. rewrite (up_free _ _ _ _ _ U), (up_pages _ _ _ _ _ U) by lia.
      destruct (Z.eqb_spec cls k) as [<-|]; [|done]. split.
      * intros (g&[->|Hg]%elem_of_cons&Hs&Nin); rewrite elem_of_app in Nin.
        -- destruct Nin. left. destruct Hs as (i&Hi&->). apply elem_page_objects. simpl in *.
           exists i. rewrite Z2Nat.id by lia. done.
        -- exists g. tauto.
      * intros (g&Hg&Hs&Nin). exists g. split; [by right|]. split; [done|].
        rewrite elem_of_app. intros [Ho|Ho]; [|done].
        apply (page_object_in_page cls) in Ho; [|done]. apply Nb.
        destruct (slot_in_page cls g c Hc (cw_total _ _ _ (sw_class _ _ W cls Hc) g Hg) Hs).
        assert (base = sp_addr g) as ->; [|by apply list_elem_of_fmap_2].
        apply (in_page_unique base (sp_addr g) c); [|by apply (slab_wf_aligned _ _ cls W Hc)|done|].
        ++ rewrite Eb, Z.add_comm, Z.mod_add by lia. done.
        ++ apply in_page_spec. lia.
    + intros _. rewrite (up_free _ _ _ _ _ U), Z.eqb_refl by lia.
      destruct (Z.to_nat (per_page (slab_size cls))) eqn:E; [lia|done].
Qed.

(** Every object handed out has a class its size fits in. *)
Lemma oom_slab_class_spec size :
  let cls := oom_slab_class size in
  (cls = -1 ∧ 4096 < size) ∨
  (0 ≤ cls < 8 ∧ size ≤ slab_size cls ∧ ∀ k, 0 ≤ k < cls → slab_size k < size).
Proof.
  cbv zeta. unfold oom_slab_class. destruct (z_find_spec (λ i, size <=? slab_size i) OOM_SLAB_CLASSES)
    as [[E H]|(R&H&Lo)]; [left|right].
  - split; [done|]. apply Z.leb_gt. apply (H 7). unfold OOM_SLAB_CLASSES. lia.
  - unfold OOM_SLAB_CLASSES in *. split; [lia|]. split; [by apply Z.leb_le|].
    intros k Hk. apply Z.leb_gt. by apply Lo.
Qed.

(** Two live objects never overlap. *)
Lemma slab_live_apart s p k c k' c' : slab_wf s p → 0 ≤ k < 8 → 0 ≤ k' < 8 →
  slab_live s k c → slab_live s k' c' → ¬ (k = k' ∧ c = c') →
  c + slab_size k ≤ c' ∨ c' + slab_size k' ≤ c.
Proof.
  intros W Hk Hk' (g&Hg&Hs&_) (g'&Hg'&Hs'&_) Ne.
  pose proof (cw_total _ _ _ (sw_class _ _ W k Hk) g Hg) as T.
  pose proof (cw_total _ _ _ (sw_class _ _ W k' Hk') g' Hg') as T'.
  destruct (slot_in_page k g c Hk T Hs) as [L U], (slot_in_page k' g' c' Hk' T' Hs') as [L' U'].
  pose proof (slab_wf_aligned _ _ k W Hk g Hg) as A.
  pose proof (slab_wf_aligned _ _ k' W Hk' g' Hg') as A'.
  destruct (decide (sp_addr g = sp_addr g')) as [E|E].
  2:{ pose proof (Z.div_mod (sp_addr g) 4096 ltac:(lia)).
      pose proof (Z.div_mod (sp_addr g') 4096 ltac:(lia)). lia. }
  destruct (decide (k = k')) as [<-|Nk].
  2:{ exfalso. eapply (sw_disjoint _ _ W k k'); done. }
  destruct Hs as (i&Hi&->), Hs' as (j&Hj&->). destruct (slab_size_bounds k Hk) as [Hsz _].
  rewrite E in *. assert (i ≠ j) as Nij by (intros ->; by apply Ne).
  destruct (decide (i < j)); [left|right]; nia.
Qed.

(** The null pointer is not an object. *)
Lemma slab_live_nonzero s p k : slab_wf s p → 0 ≤ k < 8 → ¬ slab_live s k 0.
Proof.
  intros W Hk (g&Hg&Hsl&_). destruct (slab_size_bounds k Hk).
  destruct (slot_in_page k g 0 Hk (cw_total _ _ _ (sw_class _ _ W k Hk) g Hg) Hsl).
  destruct (sw_owned _ _ W k g Hk Hg) as [(f&Hf&Hr&_) Ea]. pose proof (sw_offset _ _ W). lia.
Qed.

(** Allocation either changes no live object and answers the null pointer, or
    adds exactly the object it answers. *)
Lemma slab_alloc_spec size s p : slab_wf s p →
  let '(a, s', p') := oom_slab_alloc size s p in
  slab_wf s' p' ∧
  ((a = 0 ∧ ∀ k c, 0 ≤ k < 8 → slab_live s' k c ↔ slab_live s k c) ∨
   (let cls := oom_slab_class size in
    0 ≤ cls < 8 ∧ size ≠ 0 ∧ ¬ slab_live s cls a ∧
    ∀ k c, 0 ≤ k < 8 → slab_live s' k c ↔ slab_live s k c ∨ (k = cls ∧ c = a))).
Proof.
  intros W. unfold oom_slab_alloc. destruct (Z.eqb_spec size 0) as [|Hz]; [split; [done|by left]|].
  destruct (oom_slab_class_spec size) as [[E _]|(Hc&_&_)].
  { cbv zeta. rewrite E. split; [done|by left]. }
  cbv zeta. set (cls := oom_slab_class size) in *. destruct (Z.ltb_spec cls 0) as [|_]; [lia|].
  destruct (free_of s cls) as [|a0 rest] eqn:Ef.
  - pose proof (grow_spec s p cls W Hc) as G.
    destruct (oom_slab_grow_locked cls s p) as [[ok s1] p1]. destruct G as (W1&L1&F1).
    destruct ok; cbn [negb]; [|split; [done|by left]].
    destruct (free_of s1 cls) as [|a rest] eqn:E1; [by destruct F1|].
    pose proof (slab_pop_spec s1 p1 cls a rest W1 Hc E1) as Pp.
    destruct (slab_pop cls s1) as [b s2]. destruct Pp as (->&W2&(g&Hg&Hs)&L2).
    split; [done|right]. split; [done|]. split; [done|]. split.
    + rewrite <- L1 by done. intros (?&_&_&Nin). apply Nin. rewrite E1. mem.
    + intros k c Hk. rewrite L2, L1 by done. done.
  - pose proof (slab_pop_spec s p cls a0 rest W Hc Ef) as Pp.
    destruct (slab_pop cls s) as [b s2]. destruct Pp as (->&W2&(g&Hg&Hs)&L2).
    split; [done|right]. split; [done|]. split; [done|]. split; [|done].
    intros (?&_&_&Nin). apply Nin. rewrite Ef. mem.
Qed.

Lemma slab_free_spec size s p a : slab_wf s p → size ≠ 0 → a ≠ 0 → 0 ≤ oom_slab_class size < 8 →
  slab_live s (oom_slab_class size) a →
  slab_wf (oom_slab_free a size s) p ∧
  ∀ k c, 0 ≤ k < 8 →
    slab_live (oom_slab_free a size s) k c ↔
    slab_live s k c ∧ ¬ (k = oom_slab_class size ∧ c = a).
Proof.
  intros W Hz Ha. unfold oom_slab_free. destruct (Z.eqb_spec a 0), (Z.eqb_spec size 0); try done.
  cbn [orb]. set (cls := oom_slab_class size). intros Hc (g&Hg&Hs&Nin).
  destruct (Z.ltb_spec cls 0) as [|_]; [lia|].
  pose proof (sw_class _ _ W cls Hc) as C. pose proof (slab_wf_aligned _ _ cls W Hc) as Al.
  pose proof (sw_nodup _ _ W cls Hc) as Nd. destruct (slab_size_bounds cls Hc) as [Hsz Hn].
  change (pages_of (put_free cls (a :: free_of s cls) s) cls) with (pages_of s cls).
  rewrite page_give_adjust; [|done|done|].
  2:{ intros g' Hg'. pose proof (page_count_bound _ _ _ g' Hc C Al Hg'). lia. }
  pose proof (updated_put s p cls (a :: free_of s cls) (adjust 1 a (pages_of s cls))
    (oom_slab_page_count s) W Hc) as U.
  change (put_pages _ _ _) with (Slab (aset (oom_free_heads s) cls (a :: free_of s cls))
    (aset (oom_page_heads s) cls (adjust 1 a (pages_of s cls))) (oom_slab_page_count s)).
  split.
  - eapply slab_wf_update; try done; [apply W|apply class_push; eauto|by rewrite adjust_addr| | |].
    + intros g' (g0&Hg0&->)%elem_adjust. destruct (adjust_page 1 a g0) as (?&?&_).
      eapply page_ok_same; [done|done|]. by apply (sw_owned _ _ W cls).
    + intros k g' ???. by apply (sw_owned _ _ W k).
    + intros g' k g1 (g0&Hg0&->)%elem_adjust ???. destruct (adjust_page 1 a g0) as (->&_).
      eapply (sw_disjoint _ _ W cls k); done.
  - intros k c Hk. unfold slab_live. rewrite (up_free _ _ _ _ _ U), (up_pages _ _ _ _ _ U) by lia.
    destruct (Z.eqb_spec cls k) as [<-|Hne]; [|intuition congruence].
    pose proof (adjust_slots 1 a (pages_of s cls) (slab_size cls) c) as Sl. split.
    + intros (g1&Hg1&Hs1&N1). rewrite elem_of_cons in N1.
      destruct Sl as [(g0&Hg0&Hs0) _]; [eauto|]. split; [exists g0; tauto|tauto].
    + intros [(g1&Hg1&Hs1&N1) Ne]. destruct Sl as [_ (g0&Hg0&Hs0)]; [eauto|].
      exists g0. rewrite elem_of_cons. tauto.
Qed.

(** Returning a list of owned pages to the page allocator. *)
Lemma free_pages_spec h R p : pmm_wf p → NoDup (sp_addr <$> R) →
  (∀ g, g ∈ R → page_ok h p g) →
  let p' := foldl (λ p g, pmm_free_page (sp_phys g) p) p R in
  pmm_wf p' ∧ direct_map_offset p' = direct_map_offset p ∧
  ∀ g, page_ok h p g → sp_addr g ∉ sp_addr <$> R → page_ok h p' g.
Proof.
  revert p; induction R as [|r R IH]; intros p W Nd Ok; cbn [foldl]; cbv zeta; [done|].
  destruct (Ok r ltac:(mem)) as [(f&E1&Hf&_) Ea].
  rewrite fmap_cons in Nd. apply NoDup_cons in Nd as [Nin Nd].
  assert (∀ g, page_ok h p g → sp_addr g ≠ sp_addr r → page_ok h (pmm_free_page (sp_phys r) p) g) as St.
  { intros g Hg Ne. rewrite E1. apply page_ok_freed; [done|done| |done].
    intros E2. apply Ne. rewrite (pk_addr _ _ _ Hg), Ea. lia. }
  destruct (free_page_frame f p W Hf) as (W1&_&O1&_). rewrite <- E1 in *.
  destruct (IH (pmm_free_page (sp_phys r) p)) as (W2&O2&K2); [done|done| |].
  { intros g Hg. apply St; [apply Ok; mem|]. intros E. apply Nin. rewrite <- E.
    by apply list_elem_of_fmap_2. }
  split; [done|]. split; [congruence|]. intros g Hg Ng. rewrite fmap_cons, elem_of_cons in Ng.
  apply K2; [apply St|]; tauto.
Qed.

Lemma reclaim_class_spec s p cls freed : slab_wf s p → 0 ≤ cls < 8 →
  let '(_, s', p') := reclaim_class cls freed s p in
  slab_wf s' p' ∧ ∀ k c, 0 ≤ k < 8 → slab_live s' k c ↔ slab_live s k c.
Proof.
  intros W Hc. unfold reclaim_class.
  pose proof (reclaim_pages_spec (pages_of s cls) false (free_of s cls) (oom_slab_page_count s) freed p)
    as Sp.
  destruct (reclaim_pages _ _ _ _ _ _) as [[[[pgs fr] count] fd] p'].
  destruct Sp as (R&P&_&Em&->&->). pose proof (sw_class _ _ W cls Hc) as C.
  pose proof (slab_wf_aligned _ _ cls W Hc) as Al. pose proof (sw_nodup _ _ W cls Hc) as Nd.
  set (fr := filter (outside R) (free_of s cls)).
  pose proof (updated_put s p cls fr pgs count W Hc) as U.
  change (_ <| oom_slab_page_count := count |>) with
    (Slab (aset (oom_free_heads s) cls fr) (aset (oom_page_heads s) cls pgs) count).
  pose proof Nd as Nd'. rewrite P, fmap_app in Nd'. apply NoDup_app in Nd' as (NdP&D&NdR).
  destruct (free_pages_spec (direct_map_offset p) R p) as (W'&O'&K'); [apply W|done| |].
  { intros g Hg. apply (sw_owned _ _ W cls); [done|]. by eapply gone_elem. }
  assert (∀ g, g ∈ pgs → g ∈ pages_of s cls) as Kp by (intros; by eapply kept_elem).
  split.
  - eapply slab_wf_update; try done.
    + by eapply class_reclaim.
    + intros g Hg. apply K'; [apply (sw_owned _ _ W cls); auto|].
      apply D. by apply list_elem_of_fmap_2.
    + intros k g Hk Ne Hg. apply K'; [by apply (sw_owned _ _ W k)|].
      intros (r&E&Hr)%list_elem_of_fmap. eapply (sw_disjoint _ _ W k cls g r); try done.
      by eapply gone_elem.
    + intros g k g' Hg Hk Ne Hg'. apply (sw_disjoint _ _ W cls k); auto.
  - intros k c Hk. unfold slab_live. rewrite (up_free _ _ _ _ _ U), (up_pages _ _ _ _ _ U) by lia.
    destruct (Z.eqb_spec cls k) as [<-|]; [|done]. by eapply class_reclaim_live.
Qed.

Lemma reclaim_classes_spec n : ∀ s p cls freed, slab_wf s p → 0 ≤ cls → cls + Z.of_nat n ≤ 8 →
  let '(_, s', p') := reclaim_classes n cls freed s p in
  slab_wf s' p' ∧ ∀ k c, 0 ≤ k < 8 → slab_live s' k c ↔ slab_live s k c.
Proof.
  induction n as [|n IH]; intros s p cls freed W H0 Hn; cbn [reclaim_classes]; [done|].
  pose proof (reclaim_class_spec s p cls freed W ltac:(lia)) as R1.
  destruct (reclaim_class cls freed s p) as [[fd s1] p1]. destruct R1 as [W1 L1].
  specialize (IH s1 p1 (cls + 1) fd W1 ltac:(lia) ltac:(lia)).
  destruct (reclaim_classes n (cls + 1) fd s1 p1) as [[fd2 s2] p2]. destruct IH as [W2 L2].
  split; [done|]. intros. by rewrite L2, L1.
Qed.

Lemma slab_init_wf p : pmm_wf p → 0 ≤ direct_map_offset p → direct_map_offset p mod 4096 = 0 →
  direct_map_offset p + 2 ^ 36 ≤ 2 ^ 64 → slab_wf oom_slab_init p.
Proof.
  intros W H0 Hm Hb.
  assert (∀ k, free_of oom_slab_init k = []) as F.
  { intros k. unfold free_of, aget. simpl. by destruct (Z.to_nat k) as [|[|[|[|[|[|[|[|[|]]]]]]]]]. }
  assert (∀ k, pages_of oom_slab_init k = []) as G.
  { intros k. unfold pages_of, aget. simpl. by destruct (Z.to_nat k) as [|[|[|[|[|[|[|[|[|]]]]]]]]]. }
  split; [done|done|done|..].
  - intros k _. rewrite F, G. split; [constructor|..]; by intros ? ?%not_elem_of_nil.
  - intros k _. rewrite G. constructor.
  - intros k g _. rewrite G. by intros ?%not_elem_of_nil.
  - intros c1 c2 g1 g2 _ _ _. rewrite G. by intros ?%not_elem_of_nil.
Qed.

(** The class whose objects fill a whole page has room for none after the
    header, so its free list stays empty. *)
Lemma largest_class_empty s p : slab_wf s p → free_of s 7 = [].
Proof.
  intros W. destruct (free_of s 7) as [|a l] eqn:E; [done|exfalso].
  pose proof (sw_class _ _ W 7 ltac:(lia)) as C. rewrite E in C.
  destruct (cw_slot _ _ _ C a ltac:(mem)) as (g&Hg&i&Hi&_).
  rewrite (cw_total _ _ _ C g Hg) in Hi. change (per_page (slab_size 7)) with 0 in Hi. lia.
Qed.

Lemma largest_class_fails s p size : slab_wf s p → 2048 < size ≤ 4096 →
  ∃ s' p', oom_slab_alloc size s p = (0, s', p').
Proof.
  intros W Hs. unfold oom_slab_alloc. destruct (Z.eqb_spec size 0); [lia|].
  assert (oom_slab_class size = 7) as ->.
  { destruct (oom_slab_class_spec size) as [[_ ?]|(R&U&Lo)]; [lia|].
    destruct (decide (oom_slab_class size = 7)) as [|]; [done|].
    assert (slab_size (oom_slab_class size) ≤ 2048) as B; [|lia].
    assert (oom_slab_class size = 0 ∨ oom_slab_class size = 1 ∨ oom_slab_class size = 2 ∨
      oom_slab_class size = 3 ∨ oom_slab_class size = 4 ∨ oom_slab_class size = 5 ∨
      oom_slab_class size = 6) as Cs by lia.
    destruct Cs as [->|[->|[->|[->|[->|[->| ->]]]]]]; done. }
  change (7 <? 0) with false. cbv iota zeta. rewrite (largest_class_empty s p W).
  unfold oom_slab_grow_locked. destruct (pmm_allocate_page p) as [phys p1].
  destruct (phys =? 0); [by eexists _, _|].
  assert (∀ b h, carve 128 b (slab_size 7) slab_header h 0 = (h, 0)) as -> by done.
  by eexists _, _.
Qed.

(** C18: An allocation that succeeds answers an address that was not handed out,
    big enough for the request; the new object and every other live object
    occupy disjoint bytes, nothing else changes hands and the allocator stays
    well formed.  One that fails answers the null pointer and moves nothing. *)
Theorem slab_alloc_fresh s p size : slab_wf s p →
  let '(a, s', p') := oom_slab_alloc size s p in
  slab_wf s' p' ∧
  if a =? 0 then ∀ k c, 0 ≤ k < 8 → slab_live s' k c ↔ slab_live s k c
  else ∃ cls, cls = oom_slab_class size ∧ 0 ≤ cls < 8 ∧ size ≤ slab_size cls ∧
    ¬ slab_live s cls a ∧ slab_live s' cls a ∧
    (∀ k c, 0 ≤ k < 8 → slab_live s' k c ↔ slab_live s k c ∨ (k = cls ∧ c = a)) ∧
    (∀ k c, 0 ≤ k < 8 → slab_live s k c → a + size ≤ c ∨ c + slab_size k ≤ a).
Proof.
  intros W. pose proof (slab_alloc_spec size s p W) as Sp.
  destruct (oom_slab_alloc size s p) as [[a s'] p']. destruct Sp as [W' [[-> L]|(Hc&Hz&Nl&L)]].
  { by split. }
  split; [done|]. cbv zeta in Nl, L. set (cls := oom_slab_class size) in *.
  assert (slab_live s' cls a) as La by (apply L; [done|by right]).
  destruct (oom_slab_class_spec size) as [[E _]|(_&Hs&_)]; [fold cls in E; lia|]. fold cls in Hs.
  destruct (Z.eqb_spec a 0) as [->|Ha].
  { exfalso. by eapply slab_live_nonzero. }
  exists cls. do 6 (split; [done|]). intros k c Hk Lc.
  assert (slab_live s' k c) as Lc' by (apply L; [done|by left]).
  destruct (slab_live_apart s' p' cls a k c W' Hc Hk La Lc'); [by intros [<- <-]|lia|lia].
Qed.

Lemma demo_slab_wf : slab_wf oom_slab_init demo_pmm.
Proof. apply slab_init_wf; [exact demo_wf|by vm_compute|by vm_compute|by vm_compute]. Qed.

(** The slab of the demo machine with one 100-byte object handed out. *)
Definition demo_slab : Z * slab * pmm := oom_slab_alloc 100 oom_slab_init demo_pmm.

Lemma demo_slab_eq : demo_slab = oom_slab_alloc 100 oom_slab_init demo_pmm.
Proof. reflexivity. Qed.

Lemma demo_slab_addr : demo_slab.1.1 = 16160.
Proof. vm_compute. reflexivity. Qed.

Lemma slab_alloc_fresh_witness :
  slab_wf oom_slab_init demo_pmm ∧ demo_slab.1.1 = 16160 ∧
  slab_live demo_slab.1.2 2 16160.
Proof.
  split; [exact demo_slab_wf|]. split; [exact demo_slab_addr|].
  pose proof (slab_alloc_fresh oom_slab_init demo_pmm 100 demo_slab_wf) as T.
  rewrite <- demo_slab_eq in T. pose proof demo_slab_addr as Ea.
  destruct demo_slab as [[a s'] p']. cbn [fst snd] in Ea |- *.
  rewrite Ea in T. destruct T as [_ (cls&Hc&_&_&_&L&_)].
  change (oom_slab_class 100) with 2 in Hc. rewrite Hc in L. exact L.
Defined.

(** Giving a live object back makes exactly that object dead: the other
    objects of every class stay live and the allocator stays well formed. *)
Theorem slab_free_releases s p size a : slab_wf s p → 0 < size ≤ 4096 →
  slab_live s (oom_slab_class size) a →
  slab_wf (oom_slab_free a size s) p ∧
  ∀ k c, 0 ≤ k < 8 → slab_live (oom_slab_free a size s) k c ↔
    slab_live s k c ∧ ¬ (k = oom_slab_class size ∧ c = a).
Proof.
  intros W Hs L. destruct (oom_slab_class_spec size) as [[_ ?]|(Hc&_&_)]; [lia|].
  apply slab_free_spec; try done; [lia|]. intros ->. by eapply slab_live_nonzero.
Qed.

(** Releasing the empty pages under memory pressure takes no page away from
    a live object: the same objects are live before and after, and the page
    allocator stays well formed. *)
Theorem slab_reclaim_keeps_live s p : slab_wf s p →
  let '(_, s', p') := oom_slab_reclaim_empty s p in
  slab_wf s' p' ∧ ∀ k c, 0 ≤ k < 8 → slab_live s' k c ↔ slab_live s k c.
Proof. intros W. apply reclaim_classes_spec; [done|lia|done]. Qed.

(** Requests of 2049 to 4096 bytes are given the class of 4096-byte objects,
    whose pages have no room left after the header: they always fail. *)
Theorem slab_largest_class_unusable s p size : slab_wf s p → 2048 < size ≤ 4096 →
  (oom_slab_alloc size s p).1.1 = 0.
Proof. intros W Hs. destruct (largest_class_fails s p size W Hs) as (s'&p'&->). done. Qed.

Lemma slab_free_releases_witness :
  slab_wf (oom_slab_free 16160 100 demo_slab.1.2) demo_slab.2 ∧
  ¬ slab_live (oom_slab_free 16160 100 demo_slab.1.2) 2 16160.
Proof.
  pose proof (slab_alloc_spec 100 oom_slab_init demo_pmm demo_slab_wf) as T.
  rewrite <- demo_slab_eq in T. pose proof demo_slab_addr as Ea.
  destruct demo_slab as [[a s'] p']. cbn [fst snd] in Ea |- *.
  rewrite Ea in T. destruct T as [W [[? _]|(_&_&_&L)]]; [discriminate|].
  cbv zeta in L. change (oom_slab_class 100) with 2 in L. 
  assert (slab_live s' 2 16160) as Lv by (apply L; [lia|by right]).
  assert (0 < 100 ≤ 4096) as Hs by lia.
  pose proof (slab_free_releases s' p' 100 16160 W Hs Lv) as [W' L'].
  split; [exact W'|]. intros H. apply L' in H; [|lia]. destruct H as [_ []]. by split.
Defined.

Lemma slab_reclaim_keeps_live_witness :
  (oom_slab_reclaim_empty demo_slab.1.2 demo_slab.2).1.1 = 0 ∧
  slab_wf (oom_slab_reclaim_empty oom_slab_init demo_pmm).1.2
    (oom_slab_reclaim_empty oom_slab_init demo_pmm).2.
Proof.
  split; [vm_compute; reflexivity|].
  pose proof (slab_reclaim_keeps_live oom_slab_init demo_pmm demo_slab_wf) as T.
  destruct (oom_slab_reclaim_empty oom_slab_init demo_pmm) as [[n s'] p'].
  cbn [fst snd]. exact (proj1 T).
Defined.

Lemma slab_largest_class_unusable_witness :
  (oom_slab_alloc 2049 oom_slab_init demo_pmm).1.1 = 0 ∧
  (oom_slab_alloc 2048 oom_slab_init demo_pmm).1.1 ≠ 0.
Proof.
  split; [|by vm_compute].
  apply (slab_largest_class_unusable oom_slab_init demo_pmm 2049); [exact demo_slab_wf|lia].
Defined.
