(* ===== verification/Swap.v ===== *)
(** * Swap (src/src/io/swap.c)

    The slots of the swap partition: a count of users for each, and the pages that are
    written to and read from the disk.  The disk is an interface, [Disk]; the thread
    that calls [vmm_swap_reclaim] while memory is short is left out, and so are the
    lines of the log. *)

From S2P Require Import Prelude Pmm.

(** [src/io/swap.h:6-6] SWAP_PAGE_BYTES *)
Definition SWAP_PAGE_BYTES : Z := 4096.
(** [src/io/swap.h:7-7] SWAP_PAGE_SECTORS *)
Definition SWAP_PAGE_SECTORS : Z := 8.
(** [src/io/swap.h:8-8] SWAP_MAX_PAGES *)
Definition SWAP_MAX_PAGES : Z := 512 * 1024.
(** [src/io/swap.h:9-9] SWAP_MIN_PARTITION_SECTORS *)
Definition SWAP_MIN_PARTITION_SECTORS : Z := 16384.
(** [src/io/swap.h:10-10] SWAP_MAGIC *)
Definition SWAP_MAGIC : list Z := [80; 85; 82; 69; 83; 87; 65; 80].
(** [src/io/swap.h:11-11] SWAP_VERSION *)
Definition SWAP_VERSION : Z := 1.
(** [src/io/swap.c:14-16] swap_gpt_type_guid *)
Definition swap_gpt_type_guid : list Z := [109; 253; 87; 6; 171; 164; 196; 67; 132; 229; 9; 51; 200; 75; 79; 79].

(** The disks: [block_device_raw_run] on a buffer (for a read the bytes that are in it
    afterwards), the number of devices and whether one is of a kind that is searched. *)
Class Disk (D : Type) := {
  disk_write : Z → Z → list Z → Z → D → bool * D;
  disk_read : Z → Z → list Z → Z → D → bool * list Z * D;
  block_device_count : D → Z;
  disk_searched : Z → D → bool;
}.

(** [swap_refs] is the table behind the pointer: its cells are zero until written,
    because its pages were zeroed.
    [src/io/swap.c:18-29] swap_refs *)
Record swap := Swap {
  swap_on : bool;
  swap_device : Z;
  swap_start : Z;
  swap_pages : Z;
  swap_used : Z;
  swap_cursor : Z;
  swap_refs : gmap Z Z;
  swap_refs_phys : Z;
  swap_refs_pages : Z;
  swap_out_count : Z;
  swap_in_count : Z;
}.
#[export] Instance eta_swap : Eta swap := λ s,
  Swap (swap_on s) (swap_device s) (swap_start s) (swap_pages s) (swap_used s) (swap_cursor s) (swap_refs s) (swap_refs_phys s)
    (swap_refs_pages s) (swap_out_count s) (swap_in_count s).
Definition swap_zero : swap := Swap false 0 0 0 0 0 ∅ 0 0 0 0.
Definition slot_refs (w : swap) (slot : Z) : Z := default 0 (swap_refs w !! slot).

Definition byte_of (p : list Z) (i : Z) : Z := nth (Z.to_nat i) p 0.
(** [src/io/swap.c:31-34] read_u32 *)
Definition read_u32 (p : list Z) (i : Z) : Z :=
  Z.lor (Z.lor (Z.lor (byte_of p i) (byte_of p (i + 1) ≪ 8)) (byte_of p (i + 2) ≪ 16)) (u32 (byte_of p (i + 3) ≪ 24)).
(** [src/io/swap.c:36-42] write_u32 *)
Definition write_u32 (v : Z) : list Z := [u8 v; u8 (v ≫ 8); u8 (v ≫ 16); u8 (v ≫ 24)].
(** Eight bytes, the lowest first.
    [src/io/swap.c:105-107] probe_device *)
Definition read_u64 (p : list Z) (i : Z) : Z := foldl (λ v b, Z.lor v (u64 (byte_of p (i + b) ≪ (b * 8)))) 0 (seqZ 0 8).

Section swap.
Context {D : Type} `{Disk D}.
Implicit Types (w : swap) (d : D).

(** [src/io/swap.c:48-57] swap_format *)
Definition swap_header (pages : Z) : list Z :=
  SWAP_MAGIC ++ write_u32 SWAP_VERSION ++ write_u32 pages ++ write_u32 SWAP_PAGE_BYTES ++ replicate 4076 0.
(** [src/io/swap.c:44-62] swap_format *)
Definition swap_format (device_index start_lba sectors : Z) d : bool * D :=
  if sectors <? SWAP_MIN_PARTITION_SECTORS then (false, d) else
  let pages := sectors / SWAP_PAGE_SECTORS in
  let pages := if SWAP_MAX_PAGES <? pages then SWAP_MAX_PAGES else pages in
  disk_write device_index start_lba (swap_header pages) SWAP_PAGE_SECTORS d.

(** The header of a partition, and the number of its pages.
    [src/io/swap.c:71-76] swap_enable *)
Definition header_pages (page : list Z) (sectors : Z) : option Z :=
  if negb (bool_decide (take 8 page = SWAP_MAGIC)) || negb (read_u32 page 8 =? SWAP_VERSION) || negb (read_u32 page 16 =? SWAP_PAGE_BYTES) then None else
  let pages := read_u32 page 12 in
  if (pages <? 2) || (SWAP_MAX_PAGES <? pages) || (sectors / SWAP_PAGE_SECTORS <? pages) then None else Some pages.

(** [src/io/swap.c:64-98] swap_enable *)
Definition swap_enable (device_index start_lba sectors : Z) (buffer : list Z) (p : pmm) w d : bool * pmm * swap * D :=
  if swap_on w then (true, p, w, d) else
  let '(ok, page, d) := disk_read device_index start_lba buffer SWAP_PAGE_SECTORS d in
  if negb ok then (false, p, w, d) else
  match header_pages page sectors with
  | None => (false, p, w, d)
  | Some pages =>
      let ref_pages := (pages + PMM_PAGE_SIZE - 1) / PMM_PAGE_SIZE in
      let '(phys, p) := pmm_allocate_contiguous ref_pages p in
      if phys =? 0 then (false, p, w, d) else
      (true, p, w <| swap_refs := ∅ |> <| swap_refs_phys := phys |> <| swap_refs_pages := ref_pages |> <| swap_device := device_index |>
                  <| swap_start := start_lba |> <| swap_pages := pages |> <| swap_used := 0 |> <| swap_cursor := 1 |> <| swap_on := true |>, d)
  end.

(** The entries of a partition table, from one on: where the swap partition begins and how many sectors it has.
    A table whose sector cannot be read ends the search.
    [src/io/swap.c:115-134] probe_device *)
Fixpoint find_partition (fuel : nat) (i index entries_lba : Z) (sector : list Z) d : option (Z * Z) * D :=
  match fuel with
  | O => (None, d)
  | S fuel =>
      let '(ok, sector, d) := if i mod 4 =? 0 then disk_read index (u32 (entries_lba + i / 4)) sector 1 d else (true, sector, d) in
      if negb ok then (None, d) else
      let entry := drop (Z.to_nat (i mod 4 * 128)) sector in
      if negb (bool_decide (take 16 entry = swap_gpt_type_guid)) then find_partition fuel (i + 1) index entries_lba sector d else
      let first := read_u64 entry 32 in
      let last := read_u64 entry 40 in
      if (2 ^ 32 - 1 <? first) || (last <? first) || (2 ^ 32 - 1 <? last - first) then find_partition fuel (i + 1) index entries_lba sector d
      else (Some (first, u32 (last - first + 1)), d)
  end.
(** [src/io/swap.c:103-113] probe_device *)
Definition partition_table (sector : list Z) : option (Z * Z) :=
  if negb (bool_decide (take 8 sector = [69; 70; 73; 32; 80; 65; 82; 84])) then None else
  let entries_lba := read_u64 sector 72 in
  let count := read_u32 sector 80 in
  let size := read_u32 sector 84 in
  if (count =? 0) || negb (size =? 128) || (2 ^ 32 - 1 <? entries_lba) then None
  else Some (entries_lba, if 128 <? count then 128 else count).
(** [src/io/swap.c:100-135] probe_device *)
Definition probe_device (index : Z) (sector page : list Z) (p : pmm) w d : bool * pmm * swap * D :=
  let '(ok, sector, d) := disk_read index 1 sector 1 d in
  if negb ok then (false, p, w, d) else
  match partition_table sector with
  | None => (false, p, w, d)
  | Some (entries_lba, count) =>
      match find_partition (Z.to_nat count) 0 index entries_lba sector d with
      | (Some (first, sectors), d) => swap_enable index first sectors page p w d
      | (None, d) => (false, p, w, d)
      end
  end.
(** [src/io/swap.c:142-151] swap_probe *)
Fixpoint probe_loop (fuel : nat) (index : Z) (sector page : list Z) (p : pmm) w d : bool * pmm * swap * D :=
  match fuel with
  | O => (false, p, w, d)
  | S fuel =>
      if negb (disk_searched index d) then probe_loop fuel (index + 1) sector page p w d else
      let '(found, p, w, d) := probe_device index sector page p w d in
      if found then (true, p, w, d) else probe_loop fuel (index + 1) sector page p w d
  end.
(** The buffers are on the stack and hold anything before they are read into.
    [src/io/swap.c:137-153] swap_probe *)
Definition swap_probe (sector page : list Z) (p : pmm) w d : bool * pmm * swap * D :=
  if swap_on w then (true, p, w, d) else probe_loop (Z.to_nat (block_device_count d)) 0 sector page p w d.

(** [src/io/swap.c:155-158] swap_enabled *)
Definition swap_enabled w : bool := swap_on w.

(** One round of the search for a free slot.
    [src/io/swap.c:168-180] swap_alloc *)
Fixpoint alloc_loop (fuel : nat) w : Z * swap :=
  match fuel with
  | O => (0, w)
  | S fuel =>
      let w := if (swap_pages w <=? swap_cursor w) || (swap_cursor w =? 0) then w <| swap_cursor := 1 |> else w in
      let slot := swap_cursor w in
      let w := w <| swap_cursor := u32 (slot + 1) |> in
      if slot_refs w slot =? 0 then (slot, w <| swap_refs := <[slot := 1]> (swap_refs w) |> <| swap_used := u32 (swap_used w + 1) |>)
      else alloc_loop fuel w
  end.
(** [src/io/swap.c:160-184] swap_alloc *)
Definition swap_alloc w : Z * swap :=
  if negb (swap_enabled w) then (0, w)
  else if u32 (swap_used w + 1) <? swap_pages w then alloc_loop (Z.to_nat (swap_pages w)) w else (0, w).

(** [src/io/swap.c:208-211] slot_valid *)
Definition slot_valid w (slot : Z) : bool := swap_enabled w && negb (slot =? 0) && (slot <? swap_pages w).

(** [src/io/swap.c:186-196] swap_dup *)
Definition swap_dup (slot : Z) w : bool * swap :=
  if negb (swap_enabled w) || (slot =? 0) || (swap_pages w <=? slot) then (false, w) else
  if negb (slot_refs w slot =? 0) && (slot_refs w slot <? 255)
  then (true, w <| swap_refs := <[slot := u8 (slot_refs w slot + 1)]> (swap_refs w) |>)
  else (false, w).

(** [src/io/swap.c:198-206] swap_free *)
Definition swap_free (slot : Z) w : swap :=
  if negb (swap_enabled w) || (slot =? 0) || (swap_pages w <=? slot) then w else
  if negb (slot_refs w slot =? 0) && negb (slot_refs w slot =? 255) then
    let w := w <| swap_refs := <[slot := u8 (slot_refs w slot - 1)]> (swap_refs w) |> in
    if slot_refs w slot =? 0 then w <| swap_used := u32 (swap_used w - 1) |> else w
  else w.

(** [src/io/swap.c:213-222] swap_write *)
Definition swap_write (slot : Z) (page : list Z) w d : bool * swap * D :=
  if negb (slot_valid w slot) then (false, w, d) else
  let '(ok, d) := disk_write (swap_device w) (u32 (swap_start w + slot * SWAP_PAGE_SECTORS)) page SWAP_PAGE_SECTORS d in
  (ok, if ok then w <| swap_out_count := u64 (swap_out_count w + 1) |> else w, d).

(** The bytes of the page afterwards.
    [src/io/swap.c:224-233] swap_read *)
Definition swap_read (slot : Z) (page : list Z) w d : bool * list Z * swap * D :=
  if negb (slot_valid w slot) then (false, page, w, d) else
  let '(ok, page, d) := disk_read (swap_device w) (u32 (swap_start w + slot * SWAP_PAGE_SECTORS)) page SWAP_PAGE_SECTORS d in
  (ok, page, if ok then w <| swap_in_count := u64 (swap_in_count w + 1) |> else w, d).

(** [src/io/swap.h:13-22] swap_info *)
Record swap_info := SwapInfo {
  enabled : bool;
  total_pages : Z;
  used_pages : Z;
  pages_out : Z;
  pages_in : Z;
  device_index : Z;
  start_lba : Z;
}.
(** [src/io/swap.c:235-251] swap_info_get *)
Definition swap_info_get w : swap_info :=
  if negb (swap_enabled w) then SwapInfo false 0 0 0 0 0 0
  else SwapInfo true (u32 (swap_pages w - 1)) (swap_used w) (swap_out_count w) (swap_in_count w) (swap_device w) (swap_start w).
End swap.
