(* ===== verification/Vmm.v ===== *)
(** * Address spaces (src/src/mm/vmm.c)

    The page tables of four levels in the frames of [Pmm], with the copying of pages
    that two processes share when one of them writes, and the pages that are out on
    the disk of [Swap].  A pointer to a table is the physical address of the table; a
    pointer to an entry is the table and the index.  [vmm_lock] makes each operation one
    step.  Left out are the registers of the processor (the switch to another
    space, the bits that turn on protection), the copies of entries that processors
    hold, and the lines of the log. *)

From S2P Require Import Prelude Pmm Oom Swap.

(** [src/mm/vmm.h:6-6] VMM_PAGE_PRESENT *)
Definition VMM_PAGE_PRESENT : Z := 2 ^ 0.
(** [src/mm/vmm.h:7-7] VMM_PAGE_WRITABLE *)
Definition VMM_PAGE_WRITABLE : Z := 2 ^ 1.
(** [src/mm/vmm.h:8-8] VMM_PAGE_USER *)
Definition VMM_PAGE_USER : Z := 2 ^ 2.
(** [src/mm/vmm.h:9-9] VMM_PAGE_COW *)
Definition VMM_PAGE_COW : Z := 2 ^ 9.
(** [src/mm/vmm.h:10-10] VMM_PAGE_SWAPENT *)
Definition VMM_PAGE_SWAPENT : Z := 2 ^ 10.
(** [src/mm/vmm.h:11-11] VMM_PAGE_ANON *)
Definition VMM_PAGE_ANON : Z := 2 ^ 11.
(** [src/mm/vmm.h:12-12] VMM_PAGE_NX *)
Definition VMM_PAGE_NX : Z := 2 ^ 63.
(** [src/mm/vmm.c:28-28] PAGE_ADDRESS_MASK *)
Definition PAGE_ADDRESS_MASK : Z := 0x000FFFFFFFFFF000.
(** [src/mm/vmm.c:35-36] SWAP_ENTRY_KEEP *)
Definition SWAP_ENTRY_KEEP : Z :=
  Z.lor (Z.lor (Z.lor (Z.lor VMM_PAGE_WRITABLE VMM_PAGE_USER) VMM_PAGE_NX) VMM_PAGE_COW) VMM_PAGE_ANON.
(** [src/mm/vmm.c:37-37] SWAP_SLOT_OF *)
Definition SWAP_SLOT_OF (entry : Z) : Z := u32 (Z.land entry PAGE_ADDRESS_MASK ≫ 12).
(** [src/mm/vmm.c:38-38] VMM_PAGE_ACCESSED *)
Definition VMM_PAGE_ACCESSED : Z := 2 ^ 5.
(** [src/mm/vmm.c:39-39] VMM_SPACE_MAX *)
Definition VMM_SPACE_MAX : Z := 1024.
(** [src/mm/vmm.c:40-40] USER_TOP *)
Definition USER_TOP : Z := 0x0000800000000000.

(** Some bit of a mask, and an entry without the bits of a mask. *)
Definition has (entry mask : Z) : bool := negb (Z.land entry mask =? 0).
Definition without (entry mask : Z) : Z := Z.land entry (u64 (Z.lnot mask)).
Definition page_base (address : Z) : Z := without address (PMM_PAGE_SIZE - 1).

(** A frame as 512 numbers of eight bytes, the lowest byte first. *)
Definition word_at (page : list Z) (index : Z) : Z := foldr (λ b v, b + 256 * v) 0 (take 8 (drop (Z.to_nat (8 * index)) page)).
Definition word_bytes (v : Z) : list Z := map (λ k, u8 (v ≫ k)) [0; 8; 16; 24; 32; 40; 48; 56].
Definition put_word (page : list Z) (index v : Z) : list Z :=
  take (Z.to_nat (8 * index)) page ++ word_bytes v ++ drop (Z.to_nat (8 * index + 8)) page.

(** The statics of the file, with the frames, the swap partition and the disks.
    [src/mm/vmm.c:42-43] kernel_address_space *)
Record vmm (D : Type) := Vmm {
  pm : pmm;
  sw : swap;
  disk : D;
  kernel_address_space : Z;
  nx_enabled : bool;
  vmm_spaces : list Z;
  vmm_space_count : Z;
  swap_cursor_space : Z;
  swap_cursor_address : Z;
  swap_pause_count : Z;
}.
Arguments Vmm {D}.
Arguments pm {D}.
Arguments sw {D}.
Arguments disk {D}.
Arguments kernel_address_space {D}.
Arguments nx_enabled {D}.
Arguments vmm_spaces {D}.
Arguments vmm_space_count {D}.
Arguments swap_cursor_space {D}.
Arguments swap_cursor_address {D}.
Arguments swap_pause_count {D}.
#[export] Instance eta_vmm D : Eta (vmm D) := λ s,
  Vmm (pm s) (sw s) (disk s) (kernel_address_space s) (nx_enabled s) (vmm_spaces s) (vmm_space_count s) (swap_cursor_space s)
    (swap_cursor_address s) (swap_pause_count s).

Section vmm.
Context {D : Type} `{Disk D}.
Implicit Types (s : vmm D).

Definition page_bytes s (address : Z) : list Z := default [] (ram (pm s) !! (address / PMM_PAGE_SIZE)).
Definition put_page (address : Z) (bytes : list Z) s : vmm D := s <| pm := (pm s) <| ram := <[address / PMM_PAGE_SIZE := bytes]> (ram (pm s)) |> |>.
Definition read_entry (table index : Z) s : Z := word_at (page_bytes s table) index.
Definition write_entry (table index v : Z) s : vmm D := put_page table (put_word (page_bytes s table) index v) s.
Definition allocate s : Z * vmm D := let '(physical, p) := pmm_allocate_page (pm s) in (physical, s <| pm := p |>).
Definition free_page (physical : Z) s : vmm D := s <| pm := pmm_free_page physical (pm s) |>.
Definition free_slot (entry : Z) s : vmm D := s <| sw := swap_free (SWAP_SLOT_OF entry) (sw s) |>.

(** [src/mm/vmm.c:85-88] table_from_entry *)
Definition table_from_entry (entry : Z) : Z := Z.land entry PAGE_ADDRESS_MASK.

(** [src/mm/vmm.c:90-103] next_table *)
Definition next_table (table index : Z) (create : bool) (flags : Z) s : option Z * vmm D :=
  if has (read_entry table index s) VMM_PAGE_PRESENT then (Some (table_from_entry (read_entry table index s)), s) else
  if negb create then (None, s) else
  let '(physical, s) := allocate s in
  if physical =? 0 then (None, s) else
  (Some physical, write_entry table index (Z.lor (Z.lor (Z.lor physical VMM_PAGE_PRESENT) VMM_PAGE_WRITABLE) (Z.land flags VMM_PAGE_USER)) s).
Definition child_table (table index : Z) s : option Z := (next_table table index false 0 s).1.

Definition index_at (level : Z) (virtual_address : Z) : Z := Z.land (virtual_address ≫ (12 + 9 * level)) 511.

(** [src/mm/vmm.c:105-112] vmm_init *)
Definition vmm_init (cr3 : Z) (nx : bool) s : vmm D := s <| kernel_address_space := cr3 |> <| nx_enabled := nx |>.
(** [src/mm/vmm.c:125-125] vmm_kernel_address_space *)
Definition vmm_kernel_address_space s : Z := kernel_address_space s.

(** ** Copies of shared pages *)

(** [src/mm/vmm.c:132-158] cow_resolve_slot *)
Definition cow_resolve_slot (table index : Z) s : bool * vmm D :=
  let entry := read_entry table index s in
  if negb (has entry VMM_PAGE_PRESENT) || negb (has entry VMM_PAGE_USER) then (false, s) else
  if has entry VMM_PAGE_WRITABLE then (true, s) else
  if negb (has entry VMM_PAGE_COW) then (false, s) else
  let frame := Z.land entry PAGE_ADDRESS_MASK in
  if pmm_frame_shared frame (pm s) =? 0 then (true, write_entry table index (Z.lor (without entry VMM_PAGE_COW) VMM_PAGE_WRITABLE) s) else
  let '(copy, s) := allocate s in
  if copy =? 0 then (false, s) else
  let s := put_page copy (page_bytes s frame) s in
  let s := write_entry table index (Z.lor (Z.lor (without entry (Z.lor PAGE_ADDRESS_MASK VMM_PAGE_COW)) copy) VMM_PAGE_WRITABLE) s in
  (true, free_page frame s).

(** [src/mm/vmm.c:160-175] user_slot_locked *)
Definition user_slot_locked (address_space virtual_address : Z) s : option (Z * Z) :=
  match child_table address_space (index_at 3 virtual_address) s with
  | None => None
  | Some pdpt =>
      match child_table pdpt (index_at 2 virtual_address) s with
      | None => None
      | Some pd =>
          match child_table pd (index_at 1 virtual_address) s with
          | None => None
          | Some pt => Some (pt, index_at 0 virtual_address)
          end
      end
  end.

(** The end of the 512 GB, the GB or the 2 MB that has no table. *)
Definition skip_end (bits virtual_address : Z) : Z := u64 (Z.lor virtual_address (u64 (1 ≪ bits) - 1) + 1).
(** [src/mm/vmm.c:638-663] user_slot_skip_locked *)
Definition user_slot_skip_locked (address_space virtual_address : Z) s : option (Z * Z) * Z :=
  match child_table address_space (index_at 3 virtual_address) s with
  | None => (None, skip_end 39 virtual_address)
  | Some pdpt =>
      match child_table pdpt (index_at 2 virtual_address) s with
      | None => (None, skip_end 30 virtual_address)
      | Some pd =>
          match child_table pd (index_at 1 virtual_address) s with
          | None => (None, skip_end 21 virtual_address)
          | Some pt => (Some (pt, index_at 0 virtual_address), u64 (virtual_address + PMM_PAGE_SIZE))
          end
      end
  end.

(** ** Swapping *)

(** An entry that stands for a page on the disk. *)
Definition is_swapped (entry : Z) : bool := Z.land entry (Z.lor VMM_PAGE_PRESENT VMM_PAGE_SWAPENT) =? VMM_PAGE_SWAPENT.

(** What is done with one page: [None] when the search goes on.
    [src/mm/vmm.c:882-908] swap_out_one_locked *)
Definition swap_out_slot (table index : Z) s : option bool * vmm D :=
  let entry := read_entry table index s in
  let need := Z.lor (Z.lor VMM_PAGE_PRESENT VMM_PAGE_USER) VMM_PAGE_ANON in
  if negb (Z.land entry need =? need) then (None, s) else
  let frame := Z.land entry PAGE_ADDRESS_MASK in
  if negb (pmm_frame_shared frame (pm s) =? 0) then (None, s) else
  if has entry VMM_PAGE_ACCESSED then (None, write_entry table index (without entry VMM_PAGE_ACCESSED) s) else
  let '(id, w) := swap_alloc (sw s) in
  let s := s <| sw := w |> in
  if id =? 0 then (Some false, s) else
  let s := write_entry table index (Z.lor (Z.lor VMM_PAGE_SWAPENT (u64 (id ≪ 12))) (Z.land entry SWAP_ENTRY_KEEP)) s in
  let '(ok, w, d) := swap_write id (page_bytes s frame) (sw s) (disk s) in
  let s := s <| sw := w |> <| disk := d |> in
  if ok then (Some true, free_page frame s)
  else let s := write_entry table index entry s in (Some false, s <| sw := swap_free id (sw s) |>).

(** The cursor goes over the user addresses of the spaces that are registered.
    [src/mm/vmm.c:862-910] swap_out_one_locked *)
Fixpoint swap_out_loop (budget : nat) s : bool * vmm D :=
  match budget with
  | O => (false, s)
  | S budget =>
      let s := if vmm_space_count s <=? swap_cursor_space s then s <| swap_cursor_space := 0 |> <| swap_cursor_address := 0 |> else s in
      if USER_TOP <=? swap_cursor_address s
      then swap_out_loop budget (s <| swap_cursor_space := u32 (swap_cursor_space s + 1) |> <| swap_cursor_address := 0 |>) else
      let '(slot, next) := user_slot_skip_locked (aget 0 (vmm_spaces s) (swap_cursor_space s)) (swap_cursor_address s) s in
      let s := s <| swap_cursor_address := next |> in
      match slot with
      | None => swap_out_loop budget s
      | Some (table, index) =>
          match swap_out_slot table index s with
          | (None, s) => swap_out_loop budget s
          | (Some done, s) => (done, s)
          end
      end
  end.
(** [src/mm/vmm.c:858-911] swap_out_one_locked *)
Definition swap_out_one_locked s : bool * vmm D :=
  if negb (swap_enabled (sw s)) || negb (swap_pause_count s =? 0) || (vmm_space_count s =? 0) then (false, s)
  else swap_out_loop (Z.to_nat 8192) s.

(** A frame for a page that comes back: another page may have to go for it.
    [src/mm/vmm.c:841-845] swap_in_locked *)
Definition allocate_or_evict s : Z * vmm D :=
  let '(frame, s) := allocate s in
  if negb (frame =? 0) then (frame, s) else
  let '(evicted, s) := swap_out_one_locked s in
  if evicted then allocate s else (0, s).
(** [src/mm/vmm.c:834-856] swap_in_locked *)
Definition swap_in_locked (table index : Z) s : bool * vmm D :=
  let entry := read_entry table index s in
  if negb (is_swapped entry) then (false, s) else
  let id := SWAP_SLOT_OF entry in
  let '(frame, s) := allocate_or_evict s in
  if frame =? 0 then (false, s) else
  let '(ok, page, w, d) := swap_read id (page_bytes s frame) (sw s) (disk s) in
  let s := put_page frame page (s <| sw := w |> <| disk := d |>) in
  if negb ok then (false, free_page frame s) else
  let s := write_entry table index (Z.lor (Z.lor (Z.land frame PAGE_ADDRESS_MASK) VMM_PAGE_PRESENT) (Z.land entry SWAP_ENTRY_KEEP)) s in
  (true, s <| sw := swap_free id (sw s) |>).
(** A swapped page is brought back; whether there is nothing to bring back or it was done. *)
Definition swap_in_if (table index : Z) s : bool * vmm D :=
  if is_swapped (read_entry table index s) then swap_in_locked table index s else (true, s).

(** [src/mm/vmm.c:913-926] vmm_swap_reclaim *)
Fixpoint reclaim_loop (n : nat) (done : Z) s : Z * vmm D :=
  match n with
  | O => (done, s)
  | S n => let '(ok, s) := swap_out_one_locked s in if ok then reclaim_loop n (done + 1) s else (done, s)
  end.
Definition vmm_swap_reclaim (want_pages : Z) s : Z * vmm D := reclaim_loop (Z.to_nat want_pages) 0 s.
(** [src/mm/vmm.c:928-931] vmm_swap_pause *)
Definition vmm_swap_pause s : vmm D := s <| swap_pause_count := u32 (swap_pause_count s + 1) |>.
(** [src/mm/vmm.c:933-936] vmm_swap_resume *)
Definition vmm_swap_resume s : vmm D := s <| swap_pause_count := u32 (swap_pause_count s - 1) |>.

(** ** Spaces *)

(** [src/mm/vmm.c:812-816] space_register *)
Definition space_register (address_space : Z) s : vmm D :=
  if vmm_space_count s <? VMM_SPACE_MAX
  then s <| vmm_spaces := aset (vmm_spaces s) (vmm_space_count s) address_space |> <| vmm_space_count := u32 (vmm_space_count s + 1) |> else s.
(** [src/mm/vmm.c:818-832] space_unregister *)
Definition space_unregister (address_space : Z) s : vmm D :=
  match for_first (λ i, aget 0 (vmm_spaces s) i =? address_space) (Z.to_nat (vmm_space_count s)) 0 with
  | None => s
  | Some i =>
      let s := s <| vmm_space_count := u32 (vmm_space_count s - 1) |> in
      let s := s <| vmm_spaces := aset (vmm_spaces s) i (aget 0 (vmm_spaces s) (vmm_space_count s)) |> in
      if vmm_space_count s <=? swap_cursor_space s then s <| swap_cursor_space := 0 |> <| swap_cursor_address := 0 |> else s
  end.

(** An entry of a table that is given up.
    [src/mm/vmm.c:233-242] vmm_destroy_table_level *)
Definition destroy_entry (level : nat) (below : Z → vmm D → vmm D) (physical : Z) s (index : Z) : vmm D :=
  let entry := read_entry physical index s in
  if negb (has entry VMM_PAGE_PRESENT) then
    if (level =? 1)%nat && has entry VMM_PAGE_SWAPENT then free_slot entry s else s
  else if (level =? 1)%nat then free_page (Z.land entry PAGE_ADDRESS_MASK) s
  else below (Z.land entry PAGE_ADDRESS_MASK) s.
(** The levels are 1 to 3.
    [src/mm/vmm.c:228-245] vmm_destroy_table_level *)
Fixpoint vmm_destroy_table_level (level : nat) (physical : Z) s : vmm D :=
  match level with
  | O => s
  | S below => free_page physical (foldl (destroy_entry level (vmm_destroy_table_level below) physical) s (seqZ 0 512))
  end.

(** [src/mm/vmm.c:247-258] vmm_create_address_space_locked *)
Definition vmm_create_address_space_locked s : Z * vmm D :=
  let '(physical, s) := allocate s in
  if physical =? 0 then (0, s) else
  let s := foldl (λ s index, write_entry physical index (read_entry (kernel_address_space s) index s) s) s (seqZ 256 256) in
  (physical, space_register physical s).

(** [src/mm/vmm.c:294-297] vmm_destroy_address_space_locked *)
Definition destroy_pt_entry (pt : Z) s (index : Z) : vmm D :=
  let entry := read_entry pt index s in
  if has entry VMM_PAGE_PRESENT then free_page (Z.land entry PAGE_ADDRESS_MASK) s
  else if has entry VMM_PAGE_SWAPENT then free_slot entry s else s.
(** [src/mm/vmm.c:288-299] vmm_destroy_address_space_locked *)
Definition destroy_pd_entry (pd : Z) s (index : Z) : vmm D :=
  let entry := read_entry pd index s in
  if negb (has entry VMM_PAGE_PRESENT) then s else
  let pt := Z.land entry PAGE_ADDRESS_MASK in free_page pt (foldl (destroy_pt_entry pt) s (seqZ 0 512)).
(** [src/mm/vmm.c:282-301] vmm_destroy_address_space_locked *)
Definition destroy_pdpt_entry (pdpt : Z) s (index : Z) : vmm D :=
  let entry := read_entry pdpt index s in
  if negb (has entry VMM_PAGE_PRESENT) then s else
  let pd := Z.land entry PAGE_ADDRESS_MASK in free_page pd (foldl (destroy_pd_entry pd) s (seqZ 0 512)).
(** [src/mm/vmm.c:276-303] vmm_destroy_address_space_locked *)
Definition destroy_root_entry s (entry : Z) : vmm D :=
  if negb (has entry VMM_PAGE_PRESENT) then s else
  let pdpt := Z.land entry PAGE_ADDRESS_MASK in free_page pdpt (foldl (destroy_pdpt_entry pdpt) s (seqZ 0 512)).
(** [src/mm/vmm.c:260-306] vmm_destroy_address_space_locked *)
Definition vmm_destroy_address_space_locked (address_space : Z) s : vmm D :=
  if (address_space =? 0) || (address_space =? kernel_address_space s) then s else
  let s := space_unregister address_space s in
  let detached := map (λ i, read_entry address_space i s) (seqZ 0 256) in
  let s := foldl (λ s i, write_entry address_space i 0 s) s (seqZ 0 256) in
  free_page address_space (foldl destroy_root_entry s detached).

(** An entry of a table that is copied; [level] is that of the table.
    [src/mm/vmm.c:186-223] clone_table_level *)
Definition clone_entry (level : nat) (below : Z → vmm D → Z * vmm D) (source destination index : Z) s : bool * vmm D :=
  let entry := read_entry source index s in
  if negb (has entry VMM_PAGE_PRESENT) then
    if (level =? 1)%nat && has entry VMM_PAGE_SWAPENT then
      let '(ok, w) := swap_dup (SWAP_SLOT_OF entry) (sw s) in
      let s := s <| sw := w |> in
      if ok then (true, write_entry destination index entry s) else (false, s)
    else (true, s)
  else if (level =? 1)%nat then
    let '(ok, p) := pmm_frame_ref (Z.land entry PAGE_ADDRESS_MASK) (pm s) in
    let s := s <| pm := p |> in
    if negb ok then (false, s) else
    let both := Z.lor VMM_PAGE_WRITABLE VMM_PAGE_USER in
    if Z.land entry both =? both then
      let entry := Z.lor (without entry VMM_PAGE_WRITABLE) VMM_PAGE_COW in
      (true, write_entry destination index entry (write_entry source index entry s))
    else (true, write_entry destination index entry s)
  else
    let '(child, s) := below (Z.land entry PAGE_ADDRESS_MASK) s in
    if child =? 0 then (false, s) else (true, write_entry destination index (Z.lor child (without entry PAGE_ADDRESS_MASK)) s).
Fixpoint clone_entries (n : nat) (level : nat) (below : Z → vmm D → Z * vmm D) (source destination index : Z) s : bool * vmm D :=
  match n with
  | O => (true, s)
  | S n =>
      let '(ok, s) := clone_entry level below source destination index s in
      if ok then clone_entries n level below source destination (index + 1) s else (false, s)
  end.
(** [src/mm/vmm.c:177-226] clone_table_level *)
Fixpoint clone_table_level (level : nat) (source : Z) s : Z * vmm D :=
  match level with
  | O => (0, s)
  | S below =>
      let '(physical, s) := allocate s in
      if physical =? 0 then (0, s) else
      let '(ok, s) := clone_entries 512 level (clone_table_level below) source physical 0 s in
      if ok then (physical, s) else (0, vmm_destroy_table_level level physical s)
  end.

(** [src/mm/vmm.c:567-599] vmm_clone_address_space *)
Definition vmm_clone_address_space (source : Z) s : Z * vmm D :=
  if (source =? 0) || (source =? kernel_address_space s) then (0, s) else
  let '(root, s) := vmm_create_address_space_locked s in
  if root =? 0 then (0, s) else
  let '(ok, s) := clone_entries 256 4 (clone_table_level 3) source root 0 s in
  if ok then (root, s) else (0, vmm_destroy_address_space_locked root s).

(** ** Mapping *)

(** The table of the last level, made where it is missing.
    [src/mm/vmm.c:315-325] vmm_map_page_locked *)
Definition make_tables (address_space virtual_address flags : Z) s : option Z * vmm D :=
  match next_table address_space (index_at 3 virtual_address) true flags s with
  | (None, s) => (None, s)
  | (Some pdpt, s) =>
      match next_table pdpt (index_at 2 virtual_address) true flags s with
      | (None, s) => (None, s)
      | (Some pd, s) => next_table pd (index_at 1 virtual_address) true flags s
      end
  end.
Definition nx_flag (flags : Z) s : Z := if nx_enabled s then Z.land flags VMM_PAGE_NX else 0.
(** [src/mm/vmm.c:308-333] vmm_map_page_locked *)
Definition vmm_map_page_locked (address_space virtual_address physical_address flags : Z) s : bool * vmm D :=
  if negb (Z.land virtual_address (PMM_PAGE_SIZE - 1) =? 0) || negb (Z.land physical_address (PMM_PAGE_SIZE - 1) =? 0) then (false, s) else
  match make_tables address_space virtual_address flags s with
  | (None, s) => (false, s)
  | (Some pt, s) =>
      let index := index_at 0 virtual_address in
      if has (read_entry pt index s) (Z.lor VMM_PAGE_PRESENT VMM_PAGE_SWAPENT) then (false, s) else
      (true, write_entry pt index (Z.lor (Z.lor (Z.lor (Z.land physical_address PAGE_ADDRESS_MASK) VMM_PAGE_PRESENT)
               (Z.land flags (Z.lor (Z.lor VMM_PAGE_WRITABLE VMM_PAGE_USER) VMM_PAGE_ANON))) (nx_flag flags s)) s)
  end.
(** [src/mm/vmm.c:514-523] vmm_map_page *)
Definition vmm_map_page (address_space virtual_address physical_address flags : Z) s : bool * vmm D :=
  vmm_map_page_locked address_space virtual_address physical_address flags s.

(** [src/mm/vmm.c:343-356] vmm_map_new_pages_locked *)
Fixpoint map_new_loop (n : nat) (page address_space virtual_address flags : Z) s : bool * vmm D :=
  match n with
  | O => (true, s)
  | S n =>
      let '(physical, s) := allocate s in
      if physical =? 0 then (false, s) else
      let '(ok, s) := vmm_map_page_locked address_space (u64 (virtual_address + page * PMM_PAGE_SIZE)) physical
                        (Z.lor flags (if has flags VMM_PAGE_USER then VMM_PAGE_ANON else 0)) s in
      if ok then map_new_loop n (page + 1) address_space virtual_address flags s else (false, free_page physical s)
  end.
(** [src/mm/vmm.c:335-357] vmm_map_new_pages_locked *)
Definition vmm_map_new_pages_locked (o : oom) (address_space virtual_address page_count flags : Z) s : bool * vmm D :=
  if page_count =? 0 then (false, s) else
  if has flags VMM_PAGE_USER && negb (oom_pressure_user_can_alloc o (pm s) page_count) then (false, s)
  else map_new_loop (Z.to_nat page_count) 0 address_space virtual_address flags s.
(** [src/mm/vmm.c:525-534] vmm_map_new_pages *)
Definition vmm_map_new_pages (o : oom) (address_space virtual_address page_count flags : Z) s : bool * vmm D :=
  vmm_map_new_pages_locked o address_space virtual_address page_count flags s.
(** [src/mm/vmm.c:628-636] vmm_map_new_pages_lazy *)
Definition vmm_map_new_pages_lazy (o : oom) (address_space virtual_address page_count flags : Z) s : bool * vmm D :=
  vmm_map_new_pages_locked o address_space virtual_address page_count flags s.

(** [src/mm/vmm.c:489-497] vmm_protect_page *)
Definition vmm_protect_page (address_space virtual_address flags : Z) s : bool * vmm D :=
  if negb (Z.land virtual_address (PMM_PAGE_SIZE - 1) =? 0) then (false, s) else
  match user_slot_locked address_space virtual_address s with
  | None => (false, s)
  | Some (pt, index) =>
      let '(here, s) := swap_in_if pt index s in
      if negb here then (false, s) else
      let entry := read_entry pt index s in
      if negb (has entry VMM_PAGE_PRESENT) then (false, s) else
      (true, write_entry pt index (Z.lor (Z.lor (Z.lor (Z.lor (Z.land entry PAGE_ADDRESS_MASK) VMM_PAGE_PRESENT) (Z.land entry VMM_PAGE_ANON))
               (Z.land flags (Z.lor VMM_PAGE_WRITABLE VMM_PAGE_USER))) (nx_flag flags s)) s)
  end.

(** [src/mm/vmm.c:388-411] vmm_translate_locked *)
Definition vmm_translate (address_space virtual_address : Z) s : Z * vmm D :=
  match user_slot_locked address_space virtual_address s with
  | None => (0, s)
  | Some (pt, index) =>
      let '(here, s) := swap_in_if pt index s in
      if negb here then (0, s) else
      let entry := read_entry pt index s in
      if negb (has entry VMM_PAGE_PRESENT) then (0, s) else
      (Z.lor (Z.land entry PAGE_ADDRESS_MASK) (Z.land virtual_address (PMM_PAGE_SIZE - 1)), s)
  end.

(** One page of a range that the kernel is about to use.
    [src/mm/vmm.c:426-444] vmm_user_range_accessible_locked *)
Definition page_accessible (address_space page : Z) (writable : bool) s : bool * vmm D :=
  match user_slot_locked address_space page s with
  | None => (false, s)
  | Some (pt, index) =>
      let '(here, s) := swap_in_if pt index s in
      if negb here then (false, s) else
      let entry := read_entry pt index s in
      if negb (has entry VMM_PAGE_PRESENT) || negb (has entry VMM_PAGE_USER) then (false, s) else
      if writable && negb (has entry VMM_PAGE_WRITABLE) then cow_resolve_slot pt index s else (true, s)
  end.
(** [src/mm/vmm.c:424-448] vmm_user_range_accessible_locked *)
Fixpoint accessible_loop (n : nat) (address_space page : Z) (writable : bool) s : bool * vmm D :=
  match n with
  | O => (true, s)
  | S n =>
      let '(ok, s) := page_accessible address_space page writable s in
      if ok then accessible_loop n address_space (u64 (page + PMM_PAGE_SIZE)) writable s else (false, s)
  end.
(** As many rounds as there are pages from the first to the last.
    [src/mm/vmm.c:413-449] vmm_user_range_accessible_locked *)
Definition vmm_user_range_accessible (address_space address size : Z) (writable : bool) s : bool * vmm D :=
  if size =? 0 then (true, s) else
  if (USER_TOP <=? address) || (USER_TOP - address <? size) then (false, s) else
  let first := page_base address in
  let last := page_base (address + size - 1) in
  accessible_loop (Z.to_nat ((last - first) / PMM_PAGE_SIZE + 1)) address_space first writable s.

(** [src/mm/vmm.c:472-475] vmm_user_page_count_locked *)
Definition count_pt (pt : Z) s : Z :=
  let both := Z.lor VMM_PAGE_PRESENT VMM_PAGE_USER in
  sum_of (λ i, if Z.land (read_entry pt i s) both =? both then 1 else 0) (seqZ 0 512).
(** [src/mm/vmm.c:467-476] vmm_user_page_count_locked *)
Definition count_pd (pd : Z) s : Z :=
  sum_of (λ i, if has (read_entry pd i s) VMM_PAGE_PRESENT then count_pt (table_from_entry (read_entry pd i s)) s else 0) (seqZ 0 512).
(** [src/mm/vmm.c:462-477] vmm_user_page_count_locked *)
Definition count_pdpt (pdpt : Z) s : Z :=
  sum_of (λ i, if has (read_entry pdpt i s) VMM_PAGE_PRESENT then count_pd (table_from_entry (read_entry pdpt i s)) s else 0) (seqZ 0 512).
(** [src/mm/vmm.c:451-480] vmm_user_page_count_locked *)
Definition vmm_user_page_count (address_space : Z) s : Z :=
  if (address_space =? 0) || (address_space =? kernel_address_space s) then 0 else
  sum_of (λ i, if has (read_entry address_space i s) VMM_PAGE_PRESENT then count_pdpt (table_from_entry (read_entry address_space i s)) s else 0) (seqZ 0 256).

(** [src/mm/vmm.c:562-565] vmm_user_address *)
Definition vmm_user_address (virtual_address : Z) : bool := virtual_address <? USER_TOP.

(** [src/mm/vmm.c:601-626] vmm_handle_cow_fault *)
Definition vmm_handle_cow_fault (address_space virtual_address error_code : Z) s : bool * vmm D :=
  if (address_space =? 0) || (address_space =? kernel_address_space s) || (USER_TOP <=? virtual_address) then (false, s) else
  match user_slot_locked address_space (page_base virtual_address) s with
  | Some (pt, index) =>
      if is_swapped (read_entry pt index s) then swap_in_locked pt index s else
      if negb (has error_code 1) || negb (has error_code 2) then (false, s) else cow_resolve_slot pt index s
  | None => (false, s)
  end.

(** ** Ranges *)

(** The new entry of a page whose protection changes.
    [src/mm/vmm.c:665-676] vmm_page_prot_locked *)
Definition vmm_page_prot (entry flags : Z) (nx : bool) : Z :=
  let base := without entry (Z.lor (Z.lor VMM_PAGE_WRITABLE VMM_PAGE_USER) VMM_PAGE_NX) in
  let base := if has flags VMM_PAGE_USER then Z.lor base VMM_PAGE_USER else base in
  let base := if nx && has flags VMM_PAGE_NX then Z.lor base VMM_PAGE_NX else base in
  if has flags VMM_PAGE_WRITABLE && negb (has entry VMM_PAGE_COW) then Z.lor base VMM_PAGE_WRITABLE else base.

(** [src/mm/vmm.c:678-685] range_valid *)
Definition range_valid (address_space virtual_address page_count : Z) s : bool :=
  negb (address_space =? 0) && negb (address_space =? kernel_address_space s) && (Z.land virtual_address (PMM_PAGE_SIZE - 1) =? 0) &&
  (virtual_address <? USER_TOP) && (page_count <=? (USER_TOP - virtual_address) / PMM_PAGE_SIZE).

(** The frames are given back together, at most 64 of them, once no processor can use them.
    [src/mm/vmm.c:718-721] vmm_unmap_range *)
Definition flush (held : list Z) s : vmm D := foldl (λ s frame, free_page frame s) s held.
(** [src/mm/vmm.c:698-725] vmm_unmap_range *)
Fixpoint unmap_loop (fuel : nat) (address_space address end_ : Z) (held : list Z) (freed : Z) s : Z * vmm D :=
  match fuel with
  | O => (freed, s)
  | S fuel =>
      if negb (address <? end_) then (freed, s) else
      let '(slot, next) := user_slot_skip_locked address_space address s in
      let '(held, freed, s) :=
        match slot with
        | None => (held, freed, s)
        | Some (pt, index) =>
            let entry := read_entry pt index s in
            if has entry VMM_PAGE_PRESENT then (held ++ [Z.land entry PAGE_ADDRESS_MASK], freed + 1, write_entry pt index 0 s)
            else if has entry VMM_PAGE_SWAPENT then (held, freed + 1, write_entry pt index 0 (free_slot entry s))
            else (held, freed, s)
        end in
      if (Z.of_nat (length held) =? 64) || ((end_ <=? next) && negb (Z.of_nat (length held) =? 0))
      then unmap_loop fuel address_space next end_ [] freed (flush held s)
      else unmap_loop fuel address_space next end_ held freed s
  end.
(** A page at least in each round.
    [src/mm/vmm.c:687-726] vmm_unmap_range *)
Definition vmm_unmap_range (address_space virtual_address page_count : Z) s : Z * vmm D :=
  if negb (range_valid address_space virtual_address page_count s) then (0, s) else
  unmap_loop (Z.to_nat page_count) address_space virtual_address (u64 (virtual_address + page_count * PMM_PAGE_SIZE)) [] 0 s.

(** [src/mm/vmm.c:737-746] vmm_present_count *)
Fixpoint present_loop (fuel : nat) (address_space address end_ present : Z) s : Z :=
  match fuel with
  | O => present
  | S fuel =>
      if negb (address <? end_) then present else
      let '(slot, next) := user_slot_skip_locked address_space address s in
      let here := match slot with Some (pt, index) => has (read_entry pt index s) (Z.lor VMM_PAGE_PRESENT VMM_PAGE_SWAPENT) | None => false end in
      present_loop fuel address_space next end_ (if here then present + 1 else present) s
  end.
(** [src/mm/vmm.c:728-747] vmm_present_count *)
Definition vmm_present_count (address_space virtual_address page_count : Z) s : Z :=
  if negb (range_valid address_space virtual_address page_count s) then 0 else
  present_loop (Z.to_nat page_count) address_space virtual_address (u64 (virtual_address + page_count * PMM_PAGE_SIZE)) 0 s.

(** [src/mm/vmm.c:758-783] vmm_protect_range *)
Fixpoint protect_loop (fuel : nat) (o : oom) (address_space address end_ flags : Z) (populate : bool) s : bool * vmm D :=
  match fuel with
  | O => (true, s)
  | S fuel =>
      if negb (address <? end_) then (true, s) else
      let '(slot, next) := user_slot_skip_locked address_space address s in
      let '(here, s) := match slot with Some (pt, index) => swap_in_if pt index s | None => (true, s) end in
      if negb here then (false, s) else
      let fill s :=
        if populate then
          let '(ok, s) := vmm_map_new_pages_locked o address_space address 1 flags s in
          if ok then protect_loop fuel o address_space (u64 (address + PMM_PAGE_SIZE)) end_ flags populate s else (false, s)
        else protect_loop fuel o address_space next end_ flags populate s in
      match slot with
      | Some (pt, index) =>
          let entry := read_entry pt index s in
          if has entry VMM_PAGE_PRESENT
          then protect_loop fuel o address_space next end_ flags populate (write_entry pt index (vmm_page_prot entry flags (nx_enabled s)) s)
          else fill s
      | None => fill s
      end
  end.
(** [src/mm/vmm.c:749-784] vmm_protect_range *)
Definition vmm_protect_range (o : oom) (address_space virtual_address page_count flags : Z) (populate : bool) s : bool * vmm D :=
  if negb (range_valid address_space virtual_address page_count s) then (false, s) else
  protect_loop (Z.to_nat page_count) o address_space virtual_address (u64 (virtual_address + page_count * PMM_PAGE_SIZE)) flags populate s.

(** [src/mm/vmm.c:786-803] vmm_page_flags *)
Definition vmm_page_flags (address_space virtual_address : Z) s : Z :=
  if negb (range_valid address_space (page_base virtual_address) 1 s) then 0 else
  match user_slot_locked address_space (page_base virtual_address) s with
  | Some (pt, index) =>
      let entry := read_entry pt index s in
      if negb (has entry (Z.lor VMM_PAGE_PRESENT VMM_PAGE_SWAPENT)) then 0 else
      let result := Z.lor VMM_PAGE_PRESENT (Z.land entry (Z.lor VMM_PAGE_USER VMM_PAGE_NX)) in
      if has entry (Z.lor VMM_PAGE_WRITABLE VMM_PAGE_COW) then Z.lor result VMM_PAGE_WRITABLE else result
  | None => 0
  end.

(** [src/mm/vmm.c:499-505] vmm_create_address_space *)
Definition vmm_create_address_space s : Z * vmm D := vmm_create_address_space_locked s.
(** [src/mm/vmm.c:507-512] vmm_destroy_address_space *)
Definition vmm_destroy_address_space (address_space : Z) s : vmm D := vmm_destroy_address_space_locked address_space s.
End vmm.
