(* ===== verification/PageEntry.v ===== *)
(** * Entries of page tables

    The bits of the entries that the operations of [Vmm] make, and a frame as an
    array of entries. *)

From S2P Require Import Prelude Pmm Oom Swap Vmm.

(** ** Bits *)

Notation addr e := (Z.land e PAGE_ADDRESS_MASK).
(** Addresses of frames: multiples of 4096 below 2^52. *)
Definition is_frame (f : Z) : Prop := 0 ≤ f < 2 ^ 52 ∧ f mod 4096 = 0.

Lemma has_bit e k : 0 ≤ k → has e (2 ^ k) = Z.testbit e k.
Proof. intros. unfold has. rewrite land_pow2 by done. destruct (Z.testbit e k); [|done]. apply negb_true_iff, Z.eqb_neq. lia. Qed.
Lemma without_bit e m k : 0 ≤ k < 64 → Z.testbit (without e m) k = Z.testbit e k && negb (Z.testbit m k).
Proof.
  intros. unfold without, u64. rewrite Z.land_spec, Z.mod_pow2_bits_low, Z.lnot_spec by lia. done.
Qed.
Lemma frame_low_bit f k : is_frame f → 0 ≤ k < 12 → Z.testbit f k = false.
Proof.
  intros [_ E] ?. rewrite (Z.div_mod f 4096), E, Z.add_0_r, Z.mul_comm by lia. change 4096 with (2 ^ 12).
  rewrite Z.mul_pow2_bits by lia. by rewrite Z.testbit_neg_r by lia.
Qed.
Lemma frame_high_bit f k : is_frame f → 52 ≤ k → Z.testbit f k = false.
Proof.
  intros [R _] ?. destruct (Z.eq_dec f 0) as [->|]; [apply Z.testbit_0_l|]. apply Z.bits_above_log2; [lia|].
  apply (Z.lt_le_trans _ 52); [|done]. apply Z.log2_lt_pow2; lia.
Qed.
Lemma mask_bit k : 0 ≤ k → Z.testbit PAGE_ADDRESS_MASK k = (12 <=? k) && (k <? 52).
Proof.
  intros. change PAGE_ADDRESS_MASK with (Z.ones 40 ≪ 12). rewrite Z.shiftl_spec by done.
  destruct (Z.leb_spec 12 k); [|by rewrite Z.testbit_neg_r by lia]. rewrite Z.testbit_ones by lia.
  destruct (Z.leb_spec 0 (k - 12)), (Z.ltb_spec (k - 12) 40), (Z.ltb_spec k 52); done || lia.
Qed.
Lemma addr_frame f : is_frame f → addr f = f.
Proof.
  intros F. apply Z.bits_inj'. intros k Hk. rewrite Z.land_spec, mask_bit by done.
  destruct (Z.leb_spec 12 k); [|by rewrite frame_low_bit by (done || lia)].
  destruct (Z.ltb_spec k 52); [by rewrite andb_true_r|by rewrite frame_high_bit by (done || lia)].
Qed.
Lemma addr_is_frame e : is_frame (addr e).
Proof.
  assert (0 ≤ addr e) as Z0 by (apply Z.land_nonneg; by right). split; [split; [done|]|].
  - destruct (Z.eq_dec (addr e) 0) as [->|]; [done|]. apply Z.log2_lt_pow2; [lia|]. apply Z.nle_gt. intros L.
    assert (Z.testbit (addr e) (Z.log2 (addr e)) = true) as T by (apply Z.bit_log2; lia).
    rewrite Z.land_spec, mask_bit in T by (apply Z.log2_nonneg). destruct (Z.ltb_spec (Z.log2 (addr e)) 52); [lia|]. rewrite !andb_false_r in T. done.
  - change 4096 with (2 ^ 12). rewrite <- Z.land_ones, <- Z.land_assoc by done. change (Z.land PAGE_ADDRESS_MASK (Z.ones 12)) with 0. apply Z.land_0_r.
Qed.

Lemma is_u64_land_l a b : is_u64 a → is_u64 (Z.land a b).
Proof.
  intros [A B]. split; [apply Z.land_nonneg; by left|]. destruct (Z.eq_dec (Z.land a b) 0) as [->|]; [lia|].
  apply Z.log2_lt_pow2. { assert (0 ≤ Z.land a b) by (apply Z.land_nonneg; by left). lia. }
  apply Z.nle_gt. intros L. assert (Z.testbit (Z.land a b) (Z.log2 (Z.land a b)) = true) as T.
  { apply Z.bit_log2. assert (0 ≤ Z.land a b) by (apply Z.land_nonneg; by left). lia. }
  rewrite Z.land_spec in T. apply andb_true_iff in T as [T _]. destruct (Z.eq_dec a 0) as [->|]; [by rewrite Z.testbit_0_l in T|].
  rewrite Z.bits_above_log2 in T; [done|done|]. apply (Z.lt_le_trans _ 64); [|done]. apply Z.log2_lt_pow2; lia.
Qed.
Lemma is_u64_land_r a b : is_u64 b → is_u64 (Z.land a b).
Proof. rewrite Z.land_comm. apply is_u64_land_l. Qed.
Lemma is_u64_lor a b : is_u64 a → is_u64 b → is_u64 (Z.lor a b).
Proof.
  intros [A A'] [B B']. split; [by apply Z.lor_nonneg|]. destruct (Z.eq_dec (Z.lor a b) 0) as [->|]; [lia|].
  assert (0 ≤ Z.lor a b) by (by apply Z.lor_nonneg). apply Z.log2_lt_pow2; [lia|]. rewrite Z.log2_lor by done.
  apply Z.max_lub_lt; [destruct (Z.eq_dec a 0) as [->|]|destruct (Z.eq_dec b 0) as [->|]]; try done; apply Z.log2_lt_pow2; lia.
Qed.
Lemma is_u64_without e m : is_u64 (without e m).
Proof. apply is_u64_land_r, u64_range. Qed.
Lemma is_u64_frame f : is_frame f → is_u64 f.
Proof. intros [? _]. unfold is_u64. lia. Qed.
Lemma is_u64_pow k : 0 ≤ k < 64 → is_u64 (2 ^ k).
Proof. intros. split; [apply Z.pow_nonneg; lia|]. apply Z.pow_lt_mono_r; lia. Qed.

Create HintDb entry.
#[export] Hint Resolve is_u64_lor is_u64_land_r is_u64_without is_u64_frame addr_is_frame : entry.

(** The bits of numbers that are written out. *)
Ltac closed_bits :=
  repeat match goal with
  | |- context [Z.testbit ?c ?k] =>
      let b := eval vm_compute in (Z.testbit c k) in
      lazymatch b with
      | true => change (Z.testbit c k) with true
      | false => change (Z.testbit c k) with false
      end
  end.
Ltac closed_land :=
  repeat match goal with
  | |- context [Z.land ?a ?b] =>
      let c := eval vm_compute in (Z.land a b) in
      lazymatch c with
      | Z0 => change (Z.land a b) with Z0
      | Zpos ?p => lazymatch b with
                   | _ => progress change (Z.land a b) with c
                   end
      end
  end.
(** [flag_bits] computes a flag of an entry from those of the entries it is made of. *)
Ltac flag_bits :=
  unfold VMM_PAGE_PRESENT, VMM_PAGE_WRITABLE, VMM_PAGE_USER, VMM_PAGE_COW, VMM_PAGE_SWAPENT, VMM_PAGE_ANON, VMM_PAGE_NX, VMM_PAGE_ACCESSED in *;
  rewrite ?has_bit in * by done;
  rewrite ?Z.lor_spec, ?Z.land_spec, ?without_bit by done; rewrite ?frame_low_bit by (done || lia); rewrite ?frame_high_bit by (done || lia);
  closed_bits; cbn [negb]; rewrite ?orb_false_r, ?orb_true_r, ?andb_true_r, ?andb_false_r, ?orb_false_l, ?andb_false_l, ?andb_true_l, ?orb_true_l.

(** The address in an entry that is made of parts. *)
Lemma addr_lor a b : addr (Z.lor a b) = Z.lor (addr a) (addr b).
Proof. apply Z.land_lor_distr_l. Qed.
Lemma addr_flags e m : Z.land m PAGE_ADDRESS_MASK = 0 → addr (Z.land e m) = 0.
Proof. intros E. by rewrite <- Z.land_assoc, E, Z.land_0_r. Qed.
Lemma addr_kept e m : Z.land m PAGE_ADDRESS_MASK = 0 → addr (without e m) = addr e.
Proof.
  intros E. apply Z.bits_inj'. intros k Hk. rewrite !Z.land_spec, mask_bit by done.
  destruct (Z.leb_spec 12 k); [|by rewrite !andb_false_r]. destruct (Z.ltb_spec k 52); [|by rewrite !andb_false_r].
  rewrite without_bit by lia. assert (Z.testbit (Z.land m PAGE_ADDRESS_MASK) k = false) as T by (rewrite E; apply Z.testbit_0_l).
  rewrite Z.land_spec, mask_bit in T by done. destruct (Z.leb_spec 12 k), (Z.ltb_spec k 52); try lia. rewrite !andb_true_r in *. rewrite T. by rewrite andb_true_r.
Qed.
Lemma addr_dropped e m : Z.land m PAGE_ADDRESS_MASK = PAGE_ADDRESS_MASK → addr (without e m) = 0.
Proof.
  intros E. apply Z.bits_inj'. intros k Hk. rewrite Z.testbit_0_l, Z.land_spec, mask_bit by done.
  destruct (Z.leb_spec 12 k); [|by rewrite !andb_false_r]. destruct (Z.ltb_spec k 52); [|by rewrite !andb_false_r].
  rewrite without_bit by lia. assert (Z.testbit (Z.land m PAGE_ADDRESS_MASK) k = true) as T.
  { rewrite E, mask_bit by done. destruct (Z.leb_spec 12 k), (Z.ltb_spec k 52); done || lia. }
  rewrite Z.land_spec in T. apply andb_true_iff in T as [-> _]. by rewrite andb_false_r.
Qed.
(** [entry_addr] computes the address of an entry. *)
Ltac entry_addr :=
  unfold VMM_PAGE_PRESENT, VMM_PAGE_WRITABLE, VMM_PAGE_USER, VMM_PAGE_COW, VMM_PAGE_SWAPENT, VMM_PAGE_ANON, VMM_PAGE_NX, VMM_PAGE_ACCESSED;
  rewrite ?addr_lor; rewrite ?(addr_frame (addr _)) by apply addr_is_frame;
  rewrite ?addr_kept by reflexivity; rewrite ?addr_dropped by reflexivity; rewrite ?addr_flags by reflexivity; rewrite ?addr_frame by done;
  rewrite ?(addr_frame 0) by done;
  repeat match goal with |- context [addr (2 ^ ?k)] => change (addr (2 ^ k)) with 0 end; rewrite ?Z.lor_0_l, ?Z.lor_0_r.

(** ** A frame as entries *)

Definition is_page (page : list Z) : Prop := length page = 4096%nat ∧ Forall is_u8 page.
Definition le_value (bytes : list Z) : Z := foldr (λ b v, b + 256 * v) 0 bytes.

Lemma is_page_zero : is_page zero_page.
Proof. split; [done|]. apply Forall_replicate. unfold is_u8. lia. Qed.
Lemma word_bytes_u8 v : Forall is_u8 (word_bytes v).
Proof. unfold word_bytes. repeat constructor; apply u8_range. Qed.
Lemma le_value_range bytes : Forall is_u8 bytes → 0 ≤ le_value bytes < 256 ^ Z.of_nat (length bytes).
Proof.
  induction 1 as [|b l B L IH]; [done|]. cbn [length le_value foldr]. fold (le_value l). rewrite Nat2Z.inj_succ, Z.pow_succ_r by lia. unfold is_u8 in B. lia.
Qed.
Lemma le_value_word v : is_u64 v → le_value (word_bytes v) = v.
Proof.
  intros R. assert (∀ n v, 0 ≤ v < 256 ^ Z.of_nat n → le_value (map (λ k, v / 256 ^ Z.of_nat k mod 256) (seq 0 n)) = v) as D.
  { clear. induction n as [|n IH]; intros v R; [cbn in *; lia|]. rewrite <- cons_seq, <- fmap_S_seq, map_cons. cbn [le_value foldr].
    fold (le_value (map (λ k, v / 256 ^ Z.of_nat k mod 256) (S <$> seq 0 n))). change (S <$> seq 0 n) with (map S (seq 0 n)). rewrite map_map.
    rewrite (map_ext (λ k, v / 256 ^ Z.of_nat (S k) mod 256) (λ k, v / 256 / 256 ^ Z.of_nat k mod 256)).
    2:{ intros k. rewrite Nat2Z.inj_succ, Z.pow_succ_r by lia. by rewrite Z.div_div by lia. }
    rewrite Nat2Z.inj_succ, Z.pow_succ_r in R by lia. rewrite IH by (split; [apply Z.div_pos; lia|apply Z.div_lt_upper_bound; lia]).
    change (256 ^ Z.of_nat 0) with 1. rewrite Z.div_1_r. pose proof (Z.div_mod v 256). lia. }
  specialize (D 8%nat v R). rewrite <- D at 2. f_equal. unfold word_bytes, u8. cbn [map seq]. by rewrite !Z.shiftr_div_pow2 by lia.
Qed.

Lemma word_at_range page i : is_page page → is_u64 (word_at page i).
Proof.
  intros [L B]. change (is_u64 (le_value (take 8 (drop (Z.to_nat (8 * i)) page)))).
  assert (Forall is_u8 (take 8 (drop (Z.to_nat (8 * i)) page))) as F by (by apply Forall_take, Forall_drop).
  pose proof (le_value_range _ F) as R. split; [lia|]. apply (Z.lt_le_trans _ (256 ^ Z.of_nat (length (take 8 (drop (Z.to_nat (8 * i)) page))))); [lia|].
  apply (Z.le_trans _ (256 ^ 8)); [|done]. apply Z.pow_le_mono_r; [lia|]. rewrite length_take. lia.
Qed.
Lemma is_page_put page i v : is_page page → 0 ≤ i < 512 → is_page (put_word page i v).
Proof.
  intros [L B] ?. unfold put_word. split.
  - rewrite !length_app, length_take, length_drop. cbn [length word_bytes map]. lia.
  - apply Forall_app. split; [by apply Forall_take|]. apply Forall_app. split; [apply word_bytes_u8|by apply Forall_drop].
Qed.
Lemma word_at_put page i j v : is_page page → 0 ≤ i < 512 → 0 ≤ j < 512 → is_u64 v → word_at (put_word page i v) j = if i =? j then v else word_at page j.
Proof.
  intros [L _] Hi Hj Hv.
  change (le_value (take 8 (drop (Z.to_nat (8 * j)) (put_word page i v))) = if i =? j then v else le_value (take 8 (drop (Z.to_nat (8 * j)) page))).
  unfold put_word. destruct (Z.eqb_spec i j) as [->|N].
  - rewrite drop_app_ge by (rewrite length_take; lia). rewrite length_take. replace (_ - _)%nat with 0%nat by lia.
    rewrite drop_0, take_app_le by done. rewrite take_ge by done. by apply le_value_word.
  - f_equal. apply list_eq. intros k. rewrite !lookup_take. case_decide as K; [|done]. rewrite !lookup_drop.
    destruct (Z.lt_ge_cases i j).
    + rewrite lookup_app_r by (rewrite length_take; lia). rewrite lookup_app_r by (rewrite length_take; cbn [length word_bytes map]; lia).
      rewrite lookup_drop, length_take. cbn [length word_bytes map]. f_equal. lia.
    + rewrite lookup_app_l by (rewrite length_take; lia). by rewrite lookup_take_lt by lia.
Qed.

Lemma word_at_zero i : 0 ≤ i < 512 → word_at zero_page i = 0.
Proof.
  intros. unfold word_at, zero_page. change (Z.to_nat PMM_PAGE_SIZE) with 4096%nat. rewrite drop_replicate, take_replicate.
  generalize (8 `min` (4096 - Z.to_nat (8 * i)))%nat. intros n. induction n as [|n IH]; [done|]. cbn [replicate foldr]. rewrite IH. lia.
Qed.

(** ** The entries that are made *)

Definition present (e : Z) : bool := has e VMM_PAGE_PRESENT.
(** An entry of the last level that stands for a page. *)
Definition in_use (e : Z) : bool := has e VMM_PAGE_PRESENT || has e VMM_PAGE_SWAPENT.
(** What a process may do with a page: reach it, run it, write to it (at once or after a copy). *)
Record rights := Rights { r_user : bool; r_noexec : bool; r_write : bool }.
Definition rights_of (e : Z) : rights :=
  Rights (has e VMM_PAGE_USER) (has e VMM_PAGE_NX) (has e VMM_PAGE_WRITABLE || has e VMM_PAGE_COW).

Lemma in_use_or e : has e (Z.lor VMM_PAGE_PRESENT VMM_PAGE_SWAPENT) = in_use e.
Proof.
  unfold in_use, has. rewrite Z.land_lor_distr_r. rewrite <- negb_andb. f_equal.
  destruct (Z.eqb_spec (Z.land e VMM_PAGE_PRESENT) 0) as [->|N].
  - by rewrite Z.lor_0_l.
  - destruct (Z.eqb_spec (Z.lor (Z.land e VMM_PAGE_PRESENT) (Z.land e VMM_PAGE_SWAPENT)) 0) as [E|]; [|done]. by apply Z.lor_eq_0_iff in E as [? _].
Qed.
(** Two flags at once: [a <> b] are numbers of bits. *)
Lemma both_bits e a b : 0 ≤ a → 0 ≤ b → a ≠ b → (Z.land e (Z.lor (2 ^ a) (2 ^ b)) =? Z.lor (2 ^ a) (2 ^ b)) = Z.testbit e a && Z.testbit e b.
Proof.
  intros A B N. apply eq_true_iff_eq. rewrite Z.eqb_eq, andb_true_iff. split.
  - intros E. split; [apply (f_equal (λ x, Z.testbit x a)) in E|apply (f_equal (λ x, Z.testbit x b)) in E];
      rewrite Z.land_spec, Z.lor_spec, !Z.pow2_bits_eqb, Z.eqb_refl in E by done; rewrite ?orb_true_r, ?orb_true_l, andb_true_r in E; done.
  - intros [Ea Eb]. apply Z.bits_inj'. intros k Hk. rewrite Z.land_spec, Z.lor_spec, !Z.pow2_bits_eqb by done.
    destruct (Z.eqb_spec a k) as [->|], (Z.eqb_spec b k) as [->|]; rewrite ?Ea, ?Eb, ?andb_false_r; done.
Qed.
Lemma is_swapped_bits e : is_swapped e = negb (present e) && has e VMM_PAGE_SWAPENT.
Proof.
  unfold is_swapped, present, VMM_PAGE_PRESENT, VMM_PAGE_SWAPENT. rewrite !has_bit by done. rewrite Z.land_lor_distr_r, !land_pow2 by done.
  by destruct (Z.testbit e 0), (Z.testbit e 10).
Qed.
Lemma writable_user e : (Z.land e (Z.lor VMM_PAGE_WRITABLE VMM_PAGE_USER) =? Z.lor VMM_PAGE_WRITABLE VMM_PAGE_USER) = has e VMM_PAGE_WRITABLE && has e VMM_PAGE_USER.
Proof. unfold VMM_PAGE_WRITABLE, VMM_PAGE_USER. rewrite !has_bit by done. by apply both_bits. Qed.
Lemma present_user e : (Z.land e (Z.lor VMM_PAGE_PRESENT VMM_PAGE_USER) =? Z.lor VMM_PAGE_PRESENT VMM_PAGE_USER) = has e VMM_PAGE_PRESENT && has e VMM_PAGE_USER.
Proof. unfold VMM_PAGE_PRESENT, VMM_PAGE_USER. rewrite !has_bit by done. by apply both_bits. Qed.
