(* ===== verification/PageForest.v ===== *)
(** * The trees of tables

    What the frames hold is told by a shape: which table of which space is where,
    which entries of the last level are in use, and which frames and slots an
    operation has in its hands while it runs.  A state has a shape when its tables
    are the tables of the shape, each frame and each slot is counted as often as it
    is used, and everything else is as it was. *)

From S2P Require Import Prelude Pmm Oom Swap Vmm PageEntry.

(** ** Disks *)

(** What the operations on sectors promise: what was written is read back, and nothing else
    changes. *)
Class DiskLaws (D : Type) `{Disk D} := {
  sector : D → Z → Z → list Z;
  write_others : ∀ dev lba buf n d ok d' dev' l, disk_write dev lba buf n d = (ok, d') → dev' ≠ dev ∨ l < lba ∨ lba + n ≤ l → sector d' dev' l = sector d dev' l;
  write_here : ∀ dev lba buf n d d' i, disk_write dev lba buf n d = (true, d') → Z.of_nat (length buf) = 512 * n → 0 ≤ i < n →
    sector d' dev (lba + i) = take 512 (drop (Z.to_nat (512 * i)) buf);
  read_keeps : ∀ dev lba buf n d ok buf' d' dev' l, disk_read dev lba buf n d = (ok, buf', d') → sector d' dev' l = sector d dev' l;
  read_bytes : ∀ dev lba buf n d ok buf' d', disk_read dev lba buf n d = (ok, buf', d') → Forall is_u8 buf → length buf' = length buf ∧ Forall is_u8 buf';
  read_here : ∀ dev lba buf n d buf' d', disk_read dev lba buf n d = (true, buf', d') → Z.of_nat (length buf) = 512 * n →
    buf' = concat (map (λ i, sector d dev (lba + i)) (seqZ 0 n));
}.

(** A table, or the entry that leads to it: the space, the level (4 for the root, 0
    for a page) and the number among those of its level. *)
Abbreviation key := (Z * nat * Z)%type.
Definition level_of (k : key) : nat := k.1.2.
Definition parent (k : key) : key := (k.1.1, S k.1.2, k.2 / 512).
Definition idx (k : key) : Z := k.2 mod 512.
(** How many there are of a level below [USER_TOP]. *)
Definition top (level : nat) : Z := 2 ^ (35 - 9 * Z.of_nat level).
Definition slot_key (k : key) : Prop := (level_of k ≤ 3)%nat ∧ 0 ≤ k.2 < top (level_of k).
Definition table_key (k : key) : Prop := (1 ≤ level_of k)%nat ∧ slot_key k ∨ level_of k = 4%nat ∧ k.2 = 0.

(** [loose]: tables that no entry leads to yet, or no longer; [gone]: entries that count as
    empty although the table is not written any more; [held], [held_slots]: frames and
    slots of which the running operation has a count. *)
Record shape := Shape {
  tabs : gmap key Z;
  leaves : gmap key Z;
  loose : gset key;
  gone : gset key;
  held : list Z;
  held_slots : list Z;
}.
#[export] Instance eta_shape : Eta shape := λ g, Shape (tabs g) (leaves g) (loose g) (gone g) (held g) (held_slots g).

(** ** Counting *)

Definition leaf_frame (e : Z) : option Z := if present e then Some (addr e) else None.
Definition leaf_slot (e : Z) : option Z := if present e then None else Some (SWAP_SLOT_OF e).
Definition uses (f : Z → option Z) (x : Z) (m : gmap key Z) : nat := size (filter (λ p, f p.2 = Some x) m).
Definition copies (x : Z) (l : list Z) : nat := length (filter (x =.) l).
Definition one (P : Prop) `{Decision P} : nat := if decide P then 1 else 0.
Definition frefs (g : shape) (f : Z) : nat := uses leaf_frame f (leaves g) + copies f (held g).
Definition srefs (g : shape) (id : Z) : nat := uses leaf_slot id (leaves g) + copies id (held_slots g).

Lemma uses_insert f x m k e : m !! k = None → uses f x (<[k := e]> m) = (one (f e = Some x) + uses f x m)%nat.
Proof.
  intros N. unfold uses, one. rewrite map_filter_insert. cbn [snd]. case_decide as E.
  - rewrite map_size_insert_None; [done|]. apply map_lookup_filter_None. by left.
  - by rewrite delete_id.
Qed.
Lemma uses_delete f x m k e : m !! k = Some e → uses f x m = (one (f e = Some x) + uses f x (delete k m))%nat.
Proof. intros E. rewrite <- (uses_insert f x (delete k m) k e) by apply lookup_delete_eq. by rewrite insert_delete_id. Qed.
Lemma uses_replace f x m k e e' : m !! k = Some e → (uses f x (<[k := e']> m) + one (f e = Some x) = uses f x m + one (f e' = Some x))%nat.
Proof.
  intros E. rewrite (uses_delete f x m k e E), <- insert_delete_eq, (uses_insert f x (delete k m) k e') by apply lookup_delete_eq. lia.
Qed.
Lemma uses_pos f x m : (0 < uses f x m)%nat ↔ ∃ k e, m !! k = Some e ∧ f e = Some x.
Proof.
  unfold uses. split.
  - intros L. destruct (map_choose (filter (λ p : key * Z, f p.2 = Some x) m)) as (k&e&E).
    { intros N. rewrite N, map_size_empty in L. lia. }
    apply map_lookup_filter_Some in E as [E1 E2]. eauto.
  - intros (k&e&E1&E2). destruct (size _) eqn:N; [|lia]. apply map_size_empty_inv in N.
    assert (filter (λ p : key * Z, f p.2 = Some x) m !! k = Some e) as F by (by apply map_lookup_filter_Some). by rewrite N in F.
Qed.
Lemma copies_cons x y l : copies x (y :: l) = (one (x = y) + copies x l)%nat.
Proof. unfold copies, one. rewrite filter_cons. by case_decide. Qed.
Lemma copies_perm x l l' : l ≡ₚ l' → copies x l = copies x l'.
Proof. unfold copies. intros P. by rewrite P. Qed.
Lemma copies_app x l l' : copies x (l ++ l') = (copies x l + copies x l')%nat.
Proof. unfold copies. by rewrite filter_app, length_app. Qed.
Lemma one_true P `{Decision P} : P → one P = 1%nat.
Proof. intros. unfold one. by rewrite decide_True. Qed.
Lemma one_false P `{Decision P} : ¬ P → one P = 0%nat.
Proof. intros. unfold one. by rewrite decide_False. Qed.
Lemma one_bound P `{Decision P} : (one P ≤ 1)%nat.
Proof. unfold one. case_decide; lia. Qed.

(** ** A state and its shape *)

Section forest.
Context {D : Type}.
Implicit Types (s : vmm D) (g : shape) (B : gmap Z (option (list Z) * Z)).

(** The entry at a key. *)
Definition slot s g (k : key) : Z :=
  if decide (k ∈ gone g) then 0 else match tabs g !! parent k with Some t => read_entry t (idx k) s | None => 0 end.

Record tree s g : Prop := {
  tr_key : ∀ k t, tabs g !! k = Some t → table_key k ∧ (level_of k = 4%nat → t = k.1.1);
  tr_inj : ∀ k k' t, tabs g !! k = Some t → tabs g !! k' = Some t → k = k';
  tr_link : ∀ k, slot_key k → (1 ≤ level_of k)%nat → present (slot s g k) = true → tabs g !! k = Some (addr (slot s g k)) ∧ k ∉ loose g;
  tr_child : ∀ k t, tabs g !! k = Some t → (level_of k ≤ 3)%nat → k ∉ loose g → present (slot s g k) = true;
  tr_leaf : ∀ k, slot_key k → level_of k = 0%nat → leaves g !! k = if in_use (slot s g k) then Some (slot s g k) else None;
  tr_leaf_key : ∀ k e, leaves g !! k = Some e → slot_key k ∧ level_of k = 0%nat;
}.

Definition managed s (f : Z) : Prop := f mod 4096 = 0 ∧ 1 ≤ f / 4096 < frame_limit (pm s).
Definition is_table g (f : Z) : Prop := ∃ k, tabs g !! k = Some f.

(** [B]: the frames that others use, with what they hold and how often they are shared. *)
Record frames B s g : Prop := {
  fr_pmm : pmm_wf (pm s);
  fr_free : ∀ n, 1 ≤ n < frame_limit (pm s) → frame_is_used (pm s) n = false → shares (pm s) n = 0;
  fr_table : ∀ f, is_table g f → managed s f ∧ frame_is_used (pm s) (f / 4096) = true ∧ shares (pm s) (f / 4096) = 0 ∧ frefs g f = 0%nat;
  fr_data : ∀ f, (0 < frefs g f)%nat → managed s f ∧ frame_is_used (pm s) (f / 4096) = true ∧ Z.of_nat (frefs g f) = 1 + shares (pm s) (f / 4096);
  fr_page : ∀ f, is_table g f ∨ (0 < frefs g f)%nat → is_page (page_bytes s f);
  fr_base : ∀ n pg c, B !! n = Some (pg, c) → 1 ≤ n < frame_limit (pm s) ∧
    frame_is_used (pm s) n = true ∧ ram (pm s) !! n = pg ∧ shares (pm s) n = c ∧ ¬ is_table g (n * 4096) ∧ frefs g (n * 4096) = 0%nat;
  fr_all : ∀ n, 1 ≤ n < frame_limit (pm s) → frame_is_used (pm s) n = true → is_Some (B !! n) ∨ is_table g (n * 4096) ∨ (0 < frefs g (n * 4096))%nat;
  fr_kernel : managed s (kernel_address_space s) → is_Some (B !! (kernel_address_space s / 4096));
}.

(** Each slot in use is counted, as far as a byte can count. *)
Record slots s g : Prop := {
  sl_on : swap_on (sw s) = true → 2 ≤ swap_pages (sw s) ≤ SWAP_MAX_PAGES;
  sl_cursor : 0 ≤ swap_cursor (sw s);
  sl_used : ∀ id, (0 < srefs g id)%nat → swap_on (sw s) = true ∧ 0 < id < swap_pages (sw s);
  sl_refs : ∀ id, 0 < id < swap_pages (sw s) →
    slot_refs (sw s) id = Z.of_nat (srefs g id) ∧ (srefs g id < 255)%nat ∨ slot_refs (sw s) id = 255 ∧ (srefs g id ≤ 255)%nat;
}.

Record ok B s g : Prop := {
  ok_tree : tree s g;
  ok_frames : frames B s g;
  ok_slots : slots s g;
}.

(** ** What the parts depend on *)

Lemma tree_ext s s' g : (∀ k, slot s' g k = slot s g k) → tree s g → tree s' g.
Proof.
  intros E []. split; try done.
  - intros k. rewrite E. auto.
  - intros k t. rewrite E. eauto.
  - intros k. rewrite E. auto.
Qed.
Lemma tree_held s g h : tree s g → tree s (g <| held := h |>).
Proof. by intros []. Qed.
Lemma tree_held_slots s g h : tree s g → tree s (g <| held_slots := h |>).
Proof. by intros []. Qed.
(** The tables are the same, and so is what they hold. *)
Definition same_tables s s' g : Prop := ∀ f, is_table g f → page_bytes s' f = page_bytes s f.
Lemma slot_tables s s' g k : same_tables s s' g → slot s' g k = slot s g k.
Proof. intros E. unfold slot. destruct (decide _); [done|]. destruct (tabs g !! parent k) as [t|] eqn:T; [|done]. unfold read_entry. by rewrite E by (by exists (parent k)). Qed.
Lemma tree_same s s' g : same_tables s s' g → tree s g → tree s' g.
Proof. intros E. apply tree_ext. intros k. by apply slot_tables. Qed.

Lemma frames_refs B s g g' : (∀ f, frefs g' f = frefs g f) → tabs g' = tabs g → frames B s g → frames B s g'.
Proof.
  intros R T []. assert (∀ f, is_table g' f ↔ is_table g f) as I by (intros f; unfold is_table; by rewrite T).
  split; try done.
  - intros f. rewrite I, R. auto.
  - intros f. rewrite R. auto.
  - intros f. rewrite I, R. auto.
  - intros n pg c. rewrite I, R. auto.
  - intros n. rewrite I, R. auto.
Qed.
Lemma slots_refs s g g' : (∀ id, srefs g' id = srefs g id) → slots s g → slots s g'.
Proof. intros R []. split; try done; intros id; rewrite R; auto. Qed.
Lemma slots_same s s' g : sw s' = sw s → slots s g → slots s' g.
Proof. intros E []. split; rewrite E; done. Qed.

(** ** What the processes see *)

Context `{DiskLaws D}.

(** The sectors of a slot. *)
Definition slot_lba (w : swap) (id : Z) : Z := u32 (swap_start w + id * SWAP_PAGE_SECTORS).
Definition disk_page s (id : Z) : list Z := concat (map (λ i, sector (disk s) (swap_device (sw s)) (slot_lba (sw s) id + i)) (seqZ 0 8)).
(** The bytes of a page, wherever it is, and what its process may do with it. *)
Definition content s (e : Z) : list Z := if present e then page_bytes s (addr e) else disk_page s (SWAP_SLOT_OF e).
Definition page_of s (e : Z) : list Z * rights := (content s e, rights_of e).
Definition view s g : gmap key (list Z * rights) := page_of s <$> leaves g.

(** The statics that the page tables do not depend on. *)
Definition outer s := (kernel_address_space s, nx_enabled s, vmm_spaces s, vmm_space_count s, swap_cursor_space s, swap_cursor_address s, swap_pause_count s).

Lemma view_ext s s' g : (∀ k e, leaves g !! k = Some e → page_of s' e = page_of s e) → view s' g = view s g.
Proof. intros E. apply map_fmap_ext. auto. Qed.
Lemma view_same s s' g : (∀ f, (0 < frefs g f)%nat → page_bytes s' f = page_bytes s f) → sw s' = sw s → disk s' = disk s → view s' g = view s g.
Proof.
  intros P W E. apply view_ext. intros k e L. unfold page_of, content, disk_page. rewrite W, E. destruct (present e) eqn:Pe; [|done]. rewrite P; [done|].
  assert (0 < uses leaf_frame (addr e) (leaves g))%nat as U by (apply uses_pos; exists k, e; split; [done|]; unfold leaf_frame; by rewrite Pe).
  unfold frefs. lia.
Qed.
End forest.
