(* ===== verification/PageMoves.v ===== *)
(** * The small steps of the operations on address spaces

    A frame is taken, shared or given back, a count of a frame or a slot passes between the
    hands of an operation and an entry, an entry is written, a table is hung into a tree
    or out of it: what each does to a state that has a shape. *)

From S2P Require Import Prelude Pmm Oom Swap Vmm PageEntry PageForest.

(** ** Frames of the allocator *)

Lemma shares_range p n : pmm_wf p → 0 ≤ shares p n < 65536.
Proof.
  intros W. unfold shares. destruct (frame_refs p) as [refs|] eqn:R; [|lia]. unfold ref_count. destruct (refs !! n) eqn:L; [|done].
  by apply (wf_refs p W refs n).
Qed.
Lemma frame_number f : f mod 4096 = 0 → f / 4096 * 4096 = f.
Proof. intros. pose proof (Z.div_mod f 4096). lia. Qed.

Record freed (p t : pmm) (n : Z) : Prop := {
  fd_wf : pmm_wf t;
  fd_limit : frame_limit t = frame_limit p;
  fd_ram : ram t = ram p;
  fd_others : ∀ g, 1 ≤ g → g ≠ n → frame_is_used t g = frame_is_used p g ∧ shares t g = shares p g;
  fd_last : shares p n = 0 → frame_is_used t n = false ∧ shares t n = 0;
  fd_shared : shares p n ≠ 0 → frame_is_used t n = true ∧ shares t n = shares p n - 1;
}.
Lemma free_page_freed p f : pmm_wf p → f mod 4096 = 0 → 1 ≤ f / 4096 < frame_limit p → frame_is_used p (f / 4096) = true →
  freed p (pmm_free_page f p) (f / 4096).
Proof.
  intros W A R U. pose proof (shares_range p (f / 4096) W) as Rs. assert (pmm_wf (pmm_free_page f p)) as Wt.
  { apply free_page_wf; [done|]. pose proof (frame_number f A). lia. }
  unfold pmm_free_page, pmm_free_page_locked in *. change (PMM_PAGE_SIZE - 1) with (Z.ones 12) in *. rewrite Z.land_ones in * by lia.
  change (2 ^ 12) with 4096 in *. rewrite A in *. cbn [Z.eqb negb] in *. change PMM_PAGE_SIZE with 4096 in *. set (n := f / 4096) in *.
  rewrite U in *. destruct (Z.eqb_spec n 0), (Z.leb_spec (frame_limit p) n); try lia. cbn [orb negb] in *.
  assert (∀ g, 1 ≤ g → g ≠ n → frame_is_used (release_frame n p) g = frame_is_used p g) as Ur.
  { intros g ??. rewrite used_release by lia. by destruct (Z.eqb_spec n g). }
  assert (frame_is_used (release_frame n p) n = false) as Un by (by rewrite used_release, Z.eqb_refl by lia).
  assert (ram (release_frame n p) = ram p) as Er. { unfold release_frame. cbv zeta. destruct (_ <? _). all: reflexivity. }
  destruct (release_fields p n) as (El&Ef&_).
  assert (∀ g, shares (release_frame n p) g = shares p g) as Es. { intros g. unfold shares. by rewrite Ef. }
  destruct (frame_refs p) as [refs|] eqn:Fr.
  - unfold shares in Rs. rewrite Fr in Rs. destruct (Z.eqb_spec (ref_count refs n) 0) as [E|E]; cbn [negb] in *.
    + assert (shares p n = 0) as Sn by (unfold shares; by rewrite Fr). split; try done; [intros g ??; by rewrite Ur by done|by rewrite Es].
    + split; try done; cbn.
      * intros g ??. split; [done|]. unfold shares. cbn. rewrite Fr. unfold ref_count. by rewrite lookup_insert_ne by done.
      * unfold shares. by rewrite Fr.
      * intros _. split; [done|]. unfold shares. cbn. rewrite Fr. unfold ref_count at 1. rewrite lookup_insert_eq. cbn. by rewrite u16_small by lia.
  - assert (shares p n = 0) as Sn by (unfold shares; by rewrite Fr). split; try done; [intros g ??; by rewrite Ur by done|by rewrite Es].
Qed.

Lemma frame_ref_shared p f t : pmm_wf p → 0 ≤ f → pmm_frame_ref f p = (true, t) →
  pmm_wf t ∧ frame_limit t = frame_limit p ∧ ram t = ram p ∧ (∀ g, frame_is_used t g = frame_is_used p g) ∧
  shares t (f / 4096) = shares p (f / 4096) + 1 ∧ ∀ g, g ≠ f / 4096 → shares t g = shares p g.
Proof.
  intros W Hf E. pose proof (frame_ref_wf f p W) as Wt. rewrite E in Wt. cbn in Wt. unfold pmm_frame_ref in E. change PMM_PAGE_SIZE with 4096 in E.
  destruct (frame_refs p) as [refs|] eqn:Fr; [|done]. destruct (_ && _) eqn:C in E; [|done]. injection E as <-. split; [done|]. split_and!; try done.
  - zify_bool. unfold UINT16_MAX in *. unfold shares. cbn. rewrite Fr. unfold ref_count at 1. rewrite lookup_insert_eq. cbn.
    pose proof (shares_range p (f / 4096) W) as Rs. unfold shares in Rs. rewrite Fr in Rs. by rewrite u16_small by lia.
  - intros g Ng. unfold shares. cbn. rewrite Fr. unfold ref_count. by rewrite lookup_insert_ne by done.
Qed.
Lemma frame_ref_refused p f t : pmm_frame_ref f p = (false, t) → t = p.
Proof. unfold pmm_frame_ref. destruct (frame_refs p); [|by intros [= <-]]. by destruct (_ && _); intros [= <-]. Qed.
Lemma frame_shared_shares p f : 1 ≤ f / 4096 < frame_limit p → pmm_frame_shared f p = shares p (f / 4096).
Proof.
  intros R. unfold pmm_frame_shared, shares. change PMM_PAGE_SIZE with 4096. destruct (frame_refs p); [|done].
  by destruct (Z.ltb_spec (f / 4096) (frame_limit p)); [|lia].
Qed.

Record taken (p t : pmm) (n : Z) : Prop := {
  tk_wf : pmm_wf t;
  tk_limit : frame_limit t = frame_limit p;
  tk_range : 1 ≤ n < frame_limit p;
  tk_free : frame_is_used p n = false;
  tk_used : ∀ g, 0 ≤ g → frame_is_used t g = (g =? n) || frame_is_used p g;
  tk_shares : ∀ g, shares t g = shares p g;
  tk_zero : ram t !! n = Some zero_page;
  tk_ram : ∀ g, g ≠ n → ram t !! g = ram p !! g;
}.
Lemma allocate_taken {D} (s s' : vmm D) f : pmm_wf (pm s) → allocate s = (f, s') →
  f = 0 ∧ s' = s ∨ ∃ n p, f = n * 4096 ∧ s' = s <| pm := p |> ∧ taken (pm s) p n.
Proof.
  intros W. unfold allocate. pose proof (allocate_page_outcome (pm s) W) as O. change (pmm_allocate_page_locked (pm s)) with (pmm_allocate_page (pm s)) in O.
  destruct O as [t n Rd A|F]; intros [= <- <-]; [right|left; by destruct s].
  exists n, t. split; [done|]. split; [done|]. destruct A as [Ar Af Au _ Az Ao (S1&S2&_) Aw]. split; try done; try lia.
  - specialize (Af 0 ltac:(lia)). by rewrite Z.add_0_r in Af.
  - intros g Hg. rewrite Au by done. f_equal. destruct (Z.leb_spec n g), (Z.ltb_spec g (n + 1)), (Z.eqb_spec g n); done || lia.
  - intros g. unfold shares. by rewrite S2.
  - apply Az. lia.
  - intros g Ng. apply Ao. lia.
Qed.

Section frames.
Context {D : Type}.
Implicit Types (s : vmm D) (g : shape) (B : gmap Z (option (list Z) * Z)).

Lemma frefs_held g l f : frefs (g <| held := l |>) f = (uses leaf_frame f (leaves g) + copies f l)%nat.
Proof. done. Qed.
Lemma frefs_cons g l f x : held g ≡ₚ x :: l → frefs g f = (one (f = x) + frefs (g <| held := l |>) f)%nat.
Proof. intros P. rewrite frefs_held. unfold frefs. rewrite (copies_perm f _ _ P), copies_cons. lia. Qed.
Lemma page_same s s' f : ram (pm s') !! (f / 4096) = ram (pm s) !! (f / 4096) → page_bytes s' f = page_bytes s f.
Proof. intros E. unfold page_bytes. change PMM_PAGE_SIZE with 4096. by rewrite E. Qed.
Lemma managed_ne s f n : managed s f → f ≠ n * 4096 → f / 4096 ≠ n.
Proof. intros [A _] N E. apply N. rewrite <- E. by rewrite frame_number. Qed.
Lemma managed_times n s : 1 ≤ n < frame_limit (pm s) → managed s (n * 4096).
Proof. intros R. split; [by rewrite Z.mod_mul|]. by rewrite Z.div_mul. Qed.
Lemma managed_frame B s g f : frames B s g → managed s f → is_frame f ∧ f ≠ 0.
Proof.
  intros F [A R]. pose proof (wf_limit _ (fr_pmm _ _ _ F)) as L. rewrite pmm_max_pages in L. pose proof (frame_number f A). split; [|lia].
  split; [lia|done].
Qed.

(** *** A new frame *)
Lemma taken_fresh B s g n p : frames B s g → taken (pm s) p n →
  ¬ is_table g (n * 4096) ∧ frefs g (n * 4096) = 0%nat ∧ B !! n = None ∧ kernel_address_space s ≠ n * 4096.
Proof.
  intros F T. pose proof (tk_free _ _ _ T) as U. pose proof (tk_range _ _ _ T) as R. assert (n * 4096 / 4096 = n) as En by (by apply Z.div_mul).
  assert (B !! n = None) as Bn.
  { destruct (B !! n) as [[pg c]|] eqn:E; [|done]. apply (fr_base _ _ _ F) in E. destruct E as (_&E&_). congruence. }
  split_and!; [| |done|].
  - intros I. apply (fr_table _ _ _ F) in I. rewrite En in I. destruct I as (_&I&_). congruence.
  - destruct (frefs g (n * 4096)) eqn:E; [done|]. assert (0 < frefs g (n * 4096))%nat as I by lia. apply (fr_data _ _ _ F) in I. rewrite En in I. destruct I as (_&I&_). congruence.
  - intros E. destruct (fr_kernel _ _ _ F) as [x X]; [rewrite E; by apply managed_times|]. rewrite E, En, Bn in X. done.
Qed.
Lemma frames_alloc B s g n p : frames B s g → taken (pm s) p n → frames B (s <| pm := p |>) (g <| held := n * 4096 :: held g |>).
Proof.
  intros F T. destruct (taken_fresh B s g n p F T) as (N1&N2&N3&N4). pose proof (tk_range _ _ _ T) as R.
  assert (n * 4096 / 4096 = n) as En by (by apply Z.div_mul).
  assert (∀ f, frefs (g <| held := n * 4096 :: held g |>) f = (one (f = (n * 4096)%Z) + frefs g f)%nat) as Er.
  { intros f. rewrite frefs_held, copies_cons. unfold frefs. lia. }
  assert (∀ f, f / 4096 ≠ n → page_bytes (s <| pm := p |>) f = page_bytes s f) as Ep by (intros f N; apply page_same; by apply (tk_ram _ _ _ T)).
  assert (∀ f, managed (s <| pm := p |>) f ↔ managed s f) as Em by (intros f; unfold managed; cbn; by rewrite (tk_limit _ _ _ T)).
  assert (∀ x, 0 ≤ x → frame_is_used (pm s) x = true → frame_is_used p x = true) as Eu.
  { intros x Hx Ux. rewrite (tk_used _ _ _ T) by done. rewrite Ux. apply orb_true_r. }
  destruct F as [F1 F2 F3 F4 F5 F6 F7 F8].
  split; cbn [pm kernel_address_space set_field].
  - apply T.
  - intros x Hx. rewrite (tk_limit _ _ _ T) in Hx. rewrite (tk_used _ _ _ T), (tk_shares _ _ _ T) by lia. destruct (x =? n); [done|]. by apply F2.
  - intros f I. rewrite Em. change (is_table g f) in I. destruct (F3 f I) as (A1&A2&A3&A4). rewrite (tk_shares _ _ _ T), Er, A4.
    split_and!; try done; [apply Eu; [destruct A1; lia|done]|]. rewrite one_false; [done|]. by intros ->.
  - intros f. rewrite Er, Em, (tk_shares _ _ _ T). destruct (decide (f = n * 4096)) as [->|N].
    + rewrite one_true, N2 by done. intros _. split_and!; [by apply managed_times|rewrite En, (tk_used _ _ _ T), Z.eqb_refl by lia; done|].
      rewrite En. rewrite F2; [lia|done|by apply T].
    + rewrite one_false by done. intros I. destruct (F4 f I) as (A1&A2&A3). split_and!; try done. apply Eu; [destruct A1; lia|done].
  - intros f. rewrite Er. intros I. destruct (decide (f = n * 4096)) as [->|N].
    + unfold page_bytes. change PMM_PAGE_SIZE with 4096. rewrite En. cbn [pm set_field]. rewrite (tk_zero _ _ _ T). apply is_page_zero.
    + rewrite one_false in I by done. change (is_table g f ∨ (0 < frefs g f)%nat) in I. rewrite Ep; [by apply F5|].
      apply (managed_ne s); [|done]. destruct I as [I|I]; [apply (F3 _ I)|apply (F4 _ I)].
  - intros x pg c Bx. destruct (F6 x pg c Bx) as (A1&A2&A3&A4&A5&A6). assert (x ≠ n) as Nx by congruence. rewrite (tk_limit _ _ _ T), (tk_shares _ _ _ T), Er, A6.
    split_and!; try done; try lia; [apply Eu; [lia|done]|by rewrite (tk_ram _ _ _ T)|]. rewrite one_false; [done|]. lia.
  - intros x. rewrite (tk_limit _ _ _ T). intros Hx. rewrite (tk_used _ _ _ T), Er by lia. destruct (Z.eqb_spec x n) as [->|N]; intros U.
    + right. right. rewrite one_true by done. lia.
    + destruct (F7 x Hx U) as [I|[I|I]]; [by left|right; left; exact I|right; right; lia].
  - intros M. apply Em in M. apply (F8 M).
Qed.

(** *** A count is given back *)
Lemma frames_free B s g f l : held g ≡ₚ f :: l → frames B s g → frames B (free_page f s) (g <| held := l |>).
Proof.
  intros P F. assert (0 < frefs g f)%nat as Pos by (rewrite (frefs_cons g l f f P), one_true by done; lia).
  destruct (fr_data _ _ _ F f Pos) as ([A R]&U&C). pose proof (free_page_freed (pm s) f (fr_pmm _ _ _ F) A R U) as E.
  assert (∀ x, frefs g x = (one (x = f) + frefs (g <| held := l |>) x)%nat) as Er by (intros x; by apply frefs_cons).
  set (g' := g <| held := l |>) in *. change (free_page f s) with (s <| pm := pmm_free_page f (pm s) |>). set (p := pmm_free_page f (pm s)) in *.
  assert (∀ x, managed (s <| pm := p |>) x ↔ managed s x) as Em by (intros x; unfold managed; cbn; by rewrite (fd_limit _ _ _ E)).
  assert (∀ x, managed s x → x ≠ f → 1 ≤ x / 4096 ∧ x / 4096 ≠ f / 4096) as Ne.
  { intros x [Ax Rx] N. split; [lia|]. intros E'. apply N. by rewrite <- (frame_number x Ax), <- (frame_number f A), E'. }
  assert (∀ x, page_bytes (s <| pm := p |>) x = page_bytes s x) as Ep by (intros x; apply page_same; cbn; by rewrite (fd_ram _ _ _ E)).
  destruct F as [F1 F2 F3 F4 F5 F6 F7 F8]. assert (∀ x, is_table g' x ↔ is_table g x) as It by done. pose proof (Er f) as Cf. rewrite one_true in Cf by done.
  assert (∀ x, x ≠ f → frefs g' x = frefs g x) as Eo by (intros x N; by rewrite Er, one_false).
  assert (∀ x, 1 ≤ x → x * 4096 ≠ f → x ≠ f / 4096) as Nx by (intros x ? N ->; by rewrite frame_number in N).
  split; cbn [pm kernel_address_space set_field].
  - apply E.
  - intros x Hx. rewrite (fd_limit _ _ _ E) in Hx. destruct (decide (x = f / 4096)) as [->|N].
    + destruct (decide (shares (pm s) (f / 4096) = 0)) as [S0|S0]; [by intros _; apply (fd_last _ _ _ E)|].
      destruct (fd_shared _ _ _ E S0) as [-> _]. done.
    + destruct (fd_others _ _ _ E x ltac:(lia) N) as [-> ->]. by apply F2.
  - intros x I. apply It in I. destruct (F3 x I) as (A1&A2&A3&A4). assert (x ≠ f) as N by (intros ->; lia).
    destruct (Ne x A1 N) as [N1 N2]. destruct (fd_others _ _ _ E _ N1 N2) as [-> ->]. rewrite Em, Eo by done. done.
  - intros x I. destruct (decide (x = f)) as [->|N].
    + assert (shares (pm s) (f / 4096) ≠ 0) as S0 by lia. destruct (fd_shared _ _ _ E S0) as [-> ->]. rewrite Em. split_and!; [done|done|lia].
    + rewrite Eo in * by done. destruct (F4 x I) as (A1&A2&A3). destruct (Ne x A1 N) as [N1 N2]. destruct (fd_others _ _ _ E _ N1 N2) as [-> ->]. by rewrite Em.
  - intros x I. rewrite Ep. apply F5. destruct I as [I|I]; [by left|right]. rewrite Er. lia.
  - intros x pg c Bx. destruct (F6 x pg c Bx) as (A1&A2&A3&A4&A5&A6). assert (x * 4096 ≠ f) as N by (intros <-; lia).
    destruct (fd_others _ _ _ E x ltac:(lia) (Nx x ltac:(lia) N)) as [-> ->]. rewrite (fd_limit _ _ _ E), (fd_ram _ _ _ E), Eo by done. split_and!; try done; lia.
  - intros x. rewrite (fd_limit _ _ _ E). intros Hx Ux. destruct (decide (x * 4096 = f)) as [Ef|N].
    + assert (x = f / 4096) as -> by (rewrite <- Ef; symmetry; by apply Z.div_mul). right. right. rewrite Ef.
      destruct (decide (shares (pm s) (f / 4096) = 0)) as [S0|S0]; [|lia]. destruct (fd_last _ _ _ E S0) as [U' _]. congruence.
    + destruct (fd_others _ _ _ E x ltac:(lia) (Nx x ltac:(lia) N)) as [Eu _]. rewrite Eu in Ux.
      destruct (F7 x Hx Ux) as [I|[I|I]]; [by left|right; left; by apply It|right; right; by rewrite Eo].
  - intros M. apply Em in M. apply (F8 M).
Qed.

(** *** A frame in use is shared once more *)
Lemma frames_ref B s g f p : (0 < frefs g f)%nat → frames B s g → pmm_frame_ref f (pm s) = (true, p) → frames B (s <| pm := p |>) (g <| held := f :: held g |>).
Proof.
  intros Pos F E. destruct (fr_data _ _ _ F f Pos) as ([A R]&U&C). destruct (frame_ref_shared (pm s) f p (fr_pmm _ _ _ F)) as (W&L&Ra&Us&S1&S2); [|done|].
  { pose proof (frame_number f A). lia. }
  assert (∀ x, frefs (g <| held := f :: held g |>) x = (one (x = f) + frefs g x)%nat) as Er by (intros x; rewrite frefs_held, copies_cons; unfold frefs; lia).
  set (g' := g <| held := f :: held g |>) in *.
  assert (∀ x, managed (s <| pm := p |>) x ↔ managed s x) as Em by (intros x; unfold managed; cbn; by rewrite L).
  assert (∀ x, managed s x → x ≠ f → x / 4096 ≠ f / 4096) as Ne.
  { intros x [Ax Rx] N E'. apply N. by rewrite <- (frame_number x Ax), <- (frame_number f A), E'. }
  assert (∀ x, page_bytes (s <| pm := p |>) x = page_bytes s x) as Ep by (intros x; apply page_same; cbn; by rewrite Ra).
  destruct F as [F1 F2 F3 F4 F5 F6 F7 F8]. assert (∀ x, is_table g' x ↔ is_table g x) as It by done.
  assert (∀ x, x ≠ f → frefs g' x = frefs g x) as Eo by (intros x N; by rewrite Er, one_false).
  split; cbn [pm kernel_address_space set_field].
  - done.
  - intros x Hx. rewrite L in Hx. rewrite Us. intros Ux. rewrite S2 by congruence. by apply F2.
  - intros x I. apply It in I. destruct (F3 x I) as (A1&A2&A3&A4). assert (x ≠ f) as N by (intros ->; lia). rewrite Us, S2, Em, Eo by auto. done.
  - intros x I. rewrite Us, Em. destruct (decide (x = f)) as [->|N].
    + rewrite S1, Er, one_true by done. split_and!; [done|done|lia].
    + rewrite Eo in * by done. destruct (F4 x I) as (A1&A2&A3). rewrite S2 by auto. done.
  - intros x I. rewrite Ep. apply F5. destruct (decide (x = f)) as [->|N]; [by right|]. by rewrite Eo in I.
  - intros x pg c Bx. destruct (F6 x pg c Bx) as (A1&A2&A3&A4&A5&A6). assert (x * 4096 ≠ f) as N by (intros <-; lia).
    rewrite L, Us, Ra, Eo by done. rewrite S2; [split_and!; try done; lia|]. intros ->. by rewrite frame_number in N.
  - intros x. rewrite L, Us. intros Hx Ux. destruct (F7 x Hx Ux) as [I|[I|I]]; [by left|right; left; by apply It|right; right]. rewrite Er. lia.
  - intros M. apply Em in M. apply (F8 M).
Qed.

(** *** A page is written *)
Lemma put_page_same s f bytes x : x / 4096 ≠ f / 4096 → page_bytes (put_page f bytes s) x = page_bytes s x.
Proof. intros N. apply page_same. cbn. change PMM_PAGE_SIZE with 4096. by rewrite lookup_insert_ne. Qed.
Lemma put_page_here s f bytes : page_bytes (put_page f bytes s) f = bytes.
Proof. unfold page_bytes, put_page. cbn. by rewrite lookup_insert_eq. Qed.
Lemma frames_put B s g f bytes : is_table g f ∨ (0 < frefs g f)%nat → is_page bytes → frames B s g → frames B (put_page f bytes s) g.
Proof.
  intros O P F. destruct F as [F1 F2 F3 F4 F5 F6 F7 F8].
  assert (managed s f) as [A R] by (destruct O as [O|O]; [apply (F3 _ O)|apply (F4 _ O)]).
  split; try done.
  - apply (pmm_wf_same_bitmap (pm s)); try done. by apply (wf_refs _ F1).
  - intros x I. destruct (decide (x / 4096 = f / 4096)) as [E|N]; [|rewrite put_page_same by done; by apply F5].
    assert (managed s x) as [Ax _] by (destruct I as [I|I]; [apply (F3 _ I)|apply (F4 _ I)]).
    assert (x = f) as -> by (by rewrite <- (frame_number x Ax), <- (frame_number f A), E). by rewrite put_page_here.
  - intros n pg c Bn. destruct (F6 n pg c Bn) as (A1&A2&A3&A4&A5&A6). 
    assert (ram (pm (put_page f bytes s)) !! n = ram (pm s) !! n) as Er.
    { cbn. change PMM_PAGE_SIZE with 4096. apply lookup_insert_ne. intros E. rewrite <- E, frame_number in A5, A6 by done. destruct O as [O|O]; [done|lia]. }
    rewrite Er. change (shares (pm (put_page f bytes s)) n) with (shares (pm s) n).
    change (frame_is_used (pm (put_page f bytes s)) n) with (frame_is_used (pm s) n). change (frame_limit (pm (put_page f bytes s))) with (frame_limit (pm s)).
    split_and!; try done; lia.
Qed.

(** *** A held frame becomes a table, a table is held again *)
Lemma frames_table B s g f l k : held g ≡ₚ f :: l → tabs g !! k = None → shares (pm s) (f / 4096) = 0 → frames B s g →
  frames B s (g <| held := l |> <| tabs := <[k := f]> (tabs g) |>).
Proof.
  intros P K S0 F. assert (0 < frefs g f)%nat as Pos by (rewrite (frefs_cons g l f f P), one_true by done; lia).
  assert (∀ x, frefs g x = (one (x = f) + frefs (g <| held := l |> <| tabs := <[k := f]> (tabs g) |>) x)%nat) as Er by (intros x; by apply frefs_cons).
  set (g' := g <| held := l |> <| tabs := <[k := f]> (tabs g) |>) in *.
  assert (∀ x, is_table g' x ↔ x = f ∨ is_table g x) as It.
  { intros x. unfold is_table. cbn. split.
    - intros [k' E]. apply lookup_insert_Some in E as [[<- <-]|[N E]]; [by left|right; eauto].
    - intros [->|[k' E]]; [exists k; apply lookup_insert_eq|exists k'; rewrite lookup_insert_ne; [done|congruence]]. }
  pose proof (Er f) as Cf. rewrite one_true in Cf by done. assert (∀ x, x ≠ f → frefs g' x = frefs g x) as Eo by (intros x N; by rewrite Er, one_false).
  destruct F as [F1 F2 F3 F4 F5 F6 F7 F8]. destruct (F4 f Pos) as (M&U&C). assert (frefs g' f = 0)%nat as Z0 by lia.
  split; try done.
  - intros x [->|I]%It; [done|]. assert (x ≠ f) as N by (intros ->; pose proof (F3 f I); lia). rewrite Eo by done. by apply F3.
  - intros x I. assert (x ≠ f) as N by (intros ->; lia). rewrite Eo in * by done. by apply F4.
  - intros x I. apply F5. rewrite It in I. destruct I as [[->|I]|I]; [by right|by left|right; rewrite Er; lia].
  - intros n pg c Bn. destruct (F6 n pg c Bn) as (A1&A2&A3&A4&A5&A6). assert (n * 4096 ≠ f) as N by (intros <-; lia). rewrite It, Eo by done. split_and!; try done; try lia. by intros [?|?].
  - intros n Hn Un. rewrite It. destruct (decide (n * 4096 = f)) as [->|N]; [by right; left; left|]. rewrite Eo by done. destruct (F7 n Hn Un) as [?|[?|?]]; auto.
Qed.
Lemma frames_untable B s g f k : tree s g → tabs g !! k = Some f → frames B s g →
  frames B s (g <| held := f :: held g |> <| tabs := delete k (tabs g) |>).
Proof.
  intros T K F. set (g' := g <| held := f :: held g |> <| tabs := delete k (tabs g) |>).
  assert (∀ x, frefs g' x = (one (x = f) + frefs g x)%nat) as Er.
  { intros x. change (frefs g' x) with (uses leaf_frame x (leaves g) + copies x (f :: held g))%nat. rewrite copies_cons. unfold frefs. lia. }
  assert (∀ x, is_table g' x ↔ x ≠ f ∧ is_table g x) as It.
  { intros x. unfold is_table, g'. cbn. split.
    - intros [k' E]. apply lookup_delete_Some in E as [N E]. split; [|eauto]. intros ->. by rewrite (tr_inj _ _ T k k' f) in N.
    - intros [N [k' E]]. exists k'. rewrite lookup_delete_ne; [done|]. congruence. }
  assert (∀ x, x ≠ f → frefs g' x = frefs g x) as Eo by (intros x N; by rewrite Er, one_false).
  destruct F as [F1 F2 F3 F4 F5 F6 F7 F8]. destruct (F3 f (ex_intro _ k K)) as (M&U&S0&Z0). assert (frefs g' f = 1)%nat as O1 by (rewrite Er, one_true by done; lia).
  split; try done.
  - intros x [N I]%It. rewrite Eo by done. by apply F3.
  - intros x I. destruct (decide (x = f)) as [->|N]; [rewrite O1, S0; done|]. rewrite Eo in * by done. by apply F4.
  - intros x I. apply F5. destruct (decide (x = f)) as [->|N]; [left; by exists k|]. rewrite It, Eo in I by done. destruct I as [[_ I]|I]; auto.
  - intros n pg c Bn. destruct (F6 n pg c Bn) as (A1&A2&A3&A4&A5&A6). assert (n * 4096 ≠ f) as N by (intros E; apply A5; rewrite E; by exists k).
    rewrite It, Eo by done. split_and!; try done; try lia. tauto.
  - intros n Hn Un. rewrite It. destruct (decide (n * 4096 = f)) as [->|N]; [right; right; lia|]. rewrite Eo by done. destruct (F7 n Hn Un) as [?|[?|?]]; auto.
Qed.
End frames.

(** ** Keys *)

Lemma idx_range k : 0 ≤ idx k < 512.
Proof. unfold idx. apply Z.mod_pos_bound. lia. Qed.
Lemma key_from_parent k : k = ((parent k).1.1, pred (level_of (parent k)), (parent k).2 * 512 + idx k).
Proof. destruct k as [[a l] q]. unfold parent, idx, level_of. cbn. f_equal. pose proof (Z.div_mod q 512). lia. Qed.
Lemma parent_inj k k' : parent k = parent k' → idx k = idx k' → k = k'.
Proof. intros E1 E2. rewrite (key_from_parent k), (key_from_parent k'). by rewrite E1, E2. Qed.
Definition child (k : key) (i : Z) : key := (k.1.1, pred (level_of k), k.2 * 512 + i).
Lemma parent_child k i : (1 ≤ level_of k)%nat → 0 ≤ i < 512 → parent (child k i) = k.
Proof.
  destruct k as [[a l] q]. unfold parent, child, level_of. cbn. intros. destruct l as [|l]; [lia|]. cbn. f_equal.
  rewrite (Z.mul_comm q), Z.add_comm, (Z.mul_comm 512), Z.div_add by lia. rewrite Z.div_small by lia. lia.
Qed.
Lemma idx_child k i : 0 ≤ i < 512 → idx (child k i) = i.
Proof. intros. unfold idx, child. cbn. rewrite Z.add_comm, Z.mod_add by lia. by apply Z.mod_small. Qed.
Lemma child_parent k : child (parent k) (idx k) = k.
Proof. symmetry. exact (key_from_parent k). Qed.
Lemma level_parent k : level_of (parent k) = S (level_of k).
Proof. done. Qed.
Lemma parent_ne k : parent k ≠ k.
Proof. intros E. apply (f_equal level_of) in E. rewrite level_parent in E. lia. Qed.
Lemma top_S l : (l ≤ 2)%nat → top l = 512 * top (S l).
Proof. intros. unfold top. change 512 with (2 ^ 9). rewrite <- Z.pow_add_r by lia. f_equal. lia. Qed.
Lemma child_key k i : table_key k → 0 ≤ i < 512 → (level_of k = 4%nat → i < 256) → slot_key (child k i).
Proof.
  destruct k as [[a l] q]. unfold table_key, slot_key, child, level_of. cbn. intros [(L&L3&Q)|(->&->)] Hi H4; cbn.
  - split; [lia|]. destruct l as [|l]; [lia|]. cbn. rewrite top_S by lia. lia.
  - split; [lia|]. change (top 3) with 256. lia.
Qed.

(** ** Entries *)

Section tree.
Context {D : Type}.
Implicit Types (s : vmm D) (g : shape) (B : gmap Z (option (list Z) * Z)).

Lemma read_put s f bytes t i : read_entry t i (put_page f bytes s) = if decide (t / 4096 = f / 4096) then word_at bytes i else read_entry t i s.
Proof.
  unfold read_entry. case_decide as E; [|by rewrite put_page_same]. f_equal. unfold page_bytes, put_page. cbn. change PMM_PAGE_SIZE with 4096.
  by rewrite E, lookup_insert_eq.
Qed.
Lemma read_write s t i v t' j : is_page (page_bytes s t) → 0 ≤ i < 512 → 0 ≤ j < 512 → is_u64 v →
  read_entry t' j (write_entry t i v s) = if decide (t' / 4096 = t / 4096 ∧ j = i) then v else read_entry t' j s.
Proof.
  intros P Hi Hj Hv. unfold write_entry. rewrite read_put. rewrite word_at_put by done. destruct (decide (t' / 4096 = t / 4096)) as [E|N].
  - destruct (Z.eqb_spec i j) as [<-|Nj]; [by rewrite decide_True|]. rewrite decide_False by naive_solver. unfold read_entry, page_bytes. change PMM_PAGE_SIZE with 4096. by rewrite E.
  - by rewrite decide_False by naive_solver.
Qed.
Lemma write_same_pages s t i v f : f / 4096 ≠ t / 4096 → page_bytes (write_entry t i v s) f = page_bytes s f.
Proof. apply put_page_same. Qed.

Lemma frame_ne B s g f f' : frames B s g → (is_table g f ∨ (0 < frefs g f)%nat) → (is_table g f' ∨ (0 < frefs g f')%nat) → f ≠ f' → f / 4096 ≠ f' / 4096.
Proof.
  intros F O O' N E. assert (f mod 4096 = 0) as A by (destruct O as [O|O]; [apply (fr_table _ _ _ F) in O|apply (fr_data _ _ _ F) in O]; apply O).
  assert (f' mod 4096 = 0) as A' by (destruct O' as [O'|O']; [apply (fr_table _ _ _ F) in O'|apply (fr_data _ _ _ F) in O']; apply O').
  apply N. by rewrite <- (frame_number f A), <- (frame_number f' A'), E.
Qed.

(** What writing an entry of a table does to the entries at the keys. *)
Lemma slot_write B s g p t i v k : tree s g → frames B s g → tabs g !! p = Some t → 0 ≤ i < 512 → is_u64 v →
  slot (write_entry t i v s) g k = if decide (k ∉ gone g ∧ parent k = p ∧ idx k = i) then v else slot s g k.
Proof.
  intros T F E Hi Hv. unfold slot. destruct (decide (k ∈ gone g)) as [G|G]; [by rewrite decide_False by tauto|].
  assert (is_table g t) as It by (by exists p). pose proof (fr_page _ _ _ F t (or_introl It)) as P. pose proof (idx_range k) as Ik.
  destruct (tabs g !! parent k) as [t'|] eqn:E'.
  - rewrite read_write by done. destruct (decide (t' = t)) as [->|N].
    + assert (parent k = p) as -> by (by apply (tr_inj _ _ T _ _ t)). destruct (decide (idx k = i)); [by rewrite !decide_True|]. rewrite !decide_False; naive_solver.
    + assert (t' / 4096 ≠ t / 4096) as N' by (apply (frame_ne B s g); try done; left; [by exists (parent k)|done]).
      rewrite !decide_False; [done|intros (_&Ep&_); congruence|tauto].
  - rewrite decide_False; [done|]. intros (_&Ep&_). congruence.
Qed.

(** An entry of the last level changes. *)
Definition put_leaf (k : key) (v : Z) g : shape := g <| leaves := if in_use v then <[k := v]> (leaves g) else delete k (leaves g) |>.
Lemma tree_leaf s s' g k v : tree s g → slot_key k → level_of k = 0%nat → (∀ k', slot s' g k' = if decide (k' = k) then v else slot s g k') →
  tree s' (put_leaf k v g).
Proof.
  intros [T1 T2 T3 T4 T5 T6] Hk L E. assert (∀ k', (1 ≤ level_of k')%nat → slot s' g k' = slot s g k') as Eo.
  { intros k' L'. rewrite E, decide_False; [done|]. intros ->. lia. }
  assert (∀ k', slot s' (put_leaf k v g) k' = slot s' g k') as Es by done.
  split; try done.
  - intros k' Hk' L'. rewrite Es, Eo by done. by apply T3.
  - intros k' t Ht L'. rewrite Es, Eo; [by apply (T4 _ t)|]. destruct (T1 k' t Ht) as [[(?&_)|[? _]] _]; lia.
  - intros k' Hk' L'. rewrite Es, E. unfold put_leaf. cbn. case_decide as N.
    + subst. destruct (in_use v); [apply lookup_insert_eq|apply lookup_delete_eq].
    + destruct (in_use v); [rewrite lookup_insert_ne by done|rewrite lookup_delete_ne by done]; by apply T5.
  - intros k' e. unfold put_leaf. cbn. destruct (in_use v).
    + intros [[<- <-]|[N H']]%lookup_insert_Some; [done|by apply (T6 _ e)].
    + intros [_ H']%lookup_delete_Some. by apply (T6 _ e).
Qed.
(** An entry of a table above that leads to a table, or to none. *)
Lemma tree_link s s' g k v t : tree s g → slot_key k → (1 ≤ level_of k)%nat → tabs g !! k = Some t → present v = true → addr v = t →
  (∀ k', slot s' g k' = if decide (k' = k) then v else slot s g k') → tree s' (g <| loose := loose g ∖ {[k]} |>).
Proof.
  intros [T1 T2 T3 T4 T5 T6] Hk L Ht P A E. set (g' := g <| loose := loose g ∖ {[k]} |>). assert (∀ k', slot s' g' k' = slot s' g k') as Es by done. split; try done.
  - intros k' Hk' L'. rewrite Es, E. case_decide as N; [subst k'; intros _; subst; split; [done|cbn; set_solver]|].
    intros P'. destruct (T3 k' Hk' L' P') as [? ?]. split; [done|]. cbn. set_solver.
  - intros k' t' Ht' L' N'. rewrite Es, E. case_decide as N; [done|]. apply (T4 _ t'); [done|done|]. cbn in N'. set_solver.
  - intros k' Hk' L'. rewrite Es, E, decide_False; [by apply T5|]. intros ->. lia.
Qed.
Lemma tree_unlink s s' g k v : tree s g → slot_key k → (1 ≤ level_of k)%nat → present v = false →
  (∀ k', slot s' g k' = if decide (k' = k) then v else slot s g k') → tree s' (g <| loose := {[k]} ∪ loose g |>).
Proof.
  intros [T1 T2 T3 T4 T5 T6] Hk L P E. set (g' := g <| loose := {[k]} ∪ loose g |>). assert (∀ k', slot s' g' k' = slot s' g k') as Es by done. split; try done.
  - intros k' Hk' L'. rewrite Es, E. case_decide as N; [by rewrite P|].
    intros P'. destruct (T3 k' Hk' L' P') as [? ?]. split; [done|]. cbn. set_solver.
  - intros k' t' Ht' L' N'. cbn in N'. rewrite Es, E, decide_False by set_solver. apply (T4 _ t'); [done|done|]. set_solver.
  - intros k' Hk' L'. rewrite Es, E, decide_False; [by apply T5|]. intros ->. lia.
Qed.

(** An entry that led nowhere still does. *)
Lemma tree_clear s s' g k v : tree s g → slot_key k → (1 ≤ level_of k)%nat → present (slot s g k) = false → present v = false →
  (∀ k', slot s' g k' = if decide (k' = k) then v else slot s g k') → tree s' g.
Proof.
  intros [T1 T2 T3 T4 T5 T6] Hk L P0 P E. split; try done.
  - intros k' Hk' L'. rewrite E. case_decide as N; [by rewrite P|by apply T3].
  - intros k' t' Ht' L' N'. rewrite E. case_decide as N; [subst|by apply (T4 _ t')]. rewrite (T4 _ t') in P0 by done. done.
  - intros k' Hk' L'. rewrite E, decide_False; [by apply T5|]. intros ->. lia.
Qed.

(** An entry that counts as empty from now on. *)
Lemma slot_hide s g k k' : slot s (g <| gone := {[k]} ∪ gone g |>) k' = if decide (k' = k) then 0 else slot s g k'.
Proof.
  unfold slot. cbn. destruct (decide (k' = k)) as [->|N]; [by rewrite decide_True by set_solver|].
  destruct (decide (k' ∈ gone g)); [by rewrite decide_True by set_solver|by rewrite decide_False by set_solver].
Qed.
Lemma tree_hide_leaf s g k : tree s g → slot_key k → level_of k = 0%nat → tree s (g <| gone := {[k]} ∪ gone g |> <| leaves := delete k (leaves g) |>).
Proof.
  intros [T1 T2 T3 T4 T5 T6] Hk L. set (g' := g <| gone := {[k]} ∪ gone g |> <| leaves := delete k (leaves g) |>).
  assert (∀ k', slot s g' k' = if decide (k' = k) then 0 else slot s g k') as E by (intros k'; rewrite <- slot_hide; done). split; try done.
  - intros k' Hk' L'. rewrite E, decide_False by (intros ->; lia). by apply T3.
  - intros k' t Ht L'. rewrite E, decide_False; [by apply (T4 _ t)|]. intros ->. destruct (T1 k t Ht) as [[(?&_)|[? _]] _]; lia.
  - intros k' Hk' L'. rewrite E. cbn. case_decide as N; [subst; by rewrite lookup_delete_eq|]. rewrite lookup_delete_ne by done. by apply T5.
  - intros k' e He. cbn in He. apply lookup_delete_Some in He as [_ He]. by apply (T6 _ e).
Qed.
Lemma tree_hide_table s g k : tree s g → slot_key k → (1 ≤ level_of k)%nat → tree s (g <| gone := {[k]} ∪ gone g |> <| loose := {[k]} ∪ loose g |>).
Proof.
  intros [T1 T2 T3 T4 T5 T6] Hk L. set (g' := g <| gone := {[k]} ∪ gone g |> <| loose := {[k]} ∪ loose g |>).
  assert (∀ k', slot s g' k' = if decide (k' = k) then 0 else slot s g k') as E by (intros k'; rewrite <- slot_hide; done). split; try done.
  - intros k' Hk' L'. rewrite E. case_decide as N; [done|]. intros P'. destruct (T3 k' Hk' L' P') as [? ?]. split; [done|]. cbn. set_solver.
  - intros k' t Ht L' N'. cbn in N'. rewrite E, decide_False by set_solver. apply (T4 _ t); [done|done|]. set_solver.
  - intros k' Hk' L'. rewrite E, decide_False; [by apply T5|]. intros ->. lia.
Qed.
End tree.

Section tables.
Context {D : Type}.
Implicit Types (s : vmm D) (g : shape) (B : gmap Z (option (list Z) * Z)).

(** A table is added: it is empty, and no entry leads to it. *)
Lemma tree_add s g k t : tree s g → tabs g !! k = None → ¬ is_table g t → table_key k → (level_of k = 4%nat → t = k.1.1) →
  (∀ k', slot_key k' → parent k' = k → read_entry t (idx k') s = 0) →
  tree s (g <| tabs := <[k := t]> (tabs g) |> <| loose := if decide (level_of k = 4%nat) then loose g else {[k]} ∪ loose g |>).
Proof.
  intros [T1 T2 T3 T4 T5 T6] K N Tk T4k Z0.
  set (g' := g <| tabs := <[k := t]> (tabs g) |> <| loose := if decide (level_of k = 4%nat) then loose g else {[k]} ∪ loose g |>).
  assert (∀ k', slot_key k' → slot s g' k' = slot s g k') as E.
  { intros k' Hk'. unfold slot. cbn. destruct (decide (k' ∈ gone g)); [done|]. destruct (decide (parent k' = k)) as [Ep|Np].
    - rewrite Ep, lookup_insert_eq, K. by apply Z0.
    - by rewrite lookup_insert_ne. }
  assert (∀ k' t', tabs g' !! k' = Some t' → (level_of k' ≤ 3)%nat → slot_key k').
  { intros k' t' Ht' L. cbn in Ht'. assert (table_key k') as [[_ ?]|[? _]]; [|done|lia]. apply lookup_insert_Some in Ht' as [[<- _]|[_ Ht']]; [done|]. by apply (T1 _ t'). }
  split.
  - intros k' t' Ht'. cbn in Ht'. apply lookup_insert_Some in Ht' as [[<- <-]|[_ Ht']]; [done|]. by apply T1.
  - intros k1 k2 t' H1 H2. cbn in H1, H2. apply lookup_insert_Some in H1 as [[<- <-]|[N1 H1]], H2 as [[<- E2]|[N2 H2]]; try done.
    + destruct N. by exists k2.
    + destruct N. rewrite E2. by exists k1.
    + by apply (T2 _ _ t').
  - intros k' Hk' L'. rewrite E by done. intros P'. destruct (T3 k' Hk' L' P') as [Ht' Nl]. assert (k' ≠ k) as Nk by congruence.
    split; [cbn; by rewrite lookup_insert_ne|]. cbn. destruct (decide _); [done|set_solver].
  - intros k' t' Ht' L' Nl. rewrite E by eauto. cbn in Ht', Nl. destruct (decide (k' = k)) as [->|Nk].
    + rewrite decide_False in Nl by lia. set_solver.
    + rewrite lookup_insert_ne in Ht' by done. apply (T4 _ t'); [done|done|]. destruct (decide _); [done|set_solver].
  - intros k' Hk' L'. rewrite E by done. by apply T5.
  - exact T6.
Qed.
(** A table to which nothing leads, and which leads nowhere, is taken away. *)
Lemma slot_remove s g k k' : slot s (g <| tabs := delete k (tabs g) |> <| loose := loose g ∖ {[k]} |> <| gone := filter (λ x, parent x ≠ k) (gone g) |>) k' =
  if decide (parent k' = k) then 0 else slot s g k'.
Proof.
  unfold slot. cbn. destruct (decide (parent k' = k)) as [->|N].
  - rewrite lookup_delete_eq. by destruct (decide _).
  - rewrite lookup_delete_ne by done. destruct (decide (k' ∈ gone g)) as [G|G].
    + by rewrite decide_True by (by apply elem_of_filter).
    + rewrite decide_False; [done|]. by intros [_ ?]%elem_of_filter.
Qed.
Lemma tree_remove s g k t : tree s g → tabs g !! k = Some t → level_of k = 4%nat ∨ k ∈ loose g →
  (∀ k', slot_key k' → parent k' = k → present (slot s g k') = false ∧ (level_of k' = 0%nat → in_use (slot s g k') = false)) →
  tree s (g <| tabs := delete k (tabs g) |> <| loose := loose g ∖ {[k]} |> <| gone := filter (λ x, parent x ≠ k) (gone g) |>).
Proof.
  intros [T1 T2 T3 T4 T5 T6] K O Em. set (g' := g <| tabs := delete k (tabs g) |> <| loose := loose g ∖ {[k]} |> <| gone := filter (λ x, parent x ≠ k) (gone g) |>).
  pose proof (slot_remove s g k : ∀ k', slot s g' k' = _) as E. split.
  - intros k' t' Ht'. cbn in Ht'. apply lookup_delete_Some in Ht' as [_ Ht']. by apply T1.
  - intros k1 k2 t' H1 H2. cbn in H1, H2. apply lookup_delete_Some in H1 as [_ H1], H2 as [_ H2]. by apply (T2 _ _ t').
  - intros k' Hk' L'. rewrite E. destruct (decide _); [done|]. intros P'. destruct (T3 k' Hk' L' P') as [Ht' Nl].
    assert (k' ≠ k) as Nk. { intros ->. destruct O as [O|O]; [|done]. destruct Hk'. lia. }
    split; [cbn; by rewrite lookup_delete_ne|]. cbn. set_solver.
  - intros k' t' Ht' L' Nl. cbn in Ht', Nl. apply lookup_delete_Some in Ht' as [Nk Ht']. assert (k' ∉ loose g) as Nl' by set_solver. rewrite E.
    pose proof (T4 k' t' Ht' L' Nl') as P'. destruct (decide (parent k' = k)) as [Ep|]; [|done].
    assert (slot_key k') as Hk' by (destruct (T1 _ _ Ht') as [[[_ ?]|[? _]] _]; [done|lia]). destruct (Em k' Hk' Ep) as [? _]. congruence.
  - intros k' Hk' L'. rewrite E. cbn. rewrite T5 by done. destruct (decide (parent k' = k)) as [Ep|]; [|done].
    destruct (Em k' Hk' Ep) as [_ U]. by rewrite U.
  - exact T6.
Qed.
End tables.
