(* ===== verification/PageSteps.v ===== *)
(** * Steps on states that have a shape

    The moves of [PageMoves] put together: each keeps the whole invariant, and says what
    the processes see afterwards. *)

From S2P Require Import Prelude Pmm Oom Swap Vmm PageEntry PageForest PageMoves.

(** ** Slots *)

Definition geometry (w : swap) := (swap_on w, swap_device w, swap_start w, swap_pages w).

Lemma alloc_loop_spec fuel w id w' : 2 ≤ swap_pages w ≤ SWAP_MAX_PAGES → 0 ≤ swap_cursor w → alloc_loop fuel w = (id, w') →
  geometry w' = geometry w ∧ 0 ≤ swap_cursor w' ∧
  (id = 0 ∧ swap_refs w' = swap_refs w ∨ 0 < id < swap_pages w ∧ slot_refs w id = 0 ∧ swap_refs w' = <[id := 1]> (swap_refs w)).
Proof.
  intros P. assert (SWAP_MAX_PAGES = 524288) as M by done. rewrite M in P. revert w P. induction fuel as [|fuel IH]; intros w P C; [by intros [= <- <-]; auto|].
  cbn [alloc_loop]. set (v := if (swap_pages w <=? swap_cursor w) || (swap_cursor w =? 0) then w <| swap_cursor := 1 |> else w).
  assert (geometry v = geometry w ∧ swap_refs v = swap_refs w ∧ 1 ≤ swap_cursor v < swap_pages w) as (Gv&Rv&Cv).
  { unfold v. destruct (Z.leb_spec (swap_pages w) (swap_cursor w)), (Z.eqb_spec (swap_cursor w) 0); cbn [orb]; (split_and!; [done|done|cbn; lia..]). }
  assert (swap_pages v = swap_pages w) as Pv by (by injection Gv). set (slot := swap_cursor v) in *.
  assert (0 ≤ u32 (slot + 1)) as C' by (apply u32_range). destruct (Z.eqb_spec (slot_refs (v <| swap_cursor := u32 (slot + 1) |>) slot) 0) as [E|N].
  - intros [= <- <-]. split; [exact Gv|]. split; [exact C'|]. right. split; [lia|]. unfold slot_refs in *. cbn in *. rewrite Rv in *. done.
  - intros E. apply IH in E; [|change (2 ≤ swap_pages v ≤ 524288); by rewrite Pv|done]. destruct E as (Eg&Ec&E). split; [by rewrite Eg|]. split; [done|].
    unfold slot_refs in *. cbn in E. rewrite Rv, Pv in E. exact E.
Qed.

Section slots.
Context {D : Type}.
Implicit Types (s : vmm D) (g : shape) (w : swap).

Lemma slots_held s s' g h : sw s' = sw s → slots s g → slots s' (g <| held := h |>).
Proof. intros E S. apply (slots_refs s' g); [done|]. by apply (slots_same s). Qed.
Lemma srefs_held g l id : srefs (g <| held_slots := l |>) id = (uses leaf_slot id (leaves g) + copies id l)%nat.
Proof. done. Qed.
Lemma srefs_cons g l id x : held_slots g ≡ₚ x :: l → srefs g id = (one (id = x) + srefs (g <| held_slots := l |>) id)%nat.
Proof. intros P. rewrite srefs_held. unfold srefs. rewrite (copies_perm id _ _ P), copies_cons. lia. Qed.

Lemma slots_alloc s g id w : slots s g → swap_alloc (sw s) = (id, w) →
  geometry w = geometry (sw s) ∧ (id = 0 ∧ slots (s <| sw := w |>) g ∨
    0 < id < swap_pages (sw s) ∧ srefs g id = 0%nat ∧ slots (s <| sw := w |>) (g <| held_slots := id :: held_slots g |>)).
Proof.
  intros S. unfold swap_alloc, swap_enabled. destruct (swap_on (sw s)) eqn:On; cbn [negb]; [|intros [= <- <-]; split; [done|left; split; [done|by destruct s]]].
  destruct (_ <? _); [|intros [= <- <-]; split; [done|left; split; [done|by destruct s]]].
  destruct S as [S1 S2 S3 S4]. intros E. pose proof (S1 On) as P. apply alloc_loop_spec in E; [|done|done]. destruct E as (G&C&E). split; [done|].
  unfold geometry in G. injection G as G1 G2 G3 G4. destruct E as [[-> R]|(I&Z0&R)].
  - left. split; [done|]. split; cbn; [by rewrite G1, G4|done|by rewrite G1, G4|]. unfold slot_refs. rewrite R, G4. exact S4.
  - right. split; [done|]. assert (srefs g id = 0)%nat as R0 by (destruct (S4 id I) as [[A _]|[A _]]; lia). split; [done|].
    assert (∀ x, srefs (g <| held_slots := id :: held_slots g |>) x = (one (x = id) + srefs g x)%nat) as Er by (intros x; rewrite srefs_held, copies_cons; unfold srefs; lia).
    split; cbn; rewrite ?G1, ?G3, ?G4; try done.
    + intros x. rewrite Er. destruct (decide (x = id)) as [->|N]; [done|]. rewrite one_false by done. apply S3.
    + intros x Hx. rewrite Er. unfold slot_refs. rewrite R. destruct (decide (x = id)) as [->|N].
      * rewrite one_true, lookup_insert_eq, R0 by done. left. split; [done|lia].
      * rewrite one_false, lookup_insert_ne by done. by apply S4.
Qed.
Lemma slots_free s g id l : held_slots g ≡ₚ id :: l → slots s g → slots (s <| sw := swap_free id (sw s) |>) (g <| held_slots := l |>) ∧
  geometry (swap_free id (sw s)) = geometry (sw s).
Proof.
  intros P [S1 S2 S3 S4]. pose proof (λ x, srefs_cons g l x id P) as Er. set (g' := g <| held_slots := l |>) in *.
  assert (0 < srefs g id)%nat as Pos by (rewrite Er, one_true by done; lia). destruct (S3 id Pos) as [On R].
  unfold swap_free, swap_enabled. rewrite On. destruct (Z.eqb_spec id 0), (Z.leb_spec (swap_pages (sw s)) id); try lia. cbn [negb orb].
  pose proof (S4 id R) as Rid. rewrite Er, one_true in Rid by done.
  destruct (Z.eqb_spec (slot_refs (sw s) id) 0) as [E0|N0]; [lia|]. destruct (Z.eqb_spec (slot_refs (sw s) id) 255) as [E1|N1]; cbn [negb andb].
  - split; [|done]. split; cbn; try done.
    + intros x Hx. apply S3. rewrite Er. lia.
    + intros x Hx. destruct (decide (x = id)) as [->|N]; [right; lia|]. specialize (S4 x Hx). by rewrite Er, one_false in S4.
  - set (w := (sw s) <| swap_refs := <[id := u8 (slot_refs (sw s) id - 1)]> (swap_refs (sw s)) |>). assert (geometry w = geometry (sw s)) as G by done.
    assert (∀ w', geometry w' = geometry w → swap_refs w' = swap_refs w → swap_cursor w' = swap_cursor w → slots (s <| sw := w' |>) g' ∧ geometry w' = geometry (sw s)) as K.
    { intros w' G' R' C'. split; [|by rewrite G']. rewrite G in G'. unfold geometry in G'. injection G' as G1 G2 G3 G4.
      split; cbn; rewrite ?G1, ?G3, ?G4, ?C'; try done.
      - intros x Hx. apply S3. rewrite Er. lia.
      - intros x Hx. unfold slot_refs. rewrite R'. unfold w. cbn. destruct (decide (x = id)) as [->|N].
        + rewrite lookup_insert_eq. left. cbn. rewrite u8_small by lia. lia.
        + rewrite lookup_insert_ne by done. specialize (S4 x Hx). by rewrite Er, one_false in S4. }
    case_match; by apply K.
Qed.
Lemma slots_dup s g id w : (0 < srefs g id)%nat → slots s g → swap_dup id (sw s) = (true, w) →
  slots (s <| sw := w |>) (g <| held_slots := id :: held_slots g |>) ∧ geometry w = geometry (sw s).
Proof.
  intros Pos [S1 S2 S3 S4]. destruct (S3 id Pos) as [On R]. unfold swap_dup, swap_enabled. rewrite On.
  destruct (Z.eqb_spec id 0), (Z.leb_spec (swap_pages (sw s)) id); try lia. cbn [negb orb]. destruct (_ && _) eqn:C; [|done]. intros [= <-]. zify_bool. split; [|done].
  assert (∀ x, srefs (g <| held_slots := id :: held_slots g |>) x = (one (x = id) + srefs g x)%nat) as Er by (intros x; rewrite srefs_held, copies_cons; unfold srefs; lia).
  split; cbn; try done.
  - intros x. rewrite Er. destruct (decide (x = id)) as [->|N]; [done|]. rewrite one_false by done. apply S3.
  - intros x Hx. rewrite Er. set (w' := (sw s) <| swap_refs := <[id := u8 (slot_refs (sw s) id + 1)]> (swap_refs (sw s)) |>).
    destruct (decide (x = id)) as [->|N].
    + assert (slot_refs w' id = u8 (slot_refs (sw s) id + 1)) as -> by (unfold slot_refs at 1; unfold w'; cbn; by rewrite lookup_insert_eq).
      rewrite one_true by done. destruct (S4 id R) as [[A1 A2]|[A1 A2]]; [|lia]. rewrite u8_small by lia.
      destruct (decide (srefs g id = 254%nat)); [right; lia|left; lia].
    + assert (slot_refs w' x = slot_refs (sw s) x) as -> by (unfold slot_refs, w'; cbn; by rewrite lookup_insert_ne).
      rewrite one_false by done. by apply S4.
Qed.
Lemma slots_dup_refused id w w' : swap_dup id w = (false, w') → w' = w.
Proof. unfold swap_dup. destruct (_ || _); [by intros [= <-]|]. by destruct (_ && _); intros [= <-]. Qed.
End slots.

(** ** Moves of frames *)

Section moves.
Context {D : Type} `{DiskLaws D}.
Implicit Types (s : vmm D) (g : shape) (B : gmap Z (option (list Z) * Z)).

(** The invariant still holds, and nobody sees a difference. *)
Record quiet B s g s' g' : Prop := {
  q_ok : ok B s' g';
  q_view : view s' g' = view s g;
  q_outer : outer s' = outer s;
}.
Lemma quiet_refl B s g : ok B s g → quiet B s g s g.
Proof. by intros. Qed.
Lemma quiet_trans B s1 g1 s2 g2 s3 g3 : quiet B s1 g1 s2 g2 → quiet B s2 g2 s3 g3 → quiet B s1 g1 s3 g3.
Proof. intros [_ V1 O1] [K V2 O2]. split; [done|congruence..]. Qed.

(** The disk and the partition are the same, and so are the pages that belong to somebody. *)
Record same_data s s' g : Prop := {
  sd_pages : ∀ f, is_table g f ∨ (0 < frefs g f)%nat → page_bytes s' f = page_bytes s f;
  sd_geometry : geometry (sw s') = geometry (sw s);
  sd_disk : disk s' = disk s;
}.
Lemma disk_page_same s s' id : geometry (sw s') = geometry (sw s) → disk s' = disk s → disk_page s' id = disk_page s id.
Proof. intros G E. unfold geometry in G. injection G as G1 G2 G3 G4. unfold disk_page, slot_lba. by rewrite E, G2, G3. Qed.
Lemma leaf_owned g k e : leaves g !! k = Some e → present e = true → (0 < frefs g (addr e))%nat.
Proof.
  intros L P. assert (0 < uses leaf_frame (addr e) (leaves g))%nat by (apply uses_pos; exists k, e; split; [done|]; unfold leaf_frame; by rewrite P).
  unfold frefs. lia.
Qed.
Lemma leaf_counted g k e : leaves g !! k = Some e → present e = false → (0 < srefs g (SWAP_SLOT_OF e))%nat.
Proof.
  intros L P. assert (0 < uses leaf_slot (SWAP_SLOT_OF e) (leaves g))%nat by (apply uses_pos; exists k, e; split; [done|]; unfold leaf_slot; by rewrite P).
  unfold srefs. lia.
Qed.
Lemma page_of_same s s' g k e : same_data s s' g → leaves g !! k = Some e → page_of s' e = page_of s e.
Proof.
  intros [P G E] L. unfold page_of, content. destruct (present e) eqn:Pe; [|by rewrite (disk_page_same s s')].
  rewrite P; [done|]. right. by apply (leaf_owned g k).
Qed.
Lemma view_data s s' g : same_data s s' g → view s' g = view s g.
Proof. intros E. apply view_ext. intros k e L. by apply (page_of_same s s' g k). Qed.
Lemma tree_data s s' g : same_data s s' g → tree s g → tree s' g.
Proof. intros [P _ _]. apply tree_same. intros f I. apply P. by left. Qed.

(** A frame of zeroes is taken. *)
Record fresh s g (f : Z) s' : Prop := {
  fs_zero : page_bytes s' f = zero_page;
  fs_shares : shares (pm s') (f / 4096) = 0;
  fs_table : ¬ is_table g f;
  fs_refs : frefs g f = 0%nat;
  fs_frame : is_frame f;
  fs_kernel : f ≠ kernel_address_space s;
  fs_managed : managed s f;
  fs_sw : sw s' = sw s;
  fs_data : same_data s s' g;
}.
Lemma step_alloc B s g f s' : ok B s g → allocate s = (f, s') →
  f = 0 ∧ s' = s ∨ f ≠ 0 ∧ quiet B s g s' (g <| held := f :: held g |>) ∧ fresh s g f s'.
Proof.
  intros [T F S] E. destruct (allocate_taken s s' f (fr_pmm _ _ _ F) E) as [?|(n&p&->&->&K)]; [by left|right].
  destruct (taken_fresh B s g n p F K) as (N1&N2&_&N4). pose proof (tk_range _ _ _ K) as R. pose proof (managed_times n s R) as M.
  assert (n * 4096 / 4096 = n) as En by (by apply Z.div_mul).
  assert (same_data s (s <| pm := p |>) g) as Sd.
  { split; [|done..]. intros f O. apply page_same. apply (tk_ram _ _ _ K). apply (managed_ne s).
    - destruct O as [O|O]; [apply (fr_table _ _ _ F _ O)|apply (fr_data _ _ _ F _ O)].
    - intros ->. destruct O; [done|lia]. }
  split; [lia|]. split.
  - split; [|exact (view_data s _ g Sd)|done]. split; [exact (tree_held _ _ _ (tree_data s _ g Sd T))|by apply frames_alloc|by apply (slots_held s)].
  - split; try done.
    + unfold page_bytes. change PMM_PAGE_SIZE with 4096. rewrite En. cbn. by rewrite (tk_zero _ _ _ K).
    + cbn. rewrite En, (tk_shares _ _ _ K). apply (fr_free _ _ _ F); [done|apply K].
    + by apply (managed_frame B s g _ F).
Qed.
(** A count that is in hand is given back. *)
Lemma step_free B s g f l : ok B s g → held g ≡ₚ f :: l → quiet B s g (free_page f s) (g <| held := l |>) ∧ same_data s (free_page f s) g.
Proof.
  intros [T F S] P. assert (0 < frefs g f)%nat as Pos by (rewrite (frefs_cons g l f f P), one_true by done; lia).
  destruct (fr_data _ _ _ F f Pos) as ([A R]&U&_). pose proof (free_page_freed (pm s) f (fr_pmm _ _ _ F) A R U) as E.
  assert (same_data s (free_page f s) g) as Sd by (split; [|done..]; intros x _; apply page_same; cbn; by rewrite (fd_ram _ _ _ E)).
  split; [|done]. split; [|exact (view_data s _ g Sd)|done].
  split; [exact (tree_held _ _ _ (tree_data s _ g Sd T))|by apply frames_free|by apply (slots_held s)].
Qed.
(** A frame in use is counted once more, in hand. *)
Lemma step_ref B s g f p : ok B s g → (0 < frefs g f)%nat → pmm_frame_ref f (pm s) = (true, p) →
  quiet B s g (s <| pm := p |>) (g <| held := f :: held g |>) ∧ same_data s (s <| pm := p |>) g.
Proof.
  intros [T F S] Pos E. destruct (fr_data _ _ _ F f Pos) as ([A R]&_). destruct (frame_ref_shared (pm s) f p (fr_pmm _ _ _ F)) as (_&_&Ra&_); [|done|].
  { pose proof (frame_number f A). lia. }
  assert (same_data s (s <| pm := p |>) g) as Sd by (split; [|done..]; intros x _; apply page_same; cbn; by rewrite Ra).
  split; [|done]. split; [|exact (view_data s _ g Sd)|done].
  split; [exact (tree_held _ _ _ (tree_data s _ g Sd T))|by apply frames_ref|by apply (slots_held s)].
Qed.
(** A page that no entry leads to is written. *)
Lemma step_put B s g f bytes : ok B s g → copies f (held g) ≠ 0%nat → uses leaf_frame f (leaves g) = 0%nat → is_page bytes →
  quiet B s g (put_page f bytes s) g ∧ (∀ x, is_table g x ∨ (0 < frefs g x)%nat → x ≠ f → page_bytes (put_page f bytes s) x = page_bytes s x).
Proof.
  intros [T F S] C U P. assert (is_table g f ∨ (0 < frefs g f)%nat) as O by (right; unfold frefs; lia).
  assert (∀ x, is_table g x ∨ (0 < frefs g x)%nat → x ≠ f → page_bytes (put_page f bytes s) x = page_bytes s x) as E.
  { intros x Ox N. apply put_page_same. by apply (frame_ne B s g). }
  split; [|done]. split; [| |done].
  - split; [|by apply frames_put|by apply (slots_same s)]. apply (tree_same s); [|done]. intros x I. apply E; [by left|]. intros ->.
    destruct (fr_table _ _ _ F _ I) as (_&_&_&Z0). unfold frefs in Z0. lia.
  - apply view_ext. intros k e L. unfold page_of, content. destruct (present e) eqn:Pe; [|done]. rewrite E; [done|right; by apply (leaf_owned g k)|].
    intros Ef. assert (0 < uses leaf_frame f (leaves g))%nat; [|lia]. apply uses_pos. exists k, e. split; [done|]. unfold leaf_frame. by rewrite Pe, Ef.
Qed.

(** ** Moves of entries *)

Definition parts (f : Z → option Z) (o : option Z) : list Z := match o with Some e => option_list (f e) | None => [] end.
Definition used_entry (v : Z) : option Z := if in_use v then Some v else None.
Definition set_leaf (k : key) (v : Z) (h hs : list Z) g : shape := put_leaf k v g <| held := h |> <| held_slots := hs |>.

Lemma copies_parts f x e : copies x (parts f (Some e)) = one (f e = Some x).
Proof.
  unfold parts. destruct (f e) as [y|]; [|by rewrite one_false]. change (option_list (Some y)) with [y].
  rewrite copies_cons. unfold one. repeat case_decide; simplify_eq; done.
Qed.
Lemma uses_put f x g k v : (uses f x (leaves (put_leaf k v g)) + copies x (parts f (leaves g !! k)) = uses f x (leaves g) + copies x (parts f (used_entry v)))%nat.
Proof.
  unfold put_leaf, used_entry. cbn. destruct (leaves g !! k) as [e|] eqn:L, (in_use v) eqn:U; rewrite ?copies_parts.
  - by apply uses_replace.
  - rewrite (uses_delete f x (leaves g) k e L). cbn. lia.
  - rewrite uses_insert by done. cbn. lia.
  - rewrite delete_id by done. done.
Qed.
Lemma set_leaf_refs k v h hs g x : h ++ parts leaf_frame (used_entry v) ≡ₚ held g ++ parts leaf_frame (leaves g !! k) → frefs (set_leaf k v h hs g) x = frefs g x.
Proof.
  intros P. pose proof (uses_put leaf_frame x g k v) as U. pose proof (copies_perm x _ _ P) as C. rewrite !copies_app in C.
  change (frefs (set_leaf k v h hs g) x) with (uses leaf_frame x (leaves (put_leaf k v g)) + copies x h)%nat. unfold frefs. lia.
Qed.
Lemma set_leaf_srefs k v h hs g x : hs ++ parts leaf_slot (used_entry v) ≡ₚ held_slots g ++ parts leaf_slot (leaves g !! k) → srefs (set_leaf k v h hs g) x = srefs g x.
Proof.
  intros P. pose proof (uses_put leaf_slot x g k v) as U. pose proof (copies_perm x _ _ P) as C. rewrite !copies_app in C.
  change (srefs (set_leaf k v h hs g) x) with (uses leaf_slot x (leaves (put_leaf k v g)) + copies x hs)%nat. unfold srefs. lia.
Qed.

(** A table's page with one entry changed. *)
Lemma write_slots B s g k t v : ok B s g → tabs g !! parent k = Some t → k ∉ gone g → is_u64 v →
  ∀ k', slot (write_entry t (idx k) v s) g k' = if decide (k' = k) then v else slot s g k'.
Proof.
  intros [T F S] Ht G V k'. rewrite (slot_write B s g (parent k) t (idx k) v k') by (try done; apply idx_range). destruct (decide (k' = k)) as [->|N].
  - by rewrite decide_True.
  - rewrite decide_False; [done|]. intros (_&E1&E2). by apply N, parent_inj.
Qed.
Lemma write_frames B s g t i v : ok B s g → is_table g t → 0 ≤ i < 512 → frames B (write_entry t i v s) g.
Proof. intros [T F S] I Hi. apply frames_put; [by left|apply is_page_put; [apply (fr_page _ _ _ F); by left|done]|done]. Qed.
Lemma write_data B s g t i v x : ok B s g → is_table g t → (0 < frefs g x)%nat → page_bytes (write_entry t i v s) x = page_bytes s x.
Proof.
  intros [T F S] I P. apply write_same_pages. apply (frame_ne B s g); [done|by right|by left|]. intros ->. destruct (fr_table _ _ _ F _ I) as (_&_&_&Z0). lia.
Qed.

(** An entry of the last level is written; the counts of what it led to, and of what it leads to now, change hands. *)
Lemma step_leaf B s g k t v h hs : ok B s g → slot_key k → level_of k = 0%nat → k ∉ gone g → tabs g !! parent k = Some t → is_u64 v →
  h ++ parts leaf_frame (used_entry v) ≡ₚ held g ++ parts leaf_frame (leaves g !! k) →
  hs ++ parts leaf_slot (used_entry v) ≡ₚ held_slots g ++ parts leaf_slot (leaves g !! k) →
  let s' := write_entry t (idx k) v s in let g' := set_leaf k v h hs g in
  ok B s' g' ∧ view s' g' = (if in_use v then <[k := page_of s v]> (view s g) else delete k (view s g)) ∧ outer s' = outer s ∧
  (∀ x, (0 < frefs g x)%nat → page_bytes s' x = page_bytes s x).
Proof.
  intros O Hk L G Ht V Ph Ps s' g'. assert (is_table g t) as I by (by exists (parent k)).
  pose proof (λ x, set_leaf_refs k v h hs g x Ph) as Fr. pose proof (λ x, set_leaf_srefs k v h hs g x Ps) as Sr.
  pose proof (λ x, write_data B s g t (idx k) v x O I) as Pd. split_and!; [| |done|done].
  - split.
    + apply (tree_held_slots s' (put_leaf k v g <| held := h |>) hs), (tree_held s' (put_leaf k v g) h). eapply tree_leaf; [apply (ok_tree _ _ _ O)|done|done|by apply (write_slots B)].
    + apply (frames_refs _ _ g); [done|done|]. apply write_frames; [done|done|apply idx_range].
    + apply (slots_refs _ g); [done|]. apply (slots_same s); [done|apply (ok_slots _ _ _ O)].
  - transitivity (page_of s <$> leaves g').
    { apply map_fmap_ext. intros k' e E. unfold page_of, content. destruct (present e) eqn:Pe; [|done]. pose proof (leaf_owned g' k' e E Pe) as Q.
      unfold g' in Q. rewrite Fr in Q. unfold s'. by rewrite Pd. }
    unfold view, g', set_leaf, put_leaf. cbn. destruct (in_use v); [apply fmap_insert|apply fmap_delete].
Qed.

(** An entry of a table that is being given up counts as empty: its page is in hand. *)
Lemma step_hide_leaf B s g k : ok B s g → slot_key k → level_of k = 0%nat →
  let g' := g <| gone := {[k]} ∪ gone g |> <| leaves := delete k (leaves g) |> <| held := held g ++ parts leaf_frame (leaves g !! k) |>
              <| held_slots := held_slots g ++ parts leaf_slot (leaves g !! k) |> in
  ok B s g' ∧ view s g' = delete k (view s g).
Proof.
  intros O Hk L g'. pose proof (uses_put leaf_frame) as _. split; [split|].
  - pose proof (tree_hide_leaf s g k (ok_tree _ _ _ O) Hk L) as T. exact (tree_held_slots _ _ _ (tree_held _ _ _ T)).
  - apply (frames_refs _ _ g); [|done|apply (ok_frames _ _ _ O)]. intros x. change (frefs g' x) with (uses leaf_frame x (delete k (leaves g)) + copies x (held g ++ parts leaf_frame (leaves g !! k)))%nat.
    rewrite copies_app. unfold frefs. destruct (leaves g !! k) as [e|] eqn:E; [rewrite copies_parts, (uses_delete leaf_frame x _ k e E); lia|]. rewrite delete_id by done. cbn. lia.
  - apply (slots_refs _ g); [|apply (ok_slots _ _ _ O)]. intros x. change (srefs g' x) with (uses leaf_slot x (delete k (leaves g)) + copies x (held_slots g ++ parts leaf_slot (leaves g !! k)))%nat.
    rewrite copies_app. unfold srefs. destruct (leaves g !! k) as [e|] eqn:E; [rewrite copies_parts, (uses_delete leaf_slot x _ k e E); lia|]. rewrite delete_id by done. cbn. lia.
  - unfold view, g'. cbn. apply fmap_delete.
Qed.

(** ** Moves of tables *)

Lemma step_hide_table B s g k : ok B s g → slot_key k → (1 ≤ level_of k)%nat →
  quiet B s g s (g <| gone := {[k]} ∪ gone g |> <| loose := {[k]} ∪ loose g |>).
Proof.
  intros O Hk L. split; [split|done|done].
  - apply tree_hide_table; [apply (ok_tree _ _ _ O)|done|done].
  - apply (frames_refs _ _ g); [done|done|apply (ok_frames _ _ _ O)].
  - apply (slots_refs _ g); [done|apply (ok_slots _ _ _ O)].
Qed.
Definition add_table (k : key) (f : Z) (l : list Z) g : shape :=
  g <| held := l |> <| tabs := <[k := f]> (tabs g) |> <| loose := if decide (level_of k = 4%nat) then loose g else {[k]} ∪ loose g |>.
Lemma step_add_table B s g k f l : ok B s g → held g ≡ₚ f :: l → tabs g !! k = None → table_key k → (level_of k = 4%nat → f = k.1.1) →
  shares (pm s) (f / 4096) = 0 → (∀ k', slot_key k' → parent k' = k → read_entry f (idx k') s = 0) → quiet B s g s (add_table k f l g).
Proof.
  intros O P K Tk T4 S0 Z0. assert (¬ is_table g f) as N.
  { intros I. destruct (fr_table _ _ _ (ok_frames _ _ _ O) _ I) as (_&_&_&Zr). rewrite (frefs_cons g l f f P), one_true in Zr by done. lia. }
  split; [split|done|done].
  - exact (tree_add s (g <| held := l |>) k f (tree_held _ _ l (ok_tree _ _ _ O)) K N Tk T4 Z0).
  - apply (frames_refs _ _ (g <| held := l |> <| tabs := <[k := f]> (tabs g) |>)); [done|done|]. apply frames_table; [done|done|done|apply (ok_frames _ _ _ O)].
  - apply (slots_refs _ g); [done|apply (ok_slots _ _ _ O)].
Qed.
Definition remove_table (k : key) (f : Z) g : shape :=
  g <| held := f :: held g |> <| tabs := delete k (tabs g) |> <| loose := loose g ∖ {[k]} |> <| gone := filter (λ x, parent x ≠ k) (gone g) |>.
Lemma step_remove_table B s g k f : ok B s g → tabs g !! k = Some f → level_of k = 4%nat ∨ k ∈ loose g →
  (∀ k', slot_key k' → parent k' = k → present (slot s g k') = false ∧ (level_of k' = 0%nat → in_use (slot s g k') = false)) →
  quiet B s g s (remove_table k f g).
Proof.
  intros O K Lo Em. split; [split|done|done].
  - exact (tree_remove s (g <| held := f :: held g |>) k f (tree_held _ _ _ (ok_tree _ _ _ O)) K Lo Em).
  - apply (frames_refs _ _ (g <| held := f :: held g |> <| tabs := delete k (tabs g) |>)); [done|done|].
    apply frames_untable; [apply (ok_tree _ _ _ O)|done|apply (ok_frames _ _ _ O)].
  - apply (slots_refs _ g); [done|apply (ok_slots _ _ _ O)].
Qed.

(** An entry above the last level is written. *)
Lemma step_write B s g g' k t v : ok B s g → is_table g t → slot_key k → tree (write_entry t (idx k) v s) g' →
  tabs g' = tabs g → leaves g' = leaves g → held g' = held g → held_slots g' = held_slots g → quiet B s g (write_entry t (idx k) v s) g'.
Proof.
  intros O I Hk T E1 E2 E3 E4. split; [split|..|done].
  - done.
  - apply (frames_refs _ _ g); [intros x; unfold frefs; by rewrite E2, E3|done|]. apply write_frames; [done|done|apply idx_range].
  - apply (slots_refs _ g); [intros x; unfold srefs; by rewrite E2, E4|]. apply (slots_same s); [done|apply (ok_slots _ _ _ O)].
  - unfold view. rewrite E2. apply map_fmap_ext. intros k' e E. unfold page_of, content. destruct (present e) eqn:Pe; [|done].
    rewrite (write_data B s g t _ v); [done..|]. by apply (leaf_owned g k').
Qed.
Lemma step_link B s g k t v : ok B s g → slot_key k → (1 ≤ level_of k)%nat → k ∉ gone g → tabs g !! parent k = Some t → is_u64 v →
  tabs g !! k = Some (addr v) → present v = true → quiet B s g (write_entry t (idx k) v s) (g <| loose := loose g ∖ {[k]} |>).
Proof.
  intros O Hk L G Ht V K P. apply step_write; try done; [by exists (parent k)|].
  eapply tree_link; [apply (ok_tree _ _ _ O)|done|done|exact K|done|done|by apply (write_slots B)].
Qed.
Lemma step_unlink B s g k t v : ok B s g → slot_key k → (1 ≤ level_of k)%nat → k ∉ gone g → tabs g !! parent k = Some t → is_u64 v →
  present v = false → quiet B s g (write_entry t (idx k) v s) (g <| loose := {[k]} ∪ loose g |>).
Proof.
  intros O Hk L G Ht V P. apply step_write; try done; [by exists (parent k)|].
  eapply tree_unlink; [apply (ok_tree _ _ _ O)|done|done|exact P|by apply (write_slots B)].
Qed.
Lemma step_clear B s g k t v : ok B s g → slot_key k → (1 ≤ level_of k)%nat → k ∉ gone g → tabs g !! parent k = Some t → is_u64 v →
  present (slot s g k) = false → present v = false → quiet B s g (write_entry t (idx k) v s) g.
Proof.
  intros O Hk L G Ht V P0 P. apply step_write; try done; [by exists (parent k)|].
  eapply tree_clear; [apply (ok_tree _ _ _ O)|done|done|exact P0|exact P|by apply (write_slots B)].
Qed.

(** ** Moves of slots *)

Lemma step_sw B s g w hs : ok B s g → slots (s <| sw := w |>) (g <| held_slots := hs |>) → geometry w = geometry (sw s) →
  quiet B s g (s <| sw := w |>) (g <| held_slots := hs |>).
Proof.
  intros O S G. split; [split|..|done].
  - apply (tree_held_slots (s <| sw := w |>) g hs). apply (tree_same s); [intros f _; reflexivity|apply (ok_tree _ _ _ O)].
  - apply (frames_refs _ _ g); [done|done|]. destruct (ok_frames _ _ _ O). by split.
  - done.
  - change (view (s <| sw := w |>) g = view s g). apply view_data. split; [intros f _; reflexivity|exact G|reflexivity].
Qed.
Lemma step_slot_free B s g id l : ok B s g → held_slots g ≡ₚ id :: l → quiet B s g (s <| sw := swap_free id (sw s) |>) (g <| held_slots := l |>).
Proof. intros O P. destruct (slots_free s g id l P (ok_slots _ _ _ O)) as [S G]. exact (step_sw B s g _ _ O S G). Qed.
Lemma step_slot_dup B s g id w : ok B s g → (0 < srefs g id)%nat → swap_dup id (sw s) = (true, w) →
  quiet B s g (s <| sw := w |>) (g <| held_slots := id :: held_slots g |>).
Proof. intros O P E. destruct (slots_dup s g id w P (ok_slots _ _ _ O) E) as [S G]. exact (step_sw B s g _ _ O S G). Qed.
End moves.
