(* ===== verification/VmmDestroy.v ===== *)
(** * Giving up tables and spaces

    The loops that give back the tables of a space, or of a copy that could not be finished:
    afterwards nothing of it is left, and everything else is as it was. *)

From S2P Require Import Prelude Pmm Oom Swap Vmm PageEntry PageForest PageMoves PageSteps.

(** ** Parts of a space *)

(** The number of the table of a level that a key is below. *)
Definition num_at (l : nat) (k : key) : Z := k.2 / 512 ^ Z.of_nat (l - level_of k).
(** The keys at and below the tables [lo] to [hi - 1] of a level. *)
Definition within (a : Z) (l : nat) (lo hi : Z) (k : key) : Prop := k.1.1 = a ∧ (level_of k ≤ l)%nat ∧ lo ≤ num_at l k < hi.
Definition under (c k : key) : Prop := within c.1.1 (level_of c) c.2 (c.2 + 1) k.
#[export] Instance within_dec a l lo hi k : Decision (within a l lo hi k).
Proof. unfold within. apply _. Defined.
#[export] Instance under_dec c k : Decision (under c k).
Proof. unfold under. apply _. Defined.

Lemma num_at_self l k : level_of k = l → num_at l k = k.2.
Proof. intros <-. unfold num_at. rewrite Nat.sub_diag. change (512 ^ Z.of_nat 0) with 1. apply Z.div_1_r. Qed.
Lemma num_at_S l k : (level_of k ≤ l)%nat → num_at (S l) k = num_at l k / 512.
Proof.
  intros L. unfold num_at. replace (S l - level_of k)%nat with (S (l - level_of k)) by lia. rewrite Nat2Z.inj_succ, Z.pow_succ_r by lia.
  rewrite Z.mul_comm, Z.div_div; [done| |lia]. assert (0 < 512 ^ Z.of_nat (l - level_of k)) by (apply Z.pow_pos_nonneg; lia). lia.
Qed.
Lemma num_at_parent l k : (level_of k < l)%nat → num_at l (parent k) = num_at l k.
Proof.
  intros L. unfold num_at. rewrite level_parent. unfold parent. cbn [snd]. replace (l - level_of k)%nat with (S (l - S (level_of k))) by lia.
  rewrite Nat2Z.inj_succ, Z.pow_succ_r by lia. rewrite Z.div_div; [done|lia|]. apply Z.pow_pos_nonneg; lia.
Qed.
Lemma under_self k : under k k.
Proof. split; [done|]. split; [done|]. rewrite num_at_self by done. lia. Qed.
Lemma under_parent c k : under c k → k ≠ c → under c (parent k).
Proof.
  intros (A&L&N) Ne. assert (level_of k < level_of c)%nat as L'.
  { destruct (decide (level_of k = level_of c)) as [E|]; [|lia]. destruct Ne. rewrite num_at_self in N by done.
    destruct k as [[a l] q], c as [[a' l'] q']. unfold level_of in *. cbn in *. subst. f_equal. lia. }
  split; [done|]. split; [rewrite level_parent; lia|]. by rewrite num_at_parent.
Qed.
(** What is under a table is the table itself, or under one of its children. *)
Lemma under_children k k' : (1 ≤ level_of k)%nat → under k k' ↔ k' = k ∨ within k.1.1 (pred (level_of k)) (k.2 * 512) (k.2 * 512 + 512) k'.
Proof.
  intros L. split.
  - intros U. destruct (decide (k' = k)) as [->|N]; [by left|right]. destruct U as (A&L'&R).
    assert (level_of k' ≤ pred (level_of k))%nat as Lp.
    { destruct (decide (level_of k' = level_of k)) as [E|]; [|lia]. destruct N. rewrite num_at_self in R by done.
      destruct k as [[a l] q], k' as [[a' l'] q']. unfold level_of in *. cbn in *. subst. f_equal. lia. }
    split; [done|]. split; [done|]. replace (level_of k) with (S (pred (level_of k))) in R by lia. rewrite num_at_S in R by done.
    pose proof (Z.div_mod (num_at (pred (level_of k)) k') 512). pose proof (Z.mod_pos_bound (num_at (pred (level_of k)) k') 512). lia.
  - intros [->|(A&L'&R)]; [apply under_self|]. split; [done|]. split; [lia|]. replace (level_of k) with (S (pred (level_of k))) by lia.
    rewrite num_at_S by done. pose proof (Z.div_mod (num_at (pred (level_of k)) k') 512). pose proof (Z.mod_pos_bound (num_at (pred (level_of k)) k') 512). lia.
Qed.
Lemma within_next a l lo hi k : lo ≤ hi → within a l lo (hi + 1) k ↔ within a l lo hi k ∨ under (a, l, hi) k.
Proof. intros. unfold under, within, level_of. cbn. split; [intros (?&?&?)|intros [(?&?&?)|(?&?&?)]]; [|split_and!; try done; lia..]. destruct (decide (num_at l k < hi)); [left|right]; split_and!; try done; lia. Qed.
Lemma within_empty a l lo k : ¬ within a l lo lo k.
Proof. intros (_&_&?). lia. Qed.
Lemma level_in_use (l : nat) k : (level_of k = l)%nat → ∀ a lo hi, within a l lo hi k ↔ k.1.1 = a ∧ lo ≤ k.2 < hi.
Proof. intros E a lo hi. unfold within. rewrite num_at_self by done. split; [intros (?&?&?)|intros [??]]; split_and!; try done; lia. Qed.

Section orphans.
Context {D : Type} `{DiskLaws D}.
Implicit Types (s : vmm D) (g : shape) (B : gmap Z (option (list Z) * Z)).

Lemma slot_some s g k : slot s g k ≠ 0 → is_Some (tabs g !! parent k) ∧ k ∉ gone g.
Proof. unfold slot. destruct (decide (k ∈ gone g)); [done|]. destruct (tabs g !! parent k); [eauto|done]. Qed.
Lemma present_nonzero e : present e = true → e ≠ 0.
Proof. by intros E ->. Qed.
Lemma in_use_nonzero e : in_use e = true → e ≠ 0.
Proof. by intros E ->. Qed.
(** A table that is hung in hangs under tables. *)
Lemma no_orphans s g c k : tree s g → (level_of c ≤ 3)%nat → (∀ x, x ∈ loose g → under c x → x = c) → is_Some (tabs g !! k) → under c k → is_Some (tabs g !! c).
Proof.
  intros T Lc Lo. remember (level_of c - level_of k)%nat as n eqn:En. revert k En. induction n as [n IH] using lt_wf_ind. intros k En [t Ht] U.
  destruct (decide (k = c)) as [->|N]; [by exists t|]. pose proof (under_parent c k U N) as Up.
  assert (k ∉ loose g) as Nl by (intros I; by apply N, Lo). destruct U as (_&L&_).
  pose proof (tr_child _ _ T k t Ht ltac:(lia) Nl) as P. apply (λ p, slot_some s g k (present_nonzero _ p)) in P as [P _].
  apply (IH (level_of c - level_of (parent k))%nat) with (k := parent k); [|done|done|done].
  rewrite level_parent. destruct Up as (_&Lp&_). rewrite level_parent in Lp. lia.
Qed.
Lemma leaf_parent s g k e : tree s g → leaves g !! k = Some e → slot s g k = e ∧ in_use e = true ∧ is_Some (tabs g !! parent k) ∧ k ∉ gone g.
Proof.
  intros T E. destruct (tr_leaf_key _ _ T k e E) as [Hk L]. rewrite (tr_leaf _ _ T k Hk L) in E. destruct (in_use (slot s g k)) eqn:U; [|done].
  injection E as <-. split; [done|]. split; [done|]. by apply (slot_some s g k), in_use_nonzero.
Qed.
Lemma no_orphan_leaves s g c k : tree s g → (1 ≤ level_of c ≤ 3)%nat → (∀ x, x ∈ loose g → under c x → x = c) → is_Some (leaves g !! k) → under c k → is_Some (tabs g !! c).
Proof.
  intros T Lc Lo [e E] U. destruct (leaf_parent s g k e T E) as (_&_&P&_). destruct (tr_leaf_key _ _ T k e E) as [_ L].
  apply (no_orphans s g c (parent k)); [done|lia|done|done|]. apply under_parent; [done|]. intros ->. lia.
Qed.

End orphans.

(** A loop over the indices of a table. *)
Lemma foldl_indices {A} (f : A → Z → A) (P : Z → A → Prop) lo n a : 0 ≤ n → P lo a → (∀ i a, lo ≤ i < lo + n → P i a → P (i + 1) (f a i)) → P (lo + n) (foldl f a (seqZ lo n)).
Proof.
  intros Hn. rewrite <- (Z2Nat.id n) by done. generalize (Z.to_nat n). clear n Hn. intros n. revert lo a. induction n as [|n IH]; intros lo a P0 St.
  - change (seqZ lo (Z.of_nat 0)) with (@nil Z). cbn. by rewrite Z.add_0_r.
  - rewrite seqZ_cons by lia. cbn [foldl]. replace (Z.pred (Z.of_nat (S n))) with (Z.of_nat n) by lia. replace (lo + Z.of_nat (S n)) with (Z.succ lo + Z.of_nat n) by lia.
    apply IH; [apply St; [lia|done]|]. intros i b Hi. apply St. lia.
Qed.

(** ** Giving up tables *)

Section destroy.
Context {D : Type} `{DiskLaws D}.
Implicit Types (s : vmm D) (g : shape) (B : gmap Z (option (list Z) * Z)) (k : key).

(** What is in no table under [k] any more. *)
Record emptied B s g (R : key → Prop) `{∀ k, Decision (R k)} s' g' : Prop := {
  em_ok : ok B s' g';
  em_tabs : ∀ k', tabs g' !! k' = if decide (R k') then None else tabs g !! k';
  em_view : ∀ k', view s' g' !! k' = if decide (R k') then None else view s g !! k';
  em_held : held g' ≡ₚ held g;
  em_slots : held_slots g' ≡ₚ held_slots g;
  em_outer : outer s' = outer s;
  em_ram : ∀ f, page_bytes s' f = page_bytes s f;
  em_sub : leaves g' ⊆ leaves g;
}.
(** The table hangs nowhere, and nothing else under it is loose or counts as empty. *)
Definition detached g k : Prop := (∀ x, x ∈ loose g → under k x → x = k) ∧ (∀ x, x ∈ gone g → under k x → x = k).

Lemma leaf_view_none s g k : view s g !! k = None ↔ leaves g !! k = None.
Proof. unfold view. rewrite lookup_fmap. by rewrite fmap_None. Qed.
Lemma under_page c k : level_of c = 0%nat → under c k ↔ k = c.
Proof.
  intros L. split; [|by intros ->; apply under_self]. intros (A&L'&N). rewrite L in *. rewrite num_at_self in N by lia.
  destruct k as [[a l] q], c as [[a' l'] q']. unfold level_of in *. cbn in *. subst. f_equal; [f_equal; lia|lia].
Qed.
Lemma table_level s g k t : tree s g → tabs g !! k = Some t → (1 ≤ level_of k)%nat.
Proof. intros T E. destruct (tr_key _ _ T k t E) as [[[? _]|[? _]] _]; lia. Qed.
Lemma child_level k i : (1 ≤ level_of k)%nat → level_of (child k i) = pred (level_of k).
Proof. done. Qed.
Lemma child_under k i : (1 ≤ level_of k)%nat → 0 ≤ i < 512 → under k (child k i).
Proof.
  intros L R. apply under_children; [done|]. right. split; [done|]. split; [done|]. rewrite num_at_self by done. cbn. lia.
Qed.
Lemma under_child k i x : (1 ≤ level_of k)%nat → 0 ≤ i < 512 → under (child k i) x → under k x ∧ x ≠ k.
Proof.
  intros L Hi (A&Lx&R). rewrite child_level in * by done. change ((child k i).2) with (k.2 * 512 + i) in R. split.
  - apply under_children; [done|]. right. split; [done|]. split; [done|lia].
  - intros ->. lia.
Qed.
Lemma child_inj k i j : child k i = child k j → i = j.
Proof. intros E. apply (f_equal snd) in E. cbn in E. lia. Qed.
Lemma child_ne k i : (1 ≤ level_of k)%nat → child k i ≠ k.
Proof. intros L E. apply (f_equal level_of) in E. rewrite child_level in E by done. lia. Qed.
Lemma page_entries s s' t i : (∀ f, page_bytes s' f = page_bytes s f) → read_entry t i s' = read_entry t i s.
Proof. intros E. unfold read_entry. by rewrite E. Qed.

(** One page of a table is given back. *)
Lemma destroy_page B s g k t i below : ok B s g → tabs g !! k = Some t → level_of k = 1%nat → 0 ≤ i < 512 → child k i ∉ gone g →
  let s' := destroy_entry 1 below t s i in
  ∃ g', emptied B s g (λ k', k' = child k i) s' g' ∧ loose g' = loose g ∧ (gone g ⊆ gone g') ∧ (∀ x, x ∈ gone g' → x ∈ gone g ∨ x = child k i) ∧
    in_use (slot s' g' (child k i)) = false.
Proof.
  intros O Ht L Hi Ng s'. remember (child k i) as c eqn:Ec. assert (level_of c = 0%nat) as Lc by (rewrite Ec, child_level; lia).
  assert (parent c = k) as Pc by (rewrite Ec; apply parent_child; lia). pose proof (ok_tree _ _ _ O) as T.
  assert (slot_key c) as Hc by (rewrite Ec; apply child_key; [apply (tr_key _ _ T k t Ht)|done|lia]).
  assert (slot s g c = read_entry t i s) as Es by (unfold slot; rewrite decide_False by done; rewrite Pc, Ht, Ec; by rewrite idx_child).
  pose proof (tr_leaf _ _ T c Hc Lc) as El. rewrite Es in El. set (e := read_entry t i s) in *.
  assert (∀ k', tabs g !! k' = if decide (k' = c) then None else tabs g !! k') as Et.
  { intros k'. case_decide as E; [|done]. rewrite E. destruct (tabs g !! c) eqn:E'; [|done]. apply (table_level s g) in E'; [lia|done]. }
  destruct (in_use e) eqn:U.
  - destruct (step_hide_leaf B s g c O Hc Lc) as [O1 V1]. rewrite El in O1, V1.
    set (g1 := g <| gone := {[c]} ∪ gone g |> <| leaves := delete c (leaves g) |> <| held := held g ++ parts leaf_frame (Some e) |> <| held_slots := held_slots g ++ parts leaf_slot (Some e) |>) in *.
    assert (∃ g', quiet B s g1 s' g' ∧ tabs g' = tabs g ∧ leaves g' = leaves g1 ∧ loose g' = loose g ∧ gone g' = gone g1 ∧ held g' ≡ₚ held g ∧ held_slots g' ≡ₚ held_slots g ∧
      ∀ f, page_bytes s' f = page_bytes s f) as (g'&Q&E1&E2&E3&E4&E5&E6&E7).
    { unfold s', destroy_entry. fold e. unfold in_use in U. fold (present e) in *. change (has e VMM_PAGE_PRESENT) with (present e) in *. destruct (present e) eqn:P; cbn [negb Nat.eqb].
      - assert (parts leaf_frame (Some e) = [addr e]) as F by (unfold parts, leaf_frame; by rewrite P).
        assert (parts leaf_slot (Some e) = []) as F' by (unfold parts, leaf_slot; by rewrite P).
        destruct (step_free B s g1 (addr e) (held g) O1) as [Q Sd]. { change (held g1) with (held g ++ parts leaf_frame (Some e)). rewrite F. by rewrite Permutation_app_comm. }
        eexists. split; [exact Q|]. split_and!; try done; [change (held_slots g ++ parts leaf_slot (Some e) ≡ₚ held_slots g); by rewrite F', app_nil_r|]. intros f. apply page_same. cbn.
        pose proof (free_page_freed (pm s) (addr e)) as Fr. destruct (fr_data _ _ _ (ok_frames _ _ _ O1) (addr e)) as ([A R]&Us&_).
        { change (frefs g1 (addr e)) with (uses leaf_frame (addr e) (delete c (leaves g)) + copies (addr e) (held g ++ parts leaf_frame (Some e)))%nat.
          rewrite F, copies_app, copies_cons, one_true by done. lia. }
        by rewrite (fd_ram _ _ _ (Fr (fr_pmm _ _ _ (ok_frames _ _ _ O1)) A R Us)).
      - cbn in U. rewrite U. assert (parts leaf_frame (Some e) = []) as F by (unfold parts, leaf_frame; by rewrite P).
        assert (parts leaf_slot (Some e) = [SWAP_SLOT_OF e]) as F' by (unfold parts, leaf_slot; by rewrite P).
        eexists. split; [apply (step_slot_free B s g1 (SWAP_SLOT_OF e) (held_slots g) O1); change (held_slots g1) with (held_slots g ++ parts leaf_slot (Some e)); rewrite F'; by rewrite Permutation_app_comm|].
        split_and!; try done. change (held g ++ parts leaf_frame (Some e) ≡ₚ held g). by rewrite F, app_nil_r. }
    exists g'. split_and!; [| done|rewrite E4; unfold g1; cbn; set_solver|rewrite E4; unfold g1; cbn; set_solver|].
    + split; [apply Q|by rewrite E1| |done|done|by rewrite (q_outer _ _ _ _ _ Q)|done|rewrite E2; apply delete_subseteq].
      intros k'. rewrite (q_view _ _ _ _ _ Q), V1. case_decide as Ek; [rewrite Ek; apply lookup_delete_eq|by rewrite lookup_delete_ne].
    + unfold slot. rewrite decide_True; [done|]. rewrite E4. unfold g1. cbn. set_solver.
  - assert (s' = s) as Es'.
    { unfold s', destroy_entry. fold e. unfold in_use in U. apply orb_false_iff in U as [-> ->]. done. }
    rewrite Es'. exists g. split_and!; try done; [|set_solver|by rewrite Es].
    split; try done. intros k'. case_decide as Ek; [|done]. rewrite Ek. by apply leaf_view_none.
Qed.

Lemma emptied_ext B s g (R R' : key → Prop) `{∀ k, Decision (R k)} `{∀ k, Decision (R' k)} s' g' : (∀ k, R k ↔ R' k) → emptied B s g R s' g' → emptied B s g R' s' g'.
Proof.
  intros E [O T V]. split; try done.
  - intros k. rewrite T. repeat case_decide; naive_solver.
  - intros k. rewrite V. repeat case_decide; naive_solver.
Qed.
Lemma emptied_refl B s g (R : key → Prop) `{∀ k, Decision (R k)} : ok B s g → (∀ k, R k → tabs g !! k = None ∧ leaves g !! k = None) → emptied B s g R s g.
Proof. intros O N. split; try done; [| ]; intros k; case_decide as E; try done; destruct (N k E) as [Nt Nl]; [done|by apply leaf_view_none]. Qed.
Lemma emptied_trans B s g (R R' : key → Prop) `{∀ k, Decision (R k)} `{∀ k, Decision (R' k)} s1 g1 s2 g2 :
  emptied B s g R s1 g1 → emptied B s1 g1 R' s2 g2 → emptied B s g (λ k, R k ∨ R' k) s2 g2.
Proof.
  intros [O1 T1 V1 L1 S1 U1 P1 X1] [O2 T2 V2 L2 S2 U2 P2 X2]. split; try done.
  - intros k. rewrite T2, T1. repeat case_decide; tauto.
  - intros k. rewrite V2, V1. repeat case_decide; tauto.
  - by rewrite L2.
  - by rewrite S2.
  - congruence.
  - intros f. by rewrite P2, P1.
  - by etrans.
Qed.
(** Before the empty set. *)
Lemma emptied_quiet B s g s1 g1 (R : key → Prop) `{∀ k, Decision (R k)} s2 g2 : quiet B s g s1 g1 → tabs g1 = tabs g → held g1 ≡ₚ held g → held_slots g1 ≡ₚ held_slots g →
  (∀ f, page_bytes s1 f = page_bytes s f) → leaves g1 ⊆ leaves g → emptied B s1 g1 R s2 g2 → emptied B s g R s2 g2.
Proof.
  intros [_ V U] E1 E2 E3 E4 E5 [O2 T2 V2 L2 S2 U2 P2 X2]. split; try done.
  - intros k. by rewrite T2, E1.
  - intros k. by rewrite V2, V.
  - by rewrite L2.
  - by rewrite S2.
  - congruence.
  - intros f. by rewrite P2.
  - by etrans.
Qed.

Definition gives_up (l : nat) : Prop := ∀ B s g k t, level_of k = l → ok B s g → tabs g !! k = Some t → k ∈ loose g → detached g k →
  ∃ g', emptied B s g (under k) (vmm_destroy_table_level l t s) g' ∧ loose g' = loose g ∖ {[k]} ∧ gone g' = gone g.

(** One table below a table is given up. *)
Lemma destroy_child B s g k t i l : gives_up l → (1 ≤ l ≤ 2)%nat → level_of k = S l → ok B s g → tabs g !! k = Some t → 0 ≤ i < 512 →
  (∀ x, x ∈ loose g → under k x → x = k) → (∀ x, x ∈ gone g → ¬ under (child k i) x) →
  let s' := destroy_entry (S l) (vmm_destroy_table_level l) t s i in
  ∃ g', emptied B s g (under (child k i)) s' g' ∧ loose g' = loose g ∧ (gone g ⊆ gone g') ∧ (∀ x, x ∈ gone g' → x ∈ gone g ∨ x = child k i) ∧
    present (slot s' g' (child k i)) = false.
Proof.
  intros IH Hl L O Ht Hi Lo Go s'. remember (child k i) as c eqn:Ec. assert (level_of c = l) as Lc by (rewrite Ec, child_level; lia).
  assert (parent c = k) as Pc by (rewrite Ec; apply parent_child; lia). pose proof (ok_tree _ _ _ O) as T.
  assert (c ∉ gone g) as Ng by (intros I; by apply (Go c I), under_self). assert (under k c) as Uc by (rewrite Ec; apply child_under; lia).
  assert (c ≠ k) as Nc by (rewrite Ec; apply child_ne; lia). assert (c ∉ loose g) as Nlo by (intros I; by apply Nc, Lo).
  assert (slot_key c) as Hc. { rewrite Ec. apply child_key; [apply (tr_key _ _ T k t Ht)|done|lia]. }
  assert (slot s g c = read_entry t i s) as Es by (unfold slot; rewrite decide_False by done; rewrite Pc, Ht, Ec; by rewrite idx_child).
  assert (∀ x, x ∈ loose g → under c x → x = c) as Loc.
  { intros x Ix Ux. rewrite Ec in Ux. destruct (under_child k i x ltac:(lia) Hi Ux) as [U N]. by destruct (N (Lo x Ix U)). }
  unfold s', destroy_entry. replace ((S l =? 1)%nat) with false by (symmetry; apply Nat.eqb_neq; lia). rewrite <- Es. change (has (slot s g c) VMM_PAGE_PRESENT) with (present (slot s g c)).
  destruct (present (slot s g c)) eqn:P; cbn [negb andb].
  - destruct (tr_link _ _ T c Hc ltac:(lia) P) as [Htc _]. pose proof (step_hide_table B s g c O Hc ltac:(lia)) as Q.
    set (g1 := g <| gone := {[c]} ∪ gone g |> <| loose := {[c]} ∪ loose g |>) in *.
    destruct (IH B s g1 c (addr (slot s g c)) Lc (q_ok _ _ _ _ _ Q)) as (g'&E&E1&E2); [done|unfold g1; cbn; set_solver| |].
    { split; intros x Ix Ux; unfold g1 in Ix; cbn in Ix; [apply elem_of_union in Ix as [Ix|Ix]; [set_solver|by apply Loc]|].
      apply elem_of_union in Ix as [Ix|Ix]; [set_solver|]. by destruct (Go x Ix). }
    exists g'. split_and!.
    + by apply (emptied_quiet B s g s g1).
    + rewrite E1. unfold g1. cbn. set_solver.
    + rewrite E2. unfold g1. cbn. set_solver.
    + rewrite E2. unfold g1. cbn. set_solver.
    + unfold slot. rewrite decide_True; [done|]. rewrite E2. unfold g1. cbn. set_solver.
  - exists g. split_and!; [|done|done|by left|done]. apply emptied_refl; [done|]. intros x Ux.
    assert (tabs g !! c = None) as Nt. { destruct (tabs g !! c) as [tc|] eqn:E; [|done]. rewrite (tr_child _ _ T c tc E ltac:(lia) Nlo) in P. done. }
    split.
    + destruct (tabs g !! x) eqn:E; [|done]. destruct (no_orphans s g c x T) as [? ?]; [lia|done|by eexists|done|congruence].
    + destruct (leaves g !! x) eqn:E; [|done]. destruct (no_orphan_leaves s g c x T) as [? ?]; [lia|done|by eexists|done|congruence].
Qed.

(** The state in the middle of the entries of a table. *)
Definition halfway B s g k i s' : Prop := ∃ g', emptied B s g (within k.1.1 (pred (level_of k)) (k.2 * 512) (k.2 * 512 + i)) s' g' ∧
  loose g' = loose g ∧ gone g ⊆ gone g' ∧ (∀ x, x ∈ gone g' → x ∈ gone g ∨ ∃ j, 0 ≤ j < i ∧ x = child k j) ∧
  ∀ j, 0 ≤ j < i → present (slot s' g' (child k j)) = false ∧ (level_of k = 1%nat → in_use (slot s' g' (child k j)) = false).

(** An entry that is empty stays so while the next ones go. *)
Lemma slot_kept s g s' g' k t j : tabs g !! k = Some t → tabs g' !! k = Some t → (∀ f, page_bytes s' f = page_bytes s f) → gone g ⊆ gone g' → (1 ≤ level_of k)%nat → 0 ≤ j < 512 →
  slot s' g' (child k j) = 0 ∨ slot s' g' (child k j) = slot s g (child k j).
Proof.
  intros E E' P G L R. unfold slot. destruct (decide (child k j ∈ gone g')); [by left|right]. rewrite decide_False by set_solver.
  rewrite parent_child, E, E' by done. by apply page_entries.
Qed.

Lemma halfway_step l B s g k t i s' : (l = 0%nat ∨ (1 ≤ l ≤ 2)%nat ∧ gives_up l) → level_of k = S l → tabs g !! k = Some t → detached g k → 0 ≤ i < 512 →
  halfway B s g k i s' → halfway B s g k (i + 1) (destroy_entry (S l) (vmm_destroy_table_level l) t s' i).
Proof.
  intros Hl L Ht [Lo Go] Hi (g'&E&E1&E2&E3&E4). set (c := child k i). assert (¬ under c k) as Nk by (intros (_&Lk&_); unfold c in Lk; rewrite child_level in Lk; lia).
  assert (tabs g' !! k = Some t) as Ht'. { rewrite (em_tabs _ _ _ _ _ _ E), decide_False; [done|]. intros (_&Lk&_). rewrite L in Lk. cbn in Lk. lia. }
  assert (∀ x, x ∈ gone g' → ¬ under c x) as Gc.
  { intros x Ix Ux. destruct (E3 x Ix) as [I|(j&Hj&->)].
    - destruct (under_child k i x ltac:(lia) Hi Ux) as [U N]. by apply N, Go.
    - destruct Ux as (_&_&R). unfold c in R. rewrite child_level in R by lia. rewrite num_at_self in R by done. unfold child in R. cbn [snd] in R. lia. }
  assert (∃ g2, emptied B s' g' (under c) (destroy_entry (S l) (vmm_destroy_table_level l) t s' i) g2 ∧ loose g2 = loose g' ∧ (gone g' ⊆ gone g2) ∧
    (∀ x, x ∈ gone g2 → x ∈ gone g' ∨ x = c) ∧ present (slot (destroy_entry (S l) (vmm_destroy_table_level l) t s' i) g2 c) = false ∧
    (l = 0%nat → in_use (slot (destroy_entry (S l) (vmm_destroy_table_level l) t s' i) g2 c) = false)) as (g2&F&F1&F2&F3&F4&F5).
  { destruct Hl as [->|[Hl IH]].
    - destruct (destroy_page B s' g' k t i (vmm_destroy_table_level 0) (em_ok _ _ _ _ _ _ E) Ht' L Hi) as (g2&F&F1&F2&F3&F4).
      { intros I. apply (Gc c I), under_self. }
      exists g2. split_and!; try done; [|by unfold in_use in F4; apply orb_false_iff in F4 as [? _]]. eapply emptied_ext; [|exact F]. intros x. symmetry. apply under_page. unfold c. rewrite child_level; lia.
    - destruct (destroy_child B s' g' k t i l IH Hl L (em_ok _ _ _ _ _ _ E) Ht' Hi) as (g2&F&F1&F2&F3&F4); [by rewrite E1|done|].
      exists g2. split_and!; try done. lia. }
  set (s2 := destroy_entry (S l) (vmm_destroy_table_level l) t s' i) in *. exists g2. split_and!.
  - eapply emptied_ext; [|exact (emptied_trans B s g _ _ s' g' s2 g2 E F)]. intros x. cbn. rewrite Z.add_assoc, within_next by lia.
    replace (k.1.1, pred (level_of k), k.2 * 512 + i) with c by done. done.
  - congruence.
  - set_solver.
  - intros x Ix. destruct (F3 x Ix) as [I| ->]; [|right; exists i; split; [lia|done]]. destruct (E3 x I) as [?|(j&Hj&->)]; [by left|right; exists j; split; [lia|done]].
  - intros j Hj. destruct (decide (j = i)) as [->|Nj]; [split; [done|intros; apply F5; lia]|]. destruct (E4 j ltac:(lia)) as [P U].
    assert (tabs g2 !! k = Some t) as Ht2 by (by rewrite (em_tabs _ _ _ _ _ _ F), decide_False).
    destruct (slot_kept s' g' s2 g2 k t j Ht' Ht2 (em_ram _ _ _ _ _ _ F) F2) as [->| ->]; try lia; done.
Qed.

Lemma table_given_up l : (l ≤ 2)%nat → (l = 0%nat ∨ gives_up l) → gives_up (S l).
Proof.
  intros Hl IH B s g k t L O Ht Lk De. cbn [vmm_destroy_table_level].
  assert (halfway B s g k 512 (foldl (destroy_entry (S l) (vmm_destroy_table_level l) t) s (seqZ 0 512))) as (g'&E&E1&E2&E3&E4).
  { apply (foldl_indices (destroy_entry (S l) (vmm_destroy_table_level l) t) (λ i s', halfway B s g k i s') 0 512); [done| |].
    - exists g. split_and!; try done; [|by left|lia]. apply emptied_refl; [done|]. intros x W. rewrite Z.add_0_r in W. by apply within_empty in W.
    - intros i s' Hi. apply halfway_step; try done. destruct IH as [->|IH]; [by left|]. destruct l as [|l]; [by left|right]. split; [lia|done]. }
  set (s' := foldl _ s (seqZ 0 512)) in *. clearbody s'. destruct De as [Lo Go].
  assert (tabs g' !! k = Some t) as Ht'. { rewrite (em_tabs _ _ _ _ _ _ E), decide_False; [done|]. intros (_&Lx&_). rewrite L in Lx. cbn in Lx. lia. }
  destruct (step_remove_table B s' g' k t (em_ok _ _ _ _ _ _ E) Ht') as [Ok Vk Uk]; [right; by rewrite E1| |].
  { intros k' Hk' <-. destruct (E4 (idx k')) as [P U]; [apply idx_range|]. rewrite child_parent in P, U. split; [done|]. intros L0. apply U. rewrite level_parent. lia. }
  set (g2 := remove_table k t g') in *. destruct (step_free B s' g2 t (held g') Ok) as [Q Sd]; [done|].
  exists (g2 <| held := held g' |>). split_and!.
  - split.
    + apply Q.
    + intros x. change (delete k (tabs g') !! x = if decide (under k x) then None else tabs g !! x). destruct (decide (x = k)) as [->|N].
      * rewrite lookup_delete_eq, decide_True by apply under_self. done.
      * rewrite lookup_delete_ne, (em_tabs _ _ _ _ _ _ E) by done. apply decide_ext. rewrite under_children by lia. split; [by right|by intros [?|?]].
    + intros x. rewrite (q_view _ _ _ _ _ Q), Vk, (em_view _ _ _ _ _ _ E). destruct (decide (x = k)) as [->|N].
      * rewrite decide_False by (intros (_&Lx&_); lia). rewrite decide_True by apply under_self. apply leaf_view_none.
        destruct (leaves g !! k) as [e|] eqn:Ek; [|done]. destruct (tr_leaf_key _ _ (ok_tree _ _ _ O) k e Ek). lia.
      * apply decide_ext. rewrite under_children by lia. split; [by right|by intros [?|?]].
    + apply (em_held _ _ _ _ _ _ E).
    + apply (em_slots _ _ _ _ _ _ E).
    + exact (em_outer _ _ _ _ _ _ E).
    + intros f. rewrite <- (em_ram _ _ _ _ _ _ E f). apply page_same. cbn.
      destruct (fr_data _ _ _ (ok_frames _ _ _ Ok) t) as ([A R]&Us&_); [rewrite (frefs_cons g2 (held g') t t), one_true by done; lia|].
      by rewrite (fd_ram _ _ _ (free_page_freed (pm s') t (fr_pmm _ _ _ (ok_frames _ _ _ Ok)) A R Us)).
    + exact (em_sub _ _ _ _ _ _ E).
  - change (loose g' ∖ {[k]} = loose g ∖ {[k]}). by rewrite E1.
  - change (filter (λ x, parent x ≠ k) (gone g') = gone g). apply set_eq. intros x. rewrite elem_of_filter. split.
    + intros [N I]. destruct (E3 x I) as [?|(j&Hj&->)]; [done|]. rewrite parent_child in N by (done || lia). done.
    + intros I. split; [|by apply E2]. intros P. assert (x = k) as ->; [|by apply (parent_ne k)]. apply Go; [done|]. rewrite <- (child_parent x), P. apply child_under; [lia|]. apply idx_range.
Qed.
Lemma destroy_gives_up l : (1 ≤ l ≤ 3)%nat → gives_up l.
Proof.
  induction l as [|l IH]; [lia|]. intros Hl. apply table_given_up; [lia|]. destruct l as [|l]; [by left|right]. apply IH. lia.
Qed.
End destroy.

(** ** Giving up a space *)

Section spaces.
Context {D : Type} `{DiskLaws D}.
Implicit Types (s : vmm D) (g : shape) (B : gmap Z (option (list Z) * Z)) (k : key).

(** The statics that the tables do not depend on may change. *)
Lemma ok_statics B s s' g : pm s' = pm s → sw s' = sw s → disk s' = disk s → kernel_address_space s' = kernel_address_space s → ok B s g → ok B s' g ∧ view s' g = view s g.
Proof.
  intros E1 E2 E3 E4 [T F S]. assert (∀ f, page_bytes s' f = page_bytes s f) as P by (intros f; unfold page_bytes; by rewrite E1). split; [split|].
  - apply (tree_same s); [|done]. intros f _. apply P.
  - destruct F. split; unfold managed, page_bytes in *; rewrite ?E1, ?E4; done.
  - by apply (slots_same s).
  - by apply view_same.
Qed.

Lemma destroy_pt_same t s i : destroy_pt_entry t s i = destroy_entry 1 (λ _ s, s) t s i.
Proof. unfold destroy_pt_entry, destroy_entry. by destruct (has _ VMM_PAGE_PRESENT). Qed.
Lemma destroy_entry_1 below below' t s i : destroy_entry 1 below t s i = destroy_entry 1 below' t s i.
Proof. done. Qed.
Lemma foldl_same {A} (f h : vmm D → A → vmm D) l s : (∀ s x, f s x = h s x) → foldl f s l = foldl h s l.
Proof. intros E. revert s. induction l as [|x l IH]; intros s; [done|]. cbn. by rewrite E, IH. Qed.
Lemma destroy_level_eq l t s : vmm_destroy_table_level (S l) t s = free_page t (foldl (destroy_entry (S l) (vmm_destroy_table_level l) t) s (seqZ 0 512)).
Proof. done. Qed.
Lemma destroy_pd_same t s i : destroy_pd_entry t s i = destroy_entry 2 (vmm_destroy_table_level 1) t s i.
Proof.
  unfold destroy_pd_entry, destroy_entry. destruct (has _ VMM_PAGE_PRESENT); cbn [negb Nat.eqb andb]; [|reflexivity]. rewrite destroy_level_eq. apply f_equal, foldl_same. intros u x. apply destroy_pt_same.
Qed.
Lemma destroy_pdpt_same t s i : destroy_pdpt_entry t s i = destroy_entry 3 (vmm_destroy_table_level 2) t s i.
Proof.
  unfold destroy_pdpt_entry, destroy_entry. destruct (has _ VMM_PAGE_PRESENT); cbn [negb Nat.eqb andb]; [|reflexivity]. rewrite destroy_level_eq. apply f_equal, foldl_same. intros u x. apply destroy_pd_same.
Qed.
Lemma destroy_root_same s e : destroy_root_entry s e = if present e then vmm_destroy_table_level 3 (addr e) s else s.
Proof.
  unfold destroy_root_entry. change (has e VMM_PAGE_PRESENT) with (present e). destruct (present e); cbn [negb]; [|reflexivity]. rewrite destroy_level_eq. apply f_equal, foldl_same. intros u x. apply destroy_pdpt_same.
Qed.

(** The keys of a space are its root and what is under one of 256 tables. *)
Lemma space_keys a k : k.1.1 = a → slot_key k → within a 3 0 256 k.
Proof.
  intros A (L&Q). split; [done|]. split; [done|]. unfold num_at. unfold top in Q. split; [apply Z.div_pos; [lia|apply Z.pow_pos_nonneg; lia]|].
  apply Z.div_lt_upper_bound; [apply Z.pow_pos_nonneg; lia|]. change 512 with (2 ^ 9). change 256 with (2 ^ 8). rewrite <- Z.pow_mul_r, <- Z.pow_add_r by lia.
  replace (9 * Z.of_nat (3 - level_of k) + 8) with (35 - 9 * Z.of_nat (level_of k)) by lia. lia.
Qed.
Definition root_key (a : Z) : key := (a, 4%nat, 0).
Lemma parent_top a i : 0 ≤ i < 256 → parent (a, 3%nat, i) = root_key a.
Proof. intros. unfold parent, root_key. cbn. f_equal. apply Z.div_small. lia. Qed.
Lemma idx_top a i : 0 ≤ i < 256 → idx (a, 3%nat, i) = i.
Proof. intros. unfold idx. cbn. apply Z.mod_small. lia. Qed.
Lemma top_key a i : 0 ≤ i < 256 → slot_key (a, 3%nat, i).
Proof. intros. split; [done|]. change (top 3) with 256. done. Qed.
Lemma parent_is_root k a : slot_key k → parent k = root_key a → k = (a, 3%nat, k.2) ∧ 0 ≤ k.2 < 256.
Proof.
  destruct k as [[b l] q]. intros (L&Q) E. unfold parent, root_key, level_of in *. cbn in *. injection E as -> -> E.
  change (top 3) with 256 in Q. done.
Qed.

(** The first [i] entries of the root are cleared. *)
Definition cut_off B s g (a i : Z) s' : Prop := ∃ g', quiet B s g s' g' ∧ tabs g' = tabs g ∧ leaves g' = leaves g ∧ gone g' = ∅ ∧ held g' = held g ∧ held_slots g' = held_slots g ∧
  (∀ x, x ∈ loose g' ↔ ∃ j, 0 ≤ j < i ∧ x = (a, 3%nat, j) ∧ is_Some (tabs g !! x)) ∧ (∀ j, 0 ≤ j < i → read_entry a j s' = 0) ∧
  (∀ j, i ≤ j < 256 → read_entry a j s' = read_entry a j s).
Lemma cut_off_step B s g a i s' : ok B s g → tabs g !! root_key a = Some a → loose g = ∅ → gone g = ∅ → 0 ≤ i < 256 → cut_off B s g a i s' → cut_off B s g a (i + 1) (write_entry a i 0 s').
Proof.
  intros O Ha L0 G0 Hi (g'&Q&E1&E2&E3&E4&E5&E6&E7&E8). pose proof (q_ok _ _ _ _ _ Q) as O'. set (k := (a, 3%nat, i)).
  assert (tabs g' !! parent k = Some a) as Hp by (unfold k; by rewrite E1, parent_top). assert (slot_key k) as Hk by (by apply top_key).
  assert (k ∉ gone g') as Gk by (rewrite E3; set_solver). assert (is_u64 0) as V by done.
  assert (is_page (page_bytes s' a)) as Pa by (apply (fr_page _ _ _ (ok_frames _ _ _ O')); left; by exists (parent k)).
  assert (∀ j, 0 ≤ j < 512 → read_entry a j (write_entry a i 0 s') = if decide (j = i) then 0 else read_entry a j s') as Rd.
  { intros j Hj. rewrite read_write by (done || lia). destruct (decide (j = i)); [by rewrite decide_True|by rewrite decide_False by tauto]. }
  assert (slot s' g' k = read_entry a i s') as Sk by (unfold slot; rewrite decide_False, Hp by done; unfold k; by rewrite idx_top).
  destruct (present (slot s' g' k)) eqn:P.
  - pose proof (step_unlink B s' g' k a 0 O' Hk ltac:(cbn; lia) Gk Hp V eq_refl) as Q2. unfold k in Q2. rewrite idx_top in Q2 by done.
    destruct (tr_link _ _ (ok_tree _ _ _ O') k Hk ltac:(cbn; lia) P) as [Tk _]. rewrite E1 in Tk.
    exists (g' <| loose := {[k]} ∪ loose g' |>). split_and!; try done; [exact (quiet_trans _ _ _ _ _ _ _ Q Q2)| | |].
    + intros x. cbn. rewrite elem_of_union, elem_of_singleton, E6. split.
      * intros [->|(j&Hj&Ex)]; [exists i; split_and!; [lia|lia|done|by eexists]|exists j; split_and!; [lia|lia|apply Ex..]].
      * intros (j&Hj&->&Sj). destruct (decide (j = i)) as [->|N]; [by left|right]. exists j. split_and!; [lia|lia|done|done].
    + intros j Hj. rewrite Rd by lia. case_decide; [done|]. apply E7. lia.
    + intros j Hj. rewrite Rd, decide_False by lia. apply E8. lia.
  - pose proof (step_clear B s' g' k a 0 O' Hk ltac:(cbn; lia) Gk Hp V P eq_refl) as Q2. unfold k in Q2. rewrite idx_top in Q2 by done.
    assert (tabs g !! k = None) as Tk.
    { destruct (tabs g !! k) as [t|] eqn:E; [|done]. rewrite (tr_child _ _ (ok_tree _ _ _ O') k t) in P; [done|by rewrite E1|cbn; lia|].
      rewrite E6. intros (j&Hj&Ek&_). unfold k in Ek. simplify_eq. lia. }
    exists g'. split_and!; try done; [exact (quiet_trans _ _ _ _ _ _ _ Q Q2)| | |].
    + intros x. rewrite E6. split; intros (j&Hj&->&Sj); exists j; (split_and!; [lia| |done|done]); [lia|].
      destruct (decide (j = i)) as [->|N]; [|lia]. unfold k in Tk. rewrite Tk in Sj. by destruct Sj.
    + intros j Hj. rewrite Rd by lia. case_decide; [done|]. apply E7. lia.
    + intros j Hj. rewrite Rd, decide_False by lia. apply E8. lia.
Qed.

(** No operation is in the middle of something. *)
Record settled g : Prop := {
  st_loose : loose g = ∅;
  st_gone : gone g = ∅;
  st_held : held g = [];
  st_slots : held_slots g = [];
}.

(** The tables below the first [i] entries of a root that was cut off are gone. *)
Definition felled B s g (a i : Z) s' : Prop := ∃ g', emptied B s g (within a 3 0 i) s' g' ∧ gone g' = ∅ ∧
  (∀ x, x ∈ loose g' ↔ x ∈ loose g ∧ ¬ within a 3 0 i x).
Lemma felled_step B s g a i s' e : gone g = ∅ → (∀ x, x ∈ loose g ↔ ∃ j, 0 ≤ j < 256 ∧ x = (a, 3%nat, j) ∧ is_Some (tabs g !! x)) → 0 ≤ i < 256 →
  (present e = true → tabs g !! (a, 3%nat, i) = Some (addr e)) → (present e = false → tabs g !! (a, 3%nat, i) = None) →
  felled B s g a i s' → felled B s g a (i + 1) (destroy_root_entry s' e).
Proof.
  intros G0 Lg Hi Pt Pf (g'&E&G&Lo). set (c := (a, 3%nat, i)) in *. assert (¬ within a 3 0 i c) as Nc by (unfold c; intros (_&_&R); rewrite num_at_self in R by done; cbn in R; lia).
  assert (∀ x, x ∈ loose g' → under c x → x = c) as Lc.
  { intros x Ix U. apply Lo in Ix as [Ix _]. apply Lg in Ix as (j&Hj&->&_). destruct U as (_&_&R). rewrite num_at_self in R by done. unfold c in *. cbn in R. f_equal. lia. }
  assert (∀ x, under c x ↔ within a 3 i (i + 1) x) as Uc by done.
  assert (tabs g' !! c = tabs g !! c) as Tc by (by rewrite (em_tabs _ _ _ _ _ _ E), decide_False).
  rewrite destroy_root_same. destruct (present e) eqn:P.
  - specialize (Pt eq_refl). rewrite Pt in Tc. destruct (destroy_gives_up 3 ltac:(lia) B s' g' c (addr e) eq_refl (em_ok _ _ _ _ _ _ E) Tc) as (g2&F&F1&F2).
    { apply Lo. split; [|done]. apply Lg. exists i. split_and!; try done; lia. }
    { split; [done|]. rewrite G. set_solver. }
    set (s2 := vmm_destroy_table_level 3 (addr e) s') in *. clearbody s2. exists g2. split_and!.
    + eapply emptied_ext; [|exact (emptied_trans B s g _ _ s' g' s2 g2 E F)]. intros x. cbn beta. by rewrite within_next by lia.
    + by rewrite F2.
    + intros x. rewrite F1, elem_of_difference, elem_of_singleton, Lo, within_next by lia. change (a, 3%nat, i) with c. split.
      * intros [[I N] Nx]. split; [done|]. intros [W|U]; [done|]. apply Nx, Lc; [by apply Lo|done].
      * intros [I N]. split; [split; [done|tauto]|]. intros ->. apply N. right. apply under_self.
  - specialize (Pf eq_refl). rewrite Pf in Tc. pose proof (ok_tree _ _ _ (em_ok _ _ _ _ _ _ E)) as T. exists g'. split_and!; [|done|].
    + eapply emptied_ext; [|apply (emptied_trans B s g _ (under c) s' g' s' g' E)].
      * intros x. cbn beta. by rewrite within_next by lia.
      * apply emptied_refl; [apply E|]. intros x U. split.
        -- destruct (tabs g' !! x) eqn:Ex; [|done]. destruct (no_orphans s' g' c x T) as [? ?]; [cbn; lia|done|by eexists|done|congruence].
        -- destruct (leaves g' !! x) eqn:Ex; [|done]. destruct (no_orphan_leaves s' g' c x T) as [? ?]; [cbn; lia|done|by eexists|done|congruence].
    + intros x. rewrite Lo, within_next by lia. change (a, 3%nat, i) with c. split; [|tauto]. intros [I N]. split; [done|]. intros [W|U]; [done|].
      assert (x = c) as -> by (apply Lc; [by apply Lo|done]). apply Lg in I as (j&_&_&S). rewrite Pf in S. by destruct S.
Qed.
Lemma unregister_tables s a : pm (space_unregister a s) = pm s ∧ sw (space_unregister a s) = sw s ∧ disk (space_unregister a s) = disk s ∧
  kernel_address_space (space_unregister a s) = kernel_address_space s.
Proof. unfold space_unregister. destruct (for_first _ _ _); [|done]. by case_match. Qed.
Lemma foldl_map_indices {A} (f : A → Z → A) (h : Z → Z) l a : foldl f a (map h l) = foldl (λ a i, f a (h i)) a l.
Proof. revert a. induction l as [|x l IH]; intros a; [done|]. cbn. apply IH. Qed.

Lemma destroy_space B s g a : ok B s g → settled g → tabs g !! root_key a = Some a → a ≠ kernel_address_space s →
  let s' := vmm_destroy_address_space_locked a s in ∃ g', ok B s' g' ∧ settled g' ∧ (∀ k, tabs g' !! k = if decide (k.1.1 = a) then None else tabs g !! k) ∧
    (∀ k, view s' g' !! k = if decide (k.1.1 = a) then None else view s g !! k) ∧ outer s' = outer (space_unregister a s) ∧ leaves g' ⊆ leaves g.
Proof.
  intros O0 [L0 G0 H0' S0] Ha Nk. assert (a ≠ 0) as Na.
  { destruct (fr_table _ _ _ (ok_frames _ _ _ O0) a) as (M&_); [by exists (root_key a)|]. by apply (managed_frame B s g) in M as [_ ?]; [|apply O0]. }
  unfold vmm_destroy_address_space_locked. destruct (Z.eqb_spec a 0), (Z.eqb_spec a (kernel_address_space s)); try done. cbn [orb]. cbv zeta.
  destruct (unregister_tables s a) as (E1&E2&E3&E4). destruct (ok_statics B s (space_unregister a s) g E1 E2 E3 E4 O0) as [O V0].
  set (s0 := space_unregister a s) in *. clearbody s0. rewrite foldl_map_indices.
  assert (cut_off B s0 g a 256 (foldl (λ s i, write_entry a i 0 s) s0 (seqZ 0 256))) as (g1&Q&T1&V1&G1&H1&S1&L1&Z1&_).
  { apply (foldl_indices (λ s i, write_entry a i 0 s) (λ i s', cut_off B s0 g a i s') 0 256); [done| |].
    - exists g. split_and!; try done; [intros x; rewrite L0; split; [set_solver|intros (j&Hj&_); lia]|lia].
    - intros i s' Hi. by apply cut_off_step. }
  set (s1 := foldl _ s0 (seqZ 0 256)) in *. clearbody s1. pose proof (ok_tree _ _ _ O) as T.
  assert (∀ i, 0 ≤ i < 256 → slot s0 g (a, 3%nat, i) = read_entry a i s0) as Sl.
  { intros i Hi. unfold slot. rewrite decide_False by (rewrite G0; set_solver). by rewrite parent_top, Ha, idx_top. }
  assert (felled B s1 g1 a 256 (foldl (λ s i, destroy_root_entry s (read_entry a i s0)) s1 (seqZ 0 256))) as (g2&F&G2&L2).
  { apply (foldl_indices (λ s i, destroy_root_entry s (read_entry a i s0)) (λ i s', felled B s1 g1 a i s') 0 256); [done| |].
    - exists g1. split_and!; [|done|intros x; split; [intros I; split; [done|apply within_empty]|by intros [? _]]].
      apply emptied_refl; [apply Q|]. intros x W. by apply within_empty in W.
    - intros i s' Hi. apply felled_step; [done|by intros x; rewrite L1, T1|done|..]; intros P; rewrite <- Sl in P by lia; rewrite T1.
      + rewrite <- Sl by lia. destruct (tr_link _ _ T (a, 3%nat, i) (top_key a i Hi) ltac:(cbn; lia) P) as [Ql _]. exact Ql.
      + destruct (tabs g !! (a, 3%nat, i)) as [t|] eqn:Et; [|done]. rewrite (tr_child _ _ T _ t Et) in P; [done|cbn; lia|rewrite L0; set_solver]. }
  set (s2 := foldl _ s1 (seqZ 0 256)) in *. clearbody s2.
  assert (tabs g2 !! root_key a = Some a) as Ha2. { rewrite (em_tabs _ _ _ _ _ _ F), decide_False; [by rewrite T1|]. intros (_&Lx&_). cbn in Lx. lia. }
  destruct (step_remove_table B s2 g2 (root_key a) a (em_ok _ _ _ _ _ _ F) Ha2) as [O3 V3 U3]; [by left| |].
  { intros k' Hk' P. destruct (parent_is_root k' a Hk' P) as [-> R]. assert (slot s2 g2 (a, 3%nat, k'.2) = 0) as ->; [|done].
    unfold slot. rewrite decide_False by (rewrite G2; set_solver). rewrite parent_top, Ha2, idx_top by done. rewrite (page_entries s1) by apply F. by apply Z1. }
  set (g3 := remove_table (root_key a) a g2) in *. destruct (step_free B s2 g3 a (held g2) O3) as [Q4 _]; [done|].
  assert (held g2 = []) as Hh by (apply Permutation_nil; symmetry; rewrite (em_held _ _ _ _ _ _ F), H1, H0'; done).
  assert (held_slots g2 = []) as Hs by (apply Permutation_nil; symmetry; rewrite (em_slots _ _ _ _ _ _ F), S1, S0; done).
  assert (∀ k, k.1.1 = a → table_key k ∨ slot_key k → k = root_key a ∨ within a 3 0 256 k) as Sk.
  { intros k A [[[_ Hk]|[Lk Qk]]|Hk]; [right; by apply space_keys|left|right; by apply space_keys].
    destruct k as [[b l] q]. unfold level_of, root_key in *. cbn in *. by subst. }
  exists (g3 <| held := held g2 |>). split_and!.
  - apply Q4.
  - split.
    + apply set_eq. intros x. change (x ∈ loose g2 ∖ {[root_key a]} ↔ x ∈ (∅ : gset key)). split; [|set_solver]. intros [I _]%elem_of_difference. exfalso.
      apply L2 in I as [I N]. apply L1 in I as (j&Hj&->&_). apply N. apply (space_keys a); [done|by apply top_key].
    + change (filter (λ x, parent x ≠ root_key a) (gone g2) = ∅). rewrite G2. apply set_eq. intros x. rewrite elem_of_filter. set_solver.
    + done.
    + done.
  - intros k. change (delete (root_key a) (tabs g2) !! k = if decide (k.1.1 = a) then None else tabs g !! k). destruct (decide (k = root_key a)) as [->|N].
    + rewrite lookup_delete_eq, decide_True; done.
    + rewrite lookup_delete_ne, (em_tabs _ _ _ _ _ _ F), T1 by done. destruct (tabs g !! k) as [t|] eqn:Et; [|by repeat case_decide].
      destruct (tr_key _ _ T k t Et) as [Tk _]. destruct (decide (k.1.1 = a)) as [A|A].
      * destruct (Sk k A (or_introl Tk)); [done|]. by rewrite decide_True.
      * rewrite decide_False; [done|]. by intros (?&_).
  - intros k. rewrite (q_view _ _ _ _ _ Q4), V3, (em_view _ _ _ _ _ _ F), (q_view _ _ _ _ _ Q), V0. destruct (decide (k.1.1 = a)) as [A|A].
    + case_decide as W; [done|]. apply leaf_view_none. destruct (leaves g !! k) as [e|] eqn:Ee; [|done]. destruct (tr_leaf_key _ _ T k e Ee) as [Hk Lk].
      destruct (Sk k A (or_intror Hk)) as [->|?]; done.
    + rewrite decide_False; [done|]. by intros (?&_).
  - change (outer s2 = outer s0). by rewrite (em_outer _ _ _ _ _ _ F), (q_outer _ _ _ _ _ Q).
  - change (leaves g2 ⊆ leaves g). rewrite <- V1. exact (em_sub _ _ _ _ _ _ F).
Qed.
End spaces.
