(* ===== verification/Cpu.v ===== *)
(** * The table of processors (src/src/kernel/smp/cpu.c)

    What the boot loader reports, and the state of each processor.  The state of
    an application processor moves by compare-and-exchange: the processor that
    starts it and the one that is started agree on who wins. *)

From S2P Require Import Prelude.

(** [src/kernel/smp/cpu.h:6-6] CPU_MAX_COUNT *)
Definition CPU_MAX_COUNT : nat := 16.

(** [src/kernel/smp/cpu.h:10-18] cpu_state *)
Inductive cpu_state :=
| CPU_ABSENT | CPU_PARKED | CPU_STARTING | CPU_ONLINE | CPU_IDLE | CPU_FAILED | CPU_TIMED_OUT.
#[export] Instance cpu_state_eq_dec : EqDecision cpu_state.
Proof. solve_decision. Defined.

(** [src/kernel/smp/cpu.h:20-26] cpu_info *)
Record cpu_info := CpuInfo {
  logical_id : Z;
  processor_id : Z;
  lapic_id : Z;
  ids_valid : bool;
  is_bsp : bool;
}.
Definition cpu_info_zero : cpu_info := CpuInfo 0 0 0 false false.

(** What the boot loader says about a processor; a null entry is [None].
    [src/boot/limine.h:340-346] limine_smp_info *)
Record limine_smp_info := SmpInfo { smp_processor_id : Z; smp_lapic_id : Z }.
(** [cpu_count] is the length of the list.
    [src/boot/limine.h:348-354] limine_smp_response *)
Record limine_smp_response := SmpResponse { bsp_lapic_id : Z; smp_cpus : option (list (option limine_smp_info)) }.

(** [src/kernel/smp/cpu.c:7-11] cpus *)
Record topology := Topology {
  cpus : list cpu_info;
  states : list cpu_state;
  detected_count : Z;
  registered_count : Z;
}.
#[export] Instance eta_topology : Eta topology := λ t,
  Topology (cpus t) (states t) (detected_count t) (registered_count t).

Definition bsp_info : cpu_info := CpuInfo 0 0 0 false true.
Definition cpu_boot : topology :=
  Topology (aset (replicate CPU_MAX_COUNT cpu_info_zero) 0 bsp_info)
    (aset (replicate CPU_MAX_COUNT CPU_ABSENT) 0 CPU_ONLINE) 1 1.

Definition info_at (t : topology) (id : Z) : cpu_info := aget cpu_info_zero (cpus t) id.
Definition state_at (t : topology) (id : Z) : cpu_state := aget CPU_ABSENT (states t) id.
Definition put_state (id : Z) (s : cpu_state) (t : topology) : topology := t <| states := aset (states t) id s |>.

(** [src/kernel/smp/cpu.c:13-18] use_bsp_only *)
Definition use_bsp_only (t : topology) : topology :=
  put_state 0 CPU_ONLINE (t <| cpus := aset (cpus t) 0 bsp_info |>) <| detected_count := 1 |> <| registered_count := 1 |>.

(** [src/kernel/smp/cpu.c:20-29] register_cpu *)
Definition register_cpu (info : limine_smp_info) (bsp : bool) (t : topology) : topology :=
  let id := registered_count t in
  let t := t <| registered_count := id + 1 |> in
  let t := t <| cpus := aset (cpus t) id (CpuInfo id (smp_processor_id info) (smp_lapic_id info) true bsp) |> in
  put_state id (if bsp then CPU_ONLINE else CPU_PARKED) t.

(** The entry of the processor that booted, by its place in the list, if there is
    exactly one.
    [src/kernel/smp/cpu.c:35-45] discover_limine *)
Fixpoint find_bsp (entries : list (option limine_smp_info)) (lapic : Z) (i : Z) (bsp : option Z) : option (option Z) :=
  match entries with
  | [] => Some bsp
  | None :: _ => None
  | Some info :: entries' =>
      if smp_lapic_id info =? lapic then
        match bsp with Some _ => None | None => find_bsp entries' lapic (i + 1) (Some i) end
      else find_bsp entries' lapic (i + 1) bsp
  end.

(** [src/kernel/smp/cpu.c:51-61] discover_limine *)
Fixpoint register_others (entries : list (option limine_smp_info)) (bsp i : Z) (t : topology) : bool * topology :=
  match entries with
  | [] => (true, t)
  | e :: entries' =>
      if negb (registered_count t <? Z.of_nat CPU_MAX_COUNT) then (true, t)
      else if i =? bsp then register_others entries' bsp (i + 1) t
      else
        match e with
        | None => (false, t)
        | Some info =>
            match for_first (λ j, lapic_id (info_at t j) =? smp_lapic_id info) (Z.to_nat (registered_count t)) 0 with
            | Some _ => (false, t)
            | None => register_others entries' bsp (i + 1) (register_cpu info false t)
            end
        end
  end.

(** [src/kernel/smp/cpu.c:31-64] discover_limine *)
Definition discover_limine (response : option limine_smp_response) (t : topology) : bool * topology :=
  match response with
  | None => (false, t)
  | Some r =>
      match smp_cpus r with
      | None => (false, t)
      | Some entries =>
          let count := Z.of_nat (length entries) in
          if (count =? 0) || (UINT32_MAX <? count) then (false, t) else
          match find_bsp entries (bsp_lapic_id r) 0 None with
          | Some (Some b) =>
              match aget None entries b with
              | None => (false, t)
              | Some info =>
                  let t := register_cpu info true (t <| registered_count := 0 |>) in
                  let '(ok, t) := register_others entries b 0 t in
                  if ok then (true, t <| detected_count := u32 count |>) else (false, t)
              end
          | _ => (false, t)
          end
      end
  end.

(** [src/kernel/smp/cpu.c:66-89] cpu_topology_init *)
Definition cpu_topology_init (response : option limine_smp_response) (t : topology) : topology :=
  let '(ok, t) := discover_limine response (use_bsp_only t) in
  if ok then t else use_bsp_only t.

(** [src/kernel/smp/cpu.c:91-91] cpu_detected_count *)
Definition cpu_detected_count (t : topology) : Z := detected_count t.
(** [src/kernel/smp/cpu.c:92-92] cpu_registered_count *)
Definition cpu_registered_count (t : topology) : Z := registered_count t.
(** [src/kernel/smp/cpu.c:103-105] cpu_get_info *)
Definition cpu_get_info (id : Z) (t : topology) : option cpu_info :=
  if id <? registered_count t then Some (info_at t id) else None.
(** [src/kernel/smp/cpu.c:107-111] cpu_get_state *)
Definition cpu_get_state (id : Z) (t : topology) : cpu_state :=
  if registered_count t <=? id then CPU_ABSENT else state_at t id.
(** [src/kernel/smp/cpu.c:113-116] cpu_is_online *)
Definition cpu_is_online (id : Z) (t : topology) : bool :=
  match cpu_get_state id t with CPU_ONLINE | CPU_IDLE => true | _ => false end.
(** [src/kernel/smp/cpu.c:94-101] cpu_online_count *)
Definition cpu_online_count (t : topology) : Z :=
  Z.of_nat (length (filter (λ id, cpu_is_online id t = true) (seqZ 0 (registered_count t)))).

(** [src/kernel/smp/cpu.c:118-123] transition_ap *)
Definition transition_ap (id : Z) (from to : cpu_state) (t : topology) : bool * topology :=
  if (id =? 0) || (registered_count t <=? id) then (false, t)
  else if bool_decide (state_at t id = from) then (true, put_state id to t) else (false, t).

(** [src/kernel/smp/cpu.c:125-127] cpu_try_start *)
Definition cpu_try_start (id : Z) (t : topology) := transition_ap id CPU_PARKED CPU_STARTING t.
(** [src/kernel/smp/cpu.c:128-130] cpu_publish_idle *)
Definition cpu_publish_idle (id : Z) (t : topology) := transition_ap id CPU_STARTING CPU_IDLE t.
(** [src/kernel/smp/cpu.c:131-133] cpu_timeout_start *)
Definition cpu_timeout_start (id : Z) (t : topology) := transition_ap id CPU_STARTING CPU_TIMED_OUT t.
(** [src/kernel/smp/cpu.c:135-138] cpu_fail *)
Definition cpu_fail (id : Z) (t : topology) : topology :=
  let '(ok, t) := transition_ap id CPU_STARTING CPU_FAILED t in
  if ok then t else (transition_ap id CPU_IDLE CPU_FAILED t).2.

(** ** The table is consistent *)

Record topology_ok (t : topology) : Prop := {
  tk_count : 1 ≤ registered_count t ≤ Z.of_nat CPU_MAX_COUNT;
  tk_length : length (cpus t) = CPU_MAX_COUNT ∧ length (states t) = CPU_MAX_COUNT;
  tk_bsp : is_bsp (info_at t 0) = true ∧ state_at t 0 = CPU_ONLINE;
  tk_ap : ∀ id, 0 < id < registered_count t → is_bsp (info_at t id) = false ∧
    state_at t id ≠ CPU_ONLINE ∧ state_at t id ≠ CPU_ABSENT;
  tk_logical : ∀ id, 0 ≤ id < registered_count t → logical_id (info_at t id) = id;
  tk_lapic : ∀ i j, 0 ≤ i < registered_count t → 0 ≤ j < registered_count t →
    lapic_id (info_at t i) = lapic_id (info_at t j) → i = j;
}.

Lemma use_bsp_only_ok t : length (cpus t) = CPU_MAX_COUNT → length (states t) = CPU_MAX_COUNT → topology_ok (use_bsp_only t).
Proof.
  intros L1 L2. assert (0 ≤ 0 < Z.of_nat CPU_MAX_COUNT) as H0 by (unfold CPU_MAX_COUNT; lia).
  assert (info_at (use_bsp_only t) 0 = bsp_info) as E1
    by (change (aget cpu_info_zero (aset (cpus t) 0 bsp_info) 0 = bsp_info); apply aget_aset_eq; lia).
  assert (state_at (use_bsp_only t) 0 = CPU_ONLINE) as E2
    by (change (aget CPU_ABSENT (aset (states t) 0 CPU_ONLINE) 0 = CPU_ONLINE); apply aget_aset_eq; lia).
  split; change (registered_count (use_bsp_only t)) with 1.
  - unfold CPU_MAX_COUNT. lia.
  - split; [change (length (aset (cpus t) 0 bsp_info) = CPU_MAX_COUNT)|change (length (aset (states t) 0 CPU_ONLINE) = CPU_MAX_COUNT)];
      by rewrite length_aset.
  - by rewrite E1, E2.
  - lia.
  - intros id Hid. replace id with 0 by lia. by rewrite E1.
  - lia.
Qed.

Lemma register_info info b t i : length (cpus t) = CPU_MAX_COUNT → 0 ≤ registered_count t < Z.of_nat CPU_MAX_COUNT → 0 ≤ i →
  info_at (register_cpu info b t) i =
    if decide (i = registered_count t)
    then CpuInfo i (smp_processor_id info) (smp_lapic_id info) true b else info_at t i.
Proof.
  intros L Hr Hi. unfold info_at. change (cpus (register_cpu info b t)) with
    (aset (cpus t) (registered_count t) (CpuInfo (registered_count t) (smp_processor_id info) (smp_lapic_id info) true b)).
  destruct (decide _) as [->|]; [rewrite aget_aset_eq by lia; done|by rewrite aget_aset_ne by lia].
Qed.

Lemma register_state info b t i : length (states t) = CPU_MAX_COUNT → 0 ≤ registered_count t < Z.of_nat CPU_MAX_COUNT → 0 ≤ i →
  state_at (register_cpu info b t) i =
    if decide (i = registered_count t) then if b then CPU_ONLINE else CPU_PARKED else state_at t i.
Proof.
  intros L Hr Hi. unfold state_at. change (states (register_cpu info b t)) with
    (aset (states t) (registered_count t) (if b then CPU_ONLINE else CPU_PARKED)).
  destruct (decide _) as [->|]; [by rewrite aget_aset_eq by lia|by rewrite aget_aset_ne by lia].
Qed.

Lemma register_first_ok info t : length (cpus t) = CPU_MAX_COUNT → length (states t) = CPU_MAX_COUNT →
  topology_ok (register_cpu info true (t <| registered_count := 0 |>)).
Proof.
  intros L1 L2. set (t0 := t <| registered_count := 0 |>).
  assert (0 ≤ registered_count t0 < Z.of_nat CPU_MAX_COUNT) as H0 by (unfold t0, CPU_MAX_COUNT; cbn; lia).
  pose proof (register_info info true t0) as Ri. pose proof (register_state info true t0) as Rs.
  change (registered_count t0) with 0 in Ri, Rs.
  split; change (registered_count (register_cpu info true t0)) with 1.
  - unfold CPU_MAX_COUNT. lia.
  - split; [change (cpus (register_cpu info true t0)) with (aset (cpus t) 0 (CpuInfo 0 (smp_processor_id info) (smp_lapic_id info) true true))
      |change (states (register_cpu info true t0)) with (aset (states t) 0 CPU_ONLINE)]; by rewrite length_aset.
  - by rewrite Ri, Rs by (done || lia).
  - lia.
  - intros id Hid. replace id with 0 by lia. by rewrite Ri by (done || lia).
  - lia.
Qed.

Lemma register_ap_ok info t : topology_ok t → registered_count t < Z.of_nat CPU_MAX_COUNT →
  (∀ j, 0 ≤ j < registered_count t → lapic_id (info_at t j) ≠ smp_lapic_id info) →
  topology_ok (register_cpu info false t).
Proof.
  intros K Hr Fresh. destruct K as [C [L1 L2] [B1 B2] A Lo La].
  assert (0 ≤ registered_count t < Z.of_nat CPU_MAX_COUNT) as H0 by lia.
  pose proof (λ i, register_info info false t i L1 H0) as Ri. pose proof (λ i, register_state info false t i L2 H0) as Rs.
  assert (registered_count (register_cpu info false t) = registered_count t + 1) as Ec by done.
  split; rewrite ?Ec.
  - lia.
  - split; [change (cpus (register_cpu info false t)) with
      (aset (cpus t) (registered_count t) (CpuInfo (registered_count t) (smp_processor_id info) (smp_lapic_id info) true false))
      |change (states (register_cpu info false t)) with (aset (states t) (registered_count t) CPU_PARKED)]; by rewrite length_aset.
  - rewrite Ri, Rs by lia. rewrite !decide_False by lia. done.
  - intros id Hid. rewrite Ri, Rs by lia. destruct (decide _); [done|]. apply A. lia.
  - intros id Hid. rewrite Ri by lia. destruct (decide _) as [->|]; [done|]. apply Lo. lia.
  - intros i j Hi Hj. rewrite !Ri by lia. destruct (decide (i = _)), (decide (j = _)); cbn [lapic_id]; intros E; try lia.
    + exfalso. apply (Fresh j); [lia|done].
    + exfalso. apply (Fresh i); [lia|done].
    + apply La; [lia..|done].
Qed.

Lemma register_others_ok entries : ∀ b i t, topology_ok t → topology_ok (register_others entries b i t).2.
Proof.
  induction entries as [|e entries IH]; intros b i t K; cbn [register_others]; [done|].
  destruct (Z.ltb_spec (registered_count t) (Z.of_nat CPU_MAX_COUNT)); [|done]. cbn [negb].
  destruct (i =? b); [by apply IH|]. destruct e as [info|]; [|done]. destruct (for_first _ _ _) eqn:F; [done|].
  apply IH, register_ap_ok; [done..|]. intros j Hj. rewrite for_first_None in F.
  by apply Z.eqb_neq, F; pose proof (tk_count t K); lia.
Qed.

Lemma discover_ok response t : topology_ok t → topology_ok (discover_limine response t).2.
Proof.
  intros K. unfold discover_limine. destruct response as [r|]; [|done]. destruct (smp_cpus r) as [es|]; [|done].
  destruct (_ || _); [done|]. destruct (find_bsp _ _ _ _) as [[b|]|]; [|done..].
  destruct (aget None es b) as [info|]; [|done].
  pose proof (register_others_ok es b 0 _ (register_first_ok info t (proj1 (tk_length _ K)) (proj2 (tk_length _ K)))) as R.
  destruct (register_others es b 0 _) as [ok v]. cbn [snd] in R. destruct ok; [|done]. destruct R; split; done.
Qed.

Lemma topology_init_ok response t : length (cpus t) = CPU_MAX_COUNT → length (states t) = CPU_MAX_COUNT →
  topology_ok (cpu_topology_init response t).
Proof.
  intros L1 L2. unfold cpu_topology_init. pose proof (discover_ok response _ (use_bsp_only_ok t L1 L2)) as K.
  destruct (discover_limine _ _) as [ok v]. cbn [snd] in K. destruct ok; [done|]. by apply use_bsp_only_ok; apply K.
Qed.

(** ** The life of a processor *)

(** Each transition moves a processor up. *)
Definition rank (s : cpu_state) : Z :=
  match s with
  | CPU_ABSENT => 0 | CPU_PARKED => 1 | CPU_STARTING => 2 | CPU_ONLINE => 3 | CPU_IDLE => 3
  | CPU_TIMED_OUT => 4 | CPU_FAILED => 4
  end.

(** One processor calls one of the four functions. *)
Inductive cpu_step : topology → topology → Prop :=
| step_start id t : 0 ≤ id → cpu_step t (cpu_try_start id t).2
| step_idle id t : 0 ≤ id → cpu_step t (cpu_publish_idle id t).2
| step_timeout id t : 0 ≤ id → cpu_step t (cpu_timeout_start id t).2
| step_fail id t : 0 ≤ id → cpu_step t (cpu_fail id t).

Lemma put_state_at t id s i : length (states t) = CPU_MAX_COUNT → 0 ≤ id < Z.of_nat CPU_MAX_COUNT → 0 ≤ i →
  state_at (put_state id s t) i = if decide (i = id) then s else state_at t i.
Proof.
  intros L Hid Hi. unfold state_at. change (states (put_state id s t)) with (aset (states t) id s).
  destruct (decide _) as [->|]; [by rewrite aget_aset_eq by lia|by rewrite aget_aset_ne by lia].
Qed.

(** A transition of the table: nothing, or one processor upwards. *)
Lemma transition_spec t id from to : topology_ok t → 0 ≤ id → rank from < rank to → to ≠ CPU_ONLINE → to ≠ CPU_ABSENT →
  let '(ok, u) := transition_ap id from to t in
  topology_ok u ∧ registered_count u = registered_count t ∧ cpus u = cpus t ∧
  (∀ i, 0 ≤ i → rank (state_at t i) ≤ rank (state_at u i)) ∧
  (ok = true → 0 < id < registered_count t ∧ state_at t id = from ∧ state_at u id = to).
Proof.
  intros K Hid Hr H1 H2. unfold transition_ap. destruct (_ || _) eqn:E; [by split_and!|]. zify_bool.
  case_bool_decide as F; [|by split_and!]. pose proof (tk_count t K) as C. pose proof (tk_length t K) as [L1 L2].
  pose proof (λ i, put_state_at t id to i L2 ltac:(lia)) as P. split_and!; [|done|done| |].
  - destruct K as [? ? [B1 B2] A Lo La]. split; change (registered_count (put_state id to t)) with (registered_count t); try done.
    + split; [done|]. change (states (put_state id to t)) with (aset (states t) id to). by rewrite length_aset.
    + rewrite P by lia. by rewrite decide_False by lia.
    + intros i Hi. rewrite P by lia. destruct (A i Hi) as (?&?&?). split; [done|]. destruct (decide (i = id)); done.
  - intros i Hi. rewrite P by done. destruct (decide _) as [->|]; [rewrite F|]; lia.
  - intros _. rewrite P by done. rewrite decide_True by done. split; [lia|done].
Qed.

Lemma cpu_step_spec t u : cpu_step t u → topology_ok t →
  topology_ok u ∧ registered_count u = registered_count t ∧ ∀ i, 0 ≤ i → rank (state_at t i) ≤ rank (state_at u i).
Proof.
  assert (∀ id from to t, topology_ok t → 0 ≤ id → rank from < rank to → to ≠ CPU_ONLINE → to ≠ CPU_ABSENT →
    let u := (transition_ap id from to t).2 in
    topology_ok u ∧ registered_count u = registered_count t ∧ ∀ i, 0 ≤ i → rank (state_at t i) ≤ rank (state_at u i)) as T.
  { intros id from to t' K Hid Hr H1 H2. pose proof (transition_spec t' id from to K Hid Hr H1 H2) as X.
    destruct (transition_ap id from to t'). destruct X as (?&?&_&?&_); done. }
  intros [id t' Hid|id t' Hid|id t' Hid|id t' Hid] K; try by apply T. unfold cpu_fail.
  pose proof (T id CPU_STARTING CPU_FAILED t' K Hid eq_refl ltac:(done) ltac:(done)) as (K1&R1&M1).
  destruct (transition_ap id CPU_STARTING CPU_FAILED t') as [[] v]; [by split_and!|]. cbn [snd] in *.
  destruct (T id CPU_IDLE CPU_FAILED v K1 Hid eq_refl) as (K2&R2&M2); [done..|].
  split_and!; [done|congruence|]. intros i Hi. specialize (M1 i Hi). specialize (M2 i Hi). lia.
Qed.

(** Whatever the boot loader hands over, the table has at least the processor
    that booted, in place 0 and online, no processor twice, and as processors
    start, give up and fail only the state of the others moves, never back. *)
Theorem cpu_topology_correct response t u : rtc cpu_step (cpu_topology_init response cpu_boot) t → rtc cpu_step t u →
  topology_ok u ∧ registered_count u = registered_count t ∧
  ∀ i, 0 ≤ i → rank (state_at t i) ≤ rank (state_at u i).
Proof.
  intros R1 R2. assert (topology_ok t) as K.
  { pose proof (topology_init_ok response cpu_boot eq_refl eq_refl) as K. induction R1 as [|x y z S R IH]; [done|].
    by apply IH, (cpu_step_spec x y). }
  clear R1. induction R2 as [|x y z S R IH]; [done|]. destruct (cpu_step_spec x y S K) as (Ky&Cy&My).
  destruct (IH Ky) as (Kz&Cz&Mz). split_and!; [done|congruence|]. intros i Hi. specialize (My i Hi). specialize (Mz i Hi). lia.
Qed.

(** The processor that starts another and gives up, and the started one that
    becomes ready, agree: whichever comes first, the other one fails, whatever
    happens between. *)
Theorem cpu_start_agreed response t id t1 t2 : rtc cpu_step (cpu_topology_init response cpu_boot) t → 0 ≤ id →
  (cpu_timeout_start id t = (true, t1) → rtc cpu_step t1 t2 → (cpu_publish_idle id t2).1 = false) ∧
  (cpu_publish_idle id t = (true, t1) → rtc cpu_step t1 t2 → (cpu_timeout_start id t2).1 = false).
Proof.
  intros R Hid. assert (∀ to, rank to = 3 ∨ rank to = 4 → to ≠ CPU_ONLINE →
    transition_ap id CPU_STARTING to t = (true, t1) → rtc cpu_step t1 t2 → state_at t2 id ≠ CPU_STARTING) as G.
  { intros to Hto Ho E R2. assert (topology_ok t) as K.
    { pose proof (topology_init_ok response cpu_boot eq_refl eq_refl) as K. clear -R K. induction R as [|x y z S R IH]; [done|].
      by apply IH, (cpu_step_spec x y). }
    pose proof (transition_spec t id CPU_STARTING to K Hid) as X. rewrite E in X.
    destruct X as (K1&_&_&_&[_ [_ Eto]]); [cbn; lia|done|by intros ->; destruct Hto|done|].
    assert (rank (state_at t1 id) ≤ rank (state_at t2 id)) as M.
    { clear -R2 K1 Hid. induction R2 as [|x y z S R IH]; [done|]. destruct (cpu_step_spec x y S K1) as (Ky&_&My).
      specialize (IH Ky). specialize (My id Hid). lia. }
    rewrite Eto in M. intros E2. rewrite E2 in M. cbn in M. lia. }
  assert (∀ to, state_at t2 id ≠ CPU_STARTING → (transition_ap id CPU_STARTING to t2).1 = false) as F.
  { intros to Ne. unfold transition_ap. destruct (_ || _); [done|]. by rewrite bool_decide_false. }
  split; intros E R2; apply F.
  - eapply (G CPU_TIMED_OUT); [by right|done|exact E|done].
  - eapply (G CPU_IDLE); [by left|done|exact E|done].
Qed.
