(* ===== verification/ThreadMem.v ===== *)
(** * The memory of the threads (src/src/kernel/process/scheduler.c)

    A thread is an object of the slab or, when the slab has none, a page of its
    own, and always a stack of four adjacent pages. *)

From S2P Require Import Prelude Pmm Slab.

(** [src/kernel/process/scheduler.h:5-5] SCHEDULER_STACK_PAGES *)
Definition SCHEDULER_STACK_PAGES : Z := 4.
(** [src/kernel/process/scheduler.h:6-6] SCHEDULER_STACK_SIZE *)
Definition SCHEDULER_STACK_SIZE : Z := SCHEDULER_STACK_PAGES * 4096.
(** [sizeof(struct thread)], with the 512 bytes of the floating-point state. *)
Definition sizeof_thread : Z := 704.

(** The address of the node, the page it is if it is one, and its stack. *)
Record node_mem := NodeMem { n_addr : Z; n_node_phys : Z; n_kstack_phys : Z }.

(** [src/kernel/process/scheduler.c:342-368] thread_node_alloc *)
Definition node_alloc (s : slab) (p : pmm) : option node_mem * slab * pmm :=
  let '(t, s, p) := oom_slab_alloc sizeof_thread s p in
  let '(node_phys, p) := if t =? 0 then pmm_allocate_page p else (0, p) in
  if (t =? 0) && (node_phys =? 0) then (None, s, p) else
  let t := if t =? 0 then pmm_physical_to_virtual p node_phys else t in
  let '(stack_phys, p) := pmm_allocate_contiguous SCHEDULER_STACK_PAGES p in
  if stack_phys =? 0 then
    if negb (node_phys =? 0) then (None, s, pmm_free_page node_phys p)
    else (None, oom_slab_free t sizeof_thread s, p)
  else (Some (NodeMem t node_phys stack_phys), s, p).

(** [src/kernel/process/scheduler.c:370-382] thread_node_free *)
Definition node_free (n : node_mem) (s : slab) (p : pmm) : slab * pmm :=
  let p := if negb (n_kstack_phys n =? 0) then pmm_free_contiguous (n_kstack_phys n) SCHEDULER_STACK_PAGES p else p in
  if negb (n_node_phys n =? 0) then (s, pmm_free_page (n_node_phys n) p)
  else (oom_slab_free (n_addr n) sizeof_thread s, p).

(** ** The frames of the slab *)

Definition slab_owns (s : slab) (f : Z) : Prop :=
  ∃ k pg, 0 ≤ k < 8 ∧ pg ∈ pages_of s k ∧ sp_phys pg = f * 4096.

Lemma updated_owns s s' cls free pgs f : updated s s' cls free pgs → slab_owns s' f →
  slab_owns s f ∨ ∃ pg, pg ∈ pgs ∧ sp_phys pg = f * 4096.
Proof.
  intros U (k&pg&Hk&Hp&E). rewrite (up_pages _ _ _ _ _ U) in Hp by lia.
  destruct (cls =? k); [right; by exists pg|left; by exists k, pg].
Qed.

Lemma adjust_owns s cls d a pg f : 0 ≤ cls < 8 → pg ∈ adjust d a (pages_of s cls) → sp_phys pg = f * 4096 → slab_owns s f.
Proof.
  intros Hc (g&Hg&->)%elem_adjust E. destruct (adjust_page d a g) as (_&E2&_). exists cls, g. by rewrite <- E2.
Qed.

Lemma slab_pop_owns s p cls f : slab_wf s p → 0 ≤ cls < 8 → slab_owns (slab_pop cls s).2 f → slab_owns s f.
Proof.
  intros W Hc. unfold slab_pop. destruct (free_of s cls) as [|a rest] eqn:E; [done|]. cbn [snd].
  intros O. pose proof (sw_class _ _ W cls Hc) as C. rewrite E in C.
  pose proof (slab_wf_aligned _ _ cls W Hc) as Al. pose proof (sw_nodup _ _ W cls Hc) as Nd.
  destruct (slab_size_bounds cls Hc) as [Hsz Hn].
  change (pages_of (put_free cls rest s) cls) with (pages_of s cls) in O.
  rewrite page_take_adjust in O; [|done|done|].
  2:{ intros g Hg Hg'. pose proof (page_count_bound _ _ _ g Hc C Al Hg).
      rewrite (cw_count _ _ _ C g Hg), count_cons, Hg' in *. lia. }
  pose proof (updated_put s p cls rest (adjust (-1) a (pages_of s cls)) (oom_slab_page_count s) W Hc) as U.
  eapply updated_owns in O; [|exact U]. destruct O as [O|(pg&Hp&Ep)]; [done|]. by eapply adjust_owns.
Qed.

(** What an allocation of the slab does to the frames. *)
Definition frames_kept (p p' : pmm) : Prop :=
  frame_limit p' = frame_limit p ∧ direct_map_offset p' = direct_map_offset p ∧
  ∀ g, 0 ≤ g → frame_is_used p g = true → frame_is_used p' g = true.

Lemma allocated_kept p t f n : allocated p t f n → frames_kept p t.
Proof.
  intros A. destruct (al_same _ _ _ _ A) as (E&_&_&O). split_and!; [done..|]. intros g Hg U.
  rewrite (al_used _ _ _ _ A), U by done. apply orb_true_r.
Qed.

Lemma slab_grow_frames s p cls : slab_wf s p → 0 ≤ cls < 8 →
  let '(ok, s', p') := oom_slab_grow_locked cls s p in
  frames_kept p p' ∧ ∀ f, 0 ≤ f → slab_owns s' f → slab_owns s f ∨ frame_is_used p f = false.
Proof.
  intros W Hc. unfold oom_slab_grow_locked, pmm_allocate_page. pose proof (sw_pmm _ _ W) as Wp.
  destruct (allocate_page_outcome p Wp) as [t f Er A|F]; [|split; [by split_and!|by left]].
  destruct (al_range _ _ _ _ A) as [Hf1 Hf2]. destruct (Z.eqb_spec (f * 4096) 0) as [|_]; [lia|].
  set (base := pmm_physical_to_virtual t (f * 4096)). destruct (carve _ _ _ _ _ _) as [head n].
  pose proof (allocated_kept _ _ _ _ A) as Kp. destruct (n =? 0).
  - destruct (free_page_frame f t (al_wf _ _ _ _ A)) as (_&El&Eo&Eu); [destruct (al_same _ _ _ _ A); lia|]. split.
    + destruct Kp as (K1&K2&K3). split_and!; [congruence..|]. intros g Hg U. rewrite Eu; [by apply K3|done|].
      intros ->. pose proof (al_free _ _ _ _ A 0 ltac:(lia)) as Fr. rewrite Z.add_0_r in Fr. congruence.
    + intros g _ (k&pg&Hk&Hp&Ep). left. exists k, pg. done.
  - split; [done|]. intros g Hg O.
    pose proof (updated_put s p cls head (SlabPage base (f * 4096) n n :: pages_of s cls) (u64 (oom_slab_page_count s + 1)) W Hc) as U.
    eapply updated_owns in O; [|exact U]. destruct O as [O|(pg&[->|Hp]%elem_of_cons&Ep)]; [by left| |left; by exists cls, pg].
    right. cbn in Ep. assert (g = f) as -> by lia. pose proof (al_free _ _ _ _ A 0 ltac:(lia)) as Fr. by rewrite Z.add_0_r in Fr.
Qed.

Lemma slab_alloc_frames size s p : slab_wf s p →
  let '(a, s', p') := oom_slab_alloc size s p in
  frames_kept p p' ∧ ∀ f, 0 ≤ f → slab_owns s' f → slab_owns s f ∨ frame_is_used p f = false.
Proof.
  intros W. assert (frames_kept p p) as Same by (by split_and!). unfold oom_slab_alloc.
  destruct (size =? 0); [by split; [|left]|]. destruct (oom_slab_class_spec size) as [[E _]|(Hc&_&_)].
  { cbv zeta. rewrite E. by split; [|left]. }
  cbv zeta. set (cls := oom_slab_class size) in *. destruct (Z.ltb_spec cls 0) as [|_]; [lia|].
  destruct (free_of s cls) as [|a0 rest].
  - pose proof (grow_spec s p cls W Hc) as G. pose proof (slab_grow_frames s p cls W Hc) as Fr.
    destruct (oom_slab_grow_locked cls s p) as [[ok s1] p1]. destruct G as (W1&_&_). destruct Fr as [K1 O1].
    destruct ok; cbn [negb]; [|by split]. pose proof (λ f, slab_pop_owns s1 p1 cls f W1 Hc) as Po.
    destruct (slab_pop cls s1) as [b s2]. split; [done|]. intros f Hf O. by apply O1, Po.
  - pose proof (λ f, slab_pop_owns s p cls f W Hc) as Po. destruct (slab_pop cls s) as [b s2].
    split; [done|]. intros f _ O. left. by apply Po.
Qed.

Lemma slab_free_frames size s p a f : slab_wf s p → 0 ≤ oom_slab_class size < 8 →
  slab_owns (oom_slab_free a size s) f → slab_owns s f.
Proof.
  intros W Hc. unfold oom_slab_free. destruct (_ || _); [done|]. cbv zeta. set (cls := oom_slab_class size) in *.
  destruct (Z.ltb_spec cls 0) as [|_]; [lia|]. pose proof (slab_wf_aligned _ _ cls W Hc) as Al.
  pose proof (sw_class _ _ W cls Hc) as C. pose proof (sw_nodup _ _ W cls Hc) as Nd.
  change (pages_of (put_free cls (a :: free_of s cls) s) cls) with (pages_of s cls).
  rewrite page_give_adjust; [|done|done|].
  2:{ intros g' Hg'. pose proof (page_count_bound _ _ _ g' Hc C Al Hg'). destruct (slab_size_bounds cls Hc). lia. }
  pose proof (updated_put s p cls (a :: free_of s cls) (adjust 1 a (pages_of s cls)) (oom_slab_page_count s) W Hc) as U.
  intros O. eapply updated_owns in O; [|exact U]. destruct O as [O|(pg&Hp&Ep)]; [done|]. by eapply adjust_owns.
Qed.

(** ** Nodes in use *)

(** The frames of a node: its stack and, if it is one, its page. *)
Definition frames (n : node_mem) : list Z :=
  seqZ (n_kstack_phys n / 4096) 4 ++ (if n_node_phys n =? 0 then [] else [n_node_phys n / 4096]).

(** A node is what the allocation made it. *)
Record node_ok (s : slab) (p : pmm) (n : node_mem) : Prop := {
  nk_stack : n_kstack_phys n = n_kstack_phys n / 4096 * 4096 ∧ 0 < n_kstack_phys n;
  nk_node : if n_node_phys n =? 0 then slab_live s (oom_slab_class sizeof_thread) (n_addr n)
            else n_node_phys n = n_node_phys n / 4096 * 4096 ∧ 0 < n_node_phys n ∧
                 n_addr n = n_node_phys n + direct_map_offset p;
}.

(** The nodes [ns] have frames and objects of their own. *)
Record nodes_ok (ns : list node_mem) (s : slab) (p : pmm) : Prop := {
  no_slab : slab_wf s p;
  no_node : ∀ n, n ∈ ns → node_ok s p n;
  no_frames : NoDup (concat (map frames ns));
  no_used : ∀ g, g ∈ concat (map frames ns) → 1 ≤ g < frame_limit p ∧ frame_is_used p g = true ∧ ¬ slab_owns s g;
  no_addr : NoDup (map n_addr ns);
}.

Lemma nodes_ok_nil s p : slab_wf s p → nodes_ok [] s p.
Proof. intros W. split; [done| |apply NoDup_nil_2| |apply NoDup_nil_2]; by intros ? ?%not_elem_of_nil. Qed.

Lemma elem_concat n ns g : n ∈ ns → g ∈ frames n → g ∈ concat (map frames ns).
Proof.
  intros Hn Hg. rewrite list_elem_of_In, in_concat. exists (frames n).
  split; [apply in_map|]; by apply list_elem_of_In.
Qed.

Lemma stack_frames n g : n_kstack_phys n / 4096 ≤ g < n_kstack_phys n / 4096 + 4 → g ∈ frames n.
Proof. intros Hg. apply elem_of_app. left. apply elem_of_seqZ. lia. Qed.

Lemma node_frame n : n_node_phys n ≠ 0 → n_node_phys n / 4096 ∈ frames n.
Proof. intros Hn. apply elem_of_app. right. destruct (Z.eqb_spec (n_node_phys n) 0); [done|by left]. Qed.

Lemma thread_class : oom_slab_class sizeof_thread = 5.
Proof. reflexivity. Qed.

(** An object of the slab lies in none of the frames the slab does not own. *)
Lemma live_not_page s p k a f : slab_wf s p → 0 ≤ k < 8 → slab_live s k a → ¬ slab_owns s f → a ≠ f * 4096 + direct_map_offset p.
Proof.
  intros W Hk (pg&Hp&Hs&_) No ->. apply No. exists k, pg. split; [done|]. split; [done|].
  destruct (slot_in_page k pg _ Hk (cw_total _ _ _ (sw_class _ _ W k Hk) pg Hp) Hs) as [L U].
  destruct (sw_owned _ _ W k pg Hk Hp) as [(g&E&_&_) Ea]. destruct (sw_offset _ _ W) as (O1&O2&_).
  destruct (slab_size_bounds k Hk) as [Hz _]. rewrite Ea, E in L, U. rewrite E. unfold slab_header, OOM_SLAB_PAGE in *. lia.
Qed.

(** Changes of the slab and of the page allocator that leave the nodes alone. *)
Lemma nodes_ok_kept ns s p s' p' : nodes_ok ns s p → slab_wf s' p' → frames_kept p p' →
  (∀ g, g ∈ concat (map frames ns) → slab_owns s' g → slab_owns s g) →
  (∀ n, n ∈ ns → n_node_phys n = 0 → slab_live s' (oom_slab_class sizeof_thread) (n_addr n)) → nodes_ok ns s' p'.
Proof.
  intros N W (Kl&Ko&Ku) Ow Lv. destruct N as [W0 Nn Nf Nu Na]. split; [done| |done| |done].
  - intros n Hn. destruct (Nn n Hn) as [K1 K2]. split; [done|]. rewrite Ko.
    destruct (Z.eqb_spec (n_node_phys n) 0) as [E|]; [by apply Lv|done].
  - intros g Hg. destruct (Nu g Hg) as (R&U&O). rewrite Kl. split; [done|]. split; [apply Ku; [lia|done]|].
    intros O'. by apply O, Ow.
Qed.

Lemma frames_permutation ns ns' : ns ≡ₚ ns' → concat (map frames ns) ≡ₚ concat (map frames ns').
Proof. induction 1 as [|n ns ns' P IH|n m ns|ns1 ns2 ns3 P1 IH1 P2 IH2]; cbn; [done|by rewrite IH|solve_Permutation|by etrans]. Qed.

Lemma nodes_ok_permutation ns ns' s p : ns ≡ₚ ns' → nodes_ok ns s p → nodes_ok ns' s p.
Proof.
  intros P [W Nn Nf Nu Na]. pose proof (frames_permutation ns ns' P) as Pf. split; [done|..].
  - intros n Hn. apply Nn. by rewrite P.
  - by rewrite <- Pf.
  - intros g Hg. apply Nu. by rewrite Pf.
  - by rewrite <- (Permutation_map n_addr P).
Qed.

(** Frames that are given out are none of the frames in use. *)
Lemma fresh_frames ns s p t f n : nodes_ok ns s p → allocated p t f n → ∀ g, g ∈ concat (map frames ns) → ¬ f ≤ g < f + n.
Proof.
  intros N A g Hg R. destruct (no_used _ _ _ N g Hg) as (_&U&_).
  pose proof (al_free _ _ _ _ A (g - f) ltac:(lia)) as F. replace (f + (g - f)) with g in F by lia. congruence.
Qed.

Lemma owned_used s p f : slab_wf s p → slab_owns s f → frame_is_used p f = true.
Proof.
  intros W (k&pg&Hk&Hp&E). destruct (sw_owned _ _ W k pg Hk Hp) as [(g&E'&_&U) _].
  assert (g = f) as -> by lia. done.
Qed.

(** Fresh frames are not the slab's. *)
Lemma fresh_not_owned s p t f n g : slab_wf s p → allocated p t f n → f ≤ g < f + n → ¬ slab_owns s g.
Proof.
  intros W A R O. pose proof (owned_used s p g W O) as U.
  pose proof (al_free _ _ _ _ A (g - f) ltac:(lia)) as F. replace (f + (g - f)) with g in F by lia. congruence.
Qed.

Lemma slab_wf_frames s p p' : slab_wf s p → pmm_wf p' → frame_limit p' = frame_limit p →
  direct_map_offset p' = direct_map_offset p →
  (∀ f, 0 ≤ f → slab_owns s f → frame_is_used p f = true → frame_is_used p' f = true) → slab_wf s p'.
Proof.
  intros W Wp El Eo U. apply (slab_wf_pmm s p); [done..|]. intros k g Hk Hg.
  destruct (sw_owned _ _ W k g Hk Hg) as [(f&E&R&Uf) Ea]. split; [|done]. exists f. rewrite El.
  split; [done|]. split; [done|]. apply U; [lia|by exists k, g|done].
Qed.

Lemma slab_wf_kept s p p' : slab_wf s p → pmm_wf p' → frames_kept p p' → slab_wf s p'.
Proof. intros W Wp (El&Eo&U). apply (slab_wf_frames s p); [done..|]. intros f Hf _. by apply U. Qed.

Lemma nodes_ok_pmm ns s p p' : nodes_ok ns s p → pmm_wf p' → frames_kept p p' → nodes_ok ns s p'.
Proof.
  intros N Wp K. apply (nodes_ok_kept ns s p); [done|by apply (slab_wf_kept s p); [apply N|..]|done|done|].
  intros n Hn E. pose proof (nk_node _ _ _ (no_node _ _ _ N n Hn)) as L. by rewrite E in L.
Qed.

Lemma nodes_ok_cons n ns s p : nodes_ok ns s p → node_ok s p n → NoDup (frames n) →
  (∀ g, g ∈ frames n → 1 ≤ g < frame_limit p ∧ frame_is_used p g = true ∧ ¬ slab_owns s g ∧ g ∉ concat (map frames ns)) →
  n_addr n ∉ map n_addr ns → nodes_ok (n :: ns) s p.
Proof.
  intros [W Nn Nf Nu Na] K Nd F A. split; [done|..].
  - by intros m [->|Hm]%elem_of_cons; [|apply Nn].
  - apply NoDup_app. split; [done|]. split; [|done]. intros g Hg. by apply F.
  - intros g [Hg|Hg]%elem_of_app; [destruct (F g Hg) as (?&?&?&_)|destruct (Nu g Hg) as (?&?&?)]; done.
  - by apply NoDup_cons.
Qed.

(** The first step of [node_alloc]: an object of the slab. *)
Lemma slab_object_spec ns s p : nodes_ok ns s p →
  let '(t, s', p') := oom_slab_alloc sizeof_thread s p in
  nodes_ok ns s' p' ∧ (t ≠ 0 → slab_live s' 5 t ∧ t ∉ map n_addr ns).
Proof.
  intros N. pose proof (no_slab _ _ _ N) as W. pose proof (slab_alloc_spec sizeof_thread s p W) as A.
  pose proof (slab_alloc_frames sizeof_thread s p W) as F. destruct (oom_slab_alloc _ s p) as [[t s'] p'].
  rewrite thread_class in A. destruct A as [W' A]. destruct F as [K O].
  assert (∀ c, slab_live s 5 c → slab_live s' 5 c) as Lv.
  { intros c Hc. destruct A as [[_ L]|(_&_&_&L)]; apply L; [lia|done|lia|by left]. }
  assert (nodes_ok ns s' p') as N'.
  { apply (nodes_ok_kept ns s p); [done..| |].
    - intros g Hg Og. destruct (no_used _ _ _ N g Hg) as (R&U&_). destruct (O g ltac:(lia) Og) as [?|?]; [done|congruence].
    - intros n Hn E. apply Lv. pose proof (nk_node _ _ _ (no_node _ _ _ N n Hn)) as L. by rewrite E in L. }
  split; [done|]. intros Ht. destruct A as [[? _]|(_&_&Nl&L)]; [done|]. split; [apply L; [lia|by right]|].
  intros (m&Et&Hm)%list_elem_of_fmap. pose proof (nk_node _ _ _ (no_node _ _ _ N m Hm)) as Km.
  destruct (Z.eqb_spec (n_node_phys m) 0) as [E|E]; [by subst t|]. destruct Km as (E1&E2&E3).
  assert (slab_live s' 5 t) as Lt by (apply L; [lia|by right]).
  destruct K as (_&Eo&_). apply (live_not_page s' p' 5 t (n_node_phys m / 4096)) in Lt; [|done|lia|].
  - apply Lt. rewrite Eo. lia.
  - apply (no_used _ _ _ N'). apply (elem_concat m); [done|by apply node_frame].
Qed.

(** A stack for a node whose other part is there. *)
Lemma stack_spec ns s p p2 t e f : nodes_ok ns s p → allocated p p2 f 4 →
  (if e =? 0 then slab_live s 5 t
   else e = e / 4096 * 4096 ∧ 0 < e ∧ t = e + direct_map_offset p ∧ ((e / 4096) ∉ concat (map frames ns)) ∧
        e / 4096 < frame_limit p ∧ frame_is_used p (e / 4096) = true ∧ ¬ slab_owns s (e / 4096)) →
  t ∉ map n_addr ns → nodes_ok (NodeMem t e (f * 4096) :: ns) s p2.
Proof.
  intros N A He Ht. pose proof (allocated_kept _ _ _ _ A) as K. pose proof (no_slab _ _ _ N) as W.
  destruct (al_range _ _ _ _ A) as [F1 F2]. pose proof K as (El&Eo&Eu).
  assert (∀ g, f ≤ g < f + 4 → frame_is_used p g = false) as Free.
  { intros g Hg. pose proof (al_free _ _ _ _ A (g - f) ltac:(lia)) as X. by replace (f + (g - f)) with g in X by lia. }
  apply nodes_ok_cons; [by apply (nodes_ok_pmm ns s p); [|apply A|]| | | |done].
  - split; cbn; [rewrite Z.div_mul by lia; lia|]. destruct (e =? 0); [done|]. rewrite Eo. tauto.
  - unfold frames. cbn. rewrite Z.div_mul by lia. apply NoDup_app. split; [apply NoDup_seqZ|]. split.
    + intros g Hg%elem_of_seqZ. destruct (e =? 0); [apply not_elem_of_nil|]. destruct He as (_&_&_&_&_&Ue&_).
      rewrite list_elem_of_singleton. intros ->. rewrite Free in Ue by lia. done.
    + destruct (e =? 0); [apply NoDup_nil_2|apply NoDup_singleton].
  - intros g [Hg|Hg]%elem_of_app; cbn in Hg.
    + apply elem_of_seqZ in Hg. rewrite Z.div_mul in Hg by lia. rewrite El. split; [lia|].
      split; [|split; [by eapply fresh_not_owned|intros Hin; by eapply fresh_frames]].
      rewrite (al_used _ _ _ _ A) by lia. destruct (Z.leb_spec f g), (Z.ltb_spec g (f + 4)); done || lia.
    + destruct (Z.eqb_spec e 0); [by apply not_elem_of_nil in Hg|]. apply list_elem_of_singleton in Hg as ->.
      destruct He as (E1&E2&_&E4&E5&E6&E7). rewrite El. split; [lia|]. split; [apply Eu; [lia|done]|done].
Qed.

(** Whatever happens, the nodes in use stay as they are; the new one shares
    nothing with them. *)
Lemma node_alloc_spec ns s p : nodes_ok ns s p →
  let '(r, s', p') := node_alloc s p in
  match r with Some n => nodes_ok (n :: ns) s' p' | None => nodes_ok ns s' p' end.
Proof.
  intros N. unfold node_alloc. pose proof (slab_object_spec ns s p N) as O.
  destruct (oom_slab_alloc sizeof_thread s p) as [[t s1] p1]. destruct O as [N1 O]. clear N.
  pose proof (no_slab _ _ _ N1) as W1. pose proof (sw_pmm _ _ W1) as P1.
  destruct (Z.eqb_spec t 0) as [->|Ht]; cbn [andb].
  - clear O. unfold pmm_allocate_page. destruct (allocate_page_outcome p1 P1) as [p2 e Er A|_]; [|done].
    destruct (al_range _ _ _ _ A) as [E1 E2]. destruct (Z.eqb_spec (e * 4096) 0) as [|_]; [lia|].
    pose proof (allocated_kept _ _ _ _ A) as K. pose proof (nodes_ok_pmm ns s1 p1 p2 N1 (al_wf _ _ _ _ A) K) as N2.
    destruct K as (El&Eo&Eu). pose proof (fresh_not_owned s1 p1 p2 e 1 e W1 A ltac:(lia)) as No.
    assert (e ∉ concat (map frames ns)) as Ne by (intros Hin; apply (fresh_frames ns s1 p1 p2 e 1 N1 A e Hin); lia).
    assert (pmm_physical_to_virtual p2 (e * 4096) = e * 4096 + direct_map_offset p2) as Ev.
    { unfold pmm_physical_to_virtual. rewrite u64_small; [done|]. pose proof (sw_offset _ _ W1). rewrite Eo.
      pose proof (wf_limit _ P1) as Hl. rewrite pmm_max_pages in Hl. lia. }
    rewrite Ev. unfold pmm_allocate_contiguous, SCHEDULER_STACK_PAGES.
    destruct (allocate_contiguous_outcome p2 4 (al_wf _ _ _ _ A)) as [p3 f Er3 A3|_]; [lia| |].
    + destruct (al_range _ _ _ _ A3). destruct (Z.eqb_spec (f * 4096) 0) as [|_]; [lia|].
      apply (stack_spec ns s1 p2 p3); [done..| |].
      * destruct (Z.eqb_spec (e * 4096) 0) as [|_]; [lia|]. rewrite Z.div_mul by lia. split_and!; try done; try lia.
        rewrite (al_used _ _ _ _ A) by lia. destruct (Z.leb_spec e e), (Z.ltb_spec e (e + 1)); done || lia.
      * intros (m&Em&Hm)%list_elem_of_fmap. pose proof (nk_node _ _ _ (no_node _ _ _ N2 m Hm)) as Km.
        destruct (Z.eqb_spec (n_node_phys m) 0) as [E0|E0].
        -- by apply (live_not_page s1 p2 5 (n_addr m) e) in Km; [|apply N2|lia|done].
        -- destruct Km as (M1&M2&M3). apply Ne. assert (e = n_node_phys m / 4096) as -> by lia.
           apply (elem_concat m); [done|by apply node_frame].
    + cbn [Z.eqb]. destruct (Z.eqb_spec (e * 4096) 0) as [|_]; [lia|]. cbn [negb].
      destruct (free_page_frame e p2 (al_wf _ _ _ _ A) ltac:(lia)) as (W3&L3&O3&U3).
      apply (nodes_ok_pmm ns s1 p1); [done..|]. split_and!; [congruence..|]. intros g Hg Ug. rewrite U3; [by apply Eu|done|].
      intros ->. pose proof (al_free _ _ _ _ A 0 ltac:(lia)) as X. rewrite Z.add_0_r in X. congruence.
  - destruct (O Ht) as [Lt Nt]. unfold pmm_allocate_contiguous, SCHEDULER_STACK_PAGES.
    destruct (allocate_contiguous_outcome p1 4 P1) as [p3 f Er3 A3|_]; [lia| |].
    + destruct (al_range _ _ _ _ A3). destruct (Z.eqb_spec (f * 4096) 0) as [|_]; [lia|].
      by apply (stack_spec ns s1 p1 p3).
    + cbn [Z.eqb negb]. assert (0 ≤ oom_slab_class sizeof_thread < 8) as Hc by (rewrite thread_class; lia).
      destruct (slab_free_spec sizeof_thread s1 p1 t W1) as [W2 L2]; [done|done|done|by rewrite thread_class|].
      apply (nodes_ok_kept ns s1 p1); [done..|by split_and!| |].
      * intros g _ Og. by eapply slab_free_frames.
      * intros n Hn E. apply L2; [done|]. pose proof (nk_node _ _ _ (no_node _ _ _ N1 n Hn)) as L.
        rewrite E in L. split; [done|]. intros [_ E2]. apply Nt. rewrite <- E2. by apply list_elem_of_fmap_2.
Qed.

Lemma node_free_spec n ns s p : nodes_ok (n :: ns) s p →
  let '(s', p') := node_free n s p in nodes_ok ns s' p'.
Proof.
  intros N. pose proof (no_slab _ _ _ N) as W. destruct (no_node _ _ _ N n ltac:(by left)) as [[K1 K2] K3].
  pose proof (no_frames _ _ _ N) as Nd. cbn in Nd. apply NoDup_app in Nd as (Ndn&Ndd&Ndr).
  assert (∀ g, g ∈ frames n → 1 ≤ g < frame_limit p ∧ frame_is_used p g = true ∧ ¬ slab_owns s g) as Fr
    by (intros g Hg; apply (no_used _ _ _ N), elem_of_app; by left).
  pose proof (no_addr _ _ _ N) as Na. cbn in Na. apply NoDup_cons in Na as [Na Nas].
  unfold node_free. destruct (Z.eqb_spec (n_kstack_phys n) 0) as [|_]; [lia|]. cbn [negb].
  set (f := n_kstack_phys n / 4096) in *.
  pose proof (Fr f ltac:(apply stack_frames; fold f; lia)) as [F1 _]. pose proof (Fr (f + 3) ltac:(apply stack_frames; fold f; lia)) as [F2 _].
  destruct (free_contiguous_frames f 4 p (sw_pmm _ _ W)) as (Wp&El&Eo&Eu); [lia..|].
  rewrite K1. unfold SCHEDULER_STACK_PAGES. set (q := pmm_free_contiguous (f * 4096) 4 p) in *.
  assert (slab_wf s q) as Wq.
  { apply (slab_wf_frames s p); [done..|]. intros g Hg Og Ug. rewrite Eu, Ug by done. rewrite andb_true_r.
    destruct (Z.leb_spec f g), (Z.ltb_spec g (f + 4)); try done. exfalso. apply (Fr g); [apply stack_frames; fold f; lia|done]. }
  assert (∀ g, g ∈ concat (map frames ns) → frame_is_used q g = true) as Uq.
  { intros g Hg. destruct (no_used _ _ _ N g) as (R&U&_); [apply elem_of_app; by right|]. rewrite Eu, U by lia.
    rewrite andb_true_r. destruct (Z.leb_spec f g), (Z.ltb_spec g (f + 4)); try done. exfalso.
    apply (Ndd g); [apply stack_frames; fold f; lia|done]. }
  assert (nodes_ok ns s q) as Nq.
  { split; [done| |done| |done].
    - intros m Hm. destruct (no_node _ _ _ N m ltac:(by right)) as [M1 M2]. split; [done|]. by rewrite Eo.
    - intros g Hg. destruct (no_used _ _ _ N g) as (R&_&O); [apply elem_of_app; by right|]. rewrite El. auto. }
  destruct (Z.eqb_spec (n_node_phys n) 0) as [E0|E0]; cbn [negb].
  - rewrite thread_class in K3. destruct (slab_free_spec sizeof_thread s q (n_addr n) Wq) as [W2 L2]; [done| |done|by rewrite thread_class|].
    { intros E. rewrite E in K3. by apply (slab_live_nonzero s p 5) in K3. }
    apply (nodes_ok_kept ns s q); [done..|by split_and!| |].
    + intros g _ Og. apply (slab_free_frames sizeof_thread s q (n_addr n)); [done|by rewrite thread_class|done].
    + intros m Hm E. apply L2; [done|]. pose proof (nk_node _ _ _ (no_node _ _ _ Nq m Hm)) as L.
      rewrite E in L. split; [done|]. intros [_ E2]. apply Na. rewrite <- E2. by apply list_elem_of_fmap_2.
  - destruct K3 as (E1&E2&_). pose proof (Fr _ (node_frame n E0)) as (Rn&_&On). rewrite E1.
    set (e := n_node_phys n / 4096) in *.
    destruct (free_page_frame e q Wp ltac:(lia)) as (W3&L3&O3&U3).
    split; [| |done| |done].
    + apply (slab_wf_frames s q); [done..|]. intros g Hg Og Ug. rewrite U3; [done|done|]. by intros ->.
    + intros m Hm. destruct (no_node _ _ _ Nq m Hm) as [M1 M2]. split; [done|]. by rewrite O3.
    + intros g Hg. destruct (no_used _ _ _ Nq g Hg) as (R&U&O). rewrite L3. split; [done|]. split; [|done].
      rewrite U3; [done|lia|]. intros ->. apply (Ndd e); [by apply node_frame|done].
Qed.

(** There are no more nodes than memory has room for. *)
Lemma nodes_bound ns s p : nodes_ok ns s p → 4 * Z.of_nat (length ns) < PMM_MAX_PAGES.
Proof.
  intros N. assert (4 * length ns ≤ length (concat (map frames ns)))%nat as L.
  { clear N. induction ns as [|n ns IH]; [cbn; lia|]. cbn. rewrite length_app. unfold frames at 1.
    rewrite length_app, length_seqZ. lia. }
  assert (length (concat (map frames ns)) ≤ length (seqZ 1 (frame_limit p - 1)))%nat as U.
  { apply submseteq_length, NoDup_submseteq; [apply N|]. intros g Hg. apply elem_of_seqZ.
    destruct (no_used _ _ _ N g Hg) as [? _]. lia. }
  rewrite length_seqZ in U. pose proof (wf_limit _ (sw_pmm _ _ (no_slab _ _ _ N))) as W. rewrite pmm_max_pages in *. lia.
Qed.

(** The address of a node is not null. *)
Lemma nodes_addr n ns s p : nodes_ok ns s p → n ∈ ns → 0 < n_addr n.
Proof.
  intros N Hn. pose proof (no_slab _ _ _ N) as W. pose proof (sw_offset _ _ W) as (O&_&_).
  destruct (no_node _ _ _ N n Hn) as [_ K]. destruct (_ =? 0); [|lia].
  destruct K as (g&Hg&Hs&_). rewrite thread_class in *. destruct (slab_size_bounds 5 ltac:(lia)).
  destruct (slot_in_page 5 g _ ltac:(lia) (cw_total _ _ _ (sw_class _ _ W 5 ltac:(lia)) g Hg) Hs) as [L U].
  destruct (sw_owned _ _ W 5 g ltac:(lia) Hg) as [(f&Ef&Hf&_) Ea]. unfold slab_header in *. lia.
Qed.

(** ** Exact accounts *)

(** Frames given back: exactly those of the range. *)
Record returned (p t : pmm) (f n : Z) : Prop := {
  rt_wf : pmm_wf t;
  rt_same : frame_limit t = frame_limit p ∧ direct_map_offset t = direct_map_offset p ∧ frame_refs t = frame_refs p;
  rt_used : ∀ g, 0 ≤ g → frame_is_used t g = negb ((f <=? g) && (g <? f + n)) && frame_is_used p g;
}.

Lemma free_page_returned f p : pmm_wf p → 1 ≤ f < frame_limit p → shares p f = 0 → returned p (pmm_free_page (f * 4096) p) f 1.
Proof.
  intros W R Sh. destruct (free_page_frame f p W R) as (Wt&El&Eo&Eu).
  assert (∀ g, 0 ≤ g → frame_is_used (pmm_free_page (f * 4096) p) g = negb ((f <=? g) && (g <? f + 1)) && frame_is_used p g) as U.
  { intros g Hg. destruct (Z.eq_dec g f) as [->|Ne].
    2:{ rewrite Eu by done. destruct (Z.leb_spec f g), (Z.ltb_spec g (f + 1)); done || lia. }
    destruct (Z.leb_spec f f), (Z.ltb_spec f (f + 1)); try lia. cbn [negb andb]. destruct (frame_is_used p f) eqn:Up.
    - destruct (free_once p f R Up) as (_&U0&_); [lia|]. by apply U0.
    - unfold pmm_free_page, pmm_free_page_locked, PMM_PAGE_SIZE. rewrite Z.div_mul, Up, orb_true_r by lia. by destruct (negb _). }
  split; [done| |done]. split; [done|]. split; [done|]. clear -Sh. unfold pmm_free_page, pmm_free_page_locked, PMM_PAGE_SIZE.
  rewrite Z.div_mul by lia. destruct (negb _); [done|]. destruct (_ || _); [done|]. unfold shares in Sh.
  destruct (release_fields p f) as (_&Er&_). destruct (frame_refs p) as [refs|] eqn:E; rewrite ?Er, ?Sh; done.
Qed.

Lemma free_run_refs n f p : frame_refs (free_run n f p) = frame_refs p.
Proof.
  revert f p. induction n as [|n IH]; intros f p; cbn [free_run]; [done|]. rewrite IH. destruct (negb _); [done|].
  by destruct (release_fields p f) as (_&->&_).
Qed.

Lemma free_contiguous_returned f n p : pmm_wf p → 1 ≤ f → 0 < n → f + n ≤ frame_limit p →
  returned p (pmm_free_contiguous (f * 4096) n p) f n.
Proof.
  intros W Hf Hn Hl. destruct (free_contiguous_frames f n p W Hf Hn Hl) as (Wt&El&Eo&Eu). split; [done| |done].
  split; [done|]. split; [done|]. unfold pmm_free_contiguous, pmm_free_contiguous_locked.
  destruct (_ || _); [done|]. destruct (_ || _); [done|]. apply free_run_refs.
Qed.

(** A frame that is given out, and not to the slab. *)
Definition lent (s : slab) (p : pmm) (f : Z) : Prop := frame_is_used p f = true ∧ ¬ slab_owns s f.

(** A frame the allocator has, or that only its owner uses, is not shared. *)
Definition clean (p : pmm) : Prop := ∀ f, 0 ≤ f → frame_is_used p f = false → shares p f = 0.

Lemma refs_shares p t f : frame_refs t = frame_refs p → shares t f = shares p f.
Proof. intros E. unfold shares. by rewrite E. Qed.

Lemma clean_kept p t : clean p → frame_refs t = frame_refs p → frames_kept p t → clean t.
Proof.
  intros C E (_&_&K) f Hf U. rewrite (refs_shares p t f E). apply C; [done|]. destruct (frame_is_used p f) eqn:Up; [|done].
  rewrite K in U; done.
Qed.

Lemma lent_allocated s p t f n g : slab_wf s p → allocated p t f n → 0 ≤ g → lent s t g ↔ lent s p g ∨ f ≤ g < f + n.
Proof.
  intros W A Hg. unfold lent. rewrite (al_used _ _ _ _ A) by done. destruct (Z.leb_spec f g), (Z.ltb_spec g (f + n)); cbn [andb orb].
  - split; [by right|]. intros _. split; [done|]. by eapply fresh_not_owned.
  - split; [by left|]. by intros [?|?]; [|lia].
  - split; [by left|]. by intros [?|?]; [|lia].
  - split; [by left|]. by intros [?|?]; [|lia].
Qed.

Lemma lent_returned s p t f n g : returned p t f n → 0 ≤ g → lent s t g ↔ lent s p g ∧ ¬ f ≤ g < f + n.
Proof.
  intros R Hg. unfold lent. rewrite (rt_used _ _ _ _ R) by done. destruct (Z.leb_spec f g), (Z.ltb_spec g (f + n)); cbn [andb negb].
  - split; [by intros [? _]|]. by intros [_ []].
  - split; [intros [? ?]; split; [done|lia]|tauto].
  - split; [intros [? ?]; split; [done|lia]|tauto].
  - split; [intros [? ?]; split; [done|lia]|tauto].
Qed.

(** *** The slab *)

Lemma adjust_phys d a pgs : sp_phys <$> adjust d a pgs = sp_phys <$> pgs.
Proof. unfold adjust. induction pgs as [|g r IH]; [done|]. cbn. f_equal; [|exact IH]. by destruct (in_page (sp_addr g) a). Qed.

(** No page of the slab is lost. *)
Lemma updated_keeps s s' cls free pgs f : updated s s' cls free pgs → (∀ x, x ∈ sp_phys <$> pages_of s cls → x ∈ sp_phys <$> pgs) →
  slab_owns s f → slab_owns s' f.
Proof.
  intros U P (k&pg&Hk&Hp&E). destruct (decide (cls = k)) as [->|Ne].
  - assert (sp_phys pg ∈ sp_phys <$> pgs) as (pg'&E'&Hp')%list_elem_of_fmap by (by apply P, list_elem_of_fmap_2). exists k, pg'.
    rewrite (up_pages _ _ _ _ _ U), Z.eqb_refl by lia. split; [done|]. split; [done|]. congruence.
  - exists k, pg. rewrite (up_pages _ _ _ _ _ U) by lia. by destruct (Z.eqb_spec cls k).
Qed.

Lemma slab_pop_keeps s p cls f : slab_wf s p → 0 ≤ cls < 8 → slab_owns s f → slab_owns (slab_pop cls s).2 f.
Proof.
  intros W Hc O. unfold slab_pop. destruct (free_of s cls) as [|a rest] eqn:E; [done|]. cbn [snd].
  pose proof (sw_class _ _ W cls Hc) as C. rewrite E in C.
  change (pages_of (put_free cls rest s) cls) with (pages_of s cls).
  rewrite page_take_adjust; [|by eapply slab_wf_aligned|by apply (sw_nodup _ _ W)|].
  2:{ intros g Hg Hg'. pose proof (page_count_bound _ _ _ g Hc C (slab_wf_aligned _ _ cls W Hc) Hg).
      rewrite (cw_count _ _ _ C g Hg), count_cons, Hg' in *. destruct (slab_size_bounds cls Hc). lia. }
  eapply updated_keeps; [by eapply (updated_put s p cls rest (adjust (-1) a (pages_of s cls)) (oom_slab_page_count s))| |exact O].
  by rewrite adjust_phys.
Qed.

Lemma slab_free_keeps size s p a f : slab_wf s p → 0 ≤ oom_slab_class size < 8 → slab_owns s f → slab_owns (oom_slab_free a size s) f.
Proof.
  intros W Hc O. unfold oom_slab_free. destruct (_ || _); [done|]. cbv zeta. set (cls := oom_slab_class size) in *.
  destruct (Z.ltb_spec cls 0) as [|_]; [lia|]. pose proof (sw_class _ _ W cls Hc) as C.
  change (pages_of (put_free cls (a :: free_of s cls) s) cls) with (pages_of s cls).
  rewrite page_give_adjust; [|by eapply slab_wf_aligned|by apply (sw_nodup _ _ W)|].
  2:{ intros g' Hg'. pose proof (page_count_bound _ _ _ g' Hc C (slab_wf_aligned _ _ cls W Hc) Hg').
      destruct (slab_size_bounds cls Hc). lia. }
  eapply updated_keeps; [by eapply (updated_put s p cls (a :: free_of s cls) (adjust 1 a (pages_of s cls)) (oom_slab_page_count s))| |exact O].
  by rewrite adjust_phys.
Qed.

(** What the slab does with frames is between it and the page allocator. *)
Lemma slab_grow_lent s p cls : slab_wf s p → clean p → 0 ≤ cls < 8 →
  let '(ok, s', p') := oom_slab_grow_locked cls s p in
  frame_refs p' = frame_refs p ∧ ∀ g, 0 ≤ g → lent s' p' g ↔ lent s p g.
Proof.
  intros W Cl Hc. pose proof (slab_grow_frames s p cls W Hc) as Fr. unfold oom_slab_grow_locked, pmm_allocate_page in *.
  pose proof (sw_pmm _ _ W) as Wp. destruct (allocate_page_outcome p Wp) as [t f Er A|F]; [|done].
  destruct (al_range _ _ _ _ A) as [Hf1 Hf2]. destruct (al_same _ _ _ _ A) as (El&Erf&_).
  destruct (Z.eqb_spec (f * 4096) 0) as [|_]; [lia|]. set (base := pmm_physical_to_virtual t (f * 4096)) in *.
  pose proof (al_free _ _ _ _ A 0 ltac:(lia)) as Uf. rewrite Z.add_0_r in Uf.
  destruct (carve _ _ _ _ _ _) as [head n]. destruct (n =? 0).
  - assert (returned t (pmm_free_page (f * 4096) t) f 1) as R.
    { apply free_page_returned; [apply A|lia|]. rewrite (refs_shares p t f Erf). apply Cl; [lia|done]. }
    destruct (rt_same _ _ _ _ R) as (_&_&E). split; [congruence|]. intros g Hg. rewrite (lent_returned _ _ _ _ _ _ R Hg).
    rewrite (lent_allocated s p t f 1 g W A Hg). split; [tauto|]. intros L. split; [by left|]. intros Rg.
    assert (g = f) as -> by lia. destruct L. congruence.
  - split; [done|]. intros g Hg. unfold lent. destruct Fr as [_ Fr].
    match goal with |- context [slab_owns ?x] => set (s' := x) in * end.
    assert (updated s s' cls head (SlabPage base (f * 4096) n n :: pages_of s cls)) as U 
      by exact (updated_put s p cls head (SlabPage base (f * 4096) n n :: pages_of s cls) (u64 (oom_slab_page_count s + 1)) W Hc).
    assert (slab_owns s g → slab_owns s' g) as K.
    { eapply updated_keeps; [exact U|]. intros x Hx. by right. }
    assert (slab_owns s' f) as Of.
    { exists cls, (SlabPage base (f * 4096) n n). split; [done|]. rewrite (up_pages _ _ _ _ _ U), Z.eqb_refl by lia. split; [by left|done]. }
    rewrite (al_used _ _ _ _ A) by done. split.
    + intros [Ug Ng]. destruct (Z.leb_spec f g), (Z.ltb_spec g (f + 1)); cbn [andb orb] in Ug; try (split; [done|tauto]).
      assert (g = f) as -> by lia. done.
    + intros [Ug Ng]. rewrite Ug, orb_true_r. split; [done|]. intros Og. destruct (Fr g Hg Og) as [?|?]; [done|congruence].
Qed.

Lemma slab_alloc_lent size s p : slab_wf s p → clean p →
  let '(a, s', p') := oom_slab_alloc size s p in
  frame_refs p' = frame_refs p ∧ ∀ g, 0 ≤ g → lent s' p' g ↔ lent s p g.
Proof.
  intros W Cl. unfold oom_slab_alloc. destruct (size =? 0); [done|]. destruct (oom_slab_class_spec size) as [[E _]|(Hc&_&_)].
  { cbv zeta. by rewrite E. }
  cbv zeta. set (cls := oom_slab_class size) in *. destruct (Z.ltb_spec cls 0) as [|_]; [lia|].
  assert (∀ s1 p1, slab_wf s1 p1 → ∀ g, lent (slab_pop cls s1).2 p1 g ↔ lent s1 p1 g) as Pop.
  { intros s1 p1 W1 g. unfold lent. pose proof (slab_pop_owns s1 p1 cls g W1 Hc). pose proof (slab_pop_keeps s1 p1 cls g W1 Hc). tauto. }
  destruct (free_of s cls) as [|a0 rest].
  - pose proof (grow_spec s p cls W Hc) as G. pose proof (slab_grow_lent s p cls W Cl Hc) as Fr.
    destruct (oom_slab_grow_locked cls s p) as [[ok s1] p1]. destruct G as (W1&_&_). destruct Fr as [E1 L1].
    destruct ok; cbn [negb]; [|done]. specialize (Pop s1 p1 W1). destruct (slab_pop cls s1) as [b s2]. split; [done|].
    intros g Hg. cbn [snd] in Pop. by rewrite Pop, L1.
  - specialize (Pop s p W). destruct (slab_pop cls s) as [b s2]. split; [done|]. intros g _. apply Pop.
Qed.

Lemma slab_free_lent size s p a g : slab_wf s p → 0 ≤ oom_slab_class size < 8 → lent (oom_slab_free a size s) p g ↔ lent s p g.
Proof.
  intros W Hc. unfold lent. pose proof (slab_free_frames size s p a g W Hc). pose proof (slab_free_keeps size s p a g W Hc). tauto.
Qed.

(** *** The nodes *)

Lemma elem_frames n g : g ∈ frames n ↔
  n_kstack_phys n / 4096 ≤ g < n_kstack_phys n / 4096 + 4 ∨ (n_node_phys n ≠ 0 ∧ g = n_node_phys n / 4096).
Proof.
  unfold frames. rewrite elem_of_app, elem_of_seqZ. destruct (Z.eqb_spec (n_node_phys n) 0); rewrite ?elem_of_nil, ?list_elem_of_singleton; tauto.
Qed.

(** The object of the slab a node is, if it is one. *)
Definition node_object (n : node_mem) (k a : Z) : Prop := n_node_phys n = 0 ∧ k = oom_slab_class sizeof_thread ∧ a = n_addr n.

(** What is given out for a new node, exactly. *)
Lemma node_alloc_exact s p : slab_wf s p → clean p →
  let '(r, s', p') := node_alloc s p in
  frame_refs p' = frame_refs p ∧ (∀ g, 0 ≤ g → frame_is_used p g = true → frame_is_used p' g = true) ∧
  (∀ g, 0 ≤ g → lent s' p' g ↔ lent s p g ∨ ∃ n, r = Some n ∧ g ∈ frames n) ∧
  (∀ n g, r = Some n → g ∈ frames n → 0 ≤ g ∧ frame_is_used p g = false) ∧
  (∀ k a, 0 ≤ k < 8 → slab_live s' k a ↔ slab_live s k a ∨ ∃ n, r = Some n ∧ node_object n k a) ∧
  (∀ n k a, r = Some n → node_object n k a → ¬ slab_live s k a).
Proof.
  intros W Cl. unfold node_alloc. pose proof (slab_alloc_spec sizeof_thread s p W) as A0.
  pose proof (slab_alloc_frames sizeof_thread s p W) as F0. pose proof (slab_alloc_lent sizeof_thread s p W Cl) as L0.
  destruct (oom_slab_alloc sizeof_thread s p) as [[t s1] p1]. destruct A0 as [W1 A0], F0 as [K0 _], L0 as [E0 L0].
  pose proof (sw_pmm _ _ W1) as P1. destruct K0 as (Kl&Ko&Ku).
  assert (∀ g, 0 ≤ g → frame_is_used p1 g = false → frame_is_used p g = false) as Ku'.
  { intros g Hg U. destruct (frame_is_used p g) eqn:Up; [rewrite Ku in U|]; done. }
  assert (clean p1) as Cl1 by (apply (clean_kept p); done).
  unfold pmm_allocate_page, pmm_allocate_contiguous, SCHEDULER_STACK_PAGES.
  destruct (Z.eqb_spec t 0) as [->|Ht]; cbn [andb].
  - destruct A0 as [[_ Ob]|(_&_&Nl&Ob)].
    2:{ exfalso. apply (slab_live_nonzero s1 p1 5 W1 ltac:(lia)). apply Ob; [lia|]. by right. }
    assert (∀ P Q : Prop, ¬ Q → (P ↔ P ∨ Q)) as Nothing by tauto.
    destruct (allocate_page_outcome p1 P1) as [p2 e Er A|_].
    2:{ cbn. split; [done|]. split; [done|]. split; [intros g Hg; rewrite L0 by done; apply Nothing; by intros (?&?&_)|].
        split; [done|]. split; [|done]. intros k a Hk. rewrite Ob by done. apply Nothing. by intros (?&?&_). }
    destruct (al_range _ _ _ _ A) as [R1 R2]. destruct (Z.eqb_spec (e * 4096) 0) as [|Ne]; [lia|].
    destruct (al_same _ _ _ _ A) as (El&Erf&_). pose proof (allocated_kept _ _ _ _ A) as (_&_&Ka).
    pose proof (al_free _ _ _ _ A 0 ltac:(lia)) as Ue. rewrite Z.add_0_r in Ue.
    assert (∀ g, 0 ≤ g → lent s1 p2 g ↔ lent s p g ∨ g = e) as L2.
    { intros g Hg. rewrite (lent_allocated s1 p1 p2 e 1 g W1 A Hg), L0 by done. split; (intros [?|?]; [by left|right; lia]). }
    assert (slab_wf s1 p2) as W2 by (apply (slab_wf_kept s1 p1 p2 W1 (al_wf _ _ _ _ A)), (allocated_kept _ _ _ _ A)).
    destruct (allocate_contiguous_outcome p2 4 (al_wf _ _ _ _ A)) as [p3 f Er3 A3|_]; [lia| |].
    + destruct (al_range _ _ _ _ A3). destruct (Z.eqb_spec (f * 4096) 0) as [|_]; [lia|].
      destruct (al_same _ _ _ _ A3) as (El3&Erf3&_). pose proof (allocated_kept _ _ _ _ A3) as (_&_&Ka3).
      assert (∀ g, g ∈ frames (NodeMem (pmm_physical_to_virtual p2 (e * 4096)) (e * 4096) (f * 4096)) ↔ f ≤ g < f + 4 ∨ g = e) as Fe.
      { intros g. rewrite elem_frames. cbn [n_kstack_phys n_node_phys]. rewrite !Z.div_mul by lia. tauto. }
      split; [congruence|]. split; [auto|]. split; [|split; [|split]].
      * intros g Hg. rewrite (lent_allocated s1 p2 p3 f 4 g W2 A3 Hg), L2 by done. split.
        -- intros [[?|?]|?]; [by left|right..]; eexists; (split; [done|]); apply Fe; auto.
        -- intros [?|(n&[= <-]&Hn%Fe)]; tauto.
      * intros n g [= <-] Hn%Fe. split; [lia|]. destruct Hn as [Hn| ->]; [|apply Ku'; [lia|done]].
        apply Ku'; [lia|]. pose proof (al_free _ _ _ _ A3 (g - f) ltac:(lia)) as X. replace (f + (g - f)) with g in X by lia.
        destruct (frame_is_used p1 g) eqn:U; [|done]. rewrite Ka in X; [done|lia|done].
      * intros k a Hk. rewrite Ob by done. apply Nothing. intros (n&[= <-]&E&_). cbn in E. lia.
      * intros n k a [= <-] (E&_). cbn in E. lia.
    + cbn [Z.eqb]. destruct (Z.eqb_spec (e * 4096) 0) as [|_]; [lia|]. cbn [negb].
      assert (returned p2 (pmm_free_page (e * 4096) p2) e 1) as R.
      { apply free_page_returned; [apply A|lia|]. rewrite (refs_shares p1 p2 e Erf). apply Cl1; [lia|done]. }
      destruct (rt_same _ _ _ _ R) as (_&_&E3). split; [congruence|]. split; [|split; [|split; [done|split; [|done]]]].
      * intros g Hg Ug. rewrite (rt_used _ _ _ _ R), Ka by auto. destruct (Z.leb_spec e g), (Z.ltb_spec g (e + 1)); try done.
        assert (g = e) as -> by lia. rewrite (Ku e Hg Ug) in Ue. done.
      * intros g Hg. rewrite (lent_returned _ _ _ _ _ _ R Hg), L2 by done.
        assert (lent s p e → False) as Nle by (intros [U _]; rewrite (Ku e ltac:(lia) U) in Ue; done).
        split; [intros [[?| ->] ?]; [by left|lia]|]. intros [L|(?&?&_)]; [|done]. split; [by left|]. intros ?. apply Nle. by replace e with g by lia.
      * intros k a Hk. rewrite Ob by done. apply Nothing. by intros (?&?&_).
  - destruct A0 as [[? _]|(_&_&Nl&Ob)]; [done|]. cbv zeta in Nl, Ob.
    destruct (allocate_contiguous_outcome p1 4 P1) as [p3 f Er3 A3|_]; [lia| |].
    + destruct (al_range _ _ _ _ A3). destruct (Z.eqb_spec (f * 4096) 0) as [|_]; [lia|].
      destruct (al_same _ _ _ _ A3) as (El3&Erf3&_). pose proof (allocated_kept _ _ _ _ A3) as (_&_&Ka3).
      assert (∀ g, g ∈ frames (NodeMem t 0 (f * 4096)) ↔ f ≤ g < f + 4) as Fe.
      { intros g. rewrite elem_frames. cbn [n_kstack_phys n_node_phys]. rewrite !Z.div_mul by lia. tauto. }
      split; [congruence|]. split; [auto|]. split; [|split; [|split]].
      * intros g Hg. rewrite (lent_allocated s1 p1 p3 f 4 g W1 A3 Hg), L0 by done. split.
        -- intros [?|?]; [by left|right]; eexists; (split; [done|]); by apply Fe.
        -- intros [?|(n&[= <-]&Hn%Fe)]; tauto.
      * intros n g [= <-] Hn%Fe. split; [lia|]. apply Ku'; [lia|].
        pose proof (al_free _ _ _ _ A3 (g - f) ltac:(lia)) as X. by replace (f + (g - f)) with g in X by lia.
      * intros k a Hk. rewrite Ob by done. split; (intros [?|H1]; [by left|right]).
        -- destruct H1 as [-> ->]. by eexists.
        -- by destruct H1 as (n&[= <-]&_&->&->).
      * by intros n k a [= <-] (_&->&->).
    + cbn [Z.eqb negb]. assert (0 ≤ oom_slab_class sizeof_thread < 8) as Hc by (rewrite thread_class; lia).
      assert (slab_live s1 (oom_slab_class sizeof_thread) t) as Lt by (apply Ob; [done|by right]).
      destruct (slab_free_spec sizeof_thread s1 p1 t W1) as [W2 L2]; [done..|].
      split; [done|]. split; [done|]. split; [|split; [done|split; [|done]]].
      * intros g Hg. rewrite (slab_free_lent _ s1 p1) by done. rewrite L0 by done. split; [by left|]. by intros [?|(?&?&_)].
      * intros k a Hk. rewrite L2, Ob by done. split.
        -- intros [[?|?] ?]; [by left|done].
        -- intros [L|(?&?&_)]; [|done]. split; [by left|]. by intros [-> ->].
Qed.

(** What is given back with a node that nobody else shares, exactly. *)
Lemma node_free_exact n s p : slab_wf s p → node_ok s p n →
  (∀ g, g ∈ frames n → 1 ≤ g < frame_limit p ∧ lent s p g ∧ shares p g = 0) → NoDup (frames n) →
  let '(s', p') := node_free n s p in
  frame_refs p' = frame_refs p ∧
  (∀ g, 0 ≤ g → frame_is_used p' g = true ↔ frame_is_used p g = true ∧ g ∉ frames n) ∧
  (∀ g, 0 ≤ g → lent s' p' g ↔ lent s p g ∧ g ∉ frames n) ∧
  (∀ k a, 0 ≤ k < 8 → slab_live s' k a ↔ slab_live s k a ∧ ¬ node_object n k a).
Proof.
  intros W [[K1 K2] K3] Fr Nd. unfold node_free. destruct (Z.eqb_spec (n_kstack_phys n) 0) as [|_]; [lia|]. cbn [negb].
  set (f := n_kstack_phys n / 4096) in *.
  pose proof (Fr f ltac:(apply stack_frames; fold f; lia)) as [F1 _]. pose proof (Fr (f + 3) ltac:(apply stack_frames; fold f; lia)) as [F2 _].
  pose proof (free_contiguous_returned f 4 p (sw_pmm _ _ W) ltac:(lia) ltac:(lia) ltac:(lia)) as R.
  rewrite K1. unfold SCHEDULER_STACK_PAGES. set (q := pmm_free_contiguous (f * 4096) 4 p) in *.
  destruct (rt_same _ _ _ _ R) as (El&Eo&Er).
  assert (∀ g, 0 ≤ g → frame_is_used q g = true ↔ frame_is_used p g = true ∧ ¬ f ≤ g < f + 4) as Uq.
  { intros g Hg. rewrite (rt_used _ _ _ _ R) by done. rewrite andb_true_iff, negb_true_iff, andb_false_iff, Z.leb_gt, Z.ltb_ge. split; [intros [? ?]; split; [done|lia]|intros [? ?]; split; [lia|done]]. }
  pose proof (λ g Hg, lent_returned s p q f 4 g R Hg) as Lq.
  assert (slab_wf s q) as Wq.
  { apply (slab_wf_frames s p); [done|apply R|done|done|]. intros g Hg Og Ug. apply Uq; [done|]. split; [done|]. intros Rg.
    destruct (Fr g) as (_&[_ No]&_); [by apply stack_frames|done]. }
  destruct (Z.eqb_spec (n_node_phys n) 0) as [E0|E0]; cbn [negb].
  - assert (∀ g, g ∈ frames n ↔ f ≤ g < f + 4) as Fe by (intros g; rewrite elem_frames; tauto).
    assert (0 ≤ oom_slab_class sizeof_thread < 8) as Hc by (rewrite thread_class; lia).
    destruct (slab_free_spec sizeof_thread s q (n_addr n) Wq) as [_ L2]; [done| |done|done|].
    { intros E. rewrite E in K3. by apply (slab_live_nonzero s p 5) in K3. }
    split; [done|]. split; [|split].
    + intros g Hg. by rewrite Fe, Uq.
    + intros g Hg. by rewrite (slab_free_lent _ s q), Fe, Lq.
    + intros k a Hk. rewrite L2 by done. unfold node_object. tauto.
  - destruct K3 as (E1&E2&_). pose proof (Fr _ (node_frame n E0)) as (Rn&_&Sn). rewrite E1. set (e := n_node_phys n / 4096) in *.
    assert (∀ g, g ∈ frames n ↔ f ≤ g < f + 4 ∨ g = e) as Fe by (intros g; rewrite elem_frames; tauto).
    assert (returned q (pmm_free_page (e * 4096) q) e 1) as R2.
    { apply free_page_returned; [apply R|lia|]. by rewrite (refs_shares p q e Er). }
    destruct (rt_same _ _ _ _ R2) as (_&_&Er2). split; [congruence|]. split; [|split].
    + intros g Hg. rewrite (rt_used _ _ _ _ R2), Fe by done. rewrite andb_true_iff, negb_true_iff, andb_false_iff, Z.leb_gt, Z.ltb_ge, Uq by done.
      split; [intros [? [? ?]]; split; [done|lia]|intros [? ?]; split; [lia|]; split; [done|tauto]].
    + intros g Hg. rewrite (lent_returned _ _ _ _ _ _ R2 Hg), Lq, Fe by done.
      split; [intros [[? ?] ?]; split; [done|lia]|intros [? ?]; split; [tauto|lia]].
    + intros k a Hk. unfold node_object. tauto.
Qed.

(** ** What belongs to others *)

(** Every frame that is free, or a node's, has one user. *)
Definition unshared (ns : list node_mem) (p : pmm) : Prop :=
  clean p ∧ ∀ g, g ∈ concat (map frames ns) → shares p g = 0.

(** A frame given out to neither the slab nor a node, and an object of the slab
    that is no node. *)
Definition others_frame (ns : list node_mem) (s : slab) (p : pmm) (g : Z) : Prop := lent s p g ∧ g ∉ concat (map frames ns).
Definition others_object (ns : list node_mem) (s : slab) (k a : Z) : Prop :=
  slab_live s k a ∧ ¬ ∃ n, n ∈ ns ∧ node_object n k a.

(** The nodes are in order, and the others have what [F] and [Ob] say. *)
Class account := Account { ac_frame : Z → Prop; ac_object : Z → Z → Prop }.
Record memory_ok {A : account} (ns : list node_mem) (s : slab) (p : pmm) : Prop := {
  mo_nodes : nodes_ok ns s p;
  mo_unshared : unshared ns p;
  mo_frames : ∀ g, 0 ≤ g → others_frame ns s p g ↔ ac_frame g;
  mo_objects : ∀ k a, 0 ≤ k < 8 → others_object ns s k a ↔ ac_object k a;
}.

Section memory.
Context {A : account}.

Lemma memory_ok_permutation ns ns' s p : ns ≡ₚ ns' → memory_ok ns s p → memory_ok ns' s p.
Proof.
  intros P [N [C U] F O]. pose proof (frames_permutation ns ns' P) as Pf. split; [by eapply nodes_ok_permutation| | |].
  - split; [done|]. intros g Hg. apply U. by rewrite Pf.
  - intros g Hg. rewrite <- F by done. unfold others_frame. by rewrite Pf.
  - intros k a Hk. rewrite <- O by done. unfold others_object. by setoid_rewrite P.
Qed.

Lemma memory_alloc ns s p : memory_ok ns s p →
  let '(r, s', p') := node_alloc s p in
  match r with Some n => memory_ok (n :: ns) s' p' | None => memory_ok ns s' p' end.
Proof.
  intros [N [C U] F O]. pose proof (node_alloc_spec ns s p N) as N'. pose proof (node_alloc_exact s p (no_slab _ _ _ N) C) as X.
  destruct (node_alloc s p) as [[r s'] p']. destruct X as (Er&Ku&L&New&Ob&NewO).
  assert (clean p') as C'.
  { intros g Hg Ug. rewrite (refs_shares p p' g Er). apply C; [done|]. destruct (frame_is_used p g) eqn:Up; [|done]. by rewrite Ku in Ug. }
  destruct r as [n|].
  - split; [done|split; [done|]| |].
    + intros g Hg. rewrite (refs_shares p p' g Er). cbn in Hg. apply elem_of_app in Hg as [Hg|Hg]; [|by apply U].
      destruct (New n g eq_refl Hg) as [? ?]. by apply C.
    + intros g Hg. rewrite <- F by done. unfold others_frame. rewrite L by done. cbn [map concat]. rewrite not_elem_of_app. split.
      * intros [[?|(m&[= <-]&?)] [? ?]]; done.
      * intros [Lg Ng]. split; [by left|]. split; [|done]. intros Hn. destruct (New n g eq_refl Hn) as [_ Un]. destruct Lg. congruence.
    + intros k a Hk. rewrite <- O by done. unfold others_object. rewrite Ob by done. split.
      * intros [[?|(m&[= <-]&Hm)] Nx]; [|destruct Nx; exists n; split; [by left|done]]. split; [done|]. intros (m&Hm&Om).
        apply Nx. exists m. split; [by right|done].
      * intros [Lv Nx]. split; [by left|]. intros (m&[->|Hm]%elem_of_cons&Om); [by apply (NewO n k a)|]. apply Nx. by exists m.
  - split; [done|split; [done|]| |].
    + intros g Hg. rewrite (refs_shares p p' g Er). by apply U.
    + intros g Hg. rewrite <- F by done. unfold others_frame. rewrite L by done. split; [intros [[?|(?&?&_)] ?]; done|intros [? ?]; split; [by left|done]].
    + intros k a Hk. rewrite <- O by done. unfold others_object. rewrite Ob by done. split; [intros [[?|(?&?&_)] ?]; done|intros [? ?]; split; [by left|done]].
Qed.

Lemma memory_free n ns s p : memory_ok (n :: ns) s p → let '(s', p') := node_free n s p in memory_ok ns s' p'.
Proof.
  intros [N [C U] F O]. pose proof (node_free_spec n ns s p N) as N'.
  pose proof (no_frames _ _ _ N) as Nd. cbn in Nd. apply NoDup_app in Nd as (Ndn&Ndd&_).
  pose proof (node_free_exact n s p (no_slab _ _ _ N) (no_node _ _ _ N n ltac:(by left))) as X.
  pose proof (no_node _ _ _ N) as Nk. pose proof (no_addr _ _ _ N) as Na. cbn in Na. apply NoDup_cons in Na as [Na _].
  destruct (node_free n s p) as [s' p']. destruct X as (Er&Uu&L&Ob); [|done|].
  { intros g Hg. assert (g ∈ concat (map frames (n :: ns))) as Hc by (cbn; apply elem_of_app; by left).
    destruct (no_used _ _ _ N g Hc) as (R1&R2&R3). split; [done|]. split; [done|]. by apply U. }
  split; [done|split| |].
  - intros g Hg Ug. rewrite (refs_shares p p' g Er). destruct (decide (g ∈ frames n)) as [Hn|Hn].
    + apply U. cbn. apply elem_of_app. by left.
    + apply C; [done|]. destruct (frame_is_used p g) eqn:Up; [|done]. assert (frame_is_used p' g = true) by (by apply Uu). congruence.
  - intros g Hg. rewrite (refs_shares p p' g Er). apply U. cbn. apply elem_of_app. by right.
  - intros g Hg. rewrite <- F by done. unfold others_frame. rewrite L by done. cbn [map concat]. rewrite not_elem_of_app. tauto.
  - intros k a Hk. rewrite <- O by done. unfold others_object. rewrite Ob by done. split.
    + intros [[Lv Nn] Nx]. split; [done|]. intros (m&[->|Hm]%elem_of_cons&Om); [done|]. apply Nx. by exists m.
    + intros [Lv Nx]. split; [split; [done|]|].
      * intros Hn. apply Nx. exists n. split; [by left|done].
      * intros (m&Hm&Om). apply Nx. exists m. split; [by right|done].
Qed.
End memory.

(** What the others have, as it is. *)
Definition account_of (ns : list node_mem) (s : slab) (p : pmm) : account := Account (others_frame ns s p) (others_object ns s).

Lemma account_of_ok ns s p : nodes_ok ns s p → unshared ns p → memory_ok (A := account_of ns s p) ns s p.
Proof. by split. Qed.
