(* ===== verification/Sched.v ===== *)
(** * The scheduler (src/src/kernel/process/scheduler.c)

    Threads are records in memory, known by their address; the list of all
    threads and the chains of the hash table are lists of addresses.  The idle
    thread of a processor is a static record, its address a negative number here;
    0 is the null pointer.

    Every function holds the lock of the run queue from its first access to its
    last, and the lock is handed over a context switch: [schedule_locked] is the
    switch from one thread to another together with what the other thread does
    when it comes back from its own call of the switch, [finish_switch].  A
    function that releases the lock and calls another is composed of both; the
    steps of [SchedSpec] are the parts, so that anything can happen between.

    The stack pointer, the floating-point registers, the page tables and the
    inter-processor interrupts are left out: the switch loads them for the
    thread it switches to and panics if its stack pointer is damaged, and an
    interrupt is a step that may happen at any time. *)

From S2P Require Import Prelude Pmm Slab ThreadMem.
From S2P Require Import Cpu.

(** ** Data *)

(** [src/kernel/process/scheduler.h:7-7] SCHEDULER_TARGET_LATENCY_MS *)
Definition SCHEDULER_TARGET_LATENCY_MS : Z := 20.
(** [src/kernel/process/scheduler.h:9-16] sched_qos *)
Definition SCHED_QOS_IDLE : Z := 0.
(** [src/kernel/process/scheduler.h:9-16] sched_qos *)
Definition SCHED_QOS_DEFAULT : Z := 3.
(** [src/kernel/process/scheduler.h:9-16] sched_qos *)
Definition SCHED_QOS_USER_INTERACTIVE : Z := 5.
(** [src/kernel/process/scheduler.c:42-42] SCHEDULER_NICE_0_WEIGHT *)
Definition SCHEDULER_NICE_0_WEIGHT : Z := 1024.
(** [src/kernel/process/scheduler.c:44-44] THASH_SIZE *)
Definition THASH_SIZE : nat := 256.

(** [src/kernel/process/scheduler.h:20-26] thread_state *)
Inductive thread_state := THREAD_FREE | THREAD_READY | THREAD_RUNNING | THREAD_BLOCKED | THREAD_TERMINATED.
#[export] Instance thread_state_eq_dec : EqDecision thread_state.
Proof. solve_decision. Defined.

(** The links [next] and [hnext] are the lists of [sched].
    [src/kernel/process/scheduler.h:28-60] thread *)
Record thread := Thread {
  entry : Z;
  arg : Z;
  state : thread_state;
  priority : Z;
  qos : Z;
  affinity : Z;
  affinity_auto : bool;
  id : Z;
  name : list Z;
  ticks_remaining : Z;
  runtime_ticks : Z;
  virtual_runtime : Z;
  virtual_deadline : Z;
  wake_tick : Z;
  address_space : Z;
  process : Z;
  user_mode : bool;
  idle : bool;
  kernel_only : bool;
  wake_pending : bool;
  running_cpu : Z;
  cpu_mask : Z;
  preempt_saved : Z;
  migrations : Z;
  node_phys : Z;
  kstack_phys : Z;
}.
#[export] Instance eta_thread : Eta thread := λ t,
  Thread (entry t) (arg t) (state t) (priority t) (qos t) (affinity t) (affinity_auto t) (id t) (name t)
    (ticks_remaining t) (runtime_ticks t) (virtual_runtime t) (virtual_deadline t) (wake_tick t)
    (address_space t) (process t) (user_mode t) (idle t) (kernel_only t) (wake_pending t) (running_cpu t)
    (cpu_mask t) (preempt_saved t) (migrations t) (node_phys t) (kstack_phys t).
(** [memset(t, 0, sizeof( *t))]. *)
Definition thread_zero : thread :=
  Thread 0 0 THREAD_FREE 0 0 0 false 0 [] 0 0 0 0 0 0 0 false false false false 0 0 0 0 0 0.

(** [src/kernel/process/scheduler.c:24-36] scheduler_cpu *)
Record scheduler_cpu := SchedulerCpu {
  current : Z;
  c_idle : Z;
  previous : Z;
  initialized : bool;
  started : bool;
  last_tick : Z;
  total_ticks : Z;
  idle_ticks : Z;
  preempt_depth : Z;
  reschedule_pending : bool;
}.
#[export] Instance eta_scheduler_cpu : Eta scheduler_cpu := λ c,
  SchedulerCpu (current c) (c_idle c) (previous c) (initialized c) (started c) (last_tick c) (total_ticks c)
    (idle_ticks c) (preempt_depth c) (reschedule_pending c).
Definition cpu_zero : scheduler_cpu := SchedulerCpu 0 0 0 false false 0 0 0 0 false.

(** The static variables, the memory they point to, the allocators and the table
    of processors.
    [src/kernel/process/scheduler.c:21-45] thread_list *)
Record sched := Sched {
  thread_list : list Z;
  thread_live_count : Z;
  memory : gmap Z thread;
  cpu_schedulers : list scheduler_cpu;
  next_id : Z;
  active_mask : Z;
  runqueue_min_vruntime : Z;
  thash_buckets : list (list Z);
  s_slab : slab;
  s_pmm : pmm;
  s_topology : topology;
}.
#[export] Instance eta_sched : Eta sched := λ s,
  Sched (thread_list s) (thread_live_count s) (memory s) (cpu_schedulers s) (next_id s) (active_mask s)
    (runqueue_min_vruntime s) (thash_buckets s) (s_slab s) (s_pmm s) (s_topology s).

(** [t->...] and an assignment to a field of a thread. *)
Definition get (s : sched) (t : Z) : thread := default thread_zero (memory s !! t).
Definition put (t : Z) (x : thread) (s : sched) : sched := s <| memory := <[t := x]> (memory s) |>.
Definition upd (t : Z) (f : thread → thread) (s : sched) : sched := put t (f (get s t)) s.
(** [cpu_schedulers[c]] and an assignment to it. *)
Definition cpu_at (s : sched) (c : Z) : scheduler_cpu := aget cpu_zero (cpu_schedulers s) c.
Definition upd_cpu (c : Z) (f : scheduler_cpu → scheduler_cpu) (s : sched) : sched :=
  s <| cpu_schedulers := aset (cpu_schedulers s) c (f (cpu_at s c)) |>.

(** [&idle_threads[c]]. *)
Definition idle_address (c : Z) : Z := - c - 1.

(** ** The hash table *)

(** [src/kernel/process/scheduler.c:46-50] thash_idx *)
Definition thash_idx (tid : Z) : Z := Z.land (Z.lxor tid (tid ≫ 8)) (Z.of_nat THASH_SIZE - 1).
Definition bucket (s : sched) (i : Z) : list Z := aget [] (thash_buckets s) i.
(** [src/kernel/process/scheduler.c:51-56] thash_insert *)
Definition thash_insert (t : Z) (s : sched) : sched :=
  let i := thash_idx (id (get s t)) in
  s <| thash_buckets := aset (thash_buckets s) i (t :: bucket s i) |>.

(** [for (link = &head; *link && *link != t; ...); if ( *link) *link = t->next;] *)
Fixpoint unlink (t : Z) (l : list Z) : list Z :=
  match l with
  | [] => []
  | x :: l' => if x =? t then l' else x :: unlink t l'
  end.

(** [src/kernel/process/scheduler.c:57-66] thash_remove *)
Definition thash_remove (t : Z) (s : sched) : sched :=
  let i := thash_idx (id (get s t)) in
  s <| thash_buckets := aset (thash_buckets s) i (unlink t (bucket s i)) |>.

Fixpoint first_of (p : Z → bool) (l : list Z) : option Z :=
  match l with
  | [] => None
  | x :: l' => if p x then Some x else first_of p l'
  end.

(** [src/kernel/process/scheduler.c:67-76] thash_find *)
Definition thash_find (s : sched) (tid : Z) : option Z :=
  if tid =? 0 then None
  else first_of (λ t, (id (get s t) =? tid) && bool_decide (state (get s t) ≠ THREAD_FREE)) (bucket s (thash_idx tid)).

(** A call with the number of a thread as an [int]: the argument is converted, and
    a negative one finds nothing. *)
Definition find_tid (s : sched) (tid : Z) : option Z := if 0 <=? i32 tid then thash_find s (u32 (i32 tid)) else None.

(** ** Weights and deadlines *)

(** [src/kernel/process/scheduler.c:86-92] scheduler_weight *)
Definition scheduler_weight (qos : Z) : Z :=
  let weights := [256; 512; 768; 1024; 1536; 2048] in
  if qos <? Z.of_nat (length weights) then aget 0 weights qos else aget 0 weights SCHED_QOS_DEFAULT.

(** [src/kernel/process/scheduler.c:94-99] scheduler_qos_quantum *)
Definition scheduler_qos_quantum (qos : Z) : Z :=
  let slice := SCHEDULER_TARGET_LATENCY_MS * scheduler_weight qos / SCHEDULER_NICE_0_WEIGHT in
  if negb (slice =? 0) then u32 slice else 1.

(** [src/kernel/process/scheduler.c:101-105] thread_on_runqueue *)
Definition thread_on_runqueue (t : thread) : bool :=
  negb (idle t) && (bool_decide (state t = THREAD_READY) || bool_decide (state t = THREAD_RUNNING)).

(** The weight of all that run or are ready. *)
Definition total_weight (s : sched) : Z :=
  foldl (λ total t, if thread_on_runqueue (get s t) then u64 (total + scheduler_weight (qos (get s t))) else total)
    0 (thread_list s).

(** [src/kernel/process/scheduler.c:107-127] fair_slice_ms *)
Definition fair_slice_ms (s : sched) (t : thread) : Z :=
  let total := total_weight s in
  if total =? 0 then SCHEDULER_TARGET_LATENCY_MS else
  let slice := u32 (SCHEDULER_TARGET_LATENCY_MS * scheduler_weight (qos t)) / total in
  let slice := if slice =? 0 then 1 else slice in
  let slice := if SCHEDULER_TARGET_LATENCY_MS <? slice then SCHEDULER_TARGET_LATENCY_MS else slice in
  u32 slice.

(** [a + b] that stops at the largest value. *)
Definition add_saturated (a b : Z) : Z := if UINT64_MAX - a <? b then UINT64_MAX else a + b.

(** [src/kernel/process/scheduler.c:129-139] virtual_deadline_after *)
Definition virtual_deadline_after (t : thread) (slice_ms : Z) : Z :=
  let delta := slice_ms * SCHEDULER_NICE_0_WEIGHT / scheduler_weight (qos t) in
  let delta := if delta =? 0 then 1 else delta in
  add_saturated (virtual_runtime t) delta.

(** [src/kernel/process/scheduler.c:141-148] ensure_fair_request *)
Definition ensure_fair_request (t : Z) (s : sched) : sched :=
  let x := get s t in
  if idle x || negb (ticks_remaining x =? 0) then s
  else
    let slice := fair_slice_ms s x in
    put t (x <| ticks_remaining := slice |> <| virtual_deadline := virtual_deadline_after x slice |>) s.

(** ** Threads come and go *)

(** The memory of a thread. *)
Definition mem_of (s : sched) (t : Z) : node_mem := NodeMem t (node_phys (get s t)) (kstack_phys (get s t)).

(** [src/kernel/process/scheduler.c:370-382] thread_node_free *)
Definition thread_node_free (t : Z) (s : sched) : sched :=
  if (t =? 0) || idle (get s t) then s
  else
    let '(sl, p) := node_free (mem_of s t) (s_slab s) (s_pmm s) in
    s <| s_slab := sl |> <| s_pmm := p |> <| memory := delete t (memory s) |>.

(** Taking a thread off the list and out of the table, as two functions do.
    [src/kernel/process/scheduler.c:267-276] finish_switch *)
Definition remove_thread (t : Z) (s : sched) : option sched :=
  if bool_decide (t ∈ thread_list s)
  then Some (thash_remove t (s <| thread_list := unlink t (thread_list s) |>
                               <| thread_live_count := u32 (thread_live_count s - 1) |>))
  else None.

(** What the thread switched to does first, on processor [c].
    [src/kernel/process/scheduler.c:257-283] finish_switch *)
Definition finish_switch (c : Z) (s : sched) : sched :=
  let prev := previous (cpu_at s c) in
  let '(victim, s) :=
    if prev =? 0 then (None, s) else
    let s := upd prev (λ t, t <| running_cpu := -1 |>) s in
    if bool_decide (state (get s prev) = THREAD_TERMINATED) && negb (idle (get s prev)) then
      match remove_thread prev s with
      | Some s => (Some prev, s)
      | None => (None, s)
      end
    else (None, s) in
  let s := upd_cpu c (λ x, x <| previous := 0 |>) s in
  match victim with Some v => thread_node_free v s | None => s end.

(** [c] is the processor that calls; [now] is what the timer shows.
    [src/kernel/process/scheduler.c:306-327] scheduler_init_cpu *)
Definition scheduler_init_cpu (c now kernel_space : Z) (s : sched) : sched :=
  if initialized (cpu_at s c) then s
  else
    let t := thread_zero <| idle := true |> <| state := THREAD_RUNNING |> <| running_cpu := c |> <| affinity := c |>
               <| qos := SCHED_QOS_IDLE |> <| address_space := kernel_space |> <| ticks_remaining := 0 |> in
    let s := put (idle_address c) t s in
    upd_cpu c (λ x, x <| c_idle := idle_address c |> <| current := idle_address c |> <| last_tick := now |>
                      <| initialized := true |>) s.

(** [src/kernel/process/scheduler.c:329-340] scheduler_init *)
Definition scheduler_init (c now kernel_space : Z) (s : sched) : sched :=
  if negb (c =? 0) || initialized (cpu_at s c) then s
  else
    scheduler_init_cpu c now kernel_space
      (s <| thread_list := [] |> <| thread_live_count := 0 |> <| runqueue_min_vruntime := 0 |>
         <| thash_buckets := replicate THASH_SIZE [] |>).

(** The page the node itself may be is filled in by the caller.
    [src/kernel/process/scheduler.c:342-368] thread_node_alloc *)
Definition thread_node_alloc (s : sched) : Z * sched :=
  let '(r, sl, p) := node_alloc (s_slab s) (s_pmm s) in
  let s := s <| s_slab := sl |> <| s_pmm := p |> in
  match r with
  | None => (0, s)
  | Some n =>
      (n_addr n, put (n_addr n) (thread_zero <| node_phys := n_node_phys n |> <| kstack_phys := n_kstack_phys n |>) s)
  end.

(** [src/kernel/process/scheduler.c:425-440] alloc_thread *)
Definition alloc_thread (s : sched) : Z * sched :=
  match first_of (λ t, (bool_decide (state (get s t) = THREAD_FREE) || bool_decide (state (get s t) = THREAD_TERMINATED)) &&
                       (running_cpu (get s t) =? -1)) (thread_list s) with
  | Some t => (t, s)
  | None =>
      let '(fresh, s) := thread_node_alloc s in
      if fresh =? 0 then (0, s)
      else (fresh, s <| thread_list := fresh :: thread_list s |> <| thread_live_count := u32 (thread_live_count s + 1) |>)
  end.

(** [src/kernel/process/scheduler.c:442-470] scheduler_free_thread_by_id *)
Definition scheduler_free_thread_by_id (tid : Z) (s : sched) : sched :=
  match find_tid s tid with
  | None => s
  | Some t =>
      if bool_decide (state (get s t) ≠ THREAD_TERMINATED) || negb (running_cpu (get s t) =? -1) || idle (get s t)
      then s
      else match remove_thread t s with Some s => thread_node_free t s | None => s end
  end.

(** A number no thread has, from the first candidate on; a round that does not
    end has found a thread with the candidate, and the candidates differ, so
    one more round than there are threads is enough
    ([SchedSpec.find_id_spec]).  The number and the next candidate.
    [src/kernel/process/scheduler.c:503-510] create_thread *)
Fixpoint find_id (fuel : nat) (s : sched) (tid next : Z) : option (Z * Z) :=
  match thash_find s tid with
  | None => Some (tid, next)
  | Some _ =>
      match fuel with
      | O => None
      | S fuel' =>
          let next := u32 (next + 1) in
          let next := if next =? 0 then 1 else next in
          find_id fuel' s next (u32 (next + 1))
      end
  end.

(** The number, or -1; [None] would be a search that does not end.
    [src/kernel/process/scheduler.c:472-536] create_thread *)
Definition create_thread (c entry_ arg_ : Z) (name_ : option (list Z)) (priority_ affinity_ space kernel_space process_ : Z)
    (user : bool) (s : sched) : option (Z * sched) :=
  if negb (initialized (cpu_at s c)) || (entry_ =? 0) then Some (-1, s)
  else if (affinity_ <? -1) || (cpu_registered_count (s_topology s) <=? affinity_) then Some (-1, s)
  else if (0 <=? affinity_) && negb (cpu_is_online affinity_ (s_topology s)) then Some (-1, s)
  else
    let '(t, s) := alloc_thread s in
    if t =? 0 then Some (-1, s) else
    let s := thash_remove t s in
    let old := get s t in
    let tid := next_id s in
    let next := u32 (tid + 1) in
    let '(tid, next) := if tid =? 0 then (next, u32 (next + 1)) else (tid, next) in
    let s := put t (thread_zero <| kstack_phys := kstack_phys old |> <| node_phys := node_phys old |> <| id := tid |>) s in
    match find_id (length (thread_list s)) s tid next with
    | None => None
    | Some (tid, next) =>
        let s := upd t (λ x, x <| id := tid |>) (s <| next_id := next |>) in
        let s := thash_insert t s in
        let s := upd t (λ x,
          x <| entry := entry_ |> <| arg := arg_ |> <| priority := if 7 <? priority_ then 7 else priority_ |>
            <| qos := SCHED_QOS_DEFAULT |> <| affinity := affinity_ |> <| running_cpu := -1 |> <| kernel_only := user |>
            <| ticks_remaining := 0 |> <| virtual_runtime := runqueue_min_vruntime s |> <| virtual_deadline := 0 |>
            <| address_space := if negb (space =? 0) then space else kernel_space |> <| process := process_ |>
            <| user_mode := user |> <| name := take 31 (default [116; 104; 114; 101; 97; 100] name_) |>
            <| state := THREAD_READY |>) s in
        Some (i32 tid, s)
    end.

(** [src/kernel/process/scheduler.c:563-568] scheduler_create_thread *)
Definition scheduler_create_thread (c entry_ arg_ : Z) (name_ : option (list Z)) (priority_ affinity_ kernel_space : Z) :=
  create_thread c entry_ arg_ name_ priority_ affinity_ kernel_space kernel_space 0 false.
(** [src/kernel/process/scheduler.c:569-578] scheduler_create_user_thread *)
Definition scheduler_create_user_thread (c entry_ arg_ : Z) (name_ : option (list Z)) (priority_ affinity_ space kernel_space process_ : Z)
    (s : sched) : option (Z * sched) :=
  if (space =? 0) || (process_ =? 0) then Some (-1, s)
  else create_thread c entry_ arg_ name_ priority_ affinity_ space kernel_space process_ true s.
(** The floating-point registers are copied as well.
    [src/kernel/process/scheduler.c:580-591] scheduler_create_forked_thread *)
Definition scheduler_create_forked_thread := scheduler_create_user_thread.
(** [src/kernel/process/scheduler.c:593-602] scheduler_create_service_thread *)
Definition scheduler_create_service_thread (c entry_ arg_ : Z) (name_ : option (list Z)) (priority_ affinity_ space kernel_space process_ : Z)
    (s : sched) : option (Z * sched) :=
  if process_ =? 0 then Some (-1, s)
  else create_thread c entry_ arg_ name_ priority_ affinity_ space kernel_space process_ false s.

(** ** Attributes *)

(** [src/kernel/process/scheduler.c:538-552] scheduler_set_qos *)
Definition scheduler_set_qos (tid q : Z) (s : sched) : sched :=
  if SCHED_QOS_USER_INTERACTIVE <? q then s else
  match find_tid s tid with
  | None => s
  | Some t =>
      if bool_decide (state (get s t) = THREAD_FREE) then s
      else upd t (λ x, x <| qos := q |> <| ticks_remaining := 0 |> <| virtual_deadline := 0 |>) s
  end.

(** [src/kernel/process/scheduler.c:554-561] scheduler_get_qos *)
Definition scheduler_get_qos (tid : Z) (s : sched) : Z :=
  match find_tid s tid with Some t => qos (get s t) | None => SCHED_QOS_DEFAULT end.

(** [src/kernel/process/scheduler.c:694-709] scheduler_set_affinity *)
Definition scheduler_set_affinity (tid core : Z) (s : sched) : sched :=
  if (core <? -1) || (cpu_registered_count (s_topology s) <=? core) then s
  else if (0 <=? core) && negb (cpu_is_online core (s_topology s)) then s
  else
    match find_tid s tid with
    | None => s
    | Some t =>
        if bool_decide (state (get s t) = THREAD_FREE) then s
        else upd t (λ x, x <| affinity := core |> <| affinity_auto := false |>) s
    end.

(** [src/kernel/process/scheduler.c:604-611] scheduler_current_thread *)
Definition scheduler_current_thread (c : Z) (s : sched) : Z :=
  if c <? Z.of_nat CPU_MAX_COUNT then current (cpu_at s c) else 0.
(** [src/kernel/process/scheduler.c:612-616] scheduler_current_tid *)
Definition scheduler_current_tid (c : Z) (s : sched) : Z :=
  let t := scheduler_current_thread c s in if t =? 0 then -1 else i32 (id (get s t)).
(** [src/kernel/process/scheduler.c:621-625] scheduler_is_running *)
Definition scheduler_is_running (c : Z) (s : sched) : bool :=
  (c <? Z.of_nat CPU_MAX_COUNT) && started (cpu_at s c).
(** The set bits of the mask.
    [src/kernel/process/scheduler.c:626-636] scheduler_get_core_count *)
Definition scheduler_get_core_count (s : sched) : Z := count_if (Z.testbit (active_mask s)) 32 0.
(** [src/kernel/process/scheduler.c:638-647] scheduler_thread_count *)
Definition scheduler_thread_count (s : sched) : Z :=
  u32 (Z.of_nat (length (filter (λ t, bool_decide (state (get s t) ≠ THREAD_FREE) &&
                                      bool_decide (state (get s t) ≠ THREAD_TERMINATED) = true) (thread_list s)))).
(** [src/kernel/process/scheduler.c:648-657] scheduler_thread_runtime_ticks *)
Definition scheduler_thread_runtime_ticks (tid : Z) (s : sched) : Z :=
  match (if 0 <? i32 tid then thash_find s (u32 (i32 tid)) else None) with Some t => runtime_ticks (get s t) | None => 0 end.
(** [src/kernel/process/scheduler.c:658-667] scheduler_thread_stopped *)
Definition scheduler_thread_stopped (tid : Z) (s : sched) : bool :=
  match find_tid s tid with
  | Some t => bool_decide (state (get s t) = THREAD_TERMINATED) && (running_cpu (get s t) =? -1)
  | None => true
  end.
(** [src/kernel/process/scheduler.c:669-675] scheduler_total_ticks *)
Definition scheduler_total_ticks (s : sched) : Z := foldl (λ total c, u64 (total + total_ticks c)) 0 (cpu_schedulers s).
(** [src/kernel/process/scheduler.c:676-682] scheduler_idle_ticks *)
Definition scheduler_idle_ticks (s : sched) : Z := foldl (λ total c, u64 (total + idle_ticks c)) 0 (cpu_schedulers s).
(** [src/kernel/process/scheduler.c:683-692] scheduler_cpu_ticks *)
Definition scheduler_cpu_ticks (c : Z) (s : sched) : option (Z * Z) :=
  if Z.of_nat CPU_MAX_COUNT <=? c then None else Some (total_ticks (cpu_at s c), idle_ticks (cpu_at s c)).

(** ** Choosing the next thread *)

(** [src/kernel/process/scheduler.c:711-716] eligible *)
Definition eligible (t : thread) (c : Z) : bool :=
  if kernel_only t then c =? 0 else (affinity t <? 0) || (affinity t =? c).

(** The first of the processors that are started and may run the thread with the
    least load; the first such processor always counts, as no load is above
    [UINT64_MAX].
    [src/kernel/process/scheduler.c:737-750] calculate_cpu_loads *)
Definition least_loaded (s : sched) (t : thread) (loads : list Z) : option Z :=
  foldl (λ least c,
      if negb (started (cpu_at s c)) || negb (eligible t c) then least
      else match least with
           | None => Some c
           | Some l => if aget 0 loads c <? aget 0 loads l then Some c else least
           end) None (seqZ 0 (cpu_registered_count (s_topology s))).

(** [src/kernel/process/scheduler.c:718-754] calculate_cpu_loads *)
Definition calculate_cpu_loads (moving : Z) (s : sched) : list Z :=
  let loads := foldl (λ loads c,
      let t := current (cpu_at s c) in
      if negb (started (cpu_at s c)) then loads
      else if negb (t =? 0) && negb (idle (get s t)) && negb (t =? moving)
      then aset loads c (u64 (aget 0 loads c + scheduler_weight (qos (get s t)))) else loads)
    (replicate CPU_MAX_COUNT 0) (seqZ 0 (cpu_registered_count (s_topology s))) in
  foldl (λ loads t,
      if (t =? moving) || bool_decide (state (get s t) ≠ THREAD_READY) || negb (running_cpu (get s t) =? -1) then loads
      else match least_loaded s (get s t) loads with
           | Some l => aset loads l (u64 (aget 0 loads l + scheduler_weight (qos (get s t))))
           | None => loads
           end) loads (thread_list s).

(** [src/kernel/process/scheduler.c:756-764] enqueue_woken_thread *)
Definition enqueue_woken_thread (t : Z) (s : sched) : sched :=
  upd t (λ x, x <| virtual_runtime := if virtual_runtime x <? runqueue_min_vruntime s then runqueue_min_vruntime s
                                      else virtual_runtime x |>
                <| ticks_remaining := 0 |> <| virtual_deadline := 0 |> <| wake_tick := 0 |> <| state := THREAD_READY |>) s.

(** [src/kernel/process/scheduler.c:766-774] wake_sleeping_threads *)
Definition wake_sleeping_threads (now : Z) (s : sched) : sched :=
  foldl (λ s t,
      let x := get s t in
      if bool_decide (state x = THREAD_BLOCKED) && negb (wake_tick x =? 0) && (wake_tick x <=? now)
      then enqueue_woken_thread t s else s) s (thread_list s).

(** [src/kernel/process/scheduler.c:776-786] update_min_vruntime *)
Definition update_min_vruntime (s : sched) : sched :=
  let minimum := foldl (λ m t, if thread_on_runqueue (get s t) && (virtual_runtime (get s t) <? m)
                               then virtual_runtime (get s t) else m) UINT64_MAX (thread_list s) in
  if negb (minimum =? UINT64_MAX) && (runqueue_min_vruntime s <? minimum)
  then s <| runqueue_min_vruntime := minimum |> else s.

(** [src/kernel/process/scheduler.c:788-812] runqueue_avg_vruntime *)
Definition runqueue_avg_vruntime (s : sched) : Z :=
  let min_v := runqueue_min_vruntime s in
  let '(total, weighted) := foldl (λ '(total, weighted) t,
      let x := get s t in
      if negb (thread_on_runqueue x) then (total, weighted)
      else
        let weight := scheduler_weight (qos x) in
        let delta := if min_v <? virtual_runtime x then virtual_runtime x - min_v else 0 in
        let weighted :=
          if negb (delta =? 0) && ((UINT64_MAX - weighted) / delta <? weight) then UINT64_MAX
          else if negb (weighted =? UINT64_MAX) then weighted + delta * weight else weighted in
        (u64 (total + weight), weighted)) (0, 0) (thread_list s) in
  if total =? 0 then min_v else add_saturated min_v (weighted / total).

(** Whether processor [c] could take the thread.
    [src/kernel/process/scheduler.c:827-830] pick_next *)
Definition selectable (c : Z) (s : sched) (t : Z) : bool :=
  let x := get s t in
  (bool_decide (state x = THREAD_READY) && (running_cpu x =? -1)) ||
  ((t =? current (cpu_at s c)) && (bool_decide (state x = THREAD_READY) || bool_decide (state x = THREAD_RUNNING))).

(** One round of the loop: the two candidates so far.
    [src/kernel/process/scheduler.c:824-841] pick_next *)
Definition pick_round (c average : Z) (acc : option Z * option Z * sched) (t : Z) : option Z * option Z * sched :=
  let '(best, fallback, s) := acc in
  if negb (selectable c s t) || negb (eligible (get s t) c) then (best, fallback, s)
  else
    let s := ensure_fair_request t s in
    let x := get s t in
    let fallback' :=
      match fallback with
      | None => Some t
      | Some f =>
          if (virtual_runtime x <? virtual_runtime (get s f)) ||
             ((virtual_runtime x =? virtual_runtime (get s f)) && (virtual_deadline x <? virtual_deadline (get s f)))
          then Some t else fallback
      end in
    let best' :=
      if virtual_runtime x <=? average then
        match best with
        | None => Some t
        | Some b => if virtual_deadline x <? virtual_deadline (get s b) then Some t else best
        end
      else best in
    (best', fallback', s).

(** [src/kernel/process/scheduler.c:814-844] pick_next *)
Definition pick_next (c now : Z) (s : sched) : Z * sched :=
  let s := update_min_vruntime s in
  let s := wake_sleeping_threads now s in
  let s := update_min_vruntime s in
  let average := runqueue_avg_vruntime s in
  let '(best, fallback, s) := foldl (pick_round c average) (None, None, s) (thread_list s) in
  (match best with
   | Some b => b
   | None => match fallback with Some f => f | None => c_idle (cpu_at s c) end
   end, s).

(** ** Time *)

(** [src/kernel/process/scheduler.c:846-880] account_current *)
Definition account_current (c now : Z) (s : sched) : sched :=
  let x := cpu_at s c in
  if negb (started x) then s else
  let elapsed := u64 (now - last_tick x) in
  let s := upd_cpu c (λ x, x <| last_tick := now |>) s in
  if elapsed =? 0 then s else
  let s := upd_cpu c (λ x, x <| total_ticks := u64 (total_ticks x + elapsed) |>) s in
  let t := current x in
  if t =? 0 then s
  else if idle (get s t) then upd_cpu c (λ x, x <| idle_ticks := u64 (idle_ticks x + elapsed) |>) s
  else
    upd t (λ t,
      let delta := if UINT64_MAX / SCHEDULER_NICE_0_WEIGHT <? elapsed then UINT64_MAX
                   else elapsed * SCHEDULER_NICE_0_WEIGHT / scheduler_weight (qos t) in
      let delta := if delta =? 0 then 1 else delta in
      t <| runtime_ticks := u64 (runtime_ticks t + elapsed) |>
        <| virtual_runtime := add_saturated (virtual_runtime t) delta |>
        <| ticks_remaining := if ticks_remaining t <=? elapsed then 0 else u32 (ticks_remaining t - elapsed) |>) s.

(** ** Switching *)

(** From the choice of the next thread to the end of [finish_switch] in it; a
    choice that is no change only makes the thread run on.
    [src/kernel/process/scheduler.c:903-934] schedule_locked *)
Definition schedule_locked (c now : Z) (s : sched) : sched :=
  let prev := current (cpu_at s c) in
  let '(next, s) := pick_next c now s in
  if next =? prev then upd prev (λ t, t <| state := THREAD_RUNNING |>) s
  else
    let s := upd prev (λ t, if bool_decide (state t = THREAD_RUNNING) then t <| state := THREAD_READY |> else t) s in
    let s := upd next (λ t,
      t <| state := THREAD_RUNNING |>
        <| migrations := if negb (cpu_mask t =? 0) && negb (Z.testbit (cpu_mask t) c)
                         then u64 (migrations t + 1) else migrations t |>
        <| cpu_mask := Z.lor (cpu_mask t) (u32 (1 ≪ c)) |>
        <| running_cpu := c |>) s in
    let s := upd_cpu c (λ x, x <| previous := prev |> <| current := next |>) s in
    let s := upd prev (λ t, t <| preempt_saved := preempt_depth (cpu_at s c) |>) s in
    let s := upd_cpu c (λ x, x <| preempt_depth := preempt_saved (get s next) |>) s in
    finish_switch c s.

(** [src/kernel/process/scheduler.c:936-955] scheduler_yield *)
Definition scheduler_yield (c now : Z) (s : sched) : sched :=
  let x := cpu_at s c in
  if negb (initialized x) then s
  else if negb (preempt_depth x =? 0) then upd_cpu c (λ x, x <| reschedule_pending := true |>) s
  else schedule_locked c now (account_current c now s).

(** [src/kernel/process/scheduler.c:956-974] scheduler_preempt_disable *)
Definition scheduler_preempt_disable (c : Z) (s : sched) : bool * sched :=
  if Z.of_nat CPU_MAX_COUNT <=? c then (false, s)
  else if negb (initialized (cpu_at s c)) || negb (started (cpu_at s c)) then (false, s)
  else (true, upd_cpu c (λ x, x <| preempt_depth := u32 (preempt_depth x + 1) |>) s).

(** Up to the release of the interrupts: whether to yield; [None] is a panic.
    [src/kernel/process/scheduler.c:976-994] scheduler_preempt_enable *)
Definition preempt_enable_locked (c : Z) (s : sched) : option (bool * sched) :=
  let x := cpu_at s c in
  if negb (initialized x) then Some (false, s)
  else if preempt_depth x =? 0 then None
  else
    let depth := preempt_depth x - 1 in
    let schedule := (depth =? 0) && reschedule_pending x && started x in
    Some (schedule, upd_cpu c (λ x, x <| preempt_depth := depth |>
                                      <| reschedule_pending := if schedule then false else reschedule_pending x |>) s).
(** [src/kernel/process/scheduler.c:975-997] scheduler_preempt_enable *)
Definition scheduler_preempt_enable (c now : Z) (s : sched) : option sched :=
  match preempt_enable_locked c s with
  | None => None
  | Some (schedule, s) => Some (if schedule : bool then scheduler_yield c now s else s)
  end.

(** The warning of a sleep with preemption off is only printed.  The timer is read
    for the account, [now], and again for the deadline, [later].
    [src/kernel/process/scheduler.c:998-1027] scheduler_sleep *)
Definition scheduler_sleep (c now later milliseconds : Z) (s : sched) : sched :=
  if milliseconds =? 0 then scheduler_yield c now s
  else if negb (initialized (cpu_at s c)) then s
  else
    let t := current (cpu_at s c) in
    if idle (get s t) then s
    else
      let s := account_current c now s in
      let wake := u64 (later + milliseconds) in
      let s := upd t (λ x, x <| wake_tick := if wake <? later then UINT64_MAX else wake |> <| state := THREAD_BLOCKED |>
                             <| wake_pending := false |>) s in
      schedule_locked c later s.

(** [src/kernel/process/scheduler.c:1028-1048] scheduler_block *)
Definition scheduler_block (c now : Z) (s : sched) : sched :=
  if negb (initialized (cpu_at s c)) then s
  else
    let t := current (cpu_at s c) in
    if idle (get s t) || wake_pending (get s t) then upd t (λ x, x <| wake_pending := false |>) s
    else
      let s := account_current c now s in
      let s := upd t (λ x, x <| state := THREAD_BLOCKED |>) s in
      schedule_locked c now s.

(** [src/kernel/process/scheduler.c:1049-1067] scheduler_unblock *)
Definition scheduler_unblock (tid : Z) (s : sched) : sched :=
  match find_tid s tid with
  | None => s
  | Some t =>
      if bool_decide (state (get s t) = THREAD_BLOCKED) then enqueue_woken_thread t (update_min_vruntime s)
      else if bool_decide (state (get s t) = THREAD_RUNNING) || bool_decide (state (get s t) = THREAD_READY)
      then upd t (λ x, x <| wake_pending := true |>) s
      else s
  end.

(** [None] is a panic.
    [src/kernel/process/scheduler.c:1068-1078] scheduler_exit *)
Definition scheduler_exit (c now : Z) (s : sched) : option sched :=
  let t := current (cpu_at s c) in
  if idle (get s t) then None
  else
    let s := account_current c now s in
    Some (schedule_locked c now (upd t (λ x, x <| state := THREAD_TERMINATED |>) s)).

(** [src/kernel/process/scheduler.c:1080-1104] scheduler_on_timer_interrupt *)
Definition scheduler_on_timer_interrupt (c now : Z) (s : sched) : sched :=
  if negb (started (cpu_at s c)) then s
  else
    let s := account_current c now s in
    let t := get s (current (cpu_at s c)) in
    let due := (ticks_remaining t =? 0) || idle t in
    if due && negb (preempt_depth (cpu_at s c) =? 0) then upd_cpu c (λ x, x <| reschedule_pending := true |>) s
    else if due then schedule_locked c now (upd_cpu c (λ x, x <| reschedule_pending := false |>) s)
    else s.

(** [src/kernel/process/scheduler.c:1105-1116] scheduler_on_reschedule_interrupt *)
Definition scheduler_on_reschedule_interrupt (c now : Z) (s : sched) : sched :=
  if negb (scheduler_is_running c s) then s
  else if negb (preempt_depth (cpu_at s c) =? 0) then upd_cpu c (λ x, x <| reschedule_pending := true |>) s
  else scheduler_yield c now s.

(** The part under the lock; the timer of processor 0 and the release of the
    others follow.
    [src/kernel/process/scheduler.c:1119-1124] scheduler_start *)
Definition start_locked (c now : Z) (s : sched) : sched :=
  let s := upd_cpu c (λ x, x <| started := true |> <| last_tick := now |>) s in
  s <| active_mask := Z.lor (active_mask s) (u32 (1 ≪ c)) |>.
(** [src/kernel/process/scheduler.c:1117-1132] scheduler_start *)
Definition scheduler_start (c now : Z) (s : sched) : sched := scheduler_yield c now (start_locked c now s).

(** ** User and kernel *)

(** [src/kernel/process/scheduler.c:1146-1151] scheduler_enter_kernel *)
Definition enter_locked (c : Z) (s : sched) : sched :=
  let t := scheduler_current_thread c s in
  if (t =? 0) || negb (user_mode (get s t)) then s else upd t (λ x, x <| kernel_only := true |>) s.
(** [src/kernel/process/scheduler.c:1144-1157] scheduler_enter_kernel *)
Definition scheduler_enter_kernel (c now : Z) (s : sched) : sched :=
  let t := scheduler_current_thread c s in
  if (t =? 0) || negb (user_mode (get s t)) then s
  else
    let s := enter_locked c s in
    if negb (c =? 0) then scheduler_yield c now s else s.

(** The processor a thread that may move is sent to, if there is a less loaded
    one.
    [src/kernel/process/scheduler.c:1168-1182] scheduler_leave_kernel *)
Definition choose_cpu (c t : Z) (s : sched) : Z :=
  let loads := calculate_cpu_loads t s in
  let local_load := u64 (aget 0 loads c + scheduler_weight (qos (get s t))) in
  (foldl (λ '(target, load) i,
      if (i =? c) || negb (started (cpu_at s i)) then (target, load)
      else if aget 0 loads i <? load then (i, aget 0 loads i) else (target, load))
    (c, local_load) (seqZ 0 (cpu_registered_count (s_topology s)))).1.

(** The new state and whether the thread has to move.
    [src/kernel/process/scheduler.c:1160-1195] scheduler_leave_kernel *)
Definition leave_locked (c : Z) (s : sched) : bool * sched :=
  let t := scheduler_current_thread c s in
  if (t =? 0) || negb (user_mode (get s t)) then (false, s)
  else
    let s := upd t (λ x, x <| kernel_only := false |>) s in
    let s :=
      if (affinity (get s t) =? -1) || affinity_auto (get s t) then
        let target := choose_cpu c t s in
        if negb (target =? c) then upd t (λ x, x <| affinity := target |> <| affinity_auto := true |>) s
        else upd t (λ x, x <| affinity := -1 |> <| affinity_auto := false |>) s
      else s in
    (negb (eligible (get s t) c), s).
(** [src/kernel/process/scheduler.c:1158-1201] scheduler_leave_kernel *)
Definition scheduler_leave_kernel (c now : Z) (s : sched) : sched :=
  let '(must_move, s) := leave_locked c s in
  if must_move : bool then scheduler_yield c now s else s.
