(* ===== verification/SchedSpec.v ===== *)
(** * What the scheduler keeps (src/src/kernel/process/scheduler.c)

    The bookkeeping of [Sched] changes times, attributes and states; only the
    switch, the creation and the end of a thread change who runs where.  So the
    invariant is in two parts: [shape_ok], which everything that leaves the
    shape of the threads and processors alone keeps ([same_shape]), and
    [states_ok], which the processor inside the scheduler, the [busy] one, may
    break for its own thread. *)

From S2P Require Import Prelude Pmm Slab Cpu ThreadMem Sched.

#[local] Existing Instance Sched.eta_thread.
#[local] Existing Instance Sched.eta_scheduler_cpu.
#[local] Existing Instance Sched.eta_sched.

(** ** Reading back what was written *)

Lemma get_put t x s u : get (put t x s) u = if t =? u then x else get s u.
Proof.
  unfold get, put. cbn. destruct (Z.eqb_spec t u) as [->|Ne]; [by rewrite lookup_insert_eq|by rewrite lookup_insert_ne].
Qed.
Lemma get_upd t f s u : get (upd t f s) u = if t =? u then f (get s t) else get s u.
Proof. apply get_put. Qed.
Lemma get_upd_eq t f s : get (upd t f s) t = f (get s t).
Proof. by rewrite get_upd, Z.eqb_refl. Qed.
Lemma get_upd_ne t f s u : t ≠ u → get (upd t f s) u = get s u.
Proof. intros Ne. rewrite get_upd. by destruct (Z.eqb_spec t u). Qed.

Definition present (s : sched) (t : Z) : Prop := is_Some (memory s !! t).

Lemma present_put t x s u : present (put t x s) u ↔ t = u ∨ present s u.
Proof. unfold present, put. cbn. rewrite lookup_insert_is_Some. destruct (decide (t = u)); tauto. Qed.
Lemma present_upd t f s u : present s t → present (upd t f s) u ↔ present s u.
Proof. intros P. unfold upd. rewrite present_put. split; [by intros [<-|]|by right]. Qed.

Lemma present_upd_or t f s u : present (upd t f s) u ↔ t = u ∨ present s u.
Proof. apply present_put. Qed.
Lemma present_upd_cpu c f s u : present (upd_cpu c f s) u ↔ present s u.
Proof. done. Qed.

Definition is_cpu (c : Z) : Prop := 0 ≤ c < Z.of_nat CPU_MAX_COUNT.

Lemma cpu_at_upd c f s i : is_cpu c → length (cpu_schedulers s) = CPU_MAX_COUNT → 0 ≤ i →
  cpu_at (upd_cpu c f s) i = if c =? i then f (cpu_at s c) else cpu_at s i.
Proof. intros [Hc1 Hc2] L Hi. unfold cpu_at at 1. apply aget_aset; [by rewrite L|done]. Qed.
Lemma length_upd_cpu c f s : length (cpu_schedulers (upd_cpu c f s)) = length (cpu_schedulers s).
Proof. apply length_aset. Qed.

Lemma cpu_schedulers_upd t f s : cpu_schedulers (upd t f s) = cpu_schedulers s.
Proof. done. Qed.
Lemma cpu_at_upd_thread t f s i : cpu_at (upd t f s) i = cpu_at s i.
Proof. done. Qed.
Lemma get_upd_cpu c f s t : get (upd_cpu c f s) t = get s t.
Proof. done. Qed.

(** [reads] reads processors and threads through the writes. *)
Ltac reads :=
  repeat first
    [ rewrite cpu_at_upd_thread | rewrite get_upd_cpu | rewrite get_upd
    | rewrite cpu_at_upd by (assumption || (repeat first [rewrite cpu_schedulers_upd | rewrite length_upd_cpu]; assumption) ||
                             (unfold is_cpu in *; lia))
    | rewrite Z.eqb_refl ].

(** ** Changes that leave the shape alone *)

(** Who a thread is, where it runs and what memory it has. *)
Definition thread_shape (t : thread) : Z * bool * Z * Z * Z := (id t, idle t, running_cpu t, node_phys t, kstack_phys t).
Definition cpu_shape (c : scheduler_cpu) : Z * Z * Z * bool := (current c, c_idle c, previous c, initialized c).

Record same_shape (s s' : sched) : Prop := {
  ss_list : thread_list s' = thread_list s ∧ thread_live_count s' = thread_live_count s;
  ss_length : length (cpu_schedulers s') = length (cpu_schedulers s);
  ss_cpu : ∀ i, 0 ≤ i → cpu_shape (cpu_at s' i) = cpu_shape (cpu_at s i);
  ss_started : ∀ i, 0 ≤ i → started (cpu_at s' i) = true → started (cpu_at s i) = true ∨ initialized (cpu_at s i) = true;
  ss_thread : ∀ t, thread_shape (get s' t) = thread_shape (get s t);
  ss_present : ∀ t, present s' t ↔ present s t;
  ss_rest : thash_buckets s' = thash_buckets s ∧ s_slab s' = s_slab s ∧ s_pmm s' = s_pmm s ∧
            next_id s' = next_id s;
}.

#[export] Instance same_shape_preorder : PreOrder same_shape.
Proof.
  split.
  - intros s. split; auto.
  - intros s1 s2 s3 [[A1 A2] B1 C1 G1 D1 E1 (F1&F2&F3&F4)] [[A1' A2'] B1' C1' G1' D1' E1' (F1'&F2'&F3'&F4')].
    split; [split; congruence|congruence| | | | |split_and!; congruence].
    + intros i Hi. by rewrite C1', C1.
    + intros i Hi St. destruct (G1' i Hi St) as [St'|Ini]; [by apply G1|right]. specialize (C1 i Hi). unfold cpu_shape in C1. congruence.
    + intros t. by rewrite D1', D1.
    + intros t. by rewrite E1', E1.
Qed.

Lemma same_shape_upd t f s : present s t → (∀ x, thread_shape (f x) = thread_shape x) → same_shape s (upd t f s).
Proof.
  intros P F. split; try done; [by left| |].
  - intros u. rewrite get_upd. destruct (Z.eqb_spec t u) as [->|]; [apply F|done].
  - intros u. by apply present_upd.
Qed.

Lemma same_shape_upd_cpu c f s : is_cpu c → length (cpu_schedulers s) = CPU_MAX_COUNT →
  (∀ x, cpu_shape (f x) = cpu_shape x) → (started (f (cpu_at s c)) = true → started (cpu_at s c) = true ∨ initialized (cpu_at s c) = true) →
  same_shape s (upd_cpu c f s).
Proof.
  intros Hc L F St. split; try done; [apply length_upd_cpu| |]; intros i Hi; rewrite cpu_at_upd by done;
    destruct (Z.eqb_spec c i) as [->|]; auto.
Qed.

(** A fold over a list keeps a reflexive and transitive relation that each round
    keeps. *)
Lemma foldl_keeps {A B} (R : A → A → Prop) `{!PreOrder R} (f : A → B → A) l a :
  (∀ a x, x ∈ l → R a (f a x)) → R a (foldl f a l).
Proof.
  revert a. induction l as [|x l IH]; intros a H; [done|]. cbn [foldl].
  transitivity (f a x); [apply H; mem|]. apply IH. intros b y Hy. apply H. mem.
Qed.

(** The same with what holds of the start and is kept. *)
Lemma foldl_invariant {A B} (P : A → Prop) (f : A → B → A) l a :
  P a → (∀ a x, x ∈ l → P a → P (f a x)) → P (foldl f a l).
Proof.
  revert a. induction l as [|x l IH]; intros a Pa H; [done|]. cbn [foldl]. apply IH; [apply H; [mem|done]|].
  intros b y Hy. apply H. mem.
Qed.

(** What only its owner and the calls that are for it change of a thread. *)
Definition thread_attr (t : thread) : bool * Z * Z * bool * bool * bool * Z :=
  (kernel_only t, affinity t, qos t, wake_pending t, affinity_auto t, user_mode t, preempt_saved t).

(** What the bookkeeping leaves alone: the shape, the attributes, and the states
    but for a thread that wakes up. *)
Record woken (s s' : sched) : Prop := {
  wo_shape : same_shape s s';
  wo_cpus : cpu_schedulers s' = cpu_schedulers s;
  wo_state : ∀ t, state (get s' t) = state (get s t) ∨
                  (state (get s t) = THREAD_BLOCKED ∧ state (get s' t) = THREAD_READY);
  wo_attr : ∀ t, thread_attr (get s' t) = thread_attr (get s t);
}.

#[export] Instance woken_preorder : PreOrder woken.
Proof.
  split; [intros s; split; [done|done|by left|by intros]|].
  intros s1 s2 s3 [A1 A4 A2 A3] [B1 B4 B2 B3]. split; [by etrans|congruence| |].
  - intros t. destruct (A2 t) as [E|[E E']], (B2 t) as [F|[F F']]; [left|right|right|right]; split || idtac; congruence.
  - intros t. by rewrite B3, A3.
Qed.

Lemma woken_upd t f s : present s t → (∀ x, thread_shape (f x) = thread_shape x) →
  (∀ x, state (f x) = state x) → (∀ x, thread_attr (f x) = thread_attr x) → woken s (upd t f s).
Proof.
  intros P F S A. split; [by apply same_shape_upd|done| |]; intros u; [left|]; rewrite get_upd;
    destruct (Z.eqb_spec t u) as [->|]; [apply S|done|apply A|done].
Qed.

(** Every thread of the list is in memory. *)
Definition list_present (s : sched) : Prop := ∀ t, t ∈ thread_list s → present s t.

Lemma woken_present s s' t : woken s s' → present s t → present s' t.
Proof. intros W P. by apply (ss_present _ _ (wo_shape _ _ W)). Qed.

(** ** The bookkeeping *)

Lemma put_upd t f s : put t (f (get s t)) s = upd t f s.
Proof. done. Qed.

Lemma woken_ensure t s : present s t → woken s (ensure_fair_request t s).
Proof.
  intros P. unfold ensure_fair_request. cbv zeta. destruct (_ || _); [done|].
  change (woken s (upd t (λ x, (x <| ticks_remaining := fair_slice_ms s (get s t) |>)
    <| virtual_deadline := virtual_deadline_after (get s t) (fair_slice_ms s (get s t)) |>) s)).
  by apply woken_upd.
Qed.

Lemma woken_enqueue t s : present s t → state (get s t) = THREAD_BLOCKED → woken s (enqueue_woken_thread t s).
Proof.
  intros P B. unfold enqueue_woken_thread. split; [by apply same_shape_upd|done| |]; intros u; rewrite get_upd;
    destruct (Z.eqb_spec t u) as [->|]; try done; [|by left]. right. done.
Qed.

Lemma woken_min s : woken s (update_min_vruntime s).
Proof. unfold update_min_vruntime. cbv zeta. destruct (_ && _); [|done]. split; [split; auto|done|by left|done]. Qed.

Lemma woken_list s s' : woken s s' → thread_list s' = thread_list s.
Proof. intros W. apply (ss_list _ _ (wo_shape _ _ W)). Qed.

Lemma woken_list_present s s' : woken s s' → list_present s → list_present s'.
Proof. intros W P t Ht. apply (woken_present s); [done|]. apply P. by rewrite <- (woken_list _ _ W). Qed.

Lemma woken_sleepers now s : list_present s → woken s (wake_sleeping_threads now s).
Proof.
  unfold wake_sleeping_threads, list_present. generalize (thread_list s). intros l. revert s.
  induction l as [|t l IH]; intros s P; [done|]. cbn [foldl].
  destruct (bool_decide _ && _ && _) eqn:E; [|apply IH; intros; apply P; mem].
  apply andb_true_iff in E as [[E%bool_decide_eq_true _]%andb_true_iff _].
  assert (woken s (enqueue_woken_thread t s)) as W by (apply woken_enqueue; [apply P; mem|done]).
  etrans; [done|]. apply IH. intros u Hu. apply (woken_present s); [done|]. apply P. mem.
Qed.

(** ** The choice of the next thread *)

(** A thread processor [c] may run now. *)
Definition candidate (c : Z) (s : sched) (t : Z) : bool := selectable c s t && eligible (get s t) c.

(** The best of the list, in the order [le] on threads. *)
Definition best_of (P : Z → Prop) (le : thread → thread → Prop) (s : sched) (l : list Z) (r : option Z) : Prop :=
  match r with
  | None => ∀ t, t ∈ l → ¬ P t
  | Some b => b ∈ l ∧ P b ∧ ∀ t, t ∈ l → P t → le (get s b) (get s t)
  end.

Definition deadline_le (x y : thread) : Prop := virtual_deadline x ≤ virtual_deadline y.
(** First the one that has run least, then the earlier deadline. *)
Definition fair_le (x y : thread) : Prop :=
  virtual_runtime x < virtual_runtime y ∨
  (virtual_runtime x = virtual_runtime y ∧ virtual_deadline x ≤ virtual_deadline y).

(** One more thread, and perhaps a new best. *)
Lemma best_of_snoc (P : Z → Prop) le s s' l t r r' : PreOrder le →
  best_of P le s l r → (∀ u, u ∈ l → get s' u = get s u) →
  match r' with
  | None => r = None ∧ ¬ P t
  | Some b => (b = t ∧ P t ∧ match r with Some u => le (get s' t) (get s' u) | None => True end) ∨
              (r = Some b ∧ (P t → le (get s' b) (get s' t)))
  end → best_of P le s' (l ++ [t]) r'.
Proof.
  intros Pre B K M. destruct r' as [b|]; cbn in *.
  - destruct M as [(->&Pt&M)|[-> M]].
    + split; [apply elem_of_app; right; mem|]. split; [done|]. intros u [Hu|Hu]%elem_of_app Pu.
      2:{ apply list_elem_of_singleton in Hu as ->. done. }
      destruct r as [b|]; cbn in B; [|by destruct (B u Hu)].
      destruct B as (Hb&Pb&Lb). etrans; [done|]. rewrite !K by done. by apply Lb.
    + cbn in B. destruct B as (Hb&Pb&Lb). split; [apply elem_of_app; by left|].
      split; [done|]. intros u [Hu|Hu]%elem_of_app Pu.
      * rewrite !K by done. by apply Lb.
      * apply list_elem_of_singleton in Hu as ->. by apply M.
  - destruct M as [-> M]. cbn in B. intros u [Hu|Hu]%elem_of_app; [by apply B|by apply list_elem_of_singleton in Hu as ->].
Qed.

(** Only the open request of a thread changes. *)
Definition thread_fixed (t : thread) := (thread_shape t, thread_attr t, state t, virtual_runtime t, wake_tick t).
Definition requested (s s' : sched) : Prop :=
  woken s s' ∧ (∀ t, thread_fixed (get s' t) = thread_fixed (get s t)) ∧ runqueue_min_vruntime s' = runqueue_min_vruntime s.

#[export] Instance requested_preorder : PreOrder requested.
Proof.
  split; [by intros s|]. intros s1 s2 s3 (A1&A2&A3) (B1&B2&B3). split; [by etrans|]. split; [|congruence].
  intros t. by rewrite B2, A2.
Qed.

Lemma requested_ensure t s : present s t → requested s (ensure_fair_request t s) ∧
  ∀ u, u ≠ t → get (ensure_fair_request t s) u = get s u.
Proof.
  intros P. split; [split; [by apply woken_ensure|split]|]; [intros u| |intros u]; unfold ensure_fair_request; cbv zeta;
    destruct (_ || _); try done; rewrite get_put; destruct (Z.eqb_spec t u) as [->|]; done.
Qed.

Lemma requested_candidate c s s' t : requested s s' → candidate c s' t = candidate c s t.
Proof.
  intros ([W Wc _ _]&F&_). specialize (F t). unfold candidate, selectable, eligible. cbv zeta.
  assert (cpu_at s' c = cpu_at s c) as -> by (unfold cpu_at; by rewrite Wc).
  destruct (get s' t), (get s t). cbn in F. by simplify_eq/=.
Qed.

Lemma requested_fields s s' t : requested s s' →
  state (get s' t) = state (get s t) ∧ wake_tick (get s' t) = wake_tick (get s t) ∧ idle (get s' t) = idle (get s t).
Proof. intros (_&F&_). specialize (F t). unfold thread_fixed, thread_shape in F. split_and!; congruence. Qed.

Lemma requested_vruntime s s' t : requested s s' → virtual_runtime (get s' t) = virtual_runtime (get s t).
Proof. intros (_&F&_). specialize (F t). unfold thread_fixed in F. congruence. Qed.

Lemma weight_bound q : 256 ≤ scheduler_weight q ≤ 2048.
Proof.
  unfold scheduler_weight. destruct (Z.ltb_spec q (Z.of_nat (length [256; 512; 768; 1024; 1536; 2048]))) as [L|L]; [|by vm_compute].
  cbn in L. unfold aget. assert (Z.to_nat q ∈ seq 0 6) as H by (apply elem_of_seq; lia).
  revert H. generalize (Z.to_nat q). intros n H. cbn in H.
  repeat (apply elem_of_cons in H as [->|H]; [cbn; lia|]). by apply not_elem_of_nil in H.
Qed.

(** A slice is between one tick and the target latency. *)
Lemma fair_slice_bound s t : 1 ≤ fair_slice_ms s t ≤ SCHEDULER_TARGET_LATENCY_MS.
Proof.
  unfold fair_slice_ms. cbv zeta. pose proof (weight_bound (qos t)) as W. assert (0 ≤ total_weight s) as T.
  { unfold total_weight. apply (foldl_invariant (λ z, 0 ≤ z)); [lia|]. intros z x _ Hz.
    destruct (thread_on_runqueue _); [apply u64_range|done]. }
  destruct (Z.eqb_spec (total_weight s) 0) as [|N]; [cbn; unfold SCHEDULER_TARGET_LATENCY_MS; lia|].
  set (q := _ / total_weight s). assert (0 ≤ q) as Hq by (apply Z.div_pos; [apply u32_range|lia]).
  unfold SCHEDULER_TARGET_LATENCY_MS in *. destruct (Z.eqb_spec q 0) as [|Nq]; [by vm_compute|].
  destruct (Z.ltb_spec 20 q); rewrite u32_small; lia.
Qed.

(** One round of the choice. *)
Definition pick_state (c average : Z) (s0 : sched) (l : list Z) (acc : option Z * option Z * sched) : Prop :=
  let '(best, fallback, s) := acc in
  requested s0 s ∧
  best_of (λ t, candidate c s0 t = true ∧ virtual_runtime (get s0 t) ≤ average) deadline_le s l best ∧
  best_of (λ t, candidate c s0 t = true) fair_le s l fallback ∧
  ∀ t, t ∈ l → candidate c s0 t = true → idle (get s0 t) = false → ticks_remaining (get s t) ≠ 0.

Lemma deadline_le_preorder : PreOrder deadline_le.
Proof. split; [intros x|intros x y z]; unfold deadline_le; lia. Qed.
Lemma fair_le_preorder : PreOrder fair_le.
Proof. split; [intros x|intros x y z]; unfold fair_le; lia. Qed.

Lemma pick_round_spec c average s0 l acc t : pick_state c average s0 l acc → t ∉ l → present s0 t →
  pick_state c average s0 (l ++ [t]) (pick_round c average acc t).
Proof.
  destruct acc as [[best fallback] s]. intros (R&B&F&T) Nt P. unfold pick_round.
  change (negb (selectable c s t) || negb (eligible (get s t) c)) with
    (negb (selectable c s t) || negb (eligible (get s t) c))%bool. rewrite <- negb_andb.
  change (selectable c s t && eligible (get s t) c) with (candidate c s t). rewrite (requested_candidate c s0) by done.
  destruct (candidate c s0 t) eqn:C; cbn [negb].
  2:{ split; [done|]. split_and!.
      - apply (best_of_snoc _ _ s s l t best); [apply deadline_le_preorder|done|done|].
        destruct best; [right; split; [done|intros [? _]; congruence]|split; [done|intros [? _]; congruence]].
      - apply (best_of_snoc _ _ s s l t fallback); [apply fair_le_preorder|done|done|].
        destruct fallback; [right; split; [done|congruence]|split; [done|congruence]].
      - intros u [Hu|Hu]%elem_of_app Cu Iu; [by apply T|]. apply list_elem_of_singleton in Hu as ->. congruence. }
  assert (present s t) as Ps by by eapply woken_present; [apply R|].
  destruct (requested_ensure t s Ps) as [R' E']. set (s' := ensure_fair_request t s) in *.
  assert (requested s0 s') as R0 by by etrans.
  assert (∀ u, u ∈ l → get s' u = get s u) as K by (intros u Hu; apply E'; by intros ->).
  assert (∀ u, virtual_runtime (get s' u) = virtual_runtime (get s0 u)) as V by (intros; by apply requested_vruntime).
  split; [done|]. split_and!.
  - apply (best_of_snoc _ _ s s' l t best); [apply deadline_le_preorder|done|done|]. rewrite V.
    destruct (Z.leb_spec (virtual_runtime (get s0 t)) average) as [La|La].
    + destruct best as [b|]; [|by left]. destruct (Z.ltb_spec (virtual_deadline (get s' t)) (virtual_deadline (get s' b))).
      * left. split; [done|]. split; [done|]. unfold deadline_le. lia.
      * right. split; [done|]. intros _. unfold deadline_le. lia.
    + destruct best as [b|]; [right|]; (split; [done|]); intros [_ ?]; lia.
  - apply (best_of_snoc _ _ s s' l t fallback); [apply fair_le_preorder|done|done|].
    destruct fallback as [f|]; [|by left].
    destruct (_ || _) eqn:E; [left|right]; (split; [done|]); [split; [done|]|intros _]; unfold fair_le.
    + apply orb_true_iff in E as [E|E]; zify_bool; lia.
    + zify_bool. apply andb_false_iff in H0 as [H0|H0]; zify_bool; lia.
  - intros u [Hu|Hu]%elem_of_app Cu Iu; [rewrite E'; [by apply T|by intros ->]|].
    apply list_elem_of_singleton in Hu as ->. unfold s', ensure_fair_request. cbv zeta.
    assert (idle (get s t) = false) as ->.
    { destruct R as (_&R&_). specialize (R t). unfold thread_fixed, thread_shape in R. congruence. }
    destruct (Z.eqb_spec (ticks_remaining (get s t)) 0) as [Ez|]; cbn [orb negb]; [|done].
    rewrite get_put, Z.eqb_refl. cbn. pose proof (fair_slice_bound s (get s t)). lia.
Qed.

Lemma pick_fold c average s0 l : NoDup l → (∀ t, t ∈ l → present s0 t) →
  pick_state c average s0 l (foldl (pick_round c average) (None, None, s0) l).
Proof.
  induction l as [|t l IH] using rev_ind; intros Nd P.
  - split; [done|]. split_and!; intros ? ?%not_elem_of_nil; done.
  - apply NoDup_app in Nd as (Nl&Dj&_). rewrite foldl_app. apply pick_round_spec.
    + apply IH; [done|]. intros u Hu. apply P, elem_of_app. by left.
    + intros Hin. apply (Dj t Hin). mem.
    + apply P, elem_of_app. right. mem.
Qed.

Lemma foldl_ext_elem {A B} (f g : A → B → A) l a : (∀ a x, x ∈ l → f a x = g a x) → foldl f a l = foldl g a l.
Proof.
  revert a. induction l as [|x l IH]; intros a H; [done|]. cbn [foldl]. rewrite H by mem.
  apply IH. intros; apply H. mem.
Qed.

Lemma requested_average s s' : requested s s' → runqueue_avg_vruntime s' = runqueue_avg_vruntime s.
Proof.
  intros (W&F&M). unfold runqueue_avg_vruntime. cbv zeta. rewrite M, (woken_list _ _ W).
  rewrite (foldl_ext_elem _ (λ '(total, weighted) t,
      let x := get s t in
      if negb (thread_on_runqueue x) then (total, weighted)
      else
        let weight := scheduler_weight (qos x) in
        let delta := if runqueue_min_vruntime s <? virtual_runtime x then virtual_runtime x - runqueue_min_vruntime s else 0 in
        let weighted :=
          if negb (delta =? 0) && ((UINT64_MAX - weighted) / delta <? weight) then UINT64_MAX
          else if negb (weighted =? UINT64_MAX) then weighted + delta * weight else weighted in
        (u64 (total + weight), weighted)) (thread_list s)); [done|].
  intros [total weighted] t _. cbv zeta. specialize (F t). unfold thread_on_runqueue.
  destruct (get s' t), (get s t). cbn in F. by simplify_eq/=.
Qed.

(** Nobody sleeps past his time. *)
Definition awake (now : Z) (s : sched) (t : Z) : Prop :=
  state (get s t) = THREAD_BLOCKED → wake_tick (get s t) = 0 ∨ now < wake_tick (get s t).

Lemma sleepers_awake now s : ∀ t, t ∈ thread_list s → awake now (wake_sleeping_threads now s) t.
Proof.
  unfold wake_sleeping_threads. intros t Ht. apply list_elem_of_split in Ht as (l1&l2&->). rewrite foldl_app. cbn [foldl].
  set (s1 := foldl _ s l1). set (s2 := if bool_decide _ && _ && _ then _ else s1).
  assert (awake now s2 t) as A.
  { subst s2. unfold awake. destruct (bool_decide (state (get s1 t) = THREAD_BLOCKED)) eqn:E1;
      [|intros B; by apply bool_decide_eq_false in E1].
    destruct (Z.eqb_spec (wake_tick (get s1 t)) 0) as [E2|E2]; [by left|].
    destruct (Z.leb_spec (wake_tick (get s1 t)) now) as [E3|E3]; cbn [negb andb]; [|by right].
    unfold enqueue_woken_thread. by rewrite get_upd_eq. }
  clearbody s2. apply (foldl_invariant (λ s, awake now s t)); [done|]. intros s3 u _ A3. cbv zeta. destruct (_ && _ && _); [|exact A3].
  unfold awake, enqueue_woken_thread. rewrite get_upd. destruct (Z.eqb_spec u t) as [->|]; [cbn; done|exact A3].
Qed.

(** The thread that runs next: of those that have not run more than their share,
    the one with the earliest deadline; if all have, the one that has run least;
    if there is none, the idle thread. *)
Definition fair_choice (c : Z) (s : sched) (next : Z) : Prop :=
  let average := runqueue_avg_vruntime s in
  let entitled t := candidate c s t = true ∧ virtual_runtime (get s t) ≤ average in
  best_of entitled deadline_le s (thread_list s) (Some next) ∨
  (best_of entitled deadline_le s (thread_list s) None ∧
   (best_of (λ t, candidate c s t = true) fair_le s (thread_list s) (Some next) ∨
    (best_of (λ t, candidate c s t = true) fair_le s (thread_list s) None ∧ next = c_idle (cpu_at s c)))).

Lemma awake_min now s t : awake now s t → awake now (update_min_vruntime s) t.
Proof. unfold update_min_vruntime. cbv zeta. by destruct (_ && _). Qed.

Lemma best_of_ext (P Q : Z → Prop) le s l r : (∀ t, P t ↔ Q t) → best_of P le s l r → best_of Q le s l r.
Proof. intros E. destruct r as [b|]; cbn; setoid_rewrite E; done. Qed.

Lemma pick_next_spec c now s : NoDup (thread_list s) → list_present s →
  let '(next, s') := pick_next c now s in
  woken s s' ∧ (∀ t, t ∈ thread_list s' → awake now s' t) ∧ fair_choice c s' next ∧
  (∀ t, t ∈ thread_list s' → candidate c s' t = true → idle (get s' t) = false → ticks_remaining (get s' t) ≠ 0).
Proof.
  intros Nd P. unfold pick_next. cbv zeta. set (s1 := update_min_vruntime (wake_sleeping_threads now (update_min_vruntime s))).
  assert (woken s s1) as W1.
  { etrans; [apply woken_min|]. etrans; [apply (woken_sleepers now)|apply woken_min].
    eapply woken_list_present; [apply woken_min|done]. }
  assert (∀ t, t ∈ thread_list s1 → awake now s1 t) as A1.
  { intros t Ht. apply awake_min, sleepers_awake. rewrite (woken_list s); [by rewrite <- (woken_list _ _ W1)|apply woken_min]. }
  pose proof (pick_fold c (runqueue_avg_vruntime s1) s1 (thread_list s1)) as F.
  destruct (foldl _ _ _) as [[best fallback] s'].
  destruct F as (R&B&F&T); [by rewrite (woken_list _ _ W1)|by apply (woken_list_present s)|].
  pose proof R as (W2&R2&_). pose proof (woken_list _ _ W2) as El.
  split; [by etrans|]. split; [|split].
  - intros t Ht. rewrite El in Ht. specialize (A1 t Ht). destruct (requested_fields s1 s' t R) as (E1&E2&_).
    unfold awake. by rewrite E1, E2.
  - unfold fair_choice. cbv zeta. rewrite (requested_average s1 s' R), El.
    assert (∀ t, candidate c s1 t = true ∧ virtual_runtime (get s1 t) ≤ runqueue_avg_vruntime s1 ↔
                 candidate c s' t = true ∧ virtual_runtime (get s' t) ≤ runqueue_avg_vruntime s1) as E1
      by (intros t; by rewrite (requested_candidate c s1 s'), (requested_vruntime s1 s')).
    assert (∀ t, candidate c s1 t = true ↔ candidate c s' t = true) as E2
      by (intros t; by rewrite (requested_candidate c s1 s')).
    apply (best_of_ext _ _ _ _ _ _ E1) in B. apply (best_of_ext _ _ _ _ _ _ E2) in F.
    destruct best as [b|]; [by left|]. right. split; [done|]. destruct fallback as [f|]; [by left|]. right. split; [done|].
    unfold cpu_at. by rewrite (wo_cpus _ _ W2).
  - intros t Ht C I. rewrite El in Ht. apply T; [done|by rewrite <- (requested_candidate c s1 s')|].
    by destruct (requested_fields s1 s' t R) as (_&_&<-).
Qed.

(** ** The invariant *)

Section invariant.
Context {A : account}.

(** Processor [i] runs the thread it says it runs. *)
Definition cpu_ok (s : sched) (i : Z) : Prop :=
  let x := cpu_at s i in
  previous x = 0 ∧
  if initialized x then
    c_idle x = idle_address i ∧ present s (idle_address i) ∧ idle (get s (idle_address i)) = true ∧
    (current x = idle_address i ∨ current x ∈ thread_list s) ∧ running_cpu (get s (current x)) = i
  else current x = 0 ∧ started x = false.

(** A thread of the list runs on no processor or on the one that says so. *)
Definition thread_ok (s : sched) (t : Z) : Prop :=
  let x := get s t in
  0 < t ∧ present s t ∧ idle x = false ∧ 1 ≤ id x < 2 ^ 32 ∧ t ∈ bucket s (thash_idx (id x)) ∧
  (running_cpu x = -1 ∨
   (is_cpu (running_cpu x) ∧ initialized (cpu_at s (running_cpu x)) = true ∧ current (cpu_at s (running_cpu x)) = t)).

Record shape_ok (s : sched) : Prop := {
  sh_length : length (cpu_schedulers s) = CPU_MAX_COUNT ∧ length (thash_buckets s) = THASH_SIZE;
  sh_list : NoDup (thread_list s) ∧ thread_live_count s = Z.of_nat (length (thread_list s));
  sh_cpu : ∀ i, is_cpu i → cpu_ok s i;
  sh_thread : ∀ t, t ∈ thread_list s → thread_ok s t;
  sh_only : ∀ t, 0 < t → present s t → t ∈ thread_list s;
  sh_ids : ∀ t u, t ∈ thread_list s → u ∈ thread_list s → id (get s t) = id (get s u) → t = u;
  sh_bucket : ∀ i, 0 ≤ i < 256 → NoDup (bucket s i) ∧
    ∀ t, t ∈ bucket s i → t ∈ thread_list s ∧ thash_idx (id (get s t)) = i;
  sh_memory : memory_ok (map (mem_of s) (thread_list s)) (s_slab s) (s_pmm s);
  sh_next : is_u32 (next_id s);
}.

(** A thread that runs is RUNNING, one that does not is READY or BLOCKED; but for
    the thread of the busy processor, which is only not FREE. *)
Definition states_ok (busy : Z) (s : sched) : Prop :=
  ∀ t, t ∈ thread_list s → let x := get s t in
  (running_cpu x = -1 → state x = THREAD_READY ∨ state x = THREAD_BLOCKED) ∧
  (running_cpu x ≠ -1 → if running_cpu x =? busy then state x ≠ THREAD_FREE else state x = THREAD_RUNNING).

Definition sched_ok (s : sched) : Prop := shape_ok s ∧ states_ok (-1) s.

Lemma shape_list_present s : shape_ok s → list_present s.
Proof. intros S t Ht. apply (sh_thread _ S t Ht). Qed.

Lemma mem_of_same s s' t : same_shape s s' → mem_of s' t = mem_of s t.
Proof. intros W. pose proof (ss_thread _ _ W t) as E. unfold thread_shape in E. unfold mem_of. congruence. Qed.

Lemma shape_ok_same s s' : shape_ok s → same_shape s s' → shape_ok s'.
Proof.
  intros S W. pose proof W as [[El Ec] Eln Ecpu Est Et Ep (Eb&Es&Epm&En)].
  assert (∀ t, id (get s' t) = id (get s t) ∧ idle (get s' t) = idle (get s t) ∧ running_cpu (get s' t) = running_cpu (get s t)) as F
    by (intros t; specialize (Et t); unfold thread_shape in Et; split_and!; congruence).
  assert (∀ i, is_cpu i → current (cpu_at s' i) = current (cpu_at s i) ∧ c_idle (cpu_at s' i) = c_idle (cpu_at s i) ∧
    previous (cpu_at s' i) = previous (cpu_at s i) ∧ initialized (cpu_at s' i) = initialized (cpu_at s i)) as G
    by (intros i [Hi _]; specialize (Ecpu i Hi); unfold cpu_shape in Ecpu; split_and!; congruence).
  assert (∀ i, bucket s' i = bucket s i) as H by (intros; unfold bucket; by rewrite Eb).
  split.
  - rewrite Eln, Eb. apply S.
  - rewrite El, Ec. apply S.
  - intros i Hi. pose proof (sh_cpu _ S i Hi) as C. unfold cpu_ok in *. cbv zeta in *. destruct (G i Hi) as (->&->&->&->).
    destruct C as [C1 C2]. split; [done|]. destruct Hi as [Hi _]. specialize (Est i Hi).
    destruct (initialized (cpu_at s i)).
    2:{ destruct C2 as [C2 C3]. split; [done|]. destruct (started (cpu_at s' i)); [|done]. rewrite C3 in Est. by destruct Est. }
    rewrite El, Ep.
    destruct (F (idle_address i)) as (_&->&_), (F (current (cpu_at s i))) as (_&_&->). done.
  - intros t Ht. rewrite El in Ht. pose proof (sh_thread _ S t Ht) as C. unfold thread_ok in *. cbv zeta in *.
    destruct (F t) as (->&->&->). rewrite H, Ep. destruct C as (?&?&?&?&?&C). split_and!; try done; try lia.
    destruct C as [C|(C1&C2&C3)]; [by left|right]. destruct (G _ C1) as (->&_&_&->). done.
  - intros t Ht. rewrite Ep, El. by apply S.
  - intros t u. rewrite El. destruct (F t) as (->&_&_), (F u) as (->&_&_). by apply S.
  - intros i Hi. rewrite H. destruct (sh_bucket _ S i Hi) as [B1 B2]. split; [done|]. intros t Ht.
    destruct (F t) as (->&_&_). rewrite El. by apply B2.
  - rewrite El, Es, Epm. erewrite map_ext; [apply S|]. intros t. by apply mem_of_same.
  - rewrite En. apply S.
Qed.

Lemma same_running s s' t : same_shape s s' → running_cpu (get s' t) = running_cpu (get s t).
Proof. intros W. pose proof (ss_thread _ _ W t) as E. unfold thread_shape in E. congruence. Qed.

(** A change that keeps the shape and the states of the threads. *)
Lemma states_ok_same busy s s' : states_ok busy s → same_shape s s' →
  (∀ t, t ∈ thread_list s → state (get s' t) = state (get s t)) → states_ok busy s'.
Proof.
  intros K W E t Ht. cbv zeta. rewrite (proj1 (ss_list _ _ W)) in Ht. rewrite (same_running s s') by done. rewrite E by done.
  by apply K.
Qed.

Lemma states_ok_woken busy s s' : states_ok busy s → woken s s' → states_ok busy s'.
Proof.
  intros K W t Ht. cbv zeta. rewrite (woken_list _ _ W) in Ht. rewrite (same_running s s') by apply W.
  destruct (K t Ht) as [K1 K2]. destruct (wo_state _ _ W t) as [->|[E ->]]; [done|]. split; [intros _; by left|].
  intros N. specialize (K2 N). destruct (_ =? busy); [done|]. congruence.
Qed.

Lemma states_ok_busy busy s : states_ok (-1) s → states_ok busy s.
Proof.
  intros K t Ht. cbv zeta. destruct (K t Ht) as [K1 K2]. split; [done|]. intros N. specialize (K2 N).
  destruct (Z.eqb_spec (running_cpu (get s t)) (-1)); [done|]. rewrite K2. by destruct (_ =? busy).
Qed.

(** ** Taking a thread off *)

Lemma unlink_permutation t l : t ∈ l → l ≡ₚ t :: unlink t l.
Proof.
  induction l as [|x l IH]; [by intros ?%not_elem_of_nil|]. cbn [unlink]. destruct (Z.eqb_spec x t) as [->|Ne]; [done|].
  intros [->|Ht]%elem_of_cons; [done|]. rewrite (IH Ht) at 1. apply Permutation_swap.
Qed.

Lemma elem_unlink t l x : NoDup l → x ∈ unlink t l ↔ x ∈ l ∧ x ≠ t.
Proof.
  induction 1 as [|y l Ny Nd IH]; cbn [unlink]; [by rewrite !elem_of_nil; split; [|intros [? _]]|].
  destruct (Z.eqb_spec y t) as [->|Ne].
  - rewrite elem_of_cons. split; [intros Hx; split; [by right|by intros ->]|by intros [[->|?] ?]].
  - rewrite !elem_of_cons, IH. split; [intros [->|[? ?]]; [split; [by left|done]|split; [by right|done]]|intros [[->|?] ?]; tauto].
Qed.

Lemma NoDup_unlink t l : NoDup l → NoDup (unlink t l).
Proof.
  induction 1 as [|y l Ny Nd IH]; cbn [unlink]; [apply NoDup_nil_2|]. destruct (y =? t); [done|]. apply NoDup_cons.
  split; [|done]. intros Hy. apply elem_unlink in Hy as [? _]; done.
Qed.

Lemma unlink_notin t l : t ∉ l → unlink t l = l.
Proof.
  induction l as [|y l IH]; [done|]. intros N. cbn [unlink]. apply not_elem_of_cons in N as [N1 N2].
  destruct (Z.eqb_spec y t) as [->|]; [done|]. by rewrite IH.
Qed.

Lemma thash_idx_range i : 0 ≤ thash_idx i < 256.
Proof.
  unfold thash_idx. change (Z.of_nat THASH_SIZE - 1) with (Z.ones 8). rewrite Z.land_ones by lia.
  apply Z.mod_pos_bound. lia.
Qed.

Lemma bucket_set s i j l : length (thash_buckets s) = THASH_SIZE → 0 ≤ i < 256 → 0 ≤ j →
  bucket (s <| thash_buckets := aset (thash_buckets s) i l |>) j = if i =? j then l else bucket s j.
Proof. intros L Hi Hj. unfold bucket. cbn. apply aget_aset; [rewrite L; unfold THASH_SIZE; lia|done]. Qed.

(** A thread that does not run is no processor's. *)
Lemma not_current s t i : shape_ok s → t ∈ thread_list s → running_cpu (get s t) = -1 → is_cpu i → current (cpu_at s i) ≠ t.
Proof.
  intros S Ht R Hi E. pose proof (sh_cpu _ S i Hi) as [_ C]. pose proof (sh_thread _ S t Ht) as (P&_).
  destruct (initialized _).
  - destruct C as (_&_&_&_&C). unfold is_cpu in Hi. rewrite E, R in C. lia.
  - lia.
Qed.

(** A thread that ended is gone: from the list, from the table, and its memory is
    given back. *)
Definition removed (t : Z) (s s' : sched) : Prop :=
  (∀ u, u ∈ thread_list s' ↔ u ∈ thread_list s ∧ u ≠ t) ∧ (∀ u, u ≠ t → get s' u = get s u) ∧
  cpu_schedulers s' = cpu_schedulers s.

Lemma remove_thread_eq t s : t ∈ thread_list s → remove_thread t s =
  Some (thash_remove t (s <| thread_list := unlink t (thread_list s) |>
                          <| thread_live_count := u32 (thread_live_count s - 1) |>)).
Proof. intros Ht. unfold remove_thread. by rewrite bool_decide_eq_true_2. Qed.

Lemma remove_free_memory t s s1 : shape_ok s → t ∈ thread_list s → remove_thread t s = Some s1 →
  let s' := thread_node_free t s1 in
  thread_list s' = unlink t (thread_list s) ∧ thread_live_count s' = u32 (thread_live_count s - 1) ∧
  memory s' = delete t (memory s) ∧ cpu_schedulers s' = cpu_schedulers s ∧ next_id s' = next_id s ∧
  thash_buckets s' = aset (thash_buckets s) (thash_idx (id (get s t))) (unlink t (bucket s (thash_idx (id (get s t))))) ∧
  memory_ok (map (mem_of s) (unlink t (thread_list s))) (s_slab s') (s_pmm s').
Proof.
  intros S Ht E. rewrite remove_thread_eq in E by done. injection E as <-. cbv zeta.
  pose proof (sh_thread _ S t Ht) as (Pt&_&It&_). unfold thread_node_free.
  match goal with |- context [mem_of ?s1 t] => set (s2 := s1) end.
  assert (get s2 t = get s t) as Eg by done. rewrite Eg, It. destruct (Z.eqb_spec t 0) as [|_]; [lia|]. cbn [orb].
  assert (memory_ok (mem_of s t :: map (mem_of s) (unlink t (thread_list s))) (s_slab s) (s_pmm s)) as N.
  { apply (memory_ok_permutation (map (mem_of s) (thread_list s))); [|apply S].
    change (mem_of s t :: map (mem_of s) (unlink t (thread_list s))) with (map (mem_of s) (t :: unlink t (thread_list s))).
    by apply Permutation_map, unlink_permutation. }
  apply memory_free in N. change (mem_of s2 t) with (mem_of s t). change (s_slab s2) with (s_slab s).
  change (s_pmm s2) with (s_pmm s). destruct (node_free _ _ _) as [sl p]. done.
Qed.

Lemma remove_ok t s : shape_ok s → t ∈ thread_list s → running_cpu (get s t) = -1 →
  ∃ s1, remove_thread t s = Some s1 ∧ let s' := thread_node_free t s1 in shape_ok s' ∧ removed t s s'.
Proof.
  intros S Ht R. eexists. split; [by apply remove_thread_eq|]. cbv zeta. match goal with |- shape_ok (thread_node_free t ?x) ∧ _ => set (s1 := x) end.
  destruct (remove_free_memory t s s1 S Ht) as (El&Ec&Em&Ep&En&Eb&N); [by apply remove_thread_eq|].
  set (s' := thread_node_free t s1) in *. clearbody s'. clear s1.
  destruct (sh_list _ S) as [Nd Cnt]. pose proof (λ x, elem_unlink t (thread_list s) x Nd) as Eu.
  assert (∀ u, u ≠ t → get s' u = get s u) as G by (intros u Hu; unfold get; by rewrite Em, lookup_delete_ne).
  assert (∀ u, u ≠ t → present s' u ↔ present s u) as P by (intros u Hu; unfold present; by rewrite Em, lookup_delete_ne).
  assert (∀ i, cpu_at s' i = cpu_at s i) as C by (intros; unfold cpu_at; by rewrite Ep).
  pose proof (unlink_permutation t (thread_list s) Ht) as Pm.
  assert (∀ i, 0 ≤ i → bucket s' i = unlink t (bucket s i)) as B.
  { intros i Hi. unfold bucket at 1. rewrite Eb, aget_aset; [|destruct (sh_length _ S) as [_ ->]; apply thash_idx_range|done].
    destruct (Z.eqb_spec (thash_idx (id (get s t))) i) as [->|Ne]; [done|]. destruct (decide (i < 256)) as [Hi2|Hi2].
    - rewrite unlink_notin; [done|]. intros Hin. by destruct (sh_bucket _ S i (conj Hi Hi2)) as [_ [_ E]%(λ f, f t Hin)].
    - unfold bucket, aget. rewrite nth_overflow; [done|]. destruct (sh_length _ S) as [_ ->]. unfold THASH_SIZE. lia. }
  split; [|split; [intros u; by rewrite El|done]]. split.
  - rewrite Ep, Eb, length_aset. apply S.
  - rewrite El, Ec, Cnt. split; [by apply NoDup_unlink|]. apply Permutation_length in Pm. rewrite Pm. cbn [length].
    rewrite Nat2Z.inj_succ. replace (Z.succ _ - 1) with (Z.of_nat (length (unlink t (thread_list s)))) by lia.
    apply u32_small. pose proof (nodes_bound _ _ _ (mo_nodes _ _ _ (sh_memory _ S))) as Nb. rewrite length_map, Pm, pmm_max_pages in Nb. cbn [length] in Nb. lia.
  - intros i Hi. pose proof (sh_cpu _ S i Hi) as Ci. unfold cpu_ok in *. cbv zeta in *. rewrite C. destruct Ci as [C1 C2].
    split; [done|]. destruct (initialized _) eqn:Ei; [|done]. destruct C2 as (D1&D2&D3&D4&D5).
    assert (0 < t) as Pt by apply (sh_thread _ S t Ht). unfold is_cpu in Hi. unfold idle_address in *.
    assert (current (cpu_at s i) ≠ t) by (apply not_current; done). rewrite P, !G, El, Eu by lia. tauto.
  - intros u Hu. rewrite El, Eu in Hu. destruct Hu as [Hu Hn]. unfold thread_ok. cbv zeta. rewrite G, P by done.
    destruct (sh_thread _ S u Hu) as (U1&U2&U3&U4&U5&U6). split_and!; try done; try lia.
    + rewrite B by apply thash_idx_range. apply elem_unlink; [apply (sh_bucket _ S), thash_idx_range|done].
    + by rewrite C.
  - intros u Hu Pu. rewrite El, Eu. destruct (decide (u = t)) as [->|Ne]; [|split; [|done]; apply S; [done|by apply P]].
    unfold present in Pu. rewrite Em, lookup_delete_eq in Pu. by destruct Pu.
  - intros u v Hu Hv. rewrite El in *. apply Eu in Hu as [Hu Nu]. apply Eu in Hv as [Hv Nv]. rewrite !G by done. by apply S.
  - intros i Hi. rewrite B by lia. destruct (sh_bucket _ S i Hi) as [B1 B2]. split; [by apply NoDup_unlink|].
    intros u Hu. apply elem_unlink in Hu as [Hu Nu]; [|done]. rewrite El, Eu, G by done. destruct (B2 u Hu). done.
  - rewrite El. erewrite map_ext_in; [exact N|]. intros u Hu%list_elem_of_In. apply Eu in Hu as [_ Nu].
    unfold mem_of. by rewrite G.
  - rewrite En. apply S.
Qed.

(** ** The switch *)

(** Processor [c] left [prev] for [next]. *)
Record switched (c prev next : Z) (s s' : sched) : Prop := {
  sx_list : thread_list s' = thread_list s ∧ thread_live_count s' = thread_live_count s;
  sx_length : length (cpu_schedulers s') = length (cpu_schedulers s);
  sx_rest : thash_buckets s' = thash_buckets s ∧ s_slab s' = s_slab s ∧ s_pmm s' = s_pmm s ∧ next_id s' = next_id s;
  sx_present : ∀ t, present s' t ↔ present s t;
  sx_thread : ∀ t, id (get s' t) = id (get s t) ∧ idle (get s' t) = idle (get s t) ∧ mem_of s' t = mem_of s t ∧
    wake_pending (get s' t) = wake_pending (get s t);
  sx_running : ∀ t, running_cpu (get s' t) = if t =? prev then -1 else if t =? next then c else running_cpu (get s t);
  sx_state : ∀ t, state (get s' t) =
    if t =? prev then (if decide (state (get s t) = THREAD_RUNNING) then THREAD_READY else state (get s t))
    else if t =? next then THREAD_RUNNING else state (get s t);
  sx_cpu : ∀ i, 0 ≤ i → cpu_shape (cpu_at s' i) =
    if i =? c then (next, c_idle (cpu_at s c), 0, initialized (cpu_at s c)) else cpu_shape (cpu_at s i);
  sx_started : ∀ i, 0 ≤ i → started (cpu_at s' i) = started (cpu_at s i);
}.

(** [switch] is what happens up to the end of a thread that is TERMINATED. *)
Definition switch (c prev next : Z) (s : sched) : sched :=
  let s := upd prev (λ t, if bool_decide (state t = THREAD_RUNNING) then t <| state := THREAD_READY |> else t) s in
  let s := upd next (λ t,
    t <| state := THREAD_RUNNING |>
      <| migrations := if negb (cpu_mask t =? 0) && negb (Z.testbit (cpu_mask t) c)
                       then u64 (migrations t + 1) else migrations t |>
      <| cpu_mask := Z.lor (cpu_mask t) (u32 (1 ≪ c)) |>
      <| running_cpu := c |>) s in
  let s := upd_cpu c (λ x, x <| previous := prev |> <| current := next |>) s in
  let s := upd prev (λ t, t <| preempt_saved := preempt_depth (cpu_at s c) |>) s in
  let s := upd_cpu c (λ x, x <| preempt_depth := preempt_saved (get s next) |>) s in
  let s := upd prev (λ t, t <| running_cpu := -1 |>) s in
  upd_cpu c (λ x, x <| previous := 0 |>) s.

Definition bury (prev : Z) (s : sched) : sched :=
  if bool_decide (state (get s prev) = THREAD_TERMINATED) && negb (idle (get s prev)) then
    match remove_thread prev s with Some s => thread_node_free prev s | None => s end
  else s.

Lemma schedule_eq c now s : is_cpu c → length (cpu_schedulers (pick_next c now s).2) = CPU_MAX_COUNT →
  current (cpu_at s c) ≠ 0 →
  schedule_locked c now s =
    let prev := current (cpu_at s c) in let '(next, s1) := pick_next c now s in
    if next =? prev then upd prev (λ t, t <| state := THREAD_RUNNING |>) s1 else bury prev (switch c prev next s1).
Proof.
  intros Hc L Hp. unfold schedule_locked. cbv zeta. destruct (pick_next c now s) as [next s1]. cbn [snd] in L.
  set (prev := current (cpu_at s c)) in *. destruct (next =? prev); [done|]. unfold finish_switch, switch, bury. cbv zeta.
  match goal with |- context [previous (cpu_at ?x c)] => set (s2 := x) end.
  assert (previous (cpu_at s2 c) = prev) as -> by (subst s2; reads; done).
  destruct (Z.eqb_spec prev 0) as [|_]; [done|]. clearbody s2.
  set (s3 := upd prev (λ t, t <| running_cpu := -1 |>) s2).
  change (get (upd_cpu c (λ x, x <| previous := 0 |>) s3) prev) with (get s3 prev).
  destruct (_ && _); [|done]. unfold remove_thread.
  change (thread_list (upd_cpu c (λ x, x <| previous := 0 |>) s3)) with (thread_list s3).
  by destruct (bool_decide (prev ∈ thread_list s3)).
Qed.

Lemma switch_spec c prev next s : is_cpu c → length (cpu_schedulers s) = CPU_MAX_COUNT → prev ≠ next →
  present s prev → present s next → switched c prev next s (switch c prev next s).
Proof.
  intros Hc L Ne Pp Pn. assert ((prev =? next) = false) as En by lia. unfold switch. cbv zeta. split; try done.
  - unfold upd_cpu. cbn. by rewrite !length_aset.
  - intros t. repeat first [rewrite present_upd_cpu | rewrite present_upd_or]. split; [|tauto]. by intros [->|[->|[->|[->|?]]]].
  - intros t. unfold mem_of. reads. rewrite En. destruct (Z.eqb_spec prev t) as [<-|].
    + rewrite (Z.eqb_sym next prev), En. by destruct (bool_decide _).
    + by destruct (Z.eqb_spec next t) as [<-|].
  - intros t. reads. rewrite En, (Z.eqb_sym t prev), (Z.eqb_sym t next).
    destruct (Z.eqb_spec prev t) as [<-|]; [done|]. by destruct (Z.eqb_spec next t) as [<-|].
  - intros t. reads. rewrite En, (Z.eqb_sym t prev), (Z.eqb_sym t next).
    destruct (Z.eqb_spec prev t) as [<-|].
    + rewrite (Z.eqb_sym next prev), En, bool_decide_decide. by destruct (decide _).
    + by destruct (Z.eqb_spec next t) as [<-|].
  - intros i Hi. rewrite (Z.eqb_sym i c). reads. by destruct (Z.eqb_spec c i) as [<-|Nc].
  - intros i Hi. reads. by destruct (Z.eqb_spec c i) as [<-|Nc].
Qed.

(** Who runs is only on one processor. *)
Lemma current_unique s i j : shape_ok s → is_cpu i → is_cpu j → current (cpu_at s i) ≠ 0 →
  current (cpu_at s i) = current (cpu_at s j) → i = j.
Proof.
  intros S Hi Hj N E. pose proof (sh_cpu _ S i Hi) as [_ Ci]. pose proof (sh_cpu _ S j Hj) as [_ Cj].
  destruct (initialized (cpu_at s i)); [|by destruct Ci]. destruct (initialized (cpu_at s j)); [|destruct Cj; congruence].
  destruct Ci as (_&_&_&_&Ei), Cj as (_&_&_&_&Ej). congruence.
Qed.

(** What a processor may switch to: its idle thread or a thread that does not run. *)
Definition runnable (c : Z) (s : sched) (t : Z) : Prop :=
  t = idle_address c ∨ (t ∈ thread_list s ∧ running_cpu (get s t) = -1).

Lemma cpu_current s c : shape_ok s → is_cpu c → initialized (cpu_at s c) = true →
  current (cpu_at s c) ≠ 0 ∧ present s (current (cpu_at s c)) ∧ running_cpu (get s (current (cpu_at s c))) = c ∧
  c_idle (cpu_at s c) = idle_address c ∧ present s (idle_address c) ∧ idle (get s (idle_address c)) = true ∧
  (current (cpu_at s c) = idle_address c ∨ current (cpu_at s c) ∈ thread_list s).
Proof.
  intros S Hc Ini. pose proof (sh_cpu _ S c Hc) as [_ C]. rewrite Ini in C. destruct C as (C1&C2&C3&C4&C5).
  split_and!; try done; destruct C4 as [->|C4]; try done; [unfold idle_address, is_cpu in *; lia| |];
    destruct (sh_thread _ S _ C4) as (?&?&_); [lia|done].
Qed.

Lemma shape_ok_switched c next s s' : shape_ok s → is_cpu c → initialized (cpu_at s c) = true →
  next ≠ current (cpu_at s c) → runnable c s next → switched c (current (cpu_at s c)) next s s' → shape_ok s'.
Proof.
  intros S Hc Ini Ne Hn X. set (prev := current (cpu_at s c)) in *.
  destruct (cpu_current s c S Hc Ini) as (P0&Pp&Pr&Ci&Pi&Ii&Pl). fold prev in P0, Pp, Pr, Pl.
  destruct (sx_list _ _ _ _ _ X) as [El Ec]. destruct (sx_rest _ _ _ _ _ X) as (Eb&Es&Ep&En).
  pose proof (sx_present _ _ _ _ _ X) as Epr.
  assert (∀ i, bucket s' i = bucket s i) as B by (intros; unfold bucket; by rewrite Eb).
  assert (∀ t, id (get s' t) = id (get s t)) as Ei by (intros; apply X).
  assert (∀ t, idle (get s' t) = idle (get s t)) as Eid by (intros; apply X).
  assert (∀ i, is_cpu i → i ≠ c → current (cpu_at s i) ≠ prev ∧ current (cpu_at s i) ≠ next) as Apart.
  { intros i Hi Nic. split.
    - intros E. apply Nic. apply (current_unique s); [done..|by rewrite E|done].
    - destruct Hn as [->|[Hn Rn]]; [|by apply not_current]. intros E. pose proof (sh_cpu _ S i Hi) as [_ Cc].
      unfold is_cpu, idle_address in *. destruct (initialized (cpu_at s i)); [|lia]. destruct Cc as (_&_&_&[D|D]&_); [lia|].
      destruct (sh_thread _ S _ D). lia. }
  split.
  - rewrite (sx_length _ _ _ _ _ X), Eb. apply S.
  - rewrite El, Ec. apply S.
  - intros i Hi. pose proof (sx_cpu _ _ _ _ _ X i ltac:(unfold is_cpu in Hi; lia)) as Sh.
    pose proof (sh_cpu _ S i Hi) as C. unfold cpu_ok in *. cbv zeta in *. unfold cpu_shape in Sh.
    destruct (Z.eqb_spec i c) as [->|Nic]; injection Sh as -> -> -> ->; destruct C as [C1 C2].
    + split; [done|]. rewrite Ini in *. rewrite Epr, Eid, El, (sx_running _ _ _ _ _ X), Z.eqb_refl.
      destruct (Z.eqb_spec next prev); [done|]. split_and!; try done. destruct Hn as [->|[? _]]; tauto.
    + split; [done|]. destruct (initialized (cpu_at s i)); [|by rewrite (sx_started _ _ _ _ _ X) by (unfold is_cpu in Hi; lia)].
      destruct (Apart i Hi Nic) as [A1 A2].
      destruct C2 as (D1&D2&D3&D4&D5). rewrite Eid, El, (sx_running _ _ _ _ _ X). apply Z.eqb_neq in A1, A2.
      rewrite A1, A2. split_and!; try done. by apply Epr.
  - intros t Ht. rewrite El in Ht. destruct (sh_thread _ S t Ht) as (T1&T2&T3&T4&T5&T6). unfold thread_ok. cbv zeta.
    rewrite Epr, Eid, Ei, B, (sx_running _ _ _ _ _ X). split_and!; try done; try lia.
    destruct (Z.eqb_spec t prev) as [->|Np]; [by left|]. destruct (Z.eqb_spec t next) as [->|Nn].
    + right. pose proof (sx_cpu _ _ _ _ _ X c ltac:(unfold is_cpu in Hc; lia)) as Sh. rewrite Z.eqb_refl in Sh.
      unfold cpu_shape in Sh. injection Sh as -> _ _ ->. done.
    + destruct T6 as [T6|(T6&T7&T8)]; [by left|right]. assert (running_cpu (get s t) ≠ c) as Nc.
      { intros E. rewrite E in T8. by apply Np. }
      pose proof (sx_cpu _ _ _ _ _ X (running_cpu (get s t)) ltac:(unfold is_cpu in T6; lia)) as Sh.
      apply Z.eqb_neq in Nc. rewrite Nc in Sh. unfold cpu_shape in Sh. injection Sh as -> _ _ ->. done.
  - intros t Ht. rewrite Epr, El. by apply S.
  - intros t u. rewrite El, !Ei. by apply S.
  - intros i Hi. rewrite B. destruct (sh_bucket _ S i Hi) as [B1 B2]. split; [done|]. intros t Ht. rewrite El, Ei. by apply B2.
  - rewrite El, Es, Ep. erewrite map_ext; [apply S|]. intros t. apply X.
  - rewrite En. apply S.
Qed.

(** A thread that lives on; it may be woken up, it is not put to sleep. *)
Definition unharmed (t : Z) (s s' : sched) : Prop :=
  t ∈ thread_list s' ∧ id (get s' t) = id (get s t) ∧ (wake_pending (get s t) = true → wake_pending (get s' t) = true) ∧
  (state (get s t) ≠ THREAD_BLOCKED → state (get s' t) ≠ THREAD_BLOCKED).

Lemma unharmed_trans t s1 s2 s3 : unharmed t s1 s2 → unharmed t s2 s3 → unharmed t s1 s3.
Proof. intros (_&E1&W1&B1) (L&E2&W2&B2). split_and!; [done|congruence|auto|auto]. Qed.

Lemma unharmed_woken t s s' : t ∈ thread_list s → woken s s' → unharmed t s s'.
Proof.
  intros Ht W. pose proof (ss_thread _ _ (wo_shape _ _ W) t) as Es. pose proof (wo_attr _ _ W t) as Ea.
  unfold thread_shape, thread_attr in *. split; [by rewrite (woken_list _ _ W)|]. split; [congruence|]. split; [congruence|].
  destruct (wo_state _ _ W t) as [->|[E ->]]; done.
Qed.

Lemma woken_initialized s s' c : woken s s' → initialized (cpu_at s' c) = initialized (cpu_at s c) ∧
  current (cpu_at s' c) = current (cpu_at s c).
Proof. intros W. unfold cpu_at. by rewrite (wo_cpus _ _ W). Qed.

Lemma pick_runnable c now s : shape_ok s → is_cpu c → initialized (cpu_at s c) = true →
  let '(next, s1) := pick_next c now s in woken s s1 ∧
  (next = current (cpu_at s c) ∨ runnable c s1 next).
Proof.
  intros S Hc Ini. pose proof (pick_next_spec c now s (proj1 (sh_list _ S)) (shape_list_present _ S)) as Pk.
  destruct (pick_next c now s) as [next s1]. destruct Pk as (W&_&Ch&_). split; [done|].
  destruct (woken_initialized s s1 c W) as [Ei Ec]. pose proof (shape_ok_same s s1 S (wo_shape _ _ W)) as S1.
  assert (next ∈ thread_list s1 → candidate c s1 next = true → next = current (cpu_at s c) ∨ runnable c s1 next) as Cand.
  { intros Hin Cn. unfold candidate, selectable in Cn. cbv zeta in Cn. apply andb_true_iff in Cn as [Cn _].
    apply orb_true_iff in Cn as [Cn|Cn]; apply andb_true_iff in Cn as [C1 C2].
    - right. right. split; [done|lia].
    - left. rewrite <- Ec. lia. }
  unfold fair_choice in Ch. destruct Ch as [(Hin&[Cn _]&_)|[_ [(Hin&Cn&_)|[_ ->]]]]; [by apply Cand|by apply Cand|].
  right. left. apply cpu_current; [done..|congruence].
Qed.

Lemma own_current c s t : shape_ok s → is_cpu c → t ∈ thread_list s → running_cpu (get s t) = c → t = current (cpu_at s c).
Proof.
  intros S Hc Ht R. destruct (sh_thread _ S t Ht) as (_&_&_&_&_&[R'|(_&_&R')]); [unfold is_cpu in Hc; lia|congruence].
Qed.

(** The thread of the processor runs on. *)
Lemma settle_ok c s : shape_ok s → states_ok c s → is_cpu c → initialized (cpu_at s c) = true →
  let s' := upd (current (cpu_at s c)) (λ t, t <| state := THREAD_RUNNING |>) s in
  sched_ok s' ∧ ∀ t, t ∈ thread_list s → unharmed t s s'.
Proof.
  intros S K Hc Ini. cbv zeta. destruct (cpu_current s c S Hc Ini) as (_&P&R&_).
  pose proof (own_current c s) as Own. set (prev := current (cpu_at s c)) in *. set (s' := upd prev _ s).
  assert (same_shape s s') as W by (by apply same_shape_upd). split; [split; [by apply (shape_ok_same s)|]|].
  - assert (∀ t, state (get s' t) = if prev =? t then THREAD_RUNNING else state (get s t)) as Es
      by (intros t; unfold s'; rewrite get_upd; by destruct (Z.eqb_spec prev t) as [<-|]).
    intros t Ht. cbv zeta. destruct (K t Ht) as [K2 K3]. rewrite (same_running s s'), Es by done.
    destruct (Z.eqb_spec prev t) as [<-|Nt]; [rewrite R; split; [unfold is_cpu in Hc; lia|intros _; by destruct (c =? -1)]|].
    split; [done|]. intros Rt. specialize (K3 Rt). destruct (Z.eqb_spec (running_cpu (get s t)) c) as [E|_].
    { by destruct Nt; rewrite (Own t). }
    by destruct (Z.eqb_spec (running_cpu (get s t)) (-1)).
  - intros t Ht. unfold unharmed, s'. rewrite get_upd. split; [done|]. by destruct (Z.eqb_spec prev t) as [<-|].
Qed.

(** After the switch the states are in order, but for a thread that has ended. *)
Lemma switched_states c next s s' : shape_ok s → states_ok c s → is_cpu c → initialized (cpu_at s c) = true →
  switched c (current (cpu_at s c)) next s s' → ∀ t, t ∈ thread_list s' →
  t = current (cpu_at s c) ∧ state (get s' t) = THREAD_TERMINATED ∨
  (let x := get s' t in (running_cpu x = -1 → state x = THREAD_READY ∨ state x = THREAD_BLOCKED) ∧
   (running_cpu x ≠ -1 → if running_cpu x =? -1 then state x ≠ THREAD_FREE else state x = THREAD_RUNNING)).
Proof.
  intros S K Hc Ini X t Ht. destruct (cpu_current s c S Hc Ini) as (_&_&R&_). pose proof (own_current c s) as Own.
  set (prev := current (cpu_at s c)) in *. rewrite (proj1 (sx_list _ _ _ _ _ X)) in Ht. destruct (K t Ht) as [Ka Kb]. cbv zeta.
  rewrite (sx_running _ _ _ _ _ X), !(sx_state _ _ _ _ _ X). destruct (Z.eqb_spec t prev) as [->|Np].
  - rewrite R in Kb. rewrite Z.eqb_refl in Kb. specialize (Kb ltac:(unfold is_cpu in Hc; lia)).
    destruct (decide _); [right; split; [by left|done]|].
    destruct (state (get s prev)); try done; [right|right|by left]; (split; [tauto|done]).
  - right. destruct (Z.eqb_spec t next) as [->|Nn].
    + split; [unfold is_cpu in Hc; lia|intros _]. destruct (Z.eqb_spec c (-1)); [unfold is_cpu in Hc; lia|done].
    + split; [done|]. intros Rt. specialize (Kb Rt). destruct (Z.eqb_spec (running_cpu (get s t)) (-1)); [done|].
      destruct (Z.eqb_spec (running_cpu (get s t)) c) as [E|_]; [|done]. by destruct Np; rewrite (Own t).
Qed.

Lemma switched_unharmed c prev next s s' t : switched c prev next s s' → t ∈ thread_list s → unharmed t s s'.
Proof.
  intros X Ht. destruct (sx_thread _ _ _ _ _ X t) as (E1&_&_&E2).
  split; [by rewrite (proj1 (sx_list _ _ _ _ _ X))|]. split; [done|]. split; [by rewrite E2|].
  rewrite (sx_state _ _ _ _ _ X). destruct (t =? prev); [by destruct (decide _)|by destruct (t =? next)].
Qed.

(** A switch away from the thread of the processor, which may be its end. *)
Lemma switch_ok c next s : shape_ok s → states_ok c s → is_cpu c → initialized (cpu_at s c) = true →
  next ≠ current (cpu_at s c) → runnable c s next →
  let s' := bury (current (cpu_at s c)) (switch c (current (cpu_at s c)) next s) in
  sched_ok s' ∧ ∀ t, t ∈ thread_list s →
    (t = current (cpu_at s c) ∧ state (get s t) = THREAD_TERMINATED) ∨ unharmed t s s'.
Proof.
  intros S K Hc Ini Ne Hn. cbv zeta. destruct (cpu_current s c S Hc Ini) as (_&Pp&_&_&Pi&Ii&Pl).
  set (prev := current (cpu_at s c)) in *.
  assert (present s next) as Pn by (destruct Hn as [->|[Hn _]]; [done|apply (sh_thread _ S _ Hn)]).
  pose proof (switch_spec c prev next s Hc ltac:(apply S) ltac:(done) Pp Pn) as X. set (s2 := switch c prev next s) in *.
  clearbody s2. pose proof (shape_ok_switched c next s s2 S Hc Ini Ne Hn X) as S2.
  pose proof (switched_states c next s s2 S K Hc Ini X) as K2. fold prev in K2.
  pose proof (λ t, switched_unharmed c prev next s s2 t X) as U. destruct (sx_list _ _ _ _ _ X) as [El _].
  unfold bury. destruct (bool_decide_reflect (state (get s2 prev) = THREAD_TERMINATED)) as [Te|Te]; cbn [andb].
  2:{ split; [split; [done|]|intros t Ht; right; by apply U]. intros t Ht. by destruct (K2 t Ht) as [[-> ?]|]. }
  destruct (idle (get s2 prev)) eqn:Ip; cbn [negb].
  { split; [split; [done|]|intros t Ht; right; by apply U]. intros t Ht. destruct (K2 t Ht) as [[-> _]|?]; [|done].
    destruct (sh_thread _ S2 prev Ht) as (_&_&?&_). congruence. }
  assert (prev ∈ thread_list s2) as Hp.
  { rewrite El. destruct Pl as [E|?]; [|done]. exfalso. destruct (sx_thread _ _ _ _ _ X prev) as (_&E1&_). congruence. }
  destruct (remove_ok prev s2 S2 Hp) as (s3&->&S3&(R1&R2&_)); [by rewrite (sx_running _ _ _ _ _ X), Z.eqb_refl|].
  split; [split; [done|]|].
  - intros t Ht. apply R1 in Ht as [Ht Nt]. rewrite R2 by done. by destruct (K2 t Ht) as [[? _]|].
  - intros t Ht. destruct (decide (t = prev)) as [->|Nt].
    + left. split; [done|]. rewrite (sx_state _ _ _ _ _ X), Z.eqb_refl in Te. by destruct (decide _).
    + right. destruct (U t Ht) as (U1&U2). split; [by apply R1|]. by rewrite R2.
Qed.

(** Whatever a processor did to its own thread, it leaves the scheduler with
    everything in order. *)
Lemma schedule_ok c now s : shape_ok s → states_ok c s → is_cpu c → initialized (cpu_at s c) = true →
  sched_ok (schedule_locked c now s) ∧
  ∀ t, t ∈ thread_list s → (t = current (cpu_at s c) ∧ state (get s t) = THREAD_TERMINATED) ∨
                           unharmed t s (schedule_locked c now s).
Proof.
  intros S K Hc Ini. pose proof (pick_runnable c now s S Hc Ini) as Pk. destruct (cpu_current s c S Hc Ini) as (N&_).
  rewrite schedule_eq; [|done| |done].
  2:{ destruct (pick_next c now s) as [next s1]. destruct Pk as [W _]. cbn. rewrite (wo_cpus _ _ W). apply S. }
  cbv zeta. destruct (pick_next c now s) as [next s1]. destruct Pk as [W Hn].
  pose proof (shape_ok_same s s1 S (wo_shape _ _ W)) as S1. pose proof (states_ok_woken c s s1 K W) as K1.
  destruct (woken_initialized s s1 c W) as [Ei Ec]. rewrite <- Ec in *. rewrite Ini in Ei. clear Ini N.
  assert (∀ t, t ∈ thread_list s → t ∈ thread_list s1 ∧ unharmed t s s1) as U
    by (intros t Ht; split; [by rewrite (woken_list s s1 W)|by apply unharmed_woken]).
  destruct (Z.eqb_spec next (current (cpu_at s1 c))) as [->|Ne].
  - destruct (settle_ok c s1 S1 K1 Hc Ei) as [Ok U1]. split; [done|]. intros t Ht. destruct (U t Ht) as [Ht1 Ut].
    right. by apply (unharmed_trans t s s1); [|apply U1].
  - destruct Hn as [|Hn]; [done|]. destruct (switch_ok c next s1 S1 K1 Hc Ei Ne Hn) as [Ok U1]. split; [done|].
    intros t Ht. destruct (U t Ht) as [Ht1 Ut]. destruct (U1 t Ht1) as [[-> Te]|U2]; [left|right; by apply (unharmed_trans t s s1)].
    split; [done|]. by destruct (wo_state _ _ W (current (cpu_at s1 c))) as [<-|[_ E]]; [|congruence].
Qed.

(** ** The other operations *)

(** Changes of times and attributes only. *)
Definition calm (s s' : sched) : Prop :=
  same_shape s s' ∧ ∀ t, state (get s' t) = state (get s t) ∧ wake_pending (get s' t) = wake_pending (get s t).

#[export] Instance calm_preorder : PreOrder calm.
Proof.
  split; [by intros s|]. intros s1 s2 s3 [A1 A2] [B1 B2]. split; [by etrans|]. intros t.
  destruct (A2 t) as [? ?], (B2 t) as [? ?]. split; congruence.
Qed.

Lemma calm_upd t f s : present s t → (∀ x, thread_shape (f x) = thread_shape x) →
  (∀ x, state (f x) = state x ∧ wake_pending (f x) = wake_pending x) → calm s (upd t f s).
Proof.
  intros P F E. split; [by apply same_shape_upd|]. intros u. rewrite get_upd. destruct (Z.eqb_spec t u) as [<-|]; [apply E|done].
Qed.

Lemma calm_upd_cpu c f s : is_cpu c → shape_ok s → (∀ x, cpu_shape (f x) = cpu_shape x) →
  (∀ x, started (f x) = started x) → calm s (upd_cpu c f s).
Proof. intros Hc S F St. split; [|done]. apply same_shape_upd_cpu; [done|apply S|done|]. rewrite St. by left. Qed.

Lemma calm_shape s s' : shape_ok s → calm s s' → shape_ok s'.
Proof. intros S [W _]. by apply (shape_ok_same s). Qed.

Lemma calm_states busy s s' : states_ok busy s → calm s s' → states_ok busy s'.
Proof. intros K [W E]. apply (states_ok_same busy s); [done..|]. intros t _. apply E. Qed.

Lemma calm_ok s s' : sched_ok s → calm s s' → sched_ok s'.
Proof. intros [S K] C. split; [by apply (calm_shape s)|by apply (calm_states _ s)]. Qed.

Lemma calm_unharmed t s s' : t ∈ thread_list s → calm s s' → unharmed t s s'.
Proof.
  intros Ht [W E]. destruct (E t) as [E1 E2]. pose proof (ss_thread _ _ W t) as E3. unfold thread_shape in E3.
  split; [by rewrite (proj1 (ss_list _ _ W))|]. split; [congruence|]. split; [by rewrite E2|]. by rewrite E1.
Qed.

Lemma calm_cpu s s' c : is_cpu c → calm s s' →
  current (cpu_at s' c) = current (cpu_at s c) ∧ initialized (cpu_at s' c) = initialized (cpu_at s c).
Proof. intros [Hc _] [W _]. pose proof (ss_cpu _ _ W c Hc) as E. unfold cpu_shape in E. split; congruence. Qed.

Lemma current_present s c : shape_ok s → is_cpu c → current (cpu_at s c) ≠ 0 → present s (current (cpu_at s c)).
Proof.
  intros S Hc N. destruct (initialized (cpu_at s c)) eqn:E; [by apply cpu_current|].
  pose proof (sh_cpu _ S c Hc) as [_ C]. rewrite E in C. by destruct C.
Qed.

Lemma started_initialized s c : shape_ok s → is_cpu c → started (cpu_at s c) = true → initialized (cpu_at s c) = true.
Proof.
  intros S Hc St. pose proof (sh_cpu _ S c Hc) as [_ C]. destruct (initialized _); [done|]. destruct C. congruence.
Qed.

Lemma calm_account c now s : shape_ok s → is_cpu c → calm s (account_current c now s).
Proof.
  intros S Hc. unfold account_current. cbv zeta. destruct (started _); [|done]. cbn [negb].
  set (s1 := upd_cpu c _ s). assert (calm s s1) as C1 by (by apply calm_upd_cpu). destruct (_ =? 0); [done|].
  pose proof (calm_shape _ _ S C1) as S1. set (s2 := upd_cpu c _ s1). assert (calm s1 s2) as C2 by (by apply calm_upd_cpu).
  pose proof (calm_shape _ _ S1 C2) as S2. assert (calm s s2) as C by (by etrans).
  destruct (Z.eqb_spec (current (cpu_at s c)) 0) as [|N]; [done|]. etrans; [done|].
  destruct (idle _); [by apply calm_upd_cpu|]. apply calm_upd; [|done..].
  destruct (calm_cpu _ _ c Hc C) as [E _]. rewrite <- E. apply current_present; [done..|]. by rewrite E.
Qed.

Lemma first_of_Some p l t : first_of p l = Some t → t ∈ l ∧ p t = true.
Proof.
  induction l as [|x l IH]; [done|]. cbn. destruct (p x) eqn:E; [intros [= ->]; split; [mem|done]|].
  intros [? ?]%IH. split; [mem|done].
Qed.

Lemma first_of_None p l : first_of p l = None ↔ ∀ t, t ∈ l → p t = false.
Proof.
  induction l as [|x l IH]; cbn; [split; [by intros _ ? ?%not_elem_of_nil|done]|].
  destruct (p x) eqn:E; [split; [done|]; intros H; rewrite H in E; [done|mem]|].
  rewrite IH. split; [intros H t [->|Ht]%elem_of_cons; auto|intros H t Ht; apply H; mem].
Qed.

Lemma first_of_ext p q l : (∀ t, t ∈ l → p t = q t) → first_of p l = first_of q l.
Proof.
  induction l as [|x l IH]; [done|]. intros H. cbn. rewrite <- H by mem. destruct (p x); [done|]. apply IH. intros; apply H; mem.
Qed.

Lemma not_free busy s t : shape_ok s → states_ok busy s → t ∈ thread_list s → state (get s t) ≠ THREAD_FREE.
Proof.
  intros S K Ht E. destruct (K t Ht) as [K1 K2]. destruct (decide (running_cpu (get s t) = -1)) as [R|R].
  - destruct (K1 R); congruence.
  - specialize (K2 R). destruct (_ =? busy); congruence.
Qed.

(** The table finds a thread by its number, and finds every thread. *)
Lemma thash_find_spec busy s tid : shape_ok s → states_ok busy s → ∀ t,
  thash_find s tid = Some t ↔ t ∈ thread_list s ∧ id (get s t) = tid.
Proof.
  intros S K t. unfold thash_find. pose proof (thash_idx_range tid) as R. destruct (sh_bucket _ S _ R) as [_ B].
  split.
  - destruct (tid =? 0); [done|]. intros (Ht&E)%first_of_Some. apply andb_true_iff in E as [E _]. apply B in Ht as [Ht _].
    split; [done|lia].
  - intros [Ht E]. destruct (sh_thread _ S t Ht) as (_&_&_&I&Bk&_). destruct (Z.eqb_spec tid 0) as [|_]; [lia|].
    rewrite E in Bk. destruct (first_of _ _) as [u|] eqn:F.
    + apply first_of_Some in F as (Hu&Eu). apply andb_true_iff in Eu as [Eu _]. apply B in Hu as [Hu _]. f_equal.
      apply (sh_ids _ S); [done..|lia].
    + rewrite first_of_None in F. specialize (F t Bk). apply andb_false_iff in F as [F|F]; [lia|].
      apply bool_decide_eq_false in F. destruct F. by apply (not_free busy).
Qed.

Lemma find_tid_spec busy s tid t : shape_ok s → states_ok busy s → find_tid s tid = Some t → t ∈ thread_list s ∧ present s t.
Proof.
  intros S K. unfold find_tid. destruct (0 <=? i32 tid); [|done]. intros [Ht _]%(thash_find_spec busy); [|done..].
  split; [done|]. apply (sh_thread _ S t Ht).
Qed.

Section operations.
#[local] Set Default Proof Using "All".
Context (s : sched) (O : sched_ok s).

Lemma set_qos_calm tid q : calm s (scheduler_set_qos tid q s).
Proof.
  unfold scheduler_set_qos. destruct (_ <? q); [done|]. destruct (find_tid s tid) as [t|] eqn:F; [|done].
  apply (find_tid_spec (-1)) in F as [_ P]; [|apply O..]. destruct (bool_decide _); [done|]. by apply calm_upd.
Qed.

Lemma set_affinity_calm tid core : calm s (scheduler_set_affinity tid core s).
Proof.
  unfold scheduler_set_affinity. do 2 (destruct (_ || _) || destruct (_ && _); [done|]).
  destruct (find_tid s tid) as [t|] eqn:F; [|done].
  apply (find_tid_spec (-1)) in F as [_ P]; [|apply O..]. destruct (bool_decide _); [done|]. by apply calm_upd.
Qed.

Lemma disable_calm c : is_cpu c → calm s (scheduler_preempt_disable c s).2.
Proof.
  intros Hc. unfold scheduler_preempt_disable. destruct (_ <=? c); [done|]. destruct (_ || _); [done|].
  apply calm_upd_cpu; [done|apply O|done..].
Qed.

Lemma enable_calm c b s' : is_cpu c → preempt_enable_locked c s = Some (b, s') → calm s s'.
Proof.
  intros Hc. unfold preempt_enable_locked. destruct (negb _); [by intros [= _ <-]|]. destruct (_ =? 0); [done|].
  intros [= _ <-]. apply calm_upd_cpu; [done|apply O|done..].
Qed.

Lemma start_calm c now : is_cpu c → initialized (cpu_at s c) = true → calm s (start_locked c now s).
Proof.
  intros Hc Ini. unfold start_locked. set (s1 := upd_cpu c _ s). assert (calm s s1) as C.
  { split; [|done]. apply same_shape_upd_cpu; [done|apply O|done|]. by right. }
  etrans; [exact C|]. split; [|done]. split; auto.
Qed.

Lemma current_thread_present c : is_cpu c → scheduler_current_thread c s ≠ 0 → present s (scheduler_current_thread c s).
Proof.
  intros Hc. unfold scheduler_current_thread. destruct (_ <? _); [|done]. apply current_present; [apply O|done].
Qed.

Lemma enter_calm c : is_cpu c → calm s (enter_locked c s).
Proof.
  intros Hc. unfold enter_locked. cbv zeta. destruct (Z.eqb_spec (scheduler_current_thread c s) 0) as [|N]; [done|].
  destruct (negb _); [done|]. apply calm_upd; [by apply current_thread_present|done..].
Qed.

Lemma leave_calm c : is_cpu c → calm s (leave_locked c s).2.
Proof.
  intros Hc. unfold leave_locked. cbv zeta. destruct (Z.eqb_spec (scheduler_current_thread c s) 0) as [|N]; [done|].
  destruct (negb (user_mode _)); [done|]. cbn [orb snd]. pose proof (current_thread_present c Hc N) as P.
  set (t := scheduler_current_thread c s) in *. set (s1 := upd t _ s).
  assert (calm s s1) as C1 by (by apply calm_upd). assert (present s1 t) as P1 by (by apply (ss_present _ _ (proj1 C1))).
  destruct (_ || _); [|done]. destruct (negb _); (etrans; [exact C1|by apply calm_upd]).
Qed.
End operations.

(** The calls that may switch. *)
Lemma yield_ok c now s : sched_ok s → is_cpu c →
  sched_ok (scheduler_yield c now s) ∧ ∀ t, t ∈ thread_list s → unharmed t s (scheduler_yield c now s).
Proof.
  intros [S K] Hc. unfold scheduler_yield. cbv zeta. destruct (initialized (cpu_at s c)) eqn:Ini; [|split; [done|]; intros t Ht; by apply calm_unharmed].
  cbn [negb]. destruct (negb _).
  { assert (calm s (upd_cpu c (λ x, x <| reschedule_pending := true |>) s)) as C by (by apply calm_upd_cpu).
    split; [by apply (calm_ok s)|]. intros t Ht. by apply calm_unharmed. }
  pose proof (calm_account c now s S Hc) as C. destruct (calm_cpu _ _ c Hc C) as [Ec Ei].
  destruct (schedule_ok c now (account_current c now s)) as [Ok U]; [by apply (calm_shape s)| |done|congruence|].
  { apply states_ok_busy. by apply (calm_states _ s). }
  split; [done|]. intros t Ht. pose proof (calm_unharmed t s _ Ht C) as U1.
  destruct (U t (proj1 U1)) as [[E T]|U2]; [|by apply (unharmed_trans t s _ _ U1)].
  exfalso. destruct (proj2 C t) as [Es _]. rewrite T in Es. destruct (K t Ht) as [K1 K2].
  destruct (decide (running_cpu (get s t) = -1)) as [R|R]; [destruct (K1 R); congruence|].
  specialize (K2 R). destruct (Z.eqb_spec (running_cpu (get s t)) (-1)); congruence.
Qed.

(** A processor changes the state of its own thread and leaves it. *)
Lemma park_ok c now later s f st : sched_ok s → is_cpu c → initialized (cpu_at s c) = true →
  (∀ x, thread_shape (f x) = thread_shape x) → (∀ x, state (f x) = st) → st ≠ THREAD_FREE →
  let t := current (cpu_at s c) in
  let s' := schedule_locked c later (upd t f (account_current c now s)) in
  sched_ok s' ∧ ∀ u, u ∈ thread_list s → u ≠ t → unharmed u s s'.
Proof.
  intros [S K] Hc Ini F Fs Nf. cbv zeta. pose proof (calm_account c now s S Hc) as C. destruct (calm_cpu _ _ c Hc C) as [Ec Ei].
  set (t := current (cpu_at s c)) in *. set (s1 := account_current c now s) in *.
  pose proof (calm_shape _ _ S C) as S1. pose proof (calm_states _ _ _ K C) as K1. rewrite Ini in Ei.
  destruct (cpu_current s1 c S1 Hc Ei) as (_&P&R&_). rewrite Ec in P, R.
  assert (same_shape s1 (upd t f s1)) as W by (by apply same_shape_upd). set (s2 := upd t f s1) in *.
  assert (states_ok c s2) as K2.
  { intros u Hu. cbv zeta. destruct (states_ok_busy c s1 K1 u Hu) as [Ka Kb]. rewrite (same_running s1 s2) by done.
    unfold s2. rewrite get_upd. destruct (Z.eqb_spec t u) as [<-|Nu]; [|done].
    rewrite R, Fs, Z.eqb_refl. split; [unfold is_cpu in Hc; lia|done]. }
  destruct (schedule_ok c later s2) as [Ok U]; [by apply (shape_ok_same s1)|done|done|done|]. split; [done|].
  intros u Hu Nu. apply (unharmed_trans u s s1); [by apply calm_unharmed|].
  assert (unharmed u s1 s2) as U1.
  { split; [by rewrite (proj1 (ss_list _ _ W)), (proj1 (ss_list _ _ (proj1 C)))|]. unfold s2. by rewrite get_upd_ne. }
  apply (unharmed_trans u s1 s2); [done|]. destruct (U u (proj1 U1)) as [[E _]|]; [|done]. destruct Nu. by rewrite E.
Qed.

Lemma sleep_ok c now later ms s : sched_ok s → is_cpu c →
  sched_ok (scheduler_sleep c now later ms s) ∧
  ∀ t, t ∈ thread_list s → t ≠ current (cpu_at s c) → unharmed t s (scheduler_sleep c now later ms s).
Proof.
  intros O Hc. assert (∀ t, t ∈ thread_list s → unharmed t s s) as U0 by (intros; by apply calm_unharmed).
  unfold scheduler_sleep. cbv zeta. destruct (ms =? 0).
  { destruct (yield_ok c now s O Hc). split; auto. }
  destruct (initialized _) eqn:Ini; [|split; auto]. cbn [negb]. destruct (idle _); [split; auto|].
  by apply (park_ok c now later s (λ x, x <| wake_tick := _ |> <| state := THREAD_BLOCKED |> <| wake_pending := false |>) THREAD_BLOCKED).
Qed.

Lemma block_ok c now s : sched_ok s → is_cpu c →
  sched_ok (scheduler_block c now s) ∧
  ∀ t, t ∈ thread_list s → t ≠ current (cpu_at s c) → unharmed t s (scheduler_block c now s).
Proof.
  intros O Hc. unfold scheduler_block. cbv zeta. destruct (initialized (cpu_at s c)) eqn:Ini; [|split; [done|]; intros; by apply calm_unharmed].
  cbn [negb]. destruct (_ || _).
  - destruct (cpu_current s c (proj1 O) Hc Ini) as (_&P&_). set (t := current (cpu_at s c)) in *.
    set (s1 := upd t _ s). assert (same_shape s s1) as W by (by apply same_shape_upd). split; [split|].
    + by apply (shape_ok_same s); [apply O|].
    + apply (states_ok_same _ s); [apply O|done|]. intros u _. unfold s1. rewrite get_upd. by destruct (Z.eqb_spec t u) as [<-|].
    + intros u Hu Nu. split; [done|]. unfold s1. by rewrite get_upd_ne.
  - by apply (park_ok c now now s (λ x, x <| state := THREAD_BLOCKED |>) THREAD_BLOCKED).
Qed.

Lemma exit_ok c now s s' : sched_ok s → is_cpu c → initialized (cpu_at s c) = true → scheduler_exit c now s = Some s' →
  sched_ok s' ∧ ∀ t, t ∈ thread_list s → t ≠ current (cpu_at s c) → unharmed t s s'.
Proof.
  intros O Hc Ini. unfold scheduler_exit. cbv zeta. destruct (idle _); [done|]. intros [= <-].
  by apply (park_ok c now now s (λ x, x <| state := THREAD_TERMINATED |>) THREAD_TERMINATED).
Qed.

(** A switch no thread asked for. *)
Lemma preempt_ok c now s : sched_ok s → is_cpu c → initialized (cpu_at s c) = true →
  sched_ok (schedule_locked c now s) ∧ ∀ t, t ∈ thread_list s → unharmed t s (schedule_locked c now s).
Proof.
  intros [S K] Hc Ini. destruct (schedule_ok c now s) as [Ok U]; [done|by apply states_ok_busy|done|done|]. split; [done|].
  intros t Ht. destruct (U t Ht) as [[_ E]|]; [|done]. exfalso. destruct (K t Ht) as [K1 K2].
  destruct (decide (running_cpu (get s t) = -1)) as [R|R]; [destruct (K1 R); congruence|].
  specialize (K2 R). destruct (Z.eqb_spec (running_cpu (get s t)) (-1)); congruence.
Qed.

Lemma timer_ok c now s : sched_ok s → is_cpu c →
  sched_ok (scheduler_on_timer_interrupt c now s) ∧ ∀ t, t ∈ thread_list s → unharmed t s (scheduler_on_timer_interrupt c now s).
Proof.
  intros O Hc. unfold scheduler_on_timer_interrupt. cbv zeta.
  destruct (started (cpu_at s c)) eqn:St; [|split; [done|]; intros; by apply calm_unharmed]. cbn [negb].
  pose proof (started_initialized s c (proj1 O) Hc St) as Ini.
  pose proof (calm_account c now s (proj1 O) Hc) as C. set (s1 := account_current c now s) in *.
  pose proof (calm_ok _ _ O C) as O1. destruct (calm_cpu _ _ c Hc C) as [_ Ei].
  assert (∀ b, calm s1 (upd_cpu c (λ x, x <| reschedule_pending := b |>) s1)) as C1
    by (intros b; apply calm_upd_cpu; [done|apply O1|done..]).
  destruct (_ && _).
  { split; [by apply (calm_ok s1)|]. intros t Ht. apply calm_unharmed; [done|]. by etrans. }
  destruct (_ || _); [|split; [done|]; intros; by apply calm_unharmed].
  set (s2 := upd_cpu c _ s1). assert (calm s s2) as C2 by (etrans; [done|apply C1]).
  destruct (preempt_ok c now s2) as [O2 U]; [by apply (calm_ok s)|done|destruct (calm_cpu _ _ c Hc C2); congruence|].
  split; [done|]. intros t Ht. pose proof (calm_unharmed t s s2 Ht C2) as U1.
  apply (unharmed_trans t s s2); [done|]. apply U, U1.
Qed.

Lemma reschedule_ok c now s : sched_ok s → is_cpu c →
  sched_ok (scheduler_on_reschedule_interrupt c now s) ∧
  ∀ t, t ∈ thread_list s → unharmed t s (scheduler_on_reschedule_interrupt c now s).
Proof.
  intros O Hc. unfold scheduler_on_reschedule_interrupt.
  destruct (negb (scheduler_is_running c s)); [split; [done|]; intros; by apply calm_unharmed|].
  destruct (negb _); [|by apply yield_ok]. assert (calm s (upd_cpu c (λ x, x <| reschedule_pending := true |>) s)) as C
    by (apply calm_upd_cpu; [done|apply O|done..]).
  split; [by apply (calm_ok s)|]. intros t Ht. by apply calm_unharmed.
Qed.

(** A wake-up reaches a thread of the list: it is ready, or it will not block the
    next time. *)
Lemma unblock_ok tid s : sched_ok s →
  sched_ok (scheduler_unblock tid s) ∧ (∀ t, t ∈ thread_list s → unharmed t s (scheduler_unblock tid s)) ∧
  ∀ t, t ∈ thread_list s → id (get s t) = tid → tid < 2 ^ 31 →
    state (get (scheduler_unblock tid s) t) ≠ THREAD_BLOCKED ∧
    (state (get s t) ≠ THREAD_BLOCKED → wake_pending (get (scheduler_unblock tid s) t) = true).
Proof.
  intros [S K]. unfold scheduler_unblock. destruct (find_tid s tid) as [t|] eqn:F.
  2:{ split; [done|]. split; [intros; by apply calm_unharmed|]. intros t Ht E Sm. exfalso.
      assert (find_tid s tid = Some t) as F'; [|congruence]. destruct (sh_thread _ S t Ht) as (_&_&_&I&_).
      unfold find_tid. rewrite i32_small by lia. destruct (Z.leb_spec 0 tid); [|lia]. rewrite u32_small by lia. by apply (thash_find_spec (-1)). }
  pose proof (find_tid_spec _ _ _ _ S K F) as [Ht P].
  assert (∀ u, u ∈ thread_list s → id (get s u) = tid → tid < 2 ^ 31 → u = t) as Uq.
  { intros u Hu E Sm. unfold find_tid in F. destruct (sh_thread _ S u Hu) as (_&_&_&I&_). rewrite i32_small in F by lia.
    destruct (0 <=? tid); [|done]. rewrite u32_small in F by lia. apply (thash_find_spec (-1)) in F as [_ F]; [|done..].
    apply (sh_ids _ S); [done..|congruence]. }
  destruct (bool_decide_reflect (state (get s t) = THREAD_BLOCKED)) as [B|B].
  - assert (woken s (enqueue_woken_thread t (update_min_vruntime s))) as W.
    { etrans; [apply woken_min|]. apply woken_enqueue; [by apply (woken_present s); [apply woken_min|]|].
      destruct (wo_state _ _ (woken_min s) t) as [->|[_ E]]; [done|]. unfold update_min_vruntime in *. cbv zeta in *.
      by destruct (_ && _). }
    set (s' := enqueue_woken_thread t _) in *. split; [split; [by apply (shape_ok_same s); [|apply W]|by apply (states_ok_woken _ s)]|].
    split; [intros; by apply unharmed_woken|]. intros u Hu E Sm. rewrite (Uq u Hu E Sm).
    subst s'. unfold enqueue_woken_thread. by rewrite get_upd_eq.
  - assert (bool_decide (state (get s t) = THREAD_RUNNING) || bool_decide (state (get s t) = THREAD_READY) = true) as ->.
    { destruct (K t Ht) as [K1 K2]. apply orb_true_iff. rewrite !bool_decide_eq_true.
      destruct (decide (running_cpu (get s t) = -1)) as [R|R]; [destruct (K1 R); [by right|done]|left].
      specialize (K2 R). by destruct (Z.eqb_spec (running_cpu (get s t)) (-1)). }
    set (s1 := upd t _ s). assert (same_shape s s1) as W by (by apply same_shape_upd). split; [split|split].
    + by apply (shape_ok_same s).
    + apply (states_ok_same _ s); [done..|]. intros u _. unfold s1. rewrite get_upd. by destruct (Z.eqb_spec t u) as [<-|].
    + intros u Hu. split; [done|]. unfold s1. rewrite get_upd. by destruct (Z.eqb_spec t u) as [<-|].
    + intros u Hu E Sm. rewrite (Uq u Hu E Sm). unfold s1. by rewrite get_upd_eq.
Qed.
End invariant.
