(* ===== verification/SchedSteps.v ===== *)
(** * The life of the scheduler (src/src/kernel/process/scheduler.c)

    The creation of a thread, the steps the processors take in any order, what
    holds after any number of them, and a booted machine on which it is seen. *)

From S2P Require Import Prelude Pmm Slab Cpu ThreadMem Sched SchedSpec.

#[local] Existing Instance Sched.eta_thread.
#[local] Existing Instance Sched.eta_scheduler_cpu.
#[local] Existing Instance Sched.eta_sched.

(** ** A number for a new thread *)

(** The candidate after [k]. *)
Definition next_candidate (k : Z) : Z := let n := u32 (u32 (k + 1) + 1) in if n =? 0 then 1 else n.

Lemma next_candidate_range k : 1 ≤ next_candidate k < 2 ^ 32.
Proof. unfold next_candidate. cbv zeta. pose proof (u32_range (u32 (k + 1) + 1)) as R. unfold is_u32 in R. destruct (Z.eqb_spec (u32 (u32 (k + 1) + 1)) 0); lia. Qed.

(** Every second number, and after the last the odd ones from 1 on. *)
Definition candidate_at (k : Z) (i : nat) : Z :=
  let z := k + 2 * Z.of_nat i in if z <? 2 ^ 32 then z else z - 2 ^ 32 + 1 - k mod 2.

Lemma candidate_closed k i : 1 ≤ k < 2 ^ 32 → 2 * Z.of_nat i < 2 ^ 32 → Nat.iter i next_candidate k = candidate_at k i.
Proof.
  intros Hk. induction i as [|i IH]; intros Hi; [unfold candidate_at; cbv zeta; change (Nat.iter 0 next_candidate k) with k; destruct (Z.ltb_spec (k + 2 * Z.of_nat 0) (2 ^ 32)); lia|].
  cbn [Nat.iter nat_rect]. change (nat_rect (λ _, Z) k (λ _, next_candidate) i) with (Nat.iter i next_candidate k).
  rewrite IH by lia. unfold candidate_at, next_candidate. cbv zeta. rewrite Nat2Z.inj_succ.
  set (n := Z.of_nat i) in *. assert (k mod 2 = 0 ∨ k mod 2 = 1) as Hm by (pose proof (Z.mod_pos_bound k 2); lia).
  assert (k = 2 * (k / 2) + k mod 2) as Hd by (apply Z.div_mod; lia).
  destruct (Z.ltb_spec (k + 2 * n) (2 ^ 32)) as [L|L].
  - destruct (Z.ltb_spec (k + 2 * Z.succ n) (2 ^ 32)) as [L'|L'].
    + rewrite !u32_small by (rewrite ?u32_small by lia; lia). destruct (Z.eqb_spec (k + 2 * n + 1 + 1) 0); lia.
    + assert (k + 2 * n = 2 ^ 32 - 1 ∨ k + 2 * n = 2 ^ 32 - 2) as [E|E] by lia; rewrite E; cbn [Z.ltb Z.compare];
        change (u32 (u32 (2 ^ 32 - 1 + 1) + 1)) with 1; change (u32 (u32 (2 ^ 32 - 2 + 1) + 1)) with 0; cbn; lia.
  - destruct (Z.ltb_spec (k + 2 * Z.succ n) (2 ^ 32)); [lia|].
    rewrite !u32_small by (rewrite ?u32_small by lia; lia).
    destruct (Z.eqb_spec (k + 2 * n - 2 ^ 32 + 1 - k mod 2 + 1 + 1) 0); lia.
Qed.

Lemma candidates_distinct k n : 1 ≤ k < 2 ^ 32 → 2 * Z.of_nat n ≤ 2 ^ 32 →
  NoDup (map (λ i, Nat.iter i next_candidate k) (seq 0 n)).
Proof.
  intros Hk Hn. apply NoDup_fmap_2_strong; [|apply NoDup_seq]. intros i j Hi%elem_of_seq Hj%elem_of_seq.
  rewrite !candidate_closed by lia. unfold candidate_at. cbv zeta.
  assert (k mod 2 = 0 ∨ k mod 2 = 1) as Hm by (pose proof (Z.mod_pos_bound k 2); lia).
  assert (k = 2 * (k / 2) + k mod 2) as Hd by (apply Z.div_mod; lia).
  destruct (Z.ltb_spec (k + 2 * Z.of_nat i) (2 ^ 32)), (Z.ltb_spec (k + 2 * Z.of_nat j) (2 ^ 32)); lia.
Qed.

(** The search returns the first candidate that is free. *)
Lemma find_id_free fuel s k : 1 ≤ k < 2 ^ 32 →
  (∃ i, (i ≤ fuel)%nat ∧ thash_find s (Nat.iter i next_candidate k) = None) →
  ∃ r, find_id fuel s k (u32 (k + 1)) = Some (r, u32 (r + 1)) ∧ thash_find s r = None ∧ 1 ≤ r < 2 ^ 32.
Proof.
  revert k. induction fuel as [|fuel IH]; intros k Hk (i&Hi&F); cbn [find_id].
  - replace i with O in F by lia. cbn in F. rewrite F. by exists k.
  - destruct (thash_find s k) as [t|] eqn:E; [|by exists k]. cbv zeta. fold (next_candidate k). apply IH; [apply next_candidate_range|].
    destruct i as [|i]; [cbn in F; congruence|]. exists i. split; [lia|]. by rewrite Nat.iter_succ_r in F.
Qed.

(** More candidates than threads: one of them is free. *)
Lemma candidate_free s n k : 1 ≤ k < 2 ^ 32 → 2 * Z.of_nat (S n) ≤ 2 ^ 32 →
  (∃ ids, length ids = n ∧ ∀ x, is_Some (thash_find s x) → x ∈ ids) →
  ∃ i, (i ≤ n)%nat ∧ thash_find s (Nat.iter i next_candidate k) = None.
Proof.
  intros Hk Hn (ids&L&H).
  destruct (decide (Exists (λ i, thash_find s (Nat.iter i next_candidate k) = None) (seq 0 (S n)))) as [E|E].
  - apply Exists_exists in E as (i&Hi%elem_of_seq&F). exists i. split; [lia|done].
  - exfalso. rewrite <- Forall_Exists_neg, Forall_forall in E.
    assert (map (λ i, Nat.iter i next_candidate k) (seq 0 (S n)) ⊆+ ids) as Sub.
    { apply NoDup_submseteq; [by apply candidates_distinct|]. intros x (i&->&Hi)%list_elem_of_fmap.
      apply H. specialize (E i Hi). by destruct (thash_find _ _). }
    apply submseteq_length in Sub. rewrite length_map, length_seq in Sub. lia.
Qed.

(** ** A new thread *)

Lemma thash_remove_notin t s : t ∉ bucket s (thash_idx (id (get s t))) → thash_remove t s = s.
Proof.
  intros N. unfold thash_remove. cbv zeta. rewrite unlink_notin by done. unfold bucket. rewrite aset_aget. by destruct s.
Qed.

Lemma put_again t x y s : put t x (put t y s) = put t x s.
Proof. unfold put. cbn. by rewrite insert_insert_eq. Qed.

Section steps.
Context {Ac : account}.

(** Only the allocators changed, and the memory of the threads is still theirs. *)
Definition reallocated (s s' : sched) : Prop :=
  s' = s <| s_slab := s_slab s' |> <| s_pmm := s_pmm s' |> ∧ memory_ok (map (mem_of s) (thread_list s)) (s_slab s') (s_pmm s').

Lemma reallocated_ok s s' : sched_ok s → reallocated s s' → sched_ok s' ∧ ∀ t, t ∈ thread_list s → unharmed t s s'.
Proof.
  intros [S K] [E N]. revert E N. generalize (s_slab s') (s_pmm s'). intros sl p -> N.
  split; [split|by intros t Ht].
  - destruct S as [S1 S2 S3 S4 S5 S6 S7 S8 S9]. by split.
  - exact K.
Qed.

Lemma node_fresh s : shape_ok s →
  let '(t, s1) := thread_node_alloc s in
  (t = 0 ∧ reallocated s s1) ∨
  (0 < t ∧ (t ∉ thread_list s) ∧ ∃ np ks sl p,
     s1 = put t (thread_zero <| node_phys := np |> <| kstack_phys := ks |>) (s <| s_slab := sl |> <| s_pmm := p |>) ∧
     memory_ok (NodeMem t np ks :: map (mem_of s) (thread_list s)) sl p).
Proof.
  intros S. pose proof (memory_alloc _ _ _ (sh_memory _ S)) as N. unfold thread_node_alloc.
  destruct (node_alloc _ _) as [[[[t np ks]|] sl] p]; cbn [n_addr n_node_phys n_kstack_phys]; [right|by left].
  split; [by apply (nodes_addr (NodeMem t np ks) _ _ _ (mo_nodes _ _ _ N)); left|]. split.
  - intros Ht. pose proof (no_addr _ _ _ (mo_nodes _ _ _ N)) as Na. cbn in Na. apply NoDup_cons in Na as [Na _]. apply Na.
    rewrite map_map. cbn. by rewrite map_id.
  - by exists np, ks, sl, p.
Qed.

(** No thread of the list is one that could be used again. *)
Lemma alloc_thread_eq s : sched_ok s → alloc_thread s =
  let '(fresh, s) := thread_node_alloc s in
  if fresh =? 0 then (0, s)
  else (fresh, s <| thread_list := fresh :: thread_list s |> <| thread_live_count := u32 (thread_live_count s + 1) |>).
Proof.
  intros [S K]. unfold alloc_thread.
  assert (first_of (λ t, (bool_decide (state (get s t) = THREAD_FREE) || bool_decide (state (get s t) = THREAD_TERMINATED)) &&
                       (running_cpu (get s t) =? -1)) (thread_list s) = None) as ->; [|done].
  apply first_of_None. intros t Ht. destruct (Z.eqb_spec (running_cpu (get s t)) (-1)) as [R|]; [|by rewrite andb_false_r].
  destruct (K t Ht) as [K1 _]. by destruct (K1 R) as [-> | ->].
Qed.

(** [t] is a new thread with the number [tid]. *)
Record added (t tid : Z) (s s' : sched) : Prop := {
  ad_list : thread_list s' = t :: thread_list s ∧ thread_live_count s' = u32 (thread_live_count s + 1);
  ad_cpus : cpu_schedulers s' = cpu_schedulers s;
  ad_fresh : 0 < t ∧ (t ∉ thread_list s) ∧ 1 ≤ tid < 2 ^ 32 ∧ ∀ u, u ∈ thread_list s → id (get s u) ≠ tid;
  ad_memory : ∃ x, memory s' = <[t := x]> (memory s) ∧ id x = tid ∧ idle x = false ∧ running_cpu x = -1 ∧
    state x = THREAD_READY ∧ wake_pending x = false;
  ad_buckets : thash_buckets s' = aset (thash_buckets s) (thash_idx tid) (t :: bucket s (thash_idx tid));
  ad_nodes : memory_ok (mem_of s' t :: map (mem_of s) (thread_list s)) (s_slab s') (s_pmm s');
  ad_next : is_u32 (next_id s');
}.

Lemma added_get t tid s s' u : added t tid s s' → u ≠ t → get s' u = get s u ∧ (present s' u ↔ present s u).
Proof.
  intros A Nu. destruct (ad_memory _ _ _ _ A) as (x&E&_). unfold get, present. by rewrite E, lookup_insert_ne.
Qed.

Lemma added_ok t tid s s' : sched_ok s → added t tid s s' → sched_ok s' ∧ ∀ u, u ∈ thread_list s → unharmed u s s'.
Proof.
  intros [S K] A. destruct (ad_list _ _ _ _ A) as [El Ec]. destruct (ad_fresh _ _ _ _ A) as (Pt&Nt&It&Ft).
  destruct (ad_memory _ _ _ _ A) as (x&Em&Xi&Xd&Xr&Xs&Xw). pose proof (ad_nodes _ _ _ _ A) as N.
  pose proof (λ u, added_get t tid s s' u A) as G.
  assert (get s' t = x ∧ present s' t) as [Gt Prt] by (unfold get, present; rewrite Em, lookup_insert_eq; done).
  assert (∀ i, cpu_at s' i = cpu_at s i) as C by (intros; unfold cpu_at; by rewrite (ad_cpus _ _ _ _ A)).
  destruct (sh_length _ S) as [L1 L2]. destruct (sh_list _ S) as [Nd Cnt].
  assert (∀ i, 0 ≤ i → bucket s' i = if thash_idx tid =? i then t :: bucket s i else bucket s i) as B.
  { intros i Hi. unfold bucket at 1. rewrite (ad_buckets _ _ _ _ A), aget_aset;
      [by destruct (Z.eqb_spec (thash_idx tid) i) as [->|]|rewrite L2; apply thash_idx_range|done]. }
  assert (∀ u, u ∈ thread_list s → u ≠ t) as Ne by (intros u Hu ->; done).
  split; [split|].
  2:{ intros u Hu. rewrite El in Hu. apply elem_of_cons in Hu as [->|Hu].
      - cbv zeta. rewrite Gt, Xr, Xs. split; [by left|done].
      - cbv zeta. destruct (G u (Ne u Hu)) as [-> _]. by apply K. }
  2:{ intros u Hu. unfold unharmed. destruct (G u (Ne u Hu)) as [-> _]. split; [|done]. rewrite El. mem. }
  split.
  - by rewrite (ad_cpus _ _ _ _ A), (ad_buckets _ _ _ _ A), length_aset.
  - rewrite El, Ec, Cnt. split; [by apply NoDup_cons|]. pose proof (nodes_bound _ _ _ (mo_nodes _ _ _ N)) as Nb. cbn [length] in *.
    rewrite length_map, pmm_max_pages in Nb. rewrite u32_small; lia.
  - intros i Hi. pose proof (sh_cpu _ S i Hi) as Ci. unfold cpu_ok in *. cbv zeta in *. rewrite C.
    destruct Ci as [C1 C2]. split; [done|]. destruct (initialized (cpu_at s i)); [|done]. destruct C2 as (D1&D2&D3&D4&D5).
    unfold is_cpu, idle_address in *. destruct (G (- i - 1) ltac:(lia)) as [-> ->].
    assert (current (cpu_at s i) ≠ t) as Nc by (destruct D4 as [->|D4]; [lia|by apply Ne]).
    destruct (G _ Nc) as [-> _]. rewrite El, elem_of_cons. tauto.
  - intros u Hu. rewrite El in Hu. apply elem_of_cons in Hu as [->|Hu]; unfold thread_ok; cbv zeta.
    + rewrite Gt, Xi, Xd, Xr, B by apply thash_idx_range. rewrite Z.eqb_refl. split_and!; try done; try lia; by left.
    + destruct (sh_thread _ S u Hu) as (U1&U2&U3&U4&U5&U6). destruct (G u (Ne u Hu)) as [-> Eu].
      rewrite B by apply thash_idx_range. split_and!; try done; try lia; [by apply Eu| |by rewrite C].
      destruct (_ =? _); [mem|done].
  - intros u Hu Pu. rewrite El. destruct (decide (u = t)) as [->|Nu]; [mem|]. apply list_elem_of_further, S; [done|by apply G].
  - intros u v Hu Hv. rewrite El in *. apply elem_of_cons in Hu as [->|Hu], Hv as [->|Hv]; [done| | |].
    + destruct (G v (Ne v Hv)) as [-> _]. rewrite Gt, Xi. intros E. by destruct (Ft v Hv).
    + destruct (G u (Ne u Hu)) as [-> _]. rewrite Gt, Xi. intros E. by destruct (Ft u Hu).
    + destruct (G u (Ne u Hu)) as [-> _], (G v (Ne v Hv)) as [-> _]. by apply S.
  - intros i Hi. rewrite B by lia. destruct (sh_bucket _ S i Hi) as [B1 B2].
    assert (∀ u, u ∈ bucket s i → u ∈ thread_list s' ∧ thash_idx (id (get s' u)) = i) as B3.
    { intros u Hu. destruct (B2 u Hu) as [Hl E]. destruct (G u (Ne u Hl)) as [-> _]. rewrite El. split; [mem|done]. }
    destruct (Z.eqb_spec (thash_idx tid) i) as [Ei|]; [|done]. split.
    + apply NoDup_cons. split; [|done]. intros Ht. by apply B2 in Ht as [? _].
    + intros u [->|Hu]%elem_of_cons; [|by apply B3]. rewrite El, Gt, Xi. split; [mem|done].
  - rewrite El. cbn [map]. erewrite map_ext_in; [exact N|]. intros u Hu%list_elem_of_In. unfold mem_of.
    by destruct (G u (Ne u Hu)) as [-> _].
  - apply A.
Qed.

Lemma upd_put t f x s : upd t f (put t x s) = put t (f x) s.
Proof. unfold upd. by rewrite get_put, Z.eqb_refl, put_again. Qed.

Lemma put_put_list t x y l s : put t x (put t y s <| thread_list := l |>) = put t x s <| thread_list := l |>.
Proof. exact (f_equal (λ s, s <| thread_list := l |>) (put_again t x y s)). Qed.

(** The search only looks at the table and the threads. *)
Lemma find_id_ext fuel s s' tid next : memory s' = memory s → thash_buckets s' = thash_buckets s →
  find_id fuel s tid next = find_id fuel s' tid next.
Proof.
  intros Em Eb. revert tid next. induction fuel as [|fuel IH]; intros tid next; cbn [find_id];
    (assert (thash_find s tid = thash_find s' tid) as -> by (unfold thash_find, bucket, get; by rewrite Em, Eb));
    [done|]. destruct (thash_find s' tid); [|done]. cbv zeta. apply IH.
Qed.

Lemma thash_insert_put t x s : thash_insert t (put t x s) =
  put t x (s <| thash_buckets := aset (thash_buckets s) (thash_idx (id x)) (t :: bucket s (thash_idx (id x))) |>).
Proof. unfold thash_insert. by rewrite get_put, Z.eqb_refl. Qed.

(** A search finds the same threads while the new one is in no chain. *)
Lemma thash_find_put t x s tid : shape_ok s → (t ∉ thread_list s) → ∀ l, thash_find (put t x s <| thread_list := l |>) tid = thash_find s tid.
Proof.
  intros S N l. unfold thash_find. destruct (tid =? 0); [done|].
  change (bucket (put t x s <| thread_list := l |>) (thash_idx tid)) with (bucket s (thash_idx tid)).
  apply first_of_ext. intros u Hu. destruct (sh_bucket _ S _ (thash_idx_range tid)) as [_ B]. destruct (B u Hu) as [Hl _].
  change (get (put t x s <| thread_list := l |>) u) with (get (put t x s) u). rewrite get_put.
  by destruct (Z.eqb_spec t u) as [->|].
Qed.

(** The number the search starts with, never 0. *)
Definition first_candidate (s : sched) : Z := if next_id s =? 0 then 1 else next_id s.

Lemma find_id_spec s t x l : sched_ok s → (t ∉ thread_list s) → (length (thread_list s) ≤ length l)%nat →
  ∃ r, find_id (length l) (put t x s <| thread_list := l |>) (first_candidate s) (u32 (first_candidate s + 1)) = Some (r, u32 (r + 1)) ∧
    1 ≤ r < 2 ^ 32 ∧ ∀ u, u ∈ thread_list s → id (get s u) ≠ r.
Proof.
  intros [S K] Nt Hl. pose proof (sh_next _ S) as Hn. unfold is_u32 in Hn.
  assert (1 ≤ first_candidate s < 2 ^ 32) as Hf by (unfold first_candidate; destruct (Z.eqb_spec (next_id s) 0); lia).
  destruct (find_id_free (length l) (put t x s <| thread_list := l |>) (first_candidate s) Hf) as (r&E&F&R).
  - destruct (candidate_free s (length (thread_list s)) (first_candidate s) Hf) as (i&Hi&F).
    + pose proof (nodes_bound _ _ _ (mo_nodes _ _ _ (sh_memory _ S))) as Nb. rewrite length_map, pmm_max_pages in Nb. lia.
    + exists (map (λ u, id (get s u)) (thread_list s)). split; [apply length_map|]. intros y [u Hu].
      apply (thash_find_spec (-1)) in Hu as [Hu <-]; [|done..]. by apply (list_elem_of_fmap_2 (λ u, id (get s u))).
    + exists i. split; [lia|]. by rewrite thash_find_put.
  - exists r. split; [done|]. split; [done|]. intros u Hu Eu. rewrite thash_find_put in F by done.
    assert (thash_find s r = Some u) by (by apply (thash_find_spec (-1))). congruence.
Qed.

(** Creating a thread comes to an end; it fails without a trace, or adds a thread
    with a number of its own. *)
Lemma create_spec c entry_ arg_ name_ priority_ affinity_ space kernel_space process_ user s : sched_ok s →
  ∃ r s', create_thread c entry_ arg_ name_ priority_ affinity_ space kernel_space process_ user s = Some (r, s') ∧
    (r = -1 ∧ reallocated s s' ∨ ∃ t tid, r = i32 tid ∧ added t tid s s').
Proof.
  intros O. pose proof O as [S K]. assert (reallocated s s) as R0 by (split; [by destruct s|apply S]).
  unfold create_thread. destruct (_ || _); [by exists (-1), s; split; [|left]|].
  destruct (_ || _); [by exists (-1), s; split; [|left]|]. destruct (_ && _); [by exists (-1), s; split; [|left]|].
  rewrite (alloc_thread_eq s O). pose proof (node_fresh s S) as N. destruct (thread_node_alloc s) as [t s1].
  destruct N as [[-> R]|(Pt&Nt&np&ks&sl&p&->&N)]; [by exists (-1), s1; split; [|left]|].
  destruct (Z.eqb_spec t 0) as [|_]; [lia|]. destruct (Z.eqb_spec t 0) as [|_]; [lia|].
  set (l := t :: thread_list s). set (n := u32 (thread_live_count s + 1)).
  set (x0 := thread_zero <| node_phys := np |> <| kstack_phys := ks |>).
  set (s2 := s <| s_slab := sl |> <| s_pmm := p |> <| thread_live_count := n |>).
  match goal with |- context [thash_remove t ?y] => change y with (put t x0 s2 <| thread_list := l |>) end.
  assert (get (put t x0 s2 <| thread_list := l |>) t = x0) as G0
    by (change (get (put t x0 s2) t = x0); by rewrite get_put, Z.eqb_refl).
  rewrite thash_remove_notin.
  2:{ intros Ht. destruct (sh_bucket _ S _ (thash_idx_range (id (get (put t x0 s2 <| thread_list := l |>) t)))) as [_ B].
      by destruct (B t Ht). }
  rewrite G0. change (next_id (put t x0 s2 <| thread_list := l |>)) with (next_id s).
  assert ((if next_id s =? 0 then (u32 (next_id s + 1), u32 (u32 (next_id s + 1) + 1)) else (next_id s, u32 (next_id s + 1))) =
    (first_candidate s, u32 (first_candidate s + 1))) as Ef
    by (unfold first_candidate; by destruct (Z.eqb_spec (next_id s) 0) as [->|]).
  cbv zeta. rewrite Ef. clear Ef G0. rewrite put_put_list.
  set (x1 := thread_zero <| kstack_phys := kstack_phys x0 |> <| node_phys := node_phys x0 |> <| id := first_candidate s |>).
  destruct (find_id_spec s t x1 l O Nt) as (r&F&Hr&Fr); [cbn; lia|].
  change (find_id (length (thread_list (put t x1 s2 <| thread_list := l |>))) (put t x1 s2 <| thread_list := l |>) (first_candidate s) (u32 (first_candidate s + 1)))
    with (find_id (length l) (put t x1 s2 <| thread_list := l |>) (first_candidate s) (u32 (first_candidate s + 1))).
  rewrite (find_id_ext _ _ (put t x1 s <| thread_list := l |>)) by done. rewrite F. lazy beta iota zeta.
  change ((put t x1 s2 <| thread_list := l |>) <| next_id := u32 (r + 1) |>) with (put t x1 (s2 <| thread_list := l |> <| next_id := u32 (r + 1) |>)).
  rewrite upd_put, thash_insert_put, upd_put. eexists _, _. split; [done|right]. exists t, r. split; [done|]. split.
  - done.
  - done.
  - done.
  - eexists. split; [done|]. done.
  - done.
  - unfold mem_of at 1. rewrite get_put, Z.eqb_refl. exact N.
  - apply u32_range.
Qed.

(** ** The steps *)

(** What the processors and the rest of the kernel do; [c] is the processor that
    does it and [now] what the timer shows. *)
Inductive action :=
| AInitCpu (c now kernel_space : Z)
| AStart (c now : Z)
| AYield (c now : Z)
| ADisable (c : Z)
| AEnable (c : Z)
| ASleep (c now later ms : Z)
| ABlock (c now : Z)
| AExit (c now : Z)
| ATimer (c now : Z)
| AReschedule (c now : Z)
| AEnter (c : Z)
| ALeave (c : Z)
| AUnblock (tid : Z)
| AFree (tid : Z)
| ASetQos (tid q : Z)
| ASetAffinity (tid core : Z)
| ACreate (c entry_ arg_ : Z) (name_ : option (list Z)) (priority_ affinity_ space kernel_space process_ : Z) (user : bool)
| AMemory (sl : slab) (p : pmm)
| ATopology (t : topology).

(** The processor that acts for its thread. *)
Definition actor (a : action) : option Z :=
  match a with
  | AInitCpu c _ _ | AStart c _ | AYield c _ | ADisable c | AEnable c | ASleep c _ _ _ | ABlock c _ | AExit c _
  | ATimer c _ | AReschedule c _ | AEnter c | ALeave c | ACreate c _ _ _ _ _ _ _ _ _ => Some c
  | _ => None
  end.

(** [None] is a panic. *)
Definition perform (a : action) (s : sched) : option sched :=
  match a with
  | AInitCpu c now ks => Some (scheduler_init_cpu c now ks s)
  | AStart c now => Some (start_locked c now s)
  | AYield c now => Some (scheduler_yield c now s)
  | ADisable c => Some (scheduler_preempt_disable c s).2
  | AEnable c => snd <$> preempt_enable_locked c s
  | ASleep c now later ms => Some (scheduler_sleep c now later ms s)
  | ABlock c now => Some (scheduler_block c now s)
  | AExit c now => scheduler_exit c now s
  | ATimer c now => Some (scheduler_on_timer_interrupt c now s)
  | AReschedule c now => Some (scheduler_on_reschedule_interrupt c now s)
  | AEnter c => Some (enter_locked c s)
  | ALeave c => Some (leave_locked c s).2
  | AUnblock tid => Some (scheduler_unblock tid s)
  | AFree tid => Some (scheduler_free_thread_by_id tid s)
  | ASetQos tid q => Some (scheduler_set_qos tid q s)
  | ASetAffinity tid core => Some (scheduler_set_affinity tid core s)
  | ACreate c e a nm pr af sp ks pc u => snd <$> create_thread c e a nm pr af sp ks pc u s
  | AMemory sl p => Some (s <| s_slab := sl |> <| s_pmm := p |>)
  | ATopology t => Some (s <| s_topology := t |>)
  end.

(** A processor starts and ends threads only after it has been set up, and nobody
    else touches the memory of the threads. *)
Definition allowed (a : action) (s : sched) : Prop :=
  match actor a with Some c => is_cpu c | None => True end ∧
  match a with
  | AStart c _ | AExit c _ => initialized (cpu_at s c) = true
  | AMemory sl p => nodes_ok (map (mem_of s) (thread_list s)) sl p ∧ unshared (map (mem_of s) (thread_list s)) p
  | _ => True
  end.

(** The thread an action puts to sleep or ends. *)
Definition parks (a : action) (s : sched) (t : Z) : Prop :=
  match a with
  | ASleep c _ _ _ | ABlock c _ | AExit c _ => current (cpu_at s c) = t
  | _ => False
  end.

Definition sched_step (s s' : sched) : Prop := ∃ a, allowed a s ∧ perform a s = Some s'.

(** The machine after [scheduler_init]. *)
Definition booted (now kernel_space : Z) (sl : slab) (p : pmm) (t : topology) : sched :=
  scheduler_init 0 now kernel_space
    (Sched [] 0 ∅ (replicate CPU_MAX_COUNT cpu_zero) 1 0 0 (replicate THASH_SIZE []) sl p t).

Definition sched_reachable (s : sched) : Prop :=
  ∃ now ks sl p t, slab_wf sl p ∧ clean p ∧ rtc sched_step (booted now ks sl p t) s.

Lemma init_cpu_ok c now ks s : sched_ok s → is_cpu c →
  sched_ok (scheduler_init_cpu c now ks s) ∧ ∀ t, t ∈ thread_list s → unharmed t s (scheduler_init_cpu c now ks s).
Proof.
  intros [S K] Hc. unfold scheduler_init_cpu. destruct (initialized (cpu_at s c)) eqn:Ini.
  { split; [done|]. intros t Ht. by apply calm_unharmed. }
  cbv zeta. set (x0 := thread_zero <| idle := true |> <| state := _ |> <| running_cpu := _ |> <| affinity := _ |>
    <| qos := _ |> <| address_space := _ |> <| ticks_remaining := _ |>).
  set (s' := upd_cpu c _ _). destruct (sh_length _ S) as [L1 L2].
  assert (∀ t, get s' t = if idle_address c =? t then x0 else get s t) as G by (intros t; unfold s'; reads; apply get_put).
  assert (∀ t, present s' t ↔ idle_address c = t ∨ present s t) as P by (intros t; apply present_put).
  assert (∀ t, t ∈ thread_list s → (idle_address c =? t) = false) as Nt.
  { intros t Ht. destruct (sh_thread _ S t Ht) as (U&_). unfold idle_address, is_cpu in *. lia. }
  set (x1 := (cpu_at s c) <| c_idle := idle_address c |> <| current := idle_address c |>
    <| last_tick := now |> <| initialized := true |>).
  assert (∀ i, 0 ≤ i → cpu_at s' i = if c =? i then x1 else cpu_at s i) as C by (intros i Hi; unfold s'; by reads).
  assert (previous x1 = previous (cpu_at s c) ∧ initialized x1 = true ∧ current x1 = idle_address c ∧ c_idle x1 = idle_address c)
    as (X1&X2&X3&X4) by done. clearbody x1.
  pose proof (sh_cpu _ S c Hc) as [Prev Cc]. rewrite Ini in Cc.
  split; [split|].
  - split; try apply S.
    + unfold s'. by rewrite length_upd_cpu.
    + intros i Hi. unfold cpu_ok. cbv zeta. rewrite C by (unfold is_cpu in Hi; lia). destruct (Z.eqb_spec c i) as [<-|Ni].
      * rewrite X1, X2, X3, X4, !G, P, Z.eqb_refl. split_and!; try done; by left.
      * pose proof (sh_cpu _ S i Hi) as [C1 C2]. split; [done|]. destruct (initialized (cpu_at s i)); [|done].
        destruct C2 as (D1&D2&D3&D4&D5). rewrite !G, P. unfold idle_address, is_cpu in *.
        destruct (Z.eqb_spec (- c - 1) (- i - 1)) as [|_]; [lia|].
        assert ((- c - 1 =? current (cpu_at s i)) = false) as -> by (destruct D4 as [->|D4]; [lia|by apply Nt]).
        tauto.
    + intros t Ht. destruct (sh_thread _ S t Ht) as (U1&U2&U3&U4&U5&U6). unfold thread_ok. cbv zeta.
      rewrite G, P, (Nt t Ht). split_and!; try done; try lia; [by right|]. destruct U6 as [U6|(U6&U7&U8)]; [by left|right].
      rewrite C by (unfold is_cpu in U6; lia). destruct (Z.eqb_spec c (running_cpu (get s t))) as [E|]; [|done].
      rewrite <- E in U7. congruence.
    + intros t Ht Pt. apply P in Pt as [E|Pt]; [unfold idle_address, is_cpu in *; lia|]. by apply S.
    + intros t u Ht Hu. rewrite !G, (Nt t Ht), (Nt u Hu). by apply S.
    + intros i Hi. destruct (sh_bucket _ S i Hi) as [B1 B2]. split; [done|]. intros t Ht. destruct (B2 t Ht) as [Hl E].
      split; [done|]. by rewrite G, (Nt t Hl).
    + change (memory_ok (map (mem_of s') (thread_list s)) (s_slab s) (s_pmm s)). erewrite map_ext_in; [apply S|].
      intros t Ht%list_elem_of_In. unfold mem_of. by rewrite G, (Nt t Ht).
  - intros t Ht. cbv zeta. rewrite G, (Nt t Ht). by apply K.
  - intros t Ht. split; [done|]. by rewrite G, (Nt t Ht).
Qed.

Lemma zero_ok sl p t : memory_ok [] sl p →
  sched_ok (Sched [] 0 ∅ (replicate CPU_MAX_COUNT cpu_zero) 1 0 0 (replicate THASH_SIZE []) sl p t).
Proof.
  intros W. assert (∀ i s, cpu_schedulers s = replicate CPU_MAX_COUNT cpu_zero → cpu_at s i = cpu_zero) as C
    by (intros i s E; unfold cpu_at; rewrite E; apply aget_replicate).
  split; [split|].
  - split; apply length_replicate.
  - split; [apply NoDup_nil_2|done].
  - intros i _. unfold cpu_ok. cbv zeta. by rewrite C.
  - intros u Hu. by apply not_elem_of_nil in Hu.
  - intros u _ [x Hx]. cbn in Hx. by rewrite lookup_empty in Hx.
  - intros u v Hu. by apply not_elem_of_nil in Hu.
  - intros i _. unfold bucket. cbn [thash_buckets]. rewrite aget_replicate. split; [apply NoDup_nil_2|].
    intros u Hu. by apply not_elem_of_nil in Hu.
  - exact W.
  - done.
  - intros u Hu. by apply not_elem_of_nil in Hu.
Qed.

Lemma booted_ok now ks sl p t : memory_ok [] sl p → sched_ok (booted now ks sl p t).
Proof.
  intros W. apply (init_cpu_ok 0 now ks (Sched [] 0 ∅ (replicate CPU_MAX_COUNT cpu_zero) 1 0 0 (replicate THASH_SIZE []) sl p t)).
  - by apply zero_ok.
  - unfold is_cpu, CPU_MAX_COUNT. lia.
Qed.

(** A thread that has ended is never found again, so there is nothing left for
    this call to do. *)
Lemma free_nothing tid s : sched_ok s → scheduler_free_thread_by_id tid s = s.
Proof.
  intros [S K]. unfold scheduler_free_thread_by_id. destruct (find_tid s tid) as [t|] eqn:F; [|done].
  apply (find_tid_spec (-1)) in F as [Ht _]; [|done..].
  destruct (K t Ht) as [K1 _]. destruct (Z.eqb_spec (running_cpu (get s t)) (-1)) as [R|]; [|by rewrite orb_true_r].
  by destruct (K1 R) as [-> | ->].
Qed.

(** The rest of the kernel uses memory. *)
Definition outside (a : action) : Prop := match a with AMemory _ _ => True | _ => False end.

(** Every step keeps everything in order, and a thread that is not parked by it
    lives on. *)
Lemma step_ok a s s' : sched_ok s → allowed a s → ¬ outside a → perform a s = Some s' →
  sched_ok s' ∧ ∀ t, t ∈ thread_list s → parks a s t ∨ unharmed t s s'.
Proof.
  intros O [Hc Pre] In. assert (∀ s2, sched_ok s2 ∧ (∀ t, t ∈ thread_list s → unharmed t s s2) →
    sched_ok s2 ∧ ∀ t, t ∈ thread_list s → parks a s t ∨ unharmed t s s2) as Weak by (intros s2 [? ?]; split; [done|by right; auto]).
  assert (∀ s2, calm s s2 → sched_ok s2 ∧ ∀ t, t ∈ thread_list s → parks a s t ∨ unharmed t s s2) as Calm
    by (intros s2 C; apply Weak; split; [by apply (calm_ok s)|intros t Ht; by apply calm_unharmed]).
  assert (∀ c s2, (∀ t, current (cpu_at s c) = t → parks a s t) →
    sched_ok s2 ∧ (∀ t, t ∈ thread_list s → t ≠ current (cpu_at s c) → unharmed t s s2) →
    sched_ok s2 ∧ ∀ t, t ∈ thread_list s → parks a s t ∨ unharmed t s s2) as Park.
  { intros c s2 E [O2 U]. split; [done|]. intros t Ht. destruct (decide (current (cpu_at s c) = t)) as [Ec|]; [left|right]; auto. }
  destruct a; cbn in Hc, Pre, In |- *; intros E; [..|]; try (injection E as <-).
  - apply Weak. by apply init_cpu_ok.
  - apply Calm. by apply start_calm.
  - apply Weak. by apply yield_ok.
  - apply Calm. by apply disable_calm.
  - apply fmap_Some in E as ([b s2]&E&->). apply Calm. by eapply enable_calm.
  - apply (Park c); [done|]. by apply sleep_ok.
  - apply (Park c); [done|]. by apply block_ok.
  - apply (Park c); [done|]. by eapply exit_ok.
  - apply Weak. by apply timer_ok.
  - apply Weak. by apply reschedule_ok.
  - apply Calm. by apply enter_calm.
  - apply Calm. by apply leave_calm.
  - apply Weak. by destruct (unblock_ok tid s O) as (?&?&_).
  - rewrite free_nothing by done. apply Weak. split; [done|]. intros t Ht. by apply calm_unharmed.
  - apply Calm. by apply set_qos_calm.
  - apply Calm. by apply set_affinity_calm.
  - destruct (create_spec c entry_ arg_ name_ priority_ affinity_ space kernel_space process_ user s O) as (r&s2&E2&R).
    rewrite E2 in E. cbn in E. injection E as <-. apply Weak.
    destruct R as [[_ R]|(t&tid&_&Ad)]; [by apply reallocated_ok|by eapply added_ok].
  - done.
  - apply Calm. split; [|done]. split; auto.
Qed.
End steps.

Lemma any_step_ok a s s' : (∃ A, sched_ok (A := A) s) → allowed a s → perform a s = Some s' →
  (∃ A, sched_ok (A := A) s') ∧ ∀ t, t ∈ thread_list s → parks a s t ∨ unharmed t s s'.
Proof.
  intros [A O] Al P. assert (outside a ∨ ¬ outside a) as [Out|In] by (destruct a; cbn; auto).
  2:{ destruct (step_ok a s s' O Al In P). split; [by exists A|done]. }
  destruct a; try done. destruct Al as [_ [N U]]. cbn in N, U, P. injection P as <-.
  pose proof (account_of_ok _ _ _ N U) as M.
  destruct O as [[S1 S2 S3 S4 S5 S6 S7 _ S9] K]. split; [|by intros t Ht; right].
  exists (account_of (map (mem_of s) (thread_list s)) sl p). by split.
Qed.

Lemma sched_reachable_ok s : sched_reachable s → ∃ A, sched_ok (A := A) s.
Proof.
  intros (now&ks&sl&p&t&W&C&R). assert (∃ A, sched_ok (A := A) (booted now ks sl p t)) as O.
  { exists (account_of [] sl p). apply booted_ok, account_of_ok; [by apply nodes_ok_nil|]. split; [done|]. by intros g Hg%not_elem_of_nil. }
  induction R as [|s1 s2 s3 (a&A&P) _ IH]; [done|]. apply IH. by destruct (any_step_ok a s1 s2 O A P).
Qed.

(** ** What holds at any time *)

(** C2: A processor that is set up runs one thread, its idle thread or one of
    the list, and no two processors run the same; a thread of the list runs on the
    processor it says it does and is RUNNING, or it runs nowhere and is READY or
    BLOCKED. *)
Theorem scheduler_one_processor_each s : sched_reachable s →
  (∀ i, is_cpu i → initialized (cpu_at s i) = true →
     (current (cpu_at s i) = idle_address i ∨ current (cpu_at s i) ∈ thread_list s) ∧
     running_cpu (get s (current (cpu_at s i))) = i ∧ previous (cpu_at s i) = 0) ∧
  (∀ i j, is_cpu i → is_cpu j → current (cpu_at s i) ≠ 0 → current (cpu_at s i) = current (cpu_at s j) → i = j) ∧
  (∀ t, t ∈ thread_list s → let x := get s t in
     (running_cpu x = -1 ∧ (state x = THREAD_READY ∨ state x = THREAD_BLOCKED) ∧ ∀ i, is_cpu i → current (cpu_at s i) ≠ t) ∨
     (is_cpu (running_cpu x) ∧ state x = THREAD_RUNNING ∧ current (cpu_at s (running_cpu x)) = t)).
Proof.
  intros [A [S K]]%sched_reachable_ok. split; [|split].
  - intros i Hi Ini. destruct (cpu_current s i S Hi Ini) as (_&_&R&_&_&_&L). pose proof (sh_cpu _ S i Hi) as [P _]. done.
  - intros i j Hi Hj. by apply current_unique.
  - intros t Ht. destruct (K t Ht) as [K1 K2]. destruct (sh_thread _ S t Ht) as (_&_&_&_&_&[R|(R1&_&R3)]); [left|right].
    + split; [done|]. split; [by apply K1|]. intros i Hi. by apply not_current.
    + split; [done|]. split; [|done]. assert (running_cpu (get s t) ≠ -1) as N by (unfold is_cpu in R1; lia).
      specialize (K2 N). by destruct (Z.eqb_spec (running_cpu (get s t)) (-1)).
Qed.

(** C28: The table of threads finds exactly the threads of the list, each by the number
    that is its own; the count is their number. *)
Theorem scheduler_table_exact s : sched_reachable s →
  NoDup (thread_list s) ∧ thread_live_count s = Z.of_nat (length (thread_list s)) ∧
  (∀ tid t, thash_find s tid = Some t ↔ t ∈ thread_list s ∧ id (get s t) = tid) ∧
  (∀ t u, t ∈ thread_list s → u ∈ thread_list s → id (get s t) = id (get s u) → t = u).
Proof.
  intros [A [S K]]%sched_reachable_ok. split; [apply S|]. split; [apply S|]. split; [|apply S].
  intros tid t. by apply (thash_find_spec (-1)).
Qed.

(** The frames given out to neither a thread nor the slab, and the objects of the
    slab that are no threads. *)
Definition foreign_frame (s : sched) (g : Z) : Prop := others_frame (map (mem_of s) (thread_list s)) (s_slab s) (s_pmm s) g.
Definition foreign_object (s : sched) (k a : Z) : Prop := others_object (map (mem_of s) (thread_list s)) (s_slab s) k a.

(** C16: The memory of a thread is there as long as the thread is, and no longer:
    the records in use are those of the list, no two threads share a frame or an
    object, all their frames are given out and none is the slab's; and no step of
    the scheduler loses, leaks or takes memory: after it, the frames that are
    given out and the objects of the slab that are live, other than those of the
    threads now in the list, are the ones that were before it, so that what a
    thread had is free when it has ended, and nothing of a creation that fails
    stays behind. *)
Theorem scheduler_memory_exact s : sched_reachable s →
  (∀ t, 0 < t → is_Some (memory s !! t) ↔ t ∈ thread_list s) ∧
  NoDup (concat (map frames (map (mem_of s) (thread_list s)))) ∧
  (∀ t, t ∈ thread_list s → node_ok (s_slab s) (s_pmm s) (mem_of s t) ∧
     ∀ g, g ∈ frames (mem_of s t) → frame_is_used (s_pmm s) g = true ∧ ¬ slab_owns (s_slab s) g) ∧
  ∀ a s', allowed a s → ¬ outside a → perform a s = Some s' →
    (∀ g, 0 ≤ g → foreign_frame s' g ↔ foreign_frame s g) ∧
    (∀ k x, 0 ≤ k < 8 → foreign_object s' k x ↔ foreign_object s k x).
Proof.
  intros [A [S K]]%sched_reachable_ok. pose proof (sh_memory _ S) as [N _ F Ob]. split; [|split; [apply N|split]].
  - intros t Ht. split; [by apply S|]. intros Hl. by apply (sh_thread _ S t Hl).
  - intros t Ht. assert (mem_of s t ∈ map (mem_of s) (thread_list s)) as Hm by by apply list_elem_of_fmap_2.
    split; [by apply (no_node _ _ _ N)|]. intros g Hg. apply (no_used _ _ _ N). by apply (elem_concat (mem_of s t)).
  - intros a s' Al In P. destruct (step_ok a s s' (conj S K) Al In P) as [[S' _] _]. pose proof (sh_memory _ S') as [_ _ F' Ob'].
    split; [intros g Hg; unfold foreign_frame; by rewrite F, F'|intros k x Hk; unfold foreign_object; by rewrite Ob, Ob'].
Qed.

(** C15: The processor takes, of the threads it may run that have not had more than
    their share, the one whose deadline is first; if all have had more, the one
    that had least; and its idle thread only if there is none.  Nobody whose time
    has come is left asleep. *)
Theorem pick_next_fair s c now : sched_reachable s → is_cpu c → initialized (cpu_at s c) = true →
  let '(next, s') := pick_next c now s in
  fair_choice c s' next ∧ (next = current (cpu_at s c) ∨ runnable c s' next) ∧
  (∀ t, t ∈ thread_list s' → awake now s' t) ∧ thread_list s' = thread_list s ∧
  (∀ t, state (get s' t) = state (get s t) ∨ state (get s t) = THREAD_BLOCKED ∧ state (get s' t) = THREAD_READY).
Proof.
  intros [A [S _]]%sched_reachable_ok Hc Ini. pose proof (pick_next_spec c now s (proj1 (sh_list _ S)) (shape_list_present _ S)) as P.
  pose proof (pick_runnable c now s S Hc Ini) as R. destruct (pick_next c now s) as [next s'].
  destruct P as (W&Aw&F&_), R as [_ R]. split_and!; try done; [by apply woken_list|apply W].
Qed.

(** What happens while a thread neither blocks, sleeps nor ends. *)
Inductive meanwhile (t : Z) : sched → sched → Prop :=
| meanwhile_nothing s : meanwhile t s s
| meanwhile_step a s1 s2 s3 : allowed a s1 → perform a s1 = Some s2 → ¬ parks a s1 t → meanwhile t s2 s3 → meanwhile t s1 s3.

Lemma meanwhile_unharmed t s s' : meanwhile t s s' → (∃ A, sched_ok (A := A) s) → t ∈ thread_list s →
  (∃ A, sched_ok (A := A) s') ∧ unharmed t s s'.
Proof.
  induction 1 as [s|a s1 s2 s3 Al P N M IH]; intros O Ht; [by split|].
  destruct (any_step_ok a s1 s2 O Al P) as [O2 U]. destruct (U t Ht) as [|U2]; [done|].
  destruct (IH O2 (proj1 U2)) as [O3 U3]. split; [done|]. by apply (unharmed_trans t s1 s2).
Qed.

(** C3: No wake-up is lost.  However the processors interleave: after
    [scheduler_unblock] of its number, as long as that is below 2^31, a thread is
    not asleep until it blocks again; and if it was not asleep then, because it
    had only decided to block, its next [scheduler_block] returns at once.  (A
    number from 2^31 on is negative as the [int] the call takes, and the call
    does nothing.) *)
Theorem wakeup_not_lost s t s2 : sched_reachable s → t ∈ thread_list s → id (get s t) < 2 ^ 31 →
  meanwhile t (scheduler_unblock (id (get s t)) s) s2 →
  state (get s2 t) ≠ THREAD_BLOCKED ∧
  (state (get s t) ≠ THREAD_BLOCKED → ∀ c now, is_cpu c → initialized (cpu_at s2 c) = true → current (cpu_at s2 c) = t →
   let s3 := scheduler_block c now s2 in
   current (cpu_at s3 c) = t ∧ state (get s3 t) = THREAD_RUNNING ∧ wake_pending (get s3 t) = false).
Proof.
  intros [A O]%sched_reachable_ok Ht Sm M. destruct (unblock_ok (id (get s t)) s O) as (O1&U&W).
  destruct (W t Ht eq_refl Sm) as [B P].
  destruct (meanwhile_unharmed t _ s2 M) as [[A2 O2] (L2&_&P2&B2)]; [by exists A|by apply U|].
  split; [by apply B2|]. intros Nb c now Hc Ini Cur. specialize (P2 (P Nb)). cbv zeta. unfold scheduler_block. cbv zeta.
  rewrite Ini, Cur, P2, orb_true_r. cbn [negb]. rewrite cpu_at_upd_thread, get_upd_eq. split; [done|]. split; [|done].
  destruct O2 as [S2 K2]. destruct (cpu_current s2 c S2 Hc Ini) as (_&_&R&_). rewrite Cur in R.
  destruct (K2 t L2) as [_ K3]. rewrite R in K3. specialize (K3 ltac:(unfold is_cpu in Hc; lia)).
  destruct (Z.eqb_spec c (-1)); [unfold is_cpu in Hc; lia|exact K3].
Qed.

(** A thread with a larger number is not found by it: the wake-up is lost. *)
Theorem wakeup_large_lost s t : 2 ^ 31 ≤ id (get s t) < 2 ^ 32 → scheduler_unblock (id (get s t)) s = s.
Proof.
  intros R. unfold scheduler_unblock, find_tid. destruct (Z.leb_spec 0 (i32 (id (get s t)))) as [L|]; [|done].
  exfalso. unfold i32 in L. replace (id (get s t) + 2 ^ 31) with (id (get s t) - 2 ^ 31 + 1 * 2 ^ 32) in L by lia.
  rewrite Z.mod_add, Z.mod_small in L by lia. lia.
Qed.

(** C29: Creating a thread comes to an end whatever numbers are taken.  It answers
    -1 and nothing but the two allocators has changed (which have given and
    taken back the same, [scheduler_memory_exact]), or it answers the number of
    the new thread, which no other has, and the new thread is ready, at the head
    of the list and found under its number, the count is one more, and every other
    thread and the processors are as they were. *)
Theorem create_thread_total s c entry_ arg_ name_ priority_ affinity_ space kernel_space process_ user : sched_reachable s →
  ∃ r s', create_thread c entry_ arg_ name_ priority_ affinity_ space kernel_space process_ user s = Some (r, s') ∧
    ((r = -1 ∧ s' = s <| s_slab := s_slab s' |> <| s_pmm := s_pmm s' |>) ∨
     ∃ t tid, r = i32 tid ∧ 1 ≤ tid < 2 ^ 32 ∧ (t ∉ thread_list s) ∧ thread_list s' = t :: thread_list s ∧
       thread_live_count s' = thread_live_count s + 1 ∧ cpu_schedulers s' = cpu_schedulers s ∧
       thash_find s tid = None ∧ thash_find s' tid = Some t ∧ state (get s' t) = THREAD_READY ∧
       ∀ u, u ≠ t → get s' u = get s u).
Proof.
  intros [A O]%sched_reachable_ok. destruct (create_spec c entry_ arg_ name_ priority_ affinity_ space kernel_space process_ user s O)
    as (r&s'&E&[[-> R]|(t&tid&->&Ad)]).
  - exists (-1), s'. split; [done|]. left. by destruct R as [R _].
  - exists (i32 tid), s'. split; [done|]. right. exists t, tid. destruct (added_ok t tid s s' O Ad) as [O' _].
    destruct (ad_fresh _ _ _ _ Ad) as (_&F2&F3&F4), (ad_list _ _ _ _ Ad) as [El Ec], (ad_memory _ _ _ _ Ad) as (x&Em&Ei&_&_&Es&_).
    assert (get s' t = x) as Ex by (unfold get; by rewrite Em, lookup_insert_eq). split_and!; try done; try lia.
    + destruct (sh_list _ (proj1 O)) as [_ Cs], (sh_list _ (proj1 O')) as [_ Cs']. rewrite Cs', Cs, El. cbn [length]. lia.
    + apply Ad.
    + destruct (thash_find s tid) as [u|] eqn:F; [|done]. apply (thash_find_spec (-1)) in F as [Hu Eu]; [|apply O..].
      by destruct (F4 u Hu).
    + apply (thash_find_spec (-1)); [apply O'..|]. rewrite El, Ex. split; [mem|done].
    + by rewrite Ex.
    + intros u Hu. by apply (added_get t tid s s' u Ad).
Qed.

(** ** A machine that runs *)

Definition allowed_b (a : action) (s : sched) : bool :=
  match actor a with Some c => (0 <=? c) && (c <? Z.of_nat CPU_MAX_COUNT) | None => true end &&
  match a with
  | AStart c _ | AExit c _ => initialized (cpu_at s c)
  | AMemory _ _ => false
  | _ => true
  end.

Lemma allowed_b_spec a s : allowed_b a s = true → allowed a s.
Proof.
  unfold allowed_b, allowed, is_cpu. intros [H1 H2]%andb_true_iff. split.
  - destruct (actor a); [|done]. apply andb_true_iff in H1 as [? ?]. lia.
  - by destruct a.
Qed.

Fixpoint run (l : list action) (s : sched) : option sched :=
  match l with
  | [] => Some s
  | a :: l => if allowed_b a s then perform a s ≫= run l else None
  end.

Lemma run_steps l s s' : run l s = Some s' → rtc sched_step s s'.
Proof.
  revert s. induction l as [|a l IH]; intros s; cbn; [by intros [= <-]|]. destruct (allowed_b a s) eqn:A; [|done].
  destruct (perform a s) as [s1|] eqn:P; [|done]. cbn. intros R. eapply rtc_l; [|by apply IH].
  exists a. split; [by apply allowed_b_spec|done].
Qed.

(** Forty frames, three threads: processor 0 is set up and started, the first
    thread is preempted by the second, which goes to sleep; a second processor
    takes the one that is ready. *)
Definition demo_memory : pmm := pmm_init (Some [Some (Memmap 4096 (40 * 4096) 0)]) 4096 demo_boot.
Definition demo_topology : topology := cpu_boot <| registered_count := 2 |> <| states := aset (states cpu_boot) 1 CPU_IDLE |>.
Definition demo_booted : sched := booted 0 7 oom_slab_init demo_memory demo_topology.
Definition demo_actions : list action :=
  [AStart 0 1; ACreate 0 4096 0 None 3 (-1) 0 7 0 false; ACreate 0 8192 0 (Some [120]) 3 (-1) 0 7 0 false;
   ACreate 0 8192 0 None 3 (-1) 0 7 0 false;
   AYield 0 2; ATimer 0 40; ASleep 0 41 41 100; AInitCpu 1 41 7; AStart 1 42; AYield 1 43].
Definition demo_sched : sched := default demo_booted (run demo_actions demo_booted).

Lemma demo_memory_clean : clean demo_memory.
Proof. intros f _ _. by vm_compute. Qed.

Lemma demo_memory_wf : slab_wf oom_slab_init demo_memory.
Proof. apply slab_init_wf; [by apply pmm_init_wf|by vm_compute|by vm_compute|by vm_compute]. Qed.

Lemma demo_sched_run : run demo_actions demo_booted = Some demo_sched.
Proof.
  unfold demo_sched. assert (match run demo_actions demo_booted with Some _ => true | None => false end = true) as E by (by vm_compute).
  by destruct (run demo_actions demo_booted).
Qed.

Lemma demo_sched_reachable : sched_reachable demo_sched.
Proof.
  exists 0, 7, oom_slab_init, demo_memory, demo_topology. split; [exact demo_memory_wf|]. split; [exact demo_memory_clean|].
  apply (run_steps demo_actions), demo_sched_run.
Qed.

Lemma scheduler_one_processor_each_witness :
  sched_reachable demo_sched ∧ current (cpu_at demo_sched 1) = 12320 ∧ running_cpu (get demo_sched 12320) = 1.
Proof.
  split; [exact demo_sched_reachable|].
  destruct (scheduler_one_processor_each demo_sched demo_sched_reachable) as (T&_&_).
  assert (current (cpu_at demo_sched 1) = 12320) as E by (vm_compute; reflexivity). split; [exact E|].
  assert (is_cpu 1) as Hc by (unfold is_cpu, CPU_MAX_COUNT; lia).
  assert (initialized (cpu_at demo_sched 1) = true) as Ini by (vm_compute; reflexivity).
  pose proof (proj1 (proj2 (T 1 Hc Ini))) as R. rewrite E in R. exact R.
Defined.

Lemma scheduler_table_exact_witness :
  sched_reachable demo_sched ∧ thread_live_count demo_sched = 3 ∧ id (get demo_sched 13344) = 2 ∧
  thash_find demo_sched 2 = Some 13344.
Proof.
  split; [exact demo_sched_reachable|].
  destruct (scheduler_table_exact demo_sched demo_sched_reachable) as (_&C&F&_).
  assert (thread_list demo_sched = [12320; 13344; 14368]) as E by (vm_compute; reflexivity).
  assert (id (get demo_sched 13344) = 2) as I by (vm_compute; reflexivity).
  split; [rewrite C, E; reflexivity|]. split; [exact I|]. apply F. split; [|exact I]. rewrite E. right. left.
Defined.

(** The thread on processor 0 ends: its stack is free again, and what the others
    have is what they had. *)
Lemma scheduler_memory_exact_witness :
  sched_reachable demo_sched ∧ is_Some (memory demo_sched !! 13344) ∧
  frame_is_used (s_pmm demo_sched) (kstack_phys (get demo_sched 14368) / 4096) = true ∧
  ∃ s', perform (AExit 0 50) demo_sched = Some s' ∧ thread_list s' = [12320; 13344] ∧
    frame_is_used (s_pmm s') (kstack_phys (get demo_sched 14368) / 4096) = false ∧
    ∀ g, 0 ≤ g → foreign_frame s' g ↔ foreign_frame demo_sched g.
Proof.
  split; [exact demo_sched_reachable|].
  destruct (scheduler_memory_exact demo_sched demo_sched_reachable) as (M&_&F&X).
  assert (thread_list demo_sched = [12320; 13344; 14368]) as E by (vm_compute; reflexivity).
  assert (13344 ∈ thread_list demo_sched) as H by (rewrite E; right; left).
  assert (14368 ∈ thread_list demo_sched) as H' by (rewrite E; right; right; left).
  split; [apply M; [lia|exact H]|]. split; [apply (F 14368 H'), stack_frames; unfold mem_of; cbn [n_kstack_phys]; lia|].
  assert (match perform (AExit 0 50) demo_sched with
          | Some s' => thread_list s' = [12320; 13344] ∧ frame_is_used (s_pmm s') (kstack_phys (get demo_sched 14368) / 4096) = false
          | None => False end) as P by (vm_compute; split; reflexivity).
  assert (allowed (AExit 0 50) demo_sched) as Al by (apply allowed_b_spec; vm_compute; reflexivity).
  specialize (X (AExit 0 50)). destruct (perform (AExit 0 50) demo_sched) as [s'|]; [|destruct P]. destruct P as [P1 P2].
  destruct (X s' Al (λ x, x) eq_refl) as [X1 _]. exists s'. split; [reflexivity|]. split; [exact P1|]. split; [exact P2|exact X1].
Defined.

Lemma pick_next_fair_witness :
  sched_reachable demo_sched ∧ (pick_next 0 141 demo_sched).1 = 14368 ∧ fair_choice 0 (pick_next 0 141 demo_sched).2 14368.
Proof.
  split; [exact demo_sched_reachable|].
  pose proof (pick_next_fair demo_sched 0 141 demo_sched_reachable) as T.
  assert ((pick_next 0 141 demo_sched).1 = 14368) as E by (vm_compute; reflexivity). split; [exact E|].
  destruct (pick_next 0 141 demo_sched) as [next s']. cbn [fst] in E. cbn [snd]. subst next.
  apply T; by vm_compute.
Defined.

Lemma create_thread_total_witness :
  sched_reachable demo_sched ∧
  ∃ r s', create_thread 0 4096 0 None 3 (-1) 0 7 0 false demo_sched = Some (r, s') ∧ r = 4 ∧ thash_find demo_sched 4 = None.
Proof.
  split; [exact demo_sched_reachable|].
  destruct (create_thread_total demo_sched 0 4096 0 None 3 (-1) 0 7 0 false demo_sched_reachable) as (r&s'&E&_).
  exists r, s'. split; [exact E|].
  assert (option_map fst (create_thread 0 4096 0 None 3 (-1) 0 7 0 false demo_sched) = Some 4) as E4 by (vm_compute; reflexivity).
  pose proof (eq_trans (eq_sym (f_equal (option_map fst) E)) E4) as R. cbn [option_map fst] in R.
  split; [congruence|by vm_compute].
Defined.

(** The thread that runs on processor 0 is woken before it blocks: it does not
    block. *)
Lemma wakeup_not_lost_witness :
  sched_reachable demo_sched ∧
  let s2 := scheduler_unblock 1 demo_sched in
  current (cpu_at s2 0) = 14368 ∧ state (get (scheduler_block 0 50 s2) 14368) = THREAD_RUNNING.
Proof.
  split; [exact demo_sched_reachable|]. cbv zeta.
  assert (id (get demo_sched 14368) = 1) as I by (vm_compute; reflexivity).
  assert (current (cpu_at (scheduler_unblock 1 demo_sched) 0) = 14368) as C by (vm_compute; reflexivity).
  split; [exact C|].
  destruct (wakeup_not_lost demo_sched 14368 (scheduler_unblock 1 demo_sched) demo_sched_reachable) as [_ T].
  - apply (bool_decide_unpack _). vm_compute. exact Logic.I.
  - vm_compute. reflexivity.
  - rewrite I. constructor.
  - assert (state (get demo_sched 14368) ≠ THREAD_BLOCKED) as N by (apply (bool_decide_unpack _); vm_compute; exact Logic.I).
    assert (is_cpu 0) as Hc by (unfold is_cpu, CPU_MAX_COUNT; lia).
    assert (initialized (cpu_at (scheduler_unblock 1 demo_sched) 0) = true) as Ini by (vm_compute; reflexivity).
    exact (proj1 (proj2 (T N 0 50 Hc Ini C))).
Defined.
