(* ===== verification/SchedTypes.v ===== *)
(** * The widths of the scheduler's numbers (src/src/kernel/process/scheduler.c)

    Every field stays in the range of its type in C, so the integers of [Sched]
    are the numbers the code computes; and the virtual clock of the run queue
    never goes back. *)

From S2P Require Import Prelude Pmm Slab Cpu ThreadMem Sched SchedSpec SchedSteps.

#[local] Existing Instance Sched.eta_thread.
#[local] Existing Instance Sched.eta_scheduler_cpu.
#[local] Existing Instance Sched.eta_sched.

(** ** The ranges *)

(** A number of a processor, or -1. *)
Definition is_cpu_or_none (z : Z) : Prop := -1 ≤ z < Z.of_nat CPU_MAX_COUNT.

Record thread_typed (x : thread) : Prop := {
  tt_id : is_u32 (id x);
  tt_ticks : is_u32 (ticks_remaining x);
  tt_runtime : is_u64 (runtime_ticks x);
  tt_virtual : is_u64 (virtual_runtime x);
  tt_deadline : is_u64 (virtual_deadline x);
  tt_wake : is_u64 (wake_tick x);
  tt_migrations : is_u64 (migrations x);
  tt_mask : is_u32 (cpu_mask x);
  tt_preempt : is_u32 (preempt_saved x);
  tt_qos : SCHED_QOS_IDLE ≤ qos x ≤ SCHED_QOS_USER_INTERACTIVE;
  tt_priority : 0 ≤ priority x ≤ 7;
  tt_affinity : is_cpu_or_none (affinity x);
  tt_running : is_cpu_or_none (running_cpu x);
  tt_entry : is_u64 (entry x);
  tt_arg : is_u64 (arg x);
  tt_space : is_u64 (address_space x);
  tt_process : is_u64 (process x);
  tt_node : is_u64 (node_phys x);
  tt_stack : is_u64 (kstack_phys x);
  tt_name : (length (name x) ≤ 31)%nat ∧ Forall is_u8 (name x);
}.

Record cpu_typed (x : scheduler_cpu) : Prop := {
  ct_last : is_u64 (last_tick x);
  ct_total : is_u64 (total_ticks x);
  ct_idle : is_u64 (idle_ticks x);
  ct_preempt : is_u32 (preempt_depth x);
}.

(** [m] is a lower bound of the virtual clock. *)
Record typed (m : Z) (s : sched) : Prop := {
  ty_thread : ∀ t, thread_typed (get s t);
  ty_cpu : ∀ i, is_cpu i → cpu_typed (cpu_at s i);
  ty_cpus : length (cpu_schedulers s) = CPU_MAX_COUNT;
  ty_clock : is_u64 (runqueue_min_vruntime s) ∧ m ≤ runqueue_min_vruntime s;
  ty_next : is_u32 (next_id s);
  ty_live : is_u32 (thread_live_count s);
  ty_mask : is_u32 (active_mask s);
  ty_registered : registered_count (s_topology s) ≤ Z.of_nat CPU_MAX_COUNT;
}.

Lemma u32_lor x y : is_u32 x → is_u32 y → is_u32 (Z.lor x y).
Proof.
  intros [X1 X2] [Y1 Y2]. assert (0 ≤ Z.lor x y) as Hp by (apply Z.lor_nonneg; lia). split; [done|].
  destruct (Z.eq_dec (Z.lor x y) 0) as [->|]; [lia|]. apply Z.log2_lt_pow2; [lia|]. rewrite Z.log2_lor by done.
  apply Z.max_lub_lt; [destruct (Z.eq_dec x 0) as [->|]; [done|]|destruct (Z.eq_dec y 0) as [->|]; [done|]];
    apply Z.log2_lt_pow2; lia.
Qed.

Lemma thread_zero_typed : thread_typed thread_zero.
Proof. split; try done. split; [cbn; lia|apply Forall_nil_2]. Qed.
Lemma cpu_zero_typed : cpu_typed cpu_zero.
Proof. by split. Qed.

Create HintDb widths.
#[export] Hint Resolve u32_range u64_range u32_lor thread_zero_typed cpu_zero_typed : widths.

Section typed.
Context (m : Z).

Lemma typed_put t x s : typed m s → thread_typed x → typed m (put t x s).
Proof.
  intros [T1 T2 T3 T4 T5 T6 T7 T8] Hx. split; try done. intros u. rewrite get_put. by destruct (t =? u).
Qed.

Lemma typed_upd t f s : typed m s → (thread_typed (get s t) → thread_typed (f (get s t))) → typed m (upd t f s).
Proof. intros T F. apply typed_put; [done|]. apply F, T. Qed.

Lemma typed_upd_cpu c f s : typed m s → is_cpu c → (cpu_typed (cpu_at s c) → cpu_typed (f (cpu_at s c))) → typed m (upd_cpu c f s).
Proof.
  intros T Hc F. pose proof T as [T1 T2 T3 T4 T5 T6 T7 T8]. split; try done.
  - intros i Hi. rewrite cpu_at_upd by (done || (unfold is_cpu in *; lia)). destruct (c =? i); [by apply F, T2|by apply T2].
  - by rewrite length_upd_cpu.
Qed.

(** Changes of lists and allocators. *)
Lemma typed_rest s s' : typed m s → (∀ t, get s' t = get s t ∨ get s' t = thread_zero) → cpu_schedulers s' = cpu_schedulers s →
  runqueue_min_vruntime s' = runqueue_min_vruntime s → is_u32 (next_id s') → is_u32 (thread_live_count s') →
  is_u32 (active_mask s') → s_topology s' = s_topology s → typed m s'.
Proof.
  intros [T1 T2 T3 T4 T5 T6 T7 T8] G C V N L M Tp. split; try done.
  - intros t. destruct (G t) as [->| ->]; [done|apply thread_zero_typed].
  - intros i Hi. unfold cpu_at. rewrite C. by apply T2.
  - by rewrite C.
  - by rewrite V.
  - by rewrite Tp.
Qed.

Lemma saturated_range a b : is_u64 a → 0 ≤ b → is_u64 (add_saturated a b).
Proof. unfold is_u64, add_saturated, UINT64_MAX. intros [? ?] ?. destruct (_ <? _) eqn:E; zify_bool; lia. Qed.

Lemma deadline_range x slice : thread_typed x → 0 ≤ slice → is_u64 (virtual_deadline_after x slice).
Proof.
  intros T Hs. unfold virtual_deadline_after. cbv zeta. pose proof (weight_bound (qos x)) as W.
  apply saturated_range; [apply T|]. destruct (_ =? 0); [lia|]. apply Z.div_pos; [|lia].
  unfold SCHEDULER_NICE_0_WEIGHT. lia.
Qed.

Lemma ensure_typed t s : typed m s → typed m (ensure_fair_request t s).
Proof.
  intros T. unfold ensure_fair_request. cbv zeta. destruct (_ || _); [done|]. apply typed_put; [done|].
  pose proof (ty_thread _ _ T t) as [Q1 Q2 Q3 Q4 Q5 Q6 Q7 Q8 Q9 Q10 Q11 Q12 Q13 Q14 Q15 Q16 Q17 Q18 Q19 Q20].
  pose proof (fair_slice_bound s (get s t)) as B. unfold SCHEDULER_TARGET_LATENCY_MS in B. split; try done.
  - change (is_u32 (fair_slice_ms s (get s t))). unfold is_u32. lia.
  - apply deadline_range; [apply T|lia].
Qed.

Lemma min_typed s : typed m s → typed m (update_min_vruntime s).
Proof.
  intros T. unfold update_min_vruntime. cbv zeta. set (v := foldl _ _ _). destruct (_ && _) eqn:E; [|done].
  apply andb_true_iff in E as [_ E]. assert (is_u64 v) as V.
  { apply (foldl_invariant is_u64); [done|]. intros z t _ Hz. destruct (_ && _); [apply T|done]. }
  pose proof T as [T1 T2 T3 T4 T5 T6 T7 T8]. split; try done.
  change (is_u64 v ∧ m ≤ v). split; [done|]. lia.
Qed.

Lemma enqueue_typed t s : typed m s → typed m (enqueue_woken_thread t s).
Proof.
  intros T. apply typed_upd; [done|]. intros [Q1 Q2 Q3 Q4 Q5 Q6 Q7 Q8 Q9 Q10 Q11 Q12 Q13 Q14 Q15 Q16 Q17 Q18 Q19 Q20]. split; try done.
  match goal with |- is_u64 (virtual_runtime ?x) =>
    change (is_u64 (if virtual_runtime (get s t) <? runqueue_min_vruntime s then runqueue_min_vruntime s else virtual_runtime (get s t))) end.
  destruct (_ <? _); [apply T|done].
Qed.

Lemma sleepers_typed now s : typed m s → typed m (wake_sleeping_threads now s).
Proof.
  intros T. unfold wake_sleeping_threads. apply (foldl_invariant (typed m)); [done|]. intros s1 t _ T1. cbv zeta.
  destruct (_ && _ && _); [by apply enqueue_typed|done].
Qed.

Lemma pick_typed c now s : typed m s → typed m (pick_next c now s).2.
Proof.
  intros T. unfold pick_next. cbv zeta. set (s1 := update_min_vruntime (wake_sleeping_threads _ _)).
  assert (typed m s1) as T1 by (by apply min_typed, sleepers_typed, min_typed).
  pose proof (foldl_invariant (λ acc, typed m acc.2) (pick_round c (runqueue_avg_vruntime s1)) (thread_list s1) (None, None, s1) T1) as F.
  destruct (foldl _ _ _) as [[best fallback] s2]. apply F. intros [[b f] s3] t _ T3. unfold pick_round.
  destruct (_ || _); [done|]. by apply ensure_typed.
Qed.

Lemma account_typed c now s : typed m s → is_cpu c → is_u64 now → typed m (account_current c now s).
Proof.
  intros T Hc Hn. unfold account_current. cbv zeta. destruct (negb _); [done|]. set (s1 := upd_cpu c _ s).
  assert (typed m s1) as T1 by (apply typed_upd_cpu; [done|done|by intros []]). destruct (_ =? 0); [done|].
  set (s2 := upd_cpu c _ s1). assert (typed m s2) as T2.
  { apply typed_upd_cpu; [done|done|]. intros []. split; try done. apply u64_range. }
  destruct (_ =? 0); [done|]. set (e := u64 (now - _)). assert (is_u64 e) as He by apply u64_range.
  destruct (idle _).
  - apply typed_upd_cpu; [done|done|]. intros []. split; try done. apply u64_range.
  - apply typed_upd; [done|]. set (x := get s2 (current (cpu_at s c))). intros Q.
    pose proof Q as [Q1 Q2 Q3 Q4 Q5 Q6 Q7 Q8 Q9 Q10 Q11 Q12 Q13 Q14 Q15 Q16 Q17 Q18 Q19 Q20]. split; try done.
    + match goal with |- is_u32 (ticks_remaining _) =>
        change (is_u32 (if ticks_remaining x <=? e then 0 else u32 (ticks_remaining x - e))) end.
      destruct (_ <=? _); [done|apply u32_range].
    + apply u64_range.
    + apply saturated_range; [done|]. pose proof (weight_bound (qos x)). unfold is_u64 in He.
      assert (0 ≤ e * SCHEDULER_NICE_0_WEIGHT / scheduler_weight (qos x)) by (apply Z.div_pos; unfold SCHEDULER_NICE_0_WEIGHT; lia).
      destruct (UINT64_MAX / SCHEDULER_NICE_0_WEIGHT <? e); [done|]. by destruct (_ =? 0).
Qed.

Lemma node_free_typed t s : typed m s → typed m (thread_node_free t s).
Proof.
  intros T. unfold thread_node_free. destruct (_ || _); [done|]. destruct (node_free _ _ _) as [sl p].
  apply (typed_rest s); try done; try apply T. intros u. unfold get. cbn [memory].
  destruct (decide (t = u)) as [<-|Ne]; [right|left].
  - match goal with |- default _ (?y !! _) = _ => change y with (delete t (memory s)) end. by rewrite lookup_delete_eq.
  - match goal with |- default _ (?y !! _) = _ => change y with (delete t (memory s)) end. by rewrite lookup_delete_ne.
Qed.

Lemma remove_typed t s s' : typed m s → remove_thread t s = Some s' → typed m s'.
Proof.
  intros T. unfold remove_thread. destruct (bool_decide _); [|done]. intros [= <-].
  apply (typed_rest s); try done; try apply T; [by left|apply u32_range].
Qed.

Lemma running_typed t r s : typed m s → is_cpu_or_none r → typed m (upd t (λ t, t <| running_cpu := r |>) s).
Proof. intros T R. apply typed_upd; [done|]. by intros []. Qed.

Lemma finish_typed c s : typed m s → is_cpu c → typed m (finish_switch c s).
Proof.
  intros T Hc. unfold finish_switch. cbv zeta. destruct (_ =? 0); [by apply typed_upd_cpu; [..|intros []]|].
  set (s1 := upd _ _ s). assert (typed m s1) as T1 by (apply running_typed; [done|by unfold is_cpu_or_none]).
  assert (∀ s2, typed m s2 → typed m (upd_cpu c (λ x, x <| previous := 0 |>) s2)) as Clear
    by (intros s2 T2; by apply typed_upd_cpu; [..|intros []]).
  destruct (_ && _); [|by apply Clear]. destruct (remove_thread _ s1) as [s2|] eqn:R; [|by apply Clear].
  apply node_free_typed, Clear. by eapply remove_typed.
Qed.

Lemma schedule_typed c now s : typed m s → is_cpu c → typed m (schedule_locked c now s).
Proof.
  intros T Hc. unfold schedule_locked. cbv zeta. pose proof (pick_typed c now s T) as T1.
  destruct (pick_next c now s) as [next s1]. cbn [snd] in T1. destruct (next =? _).
  { apply typed_upd; [done|]. by intros []. }
  set (s2 := upd _ _ s1). assert (typed m s2) as T2.
  { apply typed_upd; [done|]. intros Q. destruct (bool_decide _); [|done]. by destruct Q. }
  set (s3 := upd _ _ s2). assert (typed m s3) as T3.
  { apply typed_upd; [done|]. set (x := get s2 next). intros [Q1 Q2 Q3 Q4 Q5 Q6 Q7 Q8 Q9 Q10 Q11 Q12 Q13 Q14 Q15 Q16 Q17 Q18 Q19 Q20]. split; try done.
    - match goal with |- is_u64 (migrations _) => change (is_u64 (if negb (cpu_mask x =? 0) && negb (Z.testbit (cpu_mask x) c)
        then u64 (migrations x + 1) else migrations x)) end. destruct (_ && _); [apply u64_range|done].
    - apply u32_lor; [done|apply u32_range].
    - change (is_cpu_or_none c). unfold is_cpu, is_cpu_or_none in *. lia. }
  set (s4 := upd_cpu _ _ s3). assert (typed m s4) as T4 by (by apply typed_upd_cpu; [..|intros []]).
  set (s5 := upd _ _ s4). assert (typed m s5) as T5.
  { apply typed_upd; [done|]. intros []. split; try done. apply (ty_cpu _ _ T4 c Hc). }
  apply finish_typed; [|done]. apply typed_upd_cpu; [done|done|]. intros []. split; try done. apply (ty_thread _ _ T5).
Qed.

Lemma pending_typed c b s : typed m s → is_cpu c → typed m (upd_cpu c (λ x, x <| reschedule_pending := b |>) s).
Proof. intros T Hc. by apply typed_upd_cpu; [..|intros []]. Qed.

Lemma yield_typed c now s : typed m s → is_cpu c → is_u64 now → typed m (scheduler_yield c now s).
Proof.
  intros T Hc Hn. unfold scheduler_yield. cbv zeta. destruct (negb _); [done|].
  destruct (negb _); [by apply pending_typed|]. by apply schedule_typed, Hc; apply account_typed.
Qed.

Lemma sleep_typed c now later ms s : typed m s → is_cpu c → is_u64 now → is_u64 later → typed m (scheduler_sleep c now later ms s).
Proof.
  intros T Hc Hn Hl. unfold scheduler_sleep. cbv zeta. destruct (ms =? 0); [by apply yield_typed|].
  destruct (negb _); [done|]. destruct (idle _); [done|]. apply schedule_typed; [|done].
  apply typed_upd; [by apply account_typed|]. intros []. split; try done.
  match goal with |- is_u64 (wake_tick _) => change (is_u64 (if u64 (later + ms) <? later then UINT64_MAX else u64 (later + ms))) end.
  destruct (_ <? later); [done|apply u64_range].
Qed.

Lemma block_typed c now s : typed m s → is_cpu c → is_u64 now → typed m (scheduler_block c now s).
Proof.
  intros T Hc Hn. unfold scheduler_block. cbv zeta. destruct (negb _); [done|].
  destruct (_ || _); [apply typed_upd; [done|by intros []]|]. apply schedule_typed; [|done].
  apply typed_upd; [by apply account_typed|]. by intros [].
Qed.

Lemma exit_typed c now s s' : typed m s → is_cpu c → is_u64 now → scheduler_exit c now s = Some s' → typed m s'.
Proof.
  intros T Hc Hn. unfold scheduler_exit. cbv zeta. destruct (idle _); [done|]. intros [= <-]. apply schedule_typed; [|done].
  apply typed_upd; [by apply account_typed|]. by intros [].
Qed.

Lemma timer_typed c now s : typed m s → is_cpu c → is_u64 now → typed m (scheduler_on_timer_interrupt c now s).
Proof.
  intros T Hc Hn. unfold scheduler_on_timer_interrupt. cbv zeta. destruct (negb _); [done|].
  pose proof (account_typed c now s T Hc Hn) as T1. destruct (_ && _); [by apply pending_typed|].
  destruct (_ || _); [|done]. by apply schedule_typed, Hc; apply pending_typed.
Qed.

Lemma reschedule_typed c now s : typed m s → is_cpu c → is_u64 now → typed m (scheduler_on_reschedule_interrupt c now s).
Proof.
  intros T Hc Hn. unfold scheduler_on_reschedule_interrupt. destruct (negb _); [done|].
  destruct (negb _); [by apply pending_typed|by apply yield_typed].
Qed.

Lemma unblock_typed tid s : typed m s → typed m (scheduler_unblock tid s).
Proof.
  intros T. unfold scheduler_unblock. destruct (find_tid s tid) as [t|]; [|done].
  destruct (bool_decide _); [by apply enqueue_typed, min_typed|]. destruct (_ || _); [|done].
  apply typed_upd; [done|]. by intros [].
Qed.

Lemma start_typed c now s : typed m s → is_cpu c → is_u64 now → typed m (start_locked c now s).
Proof.
  intros T Hc Hn. unfold start_locked. set (s1 := upd_cpu c _ s).
  assert (typed m s1) as T1 by (by apply typed_upd_cpu; [..|intros []]).
  apply (typed_rest s1); try done; try apply T1; [by left|]. apply u32_lor; [apply T1|apply u32_range].
Qed.

Lemma init_cpu_typed c now ks s : typed m s → is_cpu c → is_u64 now → is_u64 ks → typed m (scheduler_init_cpu c now ks s).
Proof.
  intros T Hc Hn Hk. unfold scheduler_init_cpu. destruct (initialized _); [done|]. cbv zeta.
  apply typed_upd_cpu; [|done|by intros []]. apply typed_put; [done|].
  split; try done; [change (is_cpu_or_none c)|change (is_cpu_or_none c)|split; [cbn; lia|apply Forall_nil_2]];
    unfold is_cpu, is_cpu_or_none in *; lia.
Qed.

Lemma disable_typed c s : typed m s → is_cpu c → typed m (scheduler_preempt_disable c s).2.
Proof.
  intros T Hc. unfold scheduler_preempt_disable. destruct (_ <=? c); [done|]. destruct (_ || _); [done|].
  apply typed_upd_cpu; [done|done|]. intros []. split; try done. apply u32_range.
Qed.

Lemma enable_typed c b s s' : typed m s → is_cpu c → preempt_enable_locked c s = Some (b, s') → typed m s'.
Proof.
  intros T Hc. unfold preempt_enable_locked. cbv zeta. destruct (negb _); [by intros [= _ <-]|].
  destruct (Z.eqb_spec (preempt_depth (cpu_at s c)) 0) as [|N]; [done|]. intros [= _ <-].
  apply typed_upd_cpu; [done|done|]. intros [? ? ? Pd]. split; try done.
  change (is_u32 (preempt_depth (cpu_at s c) - 1)). unfold is_u32 in *. lia.
Qed.

Lemma enter_typed c s : typed m s → typed m (enter_locked c s).
Proof.
  intros T. unfold enter_locked. cbv zeta. destruct (_ || _); [done|]. apply typed_upd; [done|]. by intros [].
Qed.

Lemma choose_cpu_range c t s : is_cpu c → registered_count (s_topology s) ≤ Z.of_nat CPU_MAX_COUNT → is_cpu (choose_cpu c t s).
Proof.
  intros Hc R. unfold choose_cpu. cbv zeta.
  apply (foldl_invariant (λ acc, is_cpu acc.1)); [done|]. intros [target load] i Hi%elem_of_seqZ Ht.
  unfold cpu_registered_count in Hi. destruct (_ || _); [done|]. destruct (_ <? load); [|done]. unfold is_cpu. cbn. lia.
Qed.

Lemma leave_typed c s : typed m s → is_cpu c → typed m (leave_locked c s).2.
Proof.
  intros T Hc. unfold leave_locked. cbv zeta. destruct (_ || _); [done|]. cbn [snd].
  set (t := scheduler_current_thread c s). set (s1 := upd t _ s).
  assert (typed m s1) as T1 by (apply typed_upd; [done|by intros []]). destruct (_ || _); [|done].
  pose proof (choose_cpu_range c t s1 Hc (ty_registered _ _ T1)) as R.
  destruct (negb _); (apply typed_upd; [done|]; intros []; split; try done).
  change (is_cpu_or_none (choose_cpu c t s1)). unfold is_cpu, is_cpu_or_none in *. lia.
Qed.

Lemma free_typed tid s : typed m s → typed m (scheduler_free_thread_by_id tid s).
Proof.
  intros T. unfold scheduler_free_thread_by_id. destruct (find_tid _ _) as [t|]; [|done].
  destruct (_ || _ || _); [done|]. destruct (remove_thread t s) as [s1|] eqn:R; [|done].
  apply node_free_typed. by eapply remove_typed.
Qed.

Lemma qos_typed tid q s : typed m s → SCHED_QOS_IDLE ≤ q → typed m (scheduler_set_qos tid q s).
Proof.
  intros T Hq. unfold scheduler_set_qos. destruct (Z.ltb_spec SCHED_QOS_USER_INTERACTIVE q); [done|].
  destruct (find_tid s tid) as [t|]; [|done]. destruct (bool_decide _); [done|].
  apply typed_upd; [done|]. intros []. split; done.
Qed.

Lemma affinity_typed tid core s : typed m s → typed m (scheduler_set_affinity tid core s).
Proof.
  intros T. unfold scheduler_set_affinity. pose proof (ty_registered _ _ T) as R. unfold cpu_registered_count.
  destruct (_ || _) eqn:E; [done|]. zify_bool. destruct (_ && _); [done|]. destruct (find_tid s tid) as [t|]; [|done].
  destruct (bool_decide _); [done|]. apply typed_upd; [done|]. intros []. split; try done.
  change (is_cpu_or_none core). unfold is_cpu_or_none. lia.
Qed.

Lemma page_range p : is_u64 (pmm_allocate_page_locked p).1.
Proof.
  unfold pmm_allocate_page_locked, take_page. destruct (_ || _); [done|]. destruct (scan_page p 0); [apply u64_range|].
  destruct (scan_page p 1); [apply u64_range|done].
Qed.
Lemma contiguous_range n p : is_u64 (pmm_allocate_contiguous n p).1.
Proof.
  unfold pmm_allocate_contiguous, pmm_allocate_contiguous_locked, take_run. destruct (_ || _); [done|]. destruct (_ =? 1); [apply page_range|].
  destruct (_ <? n); [done|]. destruct (pass_run p n 0); [apply u64_range|]. destruct (pass_run p n 1); [apply u64_range|done].
Qed.

(** The addresses of a node are addresses. *)
Lemma node_alloc_range sl p : match (node_alloc sl p).1.1 with Some n => is_u64 (n_node_phys n) ∧ is_u64 (n_kstack_phys n) | None => True end.
Proof.
  unfold node_alloc. destruct (oom_slab_alloc _ _ _) as [[t s1] p1].
  assert (is_u64 (if t =? 0 then pmm_allocate_page p1 else (0, p1)).1) as R by (destruct (t =? 0); [apply page_range|done]).
  destruct (if t =? 0 then _ else _) as [e p2]. cbn [fst] in R. destruct (_ && _); [done|].
  pose proof (contiguous_range SCHEDULER_STACK_PAGES p2) as R2. destruct (pmm_allocate_contiguous _ p2) as [k p3].
  destruct (k =? 0); [by destruct (negb _)|]. done.
Qed.

Lemma alloc_typed s : typed m s → typed m (alloc_thread s).2.
Proof.
  intros T. unfold alloc_thread. destruct (first_of _ _) as [t|]; [done|]. unfold thread_node_alloc.
  pose proof (node_alloc_range (s_slab s) (s_pmm s)) as Nr.
  destruct (node_alloc _ _) as [[[n|] sl] p]; cbn [Z.eqb].
  2:{ apply (typed_rest s); try done; try apply T. by left. }
  set (s1 := put _ _ _). assert (typed m s1) as T1.
  { apply typed_put; [|destruct Nr; split; try done; split; [cbn; lia|apply Forall_nil_2]]. apply (typed_rest s); try done; try apply T. by left. }
  destruct (n_addr n =? 0); [done|]. apply (typed_rest s1); try done; try apply T1; [by left|apply u32_range].
Qed.

Lemma find_id_range fuel s tid next r nx : is_u32 tid → is_u32 next → find_id fuel s tid next = Some (r, nx) → is_u32 r ∧ is_u32 nx.
Proof.
  revert tid next. induction fuel as [|fuel IH]; intros tid next Ht Hn; cbn [find_id];
    (destruct (thash_find s tid); [|by intros [= <- <-]]); [done|]. cbv zeta. intros E. eapply IH; [| |exact E].
  - destruct (_ =? 0); [done|apply u32_range].
  - apply u32_range.
Qed.

(** The arguments of a creation are of their types. *)
Definition arguments_typed (e a : Z) (nm : option (list Z)) (pr sp ks pc : Z) : Prop :=
  is_u64 e ∧ is_u64 a ∧ Forall is_u8 (default [] nm) ∧ 0 ≤ pr ∧ is_u64 sp ∧ is_u64 ks ∧ is_u64 pc.

Lemma create_typed c e a nm pr af sp ks pc user s r s' : typed m s → arguments_typed e a nm pr sp ks pc →
  create_thread c e a nm pr af sp ks pc user s = Some (r, s') → typed m s'.
Proof.
  intros T (He&Ha&Hnm&Hp&Hsp&Hks&Hpc). unfold create_thread. destruct (_ || _); [by intros [= _ <-]|].
  pose proof (ty_registered _ _ T) as R. unfold cpu_registered_count. destruct ((af <? -1) || _) eqn:Ea; [by intros [= _ <-]|].
  zify_bool. destruct (_ && _); [by intros [= _ <-]|]. pose proof (alloc_typed s T) as T1. destruct (alloc_thread s) as [t s1].
  cbn [snd] in T1. destruct (t =? 0); [by intros [= _ <-]|]. set (s2 := thash_remove t s1).
  assert (typed m s2) as T2 by (apply (typed_rest s1); try done; try apply T1; by left).
  cbv zeta. pose proof (ty_next _ _ T2) as Hn.
  assert (∃ tid next, (if next_id s2 =? 0 then (u32 (next_id s2 + 1), u32 (u32 (next_id s2 + 1) + 1)) else (next_id s2, u32 (next_id s2 + 1))) = (tid, next) ∧
    is_u32 tid ∧ is_u32 next) as (tid&next&->&Ht&Hx).
  { destruct (_ =? 0); eexists _, _; (split; [done|]); split; try done; apply u32_range. }
  pose proof (ty_thread _ _ T2 t) as Told.
  set (s3 := put t _ s2). assert (typed m s3) as T3.
  { apply typed_put; [done|]. split; try done; try apply Told. split; [cbn; lia|apply Forall_nil_2]. }
  destruct (find_id _ s3 tid next) as [[tid' next']|] eqn:F; [|done]. apply find_id_range in F as [F1 F2]; [|done..].
  intros [= _ <-]. apply typed_upd.
  - apply (typed_rest (upd t (λ x, x <| id := tid' |>) (s3 <| next_id := next' |>))); [| |done|done|exact F2|apply T3|apply T3|done].
    + apply typed_upd; [apply (typed_rest s3); try done; try apply T3; by left|]. intros []. split; done.
    + by left.
  - set (s4 := thash_insert _ _). assert (is_u64 (runqueue_min_vruntime s4)) as V by apply T3.
    intros []. split; try done.
    + match goal with |- 0 ≤ priority _ ≤ 7 => change (0 ≤ (if 7 <? pr then 7 else pr) ≤ 7) end. destruct (Z.ltb_spec 7 pr); lia.
    + change (is_cpu_or_none af). unfold is_cpu_or_none. lia.
    + match goal with |- is_u64 (address_space _) => change (is_u64 (if negb (sp =? 0) then sp else ks)) end. by destruct (negb _).
    + match goal with |- context [name ?x] => change (name x) with (take 31 (default [116; 104; 114; 101; 97; 100] nm)) end.
      split; [rewrite length_take; lia|]. apply Forall_take. destruct nm as [l|]; [done|]. cbn. by repeat constructor.
Qed.
End typed.

(** ** The steps *)

(** The numbers the callers pass are in range. *)
Definition action_typed (a : action) : Prop :=
  match a with
  | AInitCpu _ now ks => is_u64 now ∧ is_u64 ks
  | ASleep _ now later _ => is_u64 now ∧ is_u64 later
  | AStart _ now | AYield _ now | ABlock _ now | AExit _ now
  | ATimer _ now | AReschedule _ now => is_u64 now
  | ASetQos _ q => SCHED_QOS_IDLE ≤ q
  | ACreate _ e a nm pr _ sp ks pc _ => arguments_typed e a nm pr sp ks pc
  | ATopology t => registered_count t ≤ Z.of_nat CPU_MAX_COUNT
  | _ => True
  end.

Lemma step_typed m a s s' : typed m s → allowed a s → action_typed a → perform a s = Some s' → typed m s'.
Proof.
  intros T [Hc _] A. destruct a; cbn in Hc, A |- *; intros E; try (injection E as <-).
  - destruct A. by apply init_cpu_typed.
  - by apply start_typed.
  - by apply yield_typed.
  - by apply disable_typed.
  - apply fmap_Some in E as ([b s2]&E&->). by eapply enable_typed.
  - destruct A. by apply sleep_typed.
  - by apply block_typed.
  - by eapply exit_typed.
  - by apply timer_typed.
  - by apply reschedule_typed.
  - by apply enter_typed.
  - by apply leave_typed.
  - by apply unblock_typed.
  - by apply free_typed.
  - by apply qos_typed.
  - by apply affinity_typed.
  - apply fmap_Some in E as ([r s2]&E&->). by eapply create_typed.
  - apply (typed_rest m s); try done; try apply T. by left.
  - destruct T. by split.
Qed.

(** A run of typed steps. *)
Inductive typed_run : sched → sched → Prop :=
| typed_run_nothing s : typed_run s s
| typed_run_step a s1 s2 s3 : allowed a s1 → action_typed a → perform a s1 = Some s2 → typed_run s2 s3 → typed_run s1 s3.

Lemma typed_run_typed m s s' : typed_run s s' → typed m s → typed m s'.
Proof. induction 1 as [s|a s1 s2 s3 A At P R IH]; [done|]. intros T. by apply IH, (step_typed m a s1). Qed.

Lemma booted_typed now ks sl p t : is_u64 now → is_u64 ks → registered_count t ≤ Z.of_nat CPU_MAX_COUNT → typed 0 (booted now ks sl p t).
Proof.
  intros Hn Hk Ht. unfold booted, scheduler_init. destruct (_ || _) eqn:E; [by cbn in E|].
  apply init_cpu_typed; [|unfold is_cpu, CPU_MAX_COUNT; lia|done|done]. split; try done; [intros u; apply thread_zero_typed|].
  - intros i Hi. match goal with |- cpu_typed ?x => change x with (aget cpu_zero (replicate CPU_MAX_COUNT cpu_zero) i) end.
    rewrite aget_replicate. apply cpu_zero_typed.
Qed.

Lemma run_typed l s s' : run l s = Some s' → Forall action_typed l → typed_run s s'.
Proof.
  revert s. induction l as [|a l IH]; intros s; cbn; [intros [= <-] _; constructor|]. destruct (allowed_b a s) eqn:A; [|done].
  destruct (perform a s) as [s1|] eqn:P; [|done]. cbn. intros R [Ta Tl]%Forall_cons. econstructor; [|done|done|by apply IH].
  by apply allowed_b_spec.
Qed.

(** ** The average *)

Lemma typed_run_steps s s' : typed_run s s' → rtc sched_step s s'.
Proof. induction 1 as [|a s1 s2 s3 A _ P _ IH]; [done|]. eapply rtc_l; [|done]. by exists a. Qed.

(** One more thread in the weighted sum. *)
Lemma weighted_step v total weighted delta weight : 0 ≤ delta ≤ v → 256 ≤ weight ≤ 2048 → 0 ≤ total → 0 ≤ weighted ≤ v * total →
  weighted ≤ UINT64_MAX →
  let w := if negb (delta =? 0) && ((UINT64_MAX - weighted) / delta <? weight) then UINT64_MAX
           else if negb (weighted =? UINT64_MAX) then weighted + delta * weight else weighted in
  0 ≤ w ≤ v * (total + weight) ∧ w ≤ UINT64_MAX.
Proof.
  intros Hd Hw Ht Hs Hm. cbv zeta. destruct (Z.eqb_spec delta 0) as [->|Nd]; cbn [negb andb].
  - destruct (negb _); nia.
  - pose proof (Z.div_mod (UINT64_MAX - weighted) delta ltac:(lia)) as D.
    pose proof (Z.mod_pos_bound (UINT64_MAX - weighted) delta ltac:(lia)) as M.
    set (q := (UINT64_MAX - weighted) / delta) in *. destruct (Z.ltb_spec q weight) as [L|L].
    + assert (UINT64_MAX - weighted < delta * weight) by nia. assert (delta * weight ≤ v * weight) by nia. unfold UINT64_MAX in *. nia.
    + assert (delta * weight ≤ UINT64_MAX - weighted) by nia. assert (delta * weight ≤ v * weight) by nia. destruct (negb _); nia.
Qed.

(** The average of the virtual run times is never behind the clock, and never ahead
    of every thread that could run, however large the times are: the sum stops
    at the largest number and does not wrap. *)
Lemma average_between A s v : sched_ok (A := A) s → (∃ m, typed m s) → runqueue_min_vruntime s ≤ v →
  (∀ u, u ∈ thread_list s → thread_on_runqueue (get s u) = true → virtual_runtime (get s u) ≤ v) →
  runqueue_min_vruntime s ≤ runqueue_avg_vruntime s ≤ v.
Proof.
  intros [S _] [m T] Hv Hu.
  unfold runqueue_avg_vruntime. cbv zeta. set (c := runqueue_min_vruntime s) in *. assert (is_u64 c) as Hc by apply T.
  set (step := λ '(total, weighted) (t : Z), _).
  assert (∀ l, (∀ u, u ∈ l → u ∈ thread_list s) → Z.of_nat (length l) ≤ 2 ^ 23 →
    let r := foldl step (0, 0) l in
    0 ≤ r.1 ≤ 2048 * Z.of_nat (length l) ∧ 0 ≤ r.2 ≤ (v - c) * r.1 ∧ r.2 ≤ UINT64_MAX) as Inv.
  { induction l as [|u l IH] using rev_ind; intros Hl Len; [cbn; unfold UINT64_MAX; lia|].
    rewrite length_app in Len |- *. cbn [length] in *. rewrite foldl_app. cbn [foldl].
    destruct IH as (I1&I2&I3); [intros; apply Hl, elem_of_app; by left|lia|].
    destruct (foldl step (0, 0) l) as [total weighted]. cbn [fst snd] in *. unfold step.
    pose proof (weight_bound (qos (get s u))) as Wb. destruct (thread_on_runqueue (get s u)) eqn:On; cbn [negb fst snd]; [|lia].
    specialize (Hu u ltac:(apply Hl, elem_of_app; right; mem) On).
    set (delta := if c <? virtual_runtime (get s u) then virtual_runtime (get s u) - c else 0).
    assert (0 ≤ delta ≤ v - c) as Hd by (unfold delta; destruct (Z.ltb_spec c (virtual_runtime (get s u))); lia).
    pose proof (weighted_step (v - c) total weighted delta _ Hd Wb ltac:(lia) I2 I3) as St. cbv zeta in St.
    rewrite u64_small by lia. lia. }
  pose proof (nodes_bound _ _ _ (mo_nodes _ _ _ (sh_memory _ S))) as Nb. rewrite length_map, pmm_max_pages in Nb.
  specialize (Inv (thread_list s) (λ _ H, H) ltac:(lia)). cbv zeta in Inv.
  destruct (foldl step (0, 0) (thread_list s)) as [total weighted]. cbn [fst snd] in Inv. destruct Inv as (I1&I2&I3).
  destruct (Z.eqb_spec total 0) as [|N]; [lia|].
  assert (0 ≤ weighted / total ≤ v - c) as B by (split; [apply Z.div_pos; lia|apply Z.div_le_upper_bound; lia]).
  unfold add_saturated. unfold is_u64, UINT64_MAX in *. destruct (Z.ltb_spec (18446744073709551615 - c) (weighted / total)); lia.
Qed.


Lemma demo_actions_typed : Forall action_typed demo_actions.
Proof.
  unfold demo_actions. repeat (apply Forall_cons; split); try apply Forall_nil_2;
    cbn; unfold arguments_typed, is_u64, SCHED_QOS_IDLE; cbn; split_and!; try lia; repeat (apply Forall_cons; split); try apply Forall_nil_2.
  all: unfold is_u8; lia.
Qed.

