(* ===== verification/Ring.v ===== *)
(** * Circular byte buffers

    The theory shared by the components that keep a ring of bytes: the bytes
    are the cells of a map from positions to values (a cell never written is
    zero), and the [n] bytes from [head] on are read modulo the capacity. *)

From S2P Require Import Prelude.

Definition cell (m : gmap Z Z) (i : Z) : Z := default 0 (m !! i).

(** The [n] bytes that start at [head]. *)
Definition ring_contents (cap : Z) (m : gmap Z Z) (head n : Z) : list Z :=
  (λ i, cell m (i mod cap)) <$> seqZ head n.

(** Storing [data] from position [pos] on. *)
Fixpoint ring_store (cap pos : Z) (data : list Z) (m : gmap Z Z) : gmap Z Z :=
  match data with
  | [] => m
  | b :: data' => ring_store cap (pos + 1) data' (<[pos mod cap := b]> m)
  end.

Lemma length_ring_contents cap m head n : length (ring_contents cap m head n) = Z.to_nat n.
Proof. unfold ring_contents. rewrite length_fmap. apply length_seqZ. Qed.

Lemma ring_contents_nil cap m head : ring_contents cap m head 0 = [].
Proof. done. Qed.

Lemma ring_contents_ext cap m m' head n :
  (∀ i, head ≤ i < head + n → cell m (i mod cap) = cell m' (i mod cap)) →
  ring_contents cap m head n = ring_contents cap m' head n.
Proof.
  intros H. apply list_fmap_ext. intros k i Hi. apply lookup_seqZ in Hi as [-> Hk].
  apply H. lia.
Qed.

Lemma ring_contents_split cap m head a b : 0 ≤ a → 0 ≤ b →
  ring_contents cap m head (a + b) = ring_contents cap m head a ++ ring_contents cap m (head + a) b.
Proof. intros. unfold ring_contents. by rewrite seqZ_app, fmap_app. Qed.

Lemma ring_contents_cons cap m head n : 0 < n →
  ring_contents cap m head n = cell m (head mod cap) :: ring_contents cap m (head + 1) (n - 1).
Proof. intros. unfold ring_contents. rewrite seqZ_cons by lia. done. Qed.

(** Positions count modulo the capacity. *)
Lemma ring_contents_shift cap m head k n : cap ≠ 0 →
  ring_contents cap m (head + k * cap) n = ring_contents cap m head n.
Proof.
  intros Hc. unfold ring_contents. rewrite Z.add_comm, <- fmap_add_seqZ, <- list_fmap_compose.
  apply list_fmap_ext. intros ? i _. simpl. by rewrite Z.add_comm, Z.mod_add.
Qed.

Lemma ring_contents_mod cap m head n : 0 < cap →
  ring_contents cap m (head mod cap) n = ring_contents cap m head n.
Proof.
  intros Hc. rewrite (Z.div_mod head cap) at 2 by lia.
  rewrite Z.add_comm, Z.mul_comm, ring_contents_shift; [done|lia].
Qed.

Lemma mod_apart cap i j : 0 < cap → i < j < i + cap → i mod cap ≠ j mod cap.
Proof.
  intros Hc H E. pose proof (Z.div_mod i cap ltac:(lia)). pose proof (Z.div_mod j cap ltac:(lia)).
  assert (j - i = cap * (j / cap - i / cap)) as D by lia.
  destruct (Z.eq_dec (j / cap - i / cap) 0) as [Hz|Hz]; [rewrite Hz in D; lia|]. nia.
Qed.

(** A store keeps the cells it does not overlap. *)
Lemma ring_store_out cap pos data m i : 0 < cap →
  pos + Z.of_nat (length data) - cap ≤ i < pos →
  cell (ring_store cap pos data m) (i mod cap) = cell m (i mod cap).
Proof.
  intros Hc. revert pos m. induction data as [|b data IH]; intros pos m Hi; simpl in *; [done|].
  rewrite IH by lia. unfold cell. rewrite lookup_insert_ne; [done|].
  apply not_eq_sym, mod_apart; lia.
Qed.

Lemma ring_store_in cap pos data m : 0 < cap → Z.of_nat (length data) ≤ cap →
  ring_contents cap (ring_store cap pos data m) pos (Z.of_nat (length data)) = data.
Proof.
  intros Hc. revert pos m. induction data as [|b data IH]; intros pos m Hl; simpl in Hl; [done|].
  cbn [ring_store length]. rewrite ring_contents_cons by lia.
  f_equal; [|replace (Z.of_nat (S (length data)) - 1) with (Z.of_nat (length data)) by lia;
             apply IH; lia].
  rewrite ring_store_out by lia. unfold cell. by rewrite lookup_insert_eq.
Qed.

(** Appending to the bytes in the ring. *)
Lemma ring_store_append cap m head n data : 0 < cap → 0 ≤ n →
  n + Z.of_nat (length data) ≤ cap →
  ring_contents cap (ring_store cap (head + n) data m) head (n + Z.of_nat (length data)) =
    ring_contents cap m head n ++ data.
Proof.
  intros Hc Hn Hl. rewrite ring_contents_split by lia. f_equal.
  - apply ring_contents_ext. intros i Hi. apply ring_store_out; lia.
  - apply ring_store_in; lia.
Qed.

(** Removing bytes from the front. *)
Lemma ring_contents_drop cap m head n a : 0 < cap → 0 ≤ a ≤ n →
  ring_contents cap m head n =
    ring_contents cap m head a ++ ring_contents cap m ((head + a) mod cap) (n - a).
Proof.
  intros Hc Ha. rewrite ring_contents_mod by done.
  rewrite <- ring_contents_split by lia. f_equal. lia.
Qed.
