(* ===== verification/NetBytes.v ===== *)
(** * Numbers on the wire and the Internet checksum (src/src/net)

    Packets are lists of bytes.  The big-endian reads and writes, and the
    checksum IPv4, ICMP and TCP share: the complement of the one's-complement sum
    of the 16-bit words. *)

From S2P Require Import Prelude.

Definition byte_at (data : list Z) (i : Z) : Z := aget 0 data i.
Definition is_bytes (l : list Z) : Prop := Forall is_u8 l.
Definition len {A} (l : list A) : Z := Z.of_nat (length l).

(** [src/net/util/byteorder.h:5-7] net_read_be16 *)
Definition net_read_be16 (data : list Z) (i : Z) : Z := Z.lor (u16 (byte_at data i ≪ 8)) (byte_at data (i + 1)).
(** [src/net/util/byteorder.h:9-12] net_read_be32 *)
Definition net_read_be32 (data : list Z) (i : Z) : Z :=
  Z.lor (Z.lor (Z.lor (u32 (byte_at data i ≪ 24)) (byte_at data (i + 1) ≪ 16)) (byte_at data (i + 2) ≪ 8)) (byte_at data (i + 3)).
(** The bytes written.
    [src/net/util/byteorder.h:14-17] net_write_be16 *)
Definition net_write_be16 (value : Z) : list Z := [u8 (value ≫ 8); u8 value].
(** [src/net/util/byteorder.h:19-24] net_write_be32 *)
Definition net_write_be32 (value : Z) : list Z := [u8 (value ≫ 24); u8 (value ≫ 16); u8 (value ≫ 8); u8 value].

(** ** The checksum *)

(** The loop over the words; a last odd byte is the high half of a word.
    [src/net/transport/tcp.c:83-94] checksum_add *)
Fixpoint checksum_add (sum : Z) (data : list Z) : Z :=
  match data with
  | a :: b :: data' => checksum_add (u32 (sum + Z.lor (u16 (a ≪ 8)) b)) data'
  | [a] => u32 (sum + (a ≪ 8))
  | [] => sum
  end.

(** [while (sum >> 16) sum = (sum & 0xFFFF) + (sum >> 16);]; three rounds are
    enough for 32 bits ([fold_sum_spec]). *)
Fixpoint fold_sum (fuel : nat) (sum : Z) : Z :=
  match fuel with
  | O => sum
  | S fuel' => if sum ≫ 16 =? 0 then sum else fold_sum fuel' (u32 (Z.land sum 65535 + (sum ≫ 16)))
  end.
Definition complement16 (sum : Z) : Z := u16 (Z.lnot sum).

(** [src/net/network/ipv4.c:21-31] ipv4_checksum *)
Definition ipv4_checksum (data : list Z) : Z := complement16 (fold_sum 3 (checksum_add 0 data)).

(** ** Reading back *)

Lemma lor_shift a b k : 0 ≤ k → 0 ≤ b < 2 ^ k → Z.lor (a ≪ k) b = a * 2 ^ k + b.
Proof.
  intros Hk Hb. assert (Z.land (a ≪ k) b = 0) as D.
  { apply Z.bits_inj_0. intros n. rewrite Z.land_spec. destruct (Z.ltb_spec n k).
    - rewrite Z.shiftl_spec_low by lia. done.
    - destruct (Z.eq_dec b 0) as [->|]; [by rewrite Z.bits_0, andb_false_r|].
      rewrite (Z.bits_above_log2 b), andb_false_r; [done|lia|]. assert (Z.log2 b < k) by (apply Z.log2_lt_pow2; lia). lia. }
  rewrite <- Z.lxor_lor, <- Z.add_nocarry_lxor, Z.shiftl_mul_pow2 by done. done.
Qed.

Lemma byte_range data i : is_bytes data → is_u8 (byte_at data i).
Proof.
  intros B. unfold byte_at, aget. rewrite nth_lookup. destruct (data !! Z.to_nat i) as [x|] eqn:E; cbn; [|by unfold is_u8].
  by eapply Forall_lookup_1 in E.
Qed.

Lemma be16_value a b : is_u8 a → is_u8 b → Z.lor (u16 (a ≪ 8)) b = 256 * a + b.
Proof.
  unfold is_u8. intros Ha Hb. rewrite u16_small by (rewrite Z.shiftl_mul_pow2 by lia; lia). rewrite lor_shift by lia. lia.
Qed.

Lemma read_be16_value data i : is_bytes data → net_read_be16 data i = 256 * byte_at data i + byte_at data (i + 1).
Proof. intros B. apply be16_value; by apply byte_range. Qed.

Lemma read_be16_range data i : is_bytes data → is_u16 (net_read_be16 data i).
Proof.
  intros B. rewrite read_be16_value by done. pose proof (byte_range data i B). pose proof (byte_range data (i + 1) B).
  unfold is_u8, is_u16 in *. lia.
Qed.

Lemma read_be32_value data i : is_bytes data → net_read_be32 data i =
  16777216 * byte_at data i + 65536 * byte_at data (i + 1) + 256 * byte_at data (i + 2) + byte_at data (i + 3).
Proof.
  intros B. pose proof (byte_range data i B) as H0. pose proof (byte_range data (i + 1) B) as H1.
  pose proof (byte_range data (i + 2) B) as H2. pose proof (byte_range data (i + 3) B) as H3.
  unfold net_read_be32. unfold is_u8 in *. rewrite u32_small by (rewrite Z.shiftl_mul_pow2 by lia; lia).
  set (a := byte_at data i) in *. set (b := byte_at data (i + 1)) in *. set (c := byte_at data (i + 2)) in *.
  set (d := byte_at data (i + 3)) in *.
  replace (b ≪ 16) with ((b * 256) ≪ 8) by (rewrite !Z.shiftl_mul_pow2 by lia; lia).
  replace (a ≪ 24) with ((a * 65536) ≪ 8) by (rewrite !Z.shiftl_mul_pow2 by lia; lia).
  rewrite <- !Z.shiftl_lor. replace (a * 65536) with ((a * 256) ≪ 8) by (rewrite Z.shiftl_mul_pow2 by lia; lia).
  replace (b * 256) with (b ≪ 8) by (rewrite Z.shiftl_mul_pow2 by lia; lia).
  rewrite <- Z.shiftl_lor, (Z.mul_comm a 256), Z.mul_comm. replace (a * 256) with (a ≪ 8) by (rewrite Z.shiftl_mul_pow2 by lia; lia).
  rewrite (lor_shift a b 8), (lor_shift _ c 8), lor_shift by lia. lia.
Qed.

Lemma read_be32_range data i : is_bytes data → is_u32 (net_read_be32 data i).
Proof.
  intros B. rewrite read_be32_value by done. pose proof (byte_range data i B). pose proof (byte_range data (i + 1) B).
  pose proof (byte_range data (i + 2) B). pose proof (byte_range data (i + 3) B). unfold is_u8, is_u32 in *. lia.
Qed.

Lemma write_be16_bytes v : is_bytes (net_write_be16 v).
Proof. repeat constructor; apply u8_range. Qed.
Lemma write_be32_bytes v : is_bytes (net_write_be32 v).
Proof. repeat constructor; apply u8_range. Qed.
Lemma length_be16 v : length (net_write_be16 v) = 2%nat.
Proof. done. Qed.
Lemma length_be32 v : length (net_write_be32 v) = 4%nat.
Proof. done. Qed.

Lemma byte_at_app_r l k i : 0 ≤ i → byte_at (l ++ k) (Z.of_nat (length l) + i) = byte_at k i.
Proof.
  intros Hi. unfold byte_at, aget. rewrite app_nth2 by lia. f_equal. lia.
Qed.
Lemma byte_at_app_l l k i : 0 ≤ i < Z.of_nat (length l) → byte_at (l ++ k) i = byte_at l i.
Proof. intros Hi. unfold byte_at, aget. apply app_nth1. lia. Qed.

(** What is written at some place of a packet is read there. *)
Lemma read_write_be16 l v k : is_bytes l → is_bytes k → is_u16 v →
  net_read_be16 (l ++ net_write_be16 v ++ k) (Z.of_nat (length l)) = v.
Proof.
  intros Bl Bk Hv. rewrite read_be16_value by (apply Forall_app; split; [done|]; apply Forall_app; split; [apply write_be16_bytes|done]).
  rewrite <- (Z.add_0_r (Z.of_nat (length l))) at 1. rewrite !byte_at_app_r by lia.
  change (byte_at (net_write_be16 v ++ k) 0) with (u8 (v ≫ 8)). change (byte_at (net_write_be16 v ++ k) 1) with (u8 v).
  unfold is_u16 in Hv. rewrite Z.shiftr_div_pow2 by lia. rewrite u8_small by (split; [apply Z.div_pos; lia|apply Z.div_lt_upper_bound; lia]).
  unfold u8. pose proof (Z.div_mod v 256). change (2 ^ 8) with 256. lia.
Qed.

Lemma read_write_be32 l v k : is_bytes l → is_bytes k → is_u32 v →
  net_read_be32 (l ++ net_write_be32 v ++ k) (Z.of_nat (length l)) = v.
Proof.
  intros Bl Bk Hv. rewrite read_be32_value by (apply Forall_app; split; [done|]; apply Forall_app; split; [apply write_be32_bytes|done]).
  rewrite <- (Z.add_0_r (Z.of_nat (length l))) at 1. rewrite !byte_at_app_r by lia.
  change (byte_at (net_write_be32 v ++ k) 0) with (u8 (v ≫ 24)). change (byte_at (net_write_be32 v ++ k) 1) with (u8 (v ≫ 16)).
  change (byte_at (net_write_be32 v ++ k) 2) with (u8 (v ≫ 8)). change (byte_at (net_write_be32 v ++ k) 3) with (u8 v).
  unfold is_u32 in Hv. rewrite !Z.shiftr_div_pow2 by lia. unfold u8. change (2 ^ 8) with 256. change (2 ^ 16) with (256 * 256).
  change (2 ^ 24) with (256 * 256 * 256). rewrite <- !Z.div_div by lia.
  pose proof (Z.div_mod v 256 ltac:(lia)). pose proof (Z.div_mod (v / 256) 256 ltac:(lia)).
  pose proof (Z.div_mod (v / 256 / 256) 256 ltac:(lia)).
  rewrite (Z.mod_small (v / 256 / 256 / 256)); [lia|]. rewrite !Z.div_div by lia. split; [apply Z.div_pos; lia|apply Z.div_lt_upper_bound; lia].
Qed.

(** ** What the checksum computes *)

(** The sum of the words, without a width. *)
Fixpoint words (data : list Z) : Z :=
  match data with
  | a :: b :: data' => 256 * a + b + words data'
  | [a] => 256 * a
  | [] => 0
  end.

(** Induction two bytes at a time. *)
Lemma bytes_ind (P : list Z → Prop) : P [] → (∀ a, P [a]) → (∀ a b l, P l → P (a :: b :: l)) → ∀ l, P l.
Proof.
  intros H0 H1 H2. assert (∀ l, P l ∧ ∀ a, P (a :: l)) as H; [|intros l; apply H].
  induction l as [|x l [IH1 IH2]]; [by split|]. split; [apply IH2|]. intros a. by apply H2.
Qed.

Lemma words_range data : is_bytes data → 0 ≤ words data ≤ 32768 * (Z.of_nat (length data) + 1).
Proof.
  induction data as [|a|a b l IH] using bytes_ind; intros B; cbn [words length].
  - lia.
  - unfold is_bytes in B. rewrite Forall_singleton in B. unfold is_u8 in B. lia.
  - apply Forall_cons in B as [Ba B]. apply Forall_cons in B as [Bb B]. unfold is_u8 in *. specialize (IH B). lia.
Qed.

Lemma words_app l k : Nat.Even (length l) → words (l ++ k) = words l + words k.
Proof.
  induction l as [|a|a b l IH] using bytes_ind; intros E.
  - done.
  - exfalso. destruct E as [n E]. cbn in E. lia.
  - cbn. rewrite IH; [lia|]. destruct E as [n E]. cbn in E. exists (n - 1)%nat. lia.
Qed.

Lemma words_be16 v : is_u16 v → words (net_write_be16 v) = v.
Proof.
  intros H. unfold is_u16 in H. cbn [words net_write_be16]. rewrite Z.shiftr_div_pow2 by lia.
  rewrite u8_small by (split; [apply Z.div_pos; lia|apply Z.div_lt_upper_bound; lia]).
  unfold u8. pose proof (Z.div_mod v 256). change (2 ^ 8) with 256. lia.
Qed.

Lemma checksum_add_spec data : ∀ sum, is_bytes data → 0 ≤ sum → sum + 32768 * (Z.of_nat (length data) + 1) < 2 ^ 32 →
  checksum_add sum data = sum + words data.
Proof.
  induction data as [|a|a b l IH] using bytes_ind; intros sum B Hs Hb; cbn [checksum_add words length] in *.
  - lia.
  - unfold is_bytes in B. rewrite Forall_singleton in B. unfold is_u8 in B. rewrite Z.shiftl_mul_pow2 by lia. rewrite u32_small; lia.
  - apply Forall_cons in B as [Ba B]. apply Forall_cons in B as [Bb B]. rewrite be16_value by done. unfold is_u8 in *.
    rewrite u32_small by lia. rewrite IH; [lia|done|lia|lia].
Qed.

(** Folding keeps the residue modulo 65535, and stops below 65536. *)
Lemma fold_sum_spec sum : is_u32 sum →
  0 ≤ fold_sum 3 sum < 65536 ∧ fold_sum 3 sum mod 65535 = sum mod 65535 ∧ (fold_sum 3 sum = 0 ↔ sum = 0).
Proof.
  intros H. assert (∀ n s, 0 ≤ s < 65536 → fold_sum n s = s) as Stop.
  { intros [|n] s Hs; [done|]. cbn. rewrite Z.shiftr_div_pow2 by lia. by rewrite Z.div_small by lia. }
  assert (∀ n s, is_u32 s → 65536 ≤ s → fold_sum (S n) s = fold_sum n (s mod 65536 + s / 65536)) as Go.
  { intros n s Hs L. cbn [fold_sum]. rewrite Z.shiftr_div_pow2 by lia. change (2 ^ 16) with 65536.
    destruct (Z.eqb_spec (s / 65536) 0) as [E|_]; [pose proof (Z.div_mod s 65536 ltac:(lia)); pose proof (Z.mod_pos_bound s 65536 ltac:(lia)); lia|].
    change 65535 with (Z.ones 16). rewrite Z.land_ones by lia. change (2 ^ 16) with 65536.
    rewrite u32_small; [done|]. unfold is_u32 in Hs. pose proof (Z.mod_pos_bound s 65536 ltac:(lia)).
    assert (0 ≤ s / 65536 < 65536) by (split; [apply Z.div_pos; lia|apply Z.div_lt_upper_bound; lia]). lia. }
  assert (∀ s, is_u32 s → (s mod 65536 + s / 65536) mod 65535 = s mod 65535) as Mod.
  { intros s _. rewrite (Z.div_mod s 65536) at 3 by lia.
    replace (65536 * (s / 65536) + s mod 65536) with (s mod 65536 + s / 65536 + (s / 65536) * 65535) by lia.
    by rewrite Z.mod_add by lia. }
  unfold is_u32 in *. destruct (Z.lt_ge_cases sum 65536) as [L|L]; [rewrite !Stop by lia; lia|].
  rewrite Go by lia. pose proof (Mod sum H) as M1. pose proof (Z.mod_pos_bound sum 65536 ltac:(lia)).
  assert (1 ≤ sum / 65536 < 65536) by (split; [apply Z.div_le_lower_bound; lia|apply Z.div_lt_upper_bound; lia]).
  set (s1 := sum mod 65536 + sum / 65536) in *. destruct (Z.lt_ge_cases s1 65536) as [L1|L1]; [rewrite !Stop by lia; lia|].
  rewrite Go by lia. pose proof (Mod s1 ltac:(lia)) as M2. pose proof (Z.mod_pos_bound s1 65536 ltac:(lia)).
  assert (1 ≤ s1 / 65536 < 2) by (split; [apply Z.div_le_lower_bound; lia|apply Z.div_lt_upper_bound; lia]).
  assert (s1 mod 65536 ≤ 65535 - 1).
  { pose proof (Z.div_mod s1 65536 ltac:(lia)). lia. }
  rewrite !Stop by lia. lia.
Qed.

(** A sum is accepted when it is a multiple of 65535, but not zero. *)
Lemma complement_zero sum : is_u32 sum → complement16 (fold_sum 3 sum) = 65535 - fold_sum 3 sum ∧
  (complement16 (fold_sum 3 sum) = 0 ↔ sum ≠ 0 ∧ sum mod 65535 = 0).
Proof.
  intros H. destruct (fold_sum_spec sum H) as (R&M&Zr). set (r := fold_sum 3 sum) in *.
  assert (complement16 r = 65535 - r) as E.
  { unfold complement16, u16, Z.lnot. replace (Z.pred (- r)) with (65535 - r + (-1) * 2 ^ 16) by lia.
    rewrite Z.mod_add by lia. apply Z.mod_small. lia. }
  split; [done|]. rewrite E. split.
  - intros Er. assert (r = 65535) as Hr by lia. rewrite Hr in *. rewrite Z.mod_same in M by lia. split; [lia|done].
  - intros [N M']. rewrite M' in M. assert (r ≠ 0) by tauto. pose proof (Z.div_mod r 65535 ltac:(lia)). nia.
Qed.

Lemma checksum_words data : is_bytes data → Z.of_nat (length data) < 65536 →
  is_u32 (words data) ∧ checksum_add 0 data = words data.
Proof. intros B L. pose proof (words_range data B). unfold is_u32. rewrite checksum_add_spec by (done || lia). lia. Qed.

(** The complement of a sum makes up for it. *)
Lemma complement_verifies s : 0 ≤ s → s + 65535 < 2 ^ 32 →
  is_u16 (complement16 (fold_sum 3 s)) ∧ complement16 (fold_sum 3 (s + complement16 (fold_sum 3 s))) = 0.
Proof.
  intros H0 H1. assert (is_u32 s) as R0 by (unfold is_u32; lia). destruct (complement_zero s R0) as [C0 _].
  destruct (fold_sum_spec s R0) as (F1&F2&F3). set (c := complement16 (fold_sum 3 s)) in *.
  split; [unfold is_u16; lia|]. apply complement_zero; [unfold is_u32; lia|]. split.
  - destruct (Z.eq_dec s 0); lia.
  - rewrite C0. set (f := fold_sum 3 s) in *. pose proof (Z.div_mod s 65535 ltac:(lia)). pose proof (Z.div_mod f 65535 ltac:(lia)).
    replace (s + (65535 - f)) with ((s / 65535 - f / 65535 + 1) * 65535) by lia. apply Z.mod_mul. lia.
Qed.

Lemma words_around l v k : Nat.Even (length l) → is_u16 v → words (l ++ net_write_be16 v ++ k) = words l + words k + v.
Proof. intros E Hv. rewrite words_app by done. rewrite words_app by by exists 1%nat. rewrite words_be16 by done. lia. Qed.
Lemma bytes_around l v k : is_bytes l → is_bytes k → is_bytes (l ++ net_write_be16 v ++ k).
Proof. intros. repeat (apply Forall_app; split); [done|apply write_be16_bytes|done]. Qed.

(** The checksum of a packet, put into the two bytes that held zero, makes the
    packet verify. *)
Lemma checksum_verifies l k : is_bytes l → is_bytes k → Nat.Even (length l) → Z.of_nat (length l + length k) < 65534 →
  ipv4_checksum (l ++ net_write_be16 (ipv4_checksum (l ++ net_write_be16 0 ++ k)) ++ k) = 0.
Proof.
  intros Bl Bk E L. pose proof (words_range l Bl). pose proof (words_range k Bk).
  assert (∀ v, is_u16 v → checksum_add 0 (l ++ net_write_be16 v ++ k) = words l + words k + v) as Wd.
  { intros v Hv. rewrite (proj2 (checksum_words _ (bytes_around l v k Bl Bk) ltac:(rewrite !length_app, length_be16; lia))). by apply words_around. }
  unfold ipv4_checksum at 2. rewrite Wd, Z.add_0_r by done.
  destruct (complement_verifies (words l + words k) ltac:(lia) ltac:(lia)) as [C1 C2]. unfold ipv4_checksum. by rewrite Wd.
Qed.

(** A packet in which one word was changed no longer verifies, unless the word
    changed between the two zeros of one's complement. *)
Lemma checksum_detects l k v w : is_bytes l → is_bytes k → Nat.Even (length l) → Z.of_nat (length l + length k) < 65534 →
  is_u16 v → is_u16 w → ipv4_checksum (l ++ net_write_be16 v ++ k) = 0 → ipv4_checksum (l ++ net_write_be16 w ++ k) = 0 →
  v = w ∨ (v = 0 ∧ w = 65535) ∨ (v = 65535 ∧ w = 0).
Proof.
  intros Bl Bk E L Hv Hw. assert (∀ x, is_bytes (l ++ net_write_be16 x ++ k)) as B
    by (intros; repeat (apply Forall_app; split); [done|apply write_be16_bytes|done]).
  assert (∀ x, Z.of_nat (length (l ++ net_write_be16 x ++ k)) < 65536) as Ln by (intros; rewrite !length_app, length_be16; lia).
  assert (∀ x, is_u16 x → words (l ++ net_write_be16 x ++ k) = words l + x + words k) as Wd.
  { intros x Hx. rewrite words_app by done. rewrite words_app by by exists 1%nat. rewrite words_be16 by done. lia. }
  unfold ipv4_checksum. destruct (checksum_words _ (B v) (Ln v)) as [R1 E1], (checksum_words _ (B w) (Ln w)) as [R2 E2].
  rewrite E1, E2. intros [_ M1]%complement_zero [_ M2]%complement_zero; [|done..]. rewrite Wd in M1, M2 by done.
  pose proof (Z.div_mod (words l + v + words k) 65535 ltac:(lia)). pose proof (Z.div_mod (words l + w + words k) 65535 ltac:(lia)).
  unfold is_u16 in *. assert (v - w = 65535 * ((words l + v + words k) / 65535 - (words l + w + words k) / 65535)) as D by lia.
  set (q := (words l + v + words k) / 65535 - (words l + w + words k) / 65535) in D. assert (q = 0 ∨ q = 1 ∨ q = -1) as [Q|[Q|Q]] by lia; rewrite Q in D; lia.
Qed.

(** ** Packets put together *)

Lemma is_bytes_app l k : is_bytes l → is_bytes k → is_bytes (l ++ k).
Proof. intros A B. by apply Forall_app. Qed.
Lemma is_bytes_one b l : is_u8 b → is_bytes l → is_bytes (b :: l).
Proof. intros A B. by apply Forall_cons. Qed.
Lemma is_bytes_nil : is_bytes [].
Proof. apply Forall_nil. done. Qed.
Create HintDb bytes.
#[export] Hint Resolve is_bytes_app is_bytes_one is_bytes_nil write_be16_bytes write_be32_bytes : bytes.

(** What is at position [i] behind [i] bytes. *)
Lemma read16_at i l v k : Z.of_nat (length l) = i → is_bytes l → is_bytes k → is_u16 v → net_read_be16 (l ++ net_write_be16 v ++ k) i = v.
Proof. intros <-. apply read_write_be16. Qed.
Lemma read32_at i l v k : Z.of_nat (length l) = i → is_bytes l → is_bytes k → is_u32 v → net_read_be32 (l ++ net_write_be32 v ++ k) i = v.
Proof. intros <-. apply read_write_be32. Qed.

(** ** Arrays

    A byte array of the program; a store outside of it has no meaning. *)
Definition store (i v : Z) (buffer : list Z) : option (list Z) :=
  if (0 <=? i) && (i <? len buffer) then Some (aset buffer i v) else None.
(** [memcpy(buffer + start, data, len data)], a byte after the other. *)
Fixpoint memcpy (start : Z) (data buffer : list Z) : option (list Z) :=
  match data with
  | [] => Some buffer
  | v :: data => match store start v buffer with Some buffer => memcpy (start + 1) data buffer | None => None end
  end.

Lemma store_fits front v w back : store (len front) v (front ++ w :: back) = Some (front ++ v :: back).
Proof.
  unfold store, len, aset. rewrite length_app. cbn [length]. destruct (Z.leb_spec 0 (Z.of_nat (length front))); [|lia].
  destruct (Z.ltb_spec (Z.of_nat (length front)) (Z.of_nat (length front + S (length back)))); [|lia]. cbn [andb].
  by rewrite Nat2Z.id, insert_app_r_alt, Nat.sub_diag by lia.
Qed.
Lemma memcpy_fits data : ∀ front old back, length old = length data → memcpy (len front) data (front ++ old ++ back) = Some (front ++ data ++ back).
Proof.
  induction data as [|v data IH]; intros front old back L; (destruct old as [|w old]; [|try done]); [done|done|]. cbn [memcpy app].
  rewrite store_fits. replace (len front + 1) with (len (front ++ [v])) by (unfold len; rewrite length_app; cbn [length]; lia).
  replace (front ++ v :: old ++ back) with ((front ++ [v]) ++ old ++ back) by (by rewrite <- app_assoc).
  rewrite IH by (cbn in L; lia). by rewrite <- app_assoc.
Qed.
(** A copy that is too long leaves the array. *)
Lemma memcpy_overruns data : ∀ start buffer, 0 ≤ start ≤ len buffer → len buffer < start + len data → memcpy start data buffer = None.
Proof.
  induction data as [|v data IH]; intros start buffer R L; [unfold len in *; cbn in L; lia|]. cbn [memcpy]. unfold store.
  destruct (Z.leb_spec 0 start), (Z.ltb_spec start (len buffer)); try lia; try done. cbn [andb].
  assert (len (aset buffer start v) = len buffer) as E by (unfold len; by rewrite length_aset).
  apply IH; rewrite E; unfold len in *; cbn [length] in L; lia.
Qed.
