(* ===== verification/Tcp.v ===== *)
(** * TCP (src/src/net/transport/tcp.c)

    Sixteen sockets, each with two rings of 16 KiB.  Every entry point holds
    [tcp_lock]; the calls that wait release it in [wait_step] and look at their
    socket again, so what they do between two waits is one round here.  A
    function that works on one socket [s] of the table has the socket and the
    rest of the state as arguments and results; the table keeps what it had
    until the caller writes [s] back, and the one function that looks at another
    socket meanwhile, [become_established], looks at the parent.

    IPv4 below is an interface, [Ipv4]: what it answers decides whether a
    segment waits for the address resolution.  [now] is what the timer shows; it
    does not advance while the lock is held. *)

From S2P Require Import Prelude NetBytes Ring.

(** ** Constants *)

(** [src/net/transport/tcp.c:8-8] TCP_FLAG_FIN *)
Definition TCP_FLAG_FIN : Z := 1.
(** [src/net/transport/tcp.c:9-9] TCP_FLAG_SYN *)
Definition TCP_FLAG_SYN : Z := 2.
(** [src/net/transport/tcp.c:10-10] TCP_FLAG_RST *)
Definition TCP_FLAG_RST : Z := 4.
(** [src/net/transport/tcp.c:11-11] TCP_FLAG_PSH *)
Definition TCP_FLAG_PSH : Z := 8.
(** [src/net/transport/tcp.c:12-12] TCP_FLAG_ACK *)
Definition TCP_FLAG_ACK : Z := 16.
(** [src/net/transport/tcp.h:7-7] TCP_HEADER_LENGTH *)
Definition TCP_HEADER_LENGTH : Z := 20.
(** [src/net/transport/tcp.h:8-8] TCP_SOCKET_CAPACITY *)
Definition TCP_SOCKET_CAPACITY : nat := 16.
(** [src/net/transport/tcp.h:9-9] TCP_BUFFER_SIZE *)
Definition TCP_BUFFER_SIZE : Z := 16384.
(** The payload of an IPv4 packet without the header.
    [src/net/transport/tcp.h:10-10] TCP_MAX_MSS *)
Definition TCP_MAX_MSS : Z := 1500 - 20 - TCP_HEADER_LENGTH.
(** [src/net/transport/tcp.h:11-11] TCP_ACCEPT_BACKLOG_MAX *)
Definition TCP_ACCEPT_BACKLOG_MAX : Z := 4.
(** [src/net/transport/tcp.h:12-12] TCP_TIMEOUT_NONE *)
Definition TCP_TIMEOUT_NONE : Z := 0.
(** [src/net/transport/tcp.h:13-13] TCP_TIMEOUT_FOREVER *)
Definition TCP_TIMEOUT_FOREVER : Z := 4294967295.
(** [src/net/transport/tcp.h:15-15] TCP_OK *)
Definition TCP_OK : Z := 0.
(** [src/net/transport/tcp.h:16-16] TCP_ERR_INVALID *)
Definition TCP_ERR_INVALID : Z := -1.
(** [src/net/transport/tcp.h:17-17] TCP_ERR_NO_SOCKET *)
Definition TCP_ERR_NO_SOCKET : Z := -2.
(** [src/net/transport/tcp.h:18-18] TCP_ERR_NOT_CONNECTED *)
Definition TCP_ERR_NOT_CONNECTED : Z := -3.
(** [src/net/transport/tcp.h:19-19] TCP_ERR_RESET *)
Definition TCP_ERR_RESET : Z := -4.
(** [src/net/transport/tcp.h:20-20] TCP_ERR_TIMEOUT *)
Definition TCP_ERR_TIMEOUT : Z := -5.
(** [src/net/transport/tcp.h:21-21] TCP_ERR_NO_ROUTE *)
Definition TCP_ERR_NO_ROUTE : Z := -6.
(** [src/net/transport/tcp.h:22-22] TCP_ERR_IN_USE *)
Definition TCP_ERR_IN_USE : Z := -7.
(** [src/net/transport/tcp.h:23-23] TCP_ERR_WOULD_BLOCK *)
Definition TCP_ERR_WOULD_BLOCK : Z := -8.
(** [src/net/transport/tcp.c:18-18] TCP_DEFAULT_MSS *)
Definition TCP_DEFAULT_MSS : Z := 536.
(** [src/net/transport/tcp.c:14-14] TCP_OPTION_END *)
Definition TCP_OPTION_END : Z := 0.
(** [src/net/transport/tcp.c:15-15] TCP_OPTION_NOP *)
Definition TCP_OPTION_NOP : Z := 1.
(** [src/net/transport/tcp.c:16-16] TCP_OPTION_MSS *)
Definition TCP_OPTION_MSS : Z := 2.
(** [src/net/transport/tcp.c:19-19] TCP_INITIAL_RTO_MS *)
Definition TCP_INITIAL_RTO_MS : Z := 1000.
(** [src/net/transport/tcp.c:20-20] TCP_MIN_RTO_MS *)
Definition TCP_MIN_RTO_MS : Z := 200.
(** [src/net/transport/tcp.c:21-21] TCP_MAX_RTO_MS *)
Definition TCP_MAX_RTO_MS : Z := 60000.
(** [src/net/transport/tcp.c:22-22] TCP_MAX_RETRIES *)
Definition TCP_MAX_RETRIES : Z := 8.
(** [src/net/transport/tcp.c:23-23] TCP_MAX_SYN_RETRIES *)
Definition TCP_MAX_SYN_RETRIES : Z := 5.
(** [src/net/transport/tcp.c:24-24] TCP_MAX_ARP_RETRIES *)
Definition TCP_MAX_ARP_RETRIES : Z := 40.
(** [src/net/transport/tcp.c:25-25] TCP_ARP_RETRY_MS *)
Definition TCP_ARP_RETRY_MS : Z := 50.
(** [src/net/transport/tcp.c:26-26] TCP_TIME_WAIT_MS *)
Definition TCP_TIME_WAIT_MS : Z := 30000.
(** [src/net/transport/tcp.c:27-27] TCP_EPHEMERAL_FIRST *)
Definition TCP_EPHEMERAL_FIRST : Z := 49152.
(** [src/net/transport/tcp.c:28-28] TCP_EPHEMERAL_LAST *)
Definition TCP_EPHEMERAL_LAST : Z := 65535.
(** [src/net/transport/tcp.c:29-29] TCP_INITIAL_CWND_SEGMENTS *)
Definition TCP_INITIAL_CWND_SEGMENTS : Z := 3.
(** [src/net/network/ipv4.h:10-10] IPV4_PROTOCOL_TCP *)
Definition IPV4_PROTOCOL_TCP : Z := 6.
(** [src/net/network/ipv4.h:16-16] IPV4_SEND_WAITING_ARP *)
Definition IPV4_SEND_WAITING_ARP : Z := 0.

(** The sign of the difference as a 32-bit number.
    [src/net/transport/tcp.c:31-31] SEQ_LT *)
Definition SEQ_LT (a b : Z) : bool := i32 (a - b) <? 0.
(** [src/net/transport/tcp.c:32-32] SEQ_LEQ *)
Definition SEQ_LEQ (a b : Z) : bool := i32 (a - b) <=? 0.
(** [src/net/transport/tcp.c:33-33] SEQ_GT *)
Definition SEQ_GT (a b : Z) : bool := 0 <? i32 (a - b).

(** ** State *)

(** [src/net/transport/tcp.h:25-37] tcp_state *)
Inductive tcp_state :=
| TCP_STATE_CLOSED | TCP_STATE_LISTEN | TCP_STATE_SYN_SENT | TCP_STATE_SYN_RECEIVED | TCP_STATE_ESTABLISHED
| TCP_STATE_FIN_WAIT_1 | TCP_STATE_FIN_WAIT_2 | TCP_STATE_CLOSE_WAIT | TCP_STATE_CLOSING | TCP_STATE_LAST_ACK
| TCP_STATE_TIME_WAIT.
#[export] Instance tcp_state_eq_dec : EqDecision tcp_state.
Proof. solve_decision. Defined.

(** [src/net/transport/tcp.c:36-69] tcp_socket *)
Record tcp_socket := TcpSocket {
  used : bool;
  app_closed : bool;
  owner : Z;
  state : tcp_state;
  error : Z;
  device : Z;
  local_address : Z;
  remote_address : Z;
  local_port : Z;
  remote_port : Z;
  parent : Z;
  backlog : Z;
  accept_queue : list Z;
  accept_count : Z;
  iss : Z;
  snd_una : Z;
  snd_nxt : Z;
  snd_max : Z;
  snd_wnd : Z;
  snd_wl1 : Z;
  snd_wl2 : Z;
  irs : Z;
  rcv_nxt : Z;
  mss : Z;
  cwnd : Z;
  ssthresh : Z;
  dup_acks : Z;
  in_recovery : bool;
  fin_queued : bool;
  fin_seq_set : bool;
  fin_received : bool;
  fin_seq : Z;
  timer_armed : bool;
  arp_pending : bool;
  timer_deadline : Z;
  rto_ms : Z;
  srtt_ms : Z;
  rttvar_ms : Z;
  retries : Z;
  arp_tries : Z;
  rtt_active : bool;
  rtt_valid : bool;
  rtt_seq : Z;
  rtt_start : Z;
  time_wait_deadline : Z;
  tx_start : Z;
  tx_length : Z;
  rx_start : Z;
  rx_length : Z;
  tx_buffer : gmap Z Z;
  rx_buffer : gmap Z Z;
}.
#[export] Instance eta_tcp_socket : Eta tcp_socket := λ s,
  TcpSocket (used s) (app_closed s) (owner s) (state s) (error s) (device s) (local_address s) (remote_address s)
    (local_port s) (remote_port s) (parent s) (backlog s) (accept_queue s) (accept_count s) (iss s) (snd_una s)
    (snd_nxt s) (snd_max s) (snd_wnd s) (snd_wl1 s) (snd_wl2 s) (irs s) (rcv_nxt s) (mss s) (cwnd s) (ssthresh s)
    (dup_acks s) (in_recovery s) (fin_queued s) (fin_seq_set s) (fin_received s) (fin_seq s) (timer_armed s)
    (arp_pending s) (timer_deadline s) (rto_ms s) (srtt_ms s) (rttvar_ms s) (retries s) (arp_tries s) (rtt_active s)
    (rtt_valid s) (rtt_seq s) (rtt_start s) (time_wait_deadline s) (tx_start s) (tx_length s) (rx_start s)
    (rx_length s) (tx_buffer s) (rx_buffer s).

(** Zeroed memory.
    [src/net/transport/tcp.c:147-151] socket_reset *)
Definition socket_reset : tcp_socket :=
  TcpSocket false false 0 TCP_STATE_CLOSED 0 0 0 0 0 0 (-1) 0 [0; 0; 0; 0] 0 0 0 0 0 0 0 0 0 0 0 0 0 0
    false false false false 0 false false 0 0 0 0 0 0 false false 0 0 0 0 0 0 0 ∅ ∅.

(** [src/net/transport/tcp.h:39-48] tcp_stats *)
Record tcp_stats := TcpStats {
  segments_received : Z;
  segments_sent : Z;
  bad_checksum : Z;
  retransmits : Z;
  fast_retransmits : Z;
  resets_sent : Z;
  connections_established : Z;
  connections_timed_out : Z;
}.
#[export] Instance eta_tcp_stats : Eta tcp_stats := λ s,
  TcpStats (segments_received s) (segments_sent s) (bad_checksum s) (retransmits s) (fast_retransmits s)
    (resets_sent s) (connections_established s) (connections_timed_out s).

(** The interface of IPv4 (device, source, destination, protocol and payload), of
    the configuration of a device (address, mask and gateway) and of the list of
    devices. *)
Class Ipv4 (W : Type) := {
  ipv4_send_from : Z → Z → Z → Z → list Z → W → Z * W;
  ipv4_get_config : Z → W → option (Z * Z * Z);
  net_devices : W → list Z;
}.

(** The static variables, and the layers below.
    [src/net/transport/tcp.c:71-76] sockets *)
Record tcp (W : Type) := Tcp {
  sockets : list tcp_socket;
  stats : tcp_stats;
  next_ephemeral : Z;
  isn_counter : Z;
  net : W;
}.
Arguments Tcp {W} _ _ _ _ _.
Arguments sockets {W} _.
Arguments stats {W} _.
Arguments next_ephemeral {W} _.
Arguments isn_counter {W} _.
Arguments net {W} _.
#[export] Instance eta_tcp W : Eta (tcp W) := λ t, Tcp (sockets t) (stats t) (next_ephemeral t) (isn_counter t) (net t).

Section tcp.
Context {W : Type} `{Ipv4 W}.
Implicit Types (s : tcp_socket) (t : tcp W).

(** [sockets[i]], and a socket written back. *)
Definition socket_at t (i : Z) : tcp_socket := aget socket_reset (sockets t) i.
Definition put_socket (i : Z) s t : tcp W := t <| sockets := aset (sockets t) i s |>.
Definition count_stat (f : tcp_stats → tcp_stats) t : tcp W := t <| stats := f (stats t) |>.

(** ** Numbers *)

(** [src/net/transport/tcp.c:124-124] min_u32 *)
Definition min_u32 (a b : Z) : Z := if a <? b then a else b.
(** [src/net/transport/tcp.c:125-125] max_u32 *)
Definition max_u32 (a b : Z) : Z := if b <? a then a else b.

(** The checksum over the pseudo header and the segment.
    [src/net/transport/tcp.c:96-110] tcp_checksum *)
Definition tcp_checksum (source destination : Z) (segment : list Z) : Z :=
  let pseudo := net_write_be32 source ++ net_write_be32 destination ++ [0; IPV4_PROTOCOL_TCP] ++
                net_write_be16 (u16 (Z.of_nat (length segment))) in
  let sum := checksum_add 0 pseudo in
  complement16 (fold_sum 3 (checksum_add sum segment)).

(** [src/net/transport/tcp.c:112-116] generate_isn *)
Definition generate_isn (now : Z) t : Z * tcp W :=
  let c := u32 (isn_counter t + 64000) in
  (u32 (u32 (now * 250) + c), t <| isn_counter := c |>).

(** [src/net/transport/tcp.c:118-122] receive_window *)
Definition receive_window s : Z :=
  let free_space := u32 (TCP_BUFFER_SIZE - rx_length s) in
  if 65535 <? free_space then 65535 else free_space.

(** The bytes of a buffer from a position on, without wrapping. *)
Definition bytes_from (ring : gmap Z Z) (position length : Z) : list Z := cell ring <$> seqZ position length.
Fixpoint store_from (position : Z) (data : list Z) (ring : gmap Z Z) : gmap Z Z :=
  match data with [] => ring | b :: data => store_from (position + 1) data (<[position := b]> ring) end.

(** [src/net/transport/tcp.c:127-135] ring_write *)
Definition ring_write (start offset : Z) (data : list Z) (ring : gmap Z Z) : gmap Z Z :=
  let n := Z.of_nat (length data) in
  let position := u32 (start + offset) mod TCP_BUFFER_SIZE in
  let first := min_u32 n (TCP_BUFFER_SIZE - position) in
  let ring := store_from position (take (Z.to_nat first) data) ring in
  if first <? n then store_from 0 (drop (Z.to_nat first) data) ring else ring.

(** [src/net/transport/tcp.c:137-145] ring_read *)
Definition ring_read (ring : gmap Z Z) (start offset n : Z) : list Z :=
  let position := u32 (start + offset) mod TCP_BUFFER_SIZE in
  let first := min_u32 n (TCP_BUFFER_SIZE - position) in
  bytes_from ring position first ++ (if first <? n then bytes_from ring 0 (n - first) else []).

(** ** The table *)

(** [None] for a handle that is not a socket; else the handle is its index.
    [src/net/transport/tcp.c:155-160] socket_from_handle *)
Definition socket_from_handle t (handle : Z) : option tcp_socket :=
  if (handle <? 0) || (Z.of_nat TCP_SOCKET_CAPACITY <=? handle) || negb (used (socket_at t handle)) then None
  else Some (socket_at t handle).

(** The index of a fresh socket, already in the table.
    [src/net/transport/tcp.c:162-175] socket_allocate *)
Definition socket_allocate t : option Z * tcp W :=
  match for_first (λ i, negb (used (socket_at t i))) TCP_SOCKET_CAPACITY 0 with
  | None => (None, t)
  | Some i => (Some i, put_socket i (socket_reset <| used := true |> <| state := TCP_STATE_CLOSED |> <| rto_ms := TCP_INITIAL_RTO_MS |>) t)
  end.

(** [src/net/transport/tcp.c:177-180] socket_release *)
Definition socket_release : tcp_socket := socket_reset.

(** [src/net/transport/tcp.c:182-191] enter_closed *)
Definition enter_closed (e : Z) s : tcp_socket :=
  let s := s <| error := if error s =? 0 then e else error s |> <| state := TCP_STATE_CLOSED |>
             <| timer_armed := false |> <| fin_received := true |> in
  if app_closed s then socket_release else s.

(** [src/net/transport/tcp.c:193-197] arm_timer *)
Definition arm_timer (now : Z) s : tcp_socket :=
  s <| timer_armed := true |>
    <| timer_deadline := u64 (now + (if arp_pending s then TCP_ARP_RETRY_MS else rto_ms s)) |>.

(** ** Segments *)

(** The ports, numbers, header length, flags, window, a place for the checksum and
    no urgent data, then the options and the data.
    [src/net/transport/tcp.c:207-227] emit_segment *)
Definition segment_bytes (lport rport sequence ack header_length flags window checksum : Z) (options data : list Z) : list Z :=
  net_write_be16 lport ++ net_write_be16 rport ++ net_write_be32 sequence ++ net_write_be32 ack ++
  [u8 ((header_length / 4) ≪ 4); flags] ++ net_write_be16 window ++ net_write_be16 checksum ++ net_write_be16 0 ++
  options ++ data.

(** [src/net/transport/tcp.c:200-233] emit_segment *)
Definition emit_segment (sequence flags : Z) (data : list Z) (with_mss : bool) s t : tcp_socket * tcp W :=
  let header_length := if with_mss then TCP_HEADER_LENGTH + 4 else TCP_HEADER_LENGTH in
  if 1500 <? header_length + Z.of_nat (length data) then (s, t) else
  let ack := if negb (Z.land flags TCP_FLAG_ACK =? 0) then rcv_nxt s else 0 in
  let options := if with_mss then [TCP_OPTION_MSS; 4] ++ net_write_be16 (u16 TCP_MAX_MSS) else [] in
  let window := u16 (receive_window s) in
  let unsummed := segment_bytes (local_port s) (remote_port s) sequence ack header_length flags window 0 options data in
  let checksum := tcp_checksum (local_address s) (remote_address s) unsummed in
  let segment := segment_bytes (local_port s) (remote_port s) sequence ack header_length flags window checksum options data in
  let t := count_stat (λ x, x <| segments_sent := u64 (segments_sent x + 1) |>) t in
  let '(result, w) := ipv4_send_from (device s) (local_address s) (remote_address s) IPV4_PROTOCOL_TCP segment (net t) in
  (s <| arp_pending := result =? IPV4_SEND_WAITING_ARP |>, t <| net := w |>).

(** [src/net/transport/tcp.c:235-256] send_reset *)
Definition send_reset (dev laddr raddr lport rport sequence ack flags : Z) t : tcp W :=
  let unsummed := segment_bytes lport rport sequence ack TCP_HEADER_LENGTH flags 0 0 [] [] in
  let segment := segment_bytes lport rport sequence ack TCP_HEADER_LENGTH flags 0 (tcp_checksum laddr raddr unsummed) [] [] in
  let t := count_stat (λ x, x <| resets_sent := u64 (resets_sent x + 1) |> <| segments_sent := u64 (segments_sent x + 1) |>) t in
  let '(_, w) := ipv4_send_from dev laddr raddr IPV4_PROTOCOL_TCP segment (net t) in
  t <| net := w |>.

(** A reset for the connection of a socket. *)
Definition reset_peer (sequence : Z) s t : tcp W :=
  send_reset (device s) (local_address s) (remote_address s) (local_port s) (remote_port s) sequence 0 TCP_FLAG_RST t.

(** [src/net/transport/tcp.c:258-261] send_ack *)
Definition send_ack s t : tcp_socket * tcp W := emit_segment (snd_nxt s) TCP_FLAG_ACK [] false s t.

(** [src/net/transport/tcp.c:263-269] send_syn *)
Definition send_syn s t : tcp_socket * tcp W :=
  let flags := if bool_decide (state s = TCP_STATE_SYN_RECEIVED) then Z.lor TCP_FLAG_SYN TCP_FLAG_ACK else TCP_FLAG_SYN in
  emit_segment (iss s) flags [] true s t.

(** [src/net/transport/tcp.c:271-278] note_send_for_rtt *)
Definition note_send_for_rtt (now end_sequence : Z) s : tcp_socket :=
  if rtt_active s then s
  else s <| rtt_active := true |> <| rtt_seq := end_sequence |> <| rtt_start := now |>.

(** [src/net/transport/tcp.c:280-300] rtt_sample *)
Definition rtt_sample (sample : Z) s : tcp_socket :=
  let s :=
    if negb (rtt_valid s) then s <| srtt_ms := sample |> <| rttvar_ms := sample / 2 |> <| rtt_valid := true |>
    else
      let delta := if srtt_ms s <? sample then sample - srtt_ms s else srtt_ms s - sample in
      let s := s <| rttvar_ms := u32 (3 * rttvar_ms s + delta) / 4 |> in
      s <| srtt_ms := u32 (7 * srtt_ms s + sample) / 8 |> in
  let rto := u32 (srtt_ms s + max_u32 (u32 (4 * rttvar_ms s)) 10) in
  let rto := if rto <? TCP_MIN_RTO_MS then TCP_MIN_RTO_MS else rto in
  let rto := if TCP_MAX_RTO_MS <? rto then TCP_MAX_RTO_MS else rto in
  s <| rto_ms := rto |>.

(** [src/net/transport/tcp.c:302-306] unsent_bytes *)
Definition unsent_bytes s : Z :=
  let offset := u32 (snd_nxt s - snd_una s) in
  if tx_length s <=? offset then 0 else tx_length s - offset.

(** ** Output *)

(** The length of the next segment; [None] where the loop stops.
    [src/net/transport/tcp.c:316-335] tcp_output *)
Definition next_length (window : Z) s : option Z :=
  let in_flight := u32 (snd_nxt s - snd_una s) in
  let unsent := unsent_bytes s in
  if unsent =? 0 then None else
  let length := min_u32 unsent (mss s) in
  if window <=? in_flight then
    if (snd_wnd s =? 0) && (in_flight =? 0) then Some 1 else None
  else
    let length := min_u32 length (window - in_flight) in
    if (length <? min_u32 unsent (mss s)) && (0 <? in_flight) then None else Some length.

(** What the loop does after a segment of [n] bytes is out.
    [src/net/transport/tcp.c:341-347] tcp_output *)
Definition advance (now n : Z) s : tcp_socket :=
  let s := if SEQ_GT (u32 (snd_nxt s + n)) (snd_max s) then note_send_for_rtt now (u32 (snd_nxt s + n)) s else s in
  let s := s <| snd_nxt := u32 (snd_nxt s + n) |> in
  let s := if SEQ_GT (snd_nxt s) (snd_max s) then s <| snd_max := snd_nxt s |> else s in
  if negb (timer_armed s) then arm_timer now s else s.

(** Each round sends a byte at least, so the loop ends within the number of
    unsent bytes ([TcpSpec.output_loop_ends]); the first result is whether it did.
    [src/net/transport/tcp.c:314-348] tcp_output *)
Fixpoint output_loop (fuel : nat) (now window : Z) s t : bool * tcp_socket * tcp W :=
  match next_length window s with
  | None => (true, s, t)
  | Some n =>
      match fuel with
      | O => (false, s, t)
      | S fuel' =>
          let chunk := ring_read (tx_buffer s) (tx_start s) (u32 (snd_nxt s - snd_una s)) n in
          let last := n =? unsent_bytes s in
          let flags := if last then Z.lor TCP_FLAG_ACK TCP_FLAG_PSH else TCP_FLAG_ACK in
          let '(s, t) := emit_segment (snd_nxt s) flags chunk false s t in
          output_loop fuel' now window (advance now n s) t
      end
  end.

(** [src/net/transport/tcp.c:349-366] tcp_output *)
Definition output_fin (now : Z) s t : tcp_socket * tcp W :=
  if fin_queued s && (unsent_bytes s =? 0) && negb (fin_seq_set s && SEQ_GT (snd_nxt s) (fin_seq s)) then
    let s := if negb (fin_seq_set s) then s <| fin_seq_set := true |> <| fin_seq := snd_nxt s |> else s in
    let '(s, t) := emit_segment (snd_nxt s) (Z.lor TCP_FLAG_ACK TCP_FLAG_FIN) [] false s t in
    let s := s <| snd_nxt := u32 (snd_nxt s + 1) |> in
    let s := if SEQ_GT (snd_nxt s) (snd_max s) then s <| snd_max := snd_nxt s |> else s in
    let s := match state s with
             | TCP_STATE_ESTABLISHED => s <| state := TCP_STATE_FIN_WAIT_1 |>
             | TCP_STATE_CLOSE_WAIT => s <| state := TCP_STATE_LAST_ACK |>
             | _ => s
             end in
    (if negb (timer_armed s) then arm_timer now s else s, t)
  else (s, t).

(** [src/net/transport/tcp.c:309-367] tcp_output *)
Definition tcp_output (now : Z) s t : tcp_socket * tcp W :=
  match state s with
  | TCP_STATE_ESTABLISHED | TCP_STATE_CLOSE_WAIT | TCP_STATE_FIN_WAIT_1 | TCP_STATE_CLOSING | TCP_STATE_LAST_ACK =>
      let window := min_u32 (snd_wnd s) (cwnd s) in
      let '(_, s, t) := output_loop (Z.to_nat (unsent_bytes s)) now window s t in
      output_fin now s t
  | _ => (s, t)
  end.

(** [src/net/transport/tcp.c:370-388] retransmit_head *)
Definition retransmit_head s t : tcp_socket * tcp W :=
  let t := count_stat (λ x, x <| retransmits := u64 (retransmits x + 1) |>) t in
  let s := s <| rtt_active := false |> in
  let flight := u32 (snd_nxt s - snd_una s) in
  if flight =? 0 then (s, t)
  else if negb (tx_length s =? 0) then
    let n := min_u32 (min_u32 (tx_length s) (mss s)) flight in
    emit_segment (snd_una s) TCP_FLAG_ACK (ring_read (tx_buffer s) (tx_start s) 0 n) false s t
  else if fin_seq_set s then emit_segment (fin_seq s) (Z.lor TCP_FLAG_ACK TCP_FLAG_FIN) [] false s t
  else (s, t).

(** ** Connections *)

(** [src/net/transport/tcp.c:390-399] parent_pending_children *)
Definition parent_pending_children t (p : Z) : Z :=
  u8 (count_if (λ i, used (socket_at t i) && (parent (socket_at t i) =? p) &&
                     bool_decide (state (socket_at t i) = TCP_STATE_SYN_RECEIVED)) TCP_SOCKET_CAPACITY 0).

(** Socket [i] is established; a parent that listens queues it.
    [src/net/transport/tcp.c:401-418] become_established *)
Definition become_established (i : Z) s t : tcp_socket * tcp W :=
  let s := s <| state := TCP_STATE_ESTABLISHED |> <| retries := 0 |> <| arp_tries := 0 |> <| timer_armed := false |>
             <| cwnd := u32 (TCP_INITIAL_CWND_SEGMENTS * mss s) |> <| ssthresh := 4294967295 |> in
  let t := count_stat (λ x, x <| connections_established := u64 (connections_established x + 1) |>) t in
  if 0 <=? parent s then
    let p := socket_at t (parent s) in
    if used p && bool_decide (state p = TCP_STATE_LISTEN) && (accept_count p <? TCP_ACCEPT_BACKLOG_MAX) then
      (s, put_socket (parent s) (p <| accept_queue := aset (accept_queue p) (accept_count p) i |>
                                   <| accept_count := accept_count p + 1 |>) t)
    else (s, t)
  else (s, t).

(** [src/net/transport/tcp.c:420-425] start_time_wait *)
Definition start_time_wait (now : Z) s : tcp_socket :=
  s <| state := TCP_STATE_TIME_WAIT |> <| timer_armed := false |> <| time_wait_deadline := u64 (now + TCP_TIME_WAIT_MS) |>.

(** The options of a segment, one a round; an option has a byte at least, so there
    are no more rounds than the header has bytes.
    [src/net/transport/tcp.c:427-453] parse_mss *)
Fixpoint parse_options (fuel : nat) (segment : list Z) (header_length position m : Z) : Z :=
  match fuel with
  | O => m
  | S fuel' =>
      if negb (position <? header_length) then m else
      let kind := byte_at segment position in
      if kind =? TCP_OPTION_END then m
      else if kind =? TCP_OPTION_NOP then parse_options fuel' segment header_length (u16 (position + 1)) m
      else if header_length <=? position + 1 then m else
      let option_length := byte_at segment (position + 1) in
      if (option_length <? 2) || (header_length <? position + option_length) then m else
      let m := if (kind =? TCP_OPTION_MSS) && (option_length =? 4) then net_read_be16 segment (position + 2) else m in
      parse_options fuel' segment header_length (u16 (position + option_length)) m
  end.
(** [src/net/transport/tcp.c:427-453] parse_mss *)
Definition parse_mss (segment : list Z) (header_length : Z) : Z :=
  let m := parse_options (Z.to_nat header_length) segment header_length TCP_HEADER_LENGTH TCP_DEFAULT_MSS in
  let m := if m <? 64 then TCP_DEFAULT_MSS else m in
  min_u32 m TCP_MAX_MSS.

(** The connection, or else the last listener that matches.
    [src/net/transport/tcp.c:455-476] find_socket *)
Definition find_socket t (laddr lport raddr rport : Z) : option Z :=
  let mine i := used (socket_at t i) && negb (bool_decide (state (socket_at t i) = TCP_STATE_CLOSED)) &&
                (local_port (socket_at t i) =? lport) in
  let listens i := bool_decide (state (socket_at t i) = TCP_STATE_LISTEN) in
  match for_first (λ i, let s := socket_at t i in
      mine i && negb (listens i) && (remote_port s =? rport) && (remote_address s =? raddr) && (local_address s =? laddr))
      TCP_SOCKET_CAPACITY 0 with
  | Some i => Some i
  | None => foldl (λ found i, let s := socket_at t i in
        if mine i && listens i && ((local_address s =? 0) || (local_address s =? laddr)) then Some i else found)
      None (seqZ 0 (Z.of_nat TCP_SOCKET_CAPACITY))
  end.

(** ** Input *)

(** Whether the FIN is acknowledged, and how many bytes of data.
    [src/net/transport/tcp.c:484-484] handle_ack *)
Definition fin_acked (ack : Z) s : bool := fin_seq_set s && SEQ_GT ack (fin_seq s).
(** [src/net/transport/tcp.c:483-487] handle_ack *)
Definition data_acked (ack : Z) s : Z :=
  let acked := u32 (ack - snd_una s) in
  let n := u32 (acked - (if fin_acked ack s then 1 else 0)) in
  if tx_length s <? n then tx_length s else n.

(** The bytes acknowledged leave the ring.
    [src/net/transport/tcp.c:488-492] handle_ack *)
Definition acknowledged (ack : Z) s : tcp_socket :=
  let d := data_acked ack s in
  let s := s <| tx_start := u32 (tx_start s + d) mod TCP_BUFFER_SIZE |> <| tx_length := tx_length s - d |> <| snd_una := ack |> in
  if SEQ_LT (snd_nxt s) ack then s <| snd_nxt := ack |> else s.

(** [src/net/transport/tcp.c:493-497] handle_ack *)
Definition sample_acked (now ack : Z) s : tcp_socket :=
  if rtt_active s && SEQ_LEQ (rtt_seq s) ack
  then (rtt_sample (u32 (now - rtt_start s)) s) <| rtt_active := false |> else s.

(** [src/net/transport/tcp.c:498-510] handle_ack *)
Definition grow_window (d : Z) s : tcp_socket :=
  if in_recovery s then s <| cwnd := ssthresh s |> <| in_recovery := false |>
  else if cwnd s <? ssthresh s then s <| cwnd := u32 (cwnd s + min_u32 d (mss s)) |>
  else if negb (cwnd s =? 0) then s <| cwnd := u32 (cwnd s + max_u32 (u32 (mss s * mss s) / cwnd s) 1) |>
  else s.

(** [src/net/transport/tcp.c:511-517] handle_ack *)
Definition restart_timer (now : Z) s : tcp_socket :=
  let s := s <| dup_acks := 0 |> <| retries := 0 |> <| arp_tries := 0 |> in
  if snd_una s =? snd_max s then s <| timer_armed := false |> else arm_timer now s.

(** New data acknowledged.
    [src/net/transport/tcp.c:481-533] handle_ack *)
Definition new_ack (now ack : Z) s : tcp_socket :=
  let s' := restart_timer now (grow_window (data_acked ack s) (sample_acked now ack (acknowledged ack s))) in
  if fin_acked ack s then
    match state s' with
    | TCP_STATE_FIN_WAIT_1 => s' <| state := TCP_STATE_FIN_WAIT_2 |> <| time_wait_deadline := u64 (now + 2 * TCP_TIME_WAIT_MS) |>
    | TCP_STATE_CLOSING => start_time_wait now s'
    | TCP_STATE_LAST_ACK => enter_closed 0 s'
    | _ => s'
    end
  else s'.

(** A duplicate acknowledgment.
    [src/net/transport/tcp.c:536-552] handle_ack *)
Definition duplicate_ack s t : tcp_socket * tcp W :=
  let s := s <| dup_acks := u8 (dup_acks s + 1) |> in
  if dup_acks s =? 3 then
    let flight := u32 (snd_nxt s - snd_una s) in
    let s := s <| ssthresh := max_u32 (flight / 2) (u32 (2 * mss s)) |> in
    let s := s <| cwnd := u32 (ssthresh s + 3 * mss s) |> <| in_recovery := true |> in
    retransmit_head s (count_stat (λ x, x <| fast_retransmits := u64 (fast_retransmits x + 1) |>) t)
  else if (3 <? dup_acks s) && in_recovery s then (s <| cwnd := u32 (cwnd s + mss s) |>, t)
  else (s, t).

(** [src/net/transport/tcp.c:478-557] handle_ack *)
Definition handle_ack (now ack window sequence : Z) (has_data : bool) s t : tcp_socket * tcp W :=
  let accepted := SEQ_LT (snd_una s) ack && SEQ_LEQ ack (snd_max s) in
  let closes := accepted && fin_acked ack s && bool_decide (state s = TCP_STATE_LAST_ACK) in
  let '(s, t) :=
    if accepted then (new_ack now ack s, t)
    else if (ack =? snd_una s) && negb has_data && negb (snd_una s =? snd_max s) && (window =? snd_wnd s) then duplicate_ack s t
    else (s, t) in
  if closes then (s, t)
  else if SEQ_LT (snd_wl1 s) sequence || ((snd_wl1 s =? sequence) && SEQ_LEQ (snd_wl2 s) ack)
  then (s <| snd_wnd := window |> <| snd_wl1 := sequence |> <| snd_wl2 := ack |>, t)
  else (s, t).

(** What a segment says: its numbers, flags, window, data and the size the peer
    takes. *)
Record seg := Seg {
  g_device : Z;
  g_sequence : Z;
  g_ack : Z;
  g_flags : Z;
  g_window : Z;
  g_data : list Z;
  g_peer_mss : Z;
}.
Definition flag (f : Z) (g : seg) : bool := negb (Z.land (g_flags g) f =? 0).
Definition data_length (g : seg) : Z := Z.of_nat (length (g_data g)).

(** A reset on the device the segment came from. *)
Definition reset_from (g : seg) (sequence : Z) s t : tcp W :=
  send_reset (g_device g) (local_address s) (remote_address s) (local_port s) (remote_port s) sequence 0 TCP_FLAG_RST t.

(** [src/net/transport/tcp.c:567-606] process_segment *)
Definition process_syn_sent (i now : Z) (g : seg) s t : tcp_socket * tcp W :=
  if flag TCP_FLAG_ACK g && (SEQ_LEQ (g_ack g) (iss s) || SEQ_GT (g_ack g) (snd_nxt s)) then
    (s, if negb (flag TCP_FLAG_RST g) then reset_from g (g_ack g) s t else t)
  else if flag TCP_FLAG_RST g then (if flag TCP_FLAG_ACK g then enter_closed TCP_ERR_RESET s else s, t)
  else if negb (flag TCP_FLAG_SYN g) then (s, t)
  else
    let s := s <| irs := g_sequence g |> <| rcv_nxt := u32 (g_sequence g + 1) |> <| mss := g_peer_mss g |>
               <| snd_wnd := g_window g |> <| snd_wl1 := g_sequence g |> <| snd_wl2 := g_ack g |> in
    if flag TCP_FLAG_ACK g then
      let s := s <| snd_una := g_ack g |> <| rtt_active := false |> in
      let '(s, t) := become_established i s t in
      let '(s, t) := send_ack s t in
      tcp_output now s t
    else
      let s := s <| state := TCP_STATE_SYN_RECEIVED |> <| timer_armed := false |> in
      let '(s, t) := send_syn s t in
      (arm_timer now s, t).

(** [src/net/transport/tcp.c:608-616] process_segment *)
Definition process_time_wait (now : Z) (g : seg) s t : tcp_socket * tcp W :=
  if negb (flag TCP_FLAG_RST g) && (flag TCP_FLAG_FIN g || negb (data_length g =? 0)) then
    let '(s, t) := send_ack s t in
    (s <| time_wait_deadline := u64 (now + TCP_TIME_WAIT_MS) |>, t)
  else (s, t).

(** [src/net/transport/tcp.c:619-625] process_segment *)
Definition acceptable (g : seg) s : bool :=
  let receive_space := receive_window s in
  let seg_length := u32 (data_length g + (if flag TCP_FLAG_FIN g then 1 else 0)) in
  if seg_length =? 0 then
    (g_sequence g =? rcv_nxt s) ||
    (SEQ_GT (g_sequence g) (rcv_nxt s) && SEQ_LT (g_sequence g) (u32 (rcv_nxt s + max_u32 receive_space 1)))
  else
    SEQ_LT (g_sequence g) (u32 (rcv_nxt s + max_u32 receive_space 1)) && SEQ_GT (u32 (g_sequence g + seg_length)) (rcv_nxt s).

(** The data that was not received before, and where it starts.
    [src/net/transport/tcp.c:677-691] process_segment *)
Definition trim (g : seg) s : Z * list Z :=
  if SEQ_LT (g_sequence g) (rcv_nxt s) then
    let overlap := u32 (rcv_nxt s - g_sequence g) in
    (rcv_nxt s, if data_length g <=? overlap then [] else drop (Z.to_nat overlap) (g_data g))
  else (g_sequence g, g_data g).

Definition receives s : bool :=
  match state s with
  | TCP_STATE_ESTABLISHED | TCP_STATE_FIN_WAIT_1 | TCP_STATE_FIN_WAIT_2 => true
  | _ => false
  end.

(** What is next in order goes into the ring, as much as there is room for.
    [src/net/transport/tcp.c:696-706] process_segment *)
Definition take_data (sequence : Z) (data : list Z) s : tcp_socket :=
  if sequence =? rcv_nxt s then
    let space := u32 (TCP_BUFFER_SIZE - rx_length s) in
    let n := min_u32 (Z.of_nat (length data)) space in
    if negb (n =? 0) then
      s <| rx_buffer := ring_write (rx_start s) (rx_length s) (take (Z.to_nat n) data) (rx_buffer s) |>
        <| rx_length := u32 (rx_length s + n) |> <| rcv_nxt := u32 (rcv_nxt s + n) |>
    else s
  else s.

(** [src/net/transport/tcp.c:711-725] process_segment *)
Definition take_fin (now : Z) s : tcp_socket :=
  let s := s <| rcv_nxt := u32 (rcv_nxt s + 1) |> <| fin_received := true |> in
  match state s with
  | TCP_STATE_ESTABLISHED => s <| state := TCP_STATE_CLOSE_WAIT |>
  | TCP_STATE_FIN_WAIT_1 =>
      if fin_seq_set s && SEQ_GT (snd_una s) (fin_seq s) then start_time_wait now s
      else s <| state := TCP_STATE_CLOSING |>
  | _ => start_time_wait now s
  end.

(** The data and the FIN of a segment; whether they are to be acknowledged.
    [src/net/transport/tcp.c:675-726] process_segment *)
Definition take_segment (now : Z) (g : seg) s : tcp_socket * bool :=
  let fin_sequence := u32 (g_sequence g + data_length g) in
  let '(sequence, data) := trim g s in
  let takes := (0 <? Z.of_nat (length data)) && receives s in
  let s := if takes then take_data sequence data s else s in
  let fin := flag TCP_FLAG_FIN g && (fin_sequence =? rcv_nxt s) && receives s in
  (if fin then take_fin now s else s, takes || fin).

(** From the handling of the acknowledgment on.
    [src/net/transport/tcp.c:671-729] process_segment *)
Definition process_data (now : Z) (g : seg) s t : tcp_socket * tcp W :=
  let '(s, t) := handle_ack now (g_ack g) (g_window g) (g_sequence g) (0 <? data_length g) s t in
  if bool_decide (state s = TCP_STATE_CLOSED) || negb (used s) then (s, t) else
  let '(s, need_ack) := take_segment now g s in
  let '(s, t) := tcp_output now s t in
  if need_ack then send_ack s t else (s, t).

(** The acknowledgment of our SYN.
    [src/net/transport/tcp.c:655-661] process_segment *)
Definition syn_acked (g : seg) s : tcp_socket :=
  s <| snd_una := g_ack g |> <| snd_wnd := g_window g |> <| snd_wl1 := g_sequence g |> <| snd_wl2 := g_ack g |>
    <| rtt_active := false |>.

(** The checks of a segment once the peer is known.
    [src/net/transport/tcp.c:618-729] process_segment *)
Definition process_synchronized (i now : Z) (g : seg) s t : tcp_socket * tcp W :=
  let received := bool_decide (state s = TCP_STATE_SYN_RECEIVED) in
  if flag TCP_FLAG_RST g then
    (if (g_sequence g =? rcv_nxt s) || (acceptable g s && negb received) then enter_closed TCP_ERR_RESET s else s, t)
  else if negb (acceptable g s) then send_ack s t
  else if flag TCP_FLAG_SYN g then
    if received && (g_sequence g =? irs s) then send_syn s t
    else let t := reset_from g (snd_nxt s) s t in (enter_closed TCP_ERR_RESET s, t)
  else if negb (flag TCP_FLAG_ACK g) then (s, t)
  else if received then
    if SEQ_LT (snd_una s) (g_ack g) && SEQ_LEQ (g_ack g) (snd_nxt s) then
      let '(s, t) := become_established i (syn_acked g s) t in process_data now g s t
    else (s, reset_from g (g_ack g) s t)
  else process_data now g s t.

(** [src/net/transport/tcp.c:559-730] process_segment *)
Definition process_segment (i now : Z) (g : seg) s t : tcp_socket * tcp W :=
  match state s with
  | TCP_STATE_SYN_SENT => process_syn_sent i now g s t
  | TCP_STATE_TIME_WAIT => process_time_wait now g s t
  | _ => process_synchronized i now g s t
  end.

(** The socket of a connection that a listener [p] takes, over a fresh socket [s].
    [src/net/transport/tcp.c:795-812] receive_segment *)
Definition new_child (p own laddr raddr lport rport n : Z) (g : seg) s : tcp_socket :=
  s <| parent := p |> <| owner := own |> <| device := g_device g |> <| local_address := laddr |>
    <| local_port := lport |> <| remote_address := raddr |> <| remote_port := rport |> <| irs := g_sequence g |>
    <| rcv_nxt := u32 (g_sequence g + 1) |> <| mss := g_peer_mss g |> <| snd_wnd := g_window g |> <| iss := n |>
    <| snd_una := n |> <| snd_nxt := u32 (n + 1) |> <| snd_max := u32 (n + 1) |> <| snd_wl1 := g_sequence g |>
    <| snd_wl2 := 0 |> <| state := TCP_STATE_SYN_RECEIVED |>.

(** A first segment for a listener.
    [src/net/transport/tcp.c:777-816] receive_segment *)
Definition receive_listen (p now laddr raddr lport rport : Z) (g : seg) t : tcp W :=
  let s := socket_at t p in
  if flag TCP_FLAG_RST g then t
  else if flag TCP_FLAG_ACK g then send_reset (g_device g) laddr raddr lport rport (g_ack g) 0 TCP_FLAG_RST t
  else if negb (flag TCP_FLAG_SYN g) then t
  else if backlog s <=? accept_count s + parent_pending_children t p then t
  else
    match socket_allocate t with
    | (None, t) => t
    | (Some c, t) =>
        let '(n, t) := generate_isn now t in
        let '(child, t) := send_syn (new_child p (owner s) laddr raddr lport rport n g (socket_at t c)) t in
        put_socket c (arm_timer now child) t
    end.

(** [src/net/transport/tcp.c:738-738] receive_segment *)
Definition header_length (segment : list Z) : Z := u16 ((byte_at segment 12 ≫ 4) * 4).

(** [src/net/transport/tcp.c:746-755] receive_segment *)
Definition parse_segment (dev : Z) (segment : list Z) : seg :=
  let flags := byte_at segment 13 in
  Seg dev (net_read_be32 segment 4) (net_read_be32 segment 8) flags (net_read_be16 segment 14)
    (drop (Z.to_nat (header_length segment)) segment)
    (if negb (Z.land flags TCP_FLAG_SYN =? 0) then parse_mss segment (header_length segment) else TCP_DEFAULT_MSS).

(** A segment for nobody.
    [src/net/transport/tcp.c:763-776] receive_segment *)
Definition receive_stray (laddr raddr lport rport : Z) (g : seg) t : tcp W :=
  if flag TCP_FLAG_RST g then t
  else if flag TCP_FLAG_ACK g then send_reset (g_device g) laddr raddr lport rport (g_ack g) 0 TCP_FLAG_RST t
  else send_reset (g_device g) laddr raddr lport rport 0
         (u32 (g_sequence g + data_length g + (if flag TCP_FLAG_SYN g then 1 else 0) + (if flag TCP_FLAG_FIN g then 1 else 0)))
         (Z.lor TCP_FLAG_RST TCP_FLAG_ACK) t.

(** Whether the lengths of the segment fit.
    [src/net/transport/tcp.c:734-740] receive_segment *)
Definition well_formed (segment : list Z) : bool :=
  (TCP_HEADER_LENGTH <=? Z.of_nat (length segment)) && (TCP_HEADER_LENGTH <=? header_length segment) &&
  (header_length segment <=? Z.of_nat (length segment)).

(** [src/net/transport/tcp.c:732-818] receive_segment *)
Definition receive_segment (now dev source destination : Z) (segment : list Z) t : tcp W :=
  if negb (well_formed segment) then t
  else if negb (tcp_checksum source destination segment =? 0)
  then count_stat (λ x, x <| bad_checksum := u64 (bad_checksum x + 1) |>) t
  else
    let rport := net_read_be16 segment 0 in
    let lport := net_read_be16 segment 2 in
    let g := parse_segment dev segment in
    if (lport =? 0) || (rport =? 0) then t else
    let t := count_stat (λ x, x <| segments_received := u64 (segments_received x + 1) |>) t in
    match find_socket t destination lport source rport with
    | None => receive_stray destination source lport rport g t
    | Some i =>
        let s := socket_at t i in
        if bool_decide (state s = TCP_STATE_LISTEN) then receive_listen i now destination source lport rport g t
        else let '(s, t) := process_segment i now g s t in put_socket i s t
    end.

(** [src/net/transport/tcp.c:820-830] tcp_init *)
Definition tcp_init (w : W) : tcp W :=
  Tcp (replicate TCP_SOCKET_CAPACITY socket_reset) (TcpStats 0 0 0 0 0 0 0 0) TCP_EPHEMERAL_FIRST 0 w.

(** ** Timers *)

(** [src/net/transport/tcp.c:845-845] handle_timeout *)
Definition handshake s : bool :=
  bool_decide (state s = TCP_STATE_SYN_SENT) || bool_decide (state s = TCP_STATE_SYN_RECEIVED).

(** A closed window is asked for ever.
    [src/net/transport/tcp.c:846-848] handle_timeout *)
Definition count_retry s : tcp_socket :=
  let s := if (snd_wnd s =? 0) && negb (handshake s) then s <| retries := 0 |> else s in
  s <| retries := u8 (retries s + 1) |>.

(** [src/net/transport/tcp.c:855-862] handle_timeout *)
Definition back_off (now : Z) s : tcp_socket :=
  let s := s <| rto_ms := min_u32 (u32 (rto_ms s * 2)) TCP_MAX_RTO_MS |> in
  let flight := u32 (snd_nxt s - snd_una s) in
  let s := s <| ssthresh := max_u32 (flight / 2) (u32 (2 * mss s)) |> <| cwnd := mss s |> <| dup_acks := 0 |>
             <| in_recovery := false |> <| rtt_active := false |> in
  arm_timer now s.

(** [src/net/transport/tcp.c:832-874] handle_timeout *)
Definition handle_timeout (now : Z) s t : tcp_socket * tcp W :=
  if arp_pending s && (arp_tries s <? TCP_MAX_ARP_RETRIES) then
    let s := s <| arp_tries := arp_tries s + 1 |> in
    let '(s, t) := if handshake s then send_syn s t else retransmit_head s t in
    (arm_timer now s, t)
  else
    let s := count_retry s in
    if (if handshake s then TCP_MAX_SYN_RETRIES else TCP_MAX_RETRIES) <? retries s then
      (enter_closed TCP_ERR_TIMEOUT s, count_stat (λ x, x <| connections_timed_out := u64 (connections_timed_out x + 1) |>) t)
    else
      let s := back_off now s in
      let t := count_stat (λ x, x <| retransmits := u64 (retransmits x + 1) |>) t in
      if handshake s then send_syn s t
      else
        let '(s, t) := tcp_output now (s <| snd_nxt := snd_una s |>) t in
        (s <| rtt_active := false |>, t).

(** What [tcp_poll] does for one socket.
    [src/net/transport/tcp.c:881-890] tcp_poll *)
Definition poll_socket (now : Z) (t : tcp W) (i : Z) : tcp W :=
  let s := socket_at t i in
  if negb (used s) then t
  else if (bool_decide (state s = TCP_STATE_TIME_WAIT) || (bool_decide (state s = TCP_STATE_FIN_WAIT_2) && app_closed s)) &&
          (time_wait_deadline s <=? now) then put_socket i (enter_closed 0 s) t
  else if timer_armed s && (timer_deadline s <=? now) then
    let '(s, t) := handle_timeout now s t in put_socket i s t
  else t.
(** [src/net/transport/tcp.c:876-892] tcp_poll *)
Definition tcp_poll (now : Z) t : tcp W := foldl (poll_socket now) t (seqZ 0 (Z.of_nat TCP_SOCKET_CAPACITY)).

(** ** Sockets come and go *)

(** [src/net/transport/tcp.c:894-902] tcp_socket_owned *)
Definition tcp_socket_owned (own : Z) t : Z * tcp W :=
  match socket_allocate t with
  | (None, t) => (TCP_ERR_NO_SOCKET, t)
  | (Some i, t) => (i, put_socket i ((socket_at t i) <| owner := own |>) t)
  end.

(** [src/net/transport/tcp.c:909-914] tcp_is_owner *)
Definition tcp_is_owner (handle own : Z) t : bool :=
  match socket_from_handle t handle with Some s => owner s =? own | None => false end.

(** [src/net/transport/tcp.c:1263-1276] abort_children *)
Definition abort_children (p : Z) t : tcp W :=
  foldl (λ t i,
      let c := socket_at t i in
      if negb (used c) || negb (parent c =? p) then t
      else
        let t := if negb (bool_decide (state c = TCP_STATE_CLOSED)) && negb (bool_decide (state c = TCP_STATE_LISTEN))
                 then reset_peer (snd_nxt c) c t else t in
        put_socket i socket_release t) t (seqZ 0 (Z.of_nat TCP_SOCKET_CAPACITY)).

(** A connection the peer knows of. *)
Definition connected s : bool :=
  match state s with TCP_STATE_CLOSED | TCP_STATE_SYN_SENT | TCP_STATE_TIME_WAIT => false | _ => true end.

(** [src/net/transport/tcp.c:918-934] tcp_release_owner *)
Definition tcp_release_owner (own : Z) t : tcp W :=
  foldl (λ t i,
      let s := socket_at t i in
      if negb (used s) || negb (owner s =? own) then t
      else
        let t := if bool_decide (state s = TCP_STATE_LISTEN) then abort_children i t
                 else if connected s then reset_peer (snd_nxt s) s t else t in
        put_socket i socket_release t) t (seqZ 0 (Z.of_nat TCP_SOCKET_CAPACITY)).

(** [src/net/transport/tcp.c:936-944] port_in_use *)
Definition port_in_use t (port : Z) : bool :=
  match for_first (λ i, let s := socket_at t i in
      used s && (local_port s =? port) && negb (bool_decide (state s = TCP_STATE_CLOSED))) TCP_SOCKET_CAPACITY 0 with
  | Some _ => true
  | None => false
  end.

(** [src/net/transport/tcp.c:946-957] allocate_ephemeral_port *)
Fixpoint allocate_port (tries : nat) t : Z * tcp W :=
  match tries with
  | O => (0, t)
  | S tries' =>
      let port := next_ephemeral t in
      let n := u16 (port + 1) in
      let t := t <| next_ephemeral := if n <? TCP_EPHEMERAL_FIRST then TCP_EPHEMERAL_FIRST else n |> in
      if negb (port_in_use t port) then (port, t) else allocate_port tries' t
  end.
Definition allocate_ephemeral_port t : Z * tcp W :=
  allocate_port (Z.to_nat (TCP_EPHEMERAL_LAST - TCP_EPHEMERAL_FIRST + 1)) t.

(** The device and the source address for a destination: the first device on the
    same net, or else the first with a gateway.
    [src/net/transport/tcp.c:959-987] pick_route *)
Fixpoint pick_route (devices : list Z) (destination : Z) (w : W) (fallback : option (Z * Z)) : option (Z * Z) :=
  match devices with
  | [] => fallback
  | d :: devices =>
      match ipv4_get_config d w with
      | None => pick_route devices destination w fallback
      | Some (address, netmask, gateway) =>
          if Z.land destination netmask =? Z.land address netmask then Some (d, address)
          else pick_route devices destination w
                 (match fallback with
                  | None => if negb (gateway =? 0) then Some (d, address) else None
                  | _ => fallback
                  end)
      end
  end.

(** ** Calls *)

(** A round of a call ends it with a result or waits. *)
Inductive round (A : Type) := Done (a : A) | Wait.
Arguments Done {A} _.
Arguments Wait {A}.

(** [src/net/transport/tcp.c:989-992] deadline_for *)
Definition deadline_for (timeout_ms now : Z) : Z := if timeout_ms =? TCP_TIMEOUT_FOREVER then UINT64_MAX else u64 (now + timeout_ms).
(** [src/net/transport/tcp.c:994-997] deadline_passed *)
Definition deadline_passed (deadline now : Z) : bool := negb (deadline =? UINT64_MAX) && (deadline <=? now).
(** Whether a call that cannot go on gives up. *)
Definition gives_up (timeout_ms deadline now : Z) : bool := (timeout_ms =? TCP_TIMEOUT_NONE) || deadline_passed deadline now.

(** The socket of a connection to [address] and [port].
    [src/net/transport/tcp.c:1032-1044] tcp_connect *)
Definition connecting (d source lport address port n : Z) s : tcp_socket :=
  s <| device := d |> <| local_address := source |> <| local_port := lport |> <| remote_address := address |>
    <| remote_port := port |> <| error := 0 |> <| fin_received := false |> <| mss := TCP_MAX_MSS |>
    <| iss := n |> <| snd_una := n |> <| snd_nxt := u32 (n + 1) |> <| snd_max := u32 (n + 1) |>
    <| state := TCP_STATE_SYN_SENT |>.

(** Up to the loop: a result, or the SYN is out.
    [src/net/transport/tcp.c:1010-1047] tcp_connect *)
Definition connect_start (handle address port now : Z) t : option Z * tcp W :=
  if (address =? 0) || (port =? 0) then (Some TCP_ERR_INVALID, t) else
  match socket_from_handle t handle with
  | None => (Some TCP_ERR_INVALID, t)
  | Some s =>
      if negb (bool_decide (state s = TCP_STATE_CLOSED)) || app_closed s then (Some TCP_ERR_INVALID, t) else
      match pick_route (net_devices (net t)) address (net t) None with
      | None => (Some TCP_ERR_NO_ROUTE, t)
      | Some (d, source) =>
          let '(lport, t) := if negb (local_port s =? 0) then (local_port s, t) else allocate_ephemeral_port t in
          if lport =? 0 then (Some TCP_ERR_IN_USE, t) else
          let '(n, t) := generate_isn now t in
          let '(s, t) := send_syn (connecting d source lport address port n s) t in
          (None, put_socket handle (arm_timer now s) t)
      end
  end.

(** [src/net/transport/tcp.c:1049-1064] tcp_connect *)
Definition connect_round (handle timeout_ms deadline now : Z) t : round Z :=
  let s := socket_at t handle in
  if negb (used s) then Done TCP_ERR_INVALID
  else if bool_decide (state s = TCP_STATE_ESTABLISHED) then Done TCP_OK
  else if bool_decide (state s = TCP_STATE_CLOSED) then Done (if negb (error s =? 0) then error s else TCP_ERR_RESET)
  else if gives_up timeout_ms deadline now then Done TCP_ERR_WOULD_BLOCK
  else Wait.

(** [src/net/transport/tcp.c:1069-1088] tcp_listen *)
Definition tcp_listen (handle port back : Z) t : Z * tcp W :=
  if port =? 0 then (TCP_ERR_INVALID, t) else
  match socket_from_handle t handle with
  | None => (TCP_ERR_INVALID, t)
  | Some s =>
      if negb (bool_decide (state s = TCP_STATE_CLOSED)) || app_closed s then (TCP_ERR_INVALID, t)
      else if port_in_use t port then (TCP_ERR_IN_USE, t)
      else
        let back := if back =? 0 then 1 else back in
        let back := if TCP_ACCEPT_BACKLOG_MAX <? back then TCP_ACCEPT_BACKLOG_MAX else back in
        (TCP_OK, put_socket handle (s <| local_port := port |> <| local_address := 0 |> <| backlog := back |>
                                      <| state := TCP_STATE_LISTEN |>) t)
  end.

(** The queue without its first entry: each moves one place forward, the last
    place keeps what it had. *)
Definition shift_queue (q : list Z) (n : Z) : list Z :=
  foldl (λ q k, aset q (k - 1) (aget 0 q k)) q (seqZ 1 (n - 1)).

(** [src/net/transport/tcp.c:1103-1122] tcp_accept *)
Definition accept_round (handle timeout_ms deadline now : Z) t : round Z * tcp W :=
  let s := socket_at t handle in
  if negb (used s) || negb (bool_decide (state s = TCP_STATE_LISTEN)) then (Done TCP_ERR_INVALID, t)
  else if negb (accept_count s =? 0) then
    let r := aget 0 (accept_queue s) 0 in
    let t := put_socket handle (s <| accept_queue := shift_queue (accept_queue s) (accept_count s) |>
                                  <| accept_count := accept_count s - 1 |>) t in
    (Done r, put_socket r ((socket_at t r) <| parent := -1 |>) t)
  else if gives_up timeout_ms deadline now then (Done TCP_ERR_WOULD_BLOCK, t)
  else (Wait, t).

(** [src/net/transport/tcp.c:1128-1131] can_send_state *)
Definition can_send_state s : bool :=
  bool_decide (state s = TCP_STATE_ESTABLISHED) || bool_decide (state s = TCP_STATE_CLOSE_WAIT).

(** [src/net/transport/tcp.c:1149-1188] tcp_send *)
Definition send_round (handle : Z) (data : list Z) (timeout_ms deadline now : Z) t : round Z * tcp W :=
  let s := socket_at t handle in
  if negb (used s) then (Done TCP_ERR_INVALID, t)
  else if bool_decide (state s = TCP_STATE_CLOSED) then (Done (if negb (error s =? 0) then error s else TCP_ERR_NOT_CONNECTED), t)
  else if fin_queued s || negb (can_send_state s || bool_decide (state s = TCP_STATE_SYN_SENT) || bool_decide (state s = TCP_STATE_SYN_RECEIVED))
  then (Done TCP_ERR_NOT_CONNECTED, t)
  else
    let space := u32 (TCP_BUFFER_SIZE - tx_length s) in
    let n := Z.of_nat (length data) in
    if can_send_state s && (n =? 0) then (Done 0, t)
    else if can_send_state s && negb (space =? 0) then
      let k := min_u32 n space in
      let s := s <| tx_buffer := ring_write (tx_start s) (tx_length s) (take (Z.to_nat k) data) (tx_buffer s) |>
                 <| tx_length := u32 (tx_length s + k) |> in
      let '(s, t) := tcp_output now s t in
      (Done (i32 k), put_socket handle s t)
    else if gives_up timeout_ms deadline now then (Done TCP_ERR_WOULD_BLOCK, t)
    else (Wait, t).

(** The result and the bytes delivered.
    [src/net/transport/tcp.c:1210-1257] tcp_receive *)
Definition receive_round (handle size timeout_ms deadline now : Z) t : round (Z * list Z) * tcp W :=
  let s := socket_at t handle in
  if negb (used s) then (Done (TCP_ERR_INVALID, []), t)
  else if negb (rx_length s =? 0) then
    let window_before := receive_window s in
    let k := min_u32 size (rx_length s) in
    let data := ring_read (rx_buffer s) (rx_start s) 0 k in
    let s := s <| rx_start := u32 (rx_start s + k) mod TCP_BUFFER_SIZE |> <| rx_length := rx_length s - k |> in
    if negb (bool_decide (state s = TCP_STATE_CLOSED)) && negb (bool_decide (state s = TCP_STATE_TIME_WAIT)) &&
       ((window_before <? mss s) || (u32 (mss s * 2) <=? u32 (receive_window s - window_before)))
    then let '(s, t) := send_ack s t in (Done (i32 k, data), put_socket handle s t)
    else (Done (i32 k, data), put_socket handle s t)
  else if negb (error s =? 0) then (Done (error s, []), t)
  else if fin_received s then (Done (0, []), t)
  else
    match state s with
    | TCP_STATE_CLOSED => (Done (TCP_ERR_NOT_CONNECTED, []), t)
    | TCP_STATE_SYN_SENT | TCP_STATE_SYN_RECEIVED | TCP_STATE_ESTABLISHED | TCP_STATE_FIN_WAIT_1 | TCP_STATE_FIN_WAIT_2 =>
        if gives_up timeout_ms deadline now then (Done (TCP_ERR_WOULD_BLOCK, []), t) else (Wait, t)
    | _ => (Done (0, []), t)
    end.

(** The checks before the loop of [tcp_accept], [tcp_send] and [tcp_receive].
    [src/net/transport/tcp.c:1139-1144] tcp_send *)
Definition send_allowed (handle : Z) t : bool :=
  match socket_from_handle t handle with Some s => negb (app_closed s) | None => false end.
(** [src/net/transport/tcp.c:1200-1205] tcp_receive *)
Definition receive_allowed (handle : Z) t : bool :=
  match socket_from_handle t handle with
  | Some s => negb (app_closed s) && negb (bool_decide (state s = TCP_STATE_LISTEN))
  | None => false
  end.

(** [src/net/transport/tcp.c:1278-1305] tcp_close *)
Definition tcp_close (handle now : Z) t : Z * tcp W :=
  match socket_from_handle t handle with
  | None => (TCP_ERR_INVALID, t)
  | Some s =>
      if app_closed s then (TCP_ERR_INVALID, t) else
      let s := s <| app_closed := true |> in
      (TCP_OK,
       match state s with
       | TCP_STATE_LISTEN => put_socket handle socket_release (abort_children handle t)
       | TCP_STATE_CLOSED | TCP_STATE_SYN_SENT => put_socket handle socket_release t
       | TCP_STATE_SYN_RECEIVED | TCP_STATE_ESTABLISHED | TCP_STATE_CLOSE_WAIT =>
           let '(s, t) := tcp_output now (s <| fin_queued := true |>) t in put_socket handle s t
       | _ => put_socket handle s t
       end)
  end.

(** [src/net/transport/tcp.c:1307-1320] tcp_abort *)
Definition tcp_abort (handle : Z) t : Z * tcp W :=
  match socket_from_handle t handle with
  | None => (TCP_ERR_INVALID, t)
  | Some s =>
      let t := if bool_decide (state s = TCP_STATE_LISTEN) then abort_children handle t
               else if connected s then reset_peer (snd_nxt s) s t else t in
      (TCP_OK, put_socket handle socket_release t)
  end.
End tcp.

Arguments Done {A} _.
Arguments Wait {A}.
