(* ===== verification/TcpSpec.v ===== *)
(** * What the parts of TCP do

    Sequence numbers as positions in a stream, the two rings as circular buffers
    ([Ring]), what each function of [Tcp] leaves as it was, and the loop of the
    output. *)

From S2P Require Import Prelude NetBytes Ring Tcp.

(** ** Sequence numbers

    A number of a connection is its first number plus a position, modulo 2^32;
    the comparisons are those of the positions as long as these are less than
    2^31 apart. *)

Lemma u32_add_l a b : u32 (u32 a + b) = u32 (a + b).
Proof. unfold u32. apply Zplus_mod_idemp_l. Qed.
Lemma u32_add_r a b : u32 (a + u32 b) = u32 (a + b).
Proof. unfold u32. apply Zplus_mod_idemp_r. Qed.
Lemma u32_sub_l a b : u32 (u32 a - b) = u32 (a - b).
Proof. unfold u32. apply Zminus_mod_idemp_l. Qed.
Lemma u32_sub_r a b : u32 (a - u32 b) = u32 (a - b).
Proof. unfold u32. apply Zminus_mod_idemp_r. Qed.
Lemma i32_cong a b : u32 a = u32 b → i32 a = i32 b.
Proof. unfold u32, i32. intros E. rewrite <- (Zplus_mod_idemp_l a), E, Zplus_mod_idemp_l. done. Qed.

Lemma u32_distance b x y : u32 (u32 (b + x) - u32 (b + y)) = u32 (x - y).
Proof. rewrite u32_sub_l, u32_sub_r. f_equal. lia. Qed.
Lemma i32_distance b x y : i32 (u32 (b + x) - u32 (b + y)) = i32 (x - y).
Proof. apply i32_cong, u32_distance. Qed.

Lemma u32_inj b x y : - 2 ^ 32 < x - y < 2 ^ 32 → u32 (b + x) = u32 (b + y) → x = y.
Proof.
  intros H E. assert (u32 (x - y) = 0) as D by (rewrite <- (u32_distance b), E, Z.sub_diag; done).
  unfold u32 in D. apply Z.mod_divide in D as [k Hk]; [|lia]. assert (k = 0) by lia. lia.
Qed.

Section positions.
Context (b x y : Z).
Context (near : - 2 ^ 31 < x - y < 2 ^ 31).
#[local] Set Default Proof Using "All".

Lemma seq_lt : SEQ_LT (u32 (b + x)) (u32 (b + y)) = (x <? y).
Proof. unfold SEQ_LT. rewrite i32_distance, i32_small by lia. destruct (Z.ltb_spec x y), (Z.ltb_spec (x - y) 0); lia || done. Qed.
Lemma seq_leq : SEQ_LEQ (u32 (b + x)) (u32 (b + y)) = (x <=? y).
Proof. unfold SEQ_LEQ. rewrite i32_distance, i32_small by lia. destruct (Z.leb_spec x y), (Z.leb_spec (x - y) 0); lia || done. Qed.
Lemma seq_gt : SEQ_GT (u32 (b + x)) (u32 (b + y)) = (y <? x).
Proof. unfold SEQ_GT. rewrite i32_distance, i32_small by lia. destruct (Z.ltb_spec y x), (Z.ltb_spec 0 (x - y)); lia || done. Qed.
Lemma seq_eq : (u32 (b + x) =? u32 (b + y)) = (x =? y).
Proof.
  destruct (Z.eqb_spec (u32 (b + x)) (u32 (b + y))) as [E|N], (Z.eqb_spec x y) as [->|N']; try done.
  by apply u32_inj in E; [|lia].
Qed.
End positions.

(** ** The rings *)

Lemma buffer_size : TCP_BUFFER_SIZE = 16384.
Proof. done. Qed.

Lemma min_u32_min a b : min_u32 a b = a `min` b.
Proof. unfold min_u32. destruct (Z.ltb_spec a b); lia. Qed.
Lemma max_u32_max a b : max_u32 a b = a `max` b.
Proof. unfold max_u32. destruct (Z.ltb_spec b a); lia. Qed.

Lemma bytes_from_ring ring position n : 0 ≤ position → position + n ≤ TCP_BUFFER_SIZE →
  bytes_from ring position n = ring_contents TCP_BUFFER_SIZE ring position n.
Proof.
  intros Hp Hn. unfold bytes_from, ring_contents. apply list_fmap_ext. intros k i Hi.
  apply lookup_seqZ in Hi as [-> Hk]. by rewrite Z.mod_small by lia.
Qed.
Lemma store_from_ring data : ∀ ring position, 0 ≤ position → position + Z.of_nat (length data) ≤ TCP_BUFFER_SIZE →
  store_from position data ring = ring_store TCP_BUFFER_SIZE position data ring.
Proof.
  induction data as [|b data IH]; intros ring position Hp Hl; [done|]. cbn [store_from ring_store length] in *.
  rewrite IH by lia. by rewrite (Z.mod_small position) by lia.
Qed.
Lemma ring_store_shift cap k data : ∀ position ring, cap ≠ 0 →
  ring_store cap (position + k * cap) data ring = ring_store cap position data ring.
Proof.
  induction data as [|b data IH]; intros position ring Hc; [done|]. cbn [ring_store].
  rewrite Z.mod_add by done.
  replace (position + k * cap + 1) with (position + 1 + k * cap) by lia. by apply IH.
Qed.
Lemma ring_store_mod cap position data ring : 0 < cap →
  ring_store cap (position mod cap) data ring = ring_store cap position data ring.
Proof.
  intros Hc. rewrite (Z.div_mod position cap) at 2 by lia.
  rewrite Z.add_comm, Z.mul_comm, ring_store_shift; [done|lia].
Qed.
Lemma ring_store_app cap data1 data2 : ∀ position ring,
  ring_store cap position (data1 ++ data2) ring =
  ring_store cap (position + Z.of_nat (length data1)) data2 (ring_store cap position data1 ring).
Proof.
  induction data1 as [|b data1 IH]; intros position ring; cbn [ring_store length app]; [by rewrite Z.add_0_r|].
  rewrite IH. f_equal. lia.
Qed.

(** The two copies are one from or to a circular buffer. *)
Lemma ring_read_contents ring start offset n : 0 ≤ start + offset < 2 ^ 32 → 0 ≤ n ≤ TCP_BUFFER_SIZE →
  ring_read ring start offset n = ring_contents TCP_BUFFER_SIZE ring (start + offset) n.
Proof.
  intros Hs Hn. unfold ring_read. rewrite u32_small by lia. rewrite min_u32_min.
  set (p := (start + offset) mod TCP_BUFFER_SIZE).
  assert (0 ≤ p < TCP_BUFFER_SIZE) as Hp by (apply Z.mod_pos_bound; rewrite buffer_size; lia).
  rewrite <- (ring_contents_mod TCP_BUFFER_SIZE ring (start + offset)) by (rewrite buffer_size; lia). fold p.
  destruct (Z.ltb_spec (n `min` (TCP_BUFFER_SIZE - p)) n) as [L|L].
  - replace (n `min` (TCP_BUFFER_SIZE - p)) with (TCP_BUFFER_SIZE - p) by lia. rewrite !bytes_from_ring by lia.
    replace n with (TCP_BUFFER_SIZE - p + (n - (TCP_BUFFER_SIZE - p))) at 2 by lia.
    rewrite ring_contents_split by lia. f_equal.
    rewrite <- (ring_contents_shift TCP_BUFFER_SIZE ring 0 1) by (rewrite buffer_size; lia). f_equal; lia.
  - replace (n `min` (TCP_BUFFER_SIZE - p)) with n by lia. rewrite app_nil_r. apply bytes_from_ring; lia.
Qed.

Lemma ring_write_store ring start offset data : 0 ≤ start + offset < 2 ^ 32 → Z.of_nat (length data) ≤ TCP_BUFFER_SIZE →
  ring_write start offset data ring = ring_store TCP_BUFFER_SIZE (start + offset) data ring.
Proof.
  intros Hs Hn. unfold ring_write. rewrite u32_small by lia. cbv zeta. rewrite min_u32_min.
  set (p := (start + offset) mod TCP_BUFFER_SIZE). set (n := Z.of_nat (length data)) in *.
  assert (0 ≤ p < TCP_BUFFER_SIZE) as Hp by (apply Z.mod_pos_bound; rewrite buffer_size; lia).
  rewrite <- (ring_store_mod TCP_BUFFER_SIZE (start + offset)) by (rewrite buffer_size; lia). fold p.
  destruct (Z.ltb_spec (n `min` (TCP_BUFFER_SIZE - p)) n) as [L|L].
  - replace (n `min` (TCP_BUFFER_SIZE - p)) with (TCP_BUFFER_SIZE - p) by lia.
    set (k := Z.to_nat (TCP_BUFFER_SIZE - p)). rewrite <- (take_drop k data) at 3.
    assert (length (take k data) = k) as Lk by (rewrite length_take; lia).
    rewrite ring_store_app, Lk. rewrite !store_from_ring by (rewrite ?length_take, ?length_drop; lia).
    rewrite <- (ring_store_shift TCP_BUFFER_SIZE 1 _ 0) by (rewrite buffer_size; lia). f_equal. lia.
  - replace (n `min` (TCP_BUFFER_SIZE - p)) with n by lia. rewrite take_ge by lia. by rewrite store_from_ring by lia.
Qed.

(** ** What a function leaves as it was

    The fields in groups: who the socket is, what it received, what it has to
    send, how far that is sent. *)

Definition who_of (s : tcp_socket) :=
  (used s, app_closed s, owner s, device s, (local_address s, remote_address s, local_port s, remote_port s), parent s, iss s, irs s).
Definition rx_of (s : tcp_socket) := (rcv_nxt s, fin_received s, rx_start s, rx_length s, rx_buffer s).
Definition tx_of (s : tcp_socket) := (snd_una s, mss s, tx_start s, tx_length s, tx_buffer s, fin_queued s).
Definition flow_of (s : tcp_socket) := (snd_nxt s, snd_max s, fin_seq_set s, fin_seq s).
Definition queue_of (s : tcp_socket) := (backlog s, accept_queue s, accept_count s).

(** The fields of a group. *)
Lemma who_fields s s' : who_of s' = who_of s → used s' = used s ∧ app_closed s' = app_closed s ∧ owner s' = owner s ∧
  device s' = device s ∧ local_address s' = local_address s ∧ remote_address s' = remote_address s ∧ local_port s' = local_port s ∧
  remote_port s' = remote_port s ∧ parent s' = parent s ∧ iss s' = iss s ∧ irs s' = irs s.
Proof. unfold who_of. intros [=]. split_and!; done. Qed.
Lemma rx_fields s s' : rx_of s' = rx_of s → rcv_nxt s' = rcv_nxt s ∧ fin_received s' = fin_received s ∧ rx_start s' = rx_start s ∧
  rx_length s' = rx_length s ∧ rx_buffer s' = rx_buffer s.
Proof. unfold rx_of. intros [=]. split_and!; done. Qed.
Lemma tx_fields s s' : tx_of s' = tx_of s → snd_una s' = snd_una s ∧ mss s' = mss s ∧ tx_start s' = tx_start s ∧
  tx_length s' = tx_length s ∧ tx_buffer s' = tx_buffer s ∧ fin_queued s' = fin_queued s.
Proof. unfold tx_of. intros [=]. split_and!; done. Qed.
Lemma flow_fields s a b c d : flow_of s = (a, b, c, d) → snd_nxt s = a ∧ snd_max s = b ∧ fin_seq_set s = c ∧ fin_seq s = d.
Proof. unfold flow_of. intros [=]. split_and!; done. Qed.

(** All but how far it is sent, the timers and the state. *)
Definition keeps (s s' : tcp_socket) : Prop :=
  who_of s' = who_of s ∧ rx_of s' = rx_of s ∧ tx_of s' = tx_of s ∧ queue_of s' = queue_of s ∧ error s' = error s.
#[export] Instance keeps_preorder : PreOrder keeps.
Proof.
  split; [by intros s|]. intros s1 s2 s3 (A1&A2&A3&A4&A5) (B1&B2&B3&B4&B5). split_and!; congruence.
Qed.

(** A connection that ends is released when the application has closed it. *)
Definition ended (e : Z) (s : tcp_socket) : tcp_socket :=
  s <| error := if error s =? 0 then e else error s |> <| state := TCP_STATE_CLOSED |> <| timer_armed := false |> <| fin_received := true |>.
Lemma enter_closed_cases e s : enter_closed e s = if app_closed s then socket_reset else ended e s.
Proof. reflexivity. Qed.

(** [keeps] of updates that do not touch the fields. *)
Ltac keeps := repeat lazymatch goal with |- keeps _ _ => unfold keeps | |- _ ∧ _ => split end; reflexivity.

(** A packet as it is given to IPv4. *)
Record packet := Packet {
  p_device : Z;
  p_source : Z;
  p_destination : Z;
  p_protocol : Z;
  p_payload : list Z;
}.

(** The segment that [emit_segment] builds, and the one of [send_reset]. *)
Definition wire (sequence flags : Z) (data : list Z) (with_mss : bool) (s : tcp_socket) : packet :=
  let header_length := if with_mss then TCP_HEADER_LENGTH + 4 else TCP_HEADER_LENGTH in
  let ack := if negb (Z.land flags TCP_FLAG_ACK =? 0) then rcv_nxt s else 0 in
  let options := if with_mss then [TCP_OPTION_MSS; 4] ++ net_write_be16 (u16 TCP_MAX_MSS) else [] in
  let bytes checksum := segment_bytes (local_port s) (remote_port s) sequence ack header_length flags
                          (u16 (receive_window s)) checksum options data in
  Packet (device s) (local_address s) (remote_address s) IPV4_PROTOCOL_TCP
    (bytes (tcp_checksum (local_address s) (remote_address s) (bytes 0))).
Definition reset_packet (dev laddr raddr lport rport sequence ack flags : Z) : packet :=
  let bytes checksum := segment_bytes lport rport sequence ack TCP_HEADER_LENGTH flags 0 checksum [] [] in
  Packet dev laddr raddr IPV4_PROTOCOL_TCP (bytes (tcp_checksum laddr raddr (bytes 0))).

Section packets.
Context {W : Type} `{Ipv4 W}.
#[local] Set Default Proof Using "Type".
Implicit Types (s : tcp_socket) (t : tcp W) (w : W).

(** What the state has beside the statistics and the layers below. *)
Definition table_of t := (sockets t, next_ephemeral t, isn_counter t).

(** *** What goes out

    The packets given to IPv4 between two states of the layers below, each with a
    property. *)

Definition send_packet (p : packet) w : W :=
  (ipv4_send_from (p_device p) (p_source p) (p_destination p) (p_protocol p) (p_payload p) w).2.
Definition emits (good : packet → Prop) : relation W := rtc (λ w w', ∃ p, good p ∧ w' = send_packet p w).

Lemma emits_nothing good w : emits good w w.
Proof. apply rtc_refl. Qed.
Lemma emits_trans good w1 w2 w3 : emits good w1 w2 → emits good w2 w3 → emits good w1 w3.
Proof. intros A B. by transitivity w2. Qed.
Lemma emits_mono (good good' : packet → Prop) w w' : (∀ p, good p → good' p) → emits good w w' → emits good' w w'.
Proof. intros G. apply rtc_subrel. intros w1 w2 (p&P&->). exists p. auto. Qed.
Lemma emits_one (good : packet → Prop) p w : good p → emits good w (send_packet p w).
Proof. intros G. apply rtc_once. by exists p. Qed.

(** *** Segments *)

Lemma emit_segment_wire sequence flags data with_mss s t : Z.of_nat (length data) ≤ TCP_MAX_MSS → (with_mss = true → data = []) →
  ∃ b t', emit_segment sequence flags data with_mss s t = (s <| arp_pending := b |>, t') ∧
    table_of t' = table_of t ∧ net t' = send_packet (wire sequence flags data with_mss s) (net t).
Proof.
  intros Hd Hm. unfold emit_segment. assert (TCP_MAX_MSS = 1460) as EM by done. assert (TCP_HEADER_LENGTH = 20) as EH by done.
  destruct (Z.ltb_spec 1500 ((if with_mss then TCP_HEADER_LENGTH + 4 else TCP_HEADER_LENGTH) + Z.of_nat (length data))) as [L|_].
  { destruct with_mss; [rewrite Hm in L by done; cbn in L|]; lia. }
  unfold send_packet, wire. cbn [p_device p_source p_destination p_protocol p_payload]. cbv zeta.
  change (net (count_stat _ t)) with (net t). destruct (ipv4_send_from _ _ _ _ _ _) as [r w]. by eexists _, _.
Qed.

Lemma send_reset_wire dev laddr raddr lport rport sequence ack flags t :
  let t' := send_reset dev laddr raddr lport rport sequence ack flags t in
  table_of t' = table_of t ∧ net t' = send_packet (reset_packet dev laddr raddr lport rport sequence ack flags) (net t).
Proof.
  cbv zeta. unfold send_reset, send_packet, reset_packet. cbn [p_device p_source p_destination p_protocol p_payload]. cbv zeta.
  change (net (count_stat _ t)) with (net t). by destruct (ipv4_send_from _ _ _ _ _ _) as [r w].
Qed.

(** *** A logic of the functions on one socket

    [run good t r post]: [r], the socket and the state that a function returns from
    state [t], has a socket with [post]; other sockets are as they were, but that a
    listener may have queued a connection; and the packets sent are [good]. *)

Definition is_socket (i : Z) : Prop := 0 ≤ i < Z.of_nat TCP_SOCKET_CAPACITY.
Definition queue_is (q : list Z) (n : Z) : Prop := length q = 4%nat ∧ Forall is_socket q ∧ 0 ≤ n ≤ TCP_ACCEPT_BACKLOG_MAX.
Definition queue_ok s : Prop := queue_is (accept_queue s) (accept_count s).
Lemma queue_push q n i : is_socket i → n < TCP_ACCEPT_BACKLOG_MAX → queue_is q n → queue_is (aset q n i) (n + 1).
Proof.
  intros Hi Hn (Q1&Q2&Q3). unfold TCP_ACCEPT_BACKLOG_MAX in *. split; [by rewrite length_aset|]. split; [by apply Forall_insert|unfold TCP_ACCEPT_BACKLOG_MAX; lia].
Qed.
Definition aside s s' : Prop :=
  s' = s ∨ state s = TCP_STATE_LISTEN ∧ ∃ q n, s' = s <| accept_queue := q |> <| accept_count := n |> ∧ (queue_ok s → queue_ok s').
#[export] Instance aside_preorder : PreOrder aside.
Proof.
  split; [by left|]. intros s1 s2 s3 [->|(S1&q&n&->&Q1)]; [done|]. intros [->|(S2&q'&n'&->&Q2)]; right; (split; [done|]).
  - by exists q, n.
  - exists q', n'. split; [done|]. auto.
Qed.
Definition table_near t t' : Prop :=
  length (sockets t') = length (sockets t) ∧ next_ephemeral t' = next_ephemeral t ∧ isn_counter t' = isn_counter t ∧
  ∀ j, 0 ≤ j → aside (socket_at t j) (socket_at t' j).
#[export] Instance table_near_preorder : PreOrder table_near.
Proof.
  split; [done|]. intros t1 t2 t3 (A1&A2&A3&A4) (B1&B2&B3&B4). split_and!; try congruence.
  intros j Hj. transitivity (socket_at t2 j); auto.
Qed.
Lemma table_near_same t t' : table_of t' = table_of t → table_near t t'.
Proof. unfold table_of. intros [= A B C]. split_and!; try congruence. intros j _. left. unfold socket_at. by rewrite A. Qed.

Definition run (good : packet → Prop) t (r : tcp_socket * tcp W) (post : tcp_socket → Prop) : Prop :=
  post r.1 ∧ table_near t r.2 ∧ emits good (net t) (net r.2).

Lemma run_return good s t (post : tcp_socket → Prop) : post s → run good t (s, t) post.
Proof. intros P. split; [done|]. split; [done|]. apply emits_nothing. Qed.
Lemma run_mono (good good' : packet → Prop) t r (post post' : tcp_socket → Prop) :
  (∀ p, good p → good' p) → (∀ s, post s → post' s) → run good t r post → run good' t r post'.
Proof. intros G P (R1&R2&R3). split; [auto|]. split; [done|]. by apply (emits_mono good). Qed.
Lemma run_bind good t r (f : tcp_socket → tcp W → tcp_socket * tcp W) (mid post : tcp_socket → Prop) :
  run good t r mid → (∀ s' t', mid s' → run good t' (f s' t') post) → run good t (let '(s', t') := r in f s' t') post.
Proof.
  destruct r as [s' t']. intros (R1&R2&R3) F. destruct (F s' t' R1) as (F1&F2&F3). split; [done|].
  split; [by transitivity t'|]. by apply emits_trans with (net t').
Qed.
(** What is counted changes nothing else. *)
Lemma run_count good c t r post : run good (count_stat c t) r post → run good t r post.
Proof. done. Qed.
Lemma run_return_count good c s t (post : tcp_socket → Prop) : post s → run good t (s, count_stat c t) post.
Proof. intros P. exact (run_count good c t _ post (run_return good s (count_stat c t) post P)). Qed.
Lemma run_net good (r : tcp_socket * tcp W) t t' post : table_of t' = table_of t → emits good (net t) (net t') →
  run good t' r post → run good t r post.
Proof.
  intros T E (R1&R2&R3). split; [done|]. split; [transitivity t'; [by apply table_near_same|done]|]. by apply emits_trans with (net t').
Qed.

(** A segment is sent; the socket notes whether it waits for the address. *)
Lemma run_emit (good : packet → Prop) sequence flags data with_mss s t (post : tcp_socket → Prop) :
  Z.of_nat (length data) ≤ TCP_MAX_MSS → (with_mss = true → data = []) → good (wire sequence flags data with_mss s) →
  (∀ b, post (s <| arp_pending := b |>)) → run good t (emit_segment sequence flags data with_mss s t) post.
Proof.
  intros Hd Hm G P. destruct (emit_segment_wire sequence flags data with_mss s t Hd Hm) as (b&t'&->&T&N). split; [apply P|].
  split; [by apply table_near_same|]. cbn [snd]. rewrite N. by apply emits_one.
Qed.
Lemma run_reset (good : packet → Prop) s t dev laddr raddr lport rport sequence ack flags (post : tcp_socket → Prop) :
  good (reset_packet dev laddr raddr lport rport sequence ack flags) → post s →
  run good t (s, send_reset dev laddr raddr lport rport sequence ack flags t) post.
Proof.
  intros G P. destruct (send_reset_wire dev laddr raddr lport rport sequence ack flags t) as [T N].
  apply (run_net good _ t (send_reset dev laddr raddr lport rport sequence ack flags t)); [done| |by apply run_return]. rewrite N. by apply emits_one.
Qed.

Lemma run_and good good' t r (P Q : tcp_socket → Prop) : run good t r P → run good' t r Q → run good t r (λ s, P s ∧ Q s).
Proof. intros (R1&R2&R3) (Q1&_). done. Qed.

Lemma emit_segment_shape sequence flags data with_mss s t :
  ∃ b t', emit_segment sequence flags data with_mss s t = (s <| arp_pending := b |>, t').
Proof.
  unfold emit_segment. destruct (_ <? _); [exists (arp_pending s), t; by destruct s|]. cbv zeta.
  destruct (ipv4_send_from _ _ _ _ _ _). by eexists _, _.
Qed.

(** Whatever its length. *)
Lemma run_emit_any sequence flags data with_mss s t (post : tcp_socket → Prop) :
  post s → (∀ b, post (s <| arp_pending := b |>)) →
  run (λ _, True) t (emit_segment sequence flags data with_mss s t) post.
Proof.
  intros P0 P. unfold emit_segment. destruct (_ <? _); [by apply run_return|]. cbv zeta.
  change (net (count_stat _ t)) with (net t). set (pk := segment_bytes _ _ _ _ _ _ _ _ _ _).
  pose proof (emits_one (λ _, True) (Packet (device s) (local_address s) (remote_address s) IPV4_PROTOCOL_TCP pk) (net t) I) as E.
  unfold send_packet in E. cbn [p_device p_source p_destination p_protocol p_payload] in E. destruct (ipv4_send_from _ _ _ _ _ _) as [r w].
  split; [apply P|]. split; [by apply table_near_same|exact E].
Qed.

(** *** The output *)

(** The output leaves who the socket is, what it received and what it has to send,
    and moves the state only by a FIN. *)
Definition outputs s s' : Prop :=
  keeps s s' ∧ (state s' = state s ∨ state s = TCP_STATE_ESTABLISHED ∧ state s' = TCP_STATE_FIN_WAIT_1 ∨
                state s = TCP_STATE_CLOSE_WAIT ∧ state s' = TCP_STATE_LAST_ACK).
#[export] Instance outputs_preorder : PreOrder outputs.
Proof.
  split; [intros s; split; [done|by left]|]. intros s1 s2 s3 (K&A) (K'&B). split; [by transitivity s2|].
  destruct A as [A|[[A1 A2]|[A1 A2]]], B as [B|[[B1 B2]|[B1 B2]]]; rewrite ?A, ?B in *; auto; congruence.
Qed.
Lemma outputs_step s s1 s2 : outputs s s1 → keeps s1 s2 → state s2 = state s1 → outputs s s2.
Proof. intros O K E. transitivity s1; [done|]. split; [done|by left]. Qed.

Ltac outputs_step := eapply outputs_step; [eassumption|keeps|reflexivity].

Lemma arm_timer_keeps now s : keeps s (arm_timer now s) ∧ state (arm_timer now s) = state s ∧ flow_of (arm_timer now s) = flow_of s.
Proof. keeps. Qed.

Lemma advance_keeps now n s : keeps s (advance now n s) ∧ state (advance now n s) = state s ∧
  flow_of (advance now n s) =
    (u32 (snd_nxt s + n), (if SEQ_GT (u32 (snd_nxt s + n)) (snd_max s) then u32 (snd_nxt s + n) else snd_max s), fin_seq_set s, fin_seq s).
Proof.
  unfold advance. cbv zeta. set (v := u32 (snd_nxt s + n)). set (b := SEQ_GT v (snd_max s)).
  set (s1 := if b then note_send_for_rtt now v s else s).
  assert (keeps s s1 ∧ state s1 = state s ∧ flow_of s1 = flow_of s) as (K&S&F).
  { unfold s1, note_send_for_rtt. destruct b; [destruct (rtt_active s)|]; keeps. }
  apply flow_fields in F as (F1&F2&F3&F4).
  change (SEQ_GT (snd_nxt (s1 <| snd_nxt := u32 (snd_nxt s1 + n) |>)) (snd_max (s1 <| snd_nxt := u32 (snd_nxt s1 + n) |>)))
    with (SEQ_GT (u32 (snd_nxt s1 + n)) (snd_max s1)). rewrite F1, F2. fold v. change (SEQ_GT v (snd_max s)) with b.
  set (s2 := s1 <| snd_nxt := v |>). set (s3 := if b then s2 <| snd_max := snd_nxt s2 |> else s2).
  assert (keeps s1 s3 ∧ state s3 = state s1 ∧ flow_of s3 = (v, if b then v else snd_max s1, fin_seq_set s1, fin_seq s1)) as (K3&S3&F3').
  { unfold s3, s2. destruct b; keeps. }
  rewrite F2, F3, F4 in F3'. destruct (negb (timer_armed s3)).
  - destruct (arm_timer_keeps now s3) as (K4&S4&F5). split; [transitivity s1; [done|by transitivity s3]|]. split; congruence.
  - split; [by transitivity s1|]. split; congruence.
Qed.

Lemma output_loop_step fuel now window s t : output_loop fuel now window s t =
  match next_length window s with
  | None => (true, s, t)
  | Some n =>
      match fuel with
      | O => (false, s, t)
      | S fuel =>
          let '(s', t') := emit_segment (snd_nxt s) (if n =? unsent_bytes s then Z.lor TCP_FLAG_ACK TCP_FLAG_PSH else TCP_FLAG_ACK)
                             (ring_read (tx_buffer s) (tx_start s) (u32 (snd_nxt s - snd_una s)) n) false s t in
          output_loop fuel now window (advance now n s') t'
      end
  end.
Proof. by destruct fuel. Qed.

(** The loop as an invariant rule: each round sends a segment of some length and moves on. *)
Lemma run_output_loop good now window (I : tcp_socket → Prop) fuel : ∀ s t, I s →
  (∀ s n t, I s → next_length window s = Some n →
     run good t (emit_segment (snd_nxt s) (if n =? unsent_bytes s then Z.lor TCP_FLAG_ACK TCP_FLAG_PSH else TCP_FLAG_ACK)
                  (ring_read (tx_buffer s) (tx_start s) (u32 (snd_nxt s - snd_una s)) n) false s t) (λ s', I (advance now n s'))) →
  let '(_, s', t') := output_loop fuel now window s t in run good t (s', t') I.
Proof.
  induction fuel as [|fuel IH]; intros s t Is Step; rewrite output_loop_step; destruct (next_length window s) as [n|] eqn:E;
    try by apply run_return.
  specialize (Step s n t Is E) as R. destruct (emit_segment _ _ _ _ _ _) as [s1 t1]. destruct R as (R1&R2&R3).
  specialize (IH (advance now n s1) t1 R1 Step). destruct (output_loop _ _ _ _ _) as [[b s'] t']. destruct IH as (I1&I2&I3).
  split; [done|]. split; [by transitivity t1|]. by apply emits_trans with (net t1).
Qed.

Lemma advance_outputs now n s0 s : outputs s0 s → outputs s0 (advance now n s).
Proof. intros O. destruct (advance_keeps now n s) as (K&S&_). by apply (outputs_step s0 s). Qed.

Lemma output_fin_outputs now s0 s t : outputs s0 s → run (λ _, True) t (output_fin now s t) (outputs s0).
Proof.
  intros O. unfold output_fin. destruct (_ && _); [|by apply run_return]. cbv zeta.
  set (s1 := if negb (fin_seq_set s) then _ else s). assert (outputs s0 s1) as O1 by (unfold s1; destruct (negb _); [outputs_step|done]).
  clearbody s1. eapply run_bind; [apply (run_emit_any _ _ _ _ _ _ (outputs s0)); [done|intros b; outputs_step]|].
  intros s' t' O'. apply run_return. set (s2 := s' <| snd_nxt := u32 (snd_nxt s' + 1) |>).
  assert (outputs s0 s2) as O2 by (unfold s2; outputs_step). clearbody s2. set (s3 := if SEQ_GT _ _ then _ else s2).
  assert (outputs s0 s3) as O3 by (unfold s3; destruct (SEQ_GT _ _); [outputs_step|done]). clearbody s3.
  set (s4 := match state s3 with TCP_STATE_ESTABLISHED => _ | _ => _ end).
  assert (outputs s0 s4) as O4.
  { transitivity s3; [done|]. unfold s4. destruct (state s3) eqn:E; try done.
    - split; [keeps|]. right; left. by rewrite E.
    - split; [keeps|]. right; right. by rewrite E. }
  clearbody s4. destruct (negb _); [|done]. destruct (arm_timer_keeps now s4) as (K&S&_). by apply (outputs_step s0 s4).
Qed.

Lemma output_outputs now s t : run (λ _, True) t (tcp_output now s t) (outputs s).
Proof.
  unfold tcp_output. assert (outputs s s) as O0 by done.
  pose proof (run_output_loop (λ _, True) now (min_u32 (snd_wnd s) (cwnd s)) (outputs s) (Z.to_nat (unsent_bytes s)) s t O0) as L.
  cbv zeta. destruct (output_loop _ _ _ _ _) as [[b s'] t'].
  assert (run (λ _, True) t (s', t') (outputs s)) as R.
  { apply L. intros s1 n t1 O1 _. apply run_emit_any; [by apply advance_outputs|]. intros b1. apply advance_outputs. outputs_step. }
  pose proof (run_bind _ t (s', t') (output_fin now) _ _ R (λ s1 t1, output_fin_outputs now s s1 t1)) as R2.
  destruct (state s); try exact R2; by apply run_return.
Qed.

(** What a retransmission or an answer leaves as it was. *)
Definition answers s s' : Prop := keeps s s' ∧ state s' = state s ∧ flow_of s' = flow_of s.
#[export] Instance answers_preorder : PreOrder answers.
Proof. split; [done|]. intros s1 s2 s3 (A1&A2&A3) (B1&B2&B3). split; [by transitivity s2|]. split; congruence. Qed.

Ltac answers := intros; unfold answers; keeps.

Lemma retransmit_answers s t : run (λ _, True) t (retransmit_head s t) (answers s).
Proof.
  unfold retransmit_head. cbv zeta. apply (run_count _ (λ x, x <| retransmits := u64 (retransmits x + 1) |>)).
  destruct (_ =? 0); [apply run_return; answers|]. destruct (negb _); [apply run_emit_any; answers|].
  destruct (fin_seq_set _); [apply run_emit_any; answers|apply run_return; answers].
Qed.
Lemma send_ack_answers s t : run (λ _, True) t (send_ack s t) (answers s).
Proof. apply run_emit_any; answers. Qed.
Lemma send_syn_answers s t : run (λ _, True) t (send_syn s t) (answers s).
Proof. apply run_emit_any; answers. Qed.

(** *** The loop ends *)

Lemma unsent_range s : 0 ≤ tx_length s → 0 ≤ unsent_bytes s ≤ tx_length s.
Proof. intros Ht. unfold unsent_bytes. cbv zeta. pose proof (u32_range (snd_nxt s - snd_una s)) as R. unfold is_u32 in R. destruct (Z.leb_spec (tx_length s) (u32 (snd_nxt s - snd_una s))); lia. Qed.

Lemma next_length_range window s n : 1 ≤ mss s → 0 ≤ tx_length s → next_length window s = Some n → 1 ≤ n ≤ unsent_bytes s ∧ n ≤ mss s.
Proof.
  intros Hm Ht E. pose proof (unsent_range s Ht) as U. unfold next_length in E. cbv zeta in E. rewrite !min_u32_min in E.
  destruct (Z.eqb_spec (unsent_bytes s) 0); [done|]. destruct (Z.leb_spec window (u32 (snd_nxt s - snd_una s))).
  - destruct (_ && _); [|done]. injection E as <-. lia.
  - destruct (_ && _); [done|]. injection E as <-. lia.
Qed.

Lemma advance_unsent now n s b : 0 ≤ tx_length s < 2 ^ 32 → 1 ≤ n ≤ unsent_bytes s →
  unsent_bytes (advance now n (s <| arp_pending := b |>)) = unsent_bytes s - n.
Proof.
  intros Ht Hn. destruct (advance_keeps now n (s <| arp_pending := b |>)) as ((_&_&T&_)&_&F).
  apply tx_fields in T as (T1&_&_&T2&_). apply flow_fields in F as (F1&_).
  revert Hn. unfold unsent_bytes. cbv zeta. rewrite T1, T2, F1.
  change (snd_una (s <| arp_pending := b |>)) with (snd_una s). change (snd_nxt (s <| arp_pending := b |>)) with (snd_nxt s).
  change (tx_length (s <| arp_pending := b |>)) with (tx_length s). rewrite u32_sub_l.
  replace (snd_nxt s + n - snd_una s) with (snd_nxt s - snd_una s + n) by lia. rewrite <- u32_add_l.
  pose proof (u32_range (snd_nxt s - snd_una s)) as R. unfold is_u32 in R.
  destruct (Z.leb_spec (tx_length s) (u32 (snd_nxt s - snd_una s))) as [|L]; [lia|]. intros Hn. rewrite u32_small by lia.
  destruct (Z.leb_spec (tx_length s) (u32 (snd_nxt s - snd_una s) + n)); lia.
Qed.

(** C39: Output comes to an end: the loop sends no more segments than there are unsent
    bytes, whatever the windows, the size of the segments and the answers of the
    layers below; the fuel of [tcp_output] is enough. *)
Theorem output_loop_ends now window s t fuel : 1 ≤ mss s ≤ TCP_MAX_MSS → 0 ≤ tx_length s < 2 ^ 32 →
  unsent_bytes s ≤ Z.of_nat fuel → (output_loop fuel now window s t).1.1 = true.
Proof.
  revert s t. induction fuel as [|fuel IH]; intros s t Hm Ht Hf; rewrite output_loop_step;
    destruct (next_length window s) as [n|] eqn:E; try done; pose proof (next_length_range window s n ltac:(lia) ltac:(lia) E) as N; [lia|].
  destruct (emit_segment_shape (snd_nxt s) (if n =? unsent_bytes s then Z.lor TCP_FLAG_ACK TCP_FLAG_PSH else TCP_FLAG_ACK)
    (ring_read (tx_buffer s) (tx_start s) (u32 (snd_nxt s - snd_una s)) n) false s t) as (b&t'&->).
  destruct (advance_keeps now n (s <| arp_pending := b |>)) as ((_&_&T&_)&_&_). apply tx_fields in T as (_&T1&_&T2&_).
  apply IH.
  - rewrite T1. exact Hm.
  - rewrite T2. exact Ht.
  - rewrite advance_unsent by lia. lia.
Qed.

(** *** Acknowledgments *)

(** As [answers], but the state becomes [st]. *)
Definition moved (st : tcp_state) s s' : Prop := keeps s s' ∧ flow_of s' = flow_of s ∧ state s' = st.

(** What an acknowledgment does to a socket. *)
Definition accepts (ack : Z) s : bool := SEQ_LT (snd_una s) ack && SEQ_LEQ ack (snd_max s).
Definition acked (ack : Z) s s' : Prop :=
  if accepts ack s then
    ∃ s2, answers (acknowledged ack s) s2 ∧
      if fin_acked ack s then
        match state s with
        | TCP_STATE_FIN_WAIT_1 => moved TCP_STATE_FIN_WAIT_2 s2 s'
        | TCP_STATE_CLOSING => moved TCP_STATE_TIME_WAIT s2 s'
        | TCP_STATE_LAST_ACK => s' = enter_closed 0 s2
        | _ => answers s2 s'
        end
      else answers s2 s'
  else answers s s'.

Lemma rtt_sample_answers sample s : answers s (rtt_sample sample s).
Proof. unfold rtt_sample. cbv zeta. destruct (negb (rtt_valid s)); answers. Qed.

Lemma sample_acked_answers now ack s : answers s (sample_acked now ack s).
Proof.
  unfold sample_acked. destruct (_ && _); [|done].
  transitivity (rtt_sample (u32 (now - rtt_start s)) s); [apply rtt_sample_answers|answers].
Qed.
Lemma grow_window_answers d s : answers s (grow_window d s).
Proof. unfold grow_window. destruct (in_recovery s); [|destruct (_ <? _); [|destruct (negb _)]]; answers. Qed.
Lemma restart_timer_answers now s : answers s (restart_timer now s).
Proof. unfold restart_timer, arm_timer. cbv zeta. destruct (_ =? _); answers. Qed.
Lemma acknowledged_state ack s : state (acknowledged ack s) = state s.
Proof. unfold acknowledged. cbv zeta. by destruct (SEQ_LT _ _). Qed.

Lemma new_ack_acked now ack s : accepts ack s = true → acked ack s (new_ack now ack s).
Proof.
  intros A. unfold acked. rewrite A. unfold new_ack. cbv zeta. set (s5 := restart_timer _ _).
  assert (answers (acknowledged ack s) s5) as A5.
  { unfold s5. etransitivity; [|apply restart_timer_answers]. etransitivity; [|apply grow_window_answers]. apply sample_acked_answers. }
  clearbody s5. exists s5. split; [done|]. destruct (fin_acked ack s); [|done].
  destruct A5 as (_&S5&_). rewrite acknowledged_state in S5. rewrite S5. destruct (state s); try done; (split; [keeps|by split]).
Qed.

Lemma duplicate_ack_run good s t (post : tcp_socket → Prop) :
  (∀ s1, answers s s1 → post s1) → (∀ s1 t1, answers s s1 → run good t1 (retransmit_head s1 t1) (answers s1)) →
  run good t (duplicate_ack s t) post.
Proof.
  intros P R. unfold duplicate_ack. cbv zeta. set (s1 := s <| dup_acks := _ |>). assert (answers s s1) as A1 by answers. clearbody s1.
  destruct (_ =? 3).
  - set (s2 := ((s1 <| ssthresh := _ |>) <| cwnd := _ |>) <| in_recovery := true |>).
    assert (answers s s2) as A2 by (transitivity s1; [done|answers]).
    apply (run_count good (λ x, x <| fast_retransmits := u64 (fast_retransmits x + 1) |>)).
    eapply (run_mono good); [done| |by apply R]. intros s3 A3. apply P. by transitivity s2.
  - destruct (_ && _); apply run_return, P; [|done]. transitivity s1; [done|answers].
Qed.

(** The update of the send window. *)
Lemma acked_window ack s s1 s2 : acked ack s s1 → answers s1 s2 →
  (accepts ack s && fin_acked ack s && bool_decide (state s = TCP_STATE_LAST_ACK) = false) → acked ack s s2.
Proof.
  unfold acked. intros A B C. destruct (accepts ack s); [|by transitivity s1].
  destruct A as (sm&A1&A2). exists sm. split; [done|]. destruct (fin_acked ack s); [|by transitivity s1].
  destruct (state s); try (by transitivity s1).
  - destruct A2 as (A2&A3&A4), B as (B1&B2&B3). split; [by transitivity s1|]. split; congruence.
  - destruct A2 as (A2&A3&A4), B as (B1&B2&B3). split; [by transitivity s1|]. split; congruence.
Qed.

Lemma handle_ack_run good now ack window sequence has_data s t :
  (∀ s1 t1, answers s s1 → run good t1 (retransmit_head s1 t1) (answers s1)) →
  run good t (handle_ack now ack window sequence has_data s t) (acked ack s).
Proof.
  intros R. unfold handle_ack. cbv zeta. change (SEQ_LT (snd_una s) ack && SEQ_LEQ ack (snd_max s)) with (accepts ack s).
  apply run_bind with (mid := acked ack s).
  { destruct (accepts ack s) eqn:A; [by apply run_return, new_ack_acked|].
    assert (∀ s1, answers s s1 → acked ack s s1) as P by (intros s1 A1; unfold acked; by rewrite A).
    destruct (_ && _); [by apply duplicate_ack_run|by apply run_return, P]. }
  intros s' t' A. destruct (_ && bool_decide _) eqn:C; [by apply run_return|].
  destruct (_ || _); [|by apply run_return]. apply run_return. apply (acked_window ack s s'); [done|answers|done].
Qed.

(** *** The table *)

Lemma used_in_table t i : 0 ≤ i → used (socket_at t i) = true → i < Z.of_nat (length (sockets t)).
Proof.
  intros Hi U. unfold socket_at, aget in U. destruct (decide (i < Z.of_nat (length (sockets t)))) as [|N]; [done|].
  rewrite nth_overflow in U by lia. done.
Qed.
Lemma socket_at_put_eq t i s : 0 ≤ i < Z.of_nat (length (sockets t)) → socket_at (put_socket i s t) i = s.
Proof. intros Hi. unfold socket_at, put_socket. cbn. by apply aget_aset_eq. Qed.
Lemma socket_at_put_ne t i j s : 0 ≤ i → 0 ≤ j → i ≠ j → socket_at (put_socket i s t) j = socket_at t j.
Proof. intros Hi Hj N. unfold socket_at, put_socket. cbn. by apply aget_aset_ne. Qed.

(** What becoming established does to the socket itself. *)
Definition established s : tcp_socket :=
  s <| state := TCP_STATE_ESTABLISHED |> <| retries := 0 |> <| arp_tries := 0 |> <| timer_armed := false |>
    <| cwnd := u32 (TCP_INITIAL_CWND_SEGMENTS * mss s) |> <| ssthresh := 4294967295 |>.

Lemma become_established_run good i s t (post : tcp_socket → Prop) : is_socket i → post (established s) →
  run good t (become_established i s t) post.
Proof.
  intros Hi P. unfold become_established. cbv zeta. fold (established s). change (parent (established s)) with (parent s).
  apply (run_count _ (λ x, x <| connections_established := u64 (connections_established x + 1) |>)).
  set (t1 := count_stat _ t). destruct (Z.leb_spec 0 (parent s)) as [Hp|]; [|by apply run_return].
  set (p := socket_at t1 (parent s)). destruct (used p && _ && _) eqn:C; [|by apply run_return].
  apply andb_true_iff in C as [[U L]%andb_true_iff C]. apply bool_decide_eq_true_1 in L. apply Z.ltb_lt in C.
  pose proof (used_in_table t1 (parent s) Hp U) as B.
  split; [done|]. split; [|apply emits_nothing]. split_and!; cbn [snd]; try done; [apply length_aset|].
  intros j Hj.
  destruct (decide (parent s = j)) as [<-|N]; [|left; by apply socket_at_put_ne].
  rewrite socket_at_put_eq by lia. right. split; [done|]. eexists _, _. split; [reflexivity|].
  exact (queue_push _ _ i Hi C).
Qed.

(** *** The checks of a segment *)

Definition is_reset (p : packet) : Prop :=
  ∃ dev laddr raddr lport rport sequence ack flags, p = reset_packet dev laddr raddr lport rport sequence ack flags.
Lemma run_reset_from (good : packet → Prop) s t g sequence s0 (post : tcp_socket → Prop) :
  (∀ p, is_reset p → good p) → post s → run good t (s, reset_from g sequence s0 t) post.
Proof. intros G P. unfold reset_from. apply run_reset; [|done]. apply G. by repeat eexists. Qed.

(** What the checks leave to show of a function [good], [post]: the answers, the
    reset, and the acknowledgment with the data. *)
Lemma process_synchronized_run (good : packet → Prop) i now g s t (post : tcp_socket → Prop) : is_socket i →
  (∀ p, is_reset p → good p) →
  (∀ t, run good t (send_ack s t) post) → (∀ t, run good t (send_syn s t) post) → post s → post (enter_closed TCP_ERR_RESET s) →
  (∀ s1 t, flag TCP_FLAG_RST g = false → flag TCP_FLAG_SYN g = false → acceptable g s = true →
     (state s ≠ TCP_STATE_SYN_RECEIVED ∧ s1 = s ∨
      state s = TCP_STATE_SYN_RECEIVED ∧ s1 = established (syn_acked g s) ∧
      SEQ_LT (snd_una s) (g_ack g) = true ∧ SEQ_LEQ (g_ack g) (snd_nxt s) = true) →
     run good t (process_data now g s1 t) post) →
  run good t (process_synchronized i now g s t) post.
Proof.
  intros Hi G Ack Syn P0 Pc D. unfold process_synchronized. cbv zeta. destruct (flag TCP_FLAG_RST g) eqn:Fr.
  { apply run_return. by destruct (_ || _). }
  destruct (acceptable g s) eqn:Ac; cbn [negb]; [|apply Ack]. destruct (flag TCP_FLAG_SYN g) eqn:Fs.
  { destruct (_ && _); [apply Syn|]. by apply run_reset_from. }
  destruct (negb (flag TCP_FLAG_ACK g)); [by apply run_return|].
  destruct (bool_decide (state s = TCP_STATE_SYN_RECEIVED)) eqn:E.
  - apply bool_decide_eq_true_1 in E. destruct (_ && _) eqn:C; [|by apply run_reset_from].
    apply andb_true_iff in C as [C1 C2]. apply run_bind with (mid := λ s1, s1 = established (syn_acked g s)); [by apply become_established_run|].
    intros s1 t1 ->. apply D; auto.
  - apply bool_decide_eq_false_1 in E. apply D; auto.
Qed.

(** *** The timer *)

Lemma handshake_answers s s' : answers s s' → handshake s' = handshake s.
Proof. intros (_&S&_). unfold handshake. by rewrite S. Qed.
Lemma count_retry_answers s : answers s (count_retry s).
Proof. unfold count_retry. cbv zeta. destruct (_ && _); answers. Qed.
Lemma back_off_answers now s : answers s (back_off now s).
Proof. answers. Qed.

Lemma handle_timeout_run good now s t (post : tcp_socket → Prop) :
  (∀ s1 t1, answers s s1 → handshake s = true → run good t1 (send_syn s1 t1) (λ s2, ∀ s3, answers s2 s3 → post s3)) →
  (∀ s1 t1, answers s s1 → handshake s = false → run good t1 (retransmit_head s1 t1) (λ s2, ∀ s3, answers s2 s3 → post s3)) →
  (∀ s1 t1, answers s s1 → handshake s = false →
     run good t1 (tcp_output now (s1 <| snd_nxt := snd_una s1 |>) t1) (λ s2, ∀ s3, answers s2 s3 → post s3)) →
  (∀ s1, answers s s1 → post (enter_closed TCP_ERR_TIMEOUT s1)) →
  run good t (handle_timeout now s t) post.
Proof.
  intros Syn Head Out End. unfold handle_timeout. destruct (arp_pending s && _).
  - set (s1 := s <| arp_tries := _ |>). assert (answers s s1) as A by answers. clearbody s1.
    rewrite (handshake_answers s s1 A).
    apply run_bind with (mid := λ s2, ∀ s3, answers s2 s3 → post s3); [destruct (handshake s) eqn:E; auto|].
    intros s2 t2 P. apply run_return, P. unfold arm_timer. answers.
  - pose proof (count_retry_answers s) as A1. set (s1 := count_retry s) in *. clearbody s1. cbv zeta.
    rewrite (handshake_answers s s1 A1). destruct (_ <? retries s1); [by apply run_return_count, End|].
    assert (answers s (back_off now s1)) as A2 by (transitivity s1; [done|apply back_off_answers]).
    set (s2 := back_off now s1) in *. clearbody s2. rewrite (handshake_answers s s2 A2).
    apply (run_count _ (λ x, x <| retransmits := u64 (retransmits x + 1) |>)).
    destruct (handshake s) eqn:E.
    + eapply run_mono; [done| |by apply Syn]. intros s6 P. by apply P.
    + apply run_bind with (mid := λ s2, ∀ s3, answers s2 s3 → post s3); [by apply Out|].
      intros s6 t6 P. apply run_return, P. answers.
Qed.
End packets.

(** [answers] of updates of the other fields. *)
Ltac answers := intros; unfold answers; keeps.

(** ** Concrete runs *)

(** A network that keeps the packets it is given, with one device that has the address 10.0.0.1. *)
Definition recorded : Ipv4 (list packet) := {|
  ipv4_send_from := λ dev source destination protocol payload w, (1, w ++ [Packet dev source destination protocol payload]);
  ipv4_get_config := λ dev _, if dev =? 1 then Some (167772161, 4294967040, 0) else None;
  net_devices := λ _, [1];
|}.

(** A segment of 10.0.0.2, port 5000, to port 80 of 10.0.0.1. *)
Definition from_client (sequence ack flags : Z) (data : list Z) : list Z :=
  let segment checksum := segment_bytes 5000 80 sequence ack TCP_HEADER_LENGTH flags 8192 checksum [] data in
  segment (tcp_checksum 167772162 167772161 (segment 0)).

(** A thousand bytes in segments of 536. *)
Definition waiting_to_send : tcp_socket :=
  socket_reset <| used := true |> <| state := TCP_STATE_ESTABLISHED |> <| mss := 536 |> <| cwnd := 1608 |> <| snd_wnd := 8192 |> <| tx_length := 1000 |>.
Lemma output_loop_ends_witness : (@output_loop _ recorded 1000 5 8192 waiting_to_send (tcp_init [])).1.1 = true ∧
  length (net (@output_loop _ recorded 1000 5 8192 waiting_to_send (tcp_init [])).2) = 2%nat.
Proof.
  split; [|vm_compute; reflexivity].
  apply (@output_loop_ends _ recorded 5 8192 waiting_to_send (tcp_init []) 1000); apply (bool_decide_unpack _); vm_compute; exact I.
Defined.
