(* ===== verification/TcpRecv.v ===== *)
(** * What TCP receives

    The receiving side of one socket against the stream [P] of its peer: the bytes
    in the ring are those of the stream that follow the [n] the application
    has, whatever is lost, repeated or out of order. *)

From S2P Require Import Prelude NetBytes Ring Tcp TcpSpec.

(** Before the peer's first number is known, while its bytes are taken, and after
    its FIN or the end of the connection. *)
Inductive stage := Before | Receiving | After.
Definition stage_of (s : tcp_socket) : stage :=
  match state s with
  | TCP_STATE_LISTEN | TCP_STATE_SYN_SENT => Before
  | TCP_STATE_SYN_RECEIVED | TCP_STATE_ESTABLISHED | TCP_STATE_FIN_WAIT_1 | TCP_STATE_FIN_WAIT_2 => Receiving
  | _ => After
  end.

(** [n] elements from position [k] on. *)
Definition slice (P : list Z) (k n : Z) : list Z := take (Z.to_nat n) (drop (Z.to_nat k) P).

Lemma len_slice P k n : 0 ≤ k → 0 ≤ n → k + n ≤ len P → len (slice P k n) = n.
Proof. unfold len, slice. intros. rewrite length_take, length_drop. lia. Qed.
Lemma slice_app P k n m : 0 ≤ k → 0 ≤ n → 0 ≤ m → slice P k (n + m) = slice P k n ++ slice P (k + n) m.
Proof.
  intros. unfold slice. rewrite Z2Nat.inj_add, (Z2Nat.inj_add k n) by lia.
  rewrite <- (take_drop (Z.to_nat n) (take (Z.to_nat n + Z.to_nat m) (drop (Z.to_nat k) P))). f_equal.
  - rewrite take_take. f_equal. lia.
  - rewrite <- take_drop_commute, drop_drop. done.
Qed.
Lemma take_slice P k n m : 0 ≤ m ≤ n → take (Z.to_nat m) (slice P k n) = slice P k m.
Proof. intros. unfold slice. rewrite take_take. f_equal. lia. Qed.
Lemma drop_slice P k n m : 0 ≤ k → 0 ≤ m ≤ n → drop (Z.to_nat m) (slice P k n) = slice P (k + m) (n - m).
Proof.
  intros. unfold slice. rewrite Z2Nat.inj_add, Z2Nat.inj_sub, <- drop_drop by lia.
  apply skipn_firstn_comm.
Qed.

(** The bytes in the ring are those after the first [n] of [P]; while they are taken the next number is
    theirs; after a FIN they are the last. *)
Record receiver (P : list Z) (n : Z) (s : tcp_socket) : Prop := {
  rc_ring : 0 ≤ rx_start s < TCP_BUFFER_SIZE ∧ 0 ≤ rx_length s ≤ TCP_BUFFER_SIZE;
  rc_position : 0 ≤ n ∧ n + rx_length s ≤ len P;
  rc_data : ring_contents TCP_BUFFER_SIZE (rx_buffer s) (rx_start s) (rx_length s) = slice P n (rx_length s);
  rc_stage : match stage_of s with
             | Before => False
             | Receiving => fin_received s = false ∧ rcv_nxt s = u32 (irs s + 1 + (n + rx_length s))
             | After => fin_received s = true ∧ (error s ≠ 0 ∨ n + rx_length s = len P)
             end;
}.

(** What the receiver does not look at. *)
Definition rx_same (s s' : tcp_socket) : Prop :=
  rx_of s' = rx_of s ∧ irs s' = irs s ∧ error s' = error s ∧ stage_of s' = stage_of s ∧ used s' = used s.
#[export] Instance rx_same_preorder : PreOrder rx_same.
Proof. split; [done|]. intros s1 s2 s3 (A1&A2&A3&A4&A5) (B1&B2&B3&B4&B5). split_and!; congruence. Qed.

Lemma receiver_same P n s s' : rx_same s s' → receiver P n s → receiver P n s'.
Proof.
  intros (R&I&E&S&_) [C1 C2 C3 C4]. apply rx_fields in R as (R1&R2&R3&R4&R5).
  split; rewrite ?S, ?I, ?E, ?R1, ?R2, ?R3, ?R4, ?R5; done.
Qed.

Lemma keeps_rx s s' : keeps s s' → stage_of s' = stage_of s → rx_same s s'.
Proof.
  intros (K1&K2&_&_&K5) S.
  apply who_fields in K1. split_and!; [done| |done|done|]; tauto.
Qed.
Lemma outputs_rx s s' : outputs s s' → rx_same s s'.
Proof.
  intros (K&S). apply keeps_rx; [done|]. unfold stage_of.
  destruct S as [->|[[-> ->]|[-> ->]]]; done.
Qed.
Lemma answers_rx s s' : answers s s' → rx_same s s'.
Proof. intros (K&S&_). apply keeps_rx; [done|]. unfold stage_of. by rewrite S. Qed.

Ltac rx_same := repeat lazymatch goal with |- rx_same _ _ => unfold rx_same | |- _ ∧ _ => split end; reflexivity.

(** The end of a connection: what was received can still be read. *)
Lemma enter_closed_receiver P n e s : receiver P n s → e ≠ 0 ∨ stage_of s = After →
  used (enter_closed e s) = true → receiver P n (enter_closed e s).
Proof.
  intros [C1 C2 C3 C4] H. unfold enter_closed. cbv zeta.
  set (s1 := (((s <| error := _ |>) <| state := _ |>) <| timer_armed := _ |>) <| fin_received := true |>).
  change (app_closed s1) with (app_closed s). destruct (app_closed s); [done|]. intros _.
  split; try done. change (stage_of s1) with After. split; [done|].
  change (error s1) with (if error s =? 0 then e else error s). change (rx_length s1) with (rx_length s).
  destruct (Z.eqb_spec (error s) 0) as [E|]; [|by left]. destruct H as [He|S]; [by left|]. rewrite S in C4. tauto.
Qed.

(** A segment of the peer with the stream [P], when [r] bytes of it have arrived: its data are those
    of the stream at its number, which is not ambiguous, and a FIN follows the
    last byte.  What a RST or a SYN carries is not looked at. *)
Definition honest (P : list Z) (r first : Z) (g : seg) : Prop :=
  flag TCP_FLAG_RST g = true ∨ flag TCP_FLAG_SYN g = true ∨
  ∃ k, 0 ≤ k ∧ k + data_length g ≤ len P ∧ g_sequence g = u32 (first + 1 + k) ∧ g_data g = slice P k (data_length g) ∧
       (flag TCP_FLAG_FIN g = true → k + data_length g = len P) ∧ - 2 ^ 31 < k - r < 2 ^ 31 ∧ data_length g < 65536.

Section recv.
Context {W : Type} `{Ipv4 W}.
Implicit Types (s : tcp_socket) (t : tcp W).

(** ** Acknowledgments *)

Lemma acknowledged_rx ack s : rx_same s (acknowledged ack s).
Proof. unfold acknowledged. cbv zeta. destruct (SEQ_LT _ _); rx_same. Qed.

Lemma moved_rx st s s' : moved st s s' → stage_of s' = stage_of s → rx_same s s'.
Proof. intros (K&_) S. by apply keeps_rx. Qed.

Lemma acked_receiver P n ack s s' : acked ack s s' → receiver P n s → used s' = true → receiver P n s'.
Proof.
  intros A R U. unfold acked in A. destruct (accepts ack s); [|by apply (receiver_same P n s); [apply answers_rx|]].
  destruct A as (s2&A1&A2). assert (state s2 = state s) as S2 by (destruct A1 as (_&->&_); apply acknowledged_state).
  assert (receiver P n s2) as R2.
  { apply (receiver_same P n s); [|done]. transitivity (acknowledged ack s); [apply acknowledged_rx|by apply answers_rx]. }
  assert (answers s2 s' → receiver P n s') as D by (intros B; apply (receiver_same P n s2); [by apply answers_rx|done]).
  destruct (fin_acked ack s); [|auto]. destruct (state s) eqn:E; try (by apply D).
  - apply (receiver_same P n s2); [|done]. apply (moved_rx TCP_STATE_FIN_WAIT_2); [done|]. destruct A2 as (_&_&S'). unfold stage_of. by rewrite S', S2.
  - apply (receiver_same P n s2); [|done]. apply (moved_rx TCP_STATE_TIME_WAIT); [done|]. destruct A2 as (_&_&S'). unfold stage_of. by rewrite S', S2.
  - subst s'. apply enter_closed_receiver; [done| |done]. right. unfold stage_of. by rewrite S2.
Qed.

(** ** Data *)

Lemma receives_stage s : receives s = true → stage_of s = Receiving.
Proof. unfold receives, stage_of. by destruct (state s). Qed.

(** What is left of the data of a segment at position [k] when [r] bytes have arrived. *)
Lemma trim_position P g s k r : g_sequence g = u32 (irs s + 1 + k) → rcv_nxt s = u32 (irs s + 1 + r) → 0 ≤ r ≤ len P →
  g_data g = slice P k (data_length g) → 0 ≤ k → k + data_length g ≤ len P → - 2 ^ 31 < k - r < 2 ^ 31 →
  ∃ j m, trim g s = (u32 (irs s + 1 + j), slice P j m) ∧ 0 ≤ j ∧ 0 ≤ m ∧ j + m ≤ len P ∧ - 2 ^ 31 < j - r < 2 ^ 31.
Proof.
  intros Eg Er Hr Ed Hk HL Hn. assert (0 ≤ data_length g) as HL0 by (unfold data_length; lia).
  unfold trim. rewrite Eg, Er, seq_lt by done. destruct (Z.ltb_spec k r) as [L|L].
  - rewrite u32_distance, (u32_small (r - k)) by lia. destruct (Z.leb_spec (data_length g) (r - k)) as [L2|L2].
    + exists r, 0. split; [done|lia].
    + exists r, (data_length g - (r - k)). split; [|lia]. f_equal. rewrite Ed, drop_slice by lia. f_equal; lia.
  - exists k, (data_length g). split; [by f_equal|lia].
Qed.

Lemma take_data_receiver P n s j m : receiver P n s → stage_of s = Receiving → 0 ≤ j → 0 ≤ m → j + m ≤ len P →
  - 2 ^ 32 < j - (n + rx_length s) < 2 ^ 32 →
  let s' := take_data (u32 (irs s + 1 + j)) (slice P j m) s in
  receiver P n s' ∧ state s' = state s ∧ irs s' = irs s ∧ used s' = used s ∧ rx_length s ≤ rx_length s'.
Proof.
  intros [C1 C2 C3 C4] S Hj Hm HL Hn. cbv zeta. rewrite S in C4. destruct C4 as [C4 C5]. rewrite buffer_size in *.
  assert (receiver P n s) as R by (split; rewrite ?S, ?buffer_size; done).
  unfold take_data. rewrite C5. cbv zeta.
  destruct (Z.eqb_spec (u32 (irs s + 1 + j)) (u32 (irs s + 1 + (n + rx_length s)))) as [E|]; [|done].
  apply u32_inj in E; [|lia]. fold (len (slice P j m)). rewrite len_slice, min_u32_min by lia.
  rewrite (u32_small (TCP_BUFFER_SIZE - rx_length s)) by (rewrite buffer_size; lia).
  set (d := m `min` (TCP_BUFFER_SIZE - rx_length s)). assert (0 ≤ d ≤ m ∧ rx_length s + d ≤ 16384) as Hd by (unfold d; rewrite buffer_size; lia).
  destruct (Z.eqb_spec d 0) as [|Nd]; [done|]. cbn [negb]. split; [|split_and!; try done].
  2: { cbn. rewrite u32_small by lia. lia. }
  split; cbn.
  - rewrite buffer_size. rewrite u32_small by lia. lia.
  - rewrite u32_small by lia. lia.
  - rewrite u32_small by lia. rewrite take_slice by lia.
    assert (length (slice P j d) = Z.to_nat d) as Ls by (pose proof (len_slice P j d ltac:(lia) ltac:(lia) ltac:(lia)) as L; unfold len in L; lia).
    rewrite ring_write_store by (rewrite ?buffer_size; lia).
    replace (rx_length s + d) with (rx_length s + Z.of_nat (length (slice P j d))) by lia.
    rewrite ring_store_append by (rewrite ?buffer_size; lia). rewrite buffer_size, C3. replace j with (n + rx_length s) by lia.
    rewrite <- slice_app by lia. f_equal. rewrite E in Ls. lia.
  - unfold stage_of in *. cbn. destruct (state s); try done; (split; [done|]); rewrite u32_add_l, (u32_small (rx_length s + d)) by lia; f_equal; lia.
Qed.

(** A FIN in order: all of the stream has arrived. *)
Lemma take_fin_receiver P n now s : receiver P n s → receives s = true → n + rx_length s = len P → receiver P n (take_fin now s).
Proof.
  intros [C1 C2 C3 C4] S E. unfold take_fin, start_time_wait, receives in *. cbv zeta.
  set (s1 := (s <| rcv_nxt := _ |>) <| fin_received := true |>). change (state s1) with (state s).
  assert (∀ s', rx_of s' = rx_of s1 → stage_of s' = After → receiver P n s') as D.
  { intros s' R A. apply rx_fields in R as (R1&R2&R3&R4&R5). split; rewrite ?A, ?R1, ?R2, ?R3, ?R4, ?R5; try done.
    change (fin_received s1) with true. split; [done|by right]. }
  destruct (state s); try done; try (by apply D). destruct (_ && _); by apply D.
Qed.

Lemma honest_data P r first g : honest P r first g → flag TCP_FLAG_RST g = false → flag TCP_FLAG_SYN g = false →
  ∃ k, 0 ≤ k ∧ k + data_length g ≤ len P ∧ g_sequence g = u32 (first + 1 + k) ∧ g_data g = slice P k (data_length g) ∧
       (flag TCP_FLAG_FIN g = true → k + data_length g = len P) ∧ - 2 ^ 31 < k - r < 2 ^ 31 ∧ data_length g < 65536.
Proof. intros [E|[E|D]]; congruence. Qed.

Lemma take_segment_receiver P n now g s k : receiver P n s → 0 ≤ k → k + data_length g ≤ len P →
  g_sequence g = u32 (irs s + 1 + k) → g_data g = slice P k (data_length g) →
  (flag TCP_FLAG_FIN g = true → k + data_length g = len P) → - 2 ^ 31 < k - (n + rx_length s) < 2 ^ 31 → data_length g < 65536 →
  receiver P n (take_segment now g s).1.
Proof.
  intros R Hk HL Eg Ed Ef Hn HLb. unfold take_segment. assert (0 ≤ data_length g) as HL0 by (unfold data_length; lia).
  destruct (receives s) eqn:Rs; cycle 1.
  { destruct (trim g s) as [sequence data]. rewrite andb_false_r. cbn [orb]. rewrite Rs, andb_false_r. done. }
  pose proof (receives_stage s Rs) as S. pose proof R as [C1 C2 C3 C4]. rewrite S in C4. destruct C4 as [C4 C5].
  destruct (trim_position P g s k (n + rx_length s) Eg C5 ltac:(lia) Ed Hk HL Hn) as (j&m&->&Hj&Hm&HjL&Hjn).
  rewrite andb_true_r. fold (len (slice P j m)). set (s1 := if 0 <? len (slice P j m) then _ else s).
  assert (receiver P n s1 ∧ state s1 = state s ∧ irs s1 = irs s ∧ rx_length s ≤ rx_length s1 ≤ TCP_BUFFER_SIZE) as (R1&S1&I1&L1).
  { unfold s1. destruct (0 <? _); [|split_and!; try done; lia].
    destruct (take_data_receiver P n s j m R S Hj Hm HjL ltac:(lia)) as (T1&T2&T3&_&T4). split_and!; try done. apply T1. }
  clearbody s1. assert (receives s1 = true) as Rs1 by (unfold receives in *; by rewrite S1). rewrite Rs1, andb_true_r.
  destruct (flag TCP_FLAG_FIN g) eqn:F; cbn [andb fst]; [|done]. rewrite Eg, u32_add_l.
  pose proof (rc_stage _ _ _ R1) as C6. rewrite (receives_stage s1 Rs1) in C6. destruct C6 as [_ ->]. rewrite I1.
  destruct (Z.eqb_spec (u32 (irs s + 1 + k + data_length g)) (u32 (irs s + 1 + (n + rx_length s1)))) as [E|]; [|done].
  apply take_fin_receiver; [done|done|]. rewrite <- Z.add_assoc in E. apply u32_inj in E; [specialize (Ef eq_refl); lia|].
  rewrite buffer_size in L1. lia.
Qed.

(** What an acknowledgment never changes. *)
Lemma acked_same ack s s' : acked ack s s' → used s' = true → rx_length s' = rx_length s ∧ irs s' = irs s.
Proof.
  intros A U. unfold acked in A.
  assert (∀ s1 s2, rx_same s1 s2 → rx_length s2 = rx_length s1 ∧ irs s2 = irs s1) as D
    by (intros s1 s2 (R&I&_); apply rx_fields in R; tauto).
  destruct (accepts ack s); [|by apply D, answers_rx].
  destruct A as (s2&A1&A2). assert (rx_same s s2) as E by (transitivity (acknowledged ack s); [apply acknowledged_rx|by apply answers_rx]).
  destruct (D _ _ E) as [<- <-]. assert (∀ st, moved st s2 s' → rx_length s' = rx_length s2 ∧ irs s' = irs s2) as M.
  { intros st ((K1&K2&_)&_). apply who_fields in K1. apply rx_fields in K2. tauto. }
  destruct (fin_acked ack s); [|by apply D, answers_rx].
  destruct (state s); try (by apply D, answers_rx); try by apply (M _ A2). subst s'. rewrite enter_closed_cases in *.
  by destruct (app_closed _).
Qed.

Lemma process_data_receiver P n now g s t : receiver P n s → honest P (n + rx_length s) (irs s) g →
  flag TCP_FLAG_RST g = false → flag TCP_FLAG_SYN g = false →
  run (λ _, True) t (process_data now g s t) (λ s', used s' = true → receiver P n s').
Proof.
  intros R Hg Hr Hs. unfold process_data. apply run_bind with (mid := acked (g_ack g) s).
  { apply handle_ack_run. intros. apply retransmit_answers. }
  clear t. intros s1 t A. destruct (_ || negb (used s1)) eqn:U.
  { apply run_return. intros U1. by apply (acked_receiver P n (g_ack g) s). }
  apply orb_false_iff in U as [_ U2]. apply negb_false_iff in U2. pose proof (acked_receiver P n (g_ack g) s s1 A R U2) as R1.
  assert (rx_length s1 = rx_length s ∧ irs s1 = irs s) as [EL EI] by apply (acked_same (g_ack g) s s1 A U2).
  destruct (honest_data _ _ _ _ Hg Hr Hs) as (k&Hk&HL&Eg&Ed&Ef&Hn&HLb). rewrite <- EI in Eg. rewrite <- EL in Hn. clear A R Hg EI EL s U2.
  pose proof (take_segment_receiver P n now g s1 k R1 Hk HL Eg Ed Ef Hn HLb) as R2. destruct (take_segment now g s1) as [s2 need_ack].
  eapply run_bind; [apply output_outputs|]. cbn beta. intros s3 t3 O3.
  assert (receiver P n s3) as R3 by (apply (receiver_same P n s2); [by apply outputs_rx|done]).
  destruct need_ack; [|by apply run_return].
  eapply run_mono; [done| |apply send_ack_answers]. intros s4 A4 _. apply (receiver_same P n s3); [by apply answers_rx|done].
Qed.

(** ** Segments and timers *)

Lemma established_rx s : state s = TCP_STATE_SYN_RECEIVED → rx_same s (established s).
Proof. intros E. unfold rx_same. split_and!; try reflexivity. unfold stage_of. by rewrite E. Qed.

Lemma receiver_stage P n s : receiver P n s → stage_of s ≠ Before.
Proof. intros R E. pose proof (rc_stage _ _ _ R) as S. by rewrite E in S. Qed.

(** Whatever segment comes, as long as its data are the peer's. *)
Lemma process_segment_receiver P n i now g s t : is_socket i → receiver P n s → honest P (n + rx_length s) (irs s) g →
  run (λ _, True) t (process_segment i now g s t) (λ s', used s' = true → receiver P n s').
Proof.
  intros Hi R Hg. unfold process_segment.
  assert (∀ t r, run (λ _, True) t r (answers s) → run (λ _, True) t r (λ s', used s' = true → receiver P n s')) as Same.
  { intros t0 r. apply run_mono; [done|]. intros s' A _. apply (receiver_same P n s); [by apply answers_rx|done]. }
  assert (used (enter_closed TCP_ERR_RESET s) = true → receiver P n (enter_closed TCP_ERR_RESET s)) as Closed
    by (apply enter_closed_receiver; [done|by left]).
  destruct (decide (state s = TCP_STATE_TIME_WAIT)) as [E|N].
  { rewrite E. unfold process_time_wait. destruct (_ && _); [|by apply run_return]. eapply run_bind; [apply send_ack_answers|].
    cbn beta. intros s1 t1 A. apply run_return. intros _. apply (receiver_same P n s); [|done]. transitivity s1; [by apply answers_rx|rx_same]. }
  assert (run (λ _, True) t (process_synchronized i now g s t) (λ s', used s' = true → receiver P n s')) as D.
  { apply process_synchronized_run; [done|done| | |done| |].
    - intros t1. apply Same, send_ack_answers.
    - intros t1. apply Same, send_syn_answers.
    - exact Closed.
    - intros s1 t1 Fr Fs _ [[_ ->]|(E&->&_)]; [by apply process_data_receiver|].
      assert (rx_same s (established (syn_acked g s))) as X by (transitivity (syn_acked g s); [rx_same|by apply established_rx]).
      apply process_data_receiver; try done; by apply (receiver_same P n s). }
  pose proof (receiver_stage P n s R) as B. unfold stage_of in B. destruct (state s); done.
Qed.

Lemma timeout_receiver P n now s t : receiver P n s →
  run (λ _, True) t (handle_timeout now s t) (λ s', used s' = true → receiver P n s').
Proof.
  intros R. assert (∀ s1 s2 s3, answers s s1 → answers s1 s2 → answers s2 s3 → used s3 = true → receiver P n s3) as Same.
  { intros s1 s2 s3 A1 A2 A3 _. apply (receiver_same P n s); [|done]. apply answers_rx. transitivity s1; [done|]. by transitivity s2. }
  apply handle_timeout_run.
  - intros s1 t1 A _. eapply run_mono; [done| |apply send_syn_answers]. eauto.
  - intros s1 t1 A _. eapply run_mono; [done| |apply retransmit_answers]. eauto.
  - intros s1 t1 A _. eapply run_mono; [done| |apply output_outputs]. intros s2 O s3 A3 _. apply (receiver_same P n s); [|done].
    transitivity s1; [by apply answers_rx|]. transitivity (s1 <| snd_nxt := snd_una s1 |>); [rx_same|].
    transitivity s2; [by apply outputs_rx|by apply answers_rx].
  - intros s1 A. apply enter_closed_receiver; [|by left]. by apply (receiver_same P n s); [apply answers_rx|].
Qed.
End recv.
