(* ===== verification/TcpSend.v ===== *)
(** * What TCP sends

    The sending side of one socket against the stream [Q] of what the application
    wrote to it: what waits in the ring is the end of it, and every
    segment with data carries the bytes that are at its number. *)

From S2P Require Import Prelude NetBytes Ring Tcp TcpSpec TcpRecv.

Definition mss_ok (s : tcp_socket) : Prop := 64 ≤ mss s ≤ TCP_MAX_MSS.

(** [a] bytes of [Q] are acknowledged, and [f] FINs; [n] numbers are sent, and [m] were
    at most, which a timeout does not take back. *)
Record sender_at (Q : list Z) (a f n m : Z) (s : tcp_socket) : Prop := {
  sn_ring : 0 ≤ tx_start s < TCP_BUFFER_SIZE ∧ 0 ≤ tx_length s ≤ TCP_BUFFER_SIZE;
  sn_length : 0 ≤ a ∧ a + tx_length s = len Q;
  sn_data : ring_contents TCP_BUFFER_SIZE (tx_buffer s) (tx_start s) (tx_length s) = slice Q a (tx_length s);
  sn_una : snd_una s = u32 (iss s + 1 + (a + f));
  sn_nxt : snd_nxt s = u32 (iss s + 1 + n);
  sn_max : snd_max s = u32 (iss s + 1 + m);
  sn_order : a + f ≤ n ∧ n ≤ m ∧ 0 ≤ f ≤ 1;
  sn_open : fin_seq_set s = false → f = 0 ∧ m ≤ len Q;
  sn_fin : fin_seq_set s = true → fin_queued s = true ∧ fin_seq s = u32 (iss s + 1 + len Q) ∧ m ≤ len Q + 1 ∧ (f = 1 → a = len Q);
}.

(** The sender does not look at the rest. *)
Lemma sender_same Q a f n m s s' : tx_of s' = tx_of s → flow_of s' = flow_of s → iss s' = iss s →
  sender_at Q a f n m s → sender_at Q a f n m s'.
Proof.
  intros (T1&T2&T3&T4&T5&T6)%tx_fields F I [C1 C2 C3 C4 C5 C6 C7 C8 C9]. unfold flow_of in F at 2. apply flow_fields in F as (F1&F2&F3&F4).
  split; rewrite ?T1, ?T2, ?T3, ?T4, ?T5, ?T6, ?F1, ?F2, ?F3, ?F4, ?I; done.
Qed.
Lemma keeps_iss s s' : keeps s s' → iss s' = iss s.
Proof. intros (K&_). apply who_fields in K. tauto. Qed.
Lemma sender_answers Q a f n m s s' : answers s s' → sender_at Q a f n m s → sender_at Q a f n m s'.
Proof. intros (K&_&F). apply sender_same; [apply K|done|by apply keeps_iss]. Qed.

(** The numbers in flight are few enough not to be ambiguous. *)
Lemma sender_flight Q a f n m s : sender_at Q a f n m s → 0 ≤ n - (a + f) ∧ m - (a + f) ≤ 16385 ∧ (0 < tx_length s → f = 0).
Proof.
  intros [C1 C2 _ _ _ _ C7 C8 C9]. rewrite buffer_size in C1. destruct (fin_seq_set s).
  - destruct (C9 eq_refl) as (_&_&M&F). split; [lia|]. split; [lia|]. intros. destruct (decide (f = 1)) as [E|]; [specialize (F E)|]; lia.
  - destruct (C8 eq_refl). lia.
Qed.

Lemma sender_unsent Q a f n m s : sender_at Q a f n m s →
  unsent_bytes s = (if tx_length s <=? n - (a + f) then 0 else tx_length s - (n - (a + f))) ∧ u32 (snd_nxt s - snd_una s) = n - (a + f).
Proof.
  intros S. pose proof (sender_flight _ _ _ _ _ _ S) as F. destruct S as [C1 C2 _ C4 C5 _ C7 _ _].
  unfold unsent_bytes. rewrite C4, C5, u32_distance, u32_small by lia. done.
Qed.

(** The ends of the connection and its first number. *)
Definition ends_of (s : tcp_socket) := (device s, local_address s, remote_address s, local_port s, remote_port s, iss s).
Lemma who_ends s s' : who_of s' = who_of s → ends_of s' = ends_of s.
Proof. unfold ends_of. intros (_&_&_&->&->&->&->&->&_&->&_)%who_fields. done. Qed.

(** A packet of the socket: without data and FIN, or with the bytes of [Q] at its number, and a FIN
    only after the last. *)
Definition plain (s : tcp_socket) (p : packet) : Prop :=
  ∃ s1 sequence flags with_mss, ends_of s1 = ends_of s ∧ p = wire sequence flags [] with_mss s1 ∧ Z.land flags TCP_FLAG_FIN = 0.
Definition carries (Q : list Z) (s : tcp_socket) (p : packet) : Prop :=
  plain s p ∨
  ∃ s1 sequence flags data k, ends_of s1 = ends_of s ∧ p = wire sequence flags data false s1 ∧ len data ≤ TCP_MAX_MSS ∧
    0 ≤ k ∧ k + len data ≤ len Q ∧ sequence = u32 (iss s + 1 + k) ∧ data = slice Q k (len data) ∧
    (Z.land flags TCP_FLAG_FIN ≠ 0 → k + len data = len Q).

Lemma plain_same s s' p : ends_of s' = ends_of s → plain s p → plain s' p.
Proof. intros E (s1&sq&fl&b&A&B). exists s1, sq, fl, b. by rewrite A, E. Qed.
Lemma carries_same Q s s' p : ends_of s' = ends_of s → carries Q s p → carries Q s' p.
Proof.
  intros E [P|(s1&sq&fl&d&k&A&B&C)]; [left; by apply (plain_same s)|right]. exists s1, sq, fl, d, k.
  assert (iss s' = iss s) as -> by by injection E. rewrite A, E. done.
Qed.
Lemma carries_keeps Q s s' p : keeps s s' → carries Q s' p → carries Q s p.
Proof. intros (K1&_). apply carries_same. by apply eq_sym, who_ends. Qed.

Section send.
Context {W : Type} `{Ipv4 W}.
Implicit Types (s : tcp_socket) (t : tcp W).

Lemma carries_empty Q s sequence flags with_mss : Z.land flags TCP_FLAG_FIN = 0 → carries Q s (wire sequence flags [] with_mss s).
Proof. intros F. left. by exists s, sequence, flags, with_mss. Qed.

Lemma send_ack_sender Q s t : run (carries Q s) t (send_ack s t) (answers s).
Proof. apply run_emit; [done|done|by apply carries_empty|answers]. Qed.
Lemma send_syn_sender Q s t : run (carries Q s) t (send_syn s t) (answers s).
Proof. apply run_emit; [done|done| |answers]. apply carries_empty. by destruct (bool_decide _). Qed.

(** ** The output *)

Lemma ring_read_slice Q a f n m s k d : sender_at Q a f n m s → 0 ≤ k → 0 ≤ d → k + d ≤ tx_length s →
  ring_read (tx_buffer s) (tx_start s) k d = slice Q (a + k) d.
Proof.
  intros [C1 C2 C3 _ _ _ _ _ _] Hk Hd Hl. rewrite ring_read_contents by (rewrite buffer_size in *; lia).
  assert (ring_contents TCP_BUFFER_SIZE (tx_buffer s) (tx_start s) (tx_length s) =
    ring_contents TCP_BUFFER_SIZE (tx_buffer s) (tx_start s) k ++ ring_contents TCP_BUFFER_SIZE (tx_buffer s) (tx_start s + k) (tx_length s - k)) as E1.
  { rewrite <- ring_contents_split by lia. f_equal. lia. }
  rewrite C3 in E1. apply (f_equal (drop (Z.to_nat k))) in E1.
  rewrite drop_slice, (drop_app_length' _ _ (Z.to_nat k)) in E1 by (rewrite ?length_ring_contents; lia).
  assert (tx_length s - k = d + (tx_length s - k - d)) as E2 by lia. rewrite E2 in E1. rewrite ring_contents_split, slice_app in E1 by lia.
  apply app_inj_1 in E1 as [-> _]; [done|]. rewrite length_ring_contents.
  pose proof (len_slice Q (a + k) d ltac:(lia) ltac:(lia) ltac:(lia)) as L. unfold len in L. lia.
Qed.

(** A segment of the loop. *)
Lemma advance_sender Q a f n m s now d : sender_at Q a f n m s → 1 ≤ d ≤ unsent_bytes s →
  sender_at Q a f (n + d) (m `max` (n + d)) (advance now d s) ∧ f = 0 ∧ n + d ≤ len Q.
Proof.
  intros S Hd. pose proof (sender_flight _ _ _ _ _ _ S) as F. destruct (sender_unsent _ _ _ _ _ _ S) as [U _].
  rewrite U in Hd. destruct (Z.leb_spec (tx_length s) (n - (a + f))) as [|L]; [lia|].
  pose proof S as [C1 C2 C3 C4 C5 C6 C7 C8 C9]. assert (f = 0) as F0 by lia. split; [|lia].
  pose proof C1 as B. rewrite buffer_size in B.
  destruct (advance_keeps now d s) as (K&_&G). apply flow_fields in G as (G1&G2&G3&G4).
  pose proof (keeps_iss _ _ K) as I. destruct K as (_&_&T&_). apply tx_fields in T as (T1&T2&T3&T4&T5&T6).
  assert (u32 (snd_nxt s + d) = u32 (iss s + 1 + (n + d))) as E by (rewrite C5, u32_add_l; f_equal; lia).
  split; rewrite ?T1, ?T2, ?T3, ?T4, ?T5, ?T6, ?G1, ?G2, ?G3, ?G4, ?I; try done.
  - rewrite E, C6, seq_gt by lia. destruct (Z.ltb_spec m (n + d)); f_equal; lia.
  - lia.
  - intros E2. specialize (C8 E2). lia.
  - intros E2. specialize (C9 E2). split_and!; try tauto; lia.
Qed.

Lemma output_loop_sender Q a f n m now window s t : sender_at Q a f n m s → mss_ok s →
  let '(_, s', t') := output_loop (Z.to_nat (unsent_bytes s)) now window s t in
  run (carries Q s) t (s', t') (λ s', keeps s s' ∧ state s' = state s ∧ fin_seq_set s' = fin_seq_set s ∧ ∃ n m, sender_at Q a f n m s').
Proof.
  intros S M. apply run_output_loop; [split_and!; try done; eauto|]. clear n m S. intros s1 d t1 (K&St&Fs&n&m&S) N.
  assert (mss s1 = mss s ∧ 0 ≤ tx_length s1) as [Em Hl].
  { split; [destruct K as (_&_&T&_); apply tx_fields in T; tauto|]. apply (sn_ring _ _ _ _ _ _ S). }
  assert (1 ≤ mss s1) as Hm by (rewrite Em; unfold mss_ok in M; lia).
  destruct (next_length_range window s1 d Hm Hl N) as [D1 D2].
  destruct (sender_unsent _ _ _ _ _ _ S) as [U O]. pose proof (sender_flight _ _ _ _ _ _ S) as F.
  pose proof (advance_sender _ _ _ _ _ _ now d S D1) as (_&F0&Le). subst f. pose proof (sn_length _ _ _ _ _ _ S) as L.
  pose proof (sn_order _ _ _ _ _ _ S) as Or.
  rewrite O, (ring_read_slice Q a 0 n m s1 (n - (a + 0)) d S) by (rewrite U in D1; destruct (Z.leb_spec (tx_length s1) (n - (a + 0))); lia).
  replace (a + (n - (a + 0))) with n by lia. pose proof (len_slice Q n d ltac:(lia) ltac:(lia) Le) as Ld.
  apply run_emit; [| |apply (carries_keeps Q s s1); [done|]|].
  - fold (len (slice Q n d)). unfold mss_ok in M. lia.
  - done.
  - right. eexists s1, _, _, _, n. split; [done|]. split; [reflexivity|]. rewrite Ld. unfold mss_ok in M.
    split_and!; try done; try lia; [apply S|]. intros X. exfalso. apply X. by destruct (_ =? _).
  - intros b. assert (answers s1 (s1 <| arp_pending := b |>)) as A by answers.
    set (s2 := s1 <| arp_pending := b |>) in *. assert (sender_at Q a 0 n m s2) as S2 by by apply (sender_answers _ _ _ _ _ s1).
    destruct (advance_keeps now d s2) as (K2&St2&G). apply flow_fields in G as (_&_&G&_). destruct A as (A1&A2&A3).
    assert (fin_seq_set s2 = fin_seq_set s1) as A4 by by unfold flow_of in A3; apply flow_fields in A3.
    split; [transitivity s1; [done|by transitivity s2]|]. split; [congruence|]. split; [congruence|].
    eexists _, _. apply advance_sender; [done|]. unfold s2. done.
Qed.

(** The FIN goes after the last byte, and again at the same number. *)
Lemma fin_position Q a f n m s : sender_at Q a f n m s → fin_queued s = true → unsent_bytes s = 0 →
  fin_seq_set s && SEQ_GT (snd_nxt s) (fin_seq s) = false → n = len Q ∧ f = 0.
Proof.
  intros S Fq U G. destruct (sender_unsent _ _ _ _ _ _ S) as [U' _]. pose proof (sender_flight _ _ _ _ _ _ S) as F.
  destruct S as [C1 C2 _ _ C5 _ C7 C8 C9]. rewrite U' in U. rewrite buffer_size in C1.
  destruct (Z.leb_spec (tx_length s) (n - (a + f))); [|lia]. destruct (fin_seq_set s).
  - destruct (C9 eq_refl) as (_&Ef&M&Fa). rewrite C5, Ef, seq_gt in G by lia. cbn [andb] in G. apply Z.ltb_ge in G.
    destruct (decide (f = 1)) as [E|]; [specialize (Fa E)|]; lia.
  - destruct (C8 eq_refl). lia.
Qed.

Lemma fin_sender Q a n m s : sender_at Q a 0 n m s → fin_queued s = true → n = len Q →
  let s1 := if negb (fin_seq_set s) then s <| fin_seq_set := true |> <| fin_seq := snd_nxt s |> else s in
  sender_at Q a 0 n m s1 ∧ fin_seq_set s1 = true ∧ keeps s s1.
Proof.
  intros S Fq ->. cbv zeta. destruct (fin_seq_set s) eqn:E; cbn [negb]; [by split|].
  split; [|split; [done|keeps]]. destruct S as [C1 C2 C3 C4 C5 C6 C7 C8 _]. split; try done.
  intros _. destruct (C8 E). split_and!; try done; lia.
Qed.

(** The number of the FIN is taken. *)
Definition advance_fin (s : tcp_socket) : tcp_socket :=
  let s := s <| snd_nxt := u32 (snd_nxt s + 1) |> in if SEQ_GT (snd_nxt s) (snd_max s) then s <| snd_max := snd_nxt s |> else s.

Lemma advance_fin_sender Q a n m s : sender_at Q a 0 n m s → fin_seq_set s = true → n = len Q →
  sender_at Q a 0 (n + 1) (m `max` (n + 1)) (advance_fin s) ∧ keeps s (advance_fin s) ∧ state (advance_fin s) = state s.
Proof.
  intros S Fs ->. pose proof (sender_flight _ _ _ _ _ _ S) as F. destruct S as [C1 C2 C3 C4 C5 C6 C7 C8 C9].
  destruct (C9 Fs) as (D1&D2&D3&D4). pose proof C1 as B. rewrite buffer_size in B.
  unfold advance_fin. cbv zeta. set (s1 := s <| snd_nxt := u32 (snd_nxt s + 1) |>).
  change (snd_max s1) with (snd_max s). change (snd_nxt s1) with (u32 (snd_nxt s + 1)).
  assert (u32 (snd_nxt s + 1) = u32 (iss s + 1 + (len Q + 1))) as E by (rewrite C5, u32_add_l; f_equal; lia).
  rewrite E, C6, seq_gt by lia. set (v := u32 (iss s + 1 + (len Q + 1))).
  destruct (Z.ltb_spec m (len Q + 1)) as [Lt|Ge]; (split; [|split; [keeps|done]]).
  - replace (m `max` (len Q + 1)) with (len Q + 1) by lia. split; try done.
    + lia.
    + intros X. change (fin_seq_set s = false) in X. congruence.
  - replace (m `max` (len Q + 1)) with m by lia. split; try done. lia.
Qed.

Lemma output_fin_sender Q a f n m now s t : sender_at Q a f n m s →
  run (carries Q s) t (output_fin now s t) (λ s', outputs s s' ∧ ∃ n m, sender_at Q a f n m s').
Proof.
  intros S. unfold output_fin. destruct (_ && _) eqn:C; [|by apply run_return; split; eauto].
  apply andb_true_iff in C as [[Fq U]%andb_true_iff G]. apply Z.eqb_eq in U. apply negb_true_iff in G.
  destruct (fin_position _ _ _ _ _ _ S Fq U G) as [En ->]. destruct (fin_sender _ _ _ _ _ S Fq En) as (S1&F1&K1).
  assert (outputs s (if negb (fin_seq_set s) then s <| fin_seq_set := true |> <| fin_seq := snd_nxt s |> else s)) as O1
    by (destruct (negb _); [split; [keeps|by left]|done]).
  set (s1 := if negb (fin_seq_set s) then _ else s) in *. clearbody s1. cbv zeta.
  assert (fin_queued s1 = true) as Fq1 by apply (sn_fin _ _ _ _ _ _ S1 F1).
  apply run_bind with (mid := answers s1).
  { apply run_emit; [done|done| |answers]. apply (carries_keeps Q s s1); [done|].
    right. eexists s1, _, _, _, n. split; [done|]. split; [reflexivity|]. change (len []) with 0. rewrite (sn_nxt _ _ _ _ _ _ S1). pose proof (sn_length _ _ _ _ _ _ S1). assert (0 ≤ len Q) by (unfold len; lia). split_and!; try done; lia. }
  clear t. intros s2 t A. assert (sender_at Q a 0 n m s2) as S2 by by apply (sender_answers _ _ _ _ _ s1).
  assert (outputs s s2) as O2 by (destruct A as (A1&A2&_); by apply (outputs_step s s1)).
  assert (fin_seq_set s2 = true) as F2 by (destruct A as (_&_&A3); unfold flow_of in A3; apply flow_fields in A3 as (_&_&->&_); done).
  clear A. apply run_return. fold (advance_fin s2). destruct (advance_fin_sender _ _ _ _ _ S2 F2 En) as (S3&K3&T3).
  assert (outputs s (advance_fin s2)) as O3 by by apply (outputs_step s s2).
  set (s3 := advance_fin s2) in *. clearbody s3.
  set (s4 := match state s3 with TCP_STATE_ESTABLISHED => _ | _ => _ end).
  assert (outputs s s4 ∧ sender_at Q a 0 (n + 1) (m `max` (n + 1)) s4) as [O4 S4].
  { split; [transitivity s3; [done|]; unfold s4; destruct (state s3) eqn:E; try done; (split; [keeps|]); [right; left|right; right]; by rewrite E|].
    apply (sender_same _ _ _ _ _ s3); [| | |done]; unfold s4; by destruct (state s3). }
  clearbody s4. destruct (arm_timer_keeps now s4) as (K5&T5&G5). destruct (negb _); (split; [|eexists _, _]);
    [by apply (outputs_step s s4)|by apply (sender_answers _ _ _ _ _ s4)|done|done].
Qed.

Lemma ends_run Q s s1 t r (post : tcp_socket → Prop) : ends_of s1 = ends_of s → run (carries Q s1) t r post → run (carries Q s) t r post.
Proof. intros E. apply run_mono; [|done]. intros p. by apply carries_same. Qed.
Lemma keeps_trans_run Q s s1 t r (post : tcp_socket → Prop) : keeps s s1 → run (carries Q s1) t r post → run (carries Q s) t r post.
Proof. intros K. apply run_mono; [|done]. intros p. by apply carries_keeps. Qed.

Lemma output_sender Q a f n m now s t : sender_at Q a f n m s → mss_ok s →
  run (carries Q s) t (tcp_output now s t) (λ s', outputs s s' ∧ ∃ n m, sender_at Q a f n m s').
Proof.
  intros S M. unfold tcp_output. pose proof (output_loop_sender Q a f n m now (min_u32 (snd_wnd s) (cwnd s)) s t S M) as L.
  cbv zeta. destruct (output_loop _ _ _ _ _) as [[b s'] t'].
  assert (run (carries Q s) t (output_fin now s' t') (λ s', outputs s s' ∧ ∃ n m, sender_at Q a f n m s')) as R.
  { apply (run_bind _ t (s', t') (output_fin now) _ _ L). intros s1 t1 (K&St&_&n1&m1&S1).
    apply (keeps_trans_run Q s s1); [done|]. eapply run_mono; [done| |by eapply output_fin_sender].
    intros s2 [O R]. split; [|done]. transitivity s1; [split; [done|by left]|done]. }
  destruct (state s); try exact R; by apply run_return; split; [done|eauto].
Qed.

Lemma retransmit_sender Q a f n m s t : sender_at Q a f n m s → mss_ok s → run (carries Q s) t (retransmit_head s t) (answers s).
Proof.
  intros S M. unfold retransmit_head. cbv zeta. apply (run_count _ (λ x, x <| retransmits := u64 (retransmits x + 1) |>)).
  set (s1 := s <| rtt_active := false |>). assert (answers s s1) as A by answers.
  pose proof (sender_answers _ _ _ _ _ _ _ A S) as S1. assert (mss s1 = mss s) as Em by done. clearbody s1.
  destruct (sender_unsent _ _ _ _ _ _ S1) as [_ U]. rewrite U. destruct (Z.eqb_spec (n - (a + f)) 0) as [|N]; [by apply run_return|].
  pose proof (sender_flight _ _ _ _ _ _ S1) as F. pose proof S1 as [C1 C2 _ C4 _ _ C7 C8 C9].
  assert (∀ b, answers s (s1 <| arp_pending := b |>)) as Post by (intros b; transitivity s1; [done|answers]).
  apply (keeps_trans_run Q s s1); [apply A|]. destruct (Z.eqb_spec (tx_length s1) 0) as [E|E]; cbn [negb].
  - destruct (fin_seq_set s1) eqn:Fs; [|by apply run_return]. destruct (C9 eq_refl) as (D1&D2&_).
    apply run_emit; [done|done| |done]. right. eexists s1, _, _, _, (len Q). split; [done|]. split; [reflexivity|].
    change (len []) with 0. assert (0 ≤ len Q) by (unfold len; lia). split_and!; try done; lia.
  - rewrite !min_u32_min. set (d := (tx_length s1 `min` mss s1) `min` (n - (a + f))).
    assert (1 ≤ d ≤ tx_length s1 ∧ d ≤ mss s1) as D by (unfold d; rewrite Em; unfold mss_ok in M; lia).
    rewrite (ring_read_slice Q a f n m s1 0 d S1) by lia. rewrite Z.add_0_r. pose proof (len_slice Q a d ltac:(lia) ltac:(lia) ltac:(lia)) as Ld.
    assert (f = 0) as F0 by lia. subst f.
    apply run_emit; [fold (len (slice Q a d)); unfold mss_ok in M; lia|done| |done].
    right. eexists s1, _, _, _, a. split; [done|]. split; [reflexivity|]. rewrite Ld. unfold mss_ok in M.
    split_and!; try done; try lia. rewrite C4. f_equal. lia.
Qed.

(** ** Acknowledgments *)

(** [SEQ_LT] and [SEQ_LEQ] against the window accept what was sent and nothing else, but for one
    number: exactly 2^31 above, when nothing is in flight. *)
Lemma accepts_position Q a f n m ack s : sender_at Q a f n m s → is_u32 ack → u32 (ack - snd_una s) ≠ 2 ^ 31 → accepts ack s = true →
  ∃ x, ack = u32 (iss s + 1 + x) ∧ a + f < x ≤ m.
Proof.
  intros S Ha Nh A. pose proof (sender_flight _ _ _ _ _ _ S) as F. destruct S as [C1 C2 _ C4 _ C6 C7 _ _].
  pose proof (u32_range (ack - snd_una s)) as R. set (d := u32 (ack - snd_una s)) in *. unfold is_u32 in R, Ha.
  assert (ack = u32 (iss s + 1 + (a + f + d))) as E.
  { rewrite Z.add_assoc, <- u32_add_l, <- C4. unfold d. rewrite u32_add_r. replace (snd_una s + (ack - snd_una s)) with ack by lia. by rewrite u32_small by lia. }
  exists (a + f + d). split; [done|]. unfold accepts in A. apply andb_true_iff in A as [A1 A2].
  assert (d < 2 ^ 31) as D.
  { destruct (decide (d < 2 ^ 31)) as [|N]; [done|]. exfalso. unfold SEQ_LT in A1. rewrite C4, E, i32_distance in A1.
    replace (a + f - (a + f + d)) with (- d) in A1 by lia. rewrite (i32_cong (- d) (2 ^ 32 - d)) in A1.
    - rewrite i32_small in A1 by lia. apply Z.ltb_lt in A1. lia.
    - unfold u32. rewrite <- (Z_mod_plus_full (- d) 1). f_equal. lia. }
  rewrite C4, E, seq_lt in A1 by lia. rewrite C6, E, seq_leq in A2 by lia. lia.
Qed.

Lemma acknowledged_sender Q a f n m ack s : sender_at Q a f n m s → is_u32 ack → u32 (ack - snd_una s) ≠ 2 ^ 31 → accepts ack s = true →
  ∃ a' n', sender_at Q a' (if fin_acked ack s then 1 else 0) n' m (acknowledged ack s).
Proof.
  intros S Ha Nh A. destruct (accepts_position _ _ _ _ _ _ _ S Ha Nh A) as (x&Ex&Hx).
  pose proof (sender_flight _ _ _ _ _ _ S) as F. pose proof S as [C1 C2 C3 C4 C5 C6 C7 C8 C9].
  pose proof C1 as B. rewrite buffer_size in B. assert (0 ≤ len Q) as HQ by (unfold len; lia).
  assert (fin_acked ack s = fin_seq_set s && (len Q <? x)) as Fa.
  { unfold fin_acked. destruct (fin_seq_set s) eqn:E; [|done]. destruct (C9 eq_refl) as (_&->&M&_). cbn [andb]. rewrite Ex. by rewrite seq_gt by lia. }
  assert (f = 0 ∧ (if fin_acked ack s then x = len Q + 1 ∧ fin_seq_set s = true else x ≤ len Q)) as [F0 Hf].
  { rewrite Fa. destruct (fin_seq_set s) eqn:E; cbn [andb].
    - destruct (C9 eq_refl) as (_&_&M&Fq). assert (f = 0) by (destruct (decide (f = 1)) as [D|]; [specialize (Fq D)|]; lia).
      split; [done|]. destruct (Z.ltb_spec (len Q) x); [split; [lia|done]|lia].
    - destruct (C8 eq_refl). lia. }
  subst f. set (d := data_acked ack s).
  assert (d = x - (if fin_acked ack s then 1 else 0) - a ∧ 0 ≤ d ≤ tx_length s) as [Ed Hd].
  { unfold d, data_acked. cbv zeta. rewrite C4, Ex, u32_distance, (u32_small (x - (a + 0))) by lia. rewrite <- Ex.
    destruct (fin_acked ack s); (rewrite u32_small by lia; destruct (Z.ltb_spec (tx_length s) (x - (a + 0) - 1)), (Z.ltb_spec (tx_length s) (x - (a + 0) - 0)); lia). }
  exists (a + d), (n `max` x). unfold acknowledged. cbv zeta. fold d.
  set (s1 := ((s <| tx_start := _ |>) <| tx_length := _ |>) <| snd_una := ack |>).
  assert (∀ s', tx_of s' = tx_of s1 → flow_of s' = (u32 (iss s + 1 + n `max` x), snd_max s, fin_seq_set s, fin_seq s) → iss s' = iss s →
    sender_at Q (a + d) (if fin_acked ack s then 1 else 0) (n `max` x) m s') as D.
  { intros s' (T1&T2&T3&T4&T5&T6)%tx_fields (F1&F2&F3&F4)%flow_fields I.
    change (tx_start s1) with (u32 (tx_start s + d) mod TCP_BUFFER_SIZE) in T3. change (tx_length s1) with (tx_length s - d) in T4.
    change (snd_una s1) with ack in T1. change (tx_buffer s1) with (tx_buffer s) in T5. change (fin_queued s1) with (fin_queued s) in T6.
    rewrite u32_small in T3 by lia. split; rewrite ?T1, ?T3, ?T4, ?T5, ?T6, ?F1, ?F2, ?F3, ?F4, ?I; try done.
    - pose proof (Z.mod_pos_bound (tx_start s + d) TCP_BUFFER_SIZE ltac:(rewrite buffer_size; lia)). rewrite buffer_size in *. lia.
    - lia.
    - rewrite ring_contents_mod by (rewrite buffer_size; lia).
      assert (tx_length s = d + (tx_length s - d)) as E by lia. rewrite E in C3 at 1. rewrite ring_contents_split in C3 by lia.
      apply (f_equal (drop (Z.to_nat d))) in C3. rewrite drop_slice, (drop_app_length' _ _ (Z.to_nat d)) in C3 by (rewrite ?length_ring_contents; lia). done.
    - rewrite Ex at 1. f_equal. destruct (fin_acked ack s); lia.
    - destruct (fin_acked ack s); lia.
    - intros X. rewrite X in *. destruct (C8 eq_refl). destruct (fin_acked ack s); [by destruct Hf|]. split; [done|lia].
    - intros X. destruct (C9 X) as (X1&X2&X3&X4). split_and!; try done. destruct (fin_acked ack s); [lia|done]. }
  change (snd_nxt s1) with (snd_nxt s). rewrite C5, Ex, seq_lt by lia. rewrite <- Ex.
  destruct (Z.ltb_spec n x); apply D; try done; unfold flow_of.
  - change (snd_nxt (s1 <| snd_nxt := ack |>)) with ack. rewrite Ex. replace (n `max` x) with x by lia. done.
  - change (snd_nxt s1) with (snd_nxt s). rewrite C5. replace (n `max` x) with n by lia. done.
Qed.

(** ** The sender in every state *)

Definition synchronized s : bool :=
  match state s with
  | TCP_STATE_CLOSED | TCP_STATE_LISTEN | TCP_STATE_SYN_SENT | TCP_STATE_SYN_RECEIVED => false
  | _ => true
  end.

(** Before the handshake is complete nothing is written; after the end it does not matter. *)
Definition opening (Q : list Z) s : Prop :=
  mss_ok s ∧ Q = [] ∧ tx_length s = 0 ∧ fin_seq_set s = false ∧ is_u32 (iss s) ∧ snd_una s = iss s ∧
  snd_nxt s = u32 (iss s + 1) ∧ snd_max s = u32 (iss s + 1).
Definition active s : bool := handshake s || synchronized s.
Record sender_ok (Q : list Z) s : Prop := {
  so_flags : (fin_seq_set s = true → fin_queued s = true) ∧ (fin_queued s = true → app_closed s = true);
  so_ring : 0 ≤ tx_start s < TCP_BUFFER_SIZE ∧ 0 ≤ tx_length s ≤ TCP_BUFFER_SIZE;
  so_opening : handshake s = true → opening Q s;
  so_sender : synchronized s = true → mss_ok s ∧ ∃ a f n m, sender_at Q a f n m s;
  so_idle : active s = false → timer_armed s = false;
  so_error : error s ≤ 0;
}.

Lemma handshake_not_synchronized s : synchronized s = true → handshake s = false.
Proof. unfold synchronized, handshake. by destruct (state s). Qed.

(** A function of what the sender looks at. *)
Lemma sender_ok_same Q s s' : who_of s' = who_of s → tx_of s' = tx_of s → flow_of s' = flow_of s →
  handshake s' = handshake s → synchronized s' = synchronized s → active s = true → error s' = error s → sender_ok Q s → sender_ok Q s'.
Proof.
  intros (_&A&_&_&_&_&_&_&_&I&_)%who_fields T F E1 E2 Ac Er [C1 C2 C3 C4 C5 C6]. pose proof T as (T1&T2&T3&T4&T5&T6)%tx_fields.
  pose proof F as F'. unfold flow_of in F' at 2. apply flow_fields in F' as (F1&F2&F3&F4).
  split; rewrite ?E1, ?E2, ?T3, ?T4, ?T6, ?F3, ?A, ?Er; try done.
  - intros X. destruct (C3 X) as (M&Y). unfold opening, mss_ok. rewrite ?T1, ?T2, ?T4, ?F1, ?F2, ?F3, ?I. done.
  - intros X. destruct (C4 X) as (M&a&f&n&m&S). split; [unfold mss_ok; by rewrite T2|]. exists a, f, n, m. by apply (sender_same _ _ _ _ _ s).
  - unfold active in *. by rewrite E1, E2, Ac.
Qed.
Lemma sender_ok_answers Q s s' : answers s s' → active s = true → sender_ok Q s → sender_ok Q s'.
Proof. intros ((K1&_&K3&_&K5)&St&F) Ac. apply sender_ok_same; try done; unfold handshake, synchronized; by rewrite St. Qed.
Lemma active_answers s s' : answers s s' → active s = true → active s' = true.
Proof. intros (_&St&_). unfold active, handshake, synchronized. by rewrite St. Qed.
Lemma synchronized_active s : synchronized s = true → active s = true.
Proof. unfold active. intros ->. apply orb_true_r. Qed.
Lemma handshake_active s : handshake s = true → active s = true.
Proof. unfold active. by intros ->. Qed.

Lemma sender_ok_at Q a f n m s : mss_ok s → synchronized s = true → (fin_queued s = true → app_closed s = true) → error s ≤ 0 →
  sender_at Q a f n m s → sender_ok Q s.
Proof.
  intros M E A Er S. split; [|apply S|by rewrite handshake_not_synchronized by done|eauto 10|by rewrite synchronized_active by done|done]. split; [|done].
  intros X. apply (sn_fin _ _ _ _ _ _ S X).
Qed.

Lemma outputs_synchronized s s' : outputs s s' → synchronized s = true → synchronized s' = true.
Proof. intros (_&St) E. unfold synchronized in *. destruct St as [->|[[_ ->]|[_ ->]]]; done. Qed.

Lemma output_ok Q now s t : sender_ok Q s → run (carries Q s) t (tcp_output now s t) (λ s', outputs s s' ∧ sender_ok Q s').
Proof.
  intros O. destruct (synchronized s) eqn:E; cycle 1.
  { unfold tcp_output. unfold synchronized in E. destruct (state s); try done; by apply run_return. }
  destruct (so_sender _ _ O E) as (M&a&f&n&m&S). eapply run_mono; [done| |by eapply output_sender].
  intros s' [Os (n'&m'&S')]. split; [done|]. pose proof Os as ((K1&_&K3&_&K5)&_). apply who_fields in K1 as (_&A&_).
  apply tx_fields in K3 as (_&T2&_&_&_&T6). apply (sender_ok_at Q a f n' m'); [unfold mss_ok; by rewrite T2| | |rewrite K5; apply O|done].
  - by apply (outputs_synchronized s s').
  - rewrite A, T6. apply (so_flags _ _ O).
Qed.

Lemma retransmit_ok Q s t : sender_ok Q s → synchronized s = true → run (carries Q s) t (retransmit_head s t) (answers s).
Proof. intros O E. destruct (so_sender _ _ O E) as (M&a&f&n&m&S). by eapply retransmit_sender. Qed.

(** What is acknowledged must have been sent; [u32 (ack - snd_una) = 2^31] is the number that the
    comparisons let through when nothing is in flight. *)
Definition ack_ok (ack : Z) s : Prop := is_u32 ack ∧ u32 (ack - snd_una s) ≠ 2 ^ 31.

Ltac active := first [done | by apply synchronized_active | by apply handshake_active | eapply active_answers; [eassumption|active]].

(** The end of a connection. *)
Lemma sender_ok_ended Q e s : sender_ok Q s → e ≤ 0 → used (enter_closed e s) = true → sender_ok Q (enter_closed e s).
Proof.
  intros O He. rewrite enter_closed_cases. destruct (app_closed s); [done|]. intros _.
  split; [exact (so_flags _ _ O)|exact (so_ring _ _ O)|intros X; change (false = true) in X; discriminate..|done|].
  change (error (ended e s)) with (if error s =? 0 then e else error s). pose proof (so_error _ _ O). destruct (_ =? _); lia.
Qed.

Lemma acknowledged_keeps ack s : error (acknowledged ack s) = error s ∧ who_of (acknowledged ack s) = who_of s ∧ mss (acknowledged ack s) = mss s ∧ fin_queued (acknowledged ack s) = fin_queued s.
Proof. unfold acknowledged. cbv zeta. by destruct (SEQ_LT _ _). Qed.

Lemma acked_ok Q ack s s' : sender_ok Q s → synchronized s = true → ack_ok ack s → acked ack s s' → used s' = true →
  sender_ok Q s' ∧ ends_of s' = ends_of s.
Proof.
  intros O E [Ha Nh] A U. unfold acked in A. destruct (accepts ack s) eqn:Ac; [|split; [(apply (sender_ok_answers Q s); active)|apply who_ends, A]].
  destruct A as (s2&A1&A2). destruct (so_sender _ _ O E) as (M&a&f&n&m&S).
  destruct (acknowledged_sender _ _ _ _ _ _ _ S Ha Nh Ac) as (a'&n'&S1). destruct (acknowledged_keeps ack s) as (W0&W1&W2&W3).
  assert (sender_ok Q (acknowledged ack s)) as O1.
  { eapply sender_ok_at; [unfold mss_ok; by rewrite W2|unfold synchronized in *; by rewrite acknowledged_state| |rewrite W0; apply O|exact S1].
    apply who_fields in W1 as (_&->&_). rewrite W3. apply (so_flags _ _ O). }
  assert (synchronized (acknowledged ack s) = true) as Sy1 by (unfold synchronized in *; by rewrite acknowledged_state).
  assert (sender_ok Q s2) as O2 by (apply (sender_ok_answers Q (acknowledged ack s)); active).
  assert (active s2 = true) as Sy2 by (apply (active_answers (acknowledged ack s)); active).
  assert (ends_of s2 = ends_of s) as E2 by (transitivity (ends_of (acknowledged ack s)); apply who_ends; [apply A1|done]).
  assert (state s2 = state s) as St2 by (destruct A1 as (_&->&_); apply acknowledged_state).
  assert (answers s2 s' → sender_ok Q s' ∧ ends_of s' = ends_of s) as D1.
  { intros B. split; [(apply (sender_ok_answers Q s2); active)|]. rewrite <- E2. apply who_ends, B. }
  assert (∀ st, moved st s2 s' → synchronized s' = true → handshake s' = false → sender_ok Q s' ∧ ends_of s' = ends_of s) as D2.
  { intros st ((K1&_&K3&_&K5)&F&_) Y1 Y2. split; [|rewrite <- E2; by apply who_ends].
    apply (sender_ok_same Q s2); try done; [rewrite Y2|rewrite Y1]; unfold handshake, synchronized in *; rewrite St2; by destruct (state s). }
  destruct (fin_acked ack s); [|auto]. destruct (state s) eqn:St; try by apply D1.
  - apply (D2 _ A2); destruct A2 as (_&_&X); unfold synchronized, handshake; by rewrite X.
  - apply (D2 _ A2); destruct A2 as (_&_&X); unfold synchronized, handshake; by rewrite X.
  - subst s'. split; [by apply sender_ok_ended|]. rewrite enter_closed_cases in *. by destruct (app_closed s2).
Qed.

(** ** Segments and timers *)

(** What is received is nothing to the sender. *)
Definition tx_same s s' : Prop :=
  who_of s' = who_of s ∧ tx_of s' = tx_of s ∧ flow_of s' = flow_of s ∧ error s' = error s ∧ (synchronized s = true → synchronized s' = true).
Lemma tx_same_ok Q s s' : tx_same s s' → synchronized s = true → sender_ok Q s → sender_ok Q s'.
Proof.
  intros (K1&K2&K3&K4&E) Sy O. specialize (E Sy). apply (sender_ok_same Q s); try done; [|congruence|active].
  by rewrite !handshake_not_synchronized.
Qed.

Ltac tx_same := unfold tx_same; split_and!; [reflexivity|reflexivity|reflexivity|reflexivity|].

Lemma take_data_tx sequence data s : tx_same s (take_data sequence data s).
Proof. unfold take_data. cbv zeta. destruct (_ =? _); [|done]. destruct (negb _); [|done]. by tx_same. Qed.
Lemma take_fin_tx now s : tx_same s (take_fin now s).
Proof.
  unfold take_fin, start_time_wait. cbv zeta. set (s1 := (s <| rcv_nxt := _ |>) <| fin_received := true |>).
  assert (tx_same s s1) as (K1&K2&K3&K4&K5) by by tx_same. assert (state s1 = state s) as St by done. clearbody s1.
  rewrite St. destruct (state s); try destruct (_ && _); unfold tx_same; rewrite <- K1, <- K2, <- K3, <- K4; by split_and!.
Qed.
Lemma take_segment_tx now g s : tx_same s (take_segment now g s).1.
Proof.
  unfold take_segment. destruct (trim g s) as [sequence data]. cbv zeta. cbn [fst].
  set (s1 := if _ && _ then take_data sequence data s else s). assert (tx_same s s1) as (A1&A2&A3&A4&A5) by (unfold s1; destruct (_ && _); [apply take_data_tx|done]).
  clearbody s1. destruct (_ && _); [|done]. destruct (take_fin_tx now s1) as (B1&B2&B3&B4&B5). split_and!; try congruence. auto.
Qed.

Lemma process_data_ok Q now g s t : sender_ok Q s → synchronized s = true → ack_ok (g_ack g) s →
  run (carries Q s) t (process_data now g s t) (λ s', used s' = true → sender_ok Q s').
Proof.
  intros O E A. unfold process_data. apply run_bind with (mid := acked (g_ack g) s).
  { apply handle_ack_run. intros s1 t1 A1. apply (keeps_trans_run Q s s1); [apply A1|]. eapply run_mono; [done| |].
    2: { apply retransmit_ok; [(apply (sender_ok_answers Q s); active)|]. destruct A1 as (_&St&_). unfold synchronized in *. by rewrite St. }
    intros s2 A2. by transitivity s1. }
  clear t. intros s1 t A1. destruct (_ || negb (used s1)) eqn:U.
  { apply run_return. intros U1. by apply (acked_ok Q (g_ack g) s). }
  apply orb_false_iff in U as [N U2]. apply bool_decide_eq_false_1 in N. apply negb_false_iff in U2.
  destruct (acked_ok Q (g_ack g) s s1 O E A A1 U2) as [O1 E1].
  assert (synchronized s1 = true) as Sy.
  { unfold acked in A1. assert (∀ s0, synchronized s0 = true → answers s0 s1 → synchronized s1 = true) as D
      by (intros s0 X (_&Y&_); unfold synchronized in *; by rewrite Y).
    destruct (accepts _ _); [|by apply (D s)]. destruct A1 as (s2&B1&B2). assert (synchronized s2 = true) as X
      by (destruct B1 as (_&B1&_); unfold synchronized in *; by rewrite B1, acknowledged_state).
    destruct (fin_acked _ _); [|by apply (D s2)]. destruct (state s); try by apply (D s2).
    - destruct B2 as (_&_&B2). unfold synchronized. by rewrite B2.
    - destruct B2 as (_&_&B2). unfold synchronized. by rewrite B2.
    - subst s1. rewrite enter_closed_cases in *. by destruct (app_closed s2). }
  pose proof (take_segment_tx now g s1) as T. destruct (take_segment now g s1) as [s2 need_ack]. cbn [fst] in T.
  assert (sender_ok Q s2) as O2 by by apply (tx_same_ok Q s1).
  assert (ends_of s2 = ends_of s) as E2 by (rewrite <- E1; apply who_ends, T).
  apply (ends_run Q s s2); [done|].
  apply run_bind with (mid := λ s', outputs s2 s' ∧ sender_ok Q s'); [by apply output_ok|].
  intros s3 t3 [Ou O3]. destruct need_ack; [|by apply run_return].
  apply (keeps_trans_run Q s2 s3); [apply Ou|]. eapply run_mono; [done| |apply send_ack_sender].
  intros s4 A4 _. apply (sender_ok_answers Q s3); [done| |done]. apply synchronized_active. destruct T as (_&_&_&_&T). apply (outputs_synchronized s2 s3); auto.
Qed.

(** Packets of a connection, and resets. *)
Definition reset_or (Q : list Z) s (p : packet) : Prop := is_reset p ∨ carries Q s p.
Lemma run_carries Q s t r post : run (carries Q s) t r post → run (reset_or Q s) t r post.
Proof. apply run_mono; [|done]. intros p. by right. Qed.

(** The only number that acknowledges our SYN is the next one. *)
Lemma syn_number i0 ack : is_u32 ack → is_u32 i0 →
  (SEQ_LT i0 ack = true ∧ SEQ_LEQ ack (u32 (i0 + 1)) = true ∨ SEQ_LEQ ack i0 = false ∧ SEQ_GT ack (u32 (i0 + 1)) = false) →
  ack = u32 (i0 + 1).
Proof.
  intros Ha Hi C. pose proof (u32_range (ack - i0)) as R. set (e := u32 (ack - i0)) in *. unfold is_u32 in *.
  assert (ack = u32 (i0 + e)) as E by (unfold e; rewrite u32_add_r; replace (i0 + (ack - i0)) with ack by lia; by rewrite u32_small by lia).
  assert (i0 = u32 (i0 + 0)) as E0 by (rewrite Z.add_0_r, u32_small by lia; done).
  assert (e = 1) as ->; [|done].
  destruct C as [[C1 C2]|[C1 C2]]; unfold SEQ_LT, SEQ_LEQ, SEQ_GT in *; rewrite E in C1, C2; rewrite i32_distance in C2.
  - rewrite E0 in C1 at 1. rewrite i32_distance in C1. apply Z.ltb_lt in C1. apply Z.leb_le in C2. destruct (decide (e < 2 ^ 31)) as [L|L].
    + rewrite i32_small in C1, C2 by lia. lia.
    + exfalso. destruct (decide (e = 2 ^ 31)) as [->|]; [by vm_compute in C2|].
      rewrite (i32_cong (0 - e) (2 ^ 32 - e)) in C1 by (unfold u32; rewrite <- (Z_mod_plus_full (0 - e) 1); f_equal; lia).
      rewrite i32_small in C1 by lia. lia.
  - apply Z.leb_gt in C1. apply Z.ltb_ge in C2. rewrite E0 in C1 at 2. rewrite i32_distance in C1. destruct (decide (e < 2 ^ 31)) as [L|L].
    + rewrite i32_small in C1, C2 by lia. lia.
    + exfalso. rewrite (i32_cong (e - 0) (e - 2 ^ 32)) in C1 by (unfold u32; rewrite <- (Z_mod_plus_full (e - 2 ^ 32) 1); f_equal; lia).
      rewrite i32_small in C1 by lia. lia.
Qed.

(** A connection that was just acknowledged. *)
Lemma sender_start i0 s : tx_length s = 0 → 0 ≤ tx_start s < TCP_BUFFER_SIZE → fin_seq_set s = false → iss s = i0 →
  snd_una s = u32 (i0 + 1) → snd_nxt s = u32 (i0 + 1) → snd_max s = u32 (i0 + 1) → sender_at [] 0 0 0 0 s.
Proof.
  intros L St F I U N M. split; rewrite ?L, ?F, ?I, ?U, ?N, ?M, ?Z.add_0_r; try done; lia.
Qed.

Lemma established_ok g s Q : sender_ok Q s → state s = TCP_STATE_SYN_RECEIVED → is_u32 (g_ack g) →
  SEQ_LT (snd_una s) (g_ack g) = true → SEQ_LEQ (g_ack g) (snd_nxt s) = true →
  sender_ok Q (established (syn_acked g s)) ∧ snd_una (established (syn_acked g s)) = g_ack g.
Proof.
  intros O E Ha C1 C2. destruct (so_opening _ _ O) as (M&->&L&F&I&U&N&X); [unfold handshake; by rewrite E|].
  split; [|done]. rewrite U in C1. rewrite N in C2. assert (g_ack g = u32 (iss s + 1)) as G by (apply syn_number; auto).
  apply (sender_ok_at [] 0 0 0 0); [exact M|done|exact (proj2 (so_flags _ _ O))|exact (so_error _ _ O)|].
  apply (sender_start (iss s)); try done. apply (so_ring _ _ O).
Qed.

Lemma process_synchronized_ok Q i now g s t : is_socket i → sender_ok Q s → (synchronized s = true ∨ state s = TCP_STATE_SYN_RECEIVED) →
  ack_ok (g_ack g) s →
  run (reset_or Q s) t (process_synchronized i now g s t) (λ s', used s' = true → sender_ok Q s').
Proof.
  intros Hi O E A. assert (active s = true) as Ac by (destruct E as [E|E]; [active|unfold active, handshake; by rewrite E]).
  apply process_synchronized_run; [done|by left| | |done|by apply sender_ok_ended|].
  - intros t1. apply run_carries. eapply run_mono; [done| |apply send_ack_sender]. intros s1 A1 _. (apply (sender_ok_answers Q s); active).
  - intros t1. apply run_carries. eapply run_mono; [done| |apply send_syn_sender]. intros s1 A1 _. (apply (sender_ok_answers Q s); active).
  - intros s1 t1 _ _ _ [[N ->]|(Sr&->&C1&C2)]; apply run_carries.
    + destruct E as [E|E]; [|done]. by apply process_data_ok.
    + destruct (established_ok g s Q O Sr (proj1 A) C1 C2) as [O1 U1]. apply (ends_run Q s (established (syn_acked g s))); [done|].
      apply process_data_ok; [done|done|]. split; [apply A|]. rewrite U1, Z.sub_diag. done.
Qed.

Definition peer_mss_ok (g : seg) : Prop := 64 ≤ g_peer_mss g ≤ TCP_MAX_MSS.

Lemma process_syn_sent_ok Q i now g s t : is_socket i → sender_ok Q s → state s = TCP_STATE_SYN_SENT → is_u32 (g_ack g) → peer_mss_ok g →
  run (reset_or Q s) t (process_syn_sent i now g s t) (λ s', used s' = true → sender_ok Q s').
Proof.
  intros Hi O E Ha Hm. destruct (so_opening _ _ O) as (M&->&L&F&I&U&N&X); [unfold handshake; by rewrite E|].
  unfold process_syn_sent. rewrite N. destruct (flag TCP_FLAG_ACK g && _) eqn:C.
  { destruct (negb _); [|by apply run_return]. apply run_reset_from; [by left|done]. }
  destruct (flag TCP_FLAG_RST g); [apply run_return; destruct (flag _ _); [by apply sender_ok_ended|done]|].
  destruct (negb (flag TCP_FLAG_SYN g)); [by apply run_return|]. cbv zeta.
  set (s1 := (((((s <| irs := _ |>) <| rcv_nxt := _ |>) <| mss := _ |>) <| snd_wnd := _ |>) <| snd_wl1 := _ |>) <| snd_wl2 := _ |>).
  apply run_carries. destruct (flag TCP_FLAG_ACK g) eqn:Fa; cbn [andb] in C.
  - apply orb_false_iff in C as [C1 C2]. assert (g_ack g = u32 (iss s + 1)) as G by (apply syn_number; auto).
    set (s2 := (s1 <| snd_una := g_ack g |>) <| rtt_active := false |>).
    apply run_bind with (mid := λ s', s' = established s2); [by apply become_established_run|]. clear t. intros s3 t ->.
    assert (sender_ok [] (established s2)) as O3.
    { apply (sender_ok_at [] 0 0 0 0); [exact Hm|done|exact (proj2 (so_flags _ _ O))|exact (so_error _ _ O)|].
      apply (sender_start (iss s)); try done. apply (so_ring _ _ O). }
    apply (ends_run [] s (established s2)); [done|].
    apply run_bind with (mid := answers (established s2)); [apply send_ack_sender|]. clear t. intros s4 t A4.
    assert (sender_ok [] s4) as O4 by (apply (sender_ok_answers [] (established s2)); active).
    apply (keeps_trans_run [] (established s2) s4); [apply A4|]. eapply run_mono; [done| |by apply output_ok]. by intros s5 [_ ?].
  - set (s2 := (s1 <| state := TCP_STATE_SYN_RECEIVED |>) <| timer_armed := false |>).
    assert (sender_ok [] s2) as O2 by (split; [exact (so_flags _ _ O)|exact (so_ring _ _ O)| |done|done|exact (so_error _ _ O)]; intros _; by split_and!).
    apply (ends_run [] s s2); [done|]. apply run_bind with (mid := answers s2); [apply send_syn_sender|]. clear t. intros s4 t A4.
    apply run_return. intros _. apply (sender_ok_answers [] s2); [|done|done]. transitivity s4; [done|unfold arm_timer; answers].
Qed.

Lemma process_segment_ok Q i now g s t : is_socket i → sender_ok Q s → active s = true → ack_ok (g_ack g) s → peer_mss_ok g →
  run (reset_or Q s) t (process_segment i now g s t) (λ s', used s' = true → sender_ok Q s').
Proof.
  intros Hi O Ac A Hm. assert (synchronized s = true ∨ state s = TCP_STATE_SYN_RECEIVED →
    run (reset_or Q s) t (process_synchronized i now g s t) (λ s', used s' = true → sender_ok Q s')) as D
    by (intros; by apply process_synchronized_ok).
  unfold process_segment. destruct (state s) eqn:E; try (apply D; unfold synchronized; rewrite E; auto).
  - unfold active, handshake, synchronized in Ac. by rewrite E in Ac.
  - unfold active, handshake, synchronized in Ac. by rewrite E in Ac.
  - apply process_syn_sent_ok; try done. apply A.
  - unfold process_time_wait. destruct (_ && _); [|by apply run_return]. apply run_carries.
    apply run_bind with (mid := answers s); [apply send_ack_sender|]. intros s1 t1 A1. apply run_return. intros _.
    apply (sender_ok_answers Q s); [|done|done]. transitivity s1; [done|answers].
Qed.

(** A timeout goes back to the first number that is not acknowledged. *)
Lemma go_back_ok Q s : sender_ok Q s → synchronized s = true → sender_ok Q (s <| snd_nxt := snd_una s |>).
Proof.
  intros O E. destruct (so_sender _ _ O E) as (M&a&f&n&m&[C1 C2 C3 C4 C5 C6 C7 C8 C9]).
  eapply (sender_ok_at Q a f (a + f) m); [exact M|exact E|exact (proj2 (so_flags _ _ O))|exact (so_error _ _ O)|].
  split; try done. lia.
Qed.

Lemma timeout_ok Q now s t : sender_ok Q s → timer_armed s = true →
  run (carries Q s) t (handle_timeout now s t) (λ s', used s' = true → sender_ok Q s').
Proof.
  intros O Ti. assert (active s = true) as Ac.
  { destruct (active s) eqn:E; [done|]. by rewrite (so_idle _ _ O E) in Ti. }
  assert (handshake s = false → synchronized s = true) as Sy by (unfold active in Ac; by destruct (handshake s)).
  assert (∀ s1, answers s s1 → handshake s = false → sender_ok Q s1 ∧ synchronized s1 = true) as D.
  { intros s1 A Hs. split; [apply (sender_ok_answers Q s); active|]. destruct A as (_&St&_). unfold synchronized in *. rewrite St. auto. }
  apply handle_timeout_run.
  - intros s1 t1 A _. apply (keeps_trans_run Q s s1); [apply A|]. eapply run_mono; [done| |apply send_syn_sender].
    intros s2 A2 s3 A3 _. apply (sender_ok_answers Q s); [|done|done]. transitivity s1; [done|]. by transitivity s2.
  - intros s1 t1 A Hs. destruct (D s1 A Hs) as [O1 S1]. apply (keeps_trans_run Q s s1); [apply A|].
    eapply run_mono; [done| |by apply retransmit_ok]. intros s2 A2 s3 A3 _. apply (sender_ok_answers Q s1); [by transitivity s2|active|done].
  - intros s1 t1 A Hs. destruct (D s1 A Hs) as [O1 S1]. apply (ends_run Q s (s1 <| snd_nxt := snd_una s1 |>)).
    { transitivity (ends_of s1); [done|]. apply who_ends, A. }
    eapply run_mono; [done| |by apply output_ok, go_back_ok]. intros s2 [Ou O2] s3 A3 _. apply (sender_ok_answers Q s2); [done| |done].
    apply synchronized_active, (outputs_synchronized (s1 <| snd_nxt := snd_una s1 |>)); done.
  - intros s1 A. apply sender_ok_ended; [|done]. apply (sender_ok_answers Q s); active.
Qed.

(** ** Calls *)

(** The application writes [data]. *)
Lemma write_sender Q a f n m s data : sender_at Q a f n m s → fin_seq_set s = false → tx_length s + len data ≤ TCP_BUFFER_SIZE →
  sender_at (Q ++ data) a f n m
    (s <| tx_buffer := ring_write (tx_start s) (tx_length s) data (tx_buffer s) |> <| tx_length := u32 (tx_length s + len data) |>).
Proof.
  intros [C1 C2 C3 C4 C5 C6 C7 C8 C9] F Hl. assert (0 ≤ len data) as Hd by (unfold len; lia). rewrite buffer_size in *.
  assert (len (Q ++ data) = len Q + len data) as EL by (unfold len; rewrite length_app; lia).
  set (s1 := (s <| tx_buffer := _ |>) <| tx_length := _ |>).
  assert (tx_length s1 = tx_length s + len data) as E1 by (change (tx_length s1) with (u32 (tx_length s + len data)); rewrite u32_small by lia; done).
  split; rewrite ?E1, ?EL, ?buffer_size; try done.
  - change (tx_start s1) with (tx_start s). lia.
  - lia.
  - change (tx_start s1) with (tx_start s). change (tx_buffer s1) with (ring_write (tx_start s) (tx_length s) data (tx_buffer s)).
    rewrite ring_write_store by (rewrite ?buffer_size; unfold len in *; lia). rewrite buffer_size. unfold len in *.
    rewrite ring_store_append by lia. rewrite C3. unfold slice. rewrite drop_app_le by lia.
    rewrite (take_ge (drop (Z.to_nat a) Q)) by (rewrite length_drop; lia). rewrite take_ge; [done|]. rewrite length_app, length_drop. lia.
  - intros _. destruct (C8 F). split; [done|lia].
  - intros X. change (fin_seq_set s = true) in X. congruence.
Qed.
End send.
