(* ===== verification/TcpSteps.v ===== *)
(** * TCP as a system of steps

    A step is what one entry point does while it holds the lock: a segment
    arrives, the timers are looked at, an application calls or goes another round of a
    call that waits.  An invariant of the sockets is kept by every step if it is
    kept by what the step does to the sockets it works on; the rules below say what that
    is. *)

From S2P Require Import Prelude NetBytes Ring Tcp TcpSpec.

Inductive action :=
| ASegment (now dev source destination : Z) (segment : list Z)
| APoll (now : Z)
| ASocket (own : Z)
| AConnect (handle address port now : Z)
| AListen (handle port back : Z)
| AAccept (handle timeout deadline now : Z)
| ASend (handle : Z) (data : list Z) (timeout deadline now : Z)
| AReceive (handle size timeout deadline now : Z)
| AClose (handle now : Z)
| AAbort (handle : Z)
| ARelease (own : Z).

(** What a step answers. *)
Inductive answer :=
| Nothing
| Code (code : Z)
| Started (code : option Z)
| Waited (r : round Z)
| Received (r : round (Z * list Z)).

Section steps.
Context {W : Type} `{Ipv4 W}.
Implicit Types (s : tcp_socket) (t : tcp W).

Definition perform (a : action) t : answer * tcp W :=
  match a with
  | ASegment now dev source destination segment => (Nothing, receive_segment now dev source destination segment t)
  | APoll now => (Nothing, tcp_poll now t)
  | ASocket own => let '(r, t) := tcp_socket_owned own t in (Code r, t)
  | AConnect handle address port now => let '(r, t) := connect_start handle address port now t in (Started r, t)
  | AListen handle port back => let '(r, t) := tcp_listen handle port back t in (Code r, t)
  | AAccept handle timeout deadline now => let '(r, t) := accept_round handle timeout deadline now t in (Waited r, t)
  | ASend handle data timeout deadline now => let '(r, t) := send_round handle data timeout deadline now t in (Waited r, t)
  | AReceive handle size timeout deadline now => let '(r, t) := receive_round handle size timeout deadline now t in (Received r, t)
  | AClose handle now => let '(r, t) := tcp_close handle now t in (Code r, t)
  | AAbort handle => let '(r, t) := tcp_abort handle t in (Code r, t)
  | ARelease own => (Nothing, tcp_release_owner own t)
  end.

(** The rounds of a call are on a handle that the call has checked. *)
Definition handle_ok (a : action) : Prop :=
  match a with
  | AAccept handle _ _ _ | ASend handle _ _ _ _ => is_socket handle
  | AReceive handle size _ _ _ => is_socket handle ∧ 0 ≤ size
  | _ => True
  end.

(** ** Look-ups *)

Lemma socket_from_handle_spec t handle s : socket_from_handle t handle = Some s → is_socket handle ∧ s = socket_at t handle ∧ used s = true.
Proof.
  unfold socket_from_handle, is_socket. destruct (_ || _) eqn:C; [done|]. intros [= <-].
  apply orb_false_iff in C as [[C1 C2]%orb_false_iff C3]. apply negb_false_iff in C3. apply Z.ltb_ge in C1. apply Z.leb_gt in C2. done.
Qed.

Lemma find_socket_spec t laddr lport raddr rport i : find_socket t laddr lport raddr rport = Some i →
  is_socket i ∧ used (socket_at t i) = true ∧ state (socket_at t i) ≠ TCP_STATE_CLOSED ∧ local_port (socket_at t i) = lport ∧
  (state (socket_at t i) ≠ TCP_STATE_LISTEN →
   remote_port (socket_at t i) = rport ∧ remote_address (socket_at t i) = raddr ∧ local_address (socket_at t i) = laddr).
Proof.
  unfold find_socket. destruct (for_first _ _ _) as [k|] eqn:F.
  - intros [= <-]. apply for_first_Some in F as (Hk&C&_). unfold is_socket. split; [lia|].
    apply andb_true_iff in C as [[[[[[U N]%andb_true_iff L]%andb_true_iff Nl]%andb_true_iff R]%andb_true_iff A]%andb_true_iff D].
    apply negb_true_iff, bool_decide_eq_false_1 in N. apply Z.eqb_eq in L, R, A, D. done.
  - clear F. set (p := λ found i, _). intros E.
    assert (∀ l, (∀ x, x ∈ l → is_socket x) → ∀ i, foldl p None l = Some i → is_socket i ∧ used (socket_at t i) = true ∧
      state (socket_at t i) ≠ TCP_STATE_CLOSED ∧ local_port (socket_at t i) = lport ∧ state (socket_at t i) = TCP_STATE_LISTEN) as D.
    { intros l. induction l as [|x l IH] using rev_ind; [done|]. intros Hl j. rewrite foldl_app. cbn [foldl]. unfold p at 1.
      destruct (_ && _) eqn:C; [|apply IH; intros y Hy; apply Hl, elem_of_app; by left]. intros [= <-]. split; [apply Hl, elem_of_app; right; mem|].
      apply andb_true_iff in C as [[[[U N]%andb_true_iff L]%andb_true_iff Li]%andb_true_iff _].
      apply negb_true_iff, bool_decide_eq_false_1 in N. apply bool_decide_eq_true_1 in Li. by apply Z.eqb_eq in L. }
    apply D in E; [destruct E as (E1&E2&E3&E4&E5); by split_and!|]. intros x Hx. apply elem_of_seqZ in Hx. unfold is_socket. lia.
Qed.

Lemma socket_allocate_spec t : match socket_allocate t with
  | (None, t') => t' = t
  | (Some i, t') => is_socket i ∧ used (socket_at t i) = false ∧
      t' = put_socket i (socket_reset <| used := true |> <| state := TCP_STATE_CLOSED |> <| rto_ms := TCP_INITIAL_RTO_MS |>) t
  end.
Proof.
  unfold socket_allocate. destruct (for_first _ _ _) as [i|] eqn:F; [|done].
  apply for_first_Some in F as (Hi&C&_). apply negb_true_iff in C. unfold is_socket. split; [lia|done].
Qed.

Lemma allocate_port_table n : ∀ t, sockets (allocate_port n t).2 = sockets t ∧ net (allocate_port n t).2 = net t.
Proof.
  induction n as [|n IH]; intros t; cbn [allocate_port]; [done|]. cbv zeta. set (t1 := t <| next_ephemeral := _ |>).
  destruct (negb _); [done|]. destruct (IH t1) as [-> ->]. done.
Qed.

(** A call that does not start changes no socket; one that does sends a SYN. *)
Lemma connect_start_cases handle address port now t :
  let s := socket_at t handle in let '(r, t') := connect_start handle address port now t in
  (r ≠ None ∧ sockets t' = sockets t ∧ net t' = net t) ∨
  (r = None ∧ is_socket handle ∧ used s = true ∧ state s = TCP_STATE_CLOSED ∧ app_closed s = false ∧
   ∃ d source lport n t1, is_u32 n ∧ sockets t1 = sockets t ∧ net t1 = net t ∧
     t' = let '(s', t2) := send_syn (connecting d source lport address port n s) t1 in put_socket handle (arm_timer now s') t2).
Proof.
  cbv zeta. unfold connect_start. destruct (_ || _); [by left|].
  destruct (socket_from_handle t handle) as [s|] eqn:S; [|by left].
  apply socket_from_handle_spec in S as (Hi&->&U). destruct (_ || _) eqn:Cl; [by left|].
  apply orb_false_iff in Cl as [Cl Ap]. apply negb_false_iff, bool_decide_eq_true_1 in Cl.
  destruct (pick_route _ _ _ _) as [[d source]|]; [|by left].
  set (pr := if negb _ then _ else allocate_ephemeral_port t). assert (sockets pr.2 = sockets t ∧ net pr.2 = net t) as [P1 P2]
    by (unfold pr; destruct (negb _); [done|apply allocate_port_table]).
  destruct pr as [lport t1]. cbn [snd] in *. destruct (lport =? 0); [by left|].
  unfold generate_isn. cbv zeta. set (n := u32 (_ + _)). set (t2 := t1 <| isn_counter := _ |>).
  destruct (send_syn (connecting d source lport address port n (socket_at t handle)) t2) as [s' t'] eqn:E.
  right. split_and!; try done. exists d, source, lport, n, t2. rewrite E. split_and!; try done. apply u32_range.
Qed.

(** ** Invariants of the sockets *)

Definition every (Inv : Z → tcp_socket → Prop) t : Prop :=
  length (sockets t) = TCP_SOCKET_CAPACITY ∧ ∀ j, is_socket j → Inv j (socket_at t j).

Lemma every_put Inv t i s : every Inv t → is_socket i → Inv i s → every Inv (put_socket i s t).
Proof.
  intros [L E] Hi I. split; [unfold put_socket; cbn; by rewrite length_aset|]. intros j Hj.
  destruct (decide (i = j)) as [<-|N]; [rewrite socket_at_put_eq; [done|]; unfold is_socket in *; by rewrite L|].
  unfold is_socket in *. rewrite socket_at_put_ne by lia. by apply E.
Qed.
Lemma every_table Inv t t' : table_of t' = table_of t → every Inv t → every Inv t'.
Proof. unfold table_of. intros [= E _ _] [L I]. split; [by rewrite E|]. intros j Hj. unfold socket_at. rewrite E. by apply I. Qed.

Section rules.
Context (Inv : Z → tcp_socket → Prop) (good : packet → Prop).
Context (Inv_aside : ∀ j s s', Inv j s → aside s s' → Inv j s').
Context (Inv_reset : ∀ j, Inv j socket_reset).
Context (good_reset : ∀ p, is_reset p → good p).
#[local] Set Default Proof Using "All".

(** What a step keeps. *)
Definition holds t t' : Prop := every Inv t' ∧ emits good (net t) (net t').

Lemma holds_trans t1 t2 t3 : holds t1 t2 → (every Inv t2 → holds t2 t3) → holds t1 t3.
Proof. intros [E N] F. destruct (F E) as [E' N']. split; [done|]. by apply emits_trans with (net t2). Qed.
Lemma holds_table t t' : every Inv t → table_of t' = table_of t → emits good (net t) (net t') → holds t t'.
Proof. intros E T N. split; [by apply (every_table _ t)|done]. Qed.
Lemma holds_nothing t t' : every Inv t → table_of t' = table_of t → net t' = net t → holds t t'.
Proof. intros E T N. apply holds_table; [done|done|]. rewrite N. apply emits_nothing. Qed.
Lemma holds_put t i s : every Inv t → is_socket i → Inv i s → holds t (put_socket i s t).
Proof. intros. split; [by apply every_put|apply emits_nothing]. Qed.

(** A function on one socket, written back. *)
Definition every_but (i : Z) t : Prop :=
  length (sockets t) = TCP_SOCKET_CAPACITY ∧ ∀ j, is_socket j → j ≠ i → Inv j (socket_at t j).
Lemma holds_run_but t i r : every_but i t → is_socket i → run good t r (Inv i) → holds t (let '(s, t') := r in put_socket i s t').
Proof.
  destruct r as [s t']. intros [L E] Hi (R1&(T1&_&_&T2)&R3). cbn [fst snd] in *. split; [|done].
  split; [unfold put_socket; cbn; rewrite length_aset; congruence|]. intros j Hj.
  destruct (decide (i = j)) as [<-|N]; [rewrite socket_at_put_eq; [done|]; unfold is_socket in *; rewrite T1, L; lia|].
  unfold is_socket in *. rewrite socket_at_put_ne by lia. apply (Inv_aside j (socket_at t j)); [by apply E; [|lia]|]. apply T2. lia.
Qed.
Lemma holds_run t i r : every Inv t → is_socket i → run good t r (Inv i) → holds t (let '(s, t') := r in put_socket i s t').
Proof. intros [L E]. apply holds_run_but. split; auto. Qed.
Lemma holds_put_but t i s : every_but i t → is_socket i → Inv i s → holds t (put_socket i s t).
Proof. intros E Hi I. exact (holds_run_but t i (s, t) E Hi (run_return good s t (Inv i) I)). Qed.

Lemma holds_reset t dev laddr raddr lport rport sequence ack flags : every Inv t →
  holds t (send_reset dev laddr raddr lport rport sequence ack flags t).
Proof.
  intros E. destruct (send_reset_wire dev laddr raddr lport rport sequence ack flags t) as [T N]. apply holds_table; [done|done|].
  rewrite N. apply emits_one, good_reset. by repeat eexists.
Qed.

(** A loop over the table. *)
Lemma holds_loop (f : tcp W → Z → tcp W) l : (∀ t i, every Inv t → is_socket i → holds t (f t i)) →
  (∀ i, i ∈ l → is_socket i) → ∀ t, every Inv t → holds t (foldl f t l).
Proof.
  intros F. induction l as [|i l IH]; intros Hl t E; [split; [done|apply emits_nothing]|]. cbn [foldl].
  apply (holds_trans t (f t i)); [apply F; [done|apply Hl; mem]|]. intros E2. apply IH; [|done]. intros j Hj. apply Hl. mem.
Qed.
Lemma table_indices i : i ∈ seqZ 0 (Z.of_nat TCP_SOCKET_CAPACITY) → is_socket i.
Proof. intros Hi. apply elem_of_seqZ in Hi. unfold is_socket. lia. Qed.

(** *** Segments *)

Lemma child_sent p now own laddr raddr lport rport g c t :
  (∀ n t1, is_u32 n → run good t1 (send_syn (new_child p own laddr raddr lport rport n g (socket_at t c)) t1) (λ s', Inv c (arm_timer now s'))) →
  every Inv t → is_socket c →
  holds t (let '(n, t) := generate_isn now t in
           let '(child, t) := send_syn (new_child p own laddr raddr lport rport n g (socket_at t c)) t in put_socket c (arm_timer now child) t).
Proof.
  intros R E Hc. unfold generate_isn. cbv zeta. set (n := u32 (_ + _)). set (t1 := t <| isn_counter := _ |>).
  change (socket_at t1 c) with (socket_at t c). specialize (R n t1 (u32_range _)).
  destruct (send_syn (new_child p own laddr raddr lport rport n g (socket_at t c)) t1) as [s' t'].
  exact (holds_run t1 c (arm_timer now s', t') E Hc R).
Qed.

Lemma receive_listen_holds p now laddr raddr lport rport g t :
  (∀ c n own t1, is_socket c → used (socket_at t c) = false → is_u32 n →
     run good t1 (send_syn (new_child p own laddr raddr lport rport n g
       (socket_reset <| used := true |> <| state := TCP_STATE_CLOSED |> <| rto_ms := TCP_INITIAL_RTO_MS |>)) t1) (λ s', Inv c (arm_timer now s'))) →
  (∀ c, used (socket_at t c) = false → Inv c (socket_reset <| used := true |> <| state := TCP_STATE_CLOSED |> <| rto_ms := TCP_INITIAL_RTO_MS |>)) →
  every Inv t → holds t (receive_listen p now laddr raddr lport rport g t).
Proof.
  intros R F E. assert (holds t t) as Same by (apply holds_nothing; done).
  unfold receive_listen. cbv zeta. destruct (flag TCP_FLAG_RST g); [done|]. destruct (flag TCP_FLAG_ACK g); [by apply holds_reset|].
  destruct (negb _); [done|]. destruct (_ <=? _); [done|]. pose proof (socket_allocate_spec t) as A.
  destruct (socket_allocate t) as [[c|] t1]; [|by subst t1]. destruct A as (Hc&U&->). set (fresh := ((socket_reset <| used := true |>) <| state := _ |>) <| rto_ms := _ |>) in *.
  apply (holds_trans t (put_socket c fresh t)); [apply holds_put; auto|]. intros E1.
  assert (socket_at (put_socket c fresh t) c = fresh) as Es by (apply socket_at_put_eq; unfold is_socket in Hc; destruct E as [-> _]; lia).
  apply child_sent; [|done|done]. intros n t1 Hn. rewrite Es. by apply R.
Qed.

Lemma receive_stray_holds laddr raddr lport rport g t : every Inv t → holds t (receive_stray laddr raddr lport rport g t).
Proof.
  intros E. assert (holds t t) as Same by (apply holds_nothing; done).
  unfold receive_stray. destruct (flag TCP_FLAG_RST g); [done|]. destruct (flag TCP_FLAG_ACK g); by apply holds_reset.
Qed.

(** The connection that a segment belongs to. *)
Definition arrives_at (source destination : Z) (segment : list Z) t (i : Z) : Prop :=
  find_socket t destination (net_read_be16 segment 2) source (net_read_be16 segment 0) = Some i ∧
  state (socket_at t i) ≠ TCP_STATE_LISTEN ∧ well_formed segment = true ∧ tcp_checksum source destination segment = 0.

Lemma receive_segment_holds now dev source destination segment t :
  (∀ i t1, arrives_at source destination segment t i → is_socket i → used (socket_at t i) = true → state (socket_at t i) ≠ TCP_STATE_CLOSED →
     Inv i (socket_at t i) → run good t1 (process_segment i now (parse_segment dev segment) (socket_at t i) t1) (Inv i)) →
  (∀ p laddr raddr lport rport c n own t1, is_socket c → used (socket_at t c) = false → is_u32 n →
     run good t1 (send_syn (new_child p own laddr raddr lport rport n (parse_segment dev segment)
       (socket_reset <| used := true |> <| state := TCP_STATE_CLOSED |> <| rto_ms := TCP_INITIAL_RTO_MS |>)) t1) (λ s', Inv c (arm_timer now s'))) →
  (∀ c, used (socket_at t c) = false → Inv c (socket_reset <| used := true |> <| state := TCP_STATE_CLOSED |> <| rto_ms := TCP_INITIAL_RTO_MS |>)) →
  every Inv t → holds t (receive_segment now dev source destination segment t).
Proof.
  intros R C F E. assert (∀ c, holds t (count_stat c t)) as Same by (intros; by apply holds_nothing).
  assert (holds t t) as Same' by (apply holds_nothing; done).
  unfold receive_segment. destruct (well_formed segment) eqn:Wf; cbn [negb]; [|done].
  destruct (Z.eqb_spec (tcp_checksum source destination segment) 0) as [Ck|]; cbn [negb]; [|apply Same]. cbv zeta.
  destruct (_ || _); [done|]. set (t1 := count_stat _ t). apply (holds_trans t t1); [apply Same|]. intros E1.
  destruct (find_socket t1 _ _ _ _) as [i|] eqn:Fi; [|by apply receive_stray_holds].
  change (find_socket t1) with (find_socket t) in Fi. destruct (find_socket_spec _ _ _ _ _ _ Fi) as (Hi&U&N&_).
  change (socket_at t1 i) with (socket_at t i). destruct (bool_decide _) eqn:L.
  - apply receive_listen_holds; [intros; by apply C|done|done].
  - apply bool_decide_eq_false_1 in L. apply holds_run; [done|done|]. apply R; [by split_and!|done|done|done|by apply E].
Qed.

(** *** Timers *)

Lemma poll_holds now t :
  (∀ i s, is_socket i → Inv i s → used s = true → (state s = TCP_STATE_TIME_WAIT ∨ state s = TCP_STATE_FIN_WAIT_2 ∧ app_closed s = true) → Inv i (enter_closed 0 s)) →
  (∀ i s t1, is_socket i → Inv i s → used s = true → timer_armed s = true → run good t1 (handle_timeout now s t1) (Inv i)) →
  every Inv t → holds t (tcp_poll now t).
Proof.
  intros C R. apply holds_loop; [|apply table_indices]. clear t. intros t i E Hi. unfold poll_socket. cbv zeta.
  pose proof (proj2 E i Hi) as I. assert (holds t t) as Same by (apply holds_nothing; done).
  destruct (used (socket_at t i)) eqn:U; cbn [negb]; [|done]. destruct (_ && (time_wait_deadline _ <=? _)) eqn:T.
  - apply holds_put; [done|done|]. apply C; try done. apply andb_true_iff in T as [T _].
    apply orb_true_iff in T as [T|[T A]%andb_true_iff]; apply bool_decide_eq_true_1 in T; auto.
  - destruct (timer_armed (socket_at t i)) eqn:Ta; cbn [andb]. 2: exact Same. destruct (timer_deadline (socket_at t i) <=? now); [|exact Same]. apply holds_run; [done|done|]. by apply R.
Qed.

(** *** Calls *)

Lemma reset_peer_holds sequence s t : every Inv t → holds t (reset_peer sequence s t).
Proof. apply holds_reset. Qed.

Lemma abort_children_holds p t : every Inv t → holds t (abort_children p t).
Proof.
  apply holds_loop; [|apply table_indices]. clear t. intros t i E Hi. cbv zeta. destruct (_ || _); [by apply holds_nothing|].
  set (t1 := if _ && _ then reset_peer _ _ t else t).
  apply (holds_trans t t1); [unfold t1; destruct (_ && _); [by apply reset_peer_holds|by apply holds_nothing]|].
  intros E1. apply holds_put; [done|done|apply Inv_reset].
Qed.

Lemma hang_up_holds i s t : every Inv t →
  holds t (if bool_decide (state s = TCP_STATE_LISTEN) then abort_children i t else if connected s then reset_peer (snd_nxt s) s t else t).
Proof.
  intros E. destruct (bool_decide _); [by apply abort_children_holds|].
  destruct (connected s); [by apply reset_peer_holds|by apply holds_nothing].
Qed.

Lemma release_owner_holds own t : every Inv t → holds t (tcp_release_owner own t).
Proof.
  apply holds_loop; [|apply table_indices]. clear t. intros t i E Hi. cbv zeta. destruct (_ || _); [by apply holds_nothing|].
  eapply holds_trans; [by apply (hang_up_holds i (socket_at t i))|]. intros E1. apply holds_put; [done|done|apply Inv_reset].
Qed.

Lemma tcp_abort_holds handle t : every Inv t → holds t (tcp_abort handle t).2.
Proof.
  intros E. unfold tcp_abort. destruct (socket_from_handle t handle) as [s|] eqn:S; [|by apply holds_nothing].
  apply socket_from_handle_spec in S as (Hi&_&_). cbv zeta. cbn [snd].
  eapply holds_trans; [by apply (hang_up_holds handle s)|]. intros E1. apply holds_put; [done|done|apply Inv_reset].
Qed.

Lemma socket_owned_holds own t :
  (∀ c, used (socket_at t c) = false →
     Inv c (socket_reset <| used := true |> <| state := TCP_STATE_CLOSED |> <| rto_ms := TCP_INITIAL_RTO_MS |> <| owner := own |>)) →
  every Inv t → holds t (tcp_socket_owned own t).2.
Proof.
  intros F E. unfold tcp_socket_owned. pose proof (socket_allocate_spec t) as A. destruct (socket_allocate t) as [[c|] t1]; cbn [snd].
  - destruct A as (Hc&U&->). rewrite socket_at_put_eq by (unfold is_socket in Hc; destruct E as [-> _]; lia).
    assert (∀ s1 s2, put_socket c s1 (put_socket c s2 t) = put_socket c s1 t) as P.
    { intros s1 s2. unfold put_socket. exact (f_equal (λ l, t <| sockets := l |>) (aset_aset (sockets t) c s2 s1)). }
    rewrite P. apply holds_put; auto.
  - subst t1. by apply holds_nothing.
Qed.

Lemma shift_queue_ok q n : queue_is q n → n ≠ 0 → queue_is (shift_queue q n) (n - 1).
Proof.
  intros (Q1&Q2&Q3) N. assert (∀ l, (∀ k, k ∈ l → 0 ≤ k) →
    length (foldl (λ q k, aset q (k - 1) (aget 0 q k)) q l) = 4%nat ∧ Forall is_socket (foldl (λ q k, aset q (k - 1) (aget 0 q k)) q l)) as D.
  { intros l. induction l as [|k l IH] using rev_ind; intros Hl; [done|]. rewrite foldl_app. cbn [foldl].
    destruct IH as [I1 I2]; [intros x Hx; apply Hl, elem_of_app; by left|]. split; [by rewrite length_aset|].
    apply Forall_insert; [done|]. set (q' := foldl _ _ _) in *. clearbody q'.
    unfold aget. destruct (nth_in_or_default (Z.to_nat k) q' 0) as [Hin| ->]; [|unfold is_socket, TCP_SOCKET_CAPACITY; lia].
    rewrite Forall_forall in I2. by apply I2, list_elem_of_In. }
  unfold shift_queue. destruct (D (seqZ 1 (n - 1))) as [D1 D2]; [intros k Hk; apply elem_of_seqZ in Hk; lia|].
  split; [done|]. split; [done|lia].
Qed.

Lemma shift_aside s : state s = TCP_STATE_LISTEN → accept_count s ≠ 0 →
  aside s (s <| accept_queue := shift_queue (accept_queue s) (accept_count s) |> <| accept_count := accept_count s - 1 |>).
Proof. intros L N. right. split; [done|]. eexists _, _. split; [reflexivity|]. intros Q. by apply (shift_queue_ok (accept_queue s) (accept_count s)). Qed.

(** The index that C computes from a number outside of the table is not used: nothing changes. *)
Lemma every_parent t r p : (∀ j s, Inv j s → Inv j (s <| parent := p |>)) → every Inv t → every Inv (put_socket r ((socket_at t r) <| parent := p |>) t).
Proof.
  intros P E. set (k := Z.of_nat (Z.to_nat r)).
  assert (socket_at t r = socket_at t k) as -> by (unfold socket_at, aget, k; by rewrite Nat2Z.id).
  assert (∀ s, put_socket r s t = put_socket k s t) as -> by (intros s; unfold put_socket, aset, k; by rewrite Nat2Z.id).
  destruct (decide (is_socket k)) as [Hk|Hk]; [apply every_put; [done|done|apply P; by apply E]|].
  assert (put_socket k ((socket_at t k) <| parent := p |>) t = t) as ->; [|done].
  assert (aset (sockets t) k ((socket_at t k) <| parent := p |>) = sockets t) as Es.
  { unfold aset, k. rewrite Nat2Z.id. apply list_insert_ge. unfold is_socket in Hk. destruct E as [-> _]. lia. }
  unfold put_socket. rewrite Es. by destruct t.
Qed.

Lemma accept_holds handle timeout deadline now t : is_socket handle → (∀ j s, Inv j s → Inv j (s <| parent := -1 |>)) →
  every Inv t → holds t (accept_round handle timeout deadline now t).2.
Proof.
  intros Hi P E. unfold accept_round. cbv zeta. destruct (_ || _) eqn:U; [by apply holds_nothing|].
  apply orb_false_iff in U as [_ L]. apply negb_false_iff, bool_decide_eq_true_1 in L.
  destruct (Z.eqb_spec (accept_count (socket_at t handle)) 0) as [|N]; cbn [negb]; [destruct (gives_up _ _ _); by apply holds_nothing|].
  cbn [snd]. set (s1 := ((socket_at t handle) <| accept_queue := _ |>) <| accept_count := _ |>).
  apply (holds_trans t (put_socket handle s1 t)).
  { apply holds_put; [done|done|]. apply (Inv_aside _ (socket_at t handle)); [by apply E|by apply shift_aside]. }
  intros E1. split; [by apply every_parent|apply emits_nothing].
Qed.

Lemma listen_holds handle port back t :
  (∀ s p b, is_socket handle → used s = true → state s = TCP_STATE_CLOSED → Inv handle s →
     Inv handle (s <| local_port := p |> <| local_address := 0 |> <| backlog := b |> <| state := TCP_STATE_LISTEN |>)) →
  every Inv t → holds t (tcp_listen handle port back t).2.
Proof.
  intros L E. unfold tcp_listen. destruct (port =? 0); [by apply holds_nothing|].
  destruct (socket_from_handle t handle) as [s|] eqn:S; [|by apply holds_nothing].
  apply socket_from_handle_spec in S as (Hi&->&U). destruct (_ || _) eqn:C; [by apply holds_nothing|].
  apply orb_false_iff in C as [C _]. apply negb_false_iff, bool_decide_eq_true_1 in C.
  destruct (port_in_use t port); [by apply holds_nothing|]. cbv zeta. cbn [snd]. apply holds_put; [done|done|]. apply L; try done. by apply E.
Qed.

Lemma every_sockets t t' : sockets t' = sockets t → every Inv t → every Inv t'.
Proof. intros E [L I]. split; [by rewrite E|]. intros j Hj. unfold socket_at. rewrite E. by apply I. Qed.

Lemma connect_holds handle address port now t :
  (∀ s d source lport n t1, is_socket handle → used s = true → state s = TCP_STATE_CLOSED → app_closed s = false → is_u32 n → Inv handle s →
     run good t1 (send_syn (connecting d source lport address port n s) t1) (λ s', Inv handle (arm_timer now s'))) →
  every Inv t → holds t (connect_start handle address port now t).2.
Proof.
  intros C E. pose proof (connect_start_cases handle address port now t) as D. destruct (connect_start handle address port now t) as [r t']. cbn [snd].
  destruct D as [(_&S&N)|(_&Hi&U&Cl&Ap&d&source&lport&n&t1&Hn&S&N&->)].
  - split; [by apply (every_sockets t)|]. rewrite N. apply emits_nothing.
  - assert (every Inv t1) as E1 by by apply (every_sockets t). specialize (C (socket_at t handle) d source lport n t1 Hi U Cl Ap Hn (proj2 E handle Hi)).
    destruct (send_syn _ t1) as [s' t2]. destruct (holds_run t1 handle (arm_timer now s', t2) E1 Hi C) as [X1 X2].
    rewrite N in X2. by split.
Qed.

Lemma close_holds handle now t :
  (∀ s t1, is_socket handle → used s = true → app_closed s = false → Inv handle s →
     (state s = TCP_STATE_SYN_RECEIVED ∨ state s = TCP_STATE_ESTABLISHED ∨ state s = TCP_STATE_CLOSE_WAIT) →
     run good t1 (tcp_output now (s <| app_closed := true |> <| fin_queued := true |>) t1) (Inv handle)) →
  (∀ s, is_socket handle → used s = true → app_closed s = false → Inv handle s → state s ≠ TCP_STATE_CLOSED → Inv handle (s <| app_closed := true |>)) →
  every Inv t → holds t (tcp_close handle now t).2.
Proof.
  intros F A E. unfold tcp_close. destruct (socket_from_handle t handle) as [s|] eqn:S; [|by apply holds_nothing].
  apply socket_from_handle_spec in S as (Hi&->&U). destruct (app_closed (socket_at t handle)) eqn:Ac; [by apply holds_nothing|].
  pose proof (proj2 E handle Hi) as I. cbv zeta. cbn [snd]. set (s := socket_at t handle) in *.
  change (state (s <| app_closed := true |>)) with (state s).
  assert (∀ t1, every Inv t1 → holds t1 (put_socket handle socket_release t1)) as Rel by (intros; apply holds_put; [done|done|apply Inv_reset]).
  assert ((state s = TCP_STATE_SYN_RECEIVED ∨ state s = TCP_STATE_ESTABLISHED ∨ state s = TCP_STATE_CLOSE_WAIT) →
    holds t (let '(s', t') := tcp_output now ((s <| app_closed := true |>) <| fin_queued := true |>) t in put_socket handle s' t')) as Out
    by (intros X; apply holds_run; auto).
  assert (state s ≠ TCP_STATE_CLOSED → holds t (put_socket handle (s <| app_closed := true |>) t)) as Mark by (intros X; apply holds_put; auto).
  destruct (state s) eqn:St; try (apply Mark; congruence); try (apply Out; tauto); try (by apply Rel).
  eapply holds_trans; [by apply (abort_children_holds handle)|]. apply Rel.
Qed.
End rules.

(** What [tcp_send] writes: [k] bytes of [data] behind those that wait. *)
Definition written (k : Z) (data : list Z) s : tcp_socket :=
  s <| tx_buffer := ring_write (tx_start s) (tx_length s) (take (Z.to_nat k) data) (tx_buffer s) |> <| tx_length := u32 (tx_length s + k) |>.

Lemma send_round_cases handle data timeout deadline now t :
  let s := socket_at t handle in let '(r, t') := send_round handle data timeout deadline now t in
  (t' = t ∧ ∀ c, r = Done c → c ≤ 0 ∨ c = error s) ∨
  ∃ k, used s = true ∧ can_send_state s = true ∧ fin_queued s = false ∧ k = min_u32 (Z.of_nat (length data)) (u32 (TCP_BUFFER_SIZE - tx_length s)) ∧
    k ≠ 0 ∧ r = Done (i32 k) ∧ t' = let '(s', t') := tcp_output now (written k data s) t in put_socket handle s' t'.
Proof.
  cbv zeta. unfold send_round. cbv zeta. set (s := socket_at t handle).
  assert (∀ c, c ≤ 0 ∨ c = error s → (t = t ∧ ∀ c', Done c = Done c' → c' ≤ 0 ∨ c' = error s)) as Stop by (intros c Hc; split; [done|]; by intros c' [= <-]).
  destruct (used s) eqn:U; cbn [negb]; [|left; apply Stop; by left].
  destruct (bool_decide _); [left; apply Stop; destruct (negb _); [by right|by left]|].
  destruct (fin_queued s) eqn:F; cbn [orb]; [left; apply Stop; by left|]. destruct (can_send_state s) eqn:C; cbn [negb andb orb].
  - destruct (Z.eqb_spec (Z.of_nat (length data)) 0) as [|Nd]; [left; apply Stop; by left|].
    destruct (Z.eqb_spec (u32 (TCP_BUFFER_SIZE - tx_length s)) 0) as [|Ns]; cbn [negb].
    + destruct (gives_up _ _ _); left; [apply Stop; by left|]. split; [done|]. by intros c [=].
    + set (k := min_u32 (Z.of_nat (length data)) (u32 (TCP_BUFFER_SIZE - tx_length s))). fold (written k data s).
      destruct (tcp_output now (written k data s) t) as [s' t'] eqn:E. right. exists k. rewrite E. split_and!; try done.
      unfold k. rewrite min_u32_min. pose proof (u32_range (TCP_BUFFER_SIZE - tx_length s)) as R.
      unfold is_u32 in R. lia.
  - destruct (_ || _); [|left; apply Stop; by left]. destruct (gives_up _ _ _); left; [apply Stop; by left|]. split; [done|]. by intros c [=].
Qed.

(** What [tcp_receive] takes. *)
Definition consumed (k : Z) s : tcp_socket :=
  s <| rx_start := u32 (rx_start s + k) mod TCP_BUFFER_SIZE |> <| rx_length := rx_length s - k |>.

Lemma receive_round_cases handle size timeout deadline now t :
  let s := socket_at t handle in let '(r, t') := receive_round handle size timeout deadline now t in
  (t' = t ∧ ∀ c data, r = Done (c, data) → data = [] ∧
     (c = 0 → used s = true ∧ rx_length s = 0 ∧ error s = 0 ∧
        (fin_received s = true ∨ state s ∈ [TCP_STATE_LISTEN; TCP_STATE_CLOSE_WAIT; TCP_STATE_CLOSING; TCP_STATE_LAST_ACK; TCP_STATE_TIME_WAIT]))) ∨
  ∃ k, used s = true ∧ rx_length s ≠ 0 ∧ k = min_u32 size (rx_length s) ∧ r = Done (i32 k, ring_read (rx_buffer s) (rx_start s) 0 k) ∧
    (t' = put_socket handle (consumed k s) t ∨ t' = let '(s', t') := send_ack (consumed k s) t in put_socket handle s' t').
Proof.
  cbv zeta. unfold receive_round. cbv zeta. set (s := socket_at t handle). destruct (used s) eqn:U; cbn [negb].
  2: { left. split; [done|]. intros c d [= <- <-]. done. }
  destruct (Z.eqb_spec (rx_length s) 0) as [L|N]; cbn [negb].
  - destruct (Z.eqb_spec (error s) 0) as [E|E]; cbn [negb]; [|left; split; [done|]; intros c d [= <- <-]; split; [done|]; by intros X].
    destruct (fin_received s) eqn:F; [left; split; [done|]; intros c d [= <- <-]; split; [done|]; intros _; by split_and!; [..|left]|].
    destruct (state s) eqn:St; try destruct (gives_up _ _ _); left; (split; [done|]); intros c d X; try discriminate X; injection X as <- <-; (split; [done|]);
      intros Y; try discriminate Y; split_and!; try done; right; repeat constructor.
  - set (k := min_u32 size (rx_length s)). fold (consumed k s).
    destruct (_ && _); [|right; exists k; by eauto 10]. destruct (send_ack (consumed k s) t) as [s' t'] eqn:Es. right. exists k.
    split_and!; try done. right. by rewrite Es.
Qed.

(** ** Any socket at all *)

Lemma run_any t r post : run (λ _, True) t r post → run (λ _, True) t r (λ _, True).
Proof. by apply run_mono. Qed.

Lemma process_data_any now g s t : run (λ _, True) t (process_data now g s t) (λ _, True).
Proof.
  unfold process_data. apply run_bind with (mid := acked (g_ack g) s); [apply handle_ack_run; intros; apply retransmit_answers|].
  clear t. intros s1 t _. destruct (_ || _); [by apply run_return|]. destruct (take_segment now g s1) as [s2 b].
  apply run_bind with (mid := outputs s2); [apply output_outputs|]. intros s3 t3 _. destruct b; [|by apply run_return].
  by eapply run_any, send_ack_answers.
Qed.
Lemma process_segment_any i now g s t : is_socket i → run (λ _, True) t (process_segment i now g s t) (λ _, True).
Proof.
  intros Hi. assert (run (λ _, True) t (process_synchronized i now g s t) (λ _, True)) as D.
  { apply process_synchronized_run; try done; intros; [by eapply run_any, send_ack_answers|by eapply run_any, send_syn_answers|apply process_data_any]. }
  unfold process_segment. destruct (state s); try exact D.
  - unfold process_syn_sent. destruct (_ && _); [destruct (negb _); [by apply run_reset_from|by apply run_return]|].
    destruct (flag TCP_FLAG_RST g); [by apply run_return|]. destruct (negb _); [by apply run_return|]. cbv zeta. destruct (flag TCP_FLAG_ACK g).
    + apply run_bind with (mid := λ _, True); [by apply become_established_run|]. intros s1 t1 _.
      apply run_bind with (mid := answers s1); [apply send_ack_answers|]. intros s2 t2 _. by eapply run_any, output_outputs.
    + eapply run_bind; [apply send_syn_answers|]. intros s1 t1 _. by apply run_return.
  - unfold process_time_wait. destruct (_ && _); [|by apply run_return]. eapply run_bind; [apply send_ack_answers|]. intros s1 t1 _. by apply run_return.
Qed.
Lemma timeout_any now s t : run (λ _, True) t (handle_timeout now s t) (λ _, True).
Proof.
  apply handle_timeout_run; intros; [|  |  |done]; (eapply run_mono; [done| |first [apply send_syn_answers|apply retransmit_answers|apply output_outputs]]; done).
Qed.
End steps.
