(* ===== verification/TcpStream.v ===== *)
(** * The streams of TCP

    What an application reads from a connection is what its peer wrote, and what
    leaves with a number of a connection is what the application wrote at that
    position, whatever the network and the other sockets do meanwhile. *)

From S2P Require Import Prelude NetBytes Ring Tcp TcpSpec TcpRecv TcpSend TcpSteps.

Section stream.
Context {W : Type} `{Ipv4 W}.
Implicit Types (s : tcp_socket) (t : tcp W).

Lemma run_post good t r (post post' : tcp_socket → Prop) : (∀ s, post s → post' s) → run good t r post → run good t r post'.
Proof. by apply run_mono. Qed.

(** ** Receiving *)

(** A connection of which nothing was received yet. *)
Definition opened s : Prop :=
  used s = true ∧ (state s = TCP_STATE_SYN_RECEIVED ∨ state s = TCP_STATE_ESTABLISHED) ∧ fin_received s = false ∧
  rx_length s = 0 ∧ 0 ≤ rx_start s < TCP_BUFFER_SIZE ∧ rcv_nxt s = u32 (irs s + 1).

(** The bytes that a step delivers to the owner of socket [i]. *)
Definition delivered (i : Z) (a : action) (r : answer) : list Z :=
  match a, r with
  | AReceive handle _ _ _ _, Received (Done (_, data)) => if handle =? i then data else []
  | _, _ => []
  end.

(** The segments that belong to connection [i] are those of a peer with the stream [P]: lost, repeated, late
    or in any order. *)
Definition from_peer (i : Z) (P : list Z) (read : Z) (a : action) t : Prop :=
  match a with
  | ASegment _ dev source destination segment => arrives_at source destination segment t i →
      honest P (read + rx_length (socket_at t i)) (irs (socket_at t i)) (parse_segment dev segment)
  | _ => True
  end.
(** The socket is not used for another connection. *)
Definition reopens (i : Z) (a : action) : Prop :=
  match a with AConnect handle _ _ _ | AListen handle _ _ => handle = i | _ => False end.

(** Any steps while connection [i] lasts, and what its owner read. *)
Inductive history (i : Z) (P : list Z) (t0 : tcp W) : list Z → tcp W → Prop :=
| history_start : history i P t0 [] t0
| history_step bs t a r t' : history i P t0 bs t → handle_ok a → ¬ reopens i a → from_peer i P (len bs) a t →
    perform a t = (r, t') → used (socket_at t' i) = true → history i P t0 (bs ++ delivered i a r) t'.

Lemma opened_receiver P s : opened s → receiver P 0 s.
Proof.
  intros (_&St&F&L&R&N). split; rewrite ?L, ?F, ?N.
  - split; [done|]. rewrite buffer_size. lia.
  - split; [lia|]. unfold len. lia.
  - done.
  - unfold stage_of. destruct St as [-> | ->]; (split; [done|]); f_equal; lia.
Qed.

(** Taking [k] bytes out of the ring. *)
Lemma consumed_receiver P n k s : receiver P n s → 0 ≤ k ≤ rx_length s →
  receiver P (n + k) (consumed k s) ∧ ring_read (rx_buffer s) (rx_start s) 0 k = slice P n k ∧ used (consumed k s) = used s.
Proof.
  intros [C1 C2 C3 C4] Hk. pose proof C1 as B. rewrite buffer_size in B.
  assert (ring_contents TCP_BUFFER_SIZE (rx_buffer s) (rx_start s) (rx_length s) =
    ring_contents TCP_BUFFER_SIZE (rx_buffer s) (rx_start s) k ++ ring_contents TCP_BUFFER_SIZE (rx_buffer s) ((rx_start s + k) mod TCP_BUFFER_SIZE) (rx_length s - k)) as E
    by (apply ring_contents_drop; [by rewrite buffer_size|done]).
  assert (slice P n (rx_length s) = slice P n k ++ slice P (n + k) (rx_length s - k)) as E2 by (rewrite <- slice_app by lia; f_equal; lia).
  rewrite C3, E2 in E. apply app_inj_1 in E as [E3 E4]; cycle 1.
  { rewrite length_ring_contents. pose proof (len_slice P n k ltac:(lia) ltac:(lia) ltac:(lia)) as L. unfold len in L. lia. }
  split; [|split; [rewrite ring_read_contents, Z.add_0_r by (rewrite ?buffer_size; lia); done|done]].
  assert (∀ s', rx_of s' = (rcv_nxt s, fin_received s, (rx_start s + k) mod TCP_BUFFER_SIZE, rx_length s - k, rx_buffer s) →
    irs s' = irs s → error s' = error s → stage_of s' = stage_of s → receiver P (n + k) s') as D.
  { intros s' R I Er S. unfold rx_of in R. injection R as R1 R2 R3 R4 R5. split; rewrite ?R1, ?R2, ?R3, ?R4, ?R5, ?I, ?Er, ?S.
    - pose proof (Z.mod_pos_bound (rx_start s + k) TCP_BUFFER_SIZE ltac:(rewrite buffer_size; lia)). rewrite buffer_size in *. lia.
    - lia.
    - by rewrite <- E4.
    - replace (n + k + (rx_length s - k)) with (n + rx_length s) by lia. done. }
  apply D; try done.
  change (rx_of (consumed k s)) with (rcv_nxt s, fin_received s, u32 (rx_start s + k) mod TCP_BUFFER_SIZE, rx_length s - k, rx_buffer s).
  by rewrite u32_small by lia.
Qed.

Section receiving.
Context (i : Z) (P : list Z).
Context (Hi : is_socket i).
#[local] Set Default Proof Using "All".

(** Socket [i] has received the stream of its peer, and its owner has [n] bytes of it. *)
Definition receives_at (n : Z) (j : Z) s : Prop := j = i → used s = true → receiver P n s.

Lemma receives_aside n j s s' : receives_at n j s → aside s s' → receives_at n j s'.
Proof.
  intros R [->|(L&q&k&->&_)]; [done|]. intros E U. specialize (R E U). apply rc_stage in R. unfold stage_of in R. by rewrite L in R.
Qed.
Lemma receives_reset n j : receives_at n j socket_reset.
Proof. by intros _ [=]. Qed.
Lemma receives_same n j s s' : rx_same s s' → receives_at n j s → receives_at n j s'.
Proof. intros S R E U. apply (receiver_same P n s); [done|]. apply R; [done|]. destruct S as (_&_&_&_&<-). done. Qed.

(** A function on any socket, that keeps the receiver of socket [i]. *)
Lemma receives_run n j t r : run (λ _, True) t r (λ _, True) → (j = i → run (λ _, True) t r (λ s', used s' = true → receiver P n s')) →
  run (λ _, True) t r (receives_at n j).
Proof.
  intros A R. destruct (decide (j = i)) as [->|N].
  - eapply run_post; [|by apply R]. intros s' X _. done.
  - eapply run_post; [|exact A]. intros s' _ E. by destruct N.
Qed.

Lemma every_receives n t : length (sockets t) = TCP_SOCKET_CAPACITY → receiver P n (socket_at t i) → every (receives_at n) t.
Proof. intros L R. split; [done|]. by intros j _ -> _. Qed.

(** Every step but a reading one keeps what was received. *)
Lemma step_receiver n a t r t' : length (sockets t) = TCP_SOCKET_CAPACITY → used (socket_at t i) = true → receiver P n (socket_at t i) →
  handle_ok a → ¬ reopens i a → from_peer i P n a t → perform a t = (r, t') →
  match a with AReceive handle _ _ _ _ => handle ≠ i | _ => True end → every (receives_at n) t'.
Proof.
  intros L U R Ho Nr Hg E Na. pose proof (every_receives n t L R) as I.
  assert (∀ c, used (socket_at t c) = false → c ≠ i) as Other by congruence.
  assert (∀ c s, used (socket_at t c) = false → receives_at n c s) as Fresh by (intros c s X Y; by destruct (Other c X)).
  enough (holds (receives_at n) (λ _, True) t t') as [X _] by exact X.
  pose proof (receives_aside n) as Ra. pose proof (receives_reset n) as Rr. assert (∀ p, is_reset p → True) as Rg by done.
  destruct a as [now dev source destination segment|now|own|handle address port now|handle port back|handle timeout deadline now
    |handle data timeout deadline now|handle size timeout deadline now|handle now|handle|own]; cbn [perform] in E.
  - injection E as <- <-. apply (receive_segment_holds _ (λ _, True) Ra Rr Rg); [| |auto|done].
    + intros j t1 A Hj Uj _ Ij. apply receives_run; [by apply process_segment_any|]. intros ->. apply process_segment_receiver; [done|done|by apply Hg].
    + intros p laddr raddr lport rport c k own t1 _ Uc _. eapply run_post; [|apply send_syn_answers]. intros s' _. by apply Fresh.
  - injection E as <- <-. apply (poll_holds _ (λ _, True) Ra Rr Rg); [| |done].
    + intros j s Hj Ij Uj St Ej Ue. specialize (Ij Ej Uj). destruct St as [St|[_ A]].
      * apply enter_closed_receiver; [done| |done]. right. unfold stage_of. by rewrite St.
      * rewrite enter_closed_cases, A in Ue. done.
    + intros j s t1 Hj Ij Uj _. apply receives_run; [apply timeout_any|]. intros Ej. by apply timeout_receiver, Ij.
  - pose proof (socket_owned_holds _ (λ _, True) Ra Rr Rg own t) as X. destruct (tcp_socket_owned own t) as [c t1]. injection E as <- <-. apply X; [auto|done].
  - pose proof (connect_holds _ (λ _, True) Ra Rr Rg handle address port now t) as X. destruct (connect_start handle address port now t) as [c t1].
    injection E as <- <-. apply X; [|done]. intros s d source lport k t2 _ _ _ _ _ _. eapply run_post; [|apply send_syn_answers].
    intros s' _ E. by destruct Nr.
  - pose proof (listen_holds _ (λ _, True) Ra Rr Rg handle port back t) as X. destruct (tcp_listen handle port back t) as [c t1].
    injection E as <- <-. apply X; [|done]. intros s p b _ _ _ _ E. by destruct Nr.
  - pose proof (accept_holds _ (λ _, True) Ra Rr Rg handle timeout deadline now t Ho) as X. destruct (accept_round handle timeout deadline now t) as [c t1].
    injection E as <- <-. apply X; [|done]. intros j s. apply receives_same. rx_same.
  - pose proof (send_round_cases handle data timeout deadline now t) as C. destruct (send_round handle data timeout deadline now t) as [c t1].
    injection E as <- <-. destruct C as [[-> _]|(k&Uh&Can&_&_&_&_&->)]; [by apply (holds_nothing _ (λ _, True) Ra Rr Rg)|].
    apply (holds_run _ (λ _, True) Ra Rr Rg); [done|done|]. apply receives_run; [by eapply run_any, output_outputs|]. intros ->.
    eapply run_post; [|apply output_outputs]. intros s' O _. apply (receiver_same P n (socket_at t i)); [|done].
    transitivity (written k data (socket_at t i)); [rx_same|by apply outputs_rx].
  - pose proof (receive_round_cases handle size timeout deadline now t) as C. destruct (receive_round handle size timeout deadline now t) as [c t1].
    injection E as <- <-. destruct C as [[-> _]|(k&_&_&_&_&[->| ->])]; [by apply (holds_nothing _ (λ _, True) Ra Rr Rg)| |].
    + apply (holds_put _ (λ _, True) Ra Rr Rg); [done|apply Ho|]. intros E. by destruct Na.
    + apply (holds_run _ (λ _, True) Ra Rr Rg); [done|apply Ho|]. apply receives_run; [by eapply run_any, send_ack_answers|]. intros E. by destruct Na.
  - pose proof (close_holds _ (λ _, True) Ra Rr Rg handle now t) as X. destruct (tcp_close handle now t) as [c t1].
    injection E as <- <-. apply X; [| |done].
    + intros s t2 _ _ _ Is _. apply receives_run; [by eapply run_any, output_outputs|]. intros Eh.
      eapply run_post; [|apply output_outputs]. intros s' O Us. apply (receives_same n handle s); [|done|done|done].
      transitivity ((s <| app_closed := true |>) <| fin_queued := true |>); [rx_same|by apply outputs_rx].
    + intros s _ _ _ Is _. apply (receives_same n handle s); [rx_same|done].
  - pose proof (tcp_abort_holds _ (λ _, True) Ra Rr Rg handle t I) as X. destruct (tcp_abort handle t) as [c t1]. by injection E as <- <-.
  - injection E as <- <-. by apply (release_owner_holds _ (λ _, True) Ra Rr Rg).
Qed.

(** Reading takes the next bytes of the stream. *)
Lemma read_receiver n size timeout deadline now t r t' : length (sockets t) = TCP_SOCKET_CAPACITY → used (socket_at t i) = true → 0 ≤ size →
  receiver P n (socket_at t i) → receive_round i size timeout deadline now t = (r, t') →
  let data := match r with Done (_, data) => data | Wait => [] end in
  every (receives_at (n + len data)) t' ∧ data = slice P n (len data).
Proof.
  intros L U Hs R E. cbv zeta. pose proof (receive_round_cases i size timeout deadline now t) as C. rewrite E in C.
  pose proof (every_receives n t L R) as I. destruct C as [[-> D]|(k&_&N&Ek&->&D)].
  - assert (match r with Done (_, data) => data | Wait => [] end = []) as -> by (destruct r as [[c d]|]; [by destruct (D c d eq_refl)|done]).
    change (len []) with 0. by rewrite Z.add_0_r.
  - rewrite min_u32_min in Ek. pose proof (rc_ring _ _ _ R) as B. assert (0 ≤ k ≤ rx_length (socket_at t i)) as Hk by lia.
    destruct (consumed_receiver P n k _ R Hk) as (Rc&Er&Uc). cbv zeta. rewrite Er.
    assert (len (slice P n k) = k) as Lk by (apply len_slice; [apply R|lia|pose proof (rc_position _ _ _ R); lia]). rewrite Lk. split; [|done].
    assert (every_but (receives_at (n + k)) i t) as B2 by (split; [done|]; by intros j _ Nj Ej).
    pose proof (receives_aside (n + k)) as Ra. pose proof (receives_reset (n + k)) as Rr.
    assert (∀ p, is_reset p → True) as Rg by done.
    enough (holds (receives_at (n + k)) (λ _, True) t t') as [X _] by exact X. destruct D as [->| ->].
    + apply (holds_put_but _ (λ _, True) Ra Rr Rg); [done|done|]. by intros _ _.
    + apply (holds_run_but _ (λ _, True) Ra Rr Rg); [done|done|]. apply receives_run; [by eapply run_any, send_ack_answers|]. intros _.
      eapply run_post; [|apply send_ack_answers]. intros s' A _. by apply (receiver_same P _ (consumed k (socket_at t i))); [apply answers_rx|].
Qed.

Lemma history_receiver t0 bs t : length (sockets t0) = TCP_SOCKET_CAPACITY → opened (socket_at t0 i) → history i P t0 bs t →
  length (sockets t) = TCP_SOCKET_CAPACITY ∧ used (socket_at t i) = true ∧ receiver P (len bs) (socket_at t i) ∧ bs = slice P 0 (len bs).
Proof.
  intros L0 O. induction 1 as [|bs t a r t' Hh IH Ho Nr Hg E U]; [split_and!; [done|apply O|by apply opened_receiver|done]|].
  destruct IH as (L&Ut&R&B).
  assert (length (sockets t') = TCP_SOCKET_CAPACITY ∧ receiver P (len (bs ++ delivered i a r)) (socket_at t' i) ∧
    delivered i a r = slice P (len bs) (len (delivered i a r))) as (L'&R'&D).
  { destruct (match a with AReceive handle _ _ _ _ => bool_decide (handle = i) | _ => false end) eqn:Rd.
    - destruct a as [| | | | | | |handle size timeout deadline now| | |]; try done. apply bool_decide_eq_true_1 in Rd as ->.
      cbn [perform] in E. destruct (receive_round i size timeout deadline now t) as [c t1] eqn:E1. injection E as <- <-. destruct Ho as [Ho Hs].
      destruct (read_receiver (len bs) size timeout deadline now t c t1 L Ut Hs R E1) as [[L1 I1] D].
      assert (delivered i (AReceive i size timeout deadline now) (Received c) = match c with Done (_, data) => data | Wait => [] end) as ->
        by (unfold delivered; destruct c as [[x d]|]; [by rewrite Z.eqb_refl|done]).
      split; [done|]. split; [|done]. unfold len at 1. rewrite length_app, Nat2Z.inj_add. by apply I1.
    - destruct (step_receiver (len bs) a t r t' L Ut R Ho Nr Hg E) as [L1 I1].
      { destruct a; try done. by apply bool_decide_eq_false_1 in Rd. }
      assert (delivered i a r = []) as ->; [|rewrite app_nil_r; split_and!; [done|by apply I1|done]].
      destruct a; try done. apply bool_decide_eq_false_1 in Rd. unfold delivered. destruct r as [| | | |[[c d]|]]; try done.
      by destruct (Z.eqb_spec handle i). }
  split_and!; [done|done|done|]. assert (len (bs ++ delivered i a r) = len bs + len (delivered i a r)) as Ea by (unfold len; rewrite length_app; lia).
  rewrite Ea, slice_app, <- B by (unfold len; lia). f_equal. exact D.
Qed.
End receiving.

(** C4: The owner of a connection reads the bytes of the peer's stream, each once and in order, whatever the network
    does to the segments, whatever segments come for others and whatever else is called; and
    when it is told that no more will come, it has all of them. *)
Theorem tcp_receives_stream i P t0 bs t : is_socket i → length (sockets t0) = TCP_SOCKET_CAPACITY → opened (socket_at t0 i) →
  history i P t0 bs t →
  (∃ rest, P = bs ++ rest) ∧
  ∀ size timeout deadline now t', 0 < size → receive_round i size timeout deadline now t = (Done (0, []), t') → bs = P.
Proof.
  intros Hi L0 O Hh. destruct (history_receiver i P Hi t0 bs t L0 O Hh) as (L&U&R&B). split.
  - exists (drop (Z.to_nat (len bs)) P). rewrite B at 1. unfold slice. cbn [Z.to_nat drop]. by rewrite take_drop.
  - intros size timeout deadline now t' Hs E. pose proof (receive_round_cases i size timeout deadline now t) as C. rewrite E in C.
    destruct R as [R1 R2 R3 R4]. destruct C as [[-> D]|(k&_&N&Ek&X&_)].
    + destruct (D 0 [] eq_refl) as [_ D2]. destruct (D2 eq_refl) as (_&Z0&Er&F). rewrite Z0 in R2, R4.
      assert (len bs = len P) as El.
      { unfold stage_of in R4. destruct (state (socket_at t i)) eqn:St; try done; destruct R4 as [R4 R5]; try (destruct R5; [done|lia]).
        all: exfalso; destruct F as [F|F]; [congruence|]. all: apply list_elem_of_In in F; cbn in F; intuition discriminate. }
      rewrite B, El. unfold slice, len. cbn [Z.to_nat drop]. by rewrite Nat2Z.id, firstn_all.
    + exfalso. rewrite min_u32_min in Ek. rewrite buffer_size in R1. injection X as X _. rewrite i32_small in X by lia. lia.
Qed.

(** ** Concrete runs *)

Definition honest_at (P : list Z) (r first k : Z) (g : seg) : bool :=
  flag TCP_FLAG_RST g || flag TCP_FLAG_SYN g ||
  ((0 <=? k) && (k + data_length g <=? len P) && (g_sequence g =? u32 (first + 1 + k)) && bool_decide (g_data g = slice P k (data_length g)) &&
   (negb (flag TCP_FLAG_FIN g) || (k + data_length g =? len P)) && (- 2 ^ 31 <? k - r) && (k - r <? 2 ^ 31) && (data_length g <? 65536)).
Definition step_allowed (i : Z) (P bs : list Z) (k : Z) (a : action) t : bool :=
  match a with
  | ASegment _ dev source destination segment =>
      match find_socket t destination (net_read_be16 segment 2) source (net_read_be16 segment 0) with
      | Some j => if j =? i then honest_at P (len bs + rx_length (socket_at t i)) (irs (socket_at t i)) k (parse_segment dev segment) else true
      | None => true
      end
  | AReceive handle size _ _ _ => (0 <=? handle) && (handle <? Z.of_nat TCP_SOCKET_CAPACITY) && (0 <=? size)
  | APoll _ | AAbort _ => true
  | _ => false
  end.

(** Steps, each with the position of the data of its segment. *)
Fixpoint replay (i : Z) (P : list Z) (acts : list (action * Z)) (bs : list Z) t : option (list Z * tcp W) :=
  match acts with
  | [] => Some (bs, t)
  | (a, k) :: acts =>
      let '(r, t') := perform a t in
      if step_allowed i P bs k a t && used (socket_at t' i) then replay i P acts (bs ++ delivered i a r) t' else None
  end.

Lemma honest_at_spec P r first k g : honest_at P r first k g = true → honest P r first g.
Proof.
  unfold honest_at, honest. intros [[C|C]%orb_true_iff|C]%orb_true_iff; [by left|right; by left|right; right]. exists k.
  apply andb_true_iff in C as [[[[[[[C1 C2]%andb_true_iff C3]%andb_true_iff C4]%andb_true_iff C5]%andb_true_iff C6]%andb_true_iff C7]%andb_true_iff C8].
  apply bool_decide_eq_true_1 in C4. split_and!; try done; try lia. intros F. rewrite F in C5. cbn [negb orb] in C5. lia.
Qed.

Lemma replay_history i P t0 acts : ∀ bs t bs' t', history i P t0 bs t → replay i P acts bs t = Some (bs', t') → history i P t0 bs' t'.
Proof.
  induction acts as [|[a k] acts IH]; intros bs t bs' t' Hh; cbn [replay]; [by intros [= <- <-]|].
  destruct (perform a t) as [r t1] eqn:E. destruct (step_allowed i P bs k a t) eqn:A; [|done]. cbn [andb].
  destruct (used (socket_at t1 i)) eqn:U; [|done]. apply IH. apply (history_step i P t0 bs t a r t1); try done.
  - destruct a; try done. cbn [step_allowed] in A. apply andb_true_iff in A as [[A1 A2]%andb_true_iff A3].
    split; [unfold is_socket|]; lia.
  - intros X. by destruct a.
  - destruct a; try done. cbn [step_allowed from_peer] in *. intros (F&_). rewrite F, Z.eqb_refl in A. by apply (honest_at_spec _ _ _ k).
Qed.
End stream.

(** A peer that sends nine bytes: the last four and a FIN come first and are
    refused, the first five come twice, and the timers run between. *)
Section example.
#[local] Existing Instance recorded.

Definition from_peer_at (k flags : Z) (data : list Z) : action := ASegment 20 1 167772162 167772161 (from_client (1001 + k) 64001 flags data).
Definition listening : tcp (list packet) :=
  (perform (ASegment 0 1 167772162 167772161 (from_client 1000 0 TCP_FLAG_SYN []))
    (perform (AListen 0 80 2) (perform (ASocket 1) (tcp_init [])).2).2).2.
Definition nine_bytes : list Z := [1; 2; 3; 4; 5; 6; 7; 8; 9].
Definition example_run : list (action * Z) :=
  [(from_peer_at 0 TCP_FLAG_ACK [], 0);
   (from_peer_at 5 (Z.lor TCP_FLAG_ACK TCP_FLAG_FIN) [6; 7; 8; 9], 5);
   (from_peer_at 0 TCP_FLAG_ACK [1; 2; 3; 4; 5], 0);
   (APoll 30, 0);
   (from_peer_at 0 TCP_FLAG_ACK [1; 2; 3; 4; 5], 0);
   (AReceive 1 3 0 0 40, 0);
   (from_peer_at 4 (Z.lor TCP_FLAG_ACK TCP_FLAG_FIN) [5; 6; 7; 8; 9], 4);
   (AReceive 1 100 0 0 50, 0)].
Definition example_end : list Z * tcp (list packet) := default ([], listening) (replay 1 nine_bytes example_run [] listening).

Lemma tcp_receives_stream_witness :
  (∃ rest, nine_bytes = example_end.1 ++ rest) ∧ example_end.1 = nine_bytes.
Proof.
  assert (replay 1 nine_bytes example_run [] listening = Some (example_end.1, example_end.2)) as R by (vm_compute; reflexivity).
  assert (history 1 nine_bytes listening example_end.1 example_end.2) as Hh
    by (apply (replay_history 1 nine_bytes listening example_run [] listening); [apply history_start|exact R]).
  assert (opened (socket_at listening 1)) as O by (apply (bool_decide_unpack _); vm_compute; exact I).
  destruct (tcp_receives_stream 1 nine_bytes listening example_end.1 example_end.2) as [A B]; [split; done|vm_compute; reflexivity|exact O|exact Hh|].
  split; [exact A|]. apply (B 10 0 0 60 example_end.2); [done|]. vm_compute. reflexivity.
Defined.
End example.
