(* ===== verification/TcpWrite.v ===== *)
(** * What leaves TCP

    Every segment that the table of sockets emits is accounted for: it is a reset or a SYN, or it belongs to
    one of the connections and carries what was written to it. *)

From S2P Require Import Prelude NetBytes Ring Tcp TcpSpec TcpRecv TcpSend TcpSteps.

(** What was written to each socket, as far as the calls said that they took it. *)
Definition streams := Z → list Z.
Definition wrote (a : action) (r : answer) (sent : streams) : streams := λ j,
  match a, r with
  | ASend handle data _ _ _, Waited (Done k) => if handle =? j then sent j ++ take (Z.to_nat k) data else sent j
  | AConnect handle _ _ _, Started None => if handle =? j then [] else sent j
  | _, _ => sent j
  end.

(** A segment that opens a connection. *)
Definition is_syn (p : packet) : Prop :=
  ∃ s sequence flags, p = wire sequence flags [] true s ∧ Z.land flags TCP_FLAG_SYN ≠ 0 ∧ Z.land flags TCP_FLAG_FIN = 0.

Lemma parse_mss_range segment n : 64 ≤ parse_mss segment n ≤ TCP_MAX_MSS.
Proof.
  unfold parse_mss. cbv zeta. rewrite min_u32_min. assert (TCP_MAX_MSS = 1460) as -> by done.
  set (m := parse_options _ _ _ _ _). destruct (Z.ltb_spec m 64); [change TCP_DEFAULT_MSS with 536|]; lia.
Qed.
Lemma parse_segment_mss dev segment : peer_mss_ok (parse_segment dev segment).
Proof. unfold peer_mss_ok, parse_segment. cbn [g_peer_mss]. destruct (negb _); [apply parse_mss_range|done]. Qed.

Section write.
Context {W : Type} `{Ipv4 W}.
Implicit Types (s : tcp_socket) (t : tcp W).

Definition sent_after (a : action) (r : answer) t' (sent : streams) : streams := λ j,
  if used (socket_at t' j) then wrote a r sent j else [].

(** What the theorem asks of a step: a segment is made of bytes and does not acknowledge the one number
    that is 2^31 above what was acknowledged; and a socket is not connected again with bytes left that were
    for another. *)
Definition sane (a : action) t : Prop :=
  handle_ok a ∧
  match a with
  | ASegment _ dev source destination segment => is_bytes segment ∧ ∀ i, arrives_at source destination segment t i →
      u32 (g_ack (parse_segment dev segment) - snd_una (socket_at t i)) ≠ 2 ^ 31
  | AConnect handle _ _ _ => tx_length (socket_at t handle) = 0
  | _ => True
  end.

Inductive sending : tcp W → streams → Prop :=
| sending_init w : sending (tcp_init w) (λ _, [])
| sending_step t sent a r t' : sending t sent → sane a t → perform a t = (r, t') → sending t' (sent_after a r t' sent).

(** What may leave between [t] and what follows, when [Q] was written. *)
Definition accounted (Q : streams) t (p : packet) : Prop :=
  is_reset p ∨ is_syn p ∨ ∃ i, is_socket i ∧ used (socket_at t i) = true ∧ carries (Q i) (socket_at t i) p.

Definition sends_at (Q : streams) (j : Z) s : Prop := used s = true → sender_ok (Q j) s.

(** Fields that the sender does not look at, in any state. *)
Lemma sender_ok_other Q s s' : who_of s' = (used s, app_closed s, owner s, device s, (local_address s, remote_address s, local_port s, remote_port s), parent s', iss s, irs s) →
  tx_of s' = tx_of s → flow_of s' = flow_of s → error s' = error s → state s' = state s → timer_armed s' = timer_armed s →
  sender_ok Q s → sender_ok Q s'.
Proof.
  unfold who_of at 1. intros [= _ A _ _ _ _ _ _ I _] T F Er St Ti [C1 C2 C3 C4 C5 C6]. pose proof T as (T1&T2&T3&T4&T5&T6)%tx_fields.
  pose proof F as F'. unfold flow_of in F' at 2. apply flow_fields in F' as (F1&F2&F3&F4).
  assert (handshake s' = handshake s) as E1 by (unfold handshake; by rewrite St).
  assert (synchronized s' = synchronized s) as E2 by (unfold synchronized; by rewrite St).
  split; unfold active; rewrite ?E1, ?E2, ?T3, ?T4, ?T6, ?F3, ?A, ?Er, ?Ti; try done.
  - intros X. destruct (C3 X) as (M&Y). unfold opening, mss_ok. rewrite ?T1, ?T2, ?T4, ?F1, ?F2, ?F3, ?I. done.
  - intros X. destruct (C4 X) as (M&a&f&n&m&S). split; [unfold mss_ok; by rewrite T2|]. exists a, f, n, m. by apply (sender_same _ _ _ _ _ s).
Qed.

Lemma sends_aside Q j s s' : sends_at Q j s → aside s s' → sends_at Q j s'.
Proof. intros R [->|(L&q&k&->&_)]; [done|]. intros U. by apply (sender_ok_other _ s); [..|apply R]. Qed.
Lemma sends_reset Q j : sends_at Q j socket_reset.
Proof. by intros [=]. Qed.
Lemma sends_parent Q j s p : sends_at Q j s → sends_at Q j (s <| parent := p |>).
Proof. intros R U. by apply (sender_ok_other _ s); [..|apply R]. Qed.

(** A socket that was just taken. *)
Lemma fresh_ok own : sender_ok [] (socket_reset <| used := true |> <| state := TCP_STATE_CLOSED |> <| rto_ms := TCP_INITIAL_RTO_MS |> <| owner := own |>).
Proof. by split. Qed.

Lemma run_accounted Q t i s0 r post : is_socket i → used (socket_at t i) = true → ends_of (socket_at t i) = ends_of s0 →
  ∀ t1, run (reset_or (Q i) s0) t1 r post → run (accounted Q t) t1 r post.
Proof.
  intros Hi U E t1. apply run_mono; [|done]. intros p [R|C]; [by left|right; right]. exists i. split; [done|]. split; [done|].
  by apply (carries_same _ s0).
Qed.

Lemma syn_accounted Q t s t1 (post : tcp_socket → Prop) : (∀ b, post (s <| arp_pending := b |>)) →
  run (accounted Q t) t1 (send_syn s t1) post.
Proof.
  intros P. apply run_emit; [done|done| |done]. right; left. eexists s, _, _. split; [reflexivity|].
  by destruct (bool_decide _).
Qed.

(** The sockets of a handshake that begins. *)
Lemma child_ok p own laddr raddr lport rport n now b g s0 : is_u32 n → peer_mss_ok g → sender_ok [] s0 → used s0 = true → app_closed s0 = false →
  tx_length s0 = 0 →
  sender_ok [] (arm_timer now ((new_child p own laddr raddr lport rport n g s0) <| arp_pending := b |>)).
Proof.
  intros Hn Hm [[C1 C1'] C2 _ _ _ C6] U A L.
  assert (fin_seq_set s0 = false) as F by (destruct (fin_seq_set s0) eqn:E; [by rewrite (C1' (C1 eq_refl)) in A|done]).
  split; [split; [exact C1|exact C1']|exact C2| |by intros [=]|by intros [=]|exact C6]. intros _. by split_and!.
Qed.
Lemma connecting_ok d source lport address port n now b s : is_u32 n → app_closed s = false → tx_length s = 0 → (∃ Q, sender_ok Q s) →
  sender_ok [] (arm_timer now ((connecting d source lport address port n s) <| arp_pending := b |>)).
Proof.
  intros Hn A L (Q&[[C1 C1'] C2 _ _ _ C6]).
  assert (fin_seq_set s = false) as F by (destruct (fin_seq_set s) eqn:E; [by rewrite (C1' (C1 eq_refl)) in A|done]).
  split; [split; [exact C1|exact C1']|exact C2| |by intros [=]|by intros [=]|done]. intros _. by split_and!.
Qed.

(** A write of the application. *)
Lemma written_ok Q k data s : sender_ok Q s → can_send_state s = true → fin_queued s = false →
  k = min_u32 (Z.of_nat (length data)) (u32 (TCP_BUFFER_SIZE - tx_length s)) →
  sender_ok (Q ++ take (Z.to_nat k) data) (written k data s) ∧ 0 ≤ k ≤ TCP_BUFFER_SIZE.
Proof.
  intros O C F Ek. pose proof (so_ring _ _ O) as B. rewrite buffer_size in *. rewrite u32_small, min_u32_min in Ek by lia.
  assert (len (take (Z.to_nat k) data) = k) as Lk by (unfold len; rewrite length_take; lia).
  assert (synchronized s = true) as Sy.
  { unfold can_send_state in C. apply orb_true_iff in C as [C|C]; apply bool_decide_eq_true_1 in C; unfold synchronized; by rewrite C. }
  assert (fin_seq_set s = false) as Fs by (destruct (fin_seq_set s) eqn:E; [by rewrite (proj1 (so_flags _ _ O) E) in F|done]).
  split; [|lia]. destruct (so_sender _ _ O Sy) as (M&a&f&n&m&S).
  pose proof (write_sender Q a f n m s (take (Z.to_nat k) data) S Fs) as X. rewrite Lk, buffer_size in X. specialize (X ltac:(lia)).
  apply (sender_ok_at _ a f n m); [exact M|exact Sy|exact (proj2 (so_flags _ _ O))|exact (so_error _ _ O)|exact X].
Qed.

(** The application closes a connection. *)
Lemma closing_ok Q b s : sender_ok Q s → app_closed s = false → state s ≠ TCP_STATE_CLOSED → state s ≠ TCP_STATE_LISTEN ∨ b = false →
  sender_ok Q (s <| app_closed := true |> <| fin_queued := b || fin_queued s |>).
Proof.
  intros O A N1 N2. assert (fin_queued s = false) as Fq by (destruct (fin_queued s) eqn:E; [by rewrite (proj2 (so_flags _ _ O) E) in A|done]).
  assert (fin_seq_set s = false) as Fs by (destruct (fin_seq_set s) eqn:E; [by rewrite (proj1 (so_flags _ _ O) E) in Fq|done]).
  destruct O as [C1 C2 C3 C4 C5 C6]. set (s1 := (s <| app_closed := true |>) <| fin_queued := _ |>).
  assert (fin_seq_set s1 = false) as F1 by exact Fs.
  split; [split; [by rewrite F1|done]|exact C2|exact C3| |exact C5|exact C6]. intros X. destruct (C4 X) as (M&a&f&n&m&[D1 D2 D3 D4 D5 D6 D7 D8 D9]).
  split; [exact M|]. exists a, f, n, m. split; try done. intros Y. congruence.
Qed.

Lemma timeout_ends now s t : run (λ _, True) t (handle_timeout now s t) (λ s', used s' = true → ends_of s' = ends_of s).
Proof.
  assert (∀ s1 s2 s3, answers s s1 → who_of s2 = who_of s1 → answers s2 s3 → used s3 = true → ends_of s3 = ends_of s) as D.
  { intros s1 s2 s3 A1 Wh A3 _. transitivity (ends_of s1); [transitivity (ends_of s2)|]; apply who_ends; [apply A3|done|apply A1]. }
  apply handle_timeout_run.
  - intros s1 t1 A _. eapply run_mono; [done| |apply send_syn_answers]. intros s2 A2 s3. apply (D s1 s2); [done|apply A2].
  - intros s1 t1 A _. eapply run_mono; [done| |apply retransmit_answers]. intros s2 A2 s3. apply (D s1 s2); [done|apply A2].
  - intros s1 t1 A _. eapply run_mono; [done| |apply output_outputs]. intros s2 O2 s3. apply (D s1 s2); [done|apply O2].
  - intros s1 A. rewrite enter_closed_cases. destruct (app_closed s1); [done|]. intros _. transitivity (ends_of s1); [done|apply who_ends, A].
Qed.

Section step.
Context (sent : streams) (t : tcp W).
Context (table : length (sockets t) = TCP_SOCKET_CAPACITY).
Context (before : every (sends_at sent) t).
Context (unused : ∀ j, used (socket_at t j) = false → sent j = []).
#[local] Set Default Proof Using "All".

Let Ra := sends_aside sent.
Let Rr := sends_reset sent.

Lemma resets_accounted Q p : is_reset p → accounted Q t p.
Proof. by left. Qed.

Lemma sends_fresh c own : used (socket_at t c) = false →
  sends_at sent c (socket_reset <| used := true |> <| state := TCP_STATE_CLOSED |> <| rto_ms := TCP_INITIAL_RTO_MS |> <| owner := own |>).
Proof. intros U _. rewrite (unused c U). apply fresh_ok. Qed.

Lemma segment_step now dev source destination segment : sane (ASegment now dev source destination segment) t →
  holds (sends_at sent) (accounted sent t) t (receive_segment now dev source destination segment t).
Proof.
  intros (_&Hb&Ha). apply (receive_segment_holds _ (accounted sent t) Ra Rr (resets_accounted sent)); [| |intros c U; exact (sends_fresh c 0 U)|done].
  - intros i t1 A Hi U N I. apply (run_accounted sent t i (socket_at t i)); [done|done|done|].
    assert (active (socket_at t i) = true) as Ac.
    { destruct A as (_&Nl&_). unfold active, handshake, synchronized. by destruct (state (socket_at t i)). }
    eapply run_mono; [done| |apply process_segment_ok; [done|by apply I|done| |apply parse_segment_mss]]; [done|].
    split; [|by apply Ha]. unfold parse_segment. cbn [g_ack]. by apply read_be32_range.
  - intros p laddr raddr lport rport c n own t1 Hc U Hn. apply syn_accounted. intros b _. rewrite (unused c U).
    apply child_ok; try done. apply parse_segment_mss.
Qed.

(** The timers look at one socket after the other; those still in use are the same connections. *)
Definition sends_on (j : Z) s : Prop :=
  used s = true → sender_ok (sent j) s ∧ used (socket_at t j) = true ∧ ends_of s = ends_of (socket_at t j).

Lemma on_aside j s s' : sends_on j s → aside s s' → sends_on j s'.
Proof.
  intros I [->|(_&q&k&->&_)]; [done|]. intros U. destruct (I U) as (O&U2&En). split; [by apply (sender_ok_other _ s)|done].
Qed.
Lemma on_reset j : sends_on j socket_reset.
Proof. by intros [=]. Qed.
Lemma every_on : every sends_on t.
Proof. split; [done|]. intros j Hj U. split; [by apply before|done]. Qed.
Lemma on_at t' : holds sends_on (accounted sent t) t t' → holds (sends_at sent) (accounted sent t) t t'.
Proof. intros [[L D] E]. split; [|done]. split; [done|]. intros j Hj U. by apply D. Qed.

(** A function on a socket that is still what it was. *)
Lemma on_run i s t1 r : is_socket i → sends_on i s → used s = true →
  run (reset_or (sent i) s) t1 r (λ s', used s' = true → sender_ok (sent i) s' ∧ ends_of s' = ends_of s) →
  run (accounted sent t) t1 r (sends_on i).
Proof.
  intros Hi I U R. destruct (I U) as (O&U2&En). apply (run_accounted sent t i s); [done|done|done|].
  eapply run_mono; [done| |exact R]. intros s' P U'. destruct (P U') as [P1 P2]. split; [done|]. split; [done|congruence].
Qed.

Lemma poll_step now : holds (sends_at sent) (accounted sent t) t (tcp_poll now t).
Proof.
  apply on_at. apply (poll_holds _ (accounted sent t) on_aside on_reset (resets_accounted sent)); [| |apply every_on].
  - intros i s _ I U _ Ue. destruct (I U) as (O&U2&En). split; [by apply sender_ok_ended|]. split; [done|].
    rewrite <- En. rewrite enter_closed_cases in *. by destruct (app_closed s).
  - intros i s t1 Hi I U Ti. apply (on_run i s); [done|done|done|]. apply run_carries. destruct (I U) as (O&_).
    pose proof (run_and _ _ t1 _ _ _ (timeout_ok (sent i) now s t1 O Ti) (timeout_ends now s t1)) as R.
    eapply run_mono; [done| |exact R]. intros s' [R2 R1] U'. auto.
Qed.

Lemma send_step handle data timeout deadline now r t' : is_socket handle → send_round handle data timeout deadline now t = (r, t') →
  let Q := wrote (ASend handle data timeout deadline now) (Waited r) sent in holds (sends_at Q) (accounted Q t) t t'.
Proof.
  intros Hi E. cbv zeta. pose proof (send_round_cases handle data timeout deadline now t) as C. rewrite E in C. set (Q := wrote _ _ _).
  destruct C as [[-> D]|(k&U&Can&Fq&Ek&_&->&->)].
  - assert (every (sends_at Q) t) as I.
    { split; [done|]. intros j Hj U. pose proof (proj2 before j Hj U) as O. assert (Q j = sent j) as ->; [|done].
      unfold Q, wrote. destruct r as [k|]; [|done]. destruct (Z.eqb_spec handle j) as [->|]; [|done].
      assert (k ≤ 0) as K by (destruct (D k eq_refl) as [|Ek]; [done|pose proof (so_error _ _ O); lia]).
      by replace (Z.to_nat k) with 0%nat by lia; rewrite app_nil_r. }
    by apply (holds_nothing _ (accounted Q t) (sends_aside Q) (sends_reset Q) (resets_accounted Q)).
  - pose proof (proj2 before handle Hi U) as O. destruct (written_ok _ _ _ _ O Can Fq Ek) as [O2 Hk].
    assert (i32 k = k) as Ei by (rewrite buffer_size in Hk; apply i32_small; lia).
    assert (Q handle = sent handle ++ take (Z.to_nat k) data) as EQ by (unfold Q, wrote; by rewrite Z.eqb_refl, Ei).
    apply (holds_run_but _ (accounted Q t) (sends_aside Q) (sends_reset Q) (resets_accounted Q)); [|done|].
    + split; [done|]. intros j Hj N Uj. assert (Q j = sent j) as ->; [|by apply before].
      unfold Q, wrote. by destruct (Z.eqb_spec handle j); [congruence|].
    + rewrite <- EQ in O2. apply (run_accounted Q t handle (written k data (socket_at t handle))); [done|done|done|]. apply run_carries.
      eapply run_mono; [done| |by apply output_ok]. intros s' [_ O'] _. done.
Qed.

Lemma connect_step handle address port now r t' : sane (AConnect handle address port now) t → connect_start handle address port now t = (r, t') →
  let Q := wrote (AConnect handle address port now) (Started r) sent in holds (sends_at Q) (accounted Q t) t t'.
Proof.
  intros (_&Hs) E. cbv zeta. pose proof (connect_start_cases handle address port now t) as C. rewrite E in C.
  destruct C as [(Nr&S&N)|(->&Hi&U&_&Ap&d&source&lport&n&t1&Hn&S&N&->)].
  - destruct r as [c|]; [|done]. change (wrote _ _ sent) with sent. split; [by apply (every_sockets _ (accounted sent t) Ra Rr (resets_accounted sent) t)|]. rewrite N. apply emits_nothing.
  - set (Q := wrote _ _ sent). assert (Q handle = []) as Qh by (unfold Q, wrote; by rewrite Z.eqb_refl).
    assert (∀ j, j ≠ handle → Q j = sent j) as Qo by (intros j Nj; unfold Q, wrote; by destruct (Z.eqb_spec handle j)).
    assert (every_but (sends_at Q) handle t1) as E1.
    { split; [by rewrite S|]. intros j Hj Nj. unfold sends_at. rewrite Qo by done. unfold socket_at. rewrite S. by apply before. }
    pose proof (syn_accounted Q t (connecting d source lport address port n (socket_at t handle)) t1 (λ s', sends_at Q handle (arm_timer now s'))) as X.
    specialize (X ltac:(intros b _; rewrite Qh; apply connecting_ok; try done; exists (sent handle); by apply before)).
    destruct (send_syn _ t1) as [s' t2].
    destruct (holds_run_but _ (accounted Q t) (sends_aside Q) (sends_reset Q) (resets_accounted Q) t1 handle (arm_timer now s', t2) E1 Hi X) as [X1 X2].
    rewrite N in X2. by split.
Qed.

Lemma closing_step handle now : holds (sends_at sent) (accounted sent t) t (tcp_close handle now t).2.
Proof.
  apply on_at. apply (close_holds _ (accounted sent t) on_aside on_reset (resets_accounted sent)); [| |apply every_on].
  - intros s t1 Hi U Ap I St. apply (on_run handle s); [done|done|done|]. apply run_carries. destruct (I U) as (O&_).
    assert (state s ≠ TCP_STATE_CLOSED ∧ state s ≠ TCP_STATE_LISTEN) as [N1 N2] by (destruct St as [->|[-> | ->]]; done).
    pose proof (closing_ok _ true s O Ap N1 (or_introl N2)) as O1. cbn [orb] in O1.
    set (s1 := (s <| app_closed := true |>) <| fin_queued := true |>) in *. apply (ends_run _ s s1); [done|].
    eapply run_mono; [done| |by apply output_ok]. intros s' [Ou O'] _. split; [done|]. transitivity (ends_of s1); [|done]. apply who_ends, Ou.
  - intros s _ U Ap I N _. destruct (I U) as (O&U2&En). split; [|done].
    exact (closing_ok _ false s O Ap N (or_intror eq_refl)).
Qed.

Lemma step_sends a r t' : sane a t → perform a t = (r, t') → holds (sends_at (wrote a r sent)) (accounted (wrote a r sent) t) t t'.
Proof.
  intros S E. destruct a as [now dev source destination segment|now|own|handle address port now|handle port back|handle timeout deadline now
    |handle data timeout deadline now|handle size timeout deadline now|handle now|handle|own]; cbn [perform] in E.
  - injection E as <- <-. by apply segment_step.
  - injection E as <- <-. by apply poll_step.
  - pose proof (socket_owned_holds _ (accounted sent t) Ra Rr (resets_accounted sent) own t) as X. destruct (tcp_socket_owned own t) as [c t1].
    injection E as <- <-. apply X; [intros c' U; exact (sends_fresh c' own U)|done].
  - destruct (connect_start handle address port now t) as [c t1] eqn:Ec. injection E as <- <-. by apply connect_step.
  - pose proof (listen_holds _ (accounted sent t) Ra Rr (resets_accounted sent) handle port back t) as X. destruct (tcp_listen handle port back t) as [c t1].
    injection E as <- <-. apply X; [|done]. intros s p b _ U Cl I _. destruct (I U) as [C1 C2 C3 C4 C5 C6].
    split; [exact C1|exact C2|by intros [=]|by intros [=]| |exact C6]. intros _. apply C5. unfold active, handshake, synchronized. by rewrite Cl.
  - pose proof (accept_holds _ (accounted sent t) Ra Rr (resets_accounted sent) handle timeout deadline now t (proj1 S)) as X.
    destruct (accept_round handle timeout deadline now t) as [c t1]. injection E as <- <-. apply X; [intros j s; apply sends_parent|done].
  - destruct (send_round handle data timeout deadline now t) as [c t1] eqn:Es. injection E as <- <-. apply send_step; [apply S|done].
  - pose proof (receive_round_cases handle size timeout deadline now t) as C. destruct (receive_round handle size timeout deadline now t) as [c t1].
    injection E as <- <-. destruct S as [[Hi _] _]. change (wrote _ _ sent) with sent.
    destruct C as [[-> _]|(k&U&_&_&_&D)]; [by apply (holds_nothing _ (accounted sent t) Ra Rr (resets_accounted sent))|].
    pose proof (proj2 before handle Hi U) as O. set (s := socket_at t handle) in *.
    assert (sender_ok (sent handle) (consumed k s)) as O1 by by apply (sender_ok_other _ s).
    destruct D as [->| ->].
    + apply (holds_put _ (accounted sent t) Ra Rr (resets_accounted sent)); [done|done|]. by intros _.
    + apply on_at. apply (holds_run _ (accounted sent t) on_aside on_reset (resets_accounted sent)); [apply every_on|done|].
      apply (on_run handle (consumed k s)); [done| |done|].
      * intros _. by split_and!.
      * apply run_carries. unfold send_ack. apply run_emit; [done|done|by apply carries_empty|]. intros b _. split; [|done].
        by apply (sender_ok_other _ (consumed k s)).
  - pose proof (closing_step handle now) as X. destruct (tcp_close handle now t) as [c t1]. by injection E as <- <-.
  - pose proof (tcp_abort_holds _ (accounted sent t) Ra Rr (resets_accounted sent) handle t before) as X. destruct (tcp_abort handle t) as [c t1].
    by injection E as <- <-.
  - injection E as <- <-. by apply (release_owner_holds _ (accounted sent t) Ra Rr (resets_accounted sent)).
Qed.
End step.

(** The table between the steps. *)
Lemma sending_table t sent : sending t sent →
  every (sends_at sent) t ∧ ∀ j, used (socket_at t j) = false → sent j = [].
Proof.
  induction 1 as [w|t sent a r t' S [E N] Sa P].
  - split; [|done]. split; [done|]. intros j Hj U. unfold socket_at, tcp_init in U. cbn [sockets] in U.
    by rewrite aget_replicate in U.
  - destruct (step_sends sent t (proj1 E) E N a r t' Sa P) as [[L D] _]. unfold sent_after. split.
    + split; [done|]. intros j Hj U. rewrite U. by apply D.
    + intros j ->. done.
Qed.

(** C5: TCP sends what was written, each byte at its number.  Every segment that
    leaves in a step is a reset or a SYN without data, or it has the addresses and
    ports of a socket in use and carries nothing, neither data nor a FIN, or at
    most 1460 bytes which are those that were written to the socket at the
    place its sequence number says (the first byte written has the number after
    the SYN's), and a FIN only if they end with the last byte written.  This holds
    after any steps but two, in which the code does otherwise (see the findings):
    no acknowledgment that arrived was exactly 2^31 above the first
    unacknowledged number, and no socket was connected while its ring still held
    bytes of an earlier connection. *)
Theorem tcp_sends_stream t sent a r t' : sending t sent → sane a t → perform a t = (r, t') →
  emits (accounted (wrote a r sent) t) (net t) (net t').
Proof. intros S Sa P. destruct (sending_table t sent S) as [E N]. by apply (step_sends sent t (proj1 E) E N a r t'). Qed.

(** ** Concrete runs *)

Definition sane_at (a : action) t : bool :=
  match a with
  | ASegment _ dev source destination segment => forallb (λ b, (0 <=? b) && (b <? 256)) segment &&
      match find_socket t destination (net_read_be16 segment 2) source (net_read_be16 segment 0) with
      | Some i => negb (u32 (g_ack (parse_segment dev segment) - snd_una (socket_at t i)) =? 2 ^ 31)
      | None => true
      end
  | AConnect handle _ _ _ => tx_length (socket_at t handle) =? 0
  | AAccept handle _ _ _ | ASend handle _ _ _ _ => (0 <=? handle) && (handle <? Z.of_nat TCP_SOCKET_CAPACITY)
  | AReceive handle size _ _ _ => (0 <=? handle) && (handle <? Z.of_nat TCP_SOCKET_CAPACITY) && (0 <=? size)
  | _ => true
  end.
Lemma sane_at_spec a t : sane_at a t = true → sane a t.
Proof.
  destruct a; cbn [sane_at]; intros A; (split; [try done; unfold handle_ok, is_socket; lia|]); try done.
  - apply andb_true_iff in A as [A1 A2]. split.
    + apply Forall_forall. intros b Hb. rewrite forallb_forall in A1. apply list_elem_of_In in Hb. specialize (A1 b Hb). unfold is_u8. lia.
    + intros i (F&_) E. rewrite F, E in A2. by rewrite Z.eqb_refl in A2.
  - lia.
Qed.

Fixpoint send_replay (acts : list action) (sent : streams) t : option (streams * tcp W) :=
  match acts with
  | [] => Some (sent, t)
  | a :: acts => if sane_at a t then let '(r, t') := perform a t in send_replay acts (sent_after a r t' sent) t' else None
  end.
Lemma send_replay_sending acts : ∀ sent t sent' t', sending t sent → send_replay acts sent t = Some (sent', t') → sending t' sent'.
Proof.
  induction acts as [|a acts IH]; intros sent t sent' t' S; cbn [send_replay]; [by intros [= <- <-]|].
  destruct (sane_at a t) eqn:A; [|done]. destruct (perform a t) as [r t1] eqn:E. apply IH.
  apply (sending_step t sent a r t1); [done|by apply sane_at_spec|done].
Qed.
End write.

(** A server answers three bytes, which get lost; the timer sends them again. *)
Section example.
#[local] Existing Instance recorded.

Definition client_at (sequence ack flags : Z) : action := ASegment 20 1 167772162 167772161 (from_client sequence ack flags []).
Definition server_run : list action :=
  [ASocket 1; AListen 0 80 2; client_at 1000 0 TCP_FLAG_SYN; client_at 1001 69001 TCP_FLAG_ACK; AAccept 0 0 0 30; ASend 1 [7; 8; 9] 0 0 40].
Definition server_end : streams * tcp (list packet) := default (λ _, [], tcp_init []) (send_replay server_run (λ _, []) (tcp_init [])).
Definition timer : answer * tcp (list packet) := perform (APoll 5000) server_end.2.

Lemma tcp_sends_stream_witness :
  emits (accounted (wrote (APoll 5000) timer.1 server_end.1) server_end.2) (net server_end.2) (net timer.2) ∧
  server_end.1 1 = [7; 8; 9] ∧ ((λ p, drop 20 (p_payload p)) <$> net timer.2) = [[2; 4; 5; 180]; [7; 8; 9]; [7; 8; 9]].
Proof.
  assert (match send_replay server_run (λ _, []) (tcp_init []) with Some _ => true | None => false end = true) as G by (vm_compute; reflexivity).
  assert (send_replay server_run (λ _, []) (tcp_init []) = Some (server_end.1, server_end.2)) as R
    by (unfold server_end; by destruct (send_replay server_run (λ _, []) (tcp_init [])) as [[Q t]|]).
  assert (sending server_end.2 server_end.1) as S by (apply (send_replay_sending server_run (λ _, []) (tcp_init [])); [apply sending_init|exact R]).
  assert (sane (APoll 5000) server_end.2) as Sa by exact (conj I I).
  assert (perform (APoll 5000) server_end.2 = (timer.1, timer.2)) as P by (unfold timer; apply surjective_pairing).
  split; [exact (tcp_sends_stream server_end.2 server_end.1 (APoll 5000) timer.1 timer.2 S Sa P)|split; vm_compute; reflexivity].
Defined.
End example.
