(* ===== verification/TcpWire.v ===== *)
(** * Segments on the wire

    What the receiver reads from a segment is what the sender put into it, and its checksum
    is right. *)

From S2P Require Import Prelude NetBytes Ring Tcp TcpSpec.

Lemma tcp_checksum_value source destination l v k : is_bytes l → is_bytes k → Nat.Even (length l) → Z.of_nat (length l + length k) < 65534 → is_u16 v →
  ∃ pseudo, 0 ≤ pseudo < 2 ^ 20 ∧ pseudo = words (net_write_be32 source ++ net_write_be32 destination ++ [0; IPV4_PROTOCOL_TCP] ++
      net_write_be16 (u16 (Z.of_nat (length l + 2 + length k)))) ∧
    tcp_checksum source destination (l ++ net_write_be16 v ++ k) = complement16 (fold_sum 3 (pseudo + words l + words k + v)).
Proof.
  intros Bl Bk E L Hv. set (p := net_write_be32 source ++ _). exists (words p).
  assert (is_bytes p) as Bp by (unfold p; assert (is_u8 0 ∧ is_u8 IPV4_PROTOCOL_TCP) as [A B] by done; auto 10 with bytes).
  pose proof (words_range p Bp) as Rp. change (Z.of_nat (length p)) with 12 in Rp. split; [lia|]. split; [done|].
  unfold tcp_checksum. cbv zeta. f_equal. f_equal.
  replace (length (l ++ net_write_be16 v ++ k)) with (length l + 2 + length k)%nat by (rewrite !length_app, length_be16; lia). fold p.
  rewrite (checksum_add_spec p) by (done || change (Z.of_nat (length p)) with 12; lia).
  rewrite checksum_add_spec; [| |lia|].
  - rewrite words_around by done. lia.
  - by apply bytes_around.
  - rewrite !length_app, length_be16. lia.
Qed.

Lemma tcp_checksum_verifies source destination l k : is_bytes l → is_bytes k → Nat.Even (length l) → Z.of_nat (length l + length k) < 65534 →
  let c := tcp_checksum source destination (l ++ net_write_be16 0 ++ k) in
  is_u16 c ∧ tcp_checksum source destination (l ++ net_write_be16 c ++ k) = 0.
Proof.
  intros Bl Bk E L c. pose proof (words_range l Bl). pose proof (words_range k Bk).
  destruct (tcp_checksum_value source destination l 0 k Bl Bk E L ltac:(unfold is_u16; lia)) as (p&Rp&Ep&Ec). rewrite Z.add_0_r in Ec. fold c in Ec.
  destruct (complement_verifies (p + words l + words k) ltac:(lia) ltac:(lia)) as [C1 C2]. rewrite <- Ec in C1, C2. split; [done|].
  destruct (tcp_checksum_value source destination l c k Bl Bk E L C1) as (p'&_&Ep'&->). by rewrite Ep', <- Ep.
Qed.

(** The numbers of a segment that was put together. *)
Section segment.
Context (lport rport sequence ack header flags window : Z) (options data : list Z).
Context (Hl : is_u16 lport) (Hr : is_u16 rport) (Hs : is_u32 sequence) (Ha : is_u32 ack) (Hh : 20 ≤ header ≤ 60 ∧ header mod 4 = 0)
  (Hf : is_u8 flags) (Hw : is_u16 window) (Ho : is_bytes options) (Hd : is_bytes data) (Lo : len options = header - 20).
#[local] Set Default Proof Using "All".

Definition front : list Z :=
  net_write_be16 lport ++ net_write_be16 rport ++ net_write_be32 sequence ++ net_write_be32 ack ++ [u8 ((header / 4) ≪ 4); flags] ++ net_write_be16 window.
Definition back : list Z := net_write_be16 0 ++ options ++ data.

Lemma segment_split checksum : segment_bytes lport rport sequence ack header flags window checksum options data = front ++ net_write_be16 checksum ++ back.
Proof. unfold segment_bytes, front, back. by rewrite <- !app_assoc. Qed.
Lemma front_bytes : is_bytes front.
Proof. unfold front. pose proof (u8_range ((header / 4) ≪ 4)). auto 20 with bytes. Qed.
Lemma back_bytes : is_bytes back.
Proof. unfold back. auto with bytes. Qed.
Lemma segment_is_bytes checksum : is_bytes (segment_bytes lport rport sequence ack header flags window checksum options data).
Proof. rewrite segment_split. apply bytes_around; [apply front_bytes|apply back_bytes]. Qed.

Lemma segment_length checksum : len (segment_bytes lport rport sequence ack header flags window checksum options data) = header + len data.
Proof. unfold segment_bytes. unfold len in *. rewrite !length_app, !length_be16, !length_be32. cbn [length]. lia. Qed.

Lemma segment_fields checksum : let segment := segment_bytes lport rport sequence ack header flags window checksum options data in
  net_read_be16 segment 0 = lport ∧ net_read_be16 segment 2 = rport ∧ net_read_be32 segment 4 = sequence ∧ net_read_be32 segment 8 = ack ∧
  byte_at segment 13 = flags ∧ net_read_be16 segment 14 = window ∧ header_length segment = header ∧
  drop (Z.to_nat header) segment = data ∧ well_formed segment = true.
Proof.
  cbv zeta. set (segment := segment_bytes _ _ _ _ _ _ _ _ _ _).
  pose proof (u8_range ((header / 4) ≪ 4)) as Ho8.
  assert (is_bytes [u8 ((header / 4) ≪ 4); flags]) as B2 by auto with bytes.
  assert (header_length segment = header) as Eh.
  { unfold header_length. change (byte_at segment 12) with (u8 ((header / 4) ≪ 4)). rewrite !Z.shiftl_mul_pow2, Z.shiftr_div_pow2 by lia.
    change (2 ^ 4) with 16. pose proof (Z.div_mod header 4 ltac:(lia)). assert (5 ≤ header / 4 ≤ 15) by lia.
    rewrite u8_small by lia. rewrite Z.div_mul by lia. rewrite u16_small by lia. lia. }
  split_and!.
  - apply (read16_at 0 []); [done| | |done]; auto 30 with bytes.
  - apply (read16_at 2 (net_write_be16 lport)); [done| | |done]; auto 30 with bytes.
  - apply (read32_at 4 (net_write_be16 lport ++ net_write_be16 rport)); [done| | |done]; auto 30 with bytes.
  - apply (read32_at 8 (net_write_be16 lport ++ net_write_be16 rport ++ net_write_be32 sequence)); [done| | |done]; auto 30 with bytes.
  - done.
  - apply (read16_at 14 (net_write_be16 lport ++ net_write_be16 rport ++ net_write_be32 sequence ++ net_write_be32 ack ++ [u8 ((header / 4) ≪ 4); flags]));
      [done| | |done]; auto 30 with bytes.
  - done.
  - unfold segment, segment_bytes. rewrite !app_assoc. apply drop_app_length'. unfold len in Lo. rewrite !length_app, !length_be16, !length_be32. cbn [length]. lia.
  - unfold well_formed. rewrite Eh. pose proof (segment_length checksum) as L. unfold len in L. fold segment in L. rewrite L.
    assert (TCP_HEADER_LENGTH = 20) by done. repeat (apply andb_true_intro; split); lia.
Qed.

Lemma segment_verifies source destination : len data ≤ 65000 →
  tcp_checksum source destination (segment_bytes lport rport sequence ack header flags window
    (tcp_checksum source destination (segment_bytes lport rport sequence ack header flags window 0 options data)) options data) = 0.
Proof.
  intros Ld. rewrite !segment_split. apply tcp_checksum_verifies; [apply front_bytes|apply back_bytes|by exists 8%nat|].
  unfold back. rewrite !length_app, length_be16. change (length front) with 16%nat. unfold len in *. lia.
Qed.
End segment.

(** A segment of a connection, as the other end reads it. *)
Definition wire_ok (sequence flags : Z) (data : list Z) (s : tcp_socket) : Prop :=
  is_u32 sequence ∧ is_u8 flags ∧ is_bytes data ∧ len data ≤ TCP_MAX_MSS ∧ is_u16 (local_port s) ∧ is_u16 (remote_port s) ∧ is_u32 (rcv_nxt s).

Lemma wire_read there sequence flags data with_mss s : wire_ok sequence flags data s → (with_mss = true → data = []) →
  let p := wire sequence flags data with_mss s in let segment := p_payload p in let g := parse_segment there segment in
  is_bytes segment ∧ well_formed segment = true ∧ tcp_checksum (p_source p) (p_destination p) segment = 0 ∧
  net_read_be16 segment 0 = local_port s ∧ net_read_be16 segment 2 = remote_port s ∧
  g_sequence g = sequence ∧ g_flags g = flags ∧ g_data g = data ∧ g_window g = u16 (receive_window s) ∧ len segment ≤ 1480.
Proof.
  intros (Hs&Hf&Hd&Ld&Hl&Hr&Hn) Hm. cbv zeta. change TCP_MAX_MSS with 1460 in Ld. unfold wire. cbn [p_payload p_source p_destination].
  change TCP_HEADER_LENGTH with 20. set (header := if with_mss then 20 + 4 else 20). set (ack := if negb _ then _ else _).
  set (options := if with_mss then _ else _). set (c := tcp_checksum _ _ _).
  assert (is_u32 ack) as Ha by (unfold ack; destruct (negb _); [done|by unfold is_u32]).
  assert (20 ≤ header ≤ 60 ∧ header mod 4 = 0) as Hh by (unfold header; destruct with_mss; (split; [lia|done])).
  assert (is_bytes options ∧ len options = header - 20) as [Ho Lo].
  { unfold options, header. destruct with_mss; (split; [|done]); [|apply is_bytes_nil]. apply is_bytes_app; [|apply write_be16_bytes]. by repeat constructor. }
  pose proof (u16_range (receive_window s)) as Hw. set (window := u16 (receive_window s)) in *.
  destruct (segment_fields _ _ _ _ _ _ _ options data Hl Hr Hs Ha Hh Hf Hw Ho Hd Lo c) as (F0&F2&F4&F8&F13&F14&Fh&Fd&Fw).
  pose proof (segment_is_bytes _ _ _ _ _ _ _ options data Hl Hr Hs Ha Hh Hf Hw Ho Hd Lo c) as B.
  pose proof (segment_verifies _ _ _ _ _ _ _ options data Hl Hr Hs Ha Hh Hf Hw Ho Hd Lo (local_address s) (remote_address s) ltac:(lia)) as V.
  pose proof (segment_length _ _ _ _ _ _ _ options data Hl Hr Hs Ha Hh Hf Hw Ho Hd Lo c) as L. fold c in V.
  set (segment := segment_bytes _ _ _ _ _ _ _ c _ _) in *. unfold parse_segment. cbn [g_sequence g_flags g_data g_window]. rewrite Fh.
  split_and!; try done. assert (header = 20 ∨ header = 24 ∧ len data = 0) as [?|[? ?]]; [|lia..].
  unfold header. destruct with_mss; [right; by rewrite Hm|by left].
Qed.
