(* ===== verification/NetState.v ===== *)
(** * The static variables of the network (src/src/net)

    One record for each file, and the state of all of them below TCP.  A device
    is named by its address, which is not zero; the memory of the drivers maps it to
    the struct.  What a driver does with a frame is an interface, [Nic]. *)

From S2P Require Import Prelude NetBytes.

(** ** Devices (core/net_device.c) *)

(** [src/net/core/net_device.h:7-7] NET_DEVICE_MAX_COUNT *)
Definition NET_DEVICE_MAX_COUNT : nat := 4.
(** [src/net/core/net_device.h:8-8] NET_DEVICE_RX_QUEUE_LENGTH *)
Definition NET_DEVICE_RX_QUEUE_LENGTH : Z := 16.
(** [src/net/core/net_device.h:9-9] NET_ETHERNET_MTU *)
Definition NET_ETHERNET_MTU : Z := 1500.
(** [src/net/core/net_device.h:10-10] NET_ETHERNET_MAX_FRAME_SIZE *)
Definition NET_ETHERNET_MAX_FRAME_SIZE : Z := 1522.

(** [src/net/core/net_device.h:20-29] net_device_stats *)
Record net_device_stats := NetDeviceStats {
  rx_packets : Z;
  rx_bytes : Z;
  rx_dropped : Z;
  rx_errors : Z;
  tx_packets : Z;
  tx_bytes : Z;
  tx_dropped : Z;
  tx_errors : Z;
}.
#[export] Instance eta_net_device_stats : Eta net_device_stats := λ s,
  NetDeviceStats (rx_packets s) (rx_bytes s) (rx_dropped s) (rx_errors s) (tx_packets s) (tx_bytes s) (tx_dropped s) (tx_errors s).

(** [d_ops]: whether there are operations, with [transmit] and [poll].
    [src/net/core/net_device.h:36-45] net_device *)
Record net_device := NetDevice {
  d_name : list Z;
  d_mac : list Z;
  d_mtu : Z;
  d_ops : bool;
  d_stats : net_device_stats;
  d_registered : bool;
  d_link_up : bool;
}.
#[export] Instance eta_net_device : Eta net_device := λ d,
  NetDevice (d_name d) (d_mac d) (d_mtu d) (d_ops d) (d_stats d) (d_registered d) (d_link_up d).

(** [src/net/core/net_device.c:4-10] net_rx_queue *)
Record net_rx_queue := NetRxQueue {
  frames : list (list Z);
  read_index : Z;
  write_index : Z;
  rx_count : Z;
}.
#[export] Instance eta_net_rx_queue : Eta net_rx_queue := λ q, NetRxQueue (frames q) (read_index q) (write_index q) (rx_count q).
Definition rx_queue_zero : net_rx_queue := NetRxQueue (replicate 16 []) 0 0 0.

(** [src/net/core/net_device.c:12-14] devices *)
Record registry := Registry {
  devices : list Z;
  rx_queues : list net_rx_queue;
  device_count : Z;
}.
#[export] Instance eta_registry : Eta registry := λ r, Registry (devices r) (rx_queues r) (device_count r).

(** The operations of the drivers: [transmit] a frame; [poll], which hands what came to
    [net_device_receive]; and [link_up], where the device has it. *)
Class Nic (D : Type) := {
  nic_transmit : Z → list Z → D → bool * D;
  nic_poll : Z → Z → D → list (list Z) * D;
  nic_link_up : Z → D → option bool;
}.

(** ** Ethernet (link/ethernet.c) *)

(** The functions that are registered for a type. *)
Inductive ethernet_handler := ETHERNET_ARP | ETHERNET_IPV4.
#[export] Instance ethernet_handler_eq_dec : EqDecision ethernet_handler.
Proof. solve_decision. Defined.

(** [src/net/link/ethernet.c:8-11] ethernet_handler_entry *)
Record ethernet_handler_entry := EthernetHandlerEntry {
  eh_ethertype : Z;
  eh_handler : option ethernet_handler;
}.
#[export] Instance eta_ethernet_handler_entry : Eta ethernet_handler_entry := λ e, EthernetHandlerEntry (eh_ethertype e) (eh_handler e).

(** [src/net/link/ethernet.h:23-29] ethernet_stats *)
Record ethernet_stats := EthernetStats {
  es_received : Z;
  es_transmitted : Z;
  es_malformed : Z;
  es_unsupported : Z;
  es_transmit_errors : Z;
}.
#[export] Instance eta_ethernet_stats : Eta ethernet_stats := λ s,
  EthernetStats (es_received s) (es_transmitted s) (es_malformed s) (es_unsupported s) (es_transmit_errors s).

(** [src/net/link/ethernet.c:13-16] handlers *)
Record ethernet := Ethernet {
  eth_handlers : list ethernet_handler_entry;
  eth_counters : ethernet_stats;
  eth_lock : bool;
}.
#[export] Instance eta_ethernet : Eta ethernet := λ e, Ethernet (eth_handlers e) (eth_counters e) (eth_lock e).

(** [src/net/link/ethernet.h:12-19] ethernet_packet *)
Record ethernet_packet := EthernetPacket {
  ep_device : Z;
  ep_destination : list Z;
  ep_source : list Z;
  ep_ethertype : Z;
  ep_payload : list Z;
}.

(** ** ARP (link/arp.c) *)

(** [src/net/link/arp.c:15-19] arp_entry_state *)
Inductive arp_entry_state := ARP_ENTRY_FREE | ARP_ENTRY_PENDING | ARP_ENTRY_VALID.
#[export] Instance arp_entry_state_eq_dec : EqDecision arp_entry_state.
Proof. solve_decision. Defined.

(** [src/net/link/arp.c:21-28] arp_entry *)
Record arp_entry := ArpEntry {
  ae_device : Z;
  ae_ipv4 : Z;
  ae_mac : list Z;
  ae_updated_ms : Z;
  ae_last_request_ms : Z;
  ae_state : arp_entry_state;
}.
#[export] Instance eta_arp_entry : Eta arp_entry := λ e,
  ArpEntry (ae_device e) (ae_ipv4 e) (ae_mac e) (ae_updated_ms e) (ae_last_request_ms e) (ae_state e).
Definition arp_entry_zero : arp_entry := ArpEntry 0 0 (replicate 6 0) 0 0 ARP_ENTRY_FREE.

(** [src/net/link/arp.c:30-33] arp_interface *)
Record arp_interface := ArpInterface {
  ai_device : Z;
  ai_local_ipv4 : Z;
}.
#[export] Instance eta_arp_interface : Eta arp_interface := λ i, ArpInterface (ai_device i) (ai_local_ipv4 i).

(** [src/net/link/arp.h:20-29] arp_stats *)
Record arp_stats := ArpStats {
  requests_received : Z;
  replies_received : Z;
  requests_sent : Z;
  replies_sent : Z;
  arp_malformed : Z;
  cache_updates : Z;
  cache_expirations : Z;
  address_conflicts : Z;
}.
#[export] Instance eta_arp_stats : Eta arp_stats := λ s,
  ArpStats (requests_received s) (replies_received s) (requests_sent s) (replies_sent s) (arp_malformed s) (cache_updates s)
    (cache_expirations s) (address_conflicts s).

(** [src/net/link/arp.c:35-38] cache *)
Record arp := Arp {
  arp_cache : list arp_entry;
  arp_interfaces : list arp_interface;
  arp_counters : arp_stats;
}.
#[export] Instance eta_arp : Eta arp := λ a, Arp (arp_cache a) (arp_interfaces a) (arp_counters a).

(** ** IPv4 (network/ipv4.c) *)

Inductive ipv4_handler := IPV4_ICMP | IPV4_UDP | IPV4_TCP.
#[export] Instance ipv4_handler_eq_dec : EqDecision ipv4_handler.
Proof. solve_decision. Defined.

(** [src/net/network/ipv4.c:10-13] ipv4_handler_entry *)
Record ipv4_handler_entry := Ipv4HandlerEntry {
  ih_protocol : Z;
  ih_handler : option ipv4_handler;
}.
#[export] Instance eta_ipv4_handler_entry : Eta ipv4_handler_entry := λ e, Ipv4HandlerEntry (ih_protocol e) (ih_handler e).

(** [src/net/network/ipv4.h:30-36] ipv4_interface_config *)
Record ipv4_interface_config := Ipv4InterfaceConfig {
  ic_device : Z;
  ic_address : Z;
  ic_netmask : Z;
  ic_gateway : Z;
  ic_configured : bool;
}.
#[export] Instance eta_ipv4_interface_config : Eta ipv4_interface_config := λ c,
  Ipv4InterfaceConfig (ic_device c) (ic_address c) (ic_netmask c) (ic_gateway c) (ic_configured c).
Definition ipv4_config_zero : ipv4_interface_config := Ipv4InterfaceConfig 0 0 0 0 false.

(** [src/net/network/ipv4.c:15-19] handlers *)
Record ipv4 := Ipv4State {
  ip_handlers : list ipv4_handler_entry;
  ip_interfaces : list ipv4_interface_config;
  ip_lock : bool;
  ip_next_identification : Z;
}.
#[export] Instance eta_ipv4 : Eta ipv4 := λ i, Ipv4State (ip_handlers i) (ip_interfaces i) (ip_lock i) (ip_next_identification i).

(** [src/net/network/ipv4.h:20-28] ipv4_packet *)
Record ipv4_packet := Ipv4Packet {
  ip_device : Z;
  ip_source : Z;
  ip_destination : Z;
  ip_protocol : Z;
  ip_ttl : Z;
  ip_payload : list Z;
}.

(** ** UDP (transport/udp.c) *)

Inductive udp_handler := UDP_DNS | UDP_DHCP.
#[export] Instance udp_handler_eq_dec : EqDecision udp_handler.
Proof. solve_decision. Defined.

(** [src/net/transport/udp.c:7-10] udp_binding *)
Record udp_binding := UdpBinding {
  ub_port : Z;
  ub_handler : option udp_handler;
}.
#[export] Instance eta_udp_binding : Eta udp_binding := λ b, UdpBinding (ub_port b) (ub_handler b).

(** [src/net/transport/udp.c:12-14] bindings *)
Record udp := Udp {
  udp_bindings : list udp_binding;
  udp_lock : bool;
}.
#[export] Instance eta_udp : Eta udp := λ u, Udp (udp_bindings u) (udp_lock u).

(** [src/net/transport/udp.h:10-18] udp_datagram *)
Record udp_datagram := UdpDatagram {
  ud_device : Z;
  ud_source_address : Z;
  ud_destination_address : Z;
  ud_source_port : Z;
  ud_destination_port : Z;
  ud_payload : list Z;
}.

(** ** ICMP (diagnostics/icmp.c) *)

(** [src/net/diagnostics/icmp.c:14-23] ping_request *)
Record ping_request := PingRequest {
  pr_device : Z;
  pr_address : Z;
  pr_identifier : Z;
  pr_sequence : Z;
  pr_sent_ms : Z;
  pr_active : bool;
  pr_complete : bool;
  pr_ttl : Z;
}.
#[export] Instance eta_ping_request : Eta ping_request := λ p,
  PingRequest (pr_device p) (pr_address p) (pr_identifier p) (pr_sequence p) (pr_sent_ms p) (pr_active p) (pr_complete p) (pr_ttl p).
Definition ping_zero : ping_request := PingRequest 0 0 0 0 0 false false 0.

(** [src/net/diagnostics/icmp.c:25-29] pending *)
Record icmp := Icmp {
  icmp_pending : ping_request;
  icmp_ping_lock : bool;
  icmp_reply_lock : bool;
  icmp_next_identifier : Z;
}.
#[export] Instance eta_icmp : Eta icmp := λ i, Icmp (icmp_pending i) (icmp_ping_lock i) (icmp_reply_lock i) (icmp_next_identifier i).

(** ** DNS (name/dns.c) *)

(** [src/net/name/dns.c:16-19] dns_server_entry *)
Record dns_server_entry := DnsServerEntry {
  ds_device : Z;
  ds_address : Z;
}.
#[export] Instance eta_dns_server_entry : Eta dns_server_entry := λ s, DnsServerEntry (ds_device s) (ds_address s).

(** The name is the string, without the zero byte.
    [src/net/name/dns.c:21-25] dns_cache_entry *)
Record dns_cache_entry := DnsCacheEntry {
  dc_name : list Z;
  dc_address : Z;
  dc_expires_ms : Z;
}.
#[export] Instance eta_dns_cache_entry : Eta dns_cache_entry := λ e, DnsCacheEntry (dc_name e) (dc_address e) (dc_expires_ms e).
Definition dns_cache_zero : dns_cache_entry := DnsCacheEntry [] 0 0.

(** [src/net/name/dns.c:27-36] dns_query *)
Record dns_query := DnsQuery {
  dq_device : Z;
  dq_server : Z;
  dq_identifier : Z;
  dq_active : bool;
  dq_complete : bool;
  dq_found : bool;
  dq_address : Z;
  dq_ttl_seconds : Z;
}.
#[export] Instance eta_dns_query : Eta dns_query := λ q,
  DnsQuery (dq_device q) (dq_server q) (dq_identifier q) (dq_active q) (dq_complete q) (dq_found q) (dq_address q) (dq_ttl_seconds q).
Definition dns_query_zero : dns_query := DnsQuery 0 0 0 false false false 0 0.

(** [src/net/name/dns.c:38-42] servers *)
Record dns := Dns {
  dns_servers : list dns_server_entry;
  dns_cache : list dns_cache_entry;
  dns_current : dns_query;
  dns_lock : bool;
  dns_next_identifier : Z;
}.
#[export] Instance eta_dns : Eta dns := λ d, Dns (dns_servers d) (dns_cache d) (dns_current d) (dns_lock d) (dns_next_identifier d).

(** ** DHCP (config/dhcp.c) *)

(** [src/net/config/dhcp.c:23-28] dhcp_state *)
Inductive dhcp_state := DHCP_STATE_INIT | DHCP_STATE_SELECTING | DHCP_STATE_REQUESTING | DHCP_STATE_BOUND.
#[export] Instance dhcp_state_eq_dec : EqDecision dhcp_state.
Proof. solve_decision. Defined.

(** [src/net/config/dhcp.c:30-43] dhcp_client *)
Record dhcp_client := DhcpClient {
  dh_device : Z;
  dh_state : dhcp_state;
  dh_transaction : Z;
  dh_offered_address : Z;
  dh_server : Z;
  dh_netmask : Z;
  dh_gateway : Z;
  dh_dns : Z;
  dh_lease_seconds : Z;
  dh_last_send_ms : Z;
  dh_lease_start_ms : Z;
  dh_retries : Z;
}.
#[export] Instance eta_dhcp_client : Eta dhcp_client := λ c,
  DhcpClient (dh_device c) (dh_state c) (dh_transaction c) (dh_offered_address c) (dh_server c) (dh_netmask c) (dh_gateway c)
    (dh_dns c) (dh_lease_seconds c) (dh_last_send_ms c) (dh_lease_start_ms c) (dh_retries c).
Definition dhcp_client_zero : dhcp_client := DhcpClient 0 DHCP_STATE_INIT 0 0 0 0 0 0 0 0 0 0.

(** ** All of it

    [memory] has the structs of the drivers, [clock] is the timer and [hardware] the
    state of the devices. *)
Record inet (D : Type) := Inet {
  memory : gmap Z net_device;
  reg : registry;
  eth : ethernet;
  arps : arp;
  ips : ipv4;
  udps : udp;
  icmps : icmp;
  dnss : dns;
  dhcps : list dhcp_client;
  clock : Z;
  hardware : D;
}.
Arguments Inet {D} _ _ _ _ _ _ _ _ _ _ _.
Arguments memory {D} _.
Arguments reg {D} _.
Arguments eth {D} _.
Arguments arps {D} _.
Arguments ips {D} _.
Arguments udps {D} _.
Arguments icmps {D} _.
Arguments dnss {D} _.
Arguments dhcps {D} _.
Arguments clock {D} _.
Arguments hardware {D} _.
#[export] Instance eta_inet D : Eta (inet D) := λ n,
  Inet (memory n) (reg n) (eth n) (arps n) (ips n) (udps n) (icmps n) (dnss n) (dhcps n) (clock n) (hardware n).

(** Counters. *)
Definition bump (x : Z) : Z := u64 (x + 1).
Definition on_device {D} (dev : Z) (f : net_device → net_device) (n : inet D) : inet D := n <| memory := alter f dev (memory n) |>.
Definition count_device {D} (dev : Z) (f : net_device_stats → net_device_stats) : inet D → inet D :=
  on_device dev (λ d, d <| d_stats := f (d_stats d) |>).
Definition count_eth {D} (f : ethernet_stats → ethernet_stats) (n : inet D) : inet D :=
  n <| eth := (eth n) <| eth_counters := f (eth_counters (eth n)) |> |>.
Definition count_arp {D} (f : arp_stats → arp_stats) (n : inet D) : inet D :=
  n <| arps := (arps n) <| arp_counters := f (arp_counters (arps n)) |> |>.
