(* ===== verification/Ethernet.v ===== *)
(** * Devices and Ethernet (src/src/net/core/net_device.c, src/src/net/link/ethernet.c)

    The registry of devices with a queue of received frames for each, and the
    framing.  The lock of a queue is held within a function; the lock of
    the transmit buffer is tested, so it is part of the state.  A handler is
    called by the caller of [ethernet_receive] here, as the upper layers have
    more state. *)

From S2P Require Import Prelude NetBytes NetState.

(** [src/net/link/ethernet.c:5-5] ETHERNET_HANDLER_CAPACITY *)
Definition ETHERNET_HANDLER_CAPACITY : nat := 8.
(** [src/net/link/ethernet.c:6-6] ETHERNET_TYPE_MINIMUM *)
Definition ETHERNET_TYPE_MINIMUM : Z := 1536.
(** [src/net/link/ethernet.h:8-8] ETHERNET_HEADER_LENGTH *)
Definition ETHERNET_HEADER_LENGTH : Z := 14.
(** [src/net/link/ethernet.h:9-9] ETHERNET_TYPE_IPV4 *)
Definition ETHERNET_TYPE_IPV4 : Z := 2048.
(** [src/net/link/ethernet.h:10-10] ETHERNET_TYPE_ARP *)
Definition ETHERNET_TYPE_ARP : Z := 2054.

Section ethernet.
Context {D : Type} `{Nic D}.
Implicit Types (n : inet D).

(** ** Devices *)

(** [src/net/core/net_device.c:25-30] device_index *)
Definition device_index (r : registry) (dev : Z) : option Z :=
  for_first (λ i, aget 0 (devices r) i =? dev) (Z.to_nat (device_count r)) 0.

(** [src/net/core/net_device.c:32-36] net_device_registry_init *)
Definition net_device_registry_init n : inet D :=
  n <| reg := Registry (replicate NET_DEVICE_MAX_COUNT 0) (replicate NET_DEVICE_MAX_COUNT rx_queue_zero) 0 |>.

(** [src/net/core/net_device.c:38-47] net_device_register *)
Definition net_device_register (dev : Z) n : bool * inet D :=
  match memory n !! dev with
  | None => (false, n)
  | Some d =>
      if negb (d_ops d) || d_registered d || (Z.of_nat NET_DEVICE_MAX_COUNT <=? device_count (reg n)) then (false, n) else
      let d := if (d_mtu d =? 0) || (NET_ETHERNET_MTU <? d_mtu d) then d <| d_mtu := NET_ETHERNET_MTU |> else d in
      let r := reg n in
      (true, n <| reg := r <| devices := aset (devices r) (device_count r) dev |> <| device_count := u32 (device_count r + 1) |> |>
               <| memory := <[dev := d <| d_registered := true |>]> (memory n) |>)
  end.

(** Zero where there is none.
    [src/net/core/net_device.c:51-53] net_device_get *)
Definition net_device_get n (i : Z) : Z := if i <? device_count (reg n) then aget 0 (devices (reg n)) i else 0.

(** [src/net/core/net_device.c:55-69] net_device_transmit *)
Definition net_device_transmit (dev : Z) (frame : list Z) n : bool * inet D :=
  let dropped := count_device dev (λ s, s <| tx_dropped := bump (tx_dropped s) |>) in
  match memory n !! dev with
  | None => (false, n)
  | Some d =>
      if negb (d_registered d) || (len frame <? 14) || (NET_ETHERNET_MAX_FRAME_SIZE <? len frame) then (false, dropped n) else
      let '(ok, hw) := nic_transmit dev frame (hardware n) in
      let n := n <| hardware := hw |> in
      if negb ok then (false, dropped n)
      else (true, count_device dev (λ s, s <| tx_packets := bump (tx_packets s) |> <| tx_bytes := u64 (tx_bytes s + len frame) |>) n)
  end.

(** A frame into the queue of a device; [None] when the queue is full.
    [src/net/core/net_device.c:90-100] net_device_receive *)
Definition queue_push (frame : list Z) (q : net_rx_queue) : option net_rx_queue :=
  if rx_count q =? NET_DEVICE_RX_QUEUE_LENGTH then None
  else Some (q <| frames := aset (frames q) (write_index q) frame |>
               <| write_index := u8 ((write_index q + 1) mod NET_DEVICE_RX_QUEUE_LENGTH) |> <| rx_count := u8 (rx_count q + 1) |>).

(** [src/net/core/net_device.c:112-119] net_device_dequeue *)
Definition queue_pop (q : net_rx_queue) : option (list Z * net_rx_queue) :=
  if rx_count q =? 0 then None
  else Some (aget [] (frames q) (read_index q),
             q <| read_index := u8 ((read_index q + 1) mod NET_DEVICE_RX_QUEUE_LENGTH) |> <| rx_count := u8 (rx_count q - 1) |>).

(** [src/net/core/net_device.c:81-105] net_device_receive *)
Definition net_device_receive (dev : Z) (frame : list Z) n : bool * inet D :=
  match device_index (reg n) dev with
  | None => (false, count_device dev (λ s, s <| rx_errors := bump (rx_errors s) |>) n)
  | Some i =>
      if (len frame <? 14) || (NET_ETHERNET_MAX_FRAME_SIZE <? len frame)
      then (false, count_device dev (λ s, s <| rx_errors := bump (rx_errors s) |>) n) else
      match queue_push frame (aget rx_queue_zero (rx_queues (reg n)) i) with
      | None => (false, count_device dev (λ s, s <| rx_dropped := bump (rx_dropped s) |>) n)
      | Some q =>
          (true, count_device dev (λ s, s <| rx_packets := bump (rx_packets s) |> <| rx_bytes := u64 (rx_bytes s + len frame) |>)
                   (n <| reg := (reg n) <| rx_queues := aset (rx_queues (reg n)) i q |> |>))
      end
  end.

(** [src/net/core/net_device.c:107-122] net_device_dequeue *)
Definition net_device_dequeue (dev : Z) n : option (list Z) * inet D :=
  match device_index (reg n) dev with
  | None => (None, n)
  | Some i =>
      match queue_pop (aget rx_queue_zero (rx_queues (reg n)) i) with
      | None => (None, n)
      | Some (frame, q) => (Some frame, n <| reg := (reg n) <| rx_queues := aset (rx_queues (reg n)) i q |> |>)
      end
  end.

(** A device is polled: what came goes into its queue, and the state of the link is kept.
    [src/net/core/net_device.c:73-77] net_device_poll_all *)
Definition poll_device (budget : Z) n (dev : Z) : inet D :=
  let '(came, hw) := nic_poll dev budget (hardware n) in
  let n := foldl (λ n frame, (net_device_receive dev frame n).2) (n <| hardware := hw |>) came in
  match nic_link_up dev (hardware n) with
  | Some up => on_device dev (λ d, d <| d_link_up := up |>) n
  | None => n
  end.
(** [src/net/core/net_device.c:71-79] net_device_poll_all *)
Definition net_device_poll_all (budget : Z) n : inet D :=
  if budget =? 0 then n
  else foldl (λ n i, poll_device budget n (aget 0 (devices (reg n)) i)) n (seqZ 0 (device_count (reg n))).

(** ** Ethernet *)

(** [src/net/link/ethernet.c:18-27] mac_is_valid_destination *)
Definition mac_is_valid_destination (mac : list Z) : bool := existsb (λ b, negb (b =? 0)) (take 6 mac).

(** [src/net/link/ethernet.c:29-33] ethernet_init *)
Definition ethernet_init n : inet D :=
  n <| eth := Ethernet (replicate ETHERNET_HANDLER_CAPACITY (EthernetHandlerEntry 0 None)) (EthernetStats 0 0 0 0 0) false |>.

Definition handler_zero : ethernet_handler_entry := EthernetHandlerEntry 0 None.
Definition handles_type (n : inet D) (ethertype i : Z) : bool :=
  let e := aget handler_zero (eth_handlers (eth n)) i in bool_decide (is_Some (eh_handler e)) && (eh_ethertype e =? ethertype).

(** [src/net/link/ethernet.c:35-48] ethernet_register_handler *)
Definition ethernet_register_handler (ethertype : Z) (h : ethernet_handler) n : bool * inet D :=
  if ethertype <? ETHERNET_TYPE_MINIMUM then (false, n) else
  match for_first (handles_type n ethertype) ETHERNET_HANDLER_CAPACITY 0 with
  | Some _ => (false, n)
  | None =>
      match for_first (λ i, bool_decide (eh_handler (aget handler_zero (eth_handlers (eth n)) i) = None)) ETHERNET_HANDLER_CAPACITY 0 with
      | Some i => (true, n <| eth := (eth n) <| eth_handlers := aset (eth_handlers (eth n)) i (EthernetHandlerEntry ethertype (Some h)) |> |>)
      | None => (false, n)
      end
  end.

(** The packet and the handler to call, where there is one.
    [src/net/link/ethernet.c:50-78] ethernet_receive *)
Definition ethernet_receive (dev : Z) (frame : list Z) n : option (ethernet_handler * ethernet_packet) * inet D :=
  let malformed := count_eth (λ s, s <| es_malformed := bump (es_malformed s) |>) in
  if (dev =? 0) || (len frame <? ETHERNET_HEADER_LENGTH) then (None, malformed n) else
  let ethertype := net_read_be16 frame 12 in
  if ethertype <? ETHERNET_TYPE_MINIMUM then (None, malformed n) else
  let packet := EthernetPacket dev (take 6 frame) (take 6 (drop 6 frame)) ethertype (drop (Z.to_nat ETHERNET_HEADER_LENGTH) frame) in
  let n := count_eth (λ s, s <| es_received := bump (es_received s) |>) n in
  match for_first (handles_type n ethertype) ETHERNET_HANDLER_CAPACITY 0 with
  | Some i =>
      match eh_handler (aget handler_zero (eth_handlers (eth n)) i) with
      | Some h => (Some (h, packet), n)
      | None => (None, n)
      end
  | None => (None, count_eth (λ s, s <| es_unsupported := bump (es_unsupported s) |>) n)
  end.

(** [src/net/link/ethernet.c:93-97] ethernet_send *)
Definition ethernet_frame (destination source : list Z) (ethertype : Z) (payload : list Z) : list Z :=
  destination ++ source ++ net_write_be16 ethertype ++ payload.

(** [src/net/link/ethernet.c:80-104] ethernet_send *)
Definition ethernet_send (dev : Z) (destination : list Z) (ethertype : Z) (payload : list Z) n : bool * inet D :=
  let failed := count_eth (λ s, s <| es_transmit_errors := bump (es_transmit_errors s) |>) in
  match memory n !! dev with
  | None => (false, failed n)
  | Some d =>
      if negb (mac_is_valid_destination destination) || (ethertype <? ETHERNET_TYPE_MINIMUM) || (d_mtu d <? len payload) then (false, failed n) else
      if eth_lock (eth n) then (false, failed n) else
      let frame := ethernet_frame (take 6 destination) (d_mac d) ethertype payload in
      let '(sent, n) := net_device_transmit dev frame n in
      if sent then (true, count_eth (λ s, s <| es_transmitted := bump (es_transmitted s) |>) n) else (false, failed n)
  end.
End ethernet.
