(* ===== verification/Arp.v ===== *)
(** * ARP (src/src/net/link/arp.c)

    A cache of sixteen addresses.  An entry is used at most 120 s after the packet
    it comes from; [timer_ticks] is the clock of the state.  The functions hold the
    lock of the cache where they touch it; [arp_resolve] takes it three times, and
    nothing of what it does in between depends on the cache. *)

From S2P Require Import Prelude NetBytes NetState Ethernet.

(** [src/net/link/arp.h:7-7] ARP_CACHE_CAPACITY *)
Definition ARP_CACHE_CAPACITY : nat := 16.
(** [src/net/link/arp.c:7-7] ARP_HARDWARE_ETHERNET *)
Definition ARP_HARDWARE_ETHERNET : Z := 1.
(** [src/net/link/arp.c:8-8] ARP_OPERATION_REQUEST *)
Definition ARP_OPERATION_REQUEST : Z := 1.
(** [src/net/link/arp.c:9-9] ARP_OPERATION_REPLY *)
Definition ARP_OPERATION_REPLY : Z := 2.
(** [src/net/link/arp.c:10-10] ARP_PACKET_LENGTH *)
Definition ARP_PACKET_LENGTH : Z := 28.
(** [src/net/link/arp.c:11-11] ARP_CACHE_TTL_MS *)
Definition ARP_CACHE_TTL_MS : Z := 120000.
(** [src/net/link/arp.c:12-12] ARP_PENDING_TTL_MS *)
Definition ARP_PENDING_TTL_MS : Z := 5000.
(** [src/net/link/arp.c:13-13] ARP_REQUEST_INTERVAL_MS *)
Definition ARP_REQUEST_INTERVAL_MS : Z := 1000.

(** [src/net/link/arp.c:49-53] mac_is_unicast *)
Definition mac_is_unicast (mac : list Z) : bool :=
  existsb (λ b, negb (b =? 0)) (take 6 mac) && (Z.land (byte_at mac 0) 1 =? 0).

(** A table with one row for each device: the row of the device, or a free one
    that is taken for it. *)
Definition find_row (devs : list Z) (dev : Z) : option Z := for_first (λ i, aget 0 devs i =? dev) NET_DEVICE_MAX_COUNT 0.
Definition find_or_free_row (devs : list Z) (dev : Z) : option Z :=
  match find_row devs dev with Some i => Some i | None => for_first (λ i, aget 0 devs i =? 0) NET_DEVICE_MAX_COUNT 0 end.

Section arp.
Context {D : Type} `{Nic D}.
Implicit Types (n : inet D).

Definition arp_rows (a : arp) : list Z := ai_device <$> arp_interfaces a.
Definition cache_at (a : arp) (i : Z) : arp_entry := aget arp_entry_zero (arp_cache a) i.
Definition put_entry (i : Z) (e : arp_entry) (a : arp) : arp := a <| arp_cache := aset (arp_cache a) i e |>.

(** [src/net/link/arp.c:66-72] find_entry *)
Definition find_entry (a : arp) (dev ipv4 : Z) : option Z :=
  for_first (λ i, let e := cache_at a i in
    negb (bool_decide (ae_state e = ARP_ENTRY_FREE)) && (ae_device e =? dev) && (ae_ipv4 e =? ipv4)) ARP_CACHE_CAPACITY 0.

(** [src/net/link/arp.c:79-80] allocate_entry *)
Definition entry_ttl (e : arp_entry) : Z :=
  if bool_decide (ae_state e = ARP_ENTRY_VALID) then ARP_CACHE_TTL_MS else ARP_PENDING_TTL_MS.
Definition entry_expired (now : Z) (e : arp_entry) : bool := entry_ttl e <=? u64 (now - ae_updated_ms e).

(** [src/net/link/arp.c:76-84] allocate_entry *)
Fixpoint allocate_loop (fuel : nat) (i oldest now : Z) (a : arp) : Z :=
  match fuel with
  | O => oldest
  | S fuel' =>
      let e := cache_at a i in
      if bool_decide (ae_state e = ARP_ENTRY_FREE) then i
      else if entry_expired now e then i
      else allocate_loop fuel' (i + 1) (if ae_updated_ms e <? ae_updated_ms (cache_at a oldest) then i else oldest) now a
  end.
(** [src/net/link/arp.c:74-85] allocate_entry *)
Definition allocate_entry (now : Z) (a : arp) : Z := allocate_loop ARP_CACHE_CAPACITY 0 0 now a.

(** [src/net/link/arp.c:188-195] arp_get_local_ipv4 *)
Definition arp_get_local_ipv4 (dev : Z) n : Z :=
  if dev =? 0 then 0 else
  match find_row (arp_rows (arps n)) dev with
  | Some i => ai_local_ipv4 (aget (ArpInterface 0 0) (arp_interfaces (arps n)) i)
  | None => 0
  end.

(** [src/net/link/arp.c:87-108] learn *)
Definition learn (dev ipv4 : Z) (mac : list Z) (now : Z) n : inet D :=
  match memory n !! dev with
  | None => n
  | Some d =>
      if (ipv4 =? 0) || negb (mac_is_unicast mac) then n else
      let a := arps n in
      let mine := match find_row (arp_rows a) dev with
                  | Some i => ai_local_ipv4 (aget (ArpInterface 0 0) (arp_interfaces a) i) =? ipv4
                  | None => false
                  end in
      if mine && negb (bool_decide (take 6 (d_mac d) = take 6 mac)) then count_arp (λ s, s <| address_conflicts := bump (address_conflicts s) |>) n else
      let i := match find_entry a dev ipv4 with Some i => i | None => allocate_entry now a end in
      count_arp (λ s, s <| cache_updates := bump (cache_updates s) |>)
        (n <| arps := put_entry i (ArpEntry dev ipv4 (take 6 mac) now 0 ARP_ENTRY_VALID) a |>)
  end.

(** [src/net/link/arp.c:116-124] send_packet *)
Definition arp_packet (operation : Z) (own_mac : list Z) (sender_ipv4 : Z) (target_mac : list Z) (target_ipv4 : Z) : list Z :=
  net_write_be16 ARP_HARDWARE_ETHERNET ++ net_write_be16 ETHERNET_TYPE_IPV4 ++ [6; 4] ++ net_write_be16 operation ++
  own_mac ++ net_write_be32 sender_ipv4 ++ (if operation =? ARP_OPERATION_REPLY then take 6 target_mac else replicate 6 0) ++
  net_write_be32 target_ipv4.
Definition broadcast_mac : list Z := replicate 6 255.

(** [src/net/link/arp.c:110-129] send_packet *)
Definition send_packet (dev operation sender_ipv4 : Z) (target_mac : list Z) (target_ipv4 : Z) n : bool * inet D :=
  match memory n !! dev with
  | None => (false, n)
  | Some d =>
      ethernet_send dev (if operation =? ARP_OPERATION_REQUEST then broadcast_mac else target_mac) ETHERNET_TYPE_ARP
        (arp_packet operation (d_mac d) sender_ipv4 target_mac target_ipv4) n
  end.

(** Whether a packet is one that ARP looks at: an operation on addresses of Ethernet and IPv4, from the
    station that sent the frame.
    [src/net/link/arp.c:133-151] receive_packet *)
Definition arp_well_formed (frame : ethernet_packet) : bool :=
  let packet := ep_payload frame in
  let operation := net_read_be16 packet 6 in
  (ARP_PACKET_LENGTH <=? len packet) && (net_read_be16 packet 0 =? ARP_HARDWARE_ETHERNET) && (net_read_be16 packet 2 =? ETHERNET_TYPE_IPV4) &&
  (byte_at packet 4 =? 6) && (byte_at packet 5 =? 4) && ((operation =? ARP_OPERATION_REQUEST) || (operation =? ARP_OPERATION_REPLY)) &&
  mac_is_unicast (take 6 (drop 8 packet)) && bool_decide (take 6 (drop 8 packet) = take 6 (ep_source frame)).

(** [src/net/link/arp.c:131-162] receive_packet *)
Definition arp_receive (frame : ethernet_packet) n : inet D :=
  if negb (arp_well_formed frame) then count_arp (λ s, s <| arp_malformed := bump (arp_malformed s) |>) n else
  let packet := ep_payload frame in
  let dev := ep_device frame in
  let operation := net_read_be16 packet 6 in
  let sender_mac := take 6 (drop 8 packet) in
  let sender_ipv4 := net_read_be32 packet 14 in
  let target_ipv4 := net_read_be32 packet 24 in
  let n := count_arp (λ s, if operation =? ARP_OPERATION_REQUEST then s <| requests_received := bump (requests_received s) |>
                           else s <| replies_received := bump (replies_received s) |>) n in
  let n := learn dev sender_ipv4 sender_mac (clock n) n in
  let local := arp_get_local_ipv4 dev n in
  if (operation =? ARP_OPERATION_REQUEST) && negb (local =? 0) && (target_ipv4 =? local) then
    let '(sent, n) := send_packet dev ARP_OPERATION_REPLY local sender_mac sender_ipv4 n in
    if sent then count_arp (λ s, s <| replies_sent := bump (replies_sent s) |>) n else n
  else n.

(** [src/net/link/arp.c:164-170] arp_init *)
Definition arp_init n : bool * inet D :=
  ethernet_register_handler ETHERNET_TYPE_ARP ETHERNET_ARP
    (n <| arps := Arp (replicate ARP_CACHE_CAPACITY arp_entry_zero) (replicate NET_DEVICE_MAX_COUNT (ArpInterface 0 0)) (ArpStats 0 0 0 0 0 0 0 0) |>).

(** [src/net/link/arp.c:172-186] arp_set_local_ipv4 *)
Definition arp_set_local_ipv4 (dev address : Z) n : bool * inet D :=
  match memory n !! dev with
  | None => (false, n)
  | Some d =>
      if negb (d_registered d) then (false, n) else
      match find_or_free_row (arp_rows (arps n)) dev with
      | None => (false, n)
      | Some i =>
          (true, n <| arps := (arps n) <| arp_interfaces := aset (arp_interfaces (arps n)) i (ArpInterface dev address) |>
                     <| arp_cache := (λ e, if ae_device e =? dev then e <| ae_state := ARP_ENTRY_FREE |> else e) <$> arp_cache (arps n) |> |>)
      end
  end.

(** [src/net/link/arp.c:197-211] arp_lookup *)
Definition arp_lookup (dev ipv4 : Z) n : option (list Z) * inet D :=
  if (dev =? 0) || (ipv4 =? 0) then (None, n) else
  match find_entry (arps n) dev ipv4 with
  | None => (None, n)
  | Some i =>
      let e := cache_at (arps n) i in
      if negb (bool_decide (ae_state e = ARP_ENTRY_VALID)) then (None, n)
      else if u64 (clock n - ae_updated_ms e) <? ARP_CACHE_TTL_MS then (Some (ae_mac e), n)
      else (None, count_arp (λ s, s <| cache_expirations := bump (cache_expirations s) |>)
                    (n <| arps := put_entry i (e <| ae_state := ARP_ENTRY_FREE |>) (arps n) |>))
  end.

(** The entry that waits for an answer, and whether a request is to be sent.
    [src/net/link/arp.c:217-234] arp_resolve *)
Definition ask (dev ipv4 now : Z) (a : arp) : bool * arp :=
  match find_entry a dev ipv4 with
  | None =>
      let i := allocate_entry now a in
      (true, put_entry i (ArpEntry dev ipv4 (replicate 6 0) now now ARP_ENTRY_PENDING) a)
  | Some i =>
      let e := cache_at a i in
      if bool_decide (ae_state e = ARP_ENTRY_PENDING) && (ARP_REQUEST_INTERVAL_MS <=? u64 (now - ae_last_request_ms e))
      then (true, put_entry i (e <| ae_last_request_ms := now |>) a)
      else (false, a)
  end.

(** [src/net/link/arp.c:213-238] arp_resolve *)
Definition arp_resolve (dev ipv4 : Z) n : option (list Z) * inet D :=
  match arp_lookup dev ipv4 n with
  | (Some mac, n) => (Some mac, n)
  | (None, n) =>
      let local := arp_get_local_ipv4 dev n in
      if local =? 0 then (None, n) else
      let '(should_request, a) := ask dev ipv4 (clock n) (arps n) in
      let n := n <| arps := a |> in
      if should_request then
        let '(sent, n) := send_packet dev ARP_OPERATION_REQUEST local [] ipv4 n in
        (None, if sent then count_arp (λ s, s <| requests_sent := bump (requests_sent s) |>) n else n)
      else (None, n)
  end.

(** [src/net/link/arp.c:243-250] arp_poll *)
Definition poll_entry (now : Z) n (i : Z) : inet D :=
  let e := cache_at (arps n) i in
  if bool_decide (ae_state e = ARP_ENTRY_FREE) then n
  else if entry_expired now e then
    count_arp (λ s, s <| cache_expirations := bump (cache_expirations s) |>) (n <| arps := put_entry i (e <| ae_state := ARP_ENTRY_FREE |>) (arps n) |>)
  else n.
(** [src/net/link/arp.c:240-253] arp_poll *)
Definition arp_poll (now : Z) n : inet D := foldl (poll_entry now) n (seqZ 0 (Z.of_nat ARP_CACHE_CAPACITY)).

(** A row of the listing: device, address, MAC, age, and whether it is valid or pending.
    [src/net/link/arp.c:255-274] arp_cache_snapshot *)
Definition arp_cache_snapshot (capacity : Z) n : list (Z * Z * list Z * Z * bool * bool) :=
  let used := filter (λ e, ae_state e ≠ ARP_ENTRY_FREE) (arp_cache (arps n)) in
  (λ e, (ae_device e, ae_ipv4 e, ae_mac e, u64 (clock n - ae_updated_ms e),
         bool_decide (ae_state e = ARP_ENTRY_VALID), bool_decide (ae_state e = ARP_ENTRY_PENDING))) <$> take (Z.to_nat capacity) used.
End arp.
