(* ===== verification/Inet.v ===== *)
(** * IPv4, UDP and ICMP (src/src/net/network/ipv4.c, transport/udp.c, diagnostics/icmp.c)

    Packets without fragments and without options on the way out.  As with
    Ethernet, what a packet is for is returned to the caller, which has
    the state of the upper layers.  The locks of the transmit buffers
    are tested and not waited for: a call that finds one taken fails. *)

From S2P Require Import Prelude NetBytes NetState Ethernet Arp.

(** [src/net/network/ipv4.h:7-7] IPV4_HEADER_MIN_LENGTH *)
Definition IPV4_HEADER_MIN_LENGTH : Z := 20.
(** [src/net/network/ipv4.h:8-8] IPV4_PAYLOAD_MAX_LENGTH *)
Definition IPV4_PAYLOAD_MAX_LENGTH : Z := NET_ETHERNET_MTU - IPV4_HEADER_MIN_LENGTH.
(** [src/net/network/ipv4.h:9-9] IPV4_PROTOCOL_ICMP *)
Definition IPV4_PROTOCOL_ICMP : Z := 1.
(** [src/net/network/ipv4.h:11-11] IPV4_PROTOCOL_UDP *)
Definition IPV4_PROTOCOL_UDP : Z := 17.
(** [src/net/network/ipv4.h:12-12] IPV4_BROADCAST *)
Definition IPV4_BROADCAST : Z := 4294967295.
(** [src/net/network/ipv4.h:15-15] IPV4_SEND_ERROR *)
Definition IPV4_SEND_ERROR : Z := -1.
(** [src/net/network/ipv4.h:16-16] IPV4_SEND_WAITING_ARP *)
Definition IPV4_SEND_WAITING_ARP : Z := 0.
(** [src/net/network/ipv4.h:17-17] IPV4_SEND_OK *)
Definition IPV4_SEND_OK : Z := 1.
(** [src/net/network/ipv4.c:7-7] IPV4_HANDLER_CAPACITY *)
Definition IPV4_HANDLER_CAPACITY : nat := 8.
(** [src/net/network/ipv4.c:8-8] IPV4_DEFAULT_TTL *)
Definition IPV4_DEFAULT_TTL : Z := 64.
(** [src/net/transport/udp.h:7-7] UDP_HEADER_LENGTH *)
Definition UDP_HEADER_LENGTH : Z := 8.
(** [src/net/transport/udp.h:8-8] UDP_PAYLOAD_MAX_LENGTH *)
Definition UDP_PAYLOAD_MAX_LENGTH : Z := IPV4_PAYLOAD_MAX_LENGTH - UDP_HEADER_LENGTH.
(** [src/net/transport/udp.c:5-5] UDP_BINDING_CAPACITY *)
Definition UDP_BINDING_CAPACITY : nat := 8.
(** [src/net/diagnostics/icmp.c:8-8] ICMP_ECHO_REPLY *)
Definition ICMP_ECHO_REPLY : Z := 0.
(** [src/net/diagnostics/icmp.c:9-9] ICMP_ECHO_REQUEST *)
Definition ICMP_ECHO_REQUEST : Z := 8.
(** [src/net/diagnostics/icmp.c:10-10] ICMP_ECHO_DATA_LENGTH *)
Definition ICMP_ECHO_DATA_LENGTH : Z := 56.

Section inet.
Context {D : Type} `{Nic D}.
Implicit Types (n : inet D).

(** ** IPv4 *)

Definition ip_rows (i : ipv4) : list Z := ic_device <$> ip_interfaces i.
Definition config_at n (i : Z) : ipv4_interface_config := aget ipv4_config_zero (ip_interfaces (ips n)) i.
Definition put_config (i : Z) (c : ipv4_interface_config) n : inet D := n <| ips := (ips n) <| ip_interfaces := aset (ip_interfaces (ips n)) i c |> |>.

(** [src/net/network/ipv4.c:33-42] find_interface *)
Definition find_interface (dev : Z) n : option ipv4_interface_config :=
  match find_row (ip_rows (ips n)) dev with Some i => Some (config_at n i) | None => None end.

Definition ip_handler_zero : ipv4_handler_entry := Ipv4HandlerEntry 0 None.
Definition handles_protocol (i : ipv4) (protocol k : Z) : bool :=
  let e := aget ip_handler_zero (ip_handlers i) k in bool_decide (is_Some (ih_handler e)) && (ih_protocol e =? protocol).

(** Whether a packet to [destination] is taken: a device without an address takes all.
    [src/net/network/ipv4.c:60-66] receive_packet *)
Definition accepts_destination (interface : option ipv4_interface_config) (destination : Z) : bool :=
  match interface with
  | Some c =>
      if ic_configured c then
        let directed_broadcast := Z.lor (Z.land (ic_address c) (ic_netmask c)) (u32 (Z.lnot (ic_netmask c))) in
        (destination =? IPV4_BROADCAST) || (destination =? directed_broadcast) || (destination =? ic_address c)
      else true
  | None => true
  end.

(** [src/net/network/ipv4.c:50-53] receive_packet *)
Definition ipv4_header_ok (data : list Z) : bool :=
  let header_length := Z.land (byte_at data 0) 15 * 4 in
  let total_length := net_read_be16 data 2 in
  (IPV4_HEADER_MIN_LENGTH <=? header_length) && (header_length <=? total_length) && (total_length <=? len data) &&
  (ipv4_checksum (take (Z.to_nat header_length) data) =? 0).

(** [src/net/network/ipv4.c:67-75] receive_packet *)
Definition parse_packet (dev : Z) (data : list Z) : ipv4_packet :=
  let header_length := Z.land (byte_at data 0) 15 * 4 in
  let total_length := net_read_be16 data 2 in
  Ipv4Packet dev (net_read_be32 data 12) (net_read_be32 data 16) (byte_at data 9) (byte_at data 8)
    (take (Z.to_nat (total_length - header_length)) (drop (Z.to_nat header_length) data)).

(** [src/net/network/ipv4.c:44-82] receive_packet *)
Definition ipv4_receive (frame : ethernet_packet) n : option (ipv4_handler * ipv4_packet) * inet D :=
  let data := ep_payload frame in
  let dev := ep_device frame in
  let error := count_device dev (λ s, s <| rx_errors := bump (rx_errors s) |>) in
  if (len data <? IPV4_HEADER_MIN_LENGTH) || negb (byte_at data 0 ≫ 4 =? 4) then (None, error n)
  else if negb (ipv4_header_ok data) then (None, error n)
  else if negb (Z.land (net_read_be16 data 6) 16383 =? 0) then (None, n)
  else if negb (accepts_destination (find_interface dev n) (net_read_be32 data 16)) then (None, n)
  else
    let packet := parse_packet dev data in
    match for_first (handles_protocol (ips n) (ip_protocol packet)) IPV4_HANDLER_CAPACITY 0 with
    | Some k =>
        match ih_handler (aget ip_handler_zero (ip_handlers (ips n)) k) with
        | Some h => (Some (h, packet), n)
        | None => (None, n)
        end
    | None => (None, n)
    end.

(** [src/net/network/ipv4.c:84-90] ipv4_init *)
Definition ipv4_init n : bool * inet D :=
  ethernet_register_handler ETHERNET_TYPE_IPV4 ETHERNET_IPV4
    (n <| ips := Ipv4State (replicate IPV4_HANDLER_CAPACITY ip_handler_zero) (replicate NET_DEVICE_MAX_COUNT ipv4_config_zero) false 1 |>).

(** [src/net/network/ipv4.c:92-105] ipv4_register_handler *)
Definition ipv4_register_handler (protocol : Z) (h : ipv4_handler) n : bool * inet D :=
  if protocol =? 0 then (false, n) else
  match for_first (handles_protocol (ips n) protocol) IPV4_HANDLER_CAPACITY 0 with
  | Some _ => (false, n)
  | None =>
      match for_first (λ k, bool_decide (ih_handler (aget ip_handler_zero (ip_handlers (ips n)) k) = None)) IPV4_HANDLER_CAPACITY 0 with
      | Some k => (true, n <| ips := (ips n) <| ip_handlers := aset (ip_handlers (ips n)) k (Ipv4HandlerEntry protocol (Some h)) |> |>)
      | None => (false, n)
      end
  end.

(** [src/net/network/ipv4.c:107-117] ipv4_configure *)
Definition ipv4_configure (dev address netmask gateway : Z) n : bool * inet D :=
  match memory n !! dev with
  | None => (false, n)
  | Some d =>
      if negb (d_registered d) || (address =? 0) || (netmask =? 0) then (false, n) else
      match find_or_free_row (ip_rows (ips n)) dev with
      | None => (false, n)
      | Some i =>
          let n := put_config i ((config_at n i) <| ic_device := dev |>) n in
          let '(ok, n) := arp_set_local_ipv4 dev address n in
          if negb ok then (false, n)
          else (true, put_config i (Ipv4InterfaceConfig dev address netmask gateway true) n)
      end
  end.

(** [src/net/network/ipv4.c:119-127] ipv4_get_config *)
Definition ipv4_get_config (dev : Z) n : option ipv4_interface_config :=
  if dev =? 0 then None else
  match find_interface dev n with
  | Some c => if ic_configured c then Some c else None
  | None => None
  end.

(** Where a packet goes first: [None] is an error.
    [src/net/network/ipv4.c:142-146] ipv4_send_from *)
Definition next_hop (interface : option ipv4_interface_config) (destination : Z) : option Z :=
  match interface with
  | Some c =>
      if negb (ic_configured c) then None else
      let hop := if Z.land destination (ic_netmask c) =? Z.land (ic_address c) (ic_netmask c) then destination else ic_gateway c in
      if hop =? 0 then None else Some hop
  | None => None
  end.

(** [src/net/network/ipv4.c:152-161] ipv4_send_from *)
Definition ipv4_header (total identification protocol checksum source destination : Z) : list Z :=
  [69; 0] ++ net_write_be16 total ++ net_write_be16 identification ++ net_write_be16 16384 ++ [IPV4_DEFAULT_TTL; protocol] ++
  net_write_be16 checksum ++ net_write_be32 source ++ net_write_be32 destination.
Definition ipv4_bytes (identification protocol source destination : Z) (payload : list Z) : list Z :=
  let header checksum := ipv4_header (u16 (IPV4_HEADER_MIN_LENGTH + len payload)) identification protocol checksum source destination in
  header (ipv4_checksum (header 0)) ++ payload.

(** [src/net/network/ipv4.c:150-169] ipv4_send_from *)
Definition ipv4_transmit (dev : Z) (mac : list Z) (source destination protocol : Z) (payload : list Z) n : Z * inet D :=
  if ip_lock (ips n) then (IPV4_SEND_ERROR, n) else
  let identification := ip_next_identification (ips n) in
  let n := n <| ips := (ips n) <| ip_next_identification := u16 (identification + 1) |> |> in
  let '(sent, n) := ethernet_send dev mac ETHERNET_TYPE_IPV4 (ipv4_bytes identification protocol source destination payload) n in
  (if sent then IPV4_SEND_OK else IPV4_SEND_ERROR, n).

(** [src/net/network/ipv4.c:129-170] ipv4_send_from *)
Definition ipv4_send_from (dev source destination protocol : Z) (payload : list Z) n : Z * inet D :=
  if (dev =? 0) || (protocol =? 0) || (IPV4_PAYLOAD_MAX_LENGTH <? len payload) then (IPV4_SEND_ERROR, n) else
  let interface := find_interface dev n in
  if negb (source =? 0) && negb (match interface with Some c => ic_configured c && (source =? ic_address c) | None => false end)
  then (IPV4_SEND_ERROR, n)
  else if destination =? IPV4_BROADCAST then ipv4_transmit dev broadcast_mac source destination protocol payload n
  else
    match next_hop interface destination with
    | None => (IPV4_SEND_ERROR, n)
    | Some hop =>
        match arp_resolve dev hop n with
        | (None, n) => (IPV4_SEND_WAITING_ARP, n)
        | (Some mac, n) => ipv4_transmit dev mac source destination protocol payload n
        end
    end.

(** [src/net/network/ipv4.c:172-179] ipv4_send *)
Definition ipv4_send (dev destination protocol : Z) (payload : list Z) n : Z * inet D :=
  match ipv4_get_config dev n with
  | None => (IPV4_SEND_ERROR, n)
  | Some c => ipv4_send_from dev (ic_address c) destination protocol payload n
  end.

(** ** UDP *)

Definition binding_zero : udp_binding := UdpBinding 0 None.
Definition binds (u : udp) (port k : Z) : bool :=
  let b := aget binding_zero (udp_bindings u) k in bool_decide (is_Some (ub_handler b)) && (ub_port b =? port).

(** [src/net/transport/udp.c:16-37] receive_datagram *)
Definition udp_receive (packet : ipv4_packet) n : option (udp_handler * udp_datagram) :=
  let data := ip_payload packet in
  if len data <? UDP_HEADER_LENGTH then None else
  let length := net_read_be16 data 4 in
  if (length <? UDP_HEADER_LENGTH) || (len data <? length) then None else
  let datagram := UdpDatagram (ip_device packet) (ip_source packet) (ip_destination packet) (net_read_be16 data 0) (net_read_be16 data 2)
    (take (Z.to_nat (length - UDP_HEADER_LENGTH)) (drop (Z.to_nat UDP_HEADER_LENGTH) data)) in
  match for_first (binds (udps n) (ud_destination_port datagram)) UDP_BINDING_CAPACITY 0 with
  | Some k =>
      match ub_handler (aget binding_zero (udp_bindings (udps n)) k) with
      | Some h => Some (h, datagram)
      | None => None
      end
  | None => None
  end.

(** [src/net/transport/udp.c:39-43] udp_init *)
Definition udp_init n : bool * inet D :=
  ipv4_register_handler IPV4_PROTOCOL_UDP IPV4_UDP (n <| udps := Udp (replicate UDP_BINDING_CAPACITY binding_zero) false |>).

(** [src/net/transport/udp.c:45-57] udp_bind *)
Definition udp_bind (port : Z) (h : udp_handler) n : bool * inet D :=
  if port =? 0 then (false, n) else
  match for_first (binds (udps n) port) UDP_BINDING_CAPACITY 0 with
  | Some _ => (false, n)
  | None =>
      match for_first (λ k, bool_decide (ub_handler (aget binding_zero (udp_bindings (udps n)) k) = None)) UDP_BINDING_CAPACITY 0 with
      | Some k => (true, n <| udps := (udps n) <| udp_bindings := aset (udp_bindings (udps n)) k (UdpBinding port (Some h)) |> |>)
      | None => (false, n)
      end
  end.

(** [src/net/transport/udp.c:69-73] udp_send_from *)
Definition udp_bytes (source_port destination_port : Z) (payload : list Z) : list Z :=
  net_write_be16 source_port ++ net_write_be16 destination_port ++ net_write_be16 (u16 (UDP_HEADER_LENGTH + len payload)) ++
  net_write_be16 0 ++ payload.

(** [src/net/transport/udp.c:59-79] udp_send_from *)
Definition udp_send_from (dev source destination source_port destination_port : Z) (payload : list Z) n : Z * inet D :=
  if (source_port =? 0) || (destination_port =? 0) || (UDP_PAYLOAD_MAX_LENGTH <? len payload) then (IPV4_SEND_ERROR, n)
  else if udp_lock (udps n) then (IPV4_SEND_ERROR, n)
  else ipv4_send_from dev source destination IPV4_PROTOCOL_UDP (udp_bytes source_port destination_port payload) n.

(** [src/net/transport/udp.c:81-89] udp_send *)
Definition udp_send (dev destination source_port destination_port : Z) (payload : list Z) n : Z * inet D :=
  match ipv4_get_config dev n with
  | None => (IPV4_SEND_ERROR, n)
  | Some c => udp_send_from dev (ic_address c) destination source_port destination_port payload n
  end.

(** ** ICMP *)

(** The answer to the ping that waits.
    [src/net/diagnostics/icmp.c:36-39] receive_icmp *)
Definition answers_ping (packet : ipv4_packet) (p : ping_request) : bool :=
  let data := ip_payload packet in
  (byte_at data 0 =? ICMP_ECHO_REPLY) && (byte_at data 1 =? 0) && pr_active p && (ip_device packet =? pr_device p) &&
  (ip_source packet =? pr_address p) && (net_read_be16 data 4 =? pr_identifier p) && (net_read_be16 data 6 =? pr_sequence p).

(** The answer to an echo request, in [reply_packet]; what the array held before is
    overwritten as far as it is sent.  [None]: a store outside of the array.
    [src/net/diagnostics/icmp.c:47-52] receive_icmp *)
Definition echo_reply (data : list Z) : option (list Z) :=
  reply_packet ← memcpy 0 data (replicate (Z.to_nat IPV4_PAYLOAD_MAX_LENGTH) 0);
  reply_packet ← store 0 ICMP_ECHO_REPLY reply_packet;
  reply_packet ← store 2 0 reply_packet;
  reply_packet ← store 3 0 reply_packet;
  reply_packet ← memcpy 2 (net_write_be16 (ipv4_checksum (take (length data) reply_packet))) reply_packet;
  Some (take (length data) reply_packet).

(** [None]: the request runs over the end of [reply_packet].
    [src/net/diagnostics/icmp.c:31-56] receive_icmp *)
Definition icmp_receive (packet : ipv4_packet) n : option (inet D) :=
  let data := ip_payload packet in
  let i := icmps n in
  if (len data <? 8) || negb (ipv4_checksum data =? 0) then Some n
  else if answers_ping packet (icmp_pending i) then
    Some (n <| icmps := i <| icmp_pending := (icmp_pending i) <| pr_ttl := ip_ttl packet |> <| pr_complete := true |> |> |>)
  else if negb (byte_at data 0 =? ICMP_ECHO_REQUEST) || negb (byte_at data 1 =? 0) || icmp_reply_lock i then Some n
  else
    reply ← echo_reply data;
    Some (ipv4_send (ip_device packet) (ip_source packet) IPV4_PROTOCOL_ICMP reply n).2.

(** [src/net/diagnostics/icmp.c:58-63] icmp_init *)
Definition icmp_init n : bool * inet D :=
  ipv4_register_handler IPV4_PROTOCOL_ICMP IPV4_ICMP
    (n <| icmps := (icmps n) <| icmp_pending := ping_zero |> <| icmp_ping_lock := false |> <| icmp_reply_lock := false |> |>).

(** [src/net/diagnostics/icmp.h:7-12] icmp_ping_status *)
Inductive icmp_ping_status := ICMP_PING_OK | ICMP_PING_TIMEOUT | ICMP_PING_BUSY | ICMP_PING_NETWORK.

(** [src/net/diagnostics/icmp.c:70-78] icmp_ping *)
Definition echo_request (identifier sequence : Z) : list Z :=
  let echo checksum := [ICMP_ECHO_REQUEST; 0] ++ net_write_be16 checksum ++ net_write_be16 identifier ++ net_write_be16 sequence ++ seqZ 0 ICMP_ECHO_DATA_LENGTH in
  echo (ipv4_checksum (echo 0)).

(** What the call does before its loop: an error, or the packet that it sends.
    [src/net/diagnostics/icmp.c:68-86] icmp_ping *)
Definition ping_start (dev address sequence timeout : Z) n : (icmp_ping_status + list Z) * inet D :=
  if (dev =? 0) || (address =? 0) || (timeout =? 0) then (inl ICMP_PING_NETWORK, n) else
  let i := icmps n in
  if icmp_ping_lock i then (inl ICMP_PING_BUSY, n) else
  let identifier := u16 (icmp_next_identifier i + 1) in
  (inr (echo_request identifier sequence),
   n <| icmps := i <| icmp_ping_lock := true |> <| icmp_next_identifier := identifier |>
                   <| icmp_pending := PingRequest dev address identifier sequence 0 true false 0 |> |>).

Definition ping_end n : inet D :=
  n <| icmps := (icmps n) <| icmp_pending := (icmp_pending (icmps n)) <| pr_active := false |> |> <| icmp_ping_lock := false |> |>.

(** A round of the loop of a call that began at [start]: its answer, with the round trip time and the time to live,
    or whether the packet is sent.
    [src/net/diagnostics/icmp.c:87-117] icmp_ping *)
Definition ping_round (dev address : Z) (echo : list Z) (start timeout : Z) (sent : bool) n :
    (icmp_ping_status * option (Z * Z) + bool) * inet D :=
  if negb (u64 (clock n - start) <? timeout) then (inl (ICMP_PING_TIMEOUT, None), ping_end n) else
  let '(result, n) := if sent then (IPV4_SEND_OK, n) else ipv4_send dev address IPV4_PROTOCOL_ICMP echo n in
  if result =? IPV4_SEND_ERROR then (inl (ICMP_PING_NETWORK, None), ping_end n) else
  let n := if negb sent && (result =? IPV4_SEND_OK) then n <| icmps := (icmps n) <| icmp_pending := (icmp_pending (icmps n)) <| pr_sent_ms := clock n |> |> |> else n in
  let p := icmp_pending (icmps n) in
  if pr_complete p then
    let elapsed := u64 (clock n - pr_sent_ms p) in
    (inl (ICMP_PING_OK, Some (if 4294967295 <? elapsed then 4294967295 else elapsed, pr_ttl p)), ping_end n)
  else (inr (sent || (result =? IPV4_SEND_OK)), n).
End inet.

(** ** Addresses in text *)

Definition is_digit (c : Z) : bool := (48 <=? c) && (c <=? 57).

(** A number of at most three digits and its rest.
    [src/net/network/ipv4.c:186-192] ipv4_parse_address *)
Fixpoint parse_octet (octet digits : Z) (text : list Z) : option (Z * list Z) :=
  match text with
  | c :: rest =>
      if is_digit c then
        let octet := u32 (octet * 10 + (c - 48)) in
        if (255 <? octet) || (3 <? digits + 1) then None else parse_octet octet (digits + 1) rest
      else Some (octet, text)
  | [] => Some (octet, [])
  end.

(** [src/net/network/ipv4.c:183-198] ipv4_parse_address *)
Fixpoint parse_parts (parts : nat) (value : Z) (text : list Z) : option (Z * list Z) :=
  match parts with
  | O => Some (value, text)
  | S parts =>
      match text with
      | c :: _ =>
          if negb (is_digit c) then None else
          match parse_octet 0 0 text with
          | None => None
          | Some (octet, rest) =>
              let value := Z.lor (u32 (value ≪ 8)) octet in
              match parts with
              | O => Some (value, rest)
              | S _ =>
                  match rest with
                  | d :: rest => if d =? 46 then parse_parts parts value rest else None
                  | [] => None
                  end
              end
          end
      | [] => None
      end
  end.

(** [src/net/network/ipv4.c:181-202] ipv4_parse_address *)
Definition ipv4_parse_address (text : list Z) : option Z :=
  match parse_parts 4 0 text with Some (value, []) => Some value | _ => None end.
