(* ===== verification/Dns.v ===== *)
(** * DNS (src/src/net/name/dns.c)

    One question at a time, with a cache of eight names.  Strings are lists of their
    bytes without the zero.  [dns_resolve_ipv4] waits in a loop: what it does before is
    [resolve_start], a round of the loop is [resolve_round]. *)

From S2P Require Import Prelude NetBytes NetState Ethernet Arp Inet.

(** [src/net/name/dns.c:9-9] DNS_CLIENT_PORT *)
Definition DNS_CLIENT_PORT : Z := 53000.
(** [src/net/name/dns.c:10-10] DNS_SERVER_PORT *)
Definition DNS_SERVER_PORT : Z := 53.
(** [src/net/name/dns.c:11-11] DNS_PACKET_CAPACITY *)
Definition DNS_PACKET_CAPACITY : Z := 512.
(** [src/net/name/dns.c:12-12] DNS_CACHE_CAPACITY *)
Definition DNS_CACHE_CAPACITY : nat := 8.
(** [src/net/name/dns.c:13-13] DNS_CACHE_NAME_CAPACITY *)
Definition DNS_CACHE_NAME_CAPACITY : Z := 64.
(** [src/net/name/dns.c:14-14] DNS_RETRY_MS *)
Definition DNS_RETRY_MS : Z := 250.
(** [src/net/name/dns.h:7-7] DNS_HOSTNAME_CAPACITY *)
Definition DNS_HOSTNAME_CAPACITY : Z := 128.
(** [src/net/name/dns.h:9-17] dns_result *)
Inductive dns_result := DNS_RESULT_OK | DNS_RESULT_INVALID | DNS_RESULT_NO_SERVER | DNS_RESULT_BUSY | DNS_RESULT_TIMEOUT
  | DNS_RESULT_NOT_FOUND | DNS_RESULT_NETWORK.

(** ** Names *)

Definition lower (c : Z) : Z := if (65 <=? c) && (c <=? 90) then c + 32 else c.
Definition name_byte (c : Z) : bool := (97 <=? c) && (c <=? 122) || is_digit c || (c =? 45).

(** [src/net/name/dns.c:60-77] normalize_hostname *)
Fixpoint normalize_loop (capacity label_length : Z) (source destination : list Z) : option (list Z) :=
  match source with
  | [] => if label_length =? 0 then None else Some destination
  | c :: source =>
      let c := lower c in
      if c =? 46 then
        if (label_length =? 0) || (63 <? label_length) || (capacity <=? len destination + 1) then None
        else normalize_loop capacity 0 source (destination ++ [c])
      else if negb (name_byte c) || (capacity <=? len destination + 1) || (63 <? label_length + 1) then None
      else normalize_loop capacity (label_length + 1) source (destination ++ [c])
  end.
(** [src/net/name/dns.c:55-78] normalize_hostname *)
Definition normalize_hostname (capacity : Z) (source : list Z) : option (list Z) :=
  if bool_decide (source = []) || (capacity <? 2) then None else normalize_loop capacity 0 source [].

(** The bytes before the first dot, and those after it.
    [src/net/name/dns.c:219-221] dns_resolve_ipv4 *)
Fixpoint take_label (text : list Z) : list Z * list Z :=
  match text with
  | [] => ([], [])
  | c :: text => if c =? 46 then ([], text) else let '(label, rest) := take_label text in (c :: label, rest)
  end.

(** A label in each round, so the text has enough bytes for the rounds.
    [src/net/name/dns.c:218-230] dns_resolve_ipv4 *)
Fixpoint encode_name (fuel : nat) (text packet : list Z) : option (list Z) :=
  match text with
  | [] => Some packet
  | _ =>
      match fuel with
      | O => None
      | S fuel =>
          let '(label, rest) := take_label text in
          if DNS_PACKET_CAPACITY <? len packet + 1 + len label + 5 then None
          else encode_name fuel rest (packet ++ u8 (len label) :: label)
      end
  end.

(** [src/net/name/dns.c:211-234] dns_resolve_ipv4 *)
Definition query_packet (identifier : Z) (name : list Z) : option (list Z) :=
  let header := net_write_be16 identifier ++ net_write_be16 256 ++ net_write_be16 1 ++ replicate 6 0 in
  match encode_name (length name) name header with
  | Some packet => Some (packet ++ [0] ++ net_write_be16 1 ++ net_write_be16 1)
  | None => None
  end.

(** The position behind a name; a pointer ends it.
    [src/net/name/dns.c:114-127] skip_name *)
Fixpoint skip_labels (labels : nat) (packet : list Z) (length cursor : Z) : option Z :=
  match labels with
  | O => None
  | S labels =>
      if length <=? cursor then None else
      let size := byte_at packet cursor in
      let cursor := u16 (cursor + 1) in
      if size =? 0 then Some cursor
      else if Z.land size 192 =? 192 then (if length <=? cursor then None else Some (u16 (cursor + 1)))
      else if (63 <? size) || (length <? cursor + size) then None
      else skip_labels labels packet length (u16 (cursor + size))
  end.
Definition skip_name (packet : list Z) (length offset : Z) : option Z := skip_labels 128 packet length offset.

(** ** The cache *)

(** [src/net/name/dns.c:80-90] cache_lookup *)
Definition cache_lookup (now : Z) (name : list Z) (cache : list dns_cache_entry) : option Z :=
  match for_first (λ i, let e := aget dns_cache_zero cache i in
      negb (dc_address e =? 0) && (now <? dc_expires_ms e) && bool_decide (dc_name e = name)) DNS_CACHE_CAPACITY 0 with
  | Some i => Some (dc_address (aget dns_cache_zero cache i))
  | None => None
  end.

(** [src/net/name/dns.c:96-104] cache_store *)
Fixpoint cache_slot (fuel : nat) (i slot now : Z) (name : list Z) (cache : list dns_cache_entry) : Z :=
  match fuel with
  | O => slot
  | S fuel =>
      let e := aget dns_cache_zero cache i in
      if (dc_address e =? 0) || (dc_expires_ms e <=? now) || bool_decide (dc_name e = name) then i
      else cache_slot fuel (i + 1) (if dc_expires_ms e <? dc_expires_ms (aget dns_cache_zero cache slot) then i else slot) now name cache
  end.
(** [src/net/name/dns.c:92-110] cache_store *)
Definition cache_store (now : Z) (name : list Z) (address ttl_seconds : Z) (cache : list dns_cache_entry) : list dns_cache_entry :=
  if (address =? 0) || (ttl_seconds =? 0) then cache else
  let slot := cache_slot DNS_CACHE_CAPACITY 0 0 now name cache in
  let ttl_ms := u64 (ttl_seconds * 1000) in
  aset cache slot (DnsCacheEntry (take (Z.to_nat (DNS_CACHE_NAME_CAPACITY - 1)) name) address
                     (if 2 ^ 64 - 1 - now <? ttl_ms then 2 ^ 64 - 1 else u64 (now + ttl_ms))).

(** ** Answers *)

(** The position behind the questions.
    [src/net/name/dns.c:145-151] receive_response *)
Fixpoint skip_questions (questions : nat) (packet : list Z) (length offset : Z) : option Z :=
  match questions with
  | O => Some offset
  | S questions =>
      match skip_name packet length offset with
      | Some offset => if length <? offset + 4 then None else skip_questions questions packet length (u16 (offset + 4))
      | None => None
      end
  end.

(** The first address among the answers, and its time to live.
    [src/net/name/dns.c:152-168] receive_response *)
Fixpoint find_address (answers : nat) (packet : list Z) (length offset : Z) : option (Z * Z) :=
  match answers with
  | O => None
  | S answers =>
      match skip_name packet length offset with
      | None => None
      | Some offset =>
          if length <? offset + 10 then None else
          let type := net_read_be16 packet offset in
          let class_code := net_read_be16 packet (offset + 2) in
          let ttl := net_read_be32 packet (offset + 4) in
          let data_length := net_read_be16 packet (offset + 8) in
          let offset := u16 (offset + 10) in
          if length <? offset + data_length then None
          else if (type =? 1) && (class_code =? 1) && (data_length =? 4) then Some (net_read_be32 packet offset, ttl)
          else find_address answers packet length (u16 (offset + data_length))
      end
  end.

(** The bytes behind [length] are not of the datagram.
    [src/net/name/dns.c:137-169] receive_response *)
Definition parse_response (packet : list Z) (length : Z) : option (Z * Z) :=
  let flags := net_read_be16 packet 2 in
  if (Z.land flags 32768 =? 0) || negb (Z.land flags 15 =? 0) then None else
  match skip_questions (Z.to_nat (net_read_be16 packet 4)) packet length 12 with
  | Some offset => find_address (Z.to_nat (net_read_be16 packet 6)) packet length offset
  | None => None
  end.

Section dns.
Context {D : Type} `{Nic D}.
Implicit Types (n : inet D).

Definition with_dns (f : dns → dns) n : inet D := n <| dnss := f (dnss n) |>.

(** [src/net/name/dns.c:130-170] receive_response *)
Definition dns_receive (datagram : udp_datagram) n : inet D :=
  let packet := ud_payload datagram in
  let q := dns_current (dnss n) in
  if negb (dq_active q) || negb (ud_device datagram =? dq_device q) || negb (ud_source_address datagram =? dq_server q) ||
     negb (ud_source_port datagram =? DNS_SERVER_PORT) || (len packet <? 12) || negb (net_read_be16 packet 0 =? dq_identifier q)
  then n else
  with_dns (λ d, d <| dns_current :=
    match parse_response packet (len packet) with
    | Some (address, ttl) => q <| dq_address := address |> <| dq_ttl_seconds := ttl |> <| dq_found := true |> <| dq_complete := true |>
    | None => q <| dq_complete := true |>
    end |>) n.

(** [src/net/name/dns.c:172-178] dns_init *)
Definition dns_init n : bool * inet D :=
  udp_bind DNS_CLIENT_PORT UDP_DNS
    (with_dns (λ d, Dns (replicate NET_DEVICE_MAX_COUNT (DnsServerEntry 0 0)) (replicate DNS_CACHE_CAPACITY dns_cache_zero) dns_query_zero false
                      (dns_next_identifier d)) n).

(** [src/net/name/dns.c:44-53] server_entry *)
Definition server_rows (d : dns) : list Z := ds_device <$> dns_servers d.

(** [src/net/name/dns.c:180-186] dns_set_server *)
Definition dns_set_server (dev server : Z) n : bool * inet D :=
  if (dev =? 0) || (server =? 0) then (false, n) else
  match find_or_free_row (server_rows (dnss n)) dev with
  | None => (false, n)
  | Some i => (true, with_dns (λ d, d <| dns_servers := aset (dns_servers d) i (DnsServerEntry dev server) |>) n)
  end.

(** [src/net/name/dns.c:188-193] dns_get_server *)
Definition dns_get_server (dev : Z) n : Z :=
  if dev =? 0 then 0 else
  match find_row (server_rows (dnss n)) dev with
  | Some i => ds_address (aget (DnsServerEntry 0 0) (dns_servers (dnss n)) i)
  | None => 0
  end.

(** An answer, or the packet, the server and the name of a call that waits.
    [src/net/name/dns.c:198-242] dns_resolve_ipv4 *)
Definition resolve_start (dev : Z) (hostname : list Z) (timeout : Z) n : (dns_result * option Z + list Z * Z * list Z) * inet D :=
  if (dev =? 0) || (timeout <? 100) then (inl (DNS_RESULT_INVALID, None), n) else
  match ipv4_parse_address hostname with
  | Some address => (inl (DNS_RESULT_OK, Some address), n)
  | None =>
      match normalize_hostname DNS_HOSTNAME_CAPACITY hostname with
      | None => (inl (DNS_RESULT_INVALID, None), n)
      | Some name =>
          match cache_lookup (clock n) name (dns_cache (dnss n)) with
          | Some address => (inl (DNS_RESULT_OK, Some address), n)
          | None =>
              let server := dns_get_server dev n in
              if server =? 0 then (inl (DNS_RESULT_NO_SERVER, None), n) else
              if dns_lock (dnss n) then (inl (DNS_RESULT_BUSY, None), n) else
              let identifier := u16 (dns_next_identifier (dnss n) + 1) in
              let n := with_dns (λ d, d <| dns_next_identifier := identifier |>) n in
              match query_packet identifier name with
              | None => (inl (DNS_RESULT_INVALID, None), n)
              | Some packet =>
                  (inr (packet, server, name),
                   with_dns (λ d, d <| dns_lock := true |> <| dns_current := DnsQuery dev server identifier true false false 0 0 |>) n)
              end
          end
      end
  end.

Definition resolve_end n : inet D := with_dns (λ d, d <| dns_current := (dns_current d) <| dq_active := false |> |> <| dns_lock := false |>) n.

(** A round of a call that began at [start]; [last_send] is the time of the last packet, all ones at first.
    [src/net/name/dns.c:244-266] dns_resolve_ipv4 *)
Definition resolve_round (dev server : Z) (packet name : list Z) (start timeout last_send : Z) n : (dns_result * option Z + Z) * inet D :=
  let now := clock n in
  if negb (u64 (now - start) <? timeout) then (inl (DNS_RESULT_TIMEOUT, None), resolve_end n) else
  let due := (last_send =? 2 ^ 64 - 1) || (DNS_RETRY_MS <=? u64 (now - last_send)) in
  let '(sent, n) := if due then udp_send dev server DNS_CLIENT_PORT DNS_SERVER_PORT packet n else (IPV4_SEND_OK, n) in
  if sent =? IPV4_SEND_ERROR then (inl (DNS_RESULT_NETWORK, None), resolve_end n) else
  let q := dns_current (dnss n) in
  if dq_complete q then
    if dq_found q then
      (inl (DNS_RESULT_OK, Some (dq_address q)),
       resolve_end (with_dns (λ d, d <| dns_cache := cache_store now name (dq_address q) (dq_ttl_seconds q) (dns_cache d) |>) n))
    else (inl (DNS_RESULT_NOT_FOUND, None), resolve_end n)
  else (inr (if due then now else last_send), n).
End dns.
