(* ===== verification/Dhcp.v ===== *)
(** * DHCP (src/src/net/config/dhcp.c)

    A client for each device: it asks for an address until a server gives one, and
    again when the lease is over.  The lines of the log are left out. *)

From S2P Require Import Prelude NetBytes NetState Ethernet Arp Inet Dns.

(** [src/net/config/dhcp.c:10-10] DHCP_CLIENT_PORT *)
Definition DHCP_CLIENT_PORT : Z := 68.
(** [src/net/config/dhcp.c:11-11] DHCP_SERVER_PORT *)
Definition DHCP_SERVER_PORT : Z := 67.
(** [src/net/config/dhcp.c:12-12] DHCP_PACKET_CAPACITY *)
Definition DHCP_PACKET_CAPACITY : Z := 576.
(** [src/net/config/dhcp.c:13-13] DHCP_MAGIC_COOKIE *)
Definition DHCP_MAGIC_COOKIE : Z := 1669485411.
(** [src/net/config/dhcp.c:14-14] DHCP_RETRY_MS *)
Definition DHCP_RETRY_MS : Z := 4000.
(** [src/net/config/dhcp.c:15-15] DHCP_MAX_RETRIES *)
Definition DHCP_MAX_RETRIES : Z := 5.
(** [src/net/config/dhcp.c:17-17] DHCP_DISCOVER *)
Definition DHCP_DISCOVER : Z := 1.
(** [src/net/config/dhcp.c:18-18] DHCP_OFFER *)
Definition DHCP_OFFER : Z := 2.
(** [src/net/config/dhcp.c:19-19] DHCP_REQUEST *)
Definition DHCP_REQUEST : Z := 3.
(** [src/net/config/dhcp.c:20-20] DHCP_ACK *)
Definition DHCP_ACK : Z := 5.
(** [src/net/config/dhcp.c:21-21] DHCP_NAK *)
Definition DHCP_NAK : Z := 6.

(** [src/net/config/dhcp.c:53-61] append_option *)
Definition append_option (code : Z) (value packet : list Z) : option (list Z) :=
  if DHCP_PACKET_CAPACITY <=? len packet + 2 + len value then None else Some (packet ++ [code; len value] ++ value).

(** [src/net/config/dhcp.c:64-73] send_message *)
Definition message_header (transaction : Z) (mac : list Z) : list Z :=
  [1; 1; 6; 0] ++ net_write_be32 transaction ++ [0; 0] ++ net_write_be16 32768 ++ replicate 16 0 ++ mac ++ replicate 202 0 ++
  net_write_be32 DHCP_MAGIC_COOKIE.

(** [src/net/config/dhcp.c:64-86] send_message *)
Definition message_bytes (mac : list Z) (c : dhcp_client) (message_type : Z) : option (list Z) :=
  match append_option 53 [message_type] (message_header (dh_transaction c) mac) with
  | None => None
  | Some packet =>
      match (if message_type =? DHCP_DISCOVER then append_option 55 [1; 3; 6; 51] packet
             else match append_option 50 (net_write_be32 (dh_offered_address c)) packet with
                  | Some packet => append_option 54 (net_write_be32 (dh_server c)) packet
                  | None => None
                  end) with
      | Some packet => Some (packet ++ [255])
      | None => None
      end
  end.

(** An option into the client or the type of the message.
    [src/net/config/dhcp.c:102-108] parse_options *)
Definition take_option (code : Z) (value : list Z) (c : dhcp_client) (message_type : Z) : dhcp_client * Z :=
  let size := len value in
  if (code =? 53) && (size =? 1) then (c, byte_at value 0)
  else if (code =? 54) && (size =? 4) then (c <| dh_server := net_read_be32 value 0 |>, message_type)
  else if (code =? 1) && (size =? 4) then (c <| dh_netmask := net_read_be32 value 0 |>, message_type)
  else if (code =? 3) && (4 <=? size) then (c <| dh_gateway := net_read_be32 value 0 |>, message_type)
  else if (code =? 6) && (4 <=? size) then (c <| dh_dns := net_read_be32 value 0 |>, message_type)
  else if (code =? 51) && (size =? 4) then (c <| dh_lease_seconds := net_read_be32 value 0 |>, message_type)
  else (c, message_type).

(** A byte at least in each round.
    [src/net/config/dhcp.c:94-110] parse_options *)
Fixpoint options_loop (fuel : nat) (packet : list Z) (offset : Z) (c : dhcp_client) (message_type : Z) : dhcp_client * Z :=
  match fuel with
  | O => (c, message_type)
  | S fuel =>
      if negb (offset <? len packet) then (c, message_type) else
      let code := byte_at packet offset in
      let offset := u16 (offset + 1) in
      if code =? 255 then (c, message_type)
      else if code =? 0 then options_loop fuel packet offset c message_type
      else if len packet <=? offset then (c, message_type) else
      let size := byte_at packet offset in
      let offset := u16 (offset + 1) in
      if len packet <? offset + size then (c, message_type) else
      let '(c, message_type) := take_option code (take (Z.to_nat size) (drop (Z.to_nat offset) packet)) c message_type in
      options_loop fuel packet (u16 (offset + size)) c message_type
  end.
(** [src/net/config/dhcp.c:92-111] parse_options *)
Definition parse_options (packet : list Z) (c : dhcp_client) : dhcp_client * Z := options_loop (length packet) packet 240 c 0.

Section dhcp.
Context {D : Type} `{Nic D}.
Implicit Types (n : inet D).

Definition client_at n (i : Z) : dhcp_client := aget dhcp_client_zero (dhcps n) i.
Definition put_client (i : Z) (c : dhcp_client) n : inet D := n <| dhcps := aset (dhcps n) i c |>.
(** [src/net/config/dhcp.c:47-51] find_client *)
Definition find_client (dev : Z) n : option Z := for_first (λ i, dh_device (client_at n i) =? dev) NET_DEVICE_MAX_COUNT 0.

Definition mac_of (dev : Z) n : list Z := match memory n !! dev with Some d => d_mac d | None => [] end.

(** [src/net/config/dhcp.c:63-90] send_message *)
Definition send_message (c : dhcp_client) (message_type : Z) n : bool * inet D :=
  match message_bytes (mac_of (dh_device c) n) c message_type with
  | None => (false, n)
  | Some packet =>
      let '(result, n) := udp_send_from (dh_device c) 0 IPV4_BROADCAST DHCP_CLIENT_PORT DHCP_SERVER_PORT packet n in
      (result =? IPV4_SEND_OK, n)
  end.

(** [src/net/config/dhcp.c:118-121] receive_message *)
Definition message_for (datagram : udp_datagram) (c : dhcp_client) n : bool :=
  let packet := ud_payload datagram in
  (byte_at packet 0 =? 2) && (byte_at packet 1 =? 1) && (byte_at packet 2 =? 6) && (net_read_be32 packet 4 =? dh_transaction c) &&
  (net_read_be32 packet 236 =? DHCP_MAGIC_COOKIE) && bool_decide (take 6 (drop 28 packet) = take 6 (mac_of (dh_device c) n)).

(** An acknowledged address is configured.
    [src/net/config/dhcp.c:133-140] receive_message *)
Definition bind_address (i : Z) (address : Z) n : inet D :=
  let c := client_at n i in
  let address := if address =? 0 then dh_offered_address c else address in
  let c := if dh_netmask c =? 0 then c <| dh_netmask := 4294967040 |> else c in
  let n := put_client i c n in
  let '(ok, n) := ipv4_configure (dh_device c) address (dh_netmask c) (dh_gateway c) n in
  if negb ok then n else
  let n := if negb (dh_dns c =? 0) then (dns_set_server (dh_device c) (dh_dns c) n).2 else n in
  put_client i (c <| dh_lease_start_ms := clock n |> <| dh_state := DHCP_STATE_BOUND |>) n.

(** [src/net/config/dhcp.c:113-150] receive_message *)
Definition dhcp_receive (datagram : udp_datagram) n : inet D :=
  let packet := ud_payload datagram in
  if negb (ud_source_port datagram =? DHCP_SERVER_PORT) || (len packet <? 241) then n else
  match find_client (ud_device datagram) n with
  | None => n
  | Some i =>
      if negb (message_for datagram (client_at n i) n) then n else
      let '(c, message_type) := parse_options packet (client_at n i) in
      let n := put_client i c n in
      if (message_type =? DHCP_OFFER) && bool_decide (dh_state c = DHCP_STATE_SELECTING) then
        let c := c <| dh_offered_address := net_read_be32 packet 16 |> in
        if (dh_offered_address c =? 0) || (dh_server c =? 0) then put_client i c n else
        let c := c <| dh_state := DHCP_STATE_REQUESTING |> <| dh_retries := 0 |> <| dh_last_send_ms := clock n |> in
        (send_message c DHCP_REQUEST (put_client i c n)).2
      else if (message_type =? DHCP_ACK) && bool_decide (dh_state c = DHCP_STATE_REQUESTING) then bind_address i (net_read_be32 packet 16) n
      else if message_type =? DHCP_NAK then put_client i (c <| dh_state := DHCP_STATE_INIT |> <| dh_retries := 0 |>) n
      else n
  end.

(** [src/net/config/dhcp.c:152-155] dhcp_init *)
Definition dhcp_init n : bool * inet D :=
  udp_bind DHCP_CLIENT_PORT UDP_DHCP (n <| dhcps := replicate NET_DEVICE_MAX_COUNT dhcp_client_zero |>).

(** [src/net/config/dhcp.c:157-168] dhcp_start *)
Definition dhcp_start (dev : Z) n : bool * inet D :=
  match memory n !! dev with
  | None => (false, n)
  | Some d =>
      if negb (d_registered d) || bool_decide (is_Some (find_client dev n)) then (false, n) else
      match for_first (λ i, dh_device (client_at n i) =? 0) NET_DEVICE_MAX_COUNT 0 with
      | None => (false, n)
      | Some i =>
          (true, put_client i ((client_at n i) <| dh_device := dev |>
             <| dh_transaction := Z.lor (Z.lor 1346568192 (byte_at (d_mac d) 4 ≪ 8)) (byte_at (d_mac d) 5) |> <| dh_state := DHCP_STATE_INIT |>) n)
      end
  end.

(** [src/net/config/dhcp.c:172-195] dhcp_poll *)
Definition poll_client (now : Z) n (i : Z) : inet D :=
  let c := client_at n i in
  match memory n !! dh_device c with
  | None => n
  | Some d =>
      if negb (d_link_up d) then n else
      if bool_decide (dh_state c = DHCP_STATE_BOUND) then
        if negb (dh_lease_seconds c =? 0) && (u64 (dh_lease_seconds c * 1000) <=? u64 (now - dh_lease_start_ms c))
        then put_client i (c <| dh_state := DHCP_STATE_INIT |> <| dh_retries := 0 |>) n
        else n
      else if negb (bool_decide (dh_state c = DHCP_STATE_INIT)) && (u64 (now - dh_last_send_ms c) <? DHCP_RETRY_MS) then n
      else if DHCP_MAX_RETRIES <=? dh_retries c then put_client i (c <| dh_state := DHCP_STATE_INIT |> <| dh_retries := 0 |>) n
      else
        let type := if bool_decide (dh_state c = DHCP_STATE_REQUESTING) then DHCP_REQUEST else DHCP_DISCOVER in
        let c := if bool_decide (dh_state c = DHCP_STATE_INIT) then c <| dh_state := DHCP_STATE_SELECTING |> else c in
        let c := c <| dh_last_send_ms := now |> <| dh_retries := u8 (dh_retries c + 1) |> in
        (send_message c type (put_client i c n)).2
  end.
(** [src/net/config/dhcp.c:170-197] dhcp_poll *)
Definition dhcp_poll (now : Z) n : inet D := foldl (poll_client now) n (seqZ 0 (Z.of_nat NET_DEVICE_MAX_COUNT)).

(** [src/net/config/dhcp.c:199-203] dhcp_is_bound *)
Definition dhcp_is_bound (dev : Z) n : bool :=
  match find_client dev n with Some i => bool_decide (dh_state (client_at n i) = DHCP_STATE_BOUND) | None => false end.
End dhcp.
