(* ===== verification/NetStack.v ===== *)
(** * The network put together (src/src/net/core/net_service.c)

    The handlers of Ethernet, IPv4 and UDP are the functions of the layers above, and
    TCP runs over the real IPv4: [ipv4_layer] is its interface.  The wireless part
    of the service is left out. *)

From S2P Require Import Prelude NetBytes NetState Ethernet Arp Inet Dns Dhcp Ring Tcp.

#[export] Instance ipv4_layer {D} `{Nic D} : Ipv4 (inet D) := {|
  Tcp.ipv4_send_from := Inet.ipv4_send_from;
  Tcp.ipv4_get_config := λ dev n, match Inet.ipv4_get_config dev n with Some c => Some (ic_address c, ic_netmask c, ic_gateway c) | None => None end;
  net_devices := λ n, net_device_get n <$> seqZ 0 (device_count (reg n));
|}.

Section stack.
Context {D : Type} `{Nic D}.
Implicit Types (t : tcp (inet D)) (n : inet D).

Definition on_net (f : inet D → inet D) t : tcp (inet D) := t <| net := f (net t) |>.

(** ** Handlers *)

Definition udp_deliver (h : udp_handler) (datagram : udp_datagram) : inet D → inet D :=
  match h with UDP_DNS => dns_receive datagram | UDP_DHCP => dhcp_receive datagram end.

(** [None] is the overrun of [icmp_receive]. *)
Definition ipv4_deliver (h : ipv4_handler) (packet : ipv4_packet) t : option (tcp (inet D)) :=
  match h with
  | IPV4_ICMP => match icmp_receive packet (net t) with Some n => Some (t <| net := n |>) | None => None end
  | IPV4_UDP => Some (on_net (λ n, match udp_receive packet n with Some (h, datagram) => udp_deliver h datagram n | None => n end) t)
  | IPV4_TCP => Some (receive_segment (clock (net t)) (ip_device packet) (ip_source packet) (ip_destination packet) (ip_payload packet) t)
  end.

Definition ethernet_deliver (h : ethernet_handler) (packet : ethernet_packet) t : option (tcp (inet D)) :=
  match h with
  | ETHERNET_ARP => Some (on_net (arp_receive packet) t)
  | ETHERNET_IPV4 =>
      let '(r, n) := ipv4_receive packet (net t) in
      match r with Some (h, packet) => ipv4_deliver h packet (t <| net := n |>) | None => Some (t <| net := n |>) end
  end.

(** A frame through all layers. *)
Definition receive_frame (dev : Z) (frame : list Z) t : option (tcp (inet D)) :=
  let '(r, n) := ethernet_receive dev frame (net t) in
  match r with Some (h, packet) => ethernet_deliver h packet (t <| net := n |>) | None => Some (t <| net := n |>) end.

(** ** The service *)

(** [src/net/core/net_service.c:20-20] NET_POLL_BUDGET *)
Definition NET_POLL_BUDGET : nat := 32.

(** The tables of the protocols, in the order of the code; an initialisation that fails stops.
    [src/net/core/net_service.c:26-39] net_service_init *)
Definition protocols_init n : bool * tcp (inet D) :=
  let n := ethernet_init (net_device_registry_init n) in
  let chain (f : inet D → bool * inet D) (r : bool * inet D) := if r.1 then f r.2 else r in
  let r := chain udp_init (chain ipv4_init (arp_init n)) in
  let '(ok, n) := chain icmp_init (chain dhcp_init (chain dns_init (chain (ipv4_register_handler IPV4_PROTOCOL_TCP IPV4_TCP) r))) in
  (ok, tcp_init n).

Definition is_wlan (name : list Z) : bool := bool_decide (take 4 name = [119; 108; 97; 110]).
(** [src/net/core/net_service.c:47-53] net_service_init *)
Definition start_dhcp n : inet D :=
  foldl (λ n i, let dev := net_device_get n i in
    match memory n !! dev with
    | Some d => if is_wlan (d_name d) then n else (dhcp_start dev n).2
    | None => n
    end) n (seqZ 0 (device_count (reg n))).

(** [src/net/core/net_service.c:68-71] net_service_thread *)
Fixpoint drain (budget : nat) (dev : Z) t : option (tcp (inet D)) :=
  match budget with
  | O => Some t
  | S budget =>
      match net_device_dequeue dev (net t) with
      | (Some frame, n) => match receive_frame dev frame (t <| net := n |>) with Some t => drain budget dev t | None => None end
      | (None, n) => Some (t <| net := n |>)
      end
  end.
Definition drain_all t : option (tcp (inet D)) :=
  foldl (λ r i, match r with Some t => drain NET_POLL_BUDGET (net_device_get (net t) i) t | None => None end) (Some t)
    (seqZ 0 (device_count (reg (net t)))).

(** A round, with the time of the last look at the cache of ARP.
    [src/net/core/net_service.c:64-82] net_service_thread *)
Definition service_round (last_housekeeping : Z) t : option (Z * tcp (inet D)) :=
  match drain_all (on_net (net_device_poll_all (Z.of_nat NET_POLL_BUDGET)) t) with
  | None => None
  | Some t =>
      let now := clock (net t) in
      let t := tcp_poll now (on_net (dhcp_poll now) t) in
      if 1000 <=? u64 (now - last_housekeeping) then Some (now, on_net (arp_poll now) t) else Some (last_housekeeping, t)
  end.
End stack.
