(* ===== verification/NetSpec.v ===== *)
(** * Packets arrive as they were sent

    What leaves a device as a frame is, on another machine, the packet that was
    given to IPv4, UDP or TCP. *)

From S2P Require Import Prelude NetBytes Ring Tcp TcpSpec TcpWire NetState Ethernet Arp Inet Dns Dhcp NetStack.

Definition is_mac (mac : list Z) : Prop := length mac = 6%nat ∧ is_bytes mac.

(** ** Ethernet *)

Section ethernet.
Context {D : Type} `{Nic D}.
Implicit Types (n : inet D).

Definition transmits (dev : Z) (frame : list Z) n n' : Prop := nic_transmit dev frame (hardware n) = (true, hardware n').

Lemma net_device_transmit_ok dev frame n n' : net_device_transmit dev frame n = (true, n') →
  transmits dev frame n n' ∧ arps n' = arps n ∧ ips n' = ips n ∧ eth n' = eth n.
Proof.
  unfold net_device_transmit, transmits. destruct (memory n !! dev) as [d|]; [|done]. destruct (_ || _); [done|].
  destruct (nic_transmit dev frame (hardware n)) as [ok hw]. destruct ok; cbn [negb]; [|done]. by intros [= <-].
Qed.

Lemma ethernet_send_ok dev mac ethertype payload n n' : ethernet_send dev mac ethertype payload n = (true, n') →
  ∃ d, memory n !! dev = Some d ∧ transmits dev (ethernet_frame (take 6 mac) (d_mac d) ethertype payload) n n' ∧
    mac_is_valid_destination mac = true ∧ ETHERNET_TYPE_MINIMUM ≤ ethertype ∧ len payload ≤ d_mtu d.
Proof.
  unfold ethernet_send. destruct (memory n !! dev) as [d|]; [|done]. destruct (_ || _) eqn:C; [done|].
  destruct (eth_lock _); [done|]. apply orb_false_iff in C as [[C1 C2]%orb_false_iff C3]. apply negb_false_iff in C1. apply Z.ltb_ge in C2, C3.
  destruct (net_device_transmit dev _ n) as [sent n1] eqn:T. destruct sent; [|done]. intros [= <-].
  apply net_device_transmit_ok in T as (T&_). by exists d.
Qed.

(** The handler of a type. *)
Definition ethernet_handler_of n (ethertype : Z) : option ethernet_handler :=
  match for_first (handles_type n ethertype) ETHERNET_HANDLER_CAPACITY 0 with
  | Some i => eh_handler (aget handler_zero (eth_handlers (eth n)) i)
  | None => None
  end.

Definition received n : inet D := count_eth (λ s, s <| es_received := bump (es_received s) |>) n.

Lemma ethernet_receive_frame dev destination source ethertype payload h n : dev ≠ 0 → is_mac destination → is_mac source →
  is_u16 ethertype → ETHERNET_TYPE_MINIMUM ≤ ethertype → is_bytes payload → ethernet_handler_of n ethertype = Some h →
  ethernet_receive dev (ethernet_frame destination source ethertype payload) n =
    (Some (h, EthernetPacket dev destination source ethertype payload), received n).
Proof.
  intros Hd [Ld Bd] [Ls Bs] Ht Hm Bp Hh. unfold ethernet_receive. cbv zeta. unfold ethernet_frame.
  assert (length (destination ++ source) = 12%nat) as L12 by (rewrite length_app; lia).
  rewrite (app_assoc destination). rewrite read16_at by (done || lia || by apply is_bytes_app).
  rewrite <- (app_assoc destination).
  destruct (Z.eqb_spec dev 0); [done|]. cbn [orb]. change ETHERNET_HEADER_LENGTH with 14.
  destruct (Z.ltb_spec (len (destination ++ source ++ net_write_be16 ethertype ++ payload)) 14) as [X|_].
  { exfalso. unfold len in X. rewrite !length_app, length_be16 in X. lia. }
  destruct (Z.ltb_spec ethertype ETHERNET_TYPE_MINIMUM); [lia|].
  rewrite take_app_length' by done. rewrite (drop_app_length' destination) by done. rewrite take_app_length' by done.
  assert (drop (Z.to_nat 14) (destination ++ source ++ net_write_be16 ethertype ++ payload) = payload) as ->.
  { rewrite (app_assoc destination), (app_assoc (destination ++ source)). apply drop_app_length'. by rewrite length_app, L12. }
  fold (received n). assert (∀ i, handles_type (received n) ethertype i = handles_type n ethertype i) as E by done.
  unfold ethernet_handler_of in Hh. change (for_first (handles_type (received n) ethertype)) with (for_first (handles_type n ethertype)).
  destruct (for_first (handles_type n ethertype) ETHERNET_HANDLER_CAPACITY 0) as [i|]; [|done].
  change (eth_handlers (eth (received n))) with (eth_handlers (eth n)). by rewrite Hh.
Qed.
End ethernet.

(** ** IPv4 *)

Section ipv4.
Context {D : Type} `{Nic D}.
Implicit Types (n : inet D).

(** A header before and behind its checksum. *)
Definition header_front (total identification protocol : Z) : list Z :=
  [69; 0] ++ net_write_be16 total ++ net_write_be16 identification ++ net_write_be16 16384 ++ [IPV4_DEFAULT_TTL; protocol].
Definition header_back (source destination : Z) : list Z := net_write_be32 source ++ net_write_be32 destination.

Lemma header_split total identification protocol checksum source destination :
  ipv4_header total identification protocol checksum source destination =
  header_front total identification protocol ++ net_write_be16 checksum ++ header_back source destination.
Proof. unfold ipv4_header, header_front, header_back. by rewrite <- !app_assoc. Qed.

Lemma header_front_bytes total identification protocol : is_u8 protocol → is_bytes (header_front total identification protocol).
Proof.
  intros Hp. unfold header_front. assert (is_u8 69 ∧ is_u8 0 ∧ is_u8 IPV4_DEFAULT_TTL) as (A&B&C) by (unfold is_u8, IPV4_DEFAULT_TTL; lia).
  auto 10 with bytes.
Qed.
Lemma header_back_bytes source destination : is_bytes (header_back source destination).
Proof. unfold header_back. auto with bytes. Qed.

(** The fields of a packet that was put together, whatever follows the header. *)
Lemma header_fields total identification protocol checksum source destination payload :
  is_u16 total → is_u8 protocol → is_u32 source → is_u32 destination → is_bytes payload →
  let data := ipv4_header total identification protocol checksum source destination ++ payload in
  byte_at data 0 = 69 ∧ net_read_be16 data 2 = total ∧ net_read_be16 data 6 = 16384 ∧ byte_at data 8 = IPV4_DEFAULT_TTL ∧
  byte_at data 9 = protocol ∧ net_read_be32 data 12 = source ∧ net_read_be32 data 16 = destination ∧ drop 20 data = payload ∧
  take 20 data = ipv4_header total identification protocol checksum source destination.
Proof.
  intros Ht Hp Hs Hd Hb. cbv zeta. unfold ipv4_header. rewrite <- !app_assoc.
  assert (is_u8 69 ∧ is_u8 0 ∧ is_u8 IPV4_DEFAULT_TTL) as (A&B&C) by (unfold is_u8, IPV4_DEFAULT_TTL; lia).
  assert (is_bytes [69; 0] ∧ is_bytes [IPV4_DEFAULT_TTL; protocol]) as [E1 E2] by auto with bytes.
  split; [done|]. split; [apply (read16_at 2 [69; 0]); [done..| |done]; auto 20 with bytes|].
  split. { rewrite (app_assoc (net_write_be16 total)), (app_assoc [69; 0]). apply read16_at; [done| | |unfold is_u16; lia]; auto 20 with bytes. }
  split; [done|]. split; [done|].
  split. { change (net_read_be32 ((([69; 0] ++ net_write_be16 total ++ net_write_be16 identification ++ net_write_be16 16384 ++ [IPV4_DEFAULT_TTL; protocol] ++
      net_write_be16 checksum) ++ net_write_be32 source ++ net_write_be32 destination ++ payload)) 12 = source). apply read32_at; [done| | |done]; auto 20 with bytes. }
  split. { change (net_read_be32 ((([69; 0] ++ net_write_be16 total ++ net_write_be16 identification ++ net_write_be16 16384 ++ [IPV4_DEFAULT_TTL; protocol] ++
      net_write_be16 checksum ++ net_write_be32 source) ++ net_write_be32 destination ++ payload)) 16 = destination). apply read32_at; [done| | |done]; auto 20 with bytes. }
  done.
Qed.

(** The handler of a protocol. *)
Definition ipv4_handler_of n (protocol : Z) : option ipv4_handler :=
  match for_first (handles_protocol (ips n) protocol) IPV4_HANDLER_CAPACITY 0 with
  | Some k => ih_handler (aget ip_handler_zero (ip_handlers (ips n)) k)
  | None => None
  end.

Lemma length_ipv4_bytes identification protocol source destination payload :
  len (ipv4_bytes identification protocol source destination payload) = 20 + len payload.
Proof. unfold ipv4_bytes, len. cbv zeta. rewrite length_app. change (length (ipv4_header _ _ _ _ _ _)) with 20%nat. lia. Qed.

Lemma ipv4_receive_bytes dev destination_mac source_mac identification protocol source destination payload h n :
  is_u8 protocol → is_u32 source → is_u32 destination → is_bytes payload → len payload ≤ 65000 →
  accepts_destination (find_interface dev n) destination = true → ipv4_handler_of n protocol = Some h →
  ipv4_receive (EthernetPacket dev destination_mac source_mac ETHERNET_TYPE_IPV4 (ipv4_bytes identification protocol source destination payload)) n =
    (Some (h, Ipv4Packet dev source destination protocol IPV4_DEFAULT_TTL payload), n).
Proof.
  intros Hp Hs Hd Hb Hl Ha Hh. unfold ipv4_receive. cbn [ep_payload ep_device].
  pose proof (length_ipv4_bytes identification protocol source destination payload) as L.
  set (total := u16 (IPV4_HEADER_MIN_LENGTH + len payload)).
  assert (total = 20 + len payload) as Et by (unfold total; change IPV4_HEADER_MIN_LENGTH with 20; apply u16_small; unfold len in *; lia).
  assert (is_u16 total) as Tr by (unfold is_u16; unfold len in *; lia).
  unfold ipv4_bytes in *. cbv zeta in *. fold total in L |- *. set (c := ipv4_checksum _) in *.
  destruct (header_fields total identification protocol c source destination payload Tr Hp Hs Hd Hb) as (F0&F2&F6&F8&F9&F12&F16&Fd&Ft).
  set (data := ipv4_header total identification protocol c source destination ++ payload) in *.
  rewrite F0. change (negb (69 ≫ 4 =? 4)) with false. change IPV4_HEADER_MIN_LENGTH with 20 in *.
  destruct (Z.ltb_spec (len data) 20); [unfold len in *; lia|]. cbn [orb].
  assert (ipv4_header_ok data = true) as ->.
  { unfold ipv4_header_ok. cbv zeta. rewrite F0, F2. change (Z.land 69 15 * 4) with 20. change (Z.to_nat 20) with 20%nat. rewrite Ft.
    assert (ipv4_checksum (ipv4_header total identification protocol c source destination) = 0) as ->.
    { unfold c. rewrite !header_split. apply checksum_verifies; [by apply header_front_bytes|apply header_back_bytes|by exists 5%nat|done]. }
    change IPV4_HEADER_MIN_LENGTH with 20. repeat (apply andb_true_intro; split); unfold len in *; lia. }
  cbn [negb]. rewrite F6. change (Z.land 16384 16383 =? 0) with true. cbn [negb]. rewrite F16, Ha. cbn [negb].
  assert (parse_packet dev data = Ipv4Packet dev source destination protocol IPV4_DEFAULT_TTL payload) as ->.
  { unfold parse_packet. cbv zeta. rewrite F0, F2, F8, F9, F12, F16. change (Z.land 69 15 * 4) with 20. change (Z.to_nat 20) with 20%nat. rewrite Fd.
    rewrite take_ge; [done|]. unfold len in *. lia. }
  cbn [ip_protocol]. unfold ipv4_handler_of in Hh. destruct (for_first _ _ _) as [k|]; [|done]. by rewrite Hh.
Qed.

Lemma find_interface_received n dev : find_interface dev (received n) = find_interface dev n.
Proof. done. Qed.
End ipv4.

(** ** From one machine to another *)

(** The hardware addresses that are known have six bytes. *)
Definition macs_ok {D} (n : inet D) : Prop :=
  map_Forall (λ _ d, is_mac (d_mac d)) (memory n) ∧ Forall (λ e, is_mac (ae_mac e)) (arp_cache (arps n)).

Lemma take_mac mac : is_mac mac → take 6 mac = mac.
Proof. intros [L _]. apply take_ge. lia. Qed.
Lemma broadcast_is_mac : is_mac broadcast_mac.
Proof. split; [done|]. apply (bool_decide_unpack _). vm_compute. exact I. Qed.

Section send.
Context {D : Type} `{Nic D}.
Implicit Types (n : inet D).

Lemma cache_mac n i : macs_ok n → is_mac (ae_mac (cache_at (arps n) i)).
Proof.
  intros [_ M]. unfold cache_at, aget. destruct (nth_in_or_default (Z.to_nat i) (arp_cache (arps n)) arp_entry_zero) as [Hin|E].
  - rewrite Forall_forall in M. apply M. by apply list_elem_of_In.
  - rewrite E. split; [done|]. apply (bool_decide_unpack _). vm_compute. exact I.
Qed.

Lemma arp_lookup_some dev ipv4 n mac n' : arp_lookup dev ipv4 n = (Some mac, n') →
  n' = n ∧ ∃ i, find_entry (arps n) dev ipv4 = Some i ∧ ae_state (cache_at (arps n) i) = ARP_ENTRY_VALID ∧
    u64 (clock n - ae_updated_ms (cache_at (arps n) i)) < ARP_CACHE_TTL_MS ∧ mac = ae_mac (cache_at (arps n) i).
Proof.
  unfold arp_lookup. destruct (_ || _); [done|]. destruct (find_entry (arps n) dev ipv4) as [i|] eqn:F; [|done]. cbv zeta.
  destruct (bool_decide (ae_state _ = _)) eqn:V; cbn [negb]; [|done]. destruct (Z.ltb_spec (u64 (clock n - ae_updated_ms (cache_at (arps n) i))) ARP_CACHE_TTL_MS); [|done].
  intros [= <- <-]. apply bool_decide_eq_true_1 in V. split; [done|]. by exists i.
Qed.

Lemma arp_resolve_some dev ipv4 n mac n' : arp_resolve dev ipv4 n = (Some mac, n') → arp_lookup dev ipv4 n = (Some mac, n').
Proof.
  unfold arp_resolve. destruct (arp_lookup dev ipv4 n) as [[m|] n1]; [done|]. destruct (_ =? 0); [done|].
  destruct (ask _ _ _ _) as [[] a]; [|done]. by destruct (send_packet _ _ _ _ _ _).
Qed.

Lemma ipv4_transmit_ok dev mac source destination protocol payload n n' : macs_ok n → is_mac mac →
  ipv4_transmit dev mac source destination protocol payload n = (IPV4_SEND_OK, n') →
  ∃ own identification, is_mac own ∧
    transmits dev (ethernet_frame mac own ETHERNET_TYPE_IPV4 (ipv4_bytes identification protocol source destination payload)) n n'.
Proof.
  intros [M _] Hm. unfold ipv4_transmit. cbv zeta. destruct (ip_lock (ips n)); [done|]. set (n1 := n <| ips := _ |>).
  destruct (ethernet_send _ _ _ _ n1) as [sent n2] eqn:E. destruct sent; [|done]. intros [= <-].
  apply ethernet_send_ok in E as (d&Md&T&_). rewrite take_mac in T by done. exists (d_mac d), (ip_next_identification (ips n)).
  split; [exact (M dev d Md)|exact T].
Qed.

Lemma ipv4_send_from_ok dev source destination protocol payload n n' : macs_ok n →
  Inet.ipv4_send_from dev source destination protocol payload n = (IPV4_SEND_OK, n') →
  len payload ≤ IPV4_PAYLOAD_MAX_LENGTH ∧ ∃ mac own identification, is_mac mac ∧ is_mac own ∧
    transmits dev (ethernet_frame mac own ETHERNET_TYPE_IPV4 (ipv4_bytes identification protocol source destination payload)) n n'.
Proof.
  intros M. unfold Inet.ipv4_send_from. cbv zeta. destruct (_ || _) eqn:C; [done|]. apply orb_false_iff in C as [_ C]. apply Z.ltb_ge in C.
  destruct (_ && _); [done|]. intros E. split; [done|]. destruct (destination =? IPV4_BROADCAST).
  - apply ipv4_transmit_ok in E as (own&id&Ho&T); [|done|apply broadcast_is_mac]. exists broadcast_mac, own, id.
    split; [apply broadcast_is_mac|done].
  - destruct (next_hop _ _) as [hop|]; [|done]. destruct (arp_resolve dev hop n) as [[mac|] n1] eqn:R; [|done].
    apply arp_resolve_some, arp_lookup_some in R as (->&i&_&_&_&->). pose proof (cache_mac n i M) as Hm.
    apply ipv4_transmit_ok in E as (own&id&Ho&T); [|done|done]. by eexists _, own, id.
Qed.
End send.

(** A machine that takes packets of a protocol to an address from a device. *)
Definition takes {D} `{Nic D} (t : tcp (inet D)) (dev destination protocol : Z) (h : ipv4_handler) : Prop :=
  dev ≠ 0 ∧ ethernet_handler_of (net t) ETHERNET_TYPE_IPV4 = Some ETHERNET_IPV4 ∧ ipv4_handler_of (net t) protocol = Some h ∧
  accepts_destination (find_interface dev (net t)) destination = true.

Section arrive.
Context {D E : Type} `{Nic D, Nic E}.

Lemma packet_arrives dev source destination protocol payload (n n' : inet D) : macs_ok n →
  is_u8 protocol → is_u32 source → is_u32 destination → is_bytes payload →
  Inet.ipv4_send_from dev source destination protocol payload n = (IPV4_SEND_OK, n') →
  ∃ frame, transmits dev frame n n' ∧ ∀ (t : tcp (inet E)) there h, takes t there destination protocol h →
    receive_frame there frame t =
      ipv4_deliver h (Ipv4Packet there source destination protocol IPV4_DEFAULT_TTL payload) (on_net received t).
Proof.
  intros M Hp Hs Hd Hb S. apply ipv4_send_from_ok in S as (L&mac&own&id&Hm&Ho&T); [|done]. eexists. split; [exact T|].
  intros t there h (H1&H2&H3&H4). unfold receive_frame.
  assert (is_bytes (ipv4_bytes id protocol source destination payload)) as B.
  { unfold ipv4_bytes. cbv zeta. apply is_bytes_app; [|done]. rewrite header_split. pose proof (header_front_bytes (u16 (IPV4_HEADER_MIN_LENGTH + len payload)) id protocol Hp).
    pose proof (header_back_bytes source destination). auto with bytes. }
  rewrite (ethernet_receive_frame there mac own ETHERNET_TYPE_IPV4 _ ETHERNET_IPV4) by (done || (unfold is_u16, ETHERNET_TYPE_IPV4; lia)).
  cbn [ethernet_deliver]. change (net (t <| net := received (net t) |>)) with (received (net t)).
  change IPV4_PAYLOAD_MAX_LENGTH with 1480 in L. rewrite (ipv4_receive_bytes there mac own id protocol source destination payload h) by (done || lia). done.
Qed.

(** ** UDP *)

Definition udp_handler_of {F} (n : inet F) (port : Z) : option udp_handler :=
  match for_first (binds (udps n) port) UDP_BINDING_CAPACITY 0 with
  | Some k => ub_handler (aget binding_zero (udp_bindings (udps n)) k)
  | None => None
  end.

Lemma udp_receive_bytes {F} there source destination ttl source_port destination_port payload h (n : inet F) :
  is_u16 source_port → is_u16 destination_port → is_bytes payload → len payload ≤ UDP_PAYLOAD_MAX_LENGTH → udp_handler_of n destination_port = Some h →
  udp_receive (Ipv4Packet there source destination IPV4_PROTOCOL_UDP ttl (udp_bytes source_port destination_port payload)) n =
    Some (h, UdpDatagram there source destination source_port destination_port payload).
Proof.
  intros Hs Hd Hb Hl Hh. change UDP_PAYLOAD_MAX_LENGTH with 1472 in Hl. unfold udp_receive. cbn [ip_payload ip_device ip_source ip_destination]. cbv zeta.
  set (length := u16 (UDP_HEADER_LENGTH + len payload)).
  assert (length = 8 + len payload) as El by (unfold length; change UDP_HEADER_LENGTH with 8; apply u16_small; unfold len in *; lia).
  assert (is_u16 length) as Tr by (unfold is_u16; unfold len in *; lia). change UDP_HEADER_LENGTH with 8.
  set (data := udp_bytes source_port destination_port payload).
  assert (len data = 8 + len payload) as L by (unfold data, udp_bytes, len; rewrite !length_app, !length_be16; lia).
  assert (net_read_be16 data 0 = source_port ∧ net_read_be16 data 2 = destination_port ∧ net_read_be16 data 4 = length) as (E0&E2&E4).
  { unfold data, udp_bytes. fold length. assert (is_u16 0) by done. split_and!.
    - apply (read16_at 0 []); [done| | |done]; auto 10 with bytes.
    - apply (read16_at 2 (net_write_be16 source_port)); [done| | |done]; auto 10 with bytes.
    - rewrite (app_assoc (net_write_be16 source_port)). apply read16_at; [done| | |done]; auto 10 with bytes. }
  rewrite E0, E2, E4. destruct (Z.ltb_spec (len data) 8); [unfold len in *; lia|].
  destruct (Z.ltb_spec length 8); [unfold len in *; lia|]. destruct (Z.ltb_spec (len data) length); [lia|]. cbn [orb].
  assert (take (Z.to_nat (length - 8)) (drop (Z.to_nat 8) data) = payload) as ->.
  { change (drop (Z.to_nat 8) data) with payload. apply take_ge. unfold len in *. lia. }
  cbn [ud_destination_port]. unfold udp_handler_of in Hh. destruct (for_first _ _ _) as [k|]; [|done]. by rewrite Hh.
Qed.

(** C6: A datagram that is sent comes out of the other machine as it went in: the frame that leaves the device, given to any machine that
    has the address and a handler for the port, calls the handler with the same addresses, ports and bytes. *)
Theorem datagram_arrives dev source destination source_port destination_port payload (n n' : inet D) : macs_ok n →
  is_u32 source → is_u32 destination → is_u16 source_port → is_u16 destination_port → is_bytes payload →
  udp_send_from dev source destination source_port destination_port payload n = (IPV4_SEND_OK, n') →
  ∃ frame, transmits dev frame n n' ∧ ∀ (t : tcp (inet E)) there h, takes t there destination IPV4_PROTOCOL_UDP IPV4_UDP →
    udp_handler_of (net t) destination_port = Some h →
    receive_frame there frame t =
      Some (on_net (λ m, udp_deliver h (UdpDatagram there source destination source_port destination_port payload) (received m)) t).
Proof.
  intros M Hs Hd Hsp Hdp Hb. unfold udp_send_from. destruct (_ || _) eqn:C; [done|]. destruct (udp_lock _); [done|]. intros S.
  apply orb_false_iff in C as [_ C]. apply Z.ltb_ge in C. assert (is_bytes (udp_bytes source_port destination_port payload)) as B by (unfold udp_bytes; auto 10 with bytes).
  apply packet_arrives in S as (frame&T&R); [|done..]. exists frame. split; [exact T|]. intros t there h Ht Hh.
  rewrite (R t there IPV4_UDP Ht). cbn [ipv4_deliver]. unfold on_net at 1.
  change (net (on_net received t)) with (received (net t)). rewrite (udp_receive_bytes _ _ _ _ _ _ _ h) by done. done.
Qed.

(** C7: A segment of a connection comes to TCP on the other machine with the numbers and the bytes it was sent with, and a right checksum. *)
Theorem segment_arrives sequence flags data with_mss s (n n' : inet D) : macs_ok n → wire_ok sequence flags data s → (with_mss = true → data = []) →
  is_u32 (local_address s) → is_u32 (remote_address s) → let p := wire sequence flags data with_mss s in
  Inet.ipv4_send_from (p_device p) (p_source p) (p_destination p) (p_protocol p) (p_payload p) n = (IPV4_SEND_OK, n') →
  ∃ frame, transmits (device s) frame n n' ∧ ∀ (t : tcp (inet E)) there, takes t there (remote_address s) IPV4_PROTOCOL_TCP IPV4_TCP →
    receive_frame there frame t =
      Some (receive_segment (clock (net t)) there (local_address s) (remote_address s) (p_payload p) (on_net received t)) ∧
    let g := parse_segment there (p_payload p) in
    well_formed (p_payload p) = true ∧ tcp_checksum (local_address s) (remote_address s) (p_payload p) = 0 ∧
    net_read_be16 (p_payload p) 0 = local_port s ∧ net_read_be16 (p_payload p) 2 = remote_port s ∧
    g_sequence g = sequence ∧ g_flags g = flags ∧ g_data g = data ∧ g_window g = u16 (receive_window s).
Proof.
  intros M Hw Hm Hs Hd p S. destruct (wire_read 0 sequence flags data with_mss s Hw Hm) as (B&_).
  apply packet_arrives in S as (frame&T&R); [|done..]. exists frame. split; [exact T|]. intros t there Ht. split; [exact (R t there IPV4_TCP Ht)|].
  destruct (wire_read there sequence flags data with_mss s Hw Hm) as (_&W1&W2&W3&W4&W5&W6&W7&W8&_). by split_and!.
Qed.

(** ** An echo request *)

Definition echo_request_bytes (rest : list Z) : list Z :=
  let echo checksum := [ICMP_ECHO_REQUEST; 0] ++ net_write_be16 checksum ++ rest in echo (ipv4_checksum (echo 0)).

(** The answer: the same identifier, number and data. *)
Definition echo_reply_bytes (rest : list Z) : list Z :=
  let echo checksum := [ICMP_ECHO_REPLY; 0] ++ net_write_be16 checksum ++ rest in echo (ipv4_checksum (echo 0)).

Lemma echo_reply_fits checksum rest : let data := [ICMP_ECHO_REQUEST; 0] ++ net_write_be16 checksum ++ rest in
  len data ≤ IPV4_PAYLOAD_MAX_LENGTH → echo_reply data = Some (echo_reply_bytes rest).
Proof.
  intros data L. assert (length data = 4 + length rest)%nat as Ld by done. unfold echo_reply.
  set (back := replicate (Z.to_nat IPV4_PAYLOAD_MAX_LENGTH - length data) 0).
  assert (replicate (Z.to_nat IPV4_PAYLOAD_MAX_LENGTH) 0 = [] ++ replicate (length data) 0 ++ back) as ->.
  { unfold back. cbn [app]. rewrite <- replicate_add. f_equal. change IPV4_PAYLOAD_MAX_LENGTH with 1480 in *. unfold len in L. lia. }
  assert (∀ front, length front = 4%nat → take (length data) (front ++ rest ++ back) = front ++ rest) as T.
  { intros front Lf. rewrite app_assoc. apply take_app_length'. rewrite length_app. lia. }
  pose proof (memcpy_fits data [] (replicate (length data) 0) back (length_replicate _ _)) as E0. change (len (@nil Z)) with 0 in E0. rewrite E0.
  clear E0. cbn [mbind option_bind app].
  assert (data ++ back = ICMP_ECHO_REQUEST :: 0 :: u8 (checksum ≫ 8) :: u8 checksum :: rest ++ back) as -> by done. clearbody data.
  pose proof (store_fits [] ICMP_ECHO_REPLY ICMP_ECHO_REQUEST (0 :: u8 (checksum ≫ 8) :: u8 checksum :: rest ++ back)) as E1.
  pose proof (store_fits [ICMP_ECHO_REPLY; 0] 0 (u8 (checksum ≫ 8)) (u8 checksum :: rest ++ back)) as E2.
  pose proof (store_fits [ICMP_ECHO_REPLY; 0; 0] 0 (u8 checksum) (rest ++ back)) as E3.
  change (len (@nil Z)) with 0 in E1. change (len [ICMP_ECHO_REPLY; 0]) with 2 in E2. change (len [ICMP_ECHO_REPLY; 0; 0]) with 3 in E3. cbn [app] in E1, E2, E3.
  rewrite E1. cbn [mbind option_bind]. rewrite E2. cbn [mbind option_bind]. rewrite E3. cbn [mbind option_bind]. clear E1 E2 E3.
  pose proof (T [ICMP_ECHO_REPLY; 0; 0; 0] eq_refl) as T1. cbn [app] in T1. rewrite T1.
  set (c := ipv4_checksum _).
  pose proof (memcpy_fits (net_write_be16 c) [ICMP_ECHO_REPLY; 0] [0; 0] (rest ++ back) eq_refl) as E4. change (len [ICMP_ECHO_REPLY; 0]) with 2 in E4. cbn [app] in E4.
  rewrite E4. cbn [mbind option_bind]. f_equal. exact (T ([ICMP_ECHO_REPLY; 0] ++ net_write_be16 c) eq_refl).
Qed.

(** C12: A machine answers an echo request that a frame can carry if it has at most
    1480 bytes: the answer, to the sender, has the same identifier, number and
    data and a right checksum.  A longer one, up to the size of the frames the
    devices accept, is copied past the end of the 1480 bytes of [reply_packet]. *)
Theorem echo_request_overruns (t : tcp (inet E)) there mac own identification source destination rest :
  takes t there destination IPV4_PROTOCOL_ICMP IPV4_ICMP → is_mac mac → is_mac own → is_u32 source → is_u32 destination → is_bytes rest →
  4 ≤ len rest ≤ 1484 → icmp_reply_lock (icmps (net t)) = false →
  let frame := ethernet_frame mac own ETHERNET_TYPE_IPV4 (ipv4_bytes identification IPV4_PROTOCOL_ICMP source destination (echo_request_bytes rest)) in
  len frame ≤ NET_ETHERNET_MAX_FRAME_SIZE ∧
  (len (echo_request_bytes rest) ≤ IPV4_PAYLOAD_MAX_LENGTH →
     ipv4_checksum (echo_reply_bytes rest) = 0 ∧
     receive_frame there frame t = Some (on_net (λ n, (Inet.ipv4_send there source IPV4_PROTOCOL_ICMP (echo_reply_bytes rest) (received n)).2) t)) ∧
  (IPV4_PAYLOAD_MAX_LENGTH < len (echo_request_bytes rest) → receive_frame there frame t = None).
Proof.
  intros (H1&H2&H3&H4) Hm Ho Hs Hd Hb Hl Hk. cbv zeta. set (data := echo_request_bytes rest).
  assert (is_u8 ICMP_ECHO_REQUEST ∧ is_u8 0 ∧ is_u8 IPV4_PROTOCOL_ICMP) as (U1&U2&U3) by done.
  assert (is_bytes data ∧ len data = 4 + len rest) as [B L].
  { unfold data, echo_request_bytes. cbv zeta. split; [auto 10 with bytes|]. unfold len. rewrite !length_app, length_be16. cbn [length]. lia. }
  assert (is_bytes (ipv4_bytes identification IPV4_PROTOCOL_ICMP source destination data)) as Bi.
  { unfold ipv4_bytes. cbv zeta. apply is_bytes_app; [|done]. rewrite header_split. pose proof (header_front_bytes (u16 (IPV4_HEADER_MIN_LENGTH + len data)) identification IPV4_PROTOCOL_ICMP U3).
    pose proof (header_back_bytes source destination). auto with bytes. }
  pose proof (length_ipv4_bytes identification IPV4_PROTOCOL_ICMP source destination data) as Li.
  split. { destruct Hm as [Lm _], Ho as [Lo _]. change NET_ETHERNET_MAX_FRAME_SIZE with 1522. unfold ethernet_frame, len in *. rewrite !length_app, length_be16. lia. }
  unfold receive_frame. rewrite (ethernet_receive_frame there mac own ETHERNET_TYPE_IPV4 _ ETHERNET_IPV4) by (done || (unfold is_u16, ETHERNET_TYPE_IPV4; lia)).
  cbn [ethernet_deliver]. change (net (t <| net := received (net t) |>)) with (received (net t)).
  rewrite (ipv4_receive_bytes there mac own identification IPV4_PROTOCOL_ICMP source destination data IPV4_ICMP) by (done || lia).
  cbn [ipv4_deliver]. unfold icmp_receive. cbn [ip_payload]. cbv zeta.
  assert (ipv4_checksum data = 0) as ->.
  { unfold data, echo_request_bytes. cbv zeta. apply checksum_verifies; [auto with bytes|done|by exists 1%nat|]. unfold len in *. cbn [length]. lia. }
  destruct (Z.ltb_spec (len data) 8); [lia|]. cbn [Z.eqb negb orb].
  assert (answers_ping (Ipv4Packet there source destination IPV4_PROTOCOL_ICMP IPV4_DEFAULT_TTL data) (icmp_pending (icmps (net (t <| net := received (net t) |> <| net := received (net t) |>)))) = false) as ->.
  { unfold answers_ping. cbn [ip_payload]. change (byte_at data 0) with ICMP_ECHO_REQUEST. done. }
  change (byte_at data 0) with ICMP_ECHO_REQUEST. change (byte_at data 1) with 0. change (icmp_reply_lock _) with (icmp_reply_lock (icmps (net t))). rewrite Hk.
  cbn [Z.eqb negb orb ICMP_ECHO_REQUEST]. split; intros Hlen.
  - split.
    + unfold echo_reply_bytes. cbv zeta. apply checksum_verifies; [auto with bytes|done|by exists 1%nat|]. unfold len in *. cbn [length]. lia.
    + unfold data, echo_request_bytes in Hlen |- *. cbv zeta in Hlen |- *. by rewrite echo_reply_fits.
  - unfold echo_reply. rewrite memcpy_overruns; [done|unfold len; rewrite length_replicate; lia|].
    unfold len at 1. rewrite length_replicate. change (Z.of_nat (Z.to_nat IPV4_PAYLOAD_MAX_LENGTH)) with IPV4_PAYLOAD_MAX_LENGTH. lia.
Qed.
End arrive.

(** ** Two machines *)

(** A device that keeps what it transmits. *)
Definition kept : Nic (list (Z * list Z)) := {|
  nic_transmit := λ dev frame d, (true, d ++ [(dev, frame)]);
  nic_poll := λ _ _ d, ([], d);
  nic_link_up := λ _ _, Some true;
|}.

Section machines.
#[local] Existing Instance kept.

Definition mac_a : list Z := [2; 0; 0; 0; 0; 1].
Definition mac_b : list Z := [2; 0; 0; 0; 0; 2].
Definition blank (mac : list Z) : inet (list (Z * list Z)) :=
  Inet {[ 7 := NetDevice [] mac 0 true (NetDeviceStats 0 0 0 0 0 0 0 0) false true ]} (Registry [] [] 0) (Ethernet [] (EthernetStats 0 0 0 0 0) false)
    (Arp [] [] (ArpStats 0 0 0 0 0 0 0 0)) (Ipv4State [] [] false 0) (Udp [] false) (Icmp ping_zero false false 20480)
    (Dns [] [] dns_query_zero false 16640) [] 1000 [].
(** A machine with an address, which has heard of the other one. *)
Definition machine (mac : list Z) (address : Z) (other : list Z) (other_address : Z) : tcp (inet (list (Z * list Z))) :=
  on_net (λ n, learn 7 other_address other 1000 (ipv4_configure 7 address 4294967040 0 (net_device_register 7 n).2).2) (protocols_init (blank mac)).2.
Definition machine_a := machine mac_a 167772161 mac_b 167772162.
Definition machine_b := machine mac_b 167772162 mac_a 167772161.
Definition hello : list Z := [104; 101; 108; 108; 111].
Definition asked : Z * inet (list (Z * list Z)) := udp_send_from 7 167772161 167772162 53 53000 hello (net machine_a).

Lemma datagram_arrives_witness : ∃ frame, transmits 7 frame (net machine_a) asked.2 ∧
  receive_frame 7 frame machine_b =
    Some (on_net (λ m, udp_deliver UDP_DNS (UdpDatagram 7 167772161 167772162 53 53000 hello) (received m)) machine_b).
Proof.
  assert (is_u32 167772161 ∧ is_u32 167772162 ∧ is_u16 53 ∧ is_u16 53000) as (R1&R2&R3&R4) by done.
  assert (is_bytes hello) as B by (apply (bool_decide_unpack _); vm_compute; exact I).
  assert (macs_ok (net machine_a)) as M by (apply (bool_decide_unpack _); vm_compute; exact I).
  assert (takes machine_b 7 167772162 IPV4_PROTOCOL_UDP IPV4_UDP) as T by (split; [|split; [|split]]; [done|vm_compute; reflexivity..]).
  assert (udp_handler_of (net machine_b) 53000 = Some UDP_DNS) as U by (vm_compute; reflexivity).
  assert (udp_send_from 7 167772161 167772162 53 53000 hello (net machine_a) = (IPV4_SEND_OK, asked.2)) as S by (vm_compute; reflexivity).
  destruct (datagram_arrives 7 167772161 167772162 53 53000 hello (net machine_a) asked.2 M R1 R2 R3 R4 B S) as (frame&F&R).
  exists frame. split; [exact F|exact (R machine_b 7 UDP_DNS T U)].
Defined.

Definition talking : tcp_socket :=
  socket_reset <| used := true |> <| state := TCP_STATE_ESTABLISHED |> <| device := 7 |> <| local_address := 167772161 |> <| remote_address := 167772162 |>
    <| local_port := 80 |> <| remote_port := 5000 |> <| rcv_nxt := 77 |>.
Definition said : Z * inet (list (Z * list Z)) :=
  let p := wire 4000000000 (Z.lor TCP_FLAG_ACK TCP_FLAG_PSH) hello false talking in
  Inet.ipv4_send_from (p_device p) (p_source p) (p_destination p) (p_protocol p) (p_payload p) (net machine_a).

Lemma segment_arrives_witness : ∃ frame, transmits 7 frame (net machine_a) said.2 ∧
  let segment := p_payload (wire 4000000000 (Z.lor TCP_FLAG_ACK TCP_FLAG_PSH) hello false talking) in
  receive_frame 7 frame machine_b = Some (receive_segment (clock (net machine_b)) 7 167772161 167772162 segment (on_net received machine_b)) ∧
  g_sequence (parse_segment 7 segment) = 4000000000 ∧ g_data (parse_segment 7 segment) = hello.
Proof.
  assert (is_u32 (local_address talking) ∧ is_u32 (remote_address talking)) as (R1&R2) by done.
  assert (false = true → hello = []) as F0 by done.
  assert (wire_ok 4000000000 (Z.lor TCP_FLAG_ACK TCP_FLAG_PSH) hello talking) as Ok by (split_and!; try done; apply (bool_decide_unpack _); vm_compute; exact I).
  assert (macs_ok (net machine_a)) as M by (apply (bool_decide_unpack _); vm_compute; exact I).
  assert (takes machine_b 7 (remote_address talking) IPV4_PROTOCOL_TCP IPV4_TCP) as T by (split; [|split; [|split]]; [done|vm_compute; reflexivity..]).
  assert (let p := wire 4000000000 (Z.lor TCP_FLAG_ACK TCP_FLAG_PSH) hello false talking in
    Inet.ipv4_send_from (p_device p) (p_source p) (p_destination p) (p_protocol p) (p_payload p) (net machine_a) = (IPV4_SEND_OK, said.2)) as S by (vm_compute; reflexivity).
  destruct (segment_arrives 4000000000 (Z.lor TCP_FLAG_ACK TCP_FLAG_PSH) hello false talking (net machine_a) said.2 M Ok F0 R1 R2 S) as (frame&F&R).
  destruct (R machine_b 7 T) as (X1&_&_&_&_&X2&_&X3&_).
  exists frame. split; [exact F|split; [exact X1|split; [exact X2|exact X3]]].
Defined.

Lemma echo_request_overruns_witness :
  let frame rest := ethernet_frame mac_b mac_a ETHERNET_TYPE_IPV4 (ipv4_bytes 9 IPV4_PROTOCOL_ICMP 167772161 167772162 (echo_request_bytes rest)) in
  len (frame (replicate 1484 0)) ≤ NET_ETHERNET_MAX_FRAME_SIZE ∧ receive_frame 7 (frame (replicate 1484 0)) machine_b = None ∧
  ipv4_checksum (echo_reply_bytes [1; 2; 0; 1; 7]) = 0 ∧
  receive_frame 7 (frame [1; 2; 0; 1; 7]) machine_b =
    Some (on_net (λ n, (Inet.ipv4_send 7 167772161 IPV4_PROTOCOL_ICMP (echo_reply_bytes [1; 2; 0; 1; 7]) (received n)).2) machine_b).
Proof.
  assert (is_u32 167772161 ∧ is_u32 167772162) as [R1 R2] by done.
  assert (is_mac mac_a ∧ is_mac mac_b) as [M1 M2] by (apply (bool_decide_unpack _); vm_compute; exact I).
  assert (is_bytes (replicate 1484 0) ∧ is_bytes [1; 2; 0; 1; 7]) as [B B'] by (apply (bool_decide_unpack _); vm_compute; exact I).
  assert (4 ≤ len (replicate 1484 0) ≤ 1484) as L by (vm_compute; by split).
  assert (4 ≤ len [1; 2; 0; 1; 7] ≤ 1484) as L' by (vm_compute; by split).
  assert (takes machine_b 7 167772162 IPV4_PROTOCOL_ICMP IPV4_ICMP) as T by (split; [|split; [|split]]; [done|vm_compute; reflexivity..]).
  assert (icmp_reply_lock (icmps (net machine_b)) = false) as K by (vm_compute; reflexivity).
  assert (IPV4_PAYLOAD_MAX_LENGTH < len (echo_request_bytes (replicate 1484 0))) as G by (vm_compute; reflexivity).
  assert (len (echo_request_bytes [1; 2; 0; 1; 7]) ≤ IPV4_PAYLOAD_MAX_LENGTH) as G' by (vm_compute; discriminate).
  destruct (echo_request_overruns machine_b 7 mac_b mac_a 9 167772161 167772162 (replicate 1484 0) T M2 M1 R1 R2 B L K) as (X&_&Y).
  destruct (echo_request_overruns machine_b 7 mac_b mac_a 9 167772161 167772162 [1; 2; 0; 1; 7] T M2 M1 R1 R2 B' L' K) as (_&[Z1 Z2]&_); [exact G'|].
  split; [exact X|]. split; [exact (Y G)|]. split; [exact Z1|exact Z2].
Defined.
End machines.
