(* ===== verification/ArpSpec.v ===== *)
(** * What the ARP cache answers

    The claims that ARP packets made, newest first, against the cache: whatever was
    received, asked, timed out or configured meanwhile, an answer is the latest claim for the
    address on the device, and it is not older than two minutes. *)

From S2P Require Import Prelude NetBytes NetState Ethernet Arp.

(** A device, an address, who has it and when it was said. *)
Record claim := Claim { cl_device : Z; cl_ipv4 : Z; cl_mac : list Z; cl_time : Z }.

Fixpoint latest (claims : list claim) (dev ipv4 : Z) : option (list Z * Z) :=
  match claims with
  | [] => None
  | c :: claims => if (cl_device c =? dev) && (cl_ipv4 c =? ipv4) then Some (cl_mac c, cl_time c) else latest claims dev ipv4
  end.

Definition is_entry (i : Z) : Prop := 0 ≤ i < Z.of_nat ARP_CACHE_CAPACITY.

(** The cache is about the claims: one entry for each address, and a valid one is the latest claim. *)
Record agrees (claims : list claim) (now : Z) (a : arp) : Prop := {
  ag_length : length (arp_cache a) = ARP_CACHE_CAPACITY;
  ag_unique : ∀ i j, is_entry i → is_entry j → ae_state (cache_at a i) ≠ ARP_ENTRY_FREE → ae_state (cache_at a j) ≠ ARP_ENTRY_FREE →
    ae_device (cache_at a i) = ae_device (cache_at a j) → ae_ipv4 (cache_at a i) = ae_ipv4 (cache_at a j) → i = j;
  ag_valid : ∀ i, is_entry i → ae_state (cache_at a i) = ARP_ENTRY_VALID →
    latest claims (ae_device (cache_at a i)) (ae_ipv4 (cache_at a i)) = Some (ae_mac (cache_at a i), ae_updated_ms (cache_at a i)) ∧
    0 ≤ ae_updated_ms (cache_at a i) ≤ now;
}.

Lemma cache_put_eq a i e : length (arp_cache a) = ARP_CACHE_CAPACITY → is_entry i → cache_at (put_entry i e a) i = e.
Proof. intros L Hi. unfold is_entry in Hi. apply aget_aset_eq. rewrite L. lia. Qed.
Lemma cache_put_ne a i j e : is_entry i → is_entry j → i ≠ j → cache_at (put_entry i e a) j = cache_at a j.
Proof. unfold is_entry. intros Hi Hj N. apply aget_aset_ne; lia. Qed.
Lemma length_put_entry a i e : length (arp_cache (put_entry i e a)) = length (arp_cache a).
Proof. apply length_aset. Qed.

Lemma find_entry_spec a dev ipv4 : match find_entry a dev ipv4 with
  | Some i => is_entry i ∧ ae_state (cache_at a i) ≠ ARP_ENTRY_FREE ∧ ae_device (cache_at a i) = dev ∧ ae_ipv4 (cache_at a i) = ipv4
  | None => ∀ i, is_entry i → ae_state (cache_at a i) ≠ ARP_ENTRY_FREE → ae_device (cache_at a i) = dev → ae_ipv4 (cache_at a i) ≠ ipv4
  end.
Proof.
  unfold find_entry. destruct (for_first _ _ _) as [i|] eqn:F.
  - apply for_first_Some in F as (Hi&C&_). split; [unfold is_entry; lia|].
    apply andb_true_iff in C as [[C1 C2]%andb_true_iff C3]. apply negb_true_iff, bool_decide_eq_false_1 in C1. apply Z.eqb_eq in C2, C3. done.
  - rewrite for_first_None in F. intros i Hi S E1 E2. specialize (F i ltac:(unfold is_entry in Hi; lia)). cbv beta zeta in F.
    rewrite E1, E2, !Z.eqb_refl, !andb_true_r in F. apply negb_false_iff, bool_decide_eq_true_1 in F. done.
Qed.

Lemma allocate_loop_range fuel now a : ∀ i oldest, 0 ≤ i → i + Z.of_nat fuel ≤ Z.of_nat ARP_CACHE_CAPACITY → is_entry oldest →
  is_entry (allocate_loop fuel i oldest now a).
Proof.
  induction fuel as [|fuel IH]; intros i oldest Hi Hf Ho; [done|]. cbn [allocate_loop]. cbv zeta.
  assert (is_entry i) as E by (unfold is_entry; lia). destruct (bool_decide _); [done|]. destruct (entry_expired _ _); [done|].
  apply IH; [lia|lia|by destruct (_ <? _)].
Qed.
Lemma allocate_entry_range now a : is_entry (allocate_entry now a).
Proof. apply allocate_loop_range; [lia|unfold ARP_CACHE_CAPACITY; lia|unfold is_entry, ARP_CACHE_CAPACITY; lia]. Qed.

(** ** Entries change *)

(** The entry of an address, or the one that is taken for it. *)
Definition place (dev ipv4 now : Z) (a : arp) : Z := match find_entry a dev ipv4 with Some i => i | None => allocate_entry now a end.
Lemma place_spec dev ipv4 now a claims t : agrees claims t a → is_entry (place dev ipv4 now a) ∧
  ∀ j, is_entry j → j ≠ place dev ipv4 now a → ae_state (cache_at a j) ≠ ARP_ENTRY_FREE → ae_device (cache_at a j) = dev → ae_ipv4 (cache_at a j) ≠ ipv4.
Proof.
  intros A. pose proof (find_entry_spec a dev ipv4) as F. unfold place. destruct (find_entry a dev ipv4) as [i|].
  - destruct F as (Hi&S&E1&E2). split; [done|]. intros j Hj N Sj D1 D2. apply N. apply (ag_unique _ _ _ A); try done; congruence.
  - split; [apply allocate_entry_range|]. auto.
Qed.

(** A new entry at the place of its address; if it is valid it is what the claims say. *)
Lemma agrees_put claims claims' now i e a : agrees claims now a → is_entry i →
  (∀ j, is_entry j → j ≠ i → ae_state (cache_at a j) ≠ ARP_ENTRY_FREE → ae_device (cache_at a j) = ae_device e → ae_ipv4 (cache_at a j) ≠ ae_ipv4 e) →
  (∀ dev ipv4, dev ≠ ae_device e ∨ ipv4 ≠ ae_ipv4 e → latest claims' dev ipv4 = latest claims dev ipv4) →
  (ae_state e = ARP_ENTRY_VALID → latest claims' (ae_device e) (ae_ipv4 e) = Some (ae_mac e, ae_updated_ms e) ∧ 0 ≤ ae_updated_ms e ≤ now) →
  agrees claims' now (put_entry i e a).
Proof.
  intros [A1 A2 A3] Hi U L V. split.
  - by rewrite length_put_entry.
  - intros j k Hj Hk. destruct (decide (j = i)) as [->|Nj], (decide (k = i)) as [->|Nk]; [done| | |];
      rewrite ?(cache_put_eq a i e A1 Hi), ?(cache_put_ne a i) by (done || congruence).
    + intros _ S D1 D2. exfalso. by apply (U k Hk Nk S).
    + intros S _ D1 D2. exfalso. by apply (U j Hj Nj S).
    + apply A2; done.
  - intros j Hj. destruct (decide (j = i)) as [->|Nj]; [rewrite (cache_put_eq a i e A1 Hi); exact V|].
    rewrite (cache_put_ne a i) by (done || congruence). intros S. destruct (A3 j Hj S) as [E R]. split; [|done]. rewrite L; [done|].
    destruct (decide (ae_device (cache_at a j) = ae_device e)) as [D1|]; [|by left]. right. apply U; [done..|congruence|done].
Qed.

(** An entry that is freed or only marked. *)
Lemma agrees_free claims now i a f : agrees claims now a → (∀ e, ae_state (f e) = ARP_ENTRY_FREE) → is_entry i →
  agrees claims now (put_entry i (f (cache_at a i)) a).
Proof.
  intros [A1 A2 A3] F Hi. split.
  - by rewrite length_put_entry.
  - intros j k Hj Hk. destruct (decide (j = i)) as [->|Nj], (decide (k = i)) as [->|Nk]; [done| | |];
      rewrite ?(cache_put_eq a i _ A1 Hi), ?(cache_put_ne a i), ?F by (done || congruence); try done. apply A2; done.
  - intros j Hj. destruct (decide (j = i)) as [->|Nj]; [by rewrite (cache_put_eq a i _ A1 Hi), F|].
    rewrite (cache_put_ne a i) by (done || congruence). by apply A3.
Qed.

Lemma agrees_later claims now now' a : agrees claims now a → now ≤ now' → agrees claims now' a.
Proof. intros [A1 A2 A3] L. split; [done..|]. intros i Hi S. destruct (A3 i Hi S) as [E R]. split; [done|lia]. Qed.
Lemma agrees_cache claims now a a' : agrees claims now a → arp_cache a' = arp_cache a → agrees claims now a'.
Proof. intros [A1 A2 A3] E. split; unfold cache_at; rewrite E; done. Qed.

Section history.
Context {D : Type} `{Nic D}.
Implicit Types (n : inet D).

(** The caches and the clock are as they were. *)
Definition apart n n' : Prop := arp_cache (arps n') = arp_cache (arps n) ∧ clock n' = clock n.
#[local] Instance apart_preorder : PreOrder apart.
Proof. split; [done|]. intros n1 n2 n3 [A1 A2] [B1 B2]. split; congruence. Qed.

Lemma transmit_apart dev frame n : apart n (net_device_transmit dev frame n).2.
Proof.
  unfold net_device_transmit. destruct (memory n !! dev); [|done]. destruct (_ || _); [done|].
  destruct (nic_transmit _ _ _) as [[] hw]; done.
Qed.
Lemma ethernet_send_apart dev mac ethertype payload n : apart n (ethernet_send dev mac ethertype payload n).2.
Proof.
  unfold ethernet_send. destruct (memory n !! dev) as [d|]; [|done]. destruct (_ || _); [done|]. destruct (eth_lock _); [done|]. cbv zeta.
  pose proof (transmit_apart dev (ethernet_frame (take 6 mac) (d_mac d) ethertype payload) n) as T. destruct (net_device_transmit _ _ n) as [[] n']; exact T.
Qed.
Lemma send_packet_apart dev operation sender target_mac target n : apart n (send_packet dev operation sender target_mac target n).2.
Proof. unfold send_packet. destruct (memory n !! dev); [apply ethernet_send_apart|done]. Qed.

(** Whether [learn] takes a claim. *)
Definition heeds (dev ipv4 : Z) (mac : list Z) n : bool :=
  match memory n !! dev with
  | None => false
  | Some d =>
      negb (ipv4 =? 0) && mac_is_unicast mac &&
      negb (match find_row (arp_rows (arps n)) dev with
            | Some i => ai_local_ipv4 (aget (ArpInterface 0 0) (arp_interfaces (arps n)) i) =? ipv4
            | None => false
            end && negb (bool_decide (take 6 (d_mac d) = take 6 mac)))
  end.

Lemma learn_cases dev ipv4 mac now n :
  if heeds dev ipv4 mac n
  then arp_cache (arps (learn dev ipv4 mac now n)) = arp_cache (put_entry (place dev ipv4 now (arps n)) (ArpEntry dev ipv4 (take 6 mac) now 0 ARP_ENTRY_VALID) (arps n)) ∧
       clock (learn dev ipv4 mac now n) = clock n
  else apart n (learn dev ipv4 mac now n).
Proof.
  unfold heeds, learn. destruct (memory n !! dev) as [d|]; [|done]. cbv zeta.
  set (mine := match find_row _ _ with Some i => _ | None => _ end).
  destruct (ipv4 =? 0); cbn [orb negb andb]; [done|]. destruct (mac_is_unicast mac); cbn [orb negb andb]; [|done].
  by destruct (mine && _).
Qed.

(** The claim of a packet. *)
Definition heard (frame : ethernet_packet) n : list claim :=
  let packet := ep_payload frame in
  let mac := take 6 (drop 8 packet) in
  if arp_well_formed frame && heeds (ep_device frame) (net_read_be32 packet 14) mac n
  then [Claim (ep_device frame) (net_read_be32 packet 14) mac (clock n)] else [].

(** What happens to the cache: packets, questions, timers and addresses, while the clock goes on and the other parts
    of the network do what they do. *)
Inductive history : list claim → inet D → Prop :=
| history_init n : 0 ≤ clock n < 2 ^ 64 → history [] (arp_init n).2
| history_receive claims n frame : history claims n → history (heard frame n ++ claims) (arp_receive frame n)
| history_lookup claims n dev ipv4 : history claims n → history claims (arp_lookup dev ipv4 n).2
| history_resolve claims n dev ipv4 : history claims n → history claims (arp_resolve dev ipv4 n).2
| history_poll claims n : history claims n → history claims (arp_poll (clock n) n)
| history_address claims n dev address : history claims n → history claims (arp_set_local_ipv4 dev address n).2
| history_other claims n n' : history claims n → arp_cache (arps n') = arp_cache (arps n) → clock n ≤ clock n' < 2 ^ 64 → history claims n'.

Definition agrees_net (claims : list claim) n : Prop := agrees claims (clock n) (arps n) ∧ 0 ≤ clock n < 2 ^ 64.
Lemma agrees_apart claims n n' : agrees_net claims n → apart n n' → agrees_net claims n'.
Proof. intros [A B] [E1 E2]. split; rewrite E2; [|done]. by apply (agrees_cache _ _ (arps n)). Qed.

Lemma free_counted claims n i c : agrees_net claims n → is_entry i →
  agrees_net claims (count_arp c (n <| arps := put_entry i ((cache_at (arps n) i) <| ae_state := ARP_ENTRY_FREE |>) (arps n) |>)).
Proof.
  intros [A B] Hi. split; [|done]. apply (agrees_cache _ _ (put_entry i ((cache_at (arps n) i) <| ae_state := ARP_ENTRY_FREE |>) (arps n))); [|done].
  by apply (agrees_free claims (clock n) i (arps n) (λ e, e <| ae_state := ARP_ENTRY_FREE |>)).
Qed.

Lemma receive_agrees claims n frame : agrees_net claims n → agrees_net (heard frame n ++ claims) (arp_receive frame n).
Proof.
  intros [A B]. unfold heard, arp_receive. cbv zeta. destruct (arp_well_formed frame); cbn [negb andb]; [|by apply (agrees_apart _ n)].
  set (packet := ep_payload frame). set (ipv4 := net_read_be32 packet 14). set (mac := take 6 (drop 8 packet)). set (dev := ep_device frame).
  set (n1 := count_arp _ n). change (heeds dev ipv4 mac n) with (heeds dev ipv4 mac n1). change (clock n) with (clock n1).
  assert (agrees claims (clock n1) (arps n1)) as A1 by by apply (agrees_cache _ _ (arps n)).
  assert (agrees_net (if heeds dev ipv4 mac n1 then [Claim dev ipv4 mac (clock n1)] ++ claims else claims) (learn dev ipv4 mac (clock n1) n1)) as L.
  { pose proof (learn_cases dev ipv4 mac (clock n1) n1) as C. destruct (heeds dev ipv4 mac n1); [|apply (agrees_apart claims n1); [split; done|exact C]].
    destruct C as [C1 C2]. split; [|by rewrite C2]. rewrite C2. refine (agrees_cache _ _ _ _ _ C1).
    destruct (place_spec dev ipv4 (clock n1) (arps n1) claims (clock n1) A1) as [P1 P2].
    apply (agrees_put claims); [done|done|exact P2| |].
    - cbn [ae_device ae_ipv4 latest app cl_device cl_ipv4]. intros dev' ipv4' Nk.
      destruct (Z.eqb_spec dev dev') as [<-|]; [|done]. destruct (Z.eqb_spec ipv4 ipv4') as [<-|]; [|done]. by destruct Nk.
    - intros _. cbn [ae_device ae_ipv4 ae_mac ae_updated_ms latest app cl_device cl_ipv4 cl_mac cl_time]. rewrite !Z.eqb_refl.
      split; [by rewrite take_ge by (unfold mac; rewrite length_take; lia)|]. change (clock n1) with (clock n). lia. }
  assert ((if heeds dev ipv4 mac n1 then [Claim dev ipv4 mac (clock n1)] else []) ++ claims =
    (if heeds dev ipv4 mac n1 then [Claim dev ipv4 mac (clock n1)] ++ claims else claims)) as -> by by destruct (heeds _ _ _ _).
  set (n2 := learn _ _ _ _ n1) in *. destruct (_ && _ && _); [|done].
  pose proof (send_packet_apart dev ARP_OPERATION_REPLY (arp_get_local_ipv4 dev n2) mac ipv4 n2) as S.
  destruct (send_packet _ _ _ _ _ n2) as [[] n3]; by apply (agrees_apart _ n2).
Qed.

Lemma lookup_agrees claims n dev ipv4 : agrees_net claims n → agrees_net claims (arp_lookup dev ipv4 n).2.
Proof.
  intros [A B]. unfold arp_lookup. destruct (_ || _); [done|]. pose proof (find_entry_spec (arps n) dev ipv4) as F.
  destruct (find_entry (arps n) dev ipv4) as [i|]; [|done]. cbv zeta. destruct (negb _); [done|]. destruct (_ <? _); [done|].
  cbn [snd].
  apply free_counted; [by split|apply F].
Qed.

Lemma ask_agrees claims dev ipv4 now a : agrees claims now a → 0 ≤ now → agrees claims now (ask dev ipv4 now a).2.
Proof.
  intros A Hn. unfold ask. destruct (place_spec dev ipv4 now a claims now A) as [P1 P2]. unfold place in P1, P2.
  pose proof (find_entry_spec a dev ipv4) as F. destruct (find_entry a dev ipv4) as [i|]; cbv zeta.
  - destruct (_ && _) eqn:C; [|done]. apply andb_true_iff in C as [C _]. apply bool_decide_eq_true_1 in C. destruct F as (Hi&_&E1&E2).
    set (e := cache_at a i) in *. cbn [snd]. apply (agrees_put claims); [done|done| |done|].
    + intros j Hj N S D1. change (ae_ipv4 (e <| ae_last_request_ms := now |>)) with (ae_ipv4 e). rewrite E2. apply (P2 j Hj N S).
      rewrite D1. exact E1.
    + change (ae_state (e <| ae_last_request_ms := now |>)) with (ae_state e). congruence.
  - apply (agrees_put claims); done.
Qed.

Lemma resolve_agrees claims n dev ipv4 : agrees_net claims n → agrees_net claims (arp_resolve dev ipv4 n).2.
Proof.
  intros A. unfold arp_resolve. pose proof (lookup_agrees claims n dev ipv4 A) as L. destruct (arp_lookup dev ipv4 n) as [[mac|] n1]; [done|].
  destruct (_ =? 0); [done|]. cbn [snd] in L. destruct L as [L1 L2]. pose proof (ask_agrees claims dev ipv4 (clock n1) (arps n1) L1 ltac:(lia)) as Q.
  destruct (ask dev ipv4 (clock n1) (arps n1)) as [[] a]; [|done]. set (n2 := n1 <| arps := a |>).
  assert (agrees_net claims n2) as A2 by done.
  pose proof (send_packet_apart dev ARP_OPERATION_REQUEST (arp_get_local_ipv4 dev n1) [] ipv4 n2) as S.
  destruct (send_packet _ _ _ _ _ n2) as [[] n3]; by apply (agrees_apart _ n2).
Qed.

Lemma poll_agrees claims now n : agrees_net claims n → agrees_net claims (arp_poll now n).
Proof.
  unfold arp_poll. assert (∀ i, i ∈ seqZ 0 (Z.of_nat ARP_CACHE_CAPACITY) → is_entry i) as R by (intros i Hi; apply elem_of_seqZ in Hi; unfold is_entry; lia).
  revert n R. induction (seqZ 0 (Z.of_nat ARP_CACHE_CAPACITY)) as [|i l IH]; intros n R A; [done|]. cbn [foldl].
  apply IH; [intros j Hj; apply R; by right|]. unfold poll_entry. cbv zeta. destruct (bool_decide _); [done|]. destruct (entry_expired _ _); [|done].
  apply free_counted; [done|]. apply R. by left.
Qed.

Lemma address_agrees claims n dev address : agrees_net claims n → agrees_net claims (arp_set_local_ipv4 dev address n).2.
Proof.
  intros [A B]. unfold arp_set_local_ipv4. destruct (memory n !! dev) as [d|]; [|done]. destruct (negb _); [done|].
  destruct (find_or_free_row _ _) as [k|]; [|done]. cbn [snd]. split; [|done]. destruct A as [A1 A2 A3].
  set (free := λ e, if ae_device e =? dev then e <| ae_state := ARP_ENTRY_FREE |> else e).
  set (a := (arps n) <| arp_interfaces := aset (arp_interfaces (arps n)) k (ArpInterface dev address) |> <| arp_cache := free <$> arp_cache (arps n) |>).
  change (agrees claims (clock n) a).
  assert (∀ i, is_entry i → cache_at a i = free (cache_at (arps n) i)) as E.
  { intros i Hi. unfold cache_at, aget. change (arp_cache a) with (free <$> arp_cache (arps n)).
    destruct (lookup_lt_is_Some_2 (arp_cache (arps n)) (Z.to_nat i)) as [e Ee]; [unfold is_entry in Hi; lia|].
    rewrite !nth_lookup, list_lookup_fmap, Ee. done. }
  assert (∀ e, ae_state (free e) ≠ ARP_ENTRY_FREE → free e = e) as Fr by (intros e; unfold free; by destruct (_ =? _)).
  split.
  - change (arp_cache a) with (free <$> arp_cache (arps n)). by rewrite length_fmap.
  - intros i j Hi Hj. rewrite !E by done. intros S1 S2. pose proof (Fr _ S1) as F1. pose proof (Fr _ S2) as F2.
    rewrite F1 in S1 |- *. rewrite F2 in S2 |- *. by apply A2.
  - intros i Hi. rewrite E by done. intros S. assert (free (cache_at (arps n) i) = cache_at (arps n) i) as F1 by (apply Fr; by rewrite S).
    rewrite F1 in S |- *. by apply A3.
Qed.

Lemma history_agrees claims n : history claims n → agrees_net claims n.
Proof.
  induction 1 as [n C|claims n frame _ IH|claims n dev ipv4 _ IH|claims n dev ipv4 _ IH|claims n _ IH|claims n dev address _ IH|claims n n' _ IH E C].
  - unfold arp_init. set (n1 := n <| arps := _ |>). assert (apart n1 (ethernet_register_handler ETHERNET_TYPE_ARP ETHERNET_ARP n1).2) as R.
    { unfold ethernet_register_handler. destruct (_ <? _); [done|]. destruct (for_first _ _ _); [done|]. by destruct (for_first _ _ _). }
    refine (agrees_apart _ n1 _ _ R). split; [|done]. split; [done| |].
    + intros i j _ _ S. exfalso. apply S. unfold cache_at. change (arp_cache (arps n1)) with (replicate ARP_CACHE_CAPACITY arp_entry_zero). by rewrite aget_replicate.
    + intros i _ S. exfalso. revert S. unfold cache_at. change (arp_cache (arps n1)) with (replicate ARP_CACHE_CAPACITY arp_entry_zero). by rewrite aget_replicate.
  - by apply receive_agrees.
  - by apply lookup_agrees.
  - by apply resolve_agrees.
  - by apply poll_agrees.
  - by apply address_agrees.
  - destruct IH as [A B]. split; [|lia]. apply (agrees_cache _ _ (arps n)); [|done]. apply (agrees_later _ (clock n)); [done|lia].
Qed.

(** C8: Whatever was received, asked, timed out and configured before, an answer of the cache is what the latest packet about the
    address on the device claimed, and that is less than two minutes ago. *)
Theorem arp_answers_latest claims n dev ipv4 mac n' : history claims n → arp_lookup dev ipv4 n = (Some mac, n') →
  ∃ time, latest claims dev ipv4 = Some (mac, time) ∧ time ≤ clock n < time + ARP_CACHE_TTL_MS.
Proof.
  intros [A B]%history_agrees. unfold arp_lookup. destruct (_ || _); [done|]. pose proof (find_entry_spec (arps n) dev ipv4) as F.
  destruct (find_entry (arps n) dev ipv4) as [i|]; [|done]. destruct F as (Hi&_&E1&E2). cbv zeta.
  destruct (bool_decide _) eqn:V; cbn [negb]; [|done]. apply bool_decide_eq_true_1 in V. destruct (ag_valid _ _ _ A i Hi V) as [L R].
  destruct (Z.ltb_spec (u64 (clock n - ae_updated_ms (cache_at (arps n) i))) ARP_CACHE_TTL_MS) as [T|]; [|done]. intros [= <- _].
  rewrite E1, E2 in L. exists (ae_updated_ms (cache_at (arps n) i)). split; [done|]. rewrite u64_small in T by lia. lia.
Qed.
End history.

(** Two stations claim one address, and the second is asked for a minute later. *)
Section example.
Definition silent : Nic unit := {| nic_transmit := λ _ _ d, (true, d); nic_poll := λ _ _ d, ([], d); nic_link_up := λ _ _, None |}.
#[local] Existing Instance silent.

Definition station : inet unit :=
  Inet {[ 7 := NetDevice [] [2; 0; 0; 0; 0; 1] 1500 true (NetDeviceStats 0 0 0 0 0 0 0 0) true true ]} (Registry [7; 0; 0; 0] [] 1)
    (Ethernet (replicate 8 handler_zero) (EthernetStats 0 0 0 0 0) false) (Arp [] [] (ArpStats 0 0 0 0 0 0 0 0)) (Ipv4State [] [] false 0) (Udp [] false)
    (Icmp ping_zero false false 0) (Dns [] [] dns_query_zero false 0) [] 1000 tt.
Definition says (mac : list Z) : ethernet_packet :=
  EthernetPacket 7 [2; 0; 0; 0; 0; 1] mac ETHERNET_TYPE_ARP (arp_packet ARP_OPERATION_REPLY mac 167772162 [2; 0; 0; 0; 0; 1] 167772161).
Definition station1 : inet unit := arp_receive (says [2; 0; 0; 0; 0; 2]) (arp_set_local_ipv4 7 167772161 (arp_init station).2).2.
Definition station2 : inet unit := station1 <| clock := 31000 |>.
Definition station3 : inet unit := (arp_receive (says [2; 0; 0; 0; 0; 3]) station2) <| clock := 91000 |>.
Definition said_claims : list claim := [Claim 7 167772162 [2; 0; 0; 0; 0; 3] 31000; Claim 7 167772162 [2; 0; 0; 0; 0; 2] 1000].

Lemma arp_answers_latest_witness : ∃ time, latest said_claims 7 167772162 = Some ([2; 0; 0; 0; 0; 3], time) ∧ time ≤ clock station3 < time + ARP_CACHE_TTL_MS.
Proof.
  assert (0 ≤ 1000 < 2 ^ 64 ∧ 1000 ≤ 31000 < 2 ^ 64 ∧ 31000 ≤ 91000 < 2 ^ 64) as (C1&C2&C3) by lia.
  assert (arp_lookup 7 167772162 station3 = (Some [2; 0; 0; 0; 0; 3], station3)) as L by (vm_compute; reflexivity).
  assert (heard (says [2; 0; 0; 0; 0; 2]) (arp_set_local_ipv4 7 167772161 (arp_init station).2).2 = [Claim 7 167772162 [2; 0; 0; 0; 0; 2] 1000]) as H1 by (vm_compute; reflexivity).
  assert (heard (says [2; 0; 0; 0; 0; 3]) station2 = [Claim 7 167772162 [2; 0; 0; 0; 0; 3] 31000]) as H2 by (vm_compute; reflexivity).
  assert (clock (arp_receive (says [2; 0; 0; 0; 0; 3]) station2) = 31000) as K by (vm_compute; reflexivity).
  assert (clock station1 = 1000) as K1 by (vm_compute; reflexivity).
  assert (history said_claims station3) as Hh.
  { apply (history_other _ (arp_receive (says [2; 0; 0; 0; 0; 3]) station2)); [|reflexivity|rewrite K; exact C3].
    change said_claims with ([Claim 7 167772162 [2; 0; 0; 0; 0; 3] 31000] ++ [Claim 7 167772162 [2; 0; 0; 0; 0; 2] 1000]). rewrite <- H2. apply history_receive.
    apply (history_other _ station1); [|reflexivity|rewrite K1; exact C2].
    change [Claim 7 167772162 [2; 0; 0; 0; 0; 2] 1000] with ([Claim 7 167772162 [2; 0; 0; 0; 0; 2] 1000] ++ []). rewrite <- H1. apply history_receive.
    apply history_address. exact (history_init station C1). }
  exact (arp_answers_latest said_claims station3 7 167772162 [2; 0; 0; 0; 0; 3] station3 Hh L).
Defined.
End example.
