(* ===== verification/DnsSpec.v ===== *)
(** * What DNS asks and reads

    The question names what the application asked for, an answer is read without a byte from outside of
    the datagram, and the cache tells what it was told. *)

From S2P Require Import Prelude NetBytes NetState Ethernet Arp Inet Dns.

(** ** Reading stays inside *)

Lemma byte_at_inside packet junk i : 0 ≤ i < len packet → byte_at (packet ++ junk) i = byte_at packet i.
Proof. apply byte_at_app_l. Qed.
Lemma read16_inside packet junk i : 0 ≤ i → i + 2 ≤ len packet → net_read_be16 (packet ++ junk) i = net_read_be16 packet i.
Proof. intros. unfold net_read_be16. by rewrite !byte_at_inside by lia. Qed.
Lemma read32_inside packet junk i : 0 ≤ i → i + 4 ≤ len packet → net_read_be32 (packet ++ junk) i = net_read_be32 packet i.
Proof. intros. unfold net_read_be32. by rewrite !byte_at_inside by lia. Qed.

Section inside.
Context (packet junk : list Z) (bytes : is_bytes packet) (size : len packet < 65536).
#[local] Set Default Proof Using "All".

Lemma skip_labels_inside labels : ∀ cursor, 0 ≤ cursor →
  skip_labels labels (packet ++ junk) (len packet) cursor = skip_labels labels packet (len packet) cursor ∧
  ∀ offset, skip_labels labels packet (len packet) cursor = Some offset → cursor < offset ≤ len packet.
Proof.
  induction labels as [|labels IH]; intros cursor Hc; [done|]. cbn [skip_labels].
  destruct (Z.leb_spec (len packet) cursor) as [|L]; [done|]. cbv zeta. rewrite byte_at_inside by lia.
  pose proof (byte_range packet cursor bytes) as Hs. unfold is_u8 in Hs. set (s := byte_at packet cursor) in *.
  rewrite (u16_small (cursor + 1)) by lia. destruct (s =? 0); [split; [done|]; intros offset [= <-]; lia|].
  destruct (Z.land s 192 =? 192).
  - destruct (Z.leb_spec (len packet) (cursor + 1)); [done|]. rewrite u16_small by lia. split; [done|]. intros offset [= <-]. lia.
  - destruct (_ || _) eqn:C; [done|]. apply orb_false_iff in C as [_ C]. apply Z.ltb_ge in C.
    rewrite u16_small by lia. destruct (IH (cursor + 1 + s) ltac:(lia)) as [E R]. split; [done|]. intros offset O. specialize (R offset O). lia.
Qed.

Lemma skip_questions_inside questions : ∀ offset, 0 ≤ offset →
  skip_questions questions (packet ++ junk) (len packet) offset = skip_questions questions packet (len packet) offset ∧
  ∀ behind, skip_questions questions packet (len packet) offset = Some behind → offset ≤ behind.
Proof.
  induction questions as [|questions IH]; intros offset Ho; [split; [done|]; intros b [= <-]; lia|]. cbn [skip_questions]. unfold skip_name.
  destruct (skip_labels_inside 128 offset Ho) as [-> R]. destruct (skip_labels 128 packet (len packet) offset) as [o|]; [|done].
  specialize (R o eq_refl). destruct (Z.ltb_spec (len packet) (o + 4)); [done|]. rewrite u16_small by lia.
  destruct (IH (o + 4) ltac:(lia)) as [E F]. split; [done|]. intros b B. specialize (F b B). lia.
Qed.

Lemma find_address_inside answers : ∀ offset, 0 ≤ offset →
  find_address answers (packet ++ junk) (len packet) offset = find_address answers packet (len packet) offset.
Proof.
  induction answers as [|answers IH]; intros offset Ho; [done|]. cbn [find_address]. unfold skip_name.
  destruct (skip_labels_inside 128 offset Ho) as [-> R]. destruct (skip_labels 128 packet (len packet) offset) as [o|]; [|done].
  specialize (R o eq_refl). destruct (Z.ltb_spec (len packet) (o + 10)); [done|]. cbv zeta.
  rewrite (u16_small (o + 10)), !read16_inside, (read32_inside packet junk (o + 4)) by lia.
  pose proof (read_be16_range packet (o + 8) bytes) as Hd. unfold is_u16 in Hd. set (d := net_read_be16 packet (o + 8)) in *.
  destruct (Z.ltb_spec (len packet) (o + 10 + d)); [done|]. destruct (_ && (d =? 4)) eqn:C.
  - apply andb_true_iff in C as [_ C]. by rewrite read32_inside by lia.
  - rewrite u16_small by lia. apply IH. lia.
Qed.
End inside.

(** C9: What is read from an answer does not depend on a byte behind the datagram. *)
Theorem dns_answer_inside packet junk : is_bytes packet → 12 ≤ len packet < 65536 →
  parse_response (packet ++ junk) (len packet) = parse_response packet (len packet).
Proof.
  intros B L. unfold parse_response. cbv zeta. rewrite !read16_inside by lia. destruct (_ || _); [done|].
  destruct (skip_questions_inside packet junk B ltac:(lia) (Z.to_nat (net_read_be16 packet 4)) 12 ltac:(lia)) as [-> F].
  destruct (skip_questions _ packet _ 12) as [o|]; [|done]. specialize (F o eq_refl). apply find_address_inside; [done|lia|lia].
Qed.

(** ** The question *)

(** The labels from a position on, up to the empty one. *)
Fixpoint read_labels (fuel : nat) (packet : list Z) (offset : Z) : option (list (list Z)) :=
  match fuel with
  | O => None
  | S fuel =>
      let size := byte_at packet offset in
      if size =? 0 then Some []
      else match read_labels fuel packet (offset + 1 + size) with
           | Some labels => Some (take (Z.to_nat size) (drop (Z.to_nat (offset + 1)) packet) :: labels)
           | None => None
           end
  end.
(** Labels with dots between them. *)
Fixpoint dotted (labels : list (list Z)) : list Z :=
  match labels with
  | [] => []
  | [label] => label
  | label :: labels => label ++ [46] ++ dotted labels
  end.

Definition is_label (label : list Z) : Prop := 1 ≤ len label ≤ 63 ∧ Forall (λ c, name_byte c = true) label.

Lemma name_byte_range c : name_byte c = true → is_u8 c ∧ c ≠ 46.
Proof. unfold name_byte, is_digit, is_u8. intros C. destruct (Z.eqb_spec c 45); lia. Qed.

(** A host name in the form of the cache and the question: labels that are not empty. *)
Lemma normalize_loop_labels capacity source : ∀ l destination name, capacity ≤ 128 → normalize_loop capacity l source destination = Some name →
  ∀ labels label, destination = dotted (labels ++ [label]) → Forall is_label labels → l = len label → l ≤ 63 → Forall (λ c, name_byte c = true) label →
  len destination < capacity →
  ∃ all, name = dotted all ∧ Forall is_label all ∧ all ≠ [] ∧ len name < capacity.
Proof.
  assert (∀ labels, labels ≠ [] → ∀ x, dotted (labels ++ [x]) = dotted labels ++ [46] ++ x) as Snoc.
  { intros labels. induction labels as [|a labels IH]; [done|]. intros _ x. destruct labels as [|b labels]; [done|].
    change (dotted ((a :: b :: labels) ++ [x])) with (a ++ [46] ++ dotted ((b :: labels) ++ [x])). rewrite IH by done.
    change (dotted (a :: b :: labels)) with (a ++ [46] ++ dotted (b :: labels)). by rewrite <- !app_assoc. }
  induction source as [|c source IH]; intros l destination name Hcap; cbn [normalize_loop].
  - destruct (Z.eqb_spec l 0); [done|]. intros [= <-] labels label D Fl El L Fb Ld. exists (labels ++ [label]). split_and!; [done| |by destruct labels|done].
    apply Forall_app. split; [done|]. apply Forall_singleton. split; [|done]. unfold len in *. lia.
  - cbv zeta. set (c' := lower c). intros N labels label D Fl El L Fb Ld. destruct (Z.eqb_spec c' 46) as [Ec|Nc].
    + destruct (_ || _) eqn:C; [done|]. apply orb_false_iff in C as [[C1 C2]%orb_false_iff C3]. apply Z.eqb_neq in C1. apply Z.leb_gt in C3.
      apply (IH 0 (destination ++ [c']) name Hcap N (labels ++ [label]) []).
      * rewrite Snoc by by destruct labels. rewrite D, app_nil_r. by rewrite Ec.
      * apply Forall_app. split; [done|]. apply Forall_singleton. split; [|done]. unfold len in *. lia.
      * done.
      * lia.
      * apply Forall_nil. done.
      * unfold len in *. rewrite length_app. cbn [length]. lia.
    + destruct (_ || _) eqn:C; [done|]. apply orb_false_iff in C as [[C1 C2]%orb_false_iff C3]. apply negb_false_iff in C1. apply Z.leb_gt in C2. apply Z.ltb_ge in C3.
      apply (IH (l + 1) (destination ++ [c']) name Hcap N labels (label ++ [c'])).
      * rewrite D. destruct labels as [|a labels]; [done|]. rewrite !Snoc by done. by rewrite <- !app_assoc.
      * done.
      * unfold len in *. rewrite length_app. cbn [length]. lia.
      * lia.
      * apply Forall_app. split; [done|]. by apply Forall_singleton.
      * unfold len in *. rewrite length_app. cbn [length]. lia.
Qed.

Lemma take_label_dotted label labels : is_label label → take_label (dotted (label :: labels)) = (label, dotted labels).
Proof.
  intros [_ F]. assert (∀ rest, take_label (label ++ 46 :: rest) = (label, rest)) as A.
  { intros rest. clear labels. induction F as [|c label Hc F IH]; [done|]. cbn [take_label app].
    destruct (name_byte_range c Hc). destruct (Z.eqb_spec c 46); [done|]. by rewrite IH. }
  destruct labels as [|b labels]; [|apply A]. cbn [dotted]. clear A. induction F as [|c label Hc F IH]; [done|]. cbn [take_label].
  destruct (name_byte_range c Hc). destruct (Z.eqb_spec c 46); [done|]. by rewrite IH.
Qed.

(** The labels as they are in a packet. *)
Definition encoded (labels : list (list Z)) : list Z := concat (map (λ label, len label :: label) labels).
Lemma encoded_cons label labels : encoded (label :: labels) = (len label :: label) ++ encoded labels.
Proof. done. Qed.
Lemma dotted_cons label labels : labels ≠ [] → dotted (label :: labels) = label ++ [46] ++ dotted labels.
Proof. by destruct labels. Qed.
Lemma length_encoded labels : labels ≠ [] → len (encoded labels) = len (dotted labels) + 1.
Proof.
  induction labels as [|label labels IH]; [done|]. intros _. rewrite encoded_cons. unfold len in *. rewrite length_app. cbn [length].
  destruct (decide (labels = [])) as [->|N]; [cbn; lia|]. specialize (IH N). rewrite dotted_cons, !length_app by done. cbn [length]. lia.
Qed.
Lemma encoded_bytes labels : Forall is_label labels → is_bytes (encoded labels).
Proof.
  induction 1 as [|label labels [L F] _ IH]; [apply is_bytes_nil|]. rewrite encoded_cons. apply is_bytes_app; [|done].
  apply is_bytes_one; [unfold is_u8; lia|]. eapply Forall_impl; [exact F|]. intros c Hc. apply name_byte_range, Hc.
Qed.

Lemma encode_name_dotted labels : Forall is_label labels → ∀ fuel packet, (length (dotted labels) ≤ fuel)%nat →
  len packet + len (encoded labels) + 5 ≤ DNS_PACKET_CAPACITY →
  encode_name fuel (dotted labels) packet = Some (packet ++ encoded labels).
Proof.
  induction 1 as [|label labels Hl F IH]; intros fuel packet Hf Hc.
  - destruct fuel; cbn [encode_name dotted]; by rewrite app_nil_r.
  - pose proof (proj1 Hl) as L. rewrite encoded_cons in *. unfold len in *. rewrite length_app in Hc. cbn [length] in Hc.
    assert (length label + length (dotted labels) ≤ length (dotted (label :: labels)))%nat as Ll.
    { destruct labels; [cbn; lia|]. rewrite (dotted_cons label), !length_app by done. lia. }
    destruct fuel as [|fuel]; [lia|]. cbn [encode_name]. destruct (dotted (label :: labels)) as [|c text] eqn:D; [cbn in Ll; lia|].
    rewrite <- D, take_label_dotted by done. unfold len. destruct (Z.ltb_spec DNS_PACKET_CAPACITY (Z.of_nat (length packet) + 1 + Z.of_nat (length label) + 5)); [lia|].
    rewrite u8_small by lia. rewrite IH; [by rewrite <- app_assoc|lia|]. rewrite length_app. cbn [length]. lia.
Qed.

(** Labels behind some bytes, and what follows. *)
Lemma read_labels_encoded labels : Forall is_label labels → ∀ fuel front back, (length labels < fuel)%nat →
  read_labels fuel (front ++ encoded labels ++ 0 :: back) (len front) = Some labels.
Proof.
  induction 1 as [|label labels Hl F IH]; intros fuel front back Hf; (destruct fuel as [|fuel]; [cbn in Hf; lia|]); cbn [read_labels].
  - unfold len. cbn [encoded concat map app]. rewrite <- (Z.add_0_r (Z.of_nat _)), byte_at_app_r by lia. done.
  - cbv zeta. rewrite encoded_cons. cbn [app]. assert (byte_at (front ++ len label :: (label ++ encoded labels) ++ 0 :: back) (len front) = len label) as ->.
    { unfold len at 2. rewrite <- (Z.add_0_r (Z.of_nat _)), byte_at_app_r by lia. done. }
    destruct Hl as [L _]. destruct (Z.eqb_spec (len label) 0); [lia|].
    replace (len front + 1 + len label) with (len (front ++ len label :: label)) by (unfold len; rewrite length_app; cbn [length]; lia).
    replace (front ++ len label :: (label ++ encoded labels) ++ 0 :: back) with ((front ++ len label :: label) ++ encoded labels ++ 0 :: back)
      by (rewrite <- !app_assoc; done).
    rewrite IH by (cbn [length] in Hf; lia). f_equal. f_equal. rewrite <- app_assoc. cbn [app].
    replace (front ++ len label :: label ++ encoded labels ++ 0 :: back) with ((front ++ [len label]) ++ label ++ encoded labels ++ 0 :: back) by (by rewrite <- app_assoc).
    rewrite drop_app_length' by (unfold len; rewrite length_app; cbn [length]; lia). apply take_app_length'. unfold len. lia.
Qed.

Lemma land_192 s : 0 ≤ s < 64 → (Z.land s 192 =? 192) = false.
Proof.
  intros Hs. apply Z.eqb_neq. intros E. assert (Z.testbit (Z.land s 192) 7 = false) as B; [|by rewrite E in B].
  rewrite Z.land_spec, (Z.testbit_eqb s) by lia. by rewrite Z.div_small by lia.
Qed.

Lemma skip_labels_encoded labels : Forall is_label labels → ∀ fuel front back, (length labels < fuel)%nat → is_bytes (front ++ encoded labels ++ 0 :: back) →
  len (front ++ encoded labels ++ 0 :: back) < 65536 →
  skip_labels fuel (front ++ encoded labels ++ 0 :: back) (len (front ++ encoded labels ++ 0 :: back)) (len front) =
    Some (len front + len (encoded labels) + 1).
Proof.
  induction 1 as [|label labels Hl F IH]; intros fuel front back Hf B Ln; (destruct fuel as [|fuel]; [cbn in Hf; lia|]); cbn [skip_labels]; cbv zeta.
  - cbn [encoded concat map app] in *. assert (byte_at (front ++ 0 :: back) (len front) = 0) as ->.
    { unfold len. rewrite <- (Z.add_0_r (Z.of_nat _)), byte_at_app_r by lia. done. }
    unfold len in *. rewrite length_app in *. cbn [length] in *.
    destruct (Z.leb_spec (Z.of_nat (length front + S (length back))) (Z.of_nat (length front))); [lia|]. cbn [Z.eqb]. rewrite u16_small by lia. f_equal. lia.
  - rewrite encoded_cons in *. cbn [app] in *. set (packet := front ++ len label :: (label ++ encoded labels) ++ 0 :: back) in *.
    assert (packet = (front ++ len label :: label) ++ encoded labels ++ 0 :: back) as Ep by (unfold packet; rewrite <- !app_assoc; done).
    assert (byte_at packet (len front) = len label) as ->.
    { unfold packet. unfold len at 2. rewrite <- (Z.add_0_r (Z.of_nat _)), byte_at_app_r by lia. done. }
    destruct Hl as [L _]. assert (len packet = len front + 1 + len label + len (encoded labels) + 1 + len back) as Lp.
    { unfold packet, len. rewrite !length_app. cbn [length]. rewrite !length_app. cbn [length]. lia. }
    assert (0 ≤ len front ∧ 0 ≤ len back ∧ 0 ≤ len (encoded labels)) as (?&?&?) by (unfold len; lia).
    destruct (Z.leb_spec (len packet) (len front)); [lia|]. destruct (Z.eqb_spec (len label) 0); [lia|]. rewrite land_192 by lia.
    rewrite (u16_small (len front + 1)) by lia. destruct (Z.ltb_spec 63 (len label)); [lia|].
    destruct (Z.ltb_spec (len packet) (len front + 1 + len label)); [lia|]. cbn [orb]. rewrite u16_small by lia.
    replace (len front + 1 + len label) with (len (front ++ len label :: label)) by (unfold len; rewrite length_app; cbn [length]; lia).
    rewrite Ep in *. rewrite IH; [|cbn [length] in Hf; lia|done|lia]. f_equal. unfold len. rewrite !length_app. cbn [length]. rewrite !length_app. cbn [length]. lia.
Qed.

(** A host name, as its labels between the dots: letters of either case, digits and
    hyphens. *)
Fixpoint split_dots (text : list Z) : list (list Z) :=
  match text with
  | [] => [[]]
  | c :: text =>
      if c =? 46 then [] :: split_dots text
      else match split_dots text with l :: r => (c :: l) :: r | [] => [[c]] end
  end.
Definition host_byte (c : Z) : Prop := 48 ≤ c ≤ 57 ∨ 65 ≤ c ≤ 90 ∨ 97 ≤ c ≤ 122 ∨ c = 45.
#[export] Instance host_byte_dec c : Decision (host_byte c) := ltac:(unfold host_byte; apply _).
Definition host_label (l : list Z) : Prop := 1 ≤ len l ≤ 63 ∧ Forall host_byte l.
#[export] Instance host_label_dec l : Decision (host_label l) := ltac:(unfold host_label; apply _).
Definition host_name (text : list Z) : Prop := len text < DNS_HOSTNAME_CAPACITY ∧ Forall host_label (split_dots text).
(** The letter from a to z that a letter from A to Z is. *)
Definition lower_case (c : Z) : Z := if bool_decide (65 ≤ c ≤ 90) then 97 + (c - 65) else c.

Lemma lower_lower_case c : lower c = lower_case c.
Proof. unfold lower, lower_case. destruct (bool_decide_reflect (65 ≤ c ≤ 90)), (Z.leb_spec 65 c), (Z.leb_spec c 90); cbn [andb]; lia. Qed.
Lemma lower_case_dot c : (lower_case c =? 46) = (c =? 46).
Proof. unfold lower_case. destruct (bool_decide_reflect (65 ≤ c ≤ 90)), (Z.eqb_spec c 46); lia. Qed.
Lemma lower_case_byte c : name_byte (lower_case c) = true ↔ host_byte c.
Proof.
  unfold name_byte, host_byte, lower_case, is_digit. rewrite !orb_true_iff, !andb_true_iff, !Z.leb_le, Z.eqb_eq.
  destruct (bool_decide_reflect (65 ≤ c ≤ 90)); lia.
Qed.

Lemma split_dots_cons text : ∃ l r, split_dots text = l :: r.
Proof. destruct text as [|c text]; cbn; [by eexists _, _|]. destruct (c =? 46); [by eexists _, _|]. destruct (split_dots text); by eexists _, _. Qed.
Lemma split_dots_lower text : split_dots (map lower_case text) = map (map lower_case) (split_dots text).
Proof.
  induction text as [|c text IH]; [done|]. cbn [map split_dots]. rewrite lower_case_dot, IH. destruct (c =? 46); [done|].
  by destruct (split_dots_cons text) as (l&r&->).
Qed.
Lemma split_dots_label label : Forall (λ c, name_byte c = true) label → split_dots label = [label] ∧ ∀ text, split_dots (label ++ 46 :: text) = label :: split_dots text.
Proof.
  induction 1 as [|c label Hc _ [IH1 IH2]]; [by split|]. cbn [app split_dots]. destruct (name_byte_range c Hc) as [_ N].
  split; [|intros text]; (destruct (Z.eqb_spec c 46); [done|]); [by rewrite IH1|by rewrite IH2].
Qed.
Lemma split_dots_dotted labels : Forall is_label labels → labels ≠ [] → split_dots (dotted labels) = labels.
Proof.
  induction 1 as [|label labels [_ F] _ IH]; [done|]. intros _. destruct (split_dots_label label F) as [S1 S2].
  destruct labels as [|b labels]; [exact S1|]. change (dotted (label :: b :: labels)) with (label ++ 46 :: dotted (b :: labels)). by rewrite S2, IH.
Qed.

(** What comes out is what went in, in lower case. *)
Lemma normalize_loop_map capacity source : ∀ l destination name, normalize_loop capacity l source destination = Some name →
  name = destination ++ map lower_case source.
Proof.
  induction source as [|c source IH]; intros l destination name; cbn [normalize_loop map].
  - destruct (l =? 0); [done|]. intros [= <-]. by rewrite app_nil_r.
  - cbv zeta. rewrite lower_lower_case. assert (∀ l, normalize_loop capacity l source (destination ++ [lower_case c]) = Some name →
      name = destination ++ lower_case c :: map lower_case source) as X by (intros l' ->%IH; by rewrite <- app_assoc).
    destruct (_ =? 46); (destruct (_ || _); [done|apply X]).
Qed.

(** A host name is accepted. *)
Lemma normalize_loop_accepts capacity source : ∀ l destination first rest, 0 ≤ l → split_dots source = first :: rest →
  1 ≤ l + len first ≤ 63 → Forall host_byte first → Forall host_label rest → len destination + len source < capacity →
  is_Some (normalize_loop capacity l source destination).
Proof.
  induction source as [|c source IH]; intros l destination first rest Hl S L F R Ld; cbn [normalize_loop split_dots] in *.
  - injection S as <- <-. unfold len in L. cbn in L. destruct (Z.eqb_spec l 0); [lia|by eexists].
  - cbv zeta. rewrite lower_lower_case, lower_case_dot. destruct (split_dots_cons source) as (l2&r2&E).
    assert (∀ x, len (destination ++ [x]) + len source < capacity) as Ln
      by (intros x; unfold len in *; rewrite length_app; cbn [length] in *; lia).
    assert (len destination + 1 < capacity) as Lc by (unfold len in *; cbn [length] in Ld; lia).
    destruct (Z.leb_spec capacity (len destination + 1)); [lia|]. destruct (Z.eqb_spec c 46) as [->|N].
    + injection S as <- <-. unfold len in L at 1 2. cbn in L. destruct (Z.eqb_spec l 0), (Z.ltb_spec 63 l); try lia. cbn [orb].
      rewrite E in R. apply Forall_cons in R as [[R1 R2] R3]. by apply (IH 0 _ l2 r2).
    + rewrite E in S. injection S as <- <-. apply Forall_cons in F as [Fc F]. rewrite (proj2 (lower_case_byte c) Fc).
      unfold len in L at 1 2. cbn [length] in L. fold (len l2) in L. destruct (Z.ltb_spec 63 (l + 1)); [lia|]. cbn [negb orb].
      apply (IH (l + 1) _ l2 r2); [lia|done|unfold len; lia|done|done|apply Ln].
Qed.

Lemma normalize_labels hostname name : normalize_hostname DNS_HOSTNAME_CAPACITY hostname = Some name →
  ∃ labels, name = dotted labels ∧ Forall is_label labels ∧ labels ≠ [] ∧ len name < DNS_HOSTNAME_CAPACITY ∧ name = map lower_case hostname.
Proof.
  unfold normalize_hostname. destruct (_ || _); [done|]. intros N.
  destruct (normalize_loop_labels 128 hostname 0 [] name ltac:(lia) N [] [] eq_refl) as (labels&En&Fl&Nl&Ln); [done|done|lia|by apply Forall_nil|done|].
  exists labels. split_and!; try done. exact (normalize_loop_map _ _ _ _ _ N).
Qed.
Lemma normalize_accepts hostname : host_name hostname → is_Some (normalize_hostname DNS_HOSTNAME_CAPACITY hostname).
Proof.
  intros [L F]. unfold normalize_hostname. destruct (split_dots_cons hostname) as (first&rest&E). rewrite E in F.
  apply Forall_cons in F as [[F1 F2] F3]. destruct (bool_decide_reflect (hostname = [])) as [->|_].
  { injection E as <- <-. unfold len in F1. cbn in F1. lia. }
  cbn. by apply (normalize_loop_accepts 128 hostname 0 [] first rest).
Qed.

(** The packet of a name of labels. *)
Lemma query_packet_labels identifier name labels : is_u16 identifier → name = dotted labels → Forall is_label labels → labels ≠ [] →
  len name < DNS_HOSTNAME_CAPACITY →
  ∃ packet, query_packet identifier name = Some packet ∧ len packet ≤ DNS_PACKET_CAPACITY ∧ net_read_be16 packet 0 = identifier ∧
    read_labels 128 packet 12 = Some labels ∧ skip_questions 1 packet (len packet) 12 = Some (len packet).
Proof.
  intros Hi En Fl Nl Ln. change DNS_HOSTNAME_CAPACITY with 128 in Ln.
  pose proof (length_encoded labels Nl) as Le. rewrite <- En in Le. unfold query_packet. cbv zeta. change DNS_PACKET_CAPACITY with 512 in *.
  set (header := net_write_be16 identifier ++ net_write_be16 256 ++ net_write_be16 1 ++ replicate 6 0).
  assert (is_bytes header) as Bh by (unfold header; assert (is_bytes (replicate 6 0)) by (apply Forall_replicate; done); auto 10 with bytes).
  assert (encode_name (length name) name header = Some (header ++ encoded labels)) as ->.
  { rewrite En at 2. apply encode_name_dotted; [done|by rewrite En|]. change (len header) with 12. change DNS_PACKET_CAPACITY with 512. lia. }
  set (back := net_write_be16 1 ++ net_write_be16 1). rewrite <- app_assoc. cbn [app].
  assert (is_bytes (header ++ encoded labels ++ 0 :: back)) as B.
  { apply is_bytes_app; [done|]. apply is_bytes_app; [by apply encoded_bytes|]. apply is_bytes_one; [done|]. unfold back. auto with bytes. }
  assert (len (header ++ encoded labels ++ 0 :: back) = 12 + len (encoded labels) + 5) as Lp.
  { unfold len. rewrite !length_app. change (length header) with 12%nat. change (length (0 :: back)) with 5%nat. lia. }
  assert (length labels < 128)%nat as Lb.
  { assert (∀ ls, Forall is_label ls → (2 * length ls ≤ length (encoded ls))%nat) as Len.
    { induction 1 as [|b l [Lb _] _ IH]; [done|]. rewrite encoded_cons, length_app. unfold len in *. cbn [length]. lia. }
    specialize (Len labels Fl). unfold len in *. lia. }
  exists (header ++ encoded labels ++ 0 :: back). split_and!; try done.
  - lia.
  - unfold header. rewrite <- !app_assoc. apply (read16_at 0 []); [done|apply is_bytes_nil| |done].
    unfold header in B. rewrite <- !app_assoc in B. unfold is_bytes in B. apply Forall_app in B as [_ B]. exact B.
  - exact (read_labels_encoded labels Fl 128 header back Lb).
  - cbn [skip_questions]. unfold skip_name. pose proof (skip_labels_encoded labels Fl 128 header back Lb B ltac:(lia)) as S.
    change (len header) with 12 in S. rewrite S. destruct (Z.ltb_spec (len (header ++ encoded labels ++ 0 :: back)) (12 + len (encoded labels) + 1 + 4)); [lia|].
    rewrite u16_small by (unfold len in *; lia). f_equal. lia.
Qed.

(** C11: The question for a host name asks for that name.  A name of fewer than 128
    bytes whose labels, between the dots, have 1 to 63 letters, digits and
    hyphens is accepted, and nothing else is.  The question has the identifier it
    was given, fits its buffer, and the labels in it are those of the name with
    every capital letter replaced by the small one; the reader of answers finds
    the question's end at the end of the packet. *)
Theorem dns_question_names identifier hostname : is_u16 identifier →
  (host_name hostname → let name := map lower_case hostname in
     normalize_hostname DNS_HOSTNAME_CAPACITY hostname = Some name ∧
     ∃ packet, query_packet identifier name = Some packet ∧ len packet ≤ DNS_PACKET_CAPACITY ∧ net_read_be16 packet 0 = identifier ∧
       read_labels 128 packet 12 = Some (split_dots name) ∧ skip_questions 1 packet (len packet) 12 = Some (len packet)) ∧
  (¬ host_name hostname → normalize_hostname DNS_HOSTNAME_CAPACITY hostname = None).
Proof.
  intros Hi. split.
  - intros Hn. cbv zeta. assert (is_Some (normalize_hostname DNS_HOSTNAME_CAPACITY hostname)) as [name N] by by apply normalize_accepts.
    destruct (normalize_labels _ _ N) as (labels&En&Fl&Nl&Ln&->). split; [done|].
    destruct (query_packet_labels identifier _ labels Hi En Fl Nl Ln) as (packet&E1&E2&E3&E4&E5). exists packet.
    split_and!; try done. by rewrite En, split_dots_dotted.
  - intros Hn. destruct (normalize_hostname _ _) as [name|] eqn:N; [|done]. destruct Hn.
    destruct (normalize_labels _ _ N) as (labels&En&Fl&Nl&Ln&Em). split.
    + unfold len in *. by rewrite Em, length_map in Ln.
    + rewrite Em in En. pose proof (split_dots_dotted labels Fl Nl) as S. rewrite <- En, split_dots_lower in S. rewrite <- S in Fl.
      rewrite Forall_map in Fl. eapply Forall_impl; [exact Fl|]. intros l [L F]. unfold len in L. rewrite length_map in L.
      split; [done|]. rewrite Forall_map in F. eapply Forall_impl; [exact F|]. intros c Hc. by apply lower_case_byte.
Qed.

(** ** The cache *)

(** A name, the address it was stored with, when and for how many seconds. *)
Record told := Told { td_name : list Z; td_address : Z; td_time : Z; td_ttl : Z }.

Inductive cache_history : list told → list dns_cache_entry → Prop :=
| cache_empty : cache_history [] (replicate DNS_CACHE_CAPACITY dns_cache_zero)
| cache_told log cache now name address ttl : cache_history log cache → 0 ≤ now < 2 ^ 64 → is_u32 ttl →
    cache_history (Told name address now ttl :: log) (cache_store now name address ttl cache).

Definition kept (name : list Z) : list Z := take (Z.to_nat (DNS_CACHE_NAME_CAPACITY - 1)) name.
Definition tells (log : list told) (e : dns_cache_entry) : Prop :=
  dc_address e = 0 ∨ ∃ x, x ∈ log ∧ td_address x = dc_address e ∧ kept (td_name x) = dc_name e ∧ dc_expires_ms e ≤ td_time x + td_ttl x * 1000.

Lemma aget_aset_or {A} (d : A) l i x j : aget d (aset l i x) j = x ∨ aget d (aset l i x) j = aget d l j.
Proof. unfold aget, aset. rewrite !nth_lookup, list_lookup_insert. destruct (decide _); [by left|by right]. Qed.

Lemma cache_history_tells log cache : cache_history log cache → ∀ i, tells log (aget dns_cache_zero cache i).
Proof.
  induction 1 as [|log cache now name address ttl _ IH Hn Ht]; intros i; [left; by rewrite aget_replicate|].
  assert (tells (Told name address now ttl :: log) (aget dns_cache_zero cache i)) as Old.
  { destruct (IH i) as [E|(x&X&Y)]; [by left|right]. exists x. split; [by right|done]. }
  unfold cache_store. destruct (_ || _); [done|]. cbv zeta. set (slot := cache_slot _ _ _ _ _ _). set (e := DnsCacheEntry _ _ _).
  destruct (aget_aset_or dns_cache_zero cache slot e i) as [-> | ->]; [|done]. right. exists (Told name address now ttl). split; [by left|]. split; [done|]. split; [done|].
  unfold e. cbn [dc_expires_ms td_time td_ttl]. unfold is_u32 in Ht. rewrite (u64_small (ttl * 1000)) by lia.
  destruct (Z.ltb_spec (2 ^ 64 - 1 - now) (ttl * 1000)); [lia|]. rewrite u64_small by lia. lia.
Qed.

(** C10: The cache gives out an address only for as long as it was told to, and for a name of less than 63 bytes only the address
    of that name. *)
Theorem dns_cache_sound log cache now name address : cache_history log cache → cache_lookup now name cache = Some address →
  ∃ x, x ∈ log ∧ td_address x = address ∧ now < td_time x + td_ttl x * 1000 ∧ kept (td_name x) = name ∧ (len name < 63 → td_name x = name).
Proof.
  intros C. unfold cache_lookup. destruct (for_first _ _ _) as [i|] eqn:F; [|done]. intros [= <-].
  apply for_first_Some in F as (_&P&_). cbv zeta in P. apply andb_true_iff in P as [[P1 P2]%andb_true_iff P3].
  apply negb_true_iff, Z.eqb_neq in P1. apply Z.ltb_lt in P2. apply bool_decide_eq_true_1 in P3.
  destruct (cache_history_tells log cache C i) as [E|(x&X&E1&E2&E3)]; [done|]. exists x. split_and!; [done|done|lia|congruence|].
  intros L. rewrite <- P3, <- E2 in L |- *. unfold kept, len in *. change (Z.to_nat (DNS_CACHE_NAME_CAPACITY - 1)) with 63%nat in *.
  rewrite length_take in L. rewrite take_ge; [done|lia].
Qed.

Definition example_name : list Z := [112; 117; 114; 101; 99; 46; 111; 115].
Definition example_cache : list dns_cache_entry :=
  cache_store 2000 [97] 5 60 (cache_store 1000 example_name 167772162 60 (replicate DNS_CACHE_CAPACITY dns_cache_zero)).
Lemma dns_cache_sound_witness : ∃ x, x ∈ [Told [97] 5 2000 60; Told example_name 167772162 1000 60] ∧ td_address x = 167772162 ∧
  60000 < td_time x + td_ttl x * 1000 ∧ td_name x = example_name.
Proof.
  assert (cache_history [Told [97] 5 2000 60; Told example_name 167772162 1000 60] example_cache) as C
    by (apply cache_told; [apply cache_told; [apply cache_empty|lia|done]|lia|done]).
  assert (cache_lookup 60000 example_name example_cache = Some 167772162) as L by (vm_compute; reflexivity).
  destruct (dns_cache_sound _ _ _ _ _ C L) as (x&X&E1&E2&_&E3). exists x. split; [exact X|split; [exact E1|split; [exact E2|]]]. apply E3. done.
Defined.

(** A name of 63 bytes or more is kept without its end, and its address is given out for the beginning. *)
Definition long_name : list Z := replicate 40 97 ++ [46] ++ replicate 22 98.
Lemma dns_cache_mixes_names : normalize_hostname DNS_HOSTNAME_CAPACITY long_name = Some long_name ∧
  normalize_hostname DNS_HOSTNAME_CAPACITY (long_name ++ [46; 99; 99]) = Some (long_name ++ [46; 99; 99]) ∧
  cache_lookup 2000 long_name (cache_store 1000 (long_name ++ [46; 99; 99]) 167772162 60 (replicate DNS_CACHE_CAPACITY dns_cache_zero)) = Some 167772162.
Proof. by vm_compute. Qed.

(** "PureC.OS". *)
Lemma dns_question_names_witness : host_name [80; 117; 114; 101; 67; 46; 79; 83] ∧
  ∃ packet, query_packet 16641 example_name = Some packet ∧ len packet ≤ DNS_PACKET_CAPACITY ∧
  read_labels 128 packet 12 = Some [[112; 117; 114; 101; 99]; [111; 115]] ∧ skip_questions 1 packet (len packet) 12 = Some (len packet).
Proof.
  assert (host_name [80; 117; 114; 101; 67; 46; 79; 83]) as Hn.
  { split; [vm_compute; reflexivity|]. apply (bool_decide_unpack _). vm_compute. exact I. }
  split; [exact Hn|]. assert (is_u16 16641) as Hi by (unfold is_u16; lia).
  destruct (dns_question_names 16641 [80; 117; 114; 101; 67; 46; 79; 83] Hi) as [Q _].
  destruct (Q Hn) as [_ (p&E1&E2&_&E3&E4)]. exists p. split; [exact E1|split; [exact E2|split; [exact E3|exact E4]]].
Defined.

(** An answer with a pointer for a name, and bytes of something else behind it. *)
Definition example_answer : list Z :=
  [65; 1; 129; 128; 0; 1; 0; 1; 0; 0; 0; 0; 1; 97; 0; 0; 1; 0; 1; 192; 12; 0; 1; 0; 1; 0; 0; 0; 60; 0; 4; 10; 0; 0; 2].
Lemma dns_answer_inside_witness : parse_response (example_answer ++ [1; 2; 3]) (len example_answer) = parse_response example_answer (len example_answer) ∧
  parse_response example_answer (len example_answer) = Some (167772162, 60).
Proof.
  split; [|vm_compute; reflexivity]. apply dns_answer_inside; [apply (bool_decide_unpack _); vm_compute; exact I|]. vm_compute. by split.
Defined.
