(* ===== verification/Pipe.v ===== *)
(** * Pipes (src/src/kernel/ipc/pipe.c)

    The table of 128 pipes, each a 16 KiB ring on four adjacent frames with two
    end counts and two lists of blocked threads.  Every entry point holds
    [pipe_mutex] while it touches a pipe; [pipe_read] and [pipe_write] release
    it between the iterations of their loop, so one iteration is one atomic
    step of the model, and what the thread does next is part of its result.
    The scheduler is not modelled: the ids of the threads an operation wakes
    are returned, and blocking is an outcome.  [pending] is the answer of
    [signal_pending_current] in that iteration. *)

From S2P Require Import Prelude Errno Pmm Ring.

(** [src/kernel/ipc/pipe.c:9-9] PIPE_MAX *)
Definition PIPE_MAX : nat := 128.
(** [src/kernel/ipc/pipe.c:10-10] PIPE_PAGES *)
Definition PIPE_PAGES : Z := 4.
(** [src/kernel/ipc/pipe.c:11-11] PIPE_CAPACITY *)
Definition PIPE_CAPACITY : Z := PIPE_PAGES * 4096.
(** [src/kernel/ipc/pipe.c:12-12] PIPE_WAITERS *)
Definition PIPE_WAITERS : nat := 8.

(** [bytes] is the memory [buffer] points to, zero where nothing was written.
    [src/kernel/ipc/pipe.c:14-25] pipe *)
Record pipe := Pipe {
  used : bool;
  buffer : Z;
  bytes : gmap Z Z;
  phys : Z;
  head : Z;
  count : Z;
  readers : Z;
  writers : Z;
  read_waiters : list Z;
  write_waiters : list Z;
}.
#[export] Instance eta_pipe : Eta pipe := λ p,
  Pipe (used p) (buffer p) (bytes p) (phys p) (head p) (count p) (readers p) (writers p)
       (read_waiters p) (write_waiters p).

Definition no_waiters : list Z := replicate PIPE_WAITERS 0.
(** [memset] of a whole pipe to zero *)
Definition pipe_zero : pipe := Pipe false 0 ∅ 0 0 0 0 0 no_waiters no_waiters.

(** [src/kernel/ipc/pipe.c:30-35] waiters_clear *)
Definition waiters_clear (tid : Z) (l : list Z) : list Z :=
  map (λ t, if t =? tid then 0 else t) l.
(** [src/kernel/ipc/pipe.c:37-53] waiters_add *)
Definition waiters_add (tid : Z) (l : list Z) : bool * list Z :=
  if negb (z_find (λ i, aget 0 l i =? tid) PIPE_WAITERS =? -1) then (true, l) else
  let i := z_find (λ i, aget 0 l i =? 0) PIPE_WAITERS in
  if i =? -1 then (false, l) else (true, aset l i tid).
(** The ids taken, in the order of the list, and the emptied list.
    [src/kernel/ipc/pipe.c:55-67] waiters_take *)
Definition waiters_take (l : list Z) : list Z * list Z :=
  (filter (λ t, t ≠ 0) l, map (λ t, if t =? 0 then t else 0) l).

(** [static struct pipe pipes[PIPE_MAX]] in zeroed memory.
    [src/kernel/ipc/pipe.c:28-28] pipes *)
Definition pipes_init : list pipe := replicate PIPE_MAX pipe_zero.
Definition pipe_at (s : list pipe) (id : Z) : pipe := aget pipe_zero s id.
(** [src/kernel/ipc/pipe.c:75-80] pipe_get *)
Definition pipe_get (id : Z) (s : list pipe) : option pipe :=
  if (id <? 0) || (Z.of_nat PIPE_MAX <=? id) || negb (used (pipe_at s id))
  then None else Some (pipe_at s id).

(** The result and the id stored through the pointer.
    [src/kernel/ipc/pipe.c:82-107] pipe_create *)
Definition pipe_create (s : list pipe) (p : pmm) : Z * option Z * list pipe * pmm :=
  let i := z_find (λ i, negb (used (pipe_at s i))) PIPE_MAX in
  if i =? -1 then (- KERR_NFILE, None, s, p) else
  let '(ph, p) := pmm_allocate_contiguous PIPE_PAGES p in
  if ph =? 0 then (- KERR_NOMEM, None, s, p) else
  let pi := pipe_zero <| used := true |> <| phys := ph |>
              <| buffer := pmm_physical_to_virtual p ph |> <| readers := 1 |> <| writers := 1 |> in
  (0, Some i, aset s i pi, p).

(** [src/kernel/ipc/pipe.c:109-121] pipe_ref *)
Definition pipe_ref (id : Z) (write_end : bool) (s : list pipe) : list pipe :=
  match pipe_get id s with
  | Some pi =>
      aset s id (if write_end then pi <| writers := u32 (writers pi + 1) |>
                 else pi <| readers := u32 (readers pi + 1) |>)
  | None => s
  end.

(** The threads woken, the pipes and the page allocator.
    [src/kernel/ipc/pipe.c:123-148] pipe_release *)
Definition pipe_release (id : Z) (write_end : bool) (s : list pipe) (p : pmm)
    : list Z * list pipe * pmm :=
  match pipe_get id s with
  | Some pi =>
      let pi := if write_end && negb (writers pi =? 0) then pi <| writers := u32 (writers pi - 1) |>
                else if negb write_end && negb (readers pi =? 0)
                then pi <| readers := u32 (readers pi - 1) |> else pi in
      if (readers pi =? 0) && (writers pi =? 0)
      then ([], aset s id pipe_zero, pmm_free_contiguous (phys pi) PIPE_PAGES p)
      else
        let '(w1, l1) := waiters_take (read_waiters pi) in
        let '(w2, l2) := waiters_take (write_waiters pi) in
        (w1 ++ w2, aset s id (pi <| read_waiters := l1 |> <| write_waiters := l2 |>), p)
  | None => ([], s, p)
  end.

(** [for (i...) out[i] = pipe->buffer[(pipe->head + i) % PIPE_CAPACITY]]
    [src/kernel/ipc/pipe.c:171-172] pipe_read *)
Fixpoint copy_out (n : nat) (pi : pipe) (i : Z) : list Z :=
  match n with
  | O => []
  | S n' => cell (bytes pi) (u32 (head pi + i) mod PIPE_CAPACITY) :: copy_out n' pi (i + 1)
  end.
(** [src/kernel/ipc/pipe.c:232-234] pipe_write *)
Fixpoint copy_in (data : list Z) (pi : pipe) (i : Z) (m : gmap Z Z) : gmap Z Z :=
  match data with
  | [] => m
  | b :: data' =>
      copy_in data' pi (i + 1) (<[u32 (head pi + count pi + i) mod PIPE_CAPACITY := b]> m)
  end.

(** What an iteration leads to: the call returns, or the thread blocks (sleeps
    one tick when the waiter list is full) and runs another iteration. *)
Inductive outcome := Returns (r : Z) | Blocks | Sleeps.

(** One iteration of the loop of [pipe_read]: the outcome, the bytes stored in
    the caller's buffer, the threads woken and the new pipes.
    [src/kernel/ipc/pipe.c:155-201] pipe_read *)
Definition pipe_read_step (self id n : Z) (nonblock pending : bool) (s : list pipe)
    : outcome * list Z * list Z * list pipe :=
  match pipe_get id s with
  | None => (Returns (- KERR_BADF), [], [], s)
  | Some pi =>
      let pi := pi <| read_waiters := waiters_clear self (read_waiters pi) |> in
      if negb (count pi =? 0) then
        let amount := if n <? count pi then n else count pi in
        let out := copy_out (Z.to_nat amount) pi 0 in
        let '(wake, l) := waiters_take (write_waiters pi) in
        let pi := pi <| head := u32 (head pi + amount) mod PIPE_CAPACITY |>
                     <| count := u32 (count pi - amount) |> <| write_waiters := l |> in
        (Returns (i32 amount), out, wake, aset s id pi)
      else if writers pi =? 0 then (Returns 0, [], [], aset s id pi)
      else if nonblock then (Returns (- KERR_AGAIN), [], [], aset s id pi)
      else if pending then (Returns (- KERR_INTR), [], [], aset s id pi)
      else
        let '(registered, l) := waiters_add self (read_waiters pi) in
        (if registered then Blocks else Sleeps, [], [], aset s id (pi <| read_waiters := l |>))
  end.

(** The outcome of an iteration of [pipe_write]; [Continue] runs the loop
    condition again with the new count, [SIGPIPE] is raised in [Broken]. *)
Inductive write_outcome :=
| WContinue (written : Z) | WReturns (r : Z) | WBroken (r : Z) | WBlocks | WSleeps.

(** One iteration of the loop of [pipe_write], entered with
    [written < count]; [data] is the caller's whole buffer of [count] bytes.
    Also returned: the bytes appended, the threads woken and the new pipes.
    [src/kernel/ipc/pipe.c:210-258] pipe_write *)
Definition pipe_write_step (self id : Z) (data : list Z) (written : Z) (nonblock pending : bool)
    (s : list pipe) : write_outcome * list Z * list Z * list pipe :=
  let n := Z.of_nat (length data) in
  let or_error e := if negb (written =? 0) then i32 written else - e in
  match pipe_get id s with
  | None => (WReturns (or_error KERR_BADF), [], [], s)
  | Some pi =>
      let pi := pi <| write_waiters := waiters_clear self (write_waiters pi) |> in
      if readers pi =? 0 then (WBroken (or_error KERR_PIPE), [], [], aset s id pi) else
      let space := u32 (PIPE_CAPACITY - count pi) in
      if negb (space =? 0) then
        let amount := if u32 (n - written) <? space then u32 (n - written) else space in
        let chunk := take (Z.to_nat amount) (drop (Z.to_nat written) data) in
        let '(wake, l) := waiters_take (read_waiters pi) in
        let pi := pi <| bytes := copy_in chunk pi 0 (bytes pi) |>
                     <| count := u32 (count pi + amount) |> <| read_waiters := l |> in
        (WContinue (u32 (written + amount)), chunk, wake, aset s id pi)
      else if nonblock then (WReturns (or_error KERR_AGAIN), [], [], aset s id pi)
      else if pending then (WReturns (or_error KERR_INTR), [], [], aset s id pi)
      else
        let '(registered, l) := waiters_add self (write_waiters pi) in
        (if registered then WBlocks else WSleeps, [], [], aset s id (pi <| write_waiters := l |>))
  end.

(** [src/kernel/ipc/pipe.c:262-287] pipe_poll *)
Definition pipe_poll (id : Z) (write_end : bool) (s : list pipe) : Z :=
  match pipe_get id s with
  | None => KPOLLNVAL
  | Some pi =>
      if write_end then
        let r := if count pi <? PIPE_CAPACITY then Z.lor 0 KPOLLOUT else 0 in
        if readers pi =? 0 then Z.lor r KPOLLERR else r
      else
        let r := if negb (count pi =? 0) then Z.lor 0 KPOLLIN else 0 in
        if writers pi =? 0 then Z.lor r KPOLLHUP else r
  end.

(** ** Whole calls

    What the caller sees of a call depends on the state each of its iterations
    finds; a schedule lists, per iteration, the pipes at that moment and
    whether a signal is pending.  [None] is a call still running when the
    schedule ends. *)

Definition schedule := list (list pipe * bool).

(** The result and all bytes stored.
    [src/kernel/ipc/pipe.c:150-202] pipe_read *)
Fixpoint pipe_read (self id n : Z) (nonblock : bool) (sched : schedule) : option (Z * list Z) :=
  if n =? 0 then Some (0, []) else
  match sched with
  | [] => None
  | (s, pending) :: sched' =>
      match pipe_read_step self id n nonblock pending s with
      | (Returns r, out, _, _) => Some (r, out)
      | _ => pipe_read self id n nonblock sched'
      end
  end.

(** The result and all bytes appended to the pipe.
    [src/kernel/ipc/pipe.c:204-260] pipe_write *)
Fixpoint write_loop (self id : Z) (data : list Z) (written : Z) (nonblock : bool)
    (sched : schedule) : option (Z * list Z) :=
  if negb (written <? Z.of_nat (length data)) then Some (i32 written, []) else
  match sched with
  | [] => None
  | (s, pending) :: sched' =>
      match pipe_write_step self id data written nonblock pending s with
      | (WReturns r, out, _, _) | (WBroken r, out, _, _) => Some (r, out)
      | (WContinue written', out, _, _) =>
          '(r, rest) ← write_loop self id data written' nonblock sched'; Some (r, out ++ rest)
      | _ => write_loop self id data written nonblock sched'
      end
  end.
(** [src/kernel/ipc/pipe.c:204-260] pipe_write *)
Definition pipe_write (self id : Z) (data : list Z) (nonblock : bool) (sched : schedule)
    : option (Z * list Z) := write_loop self id data 0 nonblock sched.

(** ** The system of pipes

    All threads together: a state, the operations they perform in any order,
    and the history of the bytes that went into and out of each pipe. *)
Record world := World {
  w_pipes : list pipe;
  w_pmm : pmm;
  w_sent : list (list Z);
  w_received : list (list Z);
}.
#[export] Instance eta_world : Eta world := λ w,
  World (w_pipes w) (w_pmm w) (w_sent w) (w_received w).

Inductive event :=
| ECreate
| ERef (id : Z) (write_end : bool)
| ERelease (id : Z) (write_end : bool)
| ERead (self id n : Z) (nonblock pending : bool)
| EWrite (self id : Z) (data : list Z) (written : Z) (nonblock pending : bool).

Definition exec (e : event) (w : world) : world :=
  match e with
  | ECreate =>
      let '(r, id, s, p) := pipe_create (w_pipes w) (w_pmm w) in
      match id with
      | Some i => World s p (aset (w_sent w) i []) (aset (w_received w) i [])
      | None => w <| w_pipes := s |> <| w_pmm := p |>
      end
  | ERef id we => w <| w_pipes := pipe_ref id we (w_pipes w) |>
  | ERelease id we =>
      let '(_, s, p) := pipe_release id we (w_pipes w) (w_pmm w) in
      w <| w_pipes := s |> <| w_pmm := p |>
  | ERead self id n nb pd =>
      let '(_, out, _, s) := pipe_read_step self id n nb pd (w_pipes w) in
      w <| w_pipes := s |>
        <| w_received := aset (w_received w) id (aget [] (w_received w) id ++ out) |>
  | EWrite self id data k nb pd =>
      let '(_, out, _, s) := pipe_write_step self id data k nb pd (w_pipes w) in
      w <| w_pipes := s |>
        <| w_sent := aset (w_sent w) id (aget [] (w_sent w) id ++ out) |>
  end.

(** What the callers guarantee: thread ids are not zero, a count is a C
    [uint32_t], a write iteration is entered inside its loop, and an end count
    stays below its maximum (there are 4096 descriptions to refer to a pipe). *)
Definition event_ok (e : event) (w : world) : Prop :=
  match e with
  | ERef id _ => readers (pipe_at (w_pipes w) id) < UINT32_MAX ∧
                 writers (pipe_at (w_pipes w) id) < UINT32_MAX
  | ERead self id n _ _ => self ≠ 0 ∧ 0 < n < 2 ^ 32
  | EWrite self id data k _ _ => self ≠ 0 ∧ 0 ≤ k < Z.of_nat (length data) ∧
                                 Z.of_nat (length data) < 2 ^ 32
  | _ => True
  end.

Definition world_init (p : pmm) : world :=
  World pipes_init p (replicate PIPE_MAX []) (replicate PIPE_MAX []).

Inductive reachable : world → Prop :=
| reachable_init p : pmm_wf p → reachable (world_init p)
| reachable_step w e : reachable w → event_ok e w → reachable (exec e w).

(** The bytes in a pipe, oldest first. *)
Definition contents (pi : pipe) : list Z := ring_contents PIPE_CAPACITY (bytes pi) (head pi) (count pi).

(** ** Invariant *)

Definition waiting (l : list Z) : Prop := ∃ t, t ∈ l ∧ t ≠ 0.

Record pipe_ok (pi : pipe) : Prop := {
  po_head : 0 ≤ head pi < PIPE_CAPACITY;
  po_count : 0 ≤ count pi ≤ PIPE_CAPACITY;
  po_readers : is_u32 (readers pi);
  po_writers : is_u32 (writers pi);
  po_rlen : length (read_waiters pi) = PIPE_WAITERS;
  po_wlen : length (write_waiters pi) = PIPE_WAITERS;
  po_rwait : waiting (read_waiters pi) → count pi = 0 ∧ writers pi ≠ 0;
  po_wwait : waiting (write_waiters pi) → count pi = PIPE_CAPACITY ∧ readers pi ≠ 0;
}.

(** The pipe's buffer is four frames in use, from frame [f] on. *)
Definition owns (p : pmm) (pi : pipe) (f : Z) : Prop :=
  phys pi = f * 4096 ∧ 1 ≤ f ∧ f + PIPE_PAGES ≤ frame_limit p ∧
  ∀ g, f ≤ g < f + PIPE_PAGES → frame_is_used p g = true.

Record world_wf (w : world) : Prop := {
  ww_pmm : pmm_wf (w_pmm w);
  ww_len : length (w_pipes w) = PIPE_MAX ∧ length (w_sent w) = PIPE_MAX ∧
           length (w_received w) = PIPE_MAX;
  ww_ok : ∀ id, 0 ≤ id < 128 → pipe_ok (pipe_at (w_pipes w) id);
  ww_owns : ∀ id, 0 ≤ id < 128 → used (pipe_at (w_pipes w) id) = true →
    ∃ f, owns (w_pmm w) (pipe_at (w_pipes w) id) f;
  ww_apart : ∀ i j, 0 ≤ i < 128 → 0 ≤ j < 128 → i ≠ j →
    used (pipe_at (w_pipes w) i) = true → used (pipe_at (w_pipes w) j) = true →
    phys (pipe_at (w_pipes w) i) + PIPE_PAGES * 4096 ≤ phys (pipe_at (w_pipes w) j) ∨
    phys (pipe_at (w_pipes w) j) + PIPE_PAGES * 4096 ≤ phys (pipe_at (w_pipes w) i);
  ww_fifo : ∀ id, 0 ≤ id < 128 → used (pipe_at (w_pipes w) id) = true →
    aget [] (w_sent w) id = aget [] (w_received w) id ++ contents (pipe_at (w_pipes w) id);
}.

(** *** Waiter lists *)

Lemma waiting_nil : ¬ waiting no_waiters.
Proof.
  intros (t&Ht&Hn). apply Hn. unfold no_waiters in Ht. by apply elem_of_replicate in Ht as [-> _].
Qed.

Lemma waiting_clear self l : waiting (waiters_clear self l) → waiting l.
Proof.
  intros (t&Ht&Hn). apply list_elem_of_fmap in Ht as (u&->&Hu).
  destruct (u =? self); [done|]. by exists u.
Qed.

Lemma waiting_take l : ¬ waiting (waiters_take l).2.
Proof.
  intros (t&Ht&Hn). apply list_elem_of_fmap in Ht as (u&->&Hu).
  destruct (Z.eqb_spec u 0); done.
Qed.

Lemma length_clear self l : length (waiters_clear self l) = length l.
Proof. apply length_map. Qed.
Lemma length_take_waiters l : length (waiters_take l).2 = length l.
Proof. apply length_map. Qed.

Lemma waiters_add_spec self l : length l = PIPE_WAITERS →
  length (waiters_add self l).2 = PIPE_WAITERS ∧
  ((waiters_add self l).1 = true → self ∈ (waiters_add self l).2) ∧
  ((waiters_add self l).1 = false → (waiters_add self l).2 = l).
Proof.
  intros L. unfold waiters_add.
  destruct (z_find_spec (λ i, aget 0 l i =? self) PIPE_WAITERS) as [[E _]|(R&E&_)].
  2:{ destruct (Z.eqb_spec (z_find (λ i, aget 0 l i =? self) PIPE_WAITERS) (-1)); [lia|]. simpl.
      split; [done|]. split; [|done]. intros _. apply (aget_elem 0). apply Z.eqb_eq in E.
      rewrite L. eauto. }
  rewrite E. simpl. clear E.
  destruct (z_find_spec (λ i, aget 0 l i =? 0) PIPE_WAITERS) as [[E _]|(R&_&_)].
  { rewrite E. done. }
  destruct (Z.eqb_spec (z_find (λ i, aget 0 l i =? 0) PIPE_WAITERS) (-1)); [lia|]. simpl.
  split; [by rewrite length_aset|]. split; [|done]. intros _. apply (aget_elem 0).
  eexists. rewrite length_aset, L. split; [exact R|]. apply aget_aset_eq. by rewrite L.
Qed.

(** *** Copying *)

Lemma copy_out_contents n pi i : 0 ≤ head pi → 0 ≤ i → head pi + i + Z.of_nat n < 2 ^ 32 →
  copy_out n pi i = ring_contents PIPE_CAPACITY (bytes pi) (head pi + i) (Z.of_nat n).
Proof.
  intros Hh. revert i; induction n as [|n IH]; intros i Hi Hb; cbn [copy_out]; [done|].
  rewrite ring_contents_cons by lia. rewrite u32_small by lia. f_equal.
  rewrite IH by lia. f_equal; lia.
Qed.

Lemma copy_in_store data pi i m : 0 ≤ head pi → 0 ≤ count pi → 0 ≤ i →
  head pi + count pi + i + Z.of_nat (length data) < 2 ^ 32 →
  copy_in data pi i m = ring_store PIPE_CAPACITY (head pi + count pi + i) data m.
Proof.
  intros Hh Hc. revert i m; induction data as [|b data IH]; intros i m Hi Hb; [done|].
  cbn [copy_in ring_store length] in *. rewrite u32_small by lia. rewrite IH by lia. f_equal. lia.
Qed.

(** *** The table *)

Lemma pipe_get_Some id s pi :
  pipe_get id s = Some pi ↔ 0 ≤ id < 128 ∧ pi = pipe_at s id ∧ used (pipe_at s id) = true.
Proof.
  unfold pipe_get. change (Z.of_nat PIPE_MAX) with 128.
  destruct (Z.ltb_spec id 0); simpl; [split; [done|lia]|].
  destruct (Z.leb_spec 128 id); simpl; [split; [done|lia]|].
  destruct (used (pipe_at s id)); simpl; split; [intros [= <-]|intros (?&->&_)| |intros (?&?&?)];
    (done || (split; [lia|done])).
Qed.

Lemma pipe_at_aset s i pi k : length s = PIPE_MAX → 0 ≤ i < 128 → 0 ≤ k →
  pipe_at (aset s i pi) k = if i =? k then pi else pipe_at s k.
Proof. intros L ??. apply aget_aset; [|done]. rewrite L. unfold PIPE_MAX. lia. Qed.

Definition apart (p q : pipe) : Prop :=
  phys p + PIPE_PAGES * 4096 ≤ phys q ∨ phys q + PIPE_PAGES * 4096 ≤ phys p.

(** Replacing one pipe, with the history of its bytes and the page allocator. *)
Lemma world_wf_replace w id pi p sent received :
  world_wf w → 0 ≤ id < 128 → pipe_ok pi → pmm_wf p →
  (used pi = true → ∃ f, owns p pi f) →
  (∀ k, 0 ≤ k < 128 → k ≠ id → used (pipe_at (w_pipes w) k) = true →
    ∀ f, owns (w_pmm w) (pipe_at (w_pipes w) k) f → owns p (pipe_at (w_pipes w) k) f) →
  (used pi = true → ∀ k, 0 ≤ k < 128 → k ≠ id → used (pipe_at (w_pipes w) k) = true →
    apart pi (pipe_at (w_pipes w) k)) →
  (used pi = true → sent = received ++ contents pi) →
  world_wf (World (aset (w_pipes w) id pi) p (aset (w_sent w) id sent)
                  (aset (w_received w) id received)).
Proof.
  intros W Hid Ok Wp Own Keep Ap Fi. destruct (ww_len _ W) as (L1&L2&L3).
  split; cbn [w_pipes w_pmm w_sent w_received]; [done|by rewrite !length_aset|..].
  - intros k Hk. rewrite pipe_at_aset by (done || lia).
    destruct (id =? k); [done|by apply W].
  - intros k Hk. rewrite pipe_at_aset by (done || lia).
    destruct (Z.eqb_spec id k) as [<-|Ne]; [done|]. intros Hu.
    destruct (ww_owns _ W k Hk Hu) as (f&Ho). exists f. apply Keep; auto.
  - intros i j Hi Hj Ne. rewrite !pipe_at_aset by (done || lia).
    destruct (Z.eqb_spec id i) as [<-|Ni], (Z.eqb_spec id j) as [<-|Nj]; [done| | |by apply W].
    + intros U1 U2. by apply Ap.
    + intros U1 U2. destruct (Ap U2 i Hi Ne U1) as [?|?]; [by right|by left].
  - intros k Hk. rewrite pipe_at_aset by (done || lia).
    rewrite !aget_aset by (rewrite ?L2, ?L3; unfold PIPE_MAX; lia).
    destruct (Z.eqb_spec id k) as [<-|]; [done|by apply W].
Qed.

(** Replacing a pipe by another state of it. *)
Lemma world_wf_update w id pi sent received :
  world_wf w → 0 ≤ id < 128 → pipe_ok pi →
  used pi = used (pipe_at (w_pipes w) id) → phys pi = phys (pipe_at (w_pipes w) id) →
  sent = received ++ contents pi →
  world_wf (World (aset (w_pipes w) id pi) (w_pmm w) (aset (w_sent w) id sent)
                  (aset (w_received w) id received)).
Proof.
  intros W Hid Ok Us Ph Fi. apply world_wf_replace; try done; [apply W| |].
  - rewrite Us. intros Hu. destruct (ww_owns _ W id Hid Hu) as (f&Ho). exists f.
    unfold owns. by rewrite Ph.
  - rewrite Us. intros Hu k Hk Ne Hk'. unfold apart. rewrite Ph. by apply W.
Qed.

(** The same when the history does not change. *)
Lemma world_wf_same w id pi :
  world_wf w → 0 ≤ id < 128 → pipe_ok pi →
  used pi = used (pipe_at (w_pipes w) id) → used (pipe_at (w_pipes w) id) = true →
  phys pi = phys (pipe_at (w_pipes w) id) → contents pi = contents (pipe_at (w_pipes w) id) →
  world_wf (w <| w_pipes := aset (w_pipes w) id pi |>).
Proof.
  intros W Hid Ok Us Hu Ph Co.
  pose proof (world_wf_update w id pi (aget [] (w_sent w) id) (aget [] (w_received w) id)
    W Hid Ok Us Ph) as H.
  rewrite !aset_aget in H. apply H. rewrite Co. by apply W.
Qed.

(** ** The steps *)

(** [l'] keeps the waiters of [l] but the woken ones and [self]. *)
Definition kept_or_woken (self : Z) (wake l l' : list Z) : Prop :=
  ∀ t, t ∈ l → t ≠ 0 → t ≠ self → t ∈ l' ∨ t ∈ wake.

Lemma kept_clear self l : kept_or_woken self [] l (waiters_clear self l).
Proof.
  intros t Ht Hn Hs. left. apply list_elem_of_fmap. exists t. split; [|done].
  by destruct (Z.eqb_spec t self).
Qed.

Lemma kept_refl self wake l : kept_or_woken self wake l l.
Proof. intros t Ht _ _. by left. Qed.

Lemma kept_take self l : kept_or_woken self (waiters_take l).1 l (waiters_take l).2.
Proof. intros t Ht Hn _. right. by apply list_elem_of_filter. Qed.

Lemma kept_add self l l0 : length l = PIPE_WAITERS → kept_or_woken self [] l0 l →
  kept_or_woken self [] l0 (waiters_add self l).2.
Proof.
  intros L K t Ht Hn Hs. destruct (K t Ht Hn Hs) as [Hin|Hin]; [left|by apply not_elem_of_nil in Hin].
  unfold waiters_add. destruct (negb _); [done|]. destruct (Z.eqb_spec (z_find (λ i, aget 0 l i =? 0)
    PIPE_WAITERS) (-1)) as [E|E]; [done|]. simpl.
  destruct (z_find_spec (λ i, aget 0 l i =? 0) PIPE_WAITERS) as [[? _]|(R&Z0&_)]; [lia|].
  apply (aget_elem 0) in Hin as (k&Hk&<-). apply (aget_elem 0). exists k.
  rewrite length_aset. split; [done|]. rewrite aget_aset_ne; [done|lia..|].
  intros Ek. apply Z.eqb_eq in Z0. rewrite Ek in Z0. done.
Qed.

Record read_spec (self n : Z) (pi pi' : pipe) (o : outcome) (out wake : list Z) : Prop := {
  rs_ok : pipe_ok pi';
  rs_same : used pi' = used pi ∧ phys pi' = phys pi ∧ readers pi' = readers pi ∧
            writers pi' = writers pi;
  rs_out : out = take (Z.to_nat n) (contents pi);
  rs_rest : contents pi' = drop (Z.to_nat n) (contents pi);
  rs_result : contents pi ≠ [] → o = Returns (Z.of_nat (length out));
  rs_empty : contents pi = [] → o ≠ Blocks → o ≠ Sleeps → ∃ r, o = Returns r ∧ r ≤ 0 ∧
             (r = 0 ↔ writers pi = 0);
  rs_blocks : o = Blocks → self ∈ read_waiters pi' ∧ contents pi = [] ∧ writers pi ≠ 0;
  rs_readers : kept_or_woken self wake (read_waiters pi) (read_waiters pi');
  rs_writers : kept_or_woken self wake (write_waiters pi) (write_waiters pi');
}.

Lemma contents_empty pi : pipe_ok pi → contents pi = [] ↔ count pi = 0.
Proof.
  intros W. pose proof (po_count _ W). pose proof (length_ring_contents PIPE_CAPACITY (bytes pi)
    (head pi) (count pi)) as L. fold (contents pi) in L. split.
  - intros E. rewrite E in L. simpl in L. lia.
  - intros E. apply length_zero_iff_nil. rewrite L, E. done.
Qed.

Lemma length_contents pi : pipe_ok pi → Z.of_nat (length (contents pi)) = count pi.
Proof. intros W. pose proof (po_count _ W). unfold contents. rewrite length_ring_contents. lia. Qed.

Lemma pipe_ok_rwait pi l : pipe_ok pi → length l = PIPE_WAITERS →
  (waiting l → count pi = 0 ∧ writers pi ≠ 0) → pipe_ok (pi <| read_waiters := l |>).
Proof. intros W L H. split; simpl; try apply W; done. Qed.

Lemma pipe_ok_wwait pi l : pipe_ok pi → length l = PIPE_WAITERS →
  (waiting l → count pi = PIPE_CAPACITY ∧ readers pi ≠ 0) → pipe_ok (pi <| write_waiters := l |>).
Proof. intros W L H. split; simpl; try apply W; done. Qed.

Lemma pipe_ok_clear_r self pi : pipe_ok pi →
  pipe_ok (pi <| read_waiters := waiters_clear self (read_waiters pi) |>).
Proof.
  intros W. apply pipe_ok_rwait; [done|rewrite length_clear; apply W|].
  intros H%waiting_clear. by apply W.
Qed.
Lemma pipe_ok_clear_w self pi : pipe_ok pi →
  pipe_ok (pi <| write_waiters := waiters_clear self (write_waiters pi) |>).
Proof.
  intros W. apply pipe_ok_wwait; [done|rewrite length_clear; apply W|].
  intros H%waiting_clear. by apply W.
Qed.

(** An iteration that finds the pipe empty moves no byte. *)
Lemma read_spec_empty self n pi pi' o :
  pipe_ok pi → count pi = 0 → pipe_ok pi' →
  used pi' = used pi ∧ phys pi' = phys pi ∧ readers pi' = readers pi ∧ writers pi' = writers pi →
  contents pi' = contents pi → write_waiters pi' = write_waiters pi →
  kept_or_woken self [] (read_waiters pi) (read_waiters pi') →
  (o ≠ Blocks → o ≠ Sleeps → ∃ r, o = Returns r ∧ r ≤ 0 ∧ (r = 0 ↔ writers pi = 0)) →
  (o = Blocks → self ∈ read_waiters pi' ∧ writers pi ≠ 0) →
  read_spec self n pi pi' o [] [].
Proof.
  intros W E W' S C Ww K O B. assert (contents pi = []) as Ce by (by apply contents_empty).
  split; rewrite ?C, ?Ce, ?Ww, ?take_nil, ?drop_nil; try done.
  - intros H. destruct (B H). done.
  - apply kept_refl.
Qed.

Lemma pipe_read_step_spec self id n nb pd s pi :
  pipe_get id s = Some pi → pipe_ok pi → is_u32 n → 0 < n →
  let '(o, out, wake, s') := pipe_read_step self id n nb pd s in
  ∃ pi', s' = aset s id pi' ∧ read_spec self n pi pi' o out wake.
Proof.
  intros G W [_ Hn] Hn0. unfold pipe_read_step. rewrite G.
  pose proof (pipe_ok_clear_r self pi W) as W1.
  set (p1 := pi <| read_waiters := _ |>) in *.
  pose proof (po_count _ W) as Hc. pose proof (po_head _ W) as Hh.
  unfold PIPE_CAPACITY, PIPE_PAGES in Hc, Hh.
  change (count p1) with (count pi). change (writers p1) with (writers pi).
  assert (kept_or_woken self [] (read_waiters pi) (read_waiters p1)) as Kc by apply kept_clear.
  destruct (Z.eqb_spec (count pi) 0) as [E|E]; cbn [negb].
  { destruct (Z.eqb_spec (writers pi) 0) as [Ew|Ew].
    { exists p1. split; [done|]. apply read_spec_empty; try done. intros. exists 0. split; [done|]. lia. }
    destruct nb; [|destruct pd].
    1,2: exists p1; (split; [done|]); apply read_spec_empty; try done; intros; eexists;
      (split; [done|]); split; [done|]; (split; [done|lia]).
    pose proof (waiters_add_spec self (read_waiters p1) (po_rlen _ W1)) as (La&Ra&Na).
    pose proof (kept_add self (read_waiters p1) (read_waiters pi) (po_rlen _ W1) Kc) as Ka.
    destruct (waiters_add self (read_waiters p1)) as [reg l]. simpl in *.
    eexists. split; [done|]. apply read_spec_empty; try done.
    - apply pipe_ok_rwait; [done|done|]. intros _. done.
    - by destruct reg.
    - destruct reg; [|done]. intros _. split; [by apply Ra|done]. }
  set (amount := if n <? count pi then n else count pi).
  assert (amount = Z.min n (count pi)) as Ha by (unfold amount; destruct (Z.ltb_spec n (count pi)); lia).
  destruct (waiters_take (write_waiters p1)) as [wake l] eqn:Et.
  pose proof (kept_take self (write_waiters pi)) as Kw.
  pose proof (waiting_take (write_waiters pi)) as Nw.
  pose proof (length_take_waiters (write_waiters pi)) as Lw.
  change (write_waiters p1) with (write_waiters pi) in Et. rewrite Et in Kw, Nw, Lw. simpl in Kw, Nw, Lw.
  change (head p1) with (head pi). change (bytes p1) with (bytes pi).
  rewrite (u32_small (head pi + amount)), (u32_small (count pi - amount)) by lia.
  rewrite copy_out_contents by (simpl; lia). rewrite Z.add_0_r, Z2Nat.id by lia.
  change (head p1) with (head pi). change (bytes p1) with (bytes pi).
  eexists. split; [done|].
  pose proof (ring_contents_drop PIPE_CAPACITY (bytes pi) (head pi) (count pi) amount
    ltac:(done) ltac:(lia)) as D. fold (contents pi) in D.
  pose proof (length_ring_contents PIPE_CAPACITY (bytes pi) (head pi) amount) as La.
  set (out := ring_contents PIPE_CAPACITY (bytes pi) (head pi) amount) in *.
  assert (contents pi ≠ []) as Hne by (intros Hx%contents_empty; done).
  assert (take (Z.to_nat n) (contents pi) = out ∧ drop (Z.to_nat n) (contents pi) =
    ring_contents PIPE_CAPACITY (bytes pi) ((head pi + amount) mod PIPE_CAPACITY)
      (count pi - amount)) as [Tk Dr].
  { destruct (Z.leb_spec n (count pi)).
    - assert (Z.to_nat n = length out) as -> by lia. rewrite D.
      rewrite take_app_length, drop_app_length. done.
    - assert (amount = count pi) as Ea by lia. rewrite Ea, Z.sub_diag in *.
      rewrite ring_contents_nil, app_nil_r in D.
      rewrite take_ge, drop_ge by (rewrite D; lia). by rewrite D. }
  split; simpl; try done.
  - split; simpl; try apply W; try done.
    + apply Z.mod_pos_bound. done.
    + unfold PIPE_CAPACITY, PIPE_PAGES. lia.
    + rewrite length_clear. apply W.
    + by rewrite Lw; apply W.
    + intros Hw%waiting_clear. apply W in Hw. lia.
  - intros _. rewrite La, i32_small by lia. f_equal. lia.
  - intros t Ht Hnz Hs. destruct (Kc t Ht Hnz Hs) as [?|Hx]; [by left|by apply not_elem_of_nil in Hx].
Qed.

Record write_spec (self : Z) (data : list Z) (k : Z) (pi pi' : pipe) (o : write_outcome)
    (out wake : list Z) : Prop := {
  ws_ok : pipe_ok pi';
  ws_same : used pi' = used pi ∧ phys pi' = phys pi ∧ readers pi' = readers pi ∧
            writers pi' = writers pi;
  ws_contents : contents pi' = contents pi ++ out;
  ws_broken : readers pi = 0 → out = [] ∧ o = WBroken (if k =? 0 then - KERR_PIPE else i32 k);
  ws_room : readers pi ≠ 0 → count pi < PIPE_CAPACITY →
    out = take (Z.to_nat (PIPE_CAPACITY - count pi)) (drop (Z.to_nat k) data) ∧
    o = WContinue (k + Z.of_nat (length out)) ∧ out ≠ [];
  ws_full : readers pi ≠ 0 → count pi = PIPE_CAPACITY → out = [] ∧
    (o = WBlocks ∧ self ∈ write_waiters pi' ∨ o = WSleeps ∨
     ∃ e, (e = KERR_AGAIN ∨ e = KERR_INTR) ∧ o = WReturns (if k =? 0 then - e else i32 k));
  ws_readers : kept_or_woken self wake (read_waiters pi) (read_waiters pi');
  ws_writers : kept_or_woken self wake (write_waiters pi) (write_waiters pi');
}.

Lemma negb_choice k e : (if negb (k =? 0) then i32 k else - e) = if k =? 0 then - e else i32 k.
Proof. by destruct (k =? 0). Qed.

(** An iteration that finds the pipe full moves no byte. *)
Lemma write_spec_full self data k pi pi' o :
  pipe_ok pi → readers pi ≠ 0 → count pi = PIPE_CAPACITY → pipe_ok pi' →
  used pi' = used pi ∧ phys pi' = phys pi ∧ readers pi' = readers pi ∧ writers pi' = writers pi →
  contents pi' = contents pi → read_waiters pi' = read_waiters pi →
  kept_or_woken self [] (write_waiters pi) (write_waiters pi') →
  (o = WBlocks ∧ self ∈ write_waiters pi' ∨ o = WSleeps ∨
   ∃ e, (e = KERR_AGAIN ∨ e = KERR_INTR) ∧ o = WReturns (if k =? 0 then - e else i32 k)) →
  write_spec self data k pi pi' o [] [].
Proof.
  intros W R E W' S C Rw K O. split; rewrite ?C, ?Rw, ?app_nil_r; try done; [lia|apply kept_refl].
Qed.

Lemma pipe_write_step_spec self id data k nb pd s pi :
  pipe_get id s = Some pi → pipe_ok pi →
  0 ≤ k < Z.of_nat (length data) → Z.of_nat (length data) < 2 ^ 32 →
  let '(o, out, wake, s') := pipe_write_step self id data k nb pd s in
  ∃ pi', s' = aset s id pi' ∧ write_spec self data k pi pi' o out wake.
Proof.
  intros G W Hk Hn. unfold pipe_write_step. rewrite G. rewrite !negb_choice.
  pose proof (pipe_ok_clear_w self pi W) as W1. set (p1 := pi <| write_waiters := _ |>) in *.
  pose proof (po_count _ W) as Hc. pose proof (po_head _ W) as Hh.
  unfold PIPE_CAPACITY, PIPE_PAGES in Hc, Hh.
  change (count p1) with (count pi). change (readers p1) with (readers pi).
  assert (kept_or_woken self [] (write_waiters pi) (write_waiters p1)) as Kc by apply kept_clear.
  destruct (Z.eqb_spec (readers pi) 0) as [E|E].
  { exists p1. split; [done|].
    split; try done; [by rewrite app_nil_r|apply kept_refl]. }
  unfold PIPE_CAPACITY, PIPE_PAGES. rewrite (u32_small (4 * 4096 - count pi)) by lia.
  destruct (Z.eqb_spec (4 * 4096 - count pi) 0) as [Es|Es]; cbn [negb].
  { assert (count pi = PIPE_CAPACITY) as Ec by (unfold PIPE_CAPACITY, PIPE_PAGES; lia).
    destruct nb; [|destruct pd].
    1,2: exists p1; (split; [done|]); apply write_spec_full; try done; right; right; eexists;
      (split; [|done]); auto.
    pose proof (waiters_add_spec self (write_waiters p1) (po_wlen _ W1)) as (La&Ra&Na).
    pose proof (kept_add self (write_waiters p1) (write_waiters pi) (po_wlen _ W1) Kc) as Ka.
    destruct (waiters_add self (write_waiters p1)) as [reg l]. simpl in *.
    eexists. split; [done|]. apply write_spec_full; try done.
    - apply pipe_ok_wwait; [done|done|]. intros _. done.
    - destruct reg; [left; split; [done|by apply Ra]|by right; left]. }
  rewrite (u32_small (Z.of_nat (length data) - k)) by lia.
  set (amount := if _ <? _ then _ else _).
  assert (amount = Z.min (Z.of_nat (length data) - k) (4 * 4096 - count pi)) as Ha.
  { unfold amount. destruct (Z.ltb_spec (Z.of_nat (length data) - k) (4 * 4096 - count pi)); lia. }
  set (chunk := take (Z.to_nat amount) (drop (Z.to_nat k) data)).
  assert (Z.of_nat (length chunk) = amount) as Lch.
  { unfold chunk. rewrite length_take, length_drop. lia. }
  destruct (waiters_take (read_waiters p1)) as [wake l] eqn:Et.
  pose proof (kept_take self (read_waiters pi)) as Kw.
  pose proof (waiting_take (read_waiters pi)) as Nw.
  pose proof (length_take_waiters (read_waiters pi)) as Lw.
  change (read_waiters p1) with (read_waiters pi) in Et. rewrite Et in Kw, Nw, Lw. simpl in Kw, Nw, Lw.
  rewrite (u32_small (count pi + amount)), (u32_small (k + amount)) by lia.
  rewrite copy_in_store by (simpl; lia). rewrite Z.add_0_r.
  eexists. split; [done|].
  pose proof (ring_store_append PIPE_CAPACITY (bytes pi) (head pi) (count pi) chunk
    ltac:(done) ltac:(lia)) as Ap. rewrite Lch in Ap.
  specialize (Ap ltac:(unfold PIPE_CAPACITY, PIPE_PAGES; lia)).
  split; simpl; try done.
  - split; simpl; try apply W; try done.
    + unfold PIPE_CAPACITY, PIPE_PAGES. lia.
    + rewrite Lw. apply W.
    + rewrite length_clear. apply W.
    + intros Hw%waiting_clear. apply W in Hw. unfold PIPE_CAPACITY, PIPE_PAGES in Hw. lia.
  - intros _ _. split; [|split].
    + unfold chunk. destruct (Z.leb_spec (Z.of_nat (length data) - k) (4 * 4096 - count pi)).
      * rewrite !take_ge; [done|rewrite length_drop; unfold PIPE_CAPACITY, PIPE_PAGES; lia|
          rewrite length_drop; lia].
      * f_equal. unfold PIPE_CAPACITY, PIPE_PAGES. lia.
    + by rewrite Lch.
    + intros Hx. rewrite Hx in Lch. simpl in Lch. lia.
  - intros _ Hx. unfold PIPE_CAPACITY, PIPE_PAGES in Hx. lia.
  - intros t Ht Hnz Hs. destruct (Kc t Ht Hnz Hs) as [?|Hx]; [by left|by apply not_elem_of_nil in Hx].
Qed.

(** ** Every reachable world is well formed *)

Lemma pipe_zero_ok : pipe_ok pipe_zero.
Proof. split; simpl; (done || (intros []%waiting_nil)). Qed.

Lemma pipes_init_at id : pipe_at pipes_init id = pipe_zero.
Proof.
  unfold pipe_at, aget, pipes_init. rewrite nth_lookup.
  destruct (replicate PIPE_MAX pipe_zero !! Z.to_nat id) as [x|] eqn:E; [|done].
  apply lookup_replicate in E as [-> _]. done.
Qed.

Lemma world_init_wf p : pmm_wf p → world_wf (world_init p).
Proof.
  intros W. split; cbn [w_pipes w_pmm w_sent w_received world_init]; [done|done|..];
    intros; rewrite !pipes_init_at in *; (apply pipe_zero_ok || done).
Qed.

(** Four free frames are apart from the frames of every pipe. *)
Lemma fresh_apart p t f pi g : allocated p t f PIPE_PAGES → owns p pi g →
  f * 4096 + PIPE_PAGES * 4096 ≤ g * 4096 ∨ g * 4096 + PIPE_PAGES * 4096 ≤ f * 4096.
Proof.
  intros A (_&Hg&_&U). unfold PIPE_PAGES in *.
  destruct (decide (f + 4 ≤ g ∨ g + 4 ≤ f)) as [?|N]; [lia|exfalso].
  pose proof (al_free _ _ _ _ A (Z.max f g - f) ltac:(lia)) as F.
  replace (f + (Z.max f g - f)) with (Z.max f g) in F by lia.
  rewrite U in F by lia. done.
Qed.

Lemma owns_allocated p t f n pi g : allocated p t f n → owns p pi g → owns t pi g.
Proof.
  intros A (E&Hg&Hl&U). destruct (al_same _ _ _ _ A) as (El&_).
  split; [done|]. split; [done|]. rewrite El. split; [done|]. intros k Hk.
  rewrite (al_used _ _ _ _ A), U by lia. apply orb_true_r.
Qed.

Lemma exec_create_wf w : world_wf w → world_wf (exec ECreate w).
Proof.
  intros W. cbn [exec]. unfold pipe_create.
  assert (w <| w_pipes := w_pipes w |> <| w_pmm := w_pmm w |> = w) as Same by (by destruct w).
  destruct (z_find_spec (λ i, negb (used (pipe_at (w_pipes w) i))) PIPE_MAX) as [[-> _]|(R&Nu&_)].
  { simpl. by rewrite Same. }
  set (id := z_find _ _) in *. change (Z.of_nat PIPE_MAX) with 128 in R.
  destruct (Z.eqb_spec id (-1)) as [|_]; [lia|].
  pose proof (allocate_contiguous_outcome (w_pmm w) PIPE_PAGES (ww_pmm _ W) ltac:(done)) as O.
  unfold pmm_allocate_contiguous. inversion O as [t f Er A Eq|_ Eq]; [|simpl; by rewrite Same].
  destruct (al_range _ _ _ _ A) as [Hf1 Hf2].
  destruct (Z.eqb_spec (f * 4096) 0) as [|_]; [lia|].
  destruct (al_same _ _ _ _ A) as (El&_).
  apply world_wf_replace; try done.
  - split; simpl; (done || (intros []%waiting_nil)).
  - apply A.
  - intros _. exists f. simpl. split; [done|]. split; [done|]. rewrite El. split; [done|].
    intros g Hg. rewrite (al_used _ _ _ _ A) by lia.
    destruct (Z.leb_spec f g), (Z.ltb_spec g (f + PIPE_PAGES)); done || lia.
  - intros. by eapply owns_allocated.
  - intros _ k Hk Ne Hu. destruct (ww_owns _ W k Hk Hu) as (g&Ho).
    unfold apart. simpl. rewrite (proj1 Ho).
    by apply (fresh_apart (w_pmm w) t f (pipe_at (w_pipes w) k) g).
Qed.

Lemma exec_ref_wf w id we : world_wf w → event_ok (ERef id we) w → world_wf (exec (ERef id we) w).
Proof.
  intros W [B1 B2]. cbn [exec]. unfold pipe_ref.
  destruct (pipe_get id (w_pipes w)) as [pi|] eqn:G.
  2:{ replace (w <| w_pipes := w_pipes w |>) with w by (by destruct w). done. }
  apply pipe_get_Some in G as (Hid&->&Hu).
  pose proof (ww_ok _ W id Hid) as Ok. pose proof (po_readers _ Ok) as Hr. pose proof (po_writers _ Ok) as Hw.
  unfold is_u32, UINT32_MAX in *. rewrite (u32_small (writers _ + 1)), (u32_small (readers _ + 1)) by lia.
  destruct we; apply world_wf_same; try done.
  - split; simpl; try apply Ok; [unfold is_u32; lia|]. intros Hx. apply Ok in Hx. lia.
  - split; simpl; try apply Ok; [unfold is_u32; lia|]. intros Hx. apply Ok in Hx. lia.
Qed.

(** An end count after a release. *)
Definition release_end (write_end : bool) (pi : pipe) : pipe :=
  if write_end && negb (writers pi =? 0) then pi <| writers := u32 (writers pi - 1) |>
  else if negb write_end && negb (readers pi =? 0)
  then pi <| readers := u32 (readers pi - 1) |> else pi.

Lemma release_end_spec we pi : pipe_ok pi →
  let q := release_end we pi in
  used q = used pi ∧ phys q = phys pi ∧ contents q = contents pi ∧ head q = head pi ∧
  count q = count pi ∧ read_waiters q = read_waiters pi ∧ write_waiters q = write_waiters pi ∧
  readers q = (if we then readers pi else Z.max 0 (readers pi - 1)) ∧
  writers q = (if we then Z.max 0 (writers pi - 1) else writers pi).
Proof.
  intros W. pose proof (po_readers _ W) as Hr. pose proof (po_writers _ W) as Hw.
  unfold is_u32, release_end in *.
  destruct we; simpl; destruct (Z.eqb_spec (writers pi) 0), (Z.eqb_spec (readers pi) 0);
    simpl; rewrite ?u32_small by lia; repeat (split; [done || lia|]); done || lia.
Qed.

Lemma exec_release_wf w id we : world_wf w → world_wf (exec (ERelease id we) w).
Proof.
  intros W. cbn [exec]. unfold pipe_release.
  destruct (pipe_get id (w_pipes w)) as [pi|] eqn:G.
  2:{ replace (w <| w_pipes := w_pipes w |> <| w_pmm := w_pmm w |>) with w by (by destruct w). done. }
  apply pipe_get_Some in G as (Hid&->&Hu). pose proof (ww_ok _ W id Hid) as Ok.
  fold (release_end we (pipe_at (w_pipes w) id)).
  destruct (release_end_spec we _ Ok) as (E1&E2&E3&E4&E5&E6&E7&E8&E9).
  set (q := release_end we _) in *.
  pose proof (po_readers _ Ok) as Hr. pose proof (po_writers _ Ok) as Hw. unfold is_u32 in *.
  destruct (_ && _) eqn:E0.
  - destruct (ww_owns _ W id Hid Hu) as (f&Ph&Hf&Hl&Uf).
    rewrite E2, Ph. pose proof (ww_pmm _ W) as Wp.
    destruct (free_contiguous_frames f PIPE_PAGES (w_pmm w) Wp Hf ltac:(done) Hl) as (Wp'&L'&_&U').
    pose proof (world_wf_replace w id pipe_zero (pmm_free_contiguous (f * 4096) PIPE_PAGES (w_pmm w))
      (aget [] (w_sent w) id) (aget [] (w_received w) id) W Hid pipe_zero_ok Wp') as R.
    rewrite !aset_aget in R. apply R; [done| |done|done].
    intros k Hk Ne Hk' g (Pg&Hg&Hlg&Ug). split; [done|]. split; [done|]. rewrite L'.
    split; [done|]. intros x Hx. rewrite U', Ug by lia. rewrite andb_true_r.
    pose proof (ww_apart _ W k id Hk Hid Ne Hk' Hu) as Ap. rewrite Pg, Ph in Ap.
    unfold PIPE_PAGES in *. destruct (Z.leb_spec f x), (Z.ltb_spec x (f + 4)); done || lia.
  - pose proof (waiting_take (read_waiters q)) as N1. pose proof (waiting_take (write_waiters q)) as N2.
    pose proof (length_take_waiters (read_waiters q)) as L1.
    pose proof (length_take_waiters (write_waiters q)) as L2.
    destruct (waiters_take (read_waiters q)) as [w1 l1], (waiters_take (write_waiters q)) as [w2 l2].
    simpl in N1, N2, L1, L2.
    match goal with |- world_wf (set_field w_pmm _ ?x) => change (world_wf x) end.
    apply world_wf_same; try done.
    split; simpl; rewrite ?E4, ?E5, ?E8, ?E9, ?L1, ?L2, ?E6, ?E7; try apply Ok; try done;
      unfold is_u32; destruct we; lia.
Qed.

Lemma pipe_get_None_read self id n nb pd s : pipe_get id s = None →
  pipe_read_step self id n nb pd s = (Returns (- KERR_BADF), [], [], s).
Proof. intros G. unfold pipe_read_step. by rewrite G. Qed.

Lemma exec_read_wf w self id n nb pd : world_wf w → 0 < n < 2 ^ 32 →
  world_wf (exec (ERead self id n nb pd) w).
Proof.
  intros W Hn. cbn [exec]. destruct (pipe_get id (w_pipes w)) as [pi|] eqn:G.
  2:{ rewrite pipe_get_None_read by done. rewrite app_nil_r, aset_aget. by destruct w. }
  pose proof G as (Hid&Epi&Hu)%pipe_get_Some. pose proof (ww_ok _ W id Hid) as Ok. rewrite <- Epi in Ok.
  pose proof (pipe_read_step_spec self id n nb pd _ pi G Ok ltac:(unfold is_u32; lia) ltac:(lia)) as Sp.
  destruct (pipe_read_step self id n nb pd (w_pipes w)) as [[[o out] wake] s'].
  destruct Sp as (pi'&->&Sp). destruct (rs_same _ _ _ _ _ _ _ Sp) as (E1&E2&_).
  pose proof (world_wf_update w id pi' (aget [] (w_sent w) id) (aget [] (w_received w) id ++ out)
    W Hid (rs_ok _ _ _ _ _ _ _ Sp)) as R.
  rewrite !aset_aget in R. apply R; [congruence|congruence|].
  rewrite (ww_fifo _ W id Hid Hu), <- app_assoc, <- Epi. f_equal.
  rewrite (rs_out _ _ _ _ _ _ _ Sp), (rs_rest _ _ _ _ _ _ _ Sp). symmetry. apply take_drop.
Qed.

Lemma exec_write_wf w self id data k nb pd : world_wf w →
  0 ≤ k < Z.of_nat (length data) → Z.of_nat (length data) < 2 ^ 32 →
  world_wf (exec (EWrite self id data k nb pd) w).
Proof.
  intros W Hk Hn. cbn [exec]. destruct (pipe_get id (w_pipes w)) as [pi|] eqn:G.
  2:{ unfold pipe_write_step. rewrite G, app_nil_r, aset_aget. by destruct w. }
  pose proof G as (Hid&Epi&Hu)%pipe_get_Some. pose proof (ww_ok _ W id Hid) as Ok. rewrite <- Epi in Ok.
  pose proof (pipe_write_step_spec self id data k nb pd _ pi G Ok Hk Hn) as Sp.
  destruct (pipe_write_step self id data k nb pd (w_pipes w)) as [[[o out] wake] s'].
  destruct Sp as (pi'&->&Sp). destruct (ws_same _ _ _ _ _ _ _ _ Sp) as (E1&E2&_).
  pose proof (world_wf_update w id pi' (aget [] (w_sent w) id ++ out) (aget [] (w_received w) id)
    W Hid (ws_ok _ _ _ _ _ _ _ _ Sp)) as R.
  rewrite !aset_aget in R. apply R; [congruence|congruence|].
  rewrite (ww_fifo _ W id Hid Hu), <- app_assoc, <- Epi. f_equal.
  symmetry. by apply (ws_contents _ _ _ _ _ _ _ _ Sp).
Qed.

Lemma exec_wf w e : world_wf w → event_ok e w → world_wf (exec e w).
Proof.
  destruct e; intros W Ok; [by apply exec_create_wf|by apply exec_ref_wf|by apply exec_release_wf|..].
  - apply exec_read_wf; [done|apply Ok].
  - apply exec_write_wf; [done|apply Ok..].
Qed.

Lemma reachable_wf w : reachable w → world_wf w.
Proof. induction 1; [by apply world_init_wf|by apply exec_wf]. Qed.

(** A sequence of events. *)
Fixpoint run (es : list event) (w : world) : world :=
  match es with [] => w | e :: es' => run es' (exec e w) end.
Fixpoint run_ok (es : list event) (w : world) : Prop :=
  match es with [] => True | e :: es' => event_ok e w ∧ run_ok es' (exec e w) end.

Lemma run_reachable es w : reachable w → run_ok es w → reachable (run es w).
Proof.
  revert w; induction es as [|e es IH]; intros w R; simpl; [done|]. intros [O Os].
  apply IH; [by constructor|done].
Qed.

(** ** Properties *)

(** C17: Pipes are first in, first out: whatever threads create, share, close,
    read and write pipes in whatever order, the bytes ever written to a pipe in
    use are the bytes read from it followed by the bytes in its ring, in the
    same order; none is lost, duplicated or moved to another pipe, and the ring
    never holds more than its capacity. *)
Theorem pipe_stream_fifo w id : reachable w → used (pipe_at (w_pipes w) id) = true → 0 ≤ id < 128 →
  aget [] (w_sent w) id = aget [] (w_received w) id ++ contents (pipe_at (w_pipes w) id) ∧
  Z.of_nat (length (contents (pipe_at (w_pipes w) id))) ≤ PIPE_CAPACITY.
Proof.
  intros R%reachable_wf Hu Hid. split; [by apply R|].
  pose proof (ww_ok _ R id Hid) as Ok. rewrite length_contents by done. apply Ok.
Qed.

(** A thread in a waiter list of a pipe has a reason to wait: a blocked
    reader faces an empty ring with a writer left, a blocked writer a full ring
    with a reader left. *)
Theorem pipe_waiters_justified w id : reachable w → 0 ≤ id < 128 →
  let pi := pipe_at (w_pipes w) id in
  (waiting (read_waiters pi) → contents pi = [] ∧ writers pi ≠ 0) ∧
  (waiting (write_waiters pi) → Z.of_nat (length (contents pi)) = PIPE_CAPACITY ∧ readers pi ≠ 0).
Proof.
  intros R%reachable_wf Hid pi. pose proof (ww_ok _ R id Hid) as Ok. fold pi in Ok.
  rewrite contents_empty, length_contents by done. split; apply Ok.
Qed.

(** The buffer of every pipe in use is four adjacent frames that the page
    allocator marks used, no two pipes share a frame, and the page allocator
    stays well formed: creation and the last release balance. *)
Theorem pipe_frames_exclusive w : reachable w →
  pmm_wf (w_pmm w) ∧
  (∀ i, 0 ≤ i < 128 → used (pipe_at (w_pipes w) i) = true →
    ∃ f, owns (w_pmm w) (pipe_at (w_pipes w) i) f) ∧
  (∀ i j, 0 ≤ i < 128 → 0 ≤ j < 128 → i ≠ j → used (pipe_at (w_pipes w) i) = true →
    used (pipe_at (w_pipes w) j) = true → apart (pipe_at (w_pipes w) i) (pipe_at (w_pipes w) j)).
Proof. intros R%reachable_wf. split; [apply R|]. split; apply R. Qed.

(** One iteration of a read that finds bytes returns the oldest ones, as
    many as asked for or as there are; an empty pipe gives end of file exactly
    when no writer is left and an error or a wait otherwise; every thread that
    leaves a waiter list is woken, but the caller itself. *)
Theorem pipe_read_step_correct w self id n nb pd : reachable w → 0 < n < 2 ^ 32 →
  0 ≤ id < 128 → used (pipe_at (w_pipes w) id) = true →
  let '(o, out, wake, s) := pipe_read_step self id n nb pd (w_pipes w) in
  ∃ pi, s = aset (w_pipes w) id pi ∧
    read_spec self n (pipe_at (w_pipes w) id) pi o out wake.
Proof.
  intros R%reachable_wf Hn Hid Hu. apply pipe_read_step_spec; [by apply pipe_get_Some| |unfold is_u32; lia|lia].
  by apply R.
Qed.

(** *** Whole writes *)

Definition pipes_ok (s : list pipe) : Prop := ∀ id, 0 ≤ id < 128 → pipe_ok (pipe_at s id).

Definition write_result (data : list Z) (r : Z) (out : list Z) : Prop :=
  (r = i32 (Z.of_nat (length out)) ∧ out = take (length out) data ∧ (out = [] → data = [])) ∨
  (out = [] ∧ data ≠ [] ∧ (r = - KERR_BADF ∨ r = - KERR_PIPE ∨ r = - KERR_AGAIN ∨ r = - KERR_INTR)).

Lemma write_loop_spec self id data nb sched k r out :
  Forall (λ x, pipes_ok x.1) sched → 0 ≤ k ≤ Z.of_nat (length data) →
  Z.of_nat (length data) < 2 ^ 32 →
  write_loop self id data k nb sched = Some (r, out) →
  out = take (length out) (drop (Z.to_nat k) data) ∧
  (r = i32 (k + Z.of_nat (length out)) ∧ (k = 0 → out = [] → data = []) ∨
   k = 0 ∧ out = [] ∧ data ≠ [] ∧
   (r = - KERR_BADF ∨ r = - KERR_PIPE ∨ r = - KERR_AGAIN ∨ r = - KERR_INTR)).
Proof.
  intros F. revert k r out. induction F as [|[s pd] sched Ok F IH]; intros k r out Hk Hn; simpl.
  { destruct (Z.ltb_spec k (Z.of_nat (length data))); simpl; [done|]. intros [= <- <-].
    split; [done|]. left. split; [simpl; f_equal; lia|]. intros -> _. apply length_zero_iff_nil. lia. }
  destruct (Z.ltb_spec k (Z.of_nat (length data))) as [Hlt|]; simpl.
  2:{ intros [= <- <-]. split; [done|]. left. split; [simpl; f_equal; lia|]. intros -> _.
      apply length_zero_iff_nil. lia. }
  assert (data ≠ []) as Hd by (intros ->; simpl in Hlt; lia).
  assert (∀ e, (e = KERR_BADF ∨ e = KERR_PIPE ∨ e = KERR_AGAIN ∨ e = KERR_INTR) →
    ∀ r out, Some (if k =? 0 then - e else i32 k, []) = Some (r, out) →
    out = take (length out) (drop (Z.to_nat k) data) ∧
    (r = i32 (k + Z.of_nat (length out)) ∧ (k = 0 → out = [] → data = []) ∨
     k = 0 ∧ out = [] ∧ data ≠ [] ∧
     (r = - KERR_BADF ∨ r = - KERR_PIPE ∨ r = - KERR_AGAIN ∨ r = - KERR_INTR))) as Err.
  { intros e He r0 out0 [= <- <-]. split; [done|]. destruct (Z.eqb_spec k 0) as [->|]; [right|left].
    - split; [done|]. split; [done|]. split; [done|].
      destruct He as [->|[->|[->| ->]]]; auto.
    - split; [simpl; f_equal; lia|done]. }
  destruct (pipe_get id s) as [pi|] eqn:G.
  2:{ unfold pipe_write_step. rewrite G, negb_choice. apply Err. auto. }
  pose proof G as (Hid&Epi&_)%pipe_get_Some. pose proof (Ok id Hid) as Okp. simpl in Okp.
  rewrite <- Epi in Okp.
  pose proof (pipe_write_step_spec self id data k nb pd s pi G Okp ltac:(lia) Hn) as Sp.
  destruct (pipe_write_step self id data k nb pd s) as [[[o ch] wake] s'].
  destruct Sp as (pi'&_&Sp). pose proof (po_count _ Okp) as Hc.
  destruct (Z.eq_dec (readers pi) 0) as [Er|Er].
  { destruct (ws_broken _ _ _ _ _ _ _ _ Sp Er) as [-> ->]. apply Err. auto. }
  destruct (Z.lt_ge_cases (count pi) PIPE_CAPACITY) as [Hr|Hr].
  - destruct (ws_room _ _ _ _ _ _ _ _ Sp Er Hr) as (Ech&->&Hne).
    assert (ch = take (length ch) (drop (Z.to_nat k) data)) as Ech'.
    { rewrite Ech. symmetry. apply take_length_take. }
    assert (Z.of_nat (length ch) ≤ Z.of_nat (length data) - k) as Lch.
    { rewrite Ech', length_take, length_drop. lia. }
    destruct (write_loop _ _ _ _ _ _) as [[r1 rest]|] eqn:El; simpl; [|done].
    intros [= <- <-]. apply IH in El; [|lia|done]. destruct El as [Er1 D].
    assert (0 < Z.of_nat (length ch)) as Pos by (destruct ch; [done|simpl; lia]).
    split.
    + rewrite length_app. rewrite Er1, Ech' at 1. rewrite Z2Nat.inj_add, Nat2Z.id by lia.
      rewrite <- drop_drop. by rewrite take_take_drop.
    + left. split; [|intros _ E; by destruct ch]. destruct D as [[-> _]|[D _]]; [|lia].
      rewrite length_app. f_equal. lia.
  - destruct (ws_full _ _ _ _ _ _ _ _ Sp Er ltac:(lia)) as (->&[[-> _]|[->|(e&He&->)]]).
    + apply IH; [lia|done].
    + apply IH; [lia|done].
    + apply Err. destruct He as [->| ->]; auto.
Qed.

(** However its iterations interleave with other threads, a write that
    returns a count has appended exactly that prefix of the caller's buffer, and
    one that returns an error has appended nothing. *)
Theorem pipe_write_prefix self id data nb sched r out :
  Forall (λ x, pipes_ok x.1) sched → Z.of_nat (length data) < 2 ^ 32 →
  pipe_write self id data nb sched = Some (r, out) → write_result data r out.
Proof.
  intros F Hn E. apply write_loop_spec in E as [Et D]; [|done|lia|done].
  unfold write_result. simpl in Et. destruct D as [[-> H]|(_&->&?&?)]; [left|by right].
  split; [f_equal; lia|]. split; [done|auto].
Qed.

(** A call that may not block returns: a non-blocking write needs at most
    one iteration per byte of its buffer and one more, a non-blocking read at
    most one. *)
Theorem pipe_nonblock_returns self id data n sched :
  Forall (λ x, pipes_ok x.1) sched → Z.of_nat (length data) < 2 ^ 32 → is_u32 n →
  (length data < length sched)%nat →
  is_Some (pipe_write self id data true sched) ∧ is_Some (pipe_read self id n true sched).
Proof.
  intros F Hn Hu Hl. split.
  - unfold pipe_write. assert (∀ k, 0 ≤ k ≤ Z.of_nat (length data) →
      Z.of_nat (length data) - k < Z.of_nat (length sched) →
      is_Some (write_loop self id data k true sched)) as G; [|apply G; lia].
    clear Hl. induction F as [|[s pd] sched Ok F IH]; intros k Hk Hl; simpl in *; [lia|].
    destruct (Z.ltb_spec k (Z.of_nat (length data))) as [Hlt|]; simpl; [|done].
    destruct (pipe_get id s) as [pi|] eqn:Gt.
    2:{ unfold pipe_write_step. by rewrite Gt. }
    pose proof Gt as (Hid&Epi&_)%pipe_get_Some. pose proof (Ok id Hid) as Okp.
    rewrite <- Epi in Okp.
    pose proof (pipe_write_step_spec self id data k true pd s pi Gt Okp ltac:(lia) Hn) as Sp.
    assert ((pipe_write_step self id data k true pd s).1.1.1 ≠ WBlocks ∧
            (pipe_write_step self id data k true pd s).1.1.1 ≠ WSleeps) as [N1 N2].
    { unfold pipe_write_step. rewrite Gt. repeat case_match; done. }
    destruct (pipe_write_step self id data k true pd s) as [[[o ch] wake] s'].
    destruct Sp as (pi'&_&Sp). simpl in N1, N2. pose proof (po_count _ Okp) as Hc.
    destruct (Z.eq_dec (readers pi) 0) as [Er|Er].
    { destruct (ws_broken _ _ _ _ _ _ _ _ Sp Er) as [_ ->]. done. }
    destruct (Z.lt_ge_cases (count pi) PIPE_CAPACITY) as [Hr|Hr].
    + destruct (ws_room _ _ _ _ _ _ _ _ Sp Er Hr) as (Ech&->&Hne).
      assert (Z.of_nat (length ch) ≤ Z.of_nat (length data) - k) as Lch.
      { rewrite Ech, length_take, length_drop. lia. }
      assert (0 < Z.of_nat (length ch)) as Pos by (destruct ch; [done|simpl; lia]).
      destruct (IH (k + Z.of_nat (length ch)) ltac:(lia) ltac:(lia)) as [[r1 rest] ->]. done.
    + destruct (ws_full _ _ _ _ _ _ _ _ Sp Er ltac:(lia)) as (->&[[-> _]|[->|(e&He&->)]]); done.
  - destruct sched as [|[s pd] sched]; [simpl in Hl; lia|]. simpl.
    destruct (n =? 0); [done|].
    assert ((pipe_read_step self id n true pd s).1.1.1 ≠ Blocks ∧
            (pipe_read_step self id n true pd s).1.1.1 ≠ Sleeps) as [N1 N2].
    { unfold pipe_read_step. repeat case_match; done. }
    destruct (pipe_read_step self id n true pd s) as [[[o out] wake] s']. by destruct o.
Qed.

(** *** Witnesses *)

Definition demo_boot_64 : pmm :=
  pmm_init (Some [Some (Memmap 4096 (64 * 4096) 0)]) 4096 (Pmm ∅ None 0 0 0 0 false ∅).
Lemma demo_boot_64_wf : pmm_wf demo_boot_64.
Proof. by apply pmm_init_wf. Qed.

Definition demo_events : list event :=
  [ECreate; EWrite 9 0 [1; 2; 3; 4] 0 false false; ERead 7 0 3 false false].
Definition demo_world : world := run demo_events (world_init demo_boot_64).
Lemma demo_world_reachable : reachable demo_world.
Proof.
  apply run_reachable; [constructor; exact demo_boot_64_wf|]. unfold demo_events.
  cbn [run_ok event_ok]. repeat split; lia.
Qed.
Lemma demo_world_pipe : used (pipe_at (w_pipes demo_world) 0) = true.
Proof. vm_compute. reflexivity. Qed.

Lemma pipe_stream_fifo_witness :
  aget [] (w_sent demo_world) 0 = [1; 2; 3; 4] ∧
  aget [] (w_received demo_world) 0 ++ contents (pipe_at (w_pipes demo_world) 0) = [1; 2; 3; 4].
Proof.
  assert (aget [] (w_sent demo_world) 0 = [1; 2; 3; 4]) as E by (vm_compute; reflexivity).
  split; [exact E|]. rewrite <- E. symmetry.
  apply (pipe_stream_fifo demo_world 0); [exact demo_world_reachable|exact demo_world_pipe|lia].
Defined.

(** A reader blocked on an empty pipe. *)
Definition blocked_world : world :=
  run [ECreate; ERead 7 0 3 false false] (world_init demo_boot_64).
Lemma blocked_world_reachable : reachable blocked_world.
Proof.
  apply run_reachable; [constructor; exact demo_boot_64_wf|].
  cbn [run_ok event_ok]. repeat split; lia.
Qed.
Lemma blocked_world_waits : read_waiters (pipe_at (w_pipes blocked_world) 0) = [7;0;0;0;0;0;0;0].
Proof. vm_compute. reflexivity. Qed.

Lemma pipe_waiters_justified_witness :
  waiting (read_waiters (pipe_at (w_pipes blocked_world) 0)) ∧
  contents (pipe_at (w_pipes blocked_world) 0) = [].
Proof.
  assert (waiting (read_waiters (pipe_at (w_pipes blocked_world) 0))) as Wt.
  { rewrite blocked_world_waits. exists 7. split; [apply list_elem_of_here|lia]. }
  split; [exact Wt|]. assert (0 ≤ 0 < 128) as Hid by lia.
  destruct (pipe_waiters_justified blocked_world 0 blocked_world_reachable Hid) as [H _].
  exact (proj1 (H Wt)).
Defined.

Lemma pipe_frames_exclusive_witness :
  ∃ f, owns (w_pmm demo_world) (pipe_at (w_pipes demo_world) 0) f.
Proof.
  destruct (pipe_frames_exclusive demo_world demo_world_reachable) as (_&H&_).
  apply H; [lia|exact demo_world_pipe].
Defined.

Lemma pipe_read_step_correct_witness :
  contents (pipe_at (w_pipes demo_world) 0) = [4] ∧
  (pipe_read_step 7 0 5 false false (w_pipes demo_world)).1.1.2 = [4].
Proof.
  assert (contents (pipe_at (w_pipes demo_world) 0) = [4]) as Ec by (vm_compute; reflexivity).
  split; [exact Ec|].
  assert (0 < 5 < 2 ^ 32) as Hn by lia. assert (0 ≤ 0 < 128) as Hid by lia.
  pose proof (pipe_read_step_correct demo_world 7 0 5 false false demo_world_reachable Hn Hid
    demo_world_pipe) as T.
  destruct (pipe_read_step 7 0 5 false false (w_pipes demo_world)) as [[[o out] wake] s].
  destruct T as (pi&_&[_ _ Eo _ _ _ _ _ _]). rewrite Ec in Eo. exact Eo.
Defined.

Lemma demo_pipes_ok : pipes_ok (w_pipes demo_world).
Proof. intros id Hid. apply ww_ok; [|done]. apply reachable_wf, demo_world_reachable. Qed.

Lemma pipe_write_prefix_witness :
  pipe_write 9 0 [5; 6] true [(w_pipes demo_world, false)] = Some (2, [5; 6]) ∧
  write_result [5; 6] 2 [5; 6].
Proof.
  assert (pipe_write 9 0 [5; 6] true [(w_pipes demo_world, false)] = Some (2, [5; 6])) as E
    by (vm_compute; reflexivity).
  split; [exact E|].
  apply (pipe_write_prefix 9 0 [5; 6] true [(w_pipes demo_world, false)] 2 [5; 6]); [|simpl; lia|exact E].
  constructor; [exact demo_pipes_ok|constructor].
Defined.

Lemma pipe_nonblock_returns_witness :
  is_Some (pipe_write 9 0 [5] true [(w_pipes demo_world, false); (w_pipes demo_world, false)]).
Proof.
  assert (is_u32 4) as H4 by (split; lia). assert (Z.of_nat (length [5]) < 2 ^ 32) as H1 by (simpl; lia).
  apply (pipe_nonblock_returns 9 0 [5] 4 [(w_pipes demo_world, false); (w_pipes demo_world, false)]);
    [|exact H1|exact H4|simpl; lia].
  constructor; [exact demo_pipes_ok|]. constructor; [exact demo_pipes_ok|constructor].
Defined.
