(* ===== verification/Ofd.v ===== *)
(** * Open file descriptions (src/src/kernel/process/ofd.c)

    The table of 4096 reference-counted descriptions that file descriptors
    point to: consoles, files of the VFS and pipe ends.  Each function runs
    under [ofd_mutex] while it touches the table and calls the VFS or the pipes
    after releasing it.  The VFS is an interface, [VfsOps], with the laws its
    clients rely on in [VfsLaws]; [acq] is the answer of
    [filesystem_syscall_acquire], which refuses while an installation runs.
    The console is the list of characters written to it: the serial port and
    the framebuffer that show them are not modelled. *)

From S2P Require Import Prelude Errno Pmm Ring Pipe.

(** ** The interface of the VFS

    [vfs_handles] is the set of the handles that are open. *)
Class VfsOps (V : Type) := {
  vfs_handles : V → gset Z;
  vfs_open_flags : list Z → Z → V → Z * V;
  vfs_close : Z → V → Z * V;
  vfs_read : Z → Z → V → Z * list Z * V;
  vfs_write : Z → list Z → V → Z * V;
  vfs_seek : Z → Z → Z → V → Z * V;
  vfs_handle_truncate : Z → Z → V → Z * V;
  vfs_handle_stat : Z → V → Z * file_stat_info * V;
  vfs_handle_path : Z → Z → V → Z * list Z;
}.

(** Opening answers a handle that was not open, closing an open handle closes
    it and nothing else, closing another number and the other calls open and
    close nothing. *)
Class VfsLaws (V : Type) `{VfsOps V} := {
  vfs_open_law path flags v :
    let '(h, v') := vfs_open_flags path flags v in
    if h <? 0 then vfs_handles v' = vfs_handles v
    else (h ∉ vfs_handles v) ∧ vfs_handles v' = {[h]} ∪ (vfs_handles v);
  vfs_close_law h v : h ∈ vfs_handles v →
    vfs_handles (vfs_close h v).2 = (vfs_handles v) ∖ {[h]};
  vfs_close_invalid_law h v : h ∉ vfs_handles v → vfs_handles (vfs_close h v).2 = vfs_handles v;
  vfs_read_law h n v : vfs_handles (vfs_read h n v).2 = vfs_handles v;
  vfs_write_law h d v : vfs_handles (vfs_write h d v).2 = vfs_handles v;
  vfs_seek_law h o w v : vfs_handles (vfs_seek h o w v).2 = vfs_handles v;
  vfs_truncate_law h n v : vfs_handles (vfs_handle_truncate h n v).2 = vfs_handles v;
  vfs_stat_law h v : vfs_handles (vfs_handle_stat h v).2 = vfs_handles v;
}.

(** ** Data *)

(** [src/kernel/process/ofd.c:11-11] OFD_MAX *)
Definition OFD_MAX : nat := Z.to_nat 4096.
(** [src/kernel/process/ofd.c:12-12] OFD_CONSOLE_COUNT *)
Definition OFD_CONSOLE_COUNT : Z := 3.
(** [src/kernel/process/ofd.c:13-13] OFD_O_ACCMODE *)
Definition OFD_O_ACCMODE : Z := 3.
(** [src/kernel/process/ofd.c:14-14] OFD_O_WRONLY *)
Definition OFD_O_WRONLY : Z := 1.
(** [src/kernel/process/ofd.c:15-15] OFD_O_RDONLY *)
Definition OFD_O_RDONLY : Z := 0.
(** Octal 02000.
    [src/kernel/process/ofd.c:16-16] OFD_O_APPEND *)
Definition OFD_O_APPEND : Z := 1024.
(** Octal 04000.
    [src/kernel/process/ofd.c:17-17] OFD_O_NONBLOCK *)
Definition OFD_O_NONBLOCK : Z := 2048.
(** Octal 03003.
    [src/kernel/process/ofd.h:17-17] OFD_STATUS_MASK *)
Definition OFD_STATUS_MASK : Z := 1539.

(** [src/kernel/process/ofd.h:8-15] ofd_kind *)
Inductive ofd_kind := OFD_FREE | OFD_CONSOLE_IN | OFD_CONSOLE_OUT | OFD_FILE | OFD_PIPE.
#[export] Instance ofd_kind_eq_dec : EqDecision ofd_kind.
Proof. solve_decision. Defined.

(** [src/kernel/process/ofd.c:19-26] ofd *)
Record ofd := Ofd { kind : ofd_kind; write_end : bool; flags : Z; refs : Z; object : Z }.
#[export] Instance eta_ofd : Eta ofd := λ o,
  Ofd (kind o) (write_end o) (flags o) (refs o) (object o).
Definition ofd_zero : ofd := Ofd OFD_FREE false 0 0 0.

(** The descriptions, and the components they call: the pipes, the page
    allocator behind them and the VFS.  [k_woken] collects the threads the
    pipes wake, [k_console] what the console shows.
    [src/kernel/process/ofd.c:28-30] table *)
Record kern {V : Type} := Kern {
  k_table : list ofd;
  k_initialized : bool;
  k_pipes : list pipe;
  k_pmm : pmm;
  k_vfs : V;
  k_woken : list Z;
  k_console : list Z;
}.
Arguments kern : clear implicits.
#[export] Instance eta_kern {V} : Eta (kern V) := λ k,
  Kern V (k_table k) (k_initialized k) (k_pipes k) (k_pmm k) (k_vfs k) (k_woken k) (k_console k).

(** [src/kernel/process/ofd.c:32-54] kerr_from_vfs *)
Definition kerr_from_vfs (code : Z) : Z :=
  if code =? FS_ERROR_NOT_FOUND then - KERR_NOENT
  else if code =? FS_ERROR_EXISTS then - KERR_EXIST
  else if code =? FS_ERROR_INVALID then - KERR_INVAL
  else if code =? FS_ERROR_NO_SPACE then - KERR_NFILE
  else if code =? FS_ERROR_NOT_DIR then - KERR_NOTDIR
  else if (code =? FS_ERROR_DENIED) || (code =? FS_ERROR_READ_ONLY) then - KERR_ACCES
  else if code =? FS_ERROR_UNSUPPORTED then - KERR_BADF
  else - KERR_IO.

(** [src/kernel/process/ofd.c:62-64] ofd_init *)
Definition console_ofd (k : ofd_kind) (flags : Z) : ofd :=
  Ofd k false flags (UINT32_MAX / 2) (-1).

(** What a read or a write of a description does: it is finished, or it goes on
    as a call on a pipe. *)
Inductive read_call := RcDone (r : Z) (out : list Z) | RcPipe (id : Z) (nonblock : bool).
Inductive write_call := WcDone (r : Z) | WcPipe (id : Z) (nonblock : bool).

(** ** Operations *)

Section Ops.
Context {V : Type} `{VfsOps V}.
Implicit Types k : kern V.

Definition ofd_at k (i : Z) : ofd := aget ofd_zero (k_table k) i.
Definition put_ofd (i : Z) (o : ofd) k : kern V := k <| k_table := aset (k_table k) i o |>.

(** [src/kernel/process/ofd.c:56-67] ofd_init *)
Definition ofd_init k : kern V :=
  if negb (k_initialized k) then
    let k := k <| k_initialized := true |> in
    let k := put_ofd 0 (console_ofd OFD_CONSOLE_IN 0) k in
    let k := put_ofd 1 (console_ofd OFD_CONSOLE_OUT 1) k in
    put_ofd 2 (console_ofd OFD_CONSOLE_OUT 1) k
  else k.

(** [src/kernel/process/ofd.c:69-84] allocate *)
Definition allocate (kd : ofd_kind) (fl obj : Z) (we : bool) k : Z * kern V :=
  let k := ofd_init k in
  match for_first (λ i, bool_decide (kind (ofd_at k i) = OFD_FREE))
                  (OFD_MAX - Z.to_nat OFD_CONSOLE_COUNT) OFD_CONSOLE_COUNT with
  | Some i => (i, put_ofd i (Ofd kd we fl 1 obj) k)
  | None => (- KERR_NFILE, k)
  end.

(** [src/kernel/process/ofd.c:86-89] ofd_create_file *)
Definition ofd_create_file (handle fl : Z) k : Z * kern V :=
  allocate OFD_FILE (Z.land fl OFD_STATUS_MASK) handle false k.
(** [src/kernel/process/ofd.c:91-95] ofd_create_pipe *)
Definition ofd_create_pipe (pipe_id : Z) (we : bool) k : Z * kern V :=
  allocate OFD_PIPE (if we then OFD_O_WRONLY else OFD_O_RDONLY) pipe_id we k.

(** [src/kernel/process/ofd.c:97-100] valid *)
Definition valid k (index : Z) : bool :=
  (0 <=? index) && (index <? Z.of_nat OFD_MAX) && bool_decide (kind (ofd_at k index) ≠ OFD_FREE).

(** [src/kernel/process/ofd.c:102-108] ofd_ref *)
Definition ofd_ref (index : Z) k : kern V :=
  if valid k index && (OFD_CONSOLE_COUNT <=? index) && (refs (ofd_at k index) <? UINT32_MAX)
  then put_ofd index ((ofd_at k index) <| refs := u32 (refs (ofd_at k index) + 1) |>) k
  else k.

(** [pipe_release] on the pipes of the state. *)
Definition k_pipe_release (id : Z) (we : bool) k : kern V :=
  let '(wake, s, p) := pipe_release id we (k_pipes k) (k_pmm k) in
  k <| k_pipes := s |> <| k_pmm := p |> <| k_woken := k_woken k ++ wake |>.
Definition k_vfs_close (h : Z) k : kern V := k <| k_vfs := (vfs_close h (k_vfs k)).2 |>.

(** [src/kernel/process/ofd.c:110-127] ofd_release *)
Definition ofd_release (index : Z) k : kern V :=
  if valid k index && (OFD_CONSOLE_COUNT <=? index) then
    let o := (ofd_at k index) <| refs := u32 (refs (ofd_at k index) - 1) |> in
    if refs o =? 0 then
      let k := put_ofd index (o <| kind := OFD_FREE |>) k in
      match kind o with
      | OFD_FILE => k_vfs_close (object o) k
      | OFD_PIPE => k_pipe_release (object o) (write_end o) k
      | _ => k
      end
    else put_ofd index o k
  else k.

(** [src/kernel/process/ofd.c:129-137] snapshot *)
Definition snapshot k (index : Z) : option ofd :=
  if valid k index then Some (ofd_at k index) else None.

(** [src/kernel/process/ofd.c:139-145] ofd_vfs_handle *)
Definition ofd_vfs_handle k (index : Z) : Z :=
  match snapshot k index with
  | Some o => if bool_decide (kind o ≠ OFD_FILE) then -1 else object o
  | None => -1
  end.

(** [src/kernel/syscall/syscall.h:178-178] FD_KIND_CONSOLE *)
Definition FD_KIND_CONSOLE : Z := 0.
(** [src/kernel/syscall/syscall.h:179-179] FD_KIND_FILE *)
Definition FD_KIND_FILE : Z := 1.
(** [src/kernel/syscall/syscall.h:180-180] FD_KIND_PIPE *)
Definition FD_KIND_PIPE : Z := 2.
(** [src/kernel/process/ofd.c:147-155] ofd_kind_of *)
Definition ofd_kind_of k (index : Z) : Z :=
  match snapshot k index with
  | None => -1
  | Some o =>
      match kind o with
      | OFD_CONSOLE_IN | OFD_CONSOLE_OUT => FD_KIND_CONSOLE
      | OFD_PIPE => FD_KIND_PIPE
      | _ => FD_KIND_FILE
      end
  end.

(** [src/kernel/process/ofd.c:173-199] ofd_read *)
Definition ofd_read (acq : bool) (index n : Z) k : read_call * kern V :=
  match snapshot k index with
  | None => (RcDone (- KERR_BADF) [], k)
  | Some o =>
      match kind o with
      | OFD_CONSOLE_IN => (RcDone (- KERR_CONSOLE) [], k)
      | OFD_PIPE =>
          if write_end o then (RcDone (- KERR_BADF) [], k)
          else (RcPipe (object o) (negb (Z.land (flags o) OFD_O_NONBLOCK =? 0)), k)
      | OFD_FILE =>
          if Z.land (flags o) OFD_O_ACCMODE =? OFD_O_WRONLY then (RcDone (- KERR_BADF) [], k)
          else if negb acq then (RcDone (- KERR_AGAIN) [], k)
          else
            let '(result, out, v) := vfs_read (object o) n (k_vfs k) in
            (RcDone (if result <? 0 then kerr_from_vfs result else result) out,
             k <| k_vfs := v |>)
      | _ => (RcDone (- KERR_BADF) [], k)
      end
  end.

(** [src/kernel/process/ofd.c:201-228] ofd_write *)
Definition ofd_write (acq : bool) (index : Z) (data : list Z) k : write_call * kern V :=
  match snapshot k index with
  | None => (WcDone (- KERR_BADF), k)
  | Some o =>
      match kind o with
      | OFD_CONSOLE_OUT =>
          (WcDone (i32 (Z.of_nat (length data))), k <| k_console := k_console k ++ data |>)
      | OFD_PIPE =>
          if negb (write_end o) then (WcDone (- KERR_BADF), k)
          else (WcPipe (object o) (negb (Z.land (flags o) OFD_O_NONBLOCK =? 0)), k)
      | OFD_FILE =>
          if Z.land (flags o) OFD_O_ACCMODE =? OFD_O_RDONLY then (WcDone (- KERR_BADF), k)
          else if negb acq then (WcDone (- KERR_AGAIN), k)
          else
            let '(result, v) := vfs_write (object o) data (k_vfs k) in
            (WcDone (if result <? 0 then kerr_from_vfs result else result), k <| k_vfs := v |>)
      | _ => (WcDone (- KERR_BADF), k)
      end
  end.

(** [src/kernel/process/ofd.c:230-242] ofd_seek *)
Definition ofd_seek (acq : bool) (index offset whence : Z) k : Z * kern V :=
  match snapshot k index with
  | None => (- KERR_BADF, k)
  | Some o =>
      if bool_decide (kind o ≠ OFD_FILE) then (- KERR_SPIPE, k)
      else if negb acq then (- KERR_AGAIN, k)
      else
        let '(result, v) := vfs_seek (object o) offset whence (k_vfs k) in
        (if result <? 0 then kerr_from_vfs (i32 result) else result, k <| k_vfs := v |>)
  end.

(** [src/kernel/process/ofd.c:244-256] ofd_truncate *)
Definition ofd_truncate (acq : bool) (index len : Z) k : Z * kern V :=
  match snapshot k index with
  | None => (- KERR_BADF, k)
  | Some o =>
      if bool_decide (kind o ≠ OFD_FILE) then (- KERR_BADF, k)
      else if Z.land (flags o) OFD_O_ACCMODE =? OFD_O_RDONLY then (- KERR_INVAL, k)
      else if negb acq then (- KERR_AGAIN, k)
      else
        let '(result, v) := vfs_handle_truncate (object o) len (k_vfs k) in
        (if result <? 0 then kerr_from_vfs result else 0, k <| k_vfs := v |>)
  end.

(** The status and the structure, when it is filled in.
    [src/kernel/process/ofd.c:258-273] ofd_stat *)
Definition ofd_stat (acq : bool) (index : Z) k : Z * option file_stat_info * kern V :=
  match snapshot k index with
  | None => (- KERR_BADF, None, k)
  | Some o =>
      if bool_decide (kind o ≠ OFD_FILE) then (0, Some stat_zero, k)
      else if negb acq then (- KERR_AGAIN, None, k)
      else
        let '(result, info, v) := vfs_handle_stat (object o) (k_vfs k) in
        (if result <? 0 then kerr_from_vfs result else 0, Some info, k <| k_vfs := v |>)
  end.

(** [src/kernel/process/ofd.c:275-282] ofd_path *)
Definition ofd_path (index capacity : Z) k : Z * list Z :=
  match snapshot k index with
  | None => (- KERR_INVAL, [])
  | Some o =>
      if bool_decide (kind o ≠ OFD_FILE) then (- KERR_INVAL, [])
      else
        let '(result, out) := vfs_handle_path (object o) capacity (k_vfs k) in
        (if result <? 0 then kerr_from_vfs result else result, out)
  end.

(** [src/kernel/process/ofd.c:284-290] ofd_flags_get *)
Definition ofd_flags_get k (index : Z) : Z :=
  match snapshot k index with None => - KERR_BADF | Some o => i32 (flags o) end.

(** [src/kernel/process/ofd.c:292-301] ofd_flags_set *)
Definition ofd_flags_set (index fl : Z) k : Z * kern V :=
  let ok := valid k index && (OFD_CONSOLE_COUNT <=? index) in
  let m := Z.lor OFD_O_APPEND OFD_O_NONBLOCK in
  let o := ofd_at k index in
  if ok then (0, put_ofd index (o <| flags := Z.lor (Z.land (flags o) (UINT32_MAX - m))
    (Z.land fl m) |>) k)
  else (- KERR_BADF, k).

(** [ready] is the answer of [tty_input_ready].
    [src/kernel/process/ofd.c:303-321] ofd_poll *)
Definition ofd_poll (ready : bool) (index : Z) k : Z :=
  match snapshot k index with
  | None => KPOLLNVAL
  | Some o =>
      match kind o with
      | OFD_CONSOLE_IN => if ready then KPOLLIN else 0
      | OFD_CONSOLE_OUT => KPOLLOUT
      | OFD_PIPE => pipe_poll (object o) (write_end o) (k_pipes k)
      | OFD_FILE => Z.lor KPOLLIN KPOLLOUT
      | OFD_FREE => KPOLLNVAL
      end
  end.
End Ops.
