(* ===== verification/Fdtable.v ===== *)
(** * File descriptors (src/src/kernel/process/fdtable.c)

    Each process has 64 slots that point to open file descriptions.  A call is
    one atomic step of the model: [process_table_lock] covers the slots and
    [ofd_mutex] the descriptions, and the references a call holds between the
    two are the ones the invariant below counts as held.  [cur] is the process
    that calls ([process_current]), an index into the list of processes. *)

From S2P Require Import Prelude Errno Pmm Ring Pipe Ofd.

(** [src/kernel/process/process.h:6-6] PROCESS_FD_COUNT *)
Definition PROCESS_FD_COUNT : nat := 64.
(** [src/kernel/process/process.h:8-8] PROCESS_FD_CLOEXEC *)
Definition PROCESS_FD_CLOEXEC : Z := 1.
(** Octal 02000000.
    [src/kernel/process/fdtable.c:9-9] O_CLOEXEC_FLAG *)
Definition O_CLOEXEC_FLAG : Z := 524288.
(** [src/kernel/syscall/syscall.h:170-170] FD_CTL_GETFD *)
Definition FD_CTL_GETFD : Z := 1.
(** [src/kernel/syscall/syscall.h:171-171] FD_CTL_SETFD *)
Definition FD_CTL_SETFD : Z := 2.
(** [src/kernel/syscall/syscall.h:172-172] FD_CTL_DUPFD *)
Definition FD_CTL_DUPFD : Z := 3.
(** [src/kernel/syscall/syscall.h:173-173] FD_CTL_KIND *)
Definition FD_CTL_KIND : Z := 4.
(** [src/kernel/syscall/syscall.h:174-174] FD_CTL_DUPFD_CLOEXEC *)
Definition FD_CTL_DUPFD_CLOEXEC : Z := 5.
(** [src/kernel/syscall/syscall.h:175-175] FD_CTL_GETFL *)
Definition FD_CTL_GETFL : Z := 6.
(** [src/kernel/syscall/syscall.h:176-176] FD_CTL_SETFL *)
Definition FD_CTL_SETFL : Z := 7.

(** The slots of a process: description numbers (negative when closed) and the
    close-on-exec flags.
    [src/kernel/process/process.h:56-65] descriptors *)
Record fds := Fds { descriptors : list Z; fd_flags : list Z }.
#[export] Instance eta_fds : Eta fds := λ f, Fds (descriptors f) (fd_flags f).

(** The slots [allocate_process] gives a new process.
    [src/kernel/process/process.c:349-354] allocate_process *)
Definition fds_new : fds :=
  Fds (0 :: 1 :: 2 :: replicate 61 (-1)) (replicate PROCESS_FD_COUNT 0).

Definition desc (f : fds) (fd : Z) : Z := aget (-1) (descriptors f) fd.
Definition set_slot (fd d fl : Z) (f : fds) : fds :=
  Fds (aset (descriptors f) fd d) (aset (fd_flags f) fd fl).

(** [src/kernel/process/fdtable.c:11-19] slot_find *)
Definition slot_find (f : fds) (minimum : Z) : Z :=
  let m := if minimum <? 0 then 0 else minimum in
  default (-1) (for_first (λ fd, desc f fd <? 0) (PROCESS_FD_COUNT - Z.to_nat m) m).

(** The whole state: the descriptions and the slots of every process. *)
Record sys {V : Type} := Sys { s_kern : kern V; s_procs : list fds }.
Arguments sys : clear implicits.
#[export] Instance eta_sys {V} : Eta (sys V) := λ s, Sys V (s_kern s) (s_procs s).

Section Ops.
Context {V : Type} `{VfsOps V}.
Implicit Types s : sys V.

Definition proc s (c : Z) : fds := aget fds_new (s_procs s) c.
Definition put_proc (c : Z) (f : fds) s : sys V := s <| s_procs := aset (s_procs s) c f |>.
Definition on_kern (f : kern V → kern V) s : sys V := s <| s_kern := f (s_kern s) |>.
Definition in_range (fd : Z) : bool := (0 <=? fd) && (fd <? Z.of_nat PROCESS_FD_COUNT).

(** [src/kernel/process/fdtable.c:21-30] object_get *)
Definition object_get (cur : option Z) (fd : Z) s : Z :=
  match cur with
  | Some c => if negb (in_range fd) then -1 else desc (proc s c) fd
  | None => -1
  end.

(** [src/kernel/process/fdtable.c:32-54] fd_install_handle *)
Definition fd_install_handle (cur : option Z) (handle : Z) s : Z * sys V :=
  match cur with
  | None => (handle, s)
  | Some c =>
      let '(object, k) := ofd_create_file handle 0 (s_kern s) in
      let s := s <| s_kern := k |> in
      if object <? 0 then (-1, s) else
      match for_first (λ fd, desc (proc s c) fd <? 0) (PROCESS_FD_COUNT - 3) 3 with
      | Some fd => (fd, put_proc c (set_slot fd object 0 (proc s c)) s)
      | None => (-1, on_kern (ofd_release object) s)
      end
  end.

(** The system call that opens a file for reading: the handle it opens is
    installed in a slot, or closed when that fails.
    [src/kernel/syscall/syscall.c:850-867] SYS_FILE_OPEN *)
Definition sys_file_open (cur : option Z) (acq : bool) (path : list Z) s : Z * sys V :=
  if negb acq then (-1, s) else
  let '(result, v) := vfs_open_flags path 0 (k_vfs (s_kern s)) in
  let s := on_kern (λ k, k <| k_vfs := v |>) s in
  if result <? 0 then (result, s) else
  let '(descriptor, s) := fd_install_handle cur result s in
  (descriptor, if descriptor <? 0 then on_kern (k_vfs_close result) s else s).

(** [src/kernel/process/fdtable.c:56-63] fd_vfs_handle *)
Definition fd_vfs_handle (cur : option Z) (fd : Z) s : Z :=
  match cur with
  | None => fd
  | Some _ =>
      let object := object_get cur fd s in
      if object <? 0 then -1 else ofd_vfs_handle (s_kern s) object
  end.

(** [src/kernel/process/fdtable.c:65-94] fd_open *)
Definition fd_open (cur : option Z) (acq : bool) (path : list Z) (fl : Z) s : Z * sys V :=
  match cur with
  | None => (- KERR_BADF, s)
  | Some c =>
      if negb acq then (- KERR_AGAIN, s) else
      let '(handle, v) := vfs_open_flags path fl (k_vfs (s_kern s)) in
      let s := on_kern (λ k, k <| k_vfs := v |>) s in
      if handle <? 0 then (kerr_from_vfs handle, s) else
      let '(object, k) := ofd_create_file handle fl (s_kern s) in
      let s := s <| s_kern := k |> in
      if object <? 0 then (object, on_kern (k_vfs_close handle) s) else
      let fd := slot_find (proc s c) 0 in
      if fd <? 0 then (- KERR_MFILE, on_kern (ofd_release object) s) else
      let fdfl := if negb (Z.land fl O_CLOEXEC_FLAG =? 0) then PROCESS_FD_CLOEXEC else 0 in
      (fd, put_proc c (set_slot fd object fdfl (proc s c)) s)
  end.

(** [src/kernel/process/fdtable.c:96-100] fd_read *)
Definition fd_read (cur : option Z) (acq : bool) (fd n : Z) s : read_call * sys V :=
  let object := object_get cur fd s in
  if object <? 0 then (RcDone (- KERR_BADF) [], s)
  else let '(r, k) := ofd_read acq object n (s_kern s) in (r, s <| s_kern := k |>).
(** [src/kernel/process/fdtable.c:102-106] fd_poll *)
Definition fd_poll (cur : option Z) (ready : bool) (fd : Z) s : Z :=
  let object := object_get cur fd s in
  if object <? 0 then KPOLLNVAL else ofd_poll ready object (s_kern s).
(** [src/kernel/process/fdtable.c:108-112] fd_write *)
Definition fd_write (cur : option Z) (acq : bool) (fd : Z) (data : list Z) s : write_call * sys V :=
  let object := object_get cur fd s in
  if object <? 0 then (WcDone (- KERR_BADF), s)
  else let '(r, k) := ofd_write acq object data (s_kern s) in (r, s <| s_kern := k |>).
(** [src/kernel/process/fdtable.c:114-118] fd_seek *)
Definition fd_seek (cur : option Z) (acq : bool) (fd offset whence : Z) s : Z * sys V :=
  let object := object_get cur fd s in
  if object <? 0 then (- KERR_BADF, s)
  else let '(r, k) := ofd_seek acq object offset whence (s_kern s) in (r, s <| s_kern := k |>).
(** [src/kernel/process/fdtable.c:120-124] fd_truncate *)
Definition fd_truncate (cur : option Z) (acq : bool) (fd len : Z) s : Z * sys V :=
  let object := object_get cur fd s in
  if object <? 0 then (- KERR_BADF, s)
  else let '(r, k) := ofd_truncate acq object len (s_kern s) in (r, s <| s_kern := k |>).

(** [src/kernel/process/fdtable.c:126-140] fd_close *)
Definition fd_close (cur : option Z) (fd : Z) s : Z * sys V :=
  match cur with
  | None => (- KERR_BADF, s)
  | Some c =>
      if negb (in_range fd) then (- KERR_BADF, s) else
      let object := desc (proc s c) fd in
      let s := put_proc c (set_slot fd (-1) 0 (proc s c)) s in
      if object <? 0 then (- KERR_BADF, s) else (0, on_kern (ofd_release object) s)
  end.

(** [src/kernel/process/fdtable.c:142-161] fd_dup *)
Definition fd_dup (cur : option Z) (fd minimum : Z) (cloexec : bool) s : Z * sys V :=
  match cur with
  | None => (- KERR_BADF, s)
  | Some c =>
      if negb (in_range fd) || negb (in_range minimum) then (- KERR_BADF, s) else
      let object := desc (proc s c) fd in
      let slot := if object <? 0 then -1 else slot_find (proc s c) minimum in
      if (object <? 0) || (slot <? 0)
      then (if object <? 0 then - KERR_BADF else - KERR_MFILE, s) else
      let s := on_kern (ofd_ref object) s in
      (slot, put_proc c (set_slot slot object (if cloexec then PROCESS_FD_CLOEXEC else 0)
        (proc s c)) s)
  end.

(** [src/kernel/process/fdtable.c:163-189] fd_dup2 *)
Definition fd_dup2 (cur : option Z) (old_fd new_fd : Z) s : Z * sys V :=
  match cur with
  | None => (- KERR_BADF, s)
  | Some c =>
      if negb (in_range old_fd) || negb (in_range new_fd) then (- KERR_BADF, s) else
      let object := desc (proc s c) old_fd in
      if object <? 0 then (- KERR_BADF, s) else
      if old_fd =? new_fd then (new_fd, s) else
      let previous := desc (proc s c) new_fd in
      let s := on_kern (ofd_ref object) s in
      let s := put_proc c (set_slot new_fd object 0 (proc s c)) s in
      (new_fd, if 0 <=? previous then on_kern (ofd_release previous) s else s)
  end.

(** What [fd_pipe] does once both descriptions exist.
    [src/kernel/process/fdtable.c:219-243] fd_pipe *)
Definition fd_pipe_install (c fl read_object write_object : Z) s : Z * option (Z * Z) * sys V :=
  let release s := on_kern (λ k, ofd_release write_object (ofd_release read_object k)) s in
  let f := proc s c in
  let read_fd := slot_find f 0 in
  if read_fd <? 0 then (- KERR_MFILE, None, release s) else
  let f1 := f <| descriptors := aset (descriptors f) read_fd read_object |> in
  let write_fd := slot_find f1 0 in
  if write_fd <? 0 then
    let f2 := f1 <| descriptors := aset (descriptors f1) read_fd (-1) |> in
    (- KERR_MFILE, None, release (put_proc c f2 s))
  else
    let ce := if negb (Z.land fl O_CLOEXEC_FLAG =? 0) then PROCESS_FD_CLOEXEC else 0 in
    let f2 := Fds (aset (descriptors f1) write_fd write_object)
      (aset (aset (fd_flags f1) read_fd ce) write_fd ce) in
    (0, Some (read_fd, write_fd), put_proc c f2 s).

(** The two slots stored through the pointer come with the result.
    [src/kernel/process/fdtable.c:191-244] fd_pipe *)
Definition fd_pipe (cur : option Z) (fl : Z) s : Z * option (Z * Z) * sys V :=
  match cur with
  | None => (- KERR_BADF, None, s)
  | Some c =>
      let '(status, oid, ps, p) := pipe_create (k_pipes (s_kern s)) (k_pmm (s_kern s)) in
      let s := on_kern (λ k, k <| k_pipes := ps |> <| k_pmm := p |>) s in
      match oid with
      | None => (status, None, s)
      | Some id =>
          let '(read_object, k) := ofd_create_pipe id false (s_kern s) in
          let '(write_object, k) := ofd_create_pipe id true k in
          let s := s <| s_kern := k |> in
          if (read_object <? 0) || (write_object <? 0) then
            let s := on_kern (if 0 <=? read_object then ofd_release read_object
                              else k_pipe_release id false) s in
            let s := on_kern (if 0 <=? write_object then ofd_release write_object
                              else k_pipe_release id true) s in
            (- KERR_NFILE, None, s)
          else
            let s := if negb (Z.land fl OFD_O_NONBLOCK =? 0)
                     then on_kern (λ k, (ofd_flags_set write_object OFD_O_NONBLOCK
                       (ofd_flags_set read_object OFD_O_NONBLOCK k).2).2) s
                     else s in
            fd_pipe_install c fl read_object write_object s
      end
  end.

(** [src/kernel/process/fdtable.c:246-274] fd_ctl *)
Definition fd_ctl (cur : option Z) (fd command argument : Z) s : Z * sys V :=
  match cur with
  | None => (- KERR_BADF, s)
  | Some c =>
      if negb (in_range fd) then (- KERR_BADF, s) else
      let object := object_get cur fd s in
      if object <? 0 then (- KERR_BADF, s) else
      if command =? FD_CTL_GETFD then (aget 0 (fd_flags (proc s c)) fd, s) else
      if command =? FD_CTL_SETFD then
        (0, put_proc c ((proc s c) <| fd_flags :=
          aset (fd_flags (proc s c)) fd (u8 (Z.land argument PROCESS_FD_CLOEXEC)) |>) s) else
      if command =? FD_CTL_DUPFD then fd_dup cur fd (i32 argument) false s else
      if command =? FD_CTL_DUPFD_CLOEXEC then fd_dup cur fd (i32 argument) true s else
      if command =? FD_CTL_KIND then (ofd_kind_of (s_kern s) object, s) else
      if command =? FD_CTL_GETFL then (ofd_flags_get (s_kern s) object, s) else
      if command =? FD_CTL_SETFL then
        let '(r, k) := ofd_flags_set object (u32 argument) (s_kern s) in (r, s <| s_kern := k |>)
      else (- KERR_INVAL, s)
  end.

(** [src/kernel/process/fdtable.c:276-280] fd_path *)
Definition fd_path (cur : option Z) (fd capacity : Z) s : Z * list Z :=
  let object := object_get cur fd s in
  if object <? 0 then (- KERR_BADF, []) else ofd_path object capacity (s_kern s).
(** [src/kernel/process/fdtable.c:282-286] fd_stat *)
Definition fd_stat (cur : option Z) (acq : bool) (fd : Z) s : Z * option file_stat_info * sys V :=
  let object := object_get cur fd s in
  if object <? 0 then (- KERR_BADF, None, s)
  else let '(r, info, k) := ofd_stat acq object (s_kern s) in (r, info, s <| s_kern := k |>).

(** One round of the loop: the slot is emptied, its description released.
    [src/kernel/process/fdtable.c:292-296] fd_close_all *)
Definition close_slot (c fd : Z) s : sys V :=
  let object := desc (proc s c) fd in
  let s := put_proc c (set_slot fd (-1) 0 (proc s c)) s in
  if 0 <=? object then on_kern (ofd_release object) s else s.
(** [src/kernel/process/fdtable.c:288-298] fd_close_all *)
Definition fd_close_all (c : Z) s : sys V :=
  foldl (λ s fd, close_slot c fd s) s (seqZ 0 (Z.of_nat PROCESS_FD_COUNT)).
(** [src/kernel/process/fdtable.c:300-312] fd_close_on_exec *)
Definition fd_close_on_exec (c : Z) s : sys V :=
  foldl (λ s fd,
    if (desc (proc s c) fd <? 0) ||
      (Z.land (aget 0 (fd_flags (proc s c)) fd) PROCESS_FD_CLOEXEC =? 0)
    then s else close_slot c fd s) s (seqZ 0 (Z.of_nat PROCESS_FD_COUNT)).

(** [src/kernel/process/fdtable.c:316-323] fd_clone *)
Definition clone_slot (child parent fd : Z) s : sys V :=
  let object := desc (proc s parent) fd in
  let s := put_proc child (set_slot fd object (aget 0 (fd_flags (proc s parent)) fd)
    (proc s child)) s in
  if 0 <=? object then on_kern (ofd_ref object) s else s.
(** [src/kernel/process/fdtable.c:314-324] fd_clone *)
Definition fd_clone (child parent : Z) s : sys V :=
  foldl (λ s fd, clone_slot child parent fd s) s (seqZ 0 (Z.of_nat PROCESS_FD_COUNT)).
End Ops.
