(* ===== verification/FdRefs.v ===== *)
(** * Reference counting of descriptors, descriptions, pipes and handles

    The invariant that ties the descriptor slots of all processes
    ([Fdtable.v]) to the reference counts of the open file descriptions
    ([Ofd.v]), of the pipe ends ([Pipe.v]) and to the open handles of the VFS,
    and the proof that every descriptor operation keeps it: no description is
    freed while a slot points to it, none is leaked, and a pipe or a handle
    lives exactly as long as a description needs it. *)

From S2P Require Import Prelude Errno Pmm Ring Pipe Ofd Fdtable.

(** ** Counting references *)

Definition occ (x : Z) (l : list Z) : Z := sum_of (λ y, if y =? x then 1 else 0) l.
Definition occ_end (id : Z) (we : bool) (l : list (Z * bool)) : Z :=
  sum_of (λ e, if (e.1 =? id) && eqb e.2 we then 1 else 0) l.

(** The slots of all processes that point to description [i]. *)
Definition slot_refs (procs : list fds) (i : Z) : Z := sum_of (λ f, occ i (descriptors f)) procs.

Definition is_end (id : Z) (we : bool) (o : ofd) : Z :=
  if bool_decide (kind o = OFD_PIPE) && (object o =? id) && eqb (write_end o) we then 1 else 0.
Definition is_file (h : Z) (o : ofd) : Z :=
  if bool_decide (kind o = OFD_FILE) && (object o =? h) then 1 else 0.

(** What the running call holds and no slot or description accounts for. *)
Record held := Held { h_ofds : list Z; h_ends : list (Z * bool); h_handles : list Z }.
Definition nothing : held := Held [] [] [].

(** ** Invariant

    [D i] is the number of slots that point to description [i]; [other] are the
    handles opened past the descriptors. *)
Record kern_ok {V} `{VfsOps V} (other : list Z) (D : Z → Z) (k : kern V) (h : held) : Prop := {
  ko_table : length (k_table k) = OFD_MAX ∧ k_initialized k = true;
  ko_console : ∀ i, 0 ≤ i < 3 → kind (ofd_at k i) ≠ OFD_FREE ∧ kind (ofd_at k i) ≠ OFD_FILE ∧
                                kind (ofd_at k i) ≠ OFD_PIPE;
  ko_held : ∀ i, i ∈ h_ofds h → 0 ≤ i < 4096;
  ko_refs : ∀ i, 3 ≤ i < 4096 →
    if decide (kind (ofd_at k i) = OFD_FREE) then D i + occ i (h_ofds h) = 0
    else refs (ofd_at k i) = D i + occ i (h_ofds h) ∧ 1 ≤ refs (ofd_at k i) < UINT32_MAX;
  ko_world : ∃ sent received, world_wf (World (k_pipes k) (k_pmm k) sent received);
  ko_objects : ∀ i, 0 ≤ i < 4096 → kind (ofd_at k i) = OFD_PIPE → 0 ≤ object (ofd_at k i) < 128;
  ko_ends_held : ∀ e, e ∈ h_ends h → 0 ≤ e.1 < 128;
  ko_ends : ∀ id, 0 ≤ id < 128 →
    let pi := pipe_at (k_pipes k) id in
    let r we := sum_of (is_end id we) (k_table k) + occ_end id we (h_ends h) in
    if used pi then readers pi = r false ∧ writers pi = r true ∧ 1 ≤ readers pi + writers pi
    else r false = 0 ∧ r true = 0;
  ko_files : ∀ x, sum_of (is_file x) (k_table k) + occ x (h_handles h) + occ x other =
    if decide (x ∈ vfs_handles (k_vfs k)) then 1 else 0;
}.

Lemma occ_nonneg x l : 0 ≤ occ x l.
Proof.
  unfold occ. assert (∀ y, y ∈ l → 0 ≤ (if y =? x then 1 else 0) ≤ 1) as B.
  { intros y _. destruct (y =? x); lia. }
  apply sum_of_bound in B. lia.
Qed.

Lemma occ_cons x y l : occ x (y :: l) = (if y =? x then 1 else 0) + occ x l.
Proof. done. Qed.

Lemma occ_le_length x l : occ x l ≤ Z.of_nat (length l).
Proof.
  unfold occ. assert (∀ y, y ∈ l → 0 ≤ (if y =? x then 1 else 0) ≤ 1) as B.
  { intros y _. destruct (y =? x); lia. }
  apply sum_of_bound in B. lia.
Qed.

Lemma occ_pos x l : x ∈ l → 1 ≤ occ x l.
Proof.
  intros Hx. pose proof (elem_le_sum (λ y, if y =? x then 1 else 0) l x) as E.
  cbv beta in E. rewrite Z.eqb_refl in E. apply E; [|done]. intros y _. destruct (y =? x); lia.
Qed.

Lemma occ_end_nonneg id we l : 0 ≤ occ_end id we l.
Proof.
  unfold occ_end. assert (∀ y, y ∈ l →
    0 ≤ (if (y.1 =? id) && eqb y.2 we then 1 else 0) ≤ 1) as B.
  { intros y _. destruct (_ && _); lia. }
  apply sum_of_bound in B. lia.
Qed.

Lemma is_end_sum_nonneg id we (t : list ofd) : 0 ≤ sum_of (is_end id we) t.
Proof.
  assert (∀ o, o ∈ t → 0 ≤ is_end id we o ≤ 1) as B.
  { intros o _. unfold is_end. destruct (_ && _); lia. }
  apply sum_of_bound in B. lia.
Qed.

Lemma is_end_sum_bound id we (t : list ofd) : sum_of (is_end id we) t ≤ Z.of_nat (length t).
Proof.
  assert (∀ o, o ∈ t → 0 ≤ is_end id we o ≤ 1) as B.
  { intros o _. unfold is_end. destruct (_ && _); lia. }
  apply sum_of_bound in B. lia.
Qed.

Lemma is_file_sum_nonneg x (t : list ofd) : 0 ≤ sum_of (is_file x) t.
Proof.
  assert (∀ o, o ∈ t → 0 ≤ is_file x o ≤ 1) as B.
  { intros o _. unfold is_file. destruct (_ && _); lia. }
  apply sum_of_bound in B. lia.
Qed.

Section KernLemmas.
Context {V : Type} `{VfsLaws V} (other : list Z).
Implicit Types (k : kern V) (D : Z → Z).

Lemma ofd_at_put k i o j : length (k_table k) = OFD_MAX → 0 ≤ i < 4096 → 0 ≤ j →
  ofd_at (put_ofd i o k) j = if i =? j then o else ofd_at k j.
Proof.
  intros L ??. unfold ofd_at, put_ofd. simpl. apply aget_aset; [|done].
  rewrite L. unfold OFD_MAX. lia.
Qed.

Lemma sum_put k i o (f : ofd → Z) : length (k_table k) = OFD_MAX → 0 ≤ i < 4096 →
  sum_of f (k_table (put_ofd i o k)) = sum_of f (k_table k) - f (ofd_at k i) + f o.
Proof.
  intros L ?. unfold put_ofd, ofd_at. simpl. apply sum_of_aset. rewrite L. unfold OFD_MAX. lia.
Qed.

(** References move freely between the slots and the running call. *)
Lemma kern_ok_move D D' k h l :
  kern_ok other D k h → (∀ i, i ∈ l → 0 ≤ i < 4096) →
  (∀ i, 3 ≤ i < 4096 → D' i + occ i l = D i + occ i (h_ofds h)) →
  kern_ok other D' k (Held l (h_ends h) (h_handles h)).
Proof.
  intros K Hl E. split; simpl; try apply K; [done|].
  intros i Hi. rewrite E by done. by apply K.
Qed.

(** Replacing a description by one with the same object. *)
Lemma kern_ok_put D k h i o l D' :
  kern_ok other D k h → 0 ≤ i < 4096 →
  kind o = kind (ofd_at k i) → object o = object (ofd_at k i) →
  write_end o = write_end (ofd_at k i) → (∀ j, j ∈ l → 0 ≤ j < 4096) →
  (∀ j, 3 ≤ j < 4096 → j ≠ i → D' j + occ j l = D j + occ j (h_ofds h)) →
  (3 ≤ i → if decide (kind o = OFD_FREE) then D' i + occ i l = 0
           else refs o = D' i + occ i l ∧ 1 ≤ refs o < UINT32_MAX) →
  kern_ok other D' (put_ofd i o k) (Held l (h_ends h) (h_handles h)).
Proof.
  intros K Hi E1 E2 E3 Hl Hj Hr. pose proof (ko_table _ _ _ _ K) as [L I].
  assert (∀ id we, is_end id we o = is_end id we (ofd_at k i)) as Ee.
  { intros. unfold is_end. by rewrite E1, E2, E3. }
  assert (∀ x, is_file x o = is_file x (ofd_at k i)) as Ef.
  { intros. unfold is_file. by rewrite E1, E2. }
  split.
  - simpl. by rewrite length_aset.
  - intros j Hj'. rewrite ofd_at_put by (done || lia).
    destruct (Z.eqb_spec i j) as [<-|]; [rewrite E1|]; by apply K.
  - done.
  - intros j Hj'. rewrite ofd_at_put by (done || lia). simpl.
    destruct (Z.eqb_spec i j) as [<-|Ne]; [apply Hr; lia|]. rewrite Hj by (done || lia). by apply K.
  - apply K.
  - intros j Hj'. rewrite ofd_at_put by (done || lia).
    destruct (Z.eqb_spec i j) as [<-|]; [rewrite E1, E2|]; by apply K.
  - apply K.
  - intros id Hid. cbv beta zeta. rewrite !sum_put, !Ee by done.
    rewrite !Z.sub_add. by apply (ko_ends _ _ _ _ K).
  - intros x. rewrite sum_put, Ef, Z.sub_add by done. apply K.
Qed.

(** [ofd_ref] takes one more reference for the running call. *)
Lemma ofd_ref_ok D k h i : kern_ok other D k h → 0 ≤ i < 4096 →
  (3 ≤ i → 1 ≤ D i + occ i (h_ofds h) ∧ D i + occ i (h_ofds h) + 1 < UINT32_MAX) →
  kern_ok other D (ofd_ref i k) (Held (i :: h_ofds h) (h_ends h) (h_handles h)).
Proof.
  intros K Hi Hb.
  assert (∀ j, j ∈ i :: h_ofds h → 0 ≤ j < 4096) as Hl.
  { intros j [->|Hj]%elem_of_cons; [done|by apply (ko_held _ _ _ _ K)]. }
  unfold ofd_ref, OFD_CONSOLE_COUNT. destruct (Z.leb_spec 3 i) as [H3|H3].
  2:{ rewrite andb_false_r. simpl. eapply kern_ok_move; [done|done|].
      intros j Hj. rewrite occ_cons. destruct (Z.eqb_spec i j); lia. }
  pose proof (ko_refs _ _ _ _ K i ltac:(lia)) as R. specialize (Hb H3).
  destruct (decide (kind (ofd_at k i) = OFD_FREE)) as [|Hf]; [lia|].
  unfold valid. change (Z.of_nat OFD_MAX) with 4096.
  destruct (Z.leb_spec 0 i), (Z.ltb_spec i 4096); try lia. rewrite bool_decide_true by done.
  destruct (Z.ltb_spec (refs (ofd_at k i)) UINT32_MAX); [|lia]. cbn [andb].
  unfold UINT32_MAX in *. rewrite u32_small by lia.
  apply kern_ok_put with (D := D); simpl; try done.
  - intros j Hj Ne. rewrite occ_cons. destruct (Z.eqb_spec i j); [done|lia].
  - intros _. rewrite decide_False by done. rewrite occ_cons, Z.eqb_refl. unfold UINT32_MAX. lia.
Qed.

(** A pipe end of the running call is given back. *)
Lemma k_pipe_release_ok D k h id we ends :
  kern_ok other D k (Held (h_ofds h) ((id, we) :: ends) (h_handles h)) →
  kern_ok other D (k_pipe_release id we k) (Held (h_ofds h) ends (h_handles h)).
Proof.
  intros K. pose proof (ko_ends_held _ _ _ _ K (id, we) ltac:(mem)) as Hid. simpl in Hid.
  destruct (ko_world _ _ _ _ K) as (sent&rcv&W).
  pose proof (exec_release_wf _ id we W) as W'. cbn [exec w_pipes w_pmm] in W'.
  pose proof (ko_ends _ _ _ _ K id Hid) as E. cbv beta zeta in E. simpl in E.
  pose proof (ww_ok _ W id Hid) as Ok. simpl in Ok.
  destruct (release_end_spec we _ Ok) as (E1&_&_&_&_&_&_&E8&E9).
  destruct (used (pipe_at (k_pipes k) id)) eqn:Hu.
  2:{ destruct E as [E0 E1']. unfold occ_end in *. simpl in *. rewrite Z.eqb_refl in *.
      pose proof (is_end_sum_nonneg id false (k_table k)). pose proof (is_end_sum_nonneg id true (k_table k)).
      pose proof (occ_end_nonneg id false ends). pose proof (occ_end_nonneg id true ends).
      unfold occ_end in *. destruct we; simpl in *; lia. }
  assert (pipe_get id (k_pipes k) = Some (pipe_at (k_pipes k) id)) as G by (by apply pipe_get_Some).
  unfold k_pipe_release. unfold pipe_release in *. rewrite G in *.
  fold (release_end we (pipe_at (k_pipes k) id)) in *.
  set (q := release_end we (pipe_at (k_pipes k) id)) in *.
  set (e := (readers q =? 0) && (writers q =? 0)) in *.
  destruct (waiters_take (read_waiters q)) as [w1 l1], (waiters_take (write_waiters q)) as [w2 l2].
  set (new := if e then pipe_zero else q <| read_waiters := l1 |> <| write_waiters := l2 |>).
  set (r := if e then _ else _) in *.
  assert (∃ wake p, r = (wake, aset (k_pipes k) id new, p)) as (wake&p&Er).
  { unfold r, new. destruct e; eauto. }
  rewrite Er in *. simpl in W'.
  pose proof (proj1 (ww_len _ W)) as Lp. simpl in Lp.
  split; try apply K; simpl.
  - by exists sent, rcv.
  - intros x Hx. apply (ko_ends_held _ _ _ _ K). simpl. by right.
  - intros j Hj. rewrite pipe_at_aset by (done || lia).
    pose proof (ko_ends _ _ _ _ K j Hj) as Ej. cbv beta zeta in Ej. simpl in Ej.
    unfold occ_end in Ej. simpl in Ej. fold (occ_end j false ends) (occ_end j true ends) in Ej.
    destruct (Z.eqb_spec id j) as [<-|Ne].
    2:{ by rewrite !andb_false_l, !Z.add_0_l in Ej. }
    rewrite Hu in Ej. cbn [andb] in Ej. pose proof (po_readers _ Ok). pose proof (po_writers _ Ok).
    unfold is_u32 in *. unfold new, e. rewrite E8, E9.
    pose proof (is_end_sum_nonneg id false (k_table k)). pose proof (is_end_sum_nonneg id true (k_table k)).
    pose proof (occ_end_nonneg id false ends). pose proof (occ_end_nonneg id true ends).
    destruct we; cbn [eqb] in Ej;
      destruct (Z.eqb_spec (readers (pipe_at (k_pipes k) id)) 0), (Z.eqb_spec (Z.max 0 (writers (pipe_at (k_pipes k) id) - 1)) 0),
       (Z.eqb_spec (writers (pipe_at (k_pipes k) id)) 0), (Z.eqb_spec (Z.max 0 (readers (pipe_at (k_pipes k) id) - 1)) 0);
      cbn [andb]; try (simpl; lia); simpl; rewrite ?E1, ?Hu, ?E8, ?E9; lia.
Qed.

(** A handle of the running call is closed. *)
Lemma k_vfs_close_ok D k h x hs :
  kern_ok other D k (Held (h_ofds h) (h_ends h) (x :: hs)) →
  kern_ok other D (k_vfs_close x k) (Held (h_ofds h) (h_ends h) hs).
Proof using All.
  intros K. split; try apply K; simpl. intros y. pose proof (ko_files _ _ _ _ K) as F. simpl in F.
  pose proof (F x) as Fx. rewrite occ_cons, Z.eqb_refl in Fx.
  pose proof (is_file_sum_nonneg x (k_table k)). pose proof (occ_nonneg x hs). pose proof (occ_nonneg x other).
  destruct (decide (x ∈ vfs_handles (k_vfs k))) as [Hx|]; [|lia].
  rewrite vfs_close_law by done. pose proof (F y) as Fy. rewrite occ_cons in Fy.
  destruct (Z.eqb_spec x y) as [<-|Ne].
  - rewrite decide_True in Fy by done. destruct (decide (x ∈ _ ∖ _)) as [Hd|_]; [|lia].
    apply elem_of_difference in Hd as [_ []]. by apply elem_of_singleton.
  - destruct (decide (y ∈ _ ∖ _)) as [Hd|Hd], (decide (y ∈ vfs_handles (k_vfs k))) as [Hy|Hy];
      rewrite elem_of_difference, elem_of_singleton in Hd;
      first [lia | exfalso; intuition congruence].
Qed.

(** Replacing a description when the references its object has move between it
    and the running call. *)
Lemma kern_ok_replace D k h i o h' :
  kern_ok other D k h → 3 ≤ i < 4096 →
  (∀ j, j ∈ h_ofds h' → 0 ≤ j < 4096) → (∀ e, e ∈ h_ends h' → 0 ≤ e.1 < 128) →
  (kind o = OFD_PIPE → 0 ≤ object o < 128) →
  (∀ j, j ≠ i → occ j (h_ofds h') = occ j (h_ofds h)) →
  (if decide (kind o = OFD_FREE) then D i + occ i (h_ofds h') = 0
   else refs o = D i + occ i (h_ofds h') ∧ 1 ≤ refs o < UINT32_MAX) →
  (∀ id we, is_end id we o + occ_end id we (h_ends h') =
            is_end id we (ofd_at k i) + occ_end id we (h_ends h)) →
  (∀ x, is_file x o + occ x (h_handles h') = is_file x (ofd_at k i) + occ x (h_handles h)) →
  kern_ok other D (put_ofd i o k) h'.
Proof.
  intros K Hi Ho He Hp Hj Hr Ee Ef. pose proof (ko_table _ _ _ _ K) as [L I].
  assert (∀ j, 0 ≤ j → ofd_at (put_ofd i o k) j = if i =? j then o else ofd_at k j) as At.
  { intros. apply ofd_at_put; [done|lia|done]. }
  split; [simpl; by rewrite length_aset| | | |apply K| |done| |].
  - intros j Hj'. rewrite At by lia. destruct (Z.eqb_spec i j); [lia|by apply (ko_console _ _ _ _ K)].
  - done.
  - intros j Hj'. rewrite At by lia. destruct (Z.eqb_spec i j) as [<-|]; [done|].
    rewrite Hj by congruence. by apply (ko_refs _ _ _ _ K).
  - intros j Hj'. rewrite At by lia. destruct (Z.eqb_spec i j); [done|by apply (ko_objects _ _ _ _ K)].
  - intros id Hid. cbv beta zeta. rewrite !sum_put by (done || lia).
    pose proof (ko_ends _ _ _ _ K id Hid) as E. cbv beta zeta in E.
    pose proof (Ee id false) as E1. pose proof (Ee id true) as E2. simpl.
    destruct (used _); lia.
  - intros x. rewrite sum_put by (done || lia). pose proof (ko_files _ _ _ _ K x).
    specialize (Ef x). simpl. lia.
Qed.

(** The reference the running call holds is given back. *)
Lemma ofd_release_ok D k i ofs ends hs :
  kern_ok other D k (Held (i :: ofs) ends hs) → (∀ j, 0 ≤ D j) →
  kern_ok other D (ofd_release i k) (Held ofs ends hs).
Proof using All.
  intros K HD. pose proof (ko_held _ _ _ _ K i ltac:(simpl; mem)) as Hi.
  assert (∀ j, j ∈ ofs → 0 ≤ j < 4096) as Hl.
  { intros j Hj. apply (ko_held _ _ _ _ K). simpl. by right. }
  unfold ofd_release, OFD_CONSOLE_COUNT. destruct (Z.leb_spec 3 i) as [H3|H3].
  2:{ rewrite andb_false_r. eapply (kern_ok_move D D k (Held (i :: ofs) ends hs)); [done|done|].
      intros j Hj. simpl. rewrite occ_cons. destruct (Z.eqb_spec i j); lia. }
  pose proof (ko_refs _ _ _ _ K i ltac:(lia)) as R. simpl in R. rewrite occ_cons, Z.eqb_refl in R.
  specialize (HD i). pose proof (occ_nonneg i ofs) as Ho.
  destruct (decide (kind (ofd_at k i) = OFD_FREE)) as [|Hf]; [lia|].
  unfold valid. change (Z.of_nat OFD_MAX) with 4096.
  destruct (Z.leb_spec 0 i), (Z.ltb_spec i 4096); try lia. rewrite bool_decide_true by done.
  cbn [andb]. unfold UINT32_MAX in R. rewrite (u32_small (refs (ofd_at k i) - 1)) by lia.
  set (o := ofd_at k i) in *. change (refs (o <| refs := refs o - 1 |>)) with (refs o - 1).
  change (kind (o <| refs := refs o - 1 |>)) with (kind o).
  change (object (o <| refs := refs o - 1 |>)) with (object o).
  change (write_end (o <| refs := refs o - 1 |>)) with (write_end o).
  assert (∀ j, j ≠ i → occ j ofs = occ j (i :: ofs)) as Oj.
  { intros j Ne. rewrite occ_cons. destruct (Z.eqb_spec i j); [congruence|lia]. }
  destruct (Z.eqb_spec (refs o - 1) 0) as [E|E].
  - set (k1 := put_ofd i _ k).
    assert (kern_ok other D k1 (Held ofs
      (if bool_decide (kind o = OFD_PIPE) then (object o, write_end o) :: ends else ends)
      (if bool_decide (kind o = OFD_FILE) then object o :: hs else hs))) as K1.
    { eapply kern_ok_replace; [exact K|lia|done| |done|done| | |]; simpl.
      - intros e He. destruct (bool_decide_reflect (kind o = OFD_PIPE)) as [Hp|].
        + apply elem_of_cons in He as [->|He]; [|by apply (ko_ends_held _ _ _ _ K)].
          simpl. apply (ko_objects _ _ _ _ K); done.
        + by apply (ko_ends_held _ _ _ _ K).
      - lia.
      - intros id we. unfold is_end. simpl. fold o.
        destruct (bool_decide_reflect (kind o = OFD_PIPE)); unfold occ_end; simpl; [|lia].
        destruct (object o =? id), (write_end o), we; simpl; lia.
      - intros x. unfold is_file. simpl. fold o.
        destruct (bool_decide_reflect (kind o = OFD_FILE)); simpl; [|lia].
        rewrite occ_cons. destruct (object o =? x); lia. }
    destruct (kind o); simpl in K1; try done.
    + by apply (k_vfs_close_ok D k1 (Held ofs ends []) (object o) hs).
    + by apply (k_pipe_release_ok D k1 (Held ofs [] hs) (object o) (write_end o) ends).
  - eapply (kern_ok_put D k (Held (i :: ofs) ends hs)); try done.
    + intros j Hj Ne. simpl. by rewrite Oj.
    + intros _. simpl. rewrite decide_False by done. unfold UINT32_MAX. lia.
Qed.

(** A fresh description takes over what the call holds for it. *)
Lemma allocate_ok D k kd fl obj we ofs ends hs ends' hs' :
  kern_ok other D k (Held ofs ends hs) → (∀ j, 0 ≤ D j) →
  kd ≠ OFD_FREE → (kd = OFD_PIPE → 0 ≤ obj < 128) →
  (∀ e, e ∈ ends' → e ∈ ends) →
  (∀ id w, is_end id w (Ofd kd we fl 1 obj) + occ_end id w ends' = occ_end id w ends) →
  (∀ x, is_file x (Ofd kd we fl 1 obj) + occ x hs' = occ x hs) →
  let '(i, k') := allocate kd fl obj we k in
  (i < 0 ∧ k' = k) ∨ (3 ≤ i < 4096 ∧ kern_ok other D k' (Held (i :: ofs) ends' hs')).
Proof.
  intros K HD Nf Hp He Ee Ef. unfold allocate, ofd_init.
  rewrite (proj2 (ko_table _ _ _ _ K)). cbn [negb].
  destruct (for_first _ _ _) as [i|] eqn:E; [right|by left].
  apply for_first_Some in E as (Hi&Fr&_). apply bool_decide_eq_true in Fr.
  unfold OFD_MAX, OFD_CONSOLE_COUNT in Hi. assert (3 ≤ i < 4096) as Hi' by lia. clear Hi.
  split; [done|]. pose proof (ko_refs _ _ _ _ K i Hi') as R. rewrite decide_True in R by done.
  simpl in R. pose proof (occ_nonneg i ofs). specialize (HD i).
  assert (∀ j, j ∈ i :: ofs → 0 ≤ j < 4096) as Hl.
  { intros j [->|Hj]%elem_of_cons; [lia|]. by apply (ko_held _ _ _ _ K). }
  eapply kern_ok_replace; [exact K|done|done| |done| | | |]; simpl.
  - intros e Hin. apply (ko_ends_held _ _ _ _ K). by apply He.
  - intros j Ne. rewrite occ_cons. destruct (Z.eqb_spec i j); [congruence|lia].
  - rewrite decide_False by done. rewrite occ_cons, Z.eqb_refl. unfold UINT32_MAX. lia.
  - intros id w. rewrite Ee. unfold is_end at 1. rewrite Fr. simpl. lia.
  - intros x. rewrite Ef. unfold is_file at 1. rewrite Fr. simpl. lia.
Qed.

Lemma ofd_create_file_ok D k x fl ofs ends hs :
  kern_ok other D k (Held ofs ends (x :: hs)) → (∀ j, 0 ≤ D j) →
  let '(i, k') := ofd_create_file x fl k in
  (i < 0 ∧ k' = k) ∨ (3 ≤ i < 4096 ∧ kern_ok other D k' (Held (i :: ofs) ends hs)).
Proof.
  intros K HD. apply (allocate_ok D k _ _ _ _ ofs ends (x :: hs)); try done.
Qed.

Lemma ofd_create_pipe_ok D k id we ofs ends hs :
  kern_ok other D k (Held ofs ((id, we) :: ends) hs) → (∀ j, 0 ≤ D j) →
  let '(i, k') := ofd_create_pipe id we k in
  (i < 0 ∧ k' = k) ∨ (3 ≤ i < 4096 ∧ kern_ok other D k' (Held (i :: ofs) ends hs)).
Proof.
  intros K HD. apply (allocate_ok D k _ _ _ _ ofs ((id, we) :: ends) hs); try done.
  - intros _. apply (ko_ends_held _ _ _ _ K (id, we)). simpl. mem.
  - intros e He. by right.
Qed.

(** A new pipe has one end of each kind, both held by the call. *)
Lemma pipe_create_ok D k ofs ends hs :
  kern_ok other D k (Held ofs ends hs) →
  let '(st, oid, ps, p) := pipe_create (k_pipes k) (k_pmm k) in
  let k' := k <| k_pipes := ps |> <| k_pmm := p |> in
  match oid with
  | None => kern_ok other D k' (Held ofs ends hs)
  | Some id => kern_ok other D k' (Held ofs ((id, false) :: (id, true) :: ends) hs)
  end.
Proof.
  intros K. destruct (ko_world _ _ _ _ K) as (sent&rcv&W).
  pose proof (exec_create_wf _ W) as W'. cbn [exec w_pipes w_pmm w_sent w_received] in W'.
  unfold pipe_create in *.
  destruct (z_find_spec (λ i, negb (used (pipe_at (k_pipes k) i))) PIPE_MAX) as [[E _]|(R&Nu&_)].
  { rewrite E in *. simpl. by destruct k. }
  set (id := z_find _ _) in *. change (Z.of_nat PIPE_MAX) with 128 in R.
  destruct (Z.eqb_spec id (-1)) as [|_]; [lia|].
  pose proof (allocate_contiguous_outcome (k_pmm k) PIPE_PAGES (ww_pmm _ W) ltac:(done)) as O.
  unfold pmm_allocate_contiguous in *.
  destruct (pmm_allocate_contiguous_locked PIPE_PAGES (k_pmm k)) as [ph p].
  inversion O as [t f Er A Eq|_ Eq]; subst; [|simpl; by destruct k].
  destruct (Z.eqb_spec (f * 4096) 0) as [E0|_].
  { destruct (al_range _ _ _ _ A). lia. }
  apply negb_true_iff in Nu. pose proof (proj1 (ww_len _ W)) as Lp. simpl in Lp.
  pose proof (ko_ends _ _ _ _ K id R) as Ei. cbv beta zeta in Ei. rewrite Nu in Ei. simpl in Ei.
  set (pi := pipe_zero <| used := true |> <| phys := _ |> <| buffer := _ |> <| readers := 1 |>
               <| writers := 1 |>) in *.
  split; try apply K; simpl.
  - eexists _, _. exact W'.
  - intros e He. apply elem_of_cons in He as [->|He]; [done|].
    apply elem_of_cons in He as [->|He]; [done|]. by apply (ko_ends_held _ _ _ _ K).
  - intros j Hj. rewrite pipe_at_aset by (done || lia).
    pose proof (ko_ends _ _ _ _ K j Hj) as Ej. cbv beta zeta in Ej. simpl in Ej.
    unfold occ_end in *. simpl.
    destruct (Z.eqb_spec id j) as [<-|Ne]; simpl; [lia|]. by rewrite !Z.add_0_l.
Qed.

Lemma vfs_open_ok D k path fl ofs ends hs :
  kern_ok other D k (Held ofs ends hs) →
  let '(x, v) := vfs_open_flags path fl (k_vfs k) in
  let k' := k <| k_vfs := v |> in
  if x <? 0 then kern_ok other D k' (Held ofs ends hs) else kern_ok other D k' (Held ofs ends (x :: hs)).
Proof using All.
  intros K. pose proof (vfs_open_law path fl (k_vfs k)) as L.
  destruct (vfs_open_flags path fl (k_vfs k)) as [x v]. destruct (x <? 0).
  { split; try apply K. simpl. rewrite L. apply K. }
  destruct L as [Nin E]. split; try apply K. simpl. intros y. rewrite E, occ_cons.
  pose proof (ko_files _ _ _ _ K y) as F. simpl in F. destruct (Z.eqb_spec x y) as [->|Ne].
  - rewrite decide_False in F by done. rewrite decide_True; [lia|].
    apply elem_of_union_l. by apply elem_of_singleton.
  - destruct (decide (y ∈ _ ∪ _)) as [Hd|Hd], (decide (y ∈ vfs_handles (k_vfs k))) as [Hy|Hy];
      rewrite elem_of_union, elem_of_singleton in Hd;
      first [lia | exfalso; intuition congruence].
Qed.

Lemma ofd_flags_set_ok D k h i fl : kern_ok other D k h → kern_ok other D (ofd_flags_set i fl k).2 h.
Proof.
  intros K. unfold ofd_flags_set. destruct (valid k i && _) eqn:E; [|done]. simpl.
  unfold valid in E. zify_bool. change (Z.of_nat OFD_MAX) with 4096 in *.
  unfold OFD_CONSOLE_COUNT in *.
  destruct h as [ofs ends hs]. eapply (kern_ok_put D k (Held ofs ends hs)); try done; [apply K|].
  intros _. apply (ko_refs _ _ _ _ K i). lia.
Qed.

(** The calls that keep the set of open handles. *)
Lemma k_vfs_same_ok D k h v : kern_ok other D k h → vfs_handles v = vfs_handles (k_vfs k) →
  kern_ok other D (k <| k_vfs := v |>) h.
Proof. intros K E. split; try apply K. simpl. rewrite E. apply K. Qed.
End KernLemmas.

(** ** The slots of the processes *)

(** What the table of processes looks like: 64 slots each, holding numbers of
    descriptions, and at most 65536 processes. *)
Record procs_ok (procs : list fds) : Prop := {
  pr_len : ∀ f, f ∈ procs → length (descriptors f) = PROCESS_FD_COUNT ∧
                            length (fd_flags f) = PROCESS_FD_COUNT;
  pr_range : ∀ f d, f ∈ procs → d ∈ descriptors f → d < 4096;
  pr_bound : Z.of_nat (length procs) ≤ 65536;
}.

Record sys_ok {V} `{VfsOps V} (other : list Z) (s : sys V) (h : held) : Prop := {
  so_procs : procs_ok (s_procs s);
  so_kern : kern_ok other (slot_refs (s_procs s)) (s_kern s) h;
}.

Lemma slot_refs_bound procs i : procs_ok procs → 0 ≤ slot_refs procs i ≤ 64 * 65536.
Proof.
  intros P. unfold slot_refs.
  assert (∀ f, f ∈ procs → 0 ≤ occ i (descriptors f) ≤ 64) as B.
  { intros f Hf. pose proof (occ_nonneg i (descriptors f)). pose proof (occ_le_length i (descriptors f)).
    destruct (pr_len _ P f Hf) as [L _]. rewrite L in *. unfold PROCESS_FD_COUNT in *. lia. }
  apply sum_of_bound in B. pose proof (pr_bound _ P). lia.
Qed.

Lemma slot_refs_pos procs c fd : 0 ≤ c < Z.of_nat (length procs) →
  let f := aget fds_new procs c in 0 ≤ fd < Z.of_nat (length (descriptors f)) →
  1 ≤ slot_refs procs (desc f fd).
Proof.
  intros Hc f Hfd. unfold slot_refs.
  pose proof (elem_le_sum (λ f0, occ (desc f fd) (descriptors f0)) procs f) as E. cbv beta in E.
  pose proof (occ_pos (desc f fd) (descriptors f)) as O.
  assert (desc f fd ∈ descriptors f) as Hd by (apply (aget_elem (-1)); eauto).
  assert (f ∈ procs) as Hf by (apply (aget_elem fds_new); eauto).
  specialize (E ltac:(intros; apply occ_nonneg) Hf). specialize (O Hd). lia.
Qed.

Section SysLemmas.
Context {V : Type} `{VfsLaws V} (other : list Z).
Implicit Types (s : sys V).

Lemma proc_elem s c : 0 ≤ c < Z.of_nat (length (s_procs s)) → proc s c ∈ s_procs s.
Proof. intros. apply (aget_elem fds_new). eauto. Qed.

Lemma desc_elem s c fd : procs_ok (s_procs s) → 0 ≤ c < Z.of_nat (length (s_procs s)) →
  0 ≤ fd < 64 → desc (proc s c) fd ∈ descriptors (proc s c).
Proof.
  intros P Hc Hfd. apply (aget_elem (-1)). exists fd. split; [|done].
  destruct (pr_len _ P _ (proc_elem s c Hc)) as [-> _]. done.
Qed.

(** Writing one slot: the reference it had and the one it gets are exchanged
    with the running call. *)
Lemma set_slot_ok s h c fd d fl ofs :
  sys_ok other s h → 0 ≤ c < Z.of_nat (length (s_procs s)) → 0 ≤ fd < 64 → d < 4096 →
  (∀ j, j ∈ ofs → 0 ≤ j < 4096) →
  (∀ i, 3 ≤ i < 4096 → (if d =? i then 1 else 0) + occ i ofs =
                       (if desc (proc s c) fd =? i then 1 else 0) + occ i (h_ofds h)) →
  sys_ok other (put_proc c (set_slot fd d fl (proc s c)) s) (Held ofs (h_ends h) (h_handles h)).
Proof.
  intros [P K] Hc Hfd Hd Hl E.
  pose proof (proc_elem s c Hc) as Hf. destruct (pr_len _ P _ Hf) as [L1 L2].
  assert (0 ≤ fd < Z.of_nat (length (descriptors (proc s c)))) as Hfd'.
  { rewrite L1. unfold PROCESS_FD_COUNT. lia. }
  split.
  - unfold put_proc. simpl. split.
    + intros f Hin. apply (aget_elem fds_new) in Hin as (j&Hj&<-). rewrite length_aset in Hj.
      rewrite aget_aset by lia. destruct (c =? j).
      * simpl. by rewrite !length_aset.
      * apply P. apply (aget_elem fds_new). eauto.
    + intros f d' Hin. apply (aget_elem fds_new) in Hin as (j&Hj&<-). rewrite length_aset in Hj.
      rewrite aget_aset by lia. destruct (c =? j).
      * simpl. intros Hd'. apply (aget_elem (-1)) in Hd' as (m&Hm&<-). rewrite length_aset in Hm.
        rewrite aget_aset by lia. destruct (fd =? m); [done|].
        apply (pr_range _ P (proc s c)); [done|]. apply (aget_elem (-1)). eauto.
      * apply P. apply (aget_elem fds_new). eauto.
    + rewrite length_aset. apply P.
  - unfold put_proc. simpl. eapply kern_ok_move; [exact K|done|].
    intros i Hi. unfold slot_refs. rewrite (sum_of_aset fds_new) by done.
    fold (proc s c). unfold set_slot. simpl. unfold occ at 3.
    rewrite (sum_of_aset (-1)) by done.
    change (aget (-1) (descriptors (proc s c)) fd) with (desc (proc s c) fd).
    fold (occ i (descriptors (proc s c))). specialize (E i Hi). lia.
Qed.

(** A free slot takes the reference the call holds. *)
Lemma fill_slot_ok s c fd i fl ofs ends hs :
  sys_ok other s (Held (i :: ofs) ends hs) → 0 ≤ c < Z.of_nat (length (s_procs s)) →
  0 ≤ fd < 64 → desc (proc s c) fd < 0 →
  sys_ok other (put_proc c (set_slot fd i fl (proc s c)) s) (Held ofs ends hs).
Proof.
  intros K Hc Hfd Hn.
  assert (∀ j, j ∈ i :: ofs → 0 ≤ j < 4096) as Hl by apply (ko_held _ _ _ _ (so_kern _ _ _ K)).
  pose proof (Hl i ltac:(mem)).
  apply (set_slot_ok s (Held (i :: ofs) ends hs)); try done; [lia| |].
  - intros j Hj. apply Hl. by right.
  - intros j Hj. simpl. rewrite occ_cons. destruct (Z.eqb_spec (desc (proc s c) fd) j); [lia|done].
Qed.

(** Emptying a slot leaves its reference with the call. *)
Lemma clear_slot_ok s c fd fl ofs ends hs :
  sys_ok other s (Held ofs ends hs) → 0 ≤ c < Z.of_nat (length (s_procs s)) →
  0 ≤ fd < 64 →
  sys_ok other (put_proc c (set_slot fd (-1) fl (proc s c)) s)
    (Held (if desc (proc s c) fd <? 0 then ofs else desc (proc s c) fd :: ofs) ends hs).
Proof.
  intros K Hc Hfd. pose proof (so_procs _ _ _ K) as P.
  pose proof (ko_held _ _ _ _ (so_kern _ _ _ K)) as Hl. simpl in Hl.
  assert (desc (proc s c) fd < 4096) as Hd.
  { apply (pr_range _ P (proc s c)); [by apply proc_elem|by apply desc_elem]. }
  apply (set_slot_ok s (Held ofs ends hs)); try done.
  - intros j Hj. destruct (Z.ltb_spec (desc (proc s c) fd) 0); [by apply Hl|].
    apply elem_of_cons in Hj as [->|Hj]; [lia|by apply Hl].
  - intros j Hj. cbn [h_ofds]. destruct (Z.ltb_spec (desc (proc s c) fd) 0) as [Hn|Hn].
    + destruct (Z.eqb_spec (-1) j), (Z.eqb_spec (desc (proc s c) fd) j); lia.
    + rewrite occ_cons. destruct (Z.eqb_spec (-1) j); lia.
Qed.

(** The description a slot points to gets one more reference. *)
Lemma ref_slot_ok s c fd ofs ends hs :
  sys_ok other s (Held ofs ends hs) → 0 ≤ c < Z.of_nat (length (s_procs s)) →
  0 ≤ fd < 64 → 0 ≤ desc (proc s c) fd → Z.of_nat (length ofs) ≤ 1000 →
  sys_ok other (on_kern (ofd_ref (desc (proc s c) fd)) s)
    (Held (desc (proc s c) fd :: ofs) ends hs).
Proof.
  intros K Hc Hfd Hd Hl. pose proof (so_procs _ _ _ K) as P. split; [done|]. simpl.
  apply (ofd_ref_ok other (slot_refs (s_procs s)) (s_kern s) (Held ofs ends hs)).
  - apply K.
  - split; [done|]. apply (pr_range _ P (proc s c)); [by apply proc_elem|by apply desc_elem].
  - intros _. simpl. pose proof (occ_nonneg (desc (proc s c) fd) ofs).
    pose proof (occ_le_length (desc (proc s c) fd) ofs).
    pose proof (slot_refs_bound _ (desc (proc s c) fd) P).
    assert (1 ≤ slot_refs (s_procs s) (desc (proc s c) fd)).
    { apply (slot_refs_pos (s_procs s) c fd Hc).
      destruct (pr_len _ P _ (proc_elem s c Hc)) as [L _]. fold (proc s c). rewrite L. done. }
    unfold UINT32_MAX. lia.
Qed.

Lemma release_sys_ok s i ofs ends hs :
  sys_ok other s (Held (i :: ofs) ends hs) → sys_ok other (on_kern (ofd_release i) s) (Held ofs ends hs).
Proof using All.
  intros [P K]. split; [done|]. simpl. apply ofd_release_ok; [done|].
  intros j. apply slot_refs_bound. done.
Qed.

Lemma slot_find_ok s c m : procs_ok (s_procs s) → 0 ≤ c < Z.of_nat (length (s_procs s)) → 0 ≤ m < 64 →
  slot_find (proc s c) m = -1 ∨
  (m ≤ slot_find (proc s c) m < 64 ∧ desc (proc s c) (slot_find (proc s c) m) < 0).
Proof.
  intros P Hc Hm. unfold slot_find. destruct (Z.ltb_spec m 0); [lia|].
  destruct (for_first _ _ _) as [i|] eqn:E; [right|by left]. simpl.
  apply for_first_Some in E as (Hi&Hd&_). apply Z.ltb_lt in Hd. unfold PROCESS_FD_COUNT in Hi.
  split; [lia|done].
Qed.
End SysLemmas.

(** ** The operations *)

Definition cur_ok {V} (cur : option Z) (s : sys V) : Prop :=
  match cur with Some c => 0 ≤ c < Z.of_nat (length (s_procs s)) | None => True end.

Section OpLemmas.
Context {V : Type} `{VfsLaws V} (other : list Z).
Implicit Types (s : sys V).

Lemma kern_sys_ok s h k h' : sys_ok other s h → kern_ok other (slot_refs (s_procs s)) k h' →
  sys_ok other (s <| s_kern := k |>) h'.
Proof. intros [P _] K. by split. Qed.

Lemma slot_refs_nonneg s h i : sys_ok other s h → 0 ≤ slot_refs (s_procs s) i.
Proof. intros [P _]. by apply slot_refs_bound. Qed.

Lemma in_range_spec fd : in_range fd = true ↔ 0 ≤ fd < 64.
Proof.
  unfold in_range. change (Z.of_nat PROCESS_FD_COUNT) with 64.
  rewrite andb_true_iff, Z.leb_le, Z.ltb_lt. lia.
Qed.

Lemma fd_close_ok cur fd s : sys_ok other s nothing → cur_ok cur s →
  sys_ok other (fd_close cur fd s).2 nothing.
Proof using All.
  intros K Hc. unfold fd_close. destruct cur as [c|]; [|done].
  destruct (in_range fd) eqn:R; cbn [negb]; [|done]. apply in_range_spec in R.
  pose proof (clear_slot_ok other s c fd 0 [] [] [] K Hc R) as K1.
  destruct (desc (proc s c) fd <? 0); [done|]. by apply release_sys_ok.
Qed.

Lemma fd_dup_ok cur fd m ce s : sys_ok other s nothing → cur_ok cur s →
  sys_ok other (fd_dup cur fd m ce s).2 nothing.
Proof using All.
  intros K Hc. unfold fd_dup. destruct cur as [c|]; [|done].
  destruct (in_range fd) eqn:R; [|done]. destruct (in_range m) eqn:Rm; [|done].
  apply in_range_spec in R, Rm. cbn [negb orb].
  destruct (Z.ltb_spec (desc (proc s c) fd) 0) as [|Hd]; [done|]. cbn [orb].
  destruct (Z.ltb_spec (slot_find (proc s c) m) 0) as [|Hs]; [done|].
  destruct (slot_find_ok s c m (so_procs _ _ _ K) Hc Rm) as [E|[Hr Hn]]; [lia|].
  pose proof (ref_slot_ok other s c fd [] [] [] K Hc R Hd ltac:(done)) as K1.
  by apply (fill_slot_ok other (on_kern (ofd_ref (desc (proc s c) fd)) s)); [|done|lia|].
Qed.

Lemma fd_dup2_ok cur old new s : sys_ok other s nothing → cur_ok cur s →
  sys_ok other (fd_dup2 cur old new s).2 nothing.
Proof using All.
  intros K Hc. unfold fd_dup2. destruct cur as [c|]; [|done].
  destruct (in_range old) eqn:R; [|done]. destruct (in_range new) eqn:Rn; [|done].
  apply in_range_spec in R, Rn. cbn [negb orb].
  destruct (Z.ltb_spec (desc (proc s c) old) 0) as [|Hd]; [done|].
  destruct (Z.eqb_spec old new) as [|Ne]; [done|].
  set (d := desc (proc s c) old) in *. set (p := desc (proc s c) new).
  pose proof (ref_slot_ok other s c old [] [] [] K Hc R Hd ltac:(done)) as K1. fold d in K1.
  set (s1 := on_kern (ofd_ref d) s) in *.
  assert (p < 4096 ∧ d < 4096) as [Hp Hd'].
  { pose proof (so_procs _ _ _ K) as P. pose proof (proc_elem s c Hc) as Hf.
    split; apply (pr_range _ P (proc s c) _ Hf); by apply desc_elem. }
  assert (sys_ok other (put_proc c (set_slot new d 0 (proc s1 c)) s1)
    (Held (if 0 <=? p then [p] else []) [] [])) as K2.
  { apply (set_slot_ok other s1 (Held [d] [] [])); try done.
    - intros j. destruct (Z.leb_spec 0 p); [|by intros ?%not_elem_of_nil].
      intros [->|?%not_elem_of_nil]%elem_of_cons; [lia|done].
    - intros j Hj. change (desc (proc s1 c) new) with p. cbn [h_ofds].
      destruct (Z.leb_spec 0 p); rewrite ?occ_cons; unfold occ; cbn [sum_of];
        destruct (Z.eqb_spec d j), (Z.eqb_spec p j); lia. }
  simpl. destruct (0 <=? p); [by apply release_sys_ok|done].
Qed.

(** A description that has just been made is freed by one release. *)
Lemma release_fresh_file k x fl i k' : k_initialized k = true → length (k_table k) = OFD_MAX →
  x ∈ vfs_handles (k_vfs k) → ofd_create_file x fl k = (i, k') → 0 ≤ i →
  x ∉ vfs_handles (k_vfs (ofd_release i k')).
Proof using All.
  intros Ki L Hx E Hi. unfold ofd_create_file, allocate, ofd_init in E. rewrite Ki in E. cbn [negb] in E.
  destruct (for_first _ _ _) as [j|] eqn:F; [|injection E as <- _; done].
  injection E as <- <-. apply for_first_Some in F as (Hj&_&_).
  unfold OFD_MAX, OFD_CONSOLE_COUNT in Hj. unfold ofd_release, valid.
  rewrite ofd_at_put, Z.eqb_refl by (done || lia).
  change (Z.of_nat OFD_MAX) with 4096. unfold OFD_CONSOLE_COUNT.
  destruct (Z.leb_spec 0 j), (Z.ltb_spec j 4096), (Z.leb_spec 3 j); try lia.
  simpl. rewrite vfs_close_law by done. intros [_ Hn]%elem_of_difference. apply Hn.
  by apply elem_of_singleton.
Qed.

(** Installing a fresh description in a slot: it is installed, or its handle is
    closed, or the handle stays with the caller. *)
Lemma fd_install_handle_ok cur x s : sys_ok other s (Held [] [] [x]) → cur_ok cur s →
  let '(r, s') := fd_install_handle cur x s in
  (0 ≤ r ∧ sys_ok other s' nothing) ∨
  (r = -1 ∧ sys_ok other s' nothing ∧ x ∉ vfs_handles (k_vfs (s_kern s'))) ∨
  ((r = -1 ∨ cur = None) ∧ sys_ok other s' (Held [] [] [x])).
Proof using All.
  intros K Hc. unfold fd_install_handle.
  destruct cur as [c|]; [|by right; right; split; [right|]].
  pose proof (ofd_create_file_ok other _ _ x 0 [] [] [] (so_kern _ _ _ K)
    (λ i, slot_refs_nonneg s _ i K)) as C.
  pose proof (release_fresh_file (s_kern s) x 0) as Fr.
  destruct (ofd_create_file x 0 (s_kern s)) as [o k].
  destruct C as [[Ho ->]|[Ho K1]].
  { destruct (Z.ltb_spec o 0); [|lia]. right; right. split; [by left|].
    by apply (kern_sys_ok s _ _ _ K), K. }
  destruct (Z.ltb_spec o 0); [lia|]. apply (kern_sys_ok s _ _ _ K) in K1.
  destruct (for_first _ _ 3) as [fd|] eqn:E.
  - apply for_first_Some in E as (Hr&Hn&_). apply Z.ltb_lt in Hn.
    change (PROCESS_FD_COUNT - 3)%nat with 61%nat in Hr. left. split; [lia|].
    apply (fill_slot_ok other (s <| s_kern := k |>)); [done|done|lia|done].
  - right; left. split; [done|]. split; [by apply release_sys_ok|]. simpl.
    destruct (ko_table _ _ _ _ (so_kern _ _ _ K)) as [L I].
    apply (Fr o k I L); [|done|lia].
    pose proof (ko_files _ _ _ _ (so_kern _ _ _ K) x) as F. cbn [h_handles] in F.
    rewrite occ_cons, Z.eqb_refl in F. pose proof (is_file_sum_nonneg x (k_table (s_kern s))).
    pose proof (occ_nonneg x []). pose proof (occ_nonneg x other).
    destruct (decide (x ∈ vfs_handles (k_vfs (s_kern s)))); [done|lia].
Qed.

Lemma fd_open_ok cur acq path fl s : sys_ok other s nothing → cur_ok cur s →
  sys_ok other (fd_open cur acq path fl s).2 nothing.
Proof using All.
  intros K Hc. unfold fd_open. destruct cur as [c|]; [|done]. destruct acq; [|done]. cbn [negb].
  pose proof (vfs_open_ok other _ _ path fl [] [] [] (so_kern _ _ _ K)) as O.
  destruct (vfs_open_flags path fl (k_vfs (s_kern s))) as [x v].
  destruct (x <? 0); [by apply (kern_sys_ok s _ _ _ K)|].
  apply (kern_sys_ok s _ _ _ K) in O. unfold on_kern. set (s1 := s <| s_kern := _ |>) in *.
  pose proof (ofd_create_file_ok other _ _ x fl [] [] [] (so_kern _ _ _ O)
    (λ i, slot_refs_nonneg s1 _ i O)) as C.
  destruct (ofd_create_file x fl (s_kern s1)) as [o k]. destruct C as [[Ho ->]|[Ho K1]].
  { destruct (Z.ltb_spec o 0); [|lia]. simpl.
    apply (kern_sys_ok (s1 <| s_kern := s_kern s1 |>) _ _ _ O).
    apply (k_vfs_close_ok other _ _ (Held [] [] [])). apply O. }
  destruct (Z.ltb_spec o 0); [lia|]. apply (kern_sys_ok s1 _ _ _ O) in K1.
  set (s2 := s1 <| s_kern := k |>) in *.
  destruct (slot_find_ok s2 c 0 (so_procs _ _ _ K1) Hc ltac:(lia)) as [E|[Hr Hn]].
  - rewrite E. simpl. by apply (release_sys_ok other s2).
  - destruct (Z.ltb_spec (slot_find (proc s2 c) 0) 0); [lia|]. simpl.
    apply (fill_slot_ok other s2); [done|done|lia|done].
Qed.

Lemma put_proc_put c f g s : put_proc c f (put_proc c g s) = put_proc c f s.
Proof. unfold put_proc. destruct s as [k l]. unfold set_field. cbn. by rewrite aset_aset. Qed.

Lemma proc_put c f s : 0 ≤ c < Z.of_nat (length (s_procs s)) → proc (put_proc c f s) c = f.
Proof. intros Hc. by apply aget_aset_eq. Qed.

Lemma aset_slot_keep fd d f :
  f <| descriptors := aset (descriptors f) fd d |> = set_slot fd d (aget 0 (fd_flags f) fd) f.
Proof. unfold set_slot. rewrite aset_aget. by destruct f. Qed.

Lemma release_both_ok s ro wo : sys_ok other s (Held [wo; ro] [] []) →
  sys_ok other (on_kern (λ k, ofd_release wo (ofd_release ro k)) s) nothing.
Proof using All.
  intros K. assert (sys_ok other s (Held [ro; wo] [] [])) as K'.
  { split; [apply K|]. eapply (kern_ok_move other _ _ _ (Held [wo; ro] [] [])); [apply K| |].
    - intros i Hi. apply (ko_held _ _ _ _ (so_kern _ _ _ K)). simpl.
      apply elem_of_cons in Hi as [->|[->|Hi%not_elem_of_nil]%elem_of_cons]; [|mem|done].
      apply list_elem_of_further. mem.
    - intros i Hi. cbn [h_ofds]. rewrite !occ_cons. lia. }
  apply release_sys_ok in K'. by apply (release_sys_ok other (on_kern (ofd_release ro) s)).
Qed.

Lemma fd_pipe_install_ok c fl ro wo s : sys_ok other s (Held [wo; ro] [] []) →
  0 ≤ c < Z.of_nat (length (s_procs s)) →
  sys_ok other (fd_pipe_install c fl ro wo s).2 nothing.
Proof using All.
  intros K Hc. unfold fd_pipe_install. pose proof (so_procs _ _ _ K) as P.
  pose proof (ko_held _ _ _ _ (so_kern _ _ _ K)) as Hl. cbn [h_ofds] in Hl.
  destruct (slot_find_ok s c 0 P Hc ltac:(lia)) as [E|[Hr Hn]].
  { rewrite E. simpl. by apply release_both_ok. }
  destruct (Z.ltb_spec (slot_find (proc s c) 0) 0); [lia|].
  set (rd := slot_find (proc s c) 0) in *.
  set (ce := if negb (Z.land fl O_CLOEXEC_FLAG =? 0) then PROCESS_FD_CLOEXEC else 0).
  rewrite aset_slot_keep. set (f1 := set_slot rd ro _ (proc s c)).
  assert (∀ x, sys_ok other (put_proc c (set_slot rd ro x (proc s c)) s) (Held [wo] [] [])) as K1.
  { intros x. apply (set_slot_ok other s (Held [wo; ro] [] [])); try done.
    - assert (0 ≤ ro < 4096); [|lia]. apply Hl. apply list_elem_of_further. mem.
    - intros j [->|Hj%not_elem_of_nil]%elem_of_cons; [|done]. apply Hl. mem.
    - intros j Hj. cbn [h_ofds]. rewrite !occ_cons.
      destruct (Z.eqb_spec (desc (proc s c) rd) j); lia. }
  assert (f1 = proc (put_proc c f1 s) c) as Ef1 by (by rewrite proc_put).
  assert (0 ≤ c < Z.of_nat (length (s_procs (put_proc c f1 s)))) as Hc1.
  { unfold put_proc. simpl. by rewrite length_aset. }
  destruct (slot_find_ok (put_proc c f1 s) c 0 (so_procs _ _ _ (K1 _)) Hc1 ltac:(lia)) as [E|[Hr2 Hn2]].
  - rewrite <- Ef1 in E. rewrite E. change (-1 <? 0) with true. cbv iota zeta. cbn [snd].
    apply release_both_ok. rewrite aset_slot_keep.
    assert (set_slot rd (-1) (aget 0 (fd_flags f1) rd) f1 =
            set_slot rd (-1) (aget 0 (fd_flags f1) rd) (proc s c)) as ->.
    { unfold f1, set_slot. simpl. by rewrite !aset_aset. }
    apply (set_slot_ok other s (Held [wo; ro] [] [])); try done.
    intros j Hj. cbn [h_ofds]. rewrite !occ_cons.
    destruct (Z.eqb_spec (-1) j), (Z.eqb_spec (desc (proc s c) rd) j); lia.
  - rewrite <- Ef1 in Hr2, Hn2. destruct (Z.ltb_spec (slot_find f1 0) 0); [lia|].
    set (wr := slot_find f1 0) in *. cbn [snd].
    set (g := set_slot rd ro ce (proc s c)).
    assert (desc g wr = desc f1 wr) as Eg by done.
    assert (Fds (aset (descriptors f1) wr wo) (aset (aset (fd_flags f1) rd ce) wr ce) =
            set_slot wr wo ce g) as ->.
    { unfold set_slot, g, f1. simpl. by rewrite aset_aset. }
    rewrite <- (put_proc_put c _ g).
    pose proof (proc_put c g s Hc) as Pg.
    pose proof (fill_slot_ok other (put_proc c g s) c wr wo ce [] [] [] (K1 ce)) as F.
    rewrite Pg, Eg in F. apply F; [|lia|done].
    unfold put_proc. simpl. by rewrite length_aset.
Qed.

Lemma fd_pipe_ok cur fl s : sys_ok other s nothing → cur_ok cur s →
  sys_ok other (fd_pipe cur fl s).2 nothing.
Proof using All.
  intros K Hc. unfold fd_pipe. destruct cur as [c|]; [|done].
  pose proof (pipe_create_ok other _ _ [] [] [] (so_kern _ _ _ K)) as C.
  destruct (pipe_create (k_pipes (s_kern s)) (k_pmm (s_kern s))) as [[[st oid] ps] p].
  cbv zeta in C. destruct oid as [id|]; [|by apply (kern_sys_ok s _ _ _ K)].
  apply (kern_sys_ok s _ _ _ K) in C. unfold on_kern at 1. set (s1 := s <| s_kern := _ |>) in *.
  pose proof (ofd_create_pipe_ok other _ _ id false [] [(id, true)] [] (so_kern _ _ _ C)
    (λ i, slot_refs_nonneg s1 _ i C)) as C1. unfold on_kern. fold s1.
  destruct (ofd_create_pipe id false (s_kern s1)) as [ro k1].
  destruct C1 as [[Hr ->]|[Hr K1]].
  - (* no description for the read end *)
    assert (kern_ok other (slot_refs (s_procs s1)) (s_kern s1) (Held [] [(id, true); (id, false)] [])) as C2.
    { destruct C as [_ C]. split; try apply C.
      - intros e He. apply (ko_ends_held _ _ _ _ C). simpl in *.
        apply elem_of_cons in He as [->|[->|He%not_elem_of_nil]%elem_of_cons]; [|mem|done].
      apply list_elem_of_further. mem.
      - intros j Hj. pose proof (ko_ends _ _ _ _ C j Hj) as E. cbv beta zeta in *.
        cbn [h_ends] in *. unfold occ_end in *. cbn [sum_of fst snd] in *.
        destruct (id =? j); cbn [eqb andb] in *; done. }
    pose proof (ofd_create_pipe_ok other _ _ id true [] [(id, false)] [] C2
      (λ i, slot_refs_nonneg s1 _ i C)) as C3.
    destruct (ofd_create_pipe id true (s_kern s1)) as [wo k2].
    destruct (Z.ltb_spec ro 0); [|lia]. destruct (Z.leb_spec 0 ro); [lia|]. simpl.
    destruct C3 as [[Hw ->]|[Hw K2]].
    + destruct (Z.leb_spec 0 wo); [lia|]. simpl.
      split; [apply C|]. simpl. apply (k_pipe_release_ok other _ _ (Held [] [] [])).
      apply (k_pipe_release_ok other _ _ (Held [] [] []) id false). apply C.
    + destruct (Z.leb_spec 0 wo); [|lia]. simpl. split; [apply C|]. simpl.
      apply ofd_release_ok; [|intros; by eapply slot_refs_nonneg].
      by apply (k_pipe_release_ok other _ _ (Held [wo] [] []) id false).
  - pose proof (ofd_create_pipe_ok other _ _ id true [ro] [] [] K1
      (λ i, slot_refs_nonneg s1 _ i C)) as C3.
    destruct (ofd_create_pipe id true k1) as [wo k2].
    destruct (Z.ltb_spec ro 0); [lia|]. destruct (Z.leb_spec 0 ro); [|lia].
    destruct C3 as [[Hw ->]|[Hw K2]].
    + destruct (Z.ltb_spec wo 0); [|lia]. destruct (Z.leb_spec 0 wo); [lia|]. simpl.
      split; [apply C|]. simpl. apply (k_pipe_release_ok other _ _ (Held [] [] [])).
      apply ofd_release_ok; [done|intros; by eapply slot_refs_nonneg].
    + destruct (Z.ltb_spec wo 0); [lia|]. cbn [orb].
      set (s2 := if negb (Z.land fl OFD_O_NONBLOCK =? 0) then _ else _).
      assert (sys_ok other s2 (Held [wo; ro] [] [])) as K3.
      { unfold s2. destruct (negb _); [|by apply (kern_sys_ok s1 _ _ _ C)].
        apply (kern_sys_ok s1 _ _ _ C). simpl. by do 2 apply ofd_flags_set_ok. }
      apply (fd_pipe_install_ok c fl ro wo s2); [done|].
      unfold s2. by destruct (negb _).
Qed.
End OpLemmas.

Section LoopLemmas.
Context {V : Type} `{VfsLaws V} (other : list Z).
Implicit Types (s : sys V).

Lemma procs_length_set s c fd d fl :
  length (s_procs (put_proc c (set_slot fd d fl (proc s c)) s)) = length (s_procs s).
Proof. unfold put_proc. simpl. apply length_aset. Qed.

Lemma close_slot_ok c fd s : sys_ok other s nothing → 0 ≤ c < Z.of_nat (length (s_procs s)) →
  0 ≤ fd < 64 → sys_ok other (close_slot c fd s) nothing ∧
  length (s_procs (close_slot c fd s)) = length (s_procs s).
Proof using All.
  intros K Hc Hfd. unfold close_slot.
  pose proof (clear_slot_ok other s c fd 0 [] [] [] K Hc Hfd) as K1.
  destruct (Z.ltb_spec (desc (proc s c) fd) 0), (Z.leb_spec 0 (desc (proc s c) fd)); try lia.
  - split; [done|apply procs_length_set].
  - split; [by apply release_sys_ok|]. unfold on_kern. simpl. apply length_aset.
Qed.

(** A loop over the slots of a process keeps what each round keeps. *)
Lemma slots_loop (f : sys V → Z → sys V) c s :
  (∀ s fd, sys_ok other s nothing → 0 ≤ c < Z.of_nat (length (s_procs s)) → 0 ≤ fd < 64 →
    sys_ok other (f s fd) nothing ∧ length (s_procs (f s fd)) = length (s_procs s)) →
  sys_ok other s nothing → 0 ≤ c < Z.of_nat (length (s_procs s)) →
  sys_ok other (foldl f s (seqZ 0 (Z.of_nat PROCESS_FD_COUNT))) nothing ∧
  length (s_procs (foldl f s (seqZ 0 (Z.of_nat PROCESS_FD_COUNT)))) = length (s_procs s).
Proof using All.
  intros Hf. assert (∀ l, Forall (λ fd, 0 ≤ fd < 64) l → ∀ s, sys_ok other s nothing →
  0 ≤ c < Z.of_nat (length (s_procs s)) →
    sys_ok other (foldl f s l) nothing ∧ length (s_procs (foldl f s l)) = length (s_procs s)) as G.
  { intros l F. induction F as [|fd l Hfd F IH]; intros s0 K0 Hc0; simpl; [done|].
    destruct (Hf s0 fd K0 Hc0 Hfd) as [K1 L1]. rewrite <- L1. apply IH; [done|by rewrite L1]. }
  intros K Hc. apply G; [|done|done]. apply Forall_seqZ. unfold PROCESS_FD_COUNT. lia.
Qed.

Lemma fd_close_all_ok c s : sys_ok other s nothing → 0 ≤ c < Z.of_nat (length (s_procs s)) →
  sys_ok other (fd_close_all c s) nothing.
Proof using All.
  intros K Hc. apply (slots_loop (λ s fd, close_slot c fd s) c); [|done|done].
  intros. by apply close_slot_ok.
Qed.

Lemma fd_close_on_exec_ok c s : sys_ok other s nothing → 0 ≤ c < Z.of_nat (length (s_procs s)) →
  sys_ok other (fd_close_on_exec c s) nothing.
Proof using All.
  intros K Hc. unfold fd_close_on_exec. apply (slots_loop _ c); [|done|done].
  intros s0 fd K0 Hc0 Hfd. destruct (_ || _); [done|]. by apply close_slot_ok.
Qed.

(** The slots of a child that [fd_clone] has not reached hold no description
    that is counted. *)
Definition unshared (c : Z) (from : Z) s : Prop :=
  ∀ fd, from ≤ fd < 64 → desc (proc s c) fd < 3.

Lemma proc_put_ne c d f s : 0 ≤ c → 0 ≤ d → c ≠ d → proc (put_proc c f s) d = proc s d.
Proof. intros. by apply aget_aset_ne. Qed.

Lemma clone_slot_ok child parent fd s : sys_ok other s nothing →
  0 ≤ child < Z.of_nat (length (s_procs s)) → 0 ≤ parent < Z.of_nat (length (s_procs s)) →
  child ≠ parent → 0 ≤ fd < 64 → unshared child fd s →
  let s' := clone_slot child parent fd s in
  sys_ok other s' nothing ∧ length (s_procs s') = length (s_procs s) ∧ unshared child (fd + 1) s'.
Proof using All.
  intros K Hc Hp Ne Hfd Un s'. pose proof (so_procs _ _ _ K) as P.
  set (d := desc (proc s parent) fd).
  assert (d < 4096) as Hd.
  { apply (pr_range _ P (proc s parent)); [by apply proc_elem|by apply desc_elem]. }
  pose proof (Un fd ltac:(lia)) as Old.
  assert (length (s_procs s') = length (s_procs s)) as L.
  { unfold s', clone_slot. fold d. unfold on_kern. destruct (0 <=? d); simpl; apply length_aset. }
  assert (∀ j, 0 ≤ j → proc s' j = if child =? j then set_slot fd d (aget 0 (fd_flags (proc s parent)) fd)
                                                    (proc s child) else proc s j) as Pr.
  { intros j Hj. unfold s', clone_slot. fold d. unfold on_kern.
    destruct (0 <=? d); unfold proc, put_proc; simpl; apply aget_aset; lia. }
  split; [|split; [done|]].
  - unfold s', clone_slot. fold d. destruct (Z.leb_spec 0 d) as [Hd0|Hd0].
    + pose proof (ref_slot_ok other s parent fd [] [] [] K Hp Hfd Hd0 ltac:(done)) as K1. fold d in K1.
      pose proof (set_slot_ok other (on_kern (ofd_ref d) s) (Held [d] [] []) child fd d
        (aget 0 (fd_flags (proc s parent)) fd) [] K1 Hc Hfd Hd) as K2.
      apply K2; [by intros j ?%not_elem_of_nil|]. intros i Hi. cbn [h_ofds]. rewrite occ_cons.
      change (proc (on_kern (ofd_ref d) s) child) with (proc s child).
      destruct (Z.eqb_spec (desc (proc s child) fd) i); lia.
    + apply (set_slot_ok other s nothing child fd d _ [] K Hc Hfd Hd); [by intros j ?%not_elem_of_nil|].
      intros i Hi. destruct (Z.eqb_spec d i), (Z.eqb_spec (desc (proc s child) fd) i); (lia || done).
  - intros g Hg. rewrite Pr by lia. rewrite Z.eqb_refl. unfold desc, set_slot. simpl.
    rewrite aget_aset_ne by lia. apply Un. lia.
Qed.

Lemma fd_clone_ok child parent s : sys_ok other s nothing →
  0 ≤ child < Z.of_nat (length (s_procs s)) → 0 ≤ parent < Z.of_nat (length (s_procs s)) →
  child ≠ parent → unshared child 0 s → sys_ok other (fd_clone child parent s) nothing.
Proof using All.
  intros K Hc Hp Ne Un. unfold fd_clone. change (Z.of_nat PROCESS_FD_COUNT) with 64.
  assert (∀ n fd s, 0 ≤ fd → fd + Z.of_nat n = 64 → sys_ok other s nothing →
  0 ≤ child < Z.of_nat (length (s_procs s)) → 0 ≤ parent < Z.of_nat (length (s_procs s)) →
    unshared child fd s →
    sys_ok other (foldl (λ s fd, clone_slot child parent fd s) s (seqZ fd (Z.of_nat n))) nothing) as G.
  2:{ apply (G 64%nat 0); done. }
  induction n as [|n IH]; intros fd s0 H1 H2 K0 Hc0 Hp0 U0; [done|].
  rewrite seqZ_cons by lia. simpl foldl.
  destruct (clone_slot_ok child parent fd s0 K0 Hc0 Hp0 Ne ltac:(lia) U0) as (K1&L1&U1).
  replace (Z.pred (Z.of_nat (S n))) with (Z.of_nat n) by lia.
  apply IH; [lia|lia|done|lia|lia|done].
Qed.

(** Calls that move bytes: no reference changes hands. *)
Lemma fd_read_ok cur acq fd n s : sys_ok other s nothing →
  sys_ok other (fd_read cur acq fd n s).2 nothing.
Proof using All.
  intros K. unfold fd_read. destruct (object_get cur fd s <? 0); [done|].
  unfold ofd_read. destruct (snapshot _ _) as [o|]; [|by apply (kern_sys_ok other s _ _ _ K), K].
  pose proof (kern_sys_ok other s _ _ _ K (so_kern _ _ _ K)) as K0.
  destruct (kind o); try done; [|by destruct (write_end o)].
  destruct (_ =? OFD_O_WRONLY); [done|]. destruct (negb acq); [done|].
  pose proof (vfs_read_law (object o) n (k_vfs (s_kern s))) as L.
  destruct (vfs_read _ _ _) as [[r out] v]. apply (kern_sys_ok other s _ _ _ K).
  apply k_vfs_same_ok; [apply K|exact L].
Qed.

Lemma fd_write_ok cur acq fd data s : sys_ok other s nothing →
  sys_ok other (fd_write cur acq fd data s).2 nothing.
Proof using All.
  intros K. unfold fd_write. destruct (object_get cur fd s <? 0); [done|].
  unfold ofd_write. destruct (snapshot _ _) as [o|]; [|by apply (kern_sys_ok other s _ _ _ K), K].
  pose proof (kern_sys_ok other s _ _ _ K (so_kern _ _ _ K)) as K0.
  destruct (kind o); try done; [| |by destruct (write_end o)].
  - apply (kern_sys_ok other s _ _ _ K). destruct K as [_ K]. split; apply K.
  - destruct (_ =? OFD_O_RDONLY); [done|]. destruct (negb acq); [done|].
    pose proof (vfs_write_law (object o) data (k_vfs (s_kern s))) as L.
    destruct (vfs_write _ _ _) as [r v]. apply (kern_sys_ok other s _ _ _ K).
  apply k_vfs_same_ok; [apply K|exact L].
Qed.

Lemma fd_seek_ok cur acq fd off w s : sys_ok other s nothing →
  sys_ok other (fd_seek cur acq fd off w s).2 nothing.
Proof using All.
  intros K. unfold fd_seek. destruct (object_get cur fd s <? 0); [done|].
  unfold ofd_seek. destruct (snapshot _ _) as [o|]; [|by apply (kern_sys_ok other s _ _ _ K), K].
  pose proof (kern_sys_ok other s _ _ _ K (so_kern _ _ _ K)) as K0.
  destruct (bool_decide _); [done|]. destruct (negb acq); [done|].
  pose proof (vfs_seek_law (object o) off w (k_vfs (s_kern s))) as L.
  destruct (vfs_seek _ _ _ _) as [r v]. apply (kern_sys_ok other s _ _ _ K).
  apply k_vfs_same_ok; [apply K|exact L].
Qed.

Lemma fd_truncate_ok cur acq fd len s : sys_ok other s nothing →
  sys_ok other (fd_truncate cur acq fd len s).2 nothing.
Proof using All.
  intros K. unfold fd_truncate. destruct (object_get cur fd s <? 0); [done|].
  unfold ofd_truncate. destruct (snapshot _ _) as [o|]; [|by apply (kern_sys_ok other s _ _ _ K), K].
  pose proof (kern_sys_ok other s _ _ _ K (so_kern _ _ _ K)) as K0.
  destruct (bool_decide _); [done|]. destruct (_ =? OFD_O_RDONLY); [done|].
  destruct (negb acq); [done|].
  pose proof (vfs_truncate_law (object o) len (k_vfs (s_kern s))) as L.
  destruct (vfs_handle_truncate _ _ _) as [r v]. apply (kern_sys_ok other s _ _ _ K).
  apply k_vfs_same_ok; [apply K|exact L].
Qed.

Lemma fd_stat_ok cur acq fd s : sys_ok other s nothing → sys_ok other (fd_stat cur acq fd s).2 nothing.
Proof using All.
  intros K. unfold fd_stat. destruct (object_get cur fd s <? 0); [done|].
  unfold ofd_stat. destruct (snapshot _ _) as [o|]; [|by apply (kern_sys_ok other s _ _ _ K), K].
  pose proof (kern_sys_ok other s _ _ _ K (so_kern _ _ _ K)) as K0.
  destruct (bool_decide _); [done|]. destruct (negb acq); [done|].
  pose proof (vfs_stat_law (object o) (k_vfs (s_kern s))) as L.
  destruct (vfs_handle_stat _ _) as [[r info] v]. apply (kern_sys_ok other s _ _ _ K).
  apply k_vfs_same_ok; [apply K|exact L].
Qed.

Lemma fd_ctl_ok cur fd cmd arg s : sys_ok other s nothing → cur_ok cur s →
  sys_ok other (fd_ctl cur fd cmd arg s).2 nothing.
Proof using All.
  intros K Hc. unfold fd_ctl. destruct cur as [c|]; [|done].
  destruct (in_range fd) eqn:R; cbn [negb]; [|done]. apply in_range_spec in R.
  destruct (object_get (Some c) fd s <? 0); [done|]. destruct (cmd =? FD_CTL_GETFD); [done|].
  destruct (cmd =? FD_CTL_SETFD).
  { simpl. assert (∀ x, (proc s c) <| fd_flags := aset (fd_flags (proc s c)) fd x |> =
      set_slot fd (desc (proc s c) fd) x (proc s c)) as E.
    { intros x. unfold set_slot, desc. rewrite aset_aget. by destruct (proc s c). }
    rewrite E. apply (set_slot_ok other s nothing c fd _ _ [] K Hc R);
      [|by intros j ?%not_elem_of_nil|done].
    apply (pr_range _ (so_procs _ _ _ K) (proc s c)); [by apply proc_elem|].
    by apply desc_elem; [apply K| |]. }
  destruct (cmd =? FD_CTL_DUPFD); [by apply fd_dup_ok|].
  destruct (cmd =? FD_CTL_DUPFD_CLOEXEC); [by apply fd_dup_ok|].
  destruct (cmd =? FD_CTL_KIND); [done|]. destruct (cmd =? FD_CTL_GETFL); [done|].
  destruct (cmd =? FD_CTL_SETFL); [|done].
  pose proof (ofd_flags_set_ok other _ _ _ (object_get (Some c) fd s) (u32 arg) (so_kern _ _ _ K)) as F.
  destruct (ofd_flags_set _ _ _) as [r k]. by apply (kern_sys_ok other s _ _ _ K).
Qed.
End LoopLemmas.

(** ** The system: every operation keeps the invariant *)

Section Steps.
Context {V : Type} `{VfsLaws V} (other : list Z).
Implicit Types (s : sys V).

Lemma sys_file_open_ok c acq path s : sys_ok other s nothing →
  0 ≤ c < Z.of_nat (length (s_procs s)) →
  sys_ok other (sys_file_open (Some c) acq path s).2 nothing.
Proof using All.
  intros K Hc. unfold sys_file_open. destruct acq; [|done]. cbn [negb].
  pose proof (vfs_open_ok other _ _ path 0 [] [] [] (so_kern _ _ _ K)) as O.
  destruct (vfs_open_flags path 0 (k_vfs (s_kern s))) as [x v].
  destruct (x <? 0); [by apply (kern_sys_ok other s _ _ _ K)|].
  apply (kern_sys_ok other s _ _ _ K) in O. unfold on_kern at 1. set (s1 := s <| s_kern := _ |>) in *.
  pose proof (fd_install_handle_ok other (Some c) x s1 O Hc) as I. fold s1.
  destruct (fd_install_handle (Some c) x s1) as [r s2]. simpl.
  destruct I as [[Hr I]|[(->&I&Hx)|[[->|[=]] I]]].
  - destruct (Z.ltb_spec r 0); [lia|done].
  - simpl. split; [apply I|]. simpl. apply k_vfs_same_ok; [apply I|]. by apply vfs_close_invalid_law.
  - simpl. split; [apply I|]. simpl. apply (k_vfs_close_ok other _ _ (Held [] [] [])). apply I.
Qed.

(** A step of a pipe call changes no end count. *)
Lemma pipe_step_ok s id pi ps : sys_ok other s nothing →
  0 ≤ id < 128 → ps = aset (k_pipes (s_kern s)) id pi →
  used pi = used (pipe_at (k_pipes (s_kern s)) id) →
  readers pi = readers (pipe_at (k_pipes (s_kern s)) id) →
  writers pi = writers (pipe_at (k_pipes (s_kern s)) id) →
  (∃ sent rcv, world_wf (World ps (k_pmm (s_kern s)) sent rcv)) →
  sys_ok other (on_kern (λ k, k <| k_pipes := ps |>) s) nothing.
Proof.
  intros [P K] Hid -> Eu Er Ew W. split; [done|].
  pose proof (ko_world _ _ _ _ K) as (sent&rcv&W0). pose proof (proj1 (ww_len _ W0)) as L. simpl in L.
  split; try apply K; simpl; [done|].
  intros j Hj. rewrite pipe_at_aset by (done || lia).
  pose proof (ko_ends _ _ _ _ K j Hj) as E. cbv beta zeta in *.
  destruct (Z.eqb_spec id j) as [<-|]; [|done]. by rewrite Eu, Er, Ew.
Qed.

Lemma pipe_read_sys_ok self id n nb pd s : sys_ok other s nothing → 0 < n < 2 ^ 32 →
  sys_ok other (on_kern (λ k, k <| k_pipes := (pipe_read_step self id n nb pd (k_pipes k)).2 |>) s) nothing.
Proof.
  intros K Hn. destruct (ko_world _ _ _ _ (so_kern _ _ _ K)) as (sent&rcv&W).
  pose proof (exec_read_wf _ self id n nb pd W Hn) as W'. cbn [exec w_pipes w_pmm] in W'.
  unfold on_kern. destruct (pipe_get id (k_pipes (s_kern s))) as [pi|] eqn:G.
  - pose proof G as (Hid&Epi&Hu)%pipe_get_Some. pose proof (ww_ok _ W id Hid) as Ok. simpl in Ok.
    rewrite <- Epi in Ok.
    pose proof (pipe_read_step_spec self id n nb pd _ pi G Ok ltac:(unfold is_u32; lia) ltac:(lia)) as Sp.
    destruct (pipe_read_step self id n nb pd (k_pipes (s_kern s))) as [[[o out] wake] ps].
    destruct Sp as (pi'&Eps&Sp). destruct (rs_same _ _ _ _ _ _ _ Sp) as (E1&_&E3&E4).
    apply (pipe_step_ok s id pi' ps); try done; try congruence. simpl in W'. by eexists _, _.
  - rewrite pipe_get_None_read by done. destruct s as [k l]. destruct k. exact K.
Qed.

Lemma pipe_write_sys_ok self id data i nb pd s : sys_ok other s nothing →
  0 ≤ i < Z.of_nat (length data) → Z.of_nat (length data) < 2 ^ 32 →
  sys_ok other (on_kern (λ k, k <| k_pipes := (pipe_write_step self id data i nb pd (k_pipes k)).2 |>) s)
    nothing.
Proof.
  intros K Hi Hn. destruct (ko_world _ _ _ _ (so_kern _ _ _ K)) as (sent&rcv&W).
  pose proof (exec_write_wf _ self id data i nb pd W Hi Hn) as W'. cbn [exec w_pipes w_pmm] in W'.
  unfold on_kern. destruct (pipe_get id (k_pipes (s_kern s))) as [pi|] eqn:G.
  - pose proof G as (Hid&Epi&Hu)%pipe_get_Some. pose proof (ww_ok _ W id Hid) as Ok. simpl in Ok.
    rewrite <- Epi in Ok.
    pose proof (pipe_write_step_spec self id data i nb pd _ pi G Ok Hi Hn) as Sp.
    destruct (pipe_write_step self id data i nb pd (k_pipes (s_kern s))) as [[[o out] wake] ps].
    destruct Sp as (pi'&Eps&Sp). destruct (ws_same _ _ _ _ _ _ _ _ Sp) as (E1&_&E3&E4).
    apply (pipe_step_ok s id pi' ps); try done; try congruence. simpl in W'. by eexists _, _.
  - unfold pipe_write_step. rewrite G. destruct s as [k l]. destruct k. exact K.
Qed.

(** A new process starts with the three console slots. *)
Lemma spawn_ok s : sys_ok other s nothing → Z.of_nat (length (s_procs s)) < 65536 →
  sys_ok other (s <| s_procs := s_procs s ++ [fds_new] |>) nothing.
Proof.
  intros [P K] Hb. split; simpl.
  - split.
    + intros f [Hf|[->|?%not_elem_of_nil]%elem_of_cons]%elem_of_app; [by apply P|done|done].
    + intros f d [Hf|[->|?%not_elem_of_nil]%elem_of_cons]%elem_of_app; [by apply P| |done].
      simpl. intros Hd. repeat (apply elem_of_cons in Hd as [->|Hd]; [done|]).
      by apply not_elem_of_nil in Hd.
    + rewrite length_app. simpl. lia.
  - eapply (kern_ok_move other _ _ _ nothing); [exact K|by intros i ?%not_elem_of_nil|].
    intros i Hi. unfold slot_refs. rewrite sum_of_app.
    assert (sum_of (λ f, occ i (descriptors f)) [fds_new] = 0) as ->; [|cbn [h_ofds nothing]; lia].
    unfold sum_of, fds_new. cbn [descriptors]. rewrite !occ_cons.
    assert (occ i (replicate 61 (-1)) = 0) as ->.
    { generalize 61%nat. intros n. induction n as [|n IH]; [done|]. cbn [replicate].
      rewrite occ_cons, IH. destruct (Z.eqb_spec (-1) i); lia. }
    destruct (Z.eqb_spec 0 i), (Z.eqb_spec 1 i), (Z.eqb_spec 2 i); lia.
Qed.

(** The descriptor calls of all processes, in any order. *)
Inductive fd_op :=
| OpSpawn
| OpClone (child parent : Z)
| OpCloseAll (c : Z)
| OpCloseOnExec (c : Z)
| OpFileOpen (c : Z) (acq : bool) (path : list Z)
| OpOpen (cur : option Z) (acq : bool) (path : list Z) (fl : Z)
| OpClose (cur : option Z) (fd : Z)
| OpDup (cur : option Z) (fd minimum : Z) (cloexec : bool)
| OpDup2 (cur : option Z) (old_fd new_fd : Z)
| OpPipe (cur : option Z) (fl : Z)
| OpCtl (cur : option Z) (fd command argument : Z)
| OpRead (cur : option Z) (acq : bool) (fd n : Z)
| OpWrite (cur : option Z) (acq : bool) (fd : Z) (data : list Z)
| OpSeek (cur : option Z) (acq : bool) (fd offset whence : Z)
| OpTruncate (cur : option Z) (acq : bool) (fd len : Z)
| OpStat (cur : option Z) (acq : bool) (fd : Z)
| OpPipeRead (self id n : Z) (nonblock pending : bool)
| OpPipeWrite (self id : Z) (data : list Z) (written : Z) (nonblock pending : bool).

Definition fd_exec (op : fd_op) s : sys V :=
  match op with
  | OpSpawn => s <| s_procs := s_procs s ++ [fds_new] |>
  | OpClone ch pa => fd_clone ch pa s
  | OpCloseAll c => fd_close_all c s
  | OpCloseOnExec c => fd_close_on_exec c s
  | OpFileOpen c acq path => (sys_file_open (Some c) acq path s).2
  | OpOpen cur acq path fl => (fd_open cur acq path fl s).2
  | OpClose cur fd => (fd_close cur fd s).2
  | OpDup cur fd m ce => (fd_dup cur fd m ce s).2
  | OpDup2 cur a b => (fd_dup2 cur a b s).2
  | OpPipe cur fl => (fd_pipe cur fl s).2
  | OpCtl cur fd cmd arg => (fd_ctl cur fd cmd arg s).2
  | OpRead cur acq fd n => (fd_read cur acq fd n s).2
  | OpWrite cur acq fd data => (fd_write cur acq fd data s).2
  | OpSeek cur acq fd off w => (fd_seek cur acq fd off w s).2
  | OpTruncate cur acq fd len => (fd_truncate cur acq fd len s).2
  | OpStat cur acq fd => (fd_stat cur acq fd s).2
  | OpPipeRead self id n nb pd =>
      on_kern (λ k, k <| k_pipes := (pipe_read_step self id n nb pd (k_pipes k)).2 |>) s
  | OpPipeWrite self id data i nb pd =>
      on_kern (λ k, k <| k_pipes := (pipe_write_step self id data i nb pd (k_pipes k)).2 |>) s
  end.

(** The calling process exists; [fork] clones into a new process; the table of
    processes stays below its bound. *)
Definition fd_op_ok (op : fd_op) s : Prop :=
  match op with
  | OpSpawn => Z.of_nat (length (s_procs s)) < 65536
  | OpClone ch pa => cur_ok (Some ch) s ∧ cur_ok (Some pa) s ∧ ch ≠ pa ∧ unshared ch 0 s
  | OpCloseAll c | OpCloseOnExec c | OpFileOpen c _ _ => cur_ok (Some c) s
  | OpOpen cur _ _ _ | OpClose cur _ | OpDup cur _ _ _ | OpDup2 cur _ _ | OpPipe cur _
  | OpCtl cur _ _ _ | OpRead cur _ _ _ | OpWrite cur _ _ _ | OpSeek cur _ _ _ _
  | OpTruncate cur _ _ _ | OpStat cur _ _ => cur_ok cur s
  | OpPipeRead _ _ n _ _ => 0 < n < 2 ^ 32
  | OpPipeWrite _ _ data i _ _ => 0 ≤ i < Z.of_nat (length data) ∧ Z.of_nat (length data) < 2 ^ 32
  end.

Lemma fd_exec_ok op s : sys_ok other s nothing → fd_op_ok op s → sys_ok other (fd_exec op s) nothing.
Proof using All.
  intros K. destruct op; simpl fd_op_ok; intros Hop; simpl fd_exec.
  - by apply spawn_ok.
  - destruct Hop as (Hc&Hp&Ne&Un). by apply fd_clone_ok.
  - by apply fd_close_all_ok.
  - by apply fd_close_on_exec_ok.
  - by apply sys_file_open_ok.
  - by apply fd_open_ok.
  - by apply fd_close_ok.
  - by apply fd_dup_ok.
  - by apply fd_dup2_ok.
  - by apply fd_pipe_ok.
  - by apply fd_ctl_ok.
  - by apply fd_read_ok.
  - by apply fd_write_ok.
  - by apply fd_seek_ok.
  - by apply fd_truncate_ok.
  - by apply fd_stat_ok.
  - by apply pipe_read_sys_ok.
  - by apply pipe_write_sys_ok; [|apply Hop..].
Qed.
End Steps.

Definition kern_boot {V} (p : pmm) (v : V) : kern V :=
  Kern V (replicate OFD_MAX ofd_zero) false pipes_init p v [] [].
(** The state after [ofd_init], before the first process. *)
Definition sys_boot {V} `{VfsOps V} (p : pmm) (v : V) : sys V := Sys V (ofd_init (kern_boot p v)) [].

Inductive fd_reachable {V} `{VfsOps V} (v0 : V) : sys V → Prop :=
| fd_boot p : pmm_wf p → fd_reachable v0 (sys_boot p v0)
| fd_step s op : fd_reachable v0 s → fd_op_ok op s → fd_reachable v0 (fd_exec op s).

Lemma occ_nodup x l : NoDup l → occ x l = if decide (x ∈ l) then 1 else 0.
Proof.
  induction 1 as [|y l Hy Nd IH]; [done|]. rewrite occ_cons, IH.
  destruct (Z.eqb_spec y x) as [<-|Ne].
  - rewrite decide_False by done. by rewrite decide_True by mem.
  - destruct (decide (x ∈ l)) as [Hx|Hx], (decide (x ∈ y :: l)) as [Hc|Hc]; try done.
    + destruct Hc. by right.
    + by apply elem_of_cons in Hc as [?|?].
Qed.

Lemma sum_of_replicate {A} (f : A → Z) n x : f x = 0 → sum_of f (replicate n x) = 0.
Proof. intros E. induction n as [|n IH]; [done|]. cbn [replicate sum_of]. lia. Qed.

Section Boot.
Context {V : Type} `{VfsLaws V}.

Lemma length_put i o (k : kern V) : length (k_table (put_ofd i o k)) = length (k_table k).
Proof. apply length_aset. Qed.

Lemma boot_ofd_at p (v : V) i : 0 ≤ i →
  ofd_at (ofd_init (kern_boot p v)) i =
    if i <? 3 then console_ofd (if i =? 0 then OFD_CONSOLE_IN else OFD_CONSOLE_OUT)
                               (if i =? 0 then 0 else 1) else ofd_zero.
Proof.
  intros Hi. unfold ofd_init, kern_boot. cbn [k_initialized negb].
  set (k := _ <| k_initialized := true |>).
  assert (length (k_table k) = OFD_MAX) as L by apply length_replicate.
  assert (∀ j, ofd_at k j = ofd_zero) as Z0 by (intros; apply aget_replicate).
  rewrite !ofd_at_put by first [lia | rewrite ?length_put; exact L].
  rewrite Z0. destruct (Z.eqb_spec 2 i) as [<-|]; [done|]. destruct (Z.eqb_spec 1 i) as [<-|]; [done|].
  destruct (Z.eqb_spec 0 i) as [<-|]; [done|]. destruct (Z.ltb_spec i 3); [lia|done].
Qed.

Lemma boot_sum p (v : V) f : f ofd_zero = 0 → (∀ k fl, kind (console_ofd k fl) = OFD_CONSOLE_IN ∨
    kind (console_ofd k fl) = OFD_CONSOLE_OUT → f (console_ofd k fl) = 0) →
  sum_of f (k_table (ofd_init (kern_boot p v))) = 0.
Proof.
  intros F0 F1. unfold ofd_init, kern_boot. cbn [k_initialized negb].
  set (k := _ <| k_initialized := true |>).
  assert (length (k_table k) = OFD_MAX) as L by apply length_replicate.
  assert (∀ j, ofd_at k j = ofd_zero) as Z0 by (intros; apply aget_replicate).
  rewrite !sum_put by first [lia | rewrite ?length_put; exact L].
  rewrite !ofd_at_put by first [lia | rewrite ?length_put; exact L].
  simpl Z.eqb. cbv iota. rewrite !Z0, !F0, !F1 by (simpl; auto).
  change (k_table k) with (replicate OFD_MAX ofd_zero). rewrite sum_of_replicate by done. done.
Qed.

Lemma boot_ok p (v : V) : pmm_wf p → sys_ok (elements (vfs_handles v)) (sys_boot p v) nothing.
Proof.
  intros W. split.
  { split; [by intros f ?%not_elem_of_nil|by intros f d ?%not_elem_of_nil|done]. }
  unfold sys_boot. cbn [s_kern s_procs].
  assert (∀ id we, sum_of (is_end id we) (k_table (ofd_init (kern_boot p v))) = 0) as Se.
  { intros. apply boot_sum; [done|]. intros kd fl [E|E]; simpl in E; subst; done. }
  split.
  - split; [|done]. unfold ofd_init, kern_boot. cbn [k_initialized negb].
    rewrite !length_put. apply length_replicate.
  - intros i Hi. rewrite boot_ofd_at by lia. destruct (Z.ltb_spec i 3); [|lia].
    by destruct (i =? 0).
  - by intros i ?%not_elem_of_nil.
  - intros i Hi. rewrite boot_ofd_at by lia. destruct (Z.ltb_spec i 3); [lia|].
    rewrite decide_True by done. done.
  - exists (replicate PIPE_MAX []), (replicate PIPE_MAX []). exact (world_init_wf p W).
  - intros i Hi. rewrite boot_ofd_at by lia. destruct (i <? 3); [by destruct (i =? 0)|done].
  - by intros e ?%not_elem_of_nil.
  - intros id Hid. cbv beta zeta. rewrite !Se. cbn [nothing h_ends].
    change (k_pipes (ofd_init (kern_boot p v))) with pipes_init. rewrite pipes_init_at. done.
  - intros x. rewrite boot_sum; [|done|intros kd fl [E|E]; simpl in E; subst; done].
    change (k_vfs (ofd_init (kern_boot p v))) with v.
    rewrite (occ_nodup x (elements _)) by apply NoDup_elements. cbn [nothing h_handles].
    destruct (decide (x ∈ vfs_handles v)) as [Hx|Hx].
    + rewrite decide_True by (by apply elem_of_elements). done.
    + rewrite decide_False by (by rewrite elem_of_elements). done.
Qed.

Lemma fd_reachable_ok v0 s : fd_reachable v0 s → sys_ok (elements (vfs_handles v0)) s nothing.
Proof using All. induction 1; [by apply boot_ok|by apply fd_exec_ok]. Qed.

(** ** Properties *)

(** C1: Whatever processes open, duplicate, close, fork and exec in whatever
    order, the reference count of a description is the number of descriptor
    slots of all processes that point to it; a description with no slot left is
    free and a slot never points to a free one. *)
Theorem fd_refcounts_exact v0 s i : fd_reachable v0 s → 3 ≤ i < 4096 →
  if decide (kind (ofd_at (s_kern s) i) = OFD_FREE) then slot_refs (s_procs s) i = 0
  else refs (ofd_at (s_kern s) i) = slot_refs (s_procs s) i ∧ 1 ≤ slot_refs (s_procs s) i.
Proof using All.
  intros R Hi. pose proof (ko_refs _ _ _ _ (so_kern _ _ _ (fd_reachable_ok v0 s R)) i Hi) as K.
  cbn [nothing h_ofds] in K. unfold occ in K. cbn [sum_of] in K.
  destruct (decide _); lia.
Qed.

(** The end counts of a pipe are the numbers of descriptions of its read
    and write ends; a pipe exists exactly while one of them does, so end of
    file and a broken pipe are seen when the last description goes. *)
Theorem fd_pipe_ends_exact v0 s id : fd_reachable v0 s → 0 ≤ id < 128 →
  let pi := pipe_at (k_pipes (s_kern s)) id in
  let ends we := sum_of (is_end id we) (k_table (s_kern s)) in
  (used pi = true ↔ 1 ≤ ends false + ends true) ∧
  (used pi = true → readers pi = ends false ∧ writers pi = ends true).
Proof using All.
  intros R Hid pi ends. pose proof (ko_ends _ _ _ _ (so_kern _ _ _ (fd_reachable_ok v0 s R)) id Hid) as K.
  cbv beta zeta in K. cbn [nothing h_ends] in K. unfold occ_end in K. cbn [sum_of] in K.
  fold pi in K. fold (ends false) (ends true) in K. destruct (used pi).
  - split; [split; [lia|done]|lia].
  - split; [|done]. split; [done|lia].
Qed.

(** No file handle leaks and none is closed while in use: beyond the
    handles open at boot, the handles of the VFS are exactly the objects of the
    file descriptions, each of a single one. *)
Theorem fd_handles_exact v0 s x : fd_reachable v0 s →
  sum_of (is_file x) (k_table (s_kern s)) =
    (if decide (x ∈ vfs_handles (k_vfs (s_kern s))) then 1 else 0) -
    (if decide (x ∈ vfs_handles v0) then 1 else 0).
Proof using All.
  intros R. pose proof (ko_files _ _ _ _ (so_kern _ _ _ (fd_reachable_ok v0 s R)) x) as K.
  rewrite (occ_nodup x (elements _)) in K by apply NoDup_elements.
  cbn [nothing h_handles] in K. unfold occ in K. cbn [sum_of] in K.
  destruct (decide (x ∈ vfs_handles v0)) as [Hx|Hx].
  - rewrite (decide_True (P := x ∈ elements (vfs_handles v0))) in K by (by apply elem_of_elements). lia.
  - rewrite (decide_False (P := x ∈ elements (vfs_handles v0))) in K by (by rewrite elem_of_elements). lia.
Qed.
End Boot.

Section Functional.
Context {V : Type} `{VfsLaws V}.

Lemma slot_find_spec (f : fds) m : 0 ≤ m < 64 →
  (slot_find f m = -1 ∧ ∀ x, m ≤ x < 64 → 0 ≤ desc f x) ∨
  (m ≤ slot_find f m < 64 ∧ desc f (slot_find f m) < 0 ∧ ∀ x, m ≤ x < slot_find f m → 0 ≤ desc f x).
Proof.
  intros Hm. unfold slot_find. destruct (Z.ltb_spec m 0); [lia|].
  destruct (for_first _ _ _) as [i|] eqn:E; simpl; [right|left].
  - apply for_first_Some in E as (Hi&Hd&Lo). unfold PROCESS_FD_COUNT in Hi.
    split; [lia|]. split; [by apply Z.ltb_lt|]. intros x Hx. apply Z.ltb_ge. by apply Lo.
  - split; [done|]. rewrite for_first_None in E. intros x Hx. apply Z.ltb_ge. apply E.
    unfold PROCESS_FD_COUNT. lia.
Qed.

(** Duplicating a descriptor picks the lowest free slot from the minimum on
    and makes it refer to the same description, changing no other slot of any
    process; when every such slot is taken it fails with [EMFILE], when the
    descriptor is closed or an argument out of range with [EBADF], and then
    nothing changes. *)
Theorem fd_dup_lowest v0 s c fd m ce : fd_reachable v0 s →
  0 ≤ c < Z.of_nat (length (s_procs s)) →
  let f := proc s c in
  let '(r, s') := fd_dup (Some c) fd m ce s in
  if r <? 0 then s' = s ∧
    (r = - KERR_BADF ∧ (¬ 0 ≤ fd < 64 ∨ ¬ 0 ≤ m < 64 ∨ desc f fd < 0) ∨
     r = - KERR_MFILE ∧ ∀ x, m ≤ x < 64 → 0 ≤ desc f x)
  else m ≤ r < 64 ∧ desc f r < 0 ∧ (∀ x, m ≤ x < r → 0 ≤ desc f x) ∧
    (∀ x, 0 ≤ x < 64 → desc (proc s' c) x = if r =? x then desc f fd else desc f x) ∧
    (∀ p, 0 ≤ p → p ≠ c → proc s' p = proc s p).
Proof using All.
  intros R Hc f. unfold fd_dup. pose proof (in_range_spec fd) as If. pose proof (in_range_spec m) as Im.
  destruct (in_range fd); cbn [negb orb].
  2:{ split; [done|]. left. split; [done|]. left. intros Hx. by apply If in Hx. }
  destruct (in_range m); cbn [negb orb].
  2:{ split; [done|]. left. split; [done|]. right; left. intros Hx. by apply Im in Hx. }
  destruct If as [If _], Im as [Im _]. specialize (If eq_refl). specialize (Im eq_refl). fold f.
  destruct (Z.ltb_spec (desc f fd) 0) as [|Hd]; cbn [orb].
  { split; [done|]. left. split; [done|]. by do 2 right. }
  destruct (slot_find_spec f m Im) as [[E Full]|(Hr&Hn&Lo)].
  { rewrite E. split; [done|]. right. split; [done|exact Full]. }
  destruct (Z.ltb_spec (slot_find f m) 0) as [|_]; [lia|].
  set (r := slot_find f m) in *. destruct (Z.ltb_spec r 0); [lia|].
  split; [done|]. split; [done|]. split; [done|].
  pose proof (so_procs _ _ _ (fd_reachable_ok v0 s R)) as P.
  destruct (pr_len _ P f (proc_elem s c Hc)) as [L _]. split.
  - intros x Hx. rewrite proc_put by done. unfold set_slot, desc at 1. cbn [descriptors].
    change (proc (on_kern (ofd_ref (desc f fd)) s) c) with f.
    rewrite aget_aset; [done|rewrite L; unfold PROCESS_FD_COUNT; lia|lia].
  - intros p Hp Ne. change (proc s p) with (proc (on_kern (ofd_ref (desc f fd)) s) p).
    apply proc_put_ne; [lia|done|congruence].
Qed.

(** When no slot is left for a handle that has got a description,
    [fd_install_handle] fails and has already closed the handle; the caller,
    the system call that opened the file, closes the same number again. *)
Theorem fd_install_full_closes v0 s c x r k : fd_reachable v0 s →
  0 ≤ c < Z.of_nat (length (s_procs s)) → x ∈ vfs_handles (k_vfs (s_kern s)) →
  (∀ fd, 3 ≤ fd < 64 → 0 ≤ desc (proc s c) fd) →
  ofd_create_file x 0 (s_kern s) = (r, k) → 0 ≤ r →
  let '(d, s') := fd_install_handle (Some c) x s in
  d = -1 ∧ x ∉ vfs_handles (k_vfs (s_kern s')).
Proof using All.
  intros R Hc Hx Full E Hr. pose proof (so_kern _ _ _ (fd_reachable_ok v0 s R)) as K.
  destruct (ko_table _ _ _ _ K) as [L I]. unfold fd_install_handle. rewrite E.
  destruct (Z.ltb_spec r 0); [lia|].
  destruct (for_first _ _ 3) as [fd|] eqn:F.
  { apply for_first_Some in F as (Hf&Hn&_). apply Z.ltb_lt in Hn.
    change (PROCESS_FD_COUNT - 3)%nat with 61%nat in Hf.
    assert (0 ≤ desc (proc s c) fd) by (apply Full; lia).
    change (proc (s <| s_kern := k |>) c) with (proc s c) in Hn. lia. }
  split; [done|]. simpl. by apply (release_fresh_file [] (s_kern s) x 0 r k).
Qed.
End Functional.

(** Opening a file never records [O_NONBLOCK] and keeps the creation flag
    [O_TRUNC] as a status flag: the mask of status flags has the bit 01000 where
    [ofd_flags_set] and the reads and writes use 04000. *)
Theorem ofd_status_mask_drops_nonblock {V} `{VfsOps V} (k : kern V) h fl i k' :
  length (k_table k) = OFD_MAX → k_initialized k = true → 0 ≤ i →
  ofd_create_file h fl k = (i, k') →
  Z.land (flags (ofd_at k' i)) OFD_O_NONBLOCK = 0 ∧
  Z.land (flags (ofd_at k' i)) 512 = Z.land fl 512.
Proof.
  intros L I Hi E. unfold ofd_create_file, allocate, ofd_init in E. rewrite I in E. cbn [negb] in E.
  destruct (for_first _ _ _) as [j|] eqn:F; [|by injection E as <- _].
  injection E as <- <-. apply for_first_Some in F as (Hj&_&_).
  unfold OFD_MAX, OFD_CONSOLE_COUNT in Hj.
  rewrite ofd_at_put, Z.eqb_refl by (done || lia). cbn [flags]. rewrite <- !Z.land_assoc.
  split; [|done]. change (Z.land OFD_STATUS_MASK OFD_O_NONBLOCK) with 0. apply Z.land_0_r.
Qed.

(** ** Witnesses: a VFS that hands out fresh numbers *)

#[export] Instance toy_vfs : VfsOps (gset Z) := {|
  vfs_handles v := v;
  vfs_open_flags path fl v := let h := fresh v in if h <? 0 then (-4, v) else (h, {[h]} ∪ v);
  vfs_close h v := (0, v ∖ {[h]});
  vfs_read h n v := (0, [], v);
  vfs_write h d v := (Z.of_nat (length d), v);
  vfs_seek h o w v := (o, v);
  vfs_handle_truncate h n v := (0, v);
  vfs_handle_stat h v := (0, stat_zero, v);
  vfs_handle_path h n v := (-3, []);
|}.
#[export] Instance toy_laws : VfsLaws (gset Z).
Proof.
  split; try done.
  - intros path fl v. simpl. destruct (Z.ltb_spec (fresh v) 0) as [|Hf]; [done|].
    destruct (Z.ltb_spec (fresh v) 0); [lia|]. split; [apply is_fresh|done].
  - intros h v Hh. simpl. apply set_eq. intros x. rewrite elem_of_difference, elem_of_singleton.
    split; [by intros [? _]|]. intros Hx. split; [done|]. by intros ->.
Qed.

(** One process with a pipe, its read end duplicated, and an open file. *)
Definition demo_ops : list fd_op :=
  [OpSpawn; OpPipe (Some 0) 0; OpDup (Some 0) 3 10 false; OpOpen (Some 0) true [47] 0].
Definition demo_sys : sys (gset Z) :=
  foldl (λ s op, fd_exec op s) (sys_boot demo_boot_64 (∅ : gset Z)) demo_ops.

Lemma demo_procs : length (s_procs demo_sys) = 1%nat.
Proof. vm_compute. reflexivity. Qed.

Lemma demo_sys_reachable : fd_reachable (∅ : gset Z) demo_sys.
Proof.
  unfold demo_sys, demo_ops. cbn [foldl].
  apply fd_step; [apply fd_step; [apply fd_step; [apply fd_step|]|]|].
  - apply fd_boot. exact demo_boot_64_wf.
  - unfold fd_op_ok. vm_compute. reflexivity.
  - unfold fd_op_ok, cur_ok. split; [lia|vm_compute; reflexivity].
  - unfold fd_op_ok, cur_ok. split; [lia|vm_compute; reflexivity].
  - unfold fd_op_ok, cur_ok. split; [lia|vm_compute; reflexivity].
Qed.

Lemma demo_facts : kind (ofd_at (s_kern demo_sys) 3) = OFD_PIPE ∧
  slot_refs (s_procs demo_sys) 3 = 2 ∧
  used (pipe_at (k_pipes (s_kern demo_sys)) 0) = true ∧
  sum_of (is_end 0 false) (k_table (s_kern demo_sys)) = 1 ∧
  desc (proc demo_sys 0) 10 = 3.
Proof. vm_compute. done. Qed.

Lemma fd_refcounts_exact_witness : refs (ofd_at (s_kern demo_sys) 3) = 2.
Proof.
  assert (3 ≤ 3 < 4096) as Hi by lia.
  pose proof (fd_refcounts_exact (∅ : gset Z) demo_sys 3 demo_sys_reachable Hi) as T.
  destruct demo_facts as (Ek&Er&_). rewrite Ek, Er in T. exact (proj1 T).
Defined.

Lemma fd_pipe_ends_exact_witness : readers (pipe_at (k_pipes (s_kern demo_sys)) 0) = 1.
Proof.
  assert (0 ≤ 0 < 128) as Hi by lia.
  pose proof (fd_pipe_ends_exact (∅ : gset Z) demo_sys 0 demo_sys_reachable Hi) as [_ T].
  destruct demo_facts as (_&_&Eu&Es&_). rewrite <- Es. exact (proj1 (T Eu)).
Defined.

Lemma fd_handles_exact_witness :
  sum_of (is_file 0) (k_table (s_kern demo_sys)) =
    if decide (0 ∈ vfs_handles (k_vfs (s_kern demo_sys))) then 1 else 0.
Proof.
  rewrite (fd_handles_exact (∅ : gset Z) demo_sys 0 demo_sys_reachable).
  apply Z.sub_0_r.
Defined.

Lemma fd_dup_lowest_witness : (fd_dup (Some 0) 3 10 true demo_sys).1 = 11 ∧
  desc (proc (fd_dup (Some 0) 3 10 true demo_sys).2 0) 11 = desc (proc demo_sys 0) 3.
Proof.
  assert ((fd_dup (Some 0) 3 10 true demo_sys).1 = 11) as E by (vm_compute; reflexivity).
  split; [exact E|].
  assert (0 ≤ 0 < Z.of_nat (length (s_procs demo_sys))) as Hc by (rewrite demo_procs; lia).
  pose proof (fd_dup_lowest (∅ : gset Z) demo_sys 0 3 10 true demo_sys_reachable Hc) as T.
  destruct (fd_dup (Some 0) 3 10 true demo_sys) as [r s']. cbn [fst snd] in *. rewrite E in T.
  destruct T as (_&_&_&T&_). rewrite (T 11) by lia. reflexivity.
Defined.

Lemma length_fd_dup {V} `{VfsOps V} cur fd m ce (s : sys V) :
  length (s_procs (fd_dup cur fd m ce s).2) = length (s_procs s).
Proof.
  unfold fd_dup. destruct cur as [c|]; [|done]. destruct (_ || _); [done|].
  destruct (_ || _); [done|]. apply length_aset.
Qed.

(** A process whose slots are all taken, with a handle open since boot. *)
Fixpoint dup_times (n : nat) (s : sys (gset Z)) : sys (gset Z) :=
  match n with O => s | S n' => dup_times n' (fd_exec (OpDup (Some 0) 0 0 false) s) end.
Definition full_sys : sys (gset Z) :=
  dup_times 61 (fd_exec OpSpawn (sys_boot demo_boot_64 ({[7]} : gset Z))).

Lemma dup_times_reachable v n s : fd_reachable v s → length (s_procs s) = 1%nat →
  fd_reachable v (dup_times n s) ∧ length (s_procs (dup_times n s)) = 1%nat.
Proof.
  revert s; induction n as [|n IH]; intros s R L; [done|]. apply IH.
  - apply fd_step; [done|]. unfold fd_op_ok, cur_ok. rewrite L. lia.
  - unfold fd_exec. by rewrite length_fd_dup.
Qed.

Lemma full_sys_reachable : fd_reachable ({[7]} : gset Z) full_sys ∧ length (s_procs full_sys) = 1%nat.
Proof.
  apply dup_times_reachable; [|reflexivity]. apply fd_step; [apply fd_boot; exact demo_boot_64_wf|].
  unfold fd_op_ok. simpl. lia.
Qed.

Lemma full_sys_slots fd : 3 ≤ fd < 64 → 0 ≤ desc (proc full_sys 0) fd.
Proof.
  assert (forallb (λ fd, 0 <=? desc (proc full_sys 0) fd) (seqZ 3 61) = true) as E
    by (vm_compute; reflexivity).
  rewrite forallb_forall in E. intros Hf. apply Z.leb_le. apply E.
  apply list_elem_of_In, elem_of_seqZ. lia.
Qed.

Lemma fd_install_full_closes_witness :
  7 ∈ vfs_handles (k_vfs (s_kern full_sys)) ∧
  (fd_install_handle (Some 0) 7 full_sys).1 = -1 ∧
  7 ∉ vfs_handles (k_vfs (s_kern (fd_install_handle (Some 0) 7 full_sys).2)).
Proof.
  destruct full_sys_reachable as [R L].
  assert (7 ∈ vfs_handles (k_vfs (s_kern full_sys))) as H7.
  { assert (k_vfs (s_kern full_sys) = {[7]}) as E by (vm_compute; reflexivity).
    rewrite E. change (7 ∈ ({[7]} : gset Z)). apply elem_of_singleton_2. reflexivity. }
  split; [exact H7|].
  assert (0 ≤ 0 < Z.of_nat (length (s_procs full_sys))) as Hc by (rewrite L; lia).
  assert (0 ≤ (ofd_create_file 7 0 (s_kern full_sys)).1) as Hr by (vm_compute; discriminate).
  destruct (ofd_create_file 7 0 (s_kern full_sys)) as [r k] eqn:E.
  pose proof (fd_install_full_closes ({[7]} : gset Z) full_sys 0 7 r k R Hc H7 full_sys_slots E Hr) as T.
  destruct (fd_install_handle (Some 0) 7 full_sys) as [d s']. exact T.
Defined.

Lemma ofd_status_mask_drops_nonblock_witness :
  Z.land (flags (ofd_at (ofd_create_file 9 2561 (s_kern demo_sys)).2
    (ofd_create_file 9 2561 (s_kern demo_sys)).1)) OFD_O_NONBLOCK = 0.
Proof.
  destruct (ko_table _ _ _ _ (so_kern _ _ _ (fd_reachable_ok (∅ : gset Z) demo_sys demo_sys_reachable)))
    as [L I].
  assert (0 ≤ (ofd_create_file 9 2561 (s_kern demo_sys)).1) as Hr by (vm_compute; discriminate).
  destruct (ofd_create_file 9 2561 (s_kern demo_sys)) as [i k'] eqn:E. cbn [fst snd] in *.
  exact (proj1 (ofd_status_mask_drops_nonblock (s_kern demo_sys) 9 2561 i k' L I Hr E)).
Defined.
