(* ===== verification/Ipc.v ===== *)
(** * Mailboxes (src/src/kernel/ipc/ipc.c)

    Messages between processes: each process has at most one mailbox, a queue
    of at most 64 messages; the mailbox and the messages are slab objects.  The
    file's functions hold [ipc_lock] (and [ipc_send] the process table lock)
    while they touch a mailbox, so each of them, and each round of the receive
    loop, is one step.  The process table is a map from process ids; the linked
    list of a mailbox is the list of its messages, oldest first. *)

From S2P Require Import Prelude Pmm Oom Slab.

(** [src/kernel/ipc/ipc.h:9-9] IPC_MAX_PAYLOAD *)
Definition IPC_MAX_PAYLOAD : Z := 2048.
(** [src/kernel/ipc/ipc.h:10-10] IPC_MAX_DEPTH *)
Definition IPC_MAX_DEPTH : Z := 64.
(** [src/kernel/ipc/ipc.h:11-11] IPC_WAIT_MAX_MS *)
Definition IPC_WAIT_MAX_MS : Z := 60000.
(** [src/kernel/ipc/ipc.h:13-13] IPC_ERR_INVALID *)
Definition IPC_ERR_INVALID : Z := -1.
(** [src/kernel/ipc/ipc.h:14-14] IPC_ERR_NO_PROCESS *)
Definition IPC_ERR_NO_PROCESS : Z := -2.
(** [src/kernel/ipc/ipc.h:15-15] IPC_ERR_EMPTY *)
Definition IPC_ERR_EMPTY : Z := -2.
(** [src/kernel/ipc/ipc.h:16-16] IPC_ERR_FULL *)
Definition IPC_ERR_FULL : Z := -3.
(** [src/kernel/ipc/ipc.h:17-17] IPC_ERR_TOO_BIG *)
Definition IPC_ERR_TOO_BIG : Z := -4.
(** [src/kernel/ipc/ipc.h:18-18] IPC_ERR_TOO_SMALL *)
Definition IPC_ERR_TOO_SMALL : Z := -3.

(** [msg_addr] is the address of the slab object the message is.
    [src/kernel/ipc/ipc.h:20-26] ipc_msg *)
Record ipc_msg := IpcMsg { msg_addr : Z; msg_from : Z; msg_size : Z; msg_data : list Z }.
(** [src/kernel/ipc/ipc.h:28-33] ipc_mbox *)
Record ipc_mbox := IpcMbox { box_addr : Z; box_queue : list ipc_msg; box_count : Z }.
#[export] Instance eta_mbox : Eta ipc_mbox := λ b,
  IpcMbox (box_addr b) (box_queue b) (box_count b).

(** The sizes of the C structures, in bytes. *)
Definition sizeof_ipc_msg : Z := 16.
Definition sizeof_ipc_mbox : Z := 24.

(** [src/kernel/process/process.h:27-34] process_state *)
Inductive process_state :=
| PROCESS_FREE | PROCESS_READY | PROCESS_RUNNING | PROCESS_EXITED | PROCESS_LOADING.
#[export] Instance process_state_eq_dec : EqDecision process_state.
Proof. solve_decision. Defined.

(** What the mailboxes need to know of a process. *)
Record iproc := IProc { ip_state : process_state; ipc_mailbox : option ipc_mbox }.
#[export] Instance eta_iproc : Eta iproc := λ p, IProc (ip_state p) (ipc_mailbox p).

Record ipc := Ipc { i_procs : gmap Z iproc; i_slab : slab; i_pmm : pmm }.
#[export] Instance eta_ipc : Eta ipc := λ w, Ipc (i_procs w) (i_slab w) (i_pmm w).

(** [src/kernel/process/process.c:245-254] process_find_by_pid *)
Definition process_lookup_by_pid (pid : Z) (w : ipc) : option iproc :=
  if pid =? 0 then None else
  match i_procs w !! pid with
  | Some p => if decide (ip_state p = PROCESS_FREE) then None else Some p
  | None => None
  end.

Definition set_mailbox (pid : Z) (p : iproc) (b : option ipc_mbox) (w : ipc) : ipc :=
  w <| i_procs := <[pid := p <| ipc_mailbox := b |>]> (i_procs w) |>.

(** [src/kernel/ipc/ipc.c:12-26] mbox_get *)
Definition mbox_get (b : option ipc_mbox) (create : bool) (s : slab) (p : pmm)
    : option ipc_mbox * slab * pmm :=
  match b with
  | Some _ => (b, s, p)
  | None =>
      if create then
        let '(a, s, p) := oom_slab_alloc sizeof_ipc_mbox s p in
        if a =? 0 then (None, s, p) else (Some (IpcMbox a [] 0), s, p)
      else (None, s, p)
  end.

(** [cap] is the answer of [process_has_capability], [self] the sender
    (absent in a kernel thread), [null] tells that the data pointer is null.
    The reschedule that follows a successful send is left to the scheduler.
    [src/kernel/ipc/ipc.c:49-100] ipc_send *)
Definition ipc_send (cap : bool) (self : option Z) (dest_pid : Z) (null : bool) (data : list Z)
    (w : ipc) : Z * ipc :=
  let size := Z.of_nat (length data) in
  if (dest_pid =? 0) || null || (size =? 0) || (IPC_MAX_PAYLOAD <? size)
  then (if IPC_MAX_PAYLOAD <? size then IPC_ERR_TOO_BIG else IPC_ERR_INVALID, w) else
  if negb cap then (IPC_ERR_INVALID, w) else
  match process_lookup_by_pid dest_pid w with
  | None => (IPC_ERR_NO_PROCESS, w)
  | Some target =>
      if decide (ip_state target = PROCESS_EXITED) then (IPC_ERR_NO_PROCESS, w) else
      let '(box, s, p) := mbox_get (ipc_mailbox target) true (i_slab w) (i_pmm w) in
      let w := set_mailbox dest_pid target box w <| i_slab := s |> <| i_pmm := p |> in
      match box with
      | None => (IPC_ERR_NO_PROCESS, w)
      | Some b =>
          if IPC_MAX_DEPTH <=? box_count b then (IPC_ERR_FULL, w) else
          let '(a, s, p) := oom_slab_alloc (sizeof_ipc_msg + size) (i_slab w) (i_pmm w) in
          let w := w <| i_slab := s |> <| i_pmm := p |> in
          if a =? 0 then (IPC_ERR_FULL, w) else
          let msg := IpcMsg a (default 0 self) size data in
          let b := b <| box_queue := box_queue b ++ [msg] |> <| box_count := u32 (box_count b + 1) |> in
          (0, set_mailbox dest_pid target (Some b) w)
      end
  end.

(** The result, the sender and the bytes stored, and the state.
    [src/kernel/ipc/ipc.c:28-47] recv_locked *)
Definition recv_locked (self : Z) (capacity : Z) (w : ipc) : Z * Z * list Z * ipc :=
  match i_procs w !! self with
  | Some p =>
      match ipc_mailbox p with
      | Some b =>
          match box_queue b with
          | msg :: rest =>
              if capacity <? msg_size msg then (IPC_ERR_TOO_SMALL, 0, [], w) else
              let b := b <| box_queue := rest |> <| box_count := u32 (box_count b - 1) |> in
              let s := oom_slab_free (msg_addr msg) (sizeof_ipc_msg + msg_size msg) (i_slab w) in
              (i32 (msg_size msg), msg_from msg, msg_data msg,
               set_mailbox self p (Some b) w <| i_slab := s |>)
          | [] => (IPC_ERR_EMPTY, 0, [], w)
          end
      | None => (IPC_ERR_EMPTY, 0, [], w)
      end
  | None => (IPC_ERR_EMPTY, 0, [], w)
  end.

(** The receive loop: each round finds the state and the clock of the schedule;
    [None] is a call still waiting when it ends.
    [src/kernel/ipc/ipc.c:117-126] ipc_recv_any *)
Fixpoint recv_loop (self capacity wait_ms deadline : Z) (sched : list (ipc * Z))
    : option (Z * Z * list Z) :=
  match sched with
  | [] => None
  | (w, now) :: sched' =>
      let '(rc, from, data, _) := recv_locked self capacity w in
      if negb (rc =? IPC_ERR_EMPTY) then Some (rc, from, data)
      else if (wait_ms =? 0) || (deadline <=? now) then Some (IPC_ERR_EMPTY, 0, [])
      else recv_loop self capacity wait_ms deadline sched'
  end.

(** [start] is the clock when the call begins.
    [src/kernel/ipc/ipc.c:102-127] ipc_recv_any *)
Definition ipc_recv_any (cap : bool) (self : option Z) (null : bool) (capacity wait_ms start : Z)
    (sched : list (ipc * Z)) : option (Z * Z * list Z) :=
  if null || (capacity =? 0) then Some (IPC_ERR_INVALID, 0, []) else
  if negb cap then Some (IPC_ERR_INVALID, 0, []) else
  match self with
  | None => Some (IPC_ERR_INVALID, 0, [])
  | Some pid =>
      let wait_ms := if IPC_WAIT_MAX_MS <? wait_ms then IPC_WAIT_MAX_MS else wait_ms in
      recv_loop pid capacity wait_ms (u64 (start + wait_ms)) sched
  end.

(** [src/kernel/ipc/ipc.c:129-132] ipc_recv *)
Definition ipc_recv (cap : bool) (self : option Z) (null : bool) (capacity wait_ms start : Z)
    (sched : list (ipc * Z)) : option (Z * list Z) :=
  '(rc, _, data) ← ipc_recv_any cap self null capacity wait_ms start sched; Some (rc, data).
(** [src/kernel/ipc/ipc.c:134-138] ipc_recv_from *)
Definition ipc_recv_from (cap : bool) (self : option Z) (null : bool) (capacity wait_ms start : Z)
    (sched : list (ipc * Z)) : option (Z * Z * list Z) :=
  ipc_recv_any cap self null capacity wait_ms start sched.

(** [src/kernel/ipc/ipc.c:152-157] ipc_cleanup *)
Fixpoint free_messages (q : list ipc_msg) (s : slab) : slab :=
  match q with
  | [] => s
  | msg :: q' => free_messages q' (oom_slab_free (msg_addr msg) (sizeof_ipc_msg + msg_size msg) s)
  end.
(** [src/kernel/ipc/ipc.c:140-159] ipc_cleanup *)
Definition ipc_cleanup (pid : Z) (w : ipc) : ipc :=
  match i_procs w !! pid with
  | Some p =>
      match ipc_mailbox p with
      | Some b =>
          let w := set_mailbox pid p None w in
          let s := free_messages (box_queue b) (i_slab w) in
          w <| i_slab := oom_slab_free (box_addr b) sizeof_ipc_mbox s |>
      | None => w
      end
  | None => w
  end.

(** ** Invariant *)

(** The slab objects a mailbox is made of: size class and address. *)
Definition msg_object (m : ipc_msg) : Z * Z :=
  (oom_slab_class (sizeof_ipc_msg + msg_size m), msg_addr m).
Definition objects (b : option ipc_mbox) : list (Z * Z) :=
  match b with
  | Some b => (oom_slab_class sizeof_ipc_mbox, box_addr b) :: (msg_object <$> box_queue b)
  | None => []
  end.

Definition msg_ok (m : ipc_msg) : Prop :=
  msg_size m = Z.of_nat (length (msg_data m)) ∧ 0 < msg_size m ≤ IPC_MAX_PAYLOAD.

Record box_ok (b : option ipc_mbox) : Prop := {
  bo_nodup : NoDup (objects b);
  bo_count : ∀ x, b = Some x → box_count x = Z.of_nat (length (box_queue x)) ∧
                               box_count x ≤ IPC_MAX_DEPTH;
  bo_msgs : ∀ x m, b = Some x → m ∈ box_queue x → msg_ok m;
}.

Definition live (w : ipc) (o : Z * Z) : Prop := slab_live (i_slab w) o.1 o.2.
Definition mailbox_of (w : ipc) (pid : Z) : option ipc_mbox :=
  match i_procs w !! pid with Some p => ipc_mailbox p | None => None end.

(** [other] are the live objects of the other clients of the slab. *)
Record ipc_wf (other : Z * Z → Prop) (w : ipc) : Prop := {
  iw_slab : slab_wf (i_slab w) (i_pmm w);
  iw_box : ∀ pid, box_ok (mailbox_of w pid);
  iw_live : ∀ o, 0 ≤ o.1 < 8 → live w o ↔ other o ∨ ∃ pid, o ∈ objects (mailbox_of w pid);
  iw_apart : ∀ i j o, i ≠ j → o ∈ objects (mailbox_of w i) → o ∉ objects (mailbox_of w j);
  iw_other : ∀ pid o, o ∈ objects (mailbox_of w pid) → ¬ other o;
}.

Lemma objects_class b o : box_ok b → o ∈ objects b → 0 ≤ o.1 < 8.
Proof.
  intros W. destruct b as [b|]; simpl; [|by intros ?%not_elem_of_nil].
  intros [->|Ho]%elem_of_cons; [done|]. apply list_elem_of_fmap in Ho as (m&->&Hm).
  destruct (bo_msgs _ W b m eq_refl Hm) as [_ Hs]. unfold IPC_MAX_PAYLOAD in Hs. simpl.
  unfold sizeof_ipc_msg. destruct (oom_slab_class_spec (16 + msg_size m)) as [[_ ?]|(?&_)]; lia.
Qed.

Lemma mailbox_of_set pid p b w s q j : i_procs w !! pid = Some p →
  mailbox_of (Ipc (<[pid := p <| ipc_mailbox := b |>]> (i_procs w)) s q) j =
    if decide (pid = j) then b else mailbox_of w j.
Proof.
  intros _. unfold mailbox_of. simpl. destruct (decide (pid = j)) as [<-|Ne].
  - by rewrite lookup_insert_eq.
  - by rewrite lookup_insert_ne.
Qed.

(** Replacing one mailbox, with the objects it gives back and takes. *)
Lemma ipc_wf_replace other w pid p b s q :
  ipc_wf other w → i_procs w !! pid = Some p → slab_wf s q → box_ok b →
  (∀ o, o ∈ objects b → o ∈ objects (ipc_mailbox p) ∨ ¬ live w o) →
  (∀ o, 0 ≤ o.1 < 8 → slab_live s o.1 o.2 ↔
     (live w o ∧ o ∉ objects (ipc_mailbox p)) ∨ o ∈ objects b) →
  ipc_wf other (Ipc (<[pid := p <| ipc_mailbox := b |>]> (i_procs w)) s q).
Proof.
  intros W Hp Ws Wb New Live.
  assert (∀ j, mailbox_of (Ipc (<[pid := p <| ipc_mailbox := b |>]> (i_procs w)) s q) j =
    if decide (pid = j) then b else mailbox_of w j) as Mb by (intros; by apply mailbox_of_set).
  assert (mailbox_of w pid = ipc_mailbox p) as Mp by (unfold mailbox_of; by rewrite Hp).
  assert (∀ j o, o ∈ objects (mailbox_of w j) → live w o) as Lv.
  { intros j o Ho. apply (iw_live _ _ W); [by eapply objects_class, Ho; apply W|]. right. by exists j. }
  assert (∀ j o, pid ≠ j → o ∈ objects b → o ∉ objects (mailbox_of w j)) as Ap.
  { intros j o Ne Hb Hj. destruct (New o Hb) as [Hold|Hn]; [|by apply Hn, (Lv j)].
    rewrite <- Mp in Hold. by apply (iw_apart _ _ W pid j o). }
  split; simpl; [done|..].
  - intros j. rewrite Mb. destruct (decide _); [done|apply W].
  - intros o Ho. unfold live. simpl. rewrite Live by done. rewrite (iw_live _ _ W) by done. split.
    + intros [[[Hot|(j&Hj)] Nin]|Hb]; [by left|right; exists j|right; exists pid].
      * rewrite Mb. destruct (decide (pid = j)) as [<-|]; [by rewrite Mp in Hj|done].
      * rewrite Mb. by rewrite decide_True.
    + intros [Hot|(j&Hj)].
      * left. split; [by left|]. rewrite <- Mp. intros Hin. by apply (iw_other _ _ W pid o).
      * rewrite Mb in Hj. destruct (decide (pid = j)) as [<-|Ne]; [by right|left].
        split; [right; by exists j|]. rewrite <- Mp. apply (iw_apart _ _ W j pid); [congruence|done].
  - intros i j o Ne. rewrite !Mb. destruct (decide (pid = i)) as [<-|], (decide (pid = j)) as [<-|].
    + done.
    + by apply Ap.
    + intros Hi Hb. by apply (Ap i o).
    + by apply (iw_apart _ _ W).
  - intros j o. rewrite Mb. destruct (decide (pid = j)) as [<-|]; [|apply (iw_other _ _ W)].
    intros Hb Hot. destruct (New o Hb) as [Hold|Hn].
    + rewrite <- Mp in Hold. by apply (iw_other _ _ W pid o).
    + apply Hn. apply (iw_live _ _ W); [by eapply objects_class|by left].
Qed.

(** A step of the slab that moves no object. *)
Lemma ipc_wf_slab other w s q :
  ipc_wf other w → slab_wf s q → (∀ o, 0 ≤ o.1 < 8 → slab_live s o.1 o.2 ↔ live w o) →
  ipc_wf other (Ipc (i_procs w) s q).
Proof.
  intros W Ws L. split; simpl; try apply W; [done|]. intros o Ho. unfold live. simpl.
  rewrite L by done. by apply (iw_live _ _ W).
Qed.

Lemma set_same_mailbox w pid p : i_procs w !! pid = Some p →
  <[pid := p <| ipc_mailbox := ipc_mailbox p |>]> (i_procs w) = i_procs w.
Proof. intros Hp. apply insert_id. rewrite Hp. by destruct p. Qed.

(** [slab_alloc_spec] on pairs. *)
Lemma alloc_objects size s p : slab_wf s p → 0 < size →
  let '(a, s', p') := oom_slab_alloc size s p in
  slab_wf s' p' ∧
  if a =? 0 then ∀ o, 0 ≤ o.1 < 8 → slab_live s' o.1 o.2 ↔ slab_live s o.1 o.2
  else let n := (oom_slab_class size, a) in
    0 ≤ n.1 < 8 ∧ ¬ slab_live s n.1 n.2 ∧
    ∀ o, 0 ≤ o.1 < 8 → slab_live s' o.1 o.2 ↔ slab_live s o.1 o.2 ∨ o = n.
Proof.
  intros W Hs. pose proof (slab_alloc_spec size s p W) as Sp.
  destruct (oom_slab_alloc size s p) as [[a s'] p']. destruct Sp as [W' [[-> L]|(Hc&Hz&Nl&L)]].
  - split; [done|]. intros o Ho. by apply L.
  - split; [done|]. destruct (Z.eqb_spec a 0) as [->|Ha].
    + exfalso. assert (slab_live s' (oom_slab_class size) 0) as Lv by (apply L; [done|by right]).
      by eapply slab_live_nonzero.
    + split; [done|]. split; [done|]. intros o Ho. rewrite L by done. simpl.
      destruct o as [k c]. simpl. split.
      * intros [?|[-> ->]]; [by left|by right].
      * intros [?|[= -> ->]]; [by left|by right].
Qed.

Lemma free_objects size s p a : slab_wf s p → 0 < size ≤ 4096 →
  let n := (oom_slab_class size, a) in slab_live s n.1 n.2 →
  slab_wf (oom_slab_free a size s) p ∧
  ∀ o, 0 ≤ o.1 < 8 → slab_live (oom_slab_free a size s) o.1 o.2 ↔ slab_live s o.1 o.2 ∧ o ≠ n.
Proof.
  intros W Hs n L. destruct (oom_slab_class_spec size) as [[_ ?]|(Hc&_&_)]; [lia|].
  assert (a ≠ 0) as Ha by (intros ->; by eapply slab_live_nonzero).
  destruct (slab_free_spec size s p a W ltac:(lia) Ha Hc L) as [W' L'].
  split; [done|]. intros [k c] Ho. rewrite L' by done. simpl. unfold n.
  split; intros [? Ne]; (split; [done|]).
  - intros [= -> ->]. by apply Ne.
  - intros [-> ->]. by apply Ne.
Qed.

(** ** The abstract view: a queue of messages per process *)

Definition queue_of (b : option ipc_mbox) : list (Z * list Z) :=
  match b with Some b => (λ m, (msg_from m, msg_data m)) <$> box_queue b | None => [] end.
Definition queues (w : ipc) (pid : Z) : list (Z * list Z) := queue_of (mailbox_of w pid).

Lemma objects_live other w pid o : ipc_wf other w → o ∈ objects (mailbox_of w pid) → live w o.
Proof.
  intros W Ho. apply (iw_live _ _ W); [by eapply objects_class, Ho; apply W|]. right. by exists pid.
Qed.

(** A mailbox that exists or has just been made. *)
Lemma mbox_get_spec b s p : box_ok b → slab_wf s p → (∀ o, o ∈ objects b → slab_live s o.1 o.2) →
  let '(b', s', p') := mbox_get b true s p in
  slab_wf s' p' ∧ box_ok b' ∧ queue_of b' = queue_of b ∧
  (∀ o, o ∈ objects b' → o ∈ objects b ∨ ¬ slab_live s o.1 o.2) ∧
  (∀ o, 0 ≤ o.1 < 8 → slab_live s' o.1 o.2 ↔
     (slab_live s o.1 o.2 ∧ o ∉ objects b) ∨ o ∈ objects b').
Proof.
  intros Wb Ws Lv. unfold mbox_get. destruct b as [b|].
  { split; [done|]. split; [done|]. split; [done|]. split; [by left|].
    intros o Ho. destruct (decide (o ∈ objects (Some b))) as [Hin|]; [|tauto].
    pose proof (Lv o Hin). tauto. }
  pose proof (alloc_objects sizeof_ipc_mbox s p Ws ltac:(done)) as A.
  destruct (oom_slab_alloc sizeof_ipc_mbox s p) as [[a s'] p']. destruct A as [Ws' A].
  destruct (a =? 0).
  - split; [done|]. split; [done|]. split; [done|]. split; [by intros o ?%not_elem_of_nil|].
    intros o Ho. rewrite A by done. simpl. split; [intros ?; left; split; [done|apply not_elem_of_nil]|].
    by intros [[? _]|?%not_elem_of_nil].
  - destruct A as (Hc&Nl&L). split; [done|]. split.
    { split; [apply NoDup_singleton|by intros x [= <-]|by intros x m [= <-] ?%not_elem_of_nil]. }
    split; [done|]. simpl. split.
    + intros o [->|?%not_elem_of_nil]%elem_of_cons; [by right|done].
    + intros o Ho. rewrite L by done. split.
      * intros [?|E]; [left; split; [done|apply not_elem_of_nil]|right]. rewrite E. mem.
      * intros [[? _]|[E|?%not_elem_of_nil]%elem_of_cons]; [by left|by right|done].
Qed.

(** A message appended to a mailbox. *)
Lemma box_ok_append b m : box_ok (Some b) → box_count b < IPC_MAX_DEPTH → msg_ok m →
  msg_object m ∉ objects (Some b) →
  box_ok (Some (b <| box_queue := box_queue b ++ [m] |> <| box_count := u32 (box_count b + 1) |>)) ∧
  ∀ o, o ∈ objects (Some (b <| box_queue := box_queue b ++ [m] |>
                             <| box_count := u32 (box_count b + 1) |>)) ↔
       o ∈ objects (Some b) ∨ o = msg_object m.
Proof.
  intros W Hd Hm Nin. destruct (bo_count _ W b eq_refl) as [Hc Hle].
  assert (∀ o, o ∈ objects (Some (b <| box_queue := box_queue b ++ [m] |>
                             <| box_count := u32 (box_count b + 1) |>)) ↔
       o ∈ objects (Some b) ∨ o = msg_object m) as E.
  { intros o. simpl. rewrite fmap_app, !elem_of_cons, elem_of_app. simpl.
    rewrite elem_of_cons. pose proof (not_elem_of_nil o). tauto. }
  split; [|done]. split.
  - pose proof (bo_nodup _ W) as N. simpl in *. rewrite fmap_app. rewrite app_comm_cons.
    apply NoDup_app. split; [done|]. split; [|apply NoDup_singleton].
    intros o Ho [->|?%not_elem_of_nil]%elem_of_cons; done.
  - intros x [= <-]. simpl. unfold IPC_MAX_DEPTH in *. rewrite u32_small by lia.
    rewrite length_app. simpl. lia.
  - intros x y [= <-]. simpl. intros [Hy|[->|?%not_elem_of_nil]%elem_of_cons]%elem_of_app; [|done|done].
    by apply (bo_msgs _ W b).
Qed.

Lemma queues_set w pid p b s q j : i_procs w !! pid = Some p →
  queues (Ipc (<[pid := p <| ipc_mailbox := b |>]> (i_procs w)) s q) j =
    if decide (pid = j) then queue_of b else queues w j.
Proof. intros Hp. unfold queues. rewrite (mailbox_of_set pid p) by done. by destruct (decide _). Qed.

Lemma mailbox_of_eq w pid p : i_procs w !! pid = Some p → mailbox_of w pid = ipc_mailbox p.
Proof. intros Hp. unfold mailbox_of. by rewrite Hp. Qed.

Lemma ipc_send_spec other cap self dest null data w : ipc_wf other w →
  let '(r, w') := ipc_send cap self dest null data w in
  ipc_wf other w' ∧
  ((r = 0 ∧ data ≠ [] ∧ ∀ j, queues w' j = queues w j ++ if decide (dest = j) then [(default 0 self, data)] else []) ∨
   (r ≠ 0 ∧ ∀ j, queues w' j = queues w j)).
Proof.
  intros W. unfold ipc_send. destruct (_ || _) eqn:G.
  { split; [done|]. right. split; [by destruct (_ <? _)|done]. }
  zify_bool. destruct cap; cbn [negb]; [|by split; [|right]].
  unfold process_lookup_by_pid. destruct (Z.eqb_spec dest 0); [by split; [|right]|].
  destruct (i_procs w !! dest) as [t|] eqn:Ht; [|by split; [|right]].
  destruct (decide (ip_state t = PROCESS_FREE)); [by split; [|right]|].
  destruct (decide (ip_state t = PROCESS_EXITED)); [by split; [|right]|].
  pose proof (mailbox_of_eq w dest t Ht) as Mt.
  assert (box_ok (ipc_mailbox t)) as Wb by (rewrite <- Mt; apply W).
  pose proof (mbox_get_spec (ipc_mailbox t) (i_slab w) (i_pmm w) Wb (iw_slab _ _ W)) as M.
  destruct (mbox_get (ipc_mailbox t) true (i_slab w) (i_pmm w)) as [[box s] p].
  destruct M as (Ws1&Wb1&Q1&New1&Live1).
  { intros o Ho. rewrite <- Mt in Ho. by apply (objects_live other w dest). }
  set (w1 := Ipc (<[dest := t <| ipc_mailbox := box |>]> (i_procs w)) s p).
  assert (set_mailbox dest t box w <| i_slab := s |> <| i_pmm := p |> = w1) as -> by done.
  assert (ipc_wf other w1) as W1 by (by apply ipc_wf_replace).
  assert (∀ j, queues w1 j = queues w j) as Qw1.
  { intros j. unfold w1. rewrite queues_set by done. destruct (decide (dest = j)) as [<-|]; [|done].
    rewrite Q1. unfold queues. by rewrite Mt. }
  destruct box as [b|]; [|by split; [|right]].
  destruct (Z.leb_spec IPC_MAX_DEPTH (box_count b)); [by split; [|right]|].
  set (size := Z.of_nat (length data)) in *.
  pose proof (alloc_objects (sizeof_ipc_msg + size) s p Ws1) as A.
  change (i_slab w1) with s. change (i_pmm w1) with p.
  destruct (oom_slab_alloc (sizeof_ipc_msg + size) s p) as [[a s2] p2].
  destruct A as [Ws2 A]; [unfold sizeof_ipc_msg; lia|].
  destruct (Z.eqb_spec a 0) as [->|Ha].
  { split; [|by right]. apply (ipc_wf_slab other w1); done. }
  destruct A as (Hc&Nl&L). cbv zeta in *.
  set (m := IpcMsg a (default 0 self) size data).
  change (oom_slab_class (sizeof_ipc_msg + size), a) with (msg_object m) in *.
  assert (i_procs w1 !! dest = Some (t <| ipc_mailbox := Some b |>)) as Ht1.
  { unfold w1. simpl. apply lookup_insert_eq. }
  assert (data ≠ []) as Hd by (intros ->; done).
  destruct (box_ok_append b m Wb1) as [Wb2 Ob]; [done| | |].
  { split; [done|]. simpl. unfold IPC_MAX_PAYLOAD in *. lia. }
  { intros Hin. apply Nl. apply (objects_live other w1 dest); [done|].
    by rewrite (mailbox_of_eq w1 dest _ Ht1). }
  set (b2 := b <| box_queue := _ |> <| box_count := _ |>) in *.
  match goal with |- ipc_wf other ?x ∧ _ =>
    assert (x = Ipc (<[dest := (t <| ipc_mailbox := Some b |>) <| ipc_mailbox := Some b2 |>]> (i_procs w1))
                    s2 p2) as -> end.
  { unfold w1, set_mailbox. simpl. unfold set_field. simpl. by rewrite insert_insert_eq. }
  split.
  - apply ipc_wf_replace; try done.
    + intros o Ho. apply Ob in Ho as [Ho| ->]; [by left|right]. done.
    + intros o Ho. rewrite L, Ob by done. simpl ipc_mailbox.
      assert (o ∈ objects (Some b) → live w1 o) as Lo.
      { intros Hin. apply (objects_live other w1 dest); [done|]. by rewrite (mailbox_of_eq w1 dest _ Ht1). }
      unfold live in *. simpl i_slab in *. destruct (decide (o ∈ objects (Some b))); tauto.
  - left. split; [done|]. split; [done|]. intros j. rewrite queues_set by done.
    destruct (decide (dest = j)) as [<-|]; [|by rewrite app_nil_r].
    rewrite <- Qw1. unfold queues. rewrite (mailbox_of_eq w1 dest _ Ht1). simpl.
    by rewrite fmap_app.
Qed.

Lemma msg_size_ok m : msg_ok m → 0 < sizeof_ipc_msg + msg_size m ≤ 4096.
Proof. intros [_ H]. unfold sizeof_ipc_msg, IPC_MAX_PAYLOAD in *. lia. Qed.

(** What one round of a receive answers, on the abstract queue. *)
Definition recv_result (capacity : Z) (q q' : list (Z * list Z)) (rc from : Z) (data : list Z) : Prop :=
  match q with
  | [] => rc = IPC_ERR_EMPTY ∧ data = [] ∧ q' = q
  | (f, d) :: rest =>
      if capacity <? Z.of_nat (length d) then rc = IPC_ERR_TOO_SMALL ∧ data = [] ∧ q' = q
      else rc = Z.of_nat (length d) ∧ from = f ∧ data = d ∧ q' = rest
  end.

Lemma recv_locked_spec other self capacity w : ipc_wf other w →
  let '(rc, from, data, w') := recv_locked self capacity w in
  ipc_wf other w' ∧ recv_result capacity (queues w self) (queues w' self) rc from data ∧
  ∀ j, j ≠ self → queues w' j = queues w j.
Proof.
  intros W. unfold recv_locked. destruct (i_procs w !! self) as [p|] eqn:Hp.
  2:{ split; [done|]. split; [|done]. unfold queues, mailbox_of. by rewrite Hp. }
  pose proof (mailbox_of_eq w self p Hp) as Mp. pose proof (iw_box _ _ W self) as Wb. rewrite Mp in Wb.
  unfold queues at 1. rewrite Mp.
  destruct (ipc_mailbox p) as [b|] eqn:Eb; [|split; [done|]; split; [by unfold queues; rewrite Mp|done]].
  destruct (box_queue b) as [|m rest] eqn:Eq.
  { split; [done|]. split; [|done]. simpl. rewrite Eq. unfold queues. rewrite Mp. simpl. by rewrite Eq. }
  assert (msg_ok m) as [Hsz Hs] by (apply (bo_msgs _ Wb b m eq_refl); rewrite Eq; mem).
  simpl queue_of. rewrite Eq. simpl. rewrite <- Hsz.
  destruct (capacity <? msg_size m).
  { split; [done|]. split; [|done]. split; [done|]. split; [done|].
    unfold queues. rewrite Mp. simpl. by rewrite Eq. }
  set (b' := b <| box_queue := rest |> <| box_count := u32 (box_count b - 1) |>).
  set (s := oom_slab_free (msg_addr m) (sizeof_ipc_msg + msg_size m) (i_slab w)).
  match goal with |- ipc_wf other ?x ∧ _ =>
    change x with (Ipc (<[self := p <| ipc_mailbox := Some b' |>]> (i_procs w)) s (i_pmm w)) end.
  assert (∀ o, o ∈ objects (Some b) ↔ o ∈ objects (Some b') ∨ o = msg_object m) as Ob.
  { intros o. simpl. rewrite Eq. simpl. rewrite !elem_of_cons. tauto. }
  assert (msg_object m ∉ objects (Some b')) as Nin.
  { pose proof (bo_nodup _ Wb) as N. simpl in N. rewrite Eq in N. simpl in N.
    apply NoDup_cons in N as [N1 N2]. apply NoDup_cons in N2 as [N2 _].
    simpl. intros [E|?]%elem_of_cons; [|done]. apply N1. rewrite <- E. mem. }
  assert (∀ o, o ∈ objects (Some b) → live w o) as Lv.
  { intros o Ho. apply (objects_live other w self); [done|]. by rewrite Mp. }
  destruct (free_objects (sizeof_ipc_msg + msg_size m) (i_slab w) (i_pmm w) (msg_addr m)
    (iw_slab _ _ W)) as [Ws L].
  { apply msg_size_ok. by split. }
  { apply (Lv (msg_object m)). apply Ob. by right. }
  fold s in Ws, L. change (oom_slab_class (sizeof_ipc_msg + msg_size m), msg_addr m) with (msg_object m) in L.
  split; [|split].
  - apply ipc_wf_replace; [done|done|done| | |].
    + split.
      * pose proof (bo_nodup _ Wb) as N. simpl in N. rewrite Eq in N. simpl in N. simpl.
        apply NoDup_cons in N as [N1 N2]. apply NoDup_cons in N2 as [_ N2].
        constructor; [|done]. intros Hin. apply N1. by right.
      * intros x [= <-]. destruct (bo_count _ Wb b eq_refl) as [Hc Hle]. rewrite Eq in Hc. simpl in *.
        unfold IPC_MAX_DEPTH in *. rewrite u32_small by lia. lia.
      * intros x y [= <-] Hy. apply (bo_msgs _ Wb b); [done|]. rewrite Eq. by right.
    + intros o Ho. left. rewrite Eb. apply Ob. by left.
    + intros o Ho. rewrite L by done. rewrite Eb. split.
      * intros [Hl Ne]. destruct (decide (o ∈ objects (Some b))) as [Hin|]; [|by left].
        right. by apply Ob in Hin as [?|?].
      * intros [[Hl Hn]|Hin]; (split; [|intros ->]); [done|apply Hn, Ob; by right|
          apply Lv, Ob; by left|done].
  - rewrite queues_set, decide_True by done. unfold IPC_MAX_PAYLOAD in Hs.
    rewrite i32_small by lia. done.
  - intros j Ne. rewrite queues_set by done. by rewrite decide_False.
Qed.

Lemma free_messages_spec q : ∀ s p, slab_wf s p →
  (∀ m, m ∈ q → msg_ok m) → NoDup (msg_object <$> q) →
  (∀ o, o ∈ msg_object <$> q → slab_live s o.1 o.2) →
  slab_wf (free_messages q s) p ∧
  ∀ o, 0 ≤ o.1 < 8 → slab_live (free_messages q s) o.1 o.2 ↔
    slab_live s o.1 o.2 ∧ o ∉ msg_object <$> q.
Proof.
  induction q as [|m q IH]; intros s p W Ok Nd Lv; cbn [free_messages].
  { split; [done|]. intros o Ho. simpl. pose proof (not_elem_of_nil o). tauto. }
  rewrite fmap_cons in Nd, Lv. apply NoDup_cons in Nd as [Nin Nd].
  destruct (free_objects (sizeof_ipc_msg + msg_size m) s p (msg_addr m) W) as [W1 L1].
  { apply msg_size_ok, Ok. mem. }
  { apply (Lv (msg_object m)). mem. }
  change (oom_slab_class (sizeof_ipc_msg + msg_size m), msg_addr m) with (msg_object m) in L1.
  assert (∀ o, o ∈ msg_object <$> q → 0 ≤ o.1 < 8) as Cl.
  { intros o Ho. apply list_elem_of_fmap in Ho as (m'&->&Hm').
    pose proof (msg_size_ok m' (Ok m' ltac:(by right))) as Hs. simpl.
    destruct (oom_slab_class_spec (sizeof_ipc_msg + msg_size m')) as [[_ ?]|(?&_)]; lia. }
  destruct (IH _ p W1) as [W2 L2]; [intros; apply Ok; by right|done| |].
  { intros o Ho. apply L1; [by apply Cl|]. split; [apply Lv; by right|by intros ->]. }
  split; [done|]. intros o Ho. rewrite L2, L1 by done. rewrite fmap_cons, elem_of_cons. tauto.
Qed.

Lemma ipc_cleanup_spec other pid w : ipc_wf other w →
  ipc_wf other (ipc_cleanup pid w) ∧ mailbox_of (ipc_cleanup pid w) pid = None ∧
  ∀ j, j ≠ pid → queues (ipc_cleanup pid w) j = queues w j.
Proof.
  intros W. unfold ipc_cleanup. destruct (i_procs w !! pid) as [p|] eqn:Hp.
  2:{ split; [done|]. split; [|done]. unfold mailbox_of. by rewrite Hp. }
  pose proof (mailbox_of_eq w pid p Hp) as Mp. pose proof (iw_box _ _ W pid) as Wb. rewrite Mp in Wb.
  destruct (ipc_mailbox p) as [b|] eqn:Eb; [|by split].
  set (s1 := free_messages (box_queue b) (i_slab w)). cbv zeta.
  change (i_slab (set_mailbox pid p None w)) with (i_slab w). fold s1.
  match goal with |- ipc_wf other ?x ∧ _ => change x with
    (Ipc (<[pid := p <| ipc_mailbox := None |>]> (i_procs w))
         (oom_slab_free (box_addr b) sizeof_ipc_mbox s1) (i_pmm w)) end.
  assert (∀ o, o ∈ objects (Some b) → live w o) as Lv.
  { intros o Ho. apply (objects_live other w pid); [done|]. by rewrite Mp. }
  pose proof (bo_nodup _ Wb) as N. simpl in N. apply NoDup_cons in N as [N1 N2].
  destruct (free_messages_spec (box_queue b) (i_slab w) (i_pmm w) (iw_slab _ _ W)) as [W1 L1].
  { intros m Hm. by apply (bo_msgs _ Wb b). }
  { done. }
  { intros o Ho. apply Lv. by right. }
  fold s1 in W1, L1. set (ob := (oom_slab_class sizeof_ipc_mbox, box_addr b)) in *.
  destruct (free_objects sizeof_ipc_mbox s1 (i_pmm w) (box_addr b) W1) as [W2 L2]; [done| |].
  { apply (L1 ob); [done|]. split; [|done]. apply Lv. simpl. mem. }
  fold ob in L2. split; [|split].
  - apply ipc_wf_replace; try done.
    + split; [constructor|done|done].
    + by intros o ?%not_elem_of_nil.
    + intros o Ho. rewrite L2, L1 by done. rewrite Eb. simpl. fold ob. rewrite elem_of_cons.
      unfold live. pose proof (not_elem_of_nil o). tauto.
  - rewrite (mailbox_of_set pid p) by done. by rewrite decide_True.
  - intros j Ne. rewrite queues_set by done. by rewrite decide_False.
Qed.

(** ** The system of mailboxes *)

Inductive ipc_event :=
| ISend (cap : bool) (self : option Z) (dest : Z) (null : bool) (data : list Z)
| IRecv (self capacity : Z)
| ICleanup (pid : Z)
| ISpawn (pid : Z)
| IState (pid : Z) (st : process_state).

Definition ipc_exec (e : ipc_event) (w : ipc) : ipc :=
  match e with
  | ISend cap self dest null data => (ipc_send cap self dest null data w).2
  | IRecv self capacity => (recv_locked self capacity w).2
  | ICleanup pid => ipc_cleanup pid w
  | ISpawn pid =>
      match i_procs w !! pid with
      | None => w <| i_procs := <[pid := IProc PROCESS_LOADING None]> (i_procs w) |>
      | Some _ => w
      end
  | IState pid st =>
      match i_procs w !! pid with
      | Some p => w <| i_procs := <[pid := p <| ip_state := st |>]> (i_procs w) |>
      | None => w
      end
  end.

(** The messages an event puts into, and takes out of, the queue of [pid]. *)
Definition accepted (pid : Z) (e : ipc_event) (w : ipc) : list (Z * list Z) :=
  match e with
  | ISend cap self dest null data =>
      if ((ipc_send cap self dest null data w).1 =? 0) && (dest =? pid)
      then [(default 0 self, data)] else []
  | _ => []
  end.
Definition delivered (pid : Z) (e : ipc_event) (w : ipc) : list (Z * list Z) :=
  match e with
  | IRecv self capacity =>
      let '(rc, from, data, _) := recv_locked self capacity w in
      if (0 <=? rc) && (self =? pid) then [(from, data)] else []
  | _ => []
  end.

Fixpoint run_log (pid : Z) (es : list ipc_event) (w : ipc)
    : ipc * list (Z * list Z) * list (Z * list Z) :=
  match es with
  | [] => (w, [], [])
  | e :: es' =>
      let '(w', s, r) := run_log pid es' (ipc_exec e w) in
      (w', accepted pid e w ++ s, delivered pid e w ++ r)
  end.

Definition not_cleanup (pid : Z) (e : ipc_event) : Prop :=
  match e with ICleanup p => p ≠ pid | _ => True end.

(** Changing what a process table entry says besides its mailbox. *)
Lemma ipc_wf_table other w (t : gmap Z iproc) : ipc_wf other w →
  (∀ j, mailbox_of (w <| i_procs := t |>) j = mailbox_of w j) →
  ipc_wf other (w <| i_procs := t |>).
Proof.
  intros W E. split.
  - apply W.
  - intros. rewrite E. apply W.
  - intros o Ho. setoid_rewrite E. by apply (iw_live _ _ W).
  - intros i j o. rewrite !E. apply W.
  - intros j o. rewrite E. apply W.
Qed.

Lemma ipc_exec_table e w : (∃ pid, e = ISpawn pid) ∨ (∃ pid st, e = IState pid st) →
  ∃ t, ipc_exec e w = w <| i_procs := t |> ∧
  ∀ j, mailbox_of (w <| i_procs := t |>) j = mailbox_of w j.
Proof.
  assert (∀ (w : ipc), w = w <| i_procs := i_procs w |>) as Same by (intros x; by destruct x).
  intros [[pid ->]|(pid&st&->)]; simpl; destruct (i_procs w !! pid) as [p|] eqn:E.
  - exists (i_procs w). split; [apply Same|done].
  - eexists. split; [done|]. intros j. unfold mailbox_of. simpl.
    destruct (decide (pid = j)) as [<-|]; [by rewrite lookup_insert_eq, E|by rewrite lookup_insert_ne].
  - eexists. split; [done|]. intros j. unfold mailbox_of. simpl.
    destruct (decide (pid = j)) as [<-|]; [by rewrite lookup_insert_eq, E|by rewrite lookup_insert_ne].
  - exists (i_procs w). split; [apply Same|done].
Qed.

Lemma ipc_exec_wf other e w : ipc_wf other w → ipc_wf other (ipc_exec e w).
Proof.
  intros W. destruct e as [cap self dest null data|self capacity|pid|pid|pid st].
  - pose proof (ipc_send_spec other cap self dest null data w W) as S. unfold ipc_exec.
    destruct (ipc_send _ _ _ _ _ _). apply S.
  - pose proof (recv_locked_spec other self capacity w W) as S. unfold ipc_exec.
    destruct (recv_locked _ _ _) as [[[rc from] data] w']. apply S.
  - by apply ipc_cleanup_spec.
  - destruct (ipc_exec_table (ISpawn pid) w) as (t&->&E); [eauto|]. by apply ipc_wf_table.
  - destruct (ipc_exec_table (IState pid st) w) as (t&->&E); [eauto|]. by apply ipc_wf_table.
Qed.

Lemma ipc_exec_queue other pid e w : ipc_wf other w → not_cleanup pid e →
  queues w pid ++ accepted pid e w = delivered pid e w ++ queues (ipc_exec e w) pid.
Proof.
  intros W Nc. destruct e as [cap self dest null data|self capacity|p|p|p st].
  - pose proof (ipc_send_spec other cap self dest null data w W) as S. unfold ipc_exec, accepted.
    destruct (ipc_send _ _ _ _ _ _) as [r w']. simpl. destruct S as [_ [(->&_&Q)|[Hr Q]]].
    + rewrite Q. cbn [Z.eqb andb]. destruct (Z.eqb_spec dest pid), (decide (dest = pid)); done.
    + destruct (Z.eqb_spec r 0); [done|]. by rewrite Q, app_nil_r.
  - pose proof (recv_locked_spec other self capacity w W) as S. unfold ipc_exec, delivered.
    destruct (recv_locked _ _ _) as [[[rc from] data] w']. destruct S as (_&R&Q). simpl.
    rewrite app_nil_r. destruct (Z.eqb_spec self pid) as [<-|Ne].
    2:{ rewrite andb_false_r. simpl. by rewrite Q. }
    rewrite andb_true_r. unfold recv_result in R. destruct (queues w self) as [|[f d] rest].
    + destruct R as (->&_&->). done.
    + destruct (capacity <? Z.of_nat (length d)); [by destruct R as (->&_&->)|].
      destruct R as (->&->&->&->). destruct (Z.leb_spec 0 (Z.of_nat (length d))); [done|lia].
  - simpl. rewrite app_nil_r. symmetry. apply (ipc_cleanup_spec other p w W). simpl in Nc. congruence.
  - destruct (ipc_exec_table (ISpawn p) w) as (t&->&E); [eauto|]. simpl. rewrite app_nil_r.
    unfold queues. by rewrite E.
  - destruct (ipc_exec_table (IState p st) w) as (t&->&E); [eauto|]. simpl. rewrite app_nil_r.
    unfold queues. by rewrite E.
Qed.

(** Starting from a slab whose live objects belong to other clients. *)
Inductive ipc_reachable (s0 : slab) (p0 : pmm) : ipc → Prop :=
| ipc_boot : ipc_reachable s0 p0 (Ipc ∅ s0 p0)
| ipc_step w e : ipc_reachable s0 p0 w → ipc_reachable s0 p0 (ipc_exec e w).

Definition boot_objects (s0 : slab) (o : Z * Z) : Prop := 0 ≤ o.1 < 8 ∧ slab_live s0 o.1 o.2.

Lemma ipc_reachable_wf s0 p0 w : slab_wf s0 p0 → ipc_reachable s0 p0 w → ipc_wf (boot_objects s0) w.
Proof.
  intros W. induction 1 as [|w e _ IH]; [|by apply ipc_exec_wf].
  assert (∀ j, mailbox_of (Ipc ∅ s0 p0) j = None) as N.
  { intros j. unfold mailbox_of. simpl. by rewrite lookup_empty. }
  split.
  - done.
  - intros j. rewrite N. split; [constructor|done|done].
  - intros o Ho. unfold live, boot_objects. simpl. split; [by left|].
    intros [[_ ?]|(j&Hj)]; [done|]. rewrite N in Hj. by apply not_elem_of_nil in Hj.
  - intros i j o _. rewrite N. by intros ?%not_elem_of_nil.
  - intros j o. rewrite N. by intros ?%not_elem_of_nil.
Qed.

(** ** Properties *)

(** Messages are delivered first in, first out, each once and unchanged: over
    any sequence of sends, receives, process creations, state changes and exits
    of other processes, what was queued for a process followed by what its
    senders got accepted is what it received followed by what is queued. *)
Theorem ipc_fifo s0 p0 w pid es : slab_wf s0 p0 → ipc_reachable s0 p0 w →
  Forall (not_cleanup pid) es →
  let '(w', sent, received) := run_log pid es w in
  queues w pid ++ sent = received ++ queues w' pid.
Proof.
  intros W R. pose proof (ipc_reachable_wf s0 p0 w W R) as Wf. clear R.
  revert w Wf. induction es as [|e es IH]; intros w Wf F; cbn [run_log].
  { by rewrite app_nil_r. }
  apply Forall_cons in F as [Fe F]. specialize (IH (ipc_exec e w) (ipc_exec_wf _ e w Wf) F).
  destruct (run_log pid es (ipc_exec e w)) as [[w' s] r].
  rewrite app_assoc, (ipc_exec_queue _ pid e w Wf Fe), <- app_assoc, IH, app_assoc. done.
Qed.

(** C36: Mailboxes neither leak nor share memory: the live objects of the slab are
    those of its other clients and, exactly once each, the mailboxes and queued
    messages; a mailbox holds at most 64 messages and its counter is right. *)
Theorem ipc_objects_exact s0 p0 w : slab_wf s0 p0 → ipc_reachable s0 p0 w →
  (∀ o, 0 ≤ o.1 < 8 → live w o ↔ boot_objects s0 o ∨ ∃ pid, o ∈ objects (mailbox_of w pid)) ∧
  (∀ i j o, i ≠ j → o ∈ objects (mailbox_of w i) → o ∉ objects (mailbox_of w j)) ∧
  (∀ pid, NoDup (objects (mailbox_of w pid))) ∧
  (∀ pid b, mailbox_of w pid = Some b →
     box_count b = Z.of_nat (length (box_queue b)) ∧ box_count b ≤ IPC_MAX_DEPTH).
Proof.
  intros W R. pose proof (ipc_reachable_wf s0 p0 w W R) as Wf.
  split; [apply Wf|]. split; [apply Wf|]. split.
  - intros pid. apply (bo_nodup _ (iw_box _ _ Wf pid)).
  - intros pid b E. apply (bo_count _ (iw_box _ _ Wf pid) b E).
Qed.

(** A round of a receive takes the oldest message when it fits the buffer,
    leaves the queue alone and says so when it does not or when there is none,
    and never touches the queue of another process. *)
Theorem ipc_recv_round s0 p0 w self capacity : slab_wf s0 p0 → ipc_reachable s0 p0 w →
  let '(rc, from, data, w') := recv_locked self capacity w in
  recv_result capacity (queues w self) (queues w' self) rc from data ∧
  ∀ j, j ≠ self → queues w' j = queues w j.
Proof.
  intros W R. pose proof (recv_locked_spec _ self capacity w (ipc_reachable_wf s0 p0 w W R)) as S.
  destruct (recv_locked self capacity w) as [[[rc from] data] w']. apply S.
Qed.

(** A payload of 2033 to 2048 bytes is within [IPC_MAX_PAYLOAD] but can never
    be sent: with its header it falls into the slab class that holds no object,
    so the send reports a full mailbox however empty it is. *)
Theorem ipc_payload_limit_unreachable s0 p0 w self dest data t b : slab_wf s0 p0 →
  ipc_reachable s0 p0 w → 2032 < Z.of_nat (length data) ≤ IPC_MAX_PAYLOAD → dest ≠ 0 →
  i_procs w !! dest = Some t → ip_state t = PROCESS_READY → ipc_mailbox t = Some b →
  box_count b < IPC_MAX_DEPTH →
  (ipc_send true self dest false data w).1 = IPC_ERR_FULL.
Proof.
  intros W R Hl Hd Ht Hs Hb Hc. pose proof (ipc_reachable_wf s0 p0 w W R) as Wf.
  unfold IPC_MAX_PAYLOAD, IPC_MAX_DEPTH in *. unfold ipc_send, process_lookup_by_pid.
  unfold IPC_MAX_PAYLOAD, IPC_MAX_DEPTH. rewrite Ht, Hs.
  destruct (Z.eqb_spec dest 0); [done|]. destruct (Z.eqb_spec (Z.of_nat (length data)) 0); [lia|].
  destruct (Z.ltb_spec 2048 (Z.of_nat (length data))); [lia|]. cbn [orb negb].
  rewrite (decide_False (P := PROCESS_READY = PROCESS_FREE)) by done.
  rewrite Hs, (decide_False (P := PROCESS_READY = PROCESS_EXITED)), Hb by done. cbn [mbox_get].
  destruct (Z.leb_spec 64 (box_count b)); [lia|]. cbn [i_slab i_pmm set_field].
  destruct (largest_class_fails (i_slab w) (i_pmm w) (sizeof_ipc_msg + Z.of_nat (length data))
    (iw_slab _ _ Wf)) as (s'&p'&E); [unfold sizeof_ipc_msg; lia|].
  match goal with |- context [oom_slab_alloc ?n ?s ?p] =>
    change (oom_slab_alloc n s p) with (oom_slab_alloc (sizeof_ipc_msg + Z.of_nat (length data))
      (i_slab w) (i_pmm w)) end.
  rewrite E. done.
Qed.

(** ** Witnesses *)

Definition demo_send (data : list Z) : ipc_event := ISend true (Some 3) 5 false data.
Definition demo_ipc_events : list ipc_event := [demo_send [1; 2]; demo_send [7]; IRecv 5 100].
Definition demo_ipc : ipc :=
  ipc_exec (IState 5 PROCESS_READY) (ipc_exec (ISpawn 5) (Ipc ∅ oom_slab_init demo_pmm)).

Lemma demo_ipc_reachable : ipc_reachable oom_slab_init demo_pmm demo_ipc.
Proof. repeat constructor. Qed.

Lemma ipc_fifo_witness :
  ([(3, [1; 2]); (3, [7])] : list (Z * list Z)) =
    (run_log 5 demo_ipc_events demo_ipc).2 ++ queues (run_log 5 demo_ipc_events demo_ipc).1.1 5.
Proof.
  assert (Forall (not_cleanup 5) demo_ipc_events) as F by (repeat constructor).
  pose proof (ipc_fifo oom_slab_init demo_pmm demo_ipc 5 demo_ipc_events demo_slab_wf
    demo_ipc_reachable F) as T.
  assert ((run_log 5 demo_ipc_events demo_ipc).1.2 = [(3, [1; 2]); (3, [7])]) as E
    by (vm_compute; reflexivity).
  assert (queues demo_ipc 5 = []) as Q by (vm_compute; reflexivity). rewrite Q in T.
  destruct (run_log 5 demo_ipc_events demo_ipc) as [[w' s] r]. cbn [fst snd] in *.
  rewrite E in T. exact T.
Defined.

Definition demo_ipc_mail : ipc := ipc_exec (demo_send [1; 2]) demo_ipc.
Lemma demo_ipc_mail_reachable : ipc_reachable oom_slab_init demo_pmm demo_ipc_mail.
Proof. apply ipc_step. exact demo_ipc_reachable. Qed.

Lemma ipc_objects_exact_witness :
  NoDup (objects (mailbox_of demo_ipc_mail 5)) ∧ length (objects (mailbox_of demo_ipc_mail 5)) = 2%nat.
Proof.
  split; [|vm_compute; reflexivity].
  destruct (ipc_objects_exact oom_slab_init demo_pmm demo_ipc_mail demo_slab_wf
    demo_ipc_mail_reachable) as (_&_&T&_). apply T.
Defined.

Lemma ipc_recv_round_witness :
  queues demo_ipc_mail 5 = [(3, [1; 2])] ∧ queues (recv_locked 5 1 demo_ipc_mail).2 5 = [(3, [1; 2])].
Proof.
  assert (queues demo_ipc_mail 5 = [(3, [1; 2])]) as Q by (vm_compute; reflexivity).
  split; [exact Q|].
  pose proof (ipc_recv_round oom_slab_init demo_pmm demo_ipc_mail 5 1 demo_slab_wf
    demo_ipc_mail_reachable) as T.
  destruct (recv_locked 5 1 demo_ipc_mail) as [[[rc from] data] w']. rewrite Q in T.
  exact (proj2 (proj2 (proj1 T))).
Defined.

Lemma ipc_payload_limit_unreachable_witness :
  (ipc_send true None 5 false (replicate 2040 1) demo_ipc_mail).1 = IPC_ERR_FULL ∧
  (ipc_send true None 5 false (replicate 2032 1) demo_ipc_mail).1 = 0.
Proof.
  split; [|vm_compute; reflexivity].
  assert (match i_procs demo_ipc_mail !! 5 with
    | Some t => ip_state t = PROCESS_READY ∧
        match ipc_mailbox t with Some b => box_count b = 1 | None => False end
    | None => False end) as Hm by (vm_compute; split; reflexivity).
  destruct (i_procs demo_ipc_mail !! 5) as [t|] eqn:H1; [|destruct Hm]. destruct Hm as [H2 Hm].
  destruct (ipc_mailbox t) as [b|] eqn:H3; [|destruct Hm].
  apply (ipc_payload_limit_unreachable oom_slab_init demo_pmm demo_ipc_mail None 5 (replicate 2040 1) t b
    demo_slab_wf demo_ipc_mail_reachable); try assumption; [|discriminate|].
  - rewrite length_replicate. split; [reflexivity|discriminate].
  - rewrite Hm. reflexivity.
Defined.
