(* ===== verification/Signal.v ===== *)
(** * Signals (src/src/kernel/process/signal.c)

    Pending and blocked sets, dispositions, delivery to a handler on the user
    stack and the return from it.  The frame delivery writes is a value in a map
    from user addresses; [writable] and [readable] are the answers of the
    virtual memory about a user range, [Exits] the calls of
    [process_exit_signal], which does not return. *)

From S2P Require Import Prelude Errno Pmm Oom Slab Ipc.

(** [src/kernel/process/signal.h:14-14] SIGKILL *)
Definition SIGKILL : Z := 9.
(** [src/kernel/process/signal.h:16-16] SIGSEGV *)
Definition SIGSEGV : Z := 11.
(** [src/kernel/process/signal.h:18-18] SIGPIPE *)
Definition SIGPIPE : Z := 13.
(** [src/kernel/process/signal.h:21-21] SIGCHLD *)
Definition SIGCHLD : Z := 17.
(** [src/kernel/process/signal.h:22-22] SIGCONT *)
Definition SIGCONT : Z := 18.
(** [src/kernel/process/signal.h:23-23] SIGSTOP *)
Definition SIGSTOP : Z := 19.
(** [src/kernel/process/signal.h:24-24] SIGTSTP *)
Definition SIGTSTP : Z := 20.
(** [src/kernel/process/signal.h:25-25] SIGTTIN *)
Definition SIGTTIN : Z := 21.
(** [src/kernel/process/signal.h:26-26] SIGTTOU *)
Definition SIGTTOU : Z := 22.
(** [src/kernel/process/signal.h:27-27] SIGNAL_COUNT *)
Definition SIGNAL_COUNT : nat := 32.
(** [src/kernel/process/signal.h:29-29] SIGNAL_BLOCK *)
Definition SIGNAL_BLOCK : Z := 0.
(** [src/kernel/process/signal.h:30-30] SIGNAL_UNBLOCK *)
Definition SIGNAL_UNBLOCK : Z := 1.
(** [src/kernel/process/signal.h:31-31] SIGNAL_SETMASK *)
Definition SIGNAL_SETMASK : Z := 2.
(** [src/kernel/syscall/syscall.h:242-242] SIGNAL_ACTION_DEFAULT *)
Definition SIGNAL_ACTION_DEFAULT : Z := 0.
(** [src/kernel/syscall/syscall.h:243-243] SIGNAL_ACTION_IGNORE *)
Definition SIGNAL_ACTION_IGNORE : Z := 1.
(** [src/kernel/syscall/syscall.h:244-244] SIGNAL_FLAG_NODEFER *)
Definition SIGNAL_FLAG_NODEFER : Z := 2 ^ 30.
(** [src/kernel/syscall/syscall.h:245-245] SIGNAL_FLAG_RESETHAND *)
Definition SIGNAL_FLAG_RESETHAND : Z := 2 ^ 31.
(** [src/kernel/syscall/syscall.h:219-219] KERR_SRCH *)
Definition KERR_SRCH : Z := 3.

(** [src/kernel/process/signal.c:10-10] SIG_BIT *)
Definition SIG_BIT (sig : Z) : Z := u64 (1 ≪ (sig - 1)).
(** [src/kernel/process/signal.c:11-11] SIG_UNBLOCKABLE *)
Definition SIG_UNBLOCKABLE : Z := Z.lor (SIG_BIT SIGKILL) (SIG_BIT SIGSTOP).
(** [src/kernel/process/signal.c:12-14] SIG_DEFAULT_IGNORED *)
Definition SIG_DEFAULT_IGNORED : Z :=
  Z.lor (Z.lor (Z.lor (Z.lor (Z.lor (SIG_BIT SIGCHLD) (SIG_BIT SIGCONT)) (SIG_BIT SIGSTOP))
                      (SIG_BIT SIGTSTP)) (SIG_BIT SIGTTIN)) (SIG_BIT SIGTTOU).
(** [src/kernel/process/signal.c:15-15] USER_CODE_SELECTOR *)
Definition USER_CODE_SELECTOR : Z := 27.
(** [src/kernel/process/signal.c:16-16] USER_DATA_SELECTOR *)
Definition USER_DATA_SELECTOR : Z := 35.
(** [src/kernel/process/signal.c:17-17] USER_FLAGS_MASK *)
Definition USER_FLAGS_MASK : Z := 3285.
(** [src/kernel/process/signal.c:18-18] USER_RED_ZONE *)
Definition USER_RED_ZONE : Z := 128.
(** [src/kernel/process/signal.c:19-19] USER_TOP_ADDRESS *)
Definition USER_TOP_ADDRESS : Z := 2 ^ 47.

(** [~x] on a [uint64_t]. *)
Definition not64 (x : Z) : Z := u64 (Z.lnot x).
(** [x & bit] as a condition. *)
Definition has (x bit : Z) : bool := negb (Z.land x bit =? 0).

(** [src/kernel/syscall/syscall.h:247-253] ksigaction *)
Record ksigaction := Ksigaction {
  handler : Z; mask : Z; restorer : Z; sa_flags : Z; sa_reserved : Z;
}.
Definition action_zero : ksigaction := Ksigaction 0 0 0 0 0.

(** [src/kernel/syscall/syscall.h:741-746] syscall_regs *)
Record syscall_regs := SyscallRegs {
  r15 : Z; r14 : Z; r13 : Z; r12 : Z; r11 : Z; r10 : Z; r9 : Z; r8 : Z; rbp : Z;
  rdi : Z; rsi : Z; rdx : Z; rcx : Z; rbx : Z; rax : Z; vector : Z; err : Z;
  rip : Z; cs : Z; rflags : Z; rsp : Z; ss : Z;
}.
#[export] Instance eta_regs : Eta syscall_regs := λ r,
  SyscallRegs (r15 r) (r14 r) (r13 r) (r12 r) (r11 r) (r10 r) (r9 r) (r8 r) (rbp r) (rdi r)
    (rsi r) (rdx r) (rcx r) (rbx r) (rax r) (vector r) (err r) (rip r) (cs r) (rflags r) (rsp r)
    (ss r).

(** [src/kernel/process/signal.c:25-30] signal_frame *)
Record signal_frame := SignalFrame {
  return_address : Z; signo : Z; saved_mask : Z; saved_regs : syscall_regs;
}.
(** Its size: three words and the 22 of the registers. *)
Definition sizeof_signal_frame : Z := 200.
(** 33 actions of 32 bytes. *)
Definition sizeof_process_signals : Z := 1056.

(** What signals keep of a process; [signals] is the address of the slab object
    and the table of the 33 actions in it.
    [src/kernel/process/process.h:71-73] process *)
Record sproc := Sproc {
  sp_state : process_state;
  sp_uid : Z;
  sp_thread_id : Z;
  sig_pending : Z;
  sig_blocked : Z;
  signals : option (Z * list ksigaction);
}.
#[export] Instance eta_sproc : Eta sproc := λ p,
  Sproc (sp_state p) (sp_uid p) (sp_thread_id p) (sig_pending p) (sig_blocked p) (signals p).

Definition action_of (t : list ksigaction) (sig : Z) : ksigaction := aget action_zero t sig.
Definition no_actions : list ksigaction := replicate (S SIGNAL_COUNT) action_zero.

(** [src/kernel/process/signal.c:32-32] signal_valid *)
Definition signal_valid (sig : Z) : bool := (1 <=? sig) && (sig <=? Z.of_nat SIGNAL_COUNT).

(** [src/kernel/process/signal.c:34-44] signals_ensure *)
Definition signals_ensure (p : sproc) (s : slab) (q : pmm)
    : option (Z * list ksigaction) * sproc * slab * pmm :=
  match signals p with
  | Some t => (Some t, p, s, q)
  | None =>
      let '(a, s, q) := oom_slab_alloc sizeof_process_signals s q in
      if a =? 0 then (None, p, s, q)
      else (Some (a, no_actions), p <| signals := Some (a, no_actions) |>, s, q)
  end.

(** [src/kernel/process/signal.c:46-51] signal_free *)
Definition signal_free (p : sproc) (s : slab) : sproc * slab :=
  match signals p with
  | Some (a, _) => (p <| signals := None |>, oom_slab_free a sizeof_process_signals s)
  | None => (p, s)
  end.

(** [src/kernel/process/signal.c:53-63] signal_clone *)
Definition signal_clone (child parent : sproc) (s : slab) (q : pmm) : bool * sproc * slab * pmm :=
  let child := child <| sig_blocked := sig_blocked parent |> <| sig_pending := 0 |> in
  match signals parent with
  | None => (true, child, s, q)
  | Some (_, table) =>
      let '(copy, child, s, q) := signals_ensure child s q in
      match copy with
      | None => (false, child, s, q)
      | Some (a, _) => (true, child <| signals := Some (a, table) |>, s, q)
      end
  end.

(** The loop over the actions 1 to 32.
    [src/kernel/process/signal.c:68-72] signal_exec_reset *)
Fixpoint reset_actions (n : nat) (sig : Z) (t : list ksigaction) : list ksigaction :=
  match n with
  | O => t
  | S n' =>
      reset_actions n' (sig + 1)
        (if negb (handler (action_of t sig) =? SIGNAL_ACTION_IGNORE) then aset t sig action_zero else t)
  end.
(** [src/kernel/process/signal.c:65-73] signal_exec_reset *)
Definition signal_exec_reset (p : sproc) : sproc :=
  match signals p with
  | Some (a, t) => p <| signals := Some (a, reset_actions SIGNAL_COUNT 1 t) |>
  | None => p
  end.

(** [src/kernel/process/signal.c:75-84] action_ignored *)
Definition action_ignored (p : sproc) (sig : Z) : bool :=
  let dflt := has SIG_DEFAULT_IGNORED (SIG_BIT sig) in
  match signals p with
  | Some (_, t) =>
      let h := handler (action_of t sig) in
      if h =? SIGNAL_ACTION_IGNORE then true
      else if negb (h =? SIGNAL_ACTION_DEFAULT) then false else dflt
  | None => dflt
  end.

Definition raise (sig : Z) (p : sproc) : sproc :=
  p <| sig_pending := Z.lor (sig_pending p) (SIG_BIT sig) |>.

(** [target] is what [process_lookup_by_pid] finds, [caller_uid] the user of
    the calling process; the new target and the thread that is unblocked are
    returned.
    [src/kernel/process/signal.c:86-109] signal_send *)
Definition signal_send (caller_uid : option Z) (target : option sproc) (sig : Z)
    : Z * option sproc * option Z :=
  if (sig <? 0) || (Z.of_nat SIGNAL_COUNT <? sig) then (- KERR_INVAL, target, None) else
  match target with
  | None => (- KERR_SRCH, None, None)
  | Some t =>
      if decide (sp_state t = PROCESS_EXITED ∨ sp_state t = PROCESS_FREE)
      then (- KERR_SRCH, target, None) else
      let denied := match caller_uid with
                    | Some u => negb (u =? 0) && negb (u =? sp_uid t)
                    | None => false end in
      if denied then (- KERR_PERM, target, None) else
      let t' := if negb (sig =? 0) && ((sig =? SIGKILL) || negb (action_ignored t sig))
                then raise sig t else t in
      (0, Some t', if negb (sig =? 0) then Some (sp_thread_id t) else None)
  end.

(** [src/kernel/process/signal.c:111-118] signal_notify_child_exit *)
Definition signal_notify_child_exit (parent : sproc) : sproc :=
  let handled := match signals parent with
                 | Some (_, t) =>
                     negb (handler (action_of t SIGCHLD) =? SIGNAL_ACTION_IGNORE) &&
                     negb (handler (action_of t SIGCHLD) =? SIGNAL_ACTION_DEFAULT)
                 | None => false end in
  if negb (action_ignored parent SIGCHLD) || handled then raise SIGCHLD parent else parent.

(** [src/kernel/process/signal.c:120-126] signal_raise_current *)
Definition signal_raise_current (cur : option sproc) (sig : Z) : option sproc :=
  match cur with
  | None => None
  | Some p =>
      if negb (signal_valid sig) then cur
      else if (sig =? SIGKILL) || negb (action_ignored p sig) then Some (raise sig p) else cur
  end.

(** [src/kernel/process/signal.c:128-131] deliverable *)
Definition deliverable (p : sproc) : Z :=
  Z.land (sig_pending p) (Z.lor (not64 (sig_blocked p)) SIG_UNBLOCKABLE).

(** [src/kernel/process/signal.c:133-146] signal_pending_current *)
Definition signal_pending_current (cur : option sproc) : bool :=
  match cur with
  | None => false
  | Some p =>
      let ready := deliverable p in
      if ready =? 0 then false else
      match for_first (λ sig, has ready (SIG_BIT sig) &&
                              negb (action_ignored p sig && negb (sig =? SIGKILL)))
              SIGNAL_COUNT 1 with
      | Some _ => true
      | None => false
      end
  end.

(** ** Delivery *)

(** A call goes on, or ends the process. *)
Inductive fate (A : Type) := Goes (a : A) | Exits (sig : Z).
Arguments Goes {A} a.
Arguments Exits {A} sig.

Definition user_memory := gmap Z signal_frame.

(** [writable] is the answer of [process_user_buffer] after the stack faults of
    the loop have been handled.
    [src/kernel/process/signal.c:148-155] frame_writable *)
Definition frame_writable (writable : Z → Z → bool) (address size : Z) : bool :=
  if (USER_TOP_ADDRESS <=? address) || (u64 (USER_TOP_ADDRESS - address) <? size) then false
  else writable address size.

(** Where the frame goes.
    [src/kernel/process/signal.c:159-161] deliver_handler *)
Definition frame_address (regs : syscall_regs) : Z :=
  let frame_size := Z.land (sizeof_signal_frame + 15) (not64 15) in
  let top := Z.land (u64 (rsp regs - USER_RED_ZONE)) (not64 15) in
  u64 (top - frame_size - 8).

(** The process while the handler runs: its mask, and the action reset when
    asked for.
    [src/kernel/process/signal.c:171-176] deliver_handler *)
Definition enter_handler (sig : Z) (action : ksigaction) (p : sproc) : sproc :=
  let p := p <| sig_blocked := Z.lor (sig_blocked p) (mask action) |> in
  let p := if negb (has (sa_flags action) SIGNAL_FLAG_NODEFER)
           then p <| sig_blocked := Z.lor (sig_blocked p) (SIG_BIT sig) |> else p in
  let p := p <| sig_blocked := Z.land (sig_blocked p) (not64 SIG_UNBLOCKABLE) |> in
  match signals p with
  | Some (a, t) =>
               if has (sa_flags action) SIGNAL_FLAG_RESETHAND
               then p <| signals := Some (a, aset t sig action_zero) |> else p
  | None => p
  end.

(** [src/kernel/process/signal.c:157-183] deliver_handler *)
Definition deliver_handler (writable : Z → Z → bool) (sig : Z) (action : ksigaction)
    (p : sproc) (regs : syscall_regs) (m : user_memory)
    : fate (sproc * syscall_regs * user_memory) :=
  let sp := frame_address regs in
  if negb (frame_writable writable sp sizeof_signal_frame) ||
     (USER_TOP_ADDRESS <=? restorer action) || (restorer action =? 0)
  then Exits SIGSEGV else
  let m := <[sp := SignalFrame (restorer action) (u64 sig) (sig_blocked p) regs]> m in
  let p := enter_handler sig action p in
  let regs := regs <| rip := handler action |> <| rsp := sp |> <| rdi := u64 sig |>
                   <| rsi := 0 |> <| rdx := 0 |> <| rax := 0 |> in
  Goes (p, regs, m).

(** The loop of [signal_deliver]: each round takes the lowest deliverable
    signal; [None] when the fuel runs out.
    [src/kernel/process/signal.c:189-219] signal_deliver *)
Fixpoint deliver_loop (fuel : nat) (writable : Z → Z → bool) (p : sproc) (regs : syscall_regs)
    (m : user_memory) : option (fate (sproc * syscall_regs * user_memory)) :=
  match fuel with
  | O => None
  | S fuel' =>
      let ready := deliverable p in
      if ready =? 0 then Some (Goes (p, regs, m)) else
      match for_first (λ c, has ready (SIG_BIT c)) SIGNAL_COUNT 1 with
      | None => Some (Goes (p, regs, m))
      | Some sig =>
          let p := p <| sig_pending := Z.land (sig_pending p) (not64 (SIG_BIT sig)) |> in
          if sig =? SIGKILL then Some (Exits SIGKILL) else
          let action := match signals p with
                        | Some (_, t) => action_of t sig | None => action_zero end in
          if handler action =? SIGNAL_ACTION_IGNORE then deliver_loop fuel' writable p regs m else
          if handler action =? SIGNAL_ACTION_DEFAULT then
            if has SIG_DEFAULT_IGNORED (SIG_BIT sig) then deliver_loop fuel' writable p regs m
            else Some (Exits sig)
          else if USER_TOP_ADDRESS <=? handler action then Some (Exits SIGSEGV)
          else Some (deliver_handler writable sig action p regs m)
      end
  end.

(** 33 rounds are enough: see [deliver_terminates]. *)
Definition deliver_fuel : nat := 33.
(** [src/kernel/process/signal.c:185-220] signal_deliver *)
Definition signal_deliver (writable : Z → Z → bool) (p : sproc) (regs : syscall_regs)
    (m : user_memory) : option (fate (sproc * syscall_regs * user_memory)) :=
  deliver_loop deliver_fuel writable p regs m.

(** [src/kernel/process/signal.c:222-233] signal_fault *)
Definition signal_fault (writable : Z → Z → bool) (sig : Z) (cur : option sproc)
    (regs : syscall_regs) (m : user_memory) : option (fate (sproc * syscall_regs * user_memory)) :=
  match cur with
  | None => Some (Exits (if 0 <? sig then sig else SIGSEGV))
  | Some p =>
      if negb (signal_valid sig) then Some (Exits (if 0 <? sig then sig else SIGSEGV)) else
      let handled := match signals p with
                     | Some (_, t) => (SIGNAL_ACTION_IGNORE <? handler (action_of t sig)) &&
                                      negb (has (sig_blocked p) (SIG_BIT sig))
                     | None => false end in
      if negb handled then Some (Exits sig) else signal_deliver writable (raise sig p) regs m
  end.

(** [readable] is the answer of [process_user_buffer], which also means that a
    frame can be read at the address.  The first component is the result, the
    [int32_t] the C function returns.
    [src/kernel/process/signal.c:235-253] signal_return *)
Definition signal_return (readable : Z → Z → bool) (p : sproc) (regs : syscall_regs)
    (m : user_memory) : fate (Z * sproc * syscall_regs) :=
  let base := u64 (rsp regs - 8) in
  match m !! base with
  | Some frame =>
      if (USER_TOP_ADDRESS <=? base) || negb (readable base sizeof_signal_frame) then Exits SIGSEGV else
      if (USER_TOP_ADDRESS <=? rip (saved_regs frame)) || (USER_TOP_ADDRESS <=? rsp (saved_regs frame))
      then Exits SIGSEGV else
      let p := p <| sig_blocked := Z.land (saved_mask frame) (not64 SIG_UNBLOCKABLE) |> in
      let regs := (saved_regs frame) <| cs := USER_CODE_SELECTOR |> <| ss := USER_DATA_SELECTOR |>
        <| rflags := Z.lor (Z.land (rflags (saved_regs frame)) USER_FLAGS_MASK) 514 |> in
      Goes (i32 (rax (saved_regs frame)), p, regs)
  | None => Exits SIGSEGV
  end.

(** What the interrupt handler does with the result of a system call.
    [src/arch/x86_64/idt/c/idt.c:191-192] isr_handler *)
Definition store_result (ret : Z) (regs : syscall_regs) : syscall_regs := regs <| rax := u64 ret |>.

(** The result, the action stored through [previous] and the process.
    [src/kernel/process/signal.c:255-274] signal_action_set *)
Definition signal_action_set (cur : option sproc) (sig : Z) (action : option ksigaction)
    (s : slab) (q : pmm) : Z * option ksigaction * option sproc * slab * pmm :=
  match cur with
  | None => (- KERR_INVAL, None, cur, s, q)
  | Some p =>
      if negb (signal_valid sig) then (- KERR_INVAL, None, cur, s, q) else
      if bool_decide (action ≠ None) && ((sig =? SIGKILL) || (sig =? SIGSTOP))
      then (- KERR_INVAL, None, cur, s, q) else
      let '(table, p, s, q) := signals_ensure p s q in
      match table with
      | None => (- KERR_NOMEM, None, Some p, s, q)
      | Some (a, t) =>
          let previous := Some (action_of t sig) in
          match action with
          | None => (0, previous, Some p, s, q)
          | Some act =>
              let p := p <| signals := Some (a, aset t sig act) |> in
              let p := if handler act =? SIGNAL_ACTION_IGNORE
                       then p <| sig_pending := Z.land (sig_pending p) (not64 (SIG_BIT sig)) |> else p in
              (0, previous, Some p, s, q)
          end
      end
  end.

(** [src/kernel/process/signal.c:276-300] signal_mask_change *)
Definition signal_mask_change (cur : option sproc) (how : Z) (set : option Z)
    : Z * option Z * option sproc :=
  match cur with
  | None => (- KERR_INVAL, None, cur)
  | Some p =>
      let previous := Some (sig_blocked p) in
      match set with
      | None => (0, previous, cur)
      | Some v =>
          let value := Z.land v (not64 SIG_UNBLOCKABLE) in
          if how =? SIGNAL_BLOCK then
            (0, previous, Some (p <| sig_blocked := Z.lor (sig_blocked p) value |>))
          else if how =? SIGNAL_UNBLOCK then
            (0, previous, Some (p <| sig_blocked := Z.land (sig_blocked p) (not64 value) |>))
          else if how =? SIGNAL_SETMASK then (0, previous, Some (p <| sig_blocked := value |>))
          else (- KERR_INVAL, previous, cur)
      end
  end.

(** [src/kernel/process/signal.c:302-308] signal_pending_get *)
Definition signal_pending_get (cur : option sproc) : Z * option Z :=
  match cur with
  | None => (- KERR_INVAL, None)
  | Some p => (0, Some (Z.land (sig_pending p) (sig_blocked p)))
  end.

(** Each round of the loop finds the process as the schedule has it.
    [src/kernel/process/signal.c:310-316] signal_pause *)
Fixpoint signal_pause (sched : list (option sproc)) : option Z :=
  match sched with
  | [] => None
  | cur :: sched' => if signal_pending_current cur then Some (- KERR_INTR) else signal_pause sched'
  end.

(** ** Bits *)

Lemma sig_bit s : 1 ≤ s ≤ 64 → SIG_BIT s = 2 ^ (s - 1).
Proof.
  intros Hs. unfold SIG_BIT. rewrite Z.shiftl_1_l. apply u64_small. split; [apply Z.pow_nonneg; lia|].
  apply Z.pow_lt_mono_r; lia.
Qed.

Lemma has_testbit x s : 1 ≤ s ≤ 64 → has x (SIG_BIT s) = Z.testbit x (s - 1).
Proof.
  intros Hs. unfold has. rewrite sig_bit by done. rewrite land_pow2 by lia.
  destruct (Z.testbit x (s - 1)); [|done]. apply negb_true_iff, Z.eqb_neq.
  pose proof (Z.pow_pos_nonneg 2 (s - 1)). lia.
Qed.

Lemma not64_bit x i : 0 ≤ i < 64 → Z.testbit (not64 x) i = negb (Z.testbit x i).
Proof.
  intros Hi. unfold not64, u64. rewrite Z.mod_pow2_bits_low by lia. apply Z.lnot_spec. lia.
Qed.

Lemma not64_bit_high x i : 64 ≤ i → Z.testbit (not64 x) i = false.
Proof. intros Hi. unfold not64, u64. apply Z.mod_pow2_bits_high. lia. Qed.

Lemma u64_bit_high x i : is_u64 x → 64 ≤ i → Z.testbit x i = false.
Proof.
  intros H Hi. rewrite <- (u64_small x) by done. unfold u64. apply Z.mod_pow2_bits_high. lia.
Qed.

Lemma u64_land x y : is_u64 x → is_u64 (Z.land x y).
Proof.
  intros [A B]. split; [apply Z.land_nonneg; by left|].
  assert (Z.land x y = Z.land x (Z.land y (Z.ones 64))) as ->.
  { apply Z.bits_inj'. intros i Hi. rewrite !Z.land_spec. destruct (Z.lt_ge_cases i 64) as [L|L].
    - rewrite Z.ones_spec_low by lia. by rewrite andb_true_r.
    - by rewrite (u64_bit_high x i (conj A B) L). }
  rewrite Z.land_assoc, Z.land_ones by lia. apply Z.mod_pos_bound. lia.
Qed.

Lemma unblockable_bit i : 0 ≤ i → Z.testbit SIG_UNBLOCKABLE i = (i =? 8) || (i =? 18).
Proof.
  intros Hi. unfold SIG_UNBLOCKABLE. rewrite !sig_bit by (unfold SIGKILL, SIGSTOP; lia).
  rewrite Z.lor_spec, !Z.pow2_bits_eqb by (unfold SIGKILL, SIGSTOP; lia).
  unfold SIGKILL, SIGSTOP. by rewrite (Z.eqb_sym i 8), (Z.eqb_sym i 18).
Qed.

(** A mask that blocks neither [SIGKILL] nor [SIGSTOP]. *)
Definition mask_ok (x : Z) : Prop := Z.testbit x 8 = false ∧ Z.testbit x 18 = false.

Lemma mask_ok_land x : mask_ok (Z.land x (not64 SIG_UNBLOCKABLE)).
Proof.
  split; rewrite Z.land_spec, not64_bit, unblockable_bit by lia; apply andb_false_r.
Qed.

Lemma mask_ok_lor x y : mask_ok x → mask_ok y → mask_ok (Z.lor x y).
Proof. intros [A B] [C D]. split; by rewrite Z.lor_spec, ?A, ?B, ?C, ?D. Qed.

Lemma mask_ok_sub x y : mask_ok x → mask_ok (Z.land x y).
Proof. intros [A B]. split; by rewrite Z.land_spec, ?A, ?B. Qed.

Lemma land_unblockable_id x : is_u64 x → mask_ok x → Z.land x (not64 SIG_UNBLOCKABLE) = x.
Proof.
  intros U [A B]. apply Z.bits_inj'. intros i Hi. rewrite Z.land_spec.
  destruct (Z.lt_ge_cases i 64) as [L|L].
  - rewrite not64_bit, unblockable_bit by lia.
    destruct (Z.eqb_spec i 8) as [->|]; [by rewrite A|].
    destruct (Z.eqb_spec i 18) as [->|]; [by rewrite B|]. apply andb_true_r.
  - by rewrite (u64_bit_high x i U L).
Qed.

Lemma deliverable_bit p i : 0 ≤ i < 64 → Z.testbit (deliverable p) i =
  Z.testbit (sig_pending p) i && (negb (Z.testbit (sig_blocked p) i) || (i =? 8) || (i =? 18)).
Proof.
  intros Hi. unfold deliverable. rewrite Z.land_spec, Z.lor_spec, not64_bit, unblockable_bit by lia.
  by rewrite orb_assoc.
Qed.

(** ** Delivery takes the lowest signal that is not ignored *)

(** Deliverable and not ignored; [SIGKILL] cannot be ignored. *)
Definition acts (p : sproc) (sig : Z) : bool :=
  has (deliverable p) (SIG_BIT sig) && negb (action_ignored p sig && negb (sig =? SIGKILL)).

(** The pending set without the deliverable signals up to [k]. *)
Definition clear_upto (k : Z) (p : sproc) : sproc :=
  p <| sig_pending := Z.land (sig_pending p) (not64 (Z.land (deliverable p) (Z.ones k))) |>.

(** What is done with the signal chosen. *)
Definition take_signal (writable : Z → Z → bool) (sig : Z) (p : sproc) (regs : syscall_regs)
    (m : user_memory) : fate (sproc * syscall_regs * user_memory) :=
  if sig =? SIGKILL then Exits SIGKILL else
  let action := match signals p with Some (_, t) => action_of t sig | None => action_zero end in
  if handler action =? SIGNAL_ACTION_DEFAULT then Exits sig
  else if USER_TOP_ADDRESS <=? handler action then Exits SIGSEGV
  else deliver_handler writable sig action p regs m.

Definition deliver_result (writable : Z → Z → bool) (chosen : option Z) (p : sproc)
    (regs : syscall_regs) (m : user_memory) : fate (sproc * syscall_regs * user_memory) :=
  match chosen with
  | None => Goes (clear_upto 32 p, regs, m)
  | Some sig => take_signal writable sig (clear_upto sig p) regs m
  end.

Lemma clear_upto_bit k p i : 0 ≤ i < 64 → 0 ≤ k →
  Z.testbit (sig_pending (clear_upto k p)) i =
    Z.testbit (sig_pending p) i && negb (Z.testbit (deliverable p) i && (i <? k)).
Proof.
  intros Hi Hk. unfold clear_upto. simpl. rewrite Z.land_spec, not64_bit, Z.land_spec by done.
  assert (Z.testbit (Z.ones k) i = (i <? k)) as ->; [|done]. destruct (Z.ltb_spec i k).
  - apply Z.ones_spec_low. lia.
  - apply Z.ones_spec_high. lia.
Qed.

Lemma clear_upto_eq k k' p q : is_u64 (sig_pending p) → is_u64 (sig_pending q) → 0 ≤ k → 0 ≤ k' →
  q = p <| sig_pending := sig_pending q |> →
  (∀ i, 0 ≤ i < 64 →
    Z.testbit (sig_pending p) i && negb (Z.testbit (deliverable p) i && (i <? k)) =
    Z.testbit (sig_pending q) i && negb (Z.testbit (deliverable q) i && (i <? k'))) →
  clear_upto k p = clear_upto k' q.
Proof.
  intros Up Uq Hk Hk' E H. assert (sig_pending (clear_upto k p) = sig_pending (clear_upto k' q)) as Ep.
  { apply Z.bits_inj'. intros i Hi. destruct (Z.lt_ge_cases i 64) as [L|L].
    - rewrite !clear_upto_bit by lia. by apply H.
    - unfold clear_upto. simpl. rewrite !Z.land_spec.
      by rewrite (u64_bit_high _ i Up L), (u64_bit_high _ i Uq L). }
  rewrite E in *. destruct p, q. unfold clear_upto in *. unfold set_field in *. simpl in *. by rewrite Ep.
Qed.

Lemma for_first_skip (f : Z → bool) n m i : (∀ j, i ≤ j < i + Z.of_nat n → f j = false) →
  for_first f (n + m) i = for_first f m (i + Z.of_nat n).
Proof.
  revert i. induction n as [|n IH]; intros i H; cbn [Nat.add for_first].
  - by rewrite Z.add_0_r.
  - rewrite H by lia. rewrite IH by (intros; apply H; lia). f_equal. lia.
Qed.

(** Taking one ignored signal off the pending set changes neither what is chosen
    next nor what is left in the end. *)
Section Deliver.
Context (writable : Z → Z → bool).

Definition drop_sig (sig : Z) (p : sproc) : sproc :=
  p <| sig_pending := Z.land (sig_pending p) (not64 (SIG_BIT sig)) |>.

Lemma drop_sig_bit sig p i : 1 ≤ sig ≤ 32 → 0 ≤ i < 64 →
  Z.testbit (sig_pending (drop_sig sig p)) i = Z.testbit (sig_pending p) i && negb (i =? sig - 1).
Proof.
  intros Hs Hi. unfold drop_sig. simpl. rewrite Z.land_spec, not64_bit, sig_bit, Z.pow2_bits_eqb by lia.
  by rewrite Z.eqb_sym.
Qed.

Lemma drop_sig_u64 sig p : is_u64 (sig_pending p) → is_u64 (sig_pending (drop_sig sig p)).
Proof. apply u64_land. Qed.

Lemma deliverable_drop sig p i : 1 ≤ sig ≤ 32 → 0 ≤ i < 64 →
  Z.testbit (deliverable (drop_sig sig p)) i = Z.testbit (deliverable p) i && negb (i =? sig - 1).
Proof.
  intros Hs Hi. rewrite !deliverable_bit, drop_sig_bit by done.
  change (sig_blocked (drop_sig sig p)) with (sig_blocked p).
  destruct (Z.testbit (sig_pending p) i), (i =? sig - 1); simpl; by rewrite ?andb_true_r, ?andb_false_r.
Qed.

(** The signals up to [sig] that are deliverable are cleared along the way. *)
Lemma clear_upto_drop sig k p : is_u64 (sig_pending p) → 1 ≤ sig ≤ 32 → sig ≤ k →
  Z.testbit (deliverable p) (sig - 1) = true →
  clear_upto k (drop_sig sig p) = clear_upto k p.
Proof.
  intros U Hs Hk Hd. symmetry. apply clear_upto_eq; [done|by apply drop_sig_u64|lia|lia|done|].
  intros i Hi. rewrite drop_sig_bit, deliverable_drop by done.
  destruct (Z.eqb_spec i (sig - 1)) as [->|Ne]; simpl.
  - rewrite Hd. destruct (Z.ltb_spec (sig - 1) k); [|lia]. by rewrite !andb_false_r.
  - by rewrite !andb_true_r.
Qed.

Lemma clear_upto_0 p : is_u64 (sig_pending p) → clear_upto 0 p = p.
Proof.
  intros U. unfold clear_upto. rewrite Z.land_0_r.
  assert (Z.land (sig_pending p) (not64 0) = sig_pending p) as ->; [|by destruct p].
  apply Z.bits_inj'. intros i Hi. rewrite Z.land_spec. destruct (Z.lt_ge_cases i 64) as [L|L].
  - rewrite not64_bit, Z.bits_0 by lia. apply andb_true_r.
  - by rewrite (u64_bit_high _ i U L).
Qed.

Lemma clear_upto_first sig p : is_u64 (sig_pending p) → 1 ≤ sig ≤ 32 →
  (∀ i, 0 ≤ i < sig - 1 → Z.testbit (deliverable p) i = false) →
  Z.testbit (deliverable p) (sig - 1) = true → drop_sig sig p = clear_upto sig p.
Proof.
  intros U Hs Lo Hd. transitivity (clear_upto 0 (drop_sig sig p)).
  - symmetry. by apply clear_upto_0, drop_sig_u64.
  - symmetry. apply clear_upto_eq; [done|by apply drop_sig_u64|lia|lia|done|].
    intros i Hi. rewrite drop_sig_bit, deliverable_drop by done.
    destruct (Z.ltb_spec i 0); [lia|]. rewrite !andb_false_r. simpl. rewrite andb_true_r.
    destruct (Z.eqb_spec i (sig - 1)) as [->|Ne]; simpl.
    + rewrite Hd. destruct (Z.ltb_spec (sig - 1) sig); [|lia]. by rewrite !andb_false_r.
    + destruct (Z.ltb_spec i sig); rewrite ?andb_false_r; simpl; [|by rewrite !andb_true_r].
      rewrite Lo by lia. done.
Qed.

Lemma acts_drop sig p c : 1 ≤ sig ≤ 32 → sig < c → c ≤ 32 → acts (drop_sig sig p) c = acts p c.
Proof.
  intros Hs Hc Hb. unfold acts. rewrite !has_testbit, deliverable_drop by lia.
  destruct (Z.eqb_spec (c - 1) (sig - 1)); [lia|]. simpl. by rewrite andb_true_r.
Qed.

(** What the loop does with the lowest deliverable signal. *)
Lemma deliver_round fuel p regs m sig : is_u64 (sig_pending p) →
  for_first (λ c, has (deliverable p) (SIG_BIT c)) SIGNAL_COUNT 1 = Some sig →
  deliver_loop (S fuel) writable p regs m =
    if acts p sig then Some (take_signal writable sig (drop_sig sig p) regs m)
    else deliver_loop fuel writable (drop_sig sig p) regs m.
Proof.
  intros U E. cbn [deliver_loop]. pose proof E as (Hs&Hd&_)%for_first_Some.
  change (1 + Z.of_nat SIGNAL_COUNT) with 33 in Hs.
  destruct (Z.eqb_spec (deliverable p) 0) as [Z0|_].
  { rewrite has_testbit, Z0, Z.bits_0 in Hd by lia. done. }
  rewrite E. unfold acts. rewrite Hd. cbn [andb]. fold (drop_sig sig p). unfold take_signal.
  destruct (sig =? SIGKILL); [by rewrite andb_false_r|]. rewrite andb_true_r.
  unfold action_ignored. change (signals (drop_sig sig p)) with (signals p).
  destruct (signals p) as [[a t]|]; simpl.
  - destruct (handler (action_of t sig) =? SIGNAL_ACTION_IGNORE); [done|].
    destruct (handler (action_of t sig) =? SIGNAL_ACTION_DEFAULT); simpl; [|by destruct (_ <=? _)].
    by destruct (has SIG_DEFAULT_IGNORED (SIG_BIT sig)).
  - by destruct (has SIG_DEFAULT_IGNORED (SIG_BIT sig)).
Qed.

Lemma deliver_loop_spec regs m fuel : ∀ p c, is_u64 (sig_pending p) → 1 ≤ c ≤ 33 →
  33 - c < Z.of_nat fuel → (∀ i, 0 ≤ i < c - 1 → Z.testbit (deliverable p) i = false) →
  deliver_loop fuel writable p regs m =
    Some (deliver_result writable (for_first (acts p) (Z.to_nat (33 - c)) c) p regs m).
Proof.
  induction fuel as [|fuel IH]; intros p c U Hc Hf Lo; [lia|].
  assert (∀ x, 1 ≤ x < c → has (deliverable p) (SIG_BIT x) = false) as Lo'.
  { intros x Hx. rewrite has_testbit by lia. apply Lo. lia. }
  destruct (for_first (λ x, has (deliverable p) (SIG_BIT x)) SIGNAL_COUNT 1) as [sig|] eqn:E.
  - pose proof E as (Hs&Hd&Hlo)%for_first_Some. change (1 + Z.of_nat SIGNAL_COUNT) with 33 in Hs.
    assert (c ≤ sig) as Hcs by (destruct (Z.lt_ge_cases sig c); [rewrite Lo' in Hd by lia; done|done]).
    rewrite (deliver_round _ _ _ _ sig) by done. rewrite has_testbit in Hd by lia.
    assert (∀ i, 0 ≤ i < sig - 1 → Z.testbit (deliverable p) i = false) as Lo2.
    { intros i Hi. specialize (Hlo (i + 1) ltac:(lia)). rewrite has_testbit in Hlo by lia.
      by replace (i + 1 - 1) with i in Hlo by lia. }
    replace (Z.to_nat (33 - c)) with (Z.to_nat (sig - c) + Z.to_nat (33 - sig))%nat by lia.
    rewrite for_first_skip.
    2:{ intros j Hj. unfold acts. rewrite has_testbit by lia. by rewrite Lo2 by lia. }
    rewrite Z2Nat.id by lia. replace (c + (sig - c)) with sig by lia.
    replace (Z.to_nat (33 - sig)) with (S (Z.to_nat (33 - (sig + 1)))) by lia. cbn [for_first].
    destruct (acts p sig).
    + unfold deliver_result. by rewrite clear_upto_first by (done || lia).
    + rewrite (IH (drop_sig sig p) (sig + 1)); [|by apply drop_sig_u64|lia|lia|].
      2:{ intros i Hi. rewrite deliverable_drop by lia. destruct (Z.eqb_spec i (sig - 1)).
          - apply andb_false_r. - rewrite Lo2 by lia. done. }
      f_equal. rewrite (for_first_ext (acts (drop_sig sig p)) (acts p)).
      2:{ intros j Hj. apply acts_drop; lia. }
      unfold deliver_result. destruct (for_first (acts p) _ _) as [s|] eqn:Es.
      * apply for_first_Some in Es as (Hss&_). rewrite clear_upto_drop by (done || lia). done.
      * rewrite clear_upto_drop by (done || lia). done.
  - rewrite for_first_None in E. change (1 + Z.of_nat SIGNAL_COUNT) with 33 in E.
    assert (for_first (acts p) (Z.to_nat (33 - c)) c = None) as ->.
    { apply for_first_None. intros j Hj. unfold acts. by rewrite E by lia. }
    assert (p = clear_upto 32 p) as Ec.
    { transitivity (clear_upto 0 p).
      - symmetry. by apply clear_upto_0.
      - apply clear_upto_eq; try done; [by destruct p|]. intros i Hi.
        destruct (Z.ltb_spec i 0), (Z.ltb_spec i 32); try lia; rewrite ?andb_false_r; [|done].
        specialize (E (i + 1) ltac:(lia)). rewrite has_testbit in E by lia.
        replace (i + 1 - 1) with i in E by lia. by rewrite E. }
    cbn [deliver_loop deliver_result]. rewrite <- Ec.
    destruct (deliverable p =? 0); [done|].
    rewrite (proj2 (for_first_None _ _ _)); [done|exact E].
Qed.
End Deliver.

(** ** The life of a process *)

(** What can happen to the signals of a process; [None] when it ends. *)
Inductive sig_event :=
| SgSend (caller_uid : option Z) (sig : Z)
| SgRaise (sig : Z)
| SgChildExit
| SgDeliver (writable : Z → Z → bool) (regs : syscall_regs) (m : user_memory)
| SgFault (writable : Z → Z → bool) (sig : Z) (regs : syscall_regs) (m : user_memory)
| SgReturn (readable : Z → Z → bool) (regs : syscall_regs) (m : user_memory)
| SgAction (sig : Z) (action : option ksigaction) (s : slab) (q : pmm)
| SgMask (how : Z) (set : option Z)
| SgExec.

Definition survivor {A} (f : option (fate A)) : option A :=
  match f with Some (Goes a) => Some a | _ => None end.

Definition sig_exec (e : sig_event) (p : sproc) : option sproc :=
  match e with
  | SgSend u sig => (signal_send u (Some p) sig).1.2
  | SgRaise sig => signal_raise_current (Some p) sig
  | SgChildExit => Some (signal_notify_child_exit p)
  | SgDeliver w regs m => '(p, _, _) ← survivor (signal_deliver w p regs m); Some p
  | SgFault w sig regs m => '(p, _, _) ← survivor (signal_fault w sig (Some p) regs m); Some p
  | SgReturn r regs m =>
      match signal_return r p regs m with Goes (_, p, _) => Some p | Exits _ => None end
  | SgAction sig act s q => (signal_action_set (Some p) sig act s q).1.1.2
  | SgMask how set => (signal_mask_change (Some p) how set).2
  | SgExec => Some (signal_exec_reset p)
  end.

(** The arguments are values of their C types. *)
Definition sig_event_ok (e : sig_event) : Prop :=
  match e with
  | SgReturn _ _ m => ∀ a f, m !! a = Some f → is_u64 (saved_mask f)
  | SgAction _ act _ _ => ∀ a, act = Some a → is_u64 (mask a)
  | SgMask _ set => ∀ v, set = Some v → is_u64 v
  | _ => True
  end.

Inductive sig_reachable : sproc → Prop :=
| sig_boot st uid tid : sig_reachable (Sproc st uid tid 0 0 None)
| sig_fork child parent s q : sig_reachable child → sig_reachable parent →
    sig_reachable (signal_clone child parent s q).1.1.2
| sig_step p e p' : sig_reachable p → sig_event_ok e → sig_exec e p = Some p' → sig_reachable p'.

Record sproc_ok (p : sproc) : Prop := {
  spo_pending : is_u64 (sig_pending p);
  spo_blocked : is_u64 (sig_blocked p);
  spo_mask : mask_ok (sig_blocked p);
  spo_actions : ∀ a t x, signals p = Some (a, t) → x ∈ t → is_u64 (mask x);
}.

Lemma u64_lor x y : is_u64 x → is_u64 y → is_u64 (Z.lor x y).
Proof.
  intros [A B] [C D]. split; [by apply Z.lor_nonneg|].
  destruct (Z.eq_dec (Z.lor x y) 0) as [->|Hz]; [done|].
  assert (0 ≤ Z.lor x y) by (by apply Z.lor_nonneg).
  apply Z.log2_lt_pow2; [lia|]. rewrite Z.log2_lor by done.
  assert (∀ z, 0 ≤ z < 2 ^ 64 → Z.log2 z < 64) as L.
  { intros z Hz'. destruct (Z.eq_dec z 0) as [->|]; [done|]. apply Z.log2_lt_pow2; lia. }
  pose proof (L x). pose proof (L y). lia.
Qed.

Lemma sig_bit_u64 sig : is_u64 (SIG_BIT sig).
Proof. apply u64_range. Qed.

Lemma raise_ok sig p : sproc_ok p → sproc_ok (raise sig p).
Proof. intros W. split; simpl; try apply W. apply u64_lor; [apply W|apply sig_bit_u64]. Qed.

Lemma pending_ok x p : sproc_ok p → is_u64 x → sproc_ok (p <| sig_pending := x |>).
Proof. intros W U. split; simpl; try apply W; done. Qed.

Lemma actions_ok a t p : sproc_ok p → (∀ x, x ∈ t → is_u64 (mask x)) →
  sproc_ok (p <| signals := Some (a, t) |>).
Proof. intros W H. split; simpl; try apply W. intros b u x [= <- <-]. apply H. Qed.

Lemma blocked_ok x p : sproc_ok p → is_u64 x → mask_ok x → sproc_ok (p <| sig_blocked := x |>).
Proof. intros W U M. split; simpl; try apply W; done. Qed.

Lemma action_zero_ok : is_u64 (mask action_zero).
Proof. by split. Qed.

Lemma no_actions_ok x : x ∈ no_actions → is_u64 (mask x).
Proof. intros Hx. unfold no_actions in Hx. by apply elem_of_replicate in Hx as [-> _]. Qed.

Lemma aset_actions_ok t sig x y : (∀ x, x ∈ t → is_u64 (mask x)) → is_u64 (mask y) →
  x ∈ aset t sig y → is_u64 (mask x).
Proof.
  intros H Hy Hx. unfold aset in Hx. apply list_elem_of_lookup in Hx as [i Hi].
  destruct (decide (i = Z.to_nat sig)) as [->|Ne].
  - destruct (decide (Z.to_nat sig < length t)%nat) as [L|L].
    + rewrite list_lookup_insert_eq in Hi by done. by injection Hi as <-.
    + rewrite list_insert_ge in Hi by lia. apply H. by eapply list_elem_of_lookup_2.
  - rewrite list_lookup_insert_ne in Hi by done. apply H. by eapply list_elem_of_lookup_2.
Qed.

Lemma action_mask_ok p a t sig : sproc_ok p → signals p = Some (a, t) → is_u64 (mask (action_of t sig)).
Proof.
  intros W E. unfold action_of, aget. rewrite nth_lookup.
  destruct (t !! Z.to_nat sig) as [x|] eqn:Ex; [|done]. simpl.
  apply (spo_actions _ W a t); [done|]. by eapply list_elem_of_lookup_2.
Qed.

Lemma enter_handler_ok sig act p : sproc_ok p → is_u64 (mask act) → sproc_ok (enter_handler sig act p).
Proof.
  intros W Ua. unfold enter_handler. cbv zeta.
  set (p1 := p <| sig_blocked := Z.lor (sig_blocked p) (mask act) |>).
  assert (is_u64 (sig_blocked p1)) as U1 by (apply u64_lor; [apply W|done]).
  set (p2 := if negb _ then _ else p1).
  assert (sproc_ok (p2 <| sig_blocked := Z.land (sig_blocked p2) (not64 SIG_UNBLOCKABLE) |>)) as W3.
  { unfold p2. destruct (negb _); split; simpl; try apply W; try apply mask_ok_land; apply u64_land;
      [apply u64_lor; [done|apply sig_bit_u64]|done]. }
  set (p3 := p2 <| sig_blocked := _ |>) in *.
  destruct (signals p3) as [[a t]|] eqn:Es; [|done].
  destruct (has (sa_flags act) SIGNAL_FLAG_RESETHAND); [|done].
  apply actions_ok; [done|]. intros x Hx. eapply aset_actions_ok; [|exact action_zero_ok|exact Hx].
  intros y Hy. by apply (spo_actions _ W3 a t).
Qed.

Lemma deliver_handler_ok w sig act p regs m p' regs' m' : sproc_ok p → is_u64 (mask act) →
  deliver_handler w sig act p regs m = Goes (p', regs', m') → sproc_ok p'.
Proof.
  intros W Ua E. unfold deliver_handler in E. destruct (_ || _); [done|]. injection E as <- _ _.
  by apply enter_handler_ok.
Qed.

Lemma signal_deliver_spec w p regs m : is_u64 (sig_pending p) →
  signal_deliver w p regs m = Some (deliver_result w (for_first (acts p) SIGNAL_COUNT 1) p regs m).
Proof.
  intros U. unfold signal_deliver, deliver_fuel. apply (deliver_loop_spec w regs m 33 p 1); try done.
  intros i Hi. lia.
Qed.

Lemma clear_upto_ok k p : sproc_ok p → sproc_ok (clear_upto k p).
Proof. intros W. apply pending_ok; [done|]. apply u64_land, W. Qed.

Lemma deliver_ok w p regs m p' regs' m' : sproc_ok p →
  signal_deliver w p regs m = Some (Goes (p', regs', m')) → sproc_ok p'.
Proof.
  intros W. rewrite signal_deliver_spec by apply W.
  generalize (for_first (acts p) SIGNAL_COUNT 1). intros chosen E. injection E as E.
  unfold deliver_result in E. destruct chosen as [sig|].
  2:{ injection E as <- _ _. by apply clear_upto_ok. }
  unfold take_signal in E. destruct (sig =? SIGKILL); [done|].
  destruct (_ =? SIGNAL_ACTION_DEFAULT); [done|]. destruct (_ <=? _); [done|].
  apply deliver_handler_ok in E; [done|by apply clear_upto_ok|].
  change (signals (clear_upto sig p)) with (signals p).
  destruct (signals p) as [[a t]|] eqn:Es; [by eapply action_mask_ok|done].
Qed.

Lemma reset_actions_ok n sig t : (∀ x, x ∈ t → is_u64 (mask x)) →
  ∀ x, x ∈ reset_actions n sig t → is_u64 (mask x).
Proof.
  revert sig t; induction n as [|n IH]; intros sig t H; cbn [reset_actions]; [done|].
  apply IH. destruct (negb _); [|done]. intros x Hx.
  eapply aset_actions_ok; [exact H|exact action_zero_ok|exact Hx].
Qed.

Lemma signals_ensure_ok p s q : sproc_ok p →
  let '(t, p', _, _) := signals_ensure p s q in sproc_ok p' ∧ t = signals p' ∧
  sig_pending p' = sig_pending p ∧ sig_blocked p' = sig_blocked p.
Proof.
  intros W. unfold signals_ensure. destruct (signals p) as [t|] eqn:E; [done|].
  destruct (oom_slab_alloc _ _ _) as [[a s'] q']. destruct (a =? 0); [done|].
  split; [|done]. apply actions_ok; [done|]. apply no_actions_ok.
Qed.

Lemma signal_send_ok u sig p p' : sproc_ok p → (signal_send u (Some p) sig).1.2 = Some p' → sproc_ok p'.
Proof.
  intros W. unfold signal_send. destruct (_ || _); [by intros [= <-]|].
  destruct (decide _); [by intros [= <-]|]. cbv zeta. destruct (match u with Some _ => _ | None => _ end);
    [by intros [= <-]|]. cbn [fst snd]. intros E. injection E as <-. destruct (_ && _); [by apply raise_ok|done].
Qed.

Lemma signal_raise_ok sig p p' : sproc_ok p → signal_raise_current (Some p) sig = Some p' → sproc_ok p'.
Proof.
  intros W. unfold signal_raise_current. destruct (negb _); [by intros [= <-]|].
  destruct (_ || _); intros E; injection E as <-; [by apply raise_ok|done].
Qed.

Lemma signal_action_set_ok sig act s q p p' : sproc_ok p → (∀ a, act = Some a → is_u64 (mask a)) →
  (signal_action_set (Some p) sig act s q).1.1.2 = Some p' → sproc_ok p'.
Proof.
  intros W Ha. unfold signal_action_set. destruct (negb _); [by intros [= <-]|].
  destruct (_ && _); [by intros [= <-]|]. pose proof (signals_ensure_ok p s q W) as Hs.
  destruct (signals_ensure p s q) as [[[t p1] s1] q1]. destruct Hs as (W1&Et&_).
  destruct t as [[a t]|]; [|by intros [= <-]]. destruct act as [act|]; [|by intros [= <-]].
  cbv zeta. cbn [fst snd]. intros E. injection E as <-.
  assert (sproc_ok (p1 <| signals := Some (a, aset t sig act) |>)) as W2.
  { apply actions_ok; [done|]. intros x Hx. eapply aset_actions_ok; [|by apply Ha|exact Hx].
    intros y Hy. by apply (spo_actions _ W1 a t). }
  destruct (_ =? SIGNAL_ACTION_IGNORE); [|done]. apply pending_ok; [done|]. apply u64_land, W1.
Qed.

Lemma signal_mask_ok how v p p' : sproc_ok p → (∀ x, v = Some x → is_u64 x) →
  (signal_mask_change (Some p) how v).2 = Some p' → sproc_ok p'.
Proof.
  intros W Hv. unfold signal_mask_change. destruct v as [x|]; [|by intros [= <-]].
  specialize (Hv x eq_refl). cbv zeta.
  assert (is_u64 (Z.land x (not64 SIG_UNBLOCKABLE))) as U by by apply u64_land.
  destruct (how =? SIGNAL_BLOCK); [|destruct (how =? SIGNAL_UNBLOCK);
    [|destruct (how =? SIGNAL_SETMASK); [|by intros [= <-]]]];
    cbn [fst snd]; intros E; injection E as <-; apply blocked_ok; try done.
  - apply u64_lor; [apply W|done].
  - apply mask_ok_lor; [apply W|apply mask_ok_land].
  - apply u64_land, W.
  - apply mask_ok_sub, W.
  - apply mask_ok_land.
Qed.

Lemma sig_exec_ok e p p' : sproc_ok p → sig_event_ok e → sig_exec e p = Some p' → sproc_ok p'.
Proof.
  intros W He. destruct e; unfold sig_exec.
  - by apply signal_send_ok.
  - by apply signal_raise_ok.
  - intros E. injection E as <-. unfold signal_notify_child_exit. destruct (_ || _); [by apply raise_ok|done].
  - destruct (signal_deliver _ _ _ _) as [[[[p1 r1] m1]|x]|] eqn:E; try done.
    cbn. intros [= <-]. by apply deliver_ok in E.
  - unfold signal_fault. destruct (negb (signal_valid sig)); [done|]. destruct (negb _); [done|].
    destruct (signal_deliver _ _ _ _) as [[[[p1 r1] m1]|x]|] eqn:E; try done.
    cbn. intros [= <-]. apply deliver_ok in E; [done|by apply raise_ok].
  - unfold signal_return. destruct (m !! _) as [f|] eqn:Em; [|done]. destruct (_ || _); [done|].
    destruct (_ || _); [done|]. intros E. injection E as <-.
    apply blocked_ok; [done|by apply u64_land, (He _ f Em)|apply mask_ok_land].
  - by apply signal_action_set_ok.
  - by apply signal_mask_ok.
  - intros E. injection E as <-. unfold signal_exec_reset. destruct (signals p) as [[a t]|] eqn:Es; [|done].
    apply actions_ok; [done|]. apply reset_actions_ok. intros x. by apply (spo_actions _ W a t).
Qed.

Lemma signal_clone_ok child parent s q : sproc_ok child → sproc_ok parent →
  sproc_ok (signal_clone child parent s q).1.1.2.
Proof.
  intros Wc Wp. unfold signal_clone. cbv zeta.
  assert (sproc_ok (child <| sig_blocked := sig_blocked parent |> <| sig_pending := 0 |>)) as W.
  { apply pending_ok; [|done]. apply blocked_ok; [done|apply Wp..]. }
  destruct (signals parent) as [[a t]|] eqn:Es; [|done].
  pose proof (signals_ensure_ok _ s q W) as Hs.
  destruct (signals_ensure _ s q) as [[[t1 p1] s1] q1]. destruct Hs as (W1&_).
  destruct t1 as [[a1 t1]|]; [|done]. apply actions_ok; [done|].
  intros x. by apply (spo_actions _ Wp a t).
Qed.

Lemma sig_reachable_ok p : sig_reachable p → sproc_ok p.
Proof.
  induction 1 as [st uid tid|child parent s q _ IHc _ IHp|p e p' _ IH He E].
  - by split.
  - by apply signal_clone_ok.
  - by eapply sig_exec_ok.
Qed.

Fixpoint sig_run (es : list sig_event) (p : sproc) : option sproc :=
  match es with
  | [] => Some p
  | e :: es' => match sig_exec e p with Some p' => sig_run es' p' | None => None end
  end.

Lemma sig_run_reachable es p p' : sig_reachable p → Forall sig_event_ok es →
  sig_run es p = Some p' → sig_reachable p'.
Proof.
  intros R He. revert p R. induction He as [|e es He _ IH]; intros p R E; cbn [sig_run] in E; [by injection E as <-|].
  destruct (sig_exec e p) as [p1|] eqn:E1; [|done]. apply (IH p1); [|done]. by apply (sig_step p e).
Qed.

Lemma acts_kill p : is_u64 (sig_pending p) → has (sig_pending p) (SIG_BIT SIGKILL) = true →
  acts p SIGKILL = true.
Proof.
  intros U. unfold acts, SIGKILL. rewrite !has_testbit, deliverable_bit by lia. intros ->.
  cbn [Z.sub Z.eqb negb andb]. by rewrite orb_true_r, andb_false_r.
Qed.

(** ** Properties *)

(** C34: no process a kernel can get to by any sequence of signal calls, forks,
    deliveries and returns from handlers (with whatever saved mask the user put
    in its frame) has SIGKILL or SIGSTOP blocked; and a pending SIGKILL always
    counts as pending and ends the process at the next delivery unless a lower
    signal is handled first. *)
Theorem sigkill_not_blockable p : sig_reachable p →
  mask_ok (sig_blocked p) ∧ is_u64 (sig_pending p) ∧ is_u64 (sig_blocked p) ∧
  (has (sig_pending p) (SIG_BIT SIGKILL) = true →
   signal_pending_current (Some p) = true ∧
   ∀ w regs m, (∀ sig, 1 ≤ sig < SIGKILL → acts p sig = false) →
     signal_deliver w p regs m = Some (Exits SIGKILL)).
Proof.
  intros R%sig_reachable_ok. split_and!; try apply R. intros K.
  pose proof (acts_kill p (spo_pending p R) K) as Ha. split.
  - unfold signal_pending_current.
    assert (deliverable p ≠ 0) as Hz.
    { intros Z0. unfold acts in Ha. rewrite has_testbit, Z0, Z.bits_0 in Ha by (unfold SIGKILL; lia). done. }
    destruct (Z.eqb_spec (deliverable p) 0) as [|_]; [done|].
    destruct (for_first _ _ _) eqn:E; [done|]. rewrite for_first_None in E.
    specialize (E SIGKILL ltac:(unfold SIGKILL, SIGNAL_COUNT; lia)). unfold acts in Ha. congruence.
  - intros w regs m Lo. rewrite signal_deliver_spec by apply R.
    rewrite (for_first_intro _ _ _ SIGKILL); [done|unfold SIGKILL, SIGNAL_COUNT; lia|done|].
    intros j Hj. apply Lo. lia.
Qed.

(** A process whose SIGKILL is pending while it blocks all it can. *)
Definition demo_stubborn : option sproc :=
  sig_run [SgSend None SIGKILL; SgMask SIGNAL_SETMASK (Some (2 ^ 64 - 1))]
    (Sproc PROCESS_READY 1000 1 0 0 None).

Lemma sigkill_not_blockable_witness :
  ∃ p, demo_stubborn = Some p ∧ mask_ok (sig_blocked p) ∧ signal_pending_current (Some p) = true.
Proof.
  destruct demo_stubborn as [p|] eqn:E; [|by vm_compute in E].
  exists p. split; [done|].
  assert (sig_reachable p) as R.
  { unfold demo_stubborn in E. eapply sig_run_reachable; [apply sig_boot| |exact E].
    apply Forall_forall. intros e He.
    repeat (apply elem_of_cons in He as [->|He]; [first [exact I|by intros v [= <-]]|]). by apply elem_of_nil in He. }
  destruct (sigkill_not_blockable p R) as (M&_&_&K). split; [exact M|]. apply K.
  vm_compute in E. injection E as <-. vm_compute. reflexivity.
Defined.

Lemma deliver_handler_pending w sig act p regs m p' regs' m' :
  deliver_handler w sig act p regs m = Goes (p', regs', m') → sig_pending p' = sig_pending p.
Proof.
  unfold deliver_handler. destruct (_ || _); [done|]. intros E. injection E as <- _ _.
  unfold enter_handler. cbv zeta. destruct (negb _), (signals _) as [[a t]|]; try done;
    by destruct (has _ SIGNAL_FLAG_RESETHAND).
Qed.

Lemma take_signal_pending w sig p regs m p' regs' m' :
  take_signal w sig p regs m = Goes (p', regs', m') → sig_pending p' = sig_pending p.
Proof.
  unfold take_signal. destruct (_ =? _); [done|]. cbv zeta. destruct (_ =? SIGNAL_ACTION_DEFAULT); [done|].
  destruct (_ <=? _); [done|]. apply deliver_handler_pending.
Qed.

(** The signals delivery leaves alone: the ones it may not deliver, and all but
    the one it takes. *)
Definition left_alone (p : sproc) (s : Z) : bool :=
  negb (has (deliverable p) (SIG_BIT s)) ||
  (acts p s && negb (bool_decide (for_first (acts p) SIGNAL_COUNT 1 = Some s))).

Lemma left_alone_kept p s : 1 ≤ s ≤ 32 → left_alone p s = true →
  has (sig_pending p) (SIG_BIT s) = true →
  has (sig_pending (match for_first (acts p) SIGNAL_COUNT 1 with
                    | Some sig => clear_upto sig p | None => clear_upto 32 p end)) (SIG_BIT s) = true.
Proof.
  intros Hs L Hp. unfold left_alone in L. rewrite has_testbit in * by lia.
  destruct (for_first (acts p) SIGNAL_COUNT 1) as [sig|] eqn:E.
  - apply for_first_Some in E as (Hsig&_&Lo). rewrite clear_upto_bit, Hp by lia. cbn [andb].
    apply orb_prop in L as [L|L]; [by apply negb_true_iff in L as ->|].
    apply andb_prop in L as [La Ln]. apply negb_true_iff, bool_decide_eq_false in Ln.
    destruct (Z.ltb_spec (s - 1) sig); [|by rewrite andb_false_r].
    assert (s < sig) by (destruct (decide (s = sig)); [congruence|lia]).
    rewrite Lo in La by lia. done.
  - rewrite for_first_None in E. rewrite clear_upto_bit, Hp by lia. cbn [andb].
    apply orb_prop in L as [L|L]; [by apply negb_true_iff in L as ->|].
    apply andb_prop in L as [La _]. rewrite E in La by (unfold SIGNAL_COUNT; lia). done.
Qed.

(** Delivery to a reachable process always ends (the loop needs at most 33
    rounds), takes the lowest deliverable signal that is not ignored, with the
    registers and the user memory untouched when there is none, and when the
    process goes on no signal is lost: one that may not be delivered and every
    other one with an effect stays pending. *)
Theorem deliver_lowest w p regs m : sig_reachable p →
  ∃ f, signal_deliver w p regs m = Some f ∧
    match for_first (acts p) SIGNAL_COUNT 1 with
    | Some sig => f = take_signal w sig (clear_upto sig p) regs m
    | None => f = Goes (clear_upto 32 p, regs, m)
    end ∧
    ∀ p' regs' m', f = Goes (p', regs', m') → ∀ s, 1 ≤ s ≤ 32 → left_alone p s = true →
      has (sig_pending p) (SIG_BIT s) = true → has (sig_pending p') (SIG_BIT s) = true.
Proof.
  intros R%sig_reachable_ok. rewrite signal_deliver_spec by apply R.
  eexists; split; [reflexivity|]. pose proof (left_alone_kept p) as K. unfold deliver_result.
  destruct (for_first (acts p) SIGNAL_COUNT 1) as [sig|]; (split; [done|]); intros p' regs' m' E s Hs L Hp.
  - apply take_signal_pending in E as ->. by apply K.
  - injection E as <- _ _. by apply K.
Qed.

(** Three signals are pending: 17 is ignored, 13 is blocked, 30 is handled. *)
Definition demo_action : ksigaction := Ksigaction 4096 0 8192 0 0.
Definition demo_regs : syscall_regs :=
  SyscallRegs 0 0 0 0 0 0 0 0 0 1 2 3 4 5 6 128 0 16384 27 514 65536 35.
Definition demo_signalled : option sproc :=
  sig_run [SgAction 30 (Some demo_action) oom_slab_init demo_pmm;
           SgMask SIGNAL_BLOCK (Some (2 ^ 12)); SgRaise 30; SgRaise 13]
    (Sproc PROCESS_RUNNING 1000 1 0 0 None).

Lemma demo_signalled_reachable p : demo_signalled = Some p → sig_reachable p.
Proof.
  unfold demo_signalled. apply sig_run_reachable; [apply sig_boot|]. apply Forall_forall. intros e He.
    repeat (apply elem_of_cons in He as [->|He]; [first [exact I|by intros v [= <-]]|]). by apply elem_of_nil in He.
Qed.

Definition all_writable (_ _ : Z) : bool := true.

Lemma deliver_lowest_witness :
  ∃ p f, demo_signalled = Some p ∧ for_first (acts p) SIGNAL_COUNT 1 = Some 30 ∧
    signal_deliver all_writable p demo_regs ∅ = Some f ∧
    f = take_signal all_writable 30 (clear_upto 30 p) demo_regs ∅.
Proof.
  destruct demo_signalled as [p|] eqn:E; [|by vm_compute in E].
  pose proof (deliver_lowest all_writable p demo_regs ∅ (demo_signalled_reachable p E)) as (f&Hf&Hc&_).
  assert (for_first (acts p) SIGNAL_COUNT 1 = Some 30) as H30.
  { vm_compute in E. injection E as <-. vm_compute. reflexivity. }
  rewrite H30 in Hc. exists p, f. split; [reflexivity|]. split; [exact H30|]. split; [exact Hf|exact Hc].
Defined.

(** *** The frame *)

Lemma land_not15 x : is_u64 x → Z.land x (not64 15) = x - x mod 16.
Proof.
  intros U. assert (Z.land x (not64 15) = Z.ldiff x (Z.ones 4)) as ->.
  { apply Z.bits_inj'. intros i Hi. rewrite Z.land_spec, Z.ldiff_spec.
    destruct (Z.lt_ge_cases i 64) as [L|L]; [by rewrite not64_bit by lia|].
    by rewrite (u64_bit_high x i U L). }
  rewrite Z.ldiff_ones_r, Z.shiftl_mul_pow2, Z.shiftr_div_pow2 by lia. change (2 ^ 4) with 16.
  pose proof (Z.div_mod x 16). lia.
Qed.

Lemma frame_address_eq regs : frame_address regs =
  u64 (u64 (rsp regs - 128) - u64 (rsp regs - 128) mod 16 - 216).
Proof.
  unfold frame_address, USER_RED_ZONE. rewrite land_not15 by apply u64_range.
  f_equal. change (Z.land (sizeof_signal_frame + 15) (not64 15)) with 208. lia.
Qed.

(** A subtraction that wraps at most once. *)
Lemma wrap_cases x n : 0 < n → - n ≤ x < n → 0 ≤ x mod n < n ∧ (x mod n = x ∨ x mod n = x + n).
Proof.
  intros Hn Hx. split; [by apply Z.mod_pos_bound|]. destruct (Z.lt_ge_cases x 0).
  - right. rewrite <- (Z_mod_plus_full x 1 n), Z.mul_1_l. apply Z.mod_small. lia.
  - left. apply Z.mod_small. lia.
Qed.

Lemma frame_below regs : is_u64 (rsp regs) → frame_address regs < USER_TOP_ADDRESS →
  frame_address regs + sizeof_signal_frame ≤ rsp regs - USER_RED_ZONE ∧ frame_address regs mod 16 = 8.
Proof.
  intros [A B]. rewrite frame_address_eq. unfold USER_TOP_ADDRESS, sizeof_signal_frame, USER_RED_ZONE, u64.
  change (2 ^ 47) with 140737488355328. change (2 ^ 64) with 18446744073709551616 in *.
  set (t := (rsp regs - 128) mod 18446744073709551616).
  assert (0 ≤ t < 18446744073709551616 ∧ (t = rsp regs - 128 ∨ t = rsp regs - 128 + 18446744073709551616))
    as [Rt Ht] by (apply wrap_cases; lia). clearbody t.
  pose proof (Z.div_mod t 16 ltac:(lia)). pose proof (Z.mod_pos_bound t 16 ltac:(lia)).
  replace (t - t mod 16 - 216) with (16 * (t / 16) - 216) by lia.
  set (k := t / 16) in *. set (r := t mod 16) in *. clearbody k r.
  set (f := (16 * k - 216) mod 18446744073709551616).
  assert (f = 16 * k - 216 ∨ f = 16 * k - 216 + 18446744073709551616) as Hf by (apply wrap_cases; lia).
  clearbody f. intros L. assert (f = 16 * (k - 14) + 8) as Ef by lia. split; [lia|].
  rewrite Ef. rewrite Z.add_comm, Z.mul_comm, Z.mod_add by lia. done.
Qed.

Lemma deliver_handler_goes w sig act p regs m p' regs' m' :
  deliver_handler w sig act p regs m = Goes (p', regs', m') →
  frame_writable w (frame_address regs) sizeof_signal_frame = true ∧
  rsp regs' = frame_address regs ∧ rip regs' = handler act ∧ rdi regs' = u64 sig ∧
  p' = enter_handler sig act p ∧
  m' = <[frame_address regs := SignalFrame (restorer act) (u64 sig) (sig_blocked p) regs]> m.
Proof.
  unfold deliver_handler. destruct (frame_writable _ _ _); [|done]. cbn [negb orb].
  destruct (_ || _); [done|]. intros E. injection E as <- <- <-. done.
Qed.

(** A handler starts with the signal in rdi, on a frame that lies in user
    memory the stack may grow to, below the red zone of the interrupted code and
    with the alignment a function is entered with, whatever the user's stack
    pointer was (a small one that wraps below 0 ends the process instead);
    during the handler the signals of the action's mask and, unless the
    action says otherwise, the signal itself are blocked. *)
Theorem handler_frame_abi w sig act p regs m p' regs' m' : is_u64 (rsp regs) → 1 ≤ sig ≤ 32 →
  deliver_handler w sig act p regs m = Goes (p', regs', m') →
  rsp regs' mod 16 = 8 ∧ rsp regs' + sizeof_signal_frame ≤ rsp regs - USER_RED_ZONE ∧
  w (rsp regs') sizeof_signal_frame = true ∧ rdi regs' = sig ∧ rip regs' = handler act ∧
  (∃ f, m' !! rsp regs' = Some f ∧ return_address f = restorer act) ∧
  (∀ s, 1 ≤ s ≤ 32 → s ≠ SIGKILL → s ≠ SIGSTOP →
     has (sig_blocked p) (SIG_BIT s) = true ∨ has (mask act) (SIG_BIT s) = true ∨
       (s = sig ∧ has (sa_flags act) SIGNAL_FLAG_NODEFER = false) →
     has (sig_blocked p') (SIG_BIT s) = true).
Proof.
  intros U Hs E. apply deliver_handler_goes in E as (Hw&->&->&->&->&->).
  assert (frame_address regs < USER_TOP_ADDRESS ∧ w (frame_address regs) sizeof_signal_frame = true) as [L Hw'].
  { unfold frame_writable in Hw. destruct (Z.leb_spec USER_TOP_ADDRESS (frame_address regs)); [done|].
    destruct (_ <? _); [done|]. split; [lia|exact Hw]. }
  destruct (frame_below regs U L) as [Hb Ha]. split_and!; try done; [by rewrite u64_small by (split; lia)| |].
  { eexists. split; [apply lookup_insert_eq|done]. }
  intros s Hss Nk Nst H. unfold enter_handler. cbv zeta.
  assert (∀ x, has x (SIG_BIT s) = true →
    has (Z.land x (not64 SIG_UNBLOCKABLE)) (SIG_BIT s) = true) as Keep.
  { intros x. rewrite !has_testbit, Z.land_spec, not64_bit, unblockable_bit by lia. intros ->.
    unfold SIGKILL, SIGSTOP in *. destruct (Z.eqb_spec (s - 1) 8), (Z.eqb_spec (s - 1) 18); try lia; done. }
  assert (∀ x y, has x (SIG_BIT s) = true → has (Z.lor x y) (SIG_BIT s) = true) as L1.
  { intros x y. rewrite !has_testbit, Z.lor_spec by lia. by intros ->. }
  assert (∀ x y, has y (SIG_BIT s) = true → has (Z.lor x y) (SIG_BIT s) = true) as L2.
  { intros x y. rewrite !has_testbit, Z.lor_spec by lia. intros ->. apply orb_true_r. }
  match goal with |- has (sig_blocked ?t) _ = true =>
    assert (sig_blocked t = Z.land (sig_blocked
      (if negb (has (sa_flags act) SIGNAL_FLAG_NODEFER)
       then p <| sig_blocked := Z.lor (Z.lor (sig_blocked p) (mask act)) (SIG_BIT sig) |>
       else p <| sig_blocked := Z.lor (sig_blocked p) (mask act) |>)) (not64 SIG_UNBLOCKABLE)) as -> end.
  { destruct (has (sa_flags act) SIGNAL_FLAG_NODEFER), (signals _) as [[a t]|]; cbn [negb];
      try done; by destruct (has _ SIGNAL_FLAG_RESETHAND). }
  apply Keep. destruct (has (sa_flags act) SIGNAL_FLAG_NODEFER); cbn [negb sig_blocked];
    destruct H as [H|[H|[-> H]]]; try discriminate; cbn; auto.
  apply L2. rewrite has_testbit, sig_bit by lia. apply Z.pow2_bits_true. lia.
Qed.

(** A process in which a handler for signal 30 with the mask {2} starts. *)
Definition demo_handled : ksigaction := Ksigaction 4096 2 8192 0 0.
Definition demo_proc : sproc := Sproc PROCESS_RUNNING 1000 1 0 4096 None.
Definition demo_start : fate (sproc * syscall_regs * user_memory) :=
  deliver_handler all_writable 30 demo_handled demo_proc demo_regs ∅.

Lemma handler_frame_abi_witness : ∃ p' regs' m', demo_start = Goes (p', regs', m') ∧
  rsp regs' mod 16 = 8 ∧ rsp regs' + 200 ≤ 65536 - 128 ∧ has (sig_blocked p') (SIG_BIT 2) = true.
Proof.
  destruct demo_start as [[[p' regs'] m']|x] eqn:E; [|by vm_compute in E].
  exists p', regs', m'. split; [reflexivity|].
  destruct (handler_frame_abi all_writable 30 demo_handled demo_proc demo_regs ∅ p' regs' m')
    as (Ha&Hb&_&_&_&_&Hm); [by split|lia|exact E|].
  split; [exact Ha|]. split; [exact Hb|]. apply Hm; [lia|done|done|]. right. left. by vm_compute.
Defined.

(** Returning from a handler undoes its delivery.  Whatever the handler did
    to the registers and to the process' mask, when it returns to the restorer
    (so the stack pointer is 8 above the frame) and the frame is still there, all
    the registers come back as they were at the interruption, and the mask too;
    the segment selectors and the flags are forced to user values, which changes
    nothing for registers of user code.  The result is the interrupted code's rax. *)
Theorem sigreturn_roundtrip w r sig act p regs m p1 regs1 m1 p2 regs2 m2 : sproc_ok p →
  deliver_handler w sig act p regs m = Goes (p1, regs1, m1) →
  rip regs < USER_TOP_ADDRESS → rsp regs < USER_TOP_ADDRESS → is_u64 (rsp regs) →
  rsp regs2 = rsp regs1 + 8 → m2 !! rsp regs1 = m1 !! rsp regs1 →
  r (rsp regs1) sizeof_signal_frame = true →
  ∃ regs3, signal_return r p2 regs2 m2 = Goes (i32 (rax regs), p2 <| sig_blocked := sig_blocked p |>, regs3) ∧
    regs3 = regs <| cs := USER_CODE_SELECTOR |> <| ss := USER_DATA_SELECTOR |>
                 <| rflags := Z.lor (Z.land (rflags regs) USER_FLAGS_MASK) 514 |> ∧
    (cs regs = USER_CODE_SELECTOR → ss regs = USER_DATA_SELECTOR →
     Z.lor (Z.land (rflags regs) USER_FLAGS_MASK) 514 = rflags regs → regs3 = regs).
Proof.
  intros W E Hrip Hrsp U E2 Em Hr. apply deliver_handler_goes in E as (Hw&Er&_&_&_&->).
  assert (frame_address regs < USER_TOP_ADDRESS) as L.
  { unfold frame_writable in Hw. by destruct (Z.leb_spec USER_TOP_ADDRESS (frame_address regs)). }
  rewrite Er in *. unfold signal_return. cbv zeta. rewrite E2.
  replace (frame_address regs + 8 - 8) with (frame_address regs) by lia.
  assert (is_u64 (frame_address regs)) as Uf by apply u64_range.
  rewrite (u64_small (frame_address regs)), Em by exact Uf.
  rewrite (lookup_insert_eq m (frame_address regs)). rewrite Hr.
  destruct (Z.leb_spec USER_TOP_ADDRESS (frame_address regs)); [lia|]. cbn [negb orb saved_regs saved_mask].
  destruct (Z.leb_spec USER_TOP_ADDRESS (rip regs)); [lia|].
  destruct (Z.leb_spec USER_TOP_ADDRESS (rsp regs)); [lia|]. cbn [orb].
  rewrite land_unblockable_id by apply W. eexists; split; [reflexivity|]. split; [done|].
  intros Ec Es Ef. rewrite Ef. by destruct regs; cbn in *; subst.
Qed.

(** The handler clears the mask and every register before it returns. *)
Definition scratch_regs (sp : Z) : syscall_regs :=
  SyscallRegs 0 0 0 0 0 0 0 0 0 0 0 0 0 0 0 0 0 8192 27 514 sp 35.

Lemma sigreturn_roundtrip_witness : ∃ p1 regs1 m1, demo_start = Goes (p1, regs1, m1) ∧
  signal_return all_writable (p1 <| sig_blocked := 0 |>) (scratch_regs (rsp regs1 + 8)) m1 =
    Goes (6, p1 <| sig_blocked := 4096 |>, demo_regs).
Proof.
  destruct demo_start as [[[p1 regs1] m1]|x] eqn:E; [|by vm_compute in E].
  exists p1, regs1, m1. split; [reflexivity|].
  destruct (sigreturn_roundtrip all_writable all_writable 30 demo_handled demo_proc demo_regs ∅
    p1 regs1 m1 (p1 <| sig_blocked := 0 |>) (scratch_regs (rsp regs1 + 8)) m1) as (regs3&Er&_&Id);
    [|exact E|reflexivity|reflexivity|by split|reflexivity|reflexivity|reflexivity|].
  - split; by split.
  - rewrite Er. by rewrite Id.
Defined.

(** C21: a return from a handler cannot raise the user's rights: whatever
    frame the user has put on its stack, when the process goes on it is in user
    mode (its selectors), with interrupts enabled, with no flag outside the
    user's set, at a user address and with neither SIGKILL nor SIGSTOP blocked. *)
Theorem sigreturn_safe r p regs m ret p' regs' : signal_return r p regs m = Goes (ret, p', regs') →
  cs regs' mod 4 = 3 ∧ ss regs' mod 4 = 3 ∧ cs regs' = USER_CODE_SELECTOR ∧
  ss regs' = USER_DATA_SELECTOR ∧ Z.testbit (rflags regs') 9 = true ∧
  (∀ i, 0 ≤ i → Z.testbit (Z.lor USER_FLAGS_MASK 514) i = false → Z.testbit (rflags regs') i = false) ∧
  rip regs' < USER_TOP_ADDRESS ∧ rsp regs' < USER_TOP_ADDRESS ∧ mask_ok (sig_blocked p') ∧
  sig_pending p' = sig_pending p ∧ signals p' = signals p.
Proof.
  unfold signal_return. destruct (m !! _) as [f|]; [|done]. destruct (_ || _); [done|].
  destruct (Z.leb_spec USER_TOP_ADDRESS (rip (saved_regs f))); [done|].
  destruct (Z.leb_spec USER_TOP_ADDRESS (rsp (saved_regs f))); [done|]. cbn [orb].
  intros E. injection E as _ <- <-. cbn [cs ss rflags rip rsp set_field]. split_and!; try done; try lia.
  - change (Z.testbit (Z.lor (Z.land (rflags (saved_regs f)) USER_FLAGS_MASK) 514) 9 = true).
    rewrite Z.lor_spec. apply orb_true_r.
  - intros i Hi Hf.
    change (Z.testbit (Z.lor (Z.land (rflags (saved_regs f)) USER_FLAGS_MASK) 514) i = false).
    rewrite Z.lor_spec in Hf. apply orb_false_elim in Hf as [A B].
    by rewrite Z.lor_spec, Z.land_spec, A, B, andb_false_r.
  - apply mask_ok_land.
Qed.

(** A frame that asks for kernel selectors, all the flags and a full mask. *)
Definition forged_memory : user_memory :=
  <[32768 := SignalFrame 8192 2 (2 ^ 64 - 1)
      (SyscallRegs 0 0 0 0 0 0 0 0 0 0 0 0 0 0 7 0 0 16384 8 (2 ^ 64 - 1) 65536 16)]> ∅.

Lemma sigreturn_safe_witness : ∃ ret p' regs',
  signal_return all_writable demo_proc (scratch_regs 32776) forged_memory = Goes (ret, p', regs') ∧
  cs regs' mod 4 = 3 ∧ Z.testbit (rflags regs') 12 = false ∧ mask_ok (sig_blocked p').
Proof.
  destruct (signal_return all_writable demo_proc (scratch_regs 32776) forged_memory)
    as [[[ret p'] regs']|x] eqn:E; [|by vm_compute in E].
  exists ret, p', regs'. split; [reflexivity|].
  destruct (sigreturn_safe _ _ _ _ _ _ _ E) as (Hc&_&_&_&_&Hf&_&_&Hm&_).
  split; [exact Hc|]. split; [|exact Hm]. apply Hf; [lia|]. by vm_compute.
Defined.

Lemma u64_i32_fixed x : is_u64 x → (u64 (i32 x) = x ↔ x < 2 ^ 31 ∨ 2 ^ 64 - 2 ^ 31 ≤ x).
Proof.
  intros [A B]. unfold u64, i32. split.
  - intros E. pose proof (Z.mod_pos_bound (x + 2 ^ 31) (2 ^ 32) ltac:(lia)) as R.
    set (y := (x + 2 ^ 31) mod 2 ^ 32) in *. clearbody y.
    destruct (wrap_cases (y - 2 ^ 31) (2 ^ 64)) as [_ H]; lia.
  - intros [L|L].
    + rewrite (Z.mod_small (x + 2 ^ 31)) by lia. rewrite Z.mod_small; lia.
    + replace (x + 2 ^ 31) with (x + 2 ^ 31 - 2 ^ 64 + 2 ^ 32 * 2 ^ 32) by lia.
      rewrite Z.mod_add by lia. rewrite (Z.mod_small _ (2 ^ 32)) by lia.
      replace (x + 2 ^ 31 - 2 ^ 64 - 2 ^ 31) with (x + (-1) * 2 ^ 64) by lia.
      rewrite Z.mod_add by lia. rewrite Z.mod_small; lia.
Qed.

(** The result of [signal_return] is an [int32_t] and the interrupt handler
    stores it over the restored rax, so that the interrupted code gets its
    rax back exactly when that is the sign extension of its low 32 bits: a
    pointer or any other value between 2^31 and 2^64 - 2^31 is lost. *)
Theorem sigreturn_truncates_rax r p regs m ret p' regs' :
  signal_return r p regs m = Goes (ret, p', regs') → is_u64 (rax regs') →
  (rax (store_result ret regs') = rax regs' ↔ rax regs' < 2 ^ 31 ∨ 2 ^ 64 - 2 ^ 31 ≤ rax regs').
Proof.
  unfold signal_return. destruct (m !! _) as [f|]; [|done]. destruct (_ || _); [done|].
  destruct (_ || _); [done|]. intros E. injection E as <- _ <-. cbn. generalize (rax (saved_regs f)).
  intros x [A B]. apply u64_i32_fixed. by split.
Qed.

(** The value 2^32 in rax when the signal arrives becomes 0. *)
Lemma sigreturn_truncates_rax_witness : ∃ m ret p' regs',
  signal_return all_writable demo_proc (scratch_regs 32776) m = Goes (ret, p', regs') ∧
  rax regs' = 2 ^ 32 ∧ rax (store_result ret regs') ≠ rax regs'.
Proof.
  set (m := <[32768 := SignalFrame 8192 2 0 (demo_regs <| rax := 2 ^ 32 |>)]> (∅ : user_memory)).
  destruct (signal_return all_writable demo_proc (scratch_regs 32776) m) as [[[ret p'] regs']|x] eqn:E;
    [|by vm_compute in E].
  exists m, ret, p', regs'. split; [exact E|].
  assert (rax regs' = 2 ^ 32) as Ex by (vm_compute in E; by injection E as _ _ <-).
  split; [exact Ex|]. rewrite (sigreturn_truncates_rax _ _ _ _ _ _ _ E); rewrite Ex; [lia|by split].
Defined.
