(* ===== verification/Cstr.v ===== *)
(** * C strings

    A string is the list of its bytes before the terminator.  Reading [s[i]] is
    [aget 0 s i]: the terminator is the 0 read at the end.  The helpers that
    several files of src/src/fs/ define for themselves are here once. *)

From S2P Require Import Prelude.

(** The bytes of a string are not 0. *)
Definition cstr (s : list Z) : Prop := Forall (λ c, c ≠ 0) s.

(** [src/fs/vfs_perm.c:15-20] text_length *)
Definition text_length (text : list Z) : Z := Z.of_nat (length text).

(** [src/fs/vfs_perm.c:22-28] text_equal *)
Fixpoint text_equal (left right : list Z) : bool :=
  match left, right with
  | x :: left', y :: right' =>
      if negb (x =? 0) && (x =? y) then text_equal left' right' else x =? y
  | [], y :: _ => 0 =? y
  | x :: _, [] => x =? 0
  | [], [] => true
  end.

Lemma text_equal_spec l r : cstr l → cstr r → text_equal l r = bool_decide (l = r).
Proof.
  intros Hl Hr. revert r Hr. induction Hl as [|x l Hx Hl IH]; intros [|y r] Hr; cbn [text_equal].
  - by rewrite bool_decide_eq_true_2.
  - rewrite bool_decide_eq_false_2 by done. inversion Hr; subst. apply Z.eqb_neq. lia.
  - rewrite bool_decide_eq_false_2 by done. by apply Z.eqb_neq.
  - inversion Hr; subst. destruct (Z.eqb_spec x 0); [done|]. cbn [negb andb].
    destruct (Z.eqb_spec x y) as [->|Ne].
    + rewrite IH by done. apply bool_decide_ext. naive_solver.
    + rewrite bool_decide_eq_false_2 by congruence. done.
Qed.

Lemma text_equal_eq l r : cstr l → cstr r → text_equal l r = true ↔ l = r.
Proof. intros Hl Hr. rewrite text_equal_spec by done. apply bool_decide_eq_true. Qed.

Lemma cstr_app l k : cstr (l ++ k) ↔ cstr l ∧ cstr k.
Proof. apply Forall_app. Qed.

Lemma aget_0 {A} (d : A) x l : aget d (x :: l) 0 = x.
Proof. done. Qed.

Lemma aget_app_l {A} (d : A) l k i : 0 ≤ i < Z.of_nat (length l) → aget d (l ++ k) i = aget d l i.
Proof. intros Hi. unfold aget. apply app_nth1. lia. Qed.

Lemma aget_app_r {A} (d : A) l k i : Z.of_nat (length l) ≤ i →
  aget d (l ++ k) i = aget d k (i - Z.of_nat (length l)).
Proof. intros Hi. unfold aget. rewrite app_nth2 by lia. f_equal. lia. Qed.

Lemma aget_end {A} (d : A) l i : Z.of_nat (length l) ≤ i → aget d l i = d.
Proof. intros Hi. apply nth_overflow. lia. Qed.

Lemma cstr_aget s i : cstr s → 0 ≤ i < Z.of_nat (length s) → aget 0 s i ≠ 0.
Proof.
  intros Hs Hi. unfold aget. refine (proj1 (Forall_forall _ s) Hs _ _). apply list_elem_of_In, nth_In. lia.
Qed.

(** The loop [for (i = 0; i < length(prefix); i++) if (text[i] != prefix[i])]. *)
Lemma differs_prefix text prefix : cstr prefix →
  for_first (λ i, negb (aget 0 text i =? aget 0 prefix i)) (length prefix) 0 = None ↔
  prefix `prefix_of` text.
Proof.
  intros Hp. rewrite for_first_None. split.
  - intros H. assert (∀ i, 0 ≤ i < Z.of_nat (length prefix) → aget 0 text i = aget 0 prefix i) as E.
    { intros i Hi. specialize (H i ltac:(lia)). by apply negb_false_iff, Z.eqb_eq in H. }
    clear H. revert text E. induction Hp as [|x prefix Hx Hp IH]; intros text E; [apply prefix_nil|].
    destruct text as [|y text].
    + specialize (E 0 ltac:(cbn [length]; lia)). rewrite aget_0 in E. by destruct Hx.
    + pose proof (E 0 ltac:(cbn [length]; lia)) as E0. rewrite !aget_0 in E0. subst y. apply prefix_cons, IH.
      intros i Hi. specialize (E (i + 1) ltac:(cbn [length]; lia)). unfold aget in *.
      by replace (Z.to_nat (i + 1)) with (S (Z.to_nat i)) in E by lia.
  - intros [k ->] j Hj. rewrite aget_app_l by lia. rewrite Z.eqb_refl. done.
Qed.

(** [copy_text] of vfs_mount.c: the text, truncated to the buffer.
    [src/fs/vfs_mount.c:20-28] copy_text *)
Definition copy_text (source : list Z) (capacity : Z) : list Z :=
  take (Z.to_nat (capacity - 1)) source.

(** The bytes of a literal. *)
Definition text (s : string) : list Z := map (λ c, Z.of_N (Ascii.N_of_ascii c)) (String.list_ascii_of_string s).
