(* ===== verification/Path.v ===== *)
(** * Paths (src/src/fs/vfs_path.c)

    Normalisation, the prefix test, parent and base name, on the bytes of the
    strings.  [out] is the part of the output buffer below [length]; the
    terminator is written at its end, so that [length + 1] bytes are used. *)

From S2P Require Import Prelude Cstr.

(** [src/fs/vfs_path.h:6-6] VFS_PATH_MAX *)
Definition VFS_PATH_MAX : Z := 512.
(** [src/fs/vfs_path.h:7-7] VFS_NAME_MAX *)
Definition VFS_NAME_MAX : Z := 255.
(** [src/fs/vfs_path.c:3-3] PATH_INVALID *)
Definition PATH_INVALID : Z := -3.
(** [src/fs/vfs_path.c:4-4] PATH_TOO_LONG *)
Definition PATH_TOO_LONG : Z := -3.

Abbreviation SLASH := 47 (only parsing).
Abbreviation DOT := 46 (only parsing).

(** [src/fs/vfs_path.c:6-11] length_of *)
Definition length_of (text : list Z) : Z := Z.of_nat (length text).

(** The text from the first byte that is not a slash.
    [src/fs/vfs_path.c:20-21] vfs_path_normalize *)
Fixpoint skip_slashes (p : list Z) : list Z :=
  match p with
  | c :: p' => if c =? SLASH then skip_slashes p' else p
  | [] => []
  end.

(** The name at the cursor and the text after it.
    [src/fs/vfs_path.c:22-25] vfs_path_normalize *)
Fixpoint component (p : list Z) : list Z * list Z :=
  match p with
  | c :: p' => if c =? SLASH then ([], p) else let '(name, rest) := component p' in (c :: name, rest)
  | [] => ([], [])
  end.

(** [while (length > 1 && out[length - 1] != '/') length--;]
    [src/fs/vfs_path.c:33-34] vfs_path_normalize *)
Fixpoint back_to_slash (out : list Z) (length : nat) : nat :=
  match length with
  | O => O
  | S n => if (1 <? Z.of_nat length) && negb (aget 0 out (Z.of_nat n) =? SLASH)
           then back_to_slash out n else length
  end.

(** [src/fs/vfs_path.c:31-37] vfs_path_normalize *)
Definition pop_name (out : list Z) : list Z :=
  if 1 <? length_of out then
    let n := back_to_slash out (length out - 1) in
    take (if 1 <? Z.of_nat n then (n - 1)%nat else n) out
  else out.

(** [src/fs/vfs_path.c:19-49] vfs_path_normalize *)
Fixpoint normalize_loop (fuel : nat) (p out : list Z) (capacity : Z) : option (Z * list Z) :=
  match fuel with
  | O => None
  | S fuel' =>
      match p with
      | [] => Some (length_of out, out)
      | _ =>
          let '(name, p) := component (skip_slashes p) in
          let size := length_of name in
          if size =? 0 then Some (length_of out, out)
          else if (size =? 1) && (aget 0 name 0 =? DOT) then normalize_loop fuel' p out capacity
          else if (size =? 2) && (aget 0 name 0 =? DOT) && (aget 0 name 1 =? DOT)
          then normalize_loop fuel' p (pop_name out) capacity
          else if VFS_NAME_MAX <? size then Some (PATH_TOO_LONG, out)
          else
            let separator := if 1 <? length_of out then 1 else 0 in
            if capacity <? length_of out + separator + size + 1 then Some (PATH_TOO_LONG, out)
            else normalize_loop fuel' p
                   (out ++ (if negb (separator =? 0) then [SLASH] else []) ++ name) capacity
      end
  end.

(** The result and the text written.  A round of the loop consumes at least one
    byte, so that the length of the path bounds the rounds.
    [src/fs/vfs_path.c:13-52] vfs_path_normalize *)
Definition vfs_path_normalize (path : option (list Z)) (capacity : Z) : option (Z * list Z) :=
  match path with
  | None => Some (PATH_INVALID, [])
  | Some p =>
      if (capacity <? 2) || negb (aget 0 p 0 =? SLASH) then Some (PATH_INVALID, [])
      else normalize_loop (S (length p)) p [SLASH] capacity
  end.

(** [src/fs/vfs_path.c:54-62] vfs_path_has_prefix *)
Definition vfs_path_has_prefix (path prefix : list Z) : bool :=
  let prefix_length := length_of prefix in
  if (prefix_length =? 1) && (aget 0 prefix 0 =? SLASH) then aget 0 path 0 =? SLASH
  else match for_first (λ i, negb (aget 0 path i =? aget 0 prefix i)) (length prefix) 0 with
       | Some _ => false
       | None => (aget 0 path prefix_length =? 0) || (aget 0 path prefix_length =? SLASH)
       end.

(** [while (length > 1 && path[length - 1] == '/') length--;]
    [src/fs/vfs_path.c:68-69] vfs_path_parent *)
Fixpoint back_over_slashes (path : list Z) (length : nat) : nat :=
  match length with
  | O => O
  | S n => if (1 <? Z.of_nat length) && (aget 0 path (Z.of_nat n) =? SLASH)
           then back_over_slashes path n else length
  end.

(** [src/fs/vfs_path.c:64-80] vfs_path_parent *)
Definition vfs_path_parent (path : list Z) (capacity : Z) : Z * list Z :=
  if (length_of path =? 0) || negb (aget 0 path 0 =? SLASH) || (capacity <? 2)
  then (PATH_INVALID, []) else
  let n := back_to_slash path (back_over_slashes path (length path)) in
  let n := if 1 <? Z.of_nat n then (n - 1)%nat else n in
  if capacity <? Z.of_nat n + 1 then (PATH_TOO_LONG, []) else (Z.of_nat n, take n path).

(** The loop over the text from the cursor; [name] is the best so far.
    [src/fs/vfs_path.c:84-86] vfs_path_basename *)
Fixpoint basename_loop (name cursor : list Z) : list Z :=
  match cursor with
  | [] => name
  | c :: next => basename_loop (if (c =? SLASH) && negb (aget 0 next 0 =? 0) then next else name) next
  end.
(** [src/fs/vfs_path.c:82-88] vfs_path_basename *)
Definition vfs_path_basename (path : list Z) : list Z := basename_loop path path.

(** ** Paths as lists of names *)

(** A name: not empty, without slash or terminator. *)
Definition name_ok (n : list Z) : Prop := n ≠ [] ∧ Forall (λ c, c ≠ 0 ∧ c ≠ SLASH) n.
(** A name the normalisation keeps. *)
Definition plain_name (n : list Z) : Prop :=
  name_ok n ∧ n ≠ [DOT] ∧ n ≠ [DOT; DOT] ∧ length_of n ≤ VFS_NAME_MAX.

(** ["/a/b"] from its names, and ["/"] from none. *)
Definition joined (cs : list (list Z)) : list Z := concat (map (cons SLASH) cs).
Definition render (cs : list (list Z)) : list Z := if decide (cs = []) then [SLASH] else joined cs.

(** The names between the slashes of a text. *)
Fixpoint pieces (p : list Z) : list (list Z) :=
  match p with
  | [] => [[]]
  | c :: p' =>
      if c =? SLASH then [] :: pieces p'
      else match pieces p' with w :: ws => (c :: w) :: ws | [] => [[c]] end
  end.
Definition names (p : list Z) : list (list Z) := filter (λ n, n ≠ []) (pieces p).

(** What the names mean one after the other; [None] when a name or what has been
    written is too long. *)
Fixpoint walk (capacity : Z) (cs ns : list (list Z)) : option (list (list Z)) :=
  match ns with
  | [] => Some cs
  | n :: ns' =>
      if decide (n = [DOT]) then walk capacity cs ns'
      else if decide (n = [DOT; DOT]) then walk capacity (removelast cs) ns'
      else if decide (VFS_NAME_MAX < length_of n ∨ capacity < length_of (render (cs ++ [n])) + 1) then None
      else walk capacity (cs ++ [n]) ns'
  end.

(** ** Names and rendering *)

Lemma name_ok_cstr n : name_ok n → cstr n.
Proof. intros [_ H]. eapply Forall_impl; [exact H|]. by intros c []. Qed.

Lemma name_ok_slash n : name_ok n → Forall (λ c, c ≠ SLASH) n.
Proof. intros [_ H]. eapply Forall_impl; [exact H|]. by intros c []. Qed.

Lemma joined_app cs ds : joined (cs ++ ds) = joined cs ++ joined ds.
Proof. unfold joined. by rewrite map_app, concat_app. Qed.

Lemma joined_one n : joined [n] = SLASH :: n.
Proof. unfold joined. cbn. by rewrite app_nil_r. Qed.

Lemma joined_cons n cs : joined (n :: cs) = SLASH :: n ++ joined cs.
Proof. done. Qed.

Lemma render_snoc cs n : render (cs ++ [n]) = joined cs ++ SLASH :: n.
Proof. unfold render. rewrite decide_False by (by destruct cs). by rewrite joined_app, joined_one. Qed.

Lemma render_head cs : aget 0 (render cs) 0 = SLASH.
Proof. unfold render. destruct (decide (cs = [])); [done|]. destruct cs; [done|]. by rewrite joined_cons. Qed.

Lemma render_length cs : 1 ≤ length_of (render cs).
Proof.
  unfold render, length_of. destruct (decide (cs = [])); [done|]. destruct cs; [done|].
  rewrite joined_cons. cbn [length]. lia.
Qed.

Lemma render_joined cs : cs ≠ [] → render cs = joined cs.
Proof. intros H. unfold render. by rewrite decide_False. Qed.

Lemma render_long cs : Forall name_ok cs → (1 <? length_of (render cs)) = bool_decide (cs ≠ []).
Proof.
  intros H. destruct (decide (cs = [])) as [->|Ne]; [done|].
  rewrite bool_decide_eq_true_2 by done. rewrite render_joined by done.
  destruct H as [|n cs [Hn _] _]; [done|]. rewrite joined_cons. apply Z.ltb_lt. unfold length_of.
  destruct n; [done|]. cbn [length app]. lia.
Qed.

Lemma joined_cstr cs : Forall name_ok cs → cstr (joined cs).
Proof.
  induction 1 as [|n cs Hn _ IH]; [constructor|]. rewrite joined_cons. constructor; [done|].
  apply cstr_app. split; [by apply name_ok_cstr|done].
Qed.

Lemma render_cstr cs : Forall name_ok cs → cstr (render cs).
Proof.
  intros H. unfold render. destruct (decide (cs = [])); [repeat constructor; done|by apply joined_cstr].
Qed.

(** Text that is empty or begins with a slash: what may follow a name. *)
Definition at_name_end (p : list Z) : Prop := p = [] ∨ ∃ p', p = SLASH :: p'.

Lemma at_end_joined cs : at_name_end (joined cs).
Proof. destruct cs as [|n cs]; [by left|right; eauto]. Qed.

Lemma split_names n m x y : Forall (λ c, c ≠ SLASH) n → Forall (λ c, c ≠ SLASH) m →
  at_name_end x → at_name_end y → n ++ x = m ++ y → n = m ∧ x = y.
Proof.
  intros Hn. revert m. induction Hn as [|a n Ha Hn IH]; intros m Hm Hx Hy E.
  - destruct Hm as [|b m Hb Hm]; [done|]. cbn in E. subst x. by destruct Hx as [|[p' [= ]]].
  - destruct Hm as [|b m Hb Hm]; cbn in E.
    + subst y. by destruct Hy as [|[p' [= ]]].
    + injection E as -> E. by destruct (IH m Hm Hx Hy E) as [-> ->].
Qed.

Lemma joined_inj cs ds : Forall name_ok cs → Forall name_ok ds → joined cs = joined ds → cs = ds.
Proof.
  intros Hc. revert ds. induction Hc as [|n cs Hn Hc IH]; intros ds Hd E.
  - by destruct Hd.
  - destruct Hd as [|m ds Hm Hd]; [done|]. rewrite !joined_cons in E. injection E as E.
    apply split_names in E as [-> E]; try apply at_end_joined; try by apply name_ok_slash.
    by rewrite (IH ds).
Qed.

Lemma render_inj cs ds : Forall name_ok cs → Forall name_ok ds → render cs = render ds → cs = ds.
Proof.
  intros Hc Hd E. destruct (decide (cs = [])) as [->|Nc], (decide (ds = [])) as [->|Nd]; [done| | |].
  - pose proof (render_long ds Hd) as L. rewrite <- E, bool_decide_eq_true_2 in L by done. done.
  - pose proof (render_long cs Hc) as L. rewrite E, bool_decide_eq_true_2 in L by done. done.
  - rewrite !render_joined in E by done. by apply joined_inj.
Qed.

(** ** Reading the names of a text *)

Lemma skip_names p : names (skip_slashes p) = names p.
Proof.
  induction p as [|c p IH]; [done|]. cbn [skip_slashes]. unfold names in *. cbn [pieces].
  destruct (c =? SLASH) eqn:E; [|by cbn [pieces]; rewrite E].
  rewrite IH. rewrite filter_cons_False; [done|]. auto.
Qed.

Lemma skip_head p : skip_slashes p = [] ∨ ∃ c p', skip_slashes p = c :: p' ∧ c ≠ SLASH.
Proof.
  induction p as [|c p IH]; [by left|]. cbn [skip_slashes]. destruct (Z.eqb_spec c SLASH); [done|].
  right; eauto.
Qed.

Lemma component_spec p : let '(n, r) := component p in
  p = n ++ r ∧ Forall (λ c, c ≠ SLASH) n ∧ at_name_end r.
Proof.
  induction p as [|c p IH]; cbn [component]; [split_and!; [done|constructor|by left]|].
  destruct (Z.eqb_spec c SLASH) as [->|Ne].
  - split_and!; [done|constructor|right; eauto].
  - destruct (component p) as [n r]. destruct IH as (->&Hn&Hr). split_and!; [done|by constructor|done].
Qed.

Lemma pieces_name n r : Forall (λ c, c ≠ SLASH) n → at_name_end r →
  names (n ++ r) = (if decide (n = []) then [] else [n]) ++ names r.
Proof.
  intros Hn Hr. assert (∀ q, pieces q ≠ []) as Hp.
  { intros q. destruct q as [|c q]; [done|]. cbn. destruct (_ =? _); [done|]. by destruct (pieces q). }
  assert (∃ ws, pieces (n ++ r) = n :: ws ∧ filter (λ n, n ≠ []) ws = names r) as (ws&E1&E2).
  { induction Hn as [|c n Hc _ IH]; cbn [app].
    - unfold names. destruct Hr as [->|[p' ->]]; [by exists []|].
      cbn [pieces Z.eqb Pos.eqb]. exists (pieces p'). split; [done|].
      rewrite filter_cons_False by auto. done.
    - destruct IH as (ws&E1&E2). exists ws. cbn [pieces]. destruct (Z.eqb_spec c SLASH); [done|].
      by rewrite E1. }
  unfold names at 1. rewrite E1, filter_cons, E2.
  destruct (decide (n = [])), (decide (n ≠ [])); try done.
Qed.

Lemma names_joined cs : Forall name_ok cs → names (joined cs) = cs.
Proof.
  induction 1 as [|n cs Hn Hc IH]; [done|]. rewrite joined_cons.
  transitivity (names (n ++ joined cs)).
  - unfold names. cbn [pieces Z.eqb Pos.eqb]. by rewrite filter_cons_False by auto.
  - rewrite pieces_name, IH; [|by apply name_ok_slash|apply at_end_joined].
    destruct (decide (n = [])); [by destruct Hn|done].
Qed.

Lemma names_render cs : Forall name_ok cs → names (render cs) = cs.
Proof. intros H. unfold render. destruct (decide (cs = [])) as [->|]; [done|by apply names_joined]. Qed.

Lemma names_ok p : cstr p → Forall name_ok (names p).
Proof.
  intros Hp. unfold names. assert (Forall (Forall (λ c, c ≠ 0 ∧ c ≠ SLASH)) (pieces p)) as H.
  { induction Hp as [|c p Hc Hp IH]; cbn [pieces]; [by repeat constructor|].
    destruct (Z.eqb_spec c SLASH); [by constructor|].
    destruct IH as [|w ws Hw Hws]; [by repeat constructor|]. by repeat constructor. }
  clear Hp. induction H as [|w ws Hw Hws IH]; [constructor|]. rewrite filter_cons.
  destruct (decide (w ≠ [])); [|done]. by constructor.
Qed.

(** ** The loop follows the names *)

Lemma back_to_slash_spec pre n k : Forall (λ c, c ≠ SLASH) n → (k ≤ length n)%nat →
  back_to_slash (pre ++ SLASH :: n) (length pre + 1 + k) = (length pre + 1)%nat.
Proof.
  intros Hn. induction k as [|k IH]; intros Hk.
  - rewrite Nat.add_0_r, Nat.add_1_r. cbn [back_to_slash].
    rewrite aget_app_r, Z.sub_diag by lia. by rewrite andb_false_r.
  - rewrite Nat.add_succ_r. cbn [back_to_slash]. destruct (Z.ltb_spec 1 (Z.of_nat (S (length pre + 1 + k)))); [|lia].
    rewrite aget_app_r by lia. unfold aget.
    replace (Z.to_nat (Z.of_nat (length pre + 1 + k) - Z.of_nat (length pre))) with (S k) by lia. cbn [nth].
    assert (nth k n 0 ≠ SLASH) as Hs.
    { refine (proj1 (Forall_forall _ n) Hn _ _). apply list_elem_of_In, nth_In. lia. }
    destruct (Z.eqb_spec (nth k n 0) SLASH); [done|]. cbn [andb negb]. apply IH. lia.
Qed.

(** The prefix that is left when the last name goes. *)
Lemma drop_last_name cs n : Forall name_ok cs →
  take (if 1 <? Z.of_nat (length (joined cs) + 1) then length (joined cs) + 1 - 1 else length (joined cs) + 1)
    (joined cs ++ SLASH :: n) = render cs.
Proof.
  intros Hc. destruct (decide (cs = [])) as [->|Ne]; [done|]. rewrite render_joined by done.
  pose proof (render_length cs) as L. rewrite render_joined in L by done. unfold length_of in L.
  destruct (Z.ltb_spec 1 (Z.of_nat (length (joined cs) + 1))); [|lia].
  rewrite Nat.add_sub. by rewrite take_app_length.
Qed.

Lemma pop_name_snoc cs n : Forall name_ok cs → name_ok n → pop_name (render (cs ++ [n])) = render cs.
Proof.
  intros Hc Hn. unfold pop_name.
  rewrite render_long by (apply Forall_app; split; [done|by apply Forall_singleton]).
  rewrite bool_decide_eq_true_2 by (by destruct cs). rewrite render_snoc. cbv zeta.
  replace (length (joined cs ++ SLASH :: n) - 1)%nat with (length (joined cs) + 1 + (length n - 1))%nat.
  2:{ rewrite length_app. cbn [length]. destruct n; [by destruct Hn|]. cbn [length]. lia. }
  rewrite back_to_slash_spec by (lia || by apply name_ok_slash). by apply drop_last_name.
Qed.

Lemma pop_name_render cs : Forall name_ok cs → pop_name (render cs) = render (removelast cs).
Proof.
  intros Hc. destruct cs as [|c cs] using rev_ind; [done|]. apply Forall_app in Hc as [Hc Hn].
  rewrite Forall_singleton in Hn. rewrite removelast_last. by apply pop_name_snoc.
Qed.

Lemma is_dot n : (length_of n =? 1) && (aget 0 n 0 =? DOT) = bool_decide (n = [DOT]).
Proof.
  destruct n as [|a [|b n]]; try done.
  - change ((a =? DOT) = bool_decide ([a] = [DOT])). destruct (Z.eqb_spec a DOT) as [->|]; symmetry;
      [by apply bool_decide_eq_true|apply bool_decide_eq_false; congruence].
  - rewrite (proj2 (Z.eqb_neq _ _)) by (unfold length_of; cbn [length]; lia). symmetry.
    by apply bool_decide_eq_false.
Qed.

Lemma is_dotdot n :
  (length_of n =? 2) && (aget 0 n 0 =? DOT) && (aget 0 n 1 =? DOT) = bool_decide (n = [DOT; DOT]).
Proof.
  destruct n as [|a [|b [|c n]]]; try done.
  - symmetry. by apply bool_decide_eq_false.
  - change ((a =? DOT) && (b =? DOT) = bool_decide ([a; b] = [DOT; DOT])).
    destruct (Z.eqb_spec a DOT) as [->|], (Z.eqb_spec b DOT) as [->|]; symmetry;
      try (apply bool_decide_eq_false; congruence). by apply bool_decide_eq_true.
  - rewrite (proj2 (Z.eqb_neq _ _)) by (unfold length_of; cbn [length]; lia). symmetry.
    by apply bool_decide_eq_false.
Qed.

Lemma skip_length p : (length (skip_slashes p) ≤ length p)%nat.
Proof. induction p as [|c p IH]; [done|]. cbn [skip_slashes]. destruct (_ =? _); cbn [length]; lia. Qed.

Lemma skip_cstr p : cstr p → cstr (skip_slashes p).
Proof. induction 1 as [|c p Hc Hp IH]; [constructor|]. cbn [skip_slashes]. destruct (_ =? _); [done|by constructor]. Qed.

Lemma render_push cs n : Forall name_ok cs →
  render cs ++ (if negb ((if 1 <? length_of (render cs) then 1 else 0) =? 0) then [SLASH] else []) ++ n
  = render (cs ++ [n]).
Proof.
  intros Hc. rewrite render_long, render_snoc by done.
  destruct (decide (cs = [])) as [->|Ne]; [by rewrite bool_decide_eq_false_2 by auto|].
  rewrite bool_decide_eq_true_2 by done. by rewrite render_joined.
Qed.

Lemma render_push_length cs n : Forall name_ok cs →
  length_of (render cs) + (if 1 <? length_of (render cs) then 1 else 0) + length_of n + 1 =
  length_of (render (cs ++ [n])) + 1.
Proof.
  intros Hc. rewrite <- render_push by done. unfold length_of. rewrite !length_app.
  destruct (1 <? _); cbn; lia.
Qed.

Lemma normalize_loop_spec capacity fuel : ∀ p cs, (length p < fuel)%nat → cstr p → Forall name_ok cs →
  match walk capacity cs (names p) with
  | Some ds => normalize_loop fuel p (render cs) capacity = Some (length_of (render ds), render ds)
  | None => ∃ out, normalize_loop fuel p (render cs) capacity = Some (PATH_TOO_LONG, out)
  end.
Proof.
  induction fuel as [|fuel IH]; intros p cs Hf Hp Hc; [lia|]. cbn [normalize_loop].
  destruct p as [|c0 p0]; [done|]. set (p := c0 :: p0) in *. clearbody p. clear c0 p0.
  rewrite <- (skip_names p). pose proof (skip_length p) as Ls. pose proof (skip_cstr p Hp) as Hs.
  pose proof (component_spec (skip_slashes p)) as Hcomp. pose proof (skip_head p) as Hh.
  destruct (component (skip_slashes p)) as [n r]. destruct Hcomp as (E&Hn&Hr). rewrite E in *.
  rewrite pieces_name by done. apply cstr_app in Hs as [Hn0 Hr0]. rewrite length_app in Ls.
  destruct (decide (n = [])) as [->|Ne].
  { destruct Hh as [Hh|(c&p'&Hh&Nc)]; cbn [app] in Hh; [by subst r|]. subst r.
    destruct Hr as [|[q [= ]]]; done. }
  assert (1 ≤ length n)%nat as Ln by (destruct n; [done|cbn; lia]).
  assert (name_ok n) as On. { split; [done|]. by apply Forall_and. }
  rewrite (proj2 (Z.eqb_neq (length_of n) 0)) by (unfold length_of; lia).
  rewrite is_dot, is_dotdot. cbn [app walk].
  destruct (decide (n = [DOT])) as [->|N1].
  { rewrite bool_decide_eq_true_2 by done. apply IH; [lia|done|done]. }
  rewrite bool_decide_eq_false_2 by done. destruct (decide (n = [DOT; DOT])) as [->|N2].
  { rewrite bool_decide_eq_true_2 by done. rewrite pop_name_render by done. apply IH; [lia|done|].
    destruct cs as [|c cs _] using rev_ind; [done|]. rewrite removelast_last. by apply Forall_app in Hc as []. }
  rewrite bool_decide_eq_false_2 by done. cbv zeta. rewrite render_push_length, render_push by done.
  destruct (Z.ltb_spec VFS_NAME_MAX (length_of n)).
  { rewrite decide_True by lia. eauto. }
  destruct (Z.ltb_spec capacity (length_of (render (cs ++ [n])) + 1)).
  { rewrite decide_True by lia. eauto. }
  rewrite decide_False by lia. apply IH; [lia|done|]. apply Forall_app. split; [done|by apply Forall_singleton].
Qed.

Lemma normalize_spec p capacity : cstr p →
  if decide (2 ≤ capacity ∧ aget 0 p 0 = SLASH) then
    match walk capacity [] (names p) with
    | Some ds => vfs_path_normalize (Some p) capacity = Some (length_of (render ds), render ds)
    | None => ∃ out, vfs_path_normalize (Some p) capacity = Some (PATH_TOO_LONG, out)
    end
  else vfs_path_normalize (Some p) capacity = Some (PATH_INVALID, []).
Proof.
  intros Hp. unfold vfs_path_normalize. destruct (decide _) as [[A B]|N].
  - destruct (Z.ltb_spec capacity 2); [lia|]. rewrite B. cbn [orb negb Z.eqb Pos.eqb].
    apply (normalize_loop_spec capacity (S (length p)) p []); [lia|done|constructor].
  - destruct (Z.ltb_spec capacity 2); [done|]. destruct (Z.eqb_spec (aget 0 p 0) SLASH); [|done]. tauto.
Qed.

(** What the walk leaves is clean and fits. *)
Lemma walk_clean capacity ns : ∀ cs ds, Forall name_ok ns → Forall plain_name cs →
  length_of (render cs) + 1 ≤ capacity → walk capacity cs ns = Some ds →
  Forall plain_name ds ∧ length_of (render ds) + 1 ≤ capacity.
Proof.
  induction ns as [|n ns IH]; intros cs ds Hn Hc Hl E; cbn [walk] in E; [by injection E as <-|].
  inversion Hn as [|? ? Hn1 Hns]; subst. destruct (decide (n = [DOT])); [by apply (IH cs)|].
  destruct (decide (n = [DOT; DOT])).
  - apply (IH (removelast cs)); try done; destruct cs as [|c cs _] using rev_ind; try done;
      rewrite removelast_last.
    + by apply Forall_app in Hc as [].
    + rewrite render_snoc in Hl. unfold render, length_of in *. rewrite length_app in Hl.
      destruct (decide (cs = [])); cbn [length] in *; lia.
  - destruct (decide _) as [|Nl]; [done|]. apply (IH (cs ++ [n])); [done| |lia|done].
    apply Forall_app. split; [done|]. apply Forall_singleton. repeat split; try done; try lia; apply Hn1.
Qed.

(** Names that are clean already are kept as they are. *)
Lemma walk_id capacity ns : ∀ cs, Forall plain_name (cs ++ ns) →
  length_of (render (cs ++ ns)) + 1 ≤ capacity → walk capacity cs ns = Some (cs ++ ns).
Proof.
  induction ns as [|n ns IH]; intros cs H L; cbn [walk]; [by rewrite app_nil_r|].
  pose proof H as H'. apply Forall_app in H' as [_ (Hn&N1&N2&Nl)%Forall_cons_1%proj1].
  rewrite (decide_False (P := n = [DOT])), (decide_False (P := n = [DOT; DOT])) by done.
  assert (cs ++ n :: ns = (cs ++ [n]) ++ ns) as E by (by rewrite <- app_assoc). rewrite E in *.
  rewrite decide_False; [by apply IH|].
  intros [|Hc]; [lia|]. revert L Hc. rewrite (render_joined ((cs ++ [n]) ++ ns)) by (by destruct cs).
  rewrite (render_joined (cs ++ [n])) by (by destruct cs). rewrite (joined_app (cs ++ [n])).
  unfold length_of. rewrite length_app. lia.
Qed.

(** ** Prefix, parent and base name *)

Lemma has_prefix_joined (cs ps : list (list Z)) : Forall name_ok cs → Forall name_ok ps →
  (∃ k, joined cs = joined ps ++ k ∧ at_name_end k) ↔ ps `prefix_of` cs.
Proof.
  intros Hc Hp. revert cs Hc. induction Hp as [|p ps Hp1 Hp IH]; intros cs Hc.
  - split; [intros _; apply prefix_nil|]. intros _. exists (joined cs). split; [done|apply at_end_joined].
  - split.
    + intros (k&E&Hk). destruct Hc as [|c cs Hc1 Hc]; [done|]. rewrite !joined_cons, <- app_comm_cons in E.
      injection E as E. rewrite <- app_assoc in E. apply split_names in E as [-> E];
        [|by apply name_ok_slash|by apply name_ok_slash|apply at_end_joined|].
      2:{ destruct ps; [by cbn|right; rewrite joined_cons; cbn; eauto]. }
      apply prefix_cons, IH; [done|eauto].
    + intros [q E]. cbn [app] in E. subst cs. inversion Hc as [|? ? Hc1 Hc']; subst.
      destruct (proj2 (IH (ps ++ q) Hc')) as (k&E&Hk); [by exists q|]. exists k. split; [|done].
      rewrite !joined_cons, E. cbn. by rewrite app_assoc.
Qed.

Lemma at_end_byte p : cstr p → at_name_end p ↔ aget 0 p 0 = 0 ∨ aget 0 p 0 = SLASH.
Proof.
  intros Hp. destruct p as [|c p]; [split; [by left|by left]|]. rewrite aget_0. inversion Hp; subst. split.
  - intros [|[p' [= -> _]]]; [done|by right].
  - intros [ | -> ]; [done|right; eauto].
Qed.

Lemma has_prefix_render cs ps : Forall name_ok cs → Forall name_ok ps →
  vfs_path_has_prefix (render cs) (render ps) = bool_decide (ps `prefix_of` cs).
Proof.
  intros Hc Hp. unfold vfs_path_has_prefix.
  destruct (decide (ps = [])) as [->|Np].
  { rewrite !render_head. symmetry. apply bool_decide_eq_true, prefix_nil. }
  pose proof (render_long ps Hp) as L. rewrite bool_decide_eq_true_2 in L by done. apply Z.ltb_lt in L.
  rewrite (proj2 (Z.eqb_neq (length_of (render ps)) 1)) by lia. cbn [andb].
  symmetry. destruct (for_first _ _ _) eqn:E.
  - apply bool_decide_eq_false. intros Hpre. rewrite (proj2 (differs_prefix _ _ (render_cstr ps Hp))) in E; [done|].
    apply has_prefix_joined in Hpre as (k&Ek&_); [|done..]. exists k.
    rewrite !render_joined; [done|done|]. intros ->. destruct ps; [done|].
    by rewrite joined_cons in Ek; cbn in Ek.
  - apply (differs_prefix _ _ (render_cstr ps Hp)) in E as [k Ek]. rewrite Ek.
    unfold length_of. rewrite aget_app_r, Z.sub_diag by lia.
    assert (cstr k) as Hk by (apply (render_cstr cs) in Hc; rewrite Ek in Hc; by apply cstr_app in Hc as []).
    pose proof (at_end_byte k Hk) as Hend. rewrite (render_joined ps) in Ek by done.
    assert (cs ≠ []) as Nc.
    { intros ->. destruct ps as [|p ps]; [done|]. inversion Hp as [|? ? [Hn _] _]; subst.
      rewrite joined_cons in Ek. destruct p; [done|]. cbn in Ek. done. }
    rewrite (render_joined cs) in Ek by done. destruct (decide (ps `prefix_of` cs)) as [Hpre|Hpre].
    + rewrite bool_decide_eq_true_2 by done. apply has_prefix_joined in Hpre as (k'&Ek'&Hk'); [|done..].
      rewrite Ek' in Ek. apply app_inv_head in Ek as ->. apply Hend in Hk' as [-> | ->]; done.
    + rewrite bool_decide_eq_false_2 by done. symmetry. apply orb_false_iff. rewrite !Z.eqb_neq. split; intros Z0;
        apply Hpre, has_prefix_joined; try done; exists k; (split; [done|]); apply Hend; auto.
Qed.

Lemma back_over_render cs n : Forall name_ok cs → name_ok n →
  back_over_slashes (render (cs ++ [n])) (length (render (cs ++ [n]))) = length (render (cs ++ [n])).
Proof.
  intros Hc [Hn Hs]. rewrite render_snoc. destruct n as [|a n _] using rev_ind; [done|].
  rewrite app_comm_cons, app_assoc, length_app, Nat.add_1_r. cbn [back_over_slashes].
  rewrite aget_app_r, Z.sub_diag, aget_0 by lia. apply Forall_app in Hs as [_ Hs].
  inversion Hs as [|? ? [_ Ha] _]; subst. destruct (Z.eqb_spec a SLASH); [done|]. by rewrite andb_false_r.
Qed.

Lemma parent_render cs n capacity : Forall name_ok cs → name_ok n →
  length_of (render (cs ++ [n])) + 1 ≤ capacity →
  vfs_path_parent (render (cs ++ [n])) capacity = (length_of (render cs), render cs).
Proof.
  intros Hc Hn L. unfold vfs_path_parent. rewrite back_over_render by done. rewrite render_head.
  pose proof (render_length (cs ++ [n])). rewrite (proj2 (Z.eqb_neq _ 0)) by lia. cbn [orb negb Z.eqb Pos.eqb].
  destruct (Z.ltb_spec capacity 2); [lia|].
  replace (length (render (cs ++ [n]))) with (length (joined cs) + 1 + length n)%nat.
  2:{ rewrite render_snoc, length_app. cbn [length]. lia. }
  rewrite !render_snoc. rewrite back_to_slash_spec by (done || by apply name_ok_slash). cbv zeta.
  pose proof (drop_last_name cs n Hc) as E.
  set (k := if 1 <? Z.of_nat (length (joined cs) + 1) then _ else _) in *.
  assert (k ≤ length (joined cs ++ SLASH :: n))%nat as Lk.
  { subst k. rewrite length_app. cbn [length]. destruct (1 <? _); lia. }
  assert (Z.of_nat k = length_of (render cs)) as Ek.
  { unfold length_of. rewrite <- E, length_take. lia. }
  rewrite E, Ek. destruct (Z.ltb_spec capacity (length_of (render cs) + 1)); [|done].
  exfalso. rewrite render_snoc in L. unfold length_of in *. lia.
Qed.

Lemma basename_name n q : Forall (λ c, c ≠ SLASH) n → basename_loop q n = q.
Proof.
  intros Hn. revert q. induction Hn as [|c n Hc _ IH]; intros q; [done|]. cbn [basename_loop].
  destruct (Z.eqb_spec c SLASH); [done|]. apply IH.
Qed.

Lemma basename_loop_joined cs n : ∀ q, Forall name_ok cs → name_ok n →
  basename_loop q (joined cs ++ SLASH :: n) = n.
Proof.
  assert (∀ m q x, Forall (λ c, c ≠ SLASH) m → basename_loop q (m ++ x) = basename_loop q x) as Skip.
  { intros m q x Hm. induction Hm as [|c m Hc _ IH]; [done|]. cbn [app basename_loop].
    destruct (Z.eqb_spec c SLASH); [done|]. apply IH. }
  intros q Hc Hn. revert q. induction Hc as [|c cs Hc1 Hc IH]; intros q.
  - cbn [app joined concat map basename_loop Z.eqb Pos.eqb andb].
    destruct Hn as [N Hs]. destruct n as [|a n]; [done|]. rewrite aget_0. inversion Hs as [|? ? [Ha _] _]; subst.
    destruct (Z.eqb_spec a 0); [done|]. apply basename_name.
    eapply Forall_impl; [exact Hs|]. by intros ? [].
  - rewrite joined_cons. cbn [app basename_loop Z.eqb Pos.eqb andb]. rewrite <- app_assoc.
    rewrite Skip by by apply name_ok_slash. apply IH.
Qed.

Lemma basename_render cs n : Forall name_ok cs → name_ok n → vfs_path_basename (render (cs ++ [n])) = n.
Proof. intros. unfold vfs_path_basename. rewrite render_snoc. by apply basename_loop_joined. Qed.

Lemma plain_names cs : Forall plain_name cs → Forall name_ok cs.
Proof. intros H. eapply Forall_impl; [exact H|]. by intros n []. Qed.

Lemma normalize_render cs capacity : Forall plain_name cs → 2 ≤ capacity →
  length_of (render cs) + 1 ≤ capacity →
  vfs_path_normalize (Some (render cs)) capacity = Some (length_of (render cs), render cs).
Proof.
  intros Hc H2 L. pose proof (plain_names cs Hc) as Hn.
  pose proof (normalize_spec (render cs) capacity (render_cstr cs Hn)) as S.
  rewrite decide_True in S by (split; [done|apply render_head]).
  rewrite names_render in S by done. by rewrite (walk_id capacity cs []) in S.
Qed.

(** ** Properties *)

(** C33: normalisation of any text ends; it fails exactly when the buffer has
    less than two bytes, the path is not absolute, or a name or an intermediate
    result is too long; otherwise it writes the path the names of the text lead
    to (a dot stays, two dots leave the last directory and the root is its own
    parent), with the length and terminator within the buffer; and the result
    has no empty, dot or dot-dot component and is its own normal form. *)
Theorem path_normalize_correct p capacity : cstr p →
  ∃ r out, vfs_path_normalize (Some p) capacity = Some (r, out) ∧
    (r < 0 ↔ capacity < 2 ∨ aget 0 p 0 ≠ SLASH ∨ walk capacity [] (names p) = None) ∧
    (0 ≤ r → ∃ ds, walk capacity [] (names p) = Some ds ∧ out = render ds ∧ r = length_of out ∧
       r + 1 ≤ capacity ∧ Forall plain_name ds ∧
       vfs_path_normalize (Some out) capacity = Some (r, out)).
Proof.
  intros Hp. pose proof (normalize_spec p capacity Hp) as S. destruct (decide _) as [[A B]|N].
  - destruct (walk capacity [] (names p)) as [ds|] eqn:Ew.
    + destruct (walk_clean capacity (names p) [] ds) as [Hd Hl]; [by apply names_ok|by apply Forall_nil|exact A|exact Ew|].
      exists (length_of (render ds)), (render ds). split; [done|]. pose proof (render_length ds).
      split; [split; [lia|intros [?|[?|?]]; [lia|done|done]]|]. intros _. exists ds.
      split_and!; try done. by apply normalize_render.
    + destruct S as [out S]. exists PATH_TOO_LONG, out. unfold PATH_TOO_LONG in *. split; [done|]. split; [|lia].
      split; [auto|lia].
  - exists PATH_INVALID, []. unfold PATH_INVALID in *. split; [done|]. split; [|lia]. split; [|lia]. intros _.
    destruct (Z.lt_ge_cases capacity 2); [by left|]. right. left. intros E. by apply N.
Qed.

(** "/a//./b/../c/" is "/a/c". *)
Definition demo_path : list Z := [47; 97; 47; 47; 46; 47; 98; 47; 46; 46; 47; 99; 47].
Lemma path_normalize_correct_witness :
  ∃ r out, vfs_path_normalize (Some demo_path) 64 = Some (r, out) ∧ out = [47; 97; 47; 99] ∧ r = 4 ∧
    vfs_path_normalize (Some out) 64 = Some (r, out).
Proof.
  destruct (path_normalize_correct demo_path 64) as (r&out&E&_&H).
  { repeat (constructor; [discriminate|]). constructor. }
  exists r, out. split; [exact E|].
  assert (r = 4 ∧ out = [47; 97; 47; 99]) as [Er Eo] by (vm_compute in E; by injection E as <- <-).
  destruct H as (ds&_&_&_&_&_&Hid); [lia|]. split; [exact Eo|]. split; [exact Er|exact Hid].
Defined.

(** On normal paths the byte functions are the functions on lists of
    names: a path has another as prefix exactly when its names begin with the
    other's (so "/usrx" is not below "/usr", and everything is below "/"), the
    parent is the path without its last name, the base name that name. *)
Theorem path_functions_on_names cs ps n capacity :
  Forall plain_name cs → Forall plain_name ps → plain_name n →
  length_of (render (cs ++ [n])) + 1 ≤ capacity →
  vfs_path_has_prefix (render cs) (render ps) = bool_decide (ps `prefix_of` cs) ∧
  vfs_path_parent (render (cs ++ [n])) capacity = (length_of (render cs), render cs) ∧
  vfs_path_basename (render (cs ++ [n])) = n ∧
  (render cs = render ps ↔ cs = ps).
Proof.
  intros Hc%plain_names Hp%plain_names [Hn _] L. split_and!.
  - by apply has_prefix_render.
  - by apply parent_render.
  - by apply basename_render.
  - split; [by apply render_inj|by intros ->].
Qed.

Lemma path_functions_on_names_witness :
  vfs_path_has_prefix (render [[117; 115; 114]; [97]]) (render [[117; 115; 114]]) = true ∧
  vfs_path_has_prefix (render [[117; 115; 114; 120]]) (render [[117; 115; 114]]) = false ∧
  vfs_path_parent (render [[117; 115; 114]; [97]]) 64 = (4, [47; 117; 115; 114]).
Proof.
  assert (plain_name [97]) as H1 by (repeat split; repeat constructor; discriminate).
  assert (plain_name [117; 115; 114]) as H2 by (repeat split; repeat constructor; discriminate).
  assert (plain_name [117; 115; 114; 120]) as H3 by (repeat split; repeat constructor; discriminate).
  destruct (path_functions_on_names [[117; 115; 114]; [97]] [[117; 115; 114]] [97] 64)
    as (A&_); [repeat first [assumption|apply Forall_nil_2|apply Forall_cons_2]..|by vm_compute|].
  destruct (path_functions_on_names [[117; 115; 114; 120]] [[117; 115; 114]] [97] 64)
    as (B&_); [repeat first [assumption|apply Forall_nil_2|apply Forall_cons_2]..|by vm_compute|].
  destruct (path_functions_on_names [[117; 115; 114]] [] [97] 64) as (_&C&_); [repeat first [assumption|apply Forall_nil_2|apply Forall_cons_2]..|by vm_compute|].
  split; [rewrite A; reflexivity|]. split; [rewrite B; reflexivity|exact C].
Defined.
