(* ===== verification/Alias.v ===== *)
(** * Path aliases (src/src/fs/vfs_alias.c)

    The table of old paths and where they are now, and the rewriting of a path
    by it. *)

From S2P Require Import Prelude Cstr Path.

(** [src/fs/vfs_alias.c:5-5] ALIAS_PASSES *)
Definition ALIAS_PASSES : nat := 4.

(** [src/fs/vfs_alias.c:7-11] alias *)
Record alias := MkAlias { from : list Z; to : list Z; exact : bool }.

Arguments text _%_string.
Definition entry (f t : string) (e : bool) : alias := MkAlias (text f) (text t) e.
Arguments entry (_ _)%_string _.

(** [src/fs/vfs_alias.c:13-48] aliases *)
Definition aliases : list alias := [
  entry "/bin/program/login" "/bin/login" true;
  entry "/bin/program/tetris" "/usr/games/tetris" true;
  entry "/bin/program/puzzle15" "/usr/games/puzzle15" true;
  entry "/bin/program/2048" "/usr/games/2048" true;
  entry "/bin/program/system/reboot" "/sbin/reboot" true;
  entry "/bin/program/system/poweroff" "/sbin/poweroff" true;
  entry "/bin/program/system/shutdown" "/sbin/shutdown" true;
  entry "/bin/program/system/halt" "/sbin/halt" true;
  entry "/bin/program/system/mkfs" "/sbin/mkfs" true;
  entry "/bin/program/system/hddcheck" "/sbin/hddcheck" true;
  entry "/bin/init" "/sbin/init" true;
  entry "/bin/installer" "/sbin/installer" true;
  entry "/bin/reboot" "/sbin/reboot" true;
  entry "/bin/poweroff" "/sbin/poweroff" true;
  entry "/bin/shutdown" "/sbin/shutdown" true;
  entry "/bin/halt" "/sbin/halt" true;
  entry "/bin/mkfs" "/sbin/mkfs" true;
  entry "/bin/hddcheck" "/sbin/hddcheck" true;
  entry "/bin/snake" "/usr/games/snake" true;
  entry "/bin/tetris" "/usr/games/tetris" true;
  entry "/bin/puzzle15" "/usr/games/puzzle15" true;
  entry "/bin/2048" "/usr/games/2048" true;
  entry "/bin/gui-demo" "/usr/bin/gui-demo" true;
  entry "/bin/program/system" "/bin" false;
  entry "/bin/program" "/usr/bin" false;
  entry "/bin/sound" "/usr/share/sounds" false;
  entry "/game/sound" "/usr/share/sounds" false;
  entry "/game" "/usr/games" false;
  entry "/walpaper" "/usr/share/wallpapers" false;
  entry "/src/demo" "/usr/share/demo" false;
  entry "/demo" "/usr/share/demo" false;
  entry "/include" "/usr/include" false;
  entry "/bin/modules" "/lib/modules" false;
  entry "/bin/firmware" "/lib/firmware" false ].

(** The same function as in vfs_perm.c.
    [src/fs/vfs_alias.c:59-65] equal *)
Definition equal : list Z → list Z → bool := text_equal.

(** [src/fs/vfs_alias.c:67-73] ends_with *)
Definition ends_with (t suffix : list Z) : bool :=
  if length_of t <? length_of suffix then false
  else equal (drop (Z.to_nat (length_of t - length_of suffix)) t) suffix.

(** The two literals of the function. *)
Definition desktop_directory : list Z := text "/bin/program/".
Definition desktop_target : list Z := text "/usr/share/applications/".

(** 1 and the new path, 0 when it stays, or -1 when it does not fit.
    [src/fs/vfs_alias.c:75-95] rewrite_desktop *)
Definition rewrite_desktop (path : list Z) (capacity : Z) : Z * list Z :=
  if negb (vfs_path_has_prefix path (text "/bin/program")) ||
     (length_of path <=? length_of desktop_directory) || negb (ends_with path (text ".desktop"))
  then (0, [])
  else
    let name := drop (length desktop_directory) path in
    if existsb (λ c, c =? SLASH) name then (0, [])
    else if capacity <? length_of desktop_target + length_of name + 1 then (-1, [])
    else (1, desktop_target ++ name).

(** The loop over the table.
    [src/fs/vfs_alias.c:101-116] rewrite_once *)
Fixpoint rewrite_table (table : list alias) (path : list Z) (capacity : Z) : Z * list Z :=
  match table with
  | [] => (0, [])
  | a :: table' =>
      if (if exact a then negb (equal path (from a)) else negb (vfs_path_has_prefix path (from a)))
      then rewrite_table table' path capacity
      else
        let rest := drop (length (from a)) path in
        if capacity <? length_of (to a) + length_of rest + 1 then (-1, []) else (1, to a ++ rest)
  end.

(** [src/fs/vfs_alias.c:97-118] rewrite_once *)
Definition rewrite_once (path : list Z) (capacity : Z) : Z * list Z :=
  let '(desktop, out) := rewrite_desktop path capacity in
  if negb (desktop =? 0) then (desktop, out) else rewrite_table aliases path capacity.

(** The passes over [current]: the error, or the last length and text.
    [src/fs/vfs_alias.c:128-137] vfs_alias_resolve *)
Fixpoint alias_passes (passes : nat) (length : Z) (current : list Z) : option (Z + Z * list Z) :=
  match passes with
  | O => Some (inr (length, current))
  | S passes' =>
      let '(changed, next) := rewrite_once current VFS_PATH_MAX in
      if changed <? 0 then Some (inl (-3))
      else if changed =? 0 then Some (inr (length, current))
      else match vfs_path_normalize (Some next) VFS_PATH_MAX with
           | None => None
           | Some (length, current) =>
               if length <? 0 then Some (inl length) else alias_passes passes' length current
           end
  end.

(** [None] only if the normalisation ran out of fuel, which it does not.
    [src/fs/vfs_alias.c:120-143] vfs_alias_resolve *)
Definition vfs_alias_resolve (path : list Z) (capacity : Z) : option (Z * list Z) :=
  if capacity <? 2 then Some (-3, []) else
  match vfs_path_normalize (Some path) VFS_PATH_MAX with
  | None => None
  | Some (length, current) =>
      if length <? 0 then Some (length, []) else
      match alias_passes ALIAS_PASSES length current with
      | None => None
      | Some (inl e) => Some (e, [])
      | Some (inr (length, current)) =>
          if capacity <? length + 1 then Some (-3, []) else Some (length, current)
      end
  end.

(** ** On lists of names *)

(** What a row says of a path given by its names. *)
Definition alias_names (a : alias) (cs : list (list Z)) : option (list (list Z)) :=
  let f := names (from a) in
  if (if exact a then bool_decide (cs = f) else bool_decide (f `prefix_of` cs))
  then Some (names (to a) ++ drop (length f) cs) else None.

(** Launchers that stood beside the programs. *)
Definition is_desktop (n : list Z) : bool := ends_with n (text ".desktop").
Definition desktop_names (cs : list (list Z)) : option (list (list Z)) :=
  match cs with
  | [bin; program; n] =>
      if decide (bin = text "bin" ∧ program = text "program" ∧ is_desktop n = true)
      then Some [text "usr"; text "share"; text "applications"; n] else None
  | _ => None
  end.

(** One rewriting: the launcher, or the first row that applies. *)
Definition alias_step (cs : list (list Z)) : option (list (list Z)) :=
  match desktop_names cs with
  | Some ds => Some ds
  | None => match omap (λ a, alias_names a cs) aliases with ds :: _ => Some ds | [] => None end
  end.

(** At most so many rewritings, each of which must fit a path buffer. *)
Fixpoint alias_steps (passes : nat) (cs : list (list Z)) : option (list (list Z)) :=
  match passes with
  | O => Some cs
  | S passes' =>
      match alias_step cs with
      | None => Some cs
      | Some ds => if decide (length_of (render ds) + 1 ≤ VFS_PATH_MAX) then alias_steps passes' ds else None
      end
  end.

(** ** Bytes and names agree *)

#[export] Instance plain_name_dec n : Decision (plain_name n).
Proof. unfold plain_name, name_ok. apply _. Defined.

(** Both paths of a row are normal. *)
Definition row_ok (a : alias) : Prop :=
  from a = joined (names (from a)) ∧ to a = joined (names (to a)) ∧
  names (from a) ≠ [] ∧ names (to a) ≠ [] ∧
  Forall plain_name (names (from a)) ∧ Forall plain_name (names (to a)).

#[export] Instance row_ok_dec a : Decision (row_ok a).
Proof. unfold row_ok. apply _. Defined.

Lemma aliases_ok : Forall row_ok aliases.
Proof. apply (bool_decide_unpack _). vm_compute. done. Qed.

Lemma row_applies a cs : row_ok a → Forall plain_name cs →
  (if exact a then negb (equal (render cs) (from a)) else negb (vfs_path_has_prefix (render cs) (from a))) =
  negb (if exact a then bool_decide (cs = names (from a)) else bool_decide (names (from a) `prefix_of` cs)).
Proof.
  intros (Hf&_&Nf&_&Pf&_) Hc%plain_names. apply plain_names in Pf. rewrite <- (render_joined _ Nf) in Hf.
  set (f := names (from a)) in *. clearbody f. rewrite Hf. destruct (exact a); f_equal; [|by apply has_prefix_render].
  unfold equal. rewrite text_equal_spec by by apply render_cstr. apply bool_decide_ext.
  split; [by apply render_inj|by intros ->].
Qed.

(** The text after the prefix of a row is what follows its names. *)
Lemma row_result a q : row_ok a →
  to a ++ drop (length (from a)) (render (names (from a) ++ q)) = render (names (to a) ++ q).
Proof.
  intros (Hf&Ht&Nf&Nt&_&_). rewrite !render_joined by (destruct (names (from a)), (names (to a)); done).
  rewrite !joined_app, <- Hf, <- Ht. by rewrite drop_app_length.
Qed.

Lemma rewrite_table_names table cs capacity : Forall row_ok table → Forall plain_name cs →
  rewrite_table table (render cs) capacity =
  match omap (λ a, alias_names a cs) table with
  | [] => (0, [])
  | ds :: _ => if capacity <? length_of (render ds) + 1 then (-1, []) else (1, render ds)
  end.
Proof.
  intros Ht Hc. induction Ht as [|a table Ha Ht IH]; [done|]. cbn [rewrite_table omap list_omap].
  rewrite row_applies by done. unfold alias_names at 1.
  set (b := if exact a then _ else _). destruct b eqn:Eb; cbn [negb]; [|exact IH].
  assert (∃ q, cs = names (from a) ++ q) as [q ->].
  { subst b. destruct (exact a); apply bool_decide_eq_true in Eb; [exists []; by rewrite app_nil_r|exact Eb]. }
  rewrite drop_app_length. rewrite <- row_result by done. unfold length_of. rewrite length_app, Nat2Z.inj_add. done.
Qed.

Lemma ends_with_name pre n suffix : Forall (λ c, c ≠ SLASH) suffix → cstr suffix → cstr (pre ++ SLASH :: n) →
  ends_with (pre ++ SLASH :: n) suffix = ends_with n suffix.
Proof.
  intros Hs Cs Ct. unfold ends_with, length_of.
  assert (cstr n) as Cn by (apply cstr_app in Ct as [_ Ct]; by inversion Ct).
  rewrite length_app. cbn [length]. unfold equal.
  destruct (Z.ltb_spec (Z.of_nat (length n)) (Z.of_nat (length suffix))).
  - destruct (Z.ltb_spec (Z.of_nat (length pre + S (length n))) (Z.of_nat (length suffix))); [done|].
    rewrite text_equal_spec; [|by apply Forall_drop|done]. apply bool_decide_eq_false. intros E.
    rewrite drop_app_le in E by lia. rewrite <- E in Hs. apply Forall_app in Hs as [_ Hs]. by inversion Hs.
  - destruct (Z.ltb_spec (Z.of_nat (length pre + S (length n))) (Z.of_nat (length suffix))); [lia|].
    f_equal. rewrite drop_app_ge by lia.
    replace (_ - length pre)%nat with (S (length n - length suffix)) by lia. cbn [drop]. f_equal. lia.
Qed.

(** The directory of the launchers, and a name below it. *)
Lemma desktop_path n q : render (text "bin" :: text "program" :: n :: q) = desktop_directory ++ n ++ joined q.
Proof. rewrite render_joined by done. rewrite !joined_cons. done. Qed.

Lemma desktop_render ds : desktop_target ++ ds = render [text "usr"; text "share"; text "applications"; ds].
Proof. rewrite render_joined by done. rewrite !joined_cons. cbn. by rewrite app_nil_r. Qed.

Lemma no_slash_exists n : Forall (λ c, c ≠ SLASH) n → existsb (λ c, c =? SLASH) n = false.
Proof. induction 1 as [|c n Hc _ IH]; [done|]. cbn [existsb]. destruct (Z.eqb_spec c SLASH); done. Qed.

Lemma rewrite_desktop_names cs capacity : Forall plain_name cs →
  rewrite_desktop (render cs) capacity =
  match desktop_names cs with
  | None => (0, [])
  | Some ds => if capacity <? length_of (render ds) + 1 then (-1, []) else (1, render ds)
  end.
Proof.
  intros Hc. pose proof (plain_names cs Hc) as Hn. unfold rewrite_desktop.
  change (text "/bin/program") with (render [text "bin"; text "program"]).
  rewrite has_prefix_render; [|done|by apply plain_names, (bool_decide_unpack _); vm_compute].
  destruct (decide ([text "bin"; text "program"] `prefix_of` cs)) as [[q ->]|Np].
  2:{ rewrite bool_decide_eq_false_2 by done. cbn [negb orb]. destruct cs as [|b [|p [|n [|? ?]]]]; try done.
      unfold desktop_names. rewrite decide_False; [done|]. intros (->&->&_). apply Np. by exists [n]. }
  rewrite bool_decide_eq_true_2 by (by exists q). cbn [negb orb app].
  destruct q as [|n q]; [by vm_compute|]. rewrite desktop_path.
  cbn [app] in Hc, Hn. do 2 apply Forall_cons_1 in Hn as [_ Hn]. apply Forall_cons_1 in Hn as [Nn Nq].
  destruct (Z.leb_spec (length_of (desktop_directory ++ n ++ joined q)) (length_of desktop_directory)) as [L|L].
  { exfalso. unfold length_of in L. rewrite !length_app in L. destruct Nn as [Nn _]. destruct n; [done|]. cbn [length] in L. lia. }
  cbn [orb]. rewrite drop_app_length. cbv zeta. destruct q as [|m q].
  - cbn [joined concat map]. rewrite app_nil_r. change desktop_directory with (text "/bin/program" ++ [SLASH]) at 1.
    rewrite <- app_assoc. cbn [app]. rewrite ends_with_name.
    2,3: by apply (bool_decide_unpack _); vm_compute.
    2:{ apply cstr_app. split; [by apply (bool_decide_unpack _); vm_compute|constructor; [done|by apply name_ok_cstr]]. }
    fold (is_desktop n). unfold desktop_names. destruct (is_desktop n) eqn:Ed; cbn [negb orb].
    + rewrite no_slash_exists by by apply name_ok_slash. rewrite decide_True by done.
      rewrite <- desktop_render. unfold length_of. rewrite length_app, Nat2Z.inj_add. done.
    + by rewrite decide_False by (by intros (_&_&?)).
  - assert (existsb (λ c, c =? SLASH) (n ++ joined (m :: q)) = true) as ->.
    { rewrite existsb_app, joined_cons. cbn. by rewrite orb_true_r. }
    destruct (negb (ends_with _ _)); cbn; by destruct q.
Qed.

Lemma rewrite_once_names cs capacity : Forall plain_name cs →
  rewrite_once (render cs) capacity =
  match alias_step cs with
  | None => (0, [])
  | Some ds => if capacity <? length_of (render ds) + 1 then (-1, []) else (1, render ds)
  end.
Proof.
  intros Hc. unfold rewrite_once. rewrite rewrite_desktop_names, (rewrite_table_names aliases) by (done || apply aliases_ok).
  unfold alias_step. destruct (desktop_names cs); [by destruct (_ <? _)|]. cbn [negb Z.eqb].
  by destruct (omap _ aliases).
Qed.

Lemma alias_step_plain cs ds : Forall plain_name cs → alias_step cs = Some ds → Forall plain_name ds.
Proof.
  intros Hc. unfold alias_step. destruct (desktop_names cs) as [e|] eqn:Ed.
  - intros [= <-]. unfold desktop_names in Ed. destruct cs as [|b [|p [|n [|? ?]]]]; try done.
    destruct (decide _); [|done]. injection Ed as <-. do 2 apply Forall_cons_1 in Hc as [_ Hc].
    do 3 (apply Forall_cons; split; [by apply (bool_decide_unpack _); vm_compute|]). done.
  - destruct (omap _ aliases) as [|e es] eqn:Eo; [done|]. intros [= ->].
    assert (ds ∈ omap (λ a, alias_names a cs) aliases) as (a&Ha&Ea)%list_elem_of_omap by (rewrite Eo; by left).
    pose proof (proj1 (Forall_forall _ _) aliases_ok a Ha) as (_&_&_&_&_&Pt). unfold alias_names in Ea.
    set (b := if exact a then _ else _) in Ea. destruct b; [|done]. injection Ea as <-.
    apply Forall_app. split; [done|by apply Forall_drop].
Qed.

Lemma alias_passes_names passes : ∀ cs, Forall plain_name cs → length_of (render cs) + 1 ≤ VFS_PATH_MAX →
  alias_passes passes (length_of (render cs)) (render cs) =
  Some (match alias_steps passes cs with
        | Some ds => inr (length_of (render ds), render ds)
        | None => inl (-3)
        end).
Proof.
  induction passes as [|passes IH]; intros cs Hc Hl; [done|]. cbn [alias_passes alias_steps].
  rewrite rewrite_once_names by done. destruct (alias_step cs) as [ds|] eqn:Es; [|done].
  pose proof (alias_step_plain cs ds Hc Es) as Hd.
  destruct (Z.ltb_spec VFS_PATH_MAX (length_of (render ds) + 1)).
  { rewrite decide_False by lia. done. }
  rewrite decide_True by lia. cbn [Z.ltb Z.compare Z.eqb]. rewrite normalize_render; [|done|by unfold VFS_PATH_MAX|lia].
  pose proof (render_length ds). destruct (Z.ltb_spec (length_of (render ds)) 0); [lia|]. by apply IH.
Qed.

Lemma alias_steps_fits passes : ∀ cs ds, Forall plain_name cs → length_of (render cs) + 1 ≤ VFS_PATH_MAX →
  alias_steps passes cs = Some ds → Forall plain_name ds ∧ length_of (render ds) + 1 ≤ VFS_PATH_MAX.
Proof.
  induction passes as [|passes IH]; intros cs ds Hc Hl; cbn [alias_steps]; [by intros [= <-]|].
  destruct (alias_step cs) as [es|] eqn:Es; [|by intros [= <-]]. destruct (decide _); [|done].
  apply IH; [|done]. by eapply alias_step_plain.
Qed.

(** ** Properties *)

(** C32: Resolving aliases is at most four rewritings of the path as a list of
    names: the call ends on every text; it fails exactly when the buffer is
    below two bytes, the text is not absolute or too long, a rewriting does not
    fit a path buffer, or the result does not fit the caller's; otherwise what
    it writes is the normal path the rewritings lead to. *)
Theorem alias_resolve_correct p capacity : cstr p →
  ∃ r out, vfs_alias_resolve p capacity = Some (r, out) ∧
    match (if decide (2 ≤ capacity ∧ aget 0 p 0 = SLASH)
           then walk VFS_PATH_MAX [] (names p) ≫= alias_steps ALIAS_PASSES else None) with
    | Some ds => if decide (length_of (render ds) + 1 ≤ capacity)
                 then out = render ds ∧ r = length_of out ∧ Forall plain_name ds else r = -3
    | None => r = -3
    end.
Proof.
  intros Hp. pose proof (normalize_spec p VFS_PATH_MAX Hp) as S. unfold vfs_alias_resolve.
  destruct (Z.ltb_spec capacity 2).
  { rewrite decide_False by lia. eauto. }
  destruct (decide (aget 0 p 0 = SLASH)) as [Es|Es].
  2:{ rewrite decide_False in S by tauto. rewrite S, decide_False by tauto. cbn. eauto. }
  rewrite decide_True in S by (by split). rewrite decide_True by done.
  destruct (walk VFS_PATH_MAX [] (names p)) as [cs|] eqn:Ew; [|destruct S as [out ->]; by exists PATH_TOO_LONG, []].
  destruct (walk_clean VFS_PATH_MAX (names p) [] cs) as [Hc Hl]; [by apply names_ok|by apply Forall_nil|by vm_compute|exact Ew|].
  rewrite S. pose proof (render_length cs). destruct (Z.ltb_spec (length_of (render cs)) 0); [lia|].
  rewrite alias_passes_names by done. cbn [mbind option_bind].
  destruct (alias_steps ALIAS_PASSES cs) as [ds|] eqn:Ea; [|eauto].
  destruct (alias_steps_fits _ cs ds Hc Hl Ea) as [Hd _].
  destruct (Z.ltb_spec capacity (length_of (render ds) + 1)).
  - eexists _, _. split; [done|]. by rewrite decide_False by lia.
  - eexists _, _. split; [done|]. by rewrite decide_True by lia.
Qed.

(** "/bin/program/program/../x" is "/usr/bin/x". *)
Lemma alias_resolve_correct_witness :
  vfs_alias_resolve (text "/bin/program/program/../x") 64 = Some (10, text "/usr/bin/x").
Proof.
  destruct (alias_resolve_correct (text "/bin/program/program/../x") 64) as (r&out&E&H).
  { apply (bool_decide_unpack _). vm_compute. exact I. }
  rewrite E. vm_compute in E. injection E as <- <-. reflexivity.
Defined.
