(* ===== verification/Mount.v ===== *)
(** * The mount table (src/src/fs/vfs_mount.c)

    Sixteen slots, each with the path it is mounted at.  The operations of a
    file system are known by an address and the name they carry; the context is
    an address.  A mount is returned as the index of its slot. *)

From S2P Require Import Prelude Errno Cstr Path.

(** [src/fs/vfs_mount.h:8-8] VFS_MOUNT_MAX *)
Definition VFS_MOUNT_MAX : nat := 16.
(** [src/fs/vfs_mount.h:9-9] VFS_MOUNT_READ_ONLY *)
Definition VFS_MOUNT_READ_ONLY : Z := 1.

Record vfs_fs_ops := FsOps { ops_address : Z; ops_name : list Z }.

(** [src/fs/vfs_mount.h:11-18] vfs_mount *)
Record vfs_mount := VfsMount {
  m_path : list Z;
  m_source : list Z;
  m_ops : option vfs_fs_ops;
  m_context : Z;
  m_flags : Z;
  m_used : bool;
}.
#[export] Instance eta_mount : Eta vfs_mount := λ m,
  VfsMount (m_path m) (m_source m) (m_ops m) (m_context m) (m_flags m) (m_used m).
Definition mount_zero : vfs_mount := VfsMount [] [] None 0 0 false.

(** [src/fs/vfs_mount.c:3-3] mounts *)
Definition mounts_init : list vfs_mount := replicate VFS_MOUNT_MAX mount_zero.

Definition slot_at (ms : list vfs_mount) (i : Z) : vfs_mount := aget mount_zero ms i.

(** The same function as in vfs_perm.c.
    [src/fs/vfs_mount.c:12-18] equal *)
Definition equal : list Z → list Z → bool := text_equal.

(** The path with the result of the normalisation into a [VFS_PATH_MAX] buffer. *)
Definition normalized (path : option (list Z)) : option (list Z) :=
  match vfs_path_normalize path VFS_PATH_MAX with
  | Some (r, out) => if r <? 0 then None else Some out
  | None => None
  end.

(** The loop over the slots: the first free one, unless a used one has the path.
    [src/fs/vfs_mount.c:36-44] vfs_mount_add *)
Fixpoint add_scan (ms : list vfs_mount) (path : list Z) (n : nat) (i : Z) (slot : option Z)
    : option (option Z) :=
  match n with
  | O => Some slot
  | S n' =>
      if negb (m_used (slot_at ms i))
      then add_scan ms path n' (i + 1) (match slot with None => Some i | Some _ => slot end)
      else if equal (m_path (slot_at ms i)) path then None
      else add_scan ms path n' (i + 1) slot
  end.

Definition source_or_name (source : option (list Z)) (ops : vfs_fs_ops) : list Z :=
  match source with Some s => s | None => ops_name ops end.

(** [src/fs/vfs_mount.c:30-54] vfs_mount_add *)
Definition vfs_mount_add (path : option (list Z)) (ops : option vfs_fs_ops) (context : Z)
    (source : option (list Z)) (flags : Z) (ms : list vfs_mount) : Z * list vfs_mount :=
  match ops, normalized path with
  | Some o, Some normal =>
      match add_scan ms normal VFS_MOUNT_MAX 0 None with
      | None => (FS_ERROR_BUSY, ms)
      | Some None => (FS_ERROR_NO_SPACE, ms)
      | Some (Some i) =>
          (0, aset ms i (VfsMount (copy_text normal VFS_PATH_MAX)
                                  (copy_text (source_or_name source o) 64) (Some o) context flags true))
      end
  | _, _ => (FS_ERROR_INVALID, ms)
  end.

(** [src/fs/vfs_mount.c:121-126] vfs_mount_at *)
Definition vfs_mount_at (ms : list vfs_mount) (path : list Z) : option Z :=
  for_first (λ i, m_used (slot_at ms i) && equal (m_path (slot_at ms i)) path) VFS_MOUNT_MAX 0.

(** [src/fs/vfs_mount.c:56-70] vfs_mount_replace *)
Definition vfs_mount_replace (path : option (list Z)) (ops : option vfs_fs_ops) (context : Z)
    (source : option (list Z)) (flags : Z) (ms : list vfs_mount) : Z * list vfs_mount :=
  match ops, normalized path with
  | Some o, Some normal =>
      match vfs_mount_at ms normal with
      | None => vfs_mount_add (Some normal) ops context source flags ms
      | Some i =>
          (0, aset ms i ((slot_at ms i) <| m_source := copy_text (source_or_name source o) 64 |>
                           <| m_ops := Some o |> <| m_context := context |> <| m_flags := flags |>))
      end
  | _, _ => (FS_ERROR_INVALID, ms)
  end.

(** A mount below the one at [i].
    [src/fs/vfs_mount.c:79-85] vfs_mount_remove *)
Definition mount_below (ms : list vfs_mount) (path : list Z) (i : Z) : option Z :=
  for_first (λ j, negb (j =? i) && m_used (slot_at ms j) &&
                  (negb (equal (m_path (slot_at ms j)) path) &&
                   vfs_path_has_prefix (m_path (slot_at ms j)) path)) VFS_MOUNT_MAX 0.

(** [src/fs/vfs_mount.c:72-90] vfs_mount_remove *)
Definition vfs_mount_remove (path : option (list Z)) (ms : list vfs_mount) : Z * list vfs_mount :=
  match normalized path with
  | None => (FS_ERROR_INVALID, ms)
  | Some normal =>
      match vfs_mount_at ms normal with
      | None => (FS_ERROR_NOT_FOUND, ms)
      | Some i =>
          match mount_below ms normal i with
          | Some _ => (FS_ERROR_BUSY, ms)
          | None => (0, aset ms i ((slot_at ms i) <| m_used := false |>))
          end
      end
  end.

(** The loop of [vfs_mount_find], with the best slot and its length.
    [src/fs/vfs_mount.c:96-104] vfs_mount_find *)
Fixpoint find_best (ms : list vfs_mount) (path : list Z) (n : nat) (i : Z) (best : option (Z * Z))
    : option (Z * Z) :=
  match n with
  | O => best
  | S n' =>
      if negb (m_used (slot_at ms i)) || negb (vfs_path_has_prefix path (m_path (slot_at ms i)))
      then find_best ms path n' (i + 1) best
      else
        let length := length_of (m_path (slot_at ms i)) in
        find_best ms path n' (i + 1)
          (match best with
           | None => Some (i, length)
           | Some (_, best_length) => if best_length <? length then Some (i, length) else best
           end)
  end.

(** The slot, and the path within its file system when it is asked for.
    [src/fs/vfs_mount.c:92-119] vfs_mount_find *)
Definition vfs_mount_find (ms : list vfs_mount) (path : list Z) (relative : bool) (capacity : Z)
    : option (Z * option (list Z)) :=
  match find_best ms path VFS_MOUNT_MAX 0 None with
  | None => None
  | Some (best, best_length) =>
      if relative then
        let rest := if best_length =? 1 then path else drop (Z.to_nat best_length) path in
        if aget 0 rest 0 =? 0
        then if capacity <? 2 then None else Some (best, Some [SLASH])
        else Some (best, Some rest)
      else Some (best, None)
  end.

(** [src/fs/vfs_mount.c:128-134] vfs_mount_count *)
Definition vfs_mount_count (ms : list vfs_mount) : Z :=
  count_if (λ i, m_used (slot_at ms i)) VFS_MOUNT_MAX 0.

(** [src/fs/vfs_mount.c:137-143] vfs_mount_get *)
Fixpoint get_loop (ms : list vfs_mount) (n : nat) (i index : Z) : option Z :=
  match n with
  | O => None
  | S n' =>
      if negb (m_used (slot_at ms i)) then get_loop ms n' (i + 1) index
      else if index =? 0 then Some i else get_loop ms n' (i + 1) (index - 1)
  end.
(** [src/fs/vfs_mount.c:136-145] vfs_mount_get *)
Definition vfs_mount_get (ms : list vfs_mount) (index : Z) : option Z := get_loop ms VFS_MOUNT_MAX 0 index.

(** [src/fs/vfs_mount.c:151-158] vfs_mount_children *)
Fixpoint children_loop (ms : list vfs_mount) (directory : list Z) (capacity : Z) (n : nat) (i : Z)
    (names : list (list Z)) : list (list Z) :=
  match n with
  | O => names
  | S n' =>
      if negb (Z.of_nat (length names) <? capacity) then names
      else if negb (m_used (slot_at ms i)) || equal (m_path (slot_at ms i)) [SLASH]
      then children_loop ms directory capacity n' (i + 1) names
      else
        let '(status, parent) := vfs_path_parent (m_path (slot_at ms i)) VFS_PATH_MAX in
        if status <? 0 then children_loop ms directory capacity n' (i + 1) names
        else children_loop ms directory capacity n' (i + 1)
               (if equal parent directory
                then names ++ [vfs_path_basename (m_path (slot_at ms i))] else names)
  end.
(** The names found, in the order of the table.
    [src/fs/vfs_mount.c:147-160] vfs_mount_children *)
Definition vfs_mount_children (ms : list vfs_mount) (directory : list Z) (capacity : Z)
    : list (list Z) := children_loop ms directory capacity VFS_MOUNT_MAX 0 [].

(** [src/fs/vfs_mount.c:162-165] vfs_mount_reset *)
Definition vfs_mount_reset (ms : list vfs_mount) : list vfs_mount :=
  map (λ m, m <| m_used := false |>) ms.

(** ** The table as a map from lists of names *)

Inductive mount_op :=
| MAdd (path : option (list Z)) (ops : option vfs_fs_ops) (context : Z) (source : option (list Z)) (flags : Z)
| MReplace (path : option (list Z)) (ops : option vfs_fs_ops) (context : Z) (source : option (list Z)) (flags : Z)
| MRemove (path : option (list Z))
| MReset.

Definition mount_exec (o : mount_op) (ms : list vfs_mount) : list vfs_mount :=
  match o with
  | MAdd p ops c s f => (vfs_mount_add p ops c s f ms).2
  | MReplace p ops c s f => (vfs_mount_replace p ops c s f ms).2
  | MRemove p => (vfs_mount_remove p ms).2
  | MReset => vfs_mount_reset ms
  end.

Definition mount_op_ok (o : mount_op) : Prop :=
  match o with
  | MAdd p _ _ _ _ | MReplace p _ _ _ _ | MRemove p => ∀ s, p = Some s → cstr s
  | MReset => True
  end.

Inductive mount_reachable : list vfs_mount → Prop :=
| mount_boot : mount_reachable mounts_init
| mount_step ms o : mount_reachable ms → mount_op_ok o → mount_reachable (mount_exec o ms).

Definition mounted (ms : list vfs_mount) (i : Z) : Prop :=
  0 ≤ i < Z.of_nat VFS_MOUNT_MAX ∧ m_used (slot_at ms i) = true.

(** Every used slot has a normal path that fits, and no two the same. *)
Record mounts_ok (ms : list vfs_mount) : Prop := {
  mo_length : length ms = VFS_MOUNT_MAX;
  mo_path : ∀ i, mounted ms i → ∃ cs, Forall plain_name cs ∧ m_path (slot_at ms i) = render cs ∧
    length_of (render cs) + 1 ≤ VFS_PATH_MAX;
  mo_unique : ∀ i j, mounted ms i → mounted ms j →
    m_path (slot_at ms i) = m_path (slot_at ms j) → i = j;
}.

(** ** Slots *)

Lemma slot_aset ms i j m : length ms = VFS_MOUNT_MAX → 0 ≤ i < Z.of_nat VFS_MOUNT_MAX →
  0 ≤ j → slot_at (aset ms i m) j = if decide (j = i) then m else slot_at ms j.
Proof.
  intros L Hi Hj. unfold slot_at. destruct (decide (j = i)) as [->|Ne].
  - apply aget_aset_eq. rewrite L. done.
  - apply aget_aset_ne; lia.
Qed.

Lemma normalized_spec path s : (∀ t, path = Some t → cstr t) → normalized path = Some s →
  ∃ cs, Forall plain_name cs ∧ s = render cs ∧ length_of (render cs) + 1 ≤ VFS_PATH_MAX.
Proof.
  intros Hp. unfold normalized. destruct path as [t|]; [|done]. specialize (Hp t eq_refl).
  pose proof (normalize_spec t VFS_PATH_MAX Hp) as S.
  destruct (decide _) as [[A _]|]; [|rewrite S; done].
  destruct (walk VFS_PATH_MAX [] (names t)) as [ds|] eqn:Ew; [|destruct S as [out ->]; done].
  rewrite S. intros E. destruct (walk_clean VFS_PATH_MAX (names t) [] ds) as [Hd Hl];
    [by apply names_ok|by apply Forall_nil|exact A|exact Ew|].
  destruct (_ <? _); [done|]. injection E as <-. eauto.
Qed.

Lemma copy_path cs : length_of (render cs) + 1 ≤ VFS_PATH_MAX → copy_text (render cs) VFS_PATH_MAX = render cs.
Proof. intros L. unfold copy_text. apply take_ge. unfold length_of in L. lia. Qed.

Lemma add_scan_spec ms path n : ∀ i slot,
  match add_scan ms path n i slot with
  | None => ∃ j, i ≤ j < i + Z.of_nat n ∧ m_used (slot_at ms j) = true ∧ equal (m_path (slot_at ms j)) path = true
  | Some r =>
      (∀ j, i ≤ j < i + Z.of_nat n → m_used (slot_at ms j) = true → equal (m_path (slot_at ms j)) path = false) ∧
      match r with
      | Some k => slot = Some k ∨ (slot = None ∧ i ≤ k < i + Z.of_nat n ∧ m_used (slot_at ms k) = false)
      | None => slot = None ∧ ∀ j, i ≤ j < i + Z.of_nat n → m_used (slot_at ms j) = true
      end
  end.
Proof.
  induction n as [|n IH]; intros i slot; cbn [add_scan].
  - split; [intros; lia|]. destruct slot; [by left|]. split; [done|]. intros; lia.
  - destruct (m_used (slot_at ms i)) eqn:U; cbn [negb].
    + destruct (equal (m_path (slot_at ms i)) path) eqn:E; [exists i; split_and!; (done || lia)|].
      specialize (IH (i + 1) slot). destruct (add_scan _ _ _ _ _) as [r|].
      * destruct IH as [H Hr]. split.
        { intros j Hj. destruct (decide (j = i)) as [->|]; [done|]. apply H. lia. }
        destruct r as [k|].
        -- destruct Hr as [?|(?&?&?)]; [by left|right]. split_and!; (done || lia).
        -- destruct Hr as [? Hr]. split; [done|]. intros j Hj. destruct (decide (j = i)) as [->|]; [done|]. apply Hr. lia.
      * destruct IH as (j&?&?&?). exists j. split_and!; (done || lia).
    + specialize (IH (i + 1) (match slot with None => Some i | Some _ => slot end)).
      destruct (add_scan _ _ _ _ _) as [r|].
      * destruct IH as [H Hr]. split.
        { intros j Hj. destruct (decide (j = i)) as [->|]; [congruence|]. apply H. lia. }
        destruct r as [k|].
        -- destruct slot as [s|]; [destruct Hr as [?|(?&?&?)]; [by left|done]|].
           right. destruct Hr as [[= <-]|(?&?&?)]; [|done]. split_and!; (done || lia).
        -- destruct Hr as [Hs _]. by destruct slot.
      * destruct IH as (j&?&?&?). exists j. split_and!; (done || lia).
Qed.

(** A new used slot with a path no other slot has. *)
Lemma mounts_ok_put ms i m cs : mounts_ok ms → 0 ≤ i < Z.of_nat VFS_MOUNT_MAX → m_used m = true →
  Forall plain_name cs → m_path m = render cs → length_of (render cs) + 1 ≤ VFS_PATH_MAX →
  (∀ j, mounted ms j → j ≠ i → m_path (slot_at ms j) ≠ render cs) →
  mounts_ok (aset ms i m).
Proof.
  intros W Hi Hu Hc Hp Hl Hn. split.
  - rewrite length_aset. apply W.
  - intros j [Hj Uj]. rewrite slot_aset in * by (try apply W; lia). destruct (decide (j = i)) as [->|Ne].
    + eauto.
    + by apply W.
  - intros j k [Hj Uj] [Hk Uk]. rewrite slot_aset in * by (try apply W; lia).
    rewrite slot_aset in * by (try apply W; lia).
    destruct (decide (j = i)) as [->|Nj], (decide (k = i)) as [->|Nk]; try done.
    + intros E. exfalso. apply (Hn k); [done|done|congruence].
    + intros E. exfalso. apply (Hn j); [done|done|congruence].
    + by apply W.
Qed.

(** Slots may be freed. *)
Lemma mounts_ok_sub ms ms' : mounts_ok ms → length ms' = VFS_MOUNT_MAX →
  (∀ j, mounted ms' j → mounted ms j ∧ m_path (slot_at ms' j) = m_path (slot_at ms j)) → mounts_ok ms'.
Proof.
  intros W L H. split; [done| |].
  - intros i Hi. destruct (H i Hi) as [Hm ->]. by apply W.
  - intros i j Hi Hj. destruct (H i Hi) as [Hm ->], (H j Hj) as [Hm' ->]. by apply W.
Qed.

Lemma mounted_cstr ms i : mounts_ok ms → mounted ms i → cstr (m_path (slot_at ms i)).
Proof. intros W Hi. destruct (mo_path ms W i Hi) as (cs&Hc&->&_). by apply render_cstr, plain_names. Qed.

Lemma equal_path ms i cs : mounts_ok ms → mounted ms i → Forall plain_name cs →
  equal (m_path (slot_at ms i)) (render cs) = true ↔ m_path (slot_at ms i) = render cs.
Proof. intros W Hi Hc. apply text_equal_eq; [by apply mounted_cstr|by apply render_cstr, plain_names]. Qed.

Lemma mount_at_spec ms cs : mounts_ok ms → Forall plain_name cs →
  match vfs_mount_at ms (render cs) with
  | Some i => mounted ms i ∧ m_path (slot_at ms i) = render cs
  | None => ∀ i, mounted ms i → m_path (slot_at ms i) ≠ render cs
  end.
Proof.
  intros W Hc. unfold vfs_mount_at. destruct (for_first _ _ _) as [i|] eqn:E.
  - apply for_first_Some in E as (Hi&[U Q]%andb_prop&_).
    assert (mounted ms i) by (split; [lia|done]). split; [done|]. by apply equal_path.
  - rewrite for_first_None in E. intros i [Hi U] Q. specialize (E i ltac:(lia)). rewrite U in E.
    cbn [andb] in E. rewrite (proj2 (equal_path ms i cs W (conj Hi U) Hc)) in E; done.
Qed.

Lemma vfs_mount_add_ok path ops c s f ms : mounts_ok ms → (∀ t, path = Some t → cstr t) →
  mounts_ok (vfs_mount_add path ops c s f ms).2.
Proof.
  intros W Hp. unfold vfs_mount_add. destruct ops as [o|]; [|done].
  destruct (normalized path) as [p|] eqn:En; [|done].
  destruct (normalized_spec path p Hp En) as (cs&Hc&->&Hl).
  pose proof (add_scan_spec ms (render cs) VFS_MOUNT_MAX 0 None) as S.
  destruct (add_scan _ _ _ _ _) as [[i|]|]; [|done|done]. destruct S as [Hn [?|(_&Hi&Hu)]]; [done|].
  apply (mounts_ok_put _ _ _ cs); try done; [by apply copy_path|].
  intros j [Hj Uj] Ne Eq. specialize (Hn j ltac:(lia) Uj).
  rewrite (proj2 (equal_path ms j cs W (conj Hj Uj) Hc) Eq) in Hn. done.
Qed.

Lemma vfs_mount_replace_ok path ops c s f ms : mounts_ok ms → (∀ t, path = Some t → cstr t) →
  mounts_ok (vfs_mount_replace path ops c s f ms).2.
Proof.
  intros W Hp. unfold vfs_mount_replace. destruct ops as [o|]; [|done].
  destruct (normalized path) as [p|] eqn:En; [|done].
  destruct (normalized_spec path p Hp En) as (cs&Hc&->&Hl).
  pose proof (mount_at_spec ms cs W Hc) as S. destruct (vfs_mount_at ms (render cs)) as [i|].
  - destruct S as [[Hi Hu] Ep]. apply (mounts_ok_put _ _ _ cs); try done. intros j Hj Ne Eq.
    apply Ne. apply (mo_unique ms W); [done|by split|congruence].
  - apply vfs_mount_add_ok; [done|]. intros t [= <-]. by apply render_cstr, plain_names.
Qed.

Lemma vfs_mount_remove_ok path ms : mounts_ok ms → mounts_ok (vfs_mount_remove path ms).2.
Proof.
  intros W. unfold vfs_mount_remove. destruct (normalized path) as [p|]; [|done].
  destruct (vfs_mount_at ms p) as [i|] eqn:E; [|done]. destruct (mount_below ms p i); [done|].
  apply for_first_Some in E as (Hi&_). cbn [snd]. apply (mounts_ok_sub ms); [done|by rewrite length_aset; apply W|].
  intros j [Hj Uj]. cbn [snd] in *. rewrite slot_aset in * by (try apply W; lia).
  destruct (decide (j = i)); [done|]. split; [by split|done].
Qed.

Lemma vfs_mount_reset_ok ms : mounts_ok ms → mounts_ok (vfs_mount_reset ms).
Proof.
  intros W. apply (mounts_ok_sub ms); [done|unfold vfs_mount_reset; rewrite length_map; apply W|].
  intros j [Hj Uj]. exfalso. unfold vfs_mount_reset, slot_at, aget in Uj.
  rewrite (nth_indep _ _ (mount_zero <| m_used := false |>)) in Uj by (rewrite length_map, (mo_length _ W); lia).
  by rewrite (map_nth (λ m, m <| m_used := false |>)) in Uj.
Qed.

Lemma mount_reachable_ok ms : mount_reachable ms → mounts_ok ms.
Proof.
  induction 1 as [|ms o R IH Ho].
  - split; [done|intros i [Hi U]|intros i j [Hi U]]; exfalso; unfold slot_at, aget, mounts_init in U;
      (destruct (nth_in_or_default (Z.to_nat i) (replicate VFS_MOUNT_MAX mount_zero) mount_zero) as [E|E];
       [apply list_elem_of_In, elem_of_replicate in E as [E _]|]; by rewrite E in U).
  - destruct o; cbn [mount_exec mount_op_ok] in *;
      [by apply vfs_mount_add_ok|by apply vfs_mount_replace_ok|by apply vfs_mount_remove_ok|by apply vfs_mount_reset_ok].
Qed.

(** ** The search for the deepest mount *)

Definition candidate (ms : list vfs_mount) (path : list Z) (j : Z) : bool :=
  m_used (slot_at ms j) && vfs_path_has_prefix path (m_path (slot_at ms j)).

(** [best] is a longest candidate below [i]. *)
Definition best_of (ms : list vfs_mount) (path : list Z) (i : Z) (best : option (Z * Z)) : Prop :=
  match best with
  | None => ∀ j, 0 ≤ j < i → candidate ms path j = false
  | Some (k, l) => 0 ≤ k < i ∧ candidate ms path k = true ∧ l = length_of (m_path (slot_at ms k)) ∧
      ∀ j, 0 ≤ j < i → candidate ms path j = true → length_of (m_path (slot_at ms j)) ≤ l
  end.

Lemma best_of_skip ms path i best : best_of ms path i best → candidate ms path i = false →
  best_of ms path (i + 1) best.
Proof.
  intros H E. destruct best as [[k l]|]; cbn in *.
  - destruct H as (Hk&Ek&El&Hm). split_and!; try done; try lia. intros j Hj Ej.
    destruct (decide (j = i)) as [->|]; [congruence|]. apply Hm; [lia|done].
  - intros j Hj. destruct (decide (j = i)) as [->|]; [done|]. apply H. lia.
Qed.

Lemma best_of_take ms path i best : 0 ≤ i → best_of ms path i best → candidate ms path i = true →
  best_of ms path (i + 1)
    (match best with
     | None => Some (i, length_of (m_path (slot_at ms i)))
     | Some (_, best_length) =>
         if best_length <? length_of (m_path (slot_at ms i))
         then Some (i, length_of (m_path (slot_at ms i))) else best
     end).
Proof.
  intros Hi H E. destruct best as [[k l]|].
  - destruct H as (Hk&Ek&El&Hm). destruct (Z.ltb_spec l (length_of (m_path (slot_at ms i)))).
    + split_and!; try done; try lia. intros j Hj Ej. destruct (decide (j = i)) as [->|]; [lia|].
      specialize (Hm j ltac:(lia) Ej). lia.
    + split_and!; try done; try lia. intros j Hj Ej. destruct (decide (j = i)) as [->|]; [lia|].
      apply Hm; [lia|done].
  - split_and!; try done; try lia. intros j Hj Ej. destruct (decide (j = i)) as [->|]; [lia|].
    rewrite H in Ej by lia. done.
Qed.

Lemma find_best_spec ms path n : ∀ i best, 0 ≤ i → best_of ms path i best →
  best_of ms path (i + Z.of_nat n) (find_best ms path n i best).
Proof.
  induction n as [|n IH]; intros i best Hi H; cbn [find_best].
  - by replace (i + Z.of_nat 0) with i by lia.
  - replace (i + Z.of_nat (S n)) with (i + 1 + Z.of_nat n) by lia. rewrite <- negb_andb.
    fold (candidate ms path i). destruct (candidate ms path i) eqn:E; cbn [negb]; apply IH; try lia.
    + by apply best_of_take.
    + by apply best_of_skip.
Qed.

Lemma render_prefix_length ps qs : Forall name_ok qs → ps `prefix_of` qs →
  length_of (render ps) ≤ length_of (render qs) ∧
  (length_of (render ps) = length_of (render qs) → ps = qs).
Proof.
  intros Hq [k ->]. destruct k as [|c k]; [rewrite app_nil_r; split; [lia|done]|].
  destruct (decide (ps = [])) as [->|Np].
  - pose proof (render_long _ Hq) as L. cbn [app] in *. rewrite bool_decide_eq_true_2 in L by done.
    apply Z.ltb_lt in L. change (length_of (render [])) with 1. split; lia.
  - rewrite !render_joined by (by destruct ps). rewrite joined_app, joined_cons. unfold length_of.
    rewrite length_app. cbn [length]. split; lia.
Qed.

(** The names of the mount in a slot. *)
Definition mounted_at (ms : list vfs_mount) (i : Z) (ps : list (list Z)) : Prop :=
  mounted ms i ∧ Forall plain_name ps ∧ m_path (slot_at ms i) = render ps.

Lemma candidate_spec ms i ps cs : mounted_at ms i ps → Forall plain_name cs →
  candidate ms (render cs) i = bool_decide (ps `prefix_of` cs).
Proof.
  intros ([Hi U]&Hp&E) Hc. unfold candidate. rewrite U, E. cbn [andb].
  apply has_prefix_render; by apply plain_names.
Qed.

(** The rest of a path after a mount point. *)
Lemma rest_of_path ps ds : Forall name_ok (ps ++ ds) →
  (if length_of (render ps) =? 1 then render (ps ++ ds)
   else drop (Z.to_nat (length_of (render ps))) (render (ps ++ ds))) =
  if decide (ps = []) then render ds else joined ds.
Proof.
  intros H. apply Forall_app in H as [Hp Hd]. destruct (decide (ps = [])) as [->|Np]; [done|].
  pose proof (render_long ps Hp) as L. rewrite bool_decide_eq_true_2 in L by done. apply Z.ltb_lt in L.
  destruct (Z.eqb_spec (length_of (render ps)) 1); [lia|]. rewrite !render_joined by (by destruct ps).
  unfold length_of. rewrite Nat2Z.id, joined_app. apply drop_app_length.
Qed.

(** ** Properties *)

(** C22: in every table the mount calls can lead to (with any paths, flags and
    order), a normal path is resolved to the deepest mount above it: the mount
    whose names are a beginning of the path's names and such that every other
    one is shorter.  The path given to the file system is the rest of the names
    (the root when there are none), so that nothing of the path is lost or seen by
    the wrong file system.  Only when no mount is above it is there no answer. *)
Theorem mount_find_deepest ms cs capacity : mount_reachable ms → Forall plain_name cs → 2 ≤ capacity →
  match vfs_mount_find ms (render cs) true capacity with
  | Some (i, rest) => ∃ ps ds, mounted_at ms i ps ∧ cs = ps ++ ds ∧ rest = Some (render ds) ∧
      ∀ j qs, mounted_at ms j qs → qs `prefix_of` cs → j = i ∨ (length qs < length ps)%nat
  | None => ∀ j qs, mounted_at ms j qs → ¬ qs `prefix_of` cs
  end.
Proof.
  intros R%mount_reachable_ok Hc H2. unfold vfs_mount_find.
  assert (best_of ms (render cs) 0 None) as B0 by (intros ?; lia).
  pose proof (find_best_spec ms (render cs) VFS_MOUNT_MAX 0 None ltac:(lia) B0) as B. rewrite Z.add_0_l in B.
  destruct (find_best _ _ _ _ _) as [[i l]|].
  2:{ intros j qs Hj Hq. pose proof (candidate_spec ms j qs cs Hj Hc) as E.
      rewrite bool_decide_eq_true_2 in E by done. rewrite B in E; [done|]. apply Hj. }
  destruct B as (Hi&Hk&El&Hmax). assert (mounted ms i) as Mi.
  { split; [done|]. unfold candidate in Hk. by apply andb_prop in Hk as []. }
  destruct (mo_path ms R i Mi) as (ps&Hp&Ep&Hl). assert (mounted_at ms i ps) as Mp by done.
  rewrite (candidate_spec ms i ps cs Mp Hc) in Hk. apply bool_decide_eq_true in Hk as [ds Ed].
  assert (∀ j qs, mounted_at ms j qs → qs `prefix_of` cs → j = i ∨ (length qs < length ps)%nat) as Best.
  { intros j qs Mj Hq. pose proof (candidate_spec ms j qs cs Mj Hc) as E.
    rewrite bool_decide_eq_true_2 in E by done. destruct Mj as (Mj&Hqs&Ej). specialize (Hmax j (proj1 Mj) E).
    rewrite El, Ej, Ep in Hmax. assert (ps `prefix_of` cs) as Hps by (by exists ds).
    destruct (prefix_weak_total qs ps cs Hq Hps) as [Q|Q].
    - destruct (decide (length qs < length ps)%nat) as [|Nlt]; [by right|left].
      apply (mo_unique ms R); [done|done|]. rewrite Ej, Ep. f_equal.
      apply prefix_length_eq; [done|lia].
    - destruct (render_prefix_length ps qs (plain_names qs Hqs) Q) as [Le Eq]. left.
      apply (mo_unique ms R); [done|done|]. rewrite Ej, Ep. f_equal. symmetry. apply Eq. lia. }
  rewrite El, Ep. pose proof (plain_names cs Hc) as Hcn. rewrite Ed in Hcn |- *. cbv zeta.
  rewrite (rest_of_path ps ds Hcn). apply Forall_app in Hcn as [_ Hdn]. rewrite <- Ed.
  destruct (decide (ps = [])) as [Eps|Np].
  - rewrite render_head. cbn [Z.eqb]. exists ps, ds. done.
  - destruct ds as [|d ds].
    + destruct (Z.ltb_spec capacity 2); [lia|]. cbn. exists ps, []. done.
    + rewrite joined_cons, aget_0. cbn [Z.eqb]. exists ps, (d :: ds). done.
Qed.

(** "/" and "/usr" are mounted: "/usr/a" is "/a" of the second, "/b" itself of the first. *)
Definition demo_fs : option vfs_fs_ops := Some (FsOps 4096 [102; 115]).
Definition demo_mount_ops : list mount_op :=
  [MAdd (Some [47]) demo_fs 1 None 0; MAdd (Some [47; 117; 115; 114; 47]) demo_fs 2 None 0].
Definition demo_mounts : list vfs_mount := foldl (λ ms o, mount_exec o ms) mounts_init demo_mount_ops.

Lemma demo_mounts_reachable : mount_reachable demo_mounts.
Proof.
  assert (∀ os ms, mount_reachable ms → Forall mount_op_ok os →
    mount_reachable (foldl (λ ms o, mount_exec o ms) ms os)) as H.
  { intros os. induction os as [|o os IH]; intros ms R Hos; [done|]. inversion Hos; subst. cbn [foldl].
    apply IH; [by constructor|done]. }
  apply H; [constructor|]. assert (∀ s, Forall (λ c, bool_decide (c ≠ 0) = true) s → cstr s) as C.
  { intros s Hs. eapply Forall_impl; [exact Hs|]. intros c E. by apply bool_decide_eq_true in E. }
  repeat (apply Forall_cons; split); try apply Forall_nil_2; intros s [= <-]; apply C; by repeat constructor.
Qed.

Lemma mount_find_deepest_witness : ∃ i rest,
  vfs_mount_find demo_mounts [47; 117; 115; 114; 47; 97] true 512 = Some (i, rest) ∧ i = 1 ∧ rest = Some [47; 97].
Proof.
  pose proof (mount_find_deepest demo_mounts [[117; 115; 114]; [97]] 512 demo_mounts_reachable) as H.
  change (render [[117; 115; 114]; [97]]) with [47; 117; 115; 114; 47; 97] in H.
  assert (vfs_mount_find demo_mounts [47; 117; 115; 114; 47; 97] true 512 = Some (1, Some [47; 97])) as E
    by (vm_compute; reflexivity).
  rewrite E in H. destruct H as (ps&ds&_&_&Er&_).
  { repeat first [apply Forall_nil_2|apply Forall_cons_2]; repeat split; repeat constructor; discriminate. }
  { lia. }
  exists 1, (Some (render ds)). split; [rewrite <- Er; exact E|]. split; [reflexivity|]. rewrite <- Er. reflexivity.
Defined.
