(* ===== verification/Perm.v ===== *)
(** * Permissions and accounts (src/src/fs/vfs_perm.c)

    The table of the modes and owners of paths, the access check, and the lines
    of the account file. *)

From S2P Require Import Prelude Errno Cstr.

(** [src/fs/vfs_perm.c:4-4] PERM_TABLE_MAX *)
Definition PERM_TABLE_MAX : nat := 512.
(** [src/fs/vfs_perm.c:5-5] PERM_PATH_MAX *)
Definition PERM_PATH_MAX : Z := 256.
(** [src/fs/vfs_perm.h:6-6] VFS_PERM_X *)
Definition VFS_PERM_X : Z := 1.
(** [src/fs/vfs_perm.h:7-7] VFS_PERM_W *)
Definition VFS_PERM_W : Z := 2.
(** [src/fs/vfs_perm.h:8-8] VFS_PERM_R *)
Definition VFS_PERM_R : Z := 4.
(** 0644. [src/fs/vfs_perm.h:10-10] VFS_MODE_DEFAULT_FILE *)
Definition VFS_MODE_DEFAULT_FILE : Z := 420.
(** 0755. [src/fs/vfs_perm.h:11-11] VFS_MODE_DEFAULT_DIR *)
Definition VFS_MODE_DEFAULT_DIR : Z := 493.
(** 07777. [src/fs/vfs_perm.h:12-12] VFS_MODE_MASK *)
Definition VFS_MODE_MASK : Z := 4095.
(** [src/fs/vfs_perm.h:14-14] USER_NAME_MAX *)
Definition USER_NAME_MAX : Z := 32.
(** [src/fs/vfs_perm.h:15-15] USER_GECOS_MAX *)
Definition USER_GECOS_MAX : Z := 64.
(** [src/fs/vfs_perm.h:16-16] USER_HOME_MAX *)
Definition USER_HOME_MAX : Z := 64.
(** [src/fs/vfs_perm.h:17-17] USER_SHELL_MAX *)
Definition USER_SHELL_MAX : Z := 64.
(** [src/fs/vfs_perm.h:18-18] USER_ID_NONE *)
Definition USER_ID_NONE : Z := 4294967295.

(** [src/fs/vfs_perm.h:20-24] vfs_perm_meta *)
Record vfs_perm_meta := PermMeta { pm_mode : Z; pm_uid : Z; pm_gid : Z }.
#[export] Instance eta_meta : Eta vfs_perm_meta := λ m, PermMeta (pm_mode m) (pm_uid m) (pm_gid m).

(** [src/fs/vfs_perm.h:26-33] user_entry *)
Record user_entry := UserEntry {
  ue_name : list Z; ue_uid : Z; ue_gid : Z; ue_gecos : list Z; ue_home : list Z; ue_shell : list Z;
}.

(** [src/fs/vfs_perm.c:7-11] perm_slot *)
Record perm_slot := PermSlot { ps_used : bool; ps_path : list Z; ps_meta : vfs_perm_meta }.
#[export] Instance eta_slot : Eta perm_slot := λ s, PermSlot (ps_used s) (ps_path s) (ps_meta s).
Definition slot_zero : perm_slot := PermSlot false [] (PermMeta 0 0 0).

Abbreviation perm_table := (list perm_slot) (only parsing).
(** [src/fs/vfs_perm.c:13-13] table *)
Definition perm_init : perm_table := replicate PERM_TABLE_MAX slot_zero.
Definition perm_slot_at (t : perm_table) (i : Z) : perm_slot := aget slot_zero t i.

(** Unlike [vfs_path_has_prefix], with no special case for the root.
    [src/fs/vfs_perm.c:30-36] path_has_prefix *)
Definition path_has_prefix (path prefix : list Z) : bool :=
  let length_ := text_length prefix in
  match for_first (λ i, negb (aget 0 path i =? aget 0 prefix i)) (length prefix) 0 with
  | Some _ => false
  | None => (aget 0 path length_ =? 0) || (aget 0 path length_ =? 47)
  end.

(** The text copied, when it fits.
    [src/fs/vfs_perm.c:38-46] copy_text *)
Definition copy_text (capacity : Z) (source : list Z) : option (list Z) :=
  if capacity <=? text_length source then None else Some source.

(** [src/fs/vfs_perm.c:48-53] find_slot *)
Definition find_slot (t : perm_table) (path : list Z) : option Z :=
  for_first (λ i, ps_used (perm_slot_at t i) && text_equal (ps_path (perm_slot_at t i)) path)
    PERM_TABLE_MAX 0.

(** [src/fs/vfs_perm.c:55-67] vfs_perm_allowed *)
Definition vfs_perm_allowed (uid gid : Z) (meta : vfs_perm_meta) (want : Z) : bool :=
  if uid =? 0 then true else
  let bits := if uid =? pm_uid meta then Z.land (pm_mode meta ≫ 6) 7
              else if gid =? pm_gid meta then Z.land (pm_mode meta ≫ 3) 7
              else Z.land (pm_mode meta) 7 in
  Z.land bits want =? Z.land want 7.

(** [src/fs/vfs_perm.c:69-73] vfs_perm_default *)
Definition vfs_perm_default (directory : bool) : vfs_perm_meta :=
  PermMeta (if directory then VFS_MODE_DEFAULT_DIR else VFS_MODE_DEFAULT_FILE) 0 0.

Definition masked (meta : vfs_perm_meta) : vfs_perm_meta :=
  meta <| pm_mode := Z.land (pm_mode meta) VFS_MODE_MASK |>.

(** [src/fs/vfs_perm.c:75-93] vfs_perm_set *)
Definition vfs_perm_set (path : option (list Z)) (meta : option vfs_perm_meta) (t : perm_table)
    : Z * perm_table :=
  match path, meta with
  | Some p, Some m =>
      if PERM_PATH_MAX <=? text_length p then (FS_ERROR_INVALID, t) else
      match find_slot t p with
      | Some i => (0, aset t i ((perm_slot_at t i) <| ps_meta := masked m |>))
      | None =>
          match for_first (λ i, negb (ps_used (perm_slot_at t i))) PERM_TABLE_MAX 0 with
          | None => (FS_ERROR_NO_SPACE, t)
          | Some i => (0, aset t i (PermSlot true p (masked m)))
          end
      end
  | _, _ => (FS_ERROR_INVALID, t)
  end.

(** [src/fs/vfs_perm.c:95-101] vfs_perm_get *)
Definition vfs_perm_get (t : perm_table) (path : list Z) : option vfs_perm_meta :=
  match find_slot t path with Some i => Some (ps_meta (perm_slot_at t i)) | None => None end.

(** [src/fs/vfs_perm.c:103-109] vfs_perm_chmod *)
Definition vfs_perm_chmod (path : list Z) (mode : Z) (t : perm_table) : Z * perm_table :=
  let meta := default (vfs_perm_default false) (vfs_perm_get t path) in
  vfs_perm_set (Some path) (Some (meta <| pm_mode := Z.land mode VFS_MODE_MASK |>)) t.

(** [src/fs/vfs_perm.c:111-120] vfs_perm_chown *)
Definition vfs_perm_chown (path : list Z) (uid gid : Z) (t : perm_table) : Z * perm_table :=
  let meta := default (vfs_perm_default false) (vfs_perm_get t path) in
  let meta := if negb (uid =? USER_ID_NONE) then meta <| pm_uid := uid |> else meta in
  let meta := if negb (gid =? USER_ID_NONE) then meta <| pm_gid := gid |> else meta in
  vfs_perm_set (Some path) (Some meta) t.

(** [src/fs/vfs_perm.c:122-126] vfs_perm_forget *)
Definition vfs_perm_forget (path : list Z) (t : perm_table) : perm_table :=
  map (λ s, if ps_used s && path_has_prefix (ps_path s) path then s <| ps_used := false |> else s) t.

(** One slot of the loop.
    [src/fs/vfs_perm.c:131-143] vfs_perm_rename *)
Definition rename_slot (from to : list Z) (s : perm_slot) : perm_slot :=
  if negb (ps_used s) || negb (path_has_prefix (ps_path s) from) then s else
  match copy_text PERM_PATH_MAX to with
  | None => s
  | Some moved =>
      let tail := drop (length from) (ps_path s) in
      if PERM_PATH_MAX <=? text_length moved + text_length tail then s <| ps_used := false |>
      else s <| ps_path := moved ++ tail |>
  end.
(** [src/fs/vfs_perm.c:128-145] vfs_perm_rename *)
Definition vfs_perm_rename (from to : list Z) (t : perm_table) : perm_table := map (rename_slot from to) t.

(** [src/fs/vfs_perm.c:147-150] vfs_perm_reset *)
Definition vfs_perm_reset (t : perm_table) : perm_table := map (λ s, s <| ps_used := false |>) t.

(** ** The account file *)

Definition field_end (c : Z) : bool := (c =? 58) || (c =? 10) || (c =? 13).

(** The field at the cursor, of fewer than [capacity] bytes, and the text after
    it; [length] bytes of it are out.
    [src/fs/vfs_perm.c:152-163] next_field *)
Fixpoint next_field (p : list Z) (capacity length : Z) : option (list Z * list Z) :=
  match p with
  | [] => Some ([], [])
  | c :: p' =>
      if field_end c then Some ([], p)
      else if capacity <=? length + 1 then None
      else match next_field p' capacity (length + 1) with
           | Some (out, rest) => Some (c :: out, rest)
           | None => None
           end
  end.

(** [src/fs/vfs_perm.c:165-170] skip_colon *)
Definition skip_colon (p : list Z) : option (list Z) :=
  match p with c :: p' => if c =? 58 then Some p' else None | [] => None end.

(** [src/fs/vfs_perm.c:176-182] parse_number *)
Fixpoint parse_digits (text : list Z) (result : Z) : option Z :=
  match text with
  | [] => Some result
  | c :: text' =>
      if (c <? 48) || (57 <? c) then None else
      let result := u64 (result * 10 + (c - 48)) in
      if USER_ID_NONE <=? result then None else parse_digits text' result
  end.
(** [src/fs/vfs_perm.c:172-185] parse_number *)
Definition parse_number (text : list Z) : option Z :=
  match text with [] => None | _ => parse_digits text 0 end.

(** A field after a colon. *)
Definition colon_field (p : list Z) (capacity : Z) : option (list Z * list Z) :=
  match skip_colon p with Some p => next_field p capacity 0 | None => None end.
Definition colon_number (p : list Z) : option (Z * list Z) :=
  match colon_field p 16 with
  | Some (number, p) => match parse_number number with Some n => Some (n, p) | None => None end
  | None => None
  end.

(** [src/fs/vfs_perm.c:187-210] user_parse_line *)
Definition user_parse_line (line : option (list Z)) : option user_entry :=
  match line with
  | None | Some [] => None
  | Some ((c :: _) as p) =>
      if c =? 35 then None else
      '(name, p) ← next_field p USER_NAME_MAX 0;
      if aget 0 name 0 =? 0 then None else
      '(_, p) ← colon_field p 8;
      '(uid, p) ← colon_number p;
      '(gid, p) ← colon_number p;
      '(gecos, p) ← colon_field p USER_GECOS_MAX;
      '(home, p) ← colon_field p USER_HOME_MAX;
      '(shell, _) ← colon_field p USER_SHELL_MAX;
      Some (UserEntry name uid gid gecos home shell)
  end.

(** The text after the next newline.
    [src/fs/vfs_perm.c:224-227] scan_users *)
Fixpoint next_line (p : list Z) : list Z :=
  match p with c :: p' => if c =? 10 then p' else next_line p' | [] => [] end.

(** A round consumes at least one byte.
    [src/fs/vfs_perm.c:212-230] scan_users *)
Fixpoint scan_users (fuel : nat) (p name : list Z) (uid : Z) (by_name : bool) : option (option user_entry) :=
  match fuel with
  | O => None
  | S fuel' =>
      match p with
      | [] => Some None
      | _ =>
          match user_parse_line (Some p) with
          | Some entry =>
              if (if by_name then text_equal (ue_name entry) name else ue_uid entry =? uid)
              then Some (Some entry) else scan_users fuel' (next_line p) name uid by_name
          | None => scan_users fuel' (next_line p) name uid by_name
          end
      end
  end.

(** [src/fs/vfs_perm.c:232-235] user_lookup_name *)
Definition user_lookup_name (text name : option (list Z)) : option (option user_entry) :=
  match text, name with
  | Some t, Some n => scan_users (S (length t)) t n 0 true
  | _, _ => Some None
  end.
(** [src/fs/vfs_perm.c:237-239] user_lookup_uid *)
Definition user_lookup_uid (text : option (list Z)) (uid : Z) : option (option user_entry) :=
  match text with Some t => scan_users (S (length t)) t [] uid false | None => Some None end.

(** The text written so far; [position] is its length.
    [src/fs/vfs_perm.c:241-250] put_text *)
Definition put_text (capacity : Z) (out text : list Z) : option (list Z) :=
  if capacity <=? text_length out + text_length text then None else Some (out ++ text).

(** The digits, the last one first.
    [src/fs/vfs_perm.c:256-259] put_number *)
Fixpoint digits (fuel : nat) (value : Z) : list Z :=
  match fuel with
  | O => []
  | S fuel' => (48 + value mod 10) :: (if value / 10 =? 0 then [] else digits fuel' (value / 10))
  end.
(** A 32-bit number has at most 10 digits.
    [src/fs/vfs_perm.c:252-265] put_number *)
Definition put_number (capacity : Z) (out : list Z) (value : Z) : option (list Z) :=
  put_text capacity out (rev (digits 12 value)).

(** [src/fs/vfs_perm.c:267-287] user_format_line *)
Definition user_format_line (entry : option user_entry) (capacity : Z) : Z * list Z :=
  match entry with
  | None => (FS_ERROR_INVALID, [])
  | Some e =>
      if capacity =? 0 then (FS_ERROR_INVALID, []) else
      match
        out ← put_text capacity [] (ue_name e);
        out ← put_text capacity out [58; 120; 58];
        out ← put_number capacity out (ue_uid e);
        out ← put_text capacity out [58];
        out ← put_number capacity out (ue_gid e);
        out ← put_text capacity out [58];
        out ← put_text capacity out (ue_gecos e);
        out ← put_text capacity out [58];
        out ← put_text capacity out (ue_home e);
        out ← put_text capacity out [58];
        out ← put_text capacity out (ue_shell e);
        put_text capacity out [10]
      with
      | Some out => (text_length out, out)
      | None => (FS_ERROR_NO_SPACE, [])
      end
  end.

(** ** The table as a map from paths to modes and owners *)

Record perm_ok (t : perm_table) : Prop := {
  po_length : length t = PERM_TABLE_MAX;
  po_path : ∀ s, s ∈ t → ps_used s = true → cstr (ps_path s) ∧ text_length (ps_path s) < PERM_PATH_MAX;
}.

(** What a slot says of a path, and what the table says: the first slot that says
    something. *)
Definition found (q : list Z) (s : perm_slot) : option vfs_perm_meta :=
  if ps_used s && bool_decide (ps_path s = q) then Some (ps_meta s) else None.
Definition recorded (t : perm_table) (q : list Z) : option vfs_perm_meta := head (omap (found q) t).

Lemma omap_none {A B} (f : A → option B) (l : list A) : (∀ x, x ∈ l → f x = None) → omap f l = [].
Proof. induction l as [|x l IH]; [done|]. intros H. cbn. rewrite H by by left. apply IH. intros y Hy. apply H. by right. Qed.
Lemma omap_same {A B} (f g : A → option B) (l : list A) : (∀ x, x ∈ l → f x = g x) → omap f l = omap g l.
Proof. induction l as [|x l IH]; [done|]. intros H. cbn. rewrite H by by left. rewrite IH; [done|]. intros y Hy. apply H. by right. Qed.
Lemma omap_map {A B C} (f : B → option C) (g : A → B) (l : list A) : omap f (map g l) = omap (λ x, f (g x)) l.
Proof. induction l as [|x l IH]; [done|]. cbn. by rewrite IH. Qed.

(** The search of an array from its beginning. *)
Lemma search_spec p (t : perm_table) : length t = PERM_TABLE_MAX →
  match for_first (λ i, p (perm_slot_at t i)) PERM_TABLE_MAX 0 with
  | Some i => ∃ l1 s l2, t = l1 ++ s :: l2 ∧ i = Z.of_nat (length l1) ∧ perm_slot_at t i = s ∧ p s = true ∧ ∀ r, r ∈ l1 → p r = false
  | None => ∀ s, s ∈ t → p s = false
  end.
Proof.
  intros L. unfold perm_slot_at. destruct (for_first _ _ _) as [i|] eqn:E.
  - apply for_first_Some in E as (Hi&P&Before). assert (t !! Z.to_nat i = Some (aget slot_zero t i)) as Ei by (apply aget_lookup_Some; lia).
    exists (take (Z.to_nat i) t), (aget slot_zero t i), (drop (S (Z.to_nat i)) t). split_and!; try done.
    + by rewrite take_drop_middle.
    + rewrite length_take. lia.
    + intros r (j&Hj)%list_elem_of_lookup. apply lookup_take_Some in Hj as [Hj Lj]. rewrite <- (Before (Z.of_nat j)) by lia.
      unfold aget. rewrite Nat2Z.id. by rewrite (nth_lookup_Some _ _ _ _ Hj).
  - rewrite for_first_None in E. intros s (j&Hj)%list_elem_of_lookup. pose proof (lookup_lt_Some _ _ _ Hj).
    rewrite <- (E (Z.of_nat j)) by lia. unfold aget. rewrite Nat2Z.id. by rewrite (nth_lookup_Some _ _ _ _ Hj).
Qed.

Lemma aset_middle (l1 l2 : perm_table) s r : aset (l1 ++ s :: l2) (Z.of_nat (length l1)) r = l1 ++ r :: l2.
Proof. unfold aset. by rewrite Nat2Z.id, insert_app_r_alt, Nat.sub_diag by lia. Qed.

Lemma found_equal t s path : perm_ok t → s ∈ t → cstr path →
  ps_used s && text_equal (ps_path s) path = match found path s with Some _ => true | None => false end.
Proof.
  intros W Hs Hp. unfold found. destruct (ps_used s) eqn:U; [|done]. cbn [andb].
  destruct (bool_decide_reflect (ps_path s = path)) as [E|N].
  - apply text_equal_eq; [by apply (po_path t W)|done|done].
  - destruct (text_equal _ _) eqn:E; [|done]. destruct N. apply text_equal_eq; [by apply (po_path t W)|done|done].
Qed.

(** The slot that is found is the first of its path. *)
Lemma find_slot_spec t path : perm_ok t → cstr path →
  match find_slot t path with
  | Some i => ∃ l1 s l2, t = l1 ++ s :: l2 ∧ i = Z.of_nat (length l1) ∧ perm_slot_at t i = s ∧ ps_used s = true ∧ ps_path s = path ∧
                ∀ r, r ∈ l1 → found path r = None
  | None => ∀ r, r ∈ t → found path r = None
  end.
Proof.
  intros W Hp. unfold find_slot. pose proof (search_spec (λ s, ps_used s && text_equal (ps_path s) path) t (po_length t W)) as S. cbv beta in S.
  assert (∀ r, r ∈ t → ps_used r && text_equal (ps_path r) path = false → found path r = None) as No.
  { intros r Hr E. rewrite (found_equal t) in E by done. by destruct (found path r). }
  destruct (for_first _ _ _) as [i|].
  - destruct S as (l1&s&l2&E&Ei&Es&[U Q]%andb_prop&B). exists l1, s, l2. split_and!; try done.
    + apply text_equal_eq in Q; [done| |done]. apply (po_path t W); [|done]. rewrite E. apply elem_of_app. right. by left.
    + intros r Hr. apply No; [|by apply B]. rewrite E. apply elem_of_app. by left.
  - intros r Hr. apply No; [done|by apply S].
Qed.

Lemma recorded_split q l1 s l2 : (∀ r, r ∈ l1 → found q r = None) → recorded (l1 ++ s :: l2) q =
  match found q s with Some m => Some m | None => recorded l2 q end.
Proof.
  intros B. unfold recorded. rewrite omap_app, (omap_none _ l1) by done. cbn. by destruct (found q s).
Qed.

Lemma get_recorded t q : perm_ok t → cstr q → vfs_perm_get t q = recorded t q.
Proof.
  intros W Hq. unfold vfs_perm_get. pose proof (find_slot_spec t q W Hq) as S. destruct (find_slot t q) as [i|].
  - destruct S as (l1&s&l2&E&_&->&U&Q&B). rewrite E, recorded_split by done. unfold found. by rewrite U, bool_decide_eq_true_2.
  - unfold recorded. by rewrite omap_none.
Qed.

Lemma perm_ok_middle l1 s r l2 : perm_ok (l1 ++ s :: l2) → cstr (ps_path r) → text_length (ps_path r) < PERM_PATH_MAX →
  perm_ok (l1 ++ r :: l2).
Proof.
  intros [L P] C T. split; [rewrite <- L, !length_app; done|]. intros x [Hx|[->|Hx]%elem_of_cons]%elem_of_app U; [|done|];
    (apply P; [apply elem_of_app|done]); [by left|right; by right].
Qed.

(** Replacing the slot of a path, or a free one, changes what is recorded for it. *)
Lemma recorded_middle l1 s l2 path m q : ps_used s = false ∨ ps_path s = path → (∀ r, r ∈ l1 → found path r = None) →
  recorded (l1 ++ PermSlot true path m :: l2) q = if decide (q = path) then Some m else recorded (l1 ++ s :: l2) q.
Proof.
  intros Hs B. destruct (decide (q = path)) as [->|Ne].
  - rewrite recorded_split by done. unfold found. cbn. by rewrite bool_decide_eq_true_2.
  - unfold recorded. rewrite !omap_app. cbn. assert (found q (PermSlot true path m) = None) as ->
      by (unfold found; cbn; by rewrite bool_decide_eq_false_2 by congruence).
    assert (found q s = None) as ->; [|done]. unfold found. destruct Hs as [->| ->]; [done|].
    by rewrite bool_decide_eq_false_2, andb_false_r by congruence.
Qed.

Lemma perm_set_spec path m t : perm_ok t → cstr path →
  let '(status, t') := vfs_perm_set (Some path) (Some m) t in
  perm_ok t' ∧
  if status =? 0
  then ∀ q, cstr q → vfs_perm_get t' q = if decide (q = path) then Some (masked m) else vfs_perm_get t q
  else t' = t ∧ (PERM_PATH_MAX ≤ text_length path ∨
                 (vfs_perm_get t path = None ∧ ∀ s, s ∈ t → ps_used s = true)).
Proof.
  intros W Hp. unfold vfs_perm_set. destruct (Z.leb_spec PERM_PATH_MAX (text_length path)) as [|Hl].
  { split; [done|]. cbn. split; [done|by left]. }
  pose proof (find_slot_spec t path W Hp) as S. destruct (find_slot t path) as [i|] eqn:Ef.
  - destruct S as (l1&s&l2&E&->&->&U&Q&B).
    assert (s <| ps_meta := masked m |> = PermSlot true path (masked m)) as -> by (destruct s; cbn in *; by subst).
    rewrite E, aset_middle in *. assert (perm_ok (l1 ++ PermSlot true path (masked m) :: l2)) as W' by by eapply perm_ok_middle.
    split; [done|]. intros q Hq. rewrite !get_recorded by done. apply recorded_middle; [by right|done].
  - pose proof (search_spec (λ s, negb (ps_used s)) t (po_length t W)) as F. cbv beta in F. destruct (for_first _ _ _) as [i|].
    + destruct F as (l1&s&l2&E&->&_&U%negb_true_iff&_). rewrite E, aset_middle in *.
      assert (perm_ok (l1 ++ PermSlot true path (masked m) :: l2)) as W' by by eapply perm_ok_middle.
      split; [done|]. intros q Hq. rewrite !get_recorded by done. apply recorded_middle; [by left|].
      intros r Hr. apply S. apply elem_of_app. by left.
    + split; [done|]. cbn. split; [done|]. right. split; [unfold vfs_perm_get; by rewrite Ef|].
      intros s Hs. apply negb_false_iff. by apply F.
Qed.

(** ** Forgetting and renaming *)

(** A path at or below another. *)
Lemma path_has_prefix_spec path prefix : cstr path → cstr prefix →
  path_has_prefix path prefix = true ↔ ∃ k, path = prefix ++ k ∧ (k = [] ∨ ∃ k', k = 47 :: k').
Proof.
  intros Hp Hq. unfold path_has_prefix. destruct (for_first _ _ _) eqn:E.
  - split; [done|]. intros (k&->&_). rewrite (proj2 (differs_prefix _ _ Hq)) in E; [done|by exists k].
  - apply (differs_prefix _ _ Hq) in E as [k ->]. apply cstr_app in Hp as [_ Hk]. unfold text_length.
    rewrite aget_app_r, Z.sub_diag by lia. rewrite orb_true_iff, !Z.eqb_eq. split.
    + intros Hc. exists k. split; [done|]. destruct k as [|c k]; [by left|]. rewrite aget_0 in Hc.
      inversion Hk; subst. destruct Hc as [|]; [done|]. subst c. right; eauto.
    + intros (k'&E&Hk'). apply app_inv_head in E as <-. destruct Hk' as [->|[k' ->]]; [by left|by right].
Qed.

Lemma perm_map_ok (f : perm_slot → perm_slot) (t : perm_table) : perm_ok t →
  (∀ s, s ∈ t → ps_used (f s) = true → ps_used s = true ∧
     cstr (ps_path (f s)) ∧ text_length (ps_path (f s)) < PERM_PATH_MAX) → perm_ok (map f t).
Proof.
  intros W H1. split; [rewrite length_map; apply W|]. intros s (r&->&Hr)%list_elem_of_fmap U. by apply H1.
Qed.

Lemma perm_forget_spec path t : perm_ok t → cstr path → perm_ok (vfs_perm_forget path t) ∧
  ∀ q, cstr q → vfs_perm_get (vfs_perm_forget path t) q =
    if path_has_prefix q path then None else vfs_perm_get t q.
Proof.
  intros W Hp. assert (perm_ok (vfs_perm_forget path t)) as W'.
  { apply perm_map_ok; [done|]. intros s Hs. destruct (ps_used s) eqn:U, (path_has_prefix _ _); cbn; try done; intros Hu; try congruence;
      (split; [done|by apply (po_path t W)]). }
  split; [done|]. intros q Hq. rewrite !get_recorded by done. unfold recorded, vfs_perm_forget. rewrite omap_map.
  rewrite (omap_same _ (λ s, if path_has_prefix q path then None else found q s)).
  - destruct (path_has_prefix q path); [by rewrite omap_none|done].
  - intros s _. unfold found. destruct (ps_used s) eqn:U; cbn [andb].
    + destruct (path_has_prefix (ps_path s) path) eqn:Ep; cbn.
      * destruct (bool_decide_reflect (ps_path s = q)) as [<-|]; [by rewrite Ep|by destruct (path_has_prefix q path)].
      * rewrite U. cbn. destruct (bool_decide_reflect (ps_path s = q)) as [<-|]; [by rewrite Ep|by destruct (path_has_prefix q path)].
    + rewrite U. by destruct (path_has_prefix q path).
Qed.

Lemma prefix_tail prefix k : cstr prefix → cstr k → k = [] ∨ (∃ k', k = 47 :: k') →
  path_has_prefix (prefix ++ k) prefix = true.
Proof.
  intros Hp Hk H. apply path_has_prefix_spec; [by apply cstr_app|done|]. by exists k.
Qed.

(** What one slot becomes. *)
Lemma rename_slot_spec from to s : cstr from → cstr to → text_length to < PERM_PATH_MAX →
  ps_used s = true → cstr (ps_path s) →
  (path_has_prefix (ps_path s) from = false ∧ rename_slot from to s = s) ∨
  (∃ k, ps_path s = from ++ k ∧ cstr k ∧ (k = [] ∨ ∃ k', k = 47 :: k') ∧
     rename_slot from to s =
       if PERM_PATH_MAX <=? text_length (to ++ k) then s <| ps_used := false |>
       else PermSlot true (to ++ k) (ps_meta s)).
Proof.
  intros Hf Ht Hl U Hs. unfold rename_slot. rewrite U. cbn [negb orb].
  destruct (path_has_prefix (ps_path s) from) eqn:Ep; cbn [negb]; [right|by left].
  apply path_has_prefix_spec in Ep as (k&Ek&Hk); [|done|done]. exists k. rewrite Ek in Hs |- *.
  apply cstr_app in Hs as [_ Hck]. split_and!; [done|done|done|]. unfold copy_text.
  destruct (Z.leb_spec PERM_PATH_MAX (text_length to)); [lia|]. rewrite drop_app_length.
  assert (text_length (to ++ k) = text_length to + text_length k) as ->
    by (unfold text_length; rewrite length_app; lia).
  destruct (_ <=? _); [done|]. destruct s. cbn in *. by rewrite U.
Qed.

(** What a renamed slot says of a path: what it said of the place the path comes
    from, or of the path itself if it stays. *)
Lemma found_renamed from to s q : cstr from → cstr to → text_length to < PERM_PATH_MAX → (ps_used s = true → cstr (ps_path s)) → cstr q →
  let moved := if path_has_prefix q to && (text_length q <? PERM_PATH_MAX) then found (from ++ drop (length to) q) s else None in
  let stayed := if path_has_prefix q from then None else found q s in
  found q (rename_slot from to s) = match moved with Some m => Some m | None => stayed end ∧ (moved = None ∨ stayed = None).
Proof.
  intros Hf Ht Hl Hs Hq. cbv zeta. destruct (ps_used s) eqn:U.
  2:{ unfold rename_slot, found. rewrite U. cbn [negb orb andb]. rewrite U. cbn [andb]. destruct (_ && _), (path_has_prefix q from); auto. }
  specialize (Hs eq_refl). destruct (rename_slot_spec from to s Hf Ht Hl U Hs) as [[Ep ->]|(k&P&Hk&Tk&->)].
  - assert ((if path_has_prefix q to && (text_length q <? PERM_PATH_MAX) then found (from ++ drop (length to) q) s else None) = None) as ->.
    { destruct (path_has_prefix q to) eqn:Eq; [|done]. destruct (_ <? _); [|done]. cbn [andb].
      apply path_has_prefix_spec in Eq as (k&->&Tk); [|done|done]. rewrite drop_app_length. apply cstr_app in Hq as [_ Hk].
      unfold found. rewrite U. cbn [andb]. rewrite bool_decide_eq_false_2; [done|]. intros E. rewrite E, prefix_tail in Ep; done. }
    split; [|by left]. unfold found. rewrite U. cbn [andb]. destruct (bool_decide_reflect (ps_path s = q)) as [<-|]; [by rewrite Ep|by destruct (path_has_prefix q from)].
  - assert ((if path_has_prefix q from then None else found q s) = None) as ->.
    { unfold found. rewrite U. cbn [andb]. destruct (bool_decide_reflect (ps_path s = q)) as [<-|]; [|by destruct (path_has_prefix q from)].
      by rewrite P, prefix_tail. }
    split; [|by right]. destruct (path_has_prefix q to) eqn:Eq; cbn [andb].
    + apply path_has_prefix_spec in Eq as (j&->&Tj); [|done|done]. rewrite drop_app_length. apply cstr_app in Hq as [_ Hj].
      assert (bool_decide (from ++ k = from ++ j) = bool_decide (to ++ k = to ++ j)) as E.
      { apply bool_decide_ext. split; intros E%app_inv_head; by subst. }
      unfold found at 2. rewrite U, P, E. cbn [andb]. destruct (bool_decide_reflect (to ++ k = to ++ j)) as [Ek|Nk].
      * rewrite <- Ek. destruct (Z.leb_spec PERM_PATH_MAX (text_length (to ++ k))), (Z.ltb_spec (text_length (to ++ k)) PERM_PATH_MAX); try lia; [done|].
        unfold found. cbn. by rewrite bool_decide_eq_true_2.
      * assert (∀ b : bool, (if b then @None vfs_perm_meta else None) = None) as -> by by intros []. destruct (_ <=? _); unfold found; cbn; [done|].
        by rewrite bool_decide_eq_false_2.
    + destruct (_ <=? _); unfold found; cbn; [done|]. rewrite bool_decide_eq_false_2; [done|]. intros <-. by rewrite prefix_tail in Eq.
Qed.

(** The first of two searches at once. *)
Lemma head_either {A B} (f g : A → option B) (l : list A) : (∀ x, x ∈ l → f x = None ∨ g x = None) →
  let r := head (omap (λ x, match f x with Some m => Some m | None => g x end) l) in
  (head (omap f l) = None → r = head (omap g l)) ∧ (head (omap g l) = None → r = head (omap f l)) ∧
  (r = head (omap f l) ∨ r = head (omap g l)).
Proof.
  induction l as [|x l IH]; intros H; [by split_and!; [..|left]|]. cbv zeta in *. cbn.
  destruct IH as (I1&I2&I3); [intros y Hy; apply H; by right|]. destruct (H x ltac:(by left)) as [E|E]; rewrite E.
  - destruct (g x); cbn; [split_and!; try done; by right|done].
  - destruct (f x); cbn; [split_and!; try done; by left|done].
Qed.

Lemma perm_rename_spec from to t : perm_ok t → cstr from → cstr to → text_length to < PERM_PATH_MAX →
  perm_ok (vfs_perm_rename from to t) ∧
  ∀ q, cstr q →
    let moved := if path_has_prefix q to && (text_length q <? PERM_PATH_MAX) then vfs_perm_get t (from ++ drop (length to) q) else None in
    let stayed := if path_has_prefix q from then None else vfs_perm_get t q in
    let r := vfs_perm_get (vfs_perm_rename from to t) q in
    (moved = None → r = stayed) ∧ (stayed = None → r = moved) ∧ (r = moved ∨ r = stayed).
Proof.
  intros W Hf Ht Hl. assert (∀ s, s ∈ t → ps_used s = true → cstr (ps_path s)) as Cs by (intros s Hs U; by apply (po_path t W)).
  assert (perm_ok (vfs_perm_rename from to t)) as W'.
  { apply perm_map_ok; [done|]. intros s Hs U. assert (ps_used s = true) as Us.
    { destruct (ps_used s) eqn:Us; [done|]. unfold rename_slot in U. rewrite Us in U. cbn in U. by rewrite Us in U. }
    split; [done|]. destruct (rename_slot_spec from to s) as [[_ E]|(k&_&Hk&_&E)]; try done; [by apply Cs| |];
      rewrite E in *; [by apply (po_path t W)|].
    destruct (Z.leb_spec PERM_PATH_MAX (text_length (to ++ k))); [done|]. split; [by apply cstr_app|done]. }
  split; [done|]. intros q Hq. cbv zeta. rewrite (get_recorded t q), (get_recorded (vfs_perm_rename from to t) q) by done.
  set (f := λ s, if path_has_prefix q to && (text_length q <? PERM_PATH_MAX) then found (from ++ drop (length to) q) s else None).
  set (g := λ s, if path_has_prefix q from then None else found q s).
  pose proof (λ s Hs, found_renamed from to s q Hf Ht Hl (Cs s Hs) Hq) as R. cbv zeta in R.
  pose proof (head_either f g t (λ s Hs, proj2 (R s Hs))) as Hd. cbv zeta in Hd.
  assert (recorded (vfs_perm_rename from to t) q = head (omap (λ s, match f s with Some m => Some m | None => g s end) t)) as ->.
  { unfold recorded, vfs_perm_rename. rewrite omap_map. f_equal. apply omap_same. intros s Hs. apply R, Hs. }
  assert ((if path_has_prefix q to && (text_length q <? PERM_PATH_MAX) then vfs_perm_get t (from ++ drop (length to) q) else None) = head (omap f t)) as ->.
  { unfold f. destruct (path_has_prefix q to) eqn:Eq; [|by rewrite omap_none]. destruct (_ <? _); [|by rewrite omap_none]. cbn [andb].
    apply path_has_prefix_spec in Eq as (k&->&_); [|done|done]. apply cstr_app in Hq as [_ Hk]. rewrite drop_app_length. apply get_recorded; [done|]. by apply cstr_app. }
  assert ((if path_has_prefix q from then None else recorded t q) = head (omap g t)) as -> by (unfold g; destruct (path_has_prefix q from); [by rewrite omap_none|done]).
  exact Hd.
Qed.

(** A target that is too long: nothing is renamed. *)
Lemma perm_rename_long from to t : PERM_PATH_MAX ≤ text_length to → vfs_perm_rename from to t = t.
Proof.
  intros L. unfold vfs_perm_rename. rewrite <- (map_id t) at 2. apply map_ext. intros s. unfold rename_slot, copy_text.
  destruct (_ || _); [done|]. by destruct (Z.leb_spec PERM_PATH_MAX (text_length to)); [|lia].
Qed.

(** ** Histories of the table *)

Inductive perm_op :=
| PSet (path : list Z) (meta : vfs_perm_meta)
| PChmod (path : list Z) (mode : Z)
| PChown (path : list Z) (uid gid : Z)
| PForget (path : list Z)
| PRename (from to : list Z)
| PReset.

Definition perm_exec (o : perm_op) (t : perm_table) : perm_table :=
  match o with
  | PSet p m => (vfs_perm_set (Some p) (Some m) t).2
  | PChmod p mode => (vfs_perm_chmod p mode t).2
  | PChown p u g => (vfs_perm_chown p u g t).2
  | PForget p => vfs_perm_forget p t
  | PRename from to => vfs_perm_rename from to t
  | PReset => vfs_perm_reset t
  end.

(** The arguments are texts. *)
Definition perm_op_ok (o : perm_op) : Prop :=
  match o with
  | PSet p _ | PChmod p _ | PChown p _ _ | PForget p => cstr p
  | PRename from to => cstr from ∧ cstr to
  | PReset => True
  end.

Inductive perm_reachable : perm_table → Prop :=
| perm_boot : perm_reachable perm_init
| perm_step t o : perm_reachable t → perm_op_ok o → perm_reachable (perm_exec o t).

Lemma perm_set_ok p m t : perm_ok t → cstr p → perm_ok (vfs_perm_set (Some p) (Some m) t).2.
Proof. intros W Hp. pose proof (perm_set_spec p m t W Hp) as S. by destruct (vfs_perm_set _ _ _), S. Qed.

Lemma perm_init_ok : perm_ok perm_init.
Proof. split; [done|]. by intros s [-> _]%elem_of_replicate. Qed.

Lemma perm_reachable_ok t : perm_reachable t → perm_ok t.
Proof.
  induction 1 as [|t o _ W Ho]; [apply perm_init_ok|].
  destruct o as [p m|p mode|p u g|p|from to|]; cbn [perm_exec perm_op_ok] in *.
  - by apply perm_set_ok.
  - by apply perm_set_ok.
  - by apply perm_set_ok.
  - by apply perm_forget_spec.
  - destruct Ho as [Hf Ht]. destruct (decide (text_length to < PERM_PATH_MAX)); [by apply perm_rename_spec|].
    rewrite perm_rename_long by lia. done.
  - apply perm_map_ok; [done|]. by intros s.
Qed.

(** ** Properties *)

(** C27: In every history of the table, with any renames, what it says of the paths
    is changed as a map is.  Setting an entry changes that path alone (masking the
    mode to 12 bits), and fails, changing nothing, only for a path that is too
    long or a new path in a full table.  Forgetting a path forgets exactly what
    is at or below it.  A rename carries every entry at or below the old path to
    the same place below the new one, or drops it if its new path is too long, and
    touches nothing else; only where something was already recorded at the new
    place and is carried there as well, one of the two counts (the one in the
    earlier slot: the table keeps both).  A rename to a path that is too long
    does nothing. *)
Theorem perm_table_is_map t p m to q : perm_reachable t → cstr p → cstr to → cstr q →
  (let '(status, t') := vfs_perm_set (Some p) (Some m) t in
   if status =? 0
   then vfs_perm_get t' q = if decide (q = p) then Some (masked m) else vfs_perm_get t q
   else t' = t ∧ (PERM_PATH_MAX ≤ text_length p ∨
                  (vfs_perm_get t p = None ∧ ∀ s, s ∈ t → ps_used s = true))) ∧
  vfs_perm_get (vfs_perm_forget p t) q = (if path_has_prefix q p then None else vfs_perm_get t q) ∧
  (let moved := if path_has_prefix q to && (text_length q <? PERM_PATH_MAX) then vfs_perm_get t (p ++ drop (length to) q) else None in
   let stayed := if path_has_prefix q p then None else vfs_perm_get t q in
   let r := vfs_perm_get (vfs_perm_rename p to t) q in
   if text_length to <? PERM_PATH_MAX
   then (moved = None → r = stayed) ∧ (stayed = None → r = moved) ∧ (r = moved ∨ r = stayed)
   else vfs_perm_rename p to t = t).
Proof.
  intros W%perm_reachable_ok Hp Ht Hq. split_and!.
  - pose proof (perm_set_spec p m t W Hp) as S. destruct (vfs_perm_set _ _ _) as [status t'].
    destruct S as [_ S]. destruct (status =? 0); [by apply S|done].
  - by apply perm_forget_spec.
  - destruct (Z.ltb_spec (text_length to) PERM_PATH_MAX); [by apply perm_rename_spec|by apply perm_rename_long].
Qed.

(** "/a/b" has mode 0600 and owner 7; "/a" is renamed to "/c". *)
Definition demo_perm : perm_table := perm_exec (PSet [47; 97; 47; 98] (PermMeta 384 7 7)) perm_init.

Lemma demo_perm_reachable : perm_reachable demo_perm.
Proof. apply perm_step; [constructor|]. repeat constructor; discriminate. Qed.

Lemma perm_table_is_map_witness :
  vfs_perm_get (vfs_perm_rename [47; 97] [47; 99] demo_perm) [47; 99; 47; 98] = Some (PermMeta 384 7 7) ∧
  vfs_perm_get (vfs_perm_forget [47; 97] demo_perm) [47; 97; 47; 98] = None.
Proof.
  destruct (perm_table_is_map demo_perm [47; 97] (PermMeta 0 0 0) [47; 99] [47; 99; 47; 98] demo_perm_reachable)
    as (_&_&R); [repeat constructor; discriminate..|].
  destruct (perm_table_is_map demo_perm [47; 97] (PermMeta 0 0 0) [47; 99] [47; 97; 47; 98] demo_perm_reachable)
    as (_&F&_); [repeat constructor; discriminate..|].
  split; [|rewrite F; reflexivity]. destruct R as (_&R&_). rewrite R; vm_compute; reflexivity.
Defined.

(** A rename onto a path that has an entry leaves two for it, and which of them
    counts is a matter of the slots they are in: "/b", then "/a", are recorded,
    and "/a" is renamed to "/b". *)
Lemma perm_rename_keeps_both :
  let t := perm_exec (PSet [47; 97] (PermMeta 384 7 7)) (perm_exec (PSet [47; 98] (PermMeta 511 0 0)) perm_init) in
  length (omap (found [47; 98]) (vfs_perm_rename [47; 97] [47; 98] t)) = 2%nat ∧
  vfs_perm_get (vfs_perm_rename [47; 97] [47; 98] t) [47; 98] = Some (PermMeta 511 0 0).
Proof. vm_compute. by split. Qed.

(** ** Account lines *)

(** A field: no separator, and it fits its buffer. *)
Definition field_ok (f : list Z) (capacity : Z) : Prop :=
  Forall (λ c, field_end c = false ∧ c ≠ 0) f ∧ text_length f < capacity.

Record user_ok (e : user_entry) : Prop := {
  uo_name : field_ok (ue_name e) USER_NAME_MAX;
  uo_first : ue_name e ≠ [] ∧ aget 0 (ue_name e) 0 ≠ 35;
  uo_uid : 0 ≤ ue_uid e < USER_ID_NONE;
  uo_gid : 0 ≤ ue_gid e < USER_ID_NONE;
  uo_gecos : field_ok (ue_gecos e) USER_GECOS_MAX;
  uo_home : field_ok (ue_home e) USER_HOME_MAX;
  uo_shell : field_ok (ue_shell e) USER_SHELL_MAX;
}.

Definition decimal (v : Z) : list Z := rev (digits 12 v).

(** The line of an account. *)
Definition user_line (e : user_entry) : list Z :=
  ue_name e ++ [58; 120; 58] ++ decimal (ue_uid e) ++ [58] ++ decimal (ue_gid e) ++ [58] ++
  ue_gecos e ++ [58] ++ ue_home e ++ [58] ++ ue_shell e ++ [10].

Lemma next_field_spec f c rest capacity : ∀ length, Forall (λ c, field_end c = false ∧ c ≠ 0) f →
  field_end c = true → length + text_length f < capacity →
  next_field (f ++ c :: rest) capacity length = Some (f, c :: rest).
Proof.
  induction f as [|a f IH]; intros n Hf Hc Hl; cbn [app next_field]; [by rewrite Hc|].
  inversion Hf as [|? ? [Ha _] Hf']; subst. rewrite Ha. unfold text_length in *. cbn [length] in Hl.
  destruct (Z.leb_spec capacity (n + 1)); [lia|]. rewrite IH by (done || lia). done.
Qed.

Lemma colon_field_spec f c rest capacity : field_ok f capacity → field_end c = true →
  colon_field (58 :: f ++ c :: rest) capacity = Some (f, c :: rest).
Proof. intros [Hf Hl] Hc. unfold colon_field. cbn. by apply next_field_spec. Qed.

Lemma parse_digits_app a b r : parse_digits (a ++ b) r = parse_digits a r ≫= parse_digits b.
Proof.
  revert r. induction a as [|c a IH]; intros r; [done|]. cbn [app parse_digits].
  destruct (_ || _); [done|]. destruct (_ <=? _); [done|]. apply IH.
Qed.

Lemma digits_spec fuel v : 0 ≤ v < USER_ID_NONE → v < 10 ^ Z.of_nat fuel → (0 < fuel)%nat →
  parse_digits (rev (digits fuel v)) 0 = Some v ∧
  Forall (λ c, field_end c = false ∧ c ≠ 0) (digits fuel v) ∧ (length (digits fuel v) ≤ fuel)%nat ∧
  digits fuel v ≠ [].
Proof.
  revert v. induction fuel as [|fuel IH]; intros v Hv Hf Hz; [lia|]. cbn [digits].
  pose proof (Z.mod_pos_bound v 10 ltac:(lia)) as Hm. pose proof (Z.div_mod v 10 ltac:(lia)) as Hd.
  pose proof (Z.div_pos v 10 ltac:(lia) ltac:(lia)) as Hp. set (q := v / 10) in *. set (r := v mod 10) in *.
  assert (field_end (48 + r) = false ∧ 48 + r ≠ 0) as Hdigit.
  { split; [|lia]. unfold field_end. rewrite !orb_false_iff, !Z.eqb_neq. lia. }
  assert (∀ x, 10 * x + r = v → parse_digits [48 + r] x = Some v) as Last.
  { intros x Ex. cbn [parse_digits]. destruct (Z.ltb_spec (48 + r) 48); [lia|]. destruct (Z.ltb_spec 57 (48 + r)); [lia|].
    cbn [orb]. replace (x * 10 + (48 + r - 48)) with v by lia. cbv zeta.
    rewrite u64_small by (unfold USER_ID_NONE in *; lia).
    destruct (Z.leb_spec USER_ID_NONE v); [lia|done]. }
  destruct (Z.eqb_spec q 0) as [Q|Q].
  - split_and!; [apply Last; lia|by constructor|cbn; lia|done].
  - assert (q < 10 ^ Z.of_nat fuel) as Hq.
    { rewrite Nat2Z.inj_succ, Z.pow_succ_r in Hf by lia. lia. }
    assert (0 < fuel)%nat as Hfu by (destruct fuel; [cbn in Hq; lia|lia]).
    destruct (IH q) as (E&Hall&Hlen&_); [lia|done|done|]. split_and!.
    + cbn [rev]. rewrite parse_digits_app, E. cbn [mbind option_bind]. apply Last. lia.
    + by constructor.
    + cbn [length]. lia.
    + done.
Qed.

Lemma decimal_spec v : 0 ≤ v < USER_ID_NONE → field_ok (decimal v) 16 ∧ parse_number (decimal v) = Some v.
Proof.
  intros Hv. destruct (digits_spec 12 v Hv) as (E&Hall&Hlen&Hne); [unfold USER_ID_NONE in *; lia|lia|].
  unfold decimal. set (d := digits 12 v) in *. clearbody d. split.
  - split; [by apply Forall_rev|]. unfold text_length. rewrite length_rev. lia.
  - unfold parse_number. destruct (rev d) eqn:R; [|done].
    apply (f_equal (@rev Z)) in R. by rewrite rev_involutive in R.
Qed.

Lemma colon_number_spec v rest : 0 ≤ v < USER_ID_NONE →
  colon_number (58 :: decimal v ++ 58 :: rest) = Some (v, 58 :: rest).
Proof.
  intros Hv. destruct (decimal_spec v Hv) as [Hf Hn]. unfold colon_number.
  by rewrite colon_field_spec, Hn by done.
Qed.

Lemma parse_user_line e rest : user_ok e → user_parse_line (Some (user_line e ++ rest)) = Some e.
Proof.
  intros W. unfold user_line. rewrite <- !app_assoc. cbn [app].
  unfold user_parse_line. destruct (uo_first e W) as [Hne H35].
  destruct (ue_name e) as [|c n] eqn:En; [done|]. cbn [app]. rewrite aget_0 in H35.
  destruct (Z.eqb_spec c 35); [done|]. rewrite (app_comm_cons n _ c), <- En.
  destruct (uo_name e W) as [Hn Hl]. rewrite next_field_spec by done. cbn [mbind option_bind].
  assert (aget 0 (ue_name e) 0 ≠ 0) as H0.
  { rewrite En, aget_0. rewrite En in Hn. by inversion Hn as [|? ? []]. }
  destruct (Z.eqb_spec (aget 0 (ue_name e) 0) 0); [done|].
  change (58 :: 120 :: 58 :: ?x) with (58 :: [120] ++ 58 :: x).
  rewrite (colon_field_spec [120]) by (done || (split; [apply Forall_cons_2; [done|apply Forall_nil_2]|done])). cbn [mbind option_bind].
  rewrite colon_number_spec by apply W. cbn [mbind option_bind].
  rewrite colon_number_spec by apply W. cbn [mbind option_bind].
  rewrite colon_field_spec by (done || apply W). cbn [mbind option_bind].
  rewrite colon_field_spec by (done || apply W). cbn [mbind option_bind].
  rewrite colon_field_spec by (done || apply W). cbn [mbind option_bind]. by destruct e; cbn in *; subst.
Qed.

Lemma put_text_some capacity out text x : put_text capacity out text = Some x →
  x = out ++ text ∧ text_length x < capacity.
Proof.
  unfold put_text. destruct (Z.leb_spec capacity (text_length out + text_length text)); [done|].
  intros [= <-]. split; [done|]. unfold text_length in *. rewrite length_app. lia.
Qed.

Lemma put_text_fits capacity out text rest : text_length (out ++ text ++ rest) < capacity →
  put_text capacity out text = Some (out ++ text).
Proof.
  intros H. unfold put_text. unfold text_length in *. rewrite !length_app in H.
  destruct (Z.leb_spec capacity (Z.of_nat (length out) + Z.of_nat (length text))); [lia|done].
Qed.

Lemma format_spec e capacity : capacity ≠ 0 → user_format_line (Some e) capacity =
  if text_length (user_line e) <? capacity then (text_length (user_line e), user_line e)
  else (FS_ERROR_NO_SPACE, []).
Proof.
  intros Hz. unfold user_format_line. destruct (Z.eqb_spec capacity 0); [done|]. unfold put_number.
  fold (decimal (ue_uid e)) (decimal (ue_gid e)).
  assert (∀ ts out, foldl (λ o t, out ← o; put_text capacity out t) (Some out) ts =
    if decide (ts = [] ∨ text_length (out ++ concat ts) < capacity) then Some (out ++ concat ts) else None) as Chain.
  { intros ts. induction ts as [|t ts IH]; intros out; cbn [foldl concat].
    - rewrite decide_True by auto. by rewrite app_nil_r.
    - cbn [mbind option_bind]. destruct (put_text capacity out t) as [x|] eqn:E.
      + apply put_text_some in E as [-> Hx]. rewrite IH, <- app_assoc.
        destruct (decide (ts = [] ∨ _)) as [D|D].
        * rewrite decide_True; [done|]. right. destruct D as [->|D]; [by rewrite app_nil_r|done].
        * rewrite decide_False; [done|]. intros [|D']; [done|]. apply D. by right.
      + rewrite decide_False.
        * clear IH. induction ts as [|u ts IH]; [done|]. exact IH.
        * intros [|D]; [done|]. by rewrite (put_text_fits _ _ _ (concat ts)) in E. }
  specialize (Chain [ue_name e; [58; 120; 58]; decimal (ue_uid e); [58]; decimal (ue_gid e); [58]; ue_gecos e;
    [58]; ue_home e; [58]; ue_shell e; [10]] []).
  cbn [foldl concat app] in Chain.
  change (ue_name e ++ 58 :: 120 :: 58 :: decimal (ue_uid e) ++ 58 :: decimal (ue_gid e) ++ 58 :: ue_gecos e ++
    58 :: ue_home e ++ 58 :: ue_shell e ++ [10]) with (user_line e) in Chain.
  match goal with |- match ?m with _ => _ end = _ =>
    assert (m = if decide (text_length (user_line e) < capacity) then Some (user_line e) else None) as -> end.
  { transitivity (if decide ([ue_name e; [58; 120; 58]; decimal (ue_uid e); [58]; decimal (ue_gid e); [58]; ue_gecos e;
    [58]; ue_home e; [58]; ue_shell e; [10]] = [] ∨ text_length (user_line e) < capacity)
      then Some (user_line e) else None).
    - rewrite <- Chain. rewrite !option_bind_assoc. done.
    - destruct (decide (text_length (user_line e) < capacity)); [rewrite decide_True by auto; done|].
      rewrite decide_False; [done|]. by intros [|]. }
  destruct (Z.ltb_spec (text_length (user_line e)) capacity); [by rewrite decide_True|].
  rewrite decide_False; [done|lia].
Qed.

Lemma next_line_spec b rest : Forall (λ c, c ≠ 10) b → next_line (b ++ 10 :: rest) = rest.
Proof.
  induction 1 as [|c b Hc _ IH]; [done|]. cbn [app next_line]. by destruct (Z.eqb_spec c 10).
Qed.

Lemma field_no_newline f capacity : field_ok f capacity → Forall (λ c, c ≠ 10) f.
Proof.
  intros [H _]. eapply Forall_impl; [exact H|]. intros c [E _]. unfold field_end in E.
  rewrite !orb_false_iff, !Z.eqb_neq in E. tauto.
Qed.

Lemma next_line_user e rest : user_ok e → next_line (user_line e ++ rest) = rest.
Proof.
  intros W. unfold user_line. rewrite <- !app_assoc.
  pose proof (field_no_newline _ _ (uo_name e W)). pose proof (field_no_newline _ _ (uo_gecos e W)).
  pose proof (field_no_newline _ _ (uo_home e W)). pose proof (field_no_newline _ _ (uo_shell e W)).
  pose proof (field_no_newline _ _ (proj1 (decimal_spec _ (uo_uid e W)))).
  pose proof (field_no_newline _ _ (proj1 (decimal_spec _ (uo_gid e W)))).
  set (du := decimal (ue_uid e)) in *. clearbody du. set (dg := decimal (ue_gid e)) in *. clearbody dg.
  set (b := ue_name e ++ [58; 120; 58] ++ du ++ [58] ++ dg ++ [58] ++
    ue_gecos e ++ [58] ++ ue_home e ++ [58] ++ ue_shell e).
  transitivity (next_line (b ++ 10 :: rest)); [subst b; by rewrite <- !app_assoc|].
  apply next_line_spec. subst b. repeat (apply Forall_app; split); try done;
    repeat first [apply Forall_nil_2|apply Forall_cons_2; [cbv beta; lia|]].
Qed.

Lemma user_line_cons e rest : user_ok e → ∃ c p, user_line e ++ rest = c :: p.
Proof.
  intros W. destruct (uo_first e W) as [Hne _]. unfold user_line. destruct (ue_name e); [done|]. cbn. eauto.
Qed.

Lemma scan_lines es name uid by_name (ok : user_entry → bool) :
  Forall user_ok es →
  (∀ e, e ∈ es → (if by_name : bool then text_equal (ue_name e) name else ue_uid e =? uid) = ok e) →
  ∀ fuel, (length (concat (map user_line es)) < fuel)%nat →
  scan_users fuel (concat (map user_line es)) name uid by_name = Some (List.find ok es).
Proof.
  intros W. induction W as [|e es We _ IH]; intros Hok fuel Hf; (destruct fuel as [|fuel]; [lia|]); [done|].
  cbn [map concat List.find] in *. destruct (user_line_cons e (concat (map user_line es)) We) as (c&p&Ec).
  cbn [scan_users]. rewrite Ec, <- Ec. rewrite parse_user_line by done. rewrite Hok by constructor.
  destruct (ok e); [done|]. rewrite next_line_user by done. apply IH; [intros x Hx; apply Hok; by constructor|].
  rewrite length_app in Hf. destruct (user_line e) eqn:El; [|cbn [length] in Hf; lia].
  exfalso. unfold user_line in El. destruct (uo_first e We) as [Hne _]. by destruct (ue_name e).
Qed.

(** The account file is read back as it is written.  A line is formatted
    exactly when it fits the buffer (with its terminator), and parsing it gives
    the account again; a look-up in a file of such lines always ends and finds the
    first account with the user id, or with the name, and nothing when there is none. *)
Theorem account_file_roundtrip es e capacity uid name :
  Forall user_ok es → user_ok e → cstr name → capacity ≠ 0 →
  user_lookup_uid (Some (concat (map user_line es))) uid = Some (List.find (λ e, ue_uid e =? uid) es) ∧
  user_lookup_name (Some (concat (map user_line es))) (Some name) =
    Some (List.find (λ e, bool_decide (ue_name e = name)) es) ∧
  let '(r, out) := user_format_line (Some e) capacity in
  (0 ≤ r ↔ text_length (user_line e) < capacity) ∧
  (0 ≤ r → out = user_line e ∧ r = text_length out ∧ user_parse_line (Some out) = Some e).
Proof.
  intros W We Hn Hz. split_and!.
  - apply scan_lines; [done|done|lia].
  - apply scan_lines; [done| |lia]. intros x Hx. apply text_equal_spec; [|done].
    pose proof (proj1 (Forall_forall _ _) W x Hx) as Wx. destruct (uo_name x Wx) as [H _].
    eapply Forall_impl; [exact H|]. by intros c [].
  - rewrite format_spec by done. destruct (Z.ltb_spec (text_length (user_line e)) capacity).
    + split; [split; [done|intros _; unfold text_length; lia]|]. intros _. split_and!; [done|done|].
      rewrite <- (app_nil_r (user_line e)). by apply parse_user_line.
    + unfold FS_ERROR_NO_SPACE. split; [split; lia|lia].
Qed.

(** root:x:0:0:r:/:/bin/sh and a second account. *)
Definition demo_root : user_entry := UserEntry [114; 111; 111; 116] 0 0 [114] [47] [47; 115; 104].
Definition demo_user : user_entry := UserEntry [117] 1000 100 [] [47; 104] [47; 115; 104].

Lemma account_file_roundtrip_witness :
  user_lookup_uid (Some (user_line demo_root ++ user_line demo_user ++ [])) 1000 = Some (Some demo_user) ∧
  user_parse_line (Some (user_format_line (Some demo_user) 256).2) = Some demo_user.
Proof.
  assert (∀ f n, forallb (λ c, negb (field_end c) && negb (c =? 0)) f = true → text_length f < n → field_ok f n) as F.
  { intros f n H L. split; [|exact L]. apply Forall_forall. intros c Hc. rewrite forallb_forall in H.
    specialize (H c (proj1 (list_elem_of_In f c) Hc)). apply andb_prop in H as [A B].
    apply negb_true_iff in A, B. apply Z.eqb_neq in B. done. }
  assert (user_ok demo_root) as W0 by (split; (apply F; done) || done).
  assert (user_ok demo_user) as W1 by (split; (apply F; done) || done).
  destruct (account_file_roundtrip [demo_root; demo_user] demo_user 256 1000 [] ) as (A&_&B).
  - by repeat first [apply Forall_nil_2|apply Forall_cons_2].
  - exact W1.
  - constructor.
  - discriminate.
  - split; [exact A|].
    assert (user_format_line (Some demo_user) 256 = (text_length (user_line demo_user), user_line demo_user)) as E
      by (vm_compute; reflexivity).
    rewrite E in B |- *. destruct B as [_ B]. destruct B as (_&_&B); [unfold text_length; lia|exact B].
Defined.
