(* ===== verification/Civil.v ===== *)
(** * The calendar (src/src/kernel/time/civil.c)

    Days and seconds since 1970 against civil dates.  A signed C division is
    [Z.quot], with [Z.rem] its remainder; unsigned ones are [/] and [mod]. *)

From S2P Require Import Prelude.

(** [src/kernel/time/civil.h:6-15] civil_time *)
Record civil_time := CivilTime {
  ct_year : Z; ct_month : Z; ct_day : Z; ct_hour : Z; ct_minute : Z; ct_second : Z;
  ct_weekday : Z; ct_yearday : Z;
}.

(** [src/kernel/time/civil.c:3-5] leap_year *)
Definition leap_year (year : Z) : bool :=
  ((Z.rem year 4 =? 0) && negb (Z.rem year 100 =? 0)) || (Z.rem year 400 =? 0).

(** [src/kernel/time/civil.c:7-13] month_length *)
Definition month_length (year month : Z) : Z :=
  if (month =? 2) && leap_year year then 29
  else aget 0 [31; 28; 31; 30; 31; 30; 31; 31; 30; 31; 30; 31] (month - 1).

(** [src/kernel/time/civil.c:15-22] civil_valid *)
Definition civil_valid (year month day hour minute second : Z) : bool :=
  if (year <? 1970) || (2105 <? year) || (month <? 1) || (12 <? month) || (day <? 1) then false
  else if month_length year month <? day then false
  else (hour <? 24) && (minute <? 60) && (second <? 60).

(** [src/kernel/time/civil.c:24-32] days_from_civil *)
Definition days_from_civil (year month day : Z) : Z :=
  let y := year - (if month <=? 2 then 1 else 0) in
  let era := Z.quot (if 0 <=? y then y else y - 399) 400 in
  let yoe := u32 (y - era * 400) in
  let mp := if 2 <? month then month - 3 else month + 9 in
  let doy := u32 ((153 * mp + 2) / 5 + day - 1) in
  let doe := u32 (yoe * 365 + yoe / 4 - yoe / 100 + doy) in
  era * 146097 + doe - 719468.

(** [src/kernel/time/civil.c:34-38] civil_to_unix *)
Definition civil_to_unix (year month day hour minute second : Z) : Z :=
  days_from_civil year month day * 86400 + hour * 3600 + minute * 60 + second.

(** The loop over the months before [m]; [i] is the next one.
    [src/kernel/time/civil.c:59-62] unix_to_civil *)
Fixpoint add_months (n : nat) (year i yday : Z) : Z :=
  match n with
  | O => yday
  | S n' => add_months n' year (i + 1) (u16 (yday + month_length year i))
  end.

(** [src/kernel/time/civil.c:40-63] unix_to_civil *)
Definition unix_to_civil (seconds : Z) : civil_time :=
  let days := if 0 <=? seconds then Z.quot seconds 86400 else - Z.quot (- seconds + 86399) 86400 in
  let rest := seconds - days * 86400 in
  let z := days + 719468 in
  let era := Z.quot (if 0 <=? z then z else z - 146096) 146097 in
  let doe := u32 (z - era * 146097) in
  let yoe := u32 (doe - doe / 1460 + doe / 36524 - doe / 146096) / 365 in
  let y := yoe + era * 400 in
  let doy := u32 (doe - (365 * yoe + yoe / 4 - yoe / 100)) in
  let mp := (5 * doy + 2) / 153 in
  let d := u32 (doy - (153 * mp + 2) / 5 + 1) in
  let m := if mp <? 10 then mp + 3 else mp - 9 in
  let year := i32 (y + (if m <=? 2 then 1 else 0)) in
  CivilTime year (u8 m) (u8 d) (u8 (Z.quot rest 3600)) (u8 (Z.quot (Z.rem rest 3600) 60))
    (u8 (Z.rem rest 60)) (u8 (Z.rem (Z.rem days 7 + 7 + 4) 7))
    (add_months (Z.to_nat (m - 1)) year 1 (u16 (d - 1))).

(** ** Days within an era of 400 years, counted from the first of March *)

(** The day a year begins with. *)
Definition year_start (yoe : Z) : Z := yoe * 365 + yoe / 4 - yoe / 100.
Definition year_of (doe : Z) : Z := (doe - doe / 1460 + doe / 36524 - doe / 146096) / 365.

Ltac divs := Z.div_mod_to_equations; lia.

(** The estimate grows with the day. *)
Lemma estimate_mono x y : 0 ≤ x ≤ y → y < 146097 →
  x - x / 1460 + x / 36524 - x / 146096 ≤ y - y / 1460 + y / 36524 - y / 146096.
Proof.
  intros Hx Hy. destruct (Z.eq_dec y 146096) as [->|].
  - destruct (Z.eq_dec x 146096) as [->|]; [lia|]. change (146096 / 1460) with 100.
    change (146096 / 36524) with 4. change (146096 / 146096) with 1. divs.
  - rewrite !(Z.div_small _ 146096) by lia. divs.
Qed.

Lemma years_ok yoe : 0 ≤ yoe < 400 →
  year_of (year_start yoe) = yoe ∧ year_of (if yoe =? 399 then 146096 else year_start (yoe + 1) - 1) = yoe.
Proof.
  assert (for_first (λ y, negb ((year_of (year_start y) =? y) &&
    (year_of (if y =? 399 then 146096 else year_start (y + 1) - 1) =? y))) 400 0 = None) as E
    by (vm_compute; reflexivity).
  intros Hy. rewrite for_first_None in E. specialize (E yoe ltac:(lia)).
  apply negb_false_iff, andb_prop in E as [A B]. apply Z.eqb_eq in A, B. done.
Qed.

(** The day after the last one of a year of the era. *)
Definition year_end (yoe : Z) : Z := if yoe =? 399 then 146097 else year_start (yoe + 1).

Lemma year_of_unique doe yoe : 0 ≤ yoe < 400 → year_start yoe ≤ doe < year_end yoe → year_of doe = yoe.
Proof.
  intros Hy Hd. destruct (years_ok yoe Hy) as [A B]. unfold year_of, year_end in *.
  assert (0 ≤ year_start yoe) by (unfold year_start; divs).
  assert (year_start (yoe + 1) ≤ 146097) by (unfold year_start; divs).
  pose proof (estimate_mono (year_start yoe) doe ltac:(lia)) as M1.
  pose proof (estimate_mono doe (if yoe =? 399 then 146096 else year_start (yoe + 1) - 1)) as M2.
  destruct (yoe =? 399) eqn:E.
  - specialize (M1 ltac:(lia)). specialize (M2 ltac:(lia) ltac:(lia)).
    apply (Z.div_le_mono _ _ 365) in M1, M2; lia.
  - specialize (M1 ltac:(lia)). specialize (M2 ltac:(lia) ltac:(lia)).
    apply (Z.div_le_mono _ _ 365) in M1, M2; lia.
Qed.

Lemma year_exists doe : 0 ≤ doe < 146097 → ∃ yoe, 0 ≤ yoe < 400 ∧ year_start yoe ≤ doe < year_end yoe.
Proof.
  intros Hd. assert (∀ n, (n ≤ 399)%nat → doe < year_end (Z.of_nat n) →
    ∃ yoe, 0 ≤ yoe < 400 ∧ year_start yoe ≤ doe < year_end yoe) as H.
  { induction n as [|n IH]; intros Hn Hlt.
    - exists 0. split; [lia|]. split; [|done]. change (year_start 0) with 0. lia.
    - destruct (Z.lt_ge_cases doe (year_start (Z.of_nat (S n)))).
      + apply IH; [lia|]. unfold year_end. destruct (Z.eqb_spec (Z.of_nat n) 399); [lia|].
        by replace (Z.of_nat n + 1) with (Z.of_nat (S n)) by lia.
      + exists (Z.of_nat (S n)). split; [lia|]. split; lia. }
  apply (H 399%nat); [lia|]. change (year_end (Z.of_nat 399)) with 146097. lia.
Qed.

(** ** Months within a year counted from the first of March *)

Definition month_of (doy : Z) : Z := (5 * doy + 2) / 153.
Definition month_start (mp : Z) : Z := (153 * mp + 2) / 5.
Definition civil_month (mp : Z) : Z := if mp <? 10 then mp + 3 else mp - 9.

(** The days of the [mp]-th month, when February has [feb] days. *)
Definition march_length (feb mp : Z) : Z :=
  if civil_month mp =? 2 then feb
  else aget 0 [31; 28; 31; 30; 31; 30; 31; 31; 30; 31; 30; 31] (civil_month mp - 1).

Lemma months_ok doy : 0 ≤ doy < 366 →
  0 ≤ month_of doy < 12 ∧ 0 ≤ doy - month_start (month_of doy) < march_length 29 (month_of doy) ∧
  (doy < 365 → doy - month_start (month_of doy) < march_length 28 (month_of doy)).
Proof.
  assert (for_first (λ d, let mp := month_of d in negb
    ((0 <=? mp) && (mp <? 12) && (0 <=? d - month_start mp) && (d - month_start mp <? march_length 29 mp) &&
     ((365 <=? d) || (d - month_start mp <? march_length 28 mp)))) 366 0 = None) as E by (vm_compute; reflexivity).
  intros Hd. rewrite for_first_None in E. specialize (E doy ltac:(lia)). cbv zeta in E.
  apply negb_false_iff in E. rewrite !andb_true_iff, orb_true_iff in E.
  destruct E as ((((A&B)&C)&D)&F). apply Z.leb_le in A, C. apply Z.ltb_lt in B, D.
  split_and!; try done. intros L. destruct F as [F|F]; [apply Z.leb_le in F; lia|by apply Z.ltb_lt in F].
Qed.

Lemma month_of_unique mp k : 0 ≤ mp < 12 → 0 ≤ k < march_length 29 mp →
  month_of (month_start mp + k) = mp ∧ 0 ≤ month_start mp + k < 366 ∧
  (k < march_length 28 mp → month_start mp + k < 365).
Proof.
  assert (for_first (λ mp, match for_first (λ k,
      (k <? march_length 29 mp) && negb ((month_of (month_start mp + k) =? mp) && (0 <=? month_start mp + k) &&
        (month_start mp + k <? 366) && ((march_length 28 mp <=? k) || (month_start mp + k <? 365)))) 31 0 with
    | Some _ => true | None => false end) 12 0 = None) as E by (vm_compute; reflexivity).
  intros Hm Hk. rewrite for_first_None in E. specialize (E mp ltac:(lia)).
  destruct (for_first _ 31 0) eqn:E'; [done|]. rewrite for_first_None in E'.
  assert (march_length 29 mp ≤ 31) as L31.
  { assert (for_first (λ mp, 31 <? march_length 29 mp) 12 0 = None) as F by (vm_compute; reflexivity).
    rewrite for_first_None in F. specialize (F mp ltac:(lia)). by apply Z.ltb_ge in F. }
  specialize (E' k ltac:(lia)). rewrite (proj2 (Z.ltb_lt k _)) in E' by lia. cbn [andb] in E'.
  apply negb_false_iff in E'. rewrite !andb_true_iff, orb_true_iff in E'. destruct E' as (((A&B)&C)&D).
  apply Z.eqb_eq in A. apply Z.leb_le in B. apply Z.ltb_lt in C. split_and!; try done.
  intros L. destruct D as [D|D]; [apply Z.leb_le in D; lia|by apply Z.ltb_lt in D].
Qed.

(** ** Leap years and C division *)

Lemma rem_zero x n : 0 < n → (Z.rem x n =? 0) = (x mod n =? 0).
Proof.
  intros Hn. apply eq_true_iff_eq. rewrite !Z.eqb_eq. rewrite Z.rem_divide, Z.mod_divide by lia. done.
Qed.

Lemma leap_year_mod year : leap_year year =
  ((year mod 4 =? 0) && negb (year mod 100 =? 0)) || (year mod 400 =? 0).
Proof. unfold leap_year. by rewrite !rem_zero by lia. Qed.

(** [(x >= 0 ? x : x - (n - 1)) / n] of C is the division that rounds down. *)
Lemma quot_floor x n : 0 < n → Z.quot (if 0 <=? x then x else x - (n - 1)) n = x / n.
Proof.
  intros Hn. destruct (Z.leb_spec 0 x) as [L|L]; [by rewrite Z.quot_div_nonneg by lia|].
  rewrite <- (Z.opp_involutive (x - (n - 1))), Z.quot_opp_l, Z.quot_div_nonneg by lia.
  apply (Z.div_unique _ _ _ (x + n * ((- (x - (n - 1))) / n))); [|lia]. left.
  pose proof (Z.div_mod (- (x - (n - 1))) n ltac:(lia)).
  pose proof (Z.mod_pos_bound (- (x - (n - 1))) n ltac:(lia)). lia.
Qed.

(** The year that begins in March has a 29th of February exactly when the next
    civil year is a leap year. *)
Lemma year_length yoe era : 0 ≤ yoe < 400 →
  year_end yoe - year_start yoe = if leap_year (yoe + era * 400 + 1) then 366 else 365.
Proof.
  assert (for_first (λ y, negb (year_end y - year_start y =?
    if ((((y + 1) mod 4 =? 0) && negb ((y + 1) mod 100 =? 0)) || ((y + 1) mod 400 =? 0)) then 366 else 365)) 400 0
    = None) as E by (vm_compute; reflexivity).
  intros Hy. rewrite for_first_None in E. specialize (E yoe ltac:(lia)). apply negb_false_iff, Z.eqb_eq in E.
  rewrite E, leap_year_mod.
  replace (yoe + era * 400 + 1) with (yoe + 1 + era * 100 * 4) at 1 by lia. rewrite Z.mod_add by lia.
  replace (yoe + era * 400 + 1) with (yoe + 1 + era * 4 * 100) at 1 by lia. rewrite Z.mod_add by lia.
  replace (yoe + era * 400 + 1) with (yoe + 1 + era * 400) at 1 by lia. by rewrite Z.mod_add by lia.
Qed.

(** ** The conversions without the widths *)

(** A day as era, year of the era, month and day. *)
Definition day_number (era yoe mp d : Z) : Z := era * 146097 + year_start yoe + month_start mp + (d - 1).

(** The parts of a date, in the March calendar. *)
Record march_date (era yoe mp d : Z) : Prop := {
  md_yoe : 0 ≤ yoe < 400;
  md_mp : 0 ≤ mp < 12;
  md_day : 1 ≤ d ≤ march_length (if leap_year (yoe + era * 400 + 1) then 29 else 28) mp;
}.

Lemma march_length_le feb mp : feb ≤ 29 → march_length feb mp ≤ march_length 29 mp.
Proof. intros H. unfold march_length. by destruct (_ =? 2); [|reflexivity]. Qed.

(** A March date lies in its year and era. *)
Lemma march_bounds era yoe mp d : march_date era yoe mp d →
  0 ≤ month_start mp + (d - 1) < year_end yoe - year_start yoe ∧
  0 ≤ year_start yoe + month_start mp + (d - 1) < 146097.
Proof.
  intros [Hy Hm Hd]. rewrite (year_length yoe era) by done.
  assert (0 ≤ year_start yoe) by (unfold year_start; divs).
  assert (year_end yoe ≤ 146097).
  { unfold year_end, year_start. destruct (Z.eqb_spec yoe 399); [lia|]. divs. }
  pose proof (year_length yoe era Hy) as L.
  pose proof (march_length_le 28 mp ltac:(lia)). destruct (leap_year _).
  - destruct (month_of_unique mp (d - 1) Hm ltac:(lia)) as (_&?&_). lia.
  - destruct (month_of_unique mp (d - 1) Hm ltac:(lia)) as (_&?&A). specialize (A ltac:(lia)). lia.
Qed.

(** Every day is one of a March date. *)
Lemma march_of_day z : ∃ yoe mp d, march_date (z / 146097) yoe mp d ∧ z = day_number (z / 146097) yoe mp d.
Proof.
  pose proof (Z.mod_pos_bound z 146097 ltac:(lia)) as Hb. pose proof (Z.div_mod z 146097 ltac:(lia)) as Hz.
  set (era := z / 146097) in *. set (doe := z mod 146097) in *.
  destruct (year_exists doe Hb) as (yoe&Hy&Hd). pose proof (year_length yoe era Hy) as L.
  set (doy := doe - year_start yoe).
  assert (0 ≤ doy < 366) as Hdoy by (destruct (leap_year _); lia).
  destruct (months_ok doy Hdoy) as (Hm&H29&H28).
  exists yoe, (month_of doy), (doy - month_start (month_of doy) + 1). split.
  - split; [done|done|]. destruct (leap_year _); [lia|]. specialize (H28 ltac:(lia)). lia.
  - unfold day_number. subst doy. lia.
Qed.

(** The computation of [unix_to_civil] finds the parts. *)
Lemma parts_of_day era yoe mp d : march_date era yoe mp d →
  let z := day_number era yoe mp d in let doe := z - era * 146097 in
  z / 146097 = era ∧ 0 ≤ doe < 146097 ∧ year_of doe = yoe ∧ doe - year_start yoe = month_start mp + (d - 1) ∧
  month_of (doe - year_start yoe) = mp.
Proof.
  intros M. destruct (march_bounds era yoe mp d M) as [B1 B2]. cbv zeta. unfold day_number.
  replace (era * 146097 + year_start yoe + month_start mp + (d - 1) - era * 146097)
    with (year_start yoe + month_start mp + (d - 1)) by lia.
  split_and!; try lia.
  - symmetry. apply (Z.div_unique _ _ _ (year_start yoe + month_start mp + (d - 1))); lia.
  - apply year_of_unique; [apply M|lia].
  - replace (year_start yoe + month_start mp + (d - 1) - year_start yoe) with (month_start mp + (d - 1)) by lia.
    destruct M as [_ Hm Hd]. apply month_of_unique; [done|].
    pose proof (march_length_le (if leap_year (yoe + era * 400 + 1) then 29 else 28) mp ltac:(destruct (leap_year _); lia)).
    lia.
Qed.

(** The civil year and month of a March date. *)
Definition civil_year (era yoe mp : Z) : Z := yoe + era * 400 + (if civil_month mp <=? 2 then 1 else 0).

Lemma civil_month_range mp : 0 ≤ mp < 12 → 1 ≤ civil_month mp ≤ 12 ∧
  (if 2 <? civil_month mp then civil_month mp - 3 else civil_month mp + 9) = mp.
Proof.
  intros H. unfold civil_month. destruct (Z.ltb_spec mp 10); split; try lia.
  - destruct (Z.ltb_spec 2 (mp + 3)); lia.
  - destruct (Z.ltb_spec 2 (mp - 9)); lia.
Qed.

Lemma month_length_march era yoe mp : 0 ≤ mp < 12 →
  month_length (civil_year era yoe mp) (civil_month mp) =
  march_length (if leap_year (yoe + era * 400 + 1) then 29 else 28) mp.
Proof.
  intros Hm. unfold month_length, march_length, civil_year.
  destruct (Z.eqb_spec (civil_month mp) 2) as [E|E]; [|done]. rewrite E. cbn [andb]. change (2 <=? 2) with true.
  cbv iota. by destruct (leap_year _).
Qed.

Lemma days_from_march era yoe mp d : march_date era yoe mp d →
  days_from_civil (civil_year era yoe mp) (civil_month mp) d = day_number era yoe mp d - 719468.
Proof.
  intros M. destruct (march_bounds era yoe mp d M) as [B1 B2]. pose proof M as [Hy Hm Hd].
  destruct (civil_month_range mp Hm) as [Hc Emp]. unfold days_from_civil.
  replace (civil_year era yoe mp - (if civil_month mp <=? 2 then 1 else 0)) with (yoe + era * 400)
    by (unfold civil_year; lia).
  replace (yoe + era * 400 - 399) with (yoe + era * 400 - (400 - 1)) by lia. rewrite quot_floor by lia.
  rewrite Z.div_add, (Z.div_small yoe 400), Z.add_0_l by lia. cbv zeta. rewrite Emp.
  replace (yoe + era * 400 - era * 400) with yoe by lia.
  assert (year_end yoe - year_start yoe ≤ 366) by (rewrite (year_length yoe era) by done; destruct (leap_year _); lia).
  fold (month_start mp). rewrite (u32_small yoe) by lia. fold (year_start yoe).
  rewrite (u32_small (month_start mp + d - 1)) by lia. rewrite u32_small by lia. unfold day_number. lia.
Qed.

(** The seconds for which the year is an [int32_t]. *)
Definition in_range (s : Z) : Prop := - 2 ^ 55 ≤ s ≤ 2 ^ 55.

Lemma days_floor s : (if 0 <=? s then Z.quot s 86400 else - Z.quot (- s + 86399) 86400) = s / 86400.
Proof.
  rewrite <- (quot_floor s 86400) by lia. destruct (Z.leb_spec 0 s); [done|].
  rewrite <- Z.quot_opp_l by lia. f_equal. lia.
Qed.

Lemma march_bound era yoe mp d s : march_date era yoe mp d → in_range s →
  s / 86400 + 719468 = day_number era yoe mp d → - 2 ^ 31 ≤ civil_year era yoe mp < 2 ^ 31.
Proof.
  intros M [A B] E. destruct (march_bounds era yoe mp d M) as [_ B2]. pose proof (md_yoe _ _ _ _ M).
  unfold day_number in E. unfold civil_year. change (2 ^ 55) with 36028797018963968 in *.
  change (2 ^ 31) with 2147483648. destruct (_ <=? 2); divs.
Qed.

Lemma unix_parts era yoe mp d s : march_date era yoe mp d → in_range s →
  s / 86400 + 719468 = day_number era yoe mp d →
  let c := unix_to_civil s in
  ct_year c = civil_year era yoe mp ∧ ct_month c = civil_month mp ∧ ct_day c = d ∧
  ct_hour c = s mod 86400 / 3600 ∧ ct_minute c = s mod 86400 mod 3600 / 60 ∧
  ct_second c = s mod 86400 mod 60 ∧ ct_weekday c = (s / 86400 + 4) mod 7.
Proof.
  intros M Hs E. pose proof (march_bound era yoe mp d s M Hs E) as Hyear.
  destruct (parts_of_day era yoe mp d M) as (P1&P2&P3&P4&P5). destruct (march_bounds era yoe mp d M) as [B1 _].
  pose proof (md_yoe _ _ _ _ M) as Hy. pose proof (md_mp _ _ _ _ M) as Hm.
  destruct (civil_month_range mp Hm) as [Hc _]. rewrite <- E in *.
  assert (year_end yoe - year_start yoe ≤ 366) by (rewrite (year_length yoe era) by done; destruct (leap_year _); lia).
  unfold unix_to_civil. rewrite days_floor. set (days := s / 86400) in *.
  replace (days + 719468 - 146096) with (days + 719468 - (146097 - 1)) by lia.
  rewrite quot_floor, P1 by lia. set (doe := days + 719468 - era * 146097) in *. cbv zeta.
  rewrite (u32_small doe) by lia. rewrite (u32_small (doe - doe / 1460 + doe / 36524 - doe / 146096)).
  2:{ pose proof (estimate_mono 0 doe ltac:(lia) ltac:(lia)) as Mono. change (0 - 0 / 1460 + 0 / 36524 - 0 / 146096) with 0 in Mono.
      split; [lia|]. divs. }
  fold (year_of doe). rewrite P3.
  assert (365 * yoe + yoe / 4 - yoe / 100 = year_start yoe) as -> by (unfold year_start; lia).
  rewrite (u32_small (doe - year_start yoe)) by lia. fold (month_of (doe - year_start yoe)). rewrite P5.
  fold (civil_month mp) (month_start mp). rewrite P4.
  assert (1 ≤ d ≤ 31) as Hd.
  { destruct M as [_ _ Hd].
    pose proof (march_length_le (if leap_year (yoe + era * 400 + 1) then 29 else 28) mp
      ltac:(destruct (leap_year _); lia)) as L29.
    assert (march_length 29 mp ≤ 31); [|lia]. clear Hd L29. unfold march_length. destruct (_ =? 2); [lia|].
    assert (for_first (λ m, 31 <? aget 0 [31; 28; 31; 30; 31; 30; 31; 31; 30; 31; 30; 31] m) 12 0 = None) as F
      by (vm_compute; reflexivity).
    rewrite for_first_None in F. specialize (F (civil_month mp - 1) ltac:(lia)). apply Z.ltb_ge in F. lia. }
  replace (month_start mp + (d - 1) - month_start mp + 1) with d by lia.
  rewrite (u32_small d) by lia. cbn [ct_year ct_month ct_day ct_hour ct_minute ct_second ct_weekday].
  fold (civil_year era yoe mp). replace (s - days * 86400) with (s mod 86400).
  2:{ pose proof (Z.div_mod s 86400 ltac:(lia)). lia. }
  pose proof (Z.mod_pos_bound s 86400 ltac:(lia)) as R. set (rest := s mod 86400) in *.
  rewrite (Z.quot_div_nonneg rest 3600), (Z.rem_mod_nonneg rest 3600), (Z.rem_mod_nonneg rest 60) by lia.
  pose proof (Z.mod_pos_bound rest 3600 ltac:(lia)). pose proof (Z.mod_pos_bound rest 60 ltac:(lia)).
  rewrite (Z.quot_div_nonneg (rest mod 3600) 60) by lia.
  split_and!; try (apply u8_small; divs).
  - by apply i32_small.
  - rewrite u8_small.
    + pose proof (Z.rem_bound_abs days 7 ltac:(lia)) as Hr. rewrite Z.rem_mod_nonneg by lia.
      apply Z.mod_unique with (Z.quot days 7 + (Z.rem days 7 + 7 + 4) / 7 - 1); [left|].
      * apply Z.mod_pos_bound. lia.
      * pose proof (Z.quot_rem days 7 ltac:(lia)). pose proof (Z.div_mod (Z.rem days 7 + 7 + 4) 7 ltac:(lia)). lia.
    + rewrite Z.rem_mod_nonneg; [pose proof (Z.mod_pos_bound (Z.rem days 7 + 7 + 4) 7 ltac:(lia)); lia| |lia].
      pose proof (Z.rem_bound_abs days 7 ltac:(lia)). lia.
Qed.

(** The March date of a civil one. *)
Lemma march_of_civil year month day : 1 ≤ month ≤ 12 → 1 ≤ day ≤ month_length year month →
  ∃ era yoe mp, march_date era yoe mp day ∧ year = civil_year era yoe mp ∧ month = civil_month mp.
Proof.
  intros Hm Hd. set (y := year - (if month <=? 2 then 1 else 0)).
  set (mp := if 2 <? month then month - 3 else month + 9).
  assert (0 ≤ mp < 12 ∧ civil_month mp = month) as [Hmp Ec].
  { subst mp. unfold civil_month. destruct (Z.ltb_spec 2 month).
    - destruct (Z.ltb_spec (month - 3) 10); lia.
    - destruct (Z.ltb_spec (month + 9) 10); lia. }
  pose proof (Z.mod_pos_bound y 400 ltac:(lia)). pose proof (Z.div_mod y 400 ltac:(lia)).
  assert (year = civil_year (y / 400) (y mod 400) mp) as Ey by (unfold civil_year; rewrite Ec; subst y; lia).
  exists (y / 400), (y mod 400), mp. split_and!; [|done|done]. split; [done|done|].
  rewrite <- month_length_march, Ec, <- Ey by done. done.
Qed.

(** The days of the years the system accepts. *)
Lemma system_days era yoe mp d : march_date era yoe mp d → 1970 ≤ civil_year era yoe mp ≤ 2105 →
  719468 ≤ day_number era yoe mp d < 769142.
Proof.
  intros M Hy. destruct (parts_of_day era yoe mp d M) as (_&_&_&P4&P5). rewrite P4 in P5.
  destruct (march_bounds era yoe mp d M) as [B1 _]. rewrite (year_length yoe era) in B1 by apply M.
  pose proof (md_yoe _ _ _ _ M) as Hyoe. pose proof (md_mp _ _ _ _ M) as Hm. unfold day_number.
  set (doy := month_start mp + (d - 1)) in *. unfold civil_year, civil_month, month_of in *.
  assert (doy < 306 ↔ mp < 10) as Hj by (rewrite <- P5; divs).
  assert (0 ≤ doy < 366) by (destruct (leap_year _); lia).
  replace (era * 146097 + year_start yoe + month_start mp + (d - 1)) with (era * 146097 + year_start yoe + doy)
    by (subst doy; lia).
  clearbody doy. clear B1 P4 P5 M. unfold year_start. revert Hy.
  destruct (Z.ltb_spec mp 10) as [L|L].
  - destruct (Z.leb_spec (mp + 3) 2) as [|_]; [lia|]. intros Hy. assert (era = 4 ∨ era = 5) as [-> | ->] by lia; divs.
  - destruct (Z.leb_spec (mp - 9) 2) as [_|]; [|lia]. intros Hy. assert (era = 4 ∨ era = 5) as [-> | ->] by lia; divs.
Qed.

(** ** Properties *)

(** C37: the two conversions are inverse to each other.  For every second
    up to 2^55 before or after 1970 the civil date is one of the calendar (month,
    day within the month with the leap year rule, hour, minute, second, the
    weekday) and converts back to that second; and every date the system accepts
    as valid comes back unchanged from its second, which is a number from 0
    to 2^32 - 1. *)
Theorem civil_roundtrip s year month day hour minute second : in_range s →
  (let c := unix_to_civil s in
   civil_to_unix (ct_year c) (ct_month c) (ct_day c) (ct_hour c) (ct_minute c) (ct_second c) = s ∧
   1 ≤ ct_month c ≤ 12 ∧ 1 ≤ ct_day c ≤ month_length (ct_year c) (ct_month c) ∧
   0 ≤ ct_hour c < 24 ∧ 0 ≤ ct_minute c < 60 ∧ 0 ≤ ct_second c < 60 ∧
   ct_weekday c = (s / 86400 + 4) mod 7) ∧
  (0 ≤ hour → 0 ≤ minute → 0 ≤ second → civil_valid year month day hour minute second = true →
   let t := civil_to_unix year month day hour minute second in let c := unix_to_civil t in
   is_u32 t ∧ ct_year c = year ∧ ct_month c = month ∧ ct_day c = day ∧
   ct_hour c = hour ∧ ct_minute c = minute ∧ ct_second c = second).
Proof.
  intros Hs. split.
  - destruct (march_of_day (s / 86400 + 719468)) as (yoe&mp&d&M&E).
    set (era := (s / 86400 + 719468) / 146097) in *.
    destruct (unix_parts era yoe mp d s M Hs E) as (E1&E2&E3&E4&E5&E6&E7). cbv zeta.
    rewrite E1, E2, E3, E4, E5, E6, E7. pose proof (md_mp _ _ _ _ M) as Hm. pose proof (md_day _ _ _ _ M) as Hd.
    rewrite month_length_march by done. destruct (civil_month_range mp Hm) as [Hc _].
    unfold civil_to_unix. rewrite days_from_march, <- E by done. split_and!; try done; try lia; try divs.
  - intros Hh Hmi Hse V. unfold civil_valid in V. destruct (_ || _) eqn:B1; [done|].
    destruct (Z.ltb_spec (month_length year month) day) as [|B2]; [done|].
    rewrite !orb_false_iff, !Z.ltb_ge in B1. destruct B1 as ((((By1&By2)&Bm1)&Bm2)&Bd).
    rewrite !andb_true_iff, !Z.ltb_lt in V. destruct V as [[Vh Vm] Vs].
    destruct (march_of_civil year month day) as (era&yoe&mp&M&Ey&Em); [lia|lia|]. cbv zeta.
    unfold civil_to_unix. rewrite Ey, Em, days_from_march by done.
    set (z := day_number era yoe mp day). destruct (march_bounds era yoe mp day M) as [_ B].
    set (t := (z - 719468) * 86400 + hour * 3600 + minute * 60 + second).
    assert (t / 86400 = z - 719468) as Et by (subst t; divs).
    pose proof (md_yoe _ _ _ _ M) as Hy.
    assert (719468 ≤ z < 769142) as Hz by (apply (system_days era yoe mp day M); lia).
    destruct (unix_parts era yoe mp day t M) as (E1&E2&E3&E4&E5&E6&_).
    { unfold in_range. change (2 ^ 55) with 36028797018963968. subst t. lia. }
    { rewrite Et. lia. }
    rewrite E1, E2, E3, E4, E5, E6. split_and!; try done.
    + unfold is_u32. change (2 ^ 32) with 4294967296. subst t. lia.
    + subst t. divs.
    + subst t. divs.
    + subst t. divs.
Qed.

(** The leap day of 2000, at 12:34:56, and a second before 1970. *)
Lemma civil_roundtrip_witness :
  in_range (-1) ∧ unix_to_civil (civil_to_unix 2000 2 29 12 34 56) = CivilTime 2000 2 29 12 34 56 2 59 ∧
  civil_to_unix 1969 12 31 23 59 59 = -1 ∧ ct_weekday (unix_to_civil (-1)) = 3.
Proof.
  assert (in_range (-1)) as R by (split; discriminate).
  destruct (civil_roundtrip (-1) 2000 2 29 12 34 56 R) as [A B].
  destruct B as (_&B&_); [discriminate|discriminate|discriminate|reflexivity|].
  destruct A as (A&_&_&_&_&_&W). cbv zeta in A, W, B. split; [exact R|]. split.
  { vm_compute. reflexivity. }
  split; [exact A|exact W].
Defined.
