(* ===== verification/Tty.v ===== *)
(** * The terminal (src/src/kernel/tty/tty.c)

    The input queue of the raw mode, the terminal modes and their owner, and the
    blocking read with its minimum and timeout.  The lock is held for whole
    operations.  The keyboard is not modelled: what [keyboard_poll] feeds in a
    round of the read is the list of the calls it makes here; an operation that
    calls [keyboard_flush_legacy] says so in its result. *)

From S2P Require Import Prelude Errno Ring.

(** [src/kernel/tty/tty.c:11-11] TTY_BUFFER *)
Definition TTY_BUFFER : Z := 512.
(** [src/kernel/tty/tty.c:12-12] TTY_DEFAULT_COLUMNS *)
Definition TTY_DEFAULT_COLUMNS : Z := 80.
(** [src/kernel/tty/tty.c:13-13] TTY_DEFAULT_ROWS *)
Definition TTY_DEFAULT_ROWS : Z := 24.
(** [src/kernel/tty/tty.c:14-14] TTY_DECISECOND_MS *)
Definition TTY_DECISECOND_MS : Z := 100.
(** [src/kernel/tty/tty.c:43-43] TTY_LATENCY_REPORT_MS *)
Definition TTY_LATENCY_REPORT_MS : Z := 20.
(** [src/kernel/tty/tty.c:44-44] TTY_LATENCY_REPORT_LIMIT *)
Definition TTY_LATENCY_REPORT_LIMIT : Z := 64.
(** [src/kernel/tty/tty.h:6-6] TTY_NCCS *)
Definition TTY_NCCS : Z := 32.
(** [src/kernel/tty/tty.h:8-8] TTY_IFLAG_ISTRIP *)
Definition TTY_IFLAG_ISTRIP : Z := 32.
(** [src/kernel/tty/tty.h:9-9] TTY_IFLAG_INLCR *)
Definition TTY_IFLAG_INLCR : Z := 64.
(** [src/kernel/tty/tty.h:10-10] TTY_IFLAG_IGNCR *)
Definition TTY_IFLAG_IGNCR : Z := 128.
(** [src/kernel/tty/tty.h:11-11] TTY_IFLAG_ICRNL *)
Definition TTY_IFLAG_ICRNL : Z := 256.
(** [src/kernel/tty/tty.h:12-12] TTY_IFLAG_IXON *)
Definition TTY_IFLAG_IXON : Z := 1024.
(** [src/kernel/tty/tty.h:13-13] TTY_OFLAG_OPOST *)
Definition TTY_OFLAG_OPOST : Z := 1.
(** [src/kernel/tty/tty.h:14-14] TTY_OFLAG_ONLCR *)
Definition TTY_OFLAG_ONLCR : Z := 4.
(** [src/kernel/tty/tty.h:15-15] TTY_CFLAG_CS8 *)
Definition TTY_CFLAG_CS8 : Z := 48.
(** [src/kernel/tty/tty.h:16-16] TTY_CFLAG_CREAD *)
Definition TTY_CFLAG_CREAD : Z := 128.
(** [src/kernel/tty/tty.h:17-17] TTY_CFLAG_B38400 *)
Definition TTY_CFLAG_B38400 : Z := 15.
(** [src/kernel/tty/tty.h:18-18] TTY_LFLAG_ISIG *)
Definition TTY_LFLAG_ISIG : Z := 1.
(** [src/kernel/tty/tty.h:19-19] TTY_LFLAG_ICANON *)
Definition TTY_LFLAG_ICANON : Z := 2.
(** [src/kernel/tty/tty.h:20-20] TTY_LFLAG_ECHO *)
Definition TTY_LFLAG_ECHO : Z := 8.
(** [src/kernel/tty/tty.h:21-21] TTY_LFLAG_ECHOE *)
Definition TTY_LFLAG_ECHOE : Z := 16.
(** [src/kernel/tty/tty.h:22-22] TTY_LFLAG_ECHOK *)
Definition TTY_LFLAG_ECHOK : Z := 32.
(** [src/kernel/tty/tty.h:23-23] TTY_LFLAG_ECHOCTL *)
Definition TTY_LFLAG_ECHOCTL : Z := 512.
(** [src/kernel/tty/tty.h:24-24] TTY_LFLAG_ECHOKE *)
Definition TTY_LFLAG_ECHOKE : Z := 2048.
(** [src/kernel/tty/tty.h:25-25] TTY_LFLAG_IEXTEN *)
Definition TTY_LFLAG_IEXTEN : Z := 32768.
(** [src/kernel/tty/tty.h:32-32] TTY_VTIME *)
Definition TTY_VTIME : Z := 5.
(** [src/kernel/tty/tty.h:33-33] TTY_VMIN *)
Definition TTY_VMIN : Z := 6.

(** A flag of a word is set. *)
Definition flag (word bit : Z) : bool := negb (Z.land word bit =? 0).

(** [src/kernel/tty/tty.h:38-46] tty_termios *)
Record tty_termios := Termios {
  iflag : Z; oflag : Z; cflag : Z; lflag : Z; cc : list Z; ispeed : Z; ospeed : Z;
}.
#[export] Instance tty_termios_eq_dec : EqDecision tty_termios.
Proof. solve_decision. Defined.

(** [src/kernel/tty/tty.h:48-53] tty_winsize *)
Record tty_winsize := Winsize { ws_rows : Z; ws_columns : Z; ws_xpixel : Z; ws_ypixel : Z }.

(** INTR, QUIT, ERASE, KILL, EOF, TIME, MIN, START, STOP and SUSP.
    [src/kernel/tty/tty.c:18-29] TTY_DEFAULTS *)
Definition default_termios : tty_termios :=
  Termios (Z.lor TTY_IFLAG_ICRNL TTY_IFLAG_IXON) (Z.lor TTY_OFLAG_OPOST TTY_OFLAG_ONLCR)
    (Z.lor (Z.lor TTY_CFLAG_CS8 TTY_CFLAG_CREAD) TTY_CFLAG_B38400)
    (foldl Z.lor TTY_LFLAG_ISIG [TTY_LFLAG_ICANON; TTY_LFLAG_ECHO; TTY_LFLAG_ECHOE; TTY_LFLAG_ECHOK;
                                 TTY_LFLAG_ECHOCTL; TTY_LFLAG_ECHOKE; TTY_LFLAG_IEXTEN])
    ([3; 28; 127; 21; 4; 0; 1; 0; 17; 19; 26] ++ replicate 21 0) TTY_CFLAG_B38400 TTY_CFLAG_B38400.

(** [src/kernel/tty/tty.c:31-41] current *)
Record tty := Tty {
  current : tty_termios;
  input : gmap Z Z;
  input_head : Z;
  input_count : Z;
  application_cursor : bool;
  owner_pid : Z;
  first_feed_tick : Z;
  latency_reports : Z;
}.
#[export] Instance eta_tty : Eta tty := λ t,
  Tty (current t) (input t) (input_head t) (input_count t) (application_cursor t) (owner_pid t)
    (first_feed_tick t) (latency_reports t).
Definition tty_init : tty := Tty default_termios ∅ 0 0 false 0 0 0.

(** [src/kernel/tty/tty.c:46-46] raw_locked *)
Definition raw_locked (t : tty) : bool := negb (flag (lflag (current t)) TTY_LFLAG_ICANON).

(** [ticks] is [timer_ticks()].
    [src/kernel/tty/tty.c:48-56] push_locked *)
Definition push_locked (ticks byte : Z) (t : tty) : tty :=
  if TTY_BUFFER <=? input_count t then t else
  let t := if input_count t =? 0 then t <| first_feed_tick := ticks |> else t in
  t <| input := <[(input_head t + input_count t) mod TTY_BUFFER := byte]> (input t) |>
    <| input_count := input_count t + 1 |>.

(** [src/kernel/tty/tty.c:58-62] push_text_locked *)
Fixpoint push_text_locked (ticks : Z) (text : list Z) (t : tty) : tty :=
  match text with
  | [] => t
  | c :: text' => push_text_locked ticks text' (push_locked ticks (u8 c) t)
  end.

(** [src/kernel/tty/tty.c:64-72] pop_locked *)
Definition pop_locked (t : tty) : option Z * tty :=
  if input_count t =? 0 then (None, t) else
  (Some (cell (input t) (input_head t)),
   t <| input_head := (input_head t + 1) mod TTY_BUFFER |> <| input_count := input_count t - 1 |>).

(** The structure has no padding: the bytes are the fields.
    [src/kernel/tty/tty.c:74-84] is_default_locked *)
Definition is_default_locked (t : tty) : bool := bool_decide (current t = default_termios).

(** [src/kernel/tty/tty.c:86-92] tty_raw_mode *)
Definition tty_raw_mode (t : tty) : bool := raw_locked t.

(** [src/kernel/tty/tty.c:94-101] tty_output_nl_cr *)
Definition tty_output_nl_cr (t : tty) : bool :=
  flag (oflag (current t)) TTY_OFLAG_OPOST && flag (oflag (current t)) TTY_OFLAG_ONLCR.

(** [src/kernel/tty/tty.c:103-108] tty_get_termios *)
Definition tty_get_termios (t : tty) : tty_termios := current t.

Definition empty_input (t : tty) : tty := t <| input_head := 0 |> <| input_count := 0 |>.

(** The new state, and whether the old keyboard queue is flushed.
    [src/kernel/tty/tty.c:110-127] tty_set_termios *)
Definition tty_set_termios (mode : tty_termios) (flush : bool) (pid : Z) (t : tty) : tty * bool :=
  let was_raw := raw_locked t in
  let t := t <| current := mode |> in
  let now_raw := raw_locked t in
  let t := t <| owner_pid := if is_default_locked t then 0 else pid |> in
  let t := if flush || negb (eqb was_raw now_raw) then empty_input t else t in
  let t := if negb now_raw then t <| application_cursor := false |> else t in
  (t, was_raw && negb now_raw).

(** [size] is what [gop_console_get_size] gives.
    [src/kernel/tty/tty.c:129-144] tty_get_winsize *)
Definition tty_get_winsize (size : option (Z * Z * Z * Z)) : tty_winsize :=
  let '(columns, rows, xpixel, ypixel) :=
    match size with
    | Some (c, r, x, y) =>
        if (c =? 0) || (r =? 0) then (TTY_DEFAULT_COLUMNS, TTY_DEFAULT_ROWS, 0, 0) else (c, r, x, y)
    | None => (TTY_DEFAULT_COLUMNS, TTY_DEFAULT_ROWS, 0, 0)
    end in
  Winsize (u16 rows) (u16 columns) (u16 xpixel) (u16 ypixel).

(** [src/kernel/tty/tty.c:146-151] tty_set_application_cursor *)
Definition tty_set_application_cursor (enable : bool) (t : tty) : tty := t <| application_cursor := enable |>.

(** [src/kernel/tty/tty.c:153-159] tty_feed_char *)
Definition tty_feed_char (ticks character : Z) (t : tty) : tty :=
  if raw_locked t then push_locked ticks (if character =? 10 then 13 else u8 character) t else t.

(** [src/kernel/tty/tty.c:161-167] tty_feed_sequence *)
Definition tty_feed_sequence (ticks : Z) (text : list Z) (t : tty) : tty :=
  if raw_locked t then push_text_locked ticks text t else t.

(** [src/kernel/tty/tty.c:169-169] tty_inject *)
Definition tty_inject (ticks : Z) (text : list Z) (t : tty) : tty := tty_feed_sequence ticks text t.

(** [src/drivers/input/keyboard.h:6-19] keyboard_special_key *)
Inductive keyboard_special_key :=
| KEYBOARD_SPECIAL_F1 | KEYBOARD_SPECIAL_F2 | KEYBOARD_SPECIAL_F3 | KEYBOARD_SPECIAL_HOME
| KEYBOARD_SPECIAL_END | KEYBOARD_SPECIAL_PAGE_UP | KEYBOARD_SPECIAL_PAGE_DOWN | KEYBOARD_SPECIAL_LEFT
| KEYBOARD_SPECIAL_RIGHT | KEYBOARD_SPECIAL_UP | KEYBOARD_SPECIAL_DOWN | KEYBOARD_SPECIAL_DELETE.

(** The key of a code; the [uint8_t] may be none of them. *)
Definition special_of_code (code : Z) : option keyboard_special_key :=
  nth (Z.to_nat code)
    [None; Some KEYBOARD_SPECIAL_F1; Some KEYBOARD_SPECIAL_F2; Some KEYBOARD_SPECIAL_F3;
     Some KEYBOARD_SPECIAL_HOME; Some KEYBOARD_SPECIAL_END; Some KEYBOARD_SPECIAL_PAGE_UP;
     Some KEYBOARD_SPECIAL_PAGE_DOWN; Some KEYBOARD_SPECIAL_LEFT; Some KEYBOARD_SPECIAL_RIGHT;
     Some KEYBOARD_SPECIAL_UP; Some KEYBOARD_SPECIAL_DOWN; Some KEYBOARD_SPECIAL_DELETE] None.

(** ESC O or ESC [[], and the letter. *)
Definition cursor_key (application : bool) (letter : Z) : list Z := [27; if application then 79 else 91; letter].

(** [src/kernel/tty/tty.c:177-217] tty_feed_special *)
Definition special_sequence (application : bool) (key : keyboard_special_key) : list Z :=
  match key with
  | KEYBOARD_SPECIAL_F1 => [27; 79; 80]
  | KEYBOARD_SPECIAL_F2 => [27; 79; 81]
  | KEYBOARD_SPECIAL_F3 => [27; 79; 82]
  | KEYBOARD_SPECIAL_HOME => cursor_key application 72
  | KEYBOARD_SPECIAL_END => cursor_key application 70
  | KEYBOARD_SPECIAL_PAGE_UP => [27; 91; 53; 126]
  | KEYBOARD_SPECIAL_PAGE_DOWN => [27; 91; 54; 126]
  | KEYBOARD_SPECIAL_LEFT => cursor_key application 68
  | KEYBOARD_SPECIAL_RIGHT => cursor_key application 67
  | KEYBOARD_SPECIAL_UP => cursor_key application 65
  | KEYBOARD_SPECIAL_DOWN => cursor_key application 66
  | KEYBOARD_SPECIAL_DELETE => [27; 91; 51; 126]
  end.

(** [src/kernel/tty/tty.c:171-222] tty_feed_special *)
Definition tty_feed_special (ticks key : Z) (t : tty) : tty :=
  if raw_locked t then
    match special_of_code key with
    | Some k => push_text_locked ticks (special_sequence (application_cursor t) k) t
    | None => t
    end
  else t.

(** [src/kernel/tty/tty.c:224-230] tty_flush_input *)
Definition tty_flush_input (t : tty) : tty := empty_input t.

(** [poll] is what [keyboard_poll] does to the terminal.
    [src/kernel/tty/tty.c:232-239] tty_pending *)
Definition tty_pending (poll : tty → tty) (t : tty) : Z * tty := let t := poll t in (input_count t, t).

(** [has_key] is [keyboard_has_key()].
    [src/kernel/tty/tty.c:241-246] tty_input_ready *)
Definition tty_input_ready (poll : tty → tty) (has_key : bool) (t : tty) : bool * tty :=
  if negb (tty_raw_mode t) then (has_key, t)
  else let '(n, t) := tty_pending poll t in (negb (n =? 0), t).

(** [None] when the byte is dropped.
    [src/kernel/tty/tty.c:248-264] translate_input *)
Definition translate_input (flags byte : Z) : option Z :=
  let byte := if flag flags TTY_IFLAG_ISTRIP then Z.land byte 127 else byte in
  if byte =? 13 then
    if flag flags TTY_IFLAG_IGNCR then None
    else Some (if flag flags TTY_IFLAG_ICRNL then 10 else byte)
  else Some (if (byte =? 10) && flag flags TTY_IFLAG_INLCR then 13 else byte).

(** The loop that takes bytes from the queue; [out] is what has been written to
    the buffer and its length is [got].  [took] is the tick of the last byte.
    Each round takes a byte from the queue, so that [TTY_BUFFER + 1] rounds are
    enough.
    [src/kernel/tty/tty.c:285-291] tty_read *)
Fixpoint drain (fuel : nat) (flags count took : Z) (out : list Z) (last : Z) (t : tty)
    : option (list Z * Z * tty) :=
  match fuel with
  | O => None
  | S fuel' =>
      if negb (Z.of_nat (length out) <? count) then Some (out, last, t) else
      match pop_locked t with
      | (None, t) => Some (out, last, t)
      | (Some byte, t) =>
          match translate_input flags byte with
          | None => drain fuel' flags count took out last t
          | Some b => drain fuel' flags count took (out ++ [b]) took t
          end
      end
  end.
Definition drain_fuel : nat := 513.

(** One round of the read: what the keyboard and everybody else does to the
    terminal since the last one, and between the reading of the mode and the
    taking of the lock; the tick while the bytes are taken, the tick after it,
    and whether a signal is pending. *)
Record tty_round := TtyRound {
  r_poll : tty → tty; r_between : tty → tty; r_took : Z; r_now : Z; r_signal : bool;
}.

(** What a round decides.
    [src/kernel/tty/tty.c:301-325] tty_read *)
Definition read_decision (mode : tty_termios) (count got started last now : Z) (signal : bool) : option Z :=
  let minimum := aget 0 (cc mode) TTY_VMIN in
  let timeout_ms := u32 (aget 0 (cc mode) TTY_VTIME * TTY_DECISECOND_MS) in
  let interrupted := if signal then Some (if negb (got =? 0) then got else - KERR_INTR) else None in
  if count <=? got then Some got
  else if (minimum =? 0) && (timeout_ms =? 0) then Some got
  else if negb (minimum =? 0) && (timeout_ms =? 0) then
    if minimum <=? got then Some got else interrupted
  else if minimum =? 0 then
    if negb (got =? 0) then Some got
    else if timeout_ms <=? u64 (now - started) then Some 0 else interrupted
  else
    if minimum <=? got then Some got
    else if negb (got =? 0) && (timeout_ms <=? u64 (now - last)) then Some got else interrupted.

(** [src/kernel/tty/tty.c:294-300] tty_read *)
Definition report_latency (had_input : bool) (fed_at now : Z) (t : tty) : tty :=
  if had_input && (TTY_LATENCY_REPORT_MS <=? u64 (now - fed_at)) &&
     (latency_reports t <? TTY_LATENCY_REPORT_LIMIT)
  then t <| latency_reports := latency_reports t + 1 |> else t.

(** The rounds; [None] when the schedule ends before the read returns.  The
    result comes with the bytes written to the buffer.
    [src/kernel/tty/tty.c:274-327] tty_read *)
Fixpoint read_rounds (sched : list tty_round) (count started : Z) (out : list Z) (last : Z) (t : tty)
    : option (Z * list Z * tty) :=
  match sched with
  | [] => None
  | r :: sched' =>
      let t := r_poll r t in
      let mode := tty_get_termios t in
      let t := r_between r t in
      let fed_at := first_feed_tick t in
      let had_input := negb (input_count t =? 0) in
      match drain drain_fuel (iflag mode) count (r_took r) out last t with
      | None => None
      | Some (out, last, t) =>
          let t := report_latency had_input fed_at (r_now r) t in
          match read_decision mode count (Z.of_nat (length out)) started last (r_now r) (r_signal r) with
          | Some result => Some (result, out, t)
          | None => read_rounds sched' count started out last t
          end
      end
  end.

(** [src/kernel/tty/tty.c:266-328] tty_read *)
Definition tty_read (sched : list tty_round) (count started : Z) (t : tty) : option (Z * list Z * tty) :=
  if count =? 0 then Some (0, [], t) else read_rounds sched count started [] started t.

(** The new state, and whether the old keyboard queue is flushed.
    [src/kernel/tty/tty.c:330-347] tty_process_exit *)
Definition tty_process_exit (pid : Z) (t : tty) : tty * bool :=
  if negb (owner_pid t =? 0) && (owner_pid t =? pid) then
    let was_raw := raw_locked t in
    (empty_input (t <| current := default_termios |> <| owner_pid := 0 |> <| application_cursor := false |>),
     was_raw)
  else (t, false).

(** ** The queue *)

Record tty_ok (t : tty) : Prop := {
  to_head : 0 ≤ input_head t < TTY_BUFFER;
  to_count : 0 ≤ input_count t ≤ TTY_BUFFER;
}.

(** The bytes that wait, the oldest first. *)
Definition waiting (t : tty) : list Z := ring_contents TTY_BUFFER (input t) (input_head t) (input_count t).

(** What a push adds: nothing when the queue is full. *)
Definition accepted (t : tty) (bytes : list Z) : list Z :=
  take (Z.to_nat (TTY_BUFFER - input_count t)) bytes.

Lemma length_waiting t : tty_ok t → Z.of_nat (length (waiting t)) = input_count t.
Proof. intros W. unfold waiting. rewrite length_ring_contents. pose proof (to_count t W). lia. Qed.

Lemma push_locked_spec ticks byte t : tty_ok t →
  tty_ok (push_locked ticks byte t) ∧ waiting (push_locked ticks byte t) = waiting t ++ accepted t [byte] ∧
  current (push_locked ticks byte t) = current t ∧ owner_pid (push_locked ticks byte t) = owner_pid t.
Proof.
  intros W. pose proof (to_head t W). pose proof (to_count t W) as C. unfold push_locked, accepted.
  destruct (Z.leb_spec TTY_BUFFER (input_count t)).
  { replace (Z.to_nat (TTY_BUFFER - input_count t)) with 0%nat by lia. by rewrite app_nil_r. }
  assert (take (Z.to_nat (TTY_BUFFER - input_count t)) [byte] = [byte]) as -> by (apply take_ge; cbn; lia).
  split_and!; try (by destruct (input_count t =? 0)).
  - split; destruct (input_count t =? 0); cbn; lia.
  - pose proof (ring_store_append TTY_BUFFER (input t) (input_head t) (input_count t) [byte]
      ltac:(done) ltac:(lia) ltac:(cbn; lia)) as E.
    unfold waiting. rewrite <- E. by destruct (input_count t =? 0).
Qed.

Lemma push_text_spec ticks text : ∀ t, tty_ok t → Forall is_u8 text →
  tty_ok (push_text_locked ticks text t) ∧
  waiting (push_text_locked ticks text t) = waiting t ++ accepted t text ∧
  current (push_text_locked ticks text t) = current t ∧ owner_pid (push_text_locked ticks text t) = owner_pid t.
Proof.
  induction text as [|c text IH]; intros t W Hu; cbn [push_text_locked].
  { unfold accepted. rewrite take_nil, app_nil_r. done. }
  inversion Hu as [|? ? Hc Hu']; subst. rewrite (u8_small c) by exact Hc.
  destruct (push_locked_spec ticks c t W) as (W'&E&Ec&Eo).
  destruct (IH _ W' Hu') as (W2&E2&Ec2&Eo2). split; [done|]. rewrite E2, E, Ec2, Eo2, Ec, Eo. split; [|done].
  rewrite <- app_assoc. f_equal. pose proof (length_waiting t W) as L. pose proof (length_waiting _ W') as L'.
  rewrite E, length_app in L'. unfold accepted in *. pose proof (to_count t W).
  destruct (Z.to_nat (TTY_BUFFER - input_count t)) as [|n] eqn:En.
  - cbn [take] in *. cbn [length] in L'.
    replace (Z.to_nat (TTY_BUFFER - input_count (push_locked ticks c t))) with 0%nat by lia. done.
  - cbn [take] in *. rewrite take_nil in L' |- *. cbn [length app] in *.
    replace (Z.to_nat (TTY_BUFFER - input_count (push_locked ticks c t))) with n by lia. done.
Qed.

Lemma pop_locked_spec t : tty_ok t →
  match pop_locked t with
  | (None, t') => waiting t = [] ∧ t' = t
  | (Some b, t') => waiting t = b :: waiting t' ∧ tty_ok t' ∧ current t' = current t ∧
                    input_count t' = input_count t - 1 ∧ owner_pid t' = owner_pid t
  end.
Proof.
  intros W. pose proof (to_head t W). pose proof (to_count t W). unfold pop_locked, waiting.
  destruct (Z.eqb_spec (input_count t) 0) as [E|E]; [by rewrite E|]. split_and!; try done.
  - rewrite ring_contents_cons by lia. rewrite Z.mod_small by lia. f_equal. symmetry.
    apply (ring_contents_mod TTY_BUFFER). done.
  - split; cbn; [apply Z.mod_pos_bound; done|lia].
Qed.

(** What the loop of the read takes off the queue. *)
Lemma drain_spec flags count took fuel : ∀ out last t, tty_ok t → input_count t < Z.of_nat fuel →
  ∃ used last' t', drain fuel flags count took out last t =
      Some (out ++ omap (translate_input flags) used, last', t') ∧
    waiting t = used ++ waiting t' ∧ tty_ok t' ∧ current t' = current t ∧
    (Z.of_nat (length out) ≤ count →
       Z.of_nat (length (out ++ omap (translate_input flags) used)) ≤ count) ∧
    (waiting t' = [] ∨ count ≤ Z.of_nat (length (out ++ omap (translate_input flags) used))).
Proof.
  induction fuel as [|fuel IH]; intros out last t W Hf; [pose proof (to_count t W); lia|]. cbn [drain].
  destruct (Z.ltb_spec (Z.of_nat (length out)) count) as [L|L]; cbn [negb].
  2:{ exists [], last, t. cbn [omap list_omap]. rewrite app_nil_r. split_and!; try done. by right. }
  pose proof (pop_locked_spec t W) as P. destruct (pop_locked t) as [[b|] t1].
  - destruct P as (Ew&W1&Ec&En&_).
    destruct (translate_input flags b) as [c|] eqn:Et.
    + destruct (IH (out ++ [c]) took t1 W1 ltac:(lia)) as (used&last'&t'&E&Ewt&W'&Ec'&Hl&Hd).
      exists (b :: used), last', t'. cbn [omap list_omap]. rewrite Et. rewrite <- app_assoc in E, Hl, Hd.
      cbn [app] in *. split_and!; try done; [by rewrite Ew, Ewt|congruence|].
      intros _. apply Hl. rewrite length_app. cbn [length]. lia.
    + destruct (IH out last t1 W1 ltac:(lia)) as (used&last'&t'&E&Ewt&W'&Ec'&Hl&Hd).
      exists (b :: used), last', t'. cbn [omap list_omap]. rewrite Et.
      split_and!; try done; [by rewrite Ew, Ewt|congruence].
  - destruct P as [Ew ->]. exists [], last, t. cbn [omap list_omap]. rewrite app_nil_r. split_and!; try done. by left.
Qed.

Lemma drain_total flags count took out last t : tty_ok t →
  ∃ used last' t', drain drain_fuel flags count took out last t =
      Some (out ++ omap (translate_input flags) used, last', t') ∧
    waiting t = used ++ waiting t' ∧ tty_ok t' ∧ current t' = current t ∧
    (Z.of_nat (length out) ≤ count →
       Z.of_nat (length (out ++ omap (translate_input flags) used)) ≤ count) ∧
    (waiting t' = [] ∨ count ≤ Z.of_nat (length (out ++ omap (translate_input flags) used))).
Proof. intros W. apply drain_spec; [done|]. pose proof (to_count t W). unfold drain_fuel, TTY_BUFFER in *. lia. Qed.

Lemma report_spec had fed now t : tty_ok t → tty_ok (report_latency had fed now t) ∧
  waiting (report_latency had fed now t) = waiting t ∧ current (report_latency had fed now t) = current t.
Proof. intros W. unfold report_latency. destruct (_ && _); [|done]. split; [|done]. split; apply W. Qed.

(** ** What is fed to the terminal *)

Inductive feed :=
| FeedChar (ticks character : Z)
| FeedSequence (ticks : Z) (text : list Z)
| FeedSpecial (ticks key : Z)
| FeedCursor (enable : bool).

Definition feed_exec (f : feed) (t : tty) : tty :=
  match f with
  | FeedChar k c => tty_feed_char k c t
  | FeedSequence k text => tty_feed_sequence k text t
  | FeedSpecial k key => tty_feed_special k key t
  | FeedCursor b => tty_set_application_cursor b t
  end.

(** The bytes of a key, in raw mode. *)
Definition feed_bytes (f : feed) (t : tty) : list Z :=
  if raw_locked t then
    match f with
    | FeedChar _ c => [if c =? 10 then 13 else u8 c]
    | FeedSequence _ text => text
    | FeedSpecial _ key => match special_of_code key with
                           | Some k => special_sequence (application_cursor t) k | None => [] end
    | FeedCursor _ => []
    end
  else [].

Definition feed_ok (f : feed) : Prop :=
  match f with FeedSequence _ text => Forall is_u8 text | _ => True end.

Definition feeds_exec (fs : list feed) (t : tty) : tty := foldl (λ t f, feed_exec f t) t fs.
(** The bytes that find room. *)
Fixpoint feeds_bytes (fs : list feed) (t : tty) : list Z :=
  match fs with
  | [] => []
  | f :: fs' => accepted t (feed_bytes f t) ++ feeds_bytes fs' (feed_exec f t)
  end.

Lemma special_sequence_u8 a k : Forall is_u8 (special_sequence a k).
Proof. destruct a, k; repeat (apply Forall_cons; split; [by split|]); apply Forall_nil_2. Qed.

Lemma accepted_nil t : accepted t [] = [].
Proof. apply take_nil. Qed.

Lemma feed_spec f t : tty_ok t → feed_ok f → tty_ok (feed_exec f t) ∧
  waiting (feed_exec f t) = waiting t ++ accepted t (feed_bytes f t) ∧ current (feed_exec f t) = current t.
Proof.
  intros W Hf. destruct f as [k c|k text|k key|b]; cbn [feed_exec]; unfold feed_bytes.
  - unfold tty_feed_char. destruct (raw_locked t); [|by rewrite accepted_nil, app_nil_r].
    destruct (push_locked_spec k (if c =? 10 then 13 else u8 c) t W) as (?&?&?&_). done.
  - unfold tty_feed_sequence. destruct (raw_locked t); [|by rewrite accepted_nil, app_nil_r].
    destruct (push_text_spec k text t W Hf) as (?&?&?&_). done.
  - unfold tty_feed_special. destruct (raw_locked t); [|by rewrite accepted_nil, app_nil_r].
    destruct (special_of_code key) as [sk|]; [|by rewrite accepted_nil, app_nil_r].
    destruct (push_text_spec k _ t W (special_sequence_u8 (application_cursor t) sk)) as (?&?&?&_). done.
  - destruct (raw_locked t); rewrite accepted_nil, app_nil_r; (split; [|done]); split; apply W.
Qed.

Lemma feeds_spec fs : ∀ t, tty_ok t → Forall feed_ok fs → tty_ok (feeds_exec fs t) ∧
  waiting (feeds_exec fs t) = waiting t ++ feeds_bytes fs t ∧ current (feeds_exec fs t) = current t.
Proof.
  induction fs as [|f fs IH]; intros t W Hf; [split_and!; [done|by rewrite app_nil_r|done]|].
  inversion Hf as [|? ? Hf1 Hfs]; subst. destruct (feed_spec f t W Hf1) as (W1&E1&C1).
  destruct (IH _ W1 Hfs) as (W2&E2&C2). unfold feeds_exec in *. cbn [foldl feeds_bytes]. split_and!; [done| |congruence].
  by rewrite E2, E1, <- app_assoc.
Qed.

(** A round in which keys are typed and nobody else uses the terminal. *)
Record typing := Typing { ty_poll : list feed; ty_between : list feed; ty_took : Z; ty_now : Z; ty_signal : bool }.
Definition typing_round (y : typing) : tty_round :=
  TtyRound (feeds_exec (ty_poll y)) (feeds_exec (ty_between y)) (ty_took y) (ty_now y) (ty_signal y).
Definition typing_ok (y : typing) : Prop := Forall feed_ok (ty_poll y) ∧ Forall feed_ok (ty_between y).

(** The bytes typed while the read runs. *)
Fixpoint typed (ys : list typing) (count started : Z) (out : list Z) (last : Z) (t : tty) : list Z :=
  match ys with
  | [] => []
  | y :: ys' =>
      let mode := current t in
      let t1 := feeds_exec (ty_poll y) t in
      let t2 := feeds_exec (ty_between y) t1 in
      feeds_bytes (ty_poll y) t ++ feeds_bytes (ty_between y) t1 ++
      match drain drain_fuel (iflag mode) count (ty_took y) out last t2 with
      | None => []
      | Some (out, last, t3) =>
          match read_decision mode count (Z.of_nat (length out)) started last (ty_now y) (ty_signal y) with
          | Some _ => []
          | None => typed ys' count started out last
                      (report_latency (negb (input_count t2 =? 0)) (first_feed_tick t2) (ty_now y) t3)
          end
      end
  end.

#[local] Opaque drain read_decision report_latency.
Lemma read_fifo count started ys : ∀ out last t result out' t', tty_ok t → Forall typing_ok ys →
  read_rounds (map typing_round ys) count started out last t = Some (result, out', t') →
  tty_ok t' ∧ current t' = current t ∧ ∃ used,
    waiting t ++ typed ys count started out last t = used ++ waiting t' ∧
    out' = out ++ omap (translate_input (iflag (current t))) used.
Proof.
  induction ys as [|y ys IH]; intros out last t result out' t' W Hy E; [done|].
  inversion Hy as [|? ? [Hp Hb] Hys]; subst. cbn [map read_rounds typed] in *.
  unfold tty_get_termios in E. cbn [r_poll r_between r_took r_now r_signal typing_round] in E.
  destruct (feeds_spec (ty_poll y) t W Hp) as (W1&E1&C1). set (t1 := feeds_exec (ty_poll y) t) in *.
  destruct (feeds_spec (ty_between y) t1 W1 Hb) as (W2&E2&C2). set (t2 := feeds_exec (ty_between y) t1) in *.
  rewrite C1 in E. cbv zeta in *.
  destruct (drain_total (iflag (current t)) count (ty_took y) out last t2 W2) as (used&last'&t3&Ed&Ew&W3&C3&_&_).
  rewrite Ed in *. set (out1 := out ++ omap (translate_input (iflag (current t))) used) in *.
  destruct (report_spec (negb (input_count t2 =? 0)) (first_feed_tick t2) (ty_now y) t3 W3) as (W4&Ew4&C4).
  set (t4 := report_latency _ _ _ t3) in *.
  destruct (read_decision _ _ _ _ _ _ _) as [r|].
  - injection E as -> <- <-. split; [done|]. split; [congruence|]. exists used. split; [|done].
    rewrite app_nil_r, Ew4, <- Ew, E2, E1, <- app_assoc. done.
  - destruct (IH out1 last' t4 result out' t' W4 Hys E) as (W'&C'&used'&Eu&Eo).
    assert (current t4 = current t) as Cc by congruence. rewrite Cc in *.
    split; [done|]. split; [congruence|]. exists (used ++ used'). split.
    + rewrite <- (app_assoc used), <- Eu, Ew4. rewrite (app_assoc used), <- Ew, E2, E1.
      by rewrite <- !app_assoc.
    + rewrite Eo. unfold out1. by rewrite omap_app, <- app_assoc.
Qed.

#[local] Transparent drain read_decision report_latency.

(** ** When the read waits *)

(** The rule of the minimum and the timeout: with a minimum the read waits for
    that many bytes, and after the first byte not longer than the timeout after
    the last one; without a minimum it waits for one byte, at most the timeout. *)
Definition must_wait (mode : tty_termios) (count got started last now : Z) : bool :=
  let minimum := aget 0 (cc mode) TTY_VMIN in
  let timeout := aget 0 (cc mode) TTY_VTIME * TTY_DECISECOND_MS in
  (got <? count) &&
  if minimum =? 0
  then (got =? 0) && negb (timeout =? 0) && (u64 (now - started) <? timeout)
  else (got <? minimum) && ((timeout =? 0) || (got =? 0) || (u64 (now - last) <? timeout)).

Lemma decision_spec mode count got started last now signal :
  is_u8 (aget 0 (cc mode) TTY_VTIME) → 0 ≤ got → 0 ≤ aget 0 (cc mode) TTY_VMIN →
  read_decision mode count got started last now signal =
    if must_wait mode count got started last now
    then if signal then Some (if got =? 0 then - KERR_INTR else got) else None
    else Some got.
Proof.
  intros [T0 T1] Hg Hm. unfold read_decision, must_wait. cbv zeta.
  rewrite (u32_small (aget 0 (cc mode) TTY_VTIME * TTY_DECISECOND_MS)) by (unfold TTY_DECISECOND_MS; lia).
  set (m := aget 0 (cc mode) TTY_VMIN) in *. set (tm := aget 0 (cc mode) TTY_VTIME * TTY_DECISECOND_MS).
  generalize (u64 (now - started)) (u64 (now - last)). intros e1 e2.
  destruct (Z.leb_spec count got), (Z.ltb_spec got count); try lia; [done|]. cbn [andb].
  destruct (Z.eqb_spec m 0) as [M|M].
  - rewrite M. destruct (Z.eqb_spec tm 0); cbn [andb negb].
    + by rewrite andb_false_r.
    + destruct (Z.eqb_spec got 0) as [->|G]; cbn [andb negb]; [|done].
      destruct (Z.leb_spec tm e1), (Z.ltb_spec e1 tm); try lia; done.
  - cbn [andb negb]. destruct (Z.eqb_spec tm 0); cbn [andb negb orb].
    + destruct (Z.leb_spec m got), (Z.ltb_spec got m); try lia; [done|]. destruct signal; [|done]. by destruct (got =? 0).
    + destruct (Z.leb_spec m got), (Z.ltb_spec got m); try lia; [done|]. cbn [andb].
      destruct (Z.eqb_spec got 0) as [->|G]; cbn [andb negb orb]; [by destruct signal|].
      destruct (Z.leb_spec tm e2), (Z.ltb_spec e2 tm); try lia; [done|]. by destruct signal.
Qed.

(** The terminal with a mode whose two bytes are bytes. *)
Definition tty_valid (t : tty) : Prop :=
  tty_ok t ∧ is_u8 (aget 0 (cc (current t)) TTY_VTIME) ∧ is_u8 (aget 0 (cc (current t)) TTY_VMIN).

(** Whatever others do to the terminal in a round, it stays valid. *)
Definition round_ok (r : tty_round) : Prop :=
  (∀ t, tty_valid t → tty_valid (r_poll r t)) ∧ (∀ t, tty_valid t → tty_valid (r_between r t)).

#[local] Opaque drain report_latency.
Lemma read_rounds_result count started sched : ∀ out last t, tty_valid t → Forall round_ok sched →
  0 ≤ count → Z.of_nat (length out) ≤ count →
  match read_rounds sched count started out last t with
  | Some (res, out', t') => tty_valid t' ∧ Z.of_nat (length out') ≤ count ∧
      (res = Z.of_nat (length out') ∨ (res = - KERR_INTR ∧ out' = []))
  | None => ∀ r, r ∈ sched → r_signal r = false
  end.
Proof.
  induction sched as [|r sched IH]; intros out last t V Hs Hc Hl; [by intros r Hr%elem_of_nil|].
  inversion Hs as [|? ? [Hp Hb] Hs']; subst. cbn [read_rounds]. unfold tty_get_termios.
  pose proof (Hp t V) as V1. set (t1 := r_poll r t) in *. pose proof (Hb t1 V1) as V2. set (t2 := r_between r t1) in *.
  destruct V2 as (W2&T2&M2). destruct V1 as (W1&T1&M1).
  destruct (drain_total (iflag (current t1)) count (r_took r) out last t2 W2)
    as (used&last'&t3&Ed&_&W3&C3&Hl3&_). specialize (Hl3 Hl). cbv zeta. rewrite Ed.
  set (out1 := out ++ omap (translate_input (iflag (current t1))) used) in *.
  destruct (report_spec (negb (input_count t2 =? 0)) (first_feed_tick t2) (r_now r) t3 W3) as (W4&_&C4).
  set (t4 := report_latency _ _ _ t3) in *.
  assert (tty_valid t4) as V4 by (split; [done|]; by rewrite C4, C3).
  rewrite decision_spec by (done || apply M1 || lia).
  assert (∀ q : tty_round, r_signal r = false → (∀ x, x ∈ sched → r_signal x = false) → q ∈ r :: sched →
    r_signal q = false) as Cons.
  { intros q Hr Hrest Hq. apply elem_of_cons in Hq as [->|Hq]; [done|]. by apply Hrest. }
  destruct (must_wait _ _ _ _ _ _) eqn:Ew.
  - destruct (r_signal r) eqn:Es.
    + split; [done|]. split; [done|]. destruct (Z.eqb_spec (Z.of_nat (length out1)) 0) as [Z0|]; [|by left].
      right. split; [done|]. apply length_zero_iff_nil. lia.
    + specialize (IH out1 last' t4 V4 Hs' Hc Hl3). destruct (read_rounds _ _ _ _ _ _) as [[[res out'] t']|]; [done|].
      intros q. by apply Cons.
  - split; [done|]. split; [done|]. by left.
Qed.
#[local] Transparent drain report_latency.

Lemma feeds_valid fs t : tty_valid t → Forall feed_ok fs → tty_valid (feeds_exec fs t).
Proof. intros [W V] Hf. destruct (feeds_spec fs t W Hf) as (W'&_&C). split; [done|]. by rewrite C. Qed.

Lemma typing_round_ok y : typing_ok y → round_ok (typing_round y).
Proof. intros [A B]. split; intros t V; by apply feeds_valid. Qed.

(** ** Properties *)

(** C35: a raw read gives the bytes in the order they were typed, each once.
    While nobody else touches the terminal, the bytes in the buffer are the
    translation of a prefix of the bytes that waited followed by the ones
    typed meanwhile (a special key as its escape sequence, a newline as a carriage
    return), and the rest is still waiting, in order; a byte is lost only when 512
    wait already. *)
Theorem tty_read_fifo ys count started t result out t' :
  tty_ok t → Forall typing_ok ys → count ≠ 0 →
  tty_read (map typing_round ys) count started t = Some (result, out, t') →
  ∃ used, waiting t ++ typed ys count started [] started t = used ++ waiting t' ∧
    out = omap (translate_input (iflag (current t))) used ∧ tty_ok t' ∧ current t' = current t.
Proof.
  intros W Hy Hz. unfold tty_read. destruct (Z.eqb_spec count 0); [done|]. intros E.
  destruct (read_fifo count started ys [] started t result out t' W Hy E) as (W'&C'&used&Eu&Eo).
  exists used. done.
Qed.

(** Raw mode with a minimum of 3; "a", the up arrow and a newline are typed in two rounds. *)
Definition demo_raw : tty :=
  (tty_set_termios (Termios TTY_IFLAG_ICRNL 0 0 0 (replicate 6 0 ++ [3] ++ replicate 25 0) 0 0) true 7 tty_init).1.
Definition demo_typing : list typing :=
  [Typing [FeedChar 5 97] [] 5 5 false; Typing [FeedSpecial 6 10] [FeedChar 7 10] 7 7 false].

Lemma tty_read_fifo_witness : ∃ result out t' used,
  tty_read (map typing_round demo_typing) 16 0 demo_raw = Some (result, out, t') ∧
  out = omap (translate_input TTY_IFLAG_ICRNL) used ∧ used = [97; 27; 91; 65; 13] ∧ out = [97; 27; 91; 65; 10].
Proof.
  destruct (tty_read (map typing_round demo_typing) 16 0 demo_raw) as [[[result out] t']|] eqn:E; [|by vm_compute in E].
  exists result, out, t', [97; 27; 91; 65; 13]. split; [reflexivity|].
  destruct (tty_read_fifo demo_typing 16 0 demo_raw result out t') as (used&Eu&Eo&_); [| | |exact E|].
  - by split.
  - apply Forall_forall. unfold demo_typing. intros y Hy.
    repeat (apply elem_of_cons in Hy as [->|Hy]; [split; repeat constructor|]).
    by apply elem_of_nil in Hy.
  - discriminate.
  - assert (waiting t' = [] ∧ out = [97; 27; 91; 65; 10]) as [Et Eout].
    { vm_compute in E. injection E as _ <- <-. split; reflexivity. }
    rewrite Et, app_nil_r in Eu. assert (used = [97; 27; 91; 65; 13]) as -> by (rewrite <- Eu; vm_compute; reflexivity).
    split; [exact Eo|]. split; [reflexivity|exact Eout].
Defined.

(** The read waits exactly as the minimum and timeout of the mode say (the
    rule [must_wait]): a round that need not wait returns the bytes it has, one
    that must is given up only for a signal, with the bytes it has or with
    EINTR and none.  Whatever others do to the terminal meanwhile (keys, changes of
    mode, flushes), the result is the number of bytes written, at most the ones
    asked for, and the read returns as soon as a signal is pending. *)
Theorem tty_read_posix sched count started t mode got last now signal :
  tty_valid t → Forall round_ok sched → 0 ≤ count →
  is_u8 (aget 0 (cc mode) TTY_VTIME) → is_u8 (aget 0 (cc mode) TTY_VMIN) → 0 ≤ got →
  read_decision mode count got started last now signal =
    (if must_wait mode count got started last now
     then if signal then Some (if got =? 0 then - KERR_INTR else got) else None
     else Some got) ∧
  match tty_read sched count started t with
  | Some (res, out, t') => tty_valid t' ∧ Z.of_nat (length out) ≤ count ∧
      (res = Z.of_nat (length out) ∨ (res = - KERR_INTR ∧ out = []))
  | None => ∀ r, r ∈ sched → r_signal r = false
  end.
Proof.
  intros V Hs Hc Ht Hm Hg. split; [apply decision_spec; try done; apply Hm|].
  unfold tty_read. destruct (count =? 0); [split_and!; [done|done|by left]|].
  by apply read_rounds_result.
Qed.

(** An interrupted read without bytes, and one with a byte. *)
Lemma tty_read_posix_witness : ∃ t',
  tty_read (map typing_round [Typing [] [] 5 5 false; Typing [] [] 6 6 true]) 16 0 demo_raw = Some (- KERR_INTR, [], t') ∧
  tty_valid t' ∧ must_wait (current demo_raw) 16 2 0 5 6 = true ∧
  read_decision (current demo_raw) 16 2 0 5 6 true = Some 2.
Proof.
  set (sched := map typing_round [Typing [] [] 5 5 false; Typing [] [] 6 6 true]).
  assert (Forall round_ok sched) as Hs.
  { repeat (apply Forall_cons; split; [by apply typing_round_ok|]). apply Forall_nil_2. }
  destruct (tty_read_posix sched 16 0 demo_raw (current demo_raw) 2 5 6 true) as [D R];
    [by repeat split|exact Hs|lia|by split|by split|lia|].
  destruct (tty_read sched 16 0 demo_raw) as [[[res out] t']|] eqn:E; [|by vm_compute in E].
  assert (res = - KERR_INTR ∧ out = []) as [-> ->] by (vm_compute in E; injection E as <- <- _; split; reflexivity).
  exists t'. split; [reflexivity|]. split; [apply R|]. split; [reflexivity|]. rewrite D. reflexivity.
Defined.
