(* ===== verification/Sync.v ===== *)
(** * Spin locks and mutexes (src/src/kernel/sync/)

    The locks at the level of their atomic accesses, run by any number of
    contexts in any interleaving.  A context is a thread, or a processor that runs
    none; interrupts are off while one is inside a spin lock, so that a context
    is not interrupted by itself.  The sleep or pause between two attempts
    changes nothing.  [holds] counts the calls of [mutex_lock] that have taken
    effect and not been undone: it is not in the code. *)

From stdpp Require Import functions.
From S2P Require Import Prelude.

(** A running context: a thread with its number, or the idle code of a processor. *)
Inductive context := Thread (tid : Z) | Processor (cpu : Z).
#[export] Instance context_eq_dec : EqDecision context.
Proof. solve_decision. Defined.

(** Thread numbers are positive [int]s; there are fewer than 2^32 processors. *)
Definition context_ok (c : context) : Prop :=
  match c with Thread tid => 0 < tid < 2 ^ 31 | Processor cpu => 0 ≤ cpu < 2 ^ 32 end.

(** [scheduler_current_tid()]. *)
Definition current_tid (c : context) : Z := match c with Thread tid => tid | Processor _ => -1 end.
(** [gdt_current_cpu_id()]; the one of a thread is not used. *)
Definition current_cpu (c : context) : Z := match c with Thread _ => 0 | Processor cpu => cpu end.

(** [src/kernel/sync/mutex.c:6-9] caller *)
Definition caller (c : context) : Z :=
  if 0 <? current_tid c then u64 (current_tid c) else u64 (UINT64_MAX - current_cpu c).

(** [src/kernel/sync/spinlock.h:5-8] spinlock_t *)
Record spinlock := Spinlock { value : Z }.
(** [src/kernel/sync/mutex.h:4-8] mutex_t *)
Record mutex := Mutex { lock : spinlock; owner : Z; depth : Z }.
Definition mutex_zero : mutex := Mutex (Spinlock 0) 0 0.

(** The old value of the exchange, and the lock after it.
    [src/kernel/sync/spinlock.h:29-29] spin_lock *)
Definition exchange (l : spinlock) : Z * spinlock := (value l, Spinlock 1).
(** [src/kernel/sync/spinlock.h:35-37] spin_unlock *)
Definition spin_unlock (l : spinlock) : spinlock := Spinlock 0.

(** Under the spin lock: whether the mutex is taken.
    [src/kernel/sync/mutex.c:14-19] mutex_lock *)
Definition try_take (me : Z) (m : mutex) : bool * mutex :=
  if (owner m =? 0) || (owner m =? me) then (true, Mutex (lock m) me (u32 (depth m + 1))) else (false, m).

(** Under the spin lock; [None] is the panic.
    [src/kernel/sync/mutex.c:29-32] mutex_unlock *)
Definition drop_owned (me : Z) (m : mutex) : option mutex :=
  if negb (owner m =? me) || (depth m =? 0) then None
  else let d := depth m - 1 in Some (Mutex (lock m) (if d =? 0 then 0 else owner m) d).

(** Where a context is. *)
Inductive call := Locking | Unlocking.
Inductive place :=
| Outside                             (** in no call *)
| Trying (c : call)                   (** before the exchange *)
| Watching (c : call)                 (** in the loop of loads *)
| Entered (c : call)                  (** the exchange gave 0 *)
| Leaving (again : bool)              (** before the store of 0; [again] after a failed attempt *)
| Panicked.
#[export] Instance call_eq_dec : EqDecision call.
Proof. solve_decision. Defined.
#[export] Instance place_eq_dec : EqDecision place.
Proof. solve_decision. Defined.

Record world := World { mtx : mutex; at_ : context → place; holds : context → nat }.
Definition world_init : world := World mutex_zero (λ _, Outside) (λ _, 0%nat).

Definition with_lock (l : spinlock) (m : mutex) : mutex := Mutex l (owner m) (depth m).

(** What a context may do next: begin a call, or go on with the one it is in. *)
Inductive action := Call (k : call) | Continue.

(** One step of a context; [None] when it cannot make that step.
    [src/kernel/sync/mutex.c:10-26] mutex_lock *)
Definition step (c : context) (a : action) (w : world) : option world :=
  let goto p m h := Some (World m (<[c := p]> (at_ w)) (<[c := h]> (holds w))) in
  let m := mtx w in
  let h := holds w c in
  match a, at_ w c with
  | Call k, Outside => goto (Trying k) m h
  | Continue, Trying k =>
      let '(old, l) := exchange (lock m) in
      goto (if old =? 0 then Entered k else Watching k) (with_lock l m) h
  | Continue, Watching k => goto (if negb (value (lock m) =? 0) then Watching k else Trying k) m h
  | Continue, Entered Locking =>
      let '(taken, m) := try_take (caller c) m in
      goto (Leaving (negb taken)) m (if taken then S h else h)
  | Continue, Entered Unlocking =>
      match drop_owned (caller c) m with
      | None => goto Panicked m h
      | Some m => goto (Leaving false) m (h - 1)%nat
      end
  | Continue, Leaving again =>
      goto (if again then Trying Locking else Outside) (with_lock (spin_unlock (lock m)) m) h
  | _, _ => None
  end.

(** Any interleaving, of contexts that nest a mutex fewer than 2^32 times. *)
Inductive reachable : world → Prop :=
| reach_init : reachable world_init
| reach_step w c a w' : reachable w → context_ok c → step c a w = Some w' →
    Z.of_nat (holds w' c) < 2 ^ 32 → reachable w'.

(** Inside the spin lock. *)
Definition inside (p : place) : bool :=
  match p with Entered _ | Leaving _ | Panicked => true | _ => false end.

(** ** Callers *)

Lemma caller_nonzero c : context_ok c → caller c ≠ 0.
Proof.
  destruct c as [tid|cpu]; cbn; intros H; unfold caller; cbn [current_tid current_cpu].
  - destruct (Z.ltb_spec 0 tid); [|lia]. rewrite u64_small; lia.
  - change (0 <? -1) with false. cbv iota. unfold UINT64_MAX. rewrite u64_small; lia.
Qed.

Lemma caller_inj c d : context_ok c → context_ok d → caller c = caller d → c = d.
Proof.
  intros Hc Hd. unfold caller, UINT64_MAX. destruct c as [t|p], d as [t'|p']; cbn in *;
    repeat match goal with |- context [0 <? ?x] => destruct (Z.ltb_spec 0 x); try lia end;
    rewrite !u64_small by lia; intros E; try lia; f_equal; lia.
Qed.

(** ** The invariant *)

Record sync_ok (w : world) : Prop := {
  (** The spin lock is 1 exactly while somebody is inside it, and then one is. *)
  so_value : value (lock (mtx w)) = 0 ∨ value (lock (mtx w)) = 1;
  so_free : value (lock (mtx w)) = 0 → ∀ c, inside (at_ w c) = false;
  so_inside : value (lock (mtx w)) = 1 → ∃ c, context_ok c ∧ inside (at_ w c) = true;
  so_one : ∀ c d, inside (at_ w c) = true → inside (at_ w d) = true → c = d;
  (** The owner and the depth are those of the one context that holds the mutex. *)
  so_owner : (owner (mtx w) = 0 ∧ depth (mtx w) = 0 ∧ ∀ c, holds w c = 0%nat) ∨
    (∃ c, context_ok c ∧ owner (mtx w) = caller c ∧ (0 < holds w c)%nat ∧
       depth (mtx w) = Z.of_nat (holds w c) ∧ depth (mtx w) < 2 ^ 32 ∧ ∀ d, d ≠ c → holds w d = 0%nat);
  so_ctx : ∀ c, inside (at_ w c) = true → context_ok c;
}.

Lemma at_insert_inside (f : context → place) c p d :
  inside (<[c := p]> f d) = if decide (c = d) then inside p else inside (f d).
Proof. destruct (decide (c = d)) as [->|]; [by rewrite fn_lookup_insert|by rewrite fn_lookup_insert_ne]. Qed.

(** A step that leaves the spin lock alone keeps whether the context is inside. *)
Lemma sync_ok_move w c p m h : sync_ok w → lock m = lock (mtx w) → inside p = inside (at_ w c) →
  context_ok c →
  ((owner m = 0 ∧ depth m = 0 ∧ ∀ d, (<[c := h]> (holds w)) d = 0%nat) ∨
   (∃ d, context_ok d ∧ owner m = caller d ∧ (0 < (<[c := h]> (holds w)) d)%nat ∧
      depth m = Z.of_nat ((<[c := h]> (holds w)) d) ∧ depth m < 2 ^ 32 ∧
      ∀ e, e ≠ d → (<[c := h]> (holds w)) e = 0%nat)) →
  sync_ok (World m (<[c := p]> (at_ w)) (<[c := h]> (holds w))).
Proof.
  intros W El Ep Hc Ho.
  assert (∀ d, inside (<[c := p]> (at_ w) d) = inside (at_ w d)) as Same.
  { intros d. rewrite at_insert_inside. destruct (decide (c = d)) as [->|]; [done|done]. }
  split; cbn [mtx at_ holds]; try rewrite El; try exact Ho.
  - apply W.
  - intros V d. rewrite Same. by apply W.
  - intros V. destruct (so_inside w W V) as (d&Hd&Id). exists d. by rewrite Same.
  - intros d e. rewrite !Same. apply W.
  - intros d. rewrite Same. apply W.
Qed.

(** Entering a free spin lock, or leaving it. *)
Lemma sync_ok_enter w c p : sync_ok w → context_ok c → value (lock (mtx w)) = 0 → inside p = true →
  sync_ok (World (with_lock (Spinlock 1) (mtx w)) (<[c := p]> (at_ w)) (<[c := holds w c]> (holds w))).
Proof.
  intros W Hc V Hp. pose proof (so_free w W V) as F.
  split; cbn [mtx at_ holds with_lock lock value owner depth]; [by right|done| | | |].
  - intros _. exists c. split; [done|]. rewrite at_insert_inside. by rewrite decide_True.
  - intros d e. rewrite !at_insert_inside, !F. by destruct (decide (c = d)) as [<-|], (decide (c = e)) as [<-|].
  - assert (∀ d, <[c := holds w c]> (holds w) d = holds w d) as Eh.
    { intros d. destruct (decide (c = d)) as [<-|]; [by rewrite fn_lookup_insert|by rewrite fn_lookup_insert_ne]. }
    destruct (so_owner w W) as [(A&B&C)|(d&A&B&C&D&E&G)]; [left|right].
    + split_and!; [done|done|]. intros d. by rewrite Eh.
    + exists d. rewrite Eh. split_and!; try done. intros e. rewrite Eh. apply G.
  - intros d. rewrite at_insert_inside, F. by destruct (decide (c = d)) as [<-|].
Qed.

Lemma holds_same (h : context → nat) c d : <[c := h c]> h d = h d.
Proof. destruct (decide (c = d)) as [<-|]; [by rewrite fn_lookup_insert|by rewrite fn_lookup_insert_ne]. Qed.

Lemma owner_same w c : sync_ok w →
  (owner (mtx w) = 0 ∧ depth (mtx w) = 0 ∧ ∀ d, (<[c := holds w c]> (holds w)) d = 0%nat) ∨
  (∃ d, context_ok d ∧ owner (mtx w) = caller d ∧ (0 < (<[c := holds w c]> (holds w)) d)%nat ∧
     depth (mtx w) = Z.of_nat ((<[c := holds w c]> (holds w)) d) ∧ depth (mtx w) < 2 ^ 32 ∧
     ∀ e, e ≠ d → (<[c := holds w c]> (holds w)) e = 0%nat).
Proof.
  intros W. destruct (so_owner w W) as [(A&B&C)|(d&A&B&C&D&E&G)]; [left|right].
  - split_and!; [done|done|]. intros d. by rewrite holds_same.
  - exists d. rewrite holds_same. split_and!; try done. intros e. rewrite holds_same. apply G.
Qed.

Lemma sync_ok_leave w c p : sync_ok w → inside (at_ w c) = true → inside p = false →
  sync_ok (World (with_lock (Spinlock 0) (mtx w)) (<[c := p]> (at_ w)) (<[c := holds w c]> (holds w))).
Proof.
  intros W Ic Hp.
  assert (∀ d, inside (<[c := p]> (at_ w) d) = false) as None_.
  { intros d. rewrite at_insert_inside. destruct (decide (c = d)) as [|Ne]; [done|].
    destruct (inside (at_ w d)) eqn:E; [|done]. exfalso. apply Ne. by apply (so_one w W). }
  split; cbn [mtx at_ holds with_lock lock value owner depth]; [by left|done|done| | |].
  - intros d e. by rewrite None_.
  - by apply owner_same.
  - intros d. by rewrite None_.
Qed.

(** Taking the mutex, again or for the first time. *)
Lemma owner_taken w c : sync_ok w → context_ok c → Z.of_nat (S (holds w c)) < 2 ^ 32 →
  (owner (mtx w) =? 0) || (owner (mtx w) =? caller c) = true →
  u32 (depth (mtx w) + 1) = Z.of_nat (S (holds w c)) ∧ ∀ d, d ≠ c → holds w d = 0%nat.
Proof.
  intros W Hc Hh Ho. destruct (so_owner w W) as [(A&B&C)|(d&A&B&C&D&E&G)].
  - split; [|done]. rewrite B, C. by vm_compute.
  - assert (d = c) as ->.
    { apply orb_prop in Ho as [Ho|Ho]; apply Z.eqb_eq in Ho.
      - exfalso. apply (caller_nonzero d A). congruence.
      - apply caller_inj; congruence. }
    split; [|done]. rewrite D, u32_small by lia. lia.
Qed.

Lemma sync_ok_step w c a w' : sync_ok w → context_ok c → step c a w = Some w' →
  Z.of_nat (holds w' c) < 2 ^ 32 → sync_ok w'.
Proof.
  intros W Hc E Hh. unfold step in E. destruct a as [k|]; [destruct (at_ w c) eqn:P; try done|].
  { injection E as <-. apply sync_ok_move; [done|done|by rewrite P|done|by apply owner_same]. }
  destruct (at_ w c) as [|k|k|[|]|again|] eqn:P; try done.
  - cbn [exchange] in E. destruct (Z.eqb_spec (value (lock (mtx w))) 0) as [V|V]; injection E as <-.
    + by apply sync_ok_enter.
    + destruct (so_value w W) as [|V1]; [done|].
      apply sync_ok_move; [done| |by rewrite P|done|by apply owner_same].
      cbn. destruct (lock (mtx w)). cbn in V1. by subst.
  - injection E as <-. apply sync_ok_move; [done|done| |done|by apply owner_same].
    rewrite P. by destruct (negb _).
  - unfold try_take in E. destruct ((owner (mtx w) =? 0) || (owner (mtx w) =? caller c)) eqn:T.
    + injection E as <-. cbn [holds] in Hh. rewrite fn_lookup_insert in Hh.
      destruct (owner_taken w c W Hc Hh T) as [Ed Eo].
      apply sync_ok_move; [done|done|by rewrite P|done|]. right. exists c. cbn [owner depth].
      rewrite fn_lookup_insert. split_and!; [done|done|lia|exact Ed|lia|].
      intros e Ne. rewrite fn_lookup_insert_ne by done. by apply Eo.
    + injection E as <-. apply sync_ok_move; [done|done|by rewrite P|done|by apply owner_same].
  - unfold drop_owned in E. destruct (negb (owner (mtx w) =? caller c) || (depth (mtx w) =? 0)) eqn:T; injection E as <-.
    { apply sync_ok_move; [done|done|by rewrite P|done|by apply owner_same]. }
    apply orb_false_elim in T as [T1 T2]. apply negb_false_iff, Z.eqb_eq in T1. apply Z.eqb_neq in T2.
    apply sync_ok_move; [done|done|by rewrite P|done|]. cbn [owner depth].
    destruct (so_owner w W) as [(A&B&C)|(d&A&B&C&D&F&G)]; [congruence|].
    assert (d = c) as -> by (apply caller_inj; congruence).
    destruct (Z.eqb_spec (depth (mtx w) - 1) 0) as [Z0|Z0]; [left|right].
    + split_and!; [done|lia|]. intros e. destruct (decide (c = e)) as [<-|].
      * rewrite fn_lookup_insert. lia.
      * rewrite fn_lookup_insert_ne by done. by apply G.
    + exists c. rewrite fn_lookup_insert. split_and!; [done|done|lia|lia|lia|].
      intros e Ne. rewrite fn_lookup_insert_ne by done. by apply G.
  - injection E as <-. apply sync_ok_leave; [done|by rewrite P|by destruct again].
Qed.

Lemma reachable_ok w : reachable w → sync_ok w.
Proof.
  induction 1 as [|w c a w' R IH Hc E Hh]; [|by eapply sync_ok_step].
  split; cbn; try done; [by left|by left].
Qed.

(** ** Contexts that unlock only what they hold *)

(** The guard of [MUTEX_SCOPE]: a context begins to unlock only a mutex it holds. *)
Inductive scoped : world → Prop :=
| scoped_init : scoped world_init
| scoped_step w c a w' : scoped w → context_ok c → (a = Call Unlocking → (0 < holds w c)%nat) →
    step c a w = Some w' → Z.of_nat (holds w' c) < 2 ^ 32 → scoped w'.

Lemma scoped_reachable w : scoped w → reachable w.
Proof. induction 1 as [|w c a w' _ IH Hc _ E Hh]; [constructor|]. by eapply reach_step. Qed.

Definition unlocking (p : place) : bool :=
  match p with Trying Unlocking | Watching Unlocking | Entered Unlocking => true | _ => false end.

Definition scoped_ok (w : world) : Prop :=
  ∀ c, at_ w c ≠ Panicked ∧ (unlocking (at_ w c) = true → (0 < holds w c)%nat).

(** What a step of another context leaves alone. *)
Lemma step_other c d a w w' : c ≠ d → step c a w = Some w' → at_ w' d = at_ w d ∧ holds w' d = holds w d.
Proof.
  intros Ne E. unfold step in E. destruct a as [k|]; destruct (at_ w c) as [|k'|k'|[|]|again|]; try done;
    try (injection E as <-; cbn; by rewrite !fn_lookup_insert_ne).
  - destruct (try_take _ _) as [[|] m]; injection E as <-; cbn; by rewrite !fn_lookup_insert_ne.
  - destruct (drop_owned _ _); injection E as <-; cbn; by rewrite !fn_lookup_insert_ne.
Qed.

(** A holder's unlocking succeeds. *)
Lemma drop_owned_holder w c : sync_ok w → context_ok c → (0 < holds w c)%nat →
  ∃ m, drop_owned (caller c) (mtx w) = Some m.
Proof.
  intros W Hc Hh. destruct (so_owner w W) as [(_&_&C)|(d&A&B&C&D&_&G)]; [rewrite C in Hh; lia|].
  destruct (decide (c = d)) as [->|Ne]; [|rewrite (G c Ne) in Hh; lia].
  unfold drop_owned. rewrite B, Z.eqb_refl, D. destruct (Z.eqb_spec (Z.of_nat (holds w d)) 0); [lia|]. eauto.
Qed.

Lemma scoped_ok_step w c a w' : sync_ok w → scoped_ok w → context_ok c →
  (a = Call Unlocking → (0 < holds w c)%nat) → step c a w = Some w' → scoped_ok w'.
Proof.
  intros W S Hc Ha E d. destruct (decide (c = d)) as [<-|Ne].
  2:{ destruct (step_other c d a w w' Ne E) as [-> ->]. apply S. }
  destruct (S c) as [Np Hu]. unfold step in E. destruct a as [k|]; destruct (at_ w c) as [|k'|k'|[|]|again|] eqn:P; try done.
  - injection E as <-. cbn. rewrite !fn_lookup_insert. split; [done|]. destruct k; [done|]. intros _. by apply Ha.
  - cbn [exchange] in E. injection E as <-. cbn. rewrite !fn_lookup_insert.
    destruct (value _ =? 0), k'; (split; [done|]); try done; intros _; by apply Hu.
  - injection E as <-. cbn. rewrite !fn_lookup_insert.
    destruct (negb _), k'; (split; [done|]); try done; intros _; by apply Hu.
  - destruct (try_take _ _) as [[|] m]; injection E as <-; cbn; by rewrite !fn_lookup_insert.
  - destruct (drop_owned_holder w c W Hc (Hu eq_refl)) as [m Em]. rewrite Em in E. injection E as <-. cbn.
    by rewrite !fn_lookup_insert.
  - injection E as <-. cbn. rewrite !fn_lookup_insert. by destruct again.
Qed.

Lemma scoped_is_ok w : scoped w → scoped_ok w.
Proof.
  induction 1 as [|w c a w' R IH Hc Ha E Hh]; [by intros c|].
  eapply scoped_ok_step; [by apply reachable_ok, scoped_reachable|done|exact Hc|exact Ha|exact E].
Qed.

(** ** Runs *)

Fixpoint run (acts : list (context * action)) (w : world) : option world :=
  match acts with
  | [] => Some w
  | (c, a) :: acts' => match step c a w with Some w' => run acts' w' | None => None end
  end.

Lemma run_app l k w : run (l ++ k) w = run l w ≫= run k.
Proof. revert w. induction l as [|[c a] l IH]; intros w; [done|]. cbn. destruct (step c a w); [apply IH|done]. Qed.

(** A waiting context takes a free mutex whose spin lock is free. *)
Lemma take_free w c : context_ok c → value (lock (mtx w)) = 0 → owner (mtx w) = 0 →
  at_ w c = Trying Locking →
  ∃ w', run [(c, Continue); (c, Continue)] w = Some w' ∧ (0 < holds w' c)%nat.
Proof.
  intros Hc V O P. cbn [run]. unfold step at 1. rewrite P. cbn [exchange]. rewrite V. cbn [Z.eqb].
  unfold step. cbn [at_ mtx holds]. rewrite !fn_lookup_insert. unfold try_take. cbn [owner with_lock]. rewrite O.
  cbn [Z.eqb orb]. eexists. split; [reflexivity|]. cbn. rewrite fn_lookup_insert. lia.
Qed.

Lemma watching_to_trying w c k : value (lock (mtx w)) = 0 → at_ w c = Watching k →
  ∃ w', step c Continue w = Some w' ∧ at_ w' c = Trying k ∧ mtx w' = mtx w.
Proof.
  intros V P. unfold step. rewrite P, V. cbn [Z.eqb negb]. eexists. split; [reflexivity|]. cbn.
  by rewrite fn_lookup_insert.
Qed.

Lemma take_from_wait w c : context_ok c → value (lock (mtx w)) = 0 → owner (mtx w) = 0 →
  at_ w c = Trying Locking ∨ at_ w c = Watching Locking →
  ∃ acts w', run acts w = Some w' ∧ (0 < holds w' c)%nat ∧ (length acts ≤ 3)%nat.
Proof.
  intros Hc V O [P|P].
  - destruct (take_free w c Hc V O P) as (w'&E&H). exists [(c, Continue); (c, Continue)], w'. cbn; auto.
  - destruct (watching_to_trying w c Locking V P) as (w1&E1&P1&M1).
    destruct (take_free w1 c) as (w'&E&H); [done|by rewrite M1|by rewrite M1|done|].
    exists [(c, Continue); (c, Continue); (c, Continue)], w'. split; [|split; [done|cbn; lia]].
    change (run ([(c, Continue)] ++ [(c, Continue); (c, Continue)]) w = Some w').
    rewrite run_app. cbn [run]. rewrite E1. exact E.
Qed.

(** ** Properties *)

(** C20: mutual exclusion.  However the atomic accesses of any number of threads
    and processors interleave (contending for the mutex, nesting it, even unlocking
    it without holding it), the mutex is held by at most one context: the recorded owner,
    as often as the recorded depth says, and nobody holds it when the owner
    is 0; and at most one context is inside the spin lock, exactly when its word is 1.
    (A mutex is nested fewer than 2^32 times, where the depth would wrap.) *)
Theorem mutex_exclusion w c d : reachable w →
  ((0 < holds w c)%nat → (0 < holds w d)%nat → c = d) ∧
  ((0 < holds w c)%nat → owner (mtx w) = caller c ∧ depth (mtx w) = Z.of_nat (holds w c)) ∧
  (owner (mtx w) = 0 ↔ ∀ e, holds w e = 0%nat) ∧
  (inside (at_ w c) = true → inside (at_ w d) = true → c = d) ∧
  (value (lock (mtx w)) = 1 ↔ ∃ e, inside (at_ w e) = true).
Proof.
  intros R%reachable_ok.
  assert (∀ e, (0 < holds w e)%nat → context_ok e ∧ owner (mtx w) = caller e ∧
    depth (mtx w) = Z.of_nat (holds w e) ∧ ∀ e', e' ≠ e → holds w e' = 0%nat) as H.
  { intros e He. destruct (so_owner w R) as [(_&_&C)|(x&A&B&C&D&_&G)]; [rewrite C in He; lia|].
    destruct (decide (e = x)) as [->|Ne]; [done|]. rewrite (G e Ne) in He. lia. }
  split_and!.
  - intros Hc Hd. destruct (decide (c = d)) as [|Ne]; [done|]. destruct (H d Hd) as (_&_&_&G). rewrite (G c Ne) in Hc. lia.
  - intros Hc. destruct (H c Hc) as (_&?&?&_). done.
  - split.
    + intros O e. destruct (holds w e) eqn:E; [done|]. destruct (H e) as (A&B&_); [lia|].
      exfalso. apply (caller_nonzero e A). congruence.
    + intros Hz. destruct (so_owner w R) as [(A&_)|(x&_&_&C&_)]; [done|]. rewrite Hz in C. lia.
  - apply (so_one w R).
  - split.
    + intros V. destruct (so_inside w R V) as (e&_&?). eauto.
    + intros [e He]. destruct (so_value w R) as [V|V]; [|done]. by rewrite (so_free w R V) in He.
Qed.

(** Thread 1 takes the mutex twice; thread 2 tries, and waits. *)
Definition demo_locks : list (context * action) :=
  [(Thread 1, Call Locking); (Thread 1, Continue); (Thread 2, Call Locking); (Thread 1, Continue);
   (Thread 2, Continue); (Thread 1, Continue); (Thread 1, Call Locking); (Thread 1, Continue);
   (Thread 1, Continue); (Thread 1, Continue); (Thread 2, Continue); (Thread 2, Continue); (Thread 2, Continue)].

Lemma acts_reachable acts : ∀ w w', reachable w → Forall (λ x, context_ok x.1) acts →
  (∀ c, Z.of_nat (holds w c) + Z.of_nat (length acts) < 2 ^ 32) → run acts w = Some w' → reachable w'.
Proof.
  induction acts as [|[c a] acts IH]; intros w w' R Hc Hh E; cbn [run] in E; [by injection E as <-|].
  inversion Hc as [|? ? Hc1 Hc']; subst. cbn [fst] in Hc1. destruct (step c a w) as [w1|] eqn:E1; [|done].
  assert (∀ d, (holds w1 d ≤ S (holds w d))%nat) as Grow.
  { intros d. destruct (decide (c = d)) as [<-|Ne]; [|destruct (step_other c d a w w1 Ne E1) as [_ ->]; lia].
    unfold step in E1. destruct a as [k|]; destruct (at_ w c) as [|k'|k'|[|]|again|]; try done; cbn [exchange] in E1;
      try (destruct (try_take _ _) as [[|] ?]); try (destruct (drop_owned _ _));
      injection E1 as <-; cbn; rewrite fn_lookup_insert; lia. }
  apply (IH w1); [|done| |done].
  - apply (reach_step w c a); [exact R|exact Hc1|exact E1|]. specialize (Hh c). specialize (Grow c). cbn [length] in Hh. lia.
  - intros d. specialize (Hh d). specialize (Grow d). cbn [length] in Hh. lia.
Qed.

Lemma demo_locks_ok : Forall (λ x, context_ok x.1) demo_locks.
Proof.
  unfold demo_locks. repeat (apply Forall_cons; split; [by vm_compute|]). apply Forall_nil_2.
Qed.

(** What is seen of a world. *)
Definition view (w : world) : nat * nat * place * Z :=
  (holds w (Thread 1), holds w (Thread 2), at_ w (Thread 2), owner (mtx w)).
Lemma demo_locks_view : option_map view (run demo_locks world_init) = Some (2%nat, 0%nat, Leaving true, 1).
Proof. vm_compute. reflexivity. Qed.

Lemma mutex_exclusion_witness : ∃ w, run demo_locks world_init = Some w ∧
  owner (mtx w) = caller (Thread 1) ∧ depth (mtx w) = 2 ∧ holds w (Thread 2) = 0%nat ∧
  at_ w (Thread 2) = Leaving true.
Proof.
  pose proof demo_locks_view as V. destruct (run demo_locks world_init) as [w|] eqn:E; [|discriminate].
  injection V as H1 H2 H3 _.
  exists w. split; [reflexivity|].
  assert (reachable w) as R.
  { eapply acts_reachable; [constructor| | |exact E].
    - exact demo_locks_ok.
    - intros c. vm_compute. reflexivity. }
  destruct (mutex_exclusion w (Thread 1) (Thread 2) R) as (_&O&_). destruct O as [O D]; [rewrite H1; lia|].
  split; [exact O|]. split; [rewrite D, H1; reflexivity|]. split; [exact H2|exact H3].
Defined.

(** Contexts that unlock only what they hold (as [MUTEX_SCOPE] makes sure)
    never get into the panic, and the mutex cannot be stuck: whenever a context
    waits for a mutex nobody holds, at most five steps lead to some context holding it,
    so that no interleaving ends in a deadlock with the mutex free. *)
Theorem mutex_progress w c : scoped w → context_ok c → owner (mtx w) = 0 →
  at_ w c = Trying Locking ∨ at_ w c = Watching Locking →
  (∀ d, at_ w d ≠ Panicked) ∧
  ∃ acts w' d, run acts w = Some w' ∧ (0 < holds w' d)%nat ∧ (length acts ≤ 5)%nat.
Proof.
  intros R Hc O P. pose proof (reachable_ok w (scoped_reachable w R)) as W. pose proof (scoped_is_ok w R) as S.
  split; [intros d; apply S|].
  destruct (so_value w W) as [V|V].
  { destruct (take_from_wait w c Hc V O P) as (acts&w'&E&H&L). exists acts, w', c. split_and!; [done|done|lia]. }
  destruct (so_inside w W V) as (d&Hd&Id). destruct (S d) as [Np Hu].
  destruct (at_ w d) as [|k|k|[|]|again|] eqn:Pd; try done.
  - exists [(d, Continue)]. cbn [run]. unfold step. rewrite Pd. unfold try_take. rewrite O. cbn [Z.eqb orb].
    eexists _, d. split; [reflexivity|]. cbn. rewrite fn_lookup_insert. lia.
  - exfalso. specialize (Hu eq_refl). destruct (drop_owned_holder w d W Hd Hu) as [m Em].
    unfold drop_owned in Em. rewrite O in Em. destruct (Z.eqb_spec 0 (caller d)) as [E|_]; [|done].
    by apply (caller_nonzero d Hd).
  - assert (c ≠ d) as Ne by (intros ->; rewrite Pd in P; by destruct P).
    destruct (step d Continue w) as [w1|] eqn:E1; [|unfold step in E1; by rewrite Pd in E1].
    destruct (step_other d c Continue w w1) as [P1 _]; [congruence|done|].
    assert (value (lock (mtx w1)) = 0 ∧ owner (mtx w1) = 0) as [V1 O1].
    { unfold step in E1. rewrite Pd in E1. injection E1 as <-. done. }
    destruct (take_from_wait w1 c Hc V1 O1) as (acts&w'&E&H&L); [by rewrite P1|].
    exists ((d, Continue) :: acts), w', c. cbn [run length]. rewrite E1. split_and!; [done|done|lia].
Qed.

(** Thread 2 waits while thread 1 leaves the spin lock after a failed attempt. *)
Lemma demo_wait_view :
  option_map view (run [(Thread 2, Call Locking)] world_init) = Some (0%nat, 0%nat, Trying Locking, 0).
Proof. vm_compute. reflexivity. Qed.

Lemma mutex_progress_witness : ∃ w, run [(Thread 2, Call Locking)] world_init = Some w ∧
  ∃ acts w' d, run acts w = Some w' ∧ (0 < holds w' d)%nat ∧ (length acts ≤ 5)%nat.
Proof.
  pose proof demo_wait_view as V.
  destruct (run [(Thread 2, Call Locking)] world_init) as [w|] eqn:E; [|discriminate]. injection V as _ H P O.
  exists w. split; [reflexivity|]. cbn [run] in E. destruct (step (Thread 2) (Call Locking) world_init) as [w0|] eqn:E0; [|done].
  injection E as ->.
  assert (context_ok (Thread 2)) as C by (split; reflexivity).
  apply (mutex_progress w (Thread 2)); [|exact C|exact O|left; exact P].
  apply (scoped_step world_init (Thread 2) (Call Locking)); [constructor|exact C|discriminate|exact E0|].
  rewrite H. reflexivity.
Defined.
