(* ===== verification/Klog.v ===== *)
(** * The kernel log (src/src/kernel/diagnostics/klog.c)

    A ring of the last bytes written, the formatter that writes them and the
    reader with a cursor.  The serial line and the screen get the same bytes as
    the ring and are left out.  A formatter's output is the list of the bytes it
    puts one after the other. *)

From S2P Require Import Prelude Cstr.

(** [src/kernel/diagnostics/klog.c:40-40] KLOG_RING_SIZE *)
Definition KLOG_RING_SIZE : Z := 8 * 1024 * 1024.

(** [src/kernel/diagnostics/klog.h:6-13] klog_level *)
Inductive klog_level := KLOG_INFO | KLOG_OK | KLOG_WARN | KLOG_ERROR | KLOG_DEBUG.
#[export] Instance klog_level_eq_dec : EqDecision klog_level.
Proof. solve_decision. Defined.

(** A byte of the ring that was never written is 0.
    [src/kernel/diagnostics/klog.c:42-48] klog_ring *)
Record klog := Klog {
  klog_ring : gmap Z Z;
  klog_ring_pos : Z;
  klog_ring_wrapped : bool;
  klog_verbose : bool;
  klog_inited : bool;
  klog_boot_tsc : Z;
}.
#[export] Instance eta_klog : Eta klog := λ k,
  Klog (klog_ring k) (klog_ring_pos k) (klog_ring_wrapped k) (klog_verbose k) (klog_inited k) (klog_boot_tsc k).
Definition klog_start : klog := Klog ∅ 0 false true false 0.

Definition ring_at (k : klog) (i : Z) : Z := default 0 (klog_ring k !! i).

(** [src/kernel/diagnostics/klog.c:57-71] klog_putc_raw *)
Definition klog_putc_raw (c : Z) (k : klog) : klog :=
  let k := k <| klog_ring := <[klog_ring_pos k mod KLOG_RING_SIZE := c]> (klog_ring k) |> in
  let k := k <| klog_ring_pos := u64 (klog_ring_pos k + 1) |> in
  if KLOG_RING_SIZE <=? klog_ring_pos k then k <| klog_ring_wrapped := true |> else k.

(** [src/kernel/diagnostics/klog.c:73-77] klog_puts_raw *)
Definition klog_puts_raw (s : list Z) (k : klog) : klog := foldl (λ k c, klog_putc_raw c k) k s.

(** ** Numbers *)

(** The digits of a number in a base, the lowest first; 64 digits are enough for
    64 bits.
    [src/kernel/diagnostics/klog.c:88-92] klog_put_dec_unsigned *)
Fixpoint digit_loop (fuel : nat) (base : Z) (digit : Z → Z) (v : Z) : list Z :=
  match fuel with
  | O => []
  | S fuel' => if 0 <? v then digit (v mod base) :: digit_loop fuel' base digit (v / base) else []
  end.
Definition dec_digit (d : Z) : Z := 48 + d.
(** The tables of the two cases.
    [src/kernel/diagnostics/klog.c:109-109] klog_put_hex *)
Definition hex_digit (upper : bool) (d : Z) : Z := aget 0 (text (if upper then "0123456789ABCDEF" else "0123456789abcdef")) d.
(** [buf[0 .. len)], with a zero for zero. *)
Definition number_buf (base : Z) (digit : Z → Z) (v : Z) : list Z :=
  if v =? 0 then [48] else digit_loop 64 base digit v.

(** [src/kernel/diagnostics/klog.c:79-95] klog_put_dec_unsigned *)
Definition dec_unsigned (v : Z) : list Z := rev (number_buf 10 dec_digit v).
(** [src/kernel/diagnostics/klog.c:107-124] klog_put_hex *)
Definition put_hex (v : Z) (upper : bool) : list Z := rev (number_buf 16 (hex_digit upper) v).

(** [for (i = 0; i < pad_len; i++) klog_putc_raw(pad);] *)
Definition padding (pad_len pad : Z) : list Z := replicate (Z.to_nat pad_len) pad.
(** [src/kernel/diagnostics/klog.c:147-165] klog_put_dec_padded *)
Definition dec_padded (v width pad : Z) : list Z :=
  let buf := number_buf 10 dec_digit v in padding (width - Z.of_nat (length buf)) pad ++ rev buf.

(** ** The formatter *)

(** An argument: the 64 bits of its place, or a string. *)
Inductive arg := ANum (bits : Z) | AText (s : option (list Z)).

Definition i64 (z : Z) : Z := (z + 2 ^ 63) mod 2 ^ 64 - 2 ^ 63.

(** [va_arg] of the signed and the unsigned types.
    [src/kernel/diagnostics/klog.c:398-404] klog_vprintf_internal *)
Definition signed_arg (long_cnt : Z) (bits : Z) : Z := if 1 <=? long_cnt then i64 bits else i32 bits.
Definition unsigned_arg (long_cnt : Z) (bits : Z) : Z := if 1 <=? long_cnt then u64 bits else u32 bits.

(** [src/kernel/diagnostics/klog.c:405-444] klog_vprintf_internal *)
Definition format_signed (v width pad : Z) : list Z :=
  let neg := v <? 0 in
  let uv := u64 (if neg then - v else v) in
  let buf := number_buf 10 dec_digit uv ++ (if neg then [45] else []) in
  let len := Z.of_nat (length buf) in
  let pad_len := width - len in
  if (0 <? pad_len) && (pad =? 48) && neg then
    [45] ++ padding pad_len 48 ++ rev (take (Z.to_nat (len - 1)) buf)
  else
    (if 0 <? pad_len then padding pad_len pad else []) ++
    (if negb ((pad =? 48) && neg) then rev buf else []).

(** [src/kernel/diagnostics/klog.c:455-470] klog_vprintf_internal *)
Definition format_unsigned (base : Z) (digit : Z → Z) (v width pad : Z) : list Z :=
  let buf := number_buf base digit v in
  padding (width - Z.of_nat (length buf)) pad ++ rev buf.

(** [while ('0' <= c <= '9') width = width * 10 + (c - '0');]
    [src/kernel/diagnostics/klog.c:357-361] klog_vprintf_internal *)
Fixpoint read_width (p : list Z) (width : Z) : Z * list Z :=
  match p with
  | c :: p' => if (48 <=? c) && (c <=? 57) then read_width p' (i32 (width * 10 + (c - 48))) else (width, p)
  | [] => (width, [])
  end.
(** [src/kernel/diagnostics/klog.c:362-367] klog_vprintf_internal *)
Fixpoint read_longs (p : list Z) (long_cnt : Z) : Z * list Z :=
  match p with
  | c :: p' => if c =? 108 then read_longs p' (long_cnt + 1) else (long_cnt, p)
  | [] => (long_cnt, [])
  end.

(** One conversion: its output and the arguments left.  [None] is an argument
    that is missing or of the other kind.
    [src/kernel/diagnostics/klog.c:371-538] klog_vprintf_internal *)
Definition convert (spec width pad long_cnt : Z) (args : list arg) : option (list Z * list arg) :=
  if spec =? 37 then Some ([37], args)
  else if spec =? 115 then
    match args with
    | AText s :: args' =>
        let s := default (text "(null)") s in
        let pad_len := i32 (width - Z.of_nat (length s)) in
        Some ((if (0 <? width) && (0 <? pad_len) then padding pad_len 32 else []) ++ s, args')
    | _ => None
    end
  else if spec =? 99 then
    match args with
    | ANum ch :: args' => Some ((if 1 <? width then padding (width - 1) 32 else []) ++ [u8 ch], args')
    | _ => None
    end
  else if (spec =? 100) || (spec =? 105) then
    match args with
    | ANum bits :: args' => Some (format_signed (signed_arg long_cnt bits) width pad, args')
    | _ => None
    end
  else if spec =? 117 then
    match args with
    | ANum bits :: args' => Some (format_unsigned 10 dec_digit (unsigned_arg long_cnt bits) width pad, args')
    | _ => None
    end
  else if (spec =? 120) || (spec =? 88) then
    match args with
    | ANum bits :: args' =>
        Some (format_unsigned 16 (hex_digit (spec =? 88)) (unsigned_arg long_cnt bits) width pad, args')
    | _ => None
    end
  else if spec =? 112 then
    match args with
    | ANum bits :: args' => Some (text "0x" ++ put_hex (u64 bits) false, args')
    | _ => None
    end
  else
    Some ([37] ++ (if negb (pad =? 32) then [48] else []) ++
          (if negb (width =? 0) then rev (digit_loop 64 10 dec_digit width) else []) ++
          padding long_cnt 108 ++ [spec], args).

(** Every round consumes a byte of the format.
    [src/kernel/diagnostics/klog.c:340-539] klog_vprintf_internal *)
Fixpoint format_loop (fuel : nat) (p : list Z) (args : list arg) : option (list Z) :=
  match fuel with
  | O => None
  | S fuel' =>
      match p with
      | [] => Some []
      | c :: p =>
          if negb (c =? 37) then cons c <$> format_loop fuel' p args
          else match p with
               | [] => Some []
               | c :: p' =>
                   let '(pad, p) := if c =? 48 then (48, p') else (32, p) in
                   let '(width, p) := read_width p 0 in
                   let '(long_cnt, p) := read_longs p 0 in
                   match p with
                   | [] => Some []
                   | spec :: p =>
                       match convert spec width pad long_cnt args with
                       | None => None
                       | Some (out, args) => app out <$> format_loop fuel' p args
                       end
                   end
               end
      end
  end.
(** [src/kernel/diagnostics/klog.c:336-540] klog_vprintf_internal *)
Definition klog_vprintf_internal (fmt : list Z) (args : list arg) : option (list Z) :=
  format_loop (S (length fmt)) fmt args.

(** ** Writing a line *)

(** [src/kernel/diagnostics/klog.c:167-183] klog_level_str *)
Definition klog_level_str (lvl : klog_level) : list Z :=
  match lvl with
  | KLOG_OK => text "  OK  "
  | KLOG_WARN => text " WARN "
  | KLOG_ERROR => text " FAIL "
  | KLOG_DEBUG => text " DEBUG"
  | KLOG_INFO => text " INFO "
  end.

(** [now] is the cycle counter.
    [src/kernel/diagnostics/klog.c:203-221] klog_print_timestamp *)
Definition timestamp (now : Z) (k : klog) : list Z :=
  let delta := if klog_inited k then u64 (now - klog_boot_tsc k) else 0 in
  let us := delta / 3000 in
  text "[" ++ dec_padded (us / 1000000) 5 32 ++ text "." ++ dec_padded (us mod 1000000) 6 48 ++ text "] ".

(** [src/kernel/diagnostics/klog.c:223-237] klog_print_level *)
Definition level_text (lvl : klog_level) : list Z := text "[" ++ klog_level_str lvl ++ text "] ".

(** [src/kernel/diagnostics/klog.c:239-250] klog_emit_prefix *)
Definition klog_emit_prefix (now cpu : Z) (lvl : klog_level) (k : klog) : list Z :=
  timestamp now k ++ level_text lvl ++ text "[cpu" ++
  (if cpu =? UINT32_MAX then text "?" else dec_unsigned cpu) ++ text "] ".

(** The newline, if the text does not end with one. *)
Definition newline_after (t : list Z) : list Z :=
  if (Z.of_nat (length t) =? 0) || negb (aget 0 t (Z.of_nat (length t) - 1) =? 10) then [10] else [].

(** [src/kernel/diagnostics/klog.c:307-316] klog_raw *)
Definition klog_raw (s : option (list Z)) (k : klog) : klog := klog_puts_raw (default [] s) k.

(** [src/kernel/diagnostics/klog.c:318-334] klog *)
Definition klog_line (now cpu : Z) (lvl : klog_level) (msg : option (list Z)) (k : klog) : klog :=
  match msg with
  | None => k
  | Some msg =>
      if bool_decide (lvl = KLOG_DEBUG) && negb (klog_verbose k) then k
      else klog_puts_raw (klog_emit_prefix now cpu lvl k ++ msg ++ newline_after msg) k
  end.

(** The newline depends on the format, not on what was written.
    [src/kernel/diagnostics/klog.c:542-562] klogf *)
Definition klogf (now cpu : Z) (lvl : klog_level) (fmt : list Z) (args : list arg) (k : klog) : option klog :=
  if bool_decide (lvl = KLOG_DEBUG) && negb (klog_verbose k) then Some k
  else match klog_vprintf_internal fmt args with
       | None => None
       | Some out => Some (klog_puts_raw (klog_emit_prefix now cpu lvl k ++ out ++ newline_after fmt) k)
       end.

(** [src/kernel/diagnostics/klog.c:583-590] kprintf *)
Definition kprintf (fmt : list Z) (args : list arg) (k : klog) : option klog :=
  match klog_vprintf_internal fmt args with None => None | Some out => Some (klog_puts_raw out k) end.

(** [src/kernel/diagnostics/klog.c:289-289] klog_set_verbose *)
Definition klog_set_verbose (v : bool) (k : klog) : klog := k <| klog_verbose := v |>.

(** [gop] is the size of the framebuffer, if there is one; the counter is read
    at the start and for each line.
    [src/kernel/diagnostics/klog.c:252-287] klog_init *)
Definition klog_init (tsc now1 now2 cpu : Z) (gop : option (Z * Z)) (k : klog) : klog :=
  let k := k <| klog_boot_tsc := tsc |> <| klog_inited := true |> <| klog_verbose := true |>
             <| klog_ring_pos := 0 |> <| klog_ring_wrapped := false |> in
  let k := klog_line now1 cpu KLOG_INFO (Some (text "PureC OS 64-bit kernel v0.1.0 [Limine+GOP] booting...")) k in
  match gop with
  | Some (w, h) =>
      klog_puts_raw (klog_emit_prefix now2 cpu KLOG_INFO k ++ text "Framebuffer: " ++ dec_unsigned w ++ text "x" ++
                     dec_unsigned h ++ text " bpp=32" ++ [10]) k
  | None => klog_line now2 cpu KLOG_INFO (Some (text "Framebuffer: VGA text 80x25")) k
  end.

(** ** Reading *)

(** [for (i = 0; i < n; i++) ... klog_ring[(start + i) % KLOG_RING_SIZE]]. *)
Definition ring_slice (k : klog) (start n : Z) : list Z :=
  map (λ i, ring_at k ((start + i) mod KLOG_RING_SIZE)) (seqZ 0 n).

(** The bytes the callback is given.
    [src/kernel/diagnostics/klog.c:652-669] klog_foreach *)
Definition klog_foreach (k : klog) : list Z :=
  if negb (klog_ring_wrapped k) then ring_slice k 0 (klog_ring_pos k)
  else ring_slice k (u32 (klog_ring_pos k mod KLOG_RING_SIZE)) KLOG_RING_SIZE.

(** The bytes, the cursor after them and whether some were lost.
    [src/kernel/diagnostics/klog.c:673-700] klog_read_since *)
Definition klog_read_since (cursor capacity : Z) (k : klog) : list Z * Z * bool :=
  if capacity =? 0 then ([], cursor, false) else
  let snapshot_pos := klog_ring_pos k in
  let earliest := if KLOG_RING_SIZE <? snapshot_pos then snapshot_pos - KLOG_RING_SIZE else 0 in
  let lost := cursor <? earliest in
  let cursor := if cursor <? earliest then earliest else cursor in
  let cursor := if snapshot_pos <? cursor then snapshot_pos else cursor in
  let available := snapshot_pos - cursor in
  let amount := if available <? capacity then u32 available else capacity in
  (ring_slice k cursor amount, u64 (cursor + amount), lost).

(** [src/kernel/diagnostics/klog.c:702-706] klog_total_bytes *)
Definition klog_total_bytes (k : klog) : Z := klog_ring_pos k.

(** ** The ring holds the last bytes *)

(** [h] is all that was written since the log was started. *)
Record holds (k : klog) (h : list Z) : Prop := {
  ho_pos : klog_ring_pos k = Z.of_nat (length h);
  ho_range : Z.of_nat (length h) < 2 ^ 64;
  ho_wrapped : klog_ring_wrapped k = (KLOG_RING_SIZE <=? Z.of_nat (length h));
  ho_bytes : ∀ j, 0 ≤ j → Z.of_nat (length h) - KLOG_RING_SIZE ≤ j < Z.of_nat (length h) →
    ring_at k (j mod KLOG_RING_SIZE) = aget 0 h j;
}.

Lemma mod_window i j : 0 ≤ i → 0 ≤ j → i mod KLOG_RING_SIZE = j mod KLOG_RING_SIZE →
  i - KLOG_RING_SIZE < j < i + KLOG_RING_SIZE → i = j.
Proof.
  intros Hi Hj E W. unfold KLOG_RING_SIZE in *. Z.div_mod_to_equations. lia.
Qed.

Lemma putc_eq c k : klog_putc_raw c k =
  Klog (<[klog_ring_pos k mod KLOG_RING_SIZE := c]> (klog_ring k)) (u64 (klog_ring_pos k + 1))
    ((KLOG_RING_SIZE <=? u64 (klog_ring_pos k + 1)) || klog_ring_wrapped k)
    (klog_verbose k) (klog_inited k) (klog_boot_tsc k).
Proof.
  unfold klog_putc_raw. cbv zeta.
  change (klog_ring_pos (k <| klog_ring := _ |>)) with (klog_ring_pos k).
  change (klog_ring_pos (_ <| klog_ring_pos := ?p |>)) with p. by destruct (KLOG_RING_SIZE <=? _).
Qed.

Lemma holds_putc k h c : holds k h → Z.of_nat (length h) + 1 < 2 ^ 64 → holds (klog_putc_raw c k) (h ++ [c]).
Proof.
  intros H L. rewrite putc_eq, (ho_pos _ _ H), u64_small by lia.
  assert (Z.of_nat (length (h ++ [c])) = Z.of_nat (length h) + 1) as Lc by (rewrite length_app; cbn [length]; lia).
  split; cbn [klog_ring_pos klog_ring_wrapped]; rewrite ?Lc; [done|lia| |].
  - rewrite (ho_wrapped _ _ H). destruct (Z.leb_spec KLOG_RING_SIZE (Z.of_nat (length h) + 1)),
      (Z.leb_spec KLOG_RING_SIZE (Z.of_nat (length h))); done || lia.
  - intros j Hj W. unfold ring_at. cbn [klog_ring]. destruct (decide (j = Z.of_nat (length h))) as [->|Ne].
    + rewrite lookup_insert_eq, aget_app_r, Z.sub_diag by lia. done.
    + rewrite lookup_insert_ne by (intros E; apply mod_window in E; lia).
      rewrite aget_app_l by lia. apply (ho_bytes _ _ H); lia.
Qed.

Lemma holds_puts t : ∀ k h, holds k h → Z.of_nat (length h) + Z.of_nat (length t) < 2 ^ 64 → holds (klog_puts_raw t k) (h ++ t).
Proof.
  induction t as [|c t IH]; intros k h H L; [by rewrite app_nil_r|]. cbn [klog_puts_raw foldl]. cbn [length] in L.
  replace (h ++ c :: t) with ((h ++ [c]) ++ t) by (by rewrite <- app_assoc).
  apply IH; [apply holds_putc; [done|lia]|rewrite length_app; cbn [length]; lia].
Qed.

Lemma slice_spec (f : Z → Z) (h : list Z) start n : 0 ≤ start → 0 ≤ n → start + n ≤ Z.of_nat (length h) →
  (∀ i, 0 ≤ i < n → f (start + i) = aget 0 h (start + i)) →
  map (λ i, f (start + i)) (seqZ 0 n) = take (Z.to_nat n) (drop (Z.to_nat start) h).
Proof.
  intros Hs Hn Hl Hf. apply list_eq_same_length with (n := Z.to_nat n).
  - rewrite length_take, length_drop. lia.
  - by rewrite length_map, length_seqZ.
  - intros i x y Hi Hx Hy. rewrite list_lookup_fmap in Hx. apply fmap_Some in Hx as (z&Hz&->).
    apply lookup_seqZ in Hz as [-> Hz]. apply lookup_take_Some in Hy as [Hy _]. rewrite lookup_drop in Hy.
    rewrite Hf by lia. unfold aget. rewrite nth_lookup.
    replace (Z.to_nat (start + (0 + Z.of_nat i))) with (Z.to_nat start + i)%nat by lia. by rewrite Hy.
Qed.

Lemma ring_slice_spec k h start n : holds k h → 0 ≤ start → 0 ≤ n → Z.of_nat (length h) - KLOG_RING_SIZE ≤ start →
  start + n ≤ Z.of_nat (length h) → ring_slice k start n = take (Z.to_nat n) (drop (Z.to_nat start) h).
Proof.
  intros H Hs Hn Hw Hl. apply (slice_spec (λ j, ring_at k (j mod KLOG_RING_SIZE))); try done.
  intros i Hi. apply (ho_bytes _ _ H); lia.
Qed.

Lemma foreach_spec k h : holds k h →
  klog_foreach k = drop (Z.to_nat (Z.of_nat (length h) - KLOG_RING_SIZE)) h.
Proof.
  intros H. unfold klog_foreach. rewrite (ho_wrapped _ _ H), (ho_pos _ _ H).
  destruct (Z.leb_spec KLOG_RING_SIZE (Z.of_nat (length h))) as [L|L]; cbn [negb].
  - assert (0 < KLOG_RING_SIZE) by done. rewrite u32_small.
    2:{ pose proof (Z.mod_pos_bound (Z.of_nat (length h)) KLOG_RING_SIZE). unfold KLOG_RING_SIZE in *. lia. }
    transitivity (ring_slice k (Z.of_nat (length h) - KLOG_RING_SIZE) KLOG_RING_SIZE).
    + unfold ring_slice. apply map_ext. intros i. f_equal. rewrite <- (Zplus_mod_idemp_l (Z.of_nat (length h) - KLOG_RING_SIZE)).
      rewrite <- (Z.mod_add (Z.of_nat (length h) - KLOG_RING_SIZE) 1) by lia. f_equal. f_equal. f_equal. lia.
    + rewrite (ring_slice_spec k h) by (done || lia). apply take_ge. rewrite length_drop. lia.
  - rewrite (ring_slice_spec k h) by (done || lia). rewrite Nat2Z.id, take_ge by (rewrite length_drop; lia). 
    replace (Z.to_nat (Z.of_nat (length h) - KLOG_RING_SIZE)) with O by lia. done.
Qed.

(** ** Properties *)

(** The calls that write to the log. *)
Inductive log_call :=
| LRaw (s : option (list Z))
| LLine (now cpu : Z) (lvl : klog_level) (msg : option (list Z))
| LFormat (now cpu : Z) (lvl : klog_level) (fmt : list Z) (args : list arg)
| LPrint (fmt : list Z) (args : list arg)
| LVerbose (v : bool).

Definition log_exec (c : log_call) (k : klog) : option klog :=
  match c with
  | LRaw s => Some (klog_raw s k)
  | LLine now cpu lvl msg => Some (klog_line now cpu lvl msg k)
  | LFormat now cpu lvl fmt args => klogf now cpu lvl fmt args k
  | LPrint fmt args => kprintf fmt args k
  | LVerbose v => Some (klog_set_verbose v k)
  end.

(** The text a call adds. *)
Definition muted (lvl : klog_level) (k : klog) : bool := bool_decide (lvl = KLOG_DEBUG) && negb (klog_verbose k).
Definition log_text (c : log_call) (k : klog) : list Z :=
  match c with
  | LRaw s => default [] s
  | LLine now cpu lvl msg =>
      match msg with
      | Some m => if muted lvl k then [] else klog_emit_prefix now cpu lvl k ++ m ++ newline_after m
      | None => []
      end
  | LFormat now cpu lvl fmt args =>
      if muted lvl k then []
      else klog_emit_prefix now cpu lvl k ++ default [] (klog_vprintf_internal fmt args) ++ newline_after fmt
  | LPrint fmt args => default [] (klog_vprintf_internal fmt args)
  | LVerbose _ => []
  end.

(** The states of the log after its start, with all that was written since. *)
Inductive log_reachable : klog → list Z → Prop :=
| log_started k : log_reachable (k <| klog_ring_pos := 0 |> <| klog_ring_wrapped := false |>) []
| log_step k h c k' : log_reachable k h → log_exec c k = Some k' →
    Z.of_nat (length (h ++ log_text c k)) < 2 ^ 64 → log_reachable k' (h ++ log_text c k).

Lemma log_exec_text c k k' h : log_exec c k = Some k' → holds k h →
  Z.of_nat (length (h ++ log_text c k)) < 2 ^ 64 → holds k' (h ++ log_text c k).
Proof.
  intros E H L. assert (∀ t, Z.of_nat (length (h ++ t)) < 2 ^ 64 → holds (klog_puts_raw t k) (h ++ t)) as P.
  { intros t Lt. apply holds_puts; [done|]. rewrite length_app in Lt. lia. }
  destruct c as [t|now cpu lvl msg|now cpu lvl fmt args|fmt args|v]; cbn [log_exec log_text] in *.
  - injection E as <-. by apply P.
  - injection E as <-. unfold klog_line. destruct msg as [m|]; [|by rewrite app_nil_r].
    fold (muted lvl k). destruct (muted lvl k); [by rewrite app_nil_r|exact (P _ L)].
  - unfold klogf in E. fold (muted lvl k) in E. destruct (muted lvl k).
    + injection E as <-. by rewrite app_nil_r.
    + destruct (klog_vprintf_internal fmt args); [|done]. injection E as <-. exact (P _ L).
  - unfold kprintf in E. destruct (klog_vprintf_internal fmt args); [|done]. injection E as <-. exact (P _ L).
  - injection E as <-. rewrite app_nil_r. destruct H. by split.
Qed.

Lemma reachable_holds k h : log_reachable k h → holds k h.
Proof.
  induction 1 as [k|k h c k' R IH E L]; [|by apply log_exec_text].
  split; cbn; [done|done|done|]. intros; lia.
Qed.

(** C31: The log remembers what was written last: after any calls, a reader with
    a cursor gets the bytes of the whole history from the cursor, or from the
    oldest byte that is still there if that is later, and is told exactly when
    bytes were lost; the cursor moves by what was read; and the dump is the last
    eight megabytes of the history. *)
Theorem klog_reader_exact k h cursor capacity : log_reachable k h → 0 ≤ cursor < 2 ^ 64 → 0 < capacity < 2 ^ 32 →
  let earliest := Z.max 0 (Z.of_nat (length h) - KLOG_RING_SIZE) in
  let from := Z.min (Z.max cursor earliest) (Z.of_nat (length h)) in
  let out := take (Z.to_nat capacity) (drop (Z.to_nat from) h) in
  klog_read_since cursor capacity k = (out, from + Z.of_nat (length out), cursor <? earliest) ∧
  klog_foreach k = drop (Z.to_nat earliest) h ∧
  klog_total_bytes k = Z.of_nat (length h).
Proof.
  intros H%reachable_holds Hc Hn earliest from out. split_and!; [|rewrite (foreach_spec k h H); f_equal; lia|apply H].
  unfold klog_read_since. rewrite (ho_pos _ _ H). destruct (Z.eqb_spec capacity 0); [lia|].
  pose proof (ho_range _ _ H).
  replace (if KLOG_RING_SIZE <? Z.of_nat (length h) then Z.of_nat (length h) - KLOG_RING_SIZE else 0) with earliest.
  2:{ subst earliest. destruct (Z.ltb_spec KLOG_RING_SIZE (Z.of_nat (length h))); lia. }
  cbv zeta. replace (if Z.of_nat (length h) <? (if cursor <? earliest then earliest else cursor)
    then Z.of_nat (length h) else if cursor <? earliest then earliest else cursor) with from.
  2:{ subst from. assert (earliest ≤ Z.of_nat (length h)) by (unfold earliest, KLOG_RING_SIZE; lia).
      destruct (Z.ltb_spec cursor earliest);
      [destruct (Z.ltb_spec (Z.of_nat (length h)) earliest)|destruct (Z.ltb_spec (Z.of_nat (length h)) cursor)]; lia. }
  assert (0 ≤ from ≤ Z.of_nat (length h) ∧ Z.of_nat (length h) - KLOG_RING_SIZE ≤ from) as [F1 F2]
    by (subst from earliest; unfold KLOG_RING_SIZE in *; lia).
  set (amount := if _ <? capacity then _ else _).
  assert (amount = Z.min (Z.of_nat (length h) - from) capacity) as Ea.
  { subst amount. destruct (Z.ltb_spec (Z.of_nat (length h) - from) capacity); [rewrite u32_small|]; lia. }
  assert (Z.of_nat (length out) = amount) as Lo by (unfold out; rewrite length_take, length_drop; lia).
  assert (ring_slice k from amount = out) as ->; [|rewrite u64_small by lia; by rewrite Lo].
  rewrite (ring_slice_spec k h) by (done || lia). unfold out. rewrite Ea.
  destruct (Z.le_ge_cases capacity (Z.of_nat (length h) - from)).
  - f_equal. lia.
  - rewrite !take_ge by (rewrite length_drop; lia). done.
Qed.

Lemma klog_reader_exact_witness :
  ∃ k, klog_read_since 2 100 k = ([99], 3, false) ∧ klog_foreach k = text "abc".
Proof.
  set (k0 := klog_start <| klog_ring_pos := 0 |> <| klog_ring_wrapped := false |>).
  exists (klog_raw (Some (text "abc")) k0).
  destruct (klog_reader_exact (klog_raw (Some (text "abc")) k0) (text "abc") 2 100) as (E&F&_).
  - apply (log_step k0 [] (LRaw (Some (text "abc")))); [apply log_started|reflexivity|reflexivity].
  - lia.
  - lia.
  - split; [rewrite E; vm_compute; reflexivity|rewrite F; vm_compute; reflexivity].
Defined.

(** ** Conversions *)

(** What a text of digits means. *)
Definition value (base : Z) (val : Z → Z) (t : list Z) : Z := foldl (λ a c, a * base + val c) 0 t.
Definition dec_val (c : Z) : Z := c - 48.
Definition hex_val (c : Z) : Z := if c <=? 57 then c - 48 else if c <=? 70 then c - 65 + 10 else c - 97 + 10.

Lemma value_loop base digit val fuel : 1 < base → (∀ d, 0 ≤ d < base → val (digit d) = d) → ∀ v, 0 ≤ v < base ^ Z.of_nat fuel →
  value base val (rev (digit_loop fuel base digit v)) = v.
Proof.
  intros Hb Hd. induction fuel as [|fuel IH]; intros v Hv; cbn [digit_loop]; [cbn in *; lia|].
  destruct (Z.ltb_spec 0 v); [|cbn; lia]. cbn [rev]. unfold value. rewrite foldl_app. cbn [foldl].
  fold (value base val (rev (digit_loop fuel base digit (v / base)))). rewrite IH.
  - rewrite Hd by (apply Z.mod_pos_bound; lia). pose proof (Z.div_mod v base). lia.
  - rewrite Nat2Z.inj_succ, Z.pow_succ_r in Hv by lia. split; [apply Z.div_pos; lia|]. apply Z.div_lt_upper_bound; lia.
Qed.

Lemma value_number base digit val v : 1 < base → (∀ d, 0 ≤ d < base → val (digit d) = d) → val 48 = 0 →
  0 ≤ v < 2 ^ 64 → value base val (rev (number_buf base digit v)) = v.
Proof.
  intros Hb Hd H0 Hv. unfold number_buf. destruct (Z.eqb_spec v 0) as [->|]; [cbn; lia|].
  apply value_loop; [done|done|]. split; [lia|]. assert (2 ^ 64 ≤ base ^ 64) by (apply Z.pow_le_mono_l; lia).
  change (Z.of_nat 64) with 64. lia.
Qed.

Lemma hex_digit_val upper d : 0 ≤ d < 16 → hex_val (hex_digit upper d) = d.
Proof.
  intros Hd. assert (d ∈ seqZ 0 16) as Hin by (apply elem_of_seqZ; lia).
  assert (Forall (λ d, hex_val (hex_digit upper d) = d) (seqZ 0 16)) as F
    by (destruct upper; apply (bool_decide_unpack _); vm_compute; exact I).
  exact (proj1 (Forall_forall _ _) F d Hin).
Qed.

(** A signed number in decimal. *)
Definition dec_text (v : Z) : list Z := (if v <? 0 then [45] else []) ++ dec_unsigned (Z.abs v).

Lemma format_signed_spec v width pad : - 2 ^ 63 ≤ v < 2 ^ 63 →
  format_signed v width pad =
    let w := Z.of_nat (length (dec_text v)) in
    if (pad =? 48) && (v <? 0) then
      if w <? width then [45] ++ padding (width - w) 48 ++ dec_unsigned (- v) else []
    else padding (width - w) pad ++ dec_text v.
Proof.
  intros Hv. unfold format_signed, dec_text, dec_unsigned. cbv zeta.
  assert (u64 (if v <? 0 then - v else v) = Z.abs v) as ->.
  { destruct (Z.ltb_spec v 0); rewrite u64_small by lia; lia. }
  set (b := number_buf 10 dec_digit (Z.abs v)).
  assert (∀ n p, (if 0 <? n then padding n p else []) = padding n p) as Pad.
  { intros n p. destruct (Z.ltb_spec 0 n); [done|]. unfold padding. by replace (Z.to_nat n) with O by lia. }
  destruct (Z.ltb_spec v 0) as [L|L].
  - rewrite !length_app, length_rev. cbn [length app]. change (1 + length b)%nat with (S (length b)).
    replace (- v) with (Z.abs v) by lia. fold b. rewrite Pad.
    replace (Z.of_nat (length b + 1)) with (Z.of_nat (S (length b))) by lia. rewrite andb_true_r.
    destruct (Z.eqb_spec pad 48); cbn [andb negb].
    + destruct (Z.ltb_spec 0 (width - Z.of_nat (S (length b)))), (Z.ltb_spec (Z.of_nat (S (length b))) width); try lia; cbn [andb].
      * replace (Z.to_nat (Z.of_nat (S (length b)) - 1)) with (length b) by lia. by rewrite take_app_length.
      * unfold padding. by replace (Z.to_nat (width - Z.of_nat (S (length b)))) with O by lia.
    + rewrite andb_false_r. cbn [andb]. by rewrite rev_app_distr.
  - rewrite app_nil_r, !andb_false_r. cbn [negb app]. rewrite Pad, length_rev. by fold b.
Qed.

(** The numbers of the log: the decimal and hexadecimal conversions write
    the digits of the argument, which read back as the argument, after as much
    padding as the width asks for; "%d" puts the sign before them.  One case is
    wrong: a negative number with zero padding that needs no padding, as
    "%02d" of -12345, is not written at all. *)
Theorem klog_conversions bits width pad args :
  (let v := i32 bits in ∃ out, convert 100 width pad 0 (ANum bits :: args) = Some (out, args) ∧
     out = if (pad =? 48) && (v <? 0) then
             if Z.of_nat (length (dec_text v)) <? width
             then [45] ++ padding (width - Z.of_nat (length (dec_text v))) 48 ++ dec_unsigned (- v) else []
           else padding (width - Z.of_nat (length (dec_text v))) pad ++ dec_text v) ∧
  (let v := u32 bits in ∃ t, convert 117 width pad 0 (ANum bits :: args) =
       Some (padding (width - Z.of_nat (length t)) pad ++ t, args) ∧ value 10 dec_val t = v) ∧
  (let v := u64 bits in ∃ t, convert 120 width pad 2 (ANum bits :: args) =
       Some (padding (width - Z.of_nat (length t)) pad ++ t, args) ∧ value 16 hex_val t = v) ∧
  (∀ v, 0 ≤ v < 2 ^ 64 → value 10 dec_val (dec_unsigned v) = v).
Proof.
  assert (∀ v, 0 ≤ v < 2 ^ 64 → value 10 dec_val (dec_unsigned v) = v) as Dec.
  { intros v Hv. apply value_number; [lia| |done|done]. intros d _. unfold dec_val, dec_digit. lia. }
  split_and!; [| | |done].
  - intros v. eexists. split; [done|]. change (signed_arg 0 bits) with (i32 bits). rewrite format_signed_spec; [done|].
    unfold i32. pose proof (Z.mod_pos_bound (bits + 2 ^ 31) (2 ^ 32)). lia.
  - intros v. exists (dec_unsigned (u32 bits)). split; [|apply Dec; pose proof (u32_range bits); unfold is_u32 in *; lia].
    unfold dec_unsigned. by rewrite length_rev.
  - intros v. exists (put_hex (u64 bits) false). split; [unfold put_hex; by rewrite length_rev|].
    apply value_number; [lia| |done|apply u64_range]. intros d Hd. by apply hex_digit_val.
Qed.

Lemma klog_conversions_witness :
  klog_vprintf_internal (text "%05d|%d|%02d.") [ANum (-42); ANum (-12345); ANum (-12345)] = Some (text "-0042|-12345|.") ∧
  value 10 dec_val (dec_unsigned 907) = 907.
Proof.
  destruct (klog_conversions 0 0 32 []) as (_&_&_&D). split; [vm_compute; reflexivity|apply D; lia].
Defined.
