(* ===== verification/Initramfs.v ===== *)
(** * The boot image (src/src/fs/initramfs.c)

    A cpio archive in memory, given by its bytes.  Mounting indexes its files by
    the hash of their names; look-ups use the index, listings walk the archive
    again.  A pointer into the archive is an offset. *)

From S2P Require Import Prelude Errno Cstr.

(** [src/fs/initramfs.c:7-7] CPIO_HEADER_SIZE *)
Definition CPIO_HEADER_SIZE : Z := 110.
(** [src/fs/initramfs.c:9-9] INITRAMFS_MAX_FILES *)
Definition INITRAMFS_MAX_FILES : nat := Z.to_nat 512.

(** [src/fs/initramfs.c:11-16] initramfs_entry *)
Record initramfs_entry := IEntry { i_path_hash : Z; i_path_length : Z; i_data : Z; i_size : Z }.
Definition ientry_zero : initramfs_entry := IEntry 0 0 0 0.

(** The index up to the count of files.
    [src/fs/initramfs.c:18-21] file_index *)
Record initramfs := Initramfs { archive : option (list Z); file_index : list initramfs_entry }.
Definition initramfs_boot : initramfs := Initramfs None [].

(** [src/fs/initramfs.c:23-23] align4 *)
Definition align4 (value : Z) : Z := Z.land (u32 (value + 3)) (UINT32_MAX - 3).

(** [src/fs/initramfs.c:25-32] path_hash *)
Definition path_hash (path : list Z) : Z :=
  foldl (λ hash c, u64 (Z.lxor hash c * 1099511628211)) 1469598103934665603 path.

(** [src/fs/initramfs.c:39-46] hex8 *)
Definition hex_digit (c : Z) : option Z :=
  if (48 <=? c) && (c <=? 57) then Some (c - 48)
  else if (97 <=? c) && (c <=? 102) then Some (c - 97 + 10)
  else if (65 <=? c) && (c <=? 70) then Some (c - 65 + 10)
  else None.

(** [src/fs/initramfs.c:37-50] hex8 *)
Fixpoint hex_loop (text : list Z) (result : Z) : option Z :=
  match text with
  | [] => Some result
  | c :: text' =>
      match hex_digit c with
      | Some digit => hex_loop text' (Z.lor (u32 (result ≪ 4)) digit)
      | None => None
      end
  end.
(** [src/fs/initramfs.c:34-51] hex8 *)
Definition hex8 (text : list Z) : option Z := hex_loop (take 8 text) 0.

(** The bytes of a range of the archive. *)
Definition bytes_at (a : list Z) (offset count : Z) : list Z := take (Z.to_nat count) (drop (Z.to_nat offset) a).

(** [memcmp(p, literal, length(literal)) == 0] on the bytes from [p]. *)
Definition starts_with (bytes literal : list Z) : bool := bool_decide (take (length literal) bytes = literal).

(** What [next_entry] answers about one file. *)
Record cpio_entry := CpioEntry { c_name : list Z; c_data : Z; c_size : Z; c_next : Z }.

(** [src/fs/initramfs.c:53-76] next_entry *)
Definition next_entry (a : list Z) (offset : Z) : option cpio_entry :=
  let archive_size := Z.of_nat (length a) in
  if (archive_size <? offset) || (archive_size - offset <? CPIO_HEADER_SIZE) then None else
  let header := drop (Z.to_nat offset) a in
  if negb (starts_with header (text "070701")) && negb (starts_with header (text "070702")) then None else
  match hex8 (drop 54 header), hex8 (drop 94 header) with
  | Some size, Some namesize =>
      if namesize =? 0 then None else
      let name_at := offset + CPIO_HEADER_SIZE in
      let data_at := align4 (u32 (name_at + namesize)) in
      let next := align4 (u32 (data_at + size)) in
      if (archive_size <? name_at + namesize) || (archive_size <? data_at + size) || (archive_size <? next)
      then None
      else Some (CpioEntry (bytes_at a name_at (namesize - 1)) data_at size next)
  | _, _ => None
  end.

(** [namesize == 10 && memcmp(name, "TRAILER!!!", 10) == 0]. *)
Definition is_trailer (e : cpio_entry) : bool := bool_decide (c_name e = text "TRAILER!!!").

Definition index_entry (e : cpio_entry) : initramfs_entry :=
  IEntry (path_hash (c_name e)) (Z.of_nat (length (c_name e))) (c_data e) (c_size e).

(** The loop, with the places left in the index; [None] is a failed mount.
    [src/fs/initramfs.c:100-115] initramfs_mount *)
Fixpoint mount_loop (room : nat) (a : list Z) (offset : Z) (index : list initramfs_entry)
    : option (list initramfs_entry) :=
  match next_entry a offset with
  | None => None
  | Some e =>
      if is_trailer e then Some index
      else match room with
           | O => None
           | S room' => mount_loop room' a (c_next e) (index ++ [index_entry e])
           end
  end.

(** [image] is what the boot loader hands over.
    [src/fs/initramfs.c:86-121] initramfs_mount *)
Definition initramfs_mount (image : option (list Z)) (s : initramfs) : bool * initramfs :=
  match image with
  | None => (false, s)
  | Some a =>
      let size := Z.of_nat (length a) in
      if (size <? CPIO_HEADER_SIZE) || (UINT32_MAX <? size) then (false, s)
      else match mount_loop INITRAMFS_MAX_FILES a 0 [] with
           | Some index => (true, Initramfs (Some a) index)
           | None => (false, Initramfs None [])
           end
  end.

(** [src/fs/initramfs.c:123-123] initramfs_is_mounted *)
Definition initramfs_is_mounted (s : initramfs) : bool := bool_decide (is_Some (archive s)).

(** The text from the first byte that is no slash. *)
Fixpoint skip_root (path : list Z) : list Z :=
  match path with
  | c :: path' => if c =? 47 then skip_root path' else path
  | [] => []
  end.

(** The bytes of the file.
    [src/fs/initramfs.c:125-141] initramfs_find *)
Definition initramfs_find (path : list Z) (s : initramfs) : option (list Z) :=
  match archive s with
  | None => None
  | Some a =>
      let path := skip_root path in
      let hash := path_hash path in
      let hit i := let e := aget ientry_zero (file_index s) i in
                   (i_path_length e =? Z.of_nat (length path)) && (i_path_hash e =? hash) in
      match for_first hit (length (file_index s)) 0 with
      | Some i => let e := aget ientry_zero (file_index s) i in Some (bytes_at a (i_data e) (i_size e))
      | None => None
      end
  end.

(** The entries the other loops see: those up to the trailer or the end.  The
    walk is the one that succeeded when the image was mounted.
    [src/fs/initramfs.c:159-161] initramfs_directory_exists *)
Fixpoint walk (fuel : nat) (a : list Z) (offset : Z) : option (list cpio_entry) :=
  match fuel with
  | O => None
  | S fuel' =>
      match next_entry a offset with
      | None => Some []
      | Some e => if is_trailer e then Some [] else cons e <$> walk fuel' a (c_next e)
      end
  end.
Definition WALK_FUEL : nat := S INITRAMFS_MAX_FILES.

(** The text without the slashes at its end. *)
Definition trim_slashes (path : list Z) : list Z := rev (skip_root (rev path)).

(** [src/fs/initramfs.c:143-164] initramfs_directory_exists *)
Definition initramfs_directory_exists (path : list Z) (s : initramfs) : option bool :=
  match archive s with
  | None => Some false
  | Some a =>
      let prefix := trim_slashes (skip_root path) in
      if Z.of_nat (length prefix) =? 0 then Some true
      else existsb (λ e, (Z.of_nat (length prefix) + 1 <? Z.of_nat (length (c_name e))) &&
                         starts_with (c_name e) prefix &&
                         (aget 0 (c_name e) (Z.of_nat (length prefix)) =? 47)) <$> walk WALK_FUEL a 0
  end.

(** The loop over the entries.
    [src/fs/initramfs.c:178-214] list_common *)
Fixpoint list_loop (es : list cpio_entry) (prefix : list Z) (capacity room : Z) (out : list directory_entry)
    : list directory_entry :=
  match es with
  | [] => out
  | e :: es' =>
      if (Z.of_nat (length (c_name e)) <=? Z.of_nat (length prefix)) || negb (starts_with (c_name e) prefix)
      then list_loop es' prefix capacity room out
      else
        let base := drop (length prefix) (c_name e) in
        if existsb (λ c, c =? 47) base || (capacity <=? Z.of_nat (length out))
        then list_loop es' prefix capacity room out
        else list_loop es' prefix capacity room (out ++ [DirEntry (copy_text base room) (c_size e) 0])
  end.

(** [src/fs/initramfs.c:166-216] list_common *)
Definition list_common (path : list Z) (capacity : Z) (long_names : bool) (s : initramfs)
    : option (Z * list directory_entry) :=
  match archive s with
  | None => Some (FS_ERROR_INVALID, [])
  | Some a =>
      if capacity =? 0 then Some (FS_ERROR_INVALID, []) else
      let prefix := skip_root path in
      if negb (Z.of_nat (length prefix) =? 0) && negb (aget 0 prefix (Z.of_nat (length prefix) - 1) =? 47)
      then Some (FS_ERROR_NOT_DIR, [])
      else match walk WALK_FUEL a 0 with
           | None => None
           | Some es =>
               let room := if long_names then FS_LONG_NAME_CAPACITY else FS_DIRECTORY_NAME_CAPACITY in
               let out := list_loop es prefix capacity room [] in
               Some (i32 (Z.of_nat (length out)), out)
           end
  end.

(** [src/fs/initramfs.c:218-221] initramfs_list *)
Definition initramfs_list (path : list Z) (capacity : Z) (s : initramfs) := list_common path capacity false s.
(** [src/fs/initramfs.c:222-226] initramfs_list_long *)
Definition initramfs_list_long (path : list Z) (capacity : Z) (s : initramfs) := list_common path capacity true s.

(** ** The writer (src/mk/gen_assets.py)

    What the build puts into the image.  A text of the script is the list of its
    bytes. *)

(** One digit of "%08x". *)
Definition hex_char (d : Z) : Z := if d <? 10 then 48 + d else 97 + (d - 10).
Definition hex32 (n : Z) : list Z := map (λ k, hex_char (Z.land (n ≫ k) 15)) [28; 24; 20; 16; 12; 8; 4; 0].

(** ["\0" * ((-len(result)) % 4)]. *)
Definition pad4 (result : list Z) : list Z := result ++ zeros ((- Z.of_nat (length result)) mod 4).

(** [mk/gen_assets.py:12-16] cpio_newc_entry *)
Definition cpio_header (size namesize : Z) : list Z :=
  text "070701" ++ hex32 0 ++ hex32 33188 ++ hex32 0 ++ hex32 0 ++ hex32 1 ++ hex32 0 ++
  hex32 size ++ hex32 0 ++ hex32 0 ++ hex32 0 ++ hex32 0 ++ hex32 namesize ++ hex32 0.

(** [mk/gen_assets.py:10-21] cpio_newc_entry *)
Definition cpio_newc_entry (name data : list Z) : list Z :=
  let encoded_name := name ++ [0] in
  let header := cpio_header (Z.of_nat (length data)) (Z.of_nat (length encoded_name)) in
  let result := pad4 (header ++ encoded_name) in
  pad4 (result ++ data).

(** [mk/gen_assets.py:24-29] write_initramfs *)
Definition write_initramfs (files : list (list Z * list Z)) : list Z :=
  concat (map (λ f, cpio_newc_entry (skip_root f.1) f.2) files) ++ cpio_newc_entry (text "TRAILER!!!") [].

Example image_ex :
  initramfs_find (text "/bin/init") (initramfs_mount (Some (write_initramfs
    [(text "/a", [1; 2; 3]); (text "/bin/init", [7; 8]); (text "/bin/x", [])])) initramfs_boot).2 = Some [7; 8].
Proof. vm_compute. reflexivity. Qed.

(** ** Numbers in the header *)

Lemma hex_digit_char d : 0 ≤ d < 16 → hex_digit (hex_char d) = Some d.
Proof.
  intros Hd. assert (d ∈ seqZ 0 16) as Hin by (apply elem_of_seqZ; lia).
  assert (Forall (λ d, hex_digit (hex_char d) = Some d) (seqZ 0 16)) as F by (apply (bool_decide_unpack _); vm_compute; exact I).
  exact (proj1 (Forall_forall _ _) F d Hin).
Qed.

Lemma hex_step n k : 0 ≤ n < 2 ^ 32 → 0 ≤ k →
  Z.lor (u32 ((n ≫ (k + 4)) ≪ 4)) (Z.land (n ≫ k) 15) = n ≫ k.
Proof.
  intros Hn Hk. rewrite u32_small.
  2:{ rewrite Z.shiftl_mul_pow2, Z.shiftr_div_pow2 by lia. rewrite Z.pow_add_r by lia.
      assert (0 < 2 ^ k) by (apply Z.pow_pos_nonneg; lia). rewrite <- Z.div_div by lia.
      assert (0 ≤ n / 2 ^ k ≤ n) by (split; [apply Z.div_pos; lia|apply Z.div_le_upper_bound; [lia|];
        assert (n * 1 ≤ n * 2 ^ k) by (apply Z.mul_le_mono_nonneg_l; lia); lia]).
      change (2 ^ 4) with 16. Z.div_mod_to_equations. lia. }
  change 15 with (Z.ones 4). apply Z.bits_inj'. intros i Hi.
  rewrite Z.lor_spec, Z.land_spec, Z.testbit_ones_nonneg, Z.shiftl_spec, !(Z.shiftr_spec n k) by lia.
  destruct (Z.ltb_spec i 4).
  - rewrite Z.testbit_neg_r by lia. by rewrite andb_true_r.
  - rewrite Z.shiftr_spec by lia. rewrite andb_false_r, orb_false_r. f_equal. lia.
Qed.

Lemma hex8_hex32 n rest : 0 ≤ n < 2 ^ 32 → hex8 (hex32 n ++ rest) = Some n.
Proof.
  intros Hn. unfold hex8. change 8%nat with (length (hex32 n)). rewrite take_app_length. unfold hex32.
  assert (n ≫ (28 + 4) = 0) as Z0 by (rewrite Z.shiftr_div_pow2 by lia; apply Z.div_small; lia).
  cbn [map hex_loop].
  do 8 (rewrite hex_digit_char by (change 15 with (Z.ones 4); rewrite Z.land_ones by lia; apply Z.mod_pos_bound; lia)).
  replace (u32 (0 ≪ 4)) with (u32 ((n ≫ (28 + 4)) ≪ 4)) by (by rewrite Z0).
  rewrite (hex_step n 28) by lia.
  repeat match goal with |- context [Z.lor (u32 ((n ≫ ?j) ≪ 4)) (Z.land (n ≫ ?k) 15)] =>
    replace j with (k + 4) by lia; rewrite (hex_step n k) by lia end.
  change (n ≫ 4) with (n ≫ (0 + 4)). rewrite (hex_step n 0) by lia. by rewrite Z.shiftr_0_r.
Qed.

(** ** Reading what was written *)

Lemma align4_spec x : 0 ≤ x ≤ 2 ^ 32 - 4 → align4 x = x + (- x) mod 4.
Proof.
  intros Hx. unfold align4. rewrite u32_small by lia.
  assert (Z.land (x + 3) (UINT32_MAX - 3) = ((x + 3) ≫ 2) ≪ 2) as ->.
  { change (UINT32_MAX - 3) with (Z.ones 30 ≪ 2). apply Z.bits_inj'. intros i Hi.
    rewrite Z.land_spec, !Z.shiftl_spec by lia. destruct (Z.ltb_spec i 2).
    - rewrite !(Z.testbit_neg_r _ (i - 2)) by lia. by rewrite andb_false_r.
    - rewrite Z.shiftr_spec by lia. rewrite Z.testbit_ones_nonneg by lia. replace (i - 2 + 2) with i by lia.
      destruct (Z.ltb_spec (i - 2) 30); [by rewrite andb_true_r|]. rewrite andb_false_r.
      destruct (decide (x + 3 = 0)) as [->|]; [by rewrite Z.bits_0|].
      symmetry. apply Z.bits_above_log2; [lia|]. apply Z.log2_lt_pow2; [lia|].
      assert (2 ^ 32 ≤ 2 ^ i) by (apply Z.pow_le_mono_r; lia). lia. }
  rewrite Z.shiftl_mul_pow2, Z.shiftr_div_pow2 by lia. change (2 ^ 2) with 4. Z.div_mod_to_equations. lia.
Qed.

Lemma starts_with_app l x : starts_with (l ++ x) l = true.
Proof. unfold starts_with. rewrite take_app_length. by apply bool_decide_eq_true_2. Qed.

Lemma length_pad4 l : Z.of_nat (length (pad4 l)) = Z.of_nat (length l) + (- Z.of_nat (length l)) mod 4.
Proof. unfold pad4. rewrite length_app, length_zeros. pose proof (Z.mod_pos_bound (- Z.of_nat (length l)) 4). lia. Qed.

Lemma header_size size namesize rest : 0 ≤ size < 2 ^ 32 → hex8 (drop 54 (cpio_header size namesize ++ rest)) = Some size.
Proof.
  intros Hs. etrans; [|apply (hex8_hex32 size (hex32 0 ++ hex32 0 ++ hex32 0 ++ hex32 0 ++ hex32 namesize ++ hex32 0 ++ rest) Hs)].
  reflexivity.
Qed.
Lemma header_namesize size namesize rest : 0 ≤ namesize < 2 ^ 32 →
  hex8 (drop 94 (cpio_header size namesize ++ rest)) = Some namesize.
Proof. intros Hs. etrans; [|apply (hex8_hex32 namesize (hex32 0 ++ rest) Hs)]. reflexivity. Qed.

(** The length of an entry, and where its data begins. *)
Definition data_offset (name : list Z) : Z :=
  let l := CPIO_HEADER_SIZE + Z.of_nat (length name) + 1 in l + (- l) mod 4.
Definition entry_length (name data : list Z) : Z :=
  let l := data_offset name + Z.of_nat (length data) in l + (- l) mod 4.

Lemma length_entry name data : Z.of_nat (length (cpio_newc_entry name data)) = entry_length name data.
Proof.
  unfold cpio_newc_entry. rewrite length_pad4, length_app, Nat2Z.inj_add, length_pad4, !length_app.
  change (length (cpio_header _ _)) with 110%nat. unfold entry_length, data_offset, CPIO_HEADER_SIZE. cbn [length].
  repeat f_equal; lia.
Qed.

Lemma bytes_at_middle x y z o : o = Z.of_nat (length x) → bytes_at (x ++ y ++ z) o (Z.of_nat (length y)) = y.
Proof. intros ->. unfold bytes_at. rewrite !Nat2Z.id, drop_app_length. by rewrite take_app_length. Qed.

Lemma next_entry_written pre name data post :
  Z.of_nat (length pre) mod 4 = 0 →
  Z.of_nat (length pre) + entry_length name data + Z.of_nat (length post) ≤ 2 ^ 32 - 4 →
  next_entry (pre ++ cpio_newc_entry name data ++ post) (Z.of_nat (length pre)) =
    Some (CpioEntry name (Z.of_nat (length pre) + data_offset name) (Z.of_nat (length data))
            (Z.of_nat (length pre) + entry_length name data)) ∧
  bytes_at (pre ++ cpio_newc_entry name data ++ post) (Z.of_nat (length pre) + data_offset name)
    (Z.of_nat (length data)) = data.
Proof.
  intros Al Fit. pose proof (length_entry name data) as Le. set (e := cpio_newc_entry name data) in *.
  assert (0 ≤ data_offset name ≤ entry_length name data) as Hd.
  { unfold entry_length, data_offset, CPIO_HEADER_SIZE. Z.div_mod_to_equations. lia. }
  assert (e = cpio_header (Z.of_nat (length data)) (Z.of_nat (length (name ++ [0]))) ++ name ++ [0] ++
    zeros (data_offset name - (CPIO_HEADER_SIZE + Z.of_nat (length name) + 1)) ++ data ++
    zeros (entry_length name data - data_offset name - Z.of_nat (length data))) as Ee.
  { subst e. unfold cpio_newc_entry. set (h := cpio_header _ _). assert (length h = 110%nat) as Lh by done.
    assert (Z.of_nat (length (h ++ name ++ [0])) = CPIO_HEADER_SIZE + Z.of_nat (length name) + 1) as L1
      by (rewrite !length_app, Lh; unfold CPIO_HEADER_SIZE; cbn [length]; lia).
    unfold pad4 at 1. rewrite length_app, Nat2Z.inj_add, length_pad4, L1. unfold pad4. rewrite L1.
    rewrite <- !app_assoc. do 4 f_equal; [f_equal; unfold data_offset; lia|]. f_equal. f_equal.
    unfold entry_length. fold (data_offset name). lia. }
  clearbody e. set (a := pre ++ e ++ post).
  assert (Z.of_nat (length a) = Z.of_nat (length pre) + entry_length name data + Z.of_nat (length post)) as La
    by (unfold a; rewrite !length_app; lia).
  assert (CPIO_HEADER_SIZE + Z.of_nat (length name) + 1 ≤ data_offset name ∧
          data_offset name + Z.of_nat (length data) ≤ entry_length name data) as [H1 H2].
  { unfold entry_length. split; [unfold data_offset|]; Z.div_mod_to_equations; lia. }
  set (z1 := data_offset name - _) in Ee. set (z2 := entry_length name data - _ - _) in Ee.
  assert (a = (pre ++ cpio_header (Z.of_nat (length data)) (Z.of_nat (length (name ++ [0])))) ++ name ++
              ([0] ++ zeros z1 ++ data ++ zeros z2 ++ post)) as An.
  { unfold a. rewrite Ee. by rewrite <- !app_assoc. }
  assert (a = (pre ++ cpio_header (Z.of_nat (length data)) (Z.of_nat (length (name ++ [0]))) ++ name ++ [0] ++ zeros z1) ++
              data ++ (zeros z2 ++ post)) as Ad.
  { unfold a. rewrite Ee. by rewrite <- !app_assoc. }
  assert (bytes_at a (Z.of_nat (length pre) + data_offset name) (Z.of_nat (length data)) = data) as Bd.
  { rewrite Ad. apply bytes_at_middle. rewrite !length_app, length_zeros.
    change (length (cpio_header _ _)) with 110%nat. unfold z1, CPIO_HEADER_SIZE in *. cbn [length]. lia. }
  split; [|exact Bd].
  assert (drop (Z.to_nat (Z.of_nat (length pre))) a = cpio_header (Z.of_nat (length data)) (Z.of_nat (length (name ++ [0]))) ++
    name ++ [0] ++ zeros z1 ++ data ++ zeros z2 ++ post) as Eh.
  { rewrite An, <- !app_assoc, Nat2Z.id. by rewrite drop_app_length. }
  assert (bytes_at a (Z.of_nat (length pre) + CPIO_HEADER_SIZE) (Z.of_nat (length (name ++ [0])) - 1) = name) as Bn.
  { rewrite An. replace (Z.of_nat (length (name ++ [0])) - 1) with (Z.of_nat (length name)) by (rewrite length_app; cbn [length]; lia).
    apply bytes_at_middle. rewrite length_app. change (length (cpio_header _ _)) with 110%nat. unfold CPIO_HEADER_SIZE. lia. }
  assert (Z.of_nat (length (name ++ [0])) = Z.of_nat (length name) + 1) as Ln by (rewrite length_app; cbn [length]; lia).
  unfold next_entry. rewrite Eh, La. unfold CPIO_HEADER_SIZE in *.
  destruct (Z.ltb_spec (Z.of_nat (length pre) + entry_length name data + Z.of_nat (length post)) (Z.of_nat (length pre))); [lia|].
  destruct (Z.ltb_spec (Z.of_nat (length pre) + entry_length name data + Z.of_nat (length post) - Z.of_nat (length pre)) 110); [lia|].
  cbn [orb]. change (starts_with (cpio_header _ _ ++ _) (text "070701")) with true. cbn [negb andb].
  rewrite header_size, header_namesize by lia. rewrite Bn, Ln.
  destruct (Z.eqb_spec (Z.of_nat (length name) + 1) 0); [lia|].
  rewrite (u32_small (Z.of_nat (length pre) + 110 + _)) by lia. rewrite align4_spec by lia.
  replace (Z.of_nat (length pre) + 110 + (Z.of_nat (length name) + 1) + _) with (Z.of_nat (length pre) + data_offset name).
  2:{ unfold data_offset, CPIO_HEADER_SIZE. Z.div_mod_to_equations. lia. }
  rewrite u32_small by lia. rewrite align4_spec by lia.
  replace (Z.of_nat (length pre) + data_offset name + Z.of_nat (length data) + _) with (Z.of_nat (length pre) + entry_length name data).
  2:{ unfold entry_length. Z.div_mod_to_equations. lia. }
  destruct (Z.ltb_spec (Z.of_nat (length pre) + entry_length name data + Z.of_nat (length post)) (Z.of_nat (length pre) + 110 + (Z.of_nat (length name) + 1))); [lia|].
  destruct (Z.ltb_spec (Z.of_nat (length pre) + entry_length name data + Z.of_nat (length post)) (Z.of_nat (length pre) + data_offset name + Z.of_nat (length data))); [lia|].
  destruct (Z.ltb_spec (Z.of_nat (length pre) + entry_length name data + Z.of_nat (length post)) (Z.of_nat (length pre) + entry_length name data)); [lia|].
  done.
Qed.

(** ** The whole image *)

Definition stored (f : list Z * list Z) : list Z := skip_root f.1.
Definition entries_of (files : list (list Z * list Z)) : list Z :=
  concat (map (λ f, cpio_newc_entry (skip_root f.1) f.2) files).

Lemma entry_aligned name data : entry_length name data mod 4 = 0.
Proof. unfold entry_length. Z.div_mod_to_equations. lia. Qed.

(** An index entry and the file it is about. *)
Definition placed (a : list Z) (e : initramfs_entry) (f : list Z * list Z) : Prop :=
  i_path_hash e = path_hash (stored f) ∧ i_path_length e = Z.of_nat (length (stored f)) ∧
  bytes_at a (i_data e) (i_size e) = f.2.
(** An entry of the walk and the file it is about. *)
Definition walked (e : cpio_entry) (f : list Z * list Z) : Prop :=
  c_name e = stored f ∧ c_size e = Z.of_nat (length f.2).

Definition plain_files (files : list (list Z * list Z)) : Prop :=
  Forall (λ f, stored f ≠ text "TRAILER!!!") files.

(** The two loops over the archive, from a boundary between entries on. *)
Lemma loops_written files : ∀ pre, Z.of_nat (length pre) mod 4 = 0 → plain_files files →
  Z.of_nat (length (pre ++ write_initramfs files)) ≤ 2 ^ 32 - 4 →
  (∀ room index, (length files ≤ room)%nat → ∃ es,
     mount_loop room (pre ++ write_initramfs files) (Z.of_nat (length pre)) index = Some (index ++ es) ∧
     Forall2 (placed (pre ++ write_initramfs files)) es files) ∧
  (∀ fuel, (length files < fuel)%nat → ∃ es,
     walk fuel (pre ++ write_initramfs files) (Z.of_nat (length pre)) = Some es ∧ Forall2 walked es files).
Proof.
  unfold write_initramfs. fold entries_of.
  induction files as [|f files IH]; intros pre Al Pl Fit.
  - cbn [concat map app] in *. rewrite length_app in Fit.
    pose proof (length_entry (text "TRAILER!!!") []) as Lt.
    destruct (next_entry_written pre (text "TRAILER!!!") [] [] Al) as [E _]; [cbn [length]; lia|].
    rewrite app_nil_r in E. split.
    + intros room index _. exists []. rewrite app_nil_r. split; [|by apply Forall2_nil].
      destruct room; cbn [mount_loop]; rewrite E; reflexivity.
    + intros [|fuel] Hf; [cbn in Hf; lia|]. exists []. split; [|by apply Forall2_nil]. cbn [walk]. rewrite E. reflexivity.
  - apply Forall_cons in Pl as [Pf Pl]. cbn [concat map] in *. rewrite <- app_assoc in *.
    set (rest := concat (map _ files) ++ cpio_newc_entry (text "TRAILER!!!") []) in *.
    set (e := cpio_newc_entry (skip_root f.1) f.2) in *.
    pose proof (length_entry (skip_root f.1) f.2) as Le. fold e in Le. rewrite !length_app in Fit.
    destruct (next_entry_written pre (skip_root f.1) f.2 rest Al) as [E B]; [lia|]. fold e in E, B.
    destruct (IH (pre ++ e)) as [IHm IHw]; [|done| |].
    { rewrite length_app, Nat2Z.inj_add, Le. pose proof (entry_aligned (skip_root f.1) f.2). Z.div_mod_to_equations. lia. }
    { rewrite !length_app. lia. }
    rewrite <- app_assoc in IHm, IHw. rewrite length_app, Nat2Z.inj_add, Le in IHm, IHw.
    assert (∀ d s n, is_trailer (CpioEntry (skip_root f.1) d s n) = false) as Nt
      by (intros; apply bool_decide_eq_false_2, Pf).
    split.
    + intros [|room] index Hr; [cbn in Hr; lia|]. cbn [mount_loop]. rewrite E, Nt. cbn [c_next].
      destruct (IHm room (index ++ [index_entry (CpioEntry (skip_root f.1)
        (Z.of_nat (length pre) + data_offset (skip_root f.1)) (Z.of_nat (length f.2))
        (Z.of_nat (length pre) + entry_length (skip_root f.1) f.2))])) as (es&Em&Fm); [cbn in Hr; lia|].
      rewrite <- app_assoc in Em. eexists. split; [exact Em|]. by apply Forall2_cons.
    + intros [|fuel] Hr; [cbn in Hr; lia|]. cbn [walk]. rewrite E, Nt. cbn [c_next].
      destruct (IHw fuel) as (es&Ew&Fw); [cbn in Hr; lia|]. rewrite Ew. eexists. split; [done|]. by apply Forall2_cons.
Qed.

Lemma mount_written files s : (length files ≤ INITRAMFS_MAX_FILES)%nat → plain_files files →
  Z.of_nat (length (write_initramfs files)) ≤ 2 ^ 32 - 4 →
  ∃ index es, initramfs_mount (Some (write_initramfs files)) s =
      (true, Initramfs (Some (write_initramfs files)) index) ∧
    Forall2 (placed (write_initramfs files)) index files ∧
    walk WALK_FUEL (write_initramfs files) 0 = Some es ∧ Forall2 walked es files.
Proof.
  intros Hn Hp Hl. destruct (loops_written files [] eq_refl Hp Hl) as [Hm Hw].
  destruct (Hm INITRAMFS_MAX_FILES [] Hn) as (index&Em&Fm). destruct (Hw WALK_FUEL) as (es&Ew&Fw); [unfold WALK_FUEL; lia|].
  cbn [app length] in *. exists index, es. split_and!; try done. unfold initramfs_mount.
  assert (CPIO_HEADER_SIZE ≤ Z.of_nat (length (write_initramfs files))) as Hs.
  { unfold write_initramfs. rewrite length_app. pose proof (length_entry (text "TRAILER!!!") []) as Lt.
    assert (entry_length (text "TRAILER!!!") [] = 124) as E124 by done. unfold CPIO_HEADER_SIZE. lia. }
  unfold UINT32_MAX. destruct (Z.ltb_spec (Z.of_nat (length (write_initramfs files))) CPIO_HEADER_SIZE); [lia|].
  destruct (Z.ltb_spec 4294967295 (Z.of_nat (length (write_initramfs files)))); [lia|]. cbn [orb].
  change (Z.of_nat 0) with 0 in Em. by rewrite Em.
Qed.

(** The first file of a name. *)
Definition file_named (files : list (list Z * list Z)) (name : list Z) : option (list Z) :=
  match list_find (λ f, stored f = name) files with Some (_, f) => Some f.2 | None => None end.

(** No file of the image is taken for another. *)
Definition no_collision (files : list (list Z * list Z)) (name : list Z) : Prop :=
  ∀ f, f ∈ files → length (stored f) = length name → path_hash (stored f) = path_hash name → stored f = name.

Lemma no_collision_check files name :
  Forall (λ f, length (stored f) = length name → path_hash (stored f) = path_hash name → stored f = name) files →
  no_collision files name.
Proof. intros F. exact (proj1 (Forall_forall _ files) F). Qed.

Lemma find_placed a index files path : Forall2 (placed a) index files → no_collision files (skip_root path) →
  initramfs_find path (Initramfs (Some a) index) = file_named files (skip_root path).
Proof.
  intros F N. unfold initramfs_find, file_named. cbn [archive file_index]. set (q := skip_root path) in *.
  set (hit := λ i, _). assert (∀ i f, files !! i = Some f → hit (Z.of_nat i) = bool_decide (stored f = q)) as Hit.
  { intros i f Hf. destruct (Forall2_lookup_r _ _ _ _ _ F Hf) as (e&He&Hh&Hl&_). subst hit. cbn beta.
    unfold aget. rewrite Nat2Z.id, nth_lookup, He. cbn [default from_option id]. rewrite Hl, Hh.
    case_bool_decide as E.
    - rewrite E, !Z.eqb_refl. done.
    - apply andb_false_iff. destruct (Z.eqb_spec (Z.of_nat (length (stored f))) (Z.of_nat (length q))); [|by left].
      right. apply Z.eqb_neq. intros Eh. apply E, N; [by apply list_elem_of_lookup_2 in Hf|lia|done]. }
  destruct (list_find _ files) as [[i f]|] eqn:Ef.
  - apply list_find_Some in Ef as (Hf&Ef&Hmin).
    destruct (Forall2_lookup_r _ _ _ _ _ F Hf) as (e&He&_&_&Hd). pose proof (lookup_lt_Some _ _ _ Hf).
    rewrite (for_first_intro hit _ 0 (Z.of_nat i)).
    + unfold aget. rewrite Nat2Z.id, nth_lookup, He. cbn [default from_option id]. by rewrite Hd.
    + rewrite (Forall2_length _ _ _ F). lia.
    + rewrite (Hit i f Hf). by apply bool_decide_eq_true_2.
    + intros j Hj. destruct (lookup_lt_is_Some_2 files (Z.to_nat j)) as [g Hg]; [lia|].
      replace j with (Z.of_nat (Z.to_nat j)) by lia. rewrite (Hit _ g Hg). apply bool_decide_eq_false_2.
      apply (Hmin (Z.to_nat j) g Hg). lia.
  - rewrite list_find_None in Ef. rewrite (proj2 (for_first_None hit _ _)); [done|]. intros j Hj.
    rewrite (Forall2_length _ _ _ F) in Hj. destruct (lookup_lt_is_Some_2 files (Z.to_nat j)) as [g Hg]; [lia|].
    replace j with (Z.of_nat (Z.to_nat j)) by lia. rewrite (Hit _ g Hg). apply bool_decide_eq_false_2.
    exact (proj1 (Forall_forall _ _) Ef g (list_elem_of_lookup_2 _ _ _ Hg)).
Qed.

(** ** Directories *)

(** A file below a directory of the image, given without its slashes. *)
Definition below (d : list Z) (f : list Z * list Z) : Prop := ∃ rest, rest ≠ [] ∧ stored f = d ++ 47 :: rest.
(** A file of a directory, the prefix of its name with the slash at its end. *)
Definition directly (prefix : list Z) (f : list Z * list Z) : Prop :=
  ∃ base, base ≠ [] ∧ Forall (λ c, c ≠ 47) base ∧ stored f = prefix ++ base.

Lemma starts_with_spec l p : starts_with l p = true ↔ ∃ rest, l = p ++ rest.
Proof.
  unfold starts_with. rewrite bool_decide_eq_true. split.
  - intros E. exists (drop (length p) l). rewrite <- E at 1. by rewrite take_drop.
  - intros [rest ->]. by rewrite take_app_length.
Qed.

Lemma below_test d e f : walked e f →
  ((Z.of_nat (length d) + 1 <? Z.of_nat (length (c_name e))) && starts_with (c_name e) d &&
   (aget 0 (c_name e) (Z.of_nat (length d)) =? 47)) = true ↔ below d f.
Proof.
  intros [-> _]. rewrite !andb_true_iff, starts_with_spec, Z.ltb_lt, Z.eqb_eq. split.
  - intros [[Hl [rest E]] H47]. rewrite E in *. rewrite length_app in Hl.
    rewrite aget_app_r, Z.sub_diag in H47 by lia. destruct rest as [|c rest]; [done|]. rewrite aget_0 in H47.
    subst c. cbn [length] in Hl. exists rest. split; [intros ->; cbn in Hl; lia|done].
  - intros (rest&Hr&E). rewrite E, length_app. destruct rest as [|c rest]; [done|]. cbn [length]. split_and!; [lia|eauto|].
    by rewrite aget_app_r, Z.sub_diag by lia.
Qed.

Lemma below_exists d es files : Forall2 walked es files →
  existsb (λ e, (Z.of_nat (length d) + 1 <? Z.of_nat (length (c_name e))) && starts_with (c_name e) d &&
                (aget 0 (c_name e) (Z.of_nat (length d)) =? 47)) es = true ↔ Exists (below d) files.
Proof.
  induction 1 as [|e f es files He F IH]; [split; [done|by intros ?%Exists_nil]|]. cbn [existsb].
  rewrite orb_true_iff, Exists_cons, (below_test d e f He), IH. done.
Qed.

Lemma directory_spec a index es files path : walk WALK_FUEL a 0 = Some es → Forall2 walked es files →
  ∃ b, initramfs_directory_exists path (Initramfs (Some a) index) = Some b ∧
    (b = true ↔ trim_slashes (skip_root path) = [] ∨ Exists (below (trim_slashes (skip_root path))) files).
Proof.
  intros Ew F. unfold initramfs_directory_exists. cbn [archive]. set (d := trim_slashes (skip_root path)).
  destruct (Z.eqb_spec (Z.of_nat (length d)) 0) as [E0|E0].
  { assert (d = []) as -> by (destruct d; [done|cbn in E0; lia]). exists true. split; [done|]. split; [by left|done]. }
  rewrite Ew. eexists. split; [done|]. rewrite (below_exists d es files F).
  split; [by right|]. intros [E|]; [|done]. by rewrite E in E0.
Qed.

(** The listing: the files directly in the directory, as far as there is room. *)
Definition listed (prefix : list Z) (room : Z) (files : list (list Z * list Z)) : list directory_entry :=
  omap (λ f, if starts_with (stored f) prefix then
               let base := drop (length prefix) (stored f) in
               if (Z.of_nat (length base) =? 0) || existsb (λ c, c =? 47) base then None
               else Some (DirEntry (copy_text base room) (Z.of_nat (length f.2)) 0)
             else None) files.

Lemma skip_root_suffix path : ∃ k, path = k ++ skip_root path.
Proof.
  induction path as [|c path [k IH]]; [by exists []|]. cbn [skip_root]. destruct (c =? 47); [|by exists []].
  exists (c :: k). by rewrite IH at 1.
Qed.

Lemma image_list_loop es files prefix capacity room : Forall2 walked es files → ∀ out,
  Z.of_nat (length out) ≤ capacity →
  list_loop es prefix capacity room out = take (Z.to_nat capacity) (out ++ listed prefix room files).
Proof.
  induction 1 as [|e f es files [Hn Hs] F IH]; intros out Hout; cbn [list_loop listed omap list_omap].
  { rewrite app_nil_r, take_ge by lia. done. }
  fold (listed prefix room files). rewrite Hn, Hs.
  destruct (starts_with (stored f) prefix) eqn:Es; [|rewrite orb_true_r; by apply IH].
  rewrite orb_false_r. apply starts_with_spec in Es as [base Eb]. rewrite Eb, drop_app_length, length_app.
  destruct (Z.leb_spec (Z.of_nat (length prefix + length base)) (Z.of_nat (length prefix))) as [L|L].
  { destruct (Z.eqb_spec (Z.of_nat (length base)) 0); [|lia]. cbn [orb]. by apply IH. }
  destruct (Z.eqb_spec (Z.of_nat (length base)) 0); [lia|]. cbn [orb].
  destruct (existsb _ base); [cbn [orb]; by apply IH|]. cbn [orb].
  destruct (Z.leb_spec capacity (Z.of_nat (length out))).
  - rewrite IH by done. rewrite !take_app_le by lia. done.
  - rewrite IH by (rewrite length_app; cbn [length]; lia). by rewrite <- app_assoc.
Qed.

(** ** Properties *)

(** C30: The kernel reads back the image the build writes: for up to 512 files
    whose names are none the trailer's and whose archive stays below 4 GiB less
    four bytes, mounting succeeds; a path finds the contents of the first file of
    that name, and nothing if there is none, unless its hash and length are those
    of another file; and a directory exists exactly when a file is below it. *)
Theorem initramfs_roundtrip files s0 :
  (length files ≤ INITRAMFS_MAX_FILES)%nat → plain_files files →
  Z.of_nat (length (write_initramfs files)) ≤ 2 ^ 32 - 4 →
  ∃ s, initramfs_mount (Some (write_initramfs files)) s0 = (true, s) ∧
    (∀ path, no_collision files (skip_root path) → initramfs_find path s = file_named files (skip_root path)) ∧
    (∀ path, ∃ b, initramfs_directory_exists path s = Some b ∧
       (b = true ↔ trim_slashes (skip_root path) = [] ∨ Exists (below (trim_slashes (skip_root path))) files)).
Proof.
  intros Hn Hp Hl. destruct (mount_written files s0 Hn Hp Hl) as (index&es&Em&Fm&Ew&Fw).
  eexists. split; [exact Em|]. split.
  - intros path Hc. by apply find_placed.
  - intros path. by apply (directory_spec _ _ es).
Qed.

Definition demo_image : list (list Z * list Z) := [(text "/bin/init", [7; 8]); (text "/etc/hostname", [9])].
Lemma initramfs_roundtrip_witness :
  ∃ s, initramfs_mount (Some (write_initramfs demo_image)) initramfs_boot = (true, s) ∧
    initramfs_find (text "/bin/init") s = Some [7; 8] ∧ initramfs_find (text "/bin/none") s = None ∧
    initramfs_directory_exists (text "/bin") s = Some true.
Proof.
  destruct (initramfs_roundtrip demo_image initramfs_boot) as (s&E&Hf&Hd).
  - vm_compute. lia.
  - apply (bool_decide_unpack _). vm_compute. exact I.
  - vm_compute. discriminate.
  - exists s. split; [exact E|]. split; [|split].
    + rewrite Hf; [reflexivity|]. apply no_collision_check, (bool_decide_unpack _). vm_compute. exact I.
    + rewrite Hf; [reflexivity|]. apply no_collision_check, (bool_decide_unpack _). vm_compute. exact I.
    + destruct (Hd (text "/bin")) as (b&Eb&Hb). rewrite Eb. f_equal. apply Hb. right.
      apply Exists_cons_hd. exists (text "init"). split; [discriminate|reflexivity].
Defined.

Definition demo_root : list (list Z * list Z) := [(text "/bin/init", [7; 8]); (text "/manifest.txt", [9])].

(** A listing of the image has the files that are directly in the directory
    and nothing else: a directory that exists because a file is further below
    does not appear, and no entry is marked as a directory. *)
Theorem initramfs_listing_files_only files s0 s path capacity long_names :
  (length files ≤ INITRAMFS_MAX_FILES)%nat → plain_files files →
  Z.of_nat (length (write_initramfs files)) ≤ 2 ^ 32 - 4 →
  initramfs_mount (Some (write_initramfs files)) s0 = (true, s) →
  0 < capacity < 2 ^ 31 → aget 0 path (Z.of_nat (length path) - 1) = 47 →
  ∃ out, list_common path capacity long_names s = Some (Z.of_nat (length out), out) ∧
    out = take (Z.to_nat capacity) (listed (skip_root path)
            (if long_names then FS_LONG_NAME_CAPACITY else FS_DIRECTORY_NAME_CAPACITY) files) ∧
    Forall (λ e, e_attributes e = 0 ∧ ∃ f base, f ∈ files ∧ stored f = skip_root path ++ base ∧
                 Forall (λ c, c ≠ 47) base ∧ e_name e = copy_text base
                   (if long_names then FS_LONG_NAME_CAPACITY else FS_DIRECTORY_NAME_CAPACITY)) out.
Proof.
  intros Hn Hp Hl Em Hcap Hslash. destruct (mount_written files s0 Hn Hp Hl) as (index&es&Em'&_&Ew&Fw).
  rewrite Em' in Em. injection Em as <-. unfold list_common. cbn [archive].
  destruct (Z.eqb_spec capacity 0); [lia|]. set (prefix := skip_root path).
  assert (negb (Z.of_nat (length prefix) =? 0) && negb (aget 0 prefix (Z.of_nat (length prefix) - 1) =? 47) = false) as ->.
  { apply andb_false_iff. destruct (Z.eqb_spec (Z.of_nat (length prefix)) 0); [by left|right]. apply negb_false_iff, Z.eqb_eq.
    destruct (skip_root_suffix path) as [k Ek]. fold prefix in Ek. rewrite Ek, length_app in Hslash.
    rewrite aget_app_r in Hslash by lia. etrans; [|exact Hslash]. f_equal. lia. }
  rewrite Ew. rewrite (image_list_loop es files) by (done || cbn; lia). cbn [app].
  set (room := if long_names : bool then _ else _). set (out := take _ (listed prefix room files)). exists out.
  assert (Z.of_nat (length out) ≤ capacity) by (unfold out; rewrite length_take; lia).
  rewrite i32_small by lia. split; [done|]. split; [done|]. apply Forall_forall. intros e He.
  assert (e ∈ listed prefix room files) as Hl'.
  { apply list_elem_of_lookup in He as [k Hk]. unfold out in Hk. apply lookup_take_Some in Hk as [Hk _]. by eapply list_elem_of_lookup_2. }
  apply list_elem_of_omap in Hl' as (f&Hf&Ef). destruct (starts_with _ _) eqn:Es; [|done].
  apply starts_with_spec in Es as [base Eb]. rewrite Eb, drop_app_length in Ef. cbv zeta in Ef.
  destruct (_ =? 0); [done|]. cbn [orb] in Ef. destruct (existsb _ base) eqn:Ex; [done|]. injection Ef as <-.
  split; [done|]. exists f, base. split_and!; try done. apply Forall_forall. intros c Hc ->.
  apply not_true_iff_false in Ex. apply Ex, existsb_exists. exists 47. by rewrite <- list_elem_of_In.
Qed.

(** "/bin" has a file, and the listing of "/" is the file next to it only. *)
Lemma initramfs_listing_files_only_witness :
  initramfs_directory_exists (text "/bin") (initramfs_mount (Some (write_initramfs demo_root)) initramfs_boot).2 = Some true ∧
  ∃ out, list_common (text "/") 8 true (initramfs_mount (Some (write_initramfs demo_root)) initramfs_boot).2 =
    Some (Z.of_nat (length out), out) ∧ out = [DirEntry (text "manifest.txt") 1 0].
Proof.
  split; [vm_compute; reflexivity|].
  destruct (initramfs_listing_files_only demo_root initramfs_boot
    (initramfs_mount (Some (write_initramfs demo_root)) initramfs_boot).2 (text "/") 8 true) as (out&E&Eo&_).
  - vm_compute. lia.
  - apply (bool_decide_unpack _). vm_compute. exact I.
  - vm_compute. discriminate.
  - vm_compute. reflexivity.
  - lia.
  - reflexivity.
  - exists out. split; [exact E|]. rewrite Eo. vm_compute. reflexivity.
Defined.

(** ** Images that were not written by the build *)

Lemma hex_digit_nonneg c d : hex_digit c = Some d → 0 ≤ d.
Proof. unfold hex_digit. repeat case_match; zify_bool; intros [= <-]; lia. Qed.

Lemma hex_loop_nonneg l : ∀ r n, 0 ≤ r → hex_loop l r = Some n → 0 ≤ n.
Proof.
  induction l as [|c l IH]; intros r n Hr; cbn [hex_loop]; [by intros [= <-]|].
  destruct (hex_digit c) as [d|] eqn:E; [|done]. apply IH, Z.lor_nonneg. split; [apply u32_range|by eapply hex_digit_nonneg].
Qed.

Lemma next_entry_bounds a offset e : next_entry a offset = Some e →
  0 ≤ c_data e ∧ 0 ≤ c_size e ∧ c_data e + c_size e ≤ Z.of_nat (length a).
Proof.
  unfold next_entry. destruct (_ || _); [done|]. destruct (negb _ && negb _); [done|].
  destruct (hex8 (drop 54 _)) as [size|] eqn:Es; [|done]. destruct (hex8 (drop 94 _)) as [ns|]; [|done].
  destruct (ns =? 0); [done|]. cbv zeta. destruct (_ || _) eqn:E; [done|]. intros [= <-]. cbn [c_data c_size]. zify_bool.
  split_and!; [|by eapply hex_loop_nonneg in Es|done].
  unfold align4. apply Z.land_nonneg. left. apply u32_range.
Qed.

(** Where the mounting succeeds, the walk takes the same steps. *)
Lemma mount_loop_walk room a : ∀ offset index index', mount_loop room a offset index = Some index' →
  (length index' ≤ length index + room)%nat ∧
  ∃ es, walk (S room) a offset = Some es ∧ index' = index ++ map index_entry es ∧
    Forall (λ e, 0 ≤ c_data e ∧ 0 ≤ c_size e ∧ c_data e + c_size e ≤ Z.of_nat (length a)) es.
Proof.
  induction room as [|room IH]; intros offset index index'; cbn [mount_loop walk]; destruct (next_entry a offset) as [e|] eqn:En;
    try done; destruct (is_trailer e); try done.
  - intros [= <-]. split; [lia|]. exists []. rewrite app_nil_r. split_and!; [done|done|by apply Forall_nil].
  - intros [= <-]. split; [lia|]. exists []. rewrite app_nil_r. split_and!; [done|done|by apply Forall_nil].
  - intros (Hl&es&Ew&->&F)%IH. split; [rewrite !length_app in *; cbn [length] in *; lia|].
    exists (e :: es). cbn [walk] in Ew. rewrite Ew. split_and!; [done|by rewrite <- app_assoc|].
    apply Forall_cons. split; [by eapply next_entry_bounds|done].
Qed.

(** Whatever the bytes of the image are, mounting it ends; if it succeeds,
    the index has at most 512 files, the contents of each lie within the image,
    and all later walks over the archive end within the fuel they are given. *)
Theorem initramfs_any_image_safe a s0 s : initramfs_mount (Some a) s0 = (true, s) →
  archive s = Some a ∧ (length (file_index s) ≤ INITRAMFS_MAX_FILES)%nat ∧
  Forall (λ e, 0 ≤ i_data e ∧ 0 ≤ i_size e ∧ i_data e + i_size e ≤ Z.of_nat (length a)) (file_index s) ∧
  is_Some (walk WALK_FUEL a 0) ∧
  (∀ path, is_Some (initramfs_directory_exists path s)) ∧
  (∀ path capacity long_names, is_Some (list_common path capacity long_names s)).
Proof.
  unfold initramfs_mount. destruct (_ || _); [done|].
  destruct (mount_loop _ a 0 []) as [index|] eqn:E; [|done]. intros [= <-].
  destruct (mount_loop_walk _ _ _ _ _ E) as (Hl&es&Ew&->&F). fold WALK_FUEL in Ew. cbn [archive file_index app length] in *.
  split_and!; [done|done| |by rewrite Ew| |].
  - apply Forall_map. eapply Forall_impl; [exact F|]. by intros e.
  - intros path. unfold initramfs_directory_exists. cbn [archive]. destruct (_ =? 0); [done|]. by rewrite Ew.
  - intros path capacity ln. unfold list_common. cbn [archive]. destruct (_ =? 0); [done|]. destruct (_ && _); [done|]. by rewrite Ew.
Qed.

Lemma initramfs_any_image_safe_witness :
  let s := (initramfs_mount (Some (write_initramfs demo_image)) initramfs_boot).2 in
  Forall (λ e, i_data e + i_size e ≤ Z.of_nat (length (write_initramfs demo_image))) (file_index s) ∧
  file_index s ≠ [].
Proof.
  destruct (initramfs_any_image_safe (write_initramfs demo_image) initramfs_boot
    (initramfs_mount (Some (write_initramfs demo_image)) initramfs_boot).2) as (_&_&F&_).
  - vm_compute. reflexivity.
  - split; [|vm_compute; discriminate]. eapply Forall_impl; [exact F|]. intros e (_&_&H). exact H.
Defined.
