(* ===== verification/Tmpfs.v ===== *)
(** * The in-memory file system (src/src/fs/tmpfs.c)

    256 nodes linked by the indices of their parents, 32 handles, and file
    contents on frames of the page allocator.  A node's data is the list of the
    bytes of its frames.  The functions run under the mutex of vfs.c, so each is
    one step.  A path is the text after the mount point, which begins with a
    slash; [now] is the wall clock. *)

From S2P Require Import Prelude Errno Pmm Cstr Path.

(** [src/fs/tmpfs.c:7-7] TMPFS_MAX_NODES *)
Definition TMPFS_MAX_NODES : nat := 256.
(** [src/fs/tmpfs.c:8-8] TMPFS_MAX_OPEN *)
Definition TMPFS_MAX_OPEN : nat := 32.
(** [src/fs/tmpfs.c:9-9] TMPFS_NAME_MAX *)
Definition TMPFS_NAME_MAX : Z := 63.
(** [src/fs/tmpfs.c:10-10] TMPFS_MAX_FILE *)
Definition TMPFS_MAX_FILE : Z := 8 * 1024 * 1024.
(** [src/fs/tmpfs.c:11-11] TMPFS_PAGE *)
Definition TMPFS_PAGE : Z := 4096.
(** [src/fs/tmpfs.c:12-12] TMPFS_ROOT *)
Definition TMPFS_ROOT : Z := 0.

(** Conversion to [int16_t]. *)
Definition i16 (z : Z) : Z := (z + 2 ^ 15) mod 2 ^ 16 - 2 ^ 15.

(** [n_data] holds the bytes of the frames [data] points to.
    [src/fs/tmpfs.c:14-26] node *)
Record node := Node {
  n_used : bool;
  n_directory : bool;
  n_parent : Z;
  n_name : list Z;
  n_data : list Z;
  n_physical : Z;
  n_pages : Z;
  n_size : Z;
  n_atime : Z;
  n_mtime : Z;
  n_ctime : Z;
}.
#[export] Instance eta_node : Eta node := λ n,
  Node (n_used n) (n_directory n) (n_parent n) (n_name n) (n_data n) (n_physical n) (n_pages n)
       (n_size n) (n_atime n) (n_mtime n) (n_ctime n).
Definition node_zero : node := Node false false 0 [] [] 0 0 0 0 0 0.

(** [src/fs/tmpfs.c:28-32] handle *)
Record handle := Handle { h_used : bool; h_node : Z; h_position : Z }.
#[export] Instance eta_handle : Eta handle := λ h, Handle (h_used h) (h_node h) (h_position h).
Definition handle_zero : handle := Handle false 0 0.

(** The instance, with the page allocator its data comes from.
    [src/fs/tmpfs.c:34-39] tmpfs *)
Record tmpfs := Tmpfs {
  nodes : list node;
  handles : list handle;
  used_pages : Z;
  page_limit : Z;
  t_pmm : pmm;
}.
#[export] Instance eta_tmpfs : Eta tmpfs := λ s,
  Tmpfs (nodes s) (handles s) (used_pages s) (page_limit s) (t_pmm s).

(** [sizeof(struct tmpfs)]: 256 nodes of 112 bytes, 32 handles of 8, two 64-bit
    counters. *)
Definition SIZEOF_TMPFS : Z := 256 * 112 + 32 * 8 + 16.

Definition node_at (s : tmpfs) (i : Z) : node := aget node_zero (nodes s) i.
Definition put_node (i : Z) (n : node) (s : tmpfs) : tmpfs := s <| nodes := aset (nodes s) i n |>.
Definition handle_at (s : tmpfs) (i : Z) : handle := aget handle_zero (handles s) i.
Definition put_handle (i : Z) (h : handle) (s : tmpfs) : tmpfs :=
  s <| handles := aset (handles s) i h |>.

(** The instance made, and the physical address of its own frames.
    [src/fs/tmpfs.c:41-57] vfs_tmpfs_create *)
Definition vfs_tmpfs_create (p : pmm) : option (tmpfs * Z) * pmm :=
  let pages := (SIZEOF_TMPFS + TMPFS_PAGE - 1) / TMPFS_PAGE in
  let '(physical, p) := pmm_allocate_contiguous pages p in
  if physical =? 0 then (None, p) else
  let quarter := pmm_total_bytes p / 4 / TMPFS_PAGE in
  let cap := 64 * 1024 * 1024 / TMPFS_PAGE in
  let limit := if quarter <? cap then quarter else cap in
  let limit := if limit <? 16 then 16 else limit in
  let root := node_zero <| n_used := true |> <| n_directory := true |> <| n_parent := TMPFS_ROOT |> in
  (Some (Tmpfs (aset (replicate TMPFS_MAX_NODES node_zero) TMPFS_ROOT root)
               (replicate TMPFS_MAX_OPEN handle_zero) 0 limit p, physical), p).

(** ** Names and paths *)

(** [src/fs/tmpfs.c:59-67] find_child *)
Definition find_child (s : tmpfs) (parent : Z) (name : list Z) : Z :=
  z_find (λ i, negb (negb (n_used (node_at s i)) || (i =? TMPFS_ROOT) ||
                     negb (n_parent (node_at s i) =? parent)) &&
               bool_decide (n_name (node_at s i) = name)) TMPFS_MAX_NODES.

(** [src/fs/tmpfs.c:72-88] lookup *)
Fixpoint lookup_loop (fuel : nat) (s : tmpfs) (current : Z) (cursor : list Z) : option Z :=
  match fuel with
  | O => None
  | S fuel' =>
      match skip_slashes cursor with
      | [] => Some current
      | start =>
          let '(name, cursor) := component start in
          if negb (n_directory (node_at s current)) then Some FS_ERROR_NOT_DIR else
          let current := find_child s current name in
          if current <? 0 then Some FS_ERROR_NOT_FOUND else lookup_loop fuel' s current cursor
      end
  end.

(** A round of the loop consumes a byte: the length of the path bounds the
    rounds, and the default is never taken ([lookup_loop_spec]).
    [src/fs/tmpfs.c:69-89] lookup *)
Definition lookup (s : tmpfs) (path : list Z) : Z :=
  if negb (aget 0 path 0 =? SLASH) then FS_ERROR_INVALID
  else default FS_ERROR_IO (lookup_loop (S (length path)) s TMPFS_ROOT path).

(** [while (slash > 0 && path[slash - 1] != '/') slash--;]
    [src/fs/tmpfs.c:98-100] split_parent *)
Fixpoint back_to_leaf (path : list Z) (slash : nat) : nat :=
  match slash with
  | O => O
  | S n => if negb (aget 0 path (Z.of_nat n) =? SLASH) then back_to_leaf path n else slash
  end.

(** The error, or the parent and the last name.
    [src/fs/tmpfs.c:91-121] split_parent *)
Definition split_parent (s : tmpfs) (path : list Z) : Z + (Z * list Z) :=
  if negb (aget 0 path 0 =? SLASH) then inl FS_ERROR_INVALID else
  let length := back_over_slashes path (length path) in
  let slash := back_to_leaf path length in
  let name_length := (length - slash)%nat in
  if (name_length =? 0)%nat then inl FS_ERROR_INVALID
  else if TMPFS_NAME_MAX <? Z.of_nat name_length then inl FS_ERROR_INVALID
  else
    let directory_length := if (1 <? slash)%nat then (slash - 1)%nat else 1%nat in
    if 512 <=? Z.of_nat directory_length then inl FS_ERROR_INVALID
    else
      let found := lookup s (take directory_length path) in
      if found <? 0 then inl found
      else if negb (n_directory (node_at s found)) then inl FS_ERROR_NOT_DIR
      else inr (found, take name_length (drop slash path)).

(** [src/fs/tmpfs.c:123-139] allocate_node *)
Definition allocate_node (now parent : Z) (name : list Z) (directory : bool) (s : tmpfs) : Z * tmpfs :=
  match for_first (λ i, negb (n_used (node_at s i))) (TMPFS_MAX_NODES - 1) 1 with
  | Some i => (i, put_node i (Node true directory (i16 parent) name [] 0 0 0 now now now) s)
  | None => (FS_ERROR_NO_SPACE, s)
  end.

(** ** File data *)

(** [src/fs/tmpfs.c:141-149] release_data *)
Definition release_data (i : Z) (s : tmpfs) : tmpfs :=
  let n := node_at s i in
  let s := if negb (n_physical n =? 0)
           then s <| t_pmm := pmm_free_contiguous (n_physical n) (n_pages n) (t_pmm s) |> else s in
  let s := s <| used_pages := u64 (used_pages s - n_pages n) |> in
  put_node i (n <| n_data := [] |> <| n_physical := 0 |> <| n_pages := 0 |> <| n_size := 0 |>) s.

(** [src/fs/tmpfs.c:151-173] reserve *)
Definition reserve (i needed : Z) (s : tmpfs) : Z * tmpfs :=
  let n := node_at s i in
  if TMPFS_MAX_FILE <? needed then (FS_ERROR_NO_SPACE, s) else
  let pages := (needed + TMPFS_PAGE - 1) / TMPFS_PAGE in
  if pages <=? n_pages n then (0, s)
  else if page_limit s <? u64 (used_pages s - n_pages n + pages) then (FS_ERROR_NO_SPACE, s)
  else
    let '(physical, p) := pmm_allocate_contiguous pages (t_pmm s) in
    if physical =? 0 then (FS_ERROR_NO_SPACE, s <| t_pmm := p |>) else
    let data := splice (zeros (pages * TMPFS_PAGE)) 0 (take (Z.to_nat (n_size n)) (n_data n)) in
    let p := if negb (n_physical n =? 0) then pmm_free_contiguous (n_physical n) (n_pages n) p else p in
    let s := s <| t_pmm := p |> <| used_pages := u64 (used_pages s - n_pages n + pages) |> in
    (0, put_node i (n <| n_data := data |> <| n_physical := physical |> <| n_pages := pages |>) s).

(** [src/fs/tmpfs.c:175-180] is_open *)
Definition is_open (s : tmpfs) (i : Z) : bool :=
  match for_first (λ k, h_used (handle_at s k) && (h_node (handle_at s k) =? i)) TMPFS_MAX_OPEN 0 with
  | Some _ => true
  | None => false
  end.

(** ** Handles *)

(** [src/fs/tmpfs.c:182-198] tmpfs_open *)
Definition tmpfs_open (path : list Z) (s : tmpfs) : Z * tmpfs :=
  let i := lookup s path in
  if i <? 0 then (i, s)
  else if n_directory (node_at s i) then (FS_ERROR_NOT_FILE, s)
  else match for_first (λ k, negb (h_used (handle_at s k))) TMPFS_MAX_OPEN 0 with
       | Some k => (k, put_handle k (Handle true (i16 i) 0) s)
       | None => (FS_ERROR_NO_SPACE, s)
       end.

(** [src/fs/tmpfs.c:200-204] get_handle *)
Definition get_handle (s : tmpfs) (descriptor : Z) : option handle :=
  if (descriptor <? 0) || (Z.of_nat TMPFS_MAX_OPEN <=? descriptor) ||
     negb (h_used (handle_at s descriptor))
  then None else Some (handle_at s descriptor).

(** The result and the bytes read.
    [src/fs/tmpfs.c:206-220] tmpfs_read *)
Definition tmpfs_read (descriptor count : Z) (s : tmpfs) : Z * list Z * tmpfs :=
  match get_handle s descriptor with
  | None => (FS_ERROR_INVALID, [], s)
  | Some h =>
      let n := node_at s (h_node h) in
      if n_size n <=? h_position h then (0, [], s) else
      let remaining := u32 (n_size n - h_position h) in
      let amount := if count <? remaining then count else remaining in
      (amount, take (Z.to_nat amount) (drop (Z.to_nat (h_position h)) (n_data n)),
       put_handle descriptor (h <| h_position := u32 (h_position h + amount) |>) s)
  end.

(** The sum of two [int64_t], which nothing keeps in range: modulo 2^64, as the
    processor adds.
    [src/fs/tmpfs.c:222-238] tmpfs_seek *)
Definition tmpfs_seek (descriptor offset whence : Z) (s : tmpfs) : Z * tmpfs :=
  match get_handle s descriptor with
  | None => (FS_ERROR_INVALID, s)
  | Some h =>
      let size := n_size (node_at s (h_node h)) in
      let base := if whence =? SEEK_CUR then h_position h else if whence =? SEEK_END then size else 0 in
      let target := i64 (base + offset) in
      if target <? 0 then (FS_ERROR_INVALID, s) else
      let target := if size <? target then size else target in
      (target, put_handle descriptor (h <| h_position := u32 target |>) s)
  end.

(** [src/fs/tmpfs.c:240-247] tmpfs_close *)
Definition tmpfs_close (descriptor : Z) (s : tmpfs) : Z * tmpfs :=
  match get_handle s descriptor with
  | None => (FS_ERROR_INVALID, s)
  | Some h => (0, put_handle descriptor (h <| h_used := false |>) s)
  end.

(** ** Information and listing *)

(** [src/fs/tmpfs.c:249-259] tmpfs_stat *)
Definition tmpfs_stat (path : list Z) (s : tmpfs) : Z * file_stat_info :=
  let i := lookup s path in
  if i <? 0 then (i, stat_zero) else
  (0, FileStatInfo (n_size (node_at s i)) (if n_directory (node_at s i) then 1 else 0) FS_NODE_FILE).

(** [src/fs/tmpfs.c:292-305] tmpfs_stat_ex *)
Definition tmpfs_stat_ex (path : list Z) (s : tmpfs) : Z * file_stat_ex :=
  let i := lookup s path in
  if i <? 0 then (i, stat_ex_zero) else
  let n := node_at s i in
  (0, FileStatEx (n_size n) 0 0 0 (if n_directory n then 1 else 0) (n_atime n) (n_mtime n) (n_ctime n)).

(** [src/fs/tmpfs.c:268-288] list_directory *)
Fixpoint list_loop (s : tmpfs) (directory capacity : Z) (long_names : bool) (n : nat) (i : Z)
    (entries : list directory_entry) : list directory_entry :=
  match n with
  | O => entries
  | S n' =>
      if negb (Z.of_nat (length entries) <? capacity) then entries
      else if negb (n_used (node_at s i)) || negb (n_parent (node_at s i) =? directory)
      then list_loop s directory capacity long_names n' (i + 1) entries
      else
        let room := if long_names then FS_LONG_NAME_CAPACITY else FS_DIRECTORY_NAME_CAPACITY in
        list_loop s directory capacity long_names n' (i + 1)
          (entries ++ [DirEntry (copy_text (n_name (node_at s i)) room) (n_size (node_at s i))
                                (if n_directory (node_at s i) then FS_ATTRIBUTE_DIRECTORY else 0)])
  end.
(** [src/fs/tmpfs.c:261-290] list_directory *)
Definition list_directory (path : list Z) (capacity : Z) (long_names : bool) (s : tmpfs)
    : Z * list directory_entry :=
  let directory := lookup s path in
  if directory <? 0 then (directory, [])
  else if negb (n_directory (node_at s directory)) then (FS_ERROR_NOT_DIR, [])
  else
    let entries := list_loop s directory capacity long_names (TMPFS_MAX_NODES - 1) 1 [] in
    (Z.of_nat (length entries), entries).

(** [src/fs/tmpfs.c:307-311] tmpfs_list *)
Definition tmpfs_list (path : list Z) (capacity : Z) (s : tmpfs) : Z * list directory_entry :=
  list_directory path capacity false s.
(** [src/fs/tmpfs.c:313-318] tmpfs_list_long *)
Definition tmpfs_list_long (path : list Z) (capacity : Z) (s : tmpfs) : Z * list directory_entry :=
  list_directory path capacity true s.

(** ** Entries *)

(** [src/fs/tmpfs.c:320-331] create_entry *)
Definition create_entry (now : Z) (path : list Z) (directory : bool) (s : tmpfs) : Z * tmpfs :=
  match split_parent s path with
  | inl status => (status, s)
  | inr (parent, leaf) =>
      if 0 <=? find_child s parent leaf then (FS_ERROR_EXISTS, s) else
      let '(status, s) := allocate_node now parent leaf directory s in
      (if status <? 0 then status else 0, s)
  end.

(** [src/fs/tmpfs.c:333-336] tmpfs_create_file *)
Definition tmpfs_create_file (now : Z) (path : list Z) (s : tmpfs) : Z * tmpfs :=
  create_entry now path false s.
(** [src/fs/tmpfs.c:338-341] tmpfs_create_directory *)
Definition tmpfs_create_directory (now : Z) (path : list Z) (s : tmpfs) : Z * tmpfs :=
  create_entry now path true s.

(** [src/fs/tmpfs.c:343-348] has_children *)
Definition has_children (s : tmpfs) (directory : Z) : bool :=
  match for_first (λ i, n_used (node_at s i) && (n_parent (node_at s i) =? directory))
                  (TMPFS_MAX_NODES - 1) 1 with
  | Some _ => true
  | None => false
  end.

(** [src/fs/tmpfs.c:350-364] tmpfs_unlink *)
Definition tmpfs_unlink (path : list Z) (s : tmpfs) : Z * tmpfs :=
  let i := lookup s path in
  if i <? 0 then (i, s)
  else if i =? TMPFS_ROOT then (FS_ERROR_BUSY, s)
  else if n_directory (node_at s i) && has_children s i then (FS_ERROR_NOT_BLANK, s)
  else if is_open s i then (FS_ERROR_BUSY, s)
  else (0, put_node i node_zero (release_data i s)).

(** [src/fs/tmpfs.c:366-374] valid_name *)
Definition valid_name (name : list Z) : bool :=
  let length := Z.of_nat (length name) in
  if (length =? 0) || (TMPFS_NAME_MAX <? length) then false
  else forallb (λ c, negb (c =? SLASH)) name.

(** [src/fs/tmpfs.c:376-391] tmpfs_rename *)
Definition tmpfs_rename (path new_name : list Z) (s : tmpfs) : Z * tmpfs :=
  let i := lookup s path in
  if i <? 0 then (i, s)
  else if i =? TMPFS_ROOT then (FS_ERROR_BUSY, s)
  else if negb (valid_name new_name) then (FS_ERROR_INVALID, s)
  else
    let existing := find_child s (n_parent (node_at s i)) new_name in
    if (0 <=? existing) && negb (existing =? i) then (FS_ERROR_EXISTS, s)
    else (0, put_node i ((node_at s i) <| n_name := new_name |>) s).

(** The loop up to the root; [None] when the fuel is used up first.
    [src/fs/tmpfs.c:394-397] is_ancestor *)
Fixpoint ancestor_loop (fuel : nat) (s : tmpfs) (ancestor current : Z) : option bool :=
  if current =? TMPFS_ROOT then Some (ancestor =? TMPFS_ROOT)
  else if current =? ancestor then Some true
  else match fuel with
       | O => None
       | S fuel' => ancestor_loop fuel' s ancestor (n_parent (node_at s current))
       end.
(** The loop ends within as many rounds as there are nodes
    ([ancestor_loop_total]): the default is never taken.
    [src/fs/tmpfs.c:393-398] is_ancestor *)
Definition is_ancestor (s : tmpfs) (ancestor i : Z) : bool :=
  default false (ancestor_loop TMPFS_MAX_NODES s ancestor i).

(** [src/fs/tmpfs.c:400-420] tmpfs_move *)
Definition tmpfs_move (path destination : list Z) (s : tmpfs) : Z * tmpfs :=
  let i := lookup s path in
  let directory := lookup s destination in
  if i <? 0 then (i, s)
  else if directory <? 0 then (directory, s)
  else if i =? TMPFS_ROOT then (FS_ERROR_BUSY, s)
  else if negb (n_directory (node_at s directory)) then (FS_ERROR_NOT_DIR, s)
  else if n_directory (node_at s i) && is_ancestor s i directory then (FS_ERROR_INVALID, s)
  else
    let existing := find_child s directory (n_name (node_at s i)) in
    if (0 <=? existing) && negb (existing =? i) then (FS_ERROR_EXISTS, s)
    else (0, put_node i ((node_at s i) <| n_parent := i16 directory |>) s).

(** ** Whole files *)

(** The error, or the node of the file, which is made when nothing has the path.
    [src/fs/tmpfs.c:422-436] obtain_file *)
Definition obtain_file (now : Z) (path : list Z) (s : tmpfs) : (Z + Z) * tmpfs :=
  let found := lookup s path in
  let '(status, s) := if found =? FS_ERROR_NOT_FOUND then create_entry now path false s else (0, s) in
  if status <? 0 then (inl status, s) else
  let found := if found =? FS_ERROR_NOT_FOUND then lookup s path else found in
  if found <? 0 then (inl found, s)
  else if n_directory (node_at s found) then (inl FS_ERROR_NOT_FILE, s)
  else (inr found, s).

(** [src/fs/tmpfs.c:438-455] tmpfs_write_file *)
Definition tmpfs_write_file (now : Z) (path buffer : list Z) (s : tmpfs) : Z * tmpfs :=
  let count := Z.of_nat (length buffer) in
  match obtain_file now path s with
  | (inl status, s) => (status, s)
  | (inr i, s) =>
      if is_open s i then (FS_ERROR_BUSY, s) else
      let '(status, s) := reserve i count s in
      if status <? 0 then (status, s) else
      let n := node_at s i in
      (count, put_node i (n <| n_data := splice (n_data n) 0 buffer |> <| n_size := count |>
                            <| n_mtime := now |> <| n_ctime := now |>) s)
  end.

(** [src/fs/tmpfs.c:457-474] tmpfs_append_file *)
Definition tmpfs_append_file (now : Z) (path buffer : list Z) (s : tmpfs) : Z * tmpfs :=
  let count := Z.of_nat (length buffer) in
  match obtain_file now path s with
  | (inl status, s) => (status, s)
  | (inr i, s) =>
      if TMPFS_MAX_FILE <? u64 (n_size (node_at s i) + count) then (FS_ERROR_NO_SPACE, s) else
      let '(status, s) := reserve i (u32 (n_size (node_at s i) + count)) s in
      if status <? 0 then (status, s) else
      let n := node_at s i in
      (count, put_node i (n <| n_data := splice (n_data n) (n_size n) buffer |>
                            <| n_size := u32 (n_size n + count) |>
                            <| n_mtime := now |> <| n_ctime := now |>) s)
  end.

(** ** Invariant: a tree of named nodes

    [at_path s cs i]: following parents from node [i] spells the names [cs] and
    ends at the root. *)

Definition in_use (s : tmpfs) (i : Z) : Prop :=
  0 ≤ i < Z.of_nat TMPFS_MAX_NODES ∧ n_used (node_at s i) = true.

Inductive at_path (s : tmpfs) : list (list Z) → Z → Prop :=
| at_root : at_path s [] TMPFS_ROOT
| at_child cs i : at_path s cs (n_parent (node_at s i)) → in_use s i → i ≠ TMPFS_ROOT →
    at_path s (cs ++ [n_name (node_at s i)]) i.

Definition node_name_ok (n : list Z) : Prop := name_ok n ∧ Z.of_nat (length n) ≤ TMPFS_NAME_MAX.

Definition opened (s : tmpfs) (k i : Z) : Prop :=
  0 ≤ k < Z.of_nat TMPFS_MAX_OPEN ∧ h_used (handle_at s k) = true ∧ h_node (handle_at s k) = i.

Record tree_ok (s : tmpfs) : Prop := {
  to_nodes : length (nodes s) = TMPFS_MAX_NODES;
  to_handles : length (handles s) = TMPFS_MAX_OPEN;
  to_root : in_use s TMPFS_ROOT ∧ n_directory (node_at s TMPFS_ROOT) = true;
  to_free : ∀ i, 0 ≤ i < Z.of_nat TMPFS_MAX_NODES → n_used (node_at s i) = false → node_at s i = node_zero;
  to_parent : ∀ i, in_use s i → i ≠ TMPFS_ROOT →
    in_use s (n_parent (node_at s i)) ∧ n_directory (node_at s (n_parent (node_at s i))) = true;
  to_name : ∀ i, in_use s i → i ≠ TMPFS_ROOT → node_name_ok (n_name (node_at s i));
  to_unique : ∀ i j, in_use s i → in_use s j → i ≠ TMPFS_ROOT → j ≠ TMPFS_ROOT →
    n_parent (node_at s i) = n_parent (node_at s j) → n_name (node_at s i) = n_name (node_at s j) → i = j;
  to_path : ∀ i, in_use s i → ∃ cs, at_path s cs i;
  to_open : ∀ k i, opened s k i → in_use s i ∧ n_directory (node_at s i) = false ∧
    0 ≤ h_position (handle_at s k) ≤ n_size (node_at s i);
}.

(** *** Nodes and handles of an updated state *)

Lemma node_put s i j n : length (nodes s) = TMPFS_MAX_NODES → 0 ≤ i < Z.of_nat TMPFS_MAX_NODES → 0 ≤ j →
  node_at (put_node i n s) j = if decide (j = i) then n else node_at s j.
Proof.
  intros L Hi Hj. unfold node_at, put_node; cbn. destruct (decide (j = i)) as [->|Ne].
  - apply aget_aset_eq. rewrite L. done.
  - apply aget_aset_ne; lia.
Qed.

Lemma handle_put s k j h : length (handles s) = TMPFS_MAX_OPEN → 0 ≤ k < Z.of_nat TMPFS_MAX_OPEN → 0 ≤ j →
  handle_at (put_handle k h s) j = if decide (j = k) then h else handle_at s j.
Proof.
  intros L Hi Hj. unfold handle_at, put_handle; cbn. destruct (decide (j = k)) as [->|Ne].
  - apply aget_aset_eq. rewrite L. done.
  - apply aget_aset_ne; lia.
Qed.

Lemma in_use_root_nonneg s i : in_use s i → 0 ≤ i.
Proof. intros [? _]. lia. Qed.

(** *** Paths and nodes determine each other *)

Lemma at_path_in_use s cs i : tree_ok s → at_path s cs i → in_use s i.
Proof. intros W []; [apply W|done]. Qed.

Lemma at_path_fun s cs ds i : at_path s cs i → at_path s ds i → cs = ds.
Proof.
  intros H. revert ds. induction H as [|cs i H IH U N]; intros ds H'.
  - by inversion H'.
  - inversion H' as [|ds' i' H2 U2 N2]; [done|subst]. by rewrite (IH ds').
Qed.

Lemma at_path_inj s cs i j : tree_ok s → at_path s cs i → at_path s cs j → i = j.
Proof.
  intros W H. revert j. induction H as [|cs i H IH U N]; intros j H'.
  - inversion H' as [|? ? ? ? ? E]; [done|]. by destruct (app_cons_not_nil _ _ _ (eq_sym E)).
  - inversion H' as [E|ds j' H2 U2 N2 E]; [by destruct (app_cons_not_nil _ _ _ E)|subst].
    apply app_inj_tail in E as [-> E]. apply (to_unique s W); try done. by apply IH.
Qed.

(** The nodes above a node. *)
Lemma at_path_above s ps qs i : tree_ok s → at_path s (ps ++ qs) i →
  ∃ j, at_path s ps j ∧ (qs ≠ [] → n_directory (node_at s j) = true).
Proof.
  intros W. revert i. induction qs as [|q qs IH] using rev_ind; intros i H.
  - rewrite app_nil_r in H. by exists i.
  - rewrite app_assoc in H. inversion H as [E|cs j H2 U N E]; [by destruct (app_cons_not_nil _ _ _ E)|subst].
    apply app_inj_tail in E as [-> _]. destruct (IH _ H2) as (j&Hj&Dj). exists j. split; [done|].
    intros _. destruct qs as [|q' qs]; [|by apply Dj]. rewrite app_nil_r in H2.
    rewrite (at_path_inj s ps j (n_parent (node_at s i)) W Hj H2). by apply W.
Qed.

Lemma at_path_names s cs i : tree_ok s → at_path s cs i → Forall node_name_ok cs.
Proof.
  intros W. induction 1 as [|cs i H IH U N]; [constructor|]. apply Forall_app. split; [done|].
  constructor; [by apply W|constructor].
Qed.

(** *** Children *)

Lemma find_child_spec s parent name : tree_ok s →
  let c := find_child s parent name in
  (c = -1 ∧ ∀ i, in_use s i → i ≠ TMPFS_ROOT → n_parent (node_at s i) = parent → n_name (node_at s i) ≠ name) ∨
  (in_use s c ∧ c ≠ TMPFS_ROOT ∧ n_parent (node_at s c) = parent ∧ n_name (node_at s c) = name).
Proof.
  intros W c. unfold c, find_child.
  match goal with |- context [z_find ?p ?n] => destruct (z_find_spec p n) as [[-> H]|(R&P&_)] end.
  - left. split; [done|]. intros i [Hi U] N Ep En. specialize (H i Hi). cbn in H.
    rewrite U, Ep, Z.eqb_refl, (proj2 (Z.eqb_neq _ _) N), bool_decide_eq_true_2 in H by done. done.
  - right. apply andb_prop in P as [P En%bool_decide_eq_true]. apply negb_true_iff in P.
    apply orb_false_iff in P as [[U Nr]%orb_false_iff Ep]. zify_bool. split_and!; done.
Qed.

(** The names one after the other. *)
Fixpoint resolve (s : tmpfs) (current : Z) (ns : list (list Z)) : Z :=
  match ns with
  | [] => current
  | n :: ns' =>
      if negb (n_directory (node_at s current)) then FS_ERROR_NOT_DIR
      else if find_child s current n <? 0 then FS_ERROR_NOT_FOUND
      else resolve s (find_child s current n) ns'
  end.

Lemma lookup_loop_spec s fuel : ∀ p current, (length p < fuel)%nat →
  lookup_loop fuel s current p = Some (resolve s current (names p)).
Proof.
  induction fuel as [|fuel IH]; intros p current L; [lia|]. cbn [lookup_loop].
  rewrite <- skip_names. pose proof (skip_length p) as Ls.
  destruct (skip_head p) as [E|(c&p'&E&Nc)]; rewrite E in *; [done|].
  pose proof (component_spec (c :: p')) as C.
  assert ((component (c :: p')).1 ≠ []) as Ne.
  { cbn [component]. destruct (Z.eqb_spec c SLASH); [done|]. by destruct (component p'). }
  destruct (component (c :: p')) as [name rest]. destruct C as (Ec&Hn&Hr). cbn [fst] in Ne.
  rewrite Ec in *. rewrite pieces_name, decide_False by done. cbn [app resolve].
  destruct (n_directory _); cbn [negb]; [|done]. destruct (_ <? 0); [done|].
  apply IH. assert (0 < length name)%nat by (destruct name; [done|cbn; lia]).
  rewrite length_app in Ls. lia.
Qed.

Lemma lookup_spec s p : aget 0 p 0 = SLASH → lookup s p = resolve s TMPFS_ROOT (names p).
Proof. intros H. unfold lookup. rewrite H, lookup_loop_spec by lia. done. Qed.

Lemma lookup_render s cs : Forall name_ok cs → lookup s (render cs) = resolve s TMPFS_ROOT cs.
Proof. intros H. rewrite lookup_spec by apply render_head. by rewrite names_render. Qed.

Lemma resolve_sound s cs ns : tree_ok s → ∀ current, at_path s cs current →
  0 ≤ resolve s current ns → at_path s (cs ++ ns) (resolve s current ns).
Proof.
  intros W. revert cs. induction ns as [|n ns IH]; intros cs current H; cbn [resolve]; [by rewrite app_nil_r|].
  destruct (n_directory _) eqn:D; cbn [negb]; [|done].
  destruct (Z.ltb_spec (find_child s current n) 0) as [|Hc]; [done|].
  destruct (find_child_spec s current n W) as [[? _]|(U&N&Ep&En)]; [lia|].
  rewrite cons_middle, app_assoc. apply IH. rewrite <- En at 1. constructor; [|done|done]. by rewrite Ep.
Qed.

Lemma resolve_complete s cs ns i : tree_ok s → ∀ current, at_path s cs current →
  at_path s (cs ++ ns) i → resolve s current ns = i.
Proof.
  intros W. revert cs. induction ns as [|n ns IH]; intros cs current H Hi; cbn [resolve].
  { rewrite app_nil_r in Hi. by eapply at_path_inj. }
  pose proof (at_path_above s cs (n :: ns) i W Hi) as (j&Hj&D).
  rewrite (at_path_inj s cs current j W H Hj), D by done. cbn [negb].
  rewrite cons_middle, app_assoc in Hi.
  destruct (at_path_above s (cs ++ [n]) ns i W Hi) as (c&Hc&_).
  inversion Hc as [E|ds c' H2 U N E]; [by destruct (app_cons_not_nil _ _ _ E)|subst].
  apply app_inj_tail in E as [-> En].
  pose proof (at_path_inj s cs _ _ W H2 Hj) as Ep.
  assert (find_child s j n = c) as ->.
  { destruct (find_child_spec s j n W) as [[_ F]|(U'&N'&Ep'&En')].
    - by destruct (F c U N Ep).
    - apply (to_unique s W); congruence. }
  pose proof (in_use_root_nonneg _ _ U). destruct (Z.ltb_spec c 0); [lia|]. by apply (IH (cs ++ [n])).
Qed.

Lemma lookup_at s cs : tree_ok s → Forall name_ok cs → 0 ≤ lookup s (render cs) →
  at_path s cs (lookup s (render cs)).
Proof.
  intros W Hc. rewrite lookup_render by done. intros H. apply (resolve_sound s []); [done|constructor|done].
Qed.

Lemma at_lookup s cs i : tree_ok s → at_path s cs i → lookup s (render cs) = i.
Proof.
  intros W H. rewrite lookup_render.
  - apply (resolve_complete s []); [done|constructor|done].
  - eapply Forall_impl; [by eapply at_path_names|]. by intros n [].
Qed.

(** *** The walk to the root ends *)

Lemma at_path_chain s cs i : tree_ok s → at_path s cs i →
  ∃ l, length l = S (length cs) ∧ NoDup l ∧ ∀ j, j ∈ l → in_use s j ∧
    ∃ ds, at_path s ds j ∧ (length ds ≤ length cs)%nat.
Proof.
  intros W. induction 1 as [|cs i H (l&L&D&A) U N].
  - exists [TMPFS_ROOT]. split; [done|]. split; [apply NoDup_singleton|].
    intros j ->%list_elem_of_singleton. split; [apply W|]. exists []. by split; [constructor|].
  - exists (i :: l). rewrite length_app. cbn [length]. split; [lia|]. split.
    + constructor; [|done]. intros (_&ds&Hd&Ld)%A. pose proof (at_child s cs i H U N) as Hi.
      rewrite (at_path_fun s _ _ i Hd Hi), length_app in Ld. cbn [length] in Ld. lia.
    + intros j [->|(Uj&ds&Hd&Ld)%A]%elem_of_cons.
      * split; [done|]. eexists. split; [by constructor|]. rewrite length_app. cbn [length]. lia.
      * split; [done|]. exists ds. split; [done|lia].
Qed.

Lemma at_path_depth s cs i : tree_ok s → at_path s cs i → (length cs < TMPFS_MAX_NODES)%nat.
Proof.
  intros W H. destruct (at_path_chain s cs i W H) as (l&L&D&A).
  assert (length l ≤ length (seqZ 0 (Z.of_nat TMPFS_MAX_NODES)))%nat as B.
  { apply submseteq_length, NoDup_submseteq; [done|]. intros j Hj. apply elem_of_seqZ.
    destruct (A j Hj) as [[? _] _]. lia. }
  rewrite length_seqZ in B. lia.
Qed.

Lemma ancestor_loop_spec s ps cs a i fuel : tree_ok s → at_path s ps a → at_path s cs i →
  (length cs ≤ fuel)%nat → ancestor_loop fuel s a i = Some (bool_decide (ps `prefix_of` cs)).
Proof.
  intros W Ha H. revert fuel. induction H as [|cs i H IH U N]; intros fuel Hf.
  - assert (ancestor_loop fuel s a TMPFS_ROOT = Some (a =? TMPFS_ROOT)) as -> by (by destruct fuel).
    f_equal. destruct (Z.eqb_spec a TMPFS_ROOT) as [->|Na].
    + rewrite (at_path_fun s ps [] TMPFS_ROOT Ha (at_root s)). done.
    + rewrite bool_decide_eq_false_2; [done|]. intros ->%prefix_nil_inv.
      by destruct Na, (at_path_inj s [] a TMPFS_ROOT W Ha (at_root s)).
  - rewrite length_app in Hf. cbn [length] in Hf. destruct fuel as [|fuel]; [lia|]. cbn [ancestor_loop].
    destruct (Z.eqb_spec i TMPFS_ROOT) as [|_]; [done|].
    destruct (Z.eqb_spec i a) as [->|Na].
    + rewrite (at_path_fun s _ _ a Ha (at_child s cs a H U N)). by rewrite bool_decide_eq_true_2.
    + rewrite IH by lia. f_equal. apply bool_decide_ext. split; [apply prefix_app_r|].
      intros [k E]. destruct k as [|k' k _] using rev_ind.
      * rewrite app_nil_r in E. subst ps. destruct Na.
        by apply (at_path_inj s (cs ++ [n_name (node_at s i)])); [|constructor|].
      * rewrite app_assoc in E. apply app_inj_tail in E as [-> _]. by exists k.
Qed.

Lemma is_ancestor_spec s ps cs a i : tree_ok s → at_path s ps a → at_path s cs i →
  is_ancestor s a i = bool_decide (ps `prefix_of` cs).
Proof.
  intros W Ha Hi. unfold is_ancestor. rewrite (ancestor_loop_spec s ps cs); try done.
  pose proof (at_path_depth s cs i W Hi). lia.
Qed.

(** *** Data on frames of its own *)

(** Frame [g] holds data of the node. *)
Definition covers (n : node) (g : Z) : Prop :=
  n_physical n ≤ g * 4096 < n_physical n + n_pages n * 4096.

Record file_ok (p : pmm) (n : node) : Prop := {
  fo_pages : 0 ≤ n_pages n ≤ 2048;
  fo_length : Z.of_nat (length (n_data n)) = n_pages n * TMPFS_PAGE;
  fo_size : 0 ≤ n_size n ≤ n_pages n * TMPFS_PAGE;
  fo_none : n_pages n = 0 → n_physical n = 0;
  fo_frames : n_pages n ≠ 0 → ∃ f, n_physical n = f * 4096 ∧ 1 ≤ f ∧ f + n_pages n ≤ frame_limit p ∧
    ∀ g, f ≤ g < f + n_pages n → frame_is_used p g = true;
}.

Record data_ok (s : tmpfs) : Prop := {
  do_pmm : pmm_wf (t_pmm s);
  do_file : ∀ i, 0 ≤ i < Z.of_nat TMPFS_MAX_NODES → file_ok (t_pmm s) (node_at s i);
  do_dir : ∀ i, 0 ≤ i < Z.of_nat TMPFS_MAX_NODES → n_directory (node_at s i) = true → n_pages (node_at s i) = 0;
  do_apart : ∀ i j g, 0 ≤ i < Z.of_nat TMPFS_MAX_NODES → 0 ≤ j < Z.of_nat TMPFS_MAX_NODES → i ≠ j →
    covers (node_at s i) g → covers (node_at s j) g → False;
  do_sum : used_pages s = sum_of n_pages (nodes s);
  do_limit : used_pages s ≤ page_limit s ≤ 16384;
}.

(** A frame in use that holds no data of the instance. *)
Definition foreign (s : tmpfs) (g : Z) : Prop :=
  0 ≤ g ∧ frame_is_used (t_pmm s) g = true ∧ ∀ i, 0 ≤ i < Z.of_nat TMPFS_MAX_NODES → ¬ covers (node_at s i) g.

Record tmpfs_ok (s : tmpfs) : Prop := { ok_tree : tree_ok s; ok_data : data_ok s }.

Lemma file_ok_zero p : file_ok p node_zero.
Proof. split; cbn; try done; lia. Qed.

Lemma covers_none n g : n_pages n = 0 → ¬ covers n g.
Proof. unfold covers. intros ->. lia. Qed.

(** A node in a new place: its own frames are in use and no other node's. *)
Lemma data_ok_put s i n p u : tree_ok s → data_ok s → 0 ≤ i < Z.of_nat TMPFS_MAX_NODES → pmm_wf p →
  file_ok p n → (n_directory n = true → n_pages n = 0) →
  (∀ j, 0 ≤ j < Z.of_nat TMPFS_MAX_NODES → j ≠ i → file_ok p (node_at s j)) →
  (∀ j g, 0 ≤ j < Z.of_nat TMPFS_MAX_NODES → j ≠ i → covers n g → ¬ covers (node_at s j) g) →
  u = used_pages s - n_pages (node_at s i) + n_pages n → u ≤ page_limit s →
  data_ok (put_node i n (s <| t_pmm := p |> <| used_pages := u |>)).
Proof.
  intros T D Hi Wp Fn Dn Fo Ap Eu Hu. pose proof (to_nodes s T) as L.
  assert (∀ j, 0 ≤ j → node_at (put_node i n (s <| t_pmm := p |> <| used_pages := u |>)) j =
    if decide (j = i) then n else node_at s j) as E by (intros; by rewrite node_put).
  split; cbn [put_node set_field t_pmm used_pages page_limit nodes].
  - done.
  - intros j Hj. rewrite E by lia. destruct (decide _); auto.
  - intros j Hj. rewrite E by lia. destruct (decide _); [done|]. by apply D.
  - intros j k g Hj Hk Ne. rewrite !E by lia. destruct (decide (j = i)), (decide (k = i)); subst; try done.
    + intros A B. by apply (Ap k g).
    + intros A B. by apply (Ap j g).
    + by apply D.
  - change (u = sum_of n_pages (aset (nodes s) i n)).
    rewrite (sum_of_aset node_zero) by (rewrite L; done). rewrite Eu, (do_sum s D). done.
  - split; [done|]. apply D.
Qed.

(** The same frames and the same data. *)
Lemma file_ok_same p n m : n_data n = n_data m → n_physical n = n_physical m →
  n_pages n = n_pages m → n_size n = n_size m → file_ok p n → file_ok p m.
Proof. intros E1 E2 E3 E4 [H1 H2 H3 H4 H5]. rewrite E1, E2, E3, E4 in *. by split. Qed.

(** ** Changes that keep the tree *)

Definition shape (n : node) : bool * bool * Z * list Z :=
  (n_used n, n_directory n, n_parent n, n_name n).

Definition same_shape (s t : tmpfs) : Prop :=
  length (nodes t) = length (nodes s) ∧ ∀ i, 0 ≤ i → shape (node_at t i) = shape (node_at s i).

#[global] Instance same_shape_equivalence : Equivalence same_shape.
Proof.
  split.
  - done.
  - intros s t [L H]. split; [done|]. intros i Hi. by rewrite H.
  - intros s t u [L1 H1] [L2 H2]. split; [congruence|]. intros i Hi. by rewrite H2, H1.
Qed.

Lemma shape_fields n m : shape n = shape m →
  n_used n = n_used m ∧ n_directory n = n_directory m ∧ n_parent n = n_parent m ∧ n_name n = n_name m.
Proof. intros [= -> -> -> ->]. done. Qed.

Lemma shape_in_use s t i : same_shape s t → in_use s i → in_use t i.
Proof. intros [_ H] [Hi U]. split; [done|]. destruct (shape_fields _ _ (H i ltac:(lia))) as (->&_). done. Qed.

Lemma at_path_shape s t cs i : same_shape s t → at_path s cs i → at_path t cs i.
Proof.
  intros S. induction 1 as [|cs i H IH U N]; [constructor|].
  pose proof (in_use_root_nonneg _ _ U) as Hi. pose proof S as [_ Sh].
  destruct (shape_fields _ _ (Sh i Hi)) as (_&_&Ep&En). rewrite <- En. constructor; [by rewrite Ep| |done].
  by apply (shape_in_use s).
Qed.

#[global] Instance at_path_proper : Proper (same_shape ==> eq ==> eq ==> iff) at_path.
Proof. intros s t S ? cs -> ? i ->. by split; apply at_path_shape. Qed.
#[global] Instance in_use_proper : Proper (same_shape ==> eq ==> iff) in_use.
Proof. intros s t S ? i ->. by split; apply shape_in_use. Qed.

Lemma same_shape_put s i n : length (nodes s) = TMPFS_MAX_NODES → 0 ≤ i < Z.of_nat TMPFS_MAX_NODES →
  shape n = shape (node_at s i) → same_shape s (put_node i n s).
Proof.
  intros L Hi E. split; [apply length_aset|]. intros j Hj. rewrite node_put by done.
  destruct (decide _) as [->|]; done.
Qed.

(** The tree when only data or handles change. *)
Lemma tree_ok_shape s t : tree_ok s → same_shape s t → length (handles t) = TMPFS_MAX_OPEN →
  (∀ i, 0 ≤ i < Z.of_nat TMPFS_MAX_NODES → n_used (node_at t i) = false → node_at t i = node_zero) →
  (∀ k i, opened t k i → in_use s i ∧ n_directory (node_at s i) = false ∧
    0 ≤ h_position (handle_at t k) ≤ n_size (node_at t i)) → tree_ok t.
Proof.
  intros W S Lh F O. pose proof S as [L Sh].
  assert (∀ i, in_use t i → shape (node_at t i) = shape (node_at s i)) as E.
  { intros i Hi. apply Sh. apply Hi. }
  split; try done.
  - rewrite L. apply W.
  - destruct (to_root s W) as [U D]. split; [by rewrite <- S|].
    destruct (shape_fields _ _ (Sh TMPFS_ROOT ltac:(done))) as (_&->&_). done.
  - intros i U N. destruct (shape_fields _ _ (E i U)) as (_&_&->&_). rewrite <- S in U.
    destruct (to_parent s W i U N) as [Up Dp]. split; [by rewrite <- S|].
    destruct (shape_fields _ _ (Sh (n_parent (node_at s i)) (in_use_root_nonneg _ _ Up))) as (_&->&_). done.
  - intros i U N. destruct (shape_fields _ _ (E i U)) as (_&_&_&->). rewrite <- S in U. by apply W.
  - intros i j Ui Uj Ni Nj. destruct (shape_fields _ _ (E i Ui)) as (_&_&->&->), (shape_fields _ _ (E j Uj)) as (_&_&->&->).
    rewrite <- S in Ui, Uj. by apply W.
  - intros i U. rewrite <- S in U. destruct (to_path s W i U) as [cs H]. exists cs. by rewrite <- S.
  - intros k i Ho. destruct (O k i Ho) as (U&D&P). split; [by rewrite <- S|]. split; [|done].
    destruct (shape_fields _ _ (Sh i (in_use_root_nonneg _ _ U))) as (_&->&_). done.
Qed.

(** *** Adding and removing a node *)

Lemma at_path_other s t cs j i : (∀ k, 0 ≤ k → k ≠ i → shape (node_at t k) = shape (node_at s k)) →
  (∀ ps, at_path s ps i → ¬ ps `prefix_of` cs) → at_path s cs j → at_path t cs j.
Proof.
  intros E N H. revert N. induction H as [|cs j H IH U Nj]; intros N; [constructor|].
  assert (j ≠ i) as Ne. { intros ->. by apply (N _ (at_child s cs i H U Nj)). }
  destruct (shape_fields _ _ (E j (in_use_root_nonneg _ _ U) Ne)) as (Eu&_&Ep&En). rewrite <- En.
  constructor; [rewrite Ep; apply IH|destruct U; split; [done|congruence]|done].
  intros ps Hps Pre. apply (N ps Hps). by apply prefix_app_r.
Qed.

Lemma handle_put_node s i n k : handle_at (put_node i n s) k = handle_at s k.
Proof. done. Qed.

Lemma opened_put_node s i n k j : opened (put_node i n s) k j ↔ opened s k j.
Proof. done. Qed.

(** The tree with one node replaced. *)
Lemma tree_ok_put s i n : tree_ok s → 1 ≤ i < Z.of_nat TMPFS_MAX_NODES →
  (n_used n = false → n = node_zero) →
  (∀ k, in_use s k → k ≠ i → k ≠ TMPFS_ROOT → n_parent (node_at s k) = i →
    n_used n = true ∧ n_directory n = true) →
  (n_used n = true → in_use s (n_parent n) ∧ n_parent n ≠ i ∧
    n_directory (node_at s (n_parent n)) = true ∧ node_name_ok (n_name n) ∧
    ∀ k, in_use s k → k ≠ TMPFS_ROOT → k ≠ i → n_parent (node_at s k) = n_parent n →
      n_name (node_at s k) ≠ n_name n) →
  (∀ k, in_use (put_node i n s) k → ∃ cs, at_path (put_node i n s) cs k) →
  (∀ k, opened s k i → n_used n = true ∧ n_directory n = false ∧
    0 ≤ h_position (handle_at s k) ≤ n_size n) →
  tree_ok (put_node i n s).
Proof.
  intros W Hi Z C U P O. pose proof (to_nodes s W) as L. set (t := put_node i n s) in *.
  assert (∀ k, 0 ≤ k → node_at t k = if decide (k = i) then n else node_at s k) as E
    by (intros; apply node_put; [done|lia|done]).
  assert (∀ k, in_use t k → (k = i ∧ node_at t k = n ∧ n_used n = true) ∨
    (k ≠ i ∧ node_at t k = node_at s k ∧ in_use s k)) as Ut.
  { intros k [Hk V]. rewrite E in V by lia. rewrite E by lia. destruct (decide (k = i)); [by left|right].
    split_and!; [done|done|by split]. }
  assert (∀ k, in_use s k → k ≠ i → in_use t k ∧ node_at t k = node_at s k) as Us.
  { intros k [Hk V] Ne. unfold in_use. rewrite E, decide_False by (done || lia). done. }
  assert (TMPFS_ROOT ≠ i) as Nr by (unfold TMPFS_ROOT; lia).
  split; try done.
  - by apply (eq_trans (length_aset _ _ _)).
  - apply W.
  - destruct (to_root s W) as [U0 D0]. destruct (Us _ U0 Nr) as [? ->]. done.
  - intros k Hk. rewrite E by lia. destruct (decide _); [done|by apply W].
  - intros k Uk Nk. destruct (Ut k Uk) as [(->&->&V)|(Ne&->&Usk)].
    + destruct (U V) as (Up&Np&Dp&_). destruct (Us _ Up Np) as [? ->]. done.
    + destruct (to_parent s W k Usk Nk) as [Up Dp].
      destruct (decide (n_parent (node_at s k) = i)) as [Ei|Np].
      * destruct (C k Usk Ne Nk Ei) as [V D]. rewrite Ei. unfold in_use. rewrite E, decide_True by (done || lia).
        split; [split; [lia|done]|done].
      * destruct (Us _ Up Np) as [? ->]. done.
  - intros k Uk Nk. destruct (Ut k Uk) as [(->&->&V)|(Ne&->&Usk)]; [by apply U|by apply W].
  - intros j k Uj Uk Nj Nk. destruct (Ut j Uj) as [(->&->&V)|(Nej&->&Usj)], (Ut k Uk) as [(->&->&Vk)|(Nek&->&Usk)];
      [done| | |by apply W].
    + intros Ep En. destruct (U V) as (_&_&_&_&Q). destruct (Q k Usk Nk Nek); congruence.
    + intros Ep En. destruct (U Vk) as (_&_&_&_&Q). destruct (Q j Usj Nj Nej); congruence.
  - intros k j Oj. destruct (to_open s W k j Oj) as (Uj&Dj&Pj). destruct (decide (j = i)) as [->|Ne].
    + destruct (O k Oj) as (V&D&Q). unfold in_use. rewrite E, decide_True by (done || lia).
      split; [split; [lia|done]|done].
    + destruct (Us j Uj Ne) as [? ->]. done.
Qed.

Lemma node_put_ne s i n k : tree_ok s → 1 ≤ i < Z.of_nat TMPFS_MAX_NODES → 0 ≤ k → k ≠ i →
  node_at (put_node i n s) k = node_at s k.
Proof. intros W Hi Hk Ne. by rewrite node_put, decide_False by (done || lia || apply W). Qed.

Lemma node_put_eq s i n : tree_ok s → 1 ≤ i < Z.of_nat TMPFS_MAX_NODES → node_at (put_node i n s) i = n.
Proof. intros W Hi. by rewrite node_put, decide_True by (done || lia || apply W). Qed.

Lemma in_use_put s i n k : tree_ok s → 1 ≤ i < Z.of_nat TMPFS_MAX_NODES → k ≠ i →
  in_use (put_node i n s) k ↔ in_use s k.
Proof. intros W Hi Ne. split; intros [Hk U]; (split; [done|]); by rewrite node_put_ne in * by (done || lia). Qed.

Lemma tree_ok_create s i ps parent n : tree_ok s → 1 ≤ i < Z.of_nat TMPFS_MAX_NODES →
  n_used (node_at s i) = false → at_path s ps parent → n_directory (node_at s parent) = true →
  node_name_ok (n_name n) →
  (∀ j, in_use s j → j ≠ TMPFS_ROOT → n_parent (node_at s j) = parent → n_name (node_at s j) ≠ n_name n) →
  n_used n = true → n_parent n = parent →
  tree_ok (put_node i n s) ∧ at_path (put_node i n s) (ps ++ [n_name n]) i ∧
  ∀ cs j, j ≠ i → at_path (put_node i n s) cs j ↔ at_path s cs j.
Proof.
  intros W Hi Ui Hp Dp Hl Q V Ep. pose proof (at_path_in_use _ _ _ W Hp) as Up.
  assert (∀ k, in_use s k → k ≠ i) as Nu by (intros k [_ U] ->; congruence).
  assert (∀ cs j, at_path s cs j → at_path (put_node i n s) cs j) as P1.
  { intros cs j H. apply (at_path_other s _ cs j i); [intros; by rewrite node_put_ne| |done].
    intros qs Hq. by apply at_path_in_use, Nu in Hq. }
  assert (at_path (put_node i n s) (ps ++ [n_name n]) i) as Pi.
  { rewrite <- (node_put_eq s i n) at 2 by done. constructor; rewrite ?(node_put_eq s i n) by done.
    - rewrite Ep. by apply P1.
    - split; [lia|]. by rewrite node_put_eq.
    - unfold TMPFS_ROOT. lia. }
  assert (∀ k, in_use (put_node i n s) k → k = i ∨ in_use s k) as Ut.
  { intros k Uk. destruct (decide (k = i)); [by left|right]. by apply in_use_put in Uk. }
  assert (tree_ok (put_node i n s)) as Wt.
  { apply tree_ok_put; try done; try congruence.
    - intros k Uk Ne Nk Ei. destruct (to_parent s W k Uk Nk) as [Upk _]. rewrite Ei in Upk. by apply Nu in Upk.
    - intros _. rewrite Ep. split_and!; auto.
    - intros k [->|Uk]%Ut; [eauto|]. destruct (to_path s W k Uk) as [cs H]. eauto.
    - intros k O. destruct (to_open s W k i O) as [U _]. by apply Nu in U. }
  split; [done|]. split; [done|]. intros cs j Ne. split; [|apply P1]. intros H.
  destruct (Ut j (at_path_in_use _ _ _ Wt H)) as [?|Uj]; [done|].
  destruct (to_path s W j Uj) as [ds Hd]. by rewrite (at_path_fun _ cs ds j H (P1 _ _ Hd)).
Qed.

Lemma at_path_snoc s cs n i : at_path s (cs ++ [n]) i →
  at_path s cs (n_parent (node_at s i)) ∧ in_use s i ∧ i ≠ TMPFS_ROOT ∧ n_name (node_at s i) = n.
Proof.
  intros H. inversion H as [E|ds j H2 U N E]; [by destruct (app_cons_not_nil _ _ _ E)|subst].
  by apply app_inj_tail in E as [-> ->].
Qed.

(** Below a node without children there is nothing. *)
Lemma at_path_leaf s ps cs i j : tree_ok s → at_path s ps i → at_path s cs j → ps `prefix_of` cs →
  (∀ k, in_use s k → k ≠ TMPFS_ROOT → n_parent (node_at s k) ≠ i) → cs = ps.
Proof.
  intros W Hp Hc [[|q qs] ->] C; [by rewrite app_nil_r|].
  rewrite cons_middle, app_assoc in Hc. destruct (at_path_above _ _ _ _ W Hc) as (c&Hcc&_).
  apply at_path_snoc in Hcc as (Hpp&U&N&_). by destruct (C c U N (at_path_inj _ _ _ _ W Hpp Hp)).
Qed.

Lemma tree_ok_remove s i ps : tree_ok s → at_path s ps i → i ≠ TMPFS_ROOT →
  (∀ k, in_use s k → k ≠ TMPFS_ROOT → n_parent (node_at s k) ≠ i) → (∀ k, ¬ opened s k i) →
  tree_ok (put_node i node_zero s) ∧ ∀ cs j, at_path (put_node i node_zero s) cs j ↔ j ≠ i ∧ at_path s cs j.
Proof.
  intros W Hp Ni C O. pose proof (at_path_in_use _ _ _ W Hp) as [Hr Hu].
  assert (1 ≤ i < Z.of_nat TMPFS_MAX_NODES) as Hi by (unfold TMPFS_ROOT in Ni; lia).
  assert (∀ cs j, at_path s cs j → j ≠ i → at_path (put_node i node_zero s) cs j) as P1.
  { intros cs j H Ne. apply (at_path_other s _ cs j i); [intros; by rewrite node_put_ne| |done].
    intros qs Hq Pre. rewrite (at_path_fun _ _ _ _ Hq Hp) in Pre.
    pose proof (at_path_leaf s ps cs i j W Hp H Pre C) as ->. by destruct Ne, (at_path_inj s ps j i W H Hp). }
  assert (∀ k, in_use (put_node i node_zero s) k → in_use s k ∧ k ≠ i) as Ut.
  { intros k Uk. destruct (decide (k = i)) as [->|Ne]; [|by rewrite in_use_put in Uk].
    destruct Uk as [_ Uk]. by rewrite node_put_eq in Uk. }
  assert (tree_ok (put_node i node_zero s)) as Wt.
  { apply tree_ok_put; try done.
    - intros k Uk _ Nk E. by destruct (C k Uk Nk).
    - intros k [Uk Ne]%Ut. destruct (to_path s W k Uk) as [cs H]. eauto.
    - intros k Ok. by destruct (O k). }
  split; [done|]. intros cs j. split; [|intros [Ne H]; auto].
  intros H. destruct (Ut j (at_path_in_use _ _ _ Wt H)) as [Uj Ne]. split; [done|].
  destruct (to_path s W j Uj) as [ds Hd]. by rewrite (at_path_fun _ cs ds j H (P1 _ _ Hd Ne)).
Qed.

(** *** Moving a node with what is below it *)

Definition relocate (from to cs : list (list Z)) : list (list Z) :=
  if decide (from `prefix_of` cs) then to ++ drop (length from) cs else cs.

Lemma relocate_below from to r : relocate from to (from ++ r) = to ++ r.
Proof.
  unfold relocate. rewrite decide_True by (by exists r). by rewrite drop_app_length.
Qed.
Lemma relocate_other from to cs : ¬ from `prefix_of` cs → relocate from to cs = cs.
Proof. intros H. unfold relocate. by rewrite decide_False. Qed.

Lemma prefix_snoc_inv {A} (ps cs : list A) c : ps `prefix_of` cs ++ [c] → ps `prefix_of` cs ∨ ps = cs ++ [c].
Proof.
  intros [k E]. destruct k as [|x k _] using rev_ind.
  - right. by rewrite app_nil_r in E.
  - left. rewrite app_assoc in E. apply app_inj_tail in E as [-> _]. by exists k.
Qed.

Lemma tree_ok_relocate s i ps ds d n : tree_ok s → at_path s ps i → i ≠ TMPFS_ROOT →
  at_path s ds d → n_directory (node_at s d) = true → ¬ ps `prefix_of` ds → node_name_ok (n_name n) →
  (∀ k, in_use s k → k ≠ TMPFS_ROOT → k ≠ i → n_parent (node_at s k) = d → n_name (node_at s k) ≠ n_name n) →
  n_used n = true → n_directory n = n_directory (node_at s i) → n_size n = n_size (node_at s i) →
  n_parent n = d →
  tree_ok (put_node i n s) ∧
  (∀ cs j, at_path s cs j → at_path (put_node i n s) (relocate ps (ds ++ [n_name n]) cs) j) ∧
  ∀ j, in_use (put_node i n s) j ↔ in_use s j.
Proof.
  intros W Hp Ni Hd Dd Np Hn Q V Dn Sn Ep. pose proof (at_path_in_use _ _ _ W Hp) as Ui. destruct (Ui) as [Hr Hu].
  assert (1 ≤ i < Z.of_nat TMPFS_MAX_NODES) as Hi by (unfold TMPFS_ROOT in Ni; lia).
  set (t := put_node i n s).
  assert (∀ j, in_use t j ↔ in_use s j) as Ut.
  { intros j. destruct (decide (j = i)) as [->|Ne]; [|by apply in_use_put].
    unfold in_use, t. rewrite node_put_eq by done. rewrite V, Hu. done. }
  assert (∀ cs j, at_path s cs j → ¬ ps `prefix_of` cs → at_path t cs j) as P0.
  { intros cs j H N. apply (at_path_other s t cs j i); [intros; unfold t; by rewrite node_put_ne| |done].
    intros qs Hq. by rewrite (at_path_fun _ _ _ _ Hq Hp). }
  assert (at_path t (ds ++ [n_name n]) i) as Pi.
  { rewrite <- (node_put_eq s i n) by done. constructor; [|by apply Ut|done]. fold t.
    unfold t. rewrite node_put_eq, Ep by done. by apply P0. }
  assert (∀ cs j, at_path s cs j → at_path t (relocate ps (ds ++ [n_name n]) cs) j) as P1.
  { induction 1 as [|cs j H IH U N].
    - rewrite relocate_other; [constructor|]. intros ->%prefix_nil_inv.
      by destruct Ni, (at_path_inj s [] i TMPFS_ROOT W Hp (at_root s)).
    - destruct (decide (j = i)) as [->|Ne].
      { rewrite (at_path_fun _ _ _ _ (at_child s cs i H U N) Hp). rewrite <- (app_nil_r ps) at 2.
        by rewrite relocate_below, app_nil_r. }
      destruct (decide (ps `prefix_of` cs)) as [[r ->]|Npre].
      + rewrite relocate_below in IH. rewrite <- app_assoc, relocate_below, app_assoc.
        assert (node_at t j = node_at s j) as E by (unfold t; rewrite node_put_ne; [done|done|done|apply U|done]).
        rewrite <- E. constructor; [by rewrite E|by apply Ut|done].
      + assert (¬ ps `prefix_of` cs ++ [n_name (node_at s j)]) as Npre'.
        { intros [?|E]%prefix_snoc_inv; [done|]. subst ps.
          by destruct Ne, (at_path_inj s _ j i W (at_child s cs j H U N) Hp). }
        rewrite relocate_other by done. apply P0; [by constructor|done]. }
  split; [|done]. apply tree_ok_put; try done; try congruence.
  - intros k Uk Ne Nk E. split; [done|]. rewrite Dn, <- E. by apply (to_parent s W k).
  - intros _. rewrite Ep. split; [by eapply at_path_in_use|]. split; [|done].
    intros ->. by rewrite (at_path_fun _ _ _ _ Hd Hp) in Np.
  - intros k Uk. apply Ut in Uk. destruct (to_path s W k Uk) as [cs H]. eauto.
  - intros k Ok. destruct (to_open s W k i Ok) as (_&D&P). rewrite Sn. split; [done|]. split; [congruence|done].
Qed.

(** ** Changes of the data *)

Lemma file_ok_mono p q n : frame_limit q = frame_limit p →
  (∀ g, 0 ≤ g → covers n g → frame_is_used p g = true → frame_is_used q g = true) →
  file_ok p n → file_ok q n.
Proof.
  intros L H [H1 H2 H3 H4 H5]. split; try done. intros Hn. destruct (H5 Hn) as (f&Ef&Hf&Lf&Uf).
  exists f. split; [done|]. split; [done|]. rewrite L. split; [done|]. intros g Hg.
  apply H; [lia|unfold covers; rewrite Ef; lia|by apply Uf].
Qed.

(** Giving back the frames of a node. *)
Definition drop_frames (n : node) (p : pmm) : pmm :=
  if negb (n_physical n =? 0) then pmm_free_contiguous (n_physical n) (n_pages n) p else p.

Lemma drop_frames_spec p n : pmm_wf p → file_ok p n →
  pmm_wf (drop_frames n p) ∧ frame_limit (drop_frames n p) = frame_limit p ∧
  ∀ g, 0 ≤ g → frame_is_used (drop_frames n p) g = true ↔ frame_is_used p g = true ∧ ¬ covers n g.
Proof.
  intros W F. unfold drop_frames. pose proof (fo_pages p n F) as Hp.
  destruct (decide (n_pages n = 0)) as [E|E].
  - rewrite (fo_none p n F E). cbn [negb Z.eqb]. split; [done|]. split; [done|]. intros g Hg.
    split; [|by intros []]. intros U. split; [done|by apply covers_none].
  - destruct (fo_frames p n F E) as (f&Ef&Hf&Lf&Uf). rewrite Ef.
    destruct (Z.eqb_spec (f * 4096) 0) as [|_]; [lia|]. cbn [negb].
    destruct (free_contiguous_frames f (n_pages n) p W Hf ltac:(lia) Lf) as (W'&L'&_&U').
    split; [done|]. split; [done|]. intros g Hg. rewrite U' by done. unfold covers. rewrite Ef.
    destruct (Z.leb_spec f g), (Z.ltb_spec g (f + n_pages n)); cbn [andb negb];
      split; (intros H'; first [done|split; [done|lia]|destruct H' as [? []]; lia|by destruct H']).
Qed.

(** A step that changes node [i], its data and the frames, and no path. *)
Record data_step (s t : tmpfs) (i : Z) : Prop := {
  ds_data : data_ok t;
  ds_foreign : ∀ g, foreign t g ↔ foreign s g;
  ds_shape : same_shape s t;
  ds_handles : handles t = handles s;
  ds_other : ∀ j, 0 ≤ j → j ≠ i → node_at t j = node_at s j;
}.

Lemma data_step_refl s i : data_ok s → data_step s s i.
Proof. intros D. by split. Qed.

(** The frames when node [i] gets the run at [f] in the place of its own. *)
Lemma foreign_put s i n p u : tree_ok s → data_ok s → 0 ≤ i < Z.of_nat TMPFS_MAX_NODES →
  (∀ g, 0 ≤ g → frame_is_used p g = true ↔
    covers n g ∨ (frame_is_used (t_pmm s) g = true ∧ ¬ covers (node_at s i) g)) →
  (∀ g, covers n g → ¬ foreign s g) →
  ∀ g, foreign (put_node i n (s <| t_pmm := p |> <| used_pages := u |>)) g ↔ foreign s g.
Proof.
  intros T D Hi U A g. unfold foreign. cbn [put_node set_field t_pmm].
  assert (∀ j, 0 ≤ j → node_at (put_node i n (s <| t_pmm := p |> <| used_pages := u |>)) j =
    if decide (j = i) then n else node_at s j) as E by (intros; rewrite node_put; [done|apply T|done|done]).
  change (_ <| t_pmm := p |>) with (s <| t_pmm := p |>). split.
  - intros (Hg&Ug&C). split; [done|]. apply U in Ug as [Cn|[Ug Co]]; [|split; [done|]|done].
    + destruct (C i Hi). by rewrite E, decide_True by lia.
    + intros j Hj Cj. destruct (decide (j = i)) as [->|Ne]; [done|].
      apply (C j Hj). by rewrite E, decide_False by lia.
  - intros F. destruct (F) as (Hg&Ug&C). split; [done|]. split; [apply U; [done|right; auto]|].
    intros j Hj. rewrite E by lia. destruct (decide _); [|by apply C]. intros Cn. by apply (A g).
Qed.

Lemma pages_le_used s i : tree_ok s → data_ok s → 0 ≤ i < Z.of_nat TMPFS_MAX_NODES →
  n_pages (node_at s i) ≤ used_pages s.
Proof.
  intros T D Hi. rewrite (do_sum s D). pose proof (to_nodes s T) as L.
  apply elem_le_sum.
  - intros n Hn. apply (aget_elem node_zero) in Hn as (k&Hk&<-). rewrite L in Hk.
    apply (fo_pages _ _ (do_file s D k Hk)).
  - apply (aget_elem node_zero). exists i. by rewrite L.
Qed.

(** A node with other data, on other frames. *)
Definition with_data (n : node) (data : list Z) (physical pages : Z) : node :=
  n <| n_data := data |> <| n_physical := physical |> <| n_pages := pages |>.

Lemma with_data_same n : with_data n (n_data n) (n_physical n) (n_pages n) = n.
Proof. by destruct n. Qed.

(** The frames of node [i] and of a new run. *)
Lemma grow_frames s i p f k : tree_ok s → data_ok s → 0 ≤ i < Z.of_nat TMPFS_MAX_NODES →
  allocated (t_pmm s) p f k → 0 < k →
  let q := drop_frames (node_at s i) p in
  pmm_wf q ∧ frame_limit q = frame_limit (t_pmm s) ∧
  (∀ g, f ≤ g < f + k → frame_is_used q g = true) ∧
  (∀ g, 0 ≤ g → frame_is_used q g = true ↔
    f ≤ g < f + k ∨ (frame_is_used (t_pmm s) g = true ∧ ¬ covers (node_at s i) g)) ∧
  ∀ j g, 0 ≤ j < Z.of_nat TMPFS_MAX_NODES → f ≤ g < f + k → ¬ covers (node_at s j) g.
Proof.
  intros T D Hi A Hk q. destruct (al_same _ _ _ _ A) as (Ll&_). destruct (al_range _ _ _ _ A) as [Hf _].
  assert (∀ g, 0 ≤ g → frame_is_used p g = true ↔ f ≤ g < f + k ∨ frame_is_used (t_pmm s) g = true) as Up.
  { intros g Hg. rewrite (al_used _ _ _ _ A) by done. rewrite orb_true_iff, andb_true_iff, Z.leb_le, Z.ltb_lt. done. }
  assert (∀ j, 0 ≤ j < Z.of_nat TMPFS_MAX_NODES → file_ok p (node_at s j)) as Fp.
  { intros j Hj. apply (file_ok_mono (t_pmm s)); [done| |by apply D]. intros g Hg _ U. apply Up; auto. }
  assert (∀ j g, 0 ≤ j < Z.of_nat TMPFS_MAX_NODES → f ≤ g < f + k → ¬ covers (node_at s j) g) as Ap.
  { intros j g Hj Hg C. pose proof (do_file s D j Hj) as F. destruct (decide (n_pages (node_at s j) = 0)) as [E|E].
    { by apply (covers_none _ g E). }
    destruct (fo_frames _ _ F E) as (f'&Ef&_&_&Uf). unfold covers in C. rewrite Ef in C.
    pose proof (al_free _ _ _ _ A (g - f) ltac:(lia)) as Fr. replace (f + (g - f)) with g in Fr by lia.
    rewrite Uf in Fr by lia. done. }
  destruct (drop_frames_spec p (node_at s i) (al_wf _ _ _ _ A) (Fp i Hi)) as (Wq&Lq&Uq).
  split; [done|]. split; [unfold q; lia|].
  assert (∀ g, 0 ≤ g → frame_is_used q g = true ↔
    f ≤ g < f + k ∨ (frame_is_used (t_pmm s) g = true ∧ ¬ covers (node_at s i) g)) as U.
  { intros g Hg. unfold q. rewrite Uq, Up by done. pose proof (Ap i g Hi).
    split; [intros [[?|?] ?]|intros [?|[? ?]]]; auto. }
  split; [|done]. intros g Hg. apply U; [lia|by left].
Qed.

Lemma covers_run n f k g : n_physical n = f * 4096 → n_pages n = k → covers n g ↔ f ≤ g < f + k.
Proof. intros E1 E2. unfold covers. rewrite E1, E2. lia. Qed.

(** Node [i] on the new run, in place of its old frames. *)
Lemma data_step_grow s i p f k data : tmpfs_ok s → 0 ≤ i < Z.of_nat TMPFS_MAX_NODES →
  n_directory (node_at s i) = false →
  allocated (t_pmm s) p f k → 0 < k ≤ 2048 → Z.of_nat (length data) = k * TMPFS_PAGE →
  n_size (node_at s i) ≤ k * TMPFS_PAGE → used_pages s - n_pages (node_at s i) + k ≤ page_limit s →
  data_step s (put_node i (with_data (node_at s i) data (f * 4096) k)
    (s <| t_pmm := drop_frames (node_at s i) p |> <| used_pages := used_pages s - n_pages (node_at s i) + k |>)) i.
Proof.
  intros [T D] Hi Nd A Hk Ld Sz Lim. set (n := with_data _ _ _ _).
  destruct (grow_frames s i p f k T D Hi A ltac:(lia)) as (Wq&Lq&Un&Uq&Ap).
  destruct (al_range _ _ _ _ A) as [Hf Lf].
  pose proof (do_file s D i Hi) as F. pose proof (λ g, covers_run n f k g eq_refl eq_refl) as Cn.
  split; try done.
  - apply data_ok_put; try done.
    + split; cbn; [lia|done|split; [apply F|done]|lia|]. intros _. exists f. rewrite Lq. done.
    + intros [=E]. unfold n, with_data in E. cbn in E. congruence.
    + intros j Hj Ne. apply (file_ok_mono (t_pmm s)); [done| |by apply D]. intros g Hg C U.
      apply Uq; [done|]. right. split; [done|]. intros C'. by apply (do_apart s D i j g).
    + intros j g Hj _ C%Cn. by apply Ap.
  - apply foreign_put; try done.
    + intros g Hg. rewrite Cn. by apply Uq.
    + intros g C%Cn (Hg&U&_). pose proof (al_free _ _ _ _ A (g - f) ltac:(lia)) as Fr.
      replace (f + (g - f)) with g in Fr by lia. congruence.
  - match goal with |- same_shape s (put_node i n ?t) =>
      change (same_shape s (put_node i n t)); transitivity t; [done|apply same_shape_put; [apply T|done|done]] end.
  - intros j Hj Ne. rewrite node_put, decide_False by (done || apply T). done.
Qed.

Lemma put_node_same s i : put_node i (node_at s i) s = s.
Proof. unfold put_node, node_at. rewrite aset_aget. by destruct s. Qed.

Lemma pages_of needed : 0 ≤ needed ≤ TMPFS_MAX_FILE →
  let k := (needed + TMPFS_PAGE - 1) / TMPFS_PAGE in 0 ≤ k ≤ 2048 ∧ needed ≤ k * TMPFS_PAGE.
Proof. intros H k. subst k. unfold TMPFS_MAX_FILE, TMPFS_PAGE in *. Z.div_mod_to_equations. lia. Qed.

Lemma data_step_ok s t i : tmpfs_ok s → in_use s i → data_step s t i →
  (∀ k, opened s k i → h_position (handle_at s k) ≤ n_size (node_at t i)) → tmpfs_ok t.
Proof.
  intros [T D] [Hi U] St P. split; [|apply St]. apply (tree_ok_shape s); [done|apply St| | |].
  - rewrite (ds_handles _ _ _ St). apply T.
  - intros j Hj V. destruct (decide (j = i)) as [->|Ne].
    + destruct (ds_shape _ _ _ St) as [_ Sh]. destruct (shape_fields _ _ (Sh i ltac:(lia))) as (E&_). congruence.
    + rewrite (ds_other _ _ _ St) in * by (done || lia). by apply T.
  - unfold opened, handle_at. rewrite (ds_handles _ _ _ St). intros k j O.
    destruct (to_open s T k j O) as (Uj&Dj&Pj). split; [done|]. split; [done|].
    destruct (decide (j = i)) as [->|Ne]; [|by rewrite (ds_other _ _ _ St) by (done || apply Uj)].
    split; [apply Pj|]. by apply P.
Qed.

(** What [reserve] does to node [i]: room for [needed] bytes, the contents kept. *)
Record reserved (s : tmpfs) (i needed : Z) (r : Z * tmpfs) : Prop := {
  rv_step : data_step s r.2 i;
  rv_node : ∃ d ph k, node_at r.2 i = with_data (node_at s i) d ph k ∧
    take (Z.to_nat (n_size (node_at s i))) d = take (Z.to_nat (n_size (node_at s i))) (n_data (node_at s i)) ∧
    (r.1 = FS_ERROR_NO_SPACE ∨ r.1 = 0 ∧ needed ≤ k * TMPFS_PAGE ∧ needed ≤ TMPFS_MAX_FILE);
}.

Lemma reserved_same s i needed st : data_ok s →
  st = FS_ERROR_NO_SPACE ∨ st = 0 ∧ needed ≤ n_pages (node_at s i) * TMPFS_PAGE ∧ needed ≤ TMPFS_MAX_FILE →
  reserved s i needed (st, s).
Proof.
  intros D H. split; [by apply data_step_refl|].
  exists (n_data (node_at s i)), (n_physical (node_at s i)), (n_pages (node_at s i)).
  by rewrite with_data_same.
Qed.

Lemma reserved_grow s i needed p f k : tmpfs_ok s → 0 ≤ i < Z.of_nat TMPFS_MAX_NODES →
  n_directory (node_at s i) = false → allocated (t_pmm s) p f k → n_pages (node_at s i) < k ≤ 2048 →
  needed ≤ k * TMPFS_PAGE → needed ≤ TMPFS_MAX_FILE →
  used_pages s - n_pages (node_at s i) + k ≤ page_limit s →
  reserved s i needed (0, put_node i (with_data (node_at s i)
      (splice (zeros (k * TMPFS_PAGE)) 0 (take (Z.to_nat (n_size (node_at s i))) (n_data (node_at s i)))) (f * 4096) k)
    (s <| t_pmm := drop_frames (node_at s i) p |> <| used_pages := used_pages s - n_pages (node_at s i) + k |>)).
Proof.
  intros W Hi Nd A Hk Hnk Hm Lim. destruct (W) as [T D]. pose proof (do_file s D i Hi) as F.
  pose proof (fo_pages _ _ F). pose proof (fo_size _ _ F). pose proof (fo_length _ _ F) as Ld.
  set (d := splice _ _ _). unfold TMPFS_PAGE in *.
  assert (length (take (Z.to_nat (n_size (node_at s i))) (n_data (node_at s i))) = Z.to_nat (n_size (node_at s i))) as Lt
    by (rewrite length_take; lia).
  split; cbn [fst snd].
  - apply data_step_grow; try done; [lia| |unfold TMPFS_PAGE; lia].
    unfold d. rewrite length_splice; rewrite ?Lt, ?length_zeros; unfold TMPFS_PAGE; lia.
  - exists d, (f * 4096), k. split; [by rewrite node_put, decide_True by (done || lia || apply T)|]. split.
    + unfold d. rewrite <- Lt at 1. apply take_splice_0.
    + by right.
Qed.

Lemma reserve_spec s i needed : tmpfs_ok s → 0 ≤ i < Z.of_nat TMPFS_MAX_NODES →
  n_directory (node_at s i) = false → 0 ≤ needed → reserved s i needed (reserve i needed s).
Proof.
  intros W Hi Nd Hn. destruct (W) as [T D]. pose proof (do_file s D i Hi) as F.
  unfold reserve. destruct (Z.ltb_spec TMPFS_MAX_FILE needed) as [|Hm]; [apply reserved_same; auto|].
  set (k := (needed + TMPFS_PAGE - 1) / TMPFS_PAGE). destruct (pages_of needed ltac:(lia)) as [Hk Hnk]. fold k in Hk, Hnk.
  destruct (Z.leb_spec k (n_pages (node_at s i))) as [|Gt].
  { apply reserved_same; [done|]. right. split; [done|]. unfold TMPFS_PAGE in *. split; [lia|done]. }
  pose proof (fo_pages _ _ F). pose proof (do_limit s D). pose proof (pages_le_used s i T D Hi).
  rewrite u64_small by lia.
  destruct (Z.ltb_spec (page_limit s) (used_pages s - n_pages (node_at s i) + k)) as [|Lim];
    [apply reserved_same; auto|].
  pose proof (allocate_contiguous_outcome (t_pmm s) k (do_pmm s D) ltac:(lia)) as O.
  unfold pmm_allocate_contiguous. inversion O as [p f _ A Eq|_ Eq].
  - destruct (al_range _ _ _ _ A) as [Hf _]. destruct (Z.eqb_spec (f * 4096) 0) as [|_]; [lia|].
    apply reserved_grow; try done. lia.
  - cbn [Z.eqb]. replace (s <| t_pmm := t_pmm s |>) with s by (by destruct s). apply reserved_same; auto.
Qed.

Lemma covers_used s i g : data_ok s → 0 ≤ i < Z.of_nat TMPFS_MAX_NODES → covers (node_at s i) g →
  0 ≤ g ∧ frame_is_used (t_pmm s) g = true.
Proof.
  intros D Hi C. pose proof (do_file s D i Hi) as F. destruct (decide (n_pages (node_at s i) = 0)) as [E|E].
  { by destruct (covers_none _ g E). }
  destruct (fo_frames _ _ F E) as (f&Ef&Hf&_&Uf). unfold covers in C. rewrite Ef in C.
  split; [lia|]. apply Uf. lia.
Qed.

(** Node [i] changes and keeps its frames. *)
Lemma put_data s i m : tree_ok s → data_ok s → 0 ≤ i < Z.of_nat TMPFS_MAX_NODES →
  n_physical m = n_physical (node_at s i) → n_pages m = n_pages (node_at s i) →
  length (n_data m) = length (n_data (node_at s i)) → 0 ≤ n_size m ≤ n_pages m * TMPFS_PAGE →
  (n_directory m = true → n_pages m = 0) →
  data_ok (put_node i m s) ∧ ∀ g, foreign (put_node i m s) g ↔ foreign s g.
Proof.
  intros T D Hi Ph Pg Ld Sz Dm.
  assert (s <| t_pmm := t_pmm s |> <| used_pages := used_pages s |> = s) as Es by (by destruct s).
  assert (∀ g, covers m g ↔ covers (node_at s i) g) as C by (intros g; unfold covers; by rewrite Ph, Pg).
  split.
  - rewrite <- Es at 1. apply data_ok_put; try done.
    + apply D.
    + destruct (do_file s D i Hi) as [H1 H2 H3 H4 H5]. split; rewrite ?Ph, ?Pg, ?Ld in *; done.
    + intros j Hj _. by apply D.
    + intros j g Hj Ne Cg%C Cj. by apply (do_apart s D i j g).
    + lia.
    + apply (do_limit s D).
  - intros g. rewrite <- Es at 1. apply foreign_put; try done.
    + intros h Hh. rewrite C. destruct (decide (n_physical (node_at s i) ≤ h * 4096 <
        n_physical (node_at s i) + n_pages (node_at s i) * 4096)) as [Y|N].
      * split; [by left|]. intros _. by apply (covers_used s i h D Hi).
      * split; [by right|]. by intros [?|[? _]].
    + intros h Ch%C (_&_&N). by apply (N i Hi).
Qed.

(** The bytes of a file. *)
Definition content (n : node) : list Z := take (Z.to_nat (n_size n)) (n_data n).

Lemma data_step_put s i m : tree_ok s → data_ok s → 0 ≤ i < Z.of_nat TMPFS_MAX_NODES →
  shape m = shape (node_at s i) → n_physical m = n_physical (node_at s i) →
  n_pages m = n_pages (node_at s i) → length (n_data m) = length (n_data (node_at s i)) →
  0 ≤ n_size m ≤ n_pages m * TMPFS_PAGE → data_step s (put_node i m s) i.
Proof.
  intros T D Hi Sh Ph Pg Ld Sz. destruct (put_data s i m T D Hi Ph Pg Ld Sz) as [Dt Ft].
  { destruct (shape_fields _ _ Sh) as (_&->&_). rewrite Pg. by apply D. }
  split; try done.
  - by apply same_shape_put; [apply T| |].
  - intros j Hj Ne. by rewrite node_put, decide_False by (done || apply T).
Qed.

Lemma data_step_trans s t u i : data_step s t i → data_step t u i → data_step s u i.
Proof.
  intros [] []. split; try done.
  - intros g. by rewrite ds_foreign1.
  - by transitivity t.
  - congruence.
  - intros j Hj Ne. by rewrite ds_other1, ds_other0.
Qed.

(** Writing [b] at [o], with the new size [z]. *)
Definition written (n : node) (o : Z) (b : list Z) (z now : Z) : node :=
  n <| n_data := splice (n_data n) o b |> <| n_size := z |> <| n_mtime := now |> <| n_ctime := now |>.

Lemma data_step_write s i o b z now : tree_ok s → data_ok s → 0 ≤ i < Z.of_nat TMPFS_MAX_NODES →
  0 ≤ o → o + Z.of_nat (length b) ≤ n_pages (node_at s i) * TMPFS_PAGE →
  0 ≤ z ≤ n_pages (node_at s i) * TMPFS_PAGE →
  data_step s (put_node i (written (node_at s i) o b z now) s) i.
Proof.
  intros T D Hi Ho Hb Hz. apply data_step_put; try done.
  change (length (splice (n_data (node_at s i)) o b) = length (n_data (node_at s i))).
  apply length_splice; [done|]. by rewrite (fo_length _ _ (do_file s D i Hi)).
Qed.

Lemma content_written_0 n b now : content (written n 0 b (Z.of_nat (length b)) now) = b.
Proof.
  unfold content, written. change (take (Z.to_nat (Z.of_nat (length b))) (splice (n_data n) 0 b) = b).
  rewrite Nat2Z.id. apply take_splice_0.
Qed.

Lemma content_written_end n b now : 0 ≤ n_size n ≤ Z.of_nat (length (n_data n)) →
  content (written n (n_size n) b (n_size n + Z.of_nat (length b)) now) = content n ++ b.
Proof.
  intros H. unfold content, written, splice.
  change (take (Z.to_nat (n_size n + Z.of_nat (length b)))
    (take (Z.to_nat (n_size n)) (n_data n) ++ b ++ drop (Z.to_nat (n_size n) + length b) (n_data n)) =
    take (Z.to_nat (n_size n)) (n_data n) ++ b).
  rewrite app_assoc, Z2Nat.inj_add, Nat2Z.id by lia.
  rewrite take_app_le by (rewrite length_app, length_take; lia). apply take_ge.
  rewrite length_app, length_take. lia.
Qed.

(** *** Removing a file *)

Lemma put_put s i n m : put_node i n (put_node i m s) = put_node i n s.
Proof. unfold put_node. cbn. rewrite aset_aset. done. Qed.

Lemma remove_data s i : tree_ok s → data_ok s → 0 ≤ i < Z.of_nat TMPFS_MAX_NODES →
  let t := put_node i node_zero (release_data i s) in
  data_ok t ∧ (∀ g, foreign t g ↔ foreign s g) ∧ handles t = handles s ∧
  nodes t = nodes (put_node i node_zero s).
Proof.
  intros T D Hi t. pose proof (do_file s D i Hi) as F.
  destruct (drop_frames_spec (t_pmm s) (node_at s i) (do_pmm s D) F) as (Wp&Lp&Up).
  pose proof (fo_pages _ _ F). pose proof (do_limit s D). pose proof (pages_le_used s i T D Hi).
  assert (t = put_node i node_zero (s <| t_pmm := drop_frames (node_at s i) (t_pmm s) |>
    <| used_pages := used_pages s - n_pages (node_at s i) |>)) as ->.
  { unfold t, release_data. rewrite put_put. f_equal. unfold drop_frames.
    destruct (n_physical (node_at s i) =? 0); cbn [negb]; cbn; rewrite u64_small by lia; [by destruct s|done]. }
  split; [|split; [|done]].
  - apply data_ok_put; try done; try (cbn; lia).
    + intros j Hj Ne. apply (file_ok_mono (t_pmm s)); [done| |by apply D]. intros g Hg C U.
      apply Up; [done|]. split; [done|]. intros C'. by apply (do_apart s D i j g).
    + intros j g _ _ C. by destruct (covers_none node_zero g eq_refl C).
  - apply foreign_put; try done.
    + intros g Hg. rewrite Up by done. split; [by right|]. intros [C|?]; [by destruct (covers_none node_zero g eq_refl C)|done].
    + intros g C. by destruct (covers_none node_zero g eq_refl C).
Qed.
