(* ===== verification/TmpfsSpec.v ===== *)
(** * The in-memory file system as a map from paths

    What src/src/fs/tmpfs.c promises: directories and files with their bytes at
    lists of names, and open descriptors with a path and a position.  Every
    operation of [Tmpfs.v] is a step of this specification, keeps the
    invariant, and takes and gives back frames exactly. *)

From S2P Require Import Prelude Errno Pmm Cstr Path Tmpfs.

(** ** The specification *)

Inductive entry := EDir | EFile (bytes : list Z).
#[global] Instance entry_eq_dec : EqDecision entry.
Proof. solve_decision. Defined.

Record afs := Afs {
  a_tree : list (list Z) → option entry;
  a_fds : Z → option (list (list Z) * Z);
}.

Inductive tmpfs_op :=
| TCreate (now : Z) (directory : bool) (path : list Z)
| TUnlink (path : list Z)
| TRename (path new_name : list Z)
| TMove (path destination : list Z)
| TWrite (now : Z) (path bytes : list Z)
| TAppend (now : Z) (path bytes : list Z)
| TOpen (path : list Z)
| TRead (descriptor count : Z)
| TSeek (descriptor offset whence : Z)
| TClose (descriptor : Z)
| TStat (path : list Z)
| TList (path : list Z) (capacity : Z).

Inductive answer :=
| ACode (r : Z)
| ABytes (r : Z) (bytes : list Z)
| AStat (r : Z) (info : file_stat_info)
| AList (r : Z) (entries : list directory_entry).

Definition same (A B : afs) : Prop := (∀ q, a_tree B q = a_tree A q) ∧ ∀ d, a_fds B d = a_fds A d.

(** [B] is [A] with [e] at [cs]. *)
Definition updated (A : afs) (cs : list (list Z)) (e : option entry) (B : afs) : Prop :=
  (∀ q, a_tree B q = if decide (q = cs) then e else a_tree A q) ∧ ∀ d, a_fds B d = a_fds A d.

(** [B] is [A] with the entry at [from], and what is below it, at [to]. *)
Definition relocated (A : afs) (from to : list (list Z)) (B : afs) : Prop :=
  (∀ q, a_tree A q ≠ None → a_tree B (relocate from to q) = a_tree A q) ∧
  (∀ q, a_tree B q ≠ None → ∃ q', a_tree A q' ≠ None ∧ q = relocate from to q') ∧
  ∀ d, a_fds B d = (λ '(q, pos), (relocate from to q, pos)) <$> a_fds A d.

Definition with_fd (A : afs) (d : Z) (v : option (list (list Z) * Z)) (B : afs) : Prop :=
  (∀ q, a_tree B q = a_tree A q) ∧ ∀ k, a_fds B k = if decide (k = d) then v else a_fds A k.

Definition refused (e : Z) (ans : answer) (A B : afs) : Prop := ans = ACode e ∧ same A B.

(** 0, or the error of following the names: a name is missing, or something
    that is no directory has a name after it. *)
Fixpoint locate_from (T : list (list Z) → option entry) (pre cs : list (list Z)) : Z :=
  match cs with
  | [] => 0
  | n :: cs' =>
      match T pre with
      | Some EDir => if decide (T (pre ++ [n]) = None) then FS_ERROR_NOT_FOUND
                     else locate_from T (pre ++ [n]) cs'
      | _ => FS_ERROR_NOT_DIR
      end
  end.
Definition locate (A : afs) (cs : list (list Z)) : Z := locate_from (a_tree A) [] cs.

(** 0, or why nothing can be made at [cs]. *)
Definition create_check (A : afs) (cs : list (list Z)) : Z :=
  match last cs with
  | None => FS_ERROR_INVALID
  | Some n =>
      if TMPFS_NAME_MAX <? Z.of_nat (length n) then FS_ERROR_INVALID
      else if locate A (removelast cs) <? 0 then locate A (removelast cs)
      else match a_tree A (removelast cs) with
           | Some EDir => if decide (a_tree A cs = None) then 0 else FS_ERROR_EXISTS
           | _ => FS_ERROR_NOT_DIR
           end
  end.

Definition has_child (A : afs) (cs : list (list Z)) : Prop := ∃ n, a_tree A (cs ++ [n]) ≠ None.
Definition file_open (A : afs) (cs : list (list Z)) : Prop := ∃ d pos, a_fds A d = Some (cs, pos).

(** A file at [cs] gets the bytes [new], unless there is no room. *)
Definition store (A : afs) (cs : list (list Z)) (new : list Z) (ans : answer) (B : afs) : Prop :=
  (ans = ACode FS_ERROR_NO_SPACE ∧ same A B) ∨ updated A cs (Some (EFile new)) B.

(** The file is made when nothing has the path; [busy] tells the writes an open
    file refuses. *)
Definition write_step (busy : bool) (cs : list (list Z)) (new : list Z → list Z) (count : Z)
    (ans : answer) (A B : afs) : Prop :=
  if locate A cs =? FS_ERROR_NOT_FOUND then
    if create_check A cs <? 0 then refused (create_check A cs) ans A B
    else refused FS_ERROR_NO_SPACE ans A B ∨
         (ans = ACode FS_ERROR_NO_SPACE ∧ updated A cs (Some (EFile [])) B) ∨
         (ans = ACode count ∧ updated A cs (Some (EFile (new []))) B)
  else if locate A cs <? 0 then refused (locate A cs) ans A B
  else match a_tree A cs with
       | Some (EFile old) =>
           (busy = true ∧ file_open A cs ∧ refused FS_ERROR_BUSY ans A B) ∨
           ((busy = false ∨ ¬ file_open A cs) ∧
            (refused FS_ERROR_NO_SPACE ans A B ∨
             (ans = ACode count ∧ updated A cs (Some (EFile (new old))) B)))
       | _ => refused FS_ERROR_NOT_FILE ans A B
       end.

Definition size_of (e : entry) : Z := match e with EDir => 0 | EFile b => Z.of_nat (length b) end.

(** The entry of a listing. *)
Definition listed (n : list Z) (e : entry) : directory_entry :=
  DirEntry n (size_of e) (match e with EDir => FS_ATTRIBUTE_DIRECTORY | EFile _ => 0 end).

Definition afs_step (o : tmpfs_op) (ans : answer) (A B : afs) : Prop :=
  match o with
  | TCreate now directory p =>
      let e := create_check A (names p) in
      if e <? 0 then refused e ans A B
      else refused FS_ERROR_NO_SPACE ans A B ∨
           (ans = ACode 0 ∧ updated A (names p) (Some (if directory then EDir else EFile [])) B)
  | TUnlink p =>
      let cs := names p in
      if locate A cs <? 0 then refused (locate A cs) ans A B
      else if decide (cs = []) then refused FS_ERROR_BUSY ans A B
      else (has_child A cs ∧ refused FS_ERROR_NOT_BLANK ans A B) ∨
           (¬ has_child A cs ∧ file_open A cs ∧ refused FS_ERROR_BUSY ans A B) ∨
           (¬ has_child A cs ∧ ¬ file_open A cs ∧ ans = ACode 0 ∧ updated A cs None B)
  | TRename p new_name =>
      let cs := names p in let to := removelast cs ++ [new_name] in
      if locate A cs <? 0 then refused (locate A cs) ans A B
      else if decide (cs = []) then refused FS_ERROR_BUSY ans A B
      else if negb (valid_name new_name) then refused FS_ERROR_INVALID ans A B
      else if decide (a_tree A to ≠ None ∧ to ≠ cs) then refused FS_ERROR_EXISTS ans A B
      else ans = ACode 0 ∧ relocated A cs to B
  | TMove p q =>
      let cs := names p in let ds := names q in let to := ds ++ [default [] (last cs)] in
      if locate A cs <? 0 then refused (locate A cs) ans A B
      else if locate A ds <? 0 then refused (locate A ds) ans A B
      else if decide (cs = []) then refused FS_ERROR_BUSY ans A B
      else if decide (a_tree A ds ≠ Some EDir) then refused FS_ERROR_NOT_DIR ans A B
      else if decide (cs `prefix_of` ds) then refused FS_ERROR_INVALID ans A B
      else if decide (a_tree A to ≠ None ∧ to ≠ cs) then refused FS_ERROR_EXISTS ans A B
      else ans = ACode 0 ∧ relocated A cs to B
  | TWrite now p b => write_step true (names p) (λ _, b) (Z.of_nat (length b)) ans A B
  | TAppend now p b => write_step false (names p) (λ old, old ++ b) (Z.of_nat (length b)) ans A B
  | TOpen p =>
      let cs := names p in
      if locate A cs <? 0 then refused (locate A cs) ans A B
      else match a_tree A cs with
           | Some (EFile _) =>
               refused FS_ERROR_NO_SPACE ans A B ∨
               ∃ d, 0 ≤ d ∧ a_fds A d = None ∧ ans = ACode d ∧ with_fd A d (Some (cs, 0)) B
           | _ => refused FS_ERROR_NOT_FILE ans A B
           end
  | TRead d count =>
      match a_fds A d with
      | None => ans = ABytes FS_ERROR_INVALID [] ∧ same A B
      | Some (cs, pos) =>
          ∃ bytes, a_tree A cs = Some (EFile bytes) ∧
            let out := take (Z.to_nat count) (drop (Z.to_nat pos) bytes) in
            ans = ABytes (Z.of_nat (length out)) out ∧
            with_fd A d (Some (cs, pos + Z.of_nat (length out))) B
      end
  | TSeek d offset whence =>
      match a_fds A d with
      | None => refused FS_ERROR_INVALID ans A B
      | Some (cs, pos) =>
          ∃ bytes, a_tree A cs = Some (EFile bytes) ∧
            let target := i64 (offset + if whence =? SEEK_CUR then pos
                                        else if whence =? SEEK_END then Z.of_nat (length bytes) else 0) in
            if target <? 0 then refused FS_ERROR_INVALID ans A B
            else ans = ACode (Z.min target (Z.of_nat (length bytes))) ∧
                 with_fd A d (Some (cs, Z.min target (Z.of_nat (length bytes)))) B
      end
  | TClose d =>
      match a_fds A d with
      | None => refused FS_ERROR_INVALID ans A B
      | Some _ => ans = ACode 0 ∧ with_fd A d None B
      end
  | TStat p =>
      same A B ∧
      if locate A (names p) <? 0 then ans = AStat (locate A (names p)) stat_zero
      else ∃ e, a_tree A (names p) = Some e ∧
        ans = AStat 0 (FileStatInfo (size_of e) (match e with EDir => 1 | _ => 0 end) FS_NODE_FILE)
  | TList p capacity =>
      let cs := names p in
      same A B ∧
      if locate A cs <? 0 then ans = AList (locate A cs) []
      else if decide (a_tree A cs ≠ Some EDir) then ans = AList FS_ERROR_NOT_DIR []
      else ∃ es, ans = AList (Z.of_nat (length es)) es ∧ NoDup (e_name <$> es) ∧
        Z.of_nat (length es) ≤ Z.max 0 capacity ∧
        (∀ x, x ∈ es → ∃ n e, a_tree A (cs ++ [n]) = Some e ∧ x = listed n e) ∧
        (Z.of_nat (length es) < capacity →
         ∀ n e, a_tree A (cs ++ [n]) = Some e → listed n e ∈ es)
  end.

(** ** The operations and the states they reach *)

Definition exec (o : tmpfs_op) (s : tmpfs) : answer * tmpfs :=
  let code r := (ACode r.1, r.2) in
  match o with
  | TCreate now false p => code (tmpfs_create_file now p s)
  | TCreate now true p => code (tmpfs_create_directory now p s)
  | TUnlink p => code (tmpfs_unlink p s)
  | TRename p n => code (tmpfs_rename p n s)
  | TMove p q => code (tmpfs_move p q s)
  | TWrite now p b => code (tmpfs_write_file now p b s)
  | TAppend now p b => code (tmpfs_append_file now p b s)
  | TOpen p => code (tmpfs_open p s)
  | TRead d c => let '(r, out, t) := tmpfs_read d c s in (ABytes r out, t)
  | TSeek d o w => code (tmpfs_seek d o w s)
  | TClose d => code (tmpfs_close d s)
  | TStat p => let '(r, i) := tmpfs_stat p s in (AStat r i, s)
  | TList p c => let '(r, es) := tmpfs_list_long p c s in (AList r es, s)
  end.

(** A path as vfs.c passes it: normal, in a buffer of 512 bytes. *)
Definition path_ok (p : list Z) : Prop :=
  ∃ cs, Forall plain_name cs ∧ p = render cs ∧ length_of p < VFS_PATH_MAX.

Definition op_ok (o : tmpfs_op) : Prop :=
  match o with
  | TCreate _ _ p | TUnlink p | TOpen p | TStat p | TList p _ => path_ok p
  | TRename p n => path_ok p ∧ cstr n
  | TMove p q => path_ok p ∧ path_ok q
  | TWrite _ p b | TAppend _ p b => path_ok p ∧ Z.of_nat (length b) < 2 ^ 32
  | TRead _ c => is_u32 c
  | TSeek _ _ _ | TClose _ => True
  end.

Inductive tmpfs_reachable : tmpfs → Prop :=
| tmpfs_made p s self p' : pmm_wf p → vfs_tmpfs_create p = (Some (s, self), p') → tmpfs_reachable s
| tmpfs_step s o : tmpfs_reachable s → op_ok o → tmpfs_reachable (exec o s).2
(** The rest of the kernel takes and gives back frames that are not the
    instance's. *)
| tmpfs_others s p : tmpfs_reachable s → pmm_wf p → frame_limit p = frame_limit (t_pmm s) →
    (∀ g i, 0 ≤ i < Z.of_nat TMPFS_MAX_NODES → covers (node_at s i) g → frame_is_used p g = true) →
    tmpfs_reachable (s <| t_pmm := p |>).

(** ** The state as a map *)

Definition entry_of (n : node) : entry := if n_directory n then EDir else EFile (content n).

Definition tree_of (s : tmpfs) (cs : list (list Z)) : option entry :=
  let i := resolve s TMPFS_ROOT cs in if i <? 0 then None else Some (entry_of (node_at s i)).

(** The names from the root to a node. *)
Fixpoint climb (fuel : nat) (s : tmpfs) (i : Z) : list (list Z) :=
  match fuel with
  | O => []
  | S fuel' => if i =? TMPFS_ROOT then []
               else climb fuel' s (n_parent (node_at s i)) ++ [n_name (node_at s i)]
  end.

Definition fds_of (s : tmpfs) (d : Z) : option (list (list Z) * Z) :=
  match get_handle s d with
  | None => None
  | Some h => Some (climb TMPFS_MAX_NODES s (h_node h), h_position h)
  end.

Definition afs_of (s : tmpfs) : afs := Afs (tree_of s) (fds_of s).

Lemma tree_at s cs i : tree_ok s → at_path s cs i → tree_of s cs = Some (entry_of (node_at s i)).
Proof.
  intros W H. unfold tree_of. rewrite (resolve_complete s [] cs i W TMPFS_ROOT (at_root s) H).
  pose proof (in_use_root_nonneg _ _ (at_path_in_use _ _ _ W H)). by destruct (Z.ltb_spec i 0); [lia|].
Qed.

Lemma tree_Some s cs e : tree_ok s → tree_of s cs = Some e →
  ∃ i, at_path s cs i ∧ e = entry_of (node_at s i).
Proof.
  intros W. unfold tree_of. destruct (Z.ltb_spec (resolve s TMPFS_ROOT cs) 0); [done|]. intros [= <-].
  eexists. split; [|done]. by apply (resolve_sound s []); [|constructor|].
Qed.

Lemma tree_None s cs : tree_ok s → tree_of s cs = None ↔ ∀ i, ¬ at_path s cs i.
Proof.
  intros W. split.
  - intros H i Hi. by rewrite (tree_at s cs i W Hi) in H.
  - intros H. destruct (tree_of s cs) as [e|] eqn:E; [|done]. apply tree_Some in E as (i&Hi&_); [|done].
    by destruct (H i).
Qed.

Lemma tree_dir s cs i : tree_ok s → at_path s cs i →
  tree_of s cs = Some EDir ↔ n_directory (node_at s i) = true.
Proof. intros W H. rewrite (tree_at s cs i W H). unfold entry_of. by destruct (n_directory _). Qed.

Lemma climb_at s cs i fuel : at_path s cs i → (length cs < fuel)%nat → climb fuel s i = cs.
Proof.
  intros H. revert fuel. induction H as [|cs i H IH U N]; intros [|fuel] L; cbn [length climb] in *; try lia.
  - done.
  - rewrite (proj2 (Z.eqb_neq _ _) N). rewrite length_app in L. cbn [length] in L. rewrite IH by lia. done.
Qed.

Lemma fds_None s d : fds_of s d = None ↔ get_handle s d = None.
Proof. unfold fds_of. by destruct (get_handle s d). Qed.

Lemma get_handle_Some s d h : get_handle s d = Some h →
  0 ≤ d < Z.of_nat TMPFS_MAX_OPEN ∧ h = handle_at s d ∧ opened s d (h_node h).
Proof.
  unfold get_handle. destruct (_ || _) eqn:E; [done|]. intros [= <-]. zify_bool.
  split; [lia|]. split; [done|]. split; [lia|]. split; [|done].
  by match goal with H : h_used _ = true |- _ => exact H end.
Qed.

Lemma opened_get s d i : opened s d i → get_handle s d = Some (handle_at s d) ∧ h_node (handle_at s d) = i.
Proof.
  intros ([H1 H2]&U&E). unfold get_handle. rewrite U. destruct (Z.ltb_spec d 0), (Z.leb_spec (Z.of_nat TMPFS_MAX_OPEN) d);
    (lia || done).
Qed.

Lemma fds_opened s cs i d : tree_ok s → opened s d i → at_path s cs i →
  fds_of s d = Some (cs, h_position (handle_at s d)).
Proof.
  intros W O H. destruct (opened_get _ _ _ O) as [E1 E2]. unfold fds_of. rewrite E1, E2.
  by rewrite (climb_at s cs) by (done || by eapply at_path_depth).
Qed.

Lemma fds_Some s d cs pos : tree_ok s → fds_of s d = Some (cs, pos) →
  ∃ i, opened s d i ∧ at_path s cs i ∧ pos = h_position (handle_at s d).
Proof.
  intros W E. unfold fds_of in E. destruct (get_handle s d) as [h|] eqn:G; [|done].
  apply get_handle_Some in G as (Hd&->&O). destruct (to_open s W d _ O) as (U&_&_).
  destruct (to_path s W _ U) as [ds Hp]. rewrite (climb_at s ds) in E by (done || by eapply at_path_depth).
  injection E as <- <-. eauto.
Qed.

(** A child of a directory, or none of that name. *)
Lemma child_cases s cs d n : tree_ok s → at_path s cs d →
  (find_child s d n = -1 ∧ tree_of s (cs ++ [n]) = None) ∨
  (0 ≤ find_child s d n ∧ at_path s (cs ++ [n]) (find_child s d n)).
Proof.
  intros W H. destruct (find_child_spec s d n W) as [[-> F]|(U&N&Ep&En)]; [left|right].
  - split; [done|]. apply tree_None; [done|]. intros i Hi.
    apply at_path_snoc in Hi as (Hp&U&N&En). by apply (F i U N (at_path_inj _ _ _ _ W Hp H)).
  - split; [by eapply in_use_root_nonneg|]. rewrite <- En at 1. constructor; [by rewrite Ep|done|done].
Qed.

(** ** Following names *)

Lemma locate_resolve s cs ns : tree_ok s → ∀ current, at_path s cs current →
  locate_from (tree_of s) cs ns = Z.min 0 (resolve s current ns).
Proof.
  intros W. revert cs. induction ns as [|n ns IH]; intros cs current H; cbn [locate_from resolve].
  { pose proof (in_use_root_nonneg _ _ (at_path_in_use _ _ _ W H)). lia. }
  rewrite (tree_at s cs current W H). unfold entry_of.
  destruct (n_directory (node_at s current)) eqn:D; cbn [negb]; [|done].
  destruct (child_cases s cs current n W H) as [[-> E]|[Hc Hn]].
  - cbn [Z.ltb Z.compare]. by rewrite decide_True.
  - destruct (Z.ltb_spec (find_child s current n) 0); [lia|].
    rewrite decide_False by (rewrite (tree_at _ _ _ W Hn); done). by apply IH.
Qed.

(** A path that is found, or the error. *)
Lemma lookup_cases s p : tree_ok s → path_ok p →
  (lookup s p < 0 ∧ locate (afs_of s) (names p) = lookup s p ∧ tree_of s (names p) = None) ∨
  (0 ≤ lookup s p ∧ locate (afs_of s) (names p) = 0 ∧ at_path s (names p) (lookup s p)).
Proof.
  intros W (cs&Hc&->&_). rewrite names_render, lookup_render by (by apply plain_names).
  unfold locate. cbn [a_tree afs_of]. rewrite (locate_resolve s [] cs W TMPFS_ROOT (at_root s)).
  unfold tree_of. destruct (Z.ltb_spec (resolve s TMPFS_ROOT cs) 0); [left|right].
  - split; [done|]. split; [lia|done].
  - split; [done|]. split; [lia|]. by apply (resolve_sound s []); [|constructor|].
Qed.

(** ** The parent of a path *)

Lemma back_to_leaf_spec pre n k : Forall (λ c, c ≠ SLASH) n → (k ≤ length n)%nat →
  back_to_leaf (pre ++ SLASH :: n) (length pre + 1 + k) = (length pre + 1)%nat.
Proof.
  intros Hn. induction k as [|k IH]; intros Hk.
  - rewrite Nat.add_0_r, Nat.add_1_r. cbn [back_to_leaf]. by rewrite aget_app_r, Z.sub_diag by lia.
  - rewrite Nat.add_succ_r. cbn [back_to_leaf]. rewrite aget_app_r by lia. unfold aget.
    replace (Z.to_nat (Z.of_nat (length pre + 1 + k) - Z.of_nat (length pre))) with (S k) by lia. cbn [nth].
    assert (nth k n 0 ≠ SLASH) as Hs.
    { refine (proj1 (Forall_forall _ n) Hn _ _). apply list_elem_of_In, nth_In. lia. }
    destruct (Z.eqb_spec (nth k n 0) SLASH); [done|]. cbn [negb]. apply IH. lia.
Qed.

Lemma split_parent_spec s cs n : Forall name_ok cs → name_ok n →
  length_of (render (cs ++ [n])) < VFS_PATH_MAX →
  split_parent s (render (cs ++ [n])) =
    if TMPFS_NAME_MAX <? Z.of_nat (length n) then inl FS_ERROR_INVALID
    else if lookup s (render cs) <? 0 then inl (lookup s (render cs))
    else if negb (n_directory (node_at s (lookup s (render cs)))) then inl FS_ERROR_NOT_DIR
    else inr (lookup s (render cs), n).
Proof.
  intros Hc Hn L. unfold split_parent. rewrite render_head, back_over_render by done. cbn [Z.eqb Pos.eqb negb].
  assert (length (render (cs ++ [n])) = length (joined cs) + 1 + length n)%nat as Er.
  { rewrite render_snoc, length_app. cbn [length]. lia. }
  unfold length_of, VFS_PATH_MAX in L. rewrite Er in *. rewrite render_snoc.
  rewrite back_to_leaf_spec by (done || by apply name_ok_slash). cbv zeta.
  replace (length (joined cs) + 1 + length n - (length (joined cs) + 1))%nat with (length n) by lia.
  assert (length n ≠ 0%nat) as Ln by (destruct n; [by destruct Hn|done]).
  rewrite (proj2 (Nat.eqb_neq _ _) Ln). destruct (_ <? _); [done|].
  assert (take (if (1 <? length (joined cs) + 1)%nat then length (joined cs) + 1 - 1 else 1)
    (joined cs ++ SLASH :: n) = render cs) as ->.
  { destruct (decide (cs = [])) as [->|Ne]; [done|]. rewrite render_joined by done.
    pose proof (render_length cs) as Lr. rewrite render_joined in Lr by done. unfold length_of in Lr.
    destruct (Nat.ltb_spec 1 (length (joined cs) + 1)); [|lia]. by rewrite Nat.add_sub, take_app_length. }
  destruct (Z.leb_spec 512 (Z.of_nat (if (1 <? length (joined cs) + 1)%nat then length (joined cs) + 1 - 1 else 1))) as [G|_].
  { destruct (1 <? _)%nat; lia. }
  destruct (lookup s (render cs) <? 0); [done|]. destruct (negb _); [done|]. do 2 f_equal.
  rewrite cons_middle, app_assoc, drop_app_length'; [by rewrite firstn_all|].
  rewrite length_app. done.
Qed.

Lemma split_parent_root s : split_parent s [SLASH] = inl FS_ERROR_INVALID.
Proof. done. Qed.

(** A path is the root, or a name in a directory whose path is one too. *)
Lemma path_ok_inv p : path_ok p → p = [SLASH] ∧ names p = [] ∨
  ∃ cs n, names p = cs ++ [n] ∧ Forall plain_name cs ∧ plain_name n ∧ p = render (cs ++ [n]) ∧
    path_ok (render cs) ∧ length_of p < VFS_PATH_MAX.
Proof.
  intros (cs&Hc&->&L). destruct cs as [|n cs _] using rev_ind; [by left|right].
  pose proof Hc as Hc'. apply Forall_app in Hc as [Hc Hn]. apply Forall_cons in Hn as [Hn _].
  exists cs, n. rewrite names_render by (by apply plain_names). do 4 (split; [done|]). split; [|done].
  exists cs. split; [done|]. split; [done|]. destruct (decide (cs = [])) as [->|Ne]; [done|].
  rewrite render_snoc, render_joined in * by done. unfold length_of in *. rewrite length_app in L. lia.
Qed.

Lemma create_check_snoc A cs n : create_check A (cs ++ [n]) =
  if TMPFS_NAME_MAX <? Z.of_nat (length n) then FS_ERROR_INVALID
  else if locate A cs <? 0 then locate A cs
  else match a_tree A cs with
       | Some EDir => if decide (a_tree A (cs ++ [n]) = None) then 0 else FS_ERROR_EXISTS
       | _ => FS_ERROR_NOT_DIR
       end.
Proof. unfold create_check. by rewrite last_snoc, removelast_last. Qed.

(** ** Making an entry *)

Definition fresh_node (now parent : Z) (n : list Z) (directory : bool) : node :=
  Node true directory parent n [] 0 0 0 now now now.

(** The outcomes of [create_entry]. *)
Inductive created (now : Z) (directory : bool) (p : list Z) (s : tmpfs) : Z * tmpfs → Prop :=
| created_refused : create_check (afs_of s) (names p) < 0 →
    created now directory p s (create_check (afs_of s) (names p), s)
| created_full : create_check (afs_of s) (names p) = 0 → created now directory p s (FS_ERROR_NO_SPACE, s)
| created_ok i parent cs n : create_check (afs_of s) (names p) = 0 → names p = cs ++ [n] →
    1 ≤ i < Z.of_nat TMPFS_MAX_NODES → n_used (node_at s i) = false → at_path s cs parent →
    n_directory (node_at s parent) = true → node_name_ok n → tree_of s (names p) = None →
    created now directory p s (0, put_node i (fresh_node now parent n directory) s).

Lemma in_use_small s i : in_use s i → 0 ≤ i < 256.
Proof. by intros [? _]. Qed.

Lemma i16_small z : 0 ≤ z < 256 → i16 z = z.
Proof. intros H. unfold i16. rewrite Z.mod_small; lia. Qed.

Lemma create_entry_spec now directory p s : tree_ok s → path_ok p →
  created now directory p s (create_entry now p directory s).
Proof.
  intros W Hp. unfold create_entry. destruct (path_ok_inv p Hp) as [[-> En]|(cs&n&En&Hc&Hn&->&Hd&L)].
  { rewrite split_parent_root. assert (create_check (afs_of s) (names [SLASH]) = FS_ERROR_INVALID) as <- by done.
    by apply created_refused. }
  pose proof (created_refused now directory (render (cs ++ [n])) s) as Ref.
  pose proof (created_full now directory (render (cs ++ [n])) s) as Full.
  pose proof (created_ok now directory (render (cs ++ [n])) s) as Ok.
  rewrite En, create_check_snoc in *. rewrite split_parent_spec by (done || by apply plain_names || apply Hn).
  destruct (Z.ltb_spec TMPFS_NAME_MAX (Z.of_nat (length n))) as [|Ln]; [by apply Ref|].
  destruct (lookup_cases s (render cs) W Hd) as [(Neg&El&_)|(Pos&El&At)];
    rewrite names_render in * by (by apply plain_names); rewrite El in *.
  { destruct (Z.ltb_spec (lookup s (render cs)) 0); [by apply Ref|lia]. }
  destruct (Z.ltb_spec (lookup s (render cs)) 0); [lia|]. cbn [Z.ltb Z.compare] in *.
  change (a_tree (afs_of s)) with (tree_of s) in *. rewrite (tree_at s cs _ W At) in *. unfold entry_of in *.
  destruct (n_directory _) eqn:D; cbn [negb]; [|by apply Ref].
  set (parent := lookup s (render cs)) in *.
  destruct (child_cases s cs parent n W At) as [[-> T]|[Hcn Hcc]].
  - rewrite decide_True in * by done. cbn [Z.leb Z.compare].
    unfold allocate_node. destruct (for_first _ _ _) as [i|] eqn:Fi; [|by apply Full].
    apply for_first_Some in Fi as (Hi&Ui%negb_true_iff&_). cbn [Z.ltb].
    pose proof (in_use_small _ _ (at_path_in_use _ _ _ W At)). rewrite i16_small by done.
    destruct (Z.ltb_spec i 0); [lia|]. apply (Ok i parent cs n); try done.
    split; [apply Hn|done].
  - rewrite (tree_at _ _ _ W Hcc), decide_False in * by done.
    destruct (Z.leb_spec 0 (find_child s parent n)); [by apply Ref|lia].
Qed.

(** ** Comparing maps *)

Lemma tree_of_ext t f : tree_ok t →
  (∀ q, match f q with
        | Some e => ∃ i, at_path t q i ∧ entry_of (node_at t i) = e
        | None => ∀ i, ¬ at_path t q i
        end) → ∀ q, tree_of t q = f q.
Proof.
  intros W H q. specialize (H q). destruct (f q) as [e|].
  - destruct H as (i&Hi&<-). by apply tree_at.
  - by apply tree_None.
Qed.

Lemma fds_kept s t f d : tree_ok s → tree_ok t → handles t = handles s →
  (∀ k i cs, opened s k i → at_path s cs i → at_path t (f cs) i) →
  fds_of t d = (λ '(q, pos), (f q, pos)) <$> fds_of s d.
Proof.
  intros Ws Wt Eh H. assert (get_handle t d = get_handle s d) as G
    by (unfold get_handle, handle_at; by rewrite Eh).
  assert (handle_at t d = handle_at s d) as Ed by (unfold handle_at; by rewrite Eh).
  destruct (fds_of s d) as [[cs pos]|] eqn:E.
  - apply fds_Some in E as (i&O&Hp&->); [|done]. cbn. rewrite <- Ed. apply (fds_opened t _ i); [done| |by eauto].
    unfold opened. rewrite Ed. exact O.
  - apply fds_None. rewrite G. by apply fds_None.
Qed.

Lemma fds_same s t d : tree_ok s → tree_ok t → handles t = handles s →
  (∀ k i cs, opened s k i → at_path s cs i → at_path t cs i) → fds_of t d = fds_of s d.
Proof.
  intros Ws Wt Eh H. rewrite (fds_kept s t id d) by done. by destruct (fds_of s d) as [[]|].
Qed.

Lemma same_refl A : same A A.
Proof. done. Qed.

(** Node [i] at [cs] has new data. *)
Lemma updated_data s t i cs : tmpfs_ok s → tmpfs_ok t → data_step s t i → at_path s cs i →
  updated (afs_of s) cs (Some (entry_of (node_at t i))) (afs_of t).
Proof.
  intros [Ws _] [Wt _] St Hp. pose proof (ds_shape _ _ _ St) as Sh. split; cbn [a_tree a_fds afs_of].
  - apply tree_of_ext; [done|]. intros q. destruct (decide (q = cs)) as [->|Ne].
    + exists i. split; [by rewrite <- Sh|done].
    + destruct (tree_of s q) as [e|] eqn:E.
      * apply tree_Some in E as (j&Hj&->); [|done]. exists j. split; [by rewrite <- Sh|].
        rewrite (ds_other _ _ _ St); [done|apply (in_use_root_nonneg s), (at_path_in_use _ _ _ Ws Hj)|].
        intros ->. by destruct Ne, (at_path_fun _ _ _ _ Hj Hp).
      * intros j. rewrite <- Sh. by apply tree_None.
  - intros d. apply fds_same; [done|done|apply St|]. intros k j q _ Hj. by rewrite <- Sh.
Qed.

Lemma same_data s t i cs : tmpfs_ok s → tmpfs_ok t → data_step s t i → at_path s cs i →
  entry_of (node_at t i) = entry_of (node_at s i) → same (afs_of s) (afs_of t).
Proof.
  intros Ws Wt St Hp E. destruct (updated_data s t i cs Ws Wt St Hp) as [Ht Hf]. split; [|done].
  intros q. rewrite Ht, E. destruct (decide _) as [->|]; [|done]. symmetry. apply tree_at; [apply Ws|done].
Qed.

(** The instance after a step, and the frames that are not its own. *)
Definition kept (s t : tmpfs) : Prop := tmpfs_ok t ∧ ∀ g, foreign t g ↔ foreign s g.

Lemma tmpfs_kept_refl s : tmpfs_ok s → kept s s.
Proof. by split. Qed.
Lemma kept_trans s t u : kept s t → kept t u → kept s u.
Proof. intros [_ F] [O G]. split; [done|]. intros g. by rewrite G. Qed.

Lemma created_effect now directory s i parent cs n : tmpfs_ok s →
  1 ≤ i < Z.of_nat TMPFS_MAX_NODES → n_used (node_at s i) = false → at_path s cs parent →
  n_directory (node_at s parent) = true → node_name_ok n → tree_of s (cs ++ [n]) = None →
  let t := put_node i (fresh_node now parent n directory) s in
  kept s t ∧ at_path t (cs ++ [n]) i ∧
  updated (afs_of s) (cs ++ [n]) (Some (if directory then EDir else EFile [])) (afs_of t).
Proof.
  intros [W D] Hi Ui Hp Dp Hn Tn t. pose proof (to_free s W i ltac:(lia) Ui) as Ez.
  destruct (tree_ok_create s i cs parent (fresh_node now parent n directory) W Hi Ui Hp Dp Hn) as (Wt&Pi&Po);
    [|done|done|].
  { intros j Uj Nj Ep En. cbn in En. apply (proj1 (tree_None s _ W) Tn j). rewrite <- En. constructor; [by rewrite Ep|done|done]. }
  cbn [n_name fresh_node] in Pi. fold t in Wt, Pi, Po.
  destruct (put_data s i (fresh_node now parent n directory) W D) as [Dt Ft];
    [lia|by rewrite Ez|by rewrite Ez|by rewrite Ez|cbn; lia|done|]. fold t in Dt, Ft.
  split; [by split|]. split; [done|]. split; cbn [a_tree a_fds afs_of].
  - apply tree_of_ext; [done|]. intros q. destruct (decide (q = cs ++ [n])) as [->|Ne].
    + exists i. split; [done|]. unfold t. rewrite node_put_eq by done. by destruct directory.
    + assert (∀ j, at_path t q j → j ≠ i) as Nj. { intros j Hj ->. by destruct Ne, (at_path_fun _ _ _ _ Hj Pi). }
      destruct (tree_of s q) as [e|] eqn:E.
      * apply tree_Some in E as (j&Hj&->); [|done]. pose proof (at_path_in_use _ _ _ W Hj) as [Rj Uj].
        assert (j ≠ i) by congruence. exists j. split; [by apply Po|]. unfold t. by rewrite node_put_ne by (done || lia).
      * intros j Hj. apply (proj1 (tree_None s _ W) E j). apply Po; auto.
  - intros d. apply fds_same; try done. intros k j q O Hj. apply Po; [|done]. intros ->.
    destruct (to_open s W k i O) as ([_ ?]&_). congruence.
Qed.

(** ** Every operation is a step of the specification *)

Definition step_ok (o : tmpfs_op) (s : tmpfs) : Prop :=
  kept s (exec o s).2 ∧ afs_step o (exec o s).1 (afs_of s) (afs_of (exec o s).2).

Lemma create_step s now directory p : tmpfs_ok s → path_ok p → step_ok (TCreate now directory p) s.
Proof.
  intros W Hp. unfold step_ok.
  assert (exec (TCreate now directory p) s =
    (ACode (create_entry now p directory s).1, (create_entry now p directory s).2)) as -> by (by destruct directory).
  cbn [fst snd afs_step]. destruct (create_entry_spec now directory p s (ok_tree s W) Hp)
    as [E|E|i parent cs n E En Hi Ui At D Hn T]; cbn [fst snd].
  - split; [by apply tmpfs_kept_refl|]. by rewrite (proj2 (Z.ltb_lt _ 0) E).
  - split; [by apply tmpfs_kept_refl|]. rewrite E. by left.
  - rewrite En in *. destruct (created_effect now directory s i parent cs n) as (K&_&U); try done.
    split; [done|]. rewrite E. right. done.
Qed.

(** *** Unlinking *)

Lemma has_children_spec s i cs : tree_ok s → at_path s cs i →
  has_children s i = true ↔ has_child (afs_of s) cs.
Proof.
  intros W H. pose proof (in_use_root_nonneg _ _ (at_path_in_use _ _ _ W H)) as Hi. unfold has_children. split.
  - destruct (for_first _ _ _) as [k|] eqn:E; [|done]. intros _.
    apply for_first_Some in E as (Hk&[U Ep%Z.eqb_eq]%andb_prop&_).
    assert (in_use s k) as Uk by (split; [unfold TMPFS_MAX_NODES in *; lia|done]).
    exists (n_name (node_at s k)). cbn [a_tree afs_of].
    rewrite (tree_at s (cs ++ [n_name (node_at s k)]) k W); [done|].
    constructor; [by rewrite Ep|done|unfold TMPFS_ROOT; lia].
  - intros [n Hn]. cbn [a_tree afs_of] in Hn. destruct (tree_of s (cs ++ [n])) as [e|] eqn:T; [|done].
    apply tree_Some in T as (k&Hk&_); [|done]. apply at_path_snoc in Hk as (Hp&Uk&Nk&_).
    destruct (for_first _ _ _) as [j|] eqn:E; [done|]. rewrite for_first_None in E.
    specialize (E k). destruct Uk as [Rk Uk]. rewrite Uk, (at_path_inj _ _ _ _ W Hp H), Z.eqb_refl in E.
    by specialize (E ltac:(unfold TMPFS_MAX_NODES, TMPFS_ROOT in *; lia)).
Qed.

Lemma is_open_spec s i : is_open s i = true ↔ ∃ k, opened s k i.
Proof.
  unfold is_open, opened. split.
  - destruct (for_first _ _ _) as [k|] eqn:E; [|done]. intros _.
    apply for_first_Some in E as (Hk&[U En%Z.eqb_eq]%andb_prop&_). exists k. split; [lia|done].
  - intros (k&Hk&U&En). destruct (for_first _ _ _) as [j|] eqn:E; [done|]. rewrite for_first_None in E.
    specialize (E k ltac:(lia)). by rewrite U, En, Z.eqb_refl in E.
Qed.

Lemma file_open_spec s i cs : tree_ok s → at_path s cs i →
  is_open s i = true ↔ file_open (afs_of s) cs.
Proof.
  intros W H. rewrite is_open_spec. unfold file_open. cbn [a_fds afs_of]. split.
  - intros [k O]. exists k. eexists. by apply (fds_opened s cs i).
  - intros (d&pos&E). apply fds_Some in E as (j&O&Hj&_); [|done]. exists d. by rewrite (at_path_inj _ _ _ _ W H Hj).
Qed.

Lemma unlink_effect s i cs : tmpfs_ok s → at_path s cs i → i ≠ TMPFS_ROOT →
  ¬ has_child (afs_of s) cs → ¬ file_open (afs_of s) cs →
  let t := put_node i node_zero (release_data i s) in
  kept s t ∧ updated (afs_of s) cs None (afs_of t).
Proof.
  intros [W D] Hp Ni Nc No t. pose proof (at_path_in_use _ _ _ W Hp) as [Hi Ui].
  destruct (remove_data s i W D Hi) as (Dt&Ft&Eh&En). fold t in Dt, Ft, Eh, En.
  destruct (tree_ok_remove s i cs W Hp Ni) as (Wu&Po).
  { intros k Uk Nk Ek. apply Nc. exists (n_name (node_at s k)). cbn [a_tree afs_of].
    rewrite (tree_at s (cs ++ [n_name (node_at s k)]) k W); [done|]. constructor; [by rewrite Ek|done|done]. }
  { intros k O. apply No, (file_open_spec s i cs W Hp), is_open_spec. eauto. }
  assert (same_shape (put_node i node_zero s) t) as Sh.
  { split; [by rewrite En|]. intros j _. unfold node_at. by rewrite En. }
  assert (∀ j, node_at t j = node_at (put_node i node_zero s) j) as Ej by (intros; unfold node_at; by rewrite En).
  assert (tree_ok t) as Wt.
  { apply (tree_ok_shape (put_node i node_zero s)); [done|done|rewrite Eh; apply W| |].
    - intros j. rewrite Ej. apply Wu.
    - intros k j. unfold opened, handle_at. rewrite Eh, !Ej. apply Wu. }
  assert (∀ q j, at_path t q j ↔ j ≠ i ∧ at_path s q j) as Pt by (intros q j; by rewrite <- Sh, Po).
  split; [by split|]. split; cbn [a_tree a_fds afs_of].
  - apply tree_of_ext; [done|]. intros q. destruct (decide (q = cs)) as [->|Ne].
    + intros j [Nj Hj]%Pt. by apply Nj, (at_path_inj s cs).
    + destruct (tree_of s q) as [e|] eqn:E.
      * apply tree_Some in E as (j&Hj&->); [|done].
        assert (j ≠ i) as Nj. { intros ->. by destruct Ne, (at_path_fun _ _ _ _ Hj Hp). }
        exists j. split; [by apply Pt|]. rewrite Ej, node_put, decide_False; try done.
        -- apply W.
        -- apply (at_path_in_use _ _ _ W Hj).
      * intros j [_ Hj]%Pt. by apply (proj1 (tree_None s _ W) E j).
  - intros d. apply fds_same; try done. intros k j q O Hj. apply Pt. split; [|done].
    intros ->. apply No, (file_open_spec s i cs W Hp), is_open_spec. eauto.
Qed.

Lemma root_path s cs i : tree_ok s → at_path s cs i → i = TMPFS_ROOT ↔ cs = [].
Proof.
  intros W H. split; intros ->; [apply (at_path_fun s cs [] TMPFS_ROOT H (at_root s))|].
  apply (at_path_inj s [] i TMPFS_ROOT W H (at_root s)).
Qed.

Lemma unlink_step s p : tmpfs_ok s → path_ok p → step_ok (TUnlink p) s.
Proof.
  intros W Hp. destruct (W) as [T D]. unfold step_ok. cbn [exec afs_step]. unfold tmpfs_unlink.
  destruct (lookup_cases s p T Hp) as [(Neg&->&_)|(Pos&->&At)].
  { rewrite (proj2 (Z.ltb_lt _ 0) Neg). by split; [apply tmpfs_kept_refl|]. }
  rewrite (proj2 (Z.ltb_ge _ 0) Pos). cbn [Z.ltb Z.compare]. set (i := lookup s p) in *.
  destruct (Z.eqb_spec i TMPFS_ROOT) as [E|Ni].
  { rewrite decide_True by (by apply (root_path s _ i)). by split; [apply tmpfs_kept_refl|]. }
  rewrite decide_False by (by rewrite <- (root_path s _ i)).
  pose proof (has_children_spec s i _ T At) as Ch. pose proof (file_open_spec s i _ T At) as Op.
  assert (n_directory (node_at s i) = false → ¬ has_child (afs_of s) (names p)) as Nd.
  { intros Nd [n Hn]. cbn [a_tree afs_of] in Hn. destruct (tree_of s (names p ++ [n])) as [e|] eqn:E; [|done].
    apply tree_Some in E as (k&Hk&_); [|done]. destruct (at_path_above s (names p) [n] k T Hk) as (j&Hj&Dj).
    rewrite (at_path_inj _ _ _ _ T At Hj), Dj in Nd; done. }
  destruct (n_directory (node_at s i) && has_children s i) eqn:E1.
  { apply andb_prop in E1 as [_ C]. split; [by apply tmpfs_kept_refl|]. left. split; [by apply Ch|done]. }
  assert (¬ has_child (afs_of s) (names p)) as Nc.
  { apply andb_false_iff in E1 as [E1|E1]; [by apply Nd|]. rewrite <- Ch. congruence. }
  destruct (is_open s i) eqn:E2.
  { split; [by apply tmpfs_kept_refl|]. right. left. split; [done|]. split; [by apply Op|done]. }
  destruct (unlink_effect s i (names p) W At Ni Nc) as [K U]; [rewrite <- Op; congruence|].
  split; [done|]. right. right. split; [done|]. split; [rewrite <- Op; congruence|]. done.
Qed.

(** *** Renaming and moving *)

Definition placed (n : node) (parent : Z) (name : list Z) : node :=
  n <| n_parent := parent |> <| n_name := name |>.

Lemma relocated_effect s i ps ds d nm : tmpfs_ok s → at_path s ps i → i ≠ TMPFS_ROOT →
  at_path s ds d → n_directory (node_at s d) = true → ¬ ps `prefix_of` ds → node_name_ok nm →
  (tree_of s (ds ++ [nm]) = None ∨ ds ++ [nm] = ps) →
  let t := put_node i (placed (node_at s i) d nm) s in
  kept s t ∧ relocated (afs_of s) ps (ds ++ [nm]) (afs_of t).
Proof.
  intros [W D] Hp Ni Hd Dd Np Hn Free t. pose proof (at_path_in_use _ _ _ W Hp) as [Hi Ui].
  destruct (tree_ok_relocate s i ps ds d (placed (node_at s i) d nm) W Hp Ni Hd Dd Np Hn) as (Wt&Po&Ut); try done.
  { intros k Uk Nk Ne Ek Enk. assert (at_path s (ds ++ [nm]) k) as Hk.
    { change (n_name (node_at s k) = nm) in Enk. rewrite <- Enk. constructor; [by rewrite Ek|done|done]. }
    destruct Free as [F|F]; [by apply (proj1 (tree_None s _ W) F k)|]. rewrite F in Hk.
    by apply Ne, (at_path_inj s ps). }
  change (n_name (placed (node_at s i) d nm)) with nm in Po. fold t in Wt, Po, Ut.
  pose proof (do_file s D i Hi) as F.
  destruct (put_data s i (placed (node_at s i) d nm) W D Hi) as [Dt Ft]; try done; [apply F|by apply D|]. fold t in Dt, Ft.
  assert (∀ j, 0 ≤ j → entry_of (node_at t j) = entry_of (node_at s j)) as Ej.
  { intros j Hj. unfold t. rewrite node_put by (done || apply W). by destruct (decide _) as [->|]. }
  assert (∀ q j, at_path s q j → tree_of t (relocate ps (ds ++ [nm]) q) = tree_of s q) as Tr.
  { intros q j Hj. rewrite (tree_at s q j W Hj), (tree_at t _ j Wt (Po q j Hj)).
    by rewrite Ej by (apply (at_path_in_use _ _ _ W Hj)). }
  split; [by split|]. split; [|split]; cbn [a_tree a_fds afs_of].
  - intros q Hq. destruct (tree_of s q) as [e|] eqn:E; [|done]. rewrite <- E.
    apply tree_Some in E as (j&Hj&_); [|done]. by apply (Tr q j).
  - intros q Hq. destruct (tree_of t q) as [e|] eqn:E; [|done]. apply tree_Some in E as (j&Hj&_); [|done].
    destruct (to_path s W j) as [q' Hq']; [by eapply Ut, at_path_in_use|].
    exists q'. rewrite (tree_at s q' j W Hq'). split; [done|]. by apply (at_path_fun t _ _ j Hj), Po.
  - intros k. apply fds_kept; try done. intros ? j q _ Hj. by apply Po.
Qed.

Lemma removelast_names (cs : list (list Z)) : cs ≠ [] → cs = removelast cs ++ [default [] (last cs)].
Proof. destruct cs as [|c cs _] using rev_ind; [done|]. by rewrite removelast_last, last_snoc. Qed.

(** The node at a path that is not the root. *)
Lemma at_path_parent s cs i : at_path s cs i → cs ≠ [] →
  at_path s (removelast cs) (n_parent (node_at s i)) ∧ n_name (node_at s i) = default [] (last cs) ∧
  in_use s i ∧ i ≠ TMPFS_ROOT.
Proof.
  intros H Ne. rewrite (removelast_names cs Ne) in H. apply at_path_snoc in H as (?&?&?&?). done.
Qed.

Lemma valid_name_ok n : cstr n → valid_name n = true → node_name_ok n.
Proof.
  intros Hc. unfold valid_name. destruct (_ || _) eqn:E; [done|]. zify_bool. intros F.
  split; [|lia]. split; [by intros ->|].
  rewrite List.forallb_forall in F. apply Forall_forall. intros c Hin.
  split; [by apply (proj1 (Forall_forall _ n) Hc)|]. specialize (F c).
  rewrite <- list_elem_of_In in F. apply F in Hin. by destruct (Z.eqb_spec c SLASH).
Qed.

(** The test of an entry that is already there. *)
Lemma exists_test s ps i ds d nm : tree_ok s → at_path s ps i → at_path s ds d →
  ((0 <=? find_child s d nm) && negb (find_child s d nm =? i) = true ∧ tree_of s (ds ++ [nm]) ≠ None ∧ ds ++ [nm] ≠ ps) ∨
  ((0 <=? find_child s d nm) && negb (find_child s d nm =? i) = false ∧
   (tree_of s (ds ++ [nm]) = None ∨ ds ++ [nm] = ps)).
Proof.
  intros W Hp Hd. destruct (child_cases s ds d nm W Hd) as [[-> T]|[Hc Hcc]]; [right; auto|].
  rewrite (proj2 (Z.leb_le _ _) Hc). cbn [andb]. destruct (Z.eqb_spec (find_child s d nm) i) as [E|Ne]; [right|left].
  - split; [done|]. right. rewrite E in Hcc. by apply (at_path_fun s _ _ i).
  - split; [done|]. rewrite (tree_at _ _ _ W Hcc). split; [done|]. intros E. rewrite E in Hcc.
    by apply Ne, (at_path_inj s ps).
Qed.

Lemma rename_step s p nm : tmpfs_ok s → path_ok p → cstr nm → step_ok (TRename p nm) s.
Proof.
  intros W Hp Hnm. destruct (W) as [T D]. unfold step_ok. cbn [exec afs_step]. unfold tmpfs_rename.
  destruct (lookup_cases s p T Hp) as [(Neg&->&_)|(Pos&->&At)].
  { rewrite (proj2 (Z.ltb_lt _ 0) Neg). by split; [apply tmpfs_kept_refl|]. }
  rewrite (proj2 (Z.ltb_ge _ 0) Pos). cbn [Z.ltb Z.compare]. set (i := lookup s p) in *. set (cs := names p) in *.
  destruct (Z.eqb_spec i TMPFS_ROOT) as [E|Ni].
  { rewrite decide_True by (by apply (root_path s _ i)). by split; [apply tmpfs_kept_refl|]. }
  assert (cs ≠ []) as Ne by (by rewrite <- (root_path s cs i)). rewrite decide_False by done.
  destruct (valid_name nm) eqn:V; cbn [negb]; [|by split; [apply tmpfs_kept_refl|]].
  destruct (at_path_parent s cs i At Ne) as (Hpar&_&Ui&_).
  destruct (exists_test s cs i _ _ nm T At Hpar) as [(->&X)|[-> X]].
  { rewrite decide_True by done. by split; [apply tmpfs_kept_refl|]. }
  rewrite decide_False by (intros [??]; by destruct X).
  replace ((node_at s i) <| n_name := nm |>) with (placed (node_at s i) (n_parent (node_at s i)) nm)
    by (by destruct (node_at s i)).
  destruct (relocated_effect s i cs (removelast cs) (n_parent (node_at s i)) nm) as [K R]; try done.
  - by apply (to_parent s T i).
  - intros Pre. apply prefix_length in Pre. rewrite (removelast_names cs Ne) in Pre at 1.
    rewrite length_app in Pre. cbn [length] in Pre. lia.
  - by apply valid_name_ok.
Qed.

Lemma move_step s p q : tmpfs_ok s → path_ok p → path_ok q → step_ok (TMove p q) s.
Proof.
  intros W Hp Hq. destruct (W) as [T D]. unfold step_ok. cbn [exec afs_step]. unfold tmpfs_move.
  destruct (lookup_cases s p T Hp) as [(Neg&->&_)|(Pos&->&At)].
  { rewrite (proj2 (Z.ltb_lt _ 0) Neg). by split; [apply tmpfs_kept_refl|]. }
  rewrite (proj2 (Z.ltb_ge _ 0) Pos). cbn [Z.ltb Z.compare]. set (i := lookup s p) in *. set (cs := names p) in *.
  destruct (lookup_cases s q T Hq) as [(Neg&->&_)|(Posq&->&Atq)].
  { rewrite (proj2 (Z.ltb_lt _ 0) Neg). by split; [apply tmpfs_kept_refl|]. }
  rewrite (proj2 (Z.ltb_ge _ 0) Posq). cbn [Z.ltb Z.compare]. set (d := lookup s q) in *. set (ds := names q) in *.
  destruct (Z.eqb_spec i TMPFS_ROOT) as [E|Ni].
  { rewrite decide_True by (by apply (root_path s _ i)). by split; [apply tmpfs_kept_refl|]. }
  assert (cs ≠ []) as Ne by (by rewrite <- (root_path s cs i)). rewrite decide_False by done.
  pose proof (tree_dir s ds d T Atq) as Td.
  destruct (n_directory (node_at s d)) eqn:Dd; cbn [negb].
  2:{ rewrite decide_True by (intros E; by apply Td in E). by split; [apply tmpfs_kept_refl|]. }
  rewrite decide_False by (intros E; by destruct E; apply Td).
  rewrite (is_ancestor_spec s cs ds i d T At Atq).
  assert (n_directory (node_at s i) && bool_decide (cs `prefix_of` ds) = bool_decide (cs `prefix_of` ds)) as ->.
  { destruct (n_directory (node_at s i)) eqn:Di; [done|]. symmetry. apply bool_decide_eq_false. intros [r E].
    rewrite E in Atq. destruct (at_path_above s cs r d T Atq) as (j&Hj&Dj).
    rewrite (at_path_inj s cs i j T At Hj) in Di. destruct r; [|by rewrite Dj in Di].
    rewrite app_nil_r in Atq. rewrite (at_path_inj s cs j d T Hj Atq) in Di. congruence. }
  destruct (decide (cs `prefix_of` ds)) as [Pre|Npre].
  { rewrite bool_decide_eq_true_2 by done. by split; [apply tmpfs_kept_refl|]. }
  rewrite bool_decide_eq_false_2 by done.
  destruct (at_path_parent s cs i At Ne) as (_&En&Ui&_). rewrite <- En.
  destruct (exists_test s cs i ds d (n_name (node_at s i)) T At Atq) as [(->&X)|[-> X]].
  { rewrite decide_True by done. by split; [apply tmpfs_kept_refl|]. }
  rewrite decide_False by (intros [??]; by destruct X).
  rewrite i16_small by (apply (in_use_small s), (at_path_in_use s ds d T Atq)).
  replace ((node_at s i) <| n_parent := d |>) with (placed (node_at s i) d (n_name (node_at s i)))
    by (by destruct (node_at s i)).
  destruct (relocated_effect s i cs ds d (n_name (node_at s i))) as [K R]; try done. by apply T.
Qed.

(** *** Writing *)

(** The outcomes of [obtain_file]. *)
Inductive obtained (p : list Z) (s : tmpfs) : (Z + Z) * tmpfs → Prop :=
| ob_lost : locate (afs_of s) (names p) < 0 → locate (afs_of s) (names p) ≠ FS_ERROR_NOT_FOUND →
    obtained p s (inl (locate (afs_of s) (names p)), s)
| ob_refused : locate (afs_of s) (names p) = FS_ERROR_NOT_FOUND → create_check (afs_of s) (names p) < 0 →
    obtained p s (inl (create_check (afs_of s) (names p)), s)
| ob_full : locate (afs_of s) (names p) = FS_ERROR_NOT_FOUND → create_check (afs_of s) (names p) = 0 →
    obtained p s (inl FS_ERROR_NO_SPACE, s)
| ob_directory : locate (afs_of s) (names p) = 0 → tree_of s (names p) = Some EDir →
    obtained p s (inl FS_ERROR_NOT_FILE, s)
| ob_old i : locate (afs_of s) (names p) = 0 → at_path s (names p) i → n_directory (node_at s i) = false →
    obtained p s (inr i, s)
| ob_new i t : locate (afs_of s) (names p) = FS_ERROR_NOT_FOUND → create_check (afs_of s) (names p) = 0 →
    kept s t → updated (afs_of s) (names p) (Some (EFile [])) (afs_of t) → at_path t (names p) i →
    n_directory (node_at t i) = false → ¬ file_open (afs_of t) (names p) → obtained p s (inr i, t).

Lemma fresh_closed s cs : tree_ok s → tree_of s cs = None → ¬ file_open (afs_of s) cs.
Proof.
  intros W N (d&pos&E). apply fds_Some in E as (i&_&Hi&_); [|done]. by apply (proj1 (tree_None s cs W) N i).
Qed.

Lemma obtain_file_spec now p s : tmpfs_ok s → path_ok p → obtained p s (obtain_file now p s).
Proof.
  intros W Hp. pose proof (ok_tree s W) as T. unfold obtain_file.
  destruct (lookup_cases s p T Hp) as [(Neg&El&Tn)|(Pos&El&At)].
  - rewrite <- El in *. destruct (Z.eqb_spec (locate (afs_of s) (names p)) FS_ERROR_NOT_FOUND) as [E|Ne].
    2:{ cbn [Z.ltb Z.compare]. rewrite (proj2 (Z.ltb_lt _ 0)) by done. by apply ob_lost. }
    destruct (create_entry_spec now false p s T Hp) as [C|C|i parent cs n C En Hi Ui Atp Dp Hn Tq].
    + rewrite (proj2 (Z.ltb_lt _ 0)) by done. by apply ob_refused.
    + cbn [Z.ltb Z.compare]. by apply ob_full.
    + cbn [Z.ltb Z.compare]. rewrite En in Tq.
      destruct (created_effect now false s i parent cs n W Hi Ui Atp Dp Hn Tq) as (K&Pi&U).
      set (t := put_node i _ s) in *. rewrite <- En in *.
      assert (lookup t p = i) as ->.
      { destruct Hp as (ds&Hds&->&_). rewrite names_render in Pi by (by apply plain_names).
        apply at_lookup; [apply K|done]. }
      assert (node_at t i = fresh_node now parent n false) as Et
        by (unfold t; apply node_put_eq; done).
      destruct (Z.ltb_spec i 0); [lia|]. rewrite Et. cbn [n_directory fresh_node].
      apply ob_new; try done; [by rewrite Et|].
      intros (d&pos&Ed). destruct U as [_ Uf]. rewrite Uf in Ed. apply (fresh_closed s (names p) T Tn). by exists d, pos.
  - rewrite (proj2 (Z.eqb_neq _ FS_ERROR_NOT_FOUND)) by (unfold FS_ERROR_NOT_FOUND; lia). cbn [Z.ltb Z.compare].
    destruct (Z.ltb_spec (lookup s p) 0); [lia|]. destruct (n_directory (node_at s (lookup s p))) eqn:Dd.
    + apply ob_directory; [done|]. by apply (tree_dir s _ (lookup s p)).
    + by apply ob_old.
Qed.

(** Reserving room and storing [b] at [o]. *)
Lemma fill_effect s i cs needed o b z now : tmpfs_ok s → at_path s cs i →
  n_directory (node_at s i) = false → 0 ≤ o → o + Z.of_nat (length b) ≤ needed → 0 ≤ z ≤ needed →
  (∀ k, opened s k i → h_position (handle_at s k) ≤ z) →
  let r := reserve i needed s in
  (r.1 = FS_ERROR_NO_SPACE ∧ kept s r.2 ∧ same (afs_of s) (afs_of r.2)) ∨
  (r.1 = 0 ∧ n_size (node_at r.2 i) = n_size (node_at s i) ∧ content (node_at r.2 i) = content (node_at s i) ∧
   n_size (node_at s i) ≤ Z.of_nat (length (n_data (node_at r.2 i))) ∧
   let u := put_node i (written (node_at r.2 i) o b z now) r.2 in
   kept s u ∧ updated (afs_of s) cs (Some (EFile (content (written (node_at r.2 i) o b z now)))) (afs_of u)).
Proof.
  intros W Hp Dd Ho Hb Hz Pos r. destruct (W) as [T D]. pose proof (at_path_in_use _ _ _ T Hp) as Ui. destruct (Ui) as [Hi _].
  destruct (reserve_spec s i needed W Hi Dd ltac:(lia)) as [St (d&ph&k&En&Ec&Out)]. fold r in St, En, Out.
  assert (n_size (node_at r.2 i) = n_size (node_at s i)) as Es by (by rewrite En).
  assert (tmpfs_ok r.2) as Wr.
  { apply (data_step_ok s r.2 i); try done. intros q O. rewrite Es. apply (to_open s T q i O). }
  assert (content (node_at r.2 i) = content (node_at s i)) as Ect.
  { unfold content. rewrite Es, En. exact Ec. }
  destruct Out as [E|(E&Hk&_)]; [left|right].
  - split; [done|]. split; [split; [done|apply St]|]. apply (same_data s r.2 i cs); try done.
    unfold entry_of. rewrite Ect, En. done.
  - split; [done|]. split; [done|]. split; [done|].
    pose proof (do_file r.2 (ok_data _ Wr) i Hi) as F. pose proof (fo_size _ _ F). pose proof (fo_length _ _ F).
    assert (n_pages (node_at r.2 i) = k) as Ek by (by rewrite En). split; [lia|]. intros u.
    pose proof (data_step_write r.2 i o b z now (ok_tree _ Wr) (ok_data _ Wr) Hi Ho ltac:(lia) ltac:(lia)) as St2.
    fold u in St2. pose proof (data_step_trans _ _ _ _ St St2) as St3.
    assert (node_at u i = written (node_at r.2 i) o b z now) as Eu.
    { unfold u. rewrite node_put, decide_True by (done || lia || apply Wr). done. }
    assert (tmpfs_ok u) as Wu.
    { apply (data_step_ok s u i); try done. intros q O. rewrite Eu. by apply Pos. }
    split; [split; [done|apply St3]|]. rewrite <- Eu.
    pose proof (updated_data s u i cs W Wu St3 Hp) as U. unfold entry_of in U.
    assert (n_directory (node_at u i) = false) as Du by (by rewrite Eu, En). by rewrite Du in U.
Qed.

Lemma updated_trans A B C cs e f : updated A cs e B → updated B cs f C → updated A cs f C.
Proof.
  intros [T1 F1] [T2 F2]. split; [|intros d; by rewrite F2].
  intros q. rewrite T2, T1. by destruct (decide _).
Qed.

Lemma tree_updated_same A B C cs e : updated A cs e B → same B C → updated A cs e C.
Proof. intros [T1 F1] [T2 F2]. split; [intros q; by rewrite T2|intros d; by rewrite F2]. Qed.

(** What the rest of a write does with the node it got. *)
Definition filled (s : tmpfs) (cs : list (list Z)) (busy : bool) (new : list Z → list Z) (count i : Z)
    (r : Z * tmpfs) : Prop :=
  (busy = true ∧ file_open (afs_of s) cs ∧ r = (FS_ERROR_BUSY, s)) ∨
  ((busy = false ∨ ¬ file_open (afs_of s) cs) ∧
   ((r.1 = FS_ERROR_NO_SPACE ∧ kept s r.2 ∧ same (afs_of s) (afs_of r.2)) ∨
    (r.1 = count ∧ kept s r.2 ∧ updated (afs_of s) cs (Some (EFile (new (content (node_at s i))))) (afs_of r.2)))).

Lemma write_from_obtained s p busy new count (f : (Z + Z) * tmpfs → Z * tmpfs) ob :
  tmpfs_ok s → path_ok p → obtained p s ob → (∀ e t, f (inl e, t) = (e, t)) →
  (∀ i t, tmpfs_ok t → at_path t (names p) i → n_directory (node_at t i) = false →
    filled t (names p) busy new count i (f (inr i, t))) →
  kept s (f ob).2 ∧ write_step busy (names p) new count (ACode (f ob).1) (afs_of s) (afs_of (f ob).2).
Proof.
  intros W Hp O Fe Fi. unfold write_step. destruct O as [E N|E C|E C|E T|i E At Dd|i t E C K U At Dd No];
    rewrite ?Fe, ?E; cbn [fst snd Z.eqb Z.ltb Z.compare Pos.eqb Pos.compare Pos.compare_cont].
  - rewrite (proj2 (Z.eqb_neq _ _) N), (proj2 (Z.ltb_lt _ _) E). by split; [apply tmpfs_kept_refl|].
  - rewrite (proj2 (Z.ltb_lt _ _) C). by split; [apply tmpfs_kept_refl|].
  - rewrite C. split; [by apply tmpfs_kept_refl|]. by left.
  - split; [by apply tmpfs_kept_refl|]. cbn [a_tree afs_of]. by rewrite T.
  - pose proof (tree_at s _ i (ok_tree s W) At) as T. unfold entry_of in T. rewrite Dd in T. cbn [a_tree afs_of].
    rewrite T. destruct (Fi i s W At Dd) as [(B&Op&->)|(B&[(Er&K&S)|(Er&K&U)])].
    + split; [by apply tmpfs_kept_refl|]. by left.
    + split; [done|]. right. split; [done|]. left. by rewrite Er.
    + split; [done|]. right. split; [done|]. right. by rewrite Er.
  - rewrite C. cbn [Z.ltb Z.compare]. pose proof (proj1 U (names p)) as T. rewrite decide_True in T by done.
    cbn [a_tree afs_of] in T. rewrite (tree_at t _ i (ok_tree t (proj1 K)) At) in T. unfold entry_of in T. rewrite Dd in T.
    injection T as Ec. destruct (Fi i t (proj1 K) At Dd) as [(B&Op&->)|(B&[(Er&K'&S)|(Er&K'&U')])]; [done|..].
    + split; [by eapply kept_trans|]. right. left. rewrite Er. split; [done|]. by eapply tree_updated_same.
    + split; [by eapply kept_trans|]. right. right. rewrite Er, Ec in *. split; [done|]. by eapply updated_trans.
Qed.

Lemma write_step_ok s now p b : tmpfs_ok s → path_ok p → step_ok (TWrite now p b) s.
Proof.
  intros W Hp. unfold step_ok. cbn [exec afs_step fst snd].
  apply (write_from_obtained s p true (λ _, b) (Z.of_nat (length b)) (λ ob, match ob with
      | (inl status, s) => (status, s)
      | (inr i, s) =>
          if is_open s i then (FS_ERROR_BUSY, s) else
          let '(status, s) := reserve i (Z.of_nat (length b)) s in
          if status <? 0 then (status, s) else
          (Z.of_nat (length b), put_node i (written (node_at s i) 0 b (Z.of_nat (length b)) now) s)
      end) (obtain_file now p s)); [done|done|by apply obtain_file_spec|done|].
  intros i t Wt At Dd. pose proof (file_open_spec t i _ (ok_tree t Wt) At) as Op.
  destruct (is_open t i) eqn:Eo; [left; split; [done|]; split; [by apply Op|done]|right].
  assert (¬ file_open (afs_of t) (names p)) as No by (rewrite <- Op; congruence). split; [by right|].
  assert (∀ k, ¬ opened t k i) as Nk. { intros k O. rewrite (proj2 (is_open_spec t i)) in Eo by eauto. done. }
  destruct (fill_effect t i (names p) (Z.of_nat (length b)) 0 b (Z.of_nat (length b)) now) as [(E&K&S)|(E&_&_&_&K&U)];
    try done; try lia; [by intros k O; destruct (Nk k)|..];
    destruct (reserve i (Z.of_nat (length b)) t) as [st u]; cbn [fst snd] in *; subst st; cbn [Z.ltb Z.compare].
  - by left.
  - right. cbn [fst snd]. split; [done|]. split; [done|]. rewrite content_written_0 in U. exact U.
Qed.

Lemma append_step_ok s now p b : tmpfs_ok s → path_ok p → Z.of_nat (length b) < 2 ^ 32 →
  step_ok (TAppend now p b) s.
Proof.
  intros W Hp Lb. unfold step_ok. cbn [exec afs_step fst snd].
  apply (write_from_obtained s p false (λ old, old ++ b) (Z.of_nat (length b)) (λ ob, match ob with
      | (inl status, s) => (status, s)
      | (inr i, s) =>
          if TMPFS_MAX_FILE <? u64 (n_size (node_at s i) + Z.of_nat (length b)) then (FS_ERROR_NO_SPACE, s) else
          let '(status, s) := reserve i (u32 (n_size (node_at s i) + Z.of_nat (length b))) s in
          if status <? 0 then (status, s) else
          (Z.of_nat (length b), put_node i (written (node_at s i) (n_size (node_at s i)) b
             (u32 (n_size (node_at s i) + Z.of_nat (length b))) now) s)
      end) (obtain_file now p s)); [done|done|by apply obtain_file_spec|done|].
  intros i t Wt At Dd. right. split; [by left|]. pose proof (at_path_in_use _ _ _ (ok_tree t Wt) At) as [Hi _].
  pose proof (do_file t (ok_data t Wt) i Hi) as F. pose proof (fo_size _ _ F). pose proof (fo_pages _ _ F).
  unfold TMPFS_PAGE in *. rewrite u64_small by lia.
  destruct (Z.ltb_spec TMPFS_MAX_FILE (n_size (node_at t i) + Z.of_nat (length b))) as [G|G];
    [left; split; [done|]; split; [by apply tmpfs_kept_refl|done]|].
  unfold TMPFS_MAX_FILE in G. rewrite u32_small by lia.
  destruct (fill_effect t i (names p) (n_size (node_at t i) + Z.of_nat (length b)) (n_size (node_at t i)) b
    (n_size (node_at t i) + Z.of_nat (length b)) now) as [(E&K&S)|(E&Es&Ec&Ed&K&U)]; try done; try lia.
  { intros k O. pose proof (to_open t (ok_tree t Wt) k i O). lia. }
  all: destruct (reserve i (n_size (node_at t i) + Z.of_nat (length b)) t) as [st u]; cbn [fst snd] in *; subst st;
    cbn [Z.ltb Z.compare].
  - by left.
  - right. cbn [fst snd]. rewrite Es, u32_small by lia. split; [done|]. split; [done|].
    rewrite <- Es in U at 1 2. rewrite content_written_end, Ec in U by lia. exact U.
Qed.

(** *** Descriptors *)

Lemma get_handle_put s d h k : tree_ok s → 0 ≤ d < Z.of_nat TMPFS_MAX_OPEN →
  get_handle (put_handle d h s) k =
    if decide (k = d) then if h_used h then Some h else None else get_handle s k.
Proof.
  intros T Hd. unfold get_handle. destruct (Z.ltb_spec k 0) as [Lk|Lk]; cbn [orb].
  { by rewrite decide_False by lia. }
  destruct (Z.leb_spec (Z.of_nat TMPFS_MAX_OPEN) k) as [Gk|Gk]; cbn [orb].
  { by rewrite decide_False by lia. }
  rewrite handle_put by (done || apply T). destruct (decide (k = d)); [by destruct (h_used h)|done].
Qed.

(** Paths do not depend on the handles. *)
Lemma resolve_nodes s t ns : nodes t = nodes s → ∀ current, resolve t current ns = resolve s current ns.
Proof.
  intros E. assert (∀ i, node_at t i = node_at s i) as En by (intros; unfold node_at; by rewrite E).
  assert (∀ d n, find_child t d n = find_child s d n) as Ef by (intros; unfold find_child, node_at; by rewrite E).
  induction ns as [|n ns IH]; intros current; cbn [resolve]; [done|]. by rewrite En, Ef, IH.
Qed.

Lemma tree_nodes s t q : nodes t = nodes s → tree_of t q = tree_of s q.
Proof. intros E. unfold tree_of, node_at. by rewrite (resolve_nodes s t q E), E. Qed.

Lemma put_handle_effect s d h cs : tmpfs_ok s → 0 ≤ d < Z.of_nat TMPFS_MAX_OPEN →
  (h_used h = true → at_path s cs (h_node h) ∧ n_directory (node_at s (h_node h)) = false ∧
    0 ≤ h_position h ≤ n_size (node_at s (h_node h))) →
  kept s (put_handle d h s) ∧
  with_fd (afs_of s) d (if h_used h then Some (cs, h_position h) else None) (afs_of (put_handle d h s)).
Proof.
  intros [T D] Hd Hh. set (t := put_handle d h s).
  assert (tree_ok t) as Wt.
  { apply (tree_ok_shape s); [done|done|apply (eq_trans (length_aset _ _ _)), T|apply T|].
    intros k i. unfold opened, t. intros (Hk&U&E). rewrite handle_put in U by (done || lia || apply T).
    rewrite handle_put in E by (done || lia || apply T). rewrite handle_put by (done || lia || apply T).
    destruct (decide (k = d)) as [->|Ne].
    - destruct (Hh U) as (At&Dd&P). rewrite E in *. split; [by eapply at_path_in_use|done].
    - apply (to_open s T k i). by split. }
  assert (data_ok t) as Dt by (destruct D; constructor; assumption).
  split; [split; [by split|]; intros g; exact (iff_refl (foreign s g))|]. split; [intros q; by apply tree_nodes|]. intros k.
  assert (same_shape s t) as Sh by done. cbn [a_fds afs_of].
  pose proof (get_handle_put s d h k T Hd) as G. fold t in G. destruct (decide (k = d)) as [->|Ne].
  - unfold fds_of. rewrite G. destruct (h_used h) eqn:U; [|done]. destruct (Hh eq_refl) as (At&_).
    rewrite (climb_at t cs); [done|by apply (at_path_shape s)|by apply (at_path_depth s cs (h_node h))].
  - destruct (fds_of s k) as [[qs pos]|] eqn:E.
    + apply fds_Some in E as (i&O&At&->); [|done]. destruct (opened_get _ _ _ O) as [E1 E2].
      unfold fds_of. rewrite G, E1, E2. rewrite (climb_at t qs); [done|by apply (at_path_shape s)|by apply (at_path_depth s qs i)].
    + apply fds_None. rewrite G. by apply fds_None.
Qed.

Lemma open_step s p : tmpfs_ok s → path_ok p → step_ok (TOpen p) s.
Proof.
  intros W Hp. destruct (W) as [T D]. unfold step_ok. cbn [exec afs_step]. unfold tmpfs_open.
  destruct (lookup_cases s p T Hp) as [(Neg&->&_)|(Pos&->&At)].
  { rewrite (proj2 (Z.ltb_lt _ 0) Neg). by split; [apply tmpfs_kept_refl|]. }
  rewrite (proj2 (Z.ltb_ge _ 0) Pos). cbn [Z.ltb Z.compare]. set (i := lookup s p) in *.
  pose proof (tree_at s _ i T At) as E. unfold entry_of in E. cbn [a_tree afs_of].
  destruct (n_directory (node_at s i)) eqn:Dd; rewrite E; [by split; [apply tmpfs_kept_refl|]|].
  destruct (for_first _ _ _) as [k|] eqn:F; [|split; [by apply tmpfs_kept_refl|by left]].
  apply for_first_Some in F as (Hk&Uk%negb_true_iff&_). pose proof (at_path_in_use _ _ _ T At) as Ui.
  rewrite i16_small by (by eapply in_use_small).
  destruct (put_handle_effect s k (Handle true i 0) (names p) W) as [K Fd]; [lia| |].
  { intros _. split; [done|]. split; [done|]. cbn. pose proof (fo_size _ _ (do_file s D i (proj1 Ui))). lia. }
  split; [done|]. right. exists k. split; [lia|]. split; [|done].
  cbn [a_fds afs_of]. apply fds_None. unfold get_handle. by rewrite Uk, orb_true_r.
Qed.

(** An open descriptor, its node and its file. *)
Record fd_file (s : tmpfs) (d i : Z) (cs : list (list Z)) : Prop := {
  ff_handle : get_handle s d = Some (handle_at s d);
  ff_used : h_used (handle_at s d) = true;
  ff_node : h_node (handle_at s d) = i;
  ff_range : 0 ≤ d < Z.of_nat TMPFS_MAX_OPEN;
  ff_path : at_path s cs i;
  ff_plain : n_directory (node_at s i) = false;
  ff_fd : fds_of s d = Some (cs, h_position (handle_at s d));
  ff_position : 0 ≤ h_position (handle_at s d) ≤ n_size (node_at s i);
  ff_size : n_size (node_at s i) < 2 ^ 31;
  ff_tree : tree_of s cs = Some (EFile (content (node_at s i)));
  ff_length : Z.of_nat (length (content (node_at s i))) = n_size (node_at s i);
}.

Lemma fd_cases s d : tmpfs_ok s →
  (get_handle s d = None ∧ fds_of s d = None) ∨ ∃ i cs, fd_file s d i cs.
Proof.
  intros [T D]. destruct (get_handle s d) as [h|] eqn:G; [right|left; split; [done|by apply fds_None]].
  pose proof G as (Hd&->&O)%get_handle_Some. destruct (to_open s T d _ O) as (U&Dd&P).
  destruct (to_path s T _ U) as [cs At]. exists (h_node (handle_at s d)), cs.
  pose proof (do_file s D _ (proj1 U)) as F. pose proof (fo_size _ _ F). pose proof (fo_pages _ _ F).
  pose proof (fo_length _ _ F) as Ld. unfold TMPFS_PAGE in *.
  split; try done.
  - apply O.
  - by apply (fds_opened s cs (h_node (handle_at s d))).
  - lia.
  - rewrite (tree_at s cs _ T At). unfold entry_of. by rewrite Dd.
  - unfold content. rewrite length_take. lia.
Qed.

(** A descriptor at a new position. *)
Lemma fd_moved s d i cs pos : tmpfs_ok s → fd_file s d i cs → 0 ≤ pos ≤ n_size (node_at s i) →
  let t := put_handle d ((handle_at s d) <| h_position := pos |>) s in
  kept s t ∧ with_fd (afs_of s) d (Some (cs, pos)) (afs_of t).
Proof.
  intros W F Hp. destruct (put_handle_effect s d ((handle_at s d) <| h_position := pos |>) cs W) as [K Fd].
  - apply F.
  - intros _. change (at_path s cs (h_node (handle_at s d)) ∧ n_directory (node_at s (h_node (handle_at s d))) = false ∧
      0 ≤ pos ≤ n_size (node_at s (h_node (handle_at s d)))). rewrite (ff_node _ _ _ _ F). split; [apply F|]. by split; [apply F|].
  - split; [done|]. change (h_used ((handle_at s d) <| h_position := pos |>)) with (h_used (handle_at s d)) in Fd.
    by rewrite (ff_used _ _ _ _ F) in Fd.
Qed.

Lemma fd_unmoved s d i cs : fd_file s d i cs →
  with_fd (afs_of s) d (Some (cs, h_position (handle_at s d))) (afs_of s).
Proof.
  intros F. split; [done|]. intros k. cbn [a_fds afs_of]. destruct (decide (k = d)) as [->|]; [|done]. apply F.
Qed.

Lemma read_step s d count : tmpfs_ok s → is_u32 count → step_ok (TRead d count) s.
Proof.
  intros W Hc. unfold step_ok. cbn [exec afs_step]. unfold tmpfs_read. cbn [a_fds a_tree afs_of].
  destruct (fd_cases s d W) as [[-> ->]|(i&cs&F)]; [by split; [apply tmpfs_kept_refl|]|].
  rewrite (ff_handle _ _ _ _ F), (ff_node _ _ _ _ F), (ff_fd _ _ _ _ F). pose proof (ff_position _ _ _ _ F).
  pose proof (ff_length _ _ _ _ F). pose proof (ff_size _ _ _ _ F). set (pos := h_position (handle_at s d)) in *. unfold is_u32 in Hc.
  set (out := take (Z.to_nat count) (drop (Z.to_nat pos) (content (node_at s i)))).
  assert (Z.of_nat (length out) = Z.min count (n_size (node_at s i) - pos)) as Lt
    by (unfold out; rewrite length_take, length_drop; lia).
  destruct (Z.leb_spec (n_size (node_at s i)) pos) as [Ge|Lp]; cbn [fst snd].
  - split; [by apply tmpfs_kept_refl|]. exists (content (node_at s i)). split; [apply F|]. fold out.
    assert (out = []) as -> by (apply length_zero_iff_nil; lia).
    split; [done|]. rewrite Z.add_0_r. by apply (fd_unmoved s d i).
  - rewrite (u32_small (_ - pos)) by lia.
    set (amount := if count <? n_size (node_at s i) - pos then count else n_size (node_at s i) - pos).
    assert (amount = Z.of_nat (length out)) as Ea by (unfold amount; destruct (Z.ltb_spec count (n_size (node_at s i) - pos)); lia).
    assert (take (Z.to_nat amount) (drop (Z.to_nat pos) (n_data (node_at s i))) = out) as Et.
    { unfold out, content. rewrite skipn_firstn_comm, take_take. f_equal. lia. }
    rewrite Et, Ea, u32_small by lia. cbn [fst snd].
    destruct (fd_moved s d i cs (pos + Z.of_nat (length out)) W F ltac:(lia)) as [K Fd].
    split; [exact K|]. exists (content (node_at s i)). split; [apply F|]. split; [done|exact Fd].
Qed.

Lemma seek_step s d offset whence : tmpfs_ok s → step_ok (TSeek d offset whence) s.
Proof.
  intros W. unfold step_ok. cbn [exec afs_step]. unfold tmpfs_seek. cbn [a_fds a_tree afs_of].
  destruct (fd_cases s d W) as [[-> ->]|(i&cs&F)]; [by split; [apply tmpfs_kept_refl|]|].
  rewrite (ff_handle _ _ _ _ F), (ff_node _ _ _ _ F), (ff_fd _ _ _ _ F). pose proof (ff_position _ _ _ _ F).
  pose proof (ff_length _ _ _ _ F) as Lc. pose proof (ff_size _ _ _ _ F). set (pos := h_position (handle_at s d)) in *.
  assert (n_size (node_at s i) = Z.of_nat (length (content (node_at s i)))) as -> by done.
  set (size := Z.of_nat (length (content (node_at s i)))) in *.
  rewrite (Z.add_comm _ offset).
  set (target := i64 (offset + if whence =? SEEK_CUR then pos else if whence =? SEEK_END then size else 0)).
  destruct (Z.ltb_spec target 0) as [|Ht].
  - split; [by apply tmpfs_kept_refl|]. exists (content (node_at s i)). split; [apply F|]. fold size target.
    by rewrite (proj2 (Z.ltb_lt _ _)).
  - assert ((if size <? target then size else target) = Z.min target size) as -> by (destruct (Z.ltb_spec size target); lia).
    rewrite u32_small by lia. destruct (fd_moved s d i cs (Z.min target size) W F ltac:(lia)) as [K Fd].
    split; [exact K|]. exists (content (node_at s i)). split; [apply F|]. fold size target.
    rewrite (proj2 (Z.ltb_ge _ _)) by done. done.
Qed.

Lemma close_step s d : tmpfs_ok s → step_ok (TClose d) s.
Proof.
  intros W. unfold step_ok. cbn [exec afs_step]. unfold tmpfs_close. cbn [a_fds a_tree afs_of].
  destruct (fd_cases s d W) as [[-> ->]|(i&cs&F)]; [by split; [apply tmpfs_kept_refl|]|].
  rewrite (ff_handle _ _ _ _ F), (ff_fd _ _ _ _ F).
  destruct (put_handle_effect s d ((handle_at s d) <| h_used := false |>) cs W) as [K Fd]; [apply F|done|].
  split; [exact K|]. split; [done|exact Fd].
Qed.

(** *** Information *)

Lemma dir_size s i : tmpfs_ok s → in_use s i → n_directory (node_at s i) = true → n_size (node_at s i) = 0.
Proof.
  intros [T D] [Hi _] Dd. pose proof (fo_size _ _ (do_file s D i Hi)). pose proof (do_dir s D i Hi Dd). lia.
Qed.

Lemma size_of_entry s i : tmpfs_ok s → in_use s i → size_of (entry_of (node_at s i)) = n_size (node_at s i).
Proof.
  intros W U. unfold entry_of. destruct (n_directory (node_at s i)) eqn:Dd; cbn [size_of].
  - symmetry. by apply dir_size.
  - destruct W as [T D]. pose proof (do_file s D i (proj1 U)) as F. pose proof (fo_size _ _ F).
    pose proof (fo_length _ _ F). unfold content. rewrite length_take. lia.
Qed.

Lemma stat_step s p : tmpfs_ok s → path_ok p → step_ok (TStat p) s.
Proof.
  intros W Hp. pose proof (ok_tree s W) as T. unfold step_ok. cbn [exec afs_step]. unfold tmpfs_stat.
  destruct (lookup_cases s p T Hp) as [(Neg&->&_)|(Pos&->&At)].
  { rewrite (proj2 (Z.ltb_lt _ 0) Neg). by split; [apply tmpfs_kept_refl|]. }
  rewrite (proj2 (Z.ltb_ge _ 0) Pos). cbn [Z.ltb Z.compare fst snd].
  pose proof (at_path_in_use _ _ _ T At) as U. split; [by apply tmpfs_kept_refl|]. split; [done|].
  exists (entry_of (node_at s (lookup s p))). split; [by apply tree_at|].
  rewrite size_of_entry by done. unfold entry_of. by destruct (n_directory _).
Qed.

(** The children in the order of the table. *)
Definition child_of (s : tmpfs) (d k : Z) : Prop :=
  n_used (node_at s k) = true ∧ n_parent (node_at s k) = d.
#[global] Instance child_of_dec s d k : Decision (child_of s d k).
Proof. unfold child_of. apply _. Defined.

Definition child_entry (s : tmpfs) (k : Z) : directory_entry :=
  DirEntry (copy_text (n_name (node_at s k)) FS_LONG_NAME_CAPACITY) (n_size (node_at s k))
           (if n_directory (node_at s k) then FS_ATTRIBUTE_DIRECTORY else 0).

Lemma list_loop_spec s d cap n : ∀ i es, Z.of_nat (length es) ≤ Z.max 0 cap →
  list_loop s d cap true n i es =
  take (Z.to_nat cap) (es ++ map (child_entry s) (filter (child_of s d) (seqZ i (Z.of_nat n)))).
Proof.
  induction n as [|n IH]; intros i es Hes; cbn [list_loop].
  - cbn. rewrite app_nil_r, take_ge by lia. done.
  - destruct (Z.ltb_spec (Z.of_nat (length es)) cap) as [L|G]; cbn [negb].
    2:{ rewrite take_app_le, take_ge by lia. done. }
    rewrite seqZ_cons by lia. replace (Z.pred (Z.of_nat (S n))) with (Z.of_nat n) by lia.
    replace (Z.succ i) with (i + 1) by lia. rewrite filter_cons.
    destruct (n_used (node_at s i)) eqn:U; cbn [negb orb].
    + destruct (Z.eqb_spec (n_parent (node_at s i)) d) as [E|Ne]; cbn [negb].
      * rewrite IH by (rewrite length_app; cbn; lia). rewrite decide_True by done.
        cbn [map]. by rewrite <- app_assoc.
      * rewrite IH by done. rewrite decide_False by (intros []; congruence). done.
    + rewrite IH by done. rewrite decide_False by (intros []; congruence). done.
Qed.

Lemma child_entry_at s cs d k : tmpfs_ok s → at_path s cs d → 1 ≤ k < Z.of_nat TMPFS_MAX_NODES →
  child_of s d k → at_path s (cs ++ [n_name (node_at s k)]) k ∧
  child_entry s k = listed (n_name (node_at s k)) (entry_of (node_at s k)).
Proof.
  intros W At Hk [U Ep]. pose proof (ok_tree s W) as T.
  assert (in_use s k) as Uk by (split; [lia|done]). assert (k ≠ TMPFS_ROOT) as Nk by (unfold TMPFS_ROOT; lia).
  split; [constructor; [by rewrite Ep|done|done]|]. unfold child_entry, listed.
  rewrite size_of_entry by done. destruct (to_name s T k Uk Nk) as [_ L]. unfold TMPFS_NAME_MAX in L.
  unfold copy_text, FS_LONG_NAME_CAPACITY. rewrite take_ge by lia. unfold entry_of. by destruct (n_directory _).
Qed.

Lemma list_step s p cap : tmpfs_ok s → path_ok p → step_ok (TList p cap) s.
Proof.
  intros W Hp. pose proof (ok_tree s W) as T. unfold step_ok. cbn [exec afs_step]. unfold tmpfs_list_long, list_directory.
  destruct (lookup_cases s p T Hp) as [(Neg&->&_)|(Pos&->&At)].
  { rewrite (proj2 (Z.ltb_lt _ 0) Neg). by split; [apply tmpfs_kept_refl|]. }
  rewrite (proj2 (Z.ltb_ge _ 0) Pos). cbn [Z.ltb Z.compare]. set (d := lookup s p) in *. set (cs := names p) in *.
  pose proof (tree_dir s cs d T At) as Td. cbn [a_tree afs_of].
  destruct (n_directory (node_at s d)) eqn:Dd; cbn [negb].
  2:{ rewrite decide_True by (intros E; by apply Td in E). by split; [apply tmpfs_kept_refl|]. }
  rewrite decide_False by (intros E; by destruct E; apply Td). split; [by apply tmpfs_kept_refl|]. split; [done|]. cbn [fst snd].
  rewrite list_loop_spec by (cbn; lia). cbn [app].
  set (ks := filter (child_of s d) (seqZ 1 (Z.of_nat (TMPFS_MAX_NODES - 1)))).
  assert (∀ k, k ∈ ks ↔ 1 ≤ k < Z.of_nat TMPFS_MAX_NODES ∧ child_of s d k) as Hks.
  { intros k. unfold ks. rewrite list_elem_of_filter, elem_of_seqZ. change (1 + Z.of_nat (TMPFS_MAX_NODES - 1)) with (Z.of_nat TMPFS_MAX_NODES). tauto. }
  assert (NoDup (e_name <$> map (child_entry s) ks)) as Nd.
  { change (map (child_entry s) ks) with (child_entry s <$> ks). rewrite <- list_fmap_compose.
    apply NoDup_fmap_2_strong.
    - unfold compose. intros k j [Hk Ck]%Hks [Hj Cj]%Hks. destruct (child_entry_at s cs d k W At Hk Ck) as [Pk ->],
        (child_entry_at s cs d j W At Hj Cj) as [Pj ->]. cbn. intros E. rewrite E in Pk. by apply (at_path_inj s _ k j T Pk).
    - apply NoDup_filter, NoDup_seqZ. }
  set (es := map (child_entry s) ks) in *.
  exists (take (Z.to_nat cap) es). split; [done|]. split; [|split; [|split]].
  - rewrite fmap_take. by apply (sublist_NoDup _ (e_name <$> es)); [|apply sublist_take].
  - rewrite length_take. lia.
  - intros x Hx. apply (elem_of_sublist _ es) in Hx; [|apply sublist_take].
    apply list_elem_of_fmap in Hx as (k&->&[Hk Ck]%Hks). destruct (child_entry_at s cs d k W At Hk Ck) as [Pk ->].
    eexists _, _. split; [by apply tree_at|done].
  - rewrite length_take. intros L n e E. rewrite take_ge by lia. apply tree_Some in E as (k&Hk&->); [|done].
    pose proof (at_path_snoc s cs n k Hk) as (Hd&[Rk Uk]&Nk&En).
    assert (child_of s d k) as Ck by (split; [done|by apply (at_path_inj s cs)]).
    assert (1 ≤ k < Z.of_nat TMPFS_MAX_NODES) as R1 by (unfold TMPFS_ROOT in Nk; lia).
    apply list_elem_of_fmap. exists k. split; [|by apply Hks].
    destruct (child_entry_at s cs d k W At R1 Ck) as [_ ->]. by rewrite En.
Qed.

(** ** The invariant of every reachable state *)

Lemma exec_step_ok o s : tmpfs_ok s → op_ok o → step_ok o s.
Proof.
  intros W H. destruct o as [now dir p|p|p nm|p q|now p b|now p b|p|d c|d o w|d|p|p c]; cbn [op_ok] in H;
    eauto using create_step, unlink_step, write_step_ok, open_step, read_step, seek_step, close_step,
      stat_step, list_step.
  - destruct H. by apply rename_step.
  - destruct H. by apply move_step.
  - destruct H. by apply write_step_ok.
  - destruct H. by apply append_step_ok.
Qed.

Lemma create_ok p s self p' : pmm_wf p → vfs_tmpfs_create p = (Some (s, self), p') → tmpfs_ok s.
Proof.
  intros Wp. unfold vfs_tmpfs_create.
  set (pages := (SIZEOF_TMPFS + TMPFS_PAGE - 1) / TMPFS_PAGE). assert (0 ≤ pages) as Hp by done.
  pose proof (alloc_outcome_wf _ _ _ Wp (allocate_contiguous_outcome p pages Wp Hp)) as Wq.
  unfold pmm_allocate_contiguous. destruct (pmm_allocate_contiguous_locked pages p) as [physical q]. cbn [snd] in Wq.
  destruct (physical =? 0); [done|]. intros E.
  apply (f_equal (λ x, default s (fst <$> x.1))) in E.
  match type of E with default _ (fst <$> (Some (?x, _), _).1) = _ => change (x = s) in E end. subst s.
  match goal with |- tmpfs_ok ?x => set (s := x) end.
  assert (∀ i, 0 ≤ i → node_at s i = if decide (i = 0) then
    node_zero <| n_used := true |> <| n_directory := true |> <| n_parent := TMPFS_ROOT |> else node_zero) as En.
  { intros i Hi. unfold node_at, s. cbn [nodes]. destruct (decide (i = 0)) as [->|Ne]; [done|].
    rewrite aget_aset_ne by (unfold TMPFS_ROOT; lia). unfold aget. rewrite nth_lookup.
    destruct (replicate _ _ !! _) eqn:E; [|done]. by apply lookup_replicate in E as [-> _]. }
  assert (∀ k, h_used (handle_at s k) = false) as Eh.
  { intros k. unfold handle_at, s, aget. cbn [handles]. rewrite nth_lookup.
    destruct (replicate _ _ !! _) eqn:E; [|done]. by apply lookup_replicate in E as [-> _]. }
  assert (∀ i, in_use s i → i = TMPFS_ROOT) as Ui.
  { intros i [Hi U]. rewrite En in U by lia. by destruct (decide (i = 0)). }
  split; split; try done.
  - intros i Hi U. rewrite En in * by lia. by destruct (decide (i = 0)).
  - by intros i ->%Ui.
  - by intros i ->%Ui.
  - by intros i j ->%Ui.
  - intros i ->%Ui. exists []. constructor.
  - intros k i (_&U&_). by rewrite Eh in U.
  - intros i Hi. rewrite En by lia. destruct (decide _); split; cbn; (done || lia).
  - intros i Hi. rewrite En by lia. by destruct (decide _).
  - intros i j g Hi Hj _ C. rewrite En in C by lia. by destruct (decide _); apply covers_none in C.
  - unfold s. cbn [page_limit used_pages]. change (64 * 1024 * 1024 / TMPFS_PAGE) with 16384.
    destruct (Z.ltb_spec (pmm_total_bytes q / 4 / TMPFS_PAGE) 16384);
      (destruct (Z.ltb_spec 16384 16); [lia|]) || idtac; repeat case_match; zify_bool; lia.
Qed.

Lemma others_ok s p : tmpfs_ok s → pmm_wf p → frame_limit p = frame_limit (t_pmm s) →
  (∀ g i, 0 ≤ i < Z.of_nat TMPFS_MAX_NODES → covers (node_at s i) g → frame_is_used p g = true) →
  tmpfs_ok (s <| t_pmm := p |>).
Proof.
  intros [T D] Wp L U. split.
  - apply (tree_ok_shape s); try done; apply T.
  - destruct D as [H1 H2 H3 H4 H5 H6]. split; try done. intros i Hi.
    apply (file_ok_mono (t_pmm s)); [done| |by apply H2]. intros g _ C _. by apply (U g i).
Qed.

Lemma tmpfs_reachable_ok s : tmpfs_reachable s → tmpfs_ok s.
Proof.
  induction 1 as [p s self p' Wp E|s o R IH Ho|s p R IH Wp L U].
  - by eapply create_ok.
  - by apply (exec_step_ok o s IH Ho).
  - by apply others_ok.
Qed.

(** ** The properties *)

(** C23: Whatever the calls so far, every call on the in-memory file system does
    what the abstract map from paths to directories and files says: it answers
    the error the specification gives, or changes exactly the named entry (or
    moves exactly the named subtree), and the open descriptors follow.  (A seek
    goes to the sum of its base and offset modulo 2^64, at most the size; a
    negative sum is refused.) *)
Theorem tmpfs_refines s o : tmpfs_reachable s → op_ok o →
  afs_step o (exec o s).1 (afs_of s) (afs_of (exec o s).2).
Proof. intros R Ho. apply exec_step_ok; [by apply tmpfs_reachable_ok|done]. Qed.

(** C24: No call on the file system loses, leaks or takes a frame: the frames in
    use that hold none of its data are the same before and after, its data is on
    frames in use, no two files share one, and the page count is their number,
    within the limit. *)
Theorem tmpfs_frames_exact s o : tmpfs_reachable s → op_ok o →
  let t := (exec o s).2 in
  (∀ g, foreign t g ↔ foreign s g) ∧
  (∀ i g, 0 ≤ i < Z.of_nat TMPFS_MAX_NODES → covers (node_at t i) g → frame_is_used (t_pmm t) g = true) ∧
  (∀ i j g, 0 ≤ i < Z.of_nat TMPFS_MAX_NODES → 0 ≤ j < Z.of_nat TMPFS_MAX_NODES → i ≠ j →
    covers (node_at t i) g → ¬ covers (node_at t j) g) ∧
  used_pages t = sum_of n_pages (nodes t) ∧ used_pages t ≤ page_limit t.
Proof.
  intros R Ho. destruct (exec_step_ok o s (tmpfs_reachable_ok s R) Ho) as [[[T D] F] _]. cbv zeta.
  split; [exact F|]. split; [|split; [|split]].
  - intros i g Hi C. by apply (covers_used _ i g D Hi).
  - intros i j g Hi Hj Ne C C'. by apply (do_apart _ D i j g).
  - apply D.
  - apply (do_limit _ D).
Qed.

(** The parents of every node lead to the root: each node in use has exactly
    one path, no two nodes have the same one, and the walk of [is_ancestor]
    ends within the number of nodes whatever it looks for among them. *)
Theorem tmpfs_walk_ends s i a : tmpfs_reachable s → in_use s i → in_use s a →
  (∃ cs, at_path s cs i ∧ ∀ ds, at_path s ds i → ds = cs) ∧
  (∀ cs, at_path s cs i → at_path s cs a → i = a) ∧
  is_Some (ancestor_loop TMPFS_MAX_NODES s a i).
Proof.
  intros R Ui Ua. pose proof (ok_tree s (tmpfs_reachable_ok s R)) as T.
  destruct (to_path s T i Ui) as [cs Hi]. destruct (to_path s T a Ua) as [ps Ha]. split; [|split].
  - exists cs. split; [done|]. intros ds Hd. by apply (at_path_fun s _ _ i).
  - intros ds H1 H2. by apply (at_path_inj s ds).
  - rewrite (ancestor_loop_spec s ps cs a i); [done..|]. pose proof (at_path_depth s cs i T Hi). lia.
Qed.

(** A file that was written and is opened reads back as what was written:
    the next read of at least as many bytes returns exactly them. *)
Theorem tmpfs_write_read s now p b d n : tmpfs_reachable s → path_ok p → Z.of_nat (length b) < 2 ^ 32 →
  is_u32 n → Z.of_nat (length b) ≤ n →
  let t := (exec (TWrite now p b) s).2 in let u := (exec (TOpen p) t).2 in
  (exec (TWrite now p b) s).1 = ACode (Z.of_nat (length b)) → (exec (TOpen p) t).1 = ACode d → 0 ≤ d →
  (exec (TRead d n) u).1 = ABytes (Z.of_nat (length b)) b.
Proof.
  intros R Hp Lb Hn Hl t u Ew Eo Hd. pose proof (tmpfs_reachable_ok s R) as W.
  destruct (exec_step_ok (TWrite now p b) s W (conj Hp Lb)) as [[Wt _] Sw]. fold t in Wt, Sw. rewrite Ew in Sw.
  destruct (exec_step_ok (TOpen p) t Wt Hp) as [[Wu _] So]. fold u in Wu, So. rewrite Eo in So.
  destruct (exec_step_ok (TRead d n) u Wu Hn) as [_ Sr]. cbn [afs_step] in *.
  assert (a_tree (afs_of t) (names p) = Some (EFile b)) as Tt.
  { assert (∀ B, updated (afs_of s) (names p) (Some (EFile b)) B → a_tree B (names p) = Some (EFile b)) as Up.
    { intros B [-> _]. by rewrite decide_True. }
    unfold write_step, refused, FS_ERROR_NO_SPACE, FS_ERROR_BUSY, FS_ERROR_NOT_FILE in Sw.
    repeat match type of Sw with
    | context [if ?x <? 0 then _ else _] => destruct (Z.ltb_spec x 0)
    | context [if ?x then _ else _] => destruct x
    | context [match ?x with _ => _ end] => destruct x as [[|]|]
    end; repeat (destruct_and! || destruct_or!); simplify_eq; (lia || auto). }
  assert (fds_of u d = Some (names p, 0) ∧ tree_of u (names p) = Some (EFile b)) as [Fu Tu].
  { rewrite Tt in So. destruct (Z.ltb_spec (locate (afs_of t) (names p)) 0).
    - destruct So as [[= ->] _]. lia.
    - destruct So as [[[= ->] _]|(d'&_&_&[= <-]&Tr&Fd)]; [by destruct Hd|]. split.
      + specialize (Fd d). rewrite decide_True in Fd by done. exact Fd.
      + specialize (Tr (names p)). cbn [a_tree afs_of] in *. congruence. }
  cbn [a_fds a_tree afs_of] in Sr. rewrite Fu in Sr. destruct Sr as (bytes&Eb&Sr&_). rewrite Tu in Eb. injection Eb as <-.
  rewrite Sr. change (Z.to_nat 0) with O. rewrite drop_0, take_ge by lia. done.
Qed.

(** C40: A rename to two dots succeeds for every entry but the root whose directory has
    no such entry yet; and then no path can name the entry: neither it nor
    anything below it is found again by a path that vfs.c can pass. *)
Theorem tmpfs_rename_dots_lost s p : tmpfs_reachable s → path_ok p → 0 ≤ lookup s p → lookup s p ≠ TMPFS_ROOT →
  find_child s (n_parent (node_at s (lookup s p))) [DOT; DOT] < 0 →
  let t := (exec (TRename p [DOT; DOT]) s).2 in
  (exec (TRename p [DOT; DOT]) s).1 = ACode 0 ∧
  ∃ to, at_path t (to ++ [[DOT; DOT]]) (lookup s p) ∧
    ∀ r i q, at_path t (to ++ [DOT; DOT] :: r) i → path_ok q → lookup t q ≠ i.
Proof.
  intros R Hp Pos Nr Free t. pose proof (tmpfs_reachable_ok s R) as W. pose proof (ok_tree s W) as T.
  assert (cstr [DOT; DOT]) as Hc by (repeat (apply Forall_cons; split; [done|]); apply Forall_nil_2).
  destruct (exec_step_ok (TRename p [DOT; DOT]) s W (conj Hp Hc)) as [[Wt _] _]. fold t in Wt.
  assert (tmpfs_rename p [DOT; DOT] s = (0, put_node (lookup s p) ((node_at s (lookup s p)) <| n_name := [DOT; DOT] |>) s)) as E.
  { unfold tmpfs_rename. destruct (Z.ltb_spec (lookup s p) 0) as [|_]; [lia|]. destruct (Z.eqb_spec (lookup s p) TMPFS_ROOT) as [|_]; [done|].
    assert (negb (valid_name [DOT; DOT]) = false) as -> by (vm_compute; reflexivity). cbv zeta.
    destruct (Z.leb_spec 0 (find_child s (n_parent (node_at s (lookup s p))) [DOT; DOT])); [lia|done]. }
  split; [cbn [exec]; by rewrite E|].
  assert (in_use t (lookup s p) ∧ n_name (node_at t (lookup s p)) = [DOT; DOT]) as (Ut&En).
  { subst t. cbn [exec]. rewrite E. cbn [snd].
    destruct (lookup_cases s p T Hp) as [(Neg&_)|(_&_&At)]; [lia|]. destruct (at_path_in_use _ _ _ T At) as [Hi Ui].
    unfold in_use. rewrite node_put, decide_True by (done || lia || apply T). split; [split; [done|exact Ui]|done]. }
  destruct (to_path t (ok_tree t Wt) _ Ut) as [cs H]. inversion H as [E0|to i Hto _ _ E0 E1]; [done|subst].
  exists to. rewrite En in *. split; [done|]. intros r j q Hj (ds&Hds&->&_) El.
  assert (at_path t ds j) as Hj2.
  { subst j. apply lookup_at; [apply Wt|by apply plain_names|]. apply (in_use_root_nonneg t), (at_path_in_use _ _ _ (ok_tree t Wt) Hj). }
  rewrite (at_path_fun t _ _ j Hj2 Hj) in Hds. apply Forall_app in Hds as [_ Hds]. apply Forall_cons in Hds as [(_&_&N&_) _]. done.
Qed.

(** *** Witnesses *)

Definition tmp_pmm : pmm :=
  pmm_init (Some [Some (Memmap 4096 (64 * 4096) 0)]) 4096 (Pmm ∅ None 0 0 0 0 false ∅).
Lemma tmp_pmm_wf : pmm_wf tmp_pmm.
Proof. by apply pmm_init_wf. Qed.

Definition boot_fs : tmpfs :=
  match (vfs_tmpfs_create tmp_pmm).1 with
  | Some (s, _) => s
  | None => Tmpfs [] [] 0 0 tmp_pmm
  end.
Lemma boot_fs_made : match (vfs_tmpfs_create tmp_pmm).1 with Some _ => true | None => false end = true.
Proof. vm_compute. reflexivity. Qed.
Lemma boot_fs_reachable : tmpfs_reachable boot_fs.
Proof.
  pose proof boot_fs_made as M. unfold boot_fs.
  destruct (vfs_tmpfs_create tmp_pmm) as [[[s self]|] p'] eqn:E; [|done].
  exact (tmpfs_made tmp_pmm s self p' tmp_pmm_wf E).
Qed.

Definition runs (os : list tmpfs_op) (s : tmpfs) : tmpfs := foldl (λ s o, (exec o s).2) s os.
Lemma runs_reachable os s : tmpfs_reachable s → Forall op_ok os → tmpfs_reachable (runs os s).
Proof.
  intros R F. revert s R. induction F as [|o os Ho F IH]; intros s R; [done|].
  apply IH. by apply tmpfs_step.
Qed.

(** "/a" and "/a/b". *)
Definition path_a : list Z := [47; 97].
Definition path_ab : list Z := [47; 97; 47; 98].
Lemma path_a_ok : path_ok path_a.
Proof.
  exists [[97]]. split; [|done]. apply Forall_singleton. split; [|done]. split; [done|].
  apply Forall_cons. split; [done|]. apply Forall_nil_2.
Qed.
Lemma path_ab_ok : path_ok path_ab.
Proof.
  exists [[97]; [98]]. split; [|done]. repeat (apply Forall_cons; split; [|]); try apply Forall_nil_2;
    (split; [|done]; split; [done|]; apply Forall_cons; split; [done|apply Forall_nil_2]).
Qed.

(** A directory "/a" with a file "b" that holds three bytes. *)
Definition demo_ops : list tmpfs_op := [TCreate 7 true path_a; TWrite 8 path_ab [1; 2; 3]].
Definition demo_fs : tmpfs := runs demo_ops boot_fs.
Lemma demo_fs_reachable : tmpfs_reachable demo_fs.
Proof.
  apply runs_reachable; [exact boot_fs_reachable|]. apply Forall_cons. split; [exact path_a_ok|].
  apply Forall_cons. split; [split; [exact path_ab_ok|done]|apply Forall_nil_2].
Qed.

Lemma tmpfs_refines_witness :
  afs_step (TAppend 9 path_ab [4]) (ACode 1) (afs_of demo_fs) (afs_of (exec (TAppend 9 path_ab [4]) demo_fs).2).
Proof.
  assert ((exec (TAppend 9 path_ab [4]) demo_fs).1 = ACode 1) as <- by (vm_compute; reflexivity).
  apply (tmpfs_refines demo_fs (TAppend 9 path_ab [4])); [exact demo_fs_reachable|].
  split; [exact path_ab_ok|cbn; lia].
Defined.

Lemma demo_covers : covers (node_at demo_fs 2) 10.
Proof. unfold covers. vm_compute. split; [discriminate|reflexivity]. Qed.

Lemma tmpfs_frames_exact_witness :
  covers (node_at demo_fs 2) 10 ∧ ∀ g, foreign (exec (TUnlink path_ab) demo_fs).2 g ↔ foreign demo_fs g.
Proof.
  split; [exact demo_covers|].
  apply (tmpfs_frames_exact demo_fs (TUnlink path_ab)); [exact demo_fs_reachable|exact path_ab_ok].
Defined.

Lemma demo_used k : k = 1 ∨ k = 2 → in_use demo_fs k.
Proof. by intros [->| ->]; (split; [vm_compute; split; [discriminate|reflexivity]|vm_compute; reflexivity]). Qed.

Lemma tmpfs_walk_ends_witness : is_Some (ancestor_loop TMPFS_MAX_NODES demo_fs 1 2).
Proof.
  apply (tmpfs_walk_ends demo_fs 2 1); [exact demo_fs_reachable|apply demo_used; auto|apply demo_used; auto].
Defined.

Lemma tmpfs_write_read_witness :
  (exec (TRead 0 8) (exec (TOpen path_ab) (exec (TWrite 9 path_ab [5; 6]) demo_fs).2).2).1 = ABytes 2 [5; 6].
Proof.
  apply (tmpfs_write_read demo_fs 9 path_ab [5; 6] 0 8);
    [exact demo_fs_reachable|exact path_ab_ok|cbn; lia|split; lia|cbn; lia|vm_compute; reflexivity|vm_compute; reflexivity|lia].
Defined.

Lemma tmpfs_rename_dots_lost_witness :
  (exec (TRename path_a [DOT; DOT]) demo_fs).1 = ACode 0 ∧
  ∃ to, at_path (exec (TRename path_a [DOT; DOT]) demo_fs).2 (to ++ [[DOT; DOT]]) (Tmpfs.lookup demo_fs path_a).
Proof.
  destruct (tmpfs_rename_dots_lost demo_fs path_a demo_fs_reachable path_a_ok) as (E&to&H&_);
    [by vm_compute|by vm_compute|by vm_compute|]. split; [exact E|]. by exists to.
Defined.
