(* ===== verification/Vfs.v ===== *)
(** * The virtual file system core (src/src/fs/vfs.c)

    Paths are resolved by the aliases of [Alias] and the mount table of [Mount]
    to a file system and a path within it; permissions are those of [Perm] or of
    the file system itself; handles are the descriptors [Ofd] holds.  The file
    systems, known by the address of their table of functions, and the other
    components the calls reach are an interface, [World].

    A call that fills in a structure or a buffer answers its status and the
    contents.  Pointers that callers check before the call are not null. *)

From S2P Require Import Prelude State Errno Cstr Path Alias Mount Perm.

(** ** What the core calls *)

(** A table of functions of a file system; a function that is missing is a null
    pointer.  The first argument is the context of the mount, paths are within
    the file system.
    [src/fs/vfs_ops.h:10-44] vfs_fs_ops *)
Record fs_table (W : Type) := FsTable {
  f_map : option (Z → list Z → W → Z * list Z);
  f_open : option (Z → list Z → W → Z * W);
  f_read : option (Z → Z → Z → W → (Z * list Z) * W);
  f_seek : option (Z → Z → Z → Z → W → Z * W);
  f_close : option (Z → Z → W → Z * W);
  f_stat : option (Z → list Z → W → (Z * file_stat_info) * W);
  f_list : option (Z → list Z → Z → W → (Z * list directory_entry) * W);
  f_list_long : option (Z → list Z → Z → W → (Z * list directory_entry) * W);
  f_create_file : option (Z → list Z → W → Z * W);
  f_create_directory : option (Z → list Z → W → Z * W);
  f_unlink : option (Z → list Z → W → Z * W);
  f_rename : option (Z → list Z → list Z → W → Z * W);
  f_move : option (Z → list Z → list Z → W → Z * W);
  f_write_file : option (Z → list Z → list Z → W → Z * W);
  f_append_file : option (Z → list Z → list Z → W → Z * W);
  f_stat_ex : option (Z → list Z → W → (Z * file_stat_ex) * W);
  f_get_meta : option (Z → list Z → W → (Z * vfs_perm_meta) * W);
  f_set_meta : option (Z → list Z → vfs_perm_meta → W → Z * W);
  f_is_ready : option (Z → W → bool);
}.
Arguments FsTable {W}.
Arguments f_map {W}. Arguments f_open {W}. Arguments f_read {W}. Arguments f_seek {W}.
Arguments f_close {W}. Arguments f_stat {W}. Arguments f_list {W}. Arguments f_list_long {W}.
Arguments f_create_file {W}. Arguments f_create_directory {W}. Arguments f_unlink {W}.
Arguments f_rename {W}. Arguments f_move {W}. Arguments f_write_file {W}. Arguments f_append_file {W}.
Arguments f_stat_ex {W}. Arguments f_get_meta {W}. Arguments f_set_meta {W}. Arguments f_is_ready {W}.
Definition no_fs {W} : fs_table W :=
  FsTable None None None None None None None None None None None None None None None None None None None.

(** The fields of [storage_device_info] the raw log looks at. *)
Record device_info := DeviceInfo { d_selected : bool; d_sector_count : Z }.

(** The file systems and the components behind them: page runs (pmm.c), the
    kernel log (klog.c), the boot image (initramfs.c), ext2 and the selected
    block device. *)
Class World (W : Type) := {
  fs_at : Z → fs_table W;
  vfs_tmpfs_create : W → Z * W;
  pmm_is_ready : W → bool;
  pmm_allocate_contiguous : Z → W → Z * W;
  pmm_free_contiguous : Z → Z → W → unit * W;
  klog_total_bytes : W → Z;
  klog_read_since : Z → Z → W → list Z * Z * bool;
  klog_mount : list Z → list Z → list Z → bool → W → unit * W;
  initramfs_is_mounted : W → bool;
  initramfs_find : list Z → W → option (list Z);
  initramfs_mount : W → bool * W;
  ext2_is_mounted : W → bool;
  ext2_init : W → bool * W;
  ext2_device_name : W → list Z;
  ext2_write_file : list Z → list Z → W → Z * W;
  ext2_append_file : list Z → list Z → W → Z * W;
  block_device_count : W → Z;
  block_device_get_info : Z → W → option device_info;
  block_device_read : Z → W → option (list Z);
  block_device_write : Z → list Z → W → bool * W;
}.

(** The tables of vfs_backends.h, at distinct addresses. *)
Definition vfs_ext2_ops : vfs_fs_ops := FsOps 1 (text "ext2").
Definition vfs_initramfs_ops : vfs_fs_ops := FsOps 2 (text "initramfs").
Definition vfs_kernelfs_ops : vfs_fs_ops := FsOps 3 (text "kernelfs").
Definition vfs_devfs_ops : vfs_fs_ops := FsOps 4 (text "devfs").
Definition vfs_procfs_ops : vfs_fs_ops := FsOps 5 (text "proc").
Definition vfs_sysfs_ops : vfs_fs_ops := FsOps 6 (text "sysfs").
Definition vfs_tmpfs_ops : vfs_fs_ops := FsOps 7 (text "tmpfs").

(** ** Data *)

(** [src/fs/vfs.h:13-13] VFS_FD_BASE *)
Definition VFS_FD_BASE : Z := 3.
(** [src/fs/vfs.h:15-15] VFS_FS_EXT2 *)
Definition VFS_FS_EXT2 : Z := 1.
(** [src/fs/vfs.h:16-16] VFS_FS_INITRAMFS *)
Definition VFS_FS_INITRAMFS : Z := 2.
(** [src/fs/vfs.h:17-17] VFS_FS_AUTO *)
Definition VFS_FS_AUTO : Z := 255.
(** [src/fs/vfs.c:23-23] VFS_HANDLE_INITIAL *)
Definition VFS_HANDLE_INITIAL : Z := 32.
(** [src/fs/vfs.c:24-24] VFS_KLOG_WINDOW *)
Definition VFS_KLOG_WINDOW : Z := 8 * 1024 * 1024.

(** [src/fs/vfs.c:26-32] vfs_handle_type *)
Inductive vfs_handle_type :=
| VFS_HANDLE_NONE | VFS_HANDLE_BACKEND | VFS_HANDLE_MEMORY | VFS_HANDLE_KLOG | VFS_HANDLE_WRITABLE.
#[export] Instance handle_type_eq_dec : EqDecision vfs_handle_type.
Proof. solve_decision. Defined.

(** The mount is the index of its slot; the data is memory that never changes,
    so it stands for the pointer to it.
    [src/fs/vfs.c:37-49] vfs_handle *)
Record vfs_handle := VfsHandle {
  h_type : vfs_handle_type;
  h_backend_descriptor : Z;
  h_mount : Z;
  h_data : list Z;
  h_size : Z;
  h_position : Z;
  h_klog_cursor : Z;
  h_klog_data_lost : bool;
  h_refs : Z;
  h_wflags : Z;
  h_path : list Z;
}.
#[export] Instance eta_handle : Eta vfs_handle := λ h,
  VfsHandle (h_type h) (h_backend_descriptor h) (h_mount h) (h_data h) (h_size h) (h_position h)
    (h_klog_cursor h) (h_klog_data_lost h) (h_refs h) (h_wflags h) (h_path h).
Definition handle_zero : vfs_handle := VfsHandle VFS_HANDLE_NONE 0 0 [] 0 0 0 false 0 0 [].
(** With the alignment of its eight-byte fields. *)
Definition SIZEOF_HANDLE : Z := 568.

(** [src/fs/vfs.c:51-56] vfs_resolved *)
Record vfs_resolved := Resolved { r_mount : Z; r_relative : list Z; r_path : list Z }.

(** The static state of the file and of the mount and permission tables, the
    user of the calling process, and the world.
    [src/fs/vfs.c:34-35] mounts_ready *)
Record vfs {W : Type} := Vfs {
  v_active_fs : Z;
  v_mounts_ready : bool;
  v_live_mode : bool;
  v_tmpfs_synced : bool;
  v_handles : list vfs_handle;
  v_handles_phys : Z;
  v_handles_pages : Z;
  v_raw_log_base_lba : Z;
  v_raw_log_next_sector : Z;
  v_raw_log_inited : bool;
  v_mounts : list vfs_mount;
  v_perms : perm_table;
  v_uid : Z;
  v_gid : Z;
  v_world : W;
}.
Arguments vfs : clear implicits.
#[export] Instance eta_vfs {W} : Eta (vfs W) := λ v,
  Vfs W (v_active_fs v) (v_mounts_ready v) (v_live_mode v) (v_tmpfs_synced v) (v_handles v)
    (v_handles_phys v) (v_handles_pages v) (v_raw_log_base_lba v) (v_raw_log_next_sector v)
    (v_raw_log_inited v) (v_mounts v) (v_perms v) (v_uid v) (v_gid v) (v_world v).

(** Before the first call. *)
Definition vfs_boot {W} (uid gid : Z) (w : W) : vfs W :=
  Vfs W VFS_FS_EXT2 false false false [] 0 0 0 0 false mounts_init perm_init uid gid w.

#[export] Instance err_stat : Err (Z * file_stat_info) := λ e, (e, stat_zero).
#[export] Instance err_stat_ex : Err (Z * file_stat_ex) := λ e, (e, stat_ex_zero).

Section Core.
Context {W : Type} `{World W}.
Implicit Types v : vfs W.
Abbreviation call := (st (vfs W)).

(** A call of the world. *)
Definition on_world {A} (f : W → A * W) : call A :=
  λ v, let '(x, w) := f (v_world v) in (x, v <| v_world := w |>).
Definition from_world {A} (f : W → A) : call A := gets (λ v, f (v_world v)).
(** Calls of the mount and the permission table. *)
Definition on_mounts (f : list vfs_mount → Z * list vfs_mount) : call Z :=
  λ v, let '(x, ms) := f (v_mounts v) in (x, v <| v_mounts := ms |>).
Definition on_perms (f : perm_table → Z * perm_table) : call Z :=
  λ v, let '(x, t) := f (v_perms v) in (x, v <| v_perms := t |>).

(** The functions of the file system mounted at a slot. *)
Definition ops_of (m : vfs_mount) : fs_table W :=
  match m_ops m with Some o => fs_at (ops_address o) | None => no_fs end.
Definition ops_at v (slot : Z) : fs_table W := ops_of (slot_at (v_mounts v) slot).
Definition context_at v (slot : Z) : Z := m_context (slot_at (v_mounts v) slot).

(** ** Mounts *)

(** [src/fs/vfs.c:151-157] log_mount *)
Definition log_mount (path : list Z) : call unit :=
  found ← gets (λ v, vfs_mount_at (v_mounts v) path);
  match found with
  | None => mret tt
  | Some i =>
      m ← gets (λ v, slot_at (v_mounts v) i);
      on_world (klog_mount (m_source m) (m_path m) (default [] (ops_name <$> m_ops m))
                  (negb (Z.land (m_flags m) VFS_MOUNT_READ_ONLY =? 0)))
  end.

(** [for (i = 0; seed && seed[i]; i++) create_directory(instance, seed[i])].
    [src/fs/vfs.c:97-98] mount_tmpfs *)
Fixpoint seed_directories (instance : Z) (seed : list (list Z)) : call unit :=
  match seed with
  | [] => mret tt
  | name :: seed' =>
      _ ← match f_create_directory (fs_at (ops_address vfs_tmpfs_ops)) with
          | Some create_directory => on_world (create_directory instance name)
          | None => mret 0
          end;
      seed_directories instance seed'
  end.

(** 01777. *)
Definition shared_meta : vfs_perm_meta := PermMeta 1023 0 0.

(** [src/fs/vfs.c:89-104] mount_tmpfs *)
Definition mount_tmpfs (path : list Z) (seed : list (list Z)) : call unit :=
  found ← gets (λ v, vfs_mount_at (v_mounts v) path);
  if bool_decide (is_Some found) then mret tt else
  instance ← on_world vfs_tmpfs_create;
  if instance =? 0 then mret tt else
  status ← on_mounts (vfs_mount_add (Some path) (Some vfs_tmpfs_ops) instance (Some (text "tmpfs")) 0);
  if status <? 0 then mret tt else
  _ ← seed_directories instance seed;
  _ ← log_mount path;
  if text_equal path (text "/tmp") || text_equal path (text "/run")
  then _ ← on_perms (vfs_perm_set (Some path) (Some shared_meta)); mret tt
  else mret tt.

(** [src/fs/vfs.c:106-110] unmount_live_tmpfs *)
Definition unmount_live_tmpfs (path : list Z) : call unit :=
  found ← gets (λ v, vfs_mount_at (v_mounts v) path);
  match found with
  | None => mret tt
  | Some i =>
      m ← gets (λ v, slot_at (v_mounts v) i);
      if bool_decide (ops_address <$> m_ops m = Some (ops_address vfs_tmpfs_ops))
      then _ ← on_mounts (vfs_mount_remove (Some path)); mret tt
      else mret tt
  end.

(** [src/fs/vfs.c:119-119] sync_tmpfs_mounts *)
Definition var_seed : list (list Z) := [text "/log"; text "/tmp"; text "/cache"].

(** [src/fs/vfs.c:112-128] sync_tmpfs_mounts *)
Definition sync_tmpfs_mounts : call unit :=
  v ← gets id;
  if v_tmpfs_synced v || negb (pmm_is_ready (v_world v)) then mret tt else
  _ ← modify (λ v, v <| v_tmpfs_synced := true |>);
  _ ← mount_tmpfs (text "/tmp") [];
  _ ← mount_tmpfs (text "/run") [];
  if v_live_mode v then
    _ ← mount_tmpfs (text "/var") var_seed;
    _ ← mount_tmpfs (text "/home") [];
    mount_tmpfs (text "/root") []
  else
    _ ← unmount_live_tmpfs (text "/var");
    _ ← unmount_live_tmpfs (text "/home");
    unmount_live_tmpfs (text "/root").

(** [vfs_mount_replace(path, ops, 0, source, flags)], its result dropped. *)
Definition mount_replace (path : list Z) (ops : vfs_fs_ops) (source : list Z) (flags : Z) : call unit :=
  _ ← on_mounts (vfs_mount_replace (Some path) (Some ops) 0 (Some source) flags); mret tt.

(** [src/fs/vfs.c:130-149] ensure_mounts *)
Definition ensure_mounts : call unit :=
  ready ← gets v_mounts_ready;
  if ready : bool then sync_tmpfs_mounts else
  _ ← modify (λ v, v <| v_mounts_ready := true |>);
  _ ← mount_replace (text "/") vfs_ext2_ops (text "ext2") 0;
  _ ← mount_replace (text "/kernel") vfs_kernelfs_ops (text "kernelfs") VFS_MOUNT_READ_ONLY;
  _ ← mount_replace (text "/dev") vfs_devfs_ops (text "devfs") 0;
  _ ← mount_replace (text "/proc") vfs_procfs_ops (text "proc") VFS_MOUNT_READ_ONLY;
  _ ← mount_replace (text "/sys") vfs_sysfs_ops (text "sysfs") VFS_MOUNT_READ_ONLY;
  _ ← log_mount (text "/kernel");
  _ ← log_mount (text "/dev");
  _ ← log_mount (text "/proc");
  _ ← log_mount (text "/sys");
  sync_tmpfs_mounts.

(** [src/fs/vfs.c:159-172] set_root_ops *)
Definition set_root_ops (fs_type : Z) : call unit :=
  _ ← ensure_mounts;
  _ ← modify (λ v, v <| v_active_fs := fs_type |> <| v_live_mode := fs_type =? VFS_FS_INITRAMFS |>
                     <| v_tmpfs_synced := false |>);
  _ ← (if fs_type =? VFS_FS_INITRAMFS
       then mount_replace (text "/") vfs_initramfs_ops (text "initramfs") VFS_MOUNT_READ_ONLY
       else name ← from_world (λ w, if ext2_is_mounted w then ext2_device_name w else text "ext2");
            mount_replace (text "/") vfs_ext2_ops name 0);
  _ ← log_mount (text "/");
  sync_tmpfs_mounts.

(** [src/fs/vfs.c:174-191] resolve *)
Definition resolve (input : list Z) : call (Z + vfs_resolved) :=
  _ ← ensure_mounts;
  if aget 0 input 0 =? 0 then mret (inl FS_ERROR_INVALID) else
  let relative := negb (aget 0 input 0 =? SLASH) in
  if relative && (VFS_PATH_MAX <? length_of input + 2) then mret (inl FS_ERROR_INVALID) else
  let input := if relative then SLASH :: input else input in
  match vfs_alias_resolve input VFS_PATH_MAX with
  | None => mret (inl FS_ERROR_INVALID)
  | Some (status, path) =>
      if status <? 0 then mret (inl FS_ERROR_INVALID) else
      found ← gets (λ v, vfs_mount_find (v_mounts v) path true 2);
      match found with
      | Some (mount, Some relative) => mret (inr (Resolved mount relative path))
      | _ => mret (inl FS_ERROR_NOT_FOUND)
      end
  end.

(** [src/fs/vfs.c:193-194] virtual_dirs *)
Definition virtual_dirs : list (list Z) :=
  [text "/mnt"; text "/opt"; text "/srv"; text "/usr/local"; text "/usr/local/bin"; text "/lost+found"].

(** [src/fs/vfs.c:198-205] is_virtual_dir *)
Definition is_virtual_dir v (path : list Z) : bool :=
  v_live_mode v && existsb (text_equal path) virtual_dirs.

(** [src/fs/vfs.c:213-218] virtual_children *)
Fixpoint virtual_loop (directory : list Z) (capacity : Z) (dirs names : list (list Z)) : list (list Z) :=
  match dirs with
  | [] => names
  | d :: dirs' =>
      if negb (Z.of_nat (length names) <? capacity) then names
      else
        let '(status, parent) := vfs_path_parent d VFS_PATH_MAX in
        if status <? 0 then virtual_loop directory capacity dirs' names
        else virtual_loop directory capacity dirs'
               (if text_equal parent directory then names ++ [vfs_path_basename d] else names)
  end.
(** [src/fs/vfs.c:207-220] virtual_children *)
Definition virtual_children v (directory : list Z) (capacity : Z) : list (list Z) :=
  if negb (v_live_mode v) then [] else virtual_loop directory capacity virtual_dirs [].

(** The text as far as it fits, and then as in vfs_path_parent; an empty result
    becomes the root.
    [src/fs/vfs.c:224-241] parent_of *)
Definition parent_of (path : list Z) (capacity : Z) : list Z :=
  let out := if capacity <=? length_of path then take (Z.to_nat (capacity - 1)) path else path in
  let out := take (back_over_slashes out (length out)) out in
  let n := back_to_slash out (length out) in
  let n := if 1 <? Z.of_nat n then (n - 1)%nat else n in
  let out := take n out in
  if aget 0 out 0 =? 0 then [SLASH] else out.

(** ** Permissions *)

(** [src/fs/vfs.c:318-320] mount_ready *)
Definition mount_ready v (slot : Z) : bool :=
  match f_is_ready (ops_at v slot) with
  | None => true
  | Some is_ready => is_ready (context_at v slot) (v_world v)
  end.

(** The slot and the path within it, if its file system keeps permissions.
    [src/fs/vfs.c:243-250] meta_mount *)
Definition meta_mount v (path : list Z) : option (Z * list Z) :=
  match vfs_mount_find (v_mounts v) path true 2 with
  | Some (mount, Some relative) =>
      match f_get_meta (ops_at v mount), f_set_meta (ops_at v mount) with
      | Some _, Some _ => if mount_ready v mount then Some (mount, relative) else None
      | _, _ => None
      end
  | _ => None
  end.

(** [src/fs/vfs.c:252-261] effective_meta *)
Definition effective_meta (path : list Z) (directory : bool) : call vfs_perm_meta :=
  v ← gets id;
  let fallback := default (vfs_perm_default directory) (vfs_perm_get (v_perms v) path) in
  match meta_mount v path with
  | Some (mount, relative) =>
      match f_get_meta (ops_at v mount) with
      | Some get_meta =>
          r ← on_world (get_meta (context_at v mount) relative);
          mret (if 0 <=? r.1 then r.2 else fallback)
      | None => mret fallback
      end
  | None => mret fallback
  end.

(** [src/fs/vfs.c:263-270] store_meta *)
Definition store_meta (path : list Z) (meta : vfs_perm_meta) : call Z :=
  v ← gets id;
  match meta_mount v path with
  | Some (mount, relative) =>
      if Z.land (m_flags (slot_at (v_mounts v) mount)) VFS_MOUNT_READ_ONLY =? 0 then
        match f_set_meta (ops_at v mount) with
        | Some set_meta => on_world (set_meta (context_at v mount) relative meta)
        | None => on_perms (vfs_perm_set (Some path) (Some meta))
        end
      else on_perms (vfs_perm_set (Some path) (Some meta))
  | None => on_perms (vfs_perm_set (Some path) (Some meta))
  end.

(** [src/fs/vfs.c:272-281] check_access *)
Definition check_access (path : list Z) (directory : bool) (want : Z) : call Z :=
  uid ← gets v_uid;
  if uid =? 0 then mret 0 else
  meta ← effective_meta path directory;
  gid ← gets v_gid;
  mret (if vfs_perm_allowed uid gid meta want then 0 else FS_ERROR_DENIED).

(** [src/fs/vfs.c:283-287] check_parent_write *)
Definition check_parent_write (path : list Z) : call Z :=
  check_access (parent_of path VFS_PATH_MAX) true VFS_PERM_W.

(** [ops->stat] of a slot that is ready. *)
Definition stat_of (mount : Z) (relative : list Z) : call (option (Z * file_stat_info)) :=
  v ← gets id;
  match f_stat (ops_at v mount) with
  | Some stat =>
      if mount_ready v mount then r ← on_world (stat (context_at v mount) relative); mret (Some r)
      else mret None
  | None => mret None
  end.

(** [src/fs/vfs.c:289-294] path_exists *)
Definition path_exists (r : vfs_resolved) : call bool :=
  s ← stat_of (r_mount r) (r_relative r);
  mret (match s with Some (status, _) => 0 <=? status | None => false end).

(** [src/fs/vfs.c:296-305] own_created *)
Definition own_created (path : list Z) (directory : bool) : call unit :=
  uid ← gets v_uid;
  if uid =? 0 then mret tt else
  gid ← gets v_gid;
  _ ← store_meta path ((vfs_perm_default directory) <| pm_uid := uid |> <| pm_gid := gid |>);
  mret tt.

(** The status, and whether the file has to be created.
    [src/fs/vfs.c:307-316] check_write_target *)
Definition check_write_target (r : vfs_resolved) : call (Z + bool) :=
  uid ← gets v_uid;
  if uid =? 0 then mret (inr false) else
  exists_ ← path_exists r;
  if exists_ : bool then check_access (r_path r) false VFS_PERM_W ;;? mret (inr false)
  else check_parent_write (r_path r) ;;? mret (inr true).

(** [op] tells whether the function is there.
    [src/fs/vfs.c:322-328] check_mutation *)
Definition check_mutation v (mount : Z) (op : bool) : Z :=
  if negb (Z.land (m_flags (slot_at (v_mounts v) mount)) VFS_MOUNT_READ_ONLY =? 0) then FS_ERROR_READ_ONLY
  else if negb op || negb (mount_ready v mount) then FS_ERROR_UNSUPPORTED
  else 0.

(** [src/fs/vfs.c:330-333] is_klog_path *)
Definition is_klog_path (path : list Z) : bool :=
  text_equal path (text "/kernel.log") || text_equal path (text "/dmesg.txt").

(** [src/fs/vfs.c:335-337] overlay_find *)
Definition overlay_find (w : W) (path : list Z) : option (list Z) :=
  if initramfs_is_mounted w then initramfs_find path w else None.

(** [src/fs/vfs.c:339-342] klog_visible_size *)
Definition klog_visible_size (w : W) : Z :=
  let total := klog_total_bytes w in if VFS_KLOG_WINDOW <? total then VFS_KLOG_WINDOW else u32 total.

(** ** The table of handles *)

Definition handles_capacity v : Z := Z.of_nat (length (v_handles v)).
Definition handle_at v (i : Z) : vfs_handle := aget handle_zero (v_handles v) i.
Definition put_handle (i : Z) (h : vfs_handle) : call unit :=
  modify (λ v, v <| v_handles := aset (v_handles v) i h |>).

(** [src/fs/vfs.c:348-371] handles_ensure *)
Definition handles_ensure (want : Z) : call bool :=
  v ← gets id;
  let capacity := handles_capacity v in
  if want <? capacity then mret true else
  let grown := if negb (capacity =? 0) then u32 (capacity * 2) else VFS_HANDLE_INITIAL in
  let grown := if grown <? want then want else grown in
  if 2 ^ 20 <? grown then mret false else
  let pages := (grown * SIZEOF_HANDLE + 4095) / 4096 in
  phys ← on_world (pmm_allocate_contiguous pages);
  if phys =? 0 then mret false else
  _ ← (if negb (v_handles_phys v =? 0)
       then on_world (pmm_free_contiguous (v_handles_phys v) (v_handles_pages v)) else mret tt);
  let capacity' := u32 (pages * 4096 / SIZEOF_HANDLE) in
  _ ← modify (λ v, v <| v_handles := v_handles v ++ replicate (Z.to_nat (capacity' - capacity)) handle_zero |>
                     <| v_handles_phys := phys |> <| v_handles_pages := pages |>);
  mret true.

(** [src/fs/vfs.c:373-381] allocate_handle *)
Definition allocate_handle : call (Z + Z) :=
  v ← gets id;
  match for_first (λ i, bool_decide (h_type (handle_at v i) = VFS_HANDLE_NONE)) (length (v_handles v)) 0 with
  | Some i => mret (inr i)
  | None =>
      let at_ := handles_capacity v in
      ok ← handles_ensure (at_ + 1);
      mret (if ok : bool then inr at_ else inl FS_ERROR_NO_SPACE)
  end.

(** The slot of an open handle.  The subtraction does not overflow for the
    descriptors the kernel hands out.
    [src/fs/vfs.c:383-390] get_handle *)
Definition get_handle v (descriptor : Z) : option (Z * vfs_handle) :=
  let idx := descriptor - VFS_FD_BASE in
  if (idx <? 0) || (handles_capacity v <=? idx) then None
  else if bool_decide (h_type (handle_at v idx) = VFS_HANDLE_NONE) then None
  else Some (idx, handle_at v idx).

(** ** The root *)

(** [src/fs/vfs.c:392-399] vfs_fs_type_name *)
Definition vfs_fs_type_name (fs_type : Z) : list Z :=
  if fs_type =? VFS_FS_EXT2 then text "ext2"
  else if fs_type =? VFS_FS_INITRAMFS then text "initramfs" else text "unknown".
(** [src/fs/vfs.c:401-404] vfs_root_fs_type *)
Definition vfs_root_fs_type v : Z := v_active_fs v.
(** [src/fs/vfs.c:406-409] vfs_set_active_fs *)
Definition vfs_set_active_fs (fs_type : Z) : call unit := set_root_ops fs_type.
(** [src/fs/vfs.c:424-433] vfs_mount_root_with_fs *)
Definition vfs_mount_root_with_fs (fs_type : Z) : call bool :=
  if negb (fs_type =? VFS_FS_EXT2) && negb (fs_type =? VFS_FS_AUTO) then mret false else
  ok ← on_world ext2_init;
  if ok : bool then _ ← set_root_ops VFS_FS_EXT2; mret true else mret false.
(** [src/fs/vfs.c:411-414] vfs_mount_root *)
Definition vfs_mount_root : call bool := vfs_mount_root_with_fs VFS_FS_AUTO.
(** [src/fs/vfs.c:416-422] vfs_mount_initramfs *)
Definition vfs_mount_initramfs : call bool :=
  ok ← on_world initramfs_mount;
  if ok : bool then _ ← set_root_ops VFS_FS_INITRAMFS; mret true else mret false.
(** [src/fs/vfs.c:435-440] vfs_is_root_mounted *)
Definition vfs_is_root_mounted v : bool :=
  if v_active_fs v =? VFS_FS_INITRAMFS then initramfs_is_mounted (v_world v) else ext2_is_mounted (v_world v).
(** [src/fs/vfs.c:442-447] vfs_root_device_name *)
Definition vfs_root_device_name v : list Z :=
  if v_active_fs v =? VFS_FS_INITRAMFS then text "initramfs" else ext2_device_name (v_world v).

(** ** Information *)

(** [src/fs/vfs.c:827-859] vfs_stat *)
Definition vfs_stat (path : list Z) : call (Z * file_stat_info) :=
  r ←? resolve path;
  v ← gets id;
  if is_klog_path (r_path r) then mret (0, FileStatInfo (klog_total_bytes (v_world v)) 0 0) else
  match overlay_find (v_world v) (r_path r) with
  | Some data => mret (0, FileStatInfo (Z.of_nat (length data)) 0 0)
  | None =>
      s ← stat_of (r_mount r) (r_relative r);
      let result := default (FS_ERROR_NOT_FOUND, stat_zero) s in
      if (result.1 <? 0) && is_virtual_dir v (r_path r) then mret (0, FileStatInfo 0 1 FS_NODE_FILE)
      else mret result
  end.

(** ** Opening and closing *)

(** A handle with its count, without a backend.
    [src/fs/vfs.c:462-465] vfs_open *)
Definition fresh_handle (path : list Z) : vfs_handle :=
  handle_zero <| h_refs := 1 |> <| h_backend_descriptor := -1 |> <| h_path := Cstr.copy_text path VFS_PATH_MAX |>.

(** The memory a file system maps a path to.
    [src/fs/vfs.c:481-482] vfs_open *)
Definition map_of v (mount : Z) (relative : list Z) : option (list Z) :=
  match f_map (ops_at v mount) with
  | Some map => let '(status, data) := map (context_at v mount) relative (v_world v) in
                if status =? 0 then Some data else None
  | None => None
  end.

(** [src/fs/vfs.c:488-490] vfs_open *)
Definition open_of (mount : Z) (relative : list Z) : call Z :=
  v ← gets id;
  match f_open (ops_at v mount) with
  | Some open =>
      if mount_ready v mount then on_world (open (context_at v mount) relative) else mret FS_ERROR_NOT_FOUND
  | None => mret FS_ERROR_NOT_FOUND
  end.

(** [src/fs/vfs.c:449-499] vfs_open *)
Definition vfs_open (path : list Z) : call Z :=
  r ←? resolve path;
  check_access (r_path r) false VFS_PERM_R ;;?
  idx ←? allocate_handle;
  let h := fresh_handle (r_path r) in
  v ← gets id;
  if is_klog_path (r_path r) then
    let total := klog_total_bytes (v_world v) in
    _ ← put_handle idx (h <| h_type := VFS_HANDLE_KLOG |>
          <| h_klog_cursor := if VFS_KLOG_WINDOW <? total then total - VFS_KLOG_WINDOW else 0 |>);
    mret (VFS_FD_BASE + idx)
  else
  let memory data :=
    _ ← put_handle idx (h <| h_type := VFS_HANDLE_MEMORY |> <| h_data := data |>
                          <| h_size := Z.of_nat (length data) |>);
    mret (VFS_FD_BASE + idx) in
  match overlay_find (v_world v) (r_path r) with
  | Some data => memory data
  | None =>
      match map_of v (r_mount r) (r_relative r) with
      | Some data => memory data
      | None =>
          _ ← put_handle idx h;
          backend ← open_of (r_mount r) (r_relative r);
          if backend <? 0 then _ ← put_handle idx handle_zero; mret backend
          else
            _ ← put_handle idx (h <| h_type := VFS_HANDLE_BACKEND |> <| h_backend_descriptor := backend |>
                                  <| h_mount := r_mount r |>);
            mret (VFS_FD_BASE + idx)
      end
  end.

(** [src/fs/vfs.c:759-761] vfs_close *)
Definition close_of (h : vfs_handle) : call Z :=
  v ← gets id;
  match h_type h, f_close (ops_at v (h_mount h)) with
  | VFS_HANDLE_BACKEND, Some close => on_world (close (context_at v (h_mount h)) (h_backend_descriptor h))
  | _, _ => mret 0
  end.

(** [src/fs/vfs.c:750-764] vfs_close *)
Definition vfs_close (descriptor : Z) : call Z :=
  v ← gets id;
  match get_handle v descriptor with
  | None => mret FS_ERROR_INVALID
  | Some (i, h) =>
      if 1 <? h_refs h then _ ← put_handle i (h <| h_refs := u32 (h_refs h - 1) |>); mret 0 else
      r ← close_of h;
      _ ← put_handle i handle_zero;
      mret r
  end.

(** [src/fs/vfs.c:741-748] vfs_ref *)
Definition vfs_ref (descriptor : Z) : call Z :=
  v ← gets id;
  match get_handle v descriptor with
  | None => mret FS_ERROR_INVALID
  | Some (i, h) =>
      if h_refs h =? UINT32_MAX then mret FS_ERROR_INVALID
      else _ ← put_handle i (h <| h_refs := u32 (h_refs h + 1) |>); mret 0
  end.

(** [src/fs/vfs.c:729-739] vfs_handle_path *)
Definition vfs_handle_path v (descriptor capacity : Z) : Z * list Z :=
  match get_handle v descriptor with
  | None => (FS_ERROR_INVALID, [])
  | Some (_, h) =>
      if (aget 0 (h_path h) 0 =? 0) || (capacity =? 0) then (FS_ERROR_INVALID, [])
      else if capacity <? length_of (h_path h) + 1 then (FS_ERROR_INVALID, [])
      else (i32 (length_of (h_path h)), h_path h)
  end.

(** [src/fs/vfs.c:716-727] vfs_handle_stat *)
Definition vfs_handle_stat (descriptor : Z) : call (Z * file_stat_info) :=
  v ← gets id;
  match get_handle v descriptor with
  | None => mret (err FS_ERROR_INVALID)
  | Some (_, h) =>
      if aget 0 (h_path h) 0 =? 0 then mret (err FS_ERROR_INVALID)
      else vfs_stat (Cstr.copy_text (h_path h) VFS_PATH_MAX)
  end.

(** A position within 32 bits.
    [src/fs/vfs.c:823-823] vfs_seek *)
Definition clamp_position (target : Z) : Z := if 4294967295 <? target then 4294967295 else target.

(** The sums of two [int64_t] are modulo 2^64, as the processor adds.
    [src/fs/vfs.c:766-825] vfs_seek *)
Definition vfs_seek (descriptor offset whence : Z) : call Z :=
  if negb (whence =? SEEK_SET) && negb (whence =? SEEK_CUR) && negb (whence =? SEEK_END)
  then mret FS_ERROR_INVALID else
  v ← gets id;
  match get_handle v descriptor with
  | None => mret FS_ERROR_INVALID
  | Some (i, h) =>
      let move base :=
        let target := i64 (base + offset) in
        if target <? 0 then mret FS_ERROR_INVALID
        else _ ← put_handle i (h <| h_position := clamp_position target |>); mret (clamp_position target) in
      match h_type h with
      | VFS_HANDLE_WRITABLE =>
          if whence =? SEEK_CUR then move (h_position h)
          else if whence =? SEEK_END then
            s ← vfs_stat (Cstr.copy_text (h_path h) VFS_PATH_MAX);
            move (if 0 <=? s.1 then size s.2 else 0)
          else move 0
      | VFS_HANDLE_BACKEND =>
          match f_seek (ops_at v (h_mount h)) with
          | None => mret FS_ERROR_UNSUPPORTED
          | Some seek => on_world (seek (context_at v (h_mount h)) (h_backend_descriptor h) offset whence)
          end
      | VFS_HANDLE_KLOG =>
          let total := klog_total_bytes (v_world v) in
          let base := if whence =? SEEK_CUR then i64 (h_klog_cursor h) else if whence =? SEEK_END then i64 total else 0 in
          let target := i64 (base + offset) in
          let target := if target <? 0 then 0 else target in
          let target := if total <? target then total else target in
          _ ← put_handle i (h <| h_klog_cursor := target |>); mret target
      | _ =>
          move (if whence =? SEEK_CUR then h_position h else if whence =? SEEK_END then h_size h else 0)
      end
  end.

(** [nested] is the call of the function in itself, for the temporary handle of a
    file open for writing.
    [src/fs/vfs.c:501-547] vfs_read *)
Definition read_with (nested : Z → Z → call (Z * list Z)) (descriptor count : Z) : call (Z * list Z) :=
  v ← gets id;
  match get_handle v descriptor with
  | None => mret (FS_ERROR_INVALID, [])
  | Some (i, h) =>
      match h_type h with
      | VFS_HANDLE_WRITABLE =>
          if Z.land (h_wflags h) 2 =? 0 then mret (FS_ERROR_UNSUPPORTED, []) else
          temporary ← vfs_open (Cstr.copy_text (h_path h) VFS_PATH_MAX);
          if temporary <? 0 then mret (temporary, []) else
          _ ← vfs_seek temporary (h_position h) SEEK_SET;
          got ← nested temporary count;
          _ ← vfs_close temporary;
          v ← gets id;
          _ ← (match get_handle v descriptor with
               | Some (i, h) =>
                   if 0 <? got.1 then put_handle i (h <| h_position := u32 (h_position h + got.1) |>) else mret tt
               | None => mret tt
               end);
          mret got
      | VFS_HANDLE_BACKEND =>
          match f_read (ops_at v (h_mount h)) with
          | None => mret (FS_ERROR_UNSUPPORTED, [])
          | Some read => on_world (read (context_at v (h_mount h)) (h_backend_descriptor h) count)
          end
      | VFS_HANDLE_KLOG =>
          let '(out, cursor, lost) := klog_read_since (h_klog_cursor h) count (v_world v) in
          _ ← put_handle i (h <| h_klog_cursor := cursor |> <| h_klog_data_lost := lost |>);
          mret (i32 (Z.of_nat (length out)), out)
      | _ =>
          if h_size h <=? h_position h then mret (0, []) else
          let rem := u32 (h_size h - h_position h) in
          let amt := if count <? rem then count else rem in
          _ ← put_handle i (h <| h_position := u32 (h_position h + amt) |>);
          mret (i32 amt, take (Z.to_nat amt) (drop (Z.to_nat (h_position h)) (h_data h)))
      end
  end.

(** The temporary handle is none open for writing, so one level is enough.
    [src/fs/vfs.c:501-547] vfs_read *)
Definition vfs_read : Z → Z → call (Z * list Z) := read_with (read_with (λ _ _, mret (FS_ERROR_INVALID, []))).

(** ** Changing the tree *)

(** A parent and a name, if they fit.
    [src/fs/vfs.c:902-907] vfs_rename *)
Definition joined_path (parent name : list Z) : option (list Z) :=
  if length_of parent + length_of name + 2 <=? VFS_PATH_MAX
  then Some (parent ++ (if 1 <? length_of parent then [SLASH] else []) ++ name) else None.

(** [vfs_perm_rename] on the table of the state. *)
Definition perm_rename (from to : list Z) : call unit :=
  modify (λ v, v <| v_perms := vfs_perm_rename from to (v_perms v) |>).

(** [src/fs/vfs.c:861-880] vfs_delete *)
Definition vfs_delete (path : list Z) : call Z :=
  r ←? resolve path;
  v ← gets id;
  if bool_decide (is_Some (vfs_mount_at (v_mounts v) (r_path r))) then mret FS_ERROR_BUSY else
  let op := f_unlink (ops_at v (r_mount r)) in
  mret (check_mutation v (r_mount r) (bool_decide (is_Some op))) ;;?
  check_parent_write (r_path r) ;;?
  match op with
  | None => mret FS_ERROR_UNSUPPORTED
  | Some unlink =>
      status ← on_world (unlink (context_at v (r_mount r)) (r_relative r));
      _ ← (if 0 <=? status then modify (λ v, v <| v_perms := vfs_perm_forget (r_path r) (v_perms v) |>) else mret tt);
      mret status
  end.

(** [src/fs/vfs.c:882-912] vfs_rename *)
Definition vfs_rename (path new_name : list Z) : call Z :=
  r ←? resolve path;
  v ← gets id;
  if bool_decide (is_Some (vfs_mount_at (v_mounts v) (r_path r))) then mret FS_ERROR_BUSY else
  let op := f_rename (ops_at v (r_mount r)) in
  mret (check_mutation v (r_mount r) (bool_decide (is_Some op))) ;;?
  check_parent_write (r_path r) ;;?
  match op with
  | None => mret FS_ERROR_UNSUPPORTED
  | Some rename =>
      status ← on_world (rename (context_at v (r_mount r)) (r_relative r) new_name);
      _ ← (if 0 <=? status then
             match joined_path (parent_of (r_path r) VFS_PATH_MAX) new_name with
             | Some renamed => perm_rename (r_path r) renamed
             | None => mret tt
             end
           else mret tt);
      mret status
  end.

(** The text after the last slash.
    [src/fs/vfs.c:941-944] vfs_move *)
Fixpoint after_slash (base cursor : list Z) : list Z :=
  match cursor with
  | [] => base
  | c :: next => after_slash (if c =? SLASH then next else base) next
  end.

(** [src/fs/vfs.c:914-955] vfs_move *)
Definition vfs_move (path dest : list Z) : call Z :=
  source ←? resolve path;
  target ←? resolve dest;
  v ← gets id;
  if bool_decide (is_Some (vfs_mount_at (v_mounts v) (r_path source))) then mret FS_ERROR_BUSY else
  if negb (r_mount source =? r_mount target) then mret FS_ERROR_UNSUPPORTED else
  let op := f_move (ops_at v (r_mount source)) in
  mret (check_mutation v (r_mount source) (bool_decide (is_Some op))) ;;?
  check_parent_write (r_path source) ;;?
  check_access (r_path target) true VFS_PERM_W ;;?
  match op with
  | None => mret FS_ERROR_UNSUPPORTED
  | Some move =>
      status ← on_world (move (context_at v (r_mount source)) (r_relative source) (r_relative target));
      _ ← (if 0 <=? status then
             match joined_path (r_path target) (after_slash (r_path source) (r_path source)) with
             | Some moved => perm_rename (r_path source) moved
             | None => mret tt
             end
           else mret tt);
      mret status
  end.

(** The body of the two calls that create an entry, from the function of the
    file system on. *)
Definition create_checked (r : vfs_resolved) (op : option (Z → list Z → W → Z * W)) (directory : bool) : call Z :=
  v ← gets id;
  if bool_decide (is_Some (vfs_mount_at (v_mounts v) (r_path r))) then mret FS_ERROR_EXISTS else
  mret (check_mutation v (r_mount r) (bool_decide (is_Some op))) ;;?
  check_parent_write (r_path r) ;;?
  match op with
  | None => mret FS_ERROR_UNSUPPORTED
  | Some create =>
      status ← on_world (create (context_at v (r_mount r)) (r_relative r));
      _ ← (if 0 <=? status then own_created (r_path r) directory else mret tt);
      mret status
  end.

(** [src/fs/vfs.c:1063-1084] vfs_create_file *)
Definition vfs_create_file (path : list Z) : call Z :=
  r ←? resolve path;
  v ← gets id;
  if is_klog_path (r_path r) then mret 0
  else create_checked r (f_create_file (ops_at v (r_mount r))) false.

(** [src/fs/vfs.c:1156-1175] vfs_create_directory *)
Definition vfs_create_directory (path : list Z) : call Z :=
  r ←? resolve path;
  v ← gets id;
  create_checked r (f_create_directory (ops_at v (r_mount r))) true.

(** ** The log on the raw device *)

(** [src/fs/vfs.c:1382-1418] raw_log_init *)
Definition raw_log_init : call bool :=
  v ← gets id;
  if v_raw_log_inited v then mret true else
  let n := block_device_count (v_world v) in
  if n =? 0 then mret false else
  let selected i := match block_device_get_info i (v_world v) with Some info => d_selected info | None => false end in
  match block_device_get_info (default 0 (for_first selected (Z.to_nat n) 0)) (v_world v) with
  | None => mret false
  | Some info =>
      if d_sector_count info <? 4096 then mret false else
      let base := if d_sector_count info <? 1024 + 2048 then u32 (d_sector_count info - 2048) else 1024 in
      _ ← modify (λ v, v <| v_raw_log_base_lba := base |> <| v_raw_log_next_sector := 1 |>
                         <| v_raw_log_inited := true |>);
      _ ← on_world (block_device_write base (text "KLOG" ++ zeros 508));
      mret true
  end.

(** [src/fs/vfs.c:1420-1434] raw_log_truncate *)
Definition raw_log_truncate : call Z :=
  ok ← raw_log_init;
  if negb ok then mret FS_ERROR_INVALID else
  _ ← modify (λ v, v <| v_raw_log_next_sector := 1 |>);
  base ← gets v_raw_log_base_lba;
  ok ← on_world (block_device_write base (text "KLOG" ++ zeros 508));
  mret (if ok : bool then 0 else FS_ERROR_IO).

(** The four bytes of a word, the lowest first. *)
Definition le32 (z : Z) : list Z := map (λ k, Z.land (z ≫ k) 255) [0; 8; 16; 24].

(** Each round writes a sector, so there are no more rounds than bytes.
    [src/fs/vfs.c:1446-1468] raw_log_write *)
Fixpoint raw_log_loop (fuel : nat) (src : list Z) (written : Z) : call Z :=
  match fuel with
  | O => mret written
  | S fuel' =>
      if negb (0 <? Z.of_nat (length src)) then mret written else
      next ← gets v_raw_log_next_sector;
      base ← gets v_raw_log_base_lba;
      if 2048 <=? next then mret written else
      let part := take 512 src in
      ok ← on_world (block_device_write (u32 (base + next)) (part ++ zeros (512 - Z.of_nat (length part))));
      if negb ok then mret written else
      _ ← modify (λ v, v <| v_raw_log_next_sector := u32 (next + 1) |>);
      let rest := drop 512 src in
      header ← from_world (block_device_read base);
      _ ← (if negb (0 <? Z.of_nat (length rest)) then
             match header with
             | Some hdr => _ ← on_world (block_device_write base (splice hdr 4 (le32 (u32 (next + 1))))); mret tt
             | None => mret tt
             end
           else mret tt);
      raw_log_loop fuel' rest (written + Z.of_nat (length part))
  end.

(** [src/fs/vfs.c:1436-1470] raw_log_write *)
Definition raw_log_write (buffer : list Z) : call Z :=
  if Z.of_nat (length buffer) =? 0 then mret 0 else
  ok ← raw_log_init;
  if negb ok then mret FS_ERROR_INVALID else
  written ← raw_log_loop (length buffer) buffer 0;
  mret (if negb (written =? 0) then i32 written else FS_ERROR_IO).

(** ** Writing files *)

(** [src/fs/vfs.c:1092-1123] vfs_write_file *)
Definition vfs_write_file (path buffer : list Z) : call Z :=
  let count := Z.of_nat (length buffer) in
  r ←? resolve path;
  v ← gets id;
  if is_klog_path (r_path r) then
    _ ← (if count =? 0 then raw_log_truncate else mret 0);
    mounted ← from_world ext2_is_mounted;
    status ← (if mounted : bool then on_world (ext2_write_file (r_path r) buffer) else mret FS_ERROR_NOT_FOUND);
    _ ← raw_log_write buffer;
    mret (if 0 <=? status then status else i32 count)
  else
  let op := f_write_file (ops_at v (r_mount r)) in
  mret (check_mutation v (r_mount r) (bool_decide (is_Some op))) ;;?
  created ←? check_write_target r;
  match op with
  | None => mret FS_ERROR_UNSUPPORTED
  | Some write_file =>
      status ← on_world (write_file (context_at v (r_mount r)) (r_relative r) buffer);
      _ ← (if (0 <=? status) && created then own_created (r_path r) false else mret tt);
      mret status
  end.

(** [src/fs/vfs.c:1125-1154] vfs_append_file *)
Definition vfs_append_file (path buffer : list Z) : call Z :=
  let count := Z.of_nat (length buffer) in
  r ←? resolve path;
  v ← gets id;
  if is_klog_path (r_path r) then
    mounted ← from_world ext2_is_mounted;
    _ ← (if mounted : bool then on_world (ext2_append_file (r_path r) buffer) else mret FS_ERROR_NOT_FOUND);
    _ ← raw_log_write buffer;
    mret (i32 count)
  else
  let op := f_append_file (ops_at v (r_mount r)) in
  mret (check_mutation v (r_mount r) (bool_decide (is_Some op))) ;;?
  created ←? check_write_target r;
  match op with
  | None => mret FS_ERROR_UNSUPPORTED
  | Some append_file =>
      appended ← on_world (append_file (context_at v (r_mount r)) (r_relative r) buffer);
      _ ← (if (0 <=? appended) && created then own_created (r_path r) false else mret tt);
      mret (if 0 <=? appended then i32 count else appended)
  end.

(** Octal 0100, 0200, 01000 and 02000. *)
Definition O_CREAT : Z := 64.
Definition O_EXCL : Z := 128.
Definition O_TRUNC : Z := 512.
Definition O_APPEND : Z := 1024.
Definition has_flag (flags bit : Z) : bool := negb (Z.land flags bit =? 0).

(** The file that is to be opened is there and, if asked for, empty.
    [src/fs/vfs.c:556-572] vfs_open_flags *)
Definition prepare_file (path : list Z) (flags : Z) : call Z :=
  s ← vfs_stat path;
  let exists_ := 0 <=? s.1 in
  if exists_ && has_flag flags O_CREAT && has_flag flags O_EXCL then mret FS_ERROR_EXISTS
  else if exists_ && negb (is_directory s.2 =? 0) then mret FS_ERROR_INVALID
  else if negb exists_ then
    if negb (has_flag flags O_CREAT) then mret FS_ERROR_NOT_FOUND
    else vfs_create_file path ;;? mret 0
  else if has_flag flags O_TRUNC then vfs_write_file path [] ;;? mret 0
  else mret 0.

(** [src/fs/vfs.c:576-598] vfs_open_flags *)
Definition open_writable (path : list Z) (flags : Z) : call Z :=
  r ←? resolve path;
  check_access (r_path r) false VFS_PERM_W ;;?
  idx ←? allocate_handle;
  let wflags := Z.lor (if has_flag flags O_APPEND then 1 else 0) (if Z.land flags 3 =? 2 then 2 else 0) in
  let h := (fresh_handle (r_path r)) <| h_type := VFS_HANDLE_WRITABLE |> <| h_wflags := wflags |> in
  _ ← put_handle idx h;
  _ ← (if negb (Z.land wflags 1 =? 0) then
         s ← vfs_stat (h_path h);
         if 0 <=? s.1 then put_handle idx (h <| h_position := u32 (size s.2) |>) else mret tt
       else mret tt);
  mret (VFS_FD_BASE + idx).

(** [src/fs/vfs.c:549-599] vfs_open_flags *)
Definition vfs_open_flags (path : list Z) (flags : Z) : call Z :=
  let access := Z.land flags 3 in
  if (access =? 0) && negb (has_flag flags O_TRUNC) then vfs_open path else
  prepare_file path flags ;;?
  if access =? 0 then vfs_open path else open_writable path flags.

(** [src/fs/vfs.c:601-601] VFS_RMW_LIMIT *)
Definition VFS_RMW_LIMIT : Z := 64 * 1024 * 1024.

(** The size, zero if the file is not there.
    [src/fs/vfs.c:603-610] file_size_of *)
Definition file_size_of (path : list Z) : call Z :=
  s ← vfs_stat path; mret (if s.1 <? 0 then 0 else size s.2).

(** A round that goes on has read at least a byte.
    [src/fs/vfs.c:619-625] load_prefix *)
Fixpoint load_loop (fuel : nat) (fd done length : Z) (buffer : list Z) : call (list Z) :=
  match fuel with
  | O => mret buffer
  | S fuel' =>
      if negb (done <? length) then mret buffer else
      let left := length - done in
      got ← vfs_read fd (if 1048576 <? left then 1048576 else left);
      if got.1 <=? 0 then mret (splice buffer done got.2)
      else load_loop fuel' fd (done + got.1) length (splice buffer done got.2)
  end.

(** The status and the buffer.
    [src/fs/vfs.c:612-628] load_prefix *)
Definition load_prefix (path buffer : list Z) (length : Z) : call (Z + list Z) :=
  if length =? 0 then mret (inr buffer) else
  fd ← vfs_open path;
  if fd <? 0 then mret (inl fd) else
  buffer ← load_loop (S (Z.to_nat length)) fd 0 length buffer;
  _ ← vfs_close fd;
  mret (inr buffer).

(** Pages come cleared from the allocator.
    [src/fs/vfs.c:630-655] rewrite_file *)
Definition rewrite_file (path : list Z) (offset : Z) (data : list Z) (new_length : Z) : call Z :=
  let count := Z.of_nat (length data) in
  size ← file_size_of path;
  let final_length := if new_length <? offset + count then offset + count else new_length in
  if VFS_RMW_LIMIT <? final_length then mret FS_ERROR_NO_SPACE else
  let pages := (final_length + 4095) / 4096 in
  phys ← (if negb (pages =? 0) then on_world (pmm_allocate_contiguous pages) else mret 0);
  if negb (pages =? 0) && (phys =? 0) then mret FS_ERROR_NO_SPACE else
  let keep := if size <? final_length then size else final_length in
  r ← load_prefix path (zeros (pages * 4096)) keep;
  status ← (match r with
            | inl e => mret e
            | inr buffer =>
                vfs_write_file path (take (Z.to_nat (u32 final_length)) (splice buffer offset data))
            end);
  _ ← (if negb (phys =? 0) then on_world (pmm_free_contiguous phys pages) else mret tt);
  mret status.

(** [src/fs/vfs.c:657-695] vfs_write *)
Definition vfs_write (descriptor : Z) (buffer : list Z) : call Z :=
  let count := Z.of_nat (length buffer) in
  v ← gets id;
  match get_handle v descriptor with
  | None => mret FS_ERROR_INVALID
  | Some (_, h) =>
      if bool_decide (h_type h ≠ VFS_HANDLE_WRITABLE) then mret FS_ERROR_UNSUPPORTED else
      let path := Cstr.copy_text (h_path h) VFS_PATH_MAX in
      if count =? 0 then mret 0 else
      size ← file_size_of path;
      let append := negb (Z.land (h_wflags h) 1 =? 0) || (h_position h =? size) in
      status ← (if append then vfs_append_file path buffer
                else rewrite_file path (h_position h) buffer size);
      if status <? 0 then mret status else
      let position := if append then size + count else h_position h + count in
      v ← gets id;
      _ ← (match get_handle v descriptor with
           | Some (i, h) => put_handle i (h <| h_position := u32 position |>)
           | None => mret tt
           end);
      mret (i32 count)
  end.

(** [src/fs/vfs.c:697-714] vfs_handle_truncate *)
Definition vfs_handle_truncate (descriptor length : Z) : call Z :=
  v ← gets id;
  match get_handle v descriptor with
  | None => mret FS_ERROR_INVALID
  | Some (_, h) =>
      if bool_decide (h_type h ≠ VFS_HANDLE_WRITABLE) then mret FS_ERROR_INVALID else
      let path := Cstr.copy_text (h_path h) VFS_PATH_MAX in
      size ← file_size_of path;
      if length =? size then mret 0
      else if length =? 0 then vfs_write_file path []
      else status ← rewrite_file path 0 [] length; mret (if status <? 0 then FS_ERROR_NO_SPACE else 0)
  end.

(** ** Listing *)

(** The two kinds of listing differ in the room for a name.
    [src/fs/vfs.c:64-72] copy_name *)
Definition copy_name (source : list Z) : list Z := Cstr.copy_text source FS_DIRECTORY_NAME_CAPACITY.
(** [src/fs/vfs.c:74-82] copy_name_long *)
Definition copy_name_long (source : list Z) : list Z := Cstr.copy_text source FS_LONG_NAME_CAPACITY.

(** [src/fs/vfs.c:957-965] short_has *)
Definition short_has (entries : list directory_entry) (name : list Z) : bool :=
  existsb (λ e, text_equal (e_name e) (copy_name name)) entries.
(** [src/fs/vfs.c:967-973] long_has *)
Definition long_has (entries : list directory_entry) (name : list Z) : bool :=
  existsb (λ e, text_equal (e_name e) name) entries.

(** The loops that add entries the file system does not list.
    [src/fs/vfs.c:997-1004] vfs_list *)
Fixpoint add_entries (has : list directory_entry → list Z → bool) (copy : list Z → list Z) (capacity : Z)
    (size attributes : Z) (names : list (list Z)) (entries : list directory_entry) : list directory_entry :=
  match names with
  | [] => entries
  | name :: names' =>
      if negb (Z.of_nat (length entries) <? capacity) then entries
      else if has entries name then add_entries has copy capacity size attributes names' entries
      else add_entries has copy capacity size attributes names' (entries ++ [DirEntry (copy name) size attributes])
  end.

(** What both listings do after the file system has answered.
    [src/fs/vfs.c:989-1016] vfs_list *)
Definition complete_listing (has : list directory_entry → list Z → bool) (copy : list Z → list Z)
    (path : list Z) (capacity : Z) (backend : Z * list directory_entry) : call (Z * list directory_entry) :=
  v ← gets id;
  let children := vfs_mount_children (v_mounts v) path (Z.of_nat VFS_MOUNT_MAX) ++ virtual_children v path 8 in
  let is_root := text_equal path [SLASH] in
  if (backend.1 <? 0) && negb is_root && (Z.of_nat (length children) =? 0) && negb (is_virtual_dir v path)
  then mret (backend.1, []) else
  let entries := if 0 <? backend.1 then take (Z.to_nat backend.1) backend.2 else [] in
  let entries := add_entries has copy capacity 0 FS_ATTRIBUTE_DIRECTORY children entries in
  let entries :=
    if is_root then add_entries has copy capacity (klog_visible_size (v_world v)) 0
                      [text "dmesg.txt"; text "kernel.log"] entries
    else entries in
  mret (i32 (Z.of_nat (length entries)), entries).

(** The entries of the file system, when it lists and is ready. *)
Definition backend_list (op : fs_table W → option (Z → list Z → Z → W → (Z * list directory_entry) * W))
    (r : vfs_resolved) (capacity : Z) : call (Z * list directory_entry) :=
  v ← gets id;
  match op (ops_at v (r_mount r)) with
  | Some list_ =>
      if mount_ready v (r_mount r) then on_world (list_ (context_at v (r_mount r)) (r_relative r) capacity)
      else mret (FS_ERROR_UNSUPPORTED, [])
  | None => mret (FS_ERROR_UNSUPPORTED, [])
  end.

(** [src/fs/vfs.c:975-1017] vfs_list *)
Definition vfs_list (path : list Z) (capacity : Z) : call (Z * list directory_entry) :=
  if capacity =? 0 then mret (FS_ERROR_INVALID, []) else
  r ←? resolve path;
  backend ← backend_list f_list r capacity;
  complete_listing short_has copy_name (r_path r) capacity backend.

(** [src/fs/vfs.c:1019-1061] vfs_list_long *)
Definition vfs_list_long (path : list Z) (capacity : Z) : call (Z * list directory_entry) :=
  if capacity =? 0 then mret (FS_ERROR_INVALID, []) else
  r ←? resolve path;
  backend ← backend_list f_list_long r capacity;
  complete_listing long_has copy_name_long (r_path r) capacity backend.

(** ** Modes and owners *)

(** [src/fs/vfs.c:1177-1193] resolve_existing *)
Definition resolve_existing (path : list Z) : call (Z + vfs_resolved * bool) :=
  r ←? resolve path;
  s ← stat_of (r_mount r) (r_relative r);
  v ← gets id;
  match s with
  | Some (status, info) =>
      if status <? 0 then
        if negb (is_virtual_dir v (r_path r)) then mret (inl FS_ERROR_NOT_FOUND) else mret (inr (r, true))
      else mret (inr (r, negb (is_directory info =? 0)))
  | None => if negb (is_virtual_dir v (r_path r)) then mret (inl FS_ERROR_NOT_FOUND) else mret (inr (r, true))
  end.

(** What is filled in when the file system has no extended information.
    [src/fs/vfs.c:1214-1233] vfs_stat_ex *)
Definition plain_stat_ex (r : vfs_resolved) : call (Z + file_stat_ex) :=
  v ← gets id;
  if is_klog_path (r_path r) then mret (inr (stat_ex_zero <| x_size := klog_total_bytes (v_world v) |>)) else
  match overlay_find (v_world v) (r_path r) with
  | Some data => mret (inr (stat_ex_zero <| x_size := Z.of_nat (length data) |>))
  | None =>
      s ← stat_of (r_mount r) (r_relative r);
      let virtual :=
        if is_virtual_dir v (r_path r) then mret (inr (stat_ex_zero <| x_is_directory := 1 |>))
        else mret (inl FS_ERROR_NOT_FOUND) in
      match s with
      | Some (status, info) =>
          if status <? 0 then virtual
          else mret (inr (stat_ex_zero <| x_size := size info |> <| x_is_directory := is_directory info |>))
      | None => virtual
      end
  end.

(** [src/fs/vfs.c:1195-1240] vfs_stat_ex *)
Definition vfs_stat_ex (path : list Z) : call (Z * file_stat_ex) :=
  r ←? resolve path;
  v ← gets id;
  filled ←?
    match f_stat_ex (ops_at v (r_mount r)) with
    | Some stat_ex =>
        if mount_ready v (r_mount r) && negb (is_klog_path (r_path r)) then
          s ← on_world (stat_ex (context_at v (r_mount r)) (r_relative r));
          if s.1 <? 0 then
            if negb (is_virtual_dir v (r_path r)) then mret (inl s.1) else plain_stat_ex r
          else mret (inr s.2)
        else plain_stat_ex r
    | None => plain_stat_ex r
    end;
  meta ← effective_meta (r_path r) (negb (x_is_directory filled =? 0));
  mret (0, filled <| x_mode := pm_mode meta |> <| x_uid := pm_uid meta |> <| x_gid := pm_gid meta |>).

(** The mount is one that can be written. *)
Definition read_only_mount v (mount : Z) : bool :=
  negb (Z.land (m_flags (slot_at (v_mounts v) mount)) VFS_MOUNT_READ_ONLY =? 0).

(** [src/fs/vfs.c:1242-1258] vfs_chmod *)
Definition vfs_chmod (path : list Z) (mode : Z) : call Z :=
  rd ←? resolve_existing path;
  let '(r, directory) := rd in
  v ← gets id;
  if read_only_mount v (r_mount r) then mret FS_ERROR_READ_ONLY else
  meta ← effective_meta (r_path r) directory;
  if negb (v_uid v =? 0) && negb (v_uid v =? pm_uid meta) then mret FS_ERROR_DENIED
  else store_meta (r_path r) (meta <| pm_mode := Z.land mode VFS_MODE_MASK |>).

(** [src/fs/vfs.c:1260-1278] vfs_chown *)
Definition vfs_chown (path : list Z) (uid gid : Z) : call Z :=
  rd ←? resolve_existing path;
  let '(r, directory) := rd in
  v ← gets id;
  if read_only_mount v (r_mount r) then mret FS_ERROR_READ_ONLY else
  if negb (v_uid v =? 0) then mret FS_ERROR_DENIED else
  meta ← effective_meta (r_path r) directory;
  let meta := if negb (uid =? USER_ID_NONE) then meta <| pm_uid := uid |> else meta in
  let meta := if negb (gid =? USER_ID_NONE) then meta <| pm_gid := gid |> else meta in
  store_meta (r_path r) meta.

(** The status, the meta data and whether it is a directory.
    [src/fs/vfs.c:1280-1296] vfs_get_perm *)
Definition vfs_get_perm (path : list Z) : call (Z + vfs_perm_meta * bool) :=
  rd ←? resolve_existing path;
  let '(r, directory) := rd in
  meta ← effective_meta (r_path r) directory;
  mret (inr (meta, directory)).

(** [src/fs/vfs.c:1307-1315] vfs_user_lookup *)
Fixpoint passwd_loop (fuel : nat) (handle : Z) (passwd : list Z) : call (list Z) :=
  match fuel with
  | O => mret passwd
  | S fuel' =>
      got ← vfs_read handle (4096 - 1 - Z.of_nat (length passwd));
      if got.1 <=? 0 then mret passwd
      else
        let passwd := passwd ++ got.2 in
        if 4096 - 1 <=? Z.of_nat (length passwd) then mret passwd else passwd_loop fuel' handle passwd
  end.

(** The entry; its name, home and shell are copied into fields of the same
    sizes.  The text ends at its first terminator.
    [src/fs/vfs.c:1298-1330] vfs_user_lookup *)
Definition vfs_user_lookup (name : option (list Z)) (uid : Z) : call (Z + user_entry) :=
  handle ← vfs_open (text "/etc/passwd");
  if handle <? 0 then mret (inl handle) else
  passwd ← passwd_loop (Z.to_nat 4096) handle [];
  _ ← vfs_close handle;
  let passwd := take (Z.to_nat (default (Z.of_nat (length passwd))
                  (for_first (λ i, aget 0 passwd i =? 0) (length passwd) 0))) passwd in
  let found := match name with
               | Some _ => user_lookup_name (Some passwd) name
               | None => user_lookup_uid (Some passwd) uid
               end in
  mret (match found with Some (Some entry) => inr entry | _ => inl FS_ERROR_NOT_FOUND end).

(** [src/fs/vfs.h:19-24] vfs_mount_info *)
Record vfs_mount_info := MountInfo { mi_path : list Z; mi_source : list Z; mi_type : list Z; mi_flags : Z }.

(** [src/fs/vfs.c:1332-1346] vfs_mounts_info *)
Definition vfs_mounts_info (index : Z) : call (Z + vfs_mount_info) :=
  _ ← ensure_mounts;
  v ← gets id;
  match vfs_mount_get (v_mounts v) index with
  | None => mret (inl FS_ERROR_NOT_FOUND)
  | Some i =>
      let m := slot_at (v_mounts v) i in
      mret (inr (MountInfo (Cstr.copy_text (m_path m) 512) (Cstr.copy_text (m_source m) 64)
                   (Cstr.copy_text (default [] (ops_name <$> m_ops m)) 16) (m_flags m)))
  end.
End Core.
