(* ===== verification/Live.v ===== *)
(** * The system started from its boot image

    The world of the virtual file system core as far as the other components
    model it: the file systems of src/src/fs/vfs_backends.c over the boot image
    and the constant kernel files, the in-memory file systems, the page allocator
    and the kernel log.  There is no disk: ext2, the device, process and system
    views and the block devices answer that they are not there. *)

From S2P Require Import Prelude State Errno Cstr Path Mount Perm.
From S2P Require Pmm Klog Initramfs Tmpfs.
From S2P Require Import Vfs.
#[local] Existing Instance Tmpfs.eta_tmpfs.

(** ** The components together *)

(** The tmpfs instances are known by the address of their frames; [l_image] is
    the module of the boot loader; the clock and the cycle counter stand still
    during a call. *)
Record live := Live {
  l_pmm : Pmm.pmm;
  l_klog : Klog.klog;
  l_image : option (list Z);
  l_initramfs : Initramfs.initramfs;
  l_tmpfs : gmap Z Tmpfs.tmpfs;
  l_now : Z;
}.
#[export] Instance eta_live : Eta live := λ w,
  Live (l_pmm w) (l_klog w) (l_image w) (l_initramfs w) (l_tmpfs w) (l_now w).

(** An instance works on the one page allocator. *)
Definition on_instance {A} (none : A) (context : Z) (f : Tmpfs.tmpfs → A * Tmpfs.tmpfs) (w : live) : A * live :=
  match l_tmpfs w !! context with
  | None => (none, w)
  | Some s =>
      let '(r, s) := f (s <| Tmpfs.t_pmm := l_pmm w |>) in
      (r, w <| l_tmpfs := <[context := s]> (l_tmpfs w) |> <| l_pmm := Tmpfs.t_pmm s |>)
  end.
Definition ask_instance {A} (none : A) (context : Z) (f : Tmpfs.tmpfs → A) (w : live) : A * live :=
  (default none (f <$> l_tmpfs w !! context), w).

(** [src/fs/tmpfs.c:476-493] vfs_tmpfs_ops *)
Definition tmpfs_table : fs_table live := {|
  f_map := None;
  f_open := Some (λ c p, on_instance FS_ERROR_INVALID c (Tmpfs.tmpfs_open p));
  f_read := Some (λ c d n, on_instance (FS_ERROR_INVALID, []) c (Tmpfs.tmpfs_read d n));
  f_seek := Some (λ c d o wh, on_instance FS_ERROR_INVALID c (Tmpfs.tmpfs_seek d o wh));
  f_close := Some (λ c d, on_instance FS_ERROR_INVALID c (Tmpfs.tmpfs_close d));
  f_stat := Some (λ c p, ask_instance (FS_ERROR_INVALID, stat_zero) c (Tmpfs.tmpfs_stat p));
  f_list := Some (λ c p n, ask_instance (FS_ERROR_INVALID, []) c (Tmpfs.tmpfs_list p n));
  f_list_long := Some (λ c p n, ask_instance (FS_ERROR_INVALID, []) c (Tmpfs.tmpfs_list_long p n));
  f_create_file := Some (λ c p w, on_instance FS_ERROR_INVALID c (Tmpfs.tmpfs_create_file (l_now w) p) w);
  f_create_directory := Some (λ c p w, on_instance FS_ERROR_INVALID c (Tmpfs.tmpfs_create_directory (l_now w) p) w);
  f_unlink := Some (λ c p, on_instance FS_ERROR_INVALID c (Tmpfs.tmpfs_unlink p));
  f_rename := Some (λ c p n, on_instance FS_ERROR_INVALID c (Tmpfs.tmpfs_rename p n));
  f_move := Some (λ c p q, on_instance FS_ERROR_INVALID c (Tmpfs.tmpfs_move p q));
  f_write_file := Some (λ c p b w, on_instance FS_ERROR_INVALID c (Tmpfs.tmpfs_write_file (l_now w) p b) w);
  f_append_file := Some (λ c p b w, on_instance FS_ERROR_INVALID c (Tmpfs.tmpfs_append_file (l_now w) p b) w);
  f_stat_ex := Some (λ c p, ask_instance (FS_ERROR_INVALID, stat_ex_zero) c (Tmpfs.tmpfs_stat_ex p));
  f_get_meta := None;
  f_set_meta := None;
  f_is_ready := None;
|}.

(** ** The boot image *)

(** [src/fs/vfs_backends.c:184-188] initramfs_op_map *)
Definition initramfs_op_map (path : list Z) (w : live) : Z * list Z :=
  match Initramfs.initramfs_find path (l_initramfs w) with
  | Some data => (0, data)
  | None => (FS_ERROR_NOT_FOUND, [])
  end.

(** The look-up of a directory ends for every image
    ([Initramfs.initramfs_any_image_safe]).
    [src/fs/vfs_backends.c:190-206] initramfs_op_stat *)
Definition initramfs_op_stat (path : list Z) (w : live) : Z * file_stat_info :=
  match Initramfs.initramfs_find path (l_initramfs w) with
  | Some data => (0, FileStatInfo (Z.of_nat (length data)) 0 0)
  | None =>
      if negb (default false (Initramfs.initramfs_directory_exists path (l_initramfs w)))
      then (FS_ERROR_NOT_FOUND, stat_zero)
      else (0, FileStatInfo 0 1 0)
  end.

(** [src/fs/vfs_backends.c:208-218] directory_with_slash *)
Definition directory_with_slash (path : list Z) (capacity : Z) : Z + list Z :=
  let length := Z.of_nat (length path) in
  if capacity <? length + 2 then inl FS_ERROR_INVALID
  else if negb (length =? 0) && negb (aget 0 path (length - 1) =? SLASH) then inr (path ++ [SLASH])
  else inr path.

(** [src/fs/vfs_backends.c:220-229] initramfs_op_list *)
Definition initramfs_op_list (path : list Z) (capacity : Z) (w : live) : Z * list directory_entry :=
  match directory_with_slash path VFS_PATH_MAX with
  | inl status => (status, [])
  | inr directory => default (FS_ERROR_IO, []) (Initramfs.initramfs_list directory capacity (l_initramfs w))
  end.
(** [src/fs/vfs_backends.c:231-240] initramfs_op_list_long *)
Definition initramfs_op_list_long (path : list Z) (capacity : Z) (w : live) : Z * list directory_entry :=
  match directory_with_slash path VFS_PATH_MAX with
  | inl status => (status, [])
  | inr directory => default (FS_ERROR_IO, []) (Initramfs.initramfs_list_long directory capacity (l_initramfs w))
  end.

(** [src/fs/vfs_backends.c:242-249] vfs_initramfs_ops *)
Definition initramfs_table : fs_table live := {|
  f_map := Some (λ _, initramfs_op_map);
  f_open := None; f_read := None; f_seek := None; f_close := None;
  f_stat := Some (λ _ p w, (initramfs_op_stat p w, w));
  f_list := Some (λ _ p n w, (initramfs_op_list p n w, w));
  f_list_long := Some (λ _ p n w, (initramfs_op_list_long p n w, w));
  f_create_file := None; f_create_directory := None; f_unlink := None; f_rename := None; f_move := None;
  f_write_file := None; f_append_file := None; f_stat_ex := None; f_get_meta := None; f_set_meta := None;
  f_is_ready := Some (λ _ w, Initramfs.initramfs_is_mounted (l_initramfs w));
|}.

(** ** The kernel's own files *)

(** [src/fs/vfs_backends.c:251-255] kernelfs_file *)
Record kernelfs_file := KernelFile { k_path : list Z; k_name : list Z; k_content : list Z }.

(** [src/fs/vfs_backends.c:257-265] kernelfs_files *)
Definition kernelfs_files : list kernelfs_file := [
  KernelFile (text "/version") (text "version") (text "PureC OS kernel 1.1.0" ++ [10]);
  KernelFile (text "/panic") (text "panic.cfg")
    (text "panic-screan=classic" ++ [10] ++ text " #panic-screan=qr" ++ [10]);
  KernelFile (text "/init") (text "init")
    (text "pid1=/bin/init shell=/bin/program/terminal editor=/bin/program/nano" ++ [10]);
  KernelFile (text "/abi") (text "abi")
    (text "syscall=int80 process=exec,args,env,wait,exit fd=per-process vfs=ext2" ++ [10])].

(** [src/fs/vfs_backends.c:268-273] kernelfs_find *)
Fixpoint kernelfs_search (files : list kernelfs_file) (path : list Z) : option kernelfs_file :=
  match files with
  | [] => None
  | f :: files' => if text_equal path (k_path f) then Some f else kernelfs_search files' path
  end.
Definition kernelfs_find := kernelfs_search kernelfs_files.

(** [src/fs/vfs_backends.c:275-284] kernelfs_op_map *)
Definition kernelfs_op_map (path : list Z) : Z * list Z :=
  match kernelfs_find path with
  | None => (FS_ERROR_NOT_FOUND, [])
  | Some file => (0, k_content file)
  end.

(** [src/fs/vfs_backends.c:286-301] kernelfs_op_stat *)
Definition kernelfs_op_stat (path : list Z) : Z * file_stat_info :=
  if text_equal path [SLASH] then (0, FileStatInfo 0 1 0) else
  match kernelfs_find path with
  | None => (FS_ERROR_NOT_FOUND, stat_zero)
  | Some file => (0, FileStatInfo (Z.of_nat (length (k_content file))) 0 0)
  end.

(** Both listings, [room] for a name.
    [src/fs/vfs_backends.c:303-318] kernelfs_op_list *)
Definition kernelfs_entries (room : Z) (path : list Z) (capacity : Z) : Z * list directory_entry :=
  if negb (text_equal path [SLASH]) then (FS_ERROR_NOT_DIR, []) else
  let files := take (Z.to_nat capacity) kernelfs_files in
  (Z.of_nat (length files),
   map (λ f, DirEntry (Cstr.copy_text (k_name f) room) (Z.of_nat (length (k_content f))) 0) files).
(** [src/fs/vfs_backends.c:320-334] kernelfs_op_list_long *)
Definition kernelfs_entries_long := kernelfs_entries FS_LONG_NAME_CAPACITY.

(** [src/fs/vfs_backends.c:336-342] vfs_kernelfs_ops *)
Definition kernelfs_table : fs_table live := {|
  f_map := Some (λ _ p _, kernelfs_op_map p);
  f_open := None; f_read := None; f_seek := None; f_close := None;
  f_stat := Some (λ _ p w, (kernelfs_op_stat p, w));
  f_list := Some (λ _ p n w, (kernelfs_entries FS_DIRECTORY_NAME_CAPACITY p n, w));
  f_list_long := Some (λ _ p n w, (kernelfs_entries_long p n, w));
  f_create_file := None; f_create_directory := None; f_unlink := None; f_rename := None; f_move := None;
  f_write_file := None; f_append_file := None; f_stat_ex := None; f_get_meta := None; f_set_meta := None;
  f_is_ready := None;
|}.

(** ** The world *)

Definition live_fs_at (address : Z) : fs_table live :=
  if address =? ops_address vfs_tmpfs_ops then tmpfs_table
  else if address =? ops_address vfs_initramfs_ops then initramfs_table
  else if address =? ops_address vfs_kernelfs_ops then kernelfs_table
  else no_fs.

(** The context is the direct-map address of the frames, which are not zero; the
    physical address tells the instances apart as well. *)
Definition live_tmpfs_create (w : live) : Z * live :=
  let '(made, p) := Tmpfs.vfs_tmpfs_create (l_pmm w) in
  let w := w <| l_pmm := p |> in
  match made with
  | None => (0, w)
  | Some (s, physical) => (physical, w <| l_tmpfs := <[physical := s]> (l_tmpfs w) |>)
  end.

(** The line [log_mount] prints.
    [src/fs/vfs.c:153-156] log_mount *)
Definition live_klog_mount (source path type : list Z) (read_only : bool) (w : live) : unit * live :=
  let k := Klog.klogf (l_now w) 0 Klog.KLOG_INFO (text "vfs: %s on %s type %s%s")
             [Klog.AText (Some source); Klog.AText (Some path); Klog.AText (Some type);
              Klog.AText (Some (if read_only then text " (ro)" else []))] (l_klog w) in
  (tt, w <| l_klog := default (l_klog w) k |>).

#[export] Instance live_world : World live := {|
  fs_at := live_fs_at;
  vfs_tmpfs_create := live_tmpfs_create;
  pmm_is_ready w := Pmm.ready (l_pmm w);
  pmm_allocate_contiguous n w :=
    let '(p, m) := Pmm.pmm_allocate_contiguous n (l_pmm w) in (p, w <| l_pmm := m |>);
  pmm_free_contiguous p n w := (tt, w <| l_pmm := Pmm.pmm_free_contiguous p n (l_pmm w) |>);
  klog_total_bytes w := Klog.klog_total_bytes (l_klog w);
  klog_read_since c n w := Klog.klog_read_since c n (l_klog w);
  klog_mount := live_klog_mount;
  initramfs_is_mounted w := Initramfs.initramfs_is_mounted (l_initramfs w);
  initramfs_find p w := Initramfs.initramfs_find p (l_initramfs w);
  initramfs_mount w :=
    let '(ok, s) := Initramfs.initramfs_mount (l_image w) (l_initramfs w) in (ok, w <| l_initramfs := s |>);
  ext2_is_mounted _ := false;
  ext2_init w := (false, w);
  ext2_device_name _ := [];
  ext2_write_file _ _ w := (FS_ERROR_IO, w);
  ext2_append_file _ _ w := (FS_ERROR_IO, w);
  block_device_count _ := 0;
  block_device_get_info _ _ := None;
  block_device_read _ _ := None;
  block_device_write _ _ w := (false, w);
|}.

(** ** A machine started from an image *)

(** Frames 1 to 511, an image of two files, and the root on it; the user is
    root. *)
Definition live_image : list Z := Initramfs.write_initramfs
  [(text "/sbin/init", [127; 69; 76; 70]); (text "/etc/passwd", text "root:x:0:0::/root:/bin/sh")].
Definition live_machine : live :=
  Live (Pmm.pmm_init (Some [Some (Pmm.Memmap 4096 (511 * 4096) 0)]) 4096 Pmm.demo_boot)
    Klog.klog_start (Some live_image) Initramfs.initramfs_boot ∅ 0.
Definition live_system : vfs live := (vfs_mount_initramfs (vfs_boot 0 0 live_machine)).2.

Example live_root_mounted : vfs_is_root_mounted live_system = true.
Proof. vm_compute. reflexivity. Qed.

(** Writing below [/tmp] and reading it back; the files of the image and of the
    kernel. *)
Example live_session :
  let '(d, s) := vfs_open_flags (text "/tmp/x") (Z.lor 2 O_CREAT) live_system in
  let '(n, s) := vfs_write d [1; 2; 3] s in
  let '(p, s) := vfs_seek d 1 SEEK_SET s in
  let '(r, s) := vfs_read d 10 s in
  let '(c, s) := vfs_close d s in
  (d, n, p, r, c, (vfs_list_long (text "/kernel") 2 s).1.1, (vfs_stat (text "/bin/init") s).1) =
  (3, 3, 1, (2, [2; 3]), 0, 2, (0, FileStatInfo 4 0 0)).
Proof. vm_compute. reflexivity. Qed.
