(* ===== verification/VfsSpec.v ===== *)
(** * The virtual file system core: what its calls promise

    The table of handles behaves as the interface of [Ofd] asks for, whatever the
    file systems do; no change reaches a file system without the permission it
    needs; what the special paths of the kernel log and of the boot image let
    through. *)

From S2P Require Pipe.
From S2P Require Import Prelude State Errno Ofd Fdtable FdRefs Cstr Path Alias Mount Perm Vfs Live.

(** ** Calls that leave a part of the state as it is *)

Section Frames.
Context {W : Type} `{World W}.
Implicit Types v : vfs W.

(** What the rest of the kernel sees of a handle: that it is open, and its count. *)
Definition kind (h : vfs_handle) : option Z :=
  if decide (h_type h = VFS_HANDLE_NONE) then None else Some (h_refs h).
Definition profile v (i : Z) : option Z := kind (handle_at v i).

(** The table is not larger than the growth allows. *)
Definition table_fits v : Prop := Z.of_nat (length (v_handles v)) ≤ 2 ^ 20 + 8.

(** No handle is opened, closed or shared. *)
Definition neutral v v' : Prop :=
  table_fits v → table_fits v' ∧ ∀ i, 0 ≤ i → profile v' i = profile v i.

#[export] Instance neutral_preorder : PreOrder neutral.
Proof.
  split.
  - by intros v Hv.
  - intros v1 v2 v3 H12 H23 F. destruct (H12 F) as [F2 E2]. destruct (H23 F2) as [F3 E3].
    split; [done|]. intros i Hi. by rewrite E3, E2.
Qed.

Lemma neutral_same v v' : v_handles v' = v_handles v → neutral v v'.
Proof. intros E F. unfold table_fits, profile, handle_at. by rewrite E. Qed.

Lemma on_world_neutral {A} (f : W → A * W) : always neutral (on_world f).
Proof. intros v. unfold on_world. destruct (f _). by apply neutral_same. Qed.
Lemma on_mounts_neutral f : always neutral (on_mounts f : st (vfs W) Z).
Proof. intros v. unfold on_mounts. destruct (f _). by apply neutral_same. Qed.
Lemma on_perms_neutral f : always neutral (on_perms f : st (vfs W) Z).
Proof. intros v. unfold on_perms. destruct (f _). by apply neutral_same. Qed.
Lemma modify_neutral (f : vfs W → vfs W) : (∀ v, v_handles (f v) = v_handles v) → always neutral (modify f).
Proof. intros Hf. apply always_modify. intros v. by apply neutral_same. Qed.
End Frames.

#[export] Hint Resolve on_world_neutral on_mounts_neutral on_perms_neutral : calls.
#[export] Hint Extern 2 (always neutral (modify _)) => (apply modify_neutral; reflexivity) : calls.

Section Neutral.
Context {W : Type} `{World W}.
Implicit Types v : vfs W.

Lemma log_mount_neutral p : always neutral (log_mount (W:=W) p).
Proof. unfold log_mount. walk_call. Qed.
#[local] Hint Resolve log_mount_neutral : calls.

Lemma seed_neutral i seed : always neutral (seed_directories (W:=W) i seed).
Proof. induction seed; cbn [seed_directories]; walk_call. Qed.
#[local] Hint Resolve seed_neutral : calls.

Lemma mount_tmpfs_neutral p seed : always neutral (mount_tmpfs (W:=W) p seed).
Proof. unfold mount_tmpfs. walk_call. Qed.
Lemma unmount_neutral p : always neutral (unmount_live_tmpfs (W:=W) p).
Proof. unfold unmount_live_tmpfs. walk_call. Qed.
#[local] Hint Resolve mount_tmpfs_neutral unmount_neutral : calls.

Lemma sync_neutral : always neutral (sync_tmpfs_mounts (W:=W)).
Proof. unfold sync_tmpfs_mounts. walk_call. Qed.
#[local] Hint Resolve sync_neutral : calls.

Lemma replace_neutral p o s f : always neutral (mount_replace (W:=W) p o s f).
Proof. unfold mount_replace. walk_call. Qed.
#[local] Hint Resolve replace_neutral : calls.

Lemma ensure_neutral : always neutral (ensure_mounts (W:=W)).
Proof. unfold ensure_mounts. walk_call. Qed.
#[local] Hint Resolve ensure_neutral : calls.

Lemma resolve_neutral p : always neutral (resolve (W:=W) p).
Proof. unfold resolve. walk_call. Qed.
#[local] Hint Resolve resolve_neutral : calls.

Lemma set_root_neutral t : always neutral (set_root_ops (W:=W) t).
Proof. unfold set_root_ops, from_world. walk_call. Qed.

Lemma stat_of_neutral m p : always neutral (stat_of (W:=W) m p).
Proof. unfold stat_of. walk_call. Qed.
Lemma effective_neutral p d : always neutral (effective_meta (W:=W) p d).
Proof. unfold effective_meta. walk_call. Qed.
Lemma store_neutral p m : always neutral (store_meta (W:=W) p m).
Proof. unfold store_meta. walk_call. Qed.
#[local] Hint Resolve stat_of_neutral effective_neutral store_neutral : calls.

Lemma access_neutral p d w : always neutral (check_access (W:=W) p d w).
Proof. unfold check_access. walk_call. Qed.
Lemma parent_neutral p : always neutral (check_parent_write (W:=W) p).
Proof. apply access_neutral. Qed.
Lemma exists_neutral r : always neutral (path_exists (W:=W) r).
Proof. unfold path_exists. walk_call. Qed.
Lemma own_neutral p d : always neutral (own_created (W:=W) p d).
Proof. unfold own_created. walk_call. Qed.
#[local] Hint Resolve access_neutral parent_neutral exists_neutral own_neutral : calls.

Lemma target_neutral r : always neutral (check_write_target (W:=W) r).
Proof. unfold check_write_target. walk_call. Qed.
Lemma vfs_stat_neutral p : always neutral (vfs_stat (W:=W) p).
Proof. unfold vfs_stat. walk_call. Qed.
#[local] Hint Resolve target_neutral vfs_stat_neutral : calls.

Lemma size_neutral p : always neutral (file_size_of (W:=W) p).
Proof. unfold file_size_of. walk_call. Qed.
Lemma create_checked_neutral r op d : always neutral (create_checked (W:=W) r op d).
Proof. unfold create_checked. walk_call. Qed.
#[local] Hint Resolve create_checked_neutral : calls.
Lemma create_file_neutral p : always neutral (vfs_create_file (W:=W) p).
Proof. unfold vfs_create_file. walk_call. Qed.

Lemma raw_init_neutral : always neutral (raw_log_init (W:=W)).
Proof. unfold raw_log_init. walk_call. Qed.
#[local] Hint Resolve raw_init_neutral : calls.
Lemma raw_truncate_neutral : always neutral (raw_log_truncate (W:=W)).
Proof. unfold raw_log_truncate. walk_call. Qed.
Lemma raw_loop_neutral n : ∀ src k, always neutral (raw_log_loop (W:=W) n src k).
Proof. induction n; cbn [raw_log_loop]; unfold from_world; walk_call. Qed.
#[local] Hint Resolve raw_truncate_neutral raw_loop_neutral : calls.
Lemma raw_write_neutral b : always neutral (raw_log_write (W:=W) b).
Proof. unfold raw_log_write. walk_call. Qed.
#[local] Hint Resolve raw_write_neutral : calls.

Lemma write_file_neutral p b : always neutral (vfs_write_file (W:=W) p b).
Proof. unfold vfs_write_file, from_world. walk_call. Qed.
Lemma append_file_neutral p b : always neutral (vfs_append_file (W:=W) p b).
Proof. unfold vfs_append_file, from_world. walk_call. Qed.
#[local] Hint Resolve create_file_neutral write_file_neutral : calls.
Lemma prepare_neutral p f : always neutral (prepare_file (W:=W) p f).
Proof. unfold prepare_file. walk_call. Qed.
Lemma handle_stat_neutral d : always neutral (vfs_handle_stat (W:=W) d).
Proof. unfold vfs_handle_stat. walk_call. Qed.
End Neutral.

#[export] Hint Resolve resolve_neutral access_neutral vfs_stat_neutral size_neutral create_file_neutral
  write_file_neutral append_file_neutral prepare_neutral : calls.

(** ** The table of handles *)

Section Table.
Context {W : Type} `{World W}.
Implicit Types v : vfs W.

Lemma put_state i h v : put_handle i h v = (tt, v <| v_handles := aset (v_handles v) i h |>).
Proof. done. Qed.

Lemma slot_put v i j h : 0 ≤ i < handles_capacity v → 0 ≤ j →
  handle_at (v <| v_handles := aset (v_handles v) i h |>) j = if decide (j = i) then h else handle_at v j.
Proof.
  intros Hi Hj. unfold handle_at. change (v_handles (v <| v_handles := _ |>)) with (aset (v_handles v) i h).
  destruct (decide (j = i)) as [->|]; [by apply aget_aset_eq|apply aget_aset_ne; lia].
Qed.

(** Writing a handle over one of the same kind. *)
Lemma put_neutral i h v : 0 ≤ i < handles_capacity v → kind h = profile v i →
  neutral v (v <| v_handles := aset (v_handles v) i h |>).
Proof.
  intros Hi Hk F. split; [unfold table_fits in *; cbn; by rewrite length_aset|].
  intros j Hj. unfold profile at 1. rewrite slot_put by done. by destruct (decide (j = i)) as [->|].
Qed.

Lemma get_handle_spec v d i h : get_handle v d = Some (i, h) →
  i = d - VFS_FD_BASE ∧ 0 ≤ i < handles_capacity v ∧ h = handle_at v i ∧ profile v i = Some (h_refs h).
Proof.
  unfold get_handle, profile, kind. destruct (Z.ltb_spec (d - VFS_FD_BASE) 0); [done|].
  destruct (Z.leb_spec (handles_capacity v) (d - VFS_FD_BASE)); [done|]. cbn [orb].
  case_bool_decide as E; [done|]. intros [= <- <-]. by rewrite decide_False.
Qed.

Lemma profile_range v i : 0 ≤ i → profile v i ≠ None → i < handles_capacity v.
Proof.
  intros Hi P. destruct (Z.lt_ge_cases i (handles_capacity v)); [done|]. destruct P.
  unfold profile, handle_at. by rewrite aget_end.
Qed.

Lemma get_handle_none v d : get_handle v d = None → VFS_FD_BASE ≤ d → profile v (d - VFS_FD_BASE) = None.
Proof.
  unfold get_handle, profile, kind. intros E Hd. destruct (Z.ltb_spec (d - VFS_FD_BASE) 0); [lia|].
  destruct (Z.leb_spec (handles_capacity v) (d - VFS_FD_BASE)).
  - unfold handle_at. rewrite aget_end by done. done.
  - cbn [orb] in E. case_bool_decide as T; [|done]. by rewrite decide_True.
Qed.

Lemma on_world_handles {A} (f : W → A * W) v : v_handles (on_world f v).2 = v_handles v.
Proof. unfold on_world. by destruct (f _). Qed.

(** The growth of the table gives room for one more handle, and every handle is
    where it was. *)
Lemma ensure_spec v : table_fits v →
  let '(ok, v') := handles_ensure (handles_capacity v + 1) v in
  neutral v v' ∧ (ok = true → handles_capacity v < handles_capacity v').
Proof.
  intros F. unfold table_fits in F. fold (handles_capacity v) in F. unfold handles_ensure, gets, id, mbind, st_bind.
  destruct (Z.ltb_spec (handles_capacity v + 1) (handles_capacity v)); [lia|].
  assert (0 ≤ handles_capacity v) by (unfold handles_capacity; lia).
  set (g0 := if negb (handles_capacity v =? 0) then _ else _).
  set (g := if g0 <? handles_capacity v + 1 then _ else _).
  assert (handles_capacity v + 1 ≤ g) by (subst g; destruct (Z.ltb_spec g0 (handles_capacity v + 1)); lia).
  destruct (Z.ltb_spec (2 ^ 20) g); [done|]. set (pages := (g * SIZEOF_HANDLE + 4095) / 4096).
  assert (g ≤ pages * 4096 / SIZEOF_HANDLE ≤ 2 ^ 20 + 8) as Hc.
  { subst pages. unfold SIZEOF_HANDLE in *. Z.div_mod_to_equations. lia. }
  destruct (on_world (pmm_allocate_contiguous pages) v) as [phys v1] eqn:E1.
  assert (v_handles v1 = v_handles v) as S1 by (by rewrite <- (on_world_handles (pmm_allocate_contiguous pages) v), E1).
  destruct (phys =? 0); [split; [by apply neutral_same|done]|].
  set (free := if negb (v_handles_phys v =? 0) then _ else _).
  destruct (free v1) as [u v2] eqn:E2.
  assert (v_handles v2 = v_handles v1) as S2.
  { change v2 with ((u, v2).2). rewrite <- E2. subst free. destruct (v_handles_phys v =? 0); [done|apply on_world_handles]. }
  rewrite u32_small by lia. unfold modify, mret, st_ret.
  set (extra := replicate _ handle_zero).
  assert (v_handles v2 ++ extra = v_handles v ++ extra) as E by (by rewrite S2, S1).
  assert (length extra = Z.to_nat (pages * 4096 / SIZEOF_HANDLE - handles_capacity v)) as Le by apply length_replicate.
  unfold handles_capacity in *. split; [|intros _; cbn; rewrite E, length_app; lia].
  intros _. split; [unfold table_fits; cbn; rewrite E, length_app; lia|].
  intros i Hi. unfold profile, handle_at.
  change (kind (aget handle_zero (v_handles v2 ++ extra) i) = kind (aget handle_zero (v_handles v) i)).
  rewrite E. destruct (Z.lt_ge_cases i (Z.of_nat (length (v_handles v)))) as [L|L].
  - rewrite aget_app_l by lia. done.
  - rewrite aget_app_r, (aget_end _ (v_handles v)) by done. unfold extra. by rewrite aget_replicate.
Qed.

Lemma allocate_spec v : table_fits v →
  let '(r, v') := allocate_handle v in
  neutral v v' ∧
  match r with
  | inr i => 0 ≤ i < handles_capacity v' ∧ profile v' i = None
  | inl e => e < 0
  end.
Proof.
  intros F. unfold allocate_handle, gets, id, mbind, st_bind. destruct (for_first _ _ _) as [i|] eqn:E.
  - apply for_first_Some in E as (Hi&T&_). split; [done|]. split; [unfold handles_capacity; lia|].
    apply bool_decide_eq_true in T. unfold profile, kind. by rewrite decide_True.
  - pose proof (ensure_spec v F) as S. destruct (handles_ensure _ v) as [ok v']. destruct S as [N L].
    destruct ok; (split; [done|]); [|done]. specialize (L eq_refl).
    assert (0 ≤ handles_capacity v) by (unfold handles_capacity; lia). split; [done|].
    destruct (N F) as [_ ->]; [|done]. unfold profile, handle_at. unfold handles_capacity.
    by rewrite aget_end.
Qed.

(** What a call that opens promises; [Q] is about the handle. *)
Definition opened (Q : vfs_handle → Prop) v (h : Z) v' : Prop :=
  table_fits v → table_fits v' ∧
  if h <? 0 then ∀ i, 0 ≤ i → profile v' i = profile v i
  else ∃ i, h = VFS_FD_BASE + i ∧ 0 ≤ i ∧ profile v i = None ∧ Q (handle_at v' i) ∧
    ∀ j, 0 ≤ j → profile v' j = if decide (j = i) then Some 1 else profile v j.
Definition anything (h : vfs_handle) : Prop := True.

Lemma opened_error Q v h v' : h < 0 → neutral v v' → opened Q v h v'.
Proof.
  intros Hh N F. destruct (N F) as [F' E]. split; [done|]. destruct (Z.ltb_spec h 0); [done|lia].
Qed.

Lemma opened_after Q v v1 h v' : neutral v v1 → opened Q v1 h v' → opened Q v h v'.
Proof.
  intros N O F. destruct (N F) as [F1 E1]. destruct (O F1) as [F' E']. split; [done|].
  destruct (h <? 0).
  - intros i Hi. by rewrite E', E1.
  - destruct E' as (i&->&Hi&P&HQ&E'). exists i. split_and!; [done..|by rewrite <- E1|done|].
    intros j Hj. rewrite E' by done. destruct (decide _); [done|by apply E1].
Qed.

Lemma opened_before v h v1 v' : opened anything v h v1 → neutral v1 v' → opened anything v h v'.
Proof.
  intros O N F. destruct (O F) as [F1 E1]. destruct (N F1) as [F' E']. split; [done|]. destruct (h <? 0).
  - intros i Hi. by rewrite E', E1.
  - destruct E1 as (i&->&Hi&P&_&E1). exists i. split_and!; [done..|]. intros j Hj. by rewrite E', E1.
Qed.

Lemma opened_put (Q : vfs_handle → Prop) v i h : 0 ≤ i < handles_capacity v → profile v i = None → kind h = Some 1 → Q h →
  opened Q v (VFS_FD_BASE + i) (v <| v_handles := aset (v_handles v) i h |>).
Proof.
  intros Hi P K HQ F. split; [unfold table_fits in *; cbn; by rewrite length_aset|].
  unfold VFS_FD_BASE. destruct (Z.ltb_spec (3 + i) 0); [lia|]. exists i. split_and!; [done|lia|done| |].
  - rewrite slot_put by lia. by rewrite decide_True.
  - intros j Hj. unfold profile at 1. rewrite slot_put by done. by destruct (decide (j = i)).
Qed.

Lemma resolve_error p v e : (resolve p v).1 = inl e → e < 0.
Proof.
  unfold resolve, mbind, st_bind. destruct (ensure_mounts v) as [u v1].
  destruct (aget 0 p 0 =? 0); [by intros [= <-]|]. destruct (_ && _); [by intros [= <-]|].
  destruct (vfs_alias_resolve _ _) as [[s q]|]; [|by intros [= <-]]. destruct (s <? 0); [by intros [= <-]|].
  unfold gets. cbn. destruct (vfs_mount_find _ _ _ _) as [[m [r|]]|]; [done|by intros [= <-]..].
Qed.

(** The same of a call, along its text. *)
Definition opens (Q : vfs_handle → Prop) (m : st (vfs W) Z) : Prop := ∀ v, opened Q v (m v).1 (m v).2.

Lemma opens_bind {A} Q (m : st (vfs W) A) k : always neutral m → (∀ x, opens Q (k x)) → opens Q (m ≫= k).
Proof.
  intros Hm Hk v. unfold mbind, st_bind. specialize (Hm v). destruct (m v) as [x v1].
  eapply opened_after; [exact Hm|apply Hk].
Qed.

Lemma opens_error Q e : e < 0 → opens Q (mret e).
Proof. intros He v. by apply opened_error. Qed.

Lemma opens_check Q (m : st (vfs W) Z) k : always neutral m → opens Q k → opens Q (m ;;? k).
Proof.
  intros Hm Hk. apply opens_bind; [done|]. intros s. destruct (Z.ltb_spec s 0); [by apply opens_error|done].
Qed.

Lemma opens_ok {A} Q (m : st (vfs W) (Z + A)) k : always neutral m → (∀ v e, (m v).1 = inl e → e < 0) →
  (∀ x, opens Q (k x)) → opens Q (bind_ok m k).
Proof.
  intros Hm He Hk v. unfold bind_ok, mbind, st_bind. specialize (Hm v). specialize (He v).
  destruct (m v) as [[e|x] v1]; [apply opened_error; [by apply He|done]|].
  eapply opened_after; [exact Hm|apply Hk].
Qed.

Lemma opens_allocate Q (k : Z → st (vfs W) Z) :
  (∀ i v, 0 ≤ i < handles_capacity v → profile v i = None → opened Q v (k i v).1 (k i v).2) →
  opens Q (bind_ok allocate_handle k).
Proof.
  intros Hk v F. pose proof (allocate_spec v F) as S. unfold bind_ok, mbind, st_bind.
  destruct (allocate_handle v) as [[e|i] v1]; destruct S as [N S].
  - by apply opened_error.
  - destruct S as [Hi P]. apply (opened_after Q v v1); [exact N|exact (Hk i v1 Hi P)|exact F].
Qed.
End Table.

(** ** Opening *)

Section Opening.
Context {W : Type} `{World W}.
Implicit Types v : vfs W.

Ltac opens_step :=
  first [ apply opens_ok; [solve [eauto 2 with calls]|intros ? ?; apply resolve_error|intros ?]
        | apply opens_check; [solve [eauto 2 with calls]|]
        | apply opens_allocate; intros i v Hi P ].

Lemma put_open_error Q v i h e : 0 ≤ i < handles_capacity v → profile v i = None → kind h = None → e < 0 →
  opened Q v e (v <| v_handles := aset (v_handles v) i h |>).
Proof. intros. apply opened_error; [done|]. apply put_neutral; [done|congruence]. Qed.

Lemma opens_weaken (Q Q' : vfs_handle → Prop) m : (∀ h, Q h → Q' h) → opens Q m → opens Q' (m : st (vfs W) Z).
Proof.
  intros HQ Hm v F. destruct (Hm v F) as [F' E]. split; [done|]. destruct (_ <? 0); [done|].
  destruct E as (i&?&?&?&?&?). exists i. split_and!; auto.
Qed.

Lemma open_of_handles m p v : v_handles (open_of m p v).2 = v_handles v.
Proof.
  unfold open_of, gets, id, mbind, st_bind. destruct (f_open _); [|done].
  destruct (mount_ready _ _); [apply on_world_handles|done].
Qed.

(** Not open for writing. *)
Definition plain (h : vfs_handle) : Prop := h_type h ≠ VFS_HANDLE_WRITABLE.

Lemma vfs_open_opens p : opens plain (vfs_open (W:=W) p).
Proof.
  unfold vfs_open. do 3 opens_step.
  unfold gets, id, mbind, st_bind. cbv beta zeta. destruct (is_klog_path _); [by apply opened_put|].
  destruct (overlay_find _ _) as [data|]; [by apply opened_put|]. destruct (map_of _ _ _) as [data|]; [by apply opened_put|].
  rewrite put_state. set (v1 := v <| v_handles := _ |>).
  assert (neutral v v1) as N1 by (apply put_neutral; [done|by rewrite P]).
  assert (handles_capacity v1 = handles_capacity v) as C1 by (unfold handles_capacity; cbn; by rewrite length_aset).
  assert (profile v1 i = None) as P1.
  { unfold profile, v1. rewrite slot_put by lia. by rewrite decide_True. }
  eapply opened_after; [exact N1|]. clearbody v1. clear N1.
  pose proof (open_of_handles (r_mount x) (r_relative x) v1) as Hm.
  destruct (open_of _ _ v1) as [b v2]. cbn [snd] in Hm.
  eapply opened_after; [by apply neutral_same|].
  assert (0 ≤ i < handles_capacity v2) by (unfold handles_capacity in *; rewrite Hm; lia).
  assert (profile v2 i = None) by (unfold profile, handle_at in *; by rewrite Hm).
  destruct (Z.ltb_spec b 0); rewrite put_state; [by apply put_open_error|by apply opened_put].
Qed.

Lemma open_writable_opens p f : opens anything (open_writable (W:=W) p f).
Proof.
  unfold open_writable. do 3 opens_step. unfold mbind, st_bind. cbv beta zeta. rewrite put_state.
  set (h := (fresh_handle _) <| h_type := _ |> <| h_wflags := _ |>). set (v1 := v <| v_handles := _ |>).
  assert (opened anything v (VFS_FD_BASE + i) v1) as O by by apply opened_put.
  destruct (negb _); [|exact O].
  pose proof (vfs_stat_neutral (h_path h) v1) as N. destruct (vfs_stat (h_path h) v1) as [s v2]. cbn [snd] in N.
  destruct (0 <=? s.1); [|exact (opened_before _ _ _ _ O N)]. rewrite put_state.
  apply (opened_before _ _ v1); [exact O|].
  intros F1. destruct (N F1) as [F2 E2].
  assert (profile v1 i = Some 1) as K1 by (unfold profile, v1; rewrite slot_put by lia; by rewrite decide_True).
  rewrite <- E2 in K1 by lia.
  assert (0 ≤ i < handles_capacity v2) as R by (split; [lia|apply profile_range; [lia|congruence]]).
  destruct (put_neutral i (h <| h_position := u32 (size s.2) |>) v2 R) as [F3 E3]; [by rewrite K1|done|].
  split; [exact F3|]. intros j Hj. by rewrite E3, E2.
Qed.

Lemma vfs_open_flags_opens p f : opens anything (vfs_open_flags (W:=W) p f).
Proof.
  unfold vfs_open_flags. assert (opens anything (vfs_open p)) as Ho by by apply (opens_weaken plain), vfs_open_opens.
  destruct (_ && _); [done|]. apply opens_check; [eauto with calls|].
  destruct (_ =? 0); [done|apply open_writable_opens].
Qed.
End Opening.

(** ** Using and closing *)

Section Using.
Context {W : Type} `{World W}.
Implicit Types v : vfs W.

Lemma seek_neutral d o w : always neutral (vfs_seek (W:=W) d o w).
Proof.
  intros v. unfold vfs_seek. destruct (_ && _); [done|]. unfold gets, id, mbind, st_bind.
  destruct (get_handle v d) as [[i h]|] eqn:G; [|done].
  apply get_handle_spec in G as (_&Hi&->&P).
  assert (∀ h', kind h' = kind (handle_at v i) →
    neutral v (v <| v_handles := aset (v_handles v) i h' |>)) as Put by (intros; by apply put_neutral).
  assert (∀ b, neutral v (snd ((if i64 (b + o) <? 0 then mret FS_ERROR_INVALID
    else mbind (λ _, mret (clamp_position (i64 (b + o))))
      (put_handle i ((handle_at v i) <| h_position := clamp_position (i64 (b + o)) |>))) v))) as Move.
  { intros b. destruct (i64 (b + o) <? 0); [done|]. by apply Put. }
  destruct (h_type (handle_at v i)) eqn:T; try apply Move.
  - destruct (f_seek _); [apply on_world_neutral|done].
  - by apply Put.
  - destruct (w =? SEEK_CUR); [apply Move|]. destruct (w =? SEEK_END); [|apply Move].
    pose proof (vfs_stat_neutral (Cstr.copy_text (h_path (handle_at v i)) VFS_PATH_MAX) v) as N.
    destruct (vfs_stat _ v) as [s v1]. cbn [snd] in N.
    set (b := if 0 <=? s.1 then size s.2 else 0). destruct (i64 (b + o) <? 0); [exact N|]. rewrite put_state.
    intros F. destruct (N F) as [F1 E1]. assert (profile v1 i = Some (h_refs (handle_at v i))) as P1 by (rewrite E1; [done|lia]).
    destruct (put_neutral i ((handle_at v i) <| h_position := clamp_position (i64 (b + o)) |>) v1) as [F2 E2]; [| |done|].
    + split; [lia|]. apply profile_range; [lia|congruence].
    + rewrite P1, <- P. done.
    + split; [exact F2|]. intros j Hj. by rewrite E2, E1.
Qed.

Lemma close_of_handles h v : v_handles (close_of h v).2 = v_handles v.
Proof.
  unfold close_of, gets, id, mbind, st_bind. destruct (h_type h); try done.
  destruct (f_close _); [apply on_world_handles|done].
Qed.

Lemma close_spec d v : table_fits v → table_fits (vfs_close d v).2 ∧ ∀ j, 0 ≤ j →
  profile (vfs_close d v).2 j =
    match profile v j with
    | Some r => if decide (d = VFS_FD_BASE + j) then if 1 <? r then Some (u32 (r - 1)) else None else Some r
    | None => None
    end.
Proof.
  intros F. unfold vfs_close, gets, id, mbind, st_bind. destruct (get_handle v d) as [[i h]|] eqn:G.
  2:{ split; [done|]. intros j Hj. unfold mret, st_ret. cbn [snd]. destruct (decide (d = VFS_FD_BASE + j)) as [->|]; [|by destruct (profile v j)].
      apply get_handle_none in G; [|unfold VFS_FD_BASE; lia].
      replace (VFS_FD_BASE + j - VFS_FD_BASE) with j in G by lia. by rewrite G. }
  apply get_handle_spec in G as (->&Hi&->&P).
  assert (∀ (u : vfs W) h', v_handles u = v_handles v → let u' := u <| v_handles := aset (v_handles u) (d - VFS_FD_BASE) h' |> in
    table_fits u' ∧ ∀ j, 0 ≤ j → profile u' j = if decide (d = VFS_FD_BASE + j) then kind h' else profile v j) as Put.
  { intros u h' S u'. split; [unfold table_fits, u' in *; cbn; by rewrite length_aset, S|]. intros j Hj.
    assert (0 ≤ d - VFS_FD_BASE < handles_capacity u) by (unfold handles_capacity in *; by rewrite S).
    unfold profile at 1, u'. rewrite slot_put by done.
    destruct (decide (d = VFS_FD_BASE + j)), (decide (j = d - VFS_FD_BASE)); try lia; [done|].
    unfold profile, handle_at. by rewrite S. }
  assert (∀ j, d = VFS_FD_BASE + j → profile v j = Some (h_refs (handle_at v (d - VFS_FD_BASE)))) as Pj.
  { intros j ->. by replace j with (VFS_FD_BASE + j - VFS_FD_BASE) at 1 by lia. }
  destruct (1 <? h_refs _) eqn:R.
  - rewrite put_state. destruct (Put v ((handle_at v (d - VFS_FD_BASE)) <| h_refs := u32 (h_refs (handle_at v (d - VFS_FD_BASE)) - 1) |>))
      as [F' E]; [done|]. split; [exact F'|]. intros j Hj. cbn [snd]. etrans; [by apply E|].
    destruct (decide (d = VFS_FD_BASE + j)) as [D|]; [|by destruct (profile v j)].
    rewrite (Pj j D), R. unfold profile, kind in P. unfold kind.
    change (h_type (_ <| h_refs := _ |>)) with (h_type (handle_at v (d - VFS_FD_BASE))).
    destruct (decide (h_type _ = _)); done.
  - pose proof (close_of_handles (handle_at v (d - VFS_FD_BASE)) v) as S.
    destruct (close_of _ v) as [r v1]. cbn [snd] in S. rewrite put_state. destruct (Put v1 handle_zero S) as [F' E].
    split; [exact F'|]. intros j Hj. cbn [snd]. etrans; [by apply E|].
    destruct (decide (d = VFS_FD_BASE + j)) as [D|]; [|by destruct (profile v j)]. by rewrite (Pj j D), R.
Qed.

(** Opening a file, using it and closing it. *)
Lemma bracket Q v h v1 v2 : opened Q v h v1 → (h <? 0) = false → neutral v1 v2 → neutral v (vfs_close h v2).2.
Proof.
  intros O Hh N F. destruct (O F) as [F1 E1]. rewrite Hh in E1. destruct E1 as (i&->&Hi&P&_&E1).
  destruct (N F1) as [F2 E2]. destruct (close_spec (VFS_FD_BASE + i) v2 F2) as [F3 E3].
  split; [exact F3|]. intros j Hj. rewrite E3, E2, E1 by done.
  destruct (decide (j = i)) as [->|Ne]; [by rewrite decide_True, P|].
  destruct (profile v j); [|done]. by rewrite decide_False by lia.
Qed.

Lemma opened_neutral Q v h v' : opened Q v h v' → (h <? 0) = true → neutral v v'.
Proof. intros O Hh F. destruct (O F) as [F1 E1]. by rewrite Hh in E1. Qed.

Lemma read_with_neutral nested d n : (∀ d n, always neutral (nested d n)) → always neutral (read_with (W:=W) nested d n).
Proof.
  intros Hn v. unfold read_with, gets, id, mbind, st_bind. destruct (get_handle v d) as [[i h]|] eqn:G; [|done].
  apply get_handle_spec in G as (_&Hi&->&P).
  assert (∀ h', kind h' = kind (handle_at v i) →
    neutral v (v <| v_handles := aset (v_handles v) i h' |>)) as Put by (intros; by apply put_neutral).
  assert (neutral v (snd ((if h_size (handle_at v i) <=? h_position (handle_at v i) then mret (0, []) else
    let amt := if n <? u32 (h_size (handle_at v i) - h_position (handle_at v i)) then n
               else u32 (h_size (handle_at v i) - h_position (handle_at v i)) in
    mbind (λ _, mret (i32 amt, take (Z.to_nat amt) (drop (Z.to_nat (h_position (handle_at v i))) (h_data (handle_at v i)))))
      (put_handle i ((handle_at v i) <| h_position := u32 (h_position (handle_at v i) + amt) |>))) v))) as Memory.
  { destruct (_ <=? _); [done|]. by apply Put. }
  destruct (h_type (handle_at v i)) eqn:T; try exact Memory.
  - destruct (f_read _); [apply on_world_neutral|done].
  - destruct (klog_read_since _ _ _) as [[out c] l]. by apply Put.
  - destruct (Z.land _ 2 =? 0); [done|].
    pose proof (vfs_open_opens (Cstr.copy_text (h_path (handle_at v i)) VFS_PATH_MAX) v) as O.
    destruct (vfs_open _ v) as [t v1]. cbn [fst snd] in O.
    destruct (t <? 0) eqn:Et; [by apply (opened_neutral plain v t)|].
    pose proof (seek_neutral t (h_position (handle_at v i)) SEEK_SET v1) as N2. destruct (vfs_seek _ _ _ v1) as [s v2].
    pose proof (Hn t n v2) as N3. destruct (nested t n v2) as [got v3]. cbn [snd] in *.
    pose proof (bracket plain v t v1 v3 O Et ltac:(by etrans)) as N4. destruct (vfs_close t v3) as [r v4]. cbn [snd] in *.
    etrans; [exact N4|]. destruct (get_handle v4 d) as [[k g]|] eqn:G; [|done].
    apply get_handle_spec in G as (_&Hk&->&Pk). destruct (0 <? got.1); [|done]. rewrite put_state. by apply put_neutral.
Qed.

Lemma read_neutral d n : always neutral (vfs_read (W:=W) d n).
Proof. apply read_with_neutral. intros ? ?. apply read_with_neutral. intros ? ? v. done. Qed.

Lemma load_loop_neutral fuel fd len : ∀ k b, always neutral (load_loop (W:=W) fuel fd k len b).
Proof.
  induction fuel as [|fuel IH]; intros k b; cbn [load_loop]; [walk_call|]. destruct (negb _); [walk_call|].
  apply always_bind; [apply _|apply read_neutral|]. intros got. destruct (_ <=? 0); [walk_call|apply IH].
Qed.

Lemma load_prefix_neutral p b len : always neutral (load_prefix (W:=W) p b len).
Proof.
  intros v. unfold load_prefix, mbind, st_bind. destruct (len =? 0); [done|].
  pose proof (vfs_open_opens p v) as O. destruct (vfs_open p v) as [fd v1]. cbn [fst snd] in O.
  destruct (fd <? 0) eqn:E; [by apply (opened_neutral plain v fd)|].
  pose proof (load_loop_neutral (S (Z.to_nat len)) fd len 0 b v1) as N. destruct (load_loop _ _ _ _ _ v1) as [b' v2].
  pose proof (bracket plain v fd v1 v2 O E N) as N'. by destruct (vfs_close fd v2).
Qed.
#[local] Hint Resolve load_prefix_neutral : calls.

Lemma rewrite_neutral p o d n : always neutral (rewrite_file (W:=W) p o d n).
Proof. unfold rewrite_file. walk_call. Qed.
#[local] Hint Resolve rewrite_neutral : calls.

Lemma write_neutral d b : always neutral (vfs_write (W:=W) d b).
Proof.
  unfold vfs_write. apply always_bind; [apply _|apply always_gets, _|]. intros v0.
  destruct (get_handle v0 d) as [[i h]|]; [|walk_call]. case_bool_decide; [walk_call|]. destruct (_ =? 0); [walk_call|].
  apply always_bind; [apply _|eauto with calls|]. intros sz. cbv zeta. apply always_bind; [apply _| |].
  { destruct (_ || _); eauto with calls. }
  intros st. destruct (st <? 0); [walk_call|]. intros v. unfold gets, id, mbind, st_bind.
  destruct (get_handle v d) as [[k g]|] eqn:G; [|done]. apply get_handle_spec in G as (_&Hk&->&P).
  rewrite put_state. by apply put_neutral.
Qed.

Lemma truncate_neutral d n : always neutral (vfs_handle_truncate (W:=W) d n).
Proof.
  unfold vfs_handle_truncate. apply always_bind; [apply _|apply always_gets, _|]. intros v0.
  destruct (get_handle v0 d) as [[i h]|]; [|walk_call]. case_bool_decide; [walk_call|]. walk_call.
Qed.
End Using.

(** ** The nested read *)

Section Nested.
Context {W : Type} `{World W}.
Implicit Types v : vfs W.

(** The descriptor is no handle that is open for writing. *)
Definition not_writable v d : Prop := ∀ i h, get_handle v d = Some (i, h) → plain h.

Lemma read_plain N N' d n v : not_writable v d → read_with N d n v = read_with N' d n v.
Proof.
  intros P. unfold read_with, gets, id, mbind, st_bind. destruct (get_handle v d) as [[i h]|] eqn:G; [|done].
  specialize (P i h G). unfold plain in P. by destruct (h_type h).
Qed.

Lemma seek_plain d o w v : not_writable v d → not_writable (vfs_seek d o w v).2 d.
Proof.
  intros P. unfold vfs_seek. destruct (_ && _); [done|]. unfold gets, id, mbind, st_bind.
  destruct (get_handle v d) as [[i h]|] eqn:G; [|done]. specialize (P i h G) as Ph.
  apply get_handle_spec in G as (->&Hi&->&_). set (i := d - VFS_FD_BASE) in *.
  assert (∀ h', plain h' → not_writable (v <| v_handles := aset (v_handles v) i h' |>) d) as Put.
  { intros h' Hh j g (->&_&->&_)%get_handle_spec. fold i. rewrite slot_put by lia. by rewrite decide_True. }
  assert (∀ b, not_writable (snd ((if i64 (b + o) <? 0 then mret FS_ERROR_INVALID
    else mbind (λ _, mret (clamp_position (i64 (b + o))))
      (put_handle i ((handle_at v i) <| h_position := clamp_position (i64 (b + o)) |>))) v)) d) as Move.
  { intros b. destruct (i64 (b + o) <? 0); [done|]. by apply Put. }
  unfold plain in Ph. destruct (h_type (handle_at v i)) eqn:T; try apply Move; [| |done].
  - destruct (f_seek _) as [f|]; [|done]. intros j g G. apply (P j g). rewrite <- G.
    unfold get_handle, handles_capacity, handle_at. by rewrite on_world_handles.
  - apply Put. unfold plain. cbn. by rewrite T.
Qed.

(** Reading a file that is open for reading and writing reads through a
    temporary handle, by calling the read operation again; that second call
    never needs a third, so the read operation is the solution of its own
    equation and always ends. *)
Theorem vfs_read_nests_once v d n : table_fits v → vfs_read d n v = read_with vfs_read d n v.
Proof.
  intros F. unfold vfs_read at 1. unfold read_with at 1 3. unfold gets, id, mbind, st_bind.
  destruct (get_handle v d) as [[i h]|]; [|done]. destruct (h_type h); try done.
  destruct (Z.land _ 2 =? 0); [done|].
  pose proof (vfs_open_opens (Cstr.copy_text (h_path h) VFS_PATH_MAX) v F) as [_ O].
  destruct (vfs_open _ v) as [t v1]. cbn [fst snd] in O. destruct (t <? 0); [done|].
  destruct O as (k&->&Hk&_&Q&_).
  assert (not_writable v1 (VFS_FD_BASE + k)) as P1.
  { intros j g (->&_&->&_)%get_handle_spec. by replace (VFS_FD_BASE + k - VFS_FD_BASE) with k by lia. }
  pose proof (seek_plain (VFS_FD_BASE + k) (h_position h) SEEK_SET v1 P1) as P2.
  destruct (vfs_seek _ _ _ v1) as [s v2]. unfold vfs_read. by rewrite (read_plain _ (read_with (λ _ _, mret (FS_ERROR_INVALID, []))) _ n v2 P2).
Qed.
End Nested.

(** ** The interface of the descriptions *)

Section Interface.
Context {W : Type} `{World W}.
Implicit Types v : vfs W.

(** The table fits and, as nobody calls [vfs_ref], every open handle counts one. *)
Definition table_ok v : Prop := table_fits v ∧ ∀ i, 0 ≤ i → profile v i = None ∨ profile v i = Some 1.

Definition open_handles v : gset Z :=
  list_to_set (filter (λ h, profile v (h - VFS_FD_BASE) ≠ None) (seqZ VFS_FD_BASE (handles_capacity v))).

Lemma elem_of_open v h : h ∈ open_handles v ↔ VFS_FD_BASE ≤ h ∧ profile v (h - VFS_FD_BASE) ≠ None.
Proof.
  unfold open_handles. rewrite elem_of_list_to_set, list_elem_of_filter, elem_of_seqZ. split; [tauto|].
  intros [Hh P]. split_and!; [done|done|]. pose proof (profile_range v (h - VFS_FD_BASE) ltac:(lia) P). lia.
Qed.

Lemma neutral_open v v' : neutral v v' → table_fits v → open_handles v' = open_handles v.
Proof.
  intros N F. destruct (N F) as [_ E]. apply set_eq. intros h. rewrite !elem_of_open.
  split; intros [Hh P]; (split; [done|]); [rewrite <- E|rewrite E]; (done || lia).
Qed.

Lemma neutral_ok v v' : neutral v v' → table_ok v → table_ok v'.
Proof. intros N [F P]. destruct (N F) as [F' E]. split; [done|]. intros i Hi. rewrite E by done. by apply P. Qed.

Lemma opened_ok Q v h v' : opened Q v h v' → table_ok v → table_ok v'.
Proof.
  intros O [F P]. destruct (O F) as [F' E]. split; [done|]. destruct (h <? 0).
  - intros i Hi. rewrite E by done. by apply P.
  - destruct E as (k&_&_&_&_&E). intros i Hi. rewrite E by done. destruct (decide _); [by right|by apply P].
Qed.

Lemma close_ok d v : table_ok v → table_ok (vfs_close d v).2.
Proof.
  intros [F P]. destruct (close_spec d v F) as [F' E]. split; [done|]. intros i Hi. rewrite E by done.
  destruct (P i Hi) as [-> | ->]; [by left|]. destruct (decide _); [by left|by right].
Qed.

Lemma vfs_boot_ok uid gid (w : W) : table_ok (vfs_boot uid gid w).
Proof.
  split; [done|]. intros i Hi. left. unfold profile, handle_at. rewrite aget_end; [done|cbn; lia].
Qed.

(** The states with a good table. *)
Definition good_vfs : Type := { v : vfs W | table_ok v }.
Definition lift {A} (m : st (vfs W) A) (Hm : ∀ v, table_ok v → table_ok (m v).2) : st good_vfs A :=
  λ g, ((m (proj1_sig g)).1, exist _ (m (proj1_sig g)).2 (Hm _ (proj2_sig g))).
End Interface.

Arguments good_vfs W : clear implicits.

(** The interface [VfsOps] of [Ofd], as the core implements it. *)
Section Instances.
Context {W : Type} `{World W}.

#[export] Program Instance core_vfs_ops : VfsOps (good_vfs W) := {|
  Ofd.vfs_handles g := open_handles (proj1_sig g);
  Ofd.vfs_open_flags p f := lift (vfs_open_flags p f) _;
  Ofd.vfs_close h := lift (vfs_close h) _;
  Ofd.vfs_read h n := lift (vfs_read h n) _;
  Ofd.vfs_write h d := lift (vfs_write h d) _;
  Ofd.vfs_seek h o w := lift (vfs_seek h o w) _;
  Ofd.vfs_handle_truncate h n := lift (vfs_handle_truncate h n) _;
  Ofd.vfs_handle_stat h := lift (vfs_handle_stat h) _;
  Ofd.vfs_handle_path h c g := vfs_handle_path (proj1_sig g) h c;
|}.
Next Obligation. intros p f v. eapply opened_ok, vfs_open_flags_opens. Qed.
Next Obligation. apply close_ok. Qed.
Next Obligation. intros h n v. apply neutral_ok, read_neutral. Qed.
Next Obligation. intros h d v. apply neutral_ok, write_neutral. Qed.
Next Obligation. intros h o w v. apply neutral_ok, seek_neutral. Qed.
Next Obligation. intros h n v. apply neutral_ok, truncate_neutral. Qed.
Next Obligation. intros h v. apply neutral_ok, handle_stat_neutral. Qed.

#[export] Instance core_vfs_laws : VfsLaws (good_vfs W).
Proof.
  split.
  - intros p f [v [F P]]. cbn. destruct (vfs_open_flags_opens p f v F) as [F' E].
    destruct (Vfs.vfs_open_flags p f v) as [h v']. cbn [fst snd] in *. destruct (h <? 0).
    + apply neutral_open; [by intros _|done].
    + destruct E as (i&->&Hi&Pi&_&E). split.
      * rewrite elem_of_open. intros [_ []]. by replace (VFS_FD_BASE + i - VFS_FD_BASE) with i by lia.
      * apply set_eq. intros h. rewrite elem_of_union, elem_of_singleton, !elem_of_open. split.
        -- intros [Hh Ph]. rewrite E in Ph by lia. destruct (decide (h - VFS_FD_BASE = i)); [left; lia|by right].
        -- intros [->|[Hh Ph]]; (split; [lia|]); rewrite E by lia; destruct (decide _); try done; lia.
  - intros h [v [F P]] Hh. cbn. destruct (close_spec h v F) as [F' E]. apply set_eq. intros x.
    cbn in Hh. rewrite elem_of_difference, elem_of_singleton, !elem_of_open. rewrite elem_of_open in Hh.
    split.
    + intros [Hx Px]. rewrite E in Px by lia. destruct (P (x - VFS_FD_BASE) ltac:(lia)) as [Q|Q]; rewrite Q in *; [done|].
      destruct (decide (h = VFS_FD_BASE + (x - VFS_FD_BASE))); [done|]. split; [done|lia].
    + intros [[Hx Px] Ne]. split; [done|]. rewrite E by lia. destruct (profile v (x - VFS_FD_BASE)); [|done].
      by rewrite decide_False by lia.
  - intros h [v [F P]] Hh. cbn in *. destruct (close_spec h v F) as [F' E]. apply neutral_open; [|done].
    intros _. split; [done|]. intros i Hi. rewrite E by done. destruct (profile v i) as [r|] eqn:Q; [|done].
    rewrite decide_False; [done|]. intros ->. apply Hh, elem_of_open. split; [lia|].
    replace (VFS_FD_BASE + i - VFS_FD_BASE) with i by lia. by rewrite Q.
  - intros h n [v [F P]]. cbn. apply neutral_open; [apply read_neutral|done].
  - intros h n [v [F P]]. cbn. apply neutral_open; [apply write_neutral|done].
  - intros h o w [v [F P]]. cbn. apply neutral_open; [apply seek_neutral|done].
  - intros h n [v [F P]]. cbn. apply neutral_open; [apply truncate_neutral|done].
  - intros h [v [F P]]. cbn. apply neutral_open; [apply handle_stat_neutral|done].
Qed.
End Instances.

(** ** The descriptors over the core *)

Section System.
Context {W : Type} `{World W}.

(** C14: No file handle of the virtual file system leaks and none is closed while
    it is in use: in every state the descriptor calls of any number of processes
    can reach from a file system without open handles, a handle is open exactly
    if one file description holds it, and no two hold the same. *)
Theorem core_handles_exact (v0 : good_vfs W) (s : sys (good_vfs W)) x :
  open_handles (proj1_sig v0) = ∅ → fd_reachable v0 s →
  sum_of (is_file x) (k_table (s_kern s)) =
    if decide (x ∈ open_handles (proj1_sig (k_vfs (s_kern s)))) then 1 else 0.
Proof.
  intros E R. rewrite (fd_handles_exact v0 s x R). cbn [Ofd.vfs_handles core_vfs_ops]. rewrite E.
  rewrite (decide_False (P := x ∈ ∅)) by set_solver. apply Z.sub_0_r.
Qed.

Lemma mount_initramfs_neutral : always neutral (vfs_mount_initramfs (W:=W)).
Proof.
  unfold vfs_mount_initramfs. apply always_bind; [apply _|apply on_world_neutral|]. intros [|]; [|walk_call].
  apply always_bind; [apply _|apply set_root_neutral|]. walk_call.
Qed.
End System.

(** ** The system of [Live] *)

Lemma live_system_ok : table_ok live_system.
Proof. eapply neutral_ok; [apply mount_initramfs_neutral|apply vfs_boot_ok]. Qed.

(** A process opens a file for reading and writing. *)
Definition live_vfs : good_vfs live := exist _ live_system live_system_ok.
Definition live_sys : sys (good_vfs live) :=
  foldl (λ s op, fd_exec op s) (sys_boot Pipe.demo_boot_64 live_vfs)
    [OpSpawn; OpOpen (Some 0) true (text "/tmp/x") (Z.lor 2 O_CREAT)].

Lemma live_sys_reachable : fd_reachable live_vfs live_sys.
Proof.
  unfold live_sys. cbn [foldl]. apply fd_step; [apply fd_step|].
  - apply fd_boot. exact Pipe.demo_boot_64_wf.
  - unfold fd_op_ok. vm_compute. reflexivity.
  - unfold fd_op_ok, cur_ok. split; [lia|vm_compute; reflexivity].
Qed.

Lemma core_handles_exact_witness :
  sum_of (is_file 3) (k_table (s_kern live_sys)) = 1 ∧ 3 ∈ open_handles (proj1_sig (k_vfs (s_kern live_sys))).
Proof.
  assert (open_handles (proj1_sig live_vfs) = ∅) as E by (vm_compute; reflexivity).
  assert (3 ∈ open_handles (proj1_sig (k_vfs (s_kern live_sys)))) as O
    by (apply (bool_decide_unpack _); vm_compute; exact I).
  split; [|exact O]. pose proof (core_handles_exact live_vfs live_sys 3 E live_sys_reachable) as T.
  rewrite decide_True in T; [exact T|exact O].
Defined.

(** The read of a descriptor that is open for writing too. *)
Lemma vfs_read_nests_once_witness :
  let v := (vfs_write 3 [4; 5] (vfs_open_flags (text "/tmp/x") (Z.lor 2 O_CREAT) live_system).2).2 in
  let v := (vfs_seek 3 0 SEEK_SET v).2 in
  (vfs_read 3 9 v).1 = (2, [4; 5]) ∧ vfs_read 3 9 v = read_with vfs_read 3 9 v.
Proof.
  cbv zeta. set (v := (vfs_seek 3 0 SEEK_SET _).2). split; [vm_compute; reflexivity|].
  apply vfs_read_nests_once. unfold table_fits. apply Z.leb_le. vm_compute. reflexivity.
Defined.
