(* ===== verification/VfsAccess.v ===== *)
(** * Who can change the tree

    A file system hides behind its functions; what a user sees of it, its
    [content], is whatever the functions that only read depend on.  Over any file
    systems that agree with this the core lets nobody change the content without
    the permission for it. *)

From S2P Require Pmm Initramfs Tmpfs.
From S2P Require Import Prelude State Errno Cstr Path Alias Mount Perm Vfs VfsSpec Live.
#[local] Existing Instance Tmpfs.eta_tmpfs.

(** ** Content *)

(** A call that keeps the content, and an answer that depends only on it. *)
Definition keeps {W C A} (content : W → C) (f : W → A * W) : Prop := ∀ w, content (f w).2 = content w.
Definition answers {W C A} (content : W → C) (f : W → A) : Prop := ∀ w w', content w = content w' → f w = f w'.

(** What the documentation of the functions promises: opening, reading, seeking
    and closing, the listings and the inquiries change nothing, and what is
    inquired does not depend on anything else. *)
Class Reads (W : Type) `{World W} (C : Type) := {
  content : W → C;
  reads_open a c p f : f_open (fs_at a) = Some f → keeps content (f c p);
  reads_read a c d n f : f_read (fs_at a) = Some f → keeps content (f c d n);
  reads_seek a c d o w f : f_seek (fs_at a) = Some f → keeps content (f c d o w);
  reads_close a c d f : f_close (fs_at a) = Some f → keeps content (f c d);
  reads_stat a c p f : f_stat (fs_at a) = Some f → keeps content (f c p) ∧ answers content (λ w, (f c p w).1);
  reads_list a c p n f : f_list (fs_at a) = Some f → keeps content (f c p n);
  reads_list_long a c p n f : f_list_long (fs_at a) = Some f → keeps content (f c p n);
  reads_stat_ex a c p f : f_stat_ex (fs_at a) = Some f → keeps content (f c p);
  reads_get_meta a c p f : f_get_meta (fs_at a) = Some f → keeps content (f c p) ∧ answers content (λ w, (f c p w).1);
  reads_ready a c f : f_is_ready (fs_at a) = Some f → answers content (f c);
  reads_allocate n : keeps content (pmm_allocate_contiguous n);
  reads_free p n : keeps content (pmm_free_contiguous p n);
}.

Section Quiet.
Context {W : Type} `{World W} {C : Type} `{!Reads W C}.
Implicit Types v : vfs W.

(** The mounts have been made. *)
Definition settled v : Prop := v_mounts_ready v = true ∧ v_tmpfs_synced v = true.

(** All that decides about paths and permissions. *)
Definition view v :=
  (v_mounts_ready v, v_tmpfs_synced v, v_live_mode v, v_mounts v, v_perms v, v_uid v, v_gid v, content (v_world v)).

Definition quiet v v' : Prop := settled v → view v' = view v.

Lemma view_settled v v' : view v' = view v → settled v → settled v'.
Proof. unfold view, settled. intros [= -> ->]. done. Qed.

#[export] Instance quiet_preorder : PreOrder quiet.
Proof.
  split; [by intros v Hv|]. intros v1 v2 v3 H12 H23 S. rewrite <- (H12 S). apply H23. by apply (view_settled v1), S; apply H12.
Qed.

Lemma on_world_quiet {A} (f : W → A * W) : keeps content f → always quiet (on_world f).
Proof.
  intros K v _. unfold on_world. specialize (K (v_world v)). destruct (f _) as [x w]. cbn [snd] in *.
  unfold view. cbn. by rewrite K.
Qed.

Lemma ensure_settled v : settled v → ensure_mounts v = (tt, v).
Proof.
  intros [R S]. unfold ensure_mounts, gets, mbind, st_bind. rewrite R. unfold sync_tmpfs_mounts, gets, id, mbind, st_bind.
  by rewrite S.
Qed.

Lemma ensure_quiet : always quiet (ensure_mounts (W:=W)).
Proof. intros v S. by rewrite ensure_settled. Qed.

(** A law about [fs_at] holds for the functions of a mount. *)
Lemma ops_at_fs (P : fs_table W → Prop) v m : P no_fs → (∀ a, P (fs_at a)) → P (ops_at v m).
Proof. intros HN HF. unfold ops_at, ops_of. destruct (m_ops _); [apply HF|apply HN]. Qed.

Lemma open_quiet v m c p f : f_open (ops_at v m) = Some f → always quiet (on_world (f c p)).
Proof. intros E. apply on_world_quiet. revert E. apply ops_at_fs; [done|]. intros a E. by eapply reads_open. Qed.
Lemma read_quiet v m c d n f : f_read (ops_at v m) = Some f → always quiet (on_world (f c d n)).
Proof. intros E. apply on_world_quiet. revert E. apply ops_at_fs; [done|]. intros a E. by eapply reads_read. Qed.
Lemma seek_quiet v m c d o w f : f_seek (ops_at v m) = Some f → always quiet (on_world (f c d o w)).
Proof. intros E. apply on_world_quiet. revert E. apply ops_at_fs; [done|]. intros a E. by eapply reads_seek. Qed.
Lemma close_quiet v m c d f : f_close (ops_at v m) = Some f → always quiet (on_world (f c d)).
Proof. intros E. apply on_world_quiet. revert E. apply ops_at_fs; [done|]. intros a E. by eapply reads_close. Qed.
Lemma stat_quiet v m c p f : f_stat (ops_at v m) = Some f → always quiet (on_world (f c p)).
Proof. intros E. apply on_world_quiet. revert E. apply ops_at_fs; [done|]. intros a E. by eapply reads_stat. Qed.
Lemma list_quiet v m c p n f : f_list (ops_at v m) = Some f → always quiet (on_world (f c p n)).
Proof. intros E. apply on_world_quiet. revert E. apply ops_at_fs; [done|]. intros a E. by eapply reads_list. Qed.
Lemma list_long_quiet v m c p n f : f_list_long (ops_at v m) = Some f → always quiet (on_world (f c p n)).
Proof. intros E. apply on_world_quiet. revert E. apply ops_at_fs; [done|]. intros a E. by eapply reads_list_long. Qed.
Lemma stat_ex_quiet v m c p f : f_stat_ex (ops_at v m) = Some f → always quiet (on_world (f c p)).
Proof. intros E. apply on_world_quiet. revert E. apply ops_at_fs; [done|]. intros a E. by eapply reads_stat_ex. Qed.
Lemma get_meta_quiet v m c p f : f_get_meta (ops_at v m) = Some f → always quiet (on_world (f c p)).
Proof. intros E. apply on_world_quiet. revert E. apply ops_at_fs; [done|]. intros a E. by eapply reads_get_meta. Qed.
Lemma allocate_quiet n : always quiet (on_world (pmm_allocate_contiguous n)).
Proof. apply on_world_quiet, reads_allocate. Qed.
Lemma free_quiet p n : always quiet (on_world (pmm_free_contiguous p n)).
Proof. apply on_world_quiet, reads_free. Qed.
Lemma modify_quiet (f : vfs W → vfs W) : (∀ v, view (f v) = view v) → always quiet (modify f).
Proof. intros E v _. apply E. Qed.
End Quiet.

#[export] Hint Resolve ensure_quiet open_quiet read_quiet seek_quiet close_quiet stat_quiet list_quiet list_long_quiet
  stat_ex_quiet get_meta_quiet allocate_quiet free_quiet : calls.
#[export] Hint Extern 2 (always quiet (modify _)) => (apply modify_quiet; reflexivity) : calls.
#[export] Hint Extern 2 (always quiet (put_handle _ _)) => (apply modify_quiet; reflexivity) : calls.

(** ** The calls that only read *)

Section Readers.
Context {W : Type} `{World W} {C : Type} `{!Reads W C}.

Lemma resolve_quiet p : always quiet (resolve (W:=W) p).
Proof. unfold resolve. walk_call. Qed.
#[local] Hint Resolve resolve_quiet : calls.
Lemma stat_of_quiet m p : always quiet (stat_of (W:=W) m p).
Proof. unfold stat_of. walk_call. Qed.
Lemma effective_quiet p d : always quiet (effective_meta (W:=W) p d).
Proof. unfold effective_meta. walk_call. Qed.
#[local] Hint Resolve stat_of_quiet effective_quiet : calls.
Lemma access_quiet p d w : always quiet (check_access (W:=W) p d w).
Proof. unfold check_access. walk_call. Qed.
Lemma parent_quiet p : always quiet (check_parent_write (W:=W) p).
Proof. apply access_quiet. Qed.
Lemma exists_quiet r : always quiet (path_exists (W:=W) r).
Proof. unfold path_exists. walk_call. Qed.
Lemma vfs_stat_quiet p : always quiet (vfs_stat (W:=W) p).
Proof. unfold vfs_stat. walk_call. Qed.
#[local] Hint Resolve access_quiet parent_quiet exists_quiet vfs_stat_quiet : calls.
Lemma target_quiet r : always quiet (check_write_target (W:=W) r).
Proof. unfold check_write_target. walk_call. Qed.
Lemma size_quiet p : always quiet (file_size_of (W:=W) p).
Proof. unfold file_size_of. walk_call. Qed.
Lemma handles_quiet n : always quiet (handles_ensure (W:=W) n).
Proof. unfold handles_ensure. walk_call. Qed.
#[local] Hint Resolve handles_quiet : calls.
Lemma allocate_handle_quiet : always quiet (allocate_handle (W:=W)).
Proof. unfold allocate_handle. walk_call. Qed.
Lemma open_of_quiet m p : always quiet (open_of (W:=W) m p).
Proof. unfold open_of. walk_call. Qed.
#[local] Hint Resolve allocate_handle_quiet open_of_quiet : calls.
Lemma vfs_open_quiet p : always quiet (vfs_open (W:=W) p).
Proof. unfold vfs_open. walk_call. Qed.
Lemma close_of_quiet h : always quiet (close_of (W:=W) h).
Proof. unfold close_of. walk_call. Qed.
#[local] Hint Resolve vfs_open_quiet close_of_quiet : calls.
Lemma vfs_close_quiet d : always quiet (vfs_close (W:=W) d).
Proof. unfold vfs_close. walk_call. Qed.
Lemma vfs_ref_quiet d : always quiet (vfs_ref (W:=W) d).
Proof. unfold vfs_ref. walk_call. Qed.
Lemma vfs_seek_quiet d o w : always quiet (vfs_seek (W:=W) d o w).
Proof. unfold vfs_seek. walk_call. Qed.
#[local] Hint Resolve vfs_close_quiet vfs_seek_quiet : calls.
Lemma read_with_quiet nested d n : (∀ d n, always quiet (nested d n)) → always quiet (read_with (W:=W) nested d n).
Proof. intros Hn. unfold read_with. walk_call. Qed.
Lemma vfs_read_quiet d n : always quiet (vfs_read (W:=W) d n).
Proof. apply read_with_quiet. intros. apply read_with_quiet. intros. walk_call. Qed.
#[local] Hint Resolve vfs_read_quiet : calls.
Lemma load_loop_quiet fuel fd len : ∀ k b, always quiet (load_loop (W:=W) fuel fd k len b).
Proof. induction fuel; intros k b; cbn [load_loop]; walk_call. Qed.
#[local] Hint Resolve load_loop_quiet : calls.
Lemma load_prefix_quiet p b n : always quiet (load_prefix (W:=W) p b n).
Proof. unfold load_prefix. walk_call. Qed.
Lemma handle_stat_quiet d : always quiet (vfs_handle_stat (W:=W) d).
Proof. unfold vfs_handle_stat. walk_call. Qed.
Lemma complete_quiet has copy p n b : always quiet (complete_listing (W:=W) has copy p n b).
Proof. unfold complete_listing. walk_call. Qed.
#[local] Hint Resolve complete_quiet : calls.
Lemma vfs_list_quiet p n : always quiet (vfs_list (W:=W) p n).
Proof. unfold vfs_list. walk_call. Qed.
Lemma vfs_list_long_quiet p n : always quiet (vfs_list_long (W:=W) p n).
Proof. unfold vfs_list_long. walk_call. Qed.
Lemma existing_quiet p : always quiet (resolve_existing (W:=W) p).
Proof. unfold resolve_existing. walk_call. Qed.
Lemma plain_quiet r : always quiet (plain_stat_ex (W:=W) r).
Proof. unfold plain_stat_ex. walk_call. Qed.
#[local] Hint Resolve existing_quiet plain_quiet : calls.
Lemma vfs_stat_ex_quiet p : always quiet (vfs_stat_ex (W:=W) p).
Proof. unfold vfs_stat_ex. walk_call. Qed.
Lemma get_perm_quiet p : always quiet (vfs_get_perm (W:=W) p).
Proof. unfold vfs_get_perm. walk_call. Qed.
Lemma passwd_loop_quiet fuel h : ∀ t, always quiet (passwd_loop (W:=W) fuel h t).
Proof. induction fuel; intros t; cbn [passwd_loop]; walk_call. Qed.
#[local] Hint Resolve passwd_loop_quiet : calls.
Lemma user_lookup_quiet n u : always quiet (vfs_user_lookup (W:=W) n u).
Proof. unfold vfs_user_lookup. walk_call. Qed.
End Readers.


#[export] Hint Resolve resolve_quiet access_quiet parent_quiet exists_quiet effective_quiet vfs_stat_quiet target_quiet
  size_quiet allocate_handle_quiet vfs_open_quiet vfs_close_quiet vfs_seek_quiet vfs_read_quiet load_prefix_quiet
  existing_quiet : calls.

(** ** Permission *)

Section Permission.
Context {W : Type} `{World W} {C : Type} `{!Reads W C}.
Implicit Types v : vfs W.

Definition allowed v (path : list Z) (directory : bool) (want : Z) : bool :=
  0 <=? (check_access path directory want v).1.
(** The permission to change the entries of the directory a path is in. *)
Definition allowed_parent v (path : list Z) : bool := allowed v (parent_of path VFS_PATH_MAX) true VFS_PERM_W.
(** The permission to write a file, or to make it. *)
Definition allowed_file v (r : vfs_resolved) : bool :=
  if (path_exists r v).1 then allowed v (r_path r) false VFS_PERM_W else allowed_parent v (r_path r).
(** The owner of a path, or root. *)
Definition owns v (path : list Z) : bool :=
  match (vfs_get_perm path v).1 with
  | inr (meta, _) => (v_uid v =? 0) || (v_uid v =? pm_uid meta)
  | inl _ => false
  end.
(** [P] holds of what the path resolves to. *)
Definition resolved v (path : list Z) (P : vfs_resolved → bool) : bool :=
  match (resolve path v).1 with inr r => P r | inl _ => false end.

(** The calls that change the tree. *)
Inductive change :=
| Delete (path : list Z)
| Rename (path new_name : list Z)
| Move (path dest : list Z)
| CreateFile (path : list Z)
| CreateDirectory (path : list Z)
| WriteFile (path buffer : list Z)
| AppendFile (path buffer : list Z)
| Chmod (path : list Z) (mode : Z)
| Chown (path : list Z) (uid gid : Z)
| OpenFlags (path : list Z) (flags : Z)
| Write (descriptor : Z) (buffer : list Z)
| Truncate (descriptor length : Z).

Definition run (c : change) : st (vfs W) Z :=
  match c with
  | Delete p => vfs_delete p
  | Rename p n => vfs_rename p n
  | Move p q => vfs_move p q
  | CreateFile p => vfs_create_file p
  | CreateDirectory p => vfs_create_directory p
  | WriteFile p b => vfs_write_file p b
  | AppendFile p b => vfs_append_file p b
  | Chmod p m => vfs_chmod p m
  | Chown p u g => vfs_chown p u g
  | OpenFlags p f => vfs_open_flags p f
  | Write d b => vfs_write d b
  | Truncate d n => vfs_handle_truncate d n
  end.

(** Whether the user may make the change.  The two files of the kernel log are
    open to everybody. *)
Definition may_create v path := resolved v path (λ r, is_klog_path (r_path r) || allowed_parent v (r_path r)).
Definition may_write v path := resolved v path (λ r, is_klog_path (r_path r) || allowed_file v r).
Definition may_write_handle v (descriptor : Z) : bool :=
  match get_handle v descriptor with
  | Some (_, h) => may_write v (Cstr.copy_text (h_path h) VFS_PATH_MAX)
  | None => false
  end.
Definition permitted v (c : change) : bool :=
  match c with
  | Delete p | Rename p _ | CreateDirectory p => resolved v p (λ r, allowed_parent v (r_path r))
  | Move p q => resolved v p (λ r, allowed_parent v (r_path r)) && resolved v q (λ r, allowed v (r_path r) true VFS_PERM_W)
  | CreateFile p => may_create v p
  | WriteFile p _ | AppendFile p _ => may_write v p
  | Chmod p _ => owns v p
  | Chown _ _ _ => v_uid v =? 0
  | OpenFlags p _ => may_create v p || may_write v p
  | Write d _ | Truncate d _ => may_write_handle v d
  end.

(** The calls that have nothing to do without a change. *)
Definition must_change (c : change) : Prop :=
  match c with
  | OpenFlags _ _ | Truncate _ _ => False
  | Write _ b => b ≠ []
  | _ => True
  end.

(** *** The permission does not depend on more than the view *)

#[local] Set Default Proof Using "All".

Lemma view_ready v v' m : view v' = view v → mount_ready v' m = mount_ready v m.
Proof.
  unfold view. intros [= _ _ _ E _ _ _ K]. unfold mount_ready, ops_at, context_at. rewrite E.
  destruct (f_is_ready _) as [f|] eqn:F; [|done]. unfold ops_of in F. destruct (m_ops _); [|done].
  by eapply reads_ready.
Qed.

Lemma view_meta_mount v v' p : view v' = view v → meta_mount v' p = meta_mount v p.
Proof.
  intros E. pose proof (λ m, view_ready v v' m E) as R. unfold view in E. injection E as _ _ _ E _ _ _ _.
  unfold meta_mount, ops_at in *. rewrite E. destruct (vfs_mount_find _ _ _ _) as [[m [r|]]|]; [|done..].
  set (o := ops_of _). destruct (f_get_meta o), (f_set_meta o); try done. by rewrite R.
Qed.

Lemma effective_stable v v' p d : view v' = view v → (effective_meta p d v').1 = (effective_meta p d v).1.
Proof.
  intros E. pose proof (view_meta_mount v v' p E) as M. unfold view in E. injection E as _ _ _ Em Ep _ _ Ec.
  unfold effective_meta, gets, id, mbind, st_bind. rewrite M, Ep. destruct (meta_mount v p) as [[m r]|]; [|done].
  unfold ops_at, context_at. rewrite Em. destruct (f_get_meta _) as [f|] eqn:F; [|done].
  unfold ops_of in F. destruct (m_ops _) as [o|]; [|done].
  destruct (reads_get_meta _ (m_context (slot_at (v_mounts v) m)) r f F) as [_ A].
  specialize (A _ _ Ec). cbv beta in A. unfold on_world.
  destruct (f _ r (v_world v')) as [x w], (f _ r (v_world v)) as [y u]. cbn [fst] in A. by subst.
Qed.

Lemma access_spec v p d w : settled v →
  (check_access p d w v).1 =
    (if v_uid v =? 0 then 0
     else if vfs_perm_allowed (v_uid v) (v_gid v) (effective_meta p d v).1 w then 0 else FS_ERROR_DENIED).
Proof.
  intros S. pose proof (effective_quiet p d v S) as Q. unfold check_access, gets, mbind, st_bind.
  destruct (v_uid v =? 0); [done|]. destruct (effective_meta p d v) as [x u]. cbn [fst snd] in *.
  unfold view in Q. injection Q as _ _ _ _ _ _ Eg _. by rewrite Eg.
Qed.

Lemma access_stable v v' p d w : settled v → view v' = view v → (check_access p d w v').1 = (check_access p d w v).1.
Proof.
  intros S E. rewrite !access_spec by (done || by eapply view_settled). rewrite (effective_stable v v') by done.
  unfold view in E. injection E as _ _ _ _ _ Eu Eg _. by rewrite Eu, Eg.
Qed.

(** What a check that fails does. *)
Lemma access_denied v p d w : settled v → allowed v p d w = false →
  ∃ e v', check_access p d w v = (e, v') ∧ e < 0 ∧ view v' = view v.
Proof.
  unfold allowed. intros S D. apply Z.leb_gt in D. pose proof (access_quiet p d w v S) as Q.
  destruct (check_access p d w v) as [e v']. by exists e, v'.
Qed.

Lemma resolve_state v p : settled v → (resolve p v).2 = v.
Proof.
  intros S. unfold resolve, mbind, st_bind. rewrite ensure_settled by done.
  destruct (aget 0 p 0 =? 0); [done|]. destruct (_ && _); [done|].
  destruct (vfs_alias_resolve _ _) as [[s q]|]; [|done]. destruct (s <? 0); [done|].
  unfold gets. destruct (vfs_mount_find _ _ _ _) as [[m [r|]]|]; done.
Qed.

Lemma resolve_stable v v' p : settled v → view v' = view v → (resolve p v').1 = (resolve p v).1.
Proof.
  intros S E. pose proof (view_settled v v' E S) as S'. unfold resolve, mbind, st_bind. rewrite !ensure_settled by done.
  destruct (aget 0 p 0 =? 0); [done|]. destruct (_ && _); [done|].
  destruct (vfs_alias_resolve _ _) as [[s q]|]; [|done]. destruct (s <? 0); [done|].
  unfold view in E. injection E as _ _ _ E _ _ _ _. unfold gets. rewrite E.
  destruct (vfs_mount_find _ _ _ _) as [[m [r|]]|]; done.
Qed.

Lemma exists_stable v v' r : view v' = view v → (path_exists r v').1 = (path_exists r v).1.
Proof.
  intros E. pose proof (λ m, view_ready v v' m E) as R. unfold view in E. injection E as _ _ _ Em _ _ _ Ec.
  unfold path_exists, stat_of, gets, id, mbind, st_bind. unfold ops_at, context_at in *. rewrite Em.
  destruct (f_stat _) as [f|] eqn:F; [|done]. rewrite R. destruct (mount_ready v _); [|done].
  unfold ops_of in F. destruct (m_ops _) as [o|]; [|done].
  destruct (reads_stat _ (m_context (slot_at (v_mounts v) (r_mount r))) (r_relative r) f F) as [_ A].
  specialize (A _ _ Ec). cbv beta in A. unfold on_world.
  destruct (f _ _ (v_world v')) as [x w], (f _ _ (v_world v)) as [y u]. cbn [fst] in A. by subst.
Qed.

Lemma allowed_stable v v' p d w : settled v → view v' = view v → allowed v' p d w = allowed v p d w.
Proof. intros. unfold allowed. by rewrite (access_stable v v'). Qed.

Lemma may_write_stable v v' p : settled v → view v' = view v → may_write v' p = may_write v p.
Proof.
  intros S E. unfold may_write, resolved. rewrite (resolve_stable v v') by done.
  destruct (resolve p v).1; [done|]. unfold allowed_file, allowed_parent. by rewrite (exists_stable v v'), !(allowed_stable v v').
Qed.

(** *** Calls that are refused *)

Definition refused v (x : Z * vfs W) : Prop := x.1 < 0 ∧ view x.2 = view v.

Lemma refused_ret v u e : e < 0 → view u = view v → refused v (e, u).
Proof. by split. Qed.

Lemma refused_bind {A} v u (m : st (vfs W) A) (k : A → st (vfs W) Z) :
  settled v → view u = view v → always quiet m → (∀ x t, view t = view v → refused v (k x t)) →
  refused v ((m ≫= k) u).
Proof.
  intros S E Q K. unfold mbind, st_bind. specialize (Q u (view_settled v u E S)).
  destruct (m u) as [x t]. apply K. cbn [snd] in Q. by rewrite Q.
Qed.

Lemma refused_gets {A} v u (f : vfs W → A) (k : A → st (vfs W) Z) : refused v (k (f u) u) → refused v ((gets f ≫= k) u).
Proof. done. Qed.

Lemma refused_check v u s (k : st (vfs W) Z) : view u = view v → refused v (k u) → refused v ((mret s ;;? k) u).
Proof. intros E K. unfold check, mbind, st_bind, mret, st_ret. destruct (Z.ltb_spec s 0); [by split|done]. Qed.

Lemma refused_resolve v p P (k : vfs_resolved → st (vfs W) Z) : settled v → resolved v p P = false →
  (∀ r, P r = false → refused v (k r v)) → refused v (bind_ok (resolve p) k v).
Proof.
  intros S D K. unfold resolved in D. unfold bind_ok, mbind, st_bind. pose proof (resolve_state v p S) as E.
  pose proof (resolve_error p v) as Er. destruct (resolve p v) as [[e|r] u]; cbn [fst snd] in *; subst u.
  - apply refused_ret; [by apply Er|done].
  - by apply K.
Qed.

Lemma refused_access v p d w (k : st (vfs W) Z) : settled v → allowed v p d w = false →
  refused v ((check_access p d w ;;? k) v).
Proof.
  intros S D. destruct (access_denied v p d w S D) as (e&u&E&He&V). unfold check, mbind, st_bind. rewrite E.
  rewrite (proj2 (Z.ltb_lt e 0) He). by split.
Qed.

Lemma refused_target v r (k : bool → st (vfs W) Z) : settled v → allowed_file v r = false →
  refused v (bind_ok (check_write_target r) k v).
Proof.
  intros S D. unfold bind_ok, check_write_target, mbind, st_bind, gets.
  assert ((v_uid v =? 0) = false) as U.
  { destruct (v_uid v =? 0) eqn:U; [|done]. unfold allowed_file, allowed_parent, allowed in D.
    rewrite !access_spec, U in D by done. by destruct (path_exists r v).1. }
  rewrite U. pose proof (exists_quiet r v S) as Q. unfold allowed_file in D.
  destruct (path_exists r v) as [b u]. cbn [fst snd] in Q, D. pose proof (view_settled v u Q S) as Su.
  destruct b.
  - rewrite <- (allowed_stable v u) in D by done. destruct (access_denied u _ _ _ Su D) as (e&t&E&He&V).
    unfold check, mbind, st_bind. rewrite E, (proj2 (Z.ltb_lt e 0) He). split; [exact He|]. etrans; [exact V|exact Q].
  - unfold allowed_parent in D. rewrite <- (allowed_stable v u) in D by done.
    destruct (access_denied u _ _ _ Su D) as (e&t&E&He&V).
    unfold check_parent_write, check, mbind, st_bind. rewrite E, (proj2 (Z.ltb_lt e 0) He). split; [exact He|]. etrans; [exact V|exact Q].
Qed.

Lemma delete_refused v p : settled v → resolved v p (λ r, allowed_parent v (r_path r)) = false → refused v (vfs_delete p v).
Proof.
  intros S D. eapply refused_resolve; [done..|]. intros r Dr. apply refused_gets. case_bool_decide; [by apply refused_ret|].
  apply refused_check; [done|]. by apply refused_access.
Qed.

Lemma rename_refused v p n : settled v → resolved v p (λ r, allowed_parent v (r_path r)) = false → refused v (vfs_rename p n v).
Proof.
  intros S D. eapply refused_resolve; [done..|]. intros r Dr. apply refused_gets. case_bool_decide; [by apply refused_ret|].
  apply refused_check; [done|]. by apply refused_access.
Qed.

Lemma move_refused v p q : settled v → permitted v (Move p q) = false → refused v (vfs_move p q v).
Proof.
  intros S D. cbn [permitted] in D. unfold vfs_move. unfold bind_ok at 1. unfold mbind, st_bind.
  pose proof (resolve_error p v) as Ep. pose proof (resolve_state v p S) as Sp. unfold resolved at 1 in D.
  destruct (resolve p v) as [[e|r] u]; cbn [fst snd] in *; subst u; [by apply refused_ret; [apply Ep|]|].
  unfold bind_ok, mbind, st_bind.
  pose proof (resolve_error q v) as Eq. pose proof (resolve_state v q S) as Sq. unfold resolved in D.
  destruct (resolve q v) as [[e|r'] u]; cbn [fst snd] in *; subst u; [by apply refused_ret; [apply Eq|]|].
  unfold gets, id. case_bool_decide; [by apply refused_ret|]. destruct (negb _); [by apply refused_ret|].
  apply refused_check; [done|]. destruct (allowed_parent v (r_path r)) eqn:P; [|by apply refused_access].
  cbn [andb] in D. unfold check_parent_write, check at 1, mbind, st_bind.
  pose proof (access_quiet (parent_of (r_path r) VFS_PATH_MAX) true VFS_PERM_W v S) as Q.
  unfold allowed_parent, allowed in P. destruct (check_access (parent_of _ _) _ _ v) as [s u]. cbn [fst snd] in *.
  destruct (Z.ltb_spec s 0); [by apply Z.leb_le in P; lia|]. rewrite <- (allowed_stable v u) in D by done.
  edestruct (refused_access u (r_path r') true VFS_PERM_W) as [R V]; [by eapply view_settled|exact D|].
  split; [exact R|]. etrans; [exact V|exact Q].
Qed.

Lemma create_refused v r op d : settled v → allowed_parent v (r_path r) = false → refused v (create_checked r op d v).
Proof.
  intros S D. unfold create_checked. apply refused_gets. case_bool_decide; [by apply refused_ret|].
  apply refused_check; [done|]. by apply refused_access.
Qed.

Lemma create_directory_refused v p : settled v → resolved v p (λ r, allowed_parent v (r_path r)) = false →
  refused v (vfs_create_directory p v).
Proof. intros S D. eapply refused_resolve; [done..|]. intros r Dr. by apply create_refused. Qed.

Lemma create_file_refused v p : settled v → may_create v p = false → refused v (vfs_create_file p v).
Proof.
  intros S D. eapply refused_resolve; [done..|]. intros r [Kl Dr]%orb_false_iff. apply refused_gets. rewrite Kl.
  by apply create_refused.
Qed.

Lemma write_file_refused v p b : settled v → may_write v p = false → refused v (vfs_write_file p b v).
Proof.
  intros S D. eapply refused_resolve; [done..|]. intros r [Kl Dr]%orb_false_iff. apply refused_gets. rewrite Kl.
  apply refused_check; [done|]. by apply refused_target.
Qed.

Lemma append_file_refused v p b : settled v → may_write v p = false → refused v (vfs_append_file p b v).
Proof.
  intros S D. eapply refused_resolve; [done..|]. intros r [Kl Dr]%orb_false_iff. apply refused_gets. rewrite Kl.
  apply refused_check; [done|]. by apply refused_target.
Qed.

Lemma view_uid v t : view t = view v → v_uid t = v_uid v.
Proof. unfold view. by intros [= _ _ _ _ _ -> _ _]. Qed.

(** What [resolve_existing] answers. *)
Lemma existing_spec v p : settled v → let '(x, u) := resolve_existing p v in
  view u = view v ∧ match x with inl e => e < 0 | inr _ => True end.
Proof.
  intros S. pose proof (existing_quiet p v S) as Q. destruct (resolve_existing p v) as [x u] eqn:E. split; [exact Q|].
  destruct x as [e|]; [|done]. revert E. unfold resolve_existing, bind_ok, mbind, st_bind.
  pose proof (resolve_error p v) as Er. destruct (resolve p v) as [[e'|r] v1]; [intros [= <- <-]; by apply Er|].
  destruct (stat_of _ _ v1) as [s v2]. unfold gets. destruct s as [[status info]|]; [destruct (status <? 0); [|by intros [=]]|];
    destruct (negb _); intros [=]; by subst.
Qed.

Lemma chown_refused v p u g : settled v → (v_uid v =? 0) = false → refused v (vfs_chown p u g v).
Proof.
  intros S D. unfold vfs_chown, bind_ok, mbind, st_bind. pose proof (existing_spec v p S) as X.
  destruct (resolve_existing p v) as [[e|[r d]] t]; destruct X as [V X]; [by apply refused_ret|].
  unfold gets, id. destruct (read_only_mount _ _); [by apply refused_ret|].
  rewrite (view_uid v t V), D. by apply refused_ret.
Qed.

Lemma get_perm_spec v p : (vfs_get_perm p v).1 =
  match resolve_existing p v with
  | (inl e, _) => inl e
  | (inr (r, d), t) => inr ((effective_meta (r_path r) d t).1, d)
  end.
Proof.
  unfold vfs_get_perm, bind_ok, mbind, st_bind. destruct (resolve_existing p v) as [[e|[r d]] t]; [done|].
  by destruct (effective_meta _ _ t).
Qed.

Lemma chmod_refused v p m : settled v → owns v p = false → refused v (vfs_chmod p m v).
Proof.
  intros S D. unfold owns in D. rewrite get_perm_spec in D. pose proof (existing_spec v p S) as X.
  unfold vfs_chmod, bind_ok, mbind, st_bind.
  destruct (resolve_existing p v) as [[e|[r d]] t]; destruct X as [V X]; [by apply refused_ret|].
  unfold gets, id. destruct (read_only_mount _ _); [by apply refused_ret|].
  pose proof (effective_quiet (r_path r) d t (view_settled v t V S)) as Q.
  destruct (effective_meta (r_path r) d t) as [meta t']. cbn [fst snd] in D, Q.
  apply orb_false_iff in D as [D1 D2]. rewrite (view_uid v t V), D1, D2. apply refused_ret; [done|]. by etrans; [exact Q|].
Qed.

(** *** Calls on descriptors *)

Lemma prepare_unchanged v p f : settled v → may_create v p = false → may_write v p = false →
  view (prepare_file p f v).2 = view v.
Proof.
  intros S Dc Dw. unfold prepare_file, mbind, st_bind. pose proof (vfs_stat_quiet p v S) as Q.
  destruct (vfs_stat p v) as [s u]. cbn [snd] in Q. pose proof (view_settled v u Q S) as Su.
  destruct (_ && _ && _); [done|]. destruct (_ && _); [done|]. destruct (negb _).
  - destruct (negb _); [done|]. assert (may_create u p = false) as D.
    { revert Dc. unfold may_create, resolved. rewrite (resolve_stable v u) by done. destruct (resolve p v).1; [done|].
      unfold allowed_parent. by rewrite (allowed_stable v u). }
    destruct (create_file_refused u p Su D) as [R V]. unfold check, mbind, st_bind.
    destruct (vfs_create_file p u) as [e t]. cbn [fst snd] in *. rewrite (proj2 (Z.ltb_lt e 0) R). by etrans.
  - destruct (has_flag f O_TRUNC); [|done].
    rewrite <- (may_write_stable v u) in Dw by done. destruct (write_file_refused u p [] Su Dw) as [R V].
    unfold check, mbind, st_bind. destruct (vfs_write_file p [] u) as [e t]. cbn [fst snd] in *.
    rewrite (proj2 (Z.ltb_lt e 0) R). by etrans.
Qed.

Lemma open_writable_quiet p f : always quiet (open_writable (W:=W) p f).
Proof. unfold open_writable. walk_call. Qed.

Lemma open_flags_unchanged v p f : settled v → may_create v p = false → may_write v p = false →
  view (vfs_open_flags p f v).2 = view v.
Proof.
  intros S Dc Dw. unfold vfs_open_flags. destruct (_ && _); [by apply vfs_open_quiet|].
  unfold check, mbind, st_bind. pose proof (prepare_unchanged v p f S Dc Dw) as Q. destruct (prepare_file p f v) as [e u].
  cbn [snd] in Q. pose proof (view_settled v u Q S) as Su. destruct (e <? 0); [done|]. rewrite <- Q.
  destruct (_ =? 0); [by apply vfs_open_quiet|by apply open_writable_quiet].
Qed.

Lemma load_prefix_error v p b n e : (load_prefix p b n v).1 = inl e → e < 0.
Proof.
  unfold load_prefix, mbind, st_bind. destruct (n =? 0); [done|]. destruct (vfs_open p v) as [fd u].
  destruct (Z.ltb_spec fd 0); [by intros [= <-]|]. destruct (load_loop _ _ _ _ _ u) as [b' t]. by destruct (vfs_close fd t).
Qed.

Lemma rewrite_refused v u p o d n : settled v → view u = view v → may_write v p = false → refused v (rewrite_file p o d n u).
Proof.
  intros S V D. unfold rewrite_file. apply refused_bind; [done..|apply size_quiet|]. clear u V. intros sz u V. cbv zeta.
  set (len := if n <? _ then _ else _). destruct (_ <? len); [by apply refused_ret|].
  apply refused_bind; [done..|destruct (negb _); [apply allocate_quiet|walk_call]|]. clear u V. intros phys u V.
  destruct (_ && _); [by apply refused_ret|]. set (keep := if sz <? len then _ else _). set (buf := zeros _).
  unfold mbind, st_bind. pose proof (load_prefix_quiet p buf keep u (view_settled v u V S)) as Q.
  pose proof (load_prefix_error u p buf keep) as Er. destruct (load_prefix p buf keep u) as [r t]. cbn [fst snd] in *.
  rewrite V in Q. pose proof (view_settled v t Q S) as St.
  assert (refused v (match r return st (vfs W) Z with
    | inl e => mret e | inr b => vfs_write_file p (take (Z.to_nat (u32 len)) (splice b o d)) end t)) as [R V'].
  { destruct r as [e|b]; [by apply refused_ret; [apply Er|]|]. rewrite <- (may_write_stable v t) in D by done.
    destruct (write_file_refused t p (take (Z.to_nat (u32 len)) (splice b o d)) St D) as [R V']. split; [exact R|by etrans]. }
  destruct (match r return st (vfs W) Z with inl e => _ | inr b => _ end t) as [status t']. cbn [fst snd] in *.
  destruct (negb (phys =? 0)); [|by apply refused_ret].
  pose proof (free_quiet phys ((len + 4095) / 4096) t' (view_settled v t' V' S)) as Q'.
  destruct (on_world _ t') as [x t'']. cbn [snd] in Q'. apply refused_ret; [done|]. by rewrite Q'.
Qed.

Lemma write_refused v d b : settled v → may_write_handle v d = false → b ≠ [] → refused v (vfs_write d b v).
Proof.
  intros S D Hb. unfold vfs_write. apply refused_gets. unfold id. unfold may_write_handle in D.
  destruct (get_handle v d) as [[i h]|]; [|by apply refused_ret]. case_bool_decide; [by apply refused_ret|].
  destruct (Z.eqb_spec (Z.of_nat (length b)) 0) as [E|_]; [by destruct b|].
  set (path := Cstr.copy_text (h_path h) VFS_PATH_MAX) in *.
  apply refused_bind; [done..|apply size_quiet|]. intros sz u V. cbv zeta. pose proof (view_settled v u V S) as Su.
  set (ap := _ || _). unfold mbind, st_bind.
  assert (refused v ((if ap then vfs_append_file path b else rewrite_file path (h_position h) b sz) u)) as [R V'].
  { destruct ap; [|by apply rewrite_refused]. rewrite <- (may_write_stable v u) in D by done.
    destruct (append_file_refused u path b Su D) as [R V']. split; [exact R|by etrans]. }
  destruct ((if ap then vfs_append_file path b else rewrite_file path (h_position h) b sz) u) as [e t]. cbn [fst snd] in *. rewrite (proj2 (Z.ltb_lt e 0) R). by apply refused_ret.
Qed.

Lemma truncate_unchanged v d n : settled v → may_write_handle v d = false → view (vfs_handle_truncate d n v).2 = view v.
Proof.
  intros S D. unfold vfs_handle_truncate, gets, id, mbind, st_bind. unfold may_write_handle in D.
  destruct (get_handle v d) as [[i h]|]; [|done]. case_bool_decide; [done|].
  set (path := Cstr.copy_text (h_path h) VFS_PATH_MAX) in *. pose proof (size_quiet path v S) as Q.
  destruct (file_size_of path v) as [sz u]. cbn [snd] in Q. pose proof (view_settled v u Q S) as Su.
  destruct (n =? sz); [done|]. destruct (n =? 0).
  - rewrite <- (may_write_stable v u) in D by done. destruct (write_file_refused u path [] Su D) as [_ V]. by etrans.
  - destruct (rewrite_refused v u path 0 [] n S Q D) as [_ V]. by destruct (rewrite_file _ _ _ _ u).
Qed.

(** *** The theorems *)

(** C13: Once the mounts have been made, and whatever the mounted file systems are, a
    user who lacks the permission for a change of the tree changes nothing:
    creating, deleting, renaming and moving need write access to the directories,
    writing a file write access to it, a new mode its owner, a new owner root, and
    the calls on descriptors ask again; the refused call fails and neither the
    content of the file systems nor the mounts and modes have changed.  Two paths
    are excepted, as the code excepts them: the files of the kernel log, which
    every user may write and truncate. *)
Theorem vfs_changes_permitted v c : settled v → permitted v c = false →
  view (run c v).2 = view v ∧ (must_change c → (run c v).1 < 0).
Proof.
  intros S D. destruct c; cbn [run permitted must_change] in *.
  - destruct (delete_refused v path S D). done.
  - destruct (rename_refused v path new_name S D). done.
  - destruct (move_refused v path dest S D). done.
  - destruct (create_file_refused v path S D). done.
  - destruct (create_directory_refused v path S D). done.
  - destruct (write_file_refused v path buffer S D). done.
  - destruct (append_file_refused v path buffer S D). done.
  - destruct (chmod_refused v path mode S D). done.
  - destruct (chown_refused v path uid gid S D). done.
  - apply orb_false_iff in D as [Dc Dw]. split; [by apply open_flags_unchanged|done].
  - destruct buffer as [|x b]; [|by destruct (write_refused v descriptor (x :: b) S D)].
    split; [|done]. unfold vfs_write, gets, id, mbind, st_bind. destruct (get_handle v descriptor) as [[i h]|]; [|done].
    by case_bool_decide.
  - split; [by apply truncate_unchanged|done].
Qed.
End Permission.

(** ** The system of [Live] *)

(** What the users of the running system see of its files. *)
Definition live_content (w : live) : gmap Z (list Tmpfs.node) * Initramfs.initramfs :=
  (Tmpfs.nodes <$> l_tmpfs w, l_initramfs w).

(** A call of an instance that does not touch its nodes. *)
Lemma instance_keeps {A} (none : A) c (f : Tmpfs.tmpfs → A * Tmpfs.tmpfs) :
  (∀ s, Tmpfs.nodes (f s).2 = Tmpfs.nodes s) → keeps live_content (on_instance none c f).
Proof.
  intros K w. unfold on_instance. destruct (l_tmpfs w !! c) as [s|] eqn:E; [|done].
  specialize (K (set_field Tmpfs.t_pmm (λ _, l_pmm w) s)). destruct (f _) as [r t].
  unfold live_content. cbn [snd l_tmpfs l_initramfs] in *. f_equal. cbn. rewrite fmap_insert, K. cbn.
  apply insert_id. by rewrite lookup_fmap, E.
Qed.

Lemma ask_keeps {A} (none : A) c (f : Tmpfs.tmpfs → A) : keeps live_content (ask_instance none c f).
Proof. by intros w. Qed.

Lemma ask_answers {A} (none : A) c (f : Tmpfs.tmpfs → A) :
  (∀ s t, Tmpfs.nodes s = Tmpfs.nodes t → f s = f t) → answers live_content (λ w, (ask_instance none c f w).1).
Proof.
  intros K w w' [= E _]. unfold ask_instance. cbn [fst]. f_equal.
  pose proof (f_equal (.!! c) E) as Ec. cbv beta in Ec. rewrite !lookup_fmap in Ec.
  destruct (l_tmpfs w !! c) as [s|], (l_tmpfs w' !! c) as [t|]; try done. injection Ec as Ec. cbn. by rewrite (K s t).
Qed.

Lemma lookup_nodes s t p : Tmpfs.nodes s = Tmpfs.nodes t → Tmpfs.lookup s p = Tmpfs.lookup t p.
Proof.
  intros E. unfold Tmpfs.lookup. destruct (negb _); [done|]. f_equal. generalize (S (length p)) as n.
  intros n. generalize Tmpfs.TMPFS_ROOT. revert p. induction n as [|n IH]; intros p c; [done|]. cbn [Tmpfs.lookup_loop].
  assert (∀ q x, Tmpfs.find_child s q x = Tmpfs.find_child t q x) as Ef
    by (intros; unfold Tmpfs.find_child, Tmpfs.node_at; by rewrite E).
  assert (Tmpfs.node_at s c = Tmpfs.node_at t c) as En by (unfold Tmpfs.node_at; by rewrite E).
  destruct (skip_slashes p) as [|x q]; [done|]. destruct (component (x :: q)) as [name r]. rewrite En, Ef.
  destruct (negb _); [done|]. destruct (_ <? 0); [done|]. apply IH.
Qed.

Lemma stat_nodes s t p : Tmpfs.nodes s = Tmpfs.nodes t → Tmpfs.tmpfs_stat p s = Tmpfs.tmpfs_stat p t.
Proof. intros E. unfold Tmpfs.tmpfs_stat, Tmpfs.node_at. by rewrite (lookup_nodes s t), E. Qed.

Lemma open_nodes p s : Tmpfs.nodes (Tmpfs.tmpfs_open p s).2 = Tmpfs.nodes s.
Proof.
  unfold Tmpfs.tmpfs_open. destruct (_ <? 0); [done|]. destruct (Tmpfs.n_directory _); [done|]. by destruct (for_first _ _ _).
Qed.
Lemma read_nodes d n s : Tmpfs.nodes (Tmpfs.tmpfs_read d n s).2 = Tmpfs.nodes s.
Proof. unfold Tmpfs.tmpfs_read. destruct (Tmpfs.get_handle s d); [|done]. cbv zeta. by destruct (_ <=? _). Qed.
Lemma seek_nodes d o w s : Tmpfs.nodes (Tmpfs.tmpfs_seek d o w s).2 = Tmpfs.nodes s.
Proof. unfold Tmpfs.tmpfs_seek. destruct (Tmpfs.get_handle s d); [|done]. cbv zeta. by destruct (_ <? 0). Qed.
Lemma close_nodes d s : Tmpfs.nodes (Tmpfs.tmpfs_close d s).2 = Tmpfs.nodes s.
Proof. unfold Tmpfs.tmpfs_close. by destruct (Tmpfs.get_handle s d). Qed.

(** The four tables of functions, one after the other. *)
Lemma live_tables (P : fs_table live → Prop) a :
  P tmpfs_table → P initramfs_table → P kernelfs_table → P no_fs → P (live_fs_at a).
Proof. intros. unfold live_fs_at. destruct (a =? _); [done|]. destruct (a =? _); [done|]. by destruct (a =? _). Qed.

Ltac each_table a := refine (live_tables (λ t, _ t = Some _ → _) a _ _ _ _); [..|done]; intros [= <-].

#[export] Instance live_reads : Reads live (gmap Z (list Tmpfs.node) * Initramfs.initramfs).
Proof.
  refine {| content := live_content |}; cbn [fs_at live_world].
  - intros a c p f. each_table a. apply instance_keeps, open_nodes.
  - intros a c d n f. each_table a. apply instance_keeps, read_nodes.
  - intros a c d o w f. each_table a. apply instance_keeps, seek_nodes.
  - intros a c d f. each_table a. apply instance_keeps, close_nodes.
  - intros a c p f. each_table a; [split; [apply ask_keeps|apply ask_answers; intros; by apply stat_nodes]|split; [done|]..].
    + intros w w' [= _ E]. unfold initramfs_op_stat. by rewrite E.
    + done.
  - intros a c p n f. each_table a; [apply ask_keeps|done..].
  - intros a c p n f. each_table a; [apply ask_keeps|done..].
  - intros a c p f. each_table a. apply ask_keeps.
  - intros a c p f. each_table a.
  - intros a c f. each_table a. intros w w' [= _ E]. by rewrite E.
  - intros n w. cbn. by destruct (Pmm.pmm_allocate_contiguous n (l_pmm w)).
  - done.
Defined.

(** Root makes a file in /home and one in /tmp; then a user without privileges
    is running. *)
Definition with_files : vfs live :=
  ((vfs_write_file (text "/tmp/b") [2] ((vfs_write_file (text "/home/a") [1] live_system).2)).2)
    <| v_uid := 1000 |> <| v_gid := 1000 |>.

Lemma with_files_settled : settled with_files.
Proof. split; vm_compute; reflexivity. Qed.

Definition delete_a : change := Delete (text "/home/a").

Lemma vfs_changes_permitted_witness :
  (run delete_a with_files).1 = FS_ERROR_DENIED ∧ view (run delete_a with_files).2 = view with_files.
Proof.
  assert (permitted with_files delete_a = false) as D by (vm_compute; reflexivity).
  pose proof (vfs_changes_permitted with_files delete_a with_files_settled D) as [V _].
  split; [vm_compute; reflexivity|exact V].
Defined.

(** The mode of /tmp, 01777, carries the bit that lets only owners remove
    entries, and nothing reads it: the user removes the file of root. *)
Example sticky_bit_ignored :
  (effective_meta (text "/tmp") true with_files).1 = PermMeta 1023 0 0 ∧
  pm_uid (effective_meta (text "/tmp/b") false with_files).1 = 0 ∧
  (vfs_delete (text "/tmp/b") with_files).1 = 0 ∧
  (vfs_stat (text "/tmp/b") (vfs_delete (text "/tmp/b") with_files).2).1.1 = FS_ERROR_NOT_FOUND.
Proof. vm_compute. done. Qed.
